(* ===== verification/_CoqProject ===== *)
-Q . S2P
Prelude.v
Redis.v
CircuitBreaker.v
Pool.v
Concurrent.v
Election.v
Sql.v
Permission.v
World.v
Executor.v
Execution.v
Cleanup.v
Cron.v
System.v
GrpcServer.v
TaskExecutor.v
ExecutorClient.v
Crypto.v
RsaUtil.v
Users.v
UserGuards.v
ApiToken.v
Auth.v
Sessions.v
Access.v
DatasourceService.v
Manager.v
HivePool.v
Text.v
GoTime.v
SystemConfig.v
AuditLog.v
TaskHandler.v
ExecutorHandler.v
Roles.v
Charts.v
Dashboard.v
Config.v
Webhook.v
HttpTest.v
Proto.v
Lab.v
ApiTest.v
DatasourceHandler.v
DatasourceRoutes.v
QueryRegistry.v
QueryCluster.v
SqlText.v
RedisDriver.v
Cache.v
Query.v
SqlDrivers.v
HiveDriver.v
