(* ===== verification/Prelude.v ===== *)
(** * BDopsFlow: a verification library for the scheduler and the executor

    BDopsFlow runs scheduled tasks.  Several scheduler nodes share an rqlite
    database and a Redis; one of them leads, fires tasks by cron or on
    request and sends them over gRPC to executors, which run them in a worker
    pool.  The schedulers also answer queries to data sources, under
    permissions, circuit breakers and concurrency limits.  Paths below are
    under [src/].

    ** How the program is modelled

    A handler of the program is a function in the monad [M] of this file: it
    takes the state it shares and the list of fates of the calls it will
    make, and returns its answer with the state it leaves.  A call to Redis
    or rqlite succeeds, fails before it reached the service, or is applied
    while its reply is lost; [ [] ] is the run without faults.  Theorems about
    [run m s []] say what a handler does when nothing fails; theorems about
    [run m s fs], [preserves] and [triple] hold under every fault.  A handler
    reads one clock value, and runs without another handler in between unless
    a file says otherwise (the permits of [Concurrent], the workers of
    [Pool], the nodes of [Election] and the lock of [Cron] interleave at the
    steps those files list, like the sections of [Manager], the threads of
    [HivePool], the steps of [TaskExecutor] and the nodes of [QueryCluster];
    [Cleanup] splits a dispatch in two to interleave it with a sweep, [Query] a
    query at its call).

    Redis and rqlite are not in the repository: [Redis] is a class of the
    commands with the laws of its documentation, and [Sql] models the
    statements, whose text is in the repository, on tables that are lists of
    rows.  Goroutines are entries of [spawned] and run as steps of their own;
    tasks sent, webhooks delivered, cancel signals and calls to the cron
    scheduler are recorded as effects.  The dispatcher, connectivity checks,
    cron expressions, [RANDOM()] and [SCAN] are parameters.

    ** The files

    - [Prelude]: machine integers, the monad and its logic ([preserves],
      [triple], [reachable_invariant]), list and string lemmas.
    - [Redis]: the command interface, its laws, and a server of finite maps
      that satisfies them.
    - [CircuitBreaker]: [scheduler/internal/datasource/circuit_breaker.go].
      The code's counters refine a three-phase specification.
    - [Pool]: [executor/internal/pool/pool.go].  Workers and channels as a
      transition system: no task is lost or run twice, what [UpdateCapacity]
      does on every branch, and that shrinking stops at most half.
    - [Concurrent]: [scheduler/internal/datasource/concurrent.go].  Permits
      never exceed the limit under every interleaving of Redis commands and
      every fault, until a counter in use expires.
    - [Election]: [scheduler/pkg/election/leader.go].  Handlers are programs
      that send one Redis command at a time.  At most one leader holds a fresh
      lease when whoever read the key acts before the lease it read runs out,
      and not otherwise; callbacks alternate; published addresses are read
      back.
    - [Sql]: tables, statements, [ORDER BY], [LIKE], paging, and the class of
      handlers that only read ([answers]).
    - [Permission]: [scheduler/internal/service/permission_service.go] and
      [role_admin.go].  What a permission check decides under faults, the
      closure of role inheritance (termination on cycles), the protection of
      system roles.
    - [World]: rows, effects, errors and keys the service's handlers share,
      and the rules for running them ([clean], [reads]).
    - [Executor]: [scheduler/internal/service/executor_service.go],
      [executor_domain.go].  Selection refines its specification; a name in
      use on a live host is not taken over; assignment of domains.
    - [Execution]: [task_service.go], [execution_service.go] and the webhook
      part of [scheduler_core.go].  How a dispatch ends, retries, skipping,
      cancelling, tenant isolation of lists and deletions.
    - [Cleanup]: [cleanup_service.go], heartbeats, failover.  The sweeps fail
      exactly the orphans, keep the locks of running executions; what a new
      leader adopts.
    - [Cron]: [scheduler/internal/cron/cron_scheduler.go].  Registrations,
      the lock across nodes, the guards of a firing.
    - [System]: the handlers above as the steps of one system.  The record
      [Frame] is the interface: an invariant closed under the elementary
      changes it lists is kept by every handler but a dispatch.  With it: no
      execution is sent twice, retries are bounded, followers send nothing.
      Each step may meet other surroundings (streams, reachable executors),
      so that the components around the service refine it.
    - [GrpcServer]: [scheduler/internal/grpcserver/server.go].  Requests and
      streams, refining [System]; cancellations are answered exactly once.
    - [TaskExecutor], [ExecutorClient]: the executor process,
      [executor/internal/executor/task_executor.go] and
      [executor/internal/grpcclient/client.go].  The inventory of running
      tasks (exact while no two calls have the same execution id), shutdown, the search for the leader, and heartbeats joined to
      the server of [GrpcServer].
    - [Crypto]: [scheduler/internal/datasource/crypto.go].  Encryption and
      key rotation over a cipher of which only [Open] after [Seal] is known.
    - [RsaUtil]: [scheduler/pkg/rsautil/rsautil.go].  Encryption of passwords
      and tokens in both formats.
    - [Users], [UserGuards]: [service/user_admin.go], [domain_admin.go] and
      their handlers.  Accounts, roles, domains; who may give what to whom.
    - [ApiToken]: [service/api_token.go] and [handler/api_token.go].  The
      interface [token_closed] is what the middleware relies on.
    - [Auth], [Sessions]: [middleware/auth.go], [service/auth_service.go],
      [handler/auth.go], and the routes of [cmd/routes.go] that concern
      accounts, as the steps of one system: sessions are earned, the
      administration is guarded, accounts stay well formed.
    - [Access]: [permission.go] and [service.go] of the data sources and
      [scheduler/internal/service/instance_permission.go].  Permission types
      as an order, grants, and the agreement of the two checks.
    - [DatasourceService]: [scheduler/internal/datasource/service.go].  Data
      sources, query history, saved queries.
    - [Manager]: [scheduler/internal/datasource/manager.go].  Calls of
      [GetDriver] as sequences of critical sections that overlap.
    - [HivePool]: [datasource/driver/hive_pool.go].  Calls as threads; every
      connection is accounted for, and how many there may be.
    - [Text]: the functions of Go's [strings] and [strconv] that are used.
    - [GoTime]: [Format], [Parse] and [AddDate] of Go's [time], and the readers
      of times in [service/helpers.go].
    - [SystemConfig]: [system_config/service.go] and its handlers.  Settings
      stay in range; what setting one does.
    - [AuditLog]: [middleware/audit.go], [service/audit_log.go],
      [handler/audit_log.go].  Which requests are recorded as what, where
      entries are while writers and cleanings interleave, what a cleaning
      removes.
    - [TaskHandler]: [handler/task.go] and [handler/log.go].  Requests refine
      steps of [System], what is stored is well formed, and the event stream of
      an execution sends each line of its log once.
    - [ExecutorHandler]: [handler/executor.go] and [executor_domain.go].  The
      status a list shows, who sees which executor, what a request changes.
    - [Roles]: [handler/role_admin.go], [permission_handler.go] and their
      routes.  Who may change roles, what assigning permissions leaves, the
      groups that are shown.
    - [Charts]: [service/grafana_dashboard.go] and its handler.  Stored charts
      stay valid, and the list shows them in the order that was given.
    - [Dashboard]: [service/dashboard_service.go] and [handler/dashboard.go].
      The numbers of one domain do not depend on the others, trends add up,
      and when a node is healthy.
    - [Config]: [scheduler/pkg/config/config.go], the configurations of both
      programs over it and the addresses of [executor/cmd/main.go].  What a
      dotted name finds in a file, and that reading a file again changes
      nothing.
    - [Webhook]: [service/webhook.go] and [handler/webhook.go].  Stored
      webhooks stay well formed, a request touches one of them, and what a
      delivery posts is signed.
    - [HttpTest]: [service/http_executor.go] and the address check of
      [grpc_executor.go].  The hosts a test contacts, redirects followed,
      and the [curl] command shown for it, read back by a model of the shell.
    - [Proto]: the reader of definitions in [service/proto_service.go].
    - [Lab]: [service/certificate_service.go], [proto_service.go] and their
      handlers, [handler/common.go].
    - [ApiTest]: [service/api_test_service.go], [handler/api_test_handler.go].
      Every row a user may change is the user's, and what an environment
      supplies to a test.
    - [DatasourceHandler], [DatasourceRoutes]: [handler/datasource.go], the
      history and the saved queries of [handler/query.go], and their routes.
      Requests as sequences of elementary changes of one kind; who may change
      what, who lets statements write, and what the list shows.
    - [QueryRegistry], [QueryCluster]: [handler/query_registry.go] and
      [query_registry_distributed.go].  The class [queryRegistry] is the
      interface of the handlers, [queryRegistryLaws] what both registries
      promise; one node of the shared registry refines the local one, and
      the nodes of a cluster agree.
    - [SqlText]: row limits, the read-only check, error classes and retries
      ([datasource/driver/base.go], [errors.go]).
    - [RedisDriver]: commands and tables of [datasource/driver/redis.go].
    - [SqlDrivers]: [datasource/driver/base.go] and the drivers [mysql.go],
      [doris.go], [starrocks.go], [sqlite.go], [trino.go], [rqlite_driver.go].
      The class [Driver] is their interface; pools stay within their limit,
      names read back, and where a query for a database runs.
    - [HiveDriver]: [hive.go], [kyuubi.go], [spark.go].  Every query gives its
      connection back or throws it away, and runs in its database.
    - [Cache]: [scheduler/internal/datasource/cache.go].
    - [Query]: [scheduler/internal/handler/query.go], proved against the laws
      of [queryRegistryLaws]: what runs, and that what was started ends.

    ** State and correspondence

    Definitions keep the names of the source.  A row is a record with the
    fields of its Go struct; where two structs share a field name the fields
    carry a prefix ([t_ID], [x_ID], [e_ID]).  NULL numbers are 0 or [None] as
    the scanning code reads them; times are nanoseconds.  Integers are [Z];
    [int32] and [int64] mark where the code's width matters.  Errors are the
    constructors of an [error] type per service, with their texts where the
    program stores them.

    ** Bounds and fuel

    [Permission.walk] takes the roles left to visit as its fuel: the walk of
    the program starts with as many as there are role rows, and [walk_spec]
    shows that it always returns, with the whole closure.  [Cleanup.scan_locks]
    takes one unit of fuel per page because [SCAN] itself sets the number of
    pages; its theorem holds for every fuel, since more pages only repeat the
    same step.  [Manager.GetDriver] runs at most eleven critical sections,
    which [GetDriver_alone] proves enough.  [SqlText.replace_all] and
    [Text.trim_front] consume a character in each round, so the length is
    enough; [Proto.FindAll] starts with one more than the length, which
    [find_all_enough] proves enough; [HttpTest.follow] counts the redirects the
    client of the standard library allows; [AuditLog.clean_loop] needs one unit for
    each thousand rows; [Cache.invalidate_loop] runs for the [max_pages] of the law that
    says a scan ends, and its theorem says that it returns.  All other
    recursion is structural.

    ** Not modelled

    The requests that delete records of executions are operations of
    [Execution] and no steps of [System], whose theorems are about runs in which
    no record is deleted.  The decoding of HTTP requests, start-up, the generated gRPC code,
    the protocols of the data sources, running scripts and requests
    on an executor, the reflection and the calls of gRPC tests, metrics,
    logging, WeCom messages, the web front end: they are input and output around
    the parts above and keep no state of their own.  The packages [scheduler/internal/lineage] and [scheduler/pkg/lock]
    are imported by no part of the program. *)
From Stdlib Require Export ZArith Lia.
From Stdlib Require Import Ascii.
From stdpp Require Export base tactics list gmap strings pretty option relations.

#[export] Set Default Goal Selector "!".

Open Scope Z_scope.

(** ** Machine integers and durations *)

(** Two's complement wrap-around at [bits] bits: Go's [int32], [int64] and
    [time.Duration] arithmetic. *)
Definition wrap (bits x : Z) : Z :=
  (x + 2 ^ (bits - 1)) mod 2 ^ bits - 2 ^ (bits - 1).

Definition int32 (x : Z) : Z := wrap 32 x.
Definition int64 (x : Z) : Z := wrap 64 x.

(** [time.Duration] counts nanoseconds. *)
Definition Second : Z := 1000000000.
Definition Minute : Z := 60 * Second.

Lemma wrap_small bits x :
  0 < bits → - 2 ^ (bits - 1) ≤ x < 2 ^ (bits - 1) → wrap bits x = x.
Proof.
  intros Hb Hx. unfold wrap.
  replace (2 ^ bits) with (2 * 2 ^ (bits - 1))
    by (rewrite <- Z.pow_succ_r by lia; f_equal; lia).
  rewrite Z.mod_small; lia.
Qed.

Lemma wrap_range bits x :
  0 < bits → - 2 ^ (bits - 1) ≤ wrap bits x < 2 ^ (bits - 1).
Proof.
  intros Hb. unfold wrap.
  assert (0 < 2 ^ (bits - 1)) by (apply Z.pow_pos_nonneg; lia).
  replace (2 ^ bits) with (2 * 2 ^ (bits - 1))
    by (rewrite <- Z.pow_succ_r by lia; f_equal; lia).
  pose proof (Z.mod_pos_bound (x + 2 ^ (bits - 1)) (2 * 2 ^ (bits - 1)) ltac:(lia)).
  lia.
Qed.

Lemma int64_small x : - 2 ^ 63 ≤ x < 2 ^ 63 → int64 x = x.
Proof. intros Hx. by apply wrap_small. Qed.

Lemma int32_small x : - 2 ^ 31 ≤ x < 2 ^ 31 → int32 x = x.
Proof. intros Hx. by apply wrap_small. Qed.

Lemma wrap_add_l bits x y : 0 < bits → wrap bits (wrap bits x + y) = wrap bits (x + y).
Proof.
  intros Hb. unfold wrap.
  replace ((x + 2 ^ (bits - 1)) mod 2 ^ bits - 2 ^ (bits - 1) + y + 2 ^ (bits - 1))
    with ((x + 2 ^ (bits - 1)) mod 2 ^ bits + y) by lia.
  rewrite Zplus_mod_idemp_l. do 2 f_equal. lia.
Qed.

Lemma int64_add_l x y : int64 (int64 x + y) = int64 (x + y).
Proof. by apply wrap_add_l. Qed.

(** [fmt.Sprintf("%d", n)]. *)
Definition fmt_d (n : Z) : string := pretty n.

Lemma fmt_d_inj a b : fmt_d a = fmt_d b → a = b.
Proof. apply (inj pretty). Qed.

(** ** Results *)

(** A Go [(value, error)] pair of which exactly one side is meaningful. *)
Inductive result (E A : Type) : Type :=
| Ok (a : A)
| Err (e : E).
Arguments Ok {E A} a.
Arguments Err {E A} e.

#[export] Instance result_eq_dec {E A} `{EqDecision E, EqDecision A} :
  EqDecision (result E A).
Proof. solve_decision. Defined.

(** ** External calls

    A call to Redis or to rqlite can fail.  What happens to one call is its
    [fate]: it succeeds ([Fine]), it fails without reaching the service
    ([Lost]), or the service applied it and only the reply was lost
    ([Ghost]).  A handler is a function of the state it shares and of the
    fates of the calls it will make, in order; when the list of fates is
    used up the remaining calls succeed, so [[]] is the run without faults. *)
Inductive fate : Type := Fine | Lost | Ghost.

#[export] Instance fate_eq_dec : EqDecision fate.
Proof. solve_decision. Defined.

Definition M (S A : Type) : Type := S → list fate → A * (S * list fate).

Section monad.
Context {S : Type}.

#[export] Instance M_ret : MRet (M S) := λ A a s fs, (a, (s, fs)).

#[export] Instance M_bind : MBind (M S) := λ A B k m s fs,
  let '(a, (s', fs')) := m s fs in k a s' fs'.

(** Reading and writing the process's own memory never fails. *)
Definition gets {A} (f : S → A) : M S A := λ s fs, (f s, (s, fs)).
Definition modify (f : S → S) : M S unit := λ s fs, (tt, (f s, fs)).

(** One command sent to a service: [None] is Go's [err != nil]. *)
Definition call {A} (op : S → A * S) : M S (option A) := λ s fs,
  match fs with
  | [] => let '(a, s') := op s in (Some a, (s', []))
  | Fine :: fs' => let '(a, s') := op s in (Some a, (s', fs'))
  | Lost :: fs' => (None, (s, fs'))
  | Ghost :: fs' => let '(_, s') := op s in (None, (s', fs'))
  end.

Definition run {A} (m : M S A) (s : S) (fs : list fate) : A * S :=
  let '(a, (s', _)) := m s fs in (a, s').

(** [for _, x := range xs { body }] with no early exit. *)
Fixpoint for_each {A} (xs : list A) (body : A → M S unit) : M S unit :=
  match xs with
  | [] => mret tt
  | x :: xs' => _ ← body x; for_each xs' body
  end.

(** [P] is kept by every run of [m], whatever the fates. *)
Definition preserves (P : S → Prop) {A} (m : M S A) : Prop :=
  ∀ s fs, P s → P (m s fs).2.1.

Lemma preserves_ret P {A} (a : A) : preserves P (mret a).
Proof. intros s fs HP. exact HP. Qed.

Lemma preserves_bind P {A B} (m : M S A) (k : A → M S B) :
  preserves P m → (∀ a, preserves P (k a)) → preserves P (m ≫= k).
Proof.
  intros Hm Hk s fs HP. unfold mbind, M_bind.
  specialize (Hm s fs HP). destruct (m s fs) as [a [s' fs']]. by apply Hk.
Qed.

Lemma preserves_gets P {A} (f : S → A) : preserves P (gets f).
Proof. intros s fs HP. exact HP. Qed.

Lemma preserves_modify P f : (∀ s, P s → P (f s)) → preserves P (modify f).
Proof. intros Hf s fs HP. by apply Hf. Qed.

Lemma preserves_call P {A} (op : S → A * S) :
  (∀ s, P s → P (op s).2) → preserves P (call op).
Proof.
  intros Hop s fs HP. specialize (Hop s HP). unfold call.
  destruct fs as [|[] fs]; destruct (op s); done.
Qed.

Lemma preserves_for_each P {A} (xs : list A) (body : A → M S unit) :
  (∀ x, preserves P (body x)) → preserves P (for_each xs body).
Proof.
  intros Hb. induction xs as [|x xs IH]; simpl; [apply preserves_ret|].
  apply preserves_bind; [apply Hb|]. intros _. apply IH.
Qed.

(** [{P} m {Q}]: from [P], whatever the fates, [m] ends in [Q]. *)
Definition triple (P : S → Prop) {A} (m : M S A) (Q : A → S → Prop) : Prop :=
  ∀ s fs, P s → Q (m s fs).1 (m s fs).2.1.

Lemma triple_ret {A} (a : A) (P : S → Prop) (Q : A → S → Prop) :
  (∀ s, P s → Q a s) → triple P (mret a) Q.
Proof. intros HPQ s fs HP. by apply HPQ. Qed.

Lemma triple_bind {A B} P (m : M S A) Q (k : A → M S B) Q' :
  triple P m Q → (∀ a, triple (Q a) (k a) Q') → triple P (m ≫= k) Q'.
Proof.
  intros Hm Hk s fs HP. unfold mbind, M_bind.
  specialize (Hm s fs HP). destruct (m s fs) as [a [s' fs']]. by apply Hk.
Qed.

Lemma triple_gets {A} (f : S → A) (P : S → Prop) (Q : A → S → Prop) :
  (∀ s, P s → Q (f s) s) → triple P (gets f) Q.
Proof. intros HPQ s fs HP. by apply HPQ. Qed.

Lemma triple_modify f (P : S → Prop) (Q : unit → S → Prop) :
  (∀ s, P s → Q tt (f s)) → triple P (modify f) Q.
Proof. intros HPQ s fs HP. by apply HPQ. Qed.

Lemma triple_call {A} (op : S → A * S) (P : S → Prop) (Q : option A → S → Prop) :
  (∀ s, P s → Q (Some (op s).1) (op s).2 ∧ Q None s ∧ Q None (op s).2) →
  triple P (call op) Q.
Proof.
  intros HPQ s fs HP. destruct (HPQ s HP) as (Hf & Hl & Hg).
  unfold call. destruct fs as [|[] fs]; destruct (op s); done.
Qed.

Lemma triple_weaken {A} (P P' : S → Prop) (m : M S A) (Q Q' : A → S → Prop) :
  triple P m Q → (∀ s, P' s → P s) → (∀ a s, Q a s → Q' a s) → triple P' m Q'.
Proof. intros Hm HP HQ s fs HPs. by apply HQ, Hm, HP. Qed.

Lemma triple_preserved {A} (P : S → Prop) (m : M S A) : preserves P m → triple P m (λ _, P).
Proof. intros Hm s fs HP. by apply Hm. Qed.

(** A handler of a part of the state, as a handler of the whole. *)
Definition zoom {T A} (get : S → T) (put : T → S → S) (m : M T A) : M S A := λ s fs,
  let '(a, (t, fs')) := m (get s) fs in (a, (put t s, fs')).

Lemma run_state {A} (m : M S A) s fs : (run m s fs).2 = (m s fs).2.1.
Proof. unfold run. by destruct (m s fs) as [a [s' fs']]. Qed.
Lemma run_answer {A} (m : M S A) s fs : (run m s fs).1 = (m s fs).1.
Proof. unfold run. by destruct (m s fs) as [a [s' fs']]. Qed.
Lemma run_preserves {A} (P : S → Prop) (m : M S A) s fs :
  preserves P m → P s → P (run m s fs).2.
Proof. intros Hm HP. specialize (Hm s fs HP). unfold run. by destruct (m s fs) as [a [s' fs']]. Qed.
Lemma run_triple {A} (P : S → Prop) (m : M S A) Q s fs :
  triple P m Q → P s → Q (run m s fs).1 (run m s fs).2.
Proof. intros Hm HP. specialize (Hm s fs HP). unfold run. by destruct (m s fs) as [a [s' fs']]. Qed.

Lemma run_bind {A B} (m : M S A) (k : A → M S B) s fs :
  (m ≫= k) s fs = let '(a, (s', fs')) := m s fs in k a s' fs'.
Proof. done. Qed.
End monad.

(** Handlers keep an invariant when their steps do. *)
Create HintDb handler.
#[export] Hint Resolve preserves_ret preserves_gets preserves_modify
  preserves_call preserves_for_each : handler.

Ltac preserves_step :=
  match goal with
  | |- preserves _ (_ ≫= _) => apply preserves_bind; [|intros ?]
  | |- preserves _ (mret _) => apply preserves_ret
  | |- preserves _ (gets _) => apply preserves_gets
  | |- preserves _ (for_each _ _) => apply preserves_for_each; intros ?
  | |- preserves _ (match ?x with _ => _ end) => destruct x eqn:?
  end.

(** ** State machines *)

Section reachable.
Context {S : Type} (step : S → S → Prop) (init : S → Prop).

Definition reachable (s : S) : Prop := ∃ s0, init s0 ∧ rtc step s0 s.

(** Rule induction over reachable states. *)
Lemma reachable_invariant (I : S → Prop) :
  (∀ s, init s → I s) →
  (∀ s s', I s → step s s' → I s') →
  ∀ s, reachable s → I s.
Proof.
  intros H0 Hstep s (s0 & Hi & Hrtc).
  apply H0 in Hi. induction Hrtc; eauto.
Qed.
End reachable.

(** ** Lists *)

Lemma filter_length_le {A} (P : A → Prop) `{∀ x, Decision (P x)} (l : list A) :
  (length (filter P l) ≤ length l)%nat.
Proof. induction l as [|x l IH]; [done|]. rewrite filter_cons. case_decide; simpl; lia. Qed.

(** [existsb] as a decidable membership test. *)
Lemma existsb_elem_of {A} (f : A → bool) (l : list A) :
  existsb f l = true ↔ ∃ x, x ∈ l ∧ f x = true.
Proof.
  rewrite existsb_exists. split; intros (x & Hin & Hx); exists x;
    (split; [by apply list_elem_of_In|done]).
Qed.

Lemma existsb_false_iff {A} (f : A → bool) (l : list A) :
  existsb f l = false ↔ ∀ x, x ∈ l → f x = false.
Proof.
  rewrite <- not_true_iff_false, existsb_elem_of. split.
  - intros Hno x Hx. apply not_true_iff_false. intros Hf. apply Hno. eauto.
  - intros Hall (x & Hx & Hf). specialize (Hall x Hx). congruence.
Qed.

Lemma sum_list_with_insert {A} (f : A → nat) (l : list A) i x y :
  l !! i = Some x →
  (sum_list_with f (<[i := y]> l) + f x = sum_list_with f l + f y)%nat.
Proof.
  revert i. induction l as [|z l IH]; intros [|i] Hi; simplify_eq/=; [lia|].
  specialize (IH i Hi). lia.
Qed.

Lemma sum_list_with_le {A} (f g : A → nat) (l : list A) :
  (∀ x, x ∈ l → (f x ≤ g x)%nat) → (sum_list_with f l ≤ sum_list_with g l)%nat.
Proof.
  induction l as [|z l IH]; intros Hle; simpl; [lia|].
  pose proof (Hle z ltac:(by left)). specialize (IH ltac:(intros; apply Hle; by right)). lia.
Qed.

Lemma sum_list_with_bound {A} (f : A → nat) (b : nat) (l : list A) :
  (∀ x, x ∈ l → (f x ≤ b)%nat) → (sum_list_with f l ≤ length l * b)%nat.
Proof.
  induction l as [|z l IH]; intros Hle; simpl; [lia|].
  pose proof (Hle z ltac:(by left)). specialize (IH ltac:(intros; apply Hle; by right)). lia.
Qed.

(** ** Strings *)

Lemma string_app_cons c s t : String c s +:+ t = String c (s +:+ t).
Proof. done. Qed.

#[export] Instance string_app_assoc : Assoc (=) String.append.
Proof.
  intros s1 s2 s3. induction s1 as [|c s1 IH]; [done|]. by rewrite !string_app_cons, IH.
Qed.

#[export] Instance string_app_nil_r : RightId (=) "" String.append.
Proof. intros s. induction s as [|c s IH]; [done|]. by rewrite string_app_cons, IH. Qed.
Lemma append_nil (a : string) : a +:+ "" = a.
Proof. apply (right_id_L "" String.append). Qed.

Lemma prefix_exists s h : String.prefix s h = true → ∃ t, h = s +:+ t.
Proof.
  revert h. induction s as [|c s IH]; intros h; [by exists h|].
  destruct h as [|c' h]; simpl; [done|].
  destruct (Ascii.ascii_dec c c') as [->|]; [|done].
  intros (t & ->)%IH. by exists t.
Qed.

Lemma prefix_app s t : String.prefix s (s +:+ t) = true.
Proof.
  induction s as [|c s IH]; [by destruct t|]. rewrite string_app_cons. simpl.
  by destruct (Ascii.ascii_dec c c).
Qed.

Lemma string_length_app s t :
  String.length (s +:+ t) = (String.length s + String.length t)%nat.
Proof. induction s as [|c s IH]; [done|]. rewrite string_app_cons. simpl. by rewrite IH. Qed.

(** Texts that stand for values, for the codecs of the witnesses. *)
Fixpoint write_bits (p : positive) : string :=
  match p with
  | xH => ""
  | xO p => String "0"%char (write_bits p)
  | xI p => String "1"%char (write_bits p)
  end.
Fixpoint read_bits (s : string) : positive :=
  match s with
  | String "0"%char s => xO (read_bits s)
  | String _ s => xI (read_bits s)
  | EmptyString => xH
  end.

Lemma read_write_bits p : read_bits (write_bits p) = p.
Proof. induction p as [p IH|p IH|]; simpl; congruence. Qed.

Definition write_text {A} `{Countable A} (a : A) : string := write_bits (encode a).
Definition read_text {A} `{Countable A} (s : string) : option A := decode (read_bits s).

Lemma read_write_text {A} `{Countable A} (a : A) : read_text (write_text a) = Some a.
Proof. unfold read_text, write_text. rewrite read_write_bits. apply decode_encode. Qed.
