(* ===== verification/Redis.v ===== *)
(** * Redis

    Redis is a service the repository calls through go-redis; its code is not
    part of the repository.  [Redis] is the interface the components program
    against: one operation per command they send.  [RedisLaws] states what
    the Redis documentation says of these commands, over [entry], the value
    and the optional deadline a key is bound to.  [gmap_redis] is a concrete
    server that satisfies the laws; the witnesses run on it.

    Times are nanoseconds; the commands that depend on the clock take the
    server's time [now].  A stored integer is kept as [VInt], standing for its
    decimal rendering. *)
From S2P Require Import Prelude.

Inductive rval : Type :=
| VStr (s : string)
| VInt (n : Z)
| VHash (h : gmap string string).

#[export] Instance rval_eq_dec : EqDecision rval.
Proof. solve_decision. Defined.

(** The deadline [SET key value EX/PX] stores: go-redis sends no expiry at
    all when the duration is not positive. *)
Definition deadline (now ttl : Z) : option Z :=
  if 0 <? ttl then Some (now + ttl) else None.

Definition expired (now : Z) (d : option Z) : bool :=
  match d with Some t => t <=? now | None => false end.

(** The integer [INCR] sees: a missing key counts as 0. *)
Definition as_int (v : option rval) : option Z :=
  match v with
  | None => Some 0
  | Some (VInt n) => Some n
  | Some _ => None
  end.

Class Redis (R : Type) := {
  entry : R → string → option (rval * option Z);
  GET : Z → string → R → option rval;
  EXISTS : Z → string → R → bool;
  HGET : Z → string → string → R → option string;
  SET : Z → string → rval → Z → R → R;
  SETNX : Z → string → rval → Z → R → bool * R;
  DEL : string → R → R;
  EXPIRE : Z → string → Z → R → R;
  INCRBY : Z → string → Z → R → option Z * R;
  HSET : Z → string → list (string * string) → R → R;
}.

(** The binding of [k] a client observes at time [now]. *)
Definition live `{Redis R} (now : Z) (k : string) (r : R) : option (rval * option Z) :=
  match entry r k with
  | Some (v, d) => if expired now d then None else Some (v, d)
  | None => None
  end.

Definition int64_ok (n : Z) : bool := (- 2 ^ 63 <=? n) && (n <? 2 ^ 63).

(** The fields of a hash, [None] when the key holds another type. *)
Definition as_hash (v : option rval) : option (gmap string string) :=
  match v with
  | None => Some ∅
  | Some (VHash h) => Some h
  | Some _ => None
  end.

Definition hash_set (h : gmap string string) (fs : list (string * string)) :
    gmap string string :=
  foldl (λ h '(f, v), <[f := v]> h) h fs.

Class RedisLaws (R : Type) `{Redis R} : Prop := {
  GET_spec now k r : GET now k r = fst <$> live now k r;
  EXISTS_spec now k r : EXISTS now k r = bool_decide (is_Some (live now k r));
  HGET_spec now k f r :
    HGET now k f r = (as_hash (fst <$> live now k r) ≫= λ h, h !! f);
  SET_spec now k v ttl r k' :
    entry (SET now k v ttl r) k' =
      if decide (k = k') then Some (v, deadline now ttl) else entry r k';
  SETNX_spec now k v ttl r :
    SETNX now k v ttl r =
      match live now k r with
      | Some _ => (false, r)
      | None => (true, SET now k v ttl r)
      end;
  DEL_spec k r k' :
    entry (DEL k r) k' = if decide (k = k') then None else entry r k';
  EXPIRE_spec now k ttl r k' :
    0 < ttl →
    entry (EXPIRE now k ttl r) k' =
      if decide (k = k')
      then match live now k r with
           | Some (v, _) => Some (v, Some (now + ttl))
           | None => None
           end
      else entry r k';
  INCRBY_reply now k d r n :
    as_int (fst <$> live now k r) = Some n → int64_ok (n + d) = true →
    (INCRBY now k d r).1 = Some (n + d);
  INCRBY_spec now k d r n k' :
    as_int (fst <$> live now k r) = Some n → int64_ok (n + d) = true →
    entry (INCRBY now k d r).2 k' =
      if decide (k = k')
      then Some (VInt (n + d), live now k r ≫= snd)
      else entry r k';
  HSET_spec now k fs r h k' :
    as_hash (fst <$> live now k r) = Some h →
    entry (HSET now k fs r) k' =
      if decide (k = k')
      then Some (VHash (hash_set h fs), live now k r ≫= snd)
      else entry r k';
}.

(** ** What a client observes after a command *)
Section derived.
Context `{RedisLaws R}.
Implicit Types (r : R) (k : string).

Lemma live_entry now k r r' : entry r k = entry r' k → live now k r = live now k r'.
Proof. unfold live. by intros ->. Qed.

Lemma live_SET_eq now t k v ttl r :
  live t k (SET now k v ttl r) =
    if expired t (deadline now ttl) then None else Some (v, deadline now ttl).
Proof. unfold live. rewrite SET_spec. by rewrite decide_True by done. Qed.

Lemma live_SET_ne now t k k' v ttl r :
  k ≠ k' → live t k' (SET now k v ttl r) = live t k' r.
Proof. intros Hne. apply live_entry. rewrite SET_spec. by rewrite decide_False. Qed.

Lemma live_DEL_eq t k r : live t k (DEL k r) = None.
Proof. unfold live. rewrite DEL_spec. by rewrite decide_True by done. Qed.

Lemma live_DEL_ne t k k' r : k ≠ k' → live t k' (DEL k r) = live t k' r.
Proof. intros Hne. apply live_entry. rewrite DEL_spec. by rewrite decide_False. Qed.

Lemma live_INCRBY_ne now t k k' d r n :
  as_int (fst <$> live now k r) = Some n → int64_ok (n + d) = true →
  k ≠ k' → live t k' (INCRBY now k d r).2 = live t k' r.
Proof.
  intros Hn Hok Hne. apply live_entry.
  rewrite (INCRBY_spec _ _ _ _ n) by done. by rewrite decide_False.
Qed.

Lemma live_INCRBY_eq now t k d r n :
  as_int (fst <$> live now k r) = Some n → int64_ok (n + d) = true →
  live t k (INCRBY now k d r).2 =
    if expired t (live now k r ≫= snd) then None
    else Some (VInt (n + d), live now k r ≫= snd).
Proof.
  intros Hn Hok. unfold live at 1. rewrite (INCRBY_spec _ _ _ _ n) by done.
  by rewrite decide_True by done.
Qed.

Lemma live_EXPIRE_ne now t k k' ttl r :
  0 < ttl → k ≠ k' → live t k' (EXPIRE now k ttl r) = live t k' r.
Proof.
  intros Httl Hne. apply live_entry. rewrite EXPIRE_spec by done.
  by rewrite decide_False.
Qed.

Lemma live_EXPIRE_eq now t k ttl r :
  0 < ttl →
  live t k (EXPIRE now k ttl r) =
    match live now k r with
    | Some (v, _) => if now + ttl <=? t then None else Some (v, Some (now + ttl))
    | None => None
    end.
Proof.
  intros Httl. unfold live at 1. rewrite EXPIRE_spec by done.
  rewrite decide_True by done. by destruct (live now k r) as [[v d]|].
Qed.

(** A live key has a deadline in the future, if it has one. *)
Lemma live_not_expired now k r v d : live now k r = Some (v, d) → expired now d = false.
Proof.
  unfold live. destruct (entry r k) as [[v' d']|]; [|done].
  destruct (expired now d') eqn:E; [done|]. by intros [= -> ->].
Qed.
End derived.

#[export] Hint Rewrite @live_SET_ne @live_DEL_ne @live_DEL_eq using done : redis.

(** ** [Get(...).Result()]: a value, [redis.Nil], or another error *)
Inductive get_reply : Type :=
| GetVal (s : string)
| GetNil
| GetErr.

Definition get_value (v : option rval) : get_reply :=
  match v with
  | None => GetNil
  | Some (VStr s) => GetVal s
  | Some (VInt n) => GetVal (fmt_d n)
  | Some (VHash _) => GetErr
  end.

Definition get_str `{Redis R} (now : Z) (k : string) : M R get_reply :=
  o ← call (λ r, (get_value (GET now k r), r));
  mret (default GetErr o).

(** ** A concrete server *)

Definition gmap_store := gmap string (rval * option Z).

Definition gmap_live (now : Z) (k : string) (r : gmap_store) : option (rval * option Z) :=
  match (r : gmap string _) !! k with
  | Some (v, d) => if expired now d then None else Some (v, d)
  | None => None
  end.

#[export] Instance gmap_redis : Redis gmap_store := {
  entry r k := (r : gmap string _) !! k;
  GET now k r := fst <$> gmap_live now k r;
  EXISTS now k r := bool_decide (is_Some (gmap_live now k r));
  HGET now k f r := as_hash (fst <$> gmap_live now k r) ≫= λ h, h !! f;
  SET now k v ttl r := <[k := (v, deadline now ttl)]> (r : gmap string _);
  SETNX now k v ttl r :=
    match gmap_live now k r with
    | Some _ => (false, r)
    | None => (true, <[k := (v, deadline now ttl)]> (r : gmap string _))
    end;
  DEL k r := delete k (r : gmap string _);
  EXPIRE now k ttl r :=
    match gmap_live now k r with
    | Some (v, _) => <[k := (v, Some (now + ttl))]> (r : gmap string _)
    | None => delete k (r : gmap string _)
    end;
  INCRBY now k d r :=
    match as_int (fst <$> gmap_live now k r) with
    | Some n =>
        if int64_ok (n + d)
        then (Some (n + d),
              <[k := (VInt (n + d), gmap_live now k r ≫= snd)]> (r : gmap string _))
        else (None, r)
    | None => (None, r)
    end;
  HSET now k fs r :=
    match as_hash (fst <$> gmap_live now k r) with
    | Some h => <[k := (VHash (hash_set h fs), gmap_live now k r ≫= snd)]> (r : gmap string _)
    | None => r
    end;
}.

Lemma gmap_live_live now k (r : gmap_store) : live now k r = gmap_live now k r.
Proof. done. Qed.

#[export] Instance gmap_redis_laws : RedisLaws gmap_store.
Proof.
  constructor; intros; rewrite ?gmap_live_live in *; simpl in *; try done.
  - by rewrite lookup_insert.
  - by rewrite lookup_delete.
  - destruct (gmap_live now k r) as [[v d]|] eqn:E.
    + by rewrite lookup_insert.
    + by rewrite lookup_delete.
  - rewrite H, H0. done.
  - rewrite H, H0. simpl. by rewrite lookup_insert.
  - rewrite H. simpl. by rewrite lookup_insert.
Qed.
