(* ===== verification/CircuitBreaker.v ===== *)
(** * The datasource circuit breaker

    [src/scheduler/internal/datasource/circuit_breaker.go]: the record behind
    the mutex, one definition per method, the abstract three-phase breaker it
    is meant to be, and the proof that every run of the methods is a run of
    the abstract one.  Each method runs under [cb.mu], so a call is atomic;
    it reads the clock once, as the argument [now]. *)
From S2P Require Import Prelude.

(** ** Definitions *)

Inductive CircuitState : Type :=
| CircuitStateClosed
| CircuitStateOpen
| CircuitStateHalfOpen.

#[export] Instance CircuitState_eq_dec : EqDecision CircuitState.
Proof. solve_decision. Defined.

Definition CircuitState_String (s : CircuitState) : string :=
  match s with
  | CircuitStateClosed => "closed"
  | CircuitStateOpen => "open"
  | CircuitStateHalfOpen => "half-open"
  end.

Record CircuitBreaker : Type := mkCircuitBreaker {
  state : CircuitState;
  failureCount : Z;
  failureThreshold : Z;
  recoveryTimeout : Z;
  successThreshold : Z;
  lastFailureTime : option Z;
  lastStateChange : Z;
  datasourceID : Z;
}.

#[export] Instance CircuitBreaker_eq_dec : EqDecision CircuitBreaker.
Proof. solve_decision. Defined.

Definition NewCircuitBreaker (now id : Z) : CircuitBreaker :=
  {| state := CircuitStateClosed;
     failureCount := 0;
     failureThreshold := 5;
     recoveryTimeout := 30 * Second;
     successThreshold := 2;
     lastFailureTime := None;
     lastStateChange := now;
     datasourceID := id |}.

(** The assignments [cb.state = st; cb.failureCount = n;
    cb.lastStateChange = time.Now()]. *)
Definition transition (cb : CircuitBreaker) (st : CircuitState) (n now : Z) : CircuitBreaker :=
  {| state := st;
     failureCount := n;
     failureThreshold := failureThreshold cb;
     recoveryTimeout := recoveryTimeout cb;
     successThreshold := successThreshold cb;
     lastFailureTime := lastFailureTime cb;
     lastStateChange := now;
     datasourceID := datasourceID cb |}.

Definition set_failureCount (cb : CircuitBreaker) (n : Z) : CircuitBreaker :=
  {| state := state cb;
     failureCount := n;
     failureThreshold := failureThreshold cb;
     recoveryTimeout := recoveryTimeout cb;
     successThreshold := successThreshold cb;
     lastFailureTime := lastFailureTime cb;
     lastStateChange := lastStateChange cb;
     datasourceID := datasourceID cb |}.

Definition set_lastFailureTime (cb : CircuitBreaker) (t : Z) : CircuitBreaker :=
  {| state := state cb;
     failureCount := failureCount cb;
     failureThreshold := failureThreshold cb;
     recoveryTimeout := recoveryTimeout cb;
     successThreshold := successThreshold cb;
     lastFailureTime := Some t;
     lastStateChange := lastStateChange cb;
     datasourceID := datasourceID cb |}.

Definition AllowRequest (now : Z) (cb : CircuitBreaker) : bool * CircuitBreaker :=
  match state cb with
  | CircuitStateClosed => (true, cb)
  | CircuitStateOpen =>
      if recoveryTimeout cb <? now - lastStateChange cb
      then (true, transition cb CircuitStateHalfOpen 0 now)
      else (false, cb)
  | CircuitStateHalfOpen => (true, cb)
  end.

Definition RecordSuccess (now : Z) (cb : CircuitBreaker) : CircuitBreaker :=
  match state cb with
  | CircuitStateHalfOpen =>
      let cb := set_failureCount cb (int64 (failureCount cb + 1)) in
      if successThreshold cb <=? failureCount cb
      then transition cb CircuitStateClosed 0 now
      else cb
  | CircuitStateClosed => set_failureCount cb 0
  | CircuitStateOpen => cb
  end.

Definition RecordFailure (now : Z) (cb : CircuitBreaker) : CircuitBreaker :=
  let cb := set_failureCount cb (int64 (failureCount cb + 1)) in
  let cb := set_lastFailureTime cb now in
  match state cb with
  | CircuitStateClosed =>
      if failureThreshold cb <=? failureCount cb
      then transition cb CircuitStateOpen (failureCount cb) now
      else cb
  | CircuitStateHalfOpen => transition cb CircuitStateOpen 0 now
  | CircuitStateOpen => cb
  end.

Definition GetState (cb : CircuitBreaker) : CircuitState := state cb.
Definition GetFailureCount (cb : CircuitBreaker) : Z := failureCount cb.

Definition Reset (now : Z) (cb : CircuitBreaker) : CircuitBreaker :=
  transition cb CircuitStateClosed 0 now.

(** A call of one method at a time; the reply is [AllowRequest]'s. *)
Inductive event : Type :=
| EvAllow (now : Z)
| EvSuccess (now : Z)
| EvFailure (now : Z)
| EvReset (now : Z).

Definition apply (e : event) (cb : CircuitBreaker) : option bool * CircuitBreaker :=
  match e with
  | EvAllow now => let '(b, cb') := AllowRequest now cb in (Some b, cb')
  | EvSuccess now => (None, RecordSuccess now cb)
  | EvFailure now => (None, RecordFailure now cb)
  | EvReset now => (None, Reset now cb)
  end.

Fixpoint run_events {S} (step : event → S → option bool * S) (es : list event) (s : S) :
    list (option bool) * S :=
  match es with
  | [] => ([], s)
  | e :: es' =>
      let '(o, s1) := step e s in
      let '(os, s2) := run_events step es' s1 in (o :: os, s2)
  end.

(** ** The abstract breaker *)

Module Spec.
(** Closed with the number of failures in a row, open since a time, or half
    open with the number of successful probes. *)
Inductive phase : Type :=
| Closed (failures : nat)
| Open (since : Z)
| HalfOpen (successes : nat).

Definition trip_after : nat := 5.
Definition close_after : nat := 2.
Definition cool_down : Z := 30 * Second.

Definition step (e : event) (p : phase) : option bool * phase :=
  match e, p with
  | EvAllow now, Open t =>
      if cool_down <? now - t then (Some true, HalfOpen 0) else (Some false, Open t)
  | EvAllow _, _ => (Some true, p)
  | EvSuccess _, Closed _ => (None, Closed 0)
  | EvSuccess _, HalfOpen n =>
      (None, if (close_after <=? S n)%nat then Closed 0 else HalfOpen (S n))
  | EvFailure now, Closed n =>
      (None, if (trip_after <=? S n)%nat then Open now else Closed (S n))
  | EvFailure now, HalfOpen _ => (None, Open now)
  | EvReset _, _ => (None, Closed 0)
  | _, Open _ => (None, p)
  end.
End Spec.

(** ** Invariant and abstraction *)

(** The counter is the length of the current run of failures (closed) or of
    probes (half open); it never reaches its threshold in these states. *)
Definition wf (cb : CircuitBreaker) : Prop :=
  failureThreshold cb = 5 ∧ successThreshold cb = 2 ∧
  recoveryTimeout cb = 30 * Second ∧
  match state cb with
  | CircuitStateClosed => 0 ≤ failureCount cb < 5
  | CircuitStateHalfOpen => 0 ≤ failureCount cb < 2
  | CircuitStateOpen => True
  end.

Definition abs (cb : CircuitBreaker) : Spec.phase :=
  match state cb with
  | CircuitStateClosed => Spec.Closed (Z.to_nat (failureCount cb))
  | CircuitStateOpen => Spec.Open (lastStateChange cb)
  | CircuitStateHalfOpen => Spec.HalfOpen (Z.to_nat (failureCount cb))
  end.

Lemma wf_New now id : wf (NewCircuitBreaker now id).
Proof. unfold wf; simpl; lia. Qed.

Lemma int64_succ_small n : 0 ≤ n < 5 → int64 (n + 1) = n + 1.
Proof. intros Hn. apply int64_small. lia. Qed.

Lemma nat_leb_Z (m : Z) (n : nat) : 0 ≤ m → (n <=? S (Z.to_nat m))%nat = (Z.of_nat n <=? m + 1).
Proof. intros Hm. destruct (Nat.leb_spec n (S (Z.to_nat m))), (Z.leb_spec (Z.of_nat n) (m + 1)); lia. Qed.

#[local] Arguments Nat.leb : simpl never.

(** One call of the code is one step of the abstract breaker. *)
Lemma apply_simulates e cb :
  wf cb →
  wf (apply e cb).2 ∧
  Spec.step e (abs cb) = ((apply e cb).1, abs (apply e cb).2).
Proof.
  intros (Hf & Hs & Hr & Hc).
  destruct cb as [st n ft rt sut lf lsc id]; simpl in *; subst.
  unfold wf, abs.
  destruct e as [now|now|now|now]; destruct st; simpl in *;
    unfold AllowRequest, RecordSuccess, RecordFailure, set_failureCount,
      set_lastFailureTime, transition, Reset, Spec.cool_down, Spec.trip_after,
      Spec.close_after; simpl.
  all: try (split; [lia|done]).
  - destruct (30 * Second <? now - lsc); simpl; split; try lia; done.
  - rewrite int64_succ_small by lia. rewrite (nat_leb_Z n 2) by lia. change (Z.of_nat 2) with 2.
    destruct (Z.leb_spec 2 (n + 1)); simpl; (split; [lia|]); [done|].
    by replace (Z.to_nat (n + 1)) with (S (Z.to_nat n)) by lia.
  - rewrite int64_succ_small by lia. rewrite (nat_leb_Z n 5) by lia. change (Z.of_nat 5) with 5.
    destruct (Z.leb_spec 5 (n + 1)); simpl; (split; [lia|]); [done|].
    by replace (Z.to_nat (n + 1)) with (S (Z.to_nat n)) by lia.
Qed.

Lemma run_simulates es cb :
  wf cb →
  wf (run_events apply es cb).2 ∧
  run_events Spec.step es (abs cb) =
    ((run_events apply es cb).1, abs (run_events apply es cb).2).
Proof.
  revert cb. induction es as [|e es IH]; intros cb Hwf; [done|].
  simpl. destruct (apply_simulates e cb Hwf) as [Hwf' Hst].
  destruct (apply e cb) as [o cb1] eqn:E. simpl in *. rewrite Hst.
  destruct (IH cb1 Hwf') as [Hwf2 Hrun].
  destruct (run_events apply es cb1) as [os cb2]. simpl in *. by rewrite Hrun.
Qed.

(** ** Theorems *)

(** C10: Started fresh and driven by any sequence of [AllowRequest],
    [RecordSuccess], [RecordFailure] and [Reset] calls at any times, the
    breaker gives the replies of the abstract breaker (trips after five
    failures in a row, cools down for thirty seconds, closes after two
    successful probes, reopens on a failed probe) and ends in the matching
    phase. *)
Theorem breaker_refines_spec (now id : Z) (es : list event) :
  run_events Spec.step es (Spec.Closed 0) =
    ((run_events apply es (NewCircuitBreaker now id)).1,
     abs (run_events apply es (NewCircuitBreaker now id)).2).
Proof. exact (proj2 (run_simulates es _ (wf_New now id))). Qed.

Definition event_time (e : event) : Z :=
  match e with EvAllow t | EvSuccess t | EvFailure t | EvReset t => t end.

Definition is_reset (e : event) : bool :=
  match e with EvReset _ => true | _ => false end.

(** An open breaker is not moved by anything but a late [AllowRequest] or a
    [Reset]. *)
Lemma open_step_stays e cb :
  wf cb → state cb = CircuitStateOpen → is_reset e = false →
  event_time e ≤ lastStateChange cb + 30 * Second →
  state (apply e cb).2 = CircuitStateOpen ∧
  lastStateChange (apply e cb).2 = lastStateChange cb ∧
  (apply e cb).1 = match e with EvAllow _ => Some false | _ => None end.
Proof.
  intros (Hf & Hs & Hr & _) Hst He Ht.
  destruct cb as [st n ft rt sut lf lsc id]; simpl in *; subst.
  destruct e; simpl in *; try done.
  unfold AllowRequest; simpl. by rewrite (proj2 (Z.ltb_ge _ _)) by lia.
Qed.

(** While a breaker is open and its thirty second cool-down has not
    passed, every [AllowRequest] is refused and the breaker stays open,
    whatever successes and failures are recorded in between. *)
Theorem open_rejects_during_cooldown (cb : CircuitBreaker) (es : list event) :
  wf cb → state cb = CircuitStateOpen →
  Forall (λ e, is_reset e = false ∧ event_time e ≤ lastStateChange cb + 30 * Second) es →
  Forall (λ o, o ≠ Some true) (run_events apply es cb).1 ∧
  state (run_events apply es cb).2 = CircuitStateOpen.
Proof.
  revert cb. induction es as [|e es IH]; intros cb Hwf Hst Hall; [by split|].
  apply Forall_cons in Hall as [[He Ht] Hall].
  destruct (open_step_stays e cb Hwf Hst He Ht) as (Hst' & Hlsc & Ho).
  destruct (apply_simulates e cb Hwf) as [Hwf' _]. simpl.
  destruct (apply e cb) as [o cb1]. simpl in *.
  specialize (IH cb1 Hwf' Hst'). rewrite Hlsc in IH. specialize (IH Hall).
  destruct (run_events apply es cb1) as [os cb2]. simpl in *.
  split; [|apply IH]. constructor; [|apply IH]. subst. by destruct e.
Qed.

(** ** Tripping *)

(** A record of outcomes: [true] for [RecordSuccess], with its time. *)
Definition outcome_event (r : bool * Z) : event :=
  if r.1 then EvSuccess r.2 else EvFailure r.2.

Definition five_failures_in_a_row (rs : list (bool * Z)) : Prop :=
  ∃ pre mid suf, rs = pre ++ mid ++ suf ∧ length mid = 5%nat ∧ Forall (λ r, r.1 = false) mid.

Definition starts_with_failures (k : nat) (rs : list (bool * Z)) : Prop :=
  ∃ mid suf, rs = mid ++ suf ∧ length mid = k ∧ Forall (λ r, r.1 = false) mid.

Definition is_open (p : Spec.phase) : Prop :=
  match p with Spec.Open _ => True | _ => False end.

Lemma spec_open_absorbs rs t :
  is_open (run_events Spec.step (outcome_event <$> rs) (Spec.Open t)).2.
Proof.
  induction rs as [|[[] t'] rs IH]; simpl; [done| |];
    by destruct (run_events Spec.step _ _).
Qed.

Lemma five_cons r rs :
  five_failures_in_a_row (r :: rs) ↔
    starts_with_failures 5 (r :: rs) ∨ five_failures_in_a_row rs.
Proof.
  split.
  - intros ([|r' pre] & mid & suf & Heq & Hl & Hf); simplify_eq/=.
    + left. by exists mid, suf.
    + right. by exists pre, mid, suf.
  - intros [(mid & suf & Heq & Hl & Hf)|(pre & mid & suf & -> & Hl & Hf)].
    + by exists [], mid, suf.
    + by exists (r :: pre), mid, suf.
Qed.

Lemma starts_cons k t rs :
  starts_with_failures (S k) ((false, t) :: rs) ↔ starts_with_failures k rs.
Proof.
  split.
  - intros ([|r mid] & suf & Heq & Hl & Hf); simplify_eq/=.
    apply Forall_cons in Hf as [_ Hf]. by exists mid, suf.
  - intros (mid & suf & -> & <- & Hf). exists ((false, t) :: mid), suf.
    split; [done|]. split; [done|]. by constructor.
Qed.

Lemma starts_success k t rs : ¬ starts_with_failures (S k) ((true, t) :: rs).
Proof.
  intros ([|r mid] & suf & Heq & Hl & Hf); simplify_eq/=.
  by apply Forall_cons in Hf as [? _].
Qed.

Lemma starts_weaken j k rs :
  (j ≤ k)%nat → starts_with_failures k rs → starts_with_failures j rs.
Proof.
  intros Hjk (mid & suf & -> & <- & Hf). exists (take j mid), (drop j mid ++ suf).
  rewrite app_assoc, take_drop. split; [done|]. rewrite length_take.
  split; [lia|]. by apply Forall_take.
Qed.

Lemma spec_trips_iff n rs :
  (n < 5)%nat →
  is_open (run_events Spec.step (outcome_event <$> rs) (Spec.Closed n)).2 ↔
    starts_with_failures (5 - n) rs ∨ five_failures_in_a_row rs.
Proof.
  revert n. induction rs as [|[ok t] rs IH]; intros n Hn.
  - simpl. split; [done|]. intros [(mid & suf & Heq & Hl & _)|(pre & mid & suf & Heq & Hl & _)].
    + symmetry in Heq. apply app_eq_nil in Heq as [-> _]. simpl in Hl. lia.
    + symmetry in Heq. apply app_eq_nil in Heq as [_ Heq].
      apply app_eq_nil in Heq as [-> _]. done.
  - rewrite five_cons. destruct ok; simpl.
    + specialize (IH 0%nat ltac:(lia)).
      destruct (run_events Spec.step _ (Spec.Closed 0)) as [os p]. simpl in *.
      rewrite IH. simpl. replace (5 - n)%nat with (S (4 - n)) by lia.
      split; [|intros [[]%starts_success|[[]%starts_success|?]]; by right].
      intros [H|H]; right; [|by right]. right.
      destruct H as (mid & suf & ? & ? & ?). by exists [], mid, suf.
    + unfold Spec.trip_after. destruct (Nat.leb_spec 5 (S n)) as [Hle|Hlt].
      * pose proof (spec_open_absorbs rs t) as Ho.
        destruct (run_events Spec.step _ (Spec.Open t)) as [os p]. simpl in *.
        split; [|done]. intros _. left. replace (5 - n)%nat with 1%nat by lia.
        exists [(false, t)], rs. repeat split; [by constructor].
      * specialize (IH (S n) ltac:(lia)).
        destruct (run_events Spec.step _ (Spec.Closed (S n))) as [os p]. simpl in *.
        rewrite IH. replace (5 - n)%nat with (S (5 - S n)) by lia.
        rewrite !starts_cons. split; [intuition|].
        intros [H|[H|H]]; [by left| |by right]. left. eapply starts_weaken, H. lia.
Qed.

Lemma abs_open_iff cb : is_open (abs cb) ↔ state cb = CircuitStateOpen.
Proof. unfold abs. by destruct (state cb). Qed.

(** From a fresh breaker, a history of recorded outcomes opens it exactly
    when the history contains five failures in a row. *)
Theorem trips_iff_five_failures_in_a_row (now id : Z) (rs : list (bool * Z)) :
  state (run_events apply (outcome_event <$> rs) (NewCircuitBreaker now id)).2
    = CircuitStateOpen ↔
  five_failures_in_a_row rs.
Proof.
  rewrite <- abs_open_iff.
  pose proof (proj2 (run_simulates (outcome_event <$> rs) _ (wf_New now id))) as Hsim.
  pose proof (spec_trips_iff 0 rs ltac:(lia)) as Hspec.
  change (abs (NewCircuitBreaker now id)) with (Spec.Closed 0) in Hsim.
  rewrite Hsim in Hspec. simpl in Hspec. rewrite Hspec.
  split; [|by right]. intros [(mid & suf & ? & ? & ?)|?]; [by exists [], mid, suf|done].
Qed.

(** ** Witnesses *)

Definition tripped : CircuitBreaker :=
  (run_events apply (replicate 5 (EvFailure 100)) (NewCircuitBreaker 0 7)).2.

Example open_rejects_during_cooldown_witness :
  Forall (λ o, o ≠ Some true)
    (run_events apply [EvAllow 200; EvSuccess 300; EvAllow (30 * Second)] tripped).1 ∧
  state (run_events apply [EvAllow 200; EvSuccess 300; EvAllow (30 * Second)] tripped).2
    = CircuitStateOpen.
Proof.
  apply open_rejects_during_cooldown; [vm_compute; auto|reflexivity|].
  repeat constructor; vm_compute; intros H; discriminate H.
Defined.
