(* ===== verification/Pool.v ===== *)
(** * The executor's worker pool

    [src/executor/internal/pool/pool.go].  Channels and worker goroutines are
    part of the state: [chans] is the store of channels ever made (a channel
    is its index), [goroutines] the store of workers ever started.  The
    methods that run under [p.mu] are functions; what the goroutines do in
    between is the step relation at the end of the definitions. *)
From S2P Require Import Prelude.

(** ** Definitions *)

(** A task is known by its number. *)
Abbreviation task := nat (only parsing).

Record chan : Type := mkChan { buf : list nat; chan_cap : Z; closed : bool }.

(** Where a worker goroutine is: about to read [p.taskCh], in the [select] on
    the channel it read, running a task, or returned. *)
Inductive place : Type :=
| AtLoop
| AtSelect (ch : nat)
| Running_task (t : nat)
| Exited.

Record goroutine : Type := mkGoroutine { at_ : place; cancelled : bool }.

Record Pool : Type := mkPool {
  capacity : Z;
  running : Z;
  ctx_done : bool;
  workers : list nat;
  taskCh : nat;
  chans : list chan;
  goroutines : list goroutine;
}.

Definition set_goroutines (p : Pool) (gs : list goroutine) : Pool :=
  mkPool (capacity p) (running p) (ctx_done p) (workers p) (taskCh p) (chans p) gs.
Definition set_chans (p : Pool) (cs : list chan) : Pool :=
  mkPool (capacity p) (running p) (ctx_done p) (workers p) (taskCh p) cs (goroutines p).
Definition set_workers (p : Pool) (ws : list nat) : Pool :=
  mkPool (capacity p) (running p) (ctx_done p) ws (taskCh p) (chans p) (goroutines p).
Definition set_running (p : Pool) (n : Z) : Pool :=
  mkPool (capacity p) n (ctx_done p) (workers p) (taskCh p) (chans p) (goroutines p).

(** [None] is a Go panic: [make] refuses a negative size. *)
Definition NewPool (cap : Z) : option Pool :=
  if (cap <? 0) || (int32 (cap * 2) <? 0) then None
  else Some {| capacity := cap;
               running := 0;
               ctx_done := false;
               workers := [];
               taskCh := 0;
               chans := [mkChan [] (int32 (cap * 2)) false];
               goroutines := [] |}.

Definition startWorker (p : Pool) : Pool :=
  let id := length (goroutines p) in
  set_goroutines (set_workers p (workers p ++ [id]))
    (goroutines p ++ [mkGoroutine AtLoop false]).

(** [for i := a; i < b; i++ { p.startWorker() }] *)
Definition startWorkers (n : nat) (p : Pool) : Pool := Nat.iter n startWorker p.

Definition Start (p : Pool) : Pool := startWorkers (Z.to_nat (capacity p)) p.

Definition getTaskCh (p : Pool) : nat := taskCh p.

Inductive send_result : Type := Sent | QueueFull | SendPanic.

(** The [select] of [Submit] on the channel it read. *)
Definition try_send (ch : nat) (t : nat) (p : Pool) : send_result * Pool :=
  match chans p !! ch with
  | Some c =>
      if closed c then (SendPanic, p)
      else if Z.of_nat (length (buf c)) <? chan_cap c
      then (Sent, set_chans p (<[ch := mkChan (buf c ++ [t]) (chan_cap c) false]> (chans p)))
      else (QueueFull, p)
  | None => (QueueFull, p)
  end.

Definition Submit (t : nat) (p : Pool) : send_result * Pool := try_send (getTaskCh p) t p.

Definition Running (p : Pool) : Z := int32 (running p).
Definition IncRunning (p : Pool) : Pool := set_running p (int64 (running p + 1)).
Definition DecRunning (p : Pool) : Pool := set_running p (int64 (running p - 1)).

(** [cancel()] of one worker. *)
Definition cancel_worker (id : nat) (p : Pool) : Pool :=
  set_goroutines p (alter (λ g, mkGoroutine (at_ g) true) id (goroutines p)).

(** [for i < workersToStop && i < len(p.workers)]: the bound is read again at
    every turn, after the slice got shorter. *)
Fixpoint stop_loop (fuel : nat) (i workersToStop : Z) (p : Pool) : Pool :=
  match fuel with
  | O => p
  | S fuel =>
      if (i <? workersToStop) && (i <? int32 (Z.of_nat (length (workers p))))
      then
        let p :=
          match last (workers p) with
          | Some id =>
              cancel_worker id (set_workers p (take (length (workers p) - 1) (workers p)))
          | None => p
          end in
        stop_loop fuel (i + 1) workersToStop p
      else p
  end.

Inductive update_result : Type := Updated | BadCapacity | UpdatePanic.

(** The tail of [UpdateCapacity]: a new queue is made, the old one is closed
    (closing a closed channel panics) and what it held is moved over as far as
    it fits.  The second component is the tasks dropped. *)
Definition replace_queue (newCapacity : Z) (p : Pool) : update_result * list nat * Pool :=
  let old := default (mkChan [] 0 false) (chans p !! taskCh p) in
  let install cs fresh :=
    mkPool newCapacity (running p) (ctx_done p) (workers p) (length (chans p))
      (cs ++ [mkChan fresh (int32 (newCapacity * 2)) false]) (goroutines p) in
  if closed old then (UpdatePanic, [], install (chans p) [])
  else
    let size := Z.to_nat (int32 (newCapacity * 2)) in
    (Updated, drop size (buf old),
     install (<[taskCh p := mkChan [] (chan_cap old) true]> (chans p))
       (take size (buf old))).

Definition UpdateCapacity (newCapacity : Z) (p : Pool) : update_result * list nat * Pool :=
  if newCapacity <=? 0 then (BadCapacity, [], p)
  else
    let oldCapacity := capacity p in
    if newCapacity =? oldCapacity then (Updated, [], p)
    else
      let p :=
        if oldCapacity <? newCapacity
        then startWorkers (Z.to_nat (newCapacity - oldCapacity)) p
        else stop_loop (length (workers p)) 0 (int32 (oldCapacity - newCapacity)) p in
      if int32 (newCapacity * 2) <? 0
      then (UpdatePanic, [],
            mkPool newCapacity (running p) (ctx_done p) (workers p) (taskCh p)
              (chans p) (goroutines p))
      else replace_queue newCapacity p.

Definition Capacity (p : Pool) : Z := capacity p.

(** [Stop] up to [p.wg.Wait()]: cancel the pool's context, close the queue.
    [None] is the panic of closing it twice. *)
Definition Stop (p : Pool) : option Pool :=
  match chans p !! taskCh p with
  | Some c =>
      if closed c then None
      else Some (mkPool (capacity p) (running p) true (workers p) (taskCh p)
                   (<[taskCh p := mkChan (buf c) (chan_cap c) true]> (chans p))
                   (goroutines p))
  | None => None
  end.

(** [p.wg.Wait()] returns. *)
Definition all_exited (p : Pool) : bool :=
  forallb (λ g, match at_ g with Exited => true | _ => false end) (goroutines p).

(** ** The worker goroutine *)

Definition move (id : nat) (pl : place) (p : Pool) : Pool :=
  set_goroutines p (alter (λ g, mkGoroutine pl (cancelled g)) id (goroutines p)).

(** One atomic action of worker [id]; the [select] takes any ready branch.
    The label is the task the action finishes, if any. *)
Inductive worker_step (id : nat) : Pool → option nat → Pool → Prop :=
| ws_read_channel p g :
    goroutines p !! id = Some g → at_ g = AtLoop →
    worker_step id p None (move id (AtSelect (getTaskCh p)) p)
| ws_receive p g ch c t q :
    goroutines p !! id = Some g → at_ g = AtSelect ch →
    chans p !! ch = Some c → buf c = t :: q →
    worker_step id p None
      (move id (Running_task t)
        (IncRunning (set_chans p (<[ch := mkChan q (chan_cap c) (closed c)]> (chans p)))))
| ws_closed p g ch c :
    goroutines p !! id = Some g → at_ g = AtSelect ch →
    chans p !! ch = Some c → buf c = [] → closed c = true →
    worker_step id p None (move id Exited p)
| ws_cancelled p g ch :
    goroutines p !! id = Some g → at_ g = AtSelect ch →
    cancelled g = true ∨ ctx_done p = true →
    worker_step id p None (move id Exited p)
| ws_finish p g t :
    goroutines p !! id = Some g → at_ g = Running_task t →
    worker_step id p (Some t) (move id AtLoop (DecRunning p)).

(** ** A pool with its clients

    The ghost fields record every task a [Submit] accepted, every task a
    worker finished, every task an [UpdateCapacity] dropped, and the balance
    of the [IncRunning]/[DecRunning] calls made from outside. *)
Record sys : Type := mkSys {
  pool : Pool;
  accepted : list nat;
  finished : list nat;
  dropped : list nat;
  outside : Z;
}.

Inductive sys_step : sys → sys → Prop :=
| st_worker id p o p' a f d x :
    worker_step id p o p' →
    sys_step (mkSys p a f d x) (mkSys p' a (option_list o ++ f) d x)
| st_send ch t p p' a f d x :
    (** a [Submit] whose [getTaskCh] happened earlier, at any queue *)
    try_send ch t p = (Sent, p') →
    sys_step (mkSys p a f d x) (mkSys p' (t :: a) f d x)
| st_inc p a f d x :
    sys_step (mkSys p a f d x) (mkSys (IncRunning p) a f d (x + 1))
| st_dec p a f d x :
    sys_step (mkSys p a f d x) (mkSys (DecRunning p) a f d (x - 1))
| st_update n r p dr p' a f d x :
    UpdateCapacity n p = (r, dr, p') →
    sys_step (mkSys p a f d x) (mkSys p' a f (dr ++ d) x)
| st_start p a f d x :
    sys_step (mkSys p a f d x) (mkSys (Start p) a f d x)
| st_stop p p' a f d x :
    Stop p = Some p' →
    sys_step (mkSys p a f d x) (mkSys p' a f d x).

Definition sys_init (s : sys) : Prop :=
  ∃ cap p, NewPool cap = Some p ∧ s = mkSys p [] [] [] 0.

Definition queued (p : Pool) : list nat := chans p ≫= buf.
Definition executing (p : Pool) : list nat :=
  goroutines p ≫= λ g, match at_ g with Running_task t => [t] | _ => [] end.

(** ** Lemmas on stores *)

Lemma insert_Permutation {A} (l : list A) i x y :
  l !! i = Some x → <[i := y]> l ≡ₚ y :: delete i l.
Proof.
  revert i. induction l as [|z l IH]; intros [|i] Hi; simplify_eq/=; [done|].
  rewrite (IH i) by done. apply perm_swap.
Qed.

Lemma bind_insert {A B} (f : A → list B) (l : list A) i x y :
  l !! i = Some x →
  (l ≫= f) ≡ₚ f x ++ (delete i l ≫= f) ∧ (<[i := y]> l ≫= f) ≡ₚ f y ++ (delete i l ≫= f).
Proof.
  intros Hi. split.
  - change (f x ++ _) with ((x :: delete i l) ≫= f). by rewrite <- (delete_Permutation l i x).
  - change (f y ++ _) with ((y :: delete i l) ≫= f). by rewrite (insert_Permutation l i x).
Qed.

Lemma alter_insert {A} (f : A → A) (l : list A) i x :
  l !! i = Some x → alter f i l = <[i := f x]> l.
Proof. revert i. induction l as [|z l IH]; intros [|i] Hi; simplify_eq/=; [done|]. f_equal. auto. Qed.

Lemma startWorkers_eq n p :
  startWorkers n p =
    mkPool (capacity p) (running p) (ctx_done p)
      (workers p ++ seq (length (goroutines p)) n) (taskCh p) (chans p)
      (goroutines p ++ replicate n (mkGoroutine AtLoop false)).
Proof.
  unfold startWorkers. induction n as [|n IH].
  - simpl. rewrite !app_nil_r. by destruct p.
  - change (Nat.iter (S n) startWorker p) with (startWorker (Nat.iter n startWorker p)).
    rewrite IH. unfold startWorker, set_workers, set_goroutines.
    cbn [workers goroutines capacity running ctx_done taskCh chans].
    rewrite length_app, length_replicate, <- !app_assoc. f_equal.
    + by rewrite seq_S.
    + by rewrite replicate_S_end.
Qed.

Lemma executing_app gs1 gs2 p :
  executing (set_goroutines p (gs1 ++ gs2)) =
    executing (set_goroutines p gs1) ++ executing (set_goroutines p gs2).
Proof. unfold executing. simpl. by rewrite bind_app. Qed.

Definition task_at (pl : place) : list nat :=
  match pl with Running_task t => [t] | _ => [] end.

(** Moving a worker exchanges what it executes. *)
Lemma executing_move id pl p g :
  goroutines p !! id = Some g →
  task_at (at_ g) ++ executing (move id pl p) ≡ₚ task_at pl ++ executing p.
Proof.
  intros Hg. unfold executing, move. simpl. rewrite (alter_insert _ _ _ g) by done.
  destruct (bind_insert (λ g, task_at (at_ g)) (goroutines p) id g
              (mkGoroutine pl (cancelled g)) Hg) as [H1 H2].
  fold task_at in *. unfold task_at in *. rewrite H1, H2. simpl. solve_Permutation.
Qed.

Lemma queued_set_chan ch c c' p :
  chans p !! ch = Some c →
  buf c ++ queued (set_chans p (<[ch := c']> (chans p))) ≡ₚ buf c' ++ queued p.
Proof.
  intros Hc. unfold queued. simpl.
  destruct (bind_insert buf (chans p) ch c c' Hc) as [H1 H2].
  rewrite H1, H2. solve_Permutation.
Qed.

Lemma executing_idle_replicate n p :
  executing (set_goroutines p (replicate n (mkGoroutine AtLoop false))) = [].
Proof. unfold executing. simpl. by induction n. Qed.

(** The shrink loop touches only the worker slice and the cancel flags. *)
Lemma stop_loop_frame fuel i k p :
  capacity (stop_loop fuel i k p) = capacity p ∧
  running (stop_loop fuel i k p) = running p ∧
  ctx_done (stop_loop fuel i k p) = ctx_done p ∧
  taskCh (stop_loop fuel i k p) = taskCh p ∧
  chans (stop_loop fuel i k p) = chans p ∧
  at_ <$> goroutines (stop_loop fuel i k p) = at_ <$> goroutines p.
Proof.
  revert i p. induction fuel as [|fuel IH]; intros i p; simpl; [by repeat split|].
  destruct (_ && _); [|by repeat split].
  destruct (last (workers p)) as [id|]; [|apply IH].
  destruct (IH (i + 1) (cancel_worker id (set_workers p (take (length (workers p) - 1) (workers p)))))
    as (-> & -> & -> & -> & -> & ->).
  repeat split. simpl. apply list_eq. intros j. rewrite !list_lookup_fmap.
  destruct (decide (id = j)) as [->|Hne].
  - rewrite list_lookup_alter_eq. by destruct (goroutines p !! j).
  - by rewrite list_lookup_alter_ne.
Qed.

Lemma executing_at p q : at_ <$> goroutines p = at_ <$> goroutines q → executing p = executing q.
Proof.
  unfold executing. generalize (goroutines p), (goroutines q).
  induction l as [|g gs IH]; intros [|h hs] Heq; simplify_eq/=; [done|].
  rewrite (IH hs) by done. by match goal with H : at_ g = _ |- _ => rewrite H end.
Qed.

(** How many workers the shrink loop cancels when it starts at [i]. *)
Definition stopped (i k len : Z) : Z := Z.max 0 (Z.min (k - i) ((len - i + 1) / 2)).

Lemma stop_loop_workers fuel i k p :
  0 ≤ i → Z.of_nat (length (workers p)) < 2 ^ 31 →
  (length (workers p) ≤ fuel)%nat →
  workers (stop_loop fuel i k p) =
    take (length (workers p) - Z.to_nat (stopped i k (Z.of_nat (length (workers p)))))
      (workers p).
Proof.
  revert i p. induction fuel as [|fuel IH]; intros i p Hi Hlen Hf.
  - simpl. destruct (workers p) as [|? ?]; [done|]. simpl in Hf. lia.
  - simpl. rewrite int32_small by lia.
    set (len := length (workers p)) in *.
    assert (Hdiv : ∀ x : Z, 2 * (x / 2) ≤ x < 2 * (x / 2) + 2).
    { intros x. pose proof (Z.div_mod x 2 ltac:(lia)).
      pose proof (Z.mod_pos_bound x 2 ltac:(lia)). lia. }
    pose proof (Hdiv (Z.of_nat len - i + 1)) as Hd.
    destruct (Z.ltb_spec i k) as [Hik|Hik]; simpl.
    2:{ unfold stopped. replace (len - _)%nat with len by lia.
        by rewrite take_ge by (subst len; lia). }
    destruct (Z.ltb_spec i (Z.of_nat len)) as [Hil|Hil].
    2:{ unfold stopped. replace (len - _)%nat with len by lia.
        by rewrite take_ge by (subst len; lia). }
    destruct (workers p) as [|w ws _] eqn:Hws using rev_ind; [simpl in *; lia|].
    rewrite last_snoc.
    assert (Htake : take (len - 1) (ws ++ [w]) = ws).
    { subst len. rewrite length_app. simpl.
      replace (length ws + 1 - 1)%nat with (length ws) by lia. by rewrite take_app_length. }
    rewrite Htake.
    assert (Hl : len = S (length ws)) by (subst len; rewrite length_app; simpl; lia).
    rewrite IH; simpl; [|lia..].
    pose proof (Hdiv (Z.of_nat (length ws) - (i + 1) + 1)) as Hd'.
    rewrite take_app_le by (unfold stopped; lia).
    f_equal. unfold stopped. rewrite Hl.
    replace (Z.of_nat (S (length ws)) - i + 1) with (Z.of_nat (length ws) - (i + 1) + 1 + 1 * 2) by lia.
    rewrite Z.div_add by lia. lia.
Qed.

(** ** Invariant of a pool with its clients *)

Definition queues_bounded (p : Pool) : Prop :=
  Forall (λ c, Z.of_nat (length (buf c)) ≤ chan_cap c) (chans p).

Record sys_inv (s : sys) : Prop := {
  inv_conserved :
    accepted s ≡ₚ queued (pool s) ++ executing (pool s) ++ finished s ++ dropped s;
  inv_running :
    running (pool s) = int64 (Z.of_nat (length (executing (pool s))) + outside s);
  inv_bounded : queues_bounded (pool s);
  inv_current : (taskCh (pool s) < length (chans (pool s)))%nat;
}.

(** Facts about one action, in the form the invariant needs them. *)
Lemma worker_step_conserves id p o p' :
  worker_step id p o p' →
  queued p ++ executing p ≡ₚ queued p' ++ executing p' ++ option_list o.
Proof.
  intros [q g Hg Hat|q g ch c t r Hg Hat Hc Hb|q g ch c Hg Hat Hc Hb Hcl|q g ch Hg Hat Hx|q g t Hg Hat].
  - pose proof (executing_move id (AtSelect (getTaskCh q)) q g Hg) as Hm.
    rewrite Hat in Hm. simpl in Hm. rewrite app_nil_r. by rewrite <- Hm.
  - pose proof (queued_set_chan ch c (mkChan r (chan_cap c) (closed c)) q Hc) as Hq.
    pose proof (executing_move id (Running_task t) q g Hg) as Hm.
    rewrite Hat in Hm. rewrite Hb in Hq. simpl in Hq, Hm.
    change (executing (move id (Running_task t) _)) with (executing (move id (Running_task t) q)).
    change (queued (move id _ _)) with
      (queued (set_chans q (<[ch := mkChan r (chan_cap c) (closed c)]> (chans q)))).
    rewrite Hm. simpl. rewrite app_nil_r.
    assert (Hq' : t :: queued (set_chans q (<[ch := mkChan r (chan_cap c) (closed c)]> (chans q)))
                  ≡ₚ queued q).
    { apply (Permutation_app_inv_l r). rewrite <- Hq. solve_Permutation. }
    rewrite <- Hq'. solve_Permutation.
  - pose proof (executing_move id Exited q g Hg) as Hm. rewrite Hat in Hm. simpl in Hm.
    rewrite app_nil_r. by rewrite <- Hm.
  - pose proof (executing_move id Exited q g Hg) as Hm. rewrite Hat in Hm. simpl in Hm.
    rewrite app_nil_r. by rewrite <- Hm.
  - pose proof (executing_move id AtLoop (DecRunning q) g Hg) as Hm.
    rewrite Hat in Hm. simpl in Hm. change (executing (DecRunning q)) with (executing q) in Hm.
    rewrite <- Hm. change (queued (move _ _ _)) with (queued q). solve_Permutation.
Qed.

Lemma executing_length id pl p g :
  goroutines p !! id = Some g →
  (length (task_at (at_ g)) + length (executing (move id pl p)) =
   length (task_at pl) + length (executing p))%nat.
Proof. intros Hg. rewrite <- !length_app. by rewrite (executing_move id pl p g Hg). Qed.

Lemma worker_step_running id p o p' x :
  worker_step id p o p' →
  running p = int64 (Z.of_nat (length (executing p)) + x) →
  running p' = int64 (Z.of_nat (length (executing p')) + x).
Proof.
  intros [q g Hg Hat|q g ch c t r Hg Hat Hc Hb|q g ch c Hg Hat Hc Hb Hcl|q g ch Hg Hat Hx|q g t Hg Hat] Hr;
    match goal with
    | |- context [move _ ?pl _] => pose proof (executing_length id pl q g Hg) as Hl
    end; rewrite Hat in Hl; simpl in Hl.
  - change (running (move _ _ q)) with (running q). rewrite Hr. do 2 f_equal. lia.
  - change (executing (move id (Running_task t) _)) with (executing (move id (Running_task t) q)).
    simpl. rewrite Hr, int64_add_l. f_equal. lia.
  - change (running (move _ _ q)) with (running q). rewrite Hr. do 2 f_equal. lia.
  - change (running (move _ _ q)) with (running q). rewrite Hr. do 2 f_equal. lia.
  - change (executing (move id AtLoop _)) with (executing (move id AtLoop q)).
    simpl. rewrite Hr, <- Z.add_opp_r, int64_add_l. f_equal. lia.
Qed.

Lemma worker_step_bounded id p o p' :
  worker_step id p o p' → queues_bounded p →
  queues_bounded p' ∧ taskCh p' = taskCh p ∧ length (chans p') = length (chans p).
Proof.
  intros [q g Hg Hat|q g ch c t r Hg Hat Hc Hb|q g ch c Hg Hat Hc Hb Hcl|q g ch Hg Hat Hx|q g t Hg Hat] Hb';
    unfold queues_bounded in *; simpl; try by repeat split.
  rewrite length_insert. repeat split; [|done..].
  apply Forall_insert; [done|]. simpl.
  pose proof (Forall_lookup_1 _ _ _ _ Hb' Hc) as Hcb. cbv beta in Hcb. rewrite Hb in Hcb. simpl in Hcb. lia.
Qed.

Lemma try_send_sent ch t p p' :
  try_send ch t p = (Sent, p') →
  ∃ c, chans p !! ch = Some c ∧ closed c = false ∧
       Z.of_nat (length (buf c)) < chan_cap c ∧
       p' = set_chans p (<[ch := mkChan (buf c ++ [t]) (chan_cap c) false]> (chans p)).
Proof.
  unfold try_send. destruct (chans p !! ch) as [c|]; [|done].
  destruct (closed c) eqn:Ecl; [done|]. destruct (Z.ltb_spec (Z.of_nat (length (buf c))) (chan_cap c)); [|done].
  intros [= <-]. by exists c.
Qed.

Lemma replace_queue_spec n p r dr p' c :
  chans p !! taskCh p = Some c → queues_bounded p → 0 ≤ int32 (n * 2) →
  replace_queue n p = (r, dr, p') →
  queued p ≡ₚ queued p' ++ dr ∧ executing p' = executing p ∧
  running p' = running p ∧ queues_bounded p' ∧ (taskCh p' < length (chans p'))%nat.
Proof.
  intros Hc Hb Hn. unfold replace_queue. rewrite Hc. simpl.
  pose proof (Forall_lookup_1 _ _ _ _ Hb Hc) as Hcb. simpl in Hcb.
  destruct (closed c).
  - intros [= <- <- <-]. rewrite app_nil_r. unfold queued, executing, queues_bounded; simpl.
    rewrite bind_app, length_app. simpl. rewrite !app_nil_r.
    split_and!; [done..| |lia]. apply Forall_app; split; [done|]. by constructor.
  - intros [= <- <- <-]. unfold queued, executing, queues_bounded; simpl.
    rewrite bind_app, length_app, length_insert. simpl. rewrite app_nil_r.
    split_and!; [|done|done| |lia].
    + destruct (bind_insert buf (chans p) _ c (mkChan [] (chan_cap c) true) Hc) as [H1 H2].
      rewrite H1, H2. simpl.
      rewrite <- (take_drop (Z.to_nat (int32 (n * 2))) (buf c)) at 1. solve_Permutation.
    + apply Forall_app; split.
      * apply Forall_insert; [done|]. simpl. lia.
      * constructor; [|done]. simpl. rewrite length_take. lia.
Qed.

Lemma startWorkers_frame n p :
  queued (startWorkers n p) = queued p ∧ executing (startWorkers n p) = executing p ∧
  running (startWorkers n p) = running p ∧ taskCh (startWorkers n p) = taskCh p ∧
  chans (startWorkers n p) = chans p.
Proof.
  rewrite startWorkers_eq. repeat split; try done. unfold executing. simpl.
  rewrite bind_app. pose proof (executing_idle_replicate n p) as Hn.
  unfold executing in Hn. simpl in Hn. by rewrite Hn, app_nil_r.
Qed.

Lemma update_spec n p r dr p' :
  queues_bounded p → (taskCh p < length (chans p))%nat →
  UpdateCapacity n p = (r, dr, p') →
  queued p ≡ₚ queued p' ++ dr ∧ executing p' = executing p ∧
  running p' = running p ∧ queues_bounded p' ∧ (taskCh p' < length (chans p'))%nat.
Proof.
  intros Hb Hcur. unfold UpdateCapacity.
  destruct (n <=? 0); [intros [= <- <- <-]; rewrite app_nil_r; by split_and!|].
  destruct (n =? capacity p); [intros [= <- <- <-]; rewrite app_nil_r; by split_and!|].
  set (q := if capacity p <? n then _ else _).
  assert (Hq : queued q = queued p ∧ executing q = executing p ∧ running q = running p ∧
               taskCh q = taskCh p ∧ chans q = chans p).
  { subst q. destruct (capacity p <? n); [apply startWorkers_frame|].
    edestruct (stop_loop_frame (length (workers p)) 0 (int32 (capacity p - n)) p)
      as (_ & Hr & _ & Ht & Hc & Ha).
    split; [unfold queued; by rewrite Hc|]. split; [by apply executing_at|done]. }
  destruct Hq as (H1 & H2 & H3 & H4 & H5). clearbody q.
  destruct (lookup_lt_is_Some_2 (chans p) (taskCh p) Hcur) as [c Hc].
  destruct (Z.ltb_spec (int32 (n * 2)) 0) as [Hneg|Hpos].
  - intros [= <- <- <-]. rewrite app_nil_r. unfold queues_bounded. simpl.
    split_and!; [by rewrite <- H1|done|done|by rewrite H5|by rewrite H4, H5].
  - intros Hrep. rewrite <- H4, <- H5 in Hc.
    assert (Hb' : queues_bounded q) by (unfold queues_bounded; by rewrite H5).
    pose proof (replace_queue_spec _ _ _ _ _ _ Hc Hb' Hpos Hrep) as Hspec.
    by rewrite H1, H2, H3 in Hspec.
Qed.

Lemma sys_inv_init s : sys_init s → sys_inv s.
Proof.
  intros (cap & p & Hp & ->). unfold NewPool in Hp.
  destruct (_ || _) eqn:E; [done|]. apply orb_false_elim in E as [E1 E2].
  simplify_eq/=. apply Z.ltb_ge in E1, E2.
  constructor; simpl; try done; [|lia]. constructor; [simpl; lia|done].
Qed.

Lemma sys_inv_step s s' : sys_inv s → sys_step s s' → sys_inv s'.
Proof.
  intros [Hc Hr Hb Hcur] Hstep; destruct Hstep; simpl in *.
  - destruct (worker_step_bounded _ _ _ _ H Hb) as (Hb' & Ht & Hl).
    constructor; simpl; [|by eapply worker_step_running|done|by rewrite Ht, Hl].
    rewrite Hc. rewrite (app_assoc (queued p)), (worker_step_conserves _ _ _ _ H).
    solve_Permutation.
  - destruct (try_send_sent _ _ _ _ H) as (c & Hc1 & Hcl & Hlt & ->).
    constructor; simpl; [|done| |by rewrite length_insert].
    + pose proof (queued_set_chan ch c (mkChan (buf c ++ [t]) (chan_cap c) false) p Hc1) as Hq.
      simpl in Hq. rewrite <- app_assoc in Hq. apply Permutation_app_inv_l in Hq.
      change (executing (set_chans _ _)) with (executing p). rewrite Hc, Hq. done.
    + unfold queues_bounded. simpl. apply Forall_insert; [done|].
      simpl. rewrite length_app. simpl. lia.
  - constructor; simpl; try done. change (executing (IncRunning p)) with (executing p).
    rewrite Hr, int64_add_l. f_equal. lia.
  - constructor; simpl; try done. change (executing (DecRunning p)) with (executing p).
    rewrite Hr, <- Z.add_opp_r, int64_add_l. f_equal. lia.
  - destruct (update_spec _ _ _ _ _ Hb Hcur H) as (Hq & He & Hrun & Hb' & Hcur').
    constructor; simpl; [|by rewrite Hrun, He|done|done].
    rewrite Hc, Hq, He. solve_Permutation.
  - destruct (startWorkers_frame (Z.to_nat (capacity p)) p) as (H1 & H2 & H3 & H4 & H5).
    unfold Start. constructor; simpl; unfold queues_bounded; rewrite ?H1, ?H2, ?H3, ?H4, ?H5; done.
  - unfold Stop in H. destruct (chans p !! taskCh p) as [c|] eqn:Hcc; [|done].
    destruct (closed c); [done|]. simplify_eq/=.
    constructor; simpl; [|done| |by rewrite length_insert].
    + pose proof (queued_set_chan _ c (mkChan (buf c) (chan_cap c) true) p Hcc) as Hq.
      simpl in Hq. apply Permutation_app_inv_l in Hq. rewrite Hc, <- Hq. done.
    + unfold queues_bounded. simpl. apply Forall_insert; [done|]. simpl.
      apply (Forall_lookup_1 _ _ _ _ Hb Hcc).
Qed.

Lemma reachable_sys_inv s : reachable sys_step sys_init s → sys_inv s.
Proof. apply reachable_invariant; [apply sys_inv_init|apply sys_inv_step]. Qed.

(** ** Theorems *)

(** C9: In every state the pool can reach with its clients (concurrent
    submits, also ones holding a channel from before a resize; workers;
    resizes; stop), the tasks ever accepted are exactly, with multiplicity,
    the ones waiting in some queue, being executed, finished or dropped by a
    resize, and no queue holds more than its capacity. *)
Theorem pool_conserves_tasks (s : sys) :
  reachable sys_step sys_init s →
  accepted s ≡ₚ queued (pool s) ++ executing (pool s) ++ finished s ++ dropped s ∧
  queues_bounded (pool s).
Proof. intros H%reachable_sys_inv. split; apply H. Qed.

(** In every reachable state [Running()] reports the number of tasks the
    workers are executing plus the balance of the outside
    [IncRunning]/[DecRunning] calls, at 32-bit width. *)
Theorem pool_running_counts_executing (s : sys) :
  reachable sys_step sys_init s →
  Running (pool s) = int32 (int64 (Z.of_nat (length (executing (pool s))) + outside s)).
Proof. intros H%reachable_sys_inv. unfold Running. by rewrite (inv_running s H). Qed.

(** A resize proper. *)
Lemma update_capacity_resize (n : Z) (p : Pool) (c : chan) :
  chans p !! taskCh p = Some c → closed c = false → n * 2 < 2 ^ 31 →
  0 < n → n ≠ capacity p →
  ∃ p', UpdateCapacity n p = (Updated, drop (Z.to_nat (n * 2)) (buf c), p') ∧
     capacity p' = n ∧
     chans p' !! taskCh p' = Some (mkChan (take (Z.to_nat (n * 2)) (buf c)) (n * 2) false) ∧
     chans p' !! taskCh p = Some (mkChan [] (chan_cap c) true).
Proof.
  intros Hc Hcl Hn Hpos Hne. unfold UpdateCapacity.
  rewrite (proj2 (Z.leb_gt _ _)) by lia. rewrite (proj2 (Z.eqb_neq _ _)) by done.
  set (q := if capacity p <? n then _ else _).
  assert (Hq : taskCh q = taskCh p ∧ chans q = chans p).
  { subst q. destruct (capacity p <? n); [apply startWorkers_frame|].
    edestruct (stop_loop_frame (length (workers p))) as (_ & _ & _ & Ht & Hcs & _).
    by split. }
  destruct Hq as [Ht Hcs]. clearbody q.
  rewrite int32_small by lia. rewrite (proj2 (Z.ltb_ge _ _)) by lia.
  unfold replace_queue. rewrite Ht, Hcs, Hc. simpl. rewrite Hcl, int32_small by lia.
  pose proof (lookup_lt_Some _ _ _ Hc) as Hlt.
  eexists. split; [done|]. simpl. split; [done|]. split.
  - rewrite lookup_app_r by (by rewrite length_insert).
    by rewrite length_insert, Nat.sub_diag.
  - rewrite lookup_app_l by (by rewrite length_insert).
    by rewrite list_lookup_insert_eq.
Qed.

(** [UpdateCapacity] on every branch: a capacity that is not positive is
    refused and an equal one ignored, both leaving the pool as it was; any
    other closes and empties the old queue and installs an open queue of
    twice the new capacity holding the longest prefix of the waiting tasks
    that fits, the rest being dropped. *)
Theorem update_capacity_functional (n : Z) (p : Pool) (c : chan) :
  chans p !! taskCh p = Some c → closed c = false → n * 2 < 2 ^ 31 →
  (n ≤ 0 → UpdateCapacity n p = (BadCapacity, [], p)) ∧
  (0 < n → n = capacity p → UpdateCapacity n p = (Updated, [], p)) ∧
  (0 < n → n ≠ capacity p →
   ∃ p', UpdateCapacity n p = (Updated, drop (Z.to_nat (n * 2)) (buf c), p') ∧
     capacity p' = n ∧
     chans p' !! taskCh p' = Some (mkChan (take (Z.to_nat (n * 2)) (buf c)) (n * 2) false) ∧
     chans p' !! taskCh p = Some (mkChan [] (chan_cap c) true)).
Proof.
  intros Hc Hcl Hn. split_and!.
  - intros Hle. unfold UpdateCapacity. by rewrite (proj2 (Z.leb_le _ _)).
  - intros Hpos ->. unfold UpdateCapacity.
    rewrite (proj2 (Z.leb_gt _ _)) by lia. by rewrite Z.eqb_refl.
  - intros Hpos Hne. by apply update_capacity_resize.
Qed.

Lemma replace_queue_frame n p :
  workers (replace_queue n p).2 = workers p ∧ goroutines (replace_queue n p).2 = goroutines p.
Proof. unfold replace_queue. by destruct (closed _). Qed.

(** Shrinking a pool that has one registered worker per unit of capacity
    does not stop [old - new] workers: the loop bound follows the slice as it
    shrinks, so at most the upper half of the workers is stopped and more
    workers than the new capacity stay registered when less than half should
    remain. *)
Theorem shrink_stops_at_most_half (n : Z) (p : Pool) :
  Z.of_nat (length (workers p)) = capacity p →
  0 < n < capacity p → capacity p < 2 ^ 30 →
  workers (UpdateCapacity n p).2 =
    take (Z.to_nat (Z.max n (capacity p - (capacity p + 1) / 2))) (workers p).
Proof.
  intros Hlen Hn Hcap. unfold UpdateCapacity.
  rewrite (proj2 (Z.leb_gt _ _)), (proj2 (Z.eqb_neq _ _)),
    (proj2 (Z.ltb_ge (capacity p) n)) by lia.
  rewrite (int32_small (n * 2)), (int32_small (capacity p - n)) by lia.
  rewrite (proj2 (Z.ltb_ge _ _)) by lia.
  rewrite (proj1 (replace_queue_frame _ _)), stop_loop_workers by lia. f_equal.
  assert (0 ≤ (capacity p + 1) / 2) by (apply Z.div_pos; lia).
  unfold stopped. rewrite Hlen, !Z.sub_0_r. lia.
Qed.

(** A worker that will never run a task again. *)
Definition doomed (p : Pool) (g : goroutine) : Prop :=
  at_ g = Exited ∨
  ∃ ch c, at_ g = AtSelect ch ∧ chans p !! ch = Some c ∧ closed c = true ∧ buf c = [].

Definition all_doomed (p : Pool) : Prop := Forall (doomed p) (goroutines p).

Lemma doomed_move id pl g p :
  goroutines p !! id = Some g → doomed p (mkGoroutine pl (cancelled g)) → all_doomed p →
  all_doomed (move id pl p).
Proof.
  intros Hg Hpl Hall. unfold all_doomed, move. simpl. rewrite (alter_insert _ _ _ g) by done.
  by apply Forall_insert.
Qed.

Lemma doomed_worker_step id p o p' : worker_step id p o p' → all_doomed p → all_doomed p'.
Proof.
  intros Hstep Hall.
  destruct Hstep as [q g Hg Hat|q g ch c t r Hg Hat Hc Hb|q g ch c Hg Hat Hc Hb Hcl|q g ch Hg Hat Hx|q g t Hg Hat];
    pose proof (Forall_lookup_1 _ _ _ _ Hall Hg) as Hd;
    destruct Hd as [He|(ch' & c' & He & Hc' & Hcl' & Hb')]; try congruence;
    by eapply doomed_move; [|left|].
Qed.

Lemma doomed_submit t p : all_doomed p → all_doomed (Submit t p).2.
Proof.
  intros Hall. unfold Submit, try_send, getTaskCh.
  destruct (chans p !! taskCh p) as [c|] eqn:Hc; [|done].
  destruct (closed c) eqn:Hcl; [done|]. destruct (_ <? _); [|done].
  unfold all_doomed in *. simpl. eapply Forall_impl; [done|].
  intros g [He|(ch & c' & He & Hc' & Hcl' & Hb')]; [by left|right].
  exists ch, c'. split_and!; try done. simpl. rewrite list_lookup_insert_ne; [done|].
  intros <-. congruence.
Qed.

Lemma doomed_executes_nothing p : all_doomed p → executing p = [].
Proof.
  intros Hall. apply elem_of_nil_inv. intros t Ht.
  apply list_elem_of_bind in Ht as (g & Ht & Hg).
  pose proof (proj1 (Forall_forall _ _) Hall g Hg) as [He|(? & ? & He & _)];
    rewrite He in Ht; by apply not_elem_of_nil in Ht.
Qed.

(** What workers and submitting clients do to the pool. *)
Inductive client_step : Pool → Pool → Prop :=
| cs_worker id p o p' : worker_step id p o p' → client_step p p'
| cs_submit t p : client_step p (Submit t p).2.

(** Shrinking an idle pool stops all of it: when every worker waits on the
    (open, empty) queue, then after [UpdateCapacity] to a smaller capacity no
    run of workers and submits ever has a worker executing a task, although
    the next [Submit] is accepted. *)
Theorem shrink_of_idle_pool_runs_nothing (n : Z) (p : Pool) (c : chan) :
  chans p !! taskCh p = Some c → closed c = false → buf c = [] →
  Forall (λ g, at_ g = AtSelect (taskCh p)) (goroutines p) →
  0 < n < capacity p → n * 2 < 2 ^ 31 →
  let p' := (UpdateCapacity n p).2 in
  (∀ t, (Submit t p').1 = Sent) ∧
  (∀ p'', rtc client_step p' p'' → executing p'' = []).
Proof.
  intros Hc Hcl Hb Hidle Hn Hbound p'.
  destruct (update_capacity_resize n p c Hc Hcl Hbound ltac:(lia) ltac:(lia))
    as (q & Hq & Hcap & Hnew & Hold).
  assert (Hp' : p' = q) by (subst p'; by rewrite Hq). rewrite Hp'.
  split.
  { intros t. unfold Submit, getTaskCh, try_send. rewrite Hnew, Hb. simpl.
    rewrite take_nil. simpl. by rewrite (proj2 (Z.ltb_lt _ _)) by lia. }
  assert (Hdoom : all_doomed q).
  { assert (Hats : at_ <$> goroutines q = at_ <$> goroutines p).
    { rewrite <- Hp'. subst p'. unfold UpdateCapacity.
      rewrite (proj2 (Z.leb_gt _ _)), (proj2 (Z.eqb_neq _ _)),
    (proj2 (Z.ltb_ge (capacity p) n)) by lia.
      rewrite (int32_small (n * 2)) by lia. rewrite (proj2 (Z.ltb_ge _ _)) by lia.
      rewrite (proj2 (replace_queue_frame _ _)). apply stop_loop_frame. }
    apply Forall_lookup_2. intros i g Hg. right.
    exists (taskCh p), (mkChan [] (chan_cap c) true). split_and!; try done.
    assert (Hi : (at_ <$> goroutines q) !! i = Some (at_ g)) by (by rewrite list_lookup_fmap, Hg).
    rewrite Hats, list_lookup_fmap in Hi.
    destruct (goroutines p !! i) as [g'|] eqn:Hg'; [|done]. simplify_eq/=.
    pose proof (Forall_lookup_1 _ _ _ _ Hidle Hg') as Hat. cbv beta in Hat. congruence. }
  intros p'' Hrtc.
  assert (Hdoom'' : all_doomed p'').
  { clear -Hrtc Hdoom. induction Hrtc as [|x y z Hxy _ IH]; [done|]. apply IH.
    destruct Hxy; [by eapply doomed_worker_step|by apply doomed_submit]. }
  by apply doomed_executes_nothing.
Qed.

(** ** Witnesses *)

(** A pool of [n] workers, all waiting on the queue. *)
Definition idle_pool (n : nat) : Pool :=
  mkPool (Z.of_nat n) 0 false (seq 0 n) 0 [mkChan [] (2 * Z.of_nat n) false]
    (replicate n (mkGoroutine (AtSelect 0) false)).

(** One worker took the only task submitted, and runs it. *)
Definition busy_sys : sys :=
  mkSys (mkPool 1 1 false [0%nat] 0 [mkChan [] 2 false] [mkGoroutine (Running_task 8) false])
    [8%nat] [] [] 0.

Lemma busy_sys_reachable : reachable sys_step sys_init busy_sys.
Proof.
  exists (mkSys (mkPool 1 0 false [] 0 [mkChan [] 2 false] []) [] [] [] 0).
  split; [exists 1; eexists; split; vm_compute; reflexivity|].
  eapply rtc_l; [apply st_start|].
  eapply rtc_l; [apply (st_send 0 8); vm_compute; reflexivity|].
  eapply rtc_l; [apply (st_worker 0 _ None); eapply ws_read_channel; reflexivity|].
  eapply rtc_l; [apply (st_worker 0 _ None); eapply ws_receive; reflexivity|].
  apply rtc_refl.
Qed.

Example pool_conserves_tasks_witness :
  accepted busy_sys ≡ₚ queued (pool busy_sys) ++ executing (pool busy_sys) ++
    finished busy_sys ++ dropped busy_sys ∧ queues_bounded (pool busy_sys).
Proof. exact (pool_conserves_tasks busy_sys busy_sys_reachable). Defined.

Example pool_running_counts_executing_witness :
  Running (pool busy_sys) = 1 ∧
  Running (pool busy_sys) = int32 (int64 (Z.of_nat (length (executing (pool busy_sys))) + 0)).
Proof.
  split; [reflexivity|]. exact (pool_running_counts_executing busy_sys busy_sys_reachable).
Defined.

(** Seven tasks wait when the capacity goes from 4 to 2: three are dropped. *)
Definition full_pool : Pool :=
  mkPool 4 0 false (seq 0 4) 0 [mkChan (seq 10 7) 8 false]
    (replicate 4 (mkGoroutine AtLoop false)).

Example update_capacity_functional_witness :
  (2 ≤ 0 → UpdateCapacity 2 full_pool = (BadCapacity, [], full_pool)) ∧
  (0 < 2 → 2 = capacity full_pool → UpdateCapacity 2 full_pool = (Updated, [], full_pool)) ∧
  (0 < 2 → 2 ≠ capacity full_pool →
   ∃ p', UpdateCapacity 2 full_pool = (Updated, [14; 15; 16]%nat, p') ∧
     capacity p' = 2 ∧
     chans p' !! taskCh p' = Some (mkChan [10; 11; 12; 13]%nat 4 false) ∧
     chans p' !! 0%nat = Some (mkChan [] 8 true)).
Proof.
  exact (update_capacity_functional 2 full_pool (mkChan (seq 10 7) 8 false)
           eq_refl eq_refl eq_refl).
Defined.

(** Ten workers told to become two: five stay. *)
Example shrink_stops_at_most_half_witness :
  workers (UpdateCapacity 2 (idle_pool 10)).2 = [0; 1; 2; 3; 4]%nat.
Proof.
  exact (shrink_stops_at_most_half 2 (idle_pool 10) eq_refl (conj eq_refl eq_refl) eq_refl).
Defined.

Example shrink_of_idle_pool_runs_nothing_witness :
  (∀ t, (Submit t (UpdateCapacity 1 (idle_pool 2)).2).1 = Sent) ∧
  (∀ p'', rtc client_step (UpdateCapacity 1 (idle_pool 2)).2 p'' → executing p'' = []).
Proof.
  apply (shrink_of_idle_pool_runs_nothing 1 (idle_pool 2) (mkChan [] 4 false));
    [reflexivity|reflexivity|reflexivity| |split; reflexivity|reflexivity].
  repeat constructor.
Defined.
