(* ===== verification/Concurrent.v ===== *)
(** * Concurrent query permits

    [src/scheduler/internal/datasource/concurrent.go]: the limiter that counts
    running queries per user, globally and per datasource in Redis.  The
    handlers run in the monad of the prelude over the Redis state; [now] is
    the clock during the call.  The permit closure [Acquire] returns is the
    record [permit] with its [released] flag. *)
From S2P Require Import Prelude Redis.

(** ** Definitions *)

Record limits : Type := mkLimits {
  runtimeMaxPerUser : Z;
  runtimeMaxGlobal : Z;
  runtimeMaxPerDatasource : Z;
}.

Inductive acquire_error : Type :=
| ErrConcurrentLimit
| ErrDatasourceConcurrentLimit
| ErrConcurrentCheck.

#[export] Instance acquire_error_eq_dec : EqDecision acquire_error.
Proof. solve_decision. Defined.

Definition userKey (userID : Z) : string := "datasource:query:concurrent:user:" +:+ fmt_d userID.
Definition globalKey : string := "datasource:query:concurrent:global".
Definition dsKey (datasourceID : Z) : string := "datasource:query:concurrent:ds:" +:+ fmt_d datasourceID.
Definition cancelKey (queryID : string) : string := "datasource:query:cancel:" +:+ queryID.

(** The keys the closure decrements, in order, and its captured flag. *)
Record permit : Type := mkPermit { permit_keys : list string; released : bool }.

(** [refreshRuntimeConfig]: [GetInt] of the three settings, with the defaults
    for values that are not positive. *)
Definition refreshRuntimeConfig (GetInt : string → Z) : limits :=
  let u := GetInt "datasource.max_concurrent_per_user" in
  let g := GetInt "datasource.max_concurrent_global" in
  let d := GetInt "datasource.max_concurrent_per_datasource" in
  mkLimits (if u <=? 0 then 5 else u) (if g <=? 0 then 50 else g) (if d <=? 0 then 10 else d).

(** [OnConfigChanged] *)
Definition OnConfigChanged (GetInt : string → Z) (key : string) (l : limits) : limits :=
  if bool_decide (key = "datasource.max_concurrent_per_user")
     || bool_decide (key = "datasource.max_concurrent_global")
     || bool_decide (key = "datasource.max_concurrent_per_datasource")
  then refreshRuntimeConfig GetInt else l.

Section limiter.
Context `{Redis R}.

(** [s.redis.Incr(ctx, k).Result()] and [s.redis.Decr(ctx, k)] *)
Definition incr (now : Z) (k : string) : M R (option Z) :=
  o ← call (INCRBY now k 1); mret (o ≫= id).
Definition decr (now : Z) (k : string) : M R unit :=
  _ ← call (INCRBY now k (-1)); mret tt.
Definition expire (now : Z) (k : string) (ttl : Z) : M R unit :=
  _ ← call (λ r, (tt, EXPIRE now k ttl r)); mret tt.

Definition Acquire (l : limits) (now userID : Z) : M R (result acquire_error permit) :=
  let user := userKey userID in
  uc ← incr now user;
  match uc with
  | None => mret (Err ErrConcurrentCheck)
  | Some userCount =>
      _ ← (if userCount =? 1 then expire now user (5 * Minute) else mret tt);
      if runtimeMaxPerUser l <? userCount
      then _ ← decr now user; mret (Err ErrConcurrentLimit)
      else
        gc ← incr now globalKey;
        match gc with
        | None => _ ← decr now user; mret (Err ErrConcurrentCheck)
        | Some globalCount =>
            _ ← (if globalCount =? 1 then expire now globalKey (5 * Minute) else mret tt);
            if runtimeMaxGlobal l <? globalCount
            then _ ← decr now user; _ ← decr now globalKey; mret (Err ErrConcurrentLimit)
            else mret (Ok (mkPermit [user; globalKey] false))
        end
  end.

Definition AcquireForDatasource (l : limits) (now userID datasourceID : Z) :
    M R (result acquire_error permit) :=
  let user := userKey userID in
  let ds := dsKey datasourceID in
  uc ← incr now user;
  match uc with
  | None => mret (Err ErrConcurrentCheck)
  | Some userCount =>
      _ ← (if userCount =? 1 then expire now user (5 * Minute) else mret tt);
      if runtimeMaxPerUser l <? userCount
      then _ ← decr now user; mret (Err ErrConcurrentLimit)
      else
        gc ← incr now globalKey;
        match gc with
        | None => _ ← decr now user; mret (Err ErrConcurrentCheck)
        | Some globalCount =>
            _ ← (if globalCount =? 1 then expire now globalKey (5 * Minute) else mret tt);
            if runtimeMaxGlobal l <? globalCount
            then _ ← decr now user; _ ← decr now globalKey; mret (Err ErrConcurrentLimit)
            else
              dc ← incr now ds;
              match dc with
              | None =>
                  _ ← decr now user; _ ← decr now globalKey; mret (Err ErrConcurrentCheck)
              | Some dsCount =>
                  _ ← (if dsCount =? 1 then expire now ds (5 * Minute) else mret tt);
                  if runtimeMaxPerDatasource l <? dsCount
                  then
                    _ ← decr now user; _ ← decr now globalKey; _ ← decr now ds;
                    mret (Err ErrDatasourceConcurrentLimit)
                  else mret (Ok (mkPermit [user; globalKey; ds] false))
              end
        end
  end.

(** The closure: it decrements once, whatever the number of calls. *)
Definition release (now : Z) (p : permit) : M R permit :=
  if released p then mret p
  else _ ← for_each (permit_keys p) (decr now); mret (mkPermit (permit_keys p) true).

(** One key of [calibrateCounters]. *)
Definition calibrate_key (now : Z) (k : string) (actual : Z) : M R unit :=
  o ← call (λ r, (as_int (GET now k r), r));
  match o ≫= id with
  | None => mret tt
  | Some redisCount =>
      if redisCount =? actual then mret tt
      else if actual =? 0
      then _ ← call (λ r, (tt, DEL k r)); mret tt
      else _ ← call (λ r, (tt, SET now k (VInt actual) (5 * Minute) r)); mret tt
  end.

(** [calibrateCounters] for the counts [getActualCount] returned, the two
    maps in the order the [range] loops visit them. *)
Definition calibrateCounters (now : Z)
    (actual : option (list (Z * Z) * Z * list (Z * Z))) : M R unit :=
  match actual with
  | None => mret tt
  | Some (userCounts, globalCount, dsCounts) =>
      _ ← for_each userCounts (λ '(id, n), calibrate_key now (userKey id) n);
      _ ← calibrate_key now globalKey globalCount;
      for_each dsCounts (λ '(id, n), calibrate_key now (dsKey id) n)
  end.

(** [s.redis.Get(ctx, k).Int64()]: [None] is an error, [redis.Nil] among them. *)
Definition get_int64 (now : Z) (k : string) : M R (option Z) :=
  o ← call (λ r, (GET now k r, r));
  mret match o with Some (Some v) => as_int (Some v) | _ => None end.

Definition GetUserConcurrent (now userID : Z) : M R (option Z) := get_int64 now (userKey userID).
Definition GetGlobalConcurrent (now : Z) : M R (option Z) := get_int64 now globalKey.
Definition GetDatasourceConcurrent (now datasourceID : Z) : M R (option Z) :=
  get_int64 now (dsKey datasourceID).

Definition SetCancelSignal (now : Z) (queryID : string) (ttl : Z) : M R (option unit) :=
  call (λ r, (tt, SET now (cancelKey queryID) (VStr "1") ttl r)).
End limiter.

(** ** The counters a client observes *)
Section counters.
Context `{RedisLaws R}.

Definition counter (now : Z) (k : string) (r : R) : option Z := as_int (fst <$> live now k r).

Lemma counter_incr_eq now k d r n :
  counter now k r = Some n → int64_ok (n + d) = true →
  counter now k (INCRBY now k d r).2 = Some (n + d).
Proof.
  intros Hn Hok. unfold counter. rewrite (live_INCRBY_eq _ _ _ _ _ n) by done.
  destruct (live now k r) as [[v dl]|] eqn:E; simpl; [|done].
  by rewrite (live_not_expired _ _ _ _ _ E).
Qed.

Lemma counter_incr_ne now k k' d r n :
  counter now k r = Some n → int64_ok (n + d) = true → k ≠ k' →
  counter now k' (INCRBY now k d r).2 = counter now k' r.
Proof. intros Hn Hok Hne. unfold counter. by rewrite (live_INCRBY_ne _ _ _ _ _ _ n). Qed.

Lemma counter_expire now k k' ttl r :
  0 < ttl → counter now k' (EXPIRE now k ttl r) = counter now k' r.
Proof.
  intros Httl. unfold counter. destruct (decide (k = k')) as [->|Hne].
  - rewrite live_EXPIRE_eq by done. destruct (live now k' r) as [[v d]|]; simpl; [|done].
    by rewrite (proj2 (Z.leb_gt _ _)) by lia.
  - by rewrite live_EXPIRE_ne.
Qed.
End counters.

(** ** Runs without faults

    [counts now r cf] says the counters observed in [r] are [cf]. *)
Section runs.
Context `{RedisLaws R}.
Variable now : Z.

Definition counts (r : R) (cf : string → option Z) : Prop := ∀ k, counter now k r = cf k.
Definition upd (cf : string → option Z) (k : string) (n : Z) : string → option Z :=
  λ k', if decide (k = k') then Some n else cf k'.

Lemma counts_incr r cf k d n :
  counts r cf → cf k = Some n → int64_ok (n + d) = true →
  counts (INCRBY now k d r).2 (upd cf k (n + d)).
Proof.
  intros Hc Hk Hok k'. unfold upd. rewrite <- Hc in Hk. case_decide as Hd.
  - subst. by apply counter_incr_eq.
  - rewrite <- Hc. by eapply counter_incr_ne.
Qed.

Lemma incr_run r cf k n :
  counts r cf → cf k = Some n → int64_ok (n + 1) = true →
  ∃ r', incr now k r [] = (Some (n + 1), (r', [])) ∧ counts r' (upd cf k (n + 1)) ∧
        r' = (INCRBY now k 1 r).2.
Proof.
  intros Hc Hk Hok. exists (INCRBY now k 1 r).2.
  unfold incr, call, mbind, M_bind, mret, M_ret.
  pose proof Hk as Hk'. rewrite <- Hc in Hk'.
  pose proof (INCRBY_reply now k 1 r n Hk' Hok) as Hr.
  destruct (INCRBY now k 1 r) as [o r'] eqn:E. simpl in *. subst.
  split_and!; [done| |done].
  change r' with (Some (n + 1), r').2. rewrite <- E. by apply counts_incr.
Qed.

Lemma decr_run r cf k n :
  counts r cf → cf k = Some n → int64_ok (n + -1) = true →
  ∃ r', decr now k r [] = (tt, (r', [])) ∧ counts r' (upd cf k (n + -1)) ∧
        r' = (INCRBY now k (-1) r).2.
Proof.
  intros Hc Hk Hok. exists (INCRBY now k (-1) r).2.
  unfold decr, call, mbind, M_bind, mret, M_ret.
  pose proof (counts_incr r cf k (-1) n Hc Hk Hok) as Hcc.
  by destruct (INCRBY now k (-1) r) as [o r'].
Qed.

Lemma counts_expire r cf k ttl : 0 < ttl → counts r cf → counts (EXPIRE now k ttl r) cf.
Proof. intros Httl Hc k'. rewrite <- Hc. by apply counter_expire. Qed.

Lemma expire_run r cf k (b : bool) :
  counts r cf →
  ∃ r', (if b then expire now k (5 * Minute) else mret tt) r [] = (tt, (r', [])) ∧
        counts r' cf ∧ r' = if b then EXPIRE now k (5 * Minute) r else r.
Proof.
  intros Hc. destruct b; eexists; (split; [done|]; split; [|done]); [|done].
  apply counts_expire; [unfold Minute, Second; lia|done].
Qed.
End runs.

(** Runs one command of a handler, under the facts above. *)
Ltac run_incr n :=
  match goal with
  | Hc : counts ?now ?r ?cf |- context [incr ?now ?k ?r []] =>
      let r' := fresh "r" in let E := fresh "E" in let Hc' := fresh "Hc" in
      destruct (incr_run now r cf k n Hc) as (r' & E & Hc' & _);
      [| |rewrite E; clear E]
  end.
Ltac run_decr n :=
  match goal with
  | Hc : counts ?now ?r ?cf |- context [decr ?now ?k ?r []] =>
      let r' := fresh "r" in let E := fresh "E" in let Hc' := fresh "Hc" in
      destruct (decr_run now r cf k n Hc) as (r' & E & Hc' & _);
      [| |rewrite E; clear E]
  end.
Ltac run_expire :=
  match goal with
  | Hc : counts ?now ?r ?cf |- context [(if ?b then expire ?now ?k _ else _) ?r []] =>
      let r' := fresh "r" in let E := fresh "E" in let Hc' := fresh "Hc" in
      destruct (expire_run now r cf k b Hc) as (r' & E & Hc' & _); rewrite E; clear E
  end.

Lemma userKey_globalKey u : userKey u ≠ globalKey.
Proof. unfold userKey, globalKey. intros Heq. cbn in Heq. discriminate Heq. Qed.
Lemma userKey_dsKey u d : userKey u ≠ dsKey d.
Proof. unfold userKey, dsKey. intros Heq. cbn in Heq. discriminate Heq. Qed.
Lemma dsKey_globalKey d : dsKey d ≠ globalKey.
Proof. unfold dsKey, globalKey. intros Heq. cbn in Heq. discriminate Heq. Qed.
#[export] Hint Resolve userKey_globalKey userKey_dsKey dsKey_globalKey not_eq_sym : core.

Ltac upd_eq :=
  unfold upd;
  repeat first
    [ rewrite decide_True by done
    | rewrite decide_False by auto ];
  try done.

Section functional.
Context `{RedisLaws R}.
Variables (l : limits) (now userID dsID : Z).

Definition acquire_outcome (u g d : Z) : result acquire_error permit :=
  if runtimeMaxPerUser l <? u + 1 then Err ErrConcurrentLimit
  else if runtimeMaxGlobal l <? g + 1 then Err ErrConcurrentLimit
  else if runtimeMaxPerDatasource l <? d + 1 then Err ErrDatasourceConcurrentLimit
  else Ok (mkPermit [userKey userID; globalKey; dsKey dsID] false).

Definition small (n : Z) : Prop := 0 ≤ n < 2 ^ 62.

Lemma small_ok n d : small n → -1 ≤ d ≤ 1 → int64_ok (n + d) = true.
Proof.
  unfold small, int64_ok. intros Hn Hd. apply andb_true_intro.
  split; [apply Z.leb_le|apply Z.ltb_lt]; lia.
Qed.

Lemma small_ok2 n : small n → int64_ok (n + 1 + -1) = true.
Proof. intros Hn. replace (n + 1 + -1) with (n + 0) by lia. apply small_ok; [done|lia]. Qed.

(** What the counters become: one more on each key of the permit, or
    nothing. *)
Definition settled (res : result acquire_error permit) (cf : string → option Z)
    (k : string) : option Z :=
  match res with
  | Ok p => if bool_decide (k ∈ permit_keys p) then Z.succ <$> cf k else cf k
  | Err _ => cf k
  end.

Lemma acquire_runs (r : R) cf u g d :
  counts now r cf →
  cf (userKey userID) = Some u → cf globalKey = Some g → cf (dsKey dsID) = Some d →
  small u → small g → small d →
  ∃ r', AcquireForDatasource l now userID dsID r [] = (acquire_outcome u g d, (r', [])) ∧
        ∀ k, counter now k r' = settled (acquire_outcome u g d) cf k.
Proof.
  intros Hc Hu Hg Hd Su Sg Sd. unfold AcquireForDatasource, acquire_outcome.
  rewrite run_bind. run_incr u; [done|apply small_ok; [done|lia]|].
  rewrite run_bind. run_expire.
  destruct (Z.ltb_spec (runtimeMaxPerUser l) (u + 1)).
  { rewrite run_bind. run_decr (u + 1); [by upd_eq|by apply small_ok2|].
    eexists. split; [done|]. intros k. rewrite (Hc2 k). simpl. unfold upd.
    repeat case_decide; subst; try done. rewrite Hu. f_equal. lia. }
  rewrite run_bind. run_incr g; [by upd_eq|apply small_ok; [done|lia]|].
  rewrite run_bind. run_expire.
  destruct (Z.ltb_spec (runtimeMaxGlobal l) (g + 1)).
  { rewrite run_bind. run_decr (u + 1); [by upd_eq|by apply small_ok2|].
    rewrite run_bind. run_decr (g + 1); [by upd_eq|by apply small_ok2|].
    eexists. split; [done|]. intros k. rewrite (Hc5 k). simpl. unfold upd.
    repeat case_decide; subst; try done; rewrite ?Hu, ?Hg; f_equal; lia. }
  rewrite run_bind. run_incr d; [by upd_eq|apply small_ok; [done|lia]|].
  rewrite run_bind. run_expire.
  destruct (Z.ltb_spec (runtimeMaxPerDatasource l) (d + 1)).
  { rewrite run_bind. run_decr (u + 1); [by upd_eq|by apply small_ok2|].
    rewrite run_bind. run_decr (g + 1); [by upd_eq|by apply small_ok2|].
    rewrite run_bind. run_decr (d + 1); [by upd_eq|by apply small_ok2|].
    eexists. split; [done|]. intros k. rewrite (Hc8 k). simpl. unfold upd.
    repeat case_decide; subst; try done; rewrite ?Hu, ?Hg, ?Hd; f_equal; lia. }
  eexists. split; [done|]. intros k. rewrite (Hc5 k). simpl. unfold upd.
  case_bool_decide as Hin.
  - repeat (apply elem_of_cons in Hin as [->|Hin]); [| | |by apply not_elem_of_nil in Hin];
      repeat case_decide; simplify_eq; rewrite ?Hu, ?Hg, ?Hd; simpl; try (f_equal; lia);
      exfalso; congruence || (by eapply userKey_globalKey).
  - repeat case_decide; subst; try done; exfalso; apply Hin; set_solver.
Qed.
End functional.

Section theorems.
Context `{RedisLaws R}.
Implicit Types (r : R).

(** [AcquireForDatasource] without faults: it is refused by the first of
    the user, global and datasource limits that is reached, with that
    limit's error, and then leaves every counter as it was; otherwise it
    returns a permit and has added one to exactly the three counters. *)
Theorem acquire_for_datasource_functional (l : limits) (now userID dsID u g d : Z) r :
  counter now (userKey userID) r = Some u → counter now globalKey r = Some g →
  counter now (dsKey dsID) r = Some d →
  small u → small g → small d →
  ∃ r', AcquireForDatasource l now userID dsID r [] =
          (acquire_outcome l userID dsID u g d, (r', [])) ∧
        ∀ k, counter now k r' =
          settled (acquire_outcome l userID dsID u g d) (λ k, counter now k r) k.
Proof. intros Hu Hg Hd Su Sg Sd. by eapply (acquire_runs l now). Qed.

Lemma for_each_decr_runs now ks r cf :
  NoDup ks → counts now r cf →
  (∀ k, k ∈ ks → ∃ n, cf k = Some n ∧ small (n - 1)) →
  ∃ r', for_each ks (decr now) r [] = (tt, (r', [])) ∧
        ∀ k, counter now k r' = if bool_decide (k ∈ ks) then Z.pred <$> cf k else cf k.
Proof.
  intros Hnd. revert r cf. induction Hnd as [|k ks Hnin _ IH]; intros r cf Hc Hks.
  { exists r. split; [done|]. intros k. rewrite Hc. by rewrite bool_decide_eq_false_2 by set_solver. }
  destruct (Hks k ltac:(set_solver)) as (n & Hk & Sn).
  simpl. rewrite run_bind. run_decr n; [done| |].
  { replace (n + -1) with (n - 1 + 0) by lia. apply small_ok; [done|lia]. }
  destruct (IH r0 (upd cf k (n + -1)) Hc0) as (r' & -> & Hr').
  { intros k' Hk'. unfold upd. rewrite decide_False by set_solver. apply Hks. set_solver. }
  exists r'. split; [done|]. intros k'. rewrite Hr'. unfold upd.
  destruct (decide (k = k')) as [<-|Hne].
  - rewrite bool_decide_eq_false_2 by done. rewrite bool_decide_eq_true_2 by set_solver.
    by rewrite Hk.
  - do 2 case_bool_decide; set_solver.
Qed.

Lemma acquire_release_runs (l : limits) (now userID dsID u g d : Z) r :
  counter now (userKey userID) r = Some u → counter now globalKey r = Some g →
  counter now (dsKey dsID) r = Some d →
  small u → small g → small d →
  u < runtimeMaxPerUser l → g < runtimeMaxGlobal l → d < runtimeMaxPerDatasource l →
  ∃ p r1 p' r2,
    AcquireForDatasource l now userID dsID r [] = (Ok p, (r1, [])) ∧
    release now p r1 [] = (p', (r2, [])) ∧
    release now p' r2 [] = (p', (r2, [])) ∧
    ∀ k, counter now k r2 = counter now k r.
Proof.
  intros Hu Hg Hd Su Sg Sd Lu Lg Ld.
  destruct (acquire_runs l now userID dsID r (λ k, counter now k r) u g d)
    as (r1 & Ha & Hr1); try done.
  assert (Ho : acquire_outcome l userID dsID u g d =
               Ok (mkPermit [userKey userID; globalKey; dsKey dsID] false)).
  { unfold acquire_outcome. by rewrite !(proj2 (Z.ltb_ge _ _)) by lia. }
  rewrite Ho in Ha, Hr1. simpl in Hr1.
  destruct (for_each_decr_runs now [userKey userID; globalKey; dsKey dsID] r1
              (λ k, counter now k r1)) as (r2 & Hd2 & Hr2).
  - repeat constructor; set_solver.
  - done.
  - intros k Hin. rewrite Hr1, bool_decide_eq_true_2 by done.
    assert (Hn : ∃ n, counter now k r = Some n ∧ small n) by set_solver.
    destruct Hn as (n & -> & Sn). exists (Z.succ n). split; [done|].
    by replace (Z.succ n - 1) with n by lia.
  - exists (mkPermit [userKey userID; globalKey; dsKey dsID] false), r1,
      (mkPermit [userKey userID; globalKey; dsKey dsID] true), r2.
    split_and!; [done| |done|].
    + unfold release. simpl. rewrite run_bind. simpl in Hd2. by rewrite Hd2.
    + intros k. rewrite Hr2, Hr1. case_bool_decide; [|done].
      destruct (counter now k r) as [n|]; [|done]. simpl. f_equal. lia.
Qed.

(** Releasing a permit undoes its acquisition, and releasing it again
    does nothing: after a successful [AcquireForDatasource] and one or two
    calls of the closure every counter is what it was before. *)
Theorem acquire_release_roundtrip (l : limits) (now userID dsID u g d : Z) r :
  counter now (userKey userID) r = Some u → counter now globalKey r = Some g →
  counter now (dsKey dsID) r = Some d →
  small u → small g → small d →
  u < runtimeMaxPerUser l → g < runtimeMaxGlobal l → d < runtimeMaxPerDatasource l →
  ∃ p r1 p' r2,
    AcquireForDatasource l now userID dsID r [] = (Ok p, (r1, [])) ∧
    release now p r1 [] = (p', (r2, [])) ∧
    release now p' r2 [] = (p', (r2, [])) ∧
    ∀ k, counter now k r2 = counter now k r.
Proof. apply acquire_release_runs. Qed.

(** What a first [Acquire] leaves behind. *)
Lemma acquire_first (l : limits) (now userID : Z) r :
  (∀ k, live now k r = None) → 0 < runtimeMaxPerUser l → 0 < runtimeMaxGlobal l →
  ∃ r', Acquire l now userID r [] =
          (Ok (mkPermit [userKey userID; globalKey] false), (r', [])) ∧
        ∀ t k, now + 5 * Minute ≤ t → live t k r = None → live t k r' = None.
Proof.
  intros Hnone Lu Lg. unfold Acquire.
  assert (Hc : counts now r (λ _, Some 0)) by (intros k; unfold counter; by rewrite Hnone).
  rewrite run_bind.
  destruct (incr_run now r _ (userKey userID) 0 Hc) as (r1 & E & Hc1 & Hr1); [done..|].
  rewrite E, run_bind. replace (0 + 1 =? 1) with true by done.
  destruct (expire_run now r1 _ (userKey userID) true Hc1) as (r2 & E2 & Hc2 & Hr2).
  rewrite E2. rewrite (proj2 (Z.ltb_ge _ _)) by lia. rewrite run_bind.
  destruct (incr_run now r2 _ globalKey 0 Hc2) as (r3 & E3 & Hc3 & Hr3); [by upd_eq|done|].
  rewrite E3, run_bind. replace (0 + 1 =? 1) with true by done.
  destruct (expire_run now r3 _ globalKey true Hc3) as (r4 & E4 & Hc4 & Hr4).
  rewrite E4. rewrite (proj2 (Z.ltb_ge _ _)) by lia.
  exists r4. split; [done|]. intros t k Ht Hk. subst r4.
  assert (Hm : 0 < 5 * Minute) by (unfold Minute, Second; lia).
  assert (Hgone : ∀ k (q : R), live t k (EXPIRE now k (5 * Minute) q) = None).
  { intros k' q. rewrite live_EXPIRE_eq by done.
    destruct (live now k' q) as [[v dl]|]; [|done].
    by rewrite (proj2 (Z.leb_le _ _)) by lia. }
  destruct (decide (globalKey = k)) as [<-|Hg]; [apply Hgone|].
  rewrite live_EXPIRE_ne by done. subst r3.
  rewrite (live_INCRBY_ne now t _ _ _ _ 0); [| |done|done].
  2:{ change (counter now globalKey r2 = Some 0). rewrite Hc2. by upd_eq. }
  subst r2. destruct (decide (userKey userID = k)) as [<-|Hu]; [apply Hgone|].
  rewrite live_EXPIRE_ne by done. subst r1.
  rewrite (live_INCRBY_ne now t _ _ _ _ 0); [done| |done|done].
  apply Hc.
Qed.

(** The counters expire five minutes after their first increment, while
    permits may still be held: from an empty store, with a limit of one
    query per user, a second [Acquire] five minutes later succeeds although
    the first permit has not been released. *)
Theorem expiry_lets_limit_be_exceeded (l : limits) (now later userID : Z) r :
  runtimeMaxPerUser l = 1 → 0 < runtimeMaxGlobal l →
  now + 5 * Minute ≤ later → (∀ t k, live t k r = None) →
  ∃ r1 r2,
    Acquire l now userID r [] =
      (Ok (mkPermit [userKey userID; globalKey] false), (r1, [])) ∧
    Acquire l later userID r1 [] =
      (Ok (mkPermit [userKey userID; globalKey] false), (r2, [])).
Proof.
  intros Lu Lg Hlater Hnone.
  destruct (acquire_first l now userID r) as (r1 & H1 & Hgone); [done|lia|done|].
  destruct (acquire_first l later userID r1) as (r2 & H2 & _); [|lia|done|].
  { intros k. apply Hgone; [done|apply Hnone]. }
  by exists r1, r2.
Qed.
End theorems.

(** ** Interleaved clients

    The same handler cut at its Redis commands.  A client goes through the
    keys of its permit; after [INCR] it looks at the reply, then goes on,
    rolls back, or holds the permit until it releases it. *)
Inductive client : Type :=
| Incr (got : list string) (todo : list (string * Z))
| Seen (got : list string) (k : string) (limit reply : Z) (todo : list (string * Z))
| Hold (keys : list string)
| Rollback (keys : list string).

Section clients.
Context `{Redis R}.
Variable now : Z.

(** One command of one client. *)
Definition client_step (c : client) : M R client :=
  match c with
  | Incr got [] => mret (Hold got)
  | Incr got ((k, m) :: todo) =>
      o ← incr now k;
      mret match o with
           | Some n => Seen got k m n todo
           | None => Rollback got
           end
  | Seen got k m n todo =>
      _ ← (if n =? 1 then expire now k (5 * Minute) else mret tt);
      mret (if m <? n then Rollback (got ++ [k]) else Incr (got ++ [k]) todo)
  | Hold keys => mret (Rollback keys)
  | Rollback [] => mret (Rollback [])
  | Rollback (k :: keys) => _ ← decr now k; mret (Rollback keys)
  end.

Fixpoint client_run (n : nat) (c : client) : M R client :=
  match n with
  | O => mret c
  | S n => c' ← client_step c; client_run n c'
  end.
End clients.

Section interleaving.
Context `{RedisLaws R}.

(** The keys a client has incremented and not yet decremented. *)
Definition incremented (c : client) : list string :=
  match c with
  | Incr got _ => got
  | Seen got k _ _ _ => got ++ [k]
  | Hold keys => keys
  | Rollback keys => keys
  end.

(** The keys a client was let through. *)
Definition passed (c : client) : list string :=
  match c with
  | Incr got _ => got
  | Seen got k m n _ => if m <? n then got else got ++ [k]
  | Hold keys => keys
  | Rollback _ => []
  end.

Definition held (c : client) : list string :=
  match c with Hold keys => keys | _ => [] end.

Definition occ (k : string) (ks : list string) : nat := length (filter (k =.) ks).

Record sys : Type := mkSys { clients : list client; store : R; clock : Z }.

(** Commands of the clients, with whatever becomes of them, and time that
    passes without a counter in use expiring. *)
Inductive sys_step : sys → sys → Prop :=
| sys_client i c c' s r' fs :
    clients s !! i = Some c → run (client_step (clock s) c) (store s) fs = (c', r') →
    sys_step s (mkSys (<[i := c']> (clients s)) r' (clock s))
| sys_time s d :
    0 ≤ d → (∀ k, counter (clock s + d) k (store s) = counter (clock s) k (store s)) →
    sys_step s (mkSys (clients s) (store s) (clock s + d)).

Variable limit : string → Z.

Definition todo_ok (todo : list (string * Z)) : Prop :=
  Forall (λ '(k, m), m = limit k) todo.

(** At most the three keys of [AcquireForDatasource]. *)
Definition client_ok (c : client) : Prop :=
  match c with
  | Incr got todo => todo_ok todo ∧ (length got + length todo ≤ 3)%nat
  | Seen got k m n todo => m = limit k ∧ todo_ok todo ∧ (length got + 1 + length todo ≤ 3)%nat
  | Hold keys => (length keys ≤ 3)%nat
  | Rollback keys => (length keys ≤ 3)%nat
  end.

Definition total (f : client → list string) (cs : list client) (k : string) : nat :=
  sum_list_with (λ c, occ k (f c)) cs.

(** How many [INCR] a client can have sent. *)
Definition made (c : client) : nat :=
  match c with
  | Incr _ todo | Seen _ _ _ _ todo => 3 - length todo
  | _ => 3
  end.

Definition sys_init (s : sys) : Prop :=
  (∀ k, counter (clock s) k (store s) = Some 0) ∧ Z.of_nat (length (clients s)) < 2 ^ 60 ∧
  ∀ c, c ∈ clients s → ∃ todo, c = Incr [] todo ∧ todo_ok todo ∧ (length todo ≤ 3)%nat.

(** A counter is at least what the clients account for: a lost reply leaves
    it too high, never too low. *)
Definition counted (now : Z) (r : R) (cs : list client) (k : string) : Prop :=
  ∃ n, counter now k r = Some n ∧
       Z.of_nat (total incremented cs k) ≤ n ≤ Z.of_nat (sum_list_with made cs).

Record sys_inv (s : sys) : Prop := {
  inv_counts : ∀ k, counted (clock s) (store s) (clients s) k;
  inv_passed : ∀ k, Z.of_nat (total passed (clients s) k) ≤ Z.max 0 (limit k);
  inv_size : Z.of_nat (length (clients s)) < 2 ^ 60;
  inv_ok : Forall client_ok (clients s);
}.

Lemma occ_app k ks1 ks2 : occ k (ks1 ++ ks2) = (occ k ks1 + occ k ks2)%nat.
Proof. unfold occ. by rewrite filter_app, length_app. Qed.

Lemma occ_one k k' : occ k [k'] = if decide (k = k') then 1%nat else 0%nat.
Proof. unfold occ. rewrite filter_cons. by case_decide. Qed.

Lemma occ_cons k k' ks : occ k (k' :: ks) = ((if decide (k = k') then 1 else 0) + occ k ks)%nat.
Proof. rewrite <- occ_one. apply (occ_app k [k'] ks). Qed.

Lemma occ_le k ks : (occ k ks ≤ length ks)%nat.
Proof. apply filter_length_le. Qed.

Lemma made_le c : (made c ≤ 3)%nat.
Proof. destruct c; simpl; lia. Qed.

Lemma passed_incremented k c : (occ k (passed c) ≤ occ k (incremented c))%nat.
Proof.
  destruct c as [| |keys|keys]; simpl; [done| |done|unfold occ; simpl; lia].
  destruct (_ <? _); [rewrite occ_app; lia|done].
Qed.

Lemma held_passed k c : (occ k (held c) ≤ occ k (passed c))%nat.
Proof. destruct c; simpl; [unfold occ; simpl; lia..|done|done]. Qed.

Lemma total_insert f cs i c c' k :
  cs !! i = Some c →
  (total f (<[i := c']> cs) k + occ k (f c) = total f cs k + occ k (f c'))%nat.
Proof. apply (sum_list_with_insert (λ c, occ k (f c))). Qed.

Lemma made_insert cs i c c' :
  cs !! i = Some c →
  (sum_list_with made (<[i := c']> cs) + made c = sum_list_with made cs + made c')%nat.
Proof. apply (sum_list_with_insert made). Qed.

Lemma counted_small s n :
  sys_inv s → n ≤ Z.of_nat (sum_list_with made (clients s)) → 0 ≤ n → small n.
Proof.
  intros Hinv Hn H0n. pose proof (inv_size s Hinv).
  pose proof (sum_list_with_bound made 3 (clients s) (λ c _, made_le c)) as Hb.
  unfold small. lia.
Qed.

(** A client moves on and the counters stay. *)
Lemma counted_same s i c c' :
  sys_inv s → clients s !! i = Some c →
  (∀ k, (occ k (incremented c') ≤ occ k (incremented c))%nat) → (made c ≤ made c')%nat →
  ∀ k, counted (clock s) (store s) (<[i := c']> (clients s)) k.
Proof.
  intros Hinv Hi Hocc Hmade k. destruct (inv_counts s Hinv k) as (n & Hn & Hle & Hup).
  pose proof (total_insert incremented _ i c c' k Hi). pose proof (made_insert _ i c c' Hi).
  specialize (Hocc k). exists n. split; [done|lia].
Qed.

(** [INCRBY k d] changes that counter and no other. *)
Lemma counted_incrby s i c c' k d :
  sys_inv s → clients s !! i = Some c → d = 1 ∨ d = -1 ∧ (0 < occ k (incremented c))%nat →
  (∀ k', Z.of_nat (occ k' (incremented c')) ≤
         Z.of_nat (occ k' (incremented c)) + if decide (k = k') then d else 0) →
  Z.of_nat (made c) + d ≤ Z.of_nat (made c') → (made c ≤ made c')%nat →
  ∀ k', counted (clock s) (INCRBY (clock s) k d (store s)).2 (<[i := c']> (clients s)) k'.
Proof.
  intros Hinv Hi Hd Hocc Hmade Hmade' k'. specialize (Hocc k').
  destruct (inv_counts s Hinv k) as (n & Hn & Hle & Hup).
  destruct (inv_counts s Hinv k') as (n' & Hn' & Hle' & Hup').
  pose proof (total_insert incremented _ i c c' k' Hi).
  pose proof (made_insert _ i c c' Hi).
  assert (Hok : int64_ok (n + d) = true)
    by (apply small_ok; [apply (counted_small s); [done|lia..]|lia]).
  destruct (decide (k = k')) as [<-|Hne].
  - exists (n + d). split; [by apply counter_incr_eq|]. simplify_eq. lia.
  - exists n'. split; [by erewrite counter_incr_ne by done|]. lia.
Qed.

Lemma sys_inv_update s i c c' r' :
  sys_inv s → clients s !! i = Some c → client_ok c' →
  (∀ k, counted (clock s) r' (<[i := c']> (clients s)) k) →
  (∀ k, (occ k (passed c') ≤ occ k (passed c))%nat ∨
        Z.of_nat (total passed (<[i := c']> (clients s)) k) ≤ Z.max 0 (limit k)) →
  sys_inv (mkSys (<[i := c']> (clients s)) r' (clock s)).
Proof.
  intros Hinv Hi Hok Hcounts Hpassed. constructor; simpl.
  - done.
  - intros k. destruct (Hpassed k) as [Hle|Hle]; [|done].
    pose proof (total_insert passed _ i c c' k Hi).
    pose proof (inv_passed s Hinv k). lia.
  - rewrite length_insert. apply (inv_size s Hinv).
  - by apply Forall_insert; [apply (inv_ok s Hinv)|].
Qed.

(** What becomes of [INCR] and [DECR]: the reply, and whether Redis ran it. *)
Lemma incr_cases now k (r : R) fs n :
  counter now k r = Some n → int64_ok (n + 1) = true →
  let '(o, r') := run (incr now k) r fs in
  (o = Some (n + 1) ∨ o = None) ∧ (r' = (INCRBY now k 1 r).2 ∨ o = None ∧ r' = r).
Proof.
  intros Hn Hok. pose proof (INCRBY_reply now k 1 r n Hn Hok) as Hr.
  unfold run, incr, call, mbind, M_bind.
  destruct fs as [|[] fs]; simpl; destruct (INCRBY now k 1 r) as [o r']; simpl in *; subst; auto.
Qed.

Lemma decr_cases now k (r : R) fs :
  let r' := (run (decr now k) r fs).2 in r' = (INCRBY now k (-1) r).2 ∨ r' = r.
Proof.
  unfold run, decr, call, mbind, M_bind.
  destruct fs as [|[] fs]; simpl; destruct (INCRBY now k (-1) r); auto.
Qed.

Lemma expire_cases now k (b : bool) (r : R) fs k' :
  counter now k' (run (if b then expire now k (5 * Minute) else mret tt) r fs).2 = counter now k' r.
Proof.
  assert (0 < 5 * Minute) by (unfold Minute, Second; lia).
  destruct b; [|done]. unfold run, expire, call, mbind, M_bind.
  destruct fs as [|[] fs]; simpl; by rewrite ?counter_expire.
Qed.

(** Replying to a run of one command followed by a pure step. *)
Lemma run_cont {A B} (m : M R A) (f : A → B) (r : R) fs :
  run (a ← m; mret (f a)) r fs = (f (run m r fs).1, (run m r fs).2).
Proof. unfold run, mbind, M_bind. by destruct (m r fs) as [a [r' fs']]. Qed.

Lemma incr_inv s i got k todo fs c' r' :
  sys_inv s → clients s !! i = Some (Incr got ((k, limit k) :: todo)) →
  todo_ok todo → (length got + S (length todo) ≤ 3)%nat →
  run (client_step (clock s) (Incr got ((k, limit k) :: todo))) (store s) fs = (c', r') →
  sys_inv (mkSys (<[i := c']> (clients s)) r' (clock s)).
Proof.
  intros Hinv Hi Htodo Hlen. simpl client_step. rewrite run_cont.
  destruct (inv_counts s Hinv k) as (n & Hn & Hle & Hup).
  assert (int64_ok (n + 1) = true) as Hok
    by (apply small_ok; [apply (counted_small s); [done|lia..]|lia]).
  pose proof (incr_cases (clock s) k (store s) fs n Hn Hok) as Hc.
  destruct (run (incr (clock s) k) (store s) fs) as [o r1]. simpl. intros [= <- <-].
  destruct Hc as [[->| ->] Hr].
  - destruct Hr as [->|[? _]]; [|done].
    apply (sys_inv_update _ _ (Incr got ((k, limit k) :: todo))); [done..|simpl; by split_and!; [|done|lia]| |].
    + eapply counted_incrby; [done..|by left| |simpl; lia|simpl; lia].
      intros k'. simpl. rewrite occ_app, occ_one.
      destruct (decide (k' = k)), (decide (k = k')); simplify_eq; lia.
    + intros k'. simpl. destruct (Z.ltb_spec (limit k) (n + 1)) as [Hlt|Hge]; [by left|].
      destruct (decide (k' = k)) as [->|Hne]; [right|left].
      2:{ rewrite occ_app, occ_one, decide_False by done. lia. }
      pose proof (total_insert passed _ i _ (Seen got k (limit k) (n + 1) todo) k Hi) as Ht.
      simpl in Ht. rewrite (proj2 (Z.ltb_ge _ _)) in Ht by lia.
      rewrite occ_app, occ_one, decide_True in Ht by done.
      assert (total passed (clients s) k ≤ total incremented (clients s) k)%nat.
      { apply sum_list_with_le. intros c _. apply passed_incremented. }
      lia.
  - apply (sys_inv_update _ _ (Incr got ((k, limit k) :: todo))); [done..|simpl; lia| |].
    + destruct Hr as [->|[_ ->]].
      * eapply counted_incrby; [done..|by left| |simpl; lia|simpl; lia].
        intros k'. simpl. destruct (decide (k = k')); lia.
      * eapply counted_same; [done..|done|simpl; lia].
    + intros k'. left. unfold occ; simpl. lia.
Qed.

Lemma limiter_inv_step s s' : sys_inv s → sys_step s s' → sys_inv s'.
Proof.
  intros Hinv Hsys. revert Hinv. destruct Hsys as [i c c' q r' fs Hi Hstep|q d Hd Hlive]; intros Hinv.
  2: { destruct Hinv as [Hc Hp Hs Ho]. constructor; simpl; try done.
       intros k. unfold counted. rewrite Hlive. apply Hc. }
  pose proof (Forall_lookup_1 _ _ _ _ (inv_ok q Hinv) Hi) as Hok.
  destruct c as [got [|[k m] todo]|got k m n todo|keys|[|k keys]].
  - injection Hstep as <- <-. simpl in *.
    eapply sys_inv_update; [done..|simpl; lia| |by left]. eapply counted_same; [done..|done|simpl; lia].
  - destruct Hok as [Htodo Hlen]. apply Forall_cons in Htodo as [-> Htodo]. by eapply incr_inv.
  - destruct Hok as (-> & Htodo & Hlen). simpl client_step in Hstep. rewrite run_cont in Hstep.
    pose proof (expire_cases (clock q) k (n =? 1) (store q) fs) as Hcs.
    destruct (run _ (store q) fs) as [[] r1]. simpl in *. injection Hstep as <- <-.
    assert (∀ c', (∀ k', (occ k' (incremented c') ≤ occ k' (incremented (Seen got k (limit k) n todo)))%nat) →
      (made (Seen got k (limit k) n todo) ≤ made c')%nat →
      ∀ k', counted (clock q) r1 (<[i := c']> (clients q)) k') as Hkeep.
    { intros c' Ho Hm k'. unfold counted. rewrite Hcs. by apply (counted_same q i _ c' Hinv Hi). }
    destruct (Z.ltb_spec (limit k) n);
      (eapply sys_inv_update; [done..|simpl; rewrite length_app; simpl; try split; try done; lia
                              |apply Hkeep; [done|simpl; lia]|]).
    + intros k'. left. unfold occ; simpl. lia.
    + intros k'. left. simpl. by rewrite (proj2 (Z.ltb_ge _ _)) by lia.
  - injection Hstep as <- <-. eapply sys_inv_update; [done..| |].
    + eapply counted_same; [done..|done|simpl; lia].
    + intros k. left. unfold occ; simpl. lia.
  - injection Hstep as <- <-. eapply sys_inv_update; [done..| |by left].
    eapply counted_same; [done..|done|simpl; lia].
  - simpl client_step in Hstep. rewrite run_cont in Hstep.
    pose proof (decr_cases (clock q) k (store q) fs) as Hc. cbv zeta in Hc.
    destruct (run (decr (clock q) k) (store q) fs) as [[] r1]. simpl in *. injection Hstep as <- <-.
    eapply sys_inv_update; [done..|simpl; lia| |by left].
    assert (∀ k', occ k' (k :: keys) = (if decide (k' = k) then 1 else 0) + occ k' keys)%nat as Hocc
      by (intros k'; apply occ_cons).
    destruct Hc as [->| ->].
    + eapply counted_incrby; [done..|right| |simpl; lia|done].
      * split; [done|]. simpl. rewrite Hocc. rewrite decide_True by done. lia.
      * intros k'. simpl. rewrite Hocc.
        destruct (decide (k' = k)), (decide (k = k')); simplify_eq; lia.
    + eapply counted_same; [done..| |done]. intros k'. simpl. rewrite Hocc. lia.
Qed.

(** A client that runs alone takes the steps of the system. *)
Lemma client_run_reachable n i c c' r' s fs fs' :
  clients s !! i = Some c → client_run (clock s) n c (store s) fs = (c', (r', fs')) →
  rtc sys_step s (mkSys (<[i := c']> (clients s)) r' (clock s)).
Proof.
  revert c s fs. induction n as [|n IH]; intros c s fs Hi Hrun; simpl in Hrun.
  - unfold mret, M_ret in Hrun. simplify_eq. rewrite list_insert_id by done. by destruct s.
  - rewrite run_bind in Hrun.
    destruct (client_step (clock s) c (store s) fs) as [c1 [r1 fs1]] eqn:Hstep.
    eapply rtc_l; [eapply (sys_client _ _ c1 s r1 fs); [done|unfold run; by rewrite Hstep]|].
    rewrite <- (list_insert_insert_eq (clients s) i c' c1).
    apply (IH c1 (mkSys _ r1 (clock s)) fs1); [|done].
    simpl. apply list_lookup_insert_eq. by eapply lookup_lt_Some.
Qed.

Lemma limiter_inv_init s : sys_init s → sys_inv s.
Proof.
  intros (Hzero & Hsize & Hcl).
  assert (Hz : ∀ f k, (∀ todo, f (Incr [] todo) = []) → total f (clients s) k = 0%nat).
  { intros f k Hf. pose proof (sum_list_with_bound (λ c, occ k (f c)) 0 (clients s)) as Hb.
    unfold total. ospecialize (Hb _); [|lia]. intros c Hc.
    destruct (Hcl c Hc) as (todo & -> & _). by rewrite Hf. }
  constructor; [| |done|].
  - intros k. exists 0. rewrite Hzero, Hz by done. split; [done|lia].
  - intros k. rewrite Hz by done. lia.
  - apply Forall_forall. intros c Hc. destruct (Hcl c Hc) as (todo & -> & Ht & Hl). simpl. by split.
Qed.

(** C7: However the Redis commands of any number of clients acquiring and
    releasing permits interleave and however these fail, with time passing in
    between as long as no counter in use expires, the clients holding a
    permit on a key never outnumber the limit of that key.  The counters
    start at 0, the limits do not change, and no calibration runs (nothing
    starts it). *)
Theorem permits_never_exceed_limit (s : sys) (k : string) :
  reachable sys_step sys_init s →
  Z.of_nat (total held (clients s) k) ≤ Z.max 0 (limit k).
Proof.
  intros Hs. assert (Hinv : sys_inv s)
    by (revert s Hs; apply reachable_invariant; [apply limiter_inv_init|apply limiter_inv_step]).
  pose proof (inv_passed s Hinv k).
  assert (total held (clients s) k ≤ total passed (clients s) k)%nat.
  { apply sum_list_with_le. intros c _. apply held_passed. }
  lia.
Qed.
End interleaving.

Section refinement.
Context `{Redis R}.

Lemma client_run_S now n c (r : R) fs :
  client_run now (S n) c r fs =
    let '(c', (r', fs')) := client_step now c r fs in client_run now n c' r' fs'.
Proof. done. Qed.

(** Rolling the keys back one by one. *)
Lemma rollback_run now n ks (r : R) fs :
  client_run now (length ks + n) (Rollback ks) r fs =
    let '(_, (r', fs')) := for_each ks (decr now) r fs in client_run now n (Rollback []) r' fs'.
Proof.
  revert r fs. induction ks as [|k ks IH]; intros r fs; [done|].
  simpl length. rewrite Nat.add_succ_l, client_run_S. cbn [client_step for_each].
  rewrite !run_bind. destruct (decr now k r fs) as [[] [r' fs']]. unfold mret, M_ret. apply IH.
Qed.

(** Going for one key: it is refused on a failed [INCR], refused on too high
    a count with the key to roll back as well, or the client goes on. *)
Lemma client_run_incr now n got k m todo (r : R) fs :
  client_run now (S (S n)) (Incr got ((k, m) :: todo)) r fs =
    let '(o, (r1, fs1)) := incr now k r fs in
    match o with
    | None => client_run now (S n) (Rollback got) r1 fs1
    | Some c =>
        let '(_, (r2, fs2)) :=
          (if c =? 1 then expire now k (5 * Minute) else mret tt) r1 fs1 in
        if m <? c then client_run now n (Rollback (got ++ [k])) r2 fs2
        else client_run now n (Incr (got ++ [k]) todo) r2 fs2
    end.
Proof.
  rewrite client_run_S. cbn [client_step]. rewrite run_bind.
  destruct (incr now k r fs) as [[c|] [r1 fs1]]; [|done]. unfold mret at 1, M_ret at 1.
  rewrite client_run_S. cbn [client_step]. rewrite run_bind.
  destruct ((if c =? 1 then expire now k (5 * Minute) else mret tt) r1 fs1) as [[] [r2 fs2]].
  unfold mret, M_ret. by destruct (m <? c).
Qed.

(** Where the handler's result leaves the client. *)
Definition ends_as (res : result acquire_error permit) : client :=
  match res with Ok p => Hold (permit_keys p) | Err _ => Rollback [] end.

Lemma idle_run now n (r : R) fs : client_run now n (Rollback []) r fs = (Rollback [], (r, fs)).
Proof. revert r fs. induction n as [|n IH]; intros r fs; [done|]. apply IH. Qed.

(** Run alone, the command-level client that the interleaving theorem is
    about does what [AcquireForDatasource] does, whatever becomes of the
    commands: it ends holding the keys of the permit the handler returns, or
    rolled back when the handler returns an error, with the same Redis
    state. *)
Theorem client_steps_refine_acquire (l : limits) (now userID dsID : Z) (r : R) fs :
  ∃ n, client_run now n
         (Incr [] [(userKey userID, runtimeMaxPerUser l); (globalKey, runtimeMaxGlobal l);
                   (dsKey dsID, runtimeMaxPerDatasource l)]) r fs =
       let '(res, st) := AcquireForDatasource l now userID dsID r fs in (ends_as res, st).
Proof.
  unfold AcquireForDatasource. rewrite run_bind.
  destruct (incr now (userKey userID) r fs) as [[u|] [r1 fs1]] eqn:E1.
  2:{ exists 2%nat. by rewrite client_run_incr, E1. }
  rewrite run_bind.
  destruct ((if u =? 1 then expire now (userKey userID) (5 * Minute) else mret tt) r1 fs1)
    as [[] [r2 fs2]] eqn:X1.
  destruct (runtimeMaxPerUser l <? u) eqn:L1.
  { exists (2 + (1 + 0))%nat. simpl plus. rewrite client_run_incr, E1, X1, L1. cbn [app].
    rewrite (rollback_run now 0 [userKey userID]). cbn [for_each]. rewrite !run_bind.
    by destruct (decr now (userKey userID) r2 fs2) as [[] [? ?]]. }
  rewrite run_bind.
  destruct (incr now globalKey r2 fs2) as [[g|] [r3 fs3]] eqn:E2.
  2:{ exists (4 + 0)%nat. simpl plus. rewrite client_run_incr, E1, X1, L1. cbn [app].
      rewrite client_run_incr, E2. rewrite (rollback_run now 0 [userKey userID]).
      cbn [for_each]. rewrite !run_bind. by destruct (decr now (userKey userID) r3 fs3) as [[] [? ?]]. }
  rewrite run_bind.
  destruct ((if g =? 1 then expire now globalKey (5 * Minute) else mret tt) r3 fs3)
    as [[] [r4 fs4]] eqn:X2.
  destruct (runtimeMaxGlobal l <? g) eqn:L2.
  { exists (4 + (2 + 0))%nat. simpl plus. rewrite client_run_incr, E1, X1, L1. cbn [app].
    rewrite client_run_incr, E2, X2, L2. cbn [app].
    rewrite (rollback_run now 0 [userKey userID; globalKey]). cbn [for_each]. rewrite !run_bind.
    destruct (decr now (userKey userID) r4 fs4) as [[] [r5 fs5]]. rewrite !run_bind.
    by destruct (decr now globalKey r5 fs5) as [[] [? ?]]. }
  rewrite run_bind.
  destruct (incr now (dsKey dsID) r4 fs4) as [[d|] [r5 fs5]] eqn:E3.
  2:{ exists (6 + 1)%nat. simpl plus. rewrite client_run_incr, E1, X1, L1. cbn [app].
      rewrite client_run_incr, E2, X2, L2. cbn [app]. rewrite client_run_incr, E3.
      rewrite (rollback_run now 0 [userKey userID; globalKey]). cbn [for_each]. rewrite !run_bind.
      destruct (decr now (userKey userID) r5 fs5) as [[] [r6 fs6]]. rewrite !run_bind.
      by destruct (decr now globalKey r6 fs6) as [[] [? ?]]. }
  rewrite run_bind.
  destruct ((if d =? 1 then expire now (dsKey dsID) (5 * Minute) else mret tt) r5 fs5)
    as [[] [r6 fs6]] eqn:X3.
  assert (∀ n, client_run now (6 + n)
            (Incr [] [(userKey userID, runtimeMaxPerUser l); (globalKey, runtimeMaxGlobal l);
                      (dsKey dsID, runtimeMaxPerDatasource l)]) r fs =
          if runtimeMaxPerDatasource l <? d
          then client_run now n (Rollback [userKey userID; globalKey; dsKey dsID]) r6 fs6
          else client_run now n (Incr [userKey userID; globalKey; dsKey dsID] []) r6 fs6) as Hrun.
  { intros n. simpl plus. rewrite client_run_incr, E1, X1, L1. cbn [app].
    rewrite client_run_incr, E2, X2, L2. cbn [app]. by rewrite client_run_incr, E3, X3. }
  destruct (runtimeMaxPerDatasource l <? d).
  - exists (6 + (3 + 0))%nat. rewrite Hrun.
    rewrite (rollback_run now 0 [userKey userID; globalKey; dsKey dsID]).
    cbn [for_each]. rewrite !run_bind.
    destruct (decr now (userKey userID) r6 fs6) as [[] [r7 fs7]]. rewrite !run_bind.
    destruct (decr now globalKey r7 fs7) as [[] [r8 fs8]]. rewrite !run_bind.
    by destruct (decr now (dsKey dsID) r8 fs8) as [[] [? ?]].
  - exists (6 + 1)%nat. by rewrite Hrun.
Qed.
End refinement.

(** ** Witnesses, on the concrete server *)

Definition lims : limits := mkLimits 1 50 10.

Example acquire_for_datasource_functional_witness :
  ∃ r', AcquireForDatasource lims 0 7 3 (∅ : gmap_store) [] =
          (acquire_outcome lims 7 3 0 0 0, (r', [])) ∧
        ∀ k, counter 0 k r' =
          settled (acquire_outcome lims 7 3 0 0 0) (λ k, counter 0 k (∅ : gmap_store)) k.
Proof.
  apply acquire_for_datasource_functional; [reflexivity..| | |]; split; [discriminate|reflexivity|discriminate|reflexivity|discriminate|reflexivity].
Defined.

Example acquire_release_roundtrip_witness :
  ∃ p r1 p' r2,
    AcquireForDatasource lims 0 7 3 (∅ : gmap_store) [] = (Ok p, (r1, [])) ∧
    release 0 p r1 [] = (p', (r2, [])) ∧
    release 0 p' r2 [] = (p', (r2, [])) ∧
    ∀ k, counter 0 k r2 = counter 0 k (∅ : gmap_store).
Proof.
  apply (acquire_release_roundtrip lims 0 7 3 0 0 0);
    try reflexivity; split; [discriminate|reflexivity|discriminate|reflexivity|discriminate|reflexivity].
Defined.

Example expiry_lets_limit_be_exceeded_witness :
  ∃ r1 r2,
    Acquire lims 0 7 (∅ : gmap_store) [] =
      (Ok (mkPermit [userKey 7; globalKey] false), (r1, [])) ∧
    Acquire lims (6 * Minute) 7 r1 [] =
      (Ok (mkPermit [userKey 7; globalKey] false), (r2, [])).
Proof.
  apply expiry_lets_limit_be_exceeded; [reflexivity|reflexivity|discriminate|].
  intros t k. reflexivity.
Defined.

(** Two clients race for one user's only permit; the first one gets it. *)
Definition race_limit (k : string) : Z := if bool_decide (k = globalKey) then 50 else 1.
Definition contender : client := Incr [] [(userKey 7, 1); (globalKey, 50)].
Definition race_start : sys := mkSys [contender; contender] (∅ : gmap_store) 0.

(** The first client is let through, time passes, and the reply of the second
    one's [INCR] is lost. *)
Definition race_run : client * gmap_store := run (client_run 0 5 contender) (∅ : gmap_store) [].
Definition race_loss : client * gmap_store :=
  run (client_run Minute 1 contender) race_run.2 [Ghost].
Definition race_end : sys := mkSys [race_run.1; race_loss.1] race_loss.2 Minute.

Lemma race_counters k : counter Minute k race_run.2 = counter 0 k race_run.2.
Proof.
  destruct (decide (k = userKey 7)) as [->|Hu]; [reflexivity|].
  destruct (decide (k = globalKey)) as [->|Hg]; [reflexivity|].
  assert (∀ t, live t k race_run.2 = None) as Hn; [|unfold counter; by rewrite !Hn].
  intros t. assert ((race_run.2 : gmap string _) !! k = None) as Hk.
  { apply not_elem_of_dom. assert (dom (race_run.2 : gmap string _) = {[userKey 7; globalKey]}) as ->
      by by apply (bool_decide_unpack _). set_solver. }
  unfold live. simpl. by rewrite Hk.
Qed.

Lemma race_end_reachable :
  reachable sys_step (sys_init race_limit) race_end.
Proof.
  exists race_start. split.
  - split_and!; [done|reflexivity|]. intros c Hc. exists [(userKey 7, 1); (globalKey, 50)].
    split_and!; [|by repeat constructor|simpl; lia].
    unfold race_start in Hc. simpl in Hc.
    apply list_elem_of_In in Hc. by destruct Hc as [<-|[<-|[]]].
  - etrans; [apply (client_run_reachable 5 0 contender race_run.1 race_run.2 race_start [] []); reflexivity|].
    eapply rtc_l; [apply (sys_time _ Minute); [done|intros k; exact (race_counters k)]|].
    apply (client_run_reachable 1 1 contender race_loss.1 race_loss.2
             (mkSys [race_run.1; contender] race_run.2 Minute) [Ghost] []); reflexivity.
Qed.

Example permits_never_exceed_limit_witness :
  held <$> clients race_end = [[userKey 7; globalKey]; []] ∧
  Z.of_nat (total held (clients race_end) (userKey 7)) ≤ Z.max 0 (race_limit (userKey 7)).
Proof.
  split; [reflexivity|].
  exact (permits_never_exceed_limit race_limit race_end (userKey 7) race_end_reachable).
Defined.
