(* ===== verification/Election.v ===== *)
(** * Leader election

    [src/scheduler/pkg/election/leader.go]: the schedulers of a deployment
    compete for one Redis key; the node whose [SETNX] succeeds leads, renews
    the key at every tick of its watch loop and steps down when the key is
    lost or Redis cannot be reached three times in a row.

    A handler ([Start], a tick of [watch], [Stop]) is a [prog]: the commands
    it sends to Redis, one after the other, each with what the node goes on
    with after the reply.  The deployment [sys] is a list of nodes; a step
    lets one node begin a handler or send the next command of the one it is
    in, or lets time pass, so that the commands of different nodes interleave
    and a key can expire between the [GET] of a tick and its [EXPIRE], or
    between the [GET] and the [DEL] of [stepDown].  Handlers of one node run
    one after the other.

    [one_fresh_leader] holds of the schedules in which a node that read the
    key sends the [EXPIRE] or [DEL] that depends on it before the lease it
    read runs out ([prompt]); [late_renewal_two_leaders] and
    [late_delete_two_leaders] show that it fails without that. *)
From Stdlib Require Import Ascii.
From S2P Require Import Prelude Redis.

(** ** Definitions *)

Record LeaderElection : Type := mkLeaderElection {
  leaderKey : string;
  nodeID : string;
  httpAddr : string;
  ttl : Z;
}.

Definition NewLeaderElection (leaderKey nodeID httpAddr : string) (ttl : Z) : LeaderElection :=
  mkLeaderElection leaderKey nodeID httpAddr ttl.

Inductive callback : Type := OnAcquire | OnRelease.

#[export] Instance callback_eq_dec : EqDecision callback.
Proof. solve_decision. Defined.

Definition leader_value (e : LeaderElection) : string :=
  if bool_decide (httpAddr e = "") then nodeID e else nodeID e +:+ "|" +:+ httpAddr e.

(** [strings.Index(value, "|")] and the slices around it. *)
Definition cut_bar (value : string) : option (string * string) :=
  sepIdx ← String.index 0 "|" value;
  Some (String.substring 0 sepIdx value,
        String.substring (S sepIdx) (String.length value - S sepIdx) value).

Definition maxFailures : Z := 3.

(** What a node keeps: [isLeader], the watch loop's [consecutiveFailures],
    and the calls made to [onAcquire] and [onRelease]. *)
Record local : Type := mkLocal {
  isLeader : bool;
  consecutiveFailures : Z;
  calls : list callback;
}.

Definition set_leader (b : bool) (l : local) : local :=
  mkLocal b (consecutiveFailures l) (calls l).
Definition set_failures (n : Z) (l : local) : local := mkLocal (isLeader l) n (calls l).
Definition callback_called (c : callback) (l : local) : local :=
  mkLocal (isLeader l) (consecutiveFailures l) (calls l ++ [c]).

(** A handler, from its next command on.  [l] is what the node keeps while
    the command is under way; the rest takes the reply, [None] standing for
    an error. *)
Inductive prog : Type :=
| Return (l : local)
| Get (l : local) (k : get_reply → prog)
| SetNX (l : local) (k : option bool → prog)
| Expire (l : local) (k : option unit → prog)
| Del (l : local) (k : option unit → prog).

Definition loc (p : prog) : local :=
  match p with Return l | Get l _ | SetNX l _ | Expire l _ | Del l _ => l end.

Definition tryAcquire (l : local) (k : local → prog) : prog :=
  SetNX l (λ o,
    if default false o then
      let wasLeader := isLeader l in
      if wasLeader then k l else k (callback_called OnAcquire (set_leader true l))
    else k l).

Definition stepDown (e : LeaderElection) (l : local) (k : local → prog) : prog :=
  let wasLeader := isLeader l in
  if wasLeader then
    let l := set_leader false l in
    Get l (λ currentHolder,
      match currentHolder with
      | GetVal h =>
          if bool_decide (h = nodeID e)
          then Del l (λ _, k (callback_called OnRelease l))
          else k (callback_called OnRelease l)
      | _ => k (callback_called OnRelease l)
      end)
  else k l.

(** The error branches of the watch loop. *)
Definition count_failure (e : LeaderElection) (l : local) (k : local → prog) : prog :=
  let l := set_failures (consecutiveFailures l + 1) l in
  if maxFailures <=? consecutiveFailures l
  then stepDown e l (λ l, k (set_failures 0 l))
  else k l.

(** [currentHolder == e.nodeID || strings.HasPrefix(currentHolder, e.nodeID+"|")] *)
Definition holds_key (e : LeaderElection) (currentHolder : string) : bool :=
  bool_decide (currentHolder = nodeID e) || String.prefix (nodeID e +:+ "|") currentHolder.

(** One tick of the ticker in [watch]. *)
Definition watch_tick (e : LeaderElection) (l : local) : prog :=
  let currentIsLeader := isLeader l in
  if currentIsLeader then
    Get l (λ currentHolder,
      match currentHolder with
      | GetNil => stepDown e l (λ l, tryAcquire l (λ l, Return (set_failures 0 l)))
      | GetErr => count_failure e l Return
      | GetVal h =>
          if holds_key e h then
            Expire l (λ err,
              match err with
              | None => count_failure e l Return
              | Some _ => Return (set_failures 0 l)
              end)
          else stepDown e l (λ l, Return (set_failures 0 l))
      end)
  else tryAcquire l (λ l, Return (set_failures 0 l)).

Definition Stop (e : LeaderElection) (l : local) : prog := stepDown e l Return.

Inductive action : Type := Starts | Ticks | Stops.

Definition handler (a : action) (e : LeaderElection) (l : local) : prog :=
  match a with
  | Starts => tryAcquire l Return
  | Ticks => watch_tick e l
  | Stops => Stop e l
  end.

Section redis.
Context `{Redis R}.

(** The next command of a handler.  The flag tells that Redis granted the
    key: a [SETNX] answered with [true], an [EXPIRE] without an error. *)
Definition send (e : LeaderElection) (now : Z) (p : prog) : M R (prog * bool) :=
  match p with
  | Return l => mret (Return l, false)
  | Get _ k => g ← get_str now (leaderKey e); mret (k g, false)
  | SetNX _ k =>
      o ← call (SETNX now (leaderKey e) (VStr (leader_value e)) (ttl e));
      mret (k o, default false o)
  | Expire _ k =>
      o ← call (λ r, (tt, EXPIRE now (leaderKey e) (ttl e) r));
      mret (k o, bool_decide (is_Some o))
  | Del _ k => o ← call (λ r, (tt, DEL (leaderKey e) r)); mret (k o, false)
  end.

(** A handler run to its end with nothing in between. *)
Fixpoint exec (e : LeaderElection) (now : Z) (p : prog) : M R local :=
  match p with
  | Return l => mret l
  | Get _ k => g ← get_str now (leaderKey e); exec e now (k g)
  | SetNX _ k =>
      o ← call (SETNX now (leaderKey e) (VStr (leader_value e)) (ttl e)); exec e now (k o)
  | Expire _ k => o ← call (λ r, (tt, EXPIRE now (leaderKey e) (ttl e) r)); exec e now (k o)
  | Del _ k => o ← call (λ r, (tt, DEL (leaderKey e) r)); exec e now (k o)
  end.

(** [(nodeID, httpAddr, nil)] or the error of [Get]. *)
Definition GetLeaderInfo (e : LeaderElection) (now : Z) : M R (option (string * string)) :=
  value ← get_str now (leaderKey e);
  mret match value with
       | GetVal v => Some (default (v, "") (cut_bar v))
       | _ => None
       end.

Definition GetLeaderHTTPAddr (e : LeaderElection) (now : Z) : M R (option string) :=
  value ← get_str now (leaderKey e);
  mret match value with
       | GetVal v => Some (default "" (snd <$> cut_bar v))
       | _ => None
       end.
End redis.

(** A deployment: its configured nodes, what each is doing, the shared Redis
    state and the clock.  Two fields of a node are no state of the code:
    [renewed] is the time Redis last granted it the key, [seen] the deadline
    of the key at its last [GET]. *)
Record node : Type := mkNode {
  started : bool;
  body : prog;
  renewed : Z;
  seen : option Z;
}.

Definition new_local : local := mkLocal false 0 [].
Definition NewNode : node := mkNode false (Return new_local) 0 None.

Definition leading (n : node) : bool := isLeader (loc (body n)).

(** The next command is one the handler sends because of what it read. *)
Definition writes (p : prog) : bool :=
  match p with Expire _ _ | Del _ _ => true | _ => false end.

Section deployment.
Context `{Redis R}.
Variable nodes : list LeaderElection.

Record sys : Type := mkSys { states : list node; redis : R; clock : Z }.

(** [Start] runs once, the watch loop and [Stop] after it. *)
Definition enabled (a : action) (n : node) : bool :=
  match a with Starts => negb (started n) | _ => started n end.

(** Node [i] begins a handler. *)
Definition begin (a : action) (i : nat) (s : sys) : option sys :=
  e ← nodes !! i;
  n ← states s !! i;
  match body n with
  | Return l =>
      if enabled a n
      then Some (mkSys (<[i := mkNode true (handler a e l) (renewed n) (seen n)]> (states s))
                   (redis s) (clock s))
      else None
  | _ => None
  end.

(** Node [i] sends the next command of its handler. *)
Definition command (i : nat) (fs : list fate) (s : sys) : option sys :=
  e ← nodes !! i;
  n ← states s !! i;
  match body n with
  | Return _ => None
  | p =>
      let '((p', granted), r') := run (send e (clock s) p) (redis s) fs in
      let seen' := match p with
                   | Get _ _ => live (clock s) (leaderKey e) (redis s) ≫= snd
                   | _ => seen n
                   end in
      Some (mkSys (<[i := mkNode (started n) p'
                            (if (granted : bool) then clock s else renewed n) seen']> (states s))
              r' (clock s))
  end.

Inductive sys_step : sys → sys → Prop :=
| step_begin a i s s' : begin a i s = Some s' → sys_step s s'
| step_command i fs s s' : command i fs s = Some s' → sys_step s s'
| step_time s d :
    0 ≤ d → sys_step s (mkSys (states s) (redis s) (clock s + d)).

(** No node is still about to extend or delete the key when the lease it
    read has run out. *)
Definition prompt (s : sys) : Prop :=
  ∀ n t, n ∈ states s → writes (body n) = true → seen n = Some t → clock s < t.

Definition prompt_step (s s' : sys) : Prop := sys_step s s' ∧ prompt s'.

Definition sys_init (s : sys) : Prop :=
  length (states s) = length nodes ∧ ∀ n, n ∈ states s → n = NewNode.
End deployment.
Arguments sys R : clear implicits.
Arguments mkSys {R} _ _ _.

(** ** Callbacks *)

(** The leadership a history of callbacks ends with, [None] when a callback
    is repeated. *)
Definition replay1 (b : option bool) (c : callback) : option bool :=
  match b, c with
  | Some false, OnAcquire => Some true
  | Some true, OnRelease => Some false
  | _, _ => None
  end.
Definition replay (cs : list callback) : option bool := foldl replay1 (Some false) cs.

(** ** Handlers *)

Lemma replay_snoc cs cs' b : replay cs = Some b → replay (cs ++ cs') = foldl replay1 (Some b) cs'.
Proof. unfold replay. rewrite foldl_app. by intros ->. Qed.

(** However Redis replies, a handler ends with [P]. *)
Fixpoint ends (P : local → Prop) (p : prog) : Prop :=
  match p with
  | Return l => P l
  | Get _ k => ∀ g, ends P (k g)
  | SetNX _ k => ∀ o, ends P (k o)
  | Expire _ k | Del _ k => ∀ o, ends P (k o)
  end.

Definition history_ok (l : local) : Prop := replay (calls l) = Some (isLeader l).
Definition failures_ok (l : local) : Prop := 0 ≤ consecutiveFailures l < maxFailures.
Definition local_ok (l : local) : Prop := history_ok l ∧ failures_ok l.

Lemma tryAcquire_ends P l k :
  history_ok l →
  (∀ l', history_ok l' → consecutiveFailures l' = consecutiveFailures l → ends P (k l')) →
  ends P (tryAcquire l k).
Proof.
  intros Hl Hk. unfold tryAcquire. cbn [ends]. intros [[]|]; simpl; [|by apply Hk..].
  destruct (isLeader l) eqn:E; apply Hk; try done.
  unfold history_ok in *. simpl. erewrite replay_snoc by done. by rewrite E.
Qed.

Lemma stepDown_ends P e l k :
  history_ok l →
  (∀ l', history_ok l' → consecutiveFailures l' = consecutiveFailures l → ends P (k l')) →
  ends P (stepDown e l k).
Proof.
  intros Hl Hk. unfold stepDown. destruct (isLeader l) eqn:E; [|by apply Hk].
  assert (ends P (k (callback_called OnRelease (set_leader false l)))) as Hend.
  { apply Hk; [|done]. unfold history_ok in *. simpl. erewrite replay_snoc by done. by rewrite E. }
  cbn [ends]. intros [h| |]; [|done..]. case_bool_decide; [by intros o|done].
Qed.

Lemma count_failure_ends e l : local_ok l → ends local_ok (count_failure e l Return).
Proof.
  intros [Hh Hf]. unfold count_failure, failures_ok in *. simpl.
  destruct (Z.leb_spec maxFailures (consecutiveFailures l + 1)) as [Hle|Hlt].
  - apply stepDown_ends; [done|]. intros l' Hl' _. split; [done|]. by split.
  - split; [done|]. unfold failures_ok. simpl. lia.
Qed.

Lemma reset_ends l : history_ok l → ends local_ok (Return (set_failures 0 l)).
Proof. intros Hl. split; [done|]. by split. Qed.

Lemma handler_ends a e l : local_ok l → ends local_ok (handler a e l).
Proof.
  intros Hok. pose proof Hok as [Hh Hf]. destruct a; simpl.
  - apply tryAcquire_ends; [done|]. intros l' Hl' Hc. split; [done|].
    unfold failures_ok in *. by rewrite Hc.
  - unfold watch_tick. destruct (isLeader l).
    + cbn [ends]. intros [h| |].
      * destruct (holds_key e h).
        -- cbn [ends]. intros [|]; [by apply reset_ends|by apply count_failure_ends].
        -- apply stepDown_ends; [done|]. intros l' Hl' _. by apply reset_ends.
      * apply stepDown_ends; [done|]. intros l' Hl' _.
        apply tryAcquire_ends; [done|]. intros l'' Hl'' _. by apply reset_ends.
      * by apply count_failure_ends.
    + apply tryAcquire_ends; [done|]. intros l' Hl' _. by apply reset_ends.
  - unfold Stop. apply stepDown_ends; [done|]. intros l' Hl' Hc. split; [done|].
    unfold failures_ok in *. by rewrite Hc.
Qed.

(** What the commands of a handler depend on: only [SETNX] answered with
    [true] makes a leader, [EXPIRE] and [DEL] follow a [GET] that found a
    value of this node, and who deletes the key no longer leads. *)
Section legit.
Variable e : LeaderElection.

Definition leads (p : prog) : Prop := isLeader (loc p) = true.

Fixpoint legit (p : prog) : Prop :=
  match p with
  | Return _ => True
  | Get l k => ∀ g, legit (k g) ∧ (leads (k g) → isLeader l = true) ∧
      (writes (k g) = true → ∃ h, g = GetVal h ∧ holds_key e h = true)
  | SetNX l k => ∀ o, legit (k o) ∧ writes (k o) = false ∧
      (leads (k o) → isLeader l = true ∨ o = Some true)
  | Expire l k => ∀ o, legit (k o) ∧ writes (k o) = false ∧ (leads (k o) → isLeader l = true)
  | Del l k => isLeader l = false ∧ ∀ o, legit (k o) ∧ writes (k o) = false ∧ ¬ leads (k o)
  end.

(** A continuation that goes on with nothing but what it is given. *)
Definition quiet (k : local → prog) : Prop :=
  ∀ l, legit (k l) ∧ writes (k l) = false ∧ (leads (k l) → isLeader l = true).

Lemma quiet_Return (f : local → local) :
  (∀ l, isLeader (f l) = isLeader l) → quiet (λ l, Return (f l)).
Proof. intros Hf l. unfold leads. simpl. by rewrite Hf. Qed.

Lemma quiet_tryAcquire k : quiet k → quiet (λ l, tryAcquire l k).
Proof.
  intros Hk l. unfold tryAcquire. split_and!; [|done|done]. cbn [legit].
  intros [[]|]; simpl.
  - destruct (isLeader l) eqn:E.
    + destruct (Hk l) as (? & ? & ?). rewrite E in *. auto.
    + destruct (Hk (callback_called OnAcquire (set_leader true l))) as (? & ? & ?). auto.
  - destruct (Hk l) as (? & ? & ?). auto.
  - destruct (Hk l) as (? & ? & ?). auto.
Qed.

Lemma holds_key_nodeID : holds_key e (nodeID e) = true.
Proof. unfold holds_key. by rewrite bool_decide_true. Qed.

Lemma quiet_stepDown k : quiet k → quiet (λ l, stepDown e l k).
Proof.
  intros Hk l. unfold stepDown. destruct (isLeader l) eqn:E.
  2: { destruct (Hk l) as (? & ? & Hl). rewrite E in Hl. auto. }
  split_and!; [|done|done]. cbn [legit].
  destruct (Hk (callback_called OnRelease (set_leader false l))) as (Hg & Hw & Hl).
  simpl in Hl.
  assert (∀ g : get_reply, legit (k (callback_called OnRelease (set_leader false l))) ∧
    (leads (k (callback_called OnRelease (set_leader false l))) → false = true) ∧
    (writes (k (callback_called OnRelease (set_leader false l))) = true →
       ∃ h, g = GetVal h ∧ holds_key e h = true)) as Hend by (intros ?; rewrite Hw; by split_and!).
  intros [h| |]; [|apply Hend..]. cbv beta iota.
  destruct (bool_decide_reflect (h = nodeID e)) as [Hh|Hh]; [|apply Hend].
  cbn. split_and!.
  - done.
  - intros _. split_and!; [done..|]. intros Hlk. by specialize (Hl Hlk).
  - done.
  - intros _. subst. eauto using holds_key_nodeID.
Qed.

Lemma quiet_count_failure k : quiet k → quiet (λ l, count_failure e l k).
Proof.
  intros Hk l. unfold count_failure.
  destruct (maxFailures <=? _).
  - apply (quiet_stepDown (λ l, k (set_failures 0 l)) (λ l, Hk (set_failures 0 l))
             (set_failures (consecutiveFailures l + 1) l)).
  - apply (Hk (set_failures (consecutiveFailures l + 1) l)).
Qed.

Lemma quiet_handler a : quiet (handler a e).
Proof.
  assert (quiet Return) as Hret by by apply (quiet_Return (λ l, l)).
  assert (quiet (λ l, Return (set_failures 0 l))) as Hreset by exact (quiet_Return (set_failures 0) (λ _, eq_refl)).
  destruct a; simpl; [by apply quiet_tryAcquire| |by apply quiet_stepDown].
  intros l. unfold handler, watch_tick. destruct (isLeader l) eqn:E.
  2: { pose proof (quiet_tryAcquire _ Hreset l) as Hq. by rewrite E in Hq. }
  split_and!; [|done|done]. cbn [legit]. intros g.
  assert (∀ k, quiet k →
    legit (k l) ∧ (leads (k l) → isLeader l = true) ∧
    (writes (k l) = true → ∃ h, g = GetVal h ∧ holds_key e h = true)) as Hq.
  { intros k Hk. destruct (Hk l) as (? & Hw & ?). rewrite Hw. by split_and!. }
  destruct g as [h| |].
  - destruct (holds_key e h) eqn:Hh; [|by apply (Hq _ (quiet_stepDown _ Hreset))].
    cbn. split_and!; [|done|by eauto]. intros [|].
    + by split_and!.
    + destruct (quiet_count_failure _ Hret l) as (? & ? & ?). by split_and!.
  - apply (Hq _ (quiet_stepDown _ (quiet_tryAcquire _ Hreset))).
  - apply (Hq _ (quiet_count_failure _ Hret)).
Qed.
End legit.

(** ** Commands *)

(** A value this node takes for its own. *)
Definition mine (e : LeaderElection) (v : rval) : Prop :=
  ∃ h, get_value (Some v) = GetVal h ∧ holds_key e h = true.

Section command_facts.
Context `{RedisLaws R}.
Variables (e : LeaderElection) (now : Z).
Notation K := (leaderKey e).

(** The other nodes' key survives. *)
Definition foreign_kept (r r' : R) : Prop :=
  ∀ v d, live now K r = Some (v, d) → ¬ mine e v → ∀ t, live t K r' = live t K r.

Lemma get_value_live r h :
  get_value (GET now K r) = GetVal h →
  ∃ v d, live now K r = Some (v, d) ∧ get_value (Some v) = GetVal h.
Proof.
  rewrite GET_spec. destruct (live now K r) as [[v d]|]; [|done]. simpl. eauto.
Qed.

(** What a command can do: the next program, whether Redis granted the key,
    and the new state of Redis. *)
Inductive sent (r : R) : prog → prog → bool → R → Prop :=
| sent_get l k g :
    (g = GetErr ∨ g = get_value (GET now K r)) → sent r (Get l k) (k g) false r
| sent_setnx_kept l k o : o ≠ Some true → sent r (SetNX l k) (k o) false r
| sent_setnx l k o :
    live now K r = None → (o = Some true ∨ o = None) →
    sent r (SetNX l k) (k o) (default false o) (SET now K (VStr (leader_value e)) (ttl e) r)
| sent_expire_kept l k o : o = None → sent r (Expire l k) (k o) false r
| sent_expire l k o :
    sent r (Expire l k) (k o) (bool_decide (is_Some o)) (EXPIRE now K (ttl e) r)
| sent_del_kept l k o : sent r (Del l k) (k o) false r
| sent_del l k o : sent r (Del l k) (k o) false (DEL K r).

Lemma send_cases p r fs p' g r' :
  (∀ l, p ≠ Return l) → run (send e now p) r fs = ((p', g), r') → sent r p p' g r'.
Proof.
  intros Hne. unfold run. destruct p as [l|l k|l k|l k|l k]; [by destruct (Hne l)|..];
    cbn [send]; rewrite run_bind; unfold get_str, call; rewrite ?run_bind.
  - destruct fs as [|[] fs]; intros [= <- <- <-]; apply sent_get; simpl; auto.
  - rewrite SETNX_spec. destruct (live now K r) eqn:E;
      destruct fs as [|[] fs]; intros [= <- <- <-];
      first [apply (sent_setnx_kept r l k (Some false)); congruence
            |apply (sent_setnx_kept r l k None); congruence
            |apply (sent_setnx r l k (Some true)); by auto
            |apply (sent_setnx r l k None); by auto].
  - destruct fs as [|[] fs]; intros [= <- <- <-];
      first [by apply (sent_expire _ _ _ (Some tt))|by apply sent_expire_kept|by apply (sent_expire _ _ _ None)].
  - destruct fs as [|[] fs]; intros [= <- <- <-]; by constructor.
Qed.

(** A command leaves the key of another node alone, given that [EXPIRE] and
    [DEL] are sent while the key is this node's. *)
Lemma sent_kept r p p' g r' :
  sent r p p' g r' →
  (writes p = true → ∃ v d, live now K r = Some (v, d) ∧ mine e v) → foreign_kept r r'.
Proof.
  intros [] Hw v d Hl Hm t; try done; simplify_eq;
    destruct (Hw eq_refl) as (v' & d' & Hl' & Hm'); rewrite Hl in Hl'; by simplify_eq.
Qed.
End command_facts.

(** ** Node identities *)

Fixpoint before_bar (s : string) : string :=
  match s with
  | EmptyString => EmptyString
  | String c s' => if bool_decide (c = "|"%char) then EmptyString else String c (before_bar s')
  end.

Definition no_bar (s : string) : Prop := before_bar s = s.

Lemma no_bar_cons c s : no_bar (String c s) → c ≠ "|"%char ∧ no_bar s.
Proof.
  unfold no_bar. simpl. case_bool_decide; [done|]. by intros [= ?].
Qed.

Lemma before_bar_app s t : no_bar s → before_bar (s +:+ String "|" t) = s.
Proof.
  induction s as [|c s IH]; intros Hs; [done|]. apply no_bar_cons in Hs as [Hc Hs].
  rewrite string_app_cons. simpl. rewrite bool_decide_false by done. f_equal. by apply IH.
Qed.

Lemma app_bar s t : (s +:+ "|") +:+ t = s +:+ String "|" t.
Proof. by rewrite <- (assoc String.append). Qed.

Lemma holds_key_before e h : no_bar (nodeID e) → holds_key e h = true → before_bar h = nodeID e.
Proof.
  intros Hb. unfold holds_key. rewrite orb_true_iff, bool_decide_eq_true.
  intros [->|(t & ->)%prefix_exists]; [done|]. rewrite app_bar. by apply before_bar_app.
Qed.

Lemma holds_key_value e : holds_key e (leader_value e) = true.
Proof.
  unfold holds_key, leader_value.
  destruct (bool_decide (httpAddr e = "")); [by rewrite bool_decide_true|].
  rewrite orb_true_iff. right. rewrite (assoc String.append). apply prefix_app.
Qed.

Lemma mine_unique e1 e2 v :
  no_bar (nodeID e1) → no_bar (nodeID e2) → mine e1 v → mine e2 v → nodeID e1 = nodeID e2.
Proof.
  intros H1 H2 (h1 & Hv1 & Hh1) (h2 & Hv2 & Hh2). rewrite Hv1 in Hv2. simplify_eq.
  rewrite <- (holds_key_before e1 h2), <- (holds_key_before e2 h2); done.
Qed.

Lemma cut_bar_value e :
  no_bar (nodeID e) → default (leader_value e, "") (cut_bar (leader_value e)) = (nodeID e, httpAddr e).
Proof.
  intros Hb. assert (Hi : ∀ s t, no_bar s →
    String.index 0 "|" (s +:+ String "|" t) = Some (String.length s) ∧
    String.index 0 "|" s = None).
  { clear. intros s t. induction s as [|c s IH]; intros Hb; [by destruct t|].
    apply no_bar_cons in Hb as [Hc Hb]. destruct (IH Hb) as [IH1 IH2].
    rewrite string_app_cons. cbn [String.index String.prefix String.length].
    destruct (Ascii.ascii_dec "|" c) as [<-|]; [done|]. by rewrite IH1, IH2. }
  assert (Hp : ∀ s t, String.substring 0 (String.length s) (s +:+ t) = s).
  { clear. intros s t. induction s as [|c s IH]; [by destruct t|]. rewrite string_app_cons. simpl. by f_equal. }
  assert (Hs : ∀ s t c, String.substring (S (String.length s)) (String.length t) (s +:+ String c t) = t).
  { clear -Hp. intros s t c. induction s as [|c' s IH]; [|exact IH].
    change (String.substring 0 (String.length t) t = t).
    pose proof (Hp t "") as Ht. by rewrite (right_id "" String.append) in Ht. }
  unfold leader_value, cut_bar. destruct (bool_decide_reflect (httpAddr e = "")) as [Ha|Ha].
  - rewrite (proj2 (Hi (nodeID e) "" Hb)). cbn. by rewrite Ha.
  - change ("|" +:+ httpAddr e) with (String "|" (httpAddr e)).
    rewrite (proj1 (Hi (nodeID e) (httpAddr e) Hb)). cbn -[String.substring Nat.sub].
    f_equal; [apply Hp|]. rewrite string_length_app. simpl String.length.
    replace (_ - _)%nat with (String.length (httpAddr e)) by lia. apply Hs.
Qed.

(** ** The deployment *)

Section deployment_facts.
Context `{RedisLaws R}.
Variables (nodes : list LeaderElection) (K : string) (T : Z).
Hypothesis same_key : ∀ e, e ∈ nodes → leaderKey e = K ∧ ttl e = T.
Hypothesis ttl_positive : 0 < T.
Hypothesis ids_plain : ∀ e, e ∈ nodes → no_bar (nodeID e).
Hypothesis ids_distinct : NoDup (nodeID <$> nodes).

Lemma ids_inj i j e1 e2 :
  nodes !! i = Some e1 → nodes !! j = Some e2 → nodeID e1 = nodeID e2 → i = j.
Proof.
  intros Hi Hj Heq. apply (NoDup_lookup (nodeID <$> nodes) i j (nodeID e1)); [done|..];
    rewrite list_lookup_fmap, ?Hi, ?Hj; simpl; congruence.
Qed.

(** The node's last grant still protects it. *)
Definition fresh (n : node) (now : Z) : Prop := leading n = true ∧ now < renewed n + T.

(** The key is bound to a value of [e] until [until] at least. *)
Definition holds_until (e : LeaderElection) (now until : Z) (r : R) : Prop :=
  ∃ v d, live now K r = Some (v, Some d) ∧ mine e v ∧ until ≤ d.

(** Between its [GET] and its [EXPIRE] or [DEL], the node holds the key. *)
Definition holds_seen (e : LeaderElection) (n : node) (now : Z) (r : R) : Prop :=
  writes (body n) = true → ∃ v, live now K r = Some (v, seen n) ∧ mine e v.

Record sys_inv (s : sys R) : Prop := {
  inv_length : length (states s) = length nodes;
  inv_legit : ∀ i e n, nodes !! i = Some e → states s !! i = Some n → legit e (body n);
  inv_renewed : ∀ i n, states s !! i = Some n → leading n = true → renewed n ≤ clock s;
  inv_seen : ∀ i e n, nodes !! i = Some e → states s !! i = Some n →
    holds_seen e n (clock s) (redis s);
  inv_lease : ∀ i e n, nodes !! i = Some e → states s !! i = Some n →
    fresh n (clock s) → holds_until e (clock s) (renewed n + T) (redis s);
}.

Lemma live_taken e now r :
  leaderKey e = K → ttl e = T →
  holds_until e now (now + T) (SET now (leaderKey e) (VStr (leader_value e)) (ttl e) r).
Proof.
  intros -> ->. exists (VStr (leader_value e)), (now + T).
  rewrite live_SET_eq. unfold deadline. rewrite (proj2 (Z.ltb_lt 0 T)) by done. simpl.
  rewrite (proj2 (Z.leb_gt _ _)) by lia. split_and!; [done| |lia].
  eexists. split; [done|apply holds_key_value].
Qed.

Lemma live_renewed e now r v d :
  leaderKey e = K → ttl e = T → live now (leaderKey e) r = Some (v, d) → mine e v →
  holds_until e now (now + T) (EXPIRE now (leaderKey e) (ttl e) r).
Proof.
  intros HK -> Hl Hm. rewrite HK in *. exists v, (now + T).
  rewrite live_EXPIRE_eq by done. rewrite Hl.
  rewrite (proj2 (Z.leb_gt _ _)) by lia. by split_and!.
Qed.

Lemma fresh_later n now now' : fresh n now' → now ≤ now' → fresh n now.
Proof. intros [Hl Hlt] Hle. split; [done|lia]. Qed.

(** A node other than the one that sent a command keeps what it holds. *)
Lemma kept_for_others e ej now r r' v d :
  leaderKey e = K → no_bar (nodeID e) → no_bar (nodeID ej) → nodeID e ≠ nodeID ej →
  foreign_kept e now r r' → live now K r = Some (v, d) → mine ej v →
  live now K r' = Some (v, d).
Proof.
  intros HK Hp Hpj Hne Hkept Hl Hm. rewrite <- HK in *. rewrite (Hkept v d Hl); [done|].
  intros Hme. apply Hne. by eapply mine_unique.
Qed.

(** The node that sent the command holds the key for as long as it may think
    so. *)
Lemma sent_lease e now r n p' g r' q :
  leaderKey e = K → ttl e = T → legit e (body n) → (leading n = true → renewed n ≤ now) →
  holds_seen e n now r → (fresh n now → holds_until e now (renewed n + T) r) →
  sent e now r (body n) p' g r' →
  let n' := mkNode (started n) p' (if g then now else renewed n) q in
  legit e p' ∧ (leading n' = true → renewed n' ≤ now) ∧
  (fresh n' now → holds_until e now (renewed n' + T) r').
Proof.
  intros HK HT Hlegit Hren Hseen Hlease Hsent. destruct n as [st b rn sn]. simpl in *.
  unfold holds_seen, fresh, leading in *. simpl in *.
  destruct Hsent as [l k g Hg|l k o Ho|l k o Hn Ho|l k o ->|l k o|l k o|l k o]; simpl in *.
  - destruct (Hlegit g) as (Hl & Hlead & _). split_and!; [done|auto|].
    intros [Hld Hlt]. apply Hlease. auto.
  - destruct (Hlegit o) as (Hl & _ & Hlead).
    assert (leads (k o) → isLeader l = true) as Hlead' by (intros [|]%Hlead; congruence).
    split_and!; [done|auto|]. intros [Hld Hlt]. apply Hlease. auto.
  - destruct (Hlegit o) as (Hl & _ & Hlead). destruct Ho as [->| ->]; simpl.
    + split_and!; [done|lia|]. intros _. by apply live_taken.
    + assert (leads (k None) → isLeader l = true) as Hlead' by (intros [|]%Hlead; congruence).
      split_and!; [done|auto|]. intros [Hld Hlt].
      destruct Hlease as (v & d & Hv & _); [auto|]. rewrite <- HK in Hv. congruence.
  - destruct (Hlegit None) as (Hl & _ & Hlead). split_and!; [done|auto|].
    intros [Hld Hlt]. apply Hlease. auto.
  - destruct (Hlegit o) as (Hl & _ & Hlead). destruct (Hseen eq_refl) as (v & Hv & Hm).
    rewrite <- HK in Hv. pose proof (live_renewed e now r v sn HK HT Hv Hm) as Hnew.
    destruct o as [[]|]; simpl; (split; [done|split; [by auto with lia|]]); [by intros _|].
    intros [Hld Hlt]. destruct Hnew as (v' & d' & ? & ? & ?). exists v', d'.
    split_and!; [done..|]. specialize (Hren (Hlead Hld)). lia.
  - destruct Hlegit as [_ Hk]. destruct (Hk o) as (Hl & _ & Hlead).
    split; [done|]. split; [by intros ?%Hlead|by intros [?%Hlead _]].
  - destruct Hlegit as [_ Hk]. destruct (Hk o) as (Hl & _ & Hlead).
    split; [done|]. split; [by intros ?%Hlead|by intros [?%Hlead _]].
Qed.

Lemma sent_seen e now r n p' g r' rn :
  leaderKey e = K → legit e (body n) → sent e now r (body n) p' g r' →
  holds_seen e (mkNode (started n) p' rn
                  match body n with
                  | Get _ _ => live now (leaderKey e) r ≫= snd
                  | _ => seen n
                  end) now r'.
Proof.
  intros HK Hlegit Hsent. unfold holds_seen. destruct n as [st b rn' sn]. simpl in *.
  destruct Hsent as [l k g Hg|l k o Ho|l k o Hn Ho|l k o ->|l k o|l k o|l k o]; simpl in *.
  { destruct (Hlegit g) as (_ & _ & Hw). intros (h & -> & Hh)%Hw.
    destruct Hg as [|Hg]; [done|]. symmetry in Hg. apply get_value_live in Hg as (v & d & Hv & Hg).
    rewrite Hv. simpl. rewrite HK in Hv. exists v. split; [done|]. by exists h. }
  all: try destruct Hlegit as [_ Hlegit].
  all: intros Hw; exfalso.
  all: match type of Hw with writes (_ ?o) = _ => destruct (Hlegit o) as (_ & Hw' & _) end.
  all: congruence.
Qed.

Lemma begin_inv a i s s' : begin nodes a i s = Some s' → sys_inv s → sys_inv s'.
Proof.
  unfold begin. destruct (nodes !! i) as [e|] eqn:Hi; [|done]. simpl.
  destruct (states s !! i) as [n|] eqn:Hn; [|done]. simpl.
  destruct (body n) as [l| | | |] eqn:Hb; try done. destruct (enabled a n); [|done].
  intros [= <-] [Hlen Hlegit Hren Hseen Hlease].
  destruct (quiet_handler e a l) as (Hq & Hw & Hlead).
  assert (leading n = isLeader l) as Hl by (unfold leading; by rewrite Hb).
  constructor; simpl.
  - by rewrite length_insert.
  - intros j ej m Hj [[-> [<- _]]|[_ Hm]]%list_lookup_insert_Some; [|by eauto].
    by simplify_eq.
  - intros j m [[-> [<- _]]|[_ Hm]]%list_lookup_insert_Some; [|by eauto].
    intros Hle%Hlead. apply (Hren _ _ Hn). by rewrite Hl.
  - intros j ej m Hj [[-> [<- _]]|[_ Hm]]%list_lookup_insert_Some; [|by eauto].
    unfold holds_seen. simpl. congruence.
  - intros j ej m Hj [[-> [<- _]]|[_ Hm]]%list_lookup_insert_Some; [|by eauto].
    simplify_eq. intros [Hle%Hlead Hlt]. apply (Hlease _ _ _ Hi Hn).
    split; [by rewrite Hl|done].
Qed.

Lemma command_inv i fs s s' : command nodes i fs s = Some s' → sys_inv s → sys_inv s'.
Proof.
  unfold command. destruct (nodes !! i) as [e|] eqn:Hi; [|done]. cbn [mbind option_bind].
  destruct (states s !! i) as [n|] eqn:Hn; [|done]. cbn [mbind option_bind].
  intros Hc [Hlen Hlegit Hren Hseen Hlease].
  destruct (run (send e (clock s) (body n)) (redis s) fs) as [[p' g] r'] eqn:Hrun.
  assert ((∀ l, body n ≠ Return l) ∧
    s' = mkSys (<[i := mkNode (started n) p' (if g then clock s else renewed n)
                         match body n with
                         | Get _ _ => live (clock s) (leaderKey e) (redis s) ≫= snd
                         | _ => seen n
                         end]> (states s)) r' (clock s)) as [Hne ->].
  { destruct (body n); try done; rewrite Hrun in Hc; by injection Hc as <-. }
  clear Hc. destruct (same_key e) as [HK HT]; [by eapply list_elem_of_lookup_2|].
  apply send_cases in Hrun; [|done].
  destruct (sent_lease e (clock s) (redis s) n p' g r'
              match body n with
              | Get _ _ => live (clock s) (leaderKey e) (redis s) ≫= snd
              | _ => seen n
              end) as (Hl' & Hr' & Hf'); [by eauto..|].
  assert (foreign_kept e (clock s) (redis s) r') as Hkept.
  { eapply sent_kept; [done|]. intros Hw.
    destruct (Hseen i e n Hi Hn Hw) as (v & Hv & Hm). rewrite HK. eauto. }
  assert (∀ j ej v d, nodes !! j = Some ej → i ≠ j → live (clock s) K (redis s) = Some (v, d) →
            mine ej v → live (clock s) K r' = Some (v, d)) as Hother.
  { intros j ej v d Hj Hij. apply (kept_for_others e ej); [done|..|done].
    - by eapply ids_plain, list_elem_of_lookup_2.
    - by eapply ids_plain, list_elem_of_lookup_2.
    - intros Heq. apply Hij. by eapply ids_inj. }
  constructor; simpl.
  - by rewrite length_insert.
  - intros j ej m Hj [[-> [<- _]]|[_ Hm]]%list_lookup_insert_Some; [|by eauto]. by simplify_eq.
  - intros j m [[-> [<- _]]|[_ Hm]]%list_lookup_insert_Some; [done|by eauto].
  - intros j ej m Hj [[-> [<- _]]|[Hne' Hm]]%list_lookup_insert_Some.
    + simplify_eq. by eapply sent_seen; eauto.
    + intros Hw. destruct (Hseen j ej m Hj Hm Hw) as (v & Hv & Hmine). eauto.
  - intros j ej m Hj [[-> [<- _]]|[Hne' Hm]]%list_lookup_insert_Some.
    + simplify_eq. done.
    + intros Hfr. destruct (Hlease j ej m Hj Hm Hfr) as (v & d & Hv & Hmine & Hd).
      exists v, d. split_and!; [by eapply Hother|done..].
Qed.

(** A binding is still there when its deadline has not come. *)
Lemma live_later now now' r v d :
  live now K r = Some (v, d) → (∀ t, d = Some t → now' < t) → live now' K r = Some (v, d).
Proof.
  unfold live. destruct (entry r K) as [[v' d']|]; [|done].
  destruct (expired now d'); [done|]. intros [= -> ->] Ht. unfold expired.
  destruct d as [t|]; [|done]. by rewrite (proj2 (Z.leb_gt _ _)) by auto.
Qed.

Lemma time_inv s d :
  0 ≤ d → prompt (mkSys (states s) (redis s) (clock s + d)) →
  sys_inv s → sys_inv (mkSys (states s) (redis s) (clock s + d)).
Proof.
  intros Hd Hprompt [Hlen Hlegit Hren Hseen Hlease]. constructor; simpl; [done|done|..].
  - intros i n Hn Hl. specialize (Hren i n Hn Hl). lia.
  - intros i e n Hi Hn Hw. destruct (Hseen i e n Hi Hn Hw) as (v & Hv & Hm).
    exists v. split; [|done]. eapply live_later; [done|]. intros t Ht.
    apply (Hprompt n t); [by eapply list_elem_of_lookup_2|done..].
  - intros i e n Hi Hn Hf. destruct (Hlease i e n Hi Hn) as (v & d' & Hv & Hm & Hle).
    { eapply fresh_later; [done|lia]. }
    exists v, d'. split_and!; [|done..]. eapply live_later; [done|].
    intros t [= <-]. destruct Hf. lia.
Qed.

Lemma deployment_inv_step s s' : sys_inv s → prompt_step nodes s s' → sys_inv s'.
Proof.
  intros Hinv [Hstep Hprompt].
  destruct Hstep; [by eapply begin_inv|by eapply command_inv|by apply time_inv].
Qed.

Lemma deployment_inv_init s : sys_init nodes s → sys_inv s.
Proof.
  intros [Hlen Hnew].
  assert (∀ i n, states s !! i = Some n → n = NewNode) as Hn
    by (intros; by eapply Hnew, list_elem_of_lookup_2).
  constructor; [done|..].
  - by intros i e n _ ->%Hn.
  - by intros i n ->%Hn.
  - by intros i e n _ ->%Hn.
  - intros i e n _ ->%Hn [Hl _]. done.
Qed.

Lemma sys_inv_reachable s : reachable (prompt_step nodes) (sys_init nodes) s → sys_inv s.
Proof. revert s. apply reachable_invariant; [apply deployment_inv_init|apply deployment_inv_step]. Qed.

(** C4: Leadership leases do not overlap.  However the nodes of a deployment
    start, tick and stop, however their Redis commands interleave and
    however these fail, at most one of the nodes that lead is within a [ttl]
    of the last time Redis granted it the key: two such nodes are the same
    node.  The schedules are those of [prompt_step]: whoever read the key
    sends the [EXPIRE] or [DEL] that follows before the lease it read runs
    out. *)
Theorem one_fresh_leader s i j ni nj :
  reachable (prompt_step nodes) (sys_init nodes) s →
  states s !! i = Some ni → states s !! j = Some nj →
  fresh ni (clock s) → fresh nj (clock s) → i = j.
Proof.
  intros Hs Hi Hj Hfi Hfj. apply sys_inv_reachable in Hs as [Hlen _ _ _ Hlease].
  destruct (lookup_lt_is_Some_2 nodes i) as [ei Hei].
  { rewrite <- Hlen. by eapply lookup_lt_Some. }
  destruct (lookup_lt_is_Some_2 nodes j) as [ej Hej].
  { rewrite <- Hlen. by eapply lookup_lt_Some. }
  destruct (Hlease i ei ni Hei Hi Hfi) as (v & d & Hv & Hm & _).
  destruct (Hlease j ej nj Hej Hj Hfj) as (v' & d' & Hv' & Hm' & _).
  rewrite Hv in Hv'. simplify_eq. eapply ids_inj; [done..|].
  eapply mine_unique; [eapply ids_plain, list_elem_of_lookup_2; eassumption..| |]; done.
Qed.
End deployment_facts.

(** ** Callbacks and failures, under every schedule *)

Section callbacks.
Context `{Redis R}.
Variable nodes : list LeaderElection.

Definition node_ends (n : node) : Prop :=
  ends local_ok (body n) ∧ (started n = false → body n = Return new_local).

Lemma send_ends P e now p r fs :
  ends P p → ends P (run (send e now p) r fs).1.1.
Proof.
  intros Hp. unfold run. destruct p as [l|l k|l k|l k|l k]; [done|..];
    cbn [send ends] in *; rewrite run_bind.
  - destruct (get_str now (leaderKey e) r fs) as [g [r' fs']]. apply Hp.
  - destruct (call _ r fs) as [o [r' fs']]. apply Hp.
  - destruct (call _ r fs) as [o [r' fs']]. apply Hp.
  - destruct (call _ r fs) as [o [r' fs']]. apply Hp.
Qed.

Lemma insert_inv (ns : list node) i n m : m ∈ <[i := n]> ns → m = n ∨ m ∈ ns.
Proof.
  intros [j Hj]%list_elem_of_lookup_1.
  apply list_lookup_insert_Some in Hj as [(_ & -> & _)|[_ Hj]]; [by left|right].
  by eapply list_elem_of_lookup_2.
Qed.

Lemma node_ends_step s s' :
  (∀ n, n ∈ states s → node_ends n) → sys_step nodes s s' → ∀ n, n ∈ states s' → node_ends n.
Proof.
  intros Hall Hstep. revert Hall.
  destruct Hstep as [a i s0 s1 Hb|i fs s0 s1 Hc|s0 d _]; intros Hall; [| |exact Hall].
  - unfold begin in Hb. destruct (nodes !! i) as [e|]; [|done]. simpl in Hb.
    destruct (states s0 !! i) as [n|] eqn:Hn; [|done]. simpl in Hb.
    pose proof (Hall n (list_elem_of_lookup_2 _ _ _ Hn)) as [He _].
    destruct (body n) as [l| | | |]; try done. destruct (enabled a n); [|done].
    injection Hb as <-. simpl. intros m [->|Hm]%insert_inv; [|by apply Hall].
    split; [|done]. by apply handler_ends.
  - unfold command in Hc. destruct (nodes !! i) as [e|]; [|done]. cbn [mbind option_bind] in Hc.
    destruct (states s0 !! i) as [n|] eqn:Hn; [|done]. cbn [mbind option_bind] in Hc.
    pose proof (Hall n (list_elem_of_lookup_2 _ _ _ Hn)) as [He Hst].
    pose proof (send_ends local_ok e (clock s0) (body n) (redis s0) fs He) as He'.
    destruct (run (send e (clock s0) (body n)) (redis s0) fs) as [[p' g] r'] eqn:Hrun.
    assert (∃ q rn, states s1 = <[i := mkNode (started n) p' rn q]> (states s0) ∧
              ∀ l, body n ≠ Return l) as (q & rn & -> & Hne).
    { destruct (body n); try done; rewrite Hrun in Hc; injection Hc as <-; eauto. }
    intros m [->|Hm]%insert_inv; [|by apply Hall].
    split; [done|]. simpl. by intros ?%Hst%Hne.
Qed.

(** Between handlers, the calls a node made to [onAcquire] and [onRelease]
    alternate, starting with [onAcquire], and the last of them tells whether
    the node leads; a leader never counts three consecutive failures. *)
Theorem callbacks_alternate s i n l :
  reachable (sys_step nodes) (sys_init nodes) s → states s !! i = Some n → body n = Return l →
  replay (calls l) = Some (isLeader l) ∧ 0 ≤ consecutiveFailures l < maxFailures.
Proof.
  intros Hs Hn Hb.
  assert (∀ n, n ∈ states s → node_ends n) as Hall.
  { clear Hn. revert s Hs.
    apply (reachable_invariant _ _ (λ s, ∀ n, n ∈ states s → node_ends n)).
    - intros s [_ Hnew] m ->%Hnew. by split.
    - intros s s' Hinv Hstep. by eapply node_ends_step. }
  destruct (Hall n (list_elem_of_lookup_2 _ _ _ Hn)) as [He _]. by rewrite Hb in He.
Qed.
End callbacks.

(** ** The leader key *)

Section leader_key.
Context `{RedisLaws R}.

Definition acquired (l : local) : local := callback_called OnAcquire (set_leader true l).
Definition released (l : local) : local := callback_called OnRelease (set_leader false l).

Lemma tryAcquire_free e now l k (r : R) :
  isLeader l = false → live now (leaderKey e) r = None →
  exec e now (tryAcquire l k) r [] =
    exec e now (k (acquired l)) (SET now (leaderKey e) (VStr (leader_value e)) (ttl e) r) [].
Proof.
  intros Hl Hn. unfold tryAcquire. cbn [exec]. rewrite run_bind. unfold call.
  rewrite SETNX_spec, Hn. simpl. by rewrite Hl.
Qed.

(** The address the elected node publishes is the address the other
    nodes read: from the election until the key expires, every node sees
    the winner's id and HTTP address, provided that node ids contain no
    bar. *)
Theorem leader_info_roundtrip (e reader : LeaderElection) (now later : Z) (l : local) (r : R) :
  no_bar (nodeID e) → leaderKey reader = leaderKey e →
  isLeader l = false → live now (leaderKey e) r = None → later < now + ttl e →
  let '(l', (r', _)) := exec e now (handler Starts e l) r [] in
  isLeader l' = true ∧
  GetLeaderInfo reader later r' [] = (Some (nodeID e, httpAddr e), (r', [])) ∧
  GetLeaderHTTPAddr reader later r' [] = (Some (httpAddr e), (r', [])).
Proof.
  intros Hb Hk Hl Hn Hlater. change (handler Starts e l) with (tryAcquire l Return).
  rewrite tryAcquire_free by done. simpl.
  assert (GET later (leaderKey reader)
            (SET now (leaderKey e) (VStr (leader_value e)) (ttl e) r) =
          Some (VStr (leader_value e))) as Hg.
  { rewrite GET_spec, Hk, live_SET_eq. unfold deadline.
    destruct (Z.ltb_spec 0 (ttl e)); simpl; [|done]. by rewrite (proj2 (Z.leb_gt _ _)). }
  pose proof (cut_bar_value e Hb) as Hc. split; [done|].
  unfold GetLeaderInfo, GetLeaderHTTPAddr, get_str. rewrite !run_bind. unfold call.
  rewrite Hg. simpl. split; [by rewrite Hc|].
  destruct (cut_bar (leader_value e)) as [[a b]|]; simpl in *; injection Hc as Hc1 Hc2; rewrite <- Hc2; reflexivity.
Qed.

(** Stepping down gives the key up only when the node publishes no HTTP
    address: with an address the key holds [nodeID|httpAddr], which is
    never equal to the node id [stepDown] compares it with, so the key of a
    node that stops stays until its TTL runs out and nobody can be elected
    before. *)
Theorem stop_keeps_published_key (e : LeaderElection) (now : Z) (l : local) (r : R) d :
  isLeader l = true →
  live now (leaderKey e) r = Some (VStr (leader_value e), d) →
  let '(l', (r', _)) := exec e now (Stop e l) r [] in
  l' = released l ∧
  ∀ t, live t (leaderKey e) r' =
       if bool_decide (httpAddr e = "") then None else live t (leaderKey e) r.
Proof.
  intros Hl Hlive. unfold Stop, stepDown. rewrite Hl. cbn [exec]. rewrite run_bind.
  unfold get_str. rewrite run_bind. unfold call. simpl. rewrite GET_spec, Hlive. simpl.
  assert (bool_decide (leader_value e = nodeID e) = bool_decide (httpAddr e = "")) as ->.
  { apply bool_decide_ext. unfold leader_value.
    destruct (bool_decide_reflect (httpAddr e = "")) as [|Hne]; [done|].
    split; [|done]. intros Heq. apply (f_equal String.length) in Heq.
    rewrite !string_length_app in Heq. simpl in Heq. lia. }
  case_bool_decide; simpl; split; try done.
  intros t. apply live_DEL_eq.
Qed.
End leader_key.

(** ** Witnesses: two nodes, one started and elected *)

Definition alice : LeaderElection := mkLeaderElection "leader" "alice" "10.0.0.1:80" 10.
Definition bob : LeaderElection := mkLeaderElection "leader" "bob" "" 10.
Definition carol : LeaderElection := mkLeaderElection "leader" "carol" "" 10.

(** A schedule: the steps of the nodes and the time that passes. *)
Inductive event : Type := Begins (a : action) (i : nat) | Sends (i : nat) | Waits (d : Z).

Definition play1 (nodes : list LeaderElection) (s : option (sys gmap_store)) (ev : event) :
    option (sys gmap_store) :=
  s ← s;
  match ev with
  | Begins a i => begin nodes a i s
  | Sends i => command nodes i [] s
  | Waits d => if 0 <=? d then Some (mkSys (states s) (redis s) (clock s + d)) else None
  end.

Definition boot (nodes : list LeaderElection) : sys gmap_store :=
  mkSys (const NewNode <$> nodes) ∅ 0.
Definition play (nodes : list LeaderElection) (evs : list event) : option (sys gmap_store) :=
  foldl (play1 nodes) (Some (boot nodes)) evs.

Definition all_prompt (s : sys gmap_store) : bool :=
  forallb (λ n, negb (writes (body n)) ||
                match seen n with Some t => clock s <? t | None => true end) (states s).

Lemma all_prompt_spec s : all_prompt s = true → prompt s.
Proof.
  unfold all_prompt. rewrite forallb_forall. intros Ha n t Hn Hw Ht.
  apply list_elem_of_In, Ha in Hn. rewrite Hw, Ht in Hn. simpl in Hn. by apply Z.ltb_lt.
Qed.

Lemma boot_init nodes : sys_init nodes (boot nodes).
Proof.
  split; [exact (length_fmap (const NewNode) nodes)|]. intros n (e & -> & _)%list_elem_of_fmap. done.
Qed.

Lemma play1_step nodes s s' ev : play1 nodes (Some s) ev = Some s' → sys_step nodes s s'.
Proof.
  destruct ev as [a i|i|d]; simpl; [by apply step_begin|by apply step_command|].
  destruct (Z.leb_spec 0 d); [|done]. intros [= <-]. by apply step_time.
Qed.

Lemma play_None nodes evs : foldl (play1 nodes) None evs = None.
Proof. by induction evs. Qed.

Lemma play_from nodes s evs s' :
  foldl (play1 nodes) (Some s) evs = Some s' → rtc (sys_step nodes) s s'.
Proof.
  revert s. induction evs as [|ev evs IH]; intros s; cbn [foldl]; [by intros [= ->]|].
  destruct (play1 nodes (Some s) ev) as [s1|] eqn:E; [|by rewrite play_None].
  intros Hp. eapply rtc_l; [by eapply play1_step|by apply IH].
Qed.

Lemma play_reachable nodes evs s :
  play nodes evs = Some s → reachable (sys_step nodes) (sys_init nodes) s.
Proof. intros Hp. exists (boot nodes). split; [apply boot_init|by eapply play_from]. Qed.

(** The schedule is prompt after each of its steps. *)
Fixpoint plays_promptly (nodes : list LeaderElection) (s : sys gmap_store) (evs : list event) : bool :=
  match evs with
  | [] => true
  | ev :: evs =>
      match play1 nodes (Some s) ev with
      | Some s' => all_prompt s' && plays_promptly nodes s' evs
      | None => false
      end
  end.

Lemma play_prompt_reachable nodes evs s :
  play nodes evs = Some s → plays_promptly nodes (boot nodes) evs = true →
  reachable (prompt_step nodes) (sys_init nodes) s.
Proof.
  intros Hp Hq. exists (boot nodes). split; [apply boot_init|].
  unfold play in Hp. revert Hp Hq. generalize (boot nodes). 
  induction evs as [|ev evs IH]; intros s0; cbn [foldl plays_promptly]; [by intros [= ->]|].
  destruct (play1 nodes (Some s0) ev) as [s1|] eqn:E; [|by rewrite play_None].
  intros Hp [Ha Hq]%andb_true_iff. eapply rtc_l; [|by apply IH].
  split; [by eapply play1_step|by apply all_prompt_spec].
Qed.

Definition state_of (o : option (sys gmap_store)) : sys gmap_store := default (boot []) o.

(** Alice is elected, bob is refused, and alice's tick renews the key. *)
Definition renewal : list event :=
  [Begins Starts 0; Sends 0; Begins Starts 1; Sends 1; Waits 5;
   Begins Ticks 0; Sends 0; Begins Ticks 1; Sends 1; Waits 2; Sends 0].
Definition after_renewal : sys gmap_store := state_of (play [alice; bob] renewal).

Lemma state_of_play nodes evs :
  bool_decide (is_Some (play nodes evs)) = true → play nodes evs = Some (state_of (play nodes evs)).
Proof. by destruct (play nodes evs). Qed.

Definition leads_freshly (i : nat) (s : sys gmap_store) : bool :=
  match states s !! i with
  | Some n => leading n && (clock s <? renewed n + 10)
  | None => false
  end.

Lemma leads_freshly_spec i s :
  leads_freshly i s = true → ∃ n, states s !! i = Some n ∧ fresh 10 n (clock s).
Proof.
  unfold leads_freshly. destruct (states s !! i) as [n|]; [|done].
  intros [? ?%Z.ltb_lt]%andb_true_iff. exists n. by repeat split.
Qed.

Lemma nodes_same_key e : e ∈ [alice; bob] → leaderKey e = "leader" ∧ ttl e = 10.
Proof. intros He. apply list_elem_of_In in He. by destruct He as [<-|[<-|[]]]. Qed.

Lemma nodes_plain e : e ∈ [alice; bob] → no_bar (nodeID e).
Proof. intros He. apply list_elem_of_In in He. by destruct He as [<-|[<-|[]]]. Qed.

Lemma after_renewal_reachable :
  reachable (prompt_step [alice; bob]) (sys_init [alice; bob]) after_renewal.
Proof.
  apply (play_prompt_reachable _ renewal); [apply state_of_play|]; by vm_compute.
Qed.

Lemma renewal_leaves_alice :
  match states after_renewal !! 0%nat with
  | Some n => leading n && (renewed n =? 7) && (clock after_renewal <? renewed n + 10)
  | None => false
  end = true.
Proof. by vm_compute. Qed.

Lemma alice_leads :
  ∃ n, states after_renewal !! 0%nat = Some n ∧ renewed n = 7 ∧ fresh 10 n (clock after_renewal).
Proof.
  pose proof renewal_leaves_alice as Ha. destruct (states after_renewal !! 0%nat) as [n|]; [|done].
  apply andb_true_iff in Ha as [[Hl Hr%Z.eqb_eq]%andb_true_iff Hc%Z.ltb_lt].
  exists n. by repeat split.
Qed.

Lemma alice_and_bob_distinct : NoDup (nodeID <$> [alice; bob]).
Proof. by apply (bool_decide_unpack _). Qed.

Example one_fresh_leader_witness :
  ∃ n, states after_renewal !! 0%nat = Some n ∧ renewed n = 7 ∧ fresh 10 n (clock after_renewal) ∧
       (∀ j nj, states after_renewal !! j = Some nj → fresh 10 nj (clock after_renewal) → 0%nat = j).
Proof.
  destruct alice_leads as (n & Hn & Hr & Hf). exists n. refine (conj Hn (conj Hr (conj Hf _))).
  intros j nj Hj Hfj.
  exact (one_fresh_leader [alice; bob] "leader" 10 nodes_same_key eq_refl nodes_plain
           alice_and_bob_distinct after_renewal 0 j n nj after_renewal_reachable Hn Hj Hf Hfj).
Defined.

(** Without [prompt] two nodes lead at once, each within a [ttl] of its last
    grant.  Alice's tick reads her own value; before her [EXPIRE] reaches
    Redis the lease runs out and bob is elected; the [EXPIRE] extends bob's
    key, is answered without an error, and alice goes on as a leader whose
    lease was renewed. *)
Definition late_renewal : list event :=
  [Begins Starts 0; Sends 0; Begins Starts 1; Sends 1; Waits 5;
   Begins Ticks 0; Sends 0; Waits 5; Begins Ticks 1; Sends 1; Sends 0].
Definition after_late_renewal : sys gmap_store := state_of (play [alice; bob] late_renewal).

Lemma after_late_renewal_0 : leads_freshly 0 after_late_renewal = true.
Proof. by vm_compute. Qed.

Lemma after_late_renewal_1 : leads_freshly 1 after_late_renewal = true.
Proof. by vm_compute. Qed.

Lemma late_renewal_two_leaders :
  ∃ s n0 n1, reachable (sys_step [alice; bob]) (sys_init [alice; bob]) s ∧
    states s !! 0%nat = Some n0 ∧ states s !! 1%nat = Some n1 ∧
    fresh 10 n0 (clock s) ∧ fresh 10 n1 (clock s).
Proof.
  destruct (leads_freshly_spec 0 after_late_renewal after_late_renewal_0) as (n0 & H0 & Hf0).
  destruct (leads_freshly_spec 1 after_late_renewal after_late_renewal_1) as (n1 & H1 & Hf1).
  exists after_late_renewal, n0, n1. refine (conj _ (conj H0 (conj H1 (conj Hf0 Hf1)))).
  apply (play_reachable _ late_renewal), state_of_play. by vm_compute.
Qed.

(** Without [prompt] a node that steps down can delete the key of another:
    bob stops and reads his own value, his lease runs out, carol is elected,
    bob's [DEL] removes her key and alice is elected beside her. *)
Definition late_delete : list event :=
  [Begins Starts 1; Sends 1; Begins Starts 0; Sends 0; Begins Starts 2; Sends 2;
   Begins Stops 1; Sends 1; Waits 10; Begins Ticks 2; Sends 2; Sends 1;
   Begins Ticks 0; Sends 0].
Definition after_late_delete : sys gmap_store := state_of (play [alice; bob; carol] late_delete).

Lemma after_late_delete_0 : leads_freshly 0 after_late_delete = true.
Proof. by vm_compute. Qed.

Lemma after_late_delete_2 : leads_freshly 2 after_late_delete = true.
Proof. by vm_compute. Qed.

Lemma late_delete_two_leaders :
  ∃ s n0 n2, reachable (sys_step [alice; bob; carol]) (sys_init [alice; bob; carol]) s ∧
    states s !! 0%nat = Some n0 ∧ states s !! 2%nat = Some n2 ∧
    fresh 10 n0 (clock s) ∧ fresh 10 n2 (clock s).
Proof.
  destruct (leads_freshly_spec 0 after_late_delete after_late_delete_0) as (n0 & H0 & Hf0).
  destruct (leads_freshly_spec 2 after_late_delete after_late_delete_2) as (n2 & H2 & Hf2).
  exists after_late_delete, n0, n2. refine (conj _ (conj H0 (conj H2 (conj Hf0 Hf2)))).
  apply (play_reachable _ late_delete), state_of_play. by vm_compute.
Qed.

Example callbacks_alternate_witness :
  replay (calls new_local) = Some (isLeader new_local) ∧
  0 ≤ consecutiveFailures new_local < maxFailures.
Proof.
  apply (callbacks_alternate [alice; bob] (boot [alice; bob]) 0 NewNode); [|reflexivity..].
  exists (boot [alice; bob]). split; [apply boot_init|apply rtc_refl].
Defined.

Example leader_info_roundtrip_witness :
  let '(l', (r', _)) := exec alice 0 (handler Starts alice new_local) (∅ : gmap_store) [] in
  isLeader l' = true ∧
  GetLeaderInfo bob 5 r' [] = (Some ("alice", "10.0.0.1:80"), (r', [])) ∧
  GetLeaderHTTPAddr bob 5 r' [] = (Some "10.0.0.1:80", (r', [])).
Proof.
  apply (leader_info_roundtrip alice bob 0 5 new_local (∅ : gmap_store)); reflexivity.
Defined.

Definition alice_key : gmap_store := {["leader" := (VStr "alice|10.0.0.1:80", Some 10)]}.

Example stop_keeps_published_key_witness :
  let '(l', (r', _)) := exec alice 5 (Stop alice (acquired new_local)) alice_key [] in
  l' = released (acquired new_local) ∧
  ∀ t, live t "leader" r' = live t "leader" alice_key.
Proof.
  exact (stop_keeps_published_key alice 5 (acquired new_local) alice_key (Some 10)
           eq_refl eq_refl).
Defined.
