(* ===== verification/Sql.v ===== *)
(** * SQL statements

    The scheduler keeps its data in rqlite and reaches it through
    [src/scheduler/pkg/database/logdb.go] (the interface [DB]).  The SQL text
    of a statement is in the repository; a statement is modelled by what it
    does to the tables, which are lists of rows in row-id order.  Sending it is
    a [call] of the prelude: it can fail, or be applied while its reply is
    lost.  The uniqueness constraints of [deploy/schema.sql] are part of the
    [INSERT]s; foreign keys are not enforced (SQLite ignores them unless the
    server is started with [-fk], which the deployment files do not do). *)
From Stdlib Require Import Ascii.
From stdpp Require Import sorting.
From S2P Require Import Prelude.

(** An [AUTOINCREMENT] table: its rows and the last id it gave out. *)
Record table (A : Type) : Type := mkTable { rows : list A; last_id : Z }.
Arguments mkTable {A} _ _.
Arguments rows {A} _.
Arguments last_id {A} _.

Definition set_rows {A} (f : list A → list A) (t : table A) : table A :=
  mkTable (f (rows t)) (last_id t).

(** [INSERT]: the new row gets the next id. *)
Definition insert_row {A} (mk : Z → A) (t : table A) : table A :=
  mkTable (rows t ++ [mk (last_id t + 1)]) (last_id t + 1).

Definition where_ {A} (p : A → bool) (l : list A) : list A := filter (λ x, p x = true) l.
Definition delete_where {A} (p : A → bool) : table A → table A := set_rows (where_ (λ x, negb (p x))).
Definition update_where {A} (p : A → bool) (f : A → A) : table A → table A :=
  set_rows (map (λ x, if p x then f x else x)).
Definition count {A} (p : A → bool) (l : list A) : Z := Z.of_nat (length (where_ p l)).

(** [ORDER BY]: [le] compares the sort keys. *)
Definition order_by {A} (le : A → A → bool) (l : list A) : list A :=
  @merge_sort _ (λ x y, le x y = true) (λ x y, decide (le x y = true)) l.

(** [x IN (...)] *)
Definition in_list {A} `{EqDecision A} (x : A) (l : list A) : bool := bool_decide (x ∈ l).

(** [LIKE]: [%] matches any text and [_] one character; ASCII letters match
    in either case. *)
Definition lower (c : ascii) : N :=
  let n := N_of_ascii c in if ((65 <=? n) && (n <=? 90))%N then (n + 32)%N else n.
Fixpoint like (pattern s : string) : bool :=
  match pattern with
  | EmptyString => bool_decide (s = "")
  | String p pattern =>
      if bool_decide (p = "%"%char) then
        (fix any (s : string) : bool :=
           like pattern s || match s with EmptyString => false | String _ s => any s end) s
      else
        match s with
        | EmptyString => false
        | String c s => (bool_decide (p = "_"%char) || (lower p =? lower c)%N) && like pattern s
        end
  end.

(** [LIMIT ? OFFSET ?], the offset computed as an [int]: a negative limit is
    no limit, a negative offset is 0. *)
Definition page_of {A} (page pageSize : Z) (l : list A) : list A :=
  let l := drop (Z.to_nat (int64 ((page - 1) * pageSize))) l in
  if pageSize <? 0 then l else take (Z.to_nat pageSize) l.

(** [SELECT]: [None] is an error of the call. *)
Definition query {D A} (f : D → A) : M D (option A) := call (λ d, (f d, d)).

(** A write whose statement cannot violate a constraint, and one that can:
    the driver returns an error for a statement that failed, so that the
    constraint error and the error of the call are the same to the code. *)
Definition exec {D} (f : D → D) : M D (option unit) := call (λ d, (tt, f d)).
Definition exec_checked {D} {A} (f : D → option (A * D)) : M D (option A) :=
  o ← call (λ d, match f d with Some (a, d') => (Some a, d') | None => (None, d) end);
  mret (o ≫= id).

(** ** Go's [if err != nil { return ..., err }] *)

Definition bind_ok {S E A B} (m : M S (result E A)) (k : A → M S (result E B)) : M S (result E B) :=
  r ← m; match r with Ok a => k a | Err e => mret (Err e) end.

(** Turning the [None] of a call into an error. *)
Definition or_err {S E A} (e : E) (m : M S (option A)) : M S (result E A) :=
  o ← m; mret match o with Some a => Ok a | None => Err e end.

Notation "x ←? m ; k" := (bind_ok m (λ x, k))
  (at level 20, m at level 100, k at level 200, right associativity, only parsing).
Notation "'_' ←? m ; k" := (bind_ok m (λ _, k))
  (at level 20, m at level 100, k at level 200, right associativity, only parsing).

(** ** Facts *)

Lemma elem_of_where {A} (p : A → bool) l x : x ∈ where_ p l ↔ x ∈ l ∧ p x = true.
Proof. unfold where_. rewrite list_elem_of_filter. tauto. Qed.

Lemma count_pos {A} (p : A → bool) l : (0 <? count p l) = existsb p l.
Proof.
  unfold count. destruct (existsb p l) eqn:E.
  - apply existsb_elem_of in E as (x & Hx & Hp). apply Z.ltb_lt.
    assert (x ∈ where_ p l) as Hin by by apply elem_of_where.
    destruct (where_ p l); [by apply not_elem_of_nil in Hin|simpl; lia].
  - apply Z.ltb_ge. rewrite existsb_false_iff in E.
    destruct (where_ p l) as [|x w] eqn:W; [done|]. exfalso.
    assert (x ∈ where_ p l) as [Hx Hp]%elem_of_where by (rewrite W; by left).
    specialize (E x Hx). congruence.
Qed.

Lemma where_none {A} (p : A → bool) l : (∀ x, x ∈ l → p x = false) → where_ p l = [].
Proof.
  intros Hp. destruct (where_ p l) as [|x w] eqn:W; [done|]. exfalso.
  assert (x ∈ where_ p l) as [Hx Hx']%elem_of_where by (rewrite W; by left).
  specialize (Hp x Hx). congruence.
Qed.

Lemma elem_of_order_by {A} (le : A → A → bool) l x : x ∈ order_by le l ↔ x ∈ l.
Proof. unfold order_by. by rewrite merge_sort_Permutation. Qed.

Lemma elem_of_page {A} page n (l : list A) x : x ∈ page_of page n l → x ∈ l.
Proof.
  unfold page_of. set (m := Z.to_nat _). intros Hx. rewrite <- (take_drop m l).
  apply elem_of_app. right. destruct (n <? 0); [done|]. exact (subseteq_take _ _ _ Hx).
Qed.
Lemma page_length {A} page n (l : list A) : 0 ≤ n → Z.of_nat (length (page_of page n l)) ≤ n.
Proof.
  intros Hn. unfold page_of. destruct (Z.ltb_spec n 0); [lia|]. rewrite length_take. lia.
Qed.

Lemma in_list_true {A} `{EqDecision A} (x : A) l : in_list x l = true ↔ x ∈ l.
Proof. apply bool_decide_eq_true. Qed.

(** ** Handlers that only read

    [answers m e spec]: [m] leaves the tables alone, returns what [spec] says
    of them or fails with [e], and returns what [spec] says when no call
    fails. *)
Section answers.
Context {D E : Type} (e : E).

Definition answers {A} (m : M D (result E A)) (spec : D → result E A) : Prop :=
  ∀ d fs, ∃ fs', (m d fs = (spec d, (d, fs')) ∨ m d fs = (Err e, (d, fs')) ∧ fs ≠ []) ∧
                 (fs = [] → fs' = []).

Lemma answers_query {A} (f : D → A) : answers (or_err e (query f)) (λ d, Ok (f d)).
Proof.
  intros d fs. unfold or_err, query. rewrite run_bind. unfold call.
  destruct fs as [|[] fs]; [exists []|exists fs..]; (split; [|done]).
  - by left.
  - by left.
  - by right.
  - by right.
Qed.

Lemma answers_ret {A} (r : result E A) : answers (mret r) (λ _, r).
Proof. intros d fs. exists fs. split; [by left|done]. Qed.

Lemma answers_bind {A B} (m : M D (result E A)) f (k : A → M D (result E B)) g :
  answers m f → (∀ a, answers (k a) (g a)) →
  answers (bind_ok m k) (λ d, match f d with Ok a => g a d | Err x => Err x end).
Proof.
  intros Hm Hk d fs. unfold bind_ok. rewrite run_bind.
  destruct (Hm d fs) as (fs1 & [->|[-> Hne]] & Hnil).
  - destruct (f d) as [a|x]; [|exists fs1; split; [by left|done]].
    destruct (Hk a d fs1) as (fs2 & [->|[-> Hne]] & Hnil').
    + exists fs2. split; [by left|tauto].
    + exists fs2. split; [right; split; [done|]|tauto]. intros ->. tauto.
  - exists fs1. split; [by right|done].
Qed.

Lemma answers_if {A} (b : bool) (m1 m2 : M D (result E A)) f1 f2 :
  answers m1 f1 → answers m2 f2 → answers (if b then m1 else m2) (λ d, if b then f1 d else f2 d).
Proof. by destruct b. Qed.

Lemma answers_option {A B} (o : option A) (m1 : M D (result E B)) (m2 : A → M D (result E B)) f1 f2 :
  answers m1 f1 → (∀ a, answers (m2 a) (f2 a)) →
  answers (match o with None => m1 | Some a => m2 a end) (λ d, match o with None => f1 d | Some a => f2 a d end).
Proof. by destruct o. Qed.

Lemma answers_ext {A} (m : M D (result E A)) f g :
  answers m f → (∀ d, f d = g d) → answers m g.
Proof. intros Hm Hfg d fs. rewrite <- Hfg. apply Hm. Qed.

(** The run without faults. *)
Lemma answers_run {A} (m : M D (result E A)) f d : answers m f → m d [] = (f d, (d, [])).
Proof.
  intros Hm. destruct (Hm d []) as (fs' & [->|[_ ?]] & Hnil); [|done]. by rewrite Hnil.
Qed.

(** Any run: the tables are untouched and an answer is the right one. *)
Lemma answers_sound {A} (m : M D (result E A)) f d fs :
  answers m f → (run m d fs).2 = d ∧ ((run m d fs).1 = f d ∨ (run m d fs).1 = Err e).
Proof.
  intros Hm. unfold run. destruct (Hm d fs) as (fs' & [->|[-> _]] & _); simpl; auto.
Qed.
End answers.

Create HintDb sql.
#[export] Hint Resolve answers_query answers_ret : sql.

(** ** Fault-free runs

    [clean m]: a run of [m] that starts without faults ahead ends without.
    All handlers are; their fault-free runs compose. *)
Definition clean {S A} (m : M S A) : Prop := ∀ s, (m s []).2.2 = [].

Section clean.
Context {S : Type}.

Lemma clean_ret {A} (a : A) : clean (mret a : M S A).
Proof. done. Qed.
Lemma clean_gets {A} (f : S → A) : clean (gets f).
Proof. done. Qed.
Lemma clean_modify (f : S → S) : clean (modify f).
Proof. done. Qed.
Lemma clean_call {A} (op : S → A * S) : clean (call op).
Proof. intros s. unfold call. by destruct (op s). Qed.
Lemma clean_bind {A B} (m : M S A) (k : A → M S B) : clean m → (∀ a, clean (k a)) → clean (m ≫= k).
Proof.
  intros Hm Hk s. rewrite run_bind. specialize (Hm s). destruct (m s []) as [a [s' fs]].
  simpl in Hm. subst. apply Hk.
Qed.
Lemma clean_bind_ok {E A B} (m : M S (result E A)) (k : A → M S (result E B)) :
  clean m → (∀ a, clean (k a)) → clean (bind_ok m k).
Proof. intros Hm Hk. apply clean_bind; [done|]. intros []; [apply Hk|apply clean_ret]. Qed.
Lemma clean_for_each {A} (xs : list A) (body : A → M S unit) :
  (∀ x, clean (body x)) → clean (for_each xs body).
Proof. intros Hb. induction xs; simpl; [apply clean_ret|]. by apply clean_bind. Qed.

Lemma run_clean {A} (m : M S A) s : clean m → m s [] = ((run m s []).1, ((run m s []).2, [])).
Proof. intros Hm. specialize (Hm s). unfold run. destruct (m s []) as [a [s' fs]]. by simpl in *; subst. Qed.

(** The run of a sequence. *)
Lemma run_then {A B} (m : M S A) (k : A → M S B) s :
  clean m → run (m ≫= k) s [] = run (k (run m s []).1) (run m s []).2 [].
Proof. intros Hm. unfold run at 1. rewrite run_bind, (run_clean m s Hm). done. Qed.
Lemma run_then_ok {E A B} (m : M S (result E A)) (k : A → M S (result E B)) s :
  clean m → run (bind_ok m k) s [] =
    match (run m s []).1 with
    | Ok a => run (k a) (run m s []).2 []
    | Err e => (Err e, (run m s []).2)
    end.
Proof. intros Hm. unfold bind_ok. rewrite run_then by done. by destruct (run m s []).1. Qed.
End clean.

Create HintDb clean.
#[export] Hint Resolve clean_ret clean_gets clean_modify clean_call clean_for_each : clean.

(** Proves [clean] from the shape of a handler. *)
Ltac clean_step :=
  match goal with
  | |- clean (_ ≫= _) => apply clean_bind; [|intros ?]
  | |- clean (bind_ok _ _) => apply clean_bind_ok; [|intros ?]
  | |- clean (for_each _ _) => apply clean_for_each; intros ?
  | |- clean (let '(_, _) := ?x in _) => destruct x
  | |- clean (match ?x with _ => _ end) => destruct x
  end.
Ltac solve_clean := repeat first [ solve [eauto with clean nocore] | clean_step ].

(** ** Handlers that only read

    [yields s m R]: run from [s], whatever fails, [m] leaves [s] as it is and
    answers something of which [R] holds. *)
Definition yields {S A} (s : S) (m : M S A) (R : A → Prop) : Prop := ∀ fs, (m s fs).2.1 = s ∧ R (m s fs).1.

Lemma yields_ret {S A} (s : S) (a : A) (R : A → Prop) : R a → yields s (mret a) R.
Proof. done. Qed.
Lemma yields_bind {S A B} (s : S) (m : M S A) (k : A → M S B) (R : A → Prop) (Q : B → Prop) :
  yields s m R → (∀ a, R a → yields s (k a) Q) → yields s (m ≫= k) Q.
Proof.
  intros Hm Hk fs. rewrite run_bind. destruct (Hm fs) as [Hs HR]. destruct (m s fs) as [a [s' fs']]. simpl in *. subst s'.
  by apply Hk.
Qed.
Lemma yields_weaken {S A} (s : S) (m : M S A) (R Q : A → Prop) : yields s m R → (∀ a, R a → Q a) → yields s m Q.
Proof. intros Hm HQ fs. destruct (Hm fs). auto. Qed.
Lemma yields_zoom {S T A} (get : S → T) (put : T → S → S) (s : S) (m : M T A) R :
  put (get s) s = s → yields (get s) m R → yields s (zoom get put m) R.
Proof.
  intros Hput Hm fs. unfold zoom. destruct (Hm fs) as [Hs HR]. destruct (m (get s) fs) as [a [t fs']]. simpl in *. by subst t.
Qed.
Lemma yields_answers {D E A} (e : E) (m : M D (result E A)) f d : answers e m f → yields d m (λ r, ∀ a, r = Ok a → f d = Ok a).
Proof.
  intros Hm fs. destruct (Hm d fs) as (fs' & [->|[-> _]] & _); (split; [done|]); [by intros a <-|done].
Qed.
