(* ===== verification/Permission.v ===== *)
(** * Role-based permissions

    [src/scheduler/internal/service/permission_service.go] and
    [role_admin.go] with the row types of [src/scheduler/internal/model]:
    which roles a user has in a domain, what they allow, how role inheritance
    expands, and the administration of roles. *)
From S2P Require Import Prelude Sql.

(** ** Tables *)

Record Role : Type := mkRole {
  role_ID : Z; role_Name : string; role_Code : string; role_Description : string;
  IsSystem : bool; ParentID : option Z; role_DomainID : option Z;
}.

Record Permission : Type := mkPermission {
  perm_ID : Z; Resource : string; Action : string; perm_Description : string;
}.

Definition GetCode (p : Permission) : string := Resource p +:+ ":" +:+ Action p.

Record UserRole : Type := mkUserRole { ur_user : Z; ur_role : Z; ur_domain : option Z }.
Record RolePermission : Type := mkRolePermission { rp_role : Z; rp_permission : Z }.
Record Domain : Type := mkDomain { dom_ID : Z; dom_Name : string; dom_Description : string }.
Record UserDomain : Type := mkUserDomain { ud_user : Z; ud_domain : Z; ud_is_default : bool }.

Record db : Type := mkDb {
  roles : table Role;
  permissions : table Permission;
  user_roles : table UserRole;
  role_permissions : table RolePermission;
  domains : table Domain;
  user_domains : table UserDomain;
}.

#[export] Instance Permission_eq_dec : EqDecision Permission.
Proof. solve_decision. Defined.
#[export] Instance Domain_eq_dec : EqDecision Domain.
Proof. solve_decision. Defined.
#[export] Instance Role_eq_dec : EqDecision Role.
Proof. solve_decision. Defined.

Inductive error : Type :=
| ErrDB
| ErrDomainAccessDenied
| ErrRoleNotFound
| ErrRoleCodeNotFound
| ErrSystemRoleCannotModify
| ErrSystemRoleCannotDelete
| ErrCannotDeleteRoleWithChildren.

#[export] Instance error_eq_dec : EqDecision error.
Proof. solve_decision. Defined.

Definition set_roles (f : table Role → table Role) (d : db) : db :=
  mkDb (f (roles d)) (permissions d) (user_roles d) (role_permissions d) (domains d) (user_domains d).
Definition set_user_roles (f : table UserRole → table UserRole) (d : db) : db :=
  mkDb (roles d) (permissions d) (f (user_roles d)) (role_permissions d) (domains d) (user_domains d).
Definition set_role_permissions (f : table RolePermission → table RolePermission) (d : db) : db :=
  mkDb (roles d) (permissions d) (user_roles d) (f (role_permissions d)) (domains d) (user_domains d).

(** [SELECT] and its scan loop; an error of the call is returned. *)
Definition select {A} (f : db → A) : M db (result error A) := or_err ErrDB (query f).

(** The parent and the domain of a scanned role are set when positive. *)
Definition positive (o : option Z) : option Z :=
  match o with Some n => if 0 <? n then Some n else None | None => None end.
Definition scan_role (r : Role) : Role :=
  mkRole (role_ID r) (role_Name r) (role_Code r) (role_Description r) (IsSystem r)
    (positive (ParentID r)) (positive (role_DomainID r)).

(** ** Queries on users *)

(** [WHERE ur.user_id = ?], the roles of a user in any domain. *)
Definition role_ids_of (userID : Z) (d : db) : list Z :=
  ur_role <$> where_ (λ ur, ur_user ur =? userID) (rows (user_roles d)).

Definition IsSystemAdmin (userID : Z) : M db (result error bool) :=
  count ←? select (λ d, count (λ r, bool_decide (role_Code r = "system_admin") &&
                                    in_list (role_ID r) (role_ids_of userID d)) (rows (roles d)));
  mret (Ok (0 <? count)).

Definition GetUserRoles (userID : Z) : M db (result error (list Role)) :=
  select (λ d, scan_role <$>
    remove_dups (where_ (λ r, in_list (role_ID r) (role_ids_of userID d)) (rows (roles d)))).

Definition GetUserRoleCodes (userID : Z) : M db (result error (list string)) :=
  select (λ d, remove_dups (role_Code <$>
    where_ (λ r, in_list (role_ID r) (role_ids_of userID d)) (rows (roles d)))).

Definition getDirectRoleIDs (userID : Z) : M db (result error (list Z)) :=
  select (role_ids_of userID).

Definition collectRoleIDs (userID domainID : Z) : M db (result error (list Z)) :=
  globals ←? select (λ d, ur_role <$>
    where_ (λ ur, (ur_user ur =? userID) && bool_decide (ur_domain ur = None)) (rows (user_roles d)));
  if 0 <? domainID then
    locals ←? select (λ d, ur_role <$>
      where_ (λ ur, (ur_user ur =? userID) && bool_decide (ur_domain ur = Some domainID))
        (rows (user_roles d)));
    mret (Ok (globals ++ locals))
  else mret (Ok globals).

(** [bdopsflow_user_roles ur JOIN bdopsflow_roles r ON ur.role_id = r.id] *)
Definition join_roles (d : db) : list (UserRole * Role) :=
  ur ← rows (user_roles d); r ← where_ (λ r, ur_role ur =? role_ID r) (rows (roles d)); [(ur, r)].

Definition IsDomainAdmin (userID domainID : Z) : M db (result error bool) :=
  n ←? select (λ d, count (λ '(ur, r),
         (ur_user ur =? userID) && bool_decide (role_Code r = "domain_admin") &&
         (bool_decide (ur_domain ur = Some domainID) || bool_decide (ur_domain ur = None)))
       (join_roles d));
  mret (Ok (0 <? n)).

(** ** Queries on roles *)

(** [bdopsflow_role_permissions rp JOIN bdopsflow_permissions p], for one role. *)
Definition perms_of_role (roleID : Z) (d : db) : list Permission :=
  rp ← where_ (λ rp, rp_role rp =? roleID) (rows (role_permissions d));
  where_ (λ p, rp_permission rp =? perm_ID p) (rows (permissions d)).

(** [ORDER BY p.resource, p.action] *)
Definition perm_le (p q : Permission) : bool :=
  if bool_decide (Resource p = Resource q) then String.leb (Action p) (Action q)
  else String.leb (Resource p) (Resource q).

Definition checkRolePermission (roleID : Z) (resource action : string) : M db (result error bool) :=
  n ←? select (λ d, count (λ p,
         (bool_decide (Resource p = resource) && bool_decide (Action p = action)) ||
         (bool_decide (Resource p = resource) && bool_decide (Action p = "manage")))
       (perms_of_role roleID d));
  mret (Ok (0 <? n)).

(** The body of the loop of [HasAnyPermission]. *)
Definition checkRoleResource (roleID : Z) (resource : string) : M db (result error bool) :=
  n ←? select (λ d, count (λ p, bool_decide (Resource p = resource)) (perms_of_role roleID d));
  mret (Ok (0 <? n)).

Definition GetRolePermissions (roleID : Z) : M db (result error (list Permission)) :=
  select (λ d, order_by perm_le (perms_of_role roleID d)).

Definition GetAllPermissions : M db (result error (list Permission)) :=
  select (λ d, order_by perm_le (rows (permissions d))).

Definition GetRoleByID (roleID : Z) : M db (result error (option Role)) :=
  select (λ d, scan_role <$> head (where_ (λ r, role_ID r =? roleID) (rows (roles d)))).

Definition GetRoleByCode (code : string) : M db (result error (option Role)) :=
  select (λ d, scan_role <$> head (where_ (λ r, bool_decide (role_Code r = code)) (rows (roles d)))).

Definition GetRoleCodeByID (roleID : Z) : M db (result error string) :=
  o ←? select (λ d, head (where_ (λ r, role_ID r =? roleID) (rows (roles d))));
  mret match o with Some r => Ok (role_Code r) | None => Err ErrRoleCodeNotFound end.

(** [ORDER BY is_system DESC, id ASC] *)
Definition role_le (r r' : Role) : bool :=
  if Bool.eqb (IsSystem r) (IsSystem r') then role_ID r <=? role_ID r' else IsSystem r.

Definition GetAllRoles : M db (result error (list Role)) :=
  select (λ d, scan_role <$> order_by role_le (rows (roles d))).

Definition GetRolesByDomain (domainID : Z) : M db (result error (list Role)) :=
  select (λ d, scan_role <$>
    order_by (λ r r', role_ID r <=? role_ID r')
      (where_ (λ r, bool_decide (role_DomainID r = Some domainID)) (rows (roles d)))).

(** ** Role inheritance *)

(** The parents a query that fails returns are none. *)
Definition parent_ids (roleID : Z) (d : db) : list Z :=
  r ← where_ (λ r, role_ID r =? roleID) (rows (roles d));
  match ParentID r with
  | Some p => if 0 <? p then [p] else []
  | None => []
  end.

Definition getParentRoleIDs (roleID : Z) : M db (list Z) :=
  o ← query (parent_ids roleID); mret (default [] o).

(** The closure [walk]: [allRoleIDs] is the accumulated result, and the set
    [visited] is the set of its elements.  [None] when the fuel, the depth of
    the recursion, runs out. *)
Fixpoint walk (fuel : nat) : list Z → list Z → M db (option (list Z)) :=
  fix loop (roleIDs allRoleIDs : list Z) : M db (option (list Z)) :=
    match roleIDs with
    | [] => mret (Some allRoleIDs)
    | id :: rest =>
        if in_list id allRoleIDs then loop rest allRoleIDs
        else
          let allRoleIDs := allRoleIDs ++ [id] in
          parentIDs ← getParentRoleIDs id;
          o ← match parentIDs with
              | [] => mret (Some allRoleIDs)
              | _ => match fuel with
                     | O => mret None
                     | S fuel => walk fuel parentIDs allRoleIDs
                     end
              end;
          match o with
          | Some allRoleIDs => loop rest allRoleIDs
          | None => mret None
          end
    end.

(** The number of roles is enough fuel: [walk_spec]. *)
Definition expandRoleInheritance (directRoleIDs : list Z) : M db (option (list Z)) :=
  n ← gets (λ d, length (rows (roles d)));
  walk n directRoleIDs [].

(** ** Permission checks *)

(** [for _, roleID := range roleIDs { ok, err := check(roleID); ... }] *)
Fixpoint any_role (check : Z → M db (result error bool)) (roleIDs : list Z) : M db (result error bool) :=
  match roleIDs with
  | [] => mret (Ok false)
  | roleID :: rest => b ←? check roleID; if (b : bool) then mret (Ok true) else any_role check rest
  end.

Definition HasPermission (userID : Z) (resource action : string) (domainID : Z) :
    M db (result error bool) :=
  isAdmin ←? IsSystemAdmin userID;
  if (isAdmin : bool) then mret (Ok true)
  else
    roleIDs ←? collectRoleIDs userID domainID;
    any_role (λ roleID, checkRolePermission roleID resource action) roleIDs.

Definition HasAnyPermission (userID : Z) (resource : string) (domainID : Z) :
    M db (result error bool) :=
  isAdmin ←? IsSystemAdmin userID;
  if (isAdmin : bool) then mret (Ok true)
  else
    roleIDs ←? collectRoleIDs userID domainID;
    allRoleIDs ← expandRoleInheritance roleIDs;
    any_role (λ roleID, checkRoleResource roleID resource) (default [] allRoleIDs).

(** The dedup by code of [getPermissionsByRoleIDs]; a role whose query fails
    is skipped. *)
Fixpoint add_unseen (perms acc : list Permission) : list Permission :=
  match perms with
  | [] => acc
  | p :: perms =>
      add_unseen perms (if in_list (GetCode p) (GetCode <$> acc) then acc else acc ++ [p])
  end.

Fixpoint permissions_loop (roleIDs : list Z) (acc : list Permission) : M db (list Permission) :=
  match roleIDs with
  | [] => mret acc
  | roleID :: rest =>
      perms ← GetRolePermissions roleID;
      permissions_loop rest match perms with Ok ps => add_unseen ps acc | Err _ => acc end
  end.

Definition getPermissionsByRoleIDs (roleIDs : list Z) : M db (result error (list Permission)) :=
  ps ← permissions_loop roleIDs []; mret (Ok ps).

Definition GetUserPermissions (userID : Z) : M db (result error (list Permission)) :=
  roleIDs ←? getDirectRoleIDs userID;
  allRoleIDs ← expandRoleInheritance roleIDs;
  getPermissionsByRoleIDs (default [] allRoleIDs).

Definition SwitchDomain (userID domainID : Z) : M db (result error (list Permission)) :=
  n ←? select (λ d, count (λ ud, (ud_user ud =? userID) && (ud_domain ud =? domainID))
                      (rows (user_domains d)));
  allowed ←? (if n =? 0 then IsSystemAdmin userID else mret (Ok true));
  if (allowed : bool) then
    roleIDs ←? collectRoleIDs userID domainID;
    allRoleIDs ← expandRoleInheritance roleIDs;
    getPermissionsByRoleIDs (default [] allRoleIDs)
  else mret (Err ErrDomainAccessDenied).

(** ** Domains of a user *)

Definition join_domains (userID : Z) (d : db) : list (UserDomain * Domain) :=
  ud ← where_ (λ ud, ud_user ud =? userID) (rows (user_domains d));
  dom ← where_ (λ dom, ud_domain ud =? dom_ID dom) (rows (domains d));
  [(ud, dom)].

Definition GetUserDomains (userID : Z) : M db (result error (list Domain)) :=
  isAdmin ←? IsSystemAdmin userID;
  if (isAdmin : bool) then select (λ d, rows (domains d))
  else select (λ d, remove_dups (snd <$> join_domains userID d)).

(** [model.UserDomainInfo] *)
Record UserDomainInfo : Type := mkInfo { DomainID : Z; DomainName : string; IsDefault : bool }.

Definition GetUserDomainInfos (userID : Z) : M db (result error (list UserDomainInfo)) :=
  select (λ d, (λ '(ud, dom), mkInfo (ud_domain ud) (dom_Name dom) (ud_is_default ud))
                 <$> join_domains userID d).

Definition GetUserDomainIDs (userID : Z) : M db (result error (list Z)) :=
  select (λ d, ud_domain <$> where_ (λ ud, ud_user ud =? userID) (rows (user_domains d))).

(** [LIMIT 1] takes the first row in row-id order. *)
Definition GetUserDefaultDomain (userID : Z) : M db (result error Z) :=
  o ←? select (λ d, ud_domain <$>
         head (where_ (λ ud, (ud_user ud =? userID) && ud_is_default ud) (rows (user_domains d))));
  match o with
  | Some domainID => mret (Ok domainID)
  | None =>
      o' ←? select (λ d, ud_domain <$>
              head (where_ (λ ud, ud_user ud =? userID) (rows (user_domains d))));
      mret (Ok (default 0 o'))
  end.

(** ** Administration of roles *)

(** The batch of [INSERT]s of [AssignPermissionsToRole], one transaction;
    [UNIQUE(role_id, permission_id)]. *)
Fixpoint insert_role_permissions (roleID : Z) (permissionIDs : list Z) (t : table RolePermission) :
    option (table RolePermission) :=
  match permissionIDs with
  | [] => Some t
  | permID :: rest =>
      if existsb (λ rp, (rp_role rp =? roleID) && (rp_permission rp =? permID)) (rows t) then None
      else insert_role_permissions roleID rest (insert_row (λ _, mkRolePermission roleID permID) t)
  end.

Definition AssignPermissionsToRole (roleID : Z) (permissionIDs : list Z) : M db (result error unit) :=
  _ ←? or_err ErrDB (exec (set_role_permissions (delete_where (λ rp, rp_role rp =? roleID))));
  match permissionIDs with
  | [] => mret (Ok tt)
  | _ =>
      or_err ErrDB (exec_checked (λ d,
        t ← insert_role_permissions roleID permissionIDs (role_permissions d);
        Some (tt, set_role_permissions (λ _, t) d)))
  end.

(** [UNIQUE(code)]; the new role is no system role. *)
Definition CreateRole (name code description : string) (parentID domainID : option Z) :
    M db (result error (option Role)) :=
  roleID ←? or_err ErrDB (exec_checked (λ d,
    if existsb (λ r, bool_decide (role_Code r = code)) (rows (roles d)) then None
    else let d' := set_roles (insert_row (λ id, mkRole id name code description false parentID domainID)) d in
         Some (last_id (roles d'), d')));
  GetRoleByID roleID.

Definition UpdateRole (roleID : Z) (name description : string) : M db (result error (option Role)) :=
  role ←? GetRoleByID roleID;
  match role with
  | None => mret (Ok None)
  | Some role =>
      if IsSystem role then mret (Err ErrSystemRoleCannotModify)
      else
        _ ←? or_err ErrDB (exec (set_roles (update_where
               (λ r, (role_ID r =? roleID) && negb (IsSystem r))
               (λ r, mkRole (role_ID r) name (role_Code r) description (IsSystem r)
                       (ParentID r) (role_DomainID r)))));
        GetRoleByID roleID
  end.

Definition DeleteRole (roleID : Z) : M db (result error unit) :=
  role ←? GetRoleByID roleID;
  match role with
  | None => mret (Err ErrRoleNotFound)
  | Some role =>
      if IsSystem role then mret (Err ErrSystemRoleCannotDelete)
      else
        children ←? select (λ d, count (λ r, bool_decide (ParentID r = Some roleID)) (rows (roles d)));
        if 0 <? children then mret (Err ErrCannotDeleteRoleWithChildren)
        else
          _ ←? or_err ErrDB (exec (set_role_permissions (delete_where (λ rp, rp_role rp =? roleID))));
          _ ←? or_err ErrDB (exec (set_user_roles (delete_where (λ ur, ur_role ur =? roleID))));
          or_err ErrDB (exec (set_roles (delete_where
            (λ r, (role_ID r =? roleID) && negb (IsSystem r)))))
  end.

Definition ListRoles (domainID : Z) (isSystemAdmin : bool) : M db (result error (list Role)) :=
  if isSystemAdmin then GetAllRoles else GetRolesByDomain domainID.

Definition GetRole (roleID : Z) : M db (result error (option Role)) := GetRoleByID roleID.

(** [RoleAdminService.AssignPermissionsToRole] *)
Definition admin_AssignPermissionsToRole (roleID : Z) (permissionIDs : list Z) :
    M db (result error unit) :=
  role ←? GetRoleByID roleID;
  match role with
  | None => mret (Err ErrRoleNotFound)
  | Some role =>
      if IsSystem role then mret (Err ErrSystemRoleCannotModify)
      else AssignPermissionsToRole roleID permissionIDs
  end.

(** ** What the checks mean *)

(** The role a user carries in a domain: assigned globally or in it. *)
Definition carries (d : db) (userID domainID roleID : Z) : Prop :=
  ∃ ur, ur ∈ rows (user_roles d) ∧ ur_user ur = userID ∧ ur_role ur = roleID ∧
        (ur_domain ur = None ∨ 0 < domainID ∧ ur_domain ur = Some domainID).

Definition is_admin (d : db) (userID : Z) : Prop :=
  ∃ r ur, r ∈ rows (roles d) ∧ role_Code r = "system_admin" ∧
          ur ∈ rows (user_roles d) ∧ ur_user ur = userID ∧ ur_role ur = role_ID r.

Definition role_has (d : db) (roleID : Z) (p : Permission) : Prop :=
  p ∈ rows (permissions d) ∧
  ∃ rp, rp ∈ rows (role_permissions d) ∧ rp_role rp = roleID ∧ rp_permission rp = perm_ID p.

(** [resource:action] or [resource:manage]. *)
Definition matches (p : Permission) (resource action : string) : Prop :=
  Resource p = resource ∧ (Action p = action ∨ Action p = "manage").

(** The parent of a role, and the roles inherited from a list of roles. *)
Definition parent (d : db) (child p : Z) : Prop :=
  0 < p ∧ ∃ r, r ∈ rows (roles d) ∧ role_ID r = child ∧ ParentID r = Some p.

Definition inherited (d : db) (roleIDs : list Z) (r : Z) : Prop :=
  ∃ r0, r0 ∈ roleIDs ∧ rtc (parent d) r0 r.

(** ** Facts on the queries *)

Section queries.
Implicit Types d : db.

Lemma elem_of_role_ids_of d userID roleID :
  roleID ∈ role_ids_of userID d ↔
  ∃ ur, ur ∈ rows (user_roles d) ∧ ur_user ur = userID ∧ ur_role ur = roleID.
Proof.
  unfold role_ids_of. rewrite list_elem_of_fmap. setoid_rewrite elem_of_where.
  setoid_rewrite Z.eqb_eq. naive_solver.
Qed.

Lemma elem_of_perms_of_role d roleID p : p ∈ perms_of_role roleID d ↔ role_has d roleID p.
Proof.
  unfold perms_of_role, role_has. rewrite list_elem_of_bind.
  setoid_rewrite elem_of_where. setoid_rewrite Z.eqb_eq. naive_solver.
Qed.

Lemma elem_of_parent_ids d child p : p ∈ parent_ids child d ↔ parent d child p.
Proof.
  unfold parent_ids, parent. rewrite list_elem_of_bind. setoid_rewrite elem_of_where.
  setoid_rewrite Z.eqb_eq. split.
  - intros (r & Hp & Hr & <-). destruct (ParentID r) as [q|] eqn:E; [|by apply not_elem_of_nil in Hp].
    destruct (Z.ltb_spec 0 q); [|by apply not_elem_of_nil in Hp].
    apply list_elem_of_singleton in Hp as ->. split; [done|]. by exists r.
  - intros (Hp & r & Hr & <- & Hpar). exists r. rewrite Hpar.
    rewrite (proj2 (Z.ltb_lt _ _)) by done. split; [by left|done].
Qed.

Definition admin_count userID d : Z :=
  count (λ r, bool_decide (role_Code r = "system_admin") &&
              in_list (role_ID r) (role_ids_of userID d)) (rows (roles d)).

Lemma admin_count_pos d userID : 0 <? admin_count userID d = true ↔ is_admin d userID.
Proof.
  unfold admin_count, is_admin. rewrite count_pos, existsb_elem_of. split.
  - intros (r & Hr & [Hc%bool_decide_eq_true Hu%in_list_true]%andb_true_iff).
    apply elem_of_role_ids_of in Hu. naive_solver.
  - intros (r & ur & Hr & Hc & Hur & Huser & Hrole). exists r. split; [done|].
    rewrite andb_true_iff, bool_decide_eq_true, in_list_true, elem_of_role_ids_of. eauto.
Qed.

Definition collected userID domainID d : list Z :=
  (ur_role <$> where_ (λ ur, (ur_user ur =? userID) && bool_decide (ur_domain ur = None))
                 (rows (user_roles d))) ++
  if 0 <? domainID
  then ur_role <$> where_ (λ ur, (ur_user ur =? userID) &&
                                 bool_decide (ur_domain ur = Some domainID)) (rows (user_roles d))
  else [].

Lemma elem_of_collected d userID domainID roleID :
  roleID ∈ collected userID domainID d ↔ carries d userID domainID roleID.
Proof.
  assert (Hw : ∀ q, roleID ∈ (ur_role <$> where_ (λ ur, (ur_user ur =? userID) &&
                    q (ur_domain ur)) (rows (user_roles d))) ↔
               ∃ ur, ur ∈ rows (user_roles d) ∧ ur_user ur = userID ∧ ur_role ur = roleID ∧
                     q (ur_domain ur) = true).
  { intros q. rewrite list_elem_of_fmap. setoid_rewrite elem_of_where.
    setoid_rewrite andb_true_iff. setoid_rewrite Z.eqb_eq. naive_solver. }
  unfold collected, carries.
  pose proof (Hw (λ o, bool_decide (o = None))) as Hw1.
  pose proof (Hw (λ o, bool_decide (o = Some domainID))) as Hw2. cbv beta in Hw1, Hw2.
  rewrite elem_of_app, Hw1.
  destruct (Z.ltb_spec 0 domainID) as [Hd|Hd].
  - rewrite Hw2. split.
    + intros [(ur & ? & ? & ? & Hq%bool_decide_eq_true)|(ur & ? & ? & ? & Hq%bool_decide_eq_true)];
        exists ur; split_and!; auto.
    + intros (ur & ? & ? & ? & [Hq|[_ Hq]]); [left|right];
        exists ur; rewrite bool_decide_eq_true; auto.
  - rewrite elem_of_nil. split.
    + intros [(ur & ? & ? & ? & Hq%bool_decide_eq_true)|[]]. exists ur. auto.
    + intros (ur & ? & ? & ? & [Hq|[? _]]); [|lia]. left. exists ur. rewrite bool_decide_eq_true. auto.
Qed.

Lemma IsSystemAdmin_answers userID :
  answers ErrDB (IsSystemAdmin userID) (λ d, Ok (0 <? admin_count userID d)).
Proof.
  eapply answers_ext; [apply answers_bind; [apply answers_query|intros n; apply answers_ret]|done].
Qed.

Lemma collectRoleIDs_answers userID domainID :
  answers ErrDB (collectRoleIDs userID domainID) (λ d, Ok (collected userID domainID d)).
Proof.
  eapply answers_ext.
  - apply answers_bind; [apply answers_query|]. intros globals.
    apply answers_if; [|apply answers_ret].
    apply answers_bind; [apply answers_query|]. intros locals. apply answers_ret.
  - intros d. unfold collected. simpl. destruct (0 <? domainID); [done|by rewrite app_nil_r].
Qed.

Definition allows (resource action : string) d roleID : bool :=
  existsb (λ p, (bool_decide (Resource p = resource) && bool_decide (Action p = action)) ||
                (bool_decide (Resource p = resource) && bool_decide (Action p = "manage")))
    (perms_of_role roleID d).

Lemma allows_true resource action d roleID :
  allows resource action d roleID = true ↔
  ∃ p, role_has d roleID p ∧ matches p resource action.
Proof.
  unfold allows. rewrite existsb_elem_of. unfold matches. split.
  - intros (p & Hp%elem_of_perms_of_role & Hm). exists p. split; [done|].
    rewrite orb_true_iff, !andb_true_iff, !bool_decide_eq_true in Hm. tauto.
  - intros (p & Hp%elem_of_perms_of_role & Hm). exists p. split; [done|].
    rewrite orb_true_iff, !andb_true_iff, !bool_decide_eq_true. tauto.
Qed.

Lemma checkRolePermission_answers roleID resource action :
  answers ErrDB (checkRolePermission roleID resource action)
    (λ d, Ok (allows resource action d roleID)).
Proof.
  eapply answers_ext.
  - apply answers_bind; [apply answers_query|]. intros n. apply answers_ret.
  - intros d. simpl. by rewrite count_pos.
Qed.

Lemma any_role_answers check (f : db → Z → bool) roleIDs :
  (∀ roleID, answers ErrDB (check roleID) (λ d, Ok (f d roleID))) →
  answers ErrDB (any_role check roleIDs) (λ d, Ok (existsb (f d) roleIDs)).
Proof.
  intros Hc. induction roleIDs as [|roleID rest IH]; simpl; [apply answers_ret|].
  eapply answers_ext.
  - apply answers_bind; [apply Hc|]. intros b. apply answers_if; [apply answers_ret|apply IH].
  - intros d. simpl. by destruct (f d roleID).
Qed.

Lemma HasPermission_answers userID resource action domainID :
  answers ErrDB (HasPermission userID resource action domainID)
    (λ d, Ok ((0 <? admin_count userID d) ||
              existsb (allows resource action d) (collected userID domainID d))).
Proof.
  eapply answers_ext.
  - apply answers_bind; [apply IsSystemAdmin_answers|]. intros b.
    apply answers_if; [apply answers_ret|].
    apply answers_bind; [apply collectRoleIDs_answers|]. intros ids.
    apply (any_role_answers _ (allows resource action)).
    intros roleID. apply checkRolePermission_answers.
  - intros d. simpl. by destruct (0 <? admin_count userID d).
Qed.
End queries.

(** [HasPermission] decides the access rule.  Whatever happens to the
    database calls it never changes a table and, when it returns no error,
    says yes exactly when the user is a system administrator or carries, in
    the domain or globally, a role that is given the permission or the
    resource's [manage] permission; without faults it returns no error. *)
Theorem HasPermission_decides (d : db) (fs : list fate) (userID domainID : Z)
    (resource action : string) :
  (run (HasPermission userID resource action domainID) d fs).2 = d ∧
  (∀ b, (run (HasPermission userID resource action domainID) d fs).1 = Ok b →
        b = true ↔
        is_admin d userID ∨
        ∃ roleID p, carries d userID domainID roleID ∧ role_has d roleID p ∧
                    matches p resource action) ∧
  ∃ b, HasPermission userID resource action domainID d [] = (Ok b, (d, [])).
Proof.
  pose proof (HasPermission_answers userID resource action domainID) as Ha.
  destruct (answers_sound _ _ _ d fs Ha) as [Hd Hr]. split_and!; [done| |].
  - intros b Hb. destruct Hr as [Hr|Hr]; rewrite Hr in Hb; [|done]. injection Hb as <-.
    rewrite orb_true_iff, admin_count_pos, existsb_elem_of.
    setoid_rewrite elem_of_collected. setoid_rewrite allows_true. naive_solver.
  - eexists. rewrite (answers_run _ _ _ d Ha). reflexivity.
Qed.

(** ** Role inheritance *)

Section inheritance.
Variable d : db.

(** Roles whose row has not been visited: the recursion only goes through
    them. *)
Definition unvisited (acc : list Z) : nat :=
  length (where_ (λ r, negb (in_list (role_ID r) acc)) (rows (roles d))).

Lemma where_length_le {A} (p q : A → bool) (l : list A) :
  (∀ x, p x = true → q x = true) → (length (where_ p l) ≤ length (where_ q l))%nat.
Proof.
  intros Hpq. unfold where_. induction l as [|x l IH]; [done|].
  rewrite !filter_cons. specialize (Hpq x). repeat case_decide; simpl; try lia. tauto.
Qed.

Lemma where_length_lt {A} (p q : A → bool) (l : list A) x :
  (∀ y, p y = true → q y = true) → x ∈ l → q x = true → p x = false →
  (length (where_ p l) < length (where_ q l))%nat.
Proof.
  intros Hpq Hin Hq Hp. induction l as [|y l IH]; [by apply not_elem_of_nil in Hin|].
  pose proof (where_length_le p q l Hpq) as Hle. unfold where_ in *. rewrite !filter_cons.
  apply elem_of_cons in Hin as [->|Hin].
  - rewrite decide_False, decide_True by congruence. simpl. lia.
  - specialize (IH Hin). specialize (Hpq y). repeat case_decide; simpl; try lia. tauto.
Qed.

Lemma unvisited_mono acc acc' : acc ⊆ acc' → (unvisited acc' ≤ unvisited acc)%nat.
Proof.
  intros Hsub. apply where_length_le. intros r. rewrite !negb_true_iff.
  intros H1. apply not_true_iff_false in H1. apply not_true_iff_false.
  rewrite in_list_true in *. auto.
Qed.

Lemma unvisited_visit acc id p :
  id ∉ acc → parent d id p → (unvisited (acc ++ [id]) < unvisited acc)%nat.
Proof.
  intros Hid (_ & r & Hr & Hrid & _). apply where_length_lt with r; [|done|..].
  - intros y. rewrite !negb_true_iff. intros H1. apply not_true_iff_false in H1.
    apply not_true_iff_false. rewrite in_list_true in *. set_solver.
  - rewrite negb_true_iff. apply not_true_iff_false. rewrite in_list_true. by rewrite Hrid.
  - rewrite negb_false_iff, in_list_true. set_solver.
Qed.

(** The result of a walk from [ids] with [acc] already visited; [full] says
    that no call failed. *)
Record walked (full : Prop) (ids acc acc' : list Z) : Prop := {
  walked_extends : acc `prefix_of` acc';
  walked_nodup : NoDup acc → NoDup acc';
  walked_starts : ids ⊆ acc';
  walked_sound : ∀ x, x ∈ acc' → x ∈ acc ∨ inherited d ids x;
  walked_closed : full → ∀ x p, x ∈ acc' → x ∉ acc → parent d x p → p ∈ acc';
}.

Lemma inherited_mono ids ids' x : ids ⊆ ids' → inherited d ids x → inherited d ids' x.
Proof. intros Hsub (r0 & Hr0 & Hr). exists r0. split; [by apply Hsub|done]. Qed.

Lemma walked_nil full acc : walked full [] acc acc.
Proof. constructor; try done; [set_solver|auto]. Qed.

Lemma walked_skip full id ids acc acc' :
  id ∈ acc → walked full ids acc acc' → walked full (id :: ids) acc acc'.
Proof.
  intros Hid [Hpre Hnd Hst Hso Hcl]. constructor; try done.
  - assert (acc ⊆ acc') as Hs by (intros x Hx; by eapply elem_of_prefix).
    intros x [->|Hx]%elem_of_cons; [by apply Hs|by apply Hst].
  - intros x [Hx|Hx]%Hso; [by left|right]. eapply inherited_mono; [|done]. set_solver.
Qed.

Lemma walked_visit (full : Prop) id ids ps acc acc1 acc2 :
  id ∉ acc → (∀ p, p ∈ ps → parent d id p) → (full → ∀ p, parent d id p → p ∈ ps) →
  walked full ps (acc ++ [id]) acc1 → walked full ids acc1 acc2 →
  walked full (id :: ids) acc acc2.
Proof.
  intros Hid Hps Hall [Hpre1 Hnd1 Hst1 Hso1 Hcl1] [Hpre2 Hnd2 Hst2 Hso2 Hcl2].
  assert (acc1 ⊆ acc2) as H12 by (intros x Hx; by eapply elem_of_prefix).
  assert (acc ++ [id] ⊆ acc1) as H01 by (intros x Hx; by eapply elem_of_prefix).
  constructor.
  - etrans; [|done]. etrans; [by apply prefix_app_r|done].
  - intros Hnd. apply Hnd2, Hnd1, NoDup_app. split_and!; [done|set_solver|apply NoDup_singleton].
  - set_solver.
  - intros x [Hx|Hx]%Hso2.
    + apply Hso1 in Hx as [Hx|(p & Hp & Hr)].
      * apply elem_of_app in Hx as [?| ->%list_elem_of_singleton]; [by left|right].
        exists id. split; [by left|done].
      * right. exists id. split; [by left|]. eapply rtc_l; [by apply Hps|done].
    + right. eapply inherited_mono; [|done]. set_solver.
  - intros Hf x p Hx Hn Hp. destruct (decide (x ∈ acc1)) as [H1|H1]; [|by eapply Hcl2].
    apply H12. destruct (decide (x = id)) as [->|Hne].
    + apply Hst1. by apply Hall.
    + eapply Hcl1; [done..| |done]. rewrite elem_of_app, list_elem_of_singleton. naive_solver.
Qed.

Lemma getParentRoleIDs_run id fs :
  ∃ ps fs', getParentRoleIDs id d fs = (ps, (d, fs')) ∧ (∀ p, p ∈ ps → parent d id p) ∧
            (fs = [] → fs' = [] ∧ ∀ p, parent d id p → p ∈ ps).
Proof.
  assert (∀ p, p ∈ parent_ids id d ↔ parent d id p) as Hp by apply elem_of_parent_ids.
  unfold getParentRoleIDs, query. rewrite run_bind. unfold call. destruct fs as [|[] fs]; simpl.
  - exists (parent_ids id d), []. split_and!; [done|apply Hp|]. split; [done|apply Hp].
  - exists (parent_ids id d), fs. split_and!; [done|apply Hp|done].
  - exists [], fs. split_and!; [done| |done]. by intros p ?%not_elem_of_nil.
  - exists [], fs. split_and!; [done| |done]. by intros p ?%not_elem_of_nil.
Qed.

Lemma walk_spec fuel ids acc fs :
  (unvisited acc ≤ fuel)%nat →
  ∃ acc' fs', walk fuel ids acc d fs = (Some acc', (d, fs')) ∧
              (fs = [] → fs' = []) ∧ walked (fs = []) ids acc acc'.
Proof.
  revert ids acc fs. induction fuel as [|fuel IHfuel];
    (induction ids as [|id ids IHids]; intros acc fs Hfuel;
     [exists acc, fs; split_and!; [done|done|apply walked_nil]|]);
    simpl; destruct (in_list id acc) eqn:Hid.
  1,3: apply in_list_true in Hid; destruct (IHids acc fs Hfuel) as (acc' & fs' & Heq & Hnil & Hw);
       exists acc', fs'; split_and!; [done|done|by apply walked_skip].
  all: apply not_true_iff_false in Hid; rewrite in_list_true in Hid;
    rewrite run_bind; destruct (getParentRoleIDs_run id fs) as (ps & fs1 & -> & Hps & Hfull);
    rewrite run_bind.
  - destruct ps as [|p ps].
    2:{ pose proof (unvisited_visit acc id p Hid (Hps p ltac:(by left))). lia. }
    pose proof (unvisited_mono acc (acc ++ [id]) ltac:(set_solver)) as Hmono.
    destruct (IHids (acc ++ [id]) fs1 ltac:(lia)) as (acc2 & fs2 & Heq & Hnil & Hw2).
    exists acc2, fs2. split_and!; [done|naive_solver|].
    apply (walked_visit (fs = []) id ids [] acc (acc ++ [id])); try done; [naive_solver|apply walked_nil|].
    destruct Hw2. constructor; try done. intros ->. naive_solver.
  - assert (∃ acc1 fs1', (match ps with
                          | [] => mret (Some (acc ++ [id]))
                          | _ => walk fuel ps (acc ++ [id])
                          end) d fs1 = (Some acc1, (d, fs1')) ∧
              (fs1 = [] → fs1' = []) ∧ walked (fs1 = []) ps (acc ++ [id]) acc1)
      as (acc1 & fs1' & -> & Hnil1 & Hw1).
    { destruct ps as [|p ps].
      - exists (acc ++ [id]), fs1. split_and!; [done|done|apply walked_nil].
      - apply IHfuel. pose proof (unvisited_visit acc id p Hid (Hps p ltac:(by left))). lia. }
    assert (acc ++ [id] ⊆ acc1) as Hsub
      by (intros x Hx; eapply elem_of_prefix; [done|apply (walked_extends _ _ _ _ Hw1)]).
    pose proof (unvisited_mono acc acc1 ltac:(set_solver)) as Hmono.
    destruct (IHids acc1 fs1' ltac:(lia)) as (acc2 & fs2 & Heq & Hnil2 & Hw2).
    exists acc2, fs2. split_and!; [done|naive_solver|].
    apply (walked_visit (fs = []) id ids ps acc acc1); try done; [naive_solver| |].
    + destruct Hw1. constructor; try done. intros ->. naive_solver.
    + destruct Hw2. constructor; try done. intros ->. naive_solver.
Qed.
End inheritance.

Lemma expandRoleInheritance_run (d : db) (fs : list fate) (roleIDs : list Z) :
  ∃ all fs', expandRoleInheritance roleIDs d fs = (Some all, (d, fs')) ∧ (fs = [] → fs' = []) ∧
    NoDup all ∧ (∀ r, r ∈ all → inherited d roleIDs r) ∧
    (fs = [] → ∀ r, r ∈ all ↔ inherited d roleIDs r).
Proof.
  unfold expandRoleInheritance. rewrite run_bind. simpl.
  destruct (walk_spec d (length (rows (roles d))) roleIDs [] fs) as (all & fs' & Heq & Hnil & Hw).
  { apply filter_length_le. }
  exists all, fs'. destruct Hw as [_ Hnd Hst Hso Hcl].
  assert (∀ r, r ∈ all → inherited d roleIDs r) as Hsound
    by (intros r [[]%not_elem_of_nil|?]%Hso; done).
  split_and!; [done|done|by apply Hnd, NoDup_nil|done|]. intros Hf r. split; [apply Hsound|].
  intros (r0 & Hr0 & Hr). apply Hst in Hr0. induction Hr as [|x y z Hxy _ IH]; [done|].
  apply IH. apply (Hcl Hf x y); [done|by apply not_elem_of_nil|done].
Qed.

(** C11: The expansion of role inheritance terminates and is the transitive
    closure of the parent relation, cycles included: it always returns a list
    without repetitions that starts with nothing but inherited roles, and when
    no call fails the list holds exactly the roles reachable from the direct
    ones through parents. *)
Theorem expandRoleInheritance_closure (d : db) (fs : list fate) (roleIDs : list Z) :
  ∃ all fs', expandRoleInheritance roleIDs d fs = (Some all, (d, fs')) ∧ NoDup all ∧
    (∀ r, r ∈ all → inherited d roleIDs r) ∧
    (fs = [] → ∀ r, r ∈ all ↔ inherited d roleIDs r).
Proof.
  destruct (expandRoleInheritance_run d fs roleIDs) as (all & fs' & Heq & _ & Hrest).
  by exists all, fs'.
Qed.

(** ** Effective permissions *)

Section effective.
Variable d : db.

Definition codes (ps : list Permission) : list string := GetCode <$> ps.

Lemma add_unseen_codes ps acc c :
  c ∈ codes (add_unseen ps acc) ↔ c ∈ codes acc ∨ c ∈ codes ps.
Proof.
  revert acc. induction ps as [|p ps IH]; intros acc; simpl; [rewrite elem_of_nil; tauto|].
  rewrite IH, elem_of_cons. destruct (in_list (GetCode p) (GetCode <$> acc)) eqn:E.
  - apply in_list_true in E. unfold codes. naive_solver.
  - unfold codes. rewrite fmap_app, elem_of_app. simpl. rewrite list_elem_of_singleton. tauto.
Qed.

Lemma add_unseen_nodup ps acc : NoDup (codes acc) → NoDup (codes (add_unseen ps acc)).
Proof.
  revert acc. induction ps as [|p ps IH]; intros acc Hnd; simpl; [done|]. apply IH.
  destruct (in_list (GetCode p) (GetCode <$> acc)) eqn:E; [done|].
  apply not_true_iff_false in E. rewrite in_list_true in E. unfold codes.
  rewrite fmap_app. apply NoDup_app. split_and!; [done| |apply NoDup_singleton].
  intros c Hc ->%list_elem_of_singleton. done.
Qed.

Lemma add_unseen_sub ps acc p : p ∈ add_unseen ps acc → p ∈ acc ∨ p ∈ ps.
Proof.
  revert acc. induction ps as [|q ps IH]; intros acc; simpl; [auto|].
  intros [Hp|Hp]%IH; [|right; by right].
  destruct (in_list _ _); [by left|]. apply elem_of_app in Hp as [?| ->%list_elem_of_singleton];
    [by left|right; by left].
Qed.

Lemma permissions_loop_run roleIDs acc :
  ∃ ps, permissions_loop roleIDs acc d [] = (ps, (d, [])) ∧
    (NoDup (codes acc) → NoDup (codes ps)) ∧
    (∀ p, p ∈ ps → p ∈ acc ∨ ∃ r, r ∈ roleIDs ∧ role_has d r p) ∧
    (∀ c, c ∈ codes ps ↔ c ∈ codes acc ∨ ∃ r p, r ∈ roleIDs ∧ role_has d r p ∧ c = GetCode p).
Proof.
  revert acc. induction roleIDs as [|r rest IH]; intros acc; simpl.
  { exists acc. split_and!; [done|done|auto|]. intros c. split; [auto|].
    intros [?|(r & p & []%not_elem_of_nil & _)]; done. }
  set (acc' := add_unseen (order_by perm_le (perms_of_role r d)) acc).
  destruct (IH acc') as (ps & Heq & Hnd & Hsub & Hcodes). exists ps. split_and!.
  - exact Heq.
  - intros Hacc. by apply Hnd, add_unseen_nodup.
  - intros p [Hp|(r' & Hr' & Hp)]%Hsub.
    + apply add_unseen_sub in Hp as [?|Hp%elem_of_order_by%elem_of_perms_of_role]; [by left|].
      right. exists r. split; [by left|done].
    + right. exists r'. split; [by right|done].
  - intros c. rewrite Hcodes. unfold acc'. rewrite add_unseen_codes. unfold codes at 2.
    rewrite list_elem_of_fmap. setoid_rewrite elem_of_order_by.
    setoid_rewrite elem_of_perms_of_role. setoid_rewrite elem_of_cons. naive_solver.
Qed.

(** The permissions [SwitchDomain] returns to a member. *)
Lemma SwitchDomain_run userID domainID :
  (∃ ud, ud ∈ rows (user_domains d) ∧ ud_user ud = userID ∧ ud_domain ud = domainID) →
  ∃ ps, SwitchDomain userID domainID d [] = (Ok ps, (d, [])) ∧ NoDup (codes ps) ∧
    ∀ c, c ∈ codes ps ↔
      ∃ r p, inherited d (collected userID domainID d) r ∧ role_has d r p ∧ c = GetCode p.
Proof.
  intros (ud & Hud & Hu & Hd). unfold SwitchDomain, select, bind_ok.
  rewrite run_bind, (answers_run _ _ _ d (answers_query ErrDB _)).
  set (n := count _ _).
  assert (n =? 0 = false) as ->.
  { assert (0 <? n = true); [|apply Z.eqb_neq; apply Z.ltb_lt in H; lia].
    unfold n. rewrite count_pos. apply existsb_elem_of. exists ud. split; [done|].
    apply andb_true_iff. split; by apply Z.eqb_eq. }
  rewrite run_bind. simpl. rewrite run_bind, (answers_run _ _ _ d (collectRoleIDs_answers userID domainID)).
  rewrite run_bind.
  destruct (expandRoleInheritance_run d [] (collected userID domainID d))
    as (all & fs' & -> & Hnil & _ & _ & Hall).
  rewrite Hnil by done. unfold getPermissionsByRoleIDs. rewrite run_bind.
  destruct (permissions_loop_run all []) as (ps & Heq & Hnd & _ & Hc). simpl. rewrite Heq.
  exists ps. split_and!; [done|by apply Hnd, NoDup_nil|].
  intros c. rewrite Hc. setoid_rewrite (Hall eq_refl). split; [|auto].
  intros [[]%not_elem_of_nil|?]; done.
Qed.
End effective.

(** Without faults, the permissions [SwitchDomain] gives a member of a
    domain are, each code once, those of the roles the user carries there and
    of everything these roles inherit. *)
Theorem SwitchDomain_inherits (d : db) (userID domainID : Z) :
  (∃ ud, ud ∈ rows (user_domains d) ∧ ud_user ud = userID ∧ ud_domain ud = domainID) →
  ∃ ps, SwitchDomain userID domainID d [] = (Ok ps, (d, [])) ∧ NoDup (codes ps) ∧
    ∀ c, c ∈ codes ps ↔
      ∃ r0 r p, carries d userID domainID r0 ∧ rtc (parent d) r0 r ∧ role_has d r p ∧ c = GetCode p.
Proof.
  intros Hm. destruct (SwitchDomain_run d userID domainID Hm) as (ps & Heq & Hnd & Hc).
  exists ps. split_and!; [done..|]. intros c. rewrite Hc. unfold inherited.
  setoid_rewrite elem_of_collected. naive_solver.
Qed.

(** [HasPermission] does not look at inherited roles: a permission a user
    has only through the parent of a role is listed by [SwitchDomain] and
    denied by [HasPermission], whereas the README promises that a child role
    inherits the permissions of its parent. *)
Theorem inherited_permission_denied (d : db) (userID domainID r0 r : Z) (p : Permission) :
  (∃ ud, ud ∈ rows (user_domains d) ∧ ud_user ud = userID ∧ ud_domain ud = domainID) →
  ¬ is_admin d userID →
  carries d userID domainID r0 → rtc (parent d) r0 r → role_has d r p →
  (∀ roleID q, carries d userID domainID roleID → role_has d roleID q →
               ¬ matches q (Resource p) (Action p)) →
  (∃ ps, SwitchDomain userID domainID d [] = (Ok ps, (d, [])) ∧ GetCode p ∈ codes ps) ∧
  HasPermission userID (Resource p) (Action p) domainID d [] = (Ok false, (d, [])).
Proof.
  intros Hm Hna Hc Hr Hp Hno. split.
  - destruct (SwitchDomain_run d userID domainID Hm) as (ps & Heq & _ & Hcodes).
    exists ps. split; [done|]. apply Hcodes. exists r, p. split_and!; [|done..].
    exists r0. split; [by apply elem_of_collected|done].
  - rewrite (answers_run _ _ _ d (HasPermission_answers userID _ _ domainID)).
    do 2 f_equal. apply orb_false_iff. split.
    + apply not_true_iff_false. by rewrite admin_count_pos.
    + apply existsb_false_iff. intros roleID Hrole%elem_of_collected.
      apply not_true_iff_false. rewrite allows_true. intros (q & Hq & Hmatch). by eapply Hno.
Qed.

(** ** Administration keeps the system roles *)

Inductive admin_op : Type :=
| OpCreate (name code description : string) (parentID domainID : option Z)
| OpUpdate (roleID : Z) (name description : string)
| OpDelete (roleID : Z)
| OpAssign (roleID : Z) (permissionIDs : list Z).

Definition admin_run (op : admin_op) : M db unit :=
  match op with
  | OpCreate n c ds p dom => _ ← CreateRole n c ds p dom; mret tt
  | OpUpdate id n ds => _ ← UpdateRole id n ds; mret tt
  | OpDelete id => _ ← DeleteRole id; mret tt
  | OpAssign id ps => _ ← admin_AssignPermissionsToRole id ps; mret tt
  end.

(** A sequence of requests, each with the faults of its calls. *)
Fixpoint admin_runs (ops : list (admin_op * list fate)) (d : db) : db :=
  match ops with
  | [] => d
  | (op, fs) :: ops => admin_runs ops (run (admin_run op) d fs).2
  end.

(** Row ids are unique and below the table's counter. *)
Definition ids_ok (t : table Role) : Prop :=
  NoDup (role_ID <$> rows t) ∧ ∀ r, r ∈ rows t → role_ID r ≤ last_id t.

Section administration.
(** A system role, the rows of its permissions and of its users. *)
Variables (r0 : Role) (rps : list RolePermission) (urs : list UserRole).
Hypothesis system : IsSystem r0 = true.

Definition kept (d : db) : Prop :=
  ids_ok (roles d) ∧ r0 ∈ rows (roles d) ∧
  where_ (λ rp, rp_role rp =? role_ID r0) (rows (role_permissions d)) = rps ∧
  where_ (λ ur, ur_role ur =? role_ID r0) (rows (user_roles d)) = urs.

Lemma head_by_id l roleID r :
  NoDup (role_ID <$> l) → r ∈ l → role_ID r = roleID →
  head (where_ (λ r, role_ID r =? roleID) l) = Some r.
Proof.
  induction l as [|x l IH]; intros Hnd Hr Hid; [by apply not_elem_of_nil in Hr|].
  rewrite fmap_cons in Hnd. apply NoDup_cons in Hnd as [Hx Hnd].
  unfold where_ in *. rewrite filter_cons. case_decide as E.
  - apply Z.eqb_eq in E. apply elem_of_cons in Hr as [->|Hr]; [done|].
    exfalso. apply Hx. rewrite E, <- Hid. by apply list_elem_of_fmap_2.
  - apply elem_of_cons in Hr as [->|Hr]; [|by apply IH].
    exfalso. apply E. by apply Z.eqb_eq.
Qed.

(** After [GetRoleByID] answers with a role that is no system role, the id
    is not the one of [r0]. *)
Lemma GetRoleByID_kept roleID :
  triple kept (GetRoleByID roleID) (λ res d, kept d ∧
    ∀ r, res = Ok (Some r) → IsSystem r = false → roleID ≠ role_ID r0).
Proof.
  intros d fs Hk. destruct (answers_query ErrDB (λ d, scan_role <$>
    head (where_ (λ r, role_ID r =? roleID) (rows (roles d)))) d fs) as (fs' & Hm & _).
  unfold GetRoleByID, select. destruct Hm as [->|[-> _]]; simpl; (split; [done|]); [|done].
  intros r [= Hr] Hns ->. destruct Hk as ([Hnd _] & Hin & _).
  rewrite (head_by_id _ _ r0) in Hr by done. simpl in Hr. simplify_eq. simpl in *. congruence.
Qed.

Lemma kept_exec f (P : Prop) :
  (∀ d, P → kept d → kept (f d)) →
  triple (λ d, kept d ∧ P) (or_err ErrDB (exec f)) (λ _ d, kept d ∧ P).
Proof.
  intros Hf. unfold or_err, exec. eapply triple_bind.
  - apply (triple_call _ _ (λ _ d, kept d ∧ P)). simpl. intros d [Hk HP]. auto.
  - intros a. apply triple_ret. auto.
Qed.

Lemma kept_exec_checked {A} (f : db → option (A * db)) (P : Prop) :
  (∀ d a d', P → kept d → f d = Some (a, d') → kept d') →
  triple (λ d, kept d ∧ P) (or_err ErrDB (exec_checked f)) (λ _ d, kept d ∧ P).
Proof.
  intros Hf. unfold or_err, exec_checked.
  apply triple_bind with (λ _ d, kept d ∧ P); [apply triple_bind with (λ _ d, kept d ∧ P)|].
  - apply triple_call. intros d [Hk HP].
    specialize (Hf d). destruct (f d) as [[a d']|]; simpl; split_and!; eauto.
  - intros a. by apply triple_ret.
  - intros a. by apply triple_ret.
Qed.

(** [if err != nil { return err }] after a step that keeps the role. *)
Lemma kept_bind {A B} (P : Prop) (m : M db (result error A)) (k : A → M db (result error B)) :
  triple (λ d, kept d ∧ P) m (λ _ d, kept d ∧ P) →
  (∀ a, triple (λ d, kept d ∧ P) (k a) (λ _ d, kept d ∧ P)) →
  triple (λ d, kept d ∧ P) (bind_ok m k) (λ _ d, kept d ∧ P).
Proof.
  intros Hm Hk. unfold bind_ok. eapply triple_bind; [done|].
  intros [a|e]; simpl; [apply Hk|by apply triple_ret].
Qed.

Lemma where_where {A} (p q : A → bool) l :
  (∀ x, p x = true → q x = true) → where_ p (where_ q l) = where_ p l.
Proof.
  intros Hpq. unfold where_. induction l as [|x l IH]; [done|].
  rewrite !filter_cons. specialize (Hpq x).
  destruct (p x) eqn:Hp, (q x) eqn:Hq; simpl; rewrite ?filter_cons, ?Hp; simpl;
    [by rewrite IH|by discriminate Hpq|done|done].
Qed.

Lemma kept_delete_perms roleID d :
  roleID ≠ role_ID r0 → kept d →
  kept (set_role_permissions (delete_where (λ rp, rp_role rp =? roleID)) d).
Proof.
  intros Hne (Hids & Hin & Hrp & Hur). split_and!; try done. simpl.
  rewrite where_where; [done|]. intros rp Hrp'%Z.eqb_eq.
  apply negb_true_iff, Z.eqb_neq. congruence.
Qed.

Lemma kept_delete_users roleID d :
  roleID ≠ role_ID r0 → kept d →
  kept (set_user_roles (delete_where (λ ur, ur_role ur =? roleID)) d).
Proof.
  intros Hne (Hids & Hin & Hrp & Hur). split_and!; try done. simpl.
  rewrite where_where; [done|]. intros ur Hur'%Z.eqb_eq.
  apply negb_true_iff, Z.eqb_neq. congruence.
Qed.

Lemma kept_delete_role roleID d :
  kept d →
  kept (set_roles (delete_where (λ r, (role_ID r =? roleID) && negb (IsSystem r))) d).
Proof.
  intros ([Hnd Hlast] & Hin & Hrp & Hur). split_and!; simpl; try done.
  - split; simpl.
    + eapply sublist_NoDup; [exact Hnd|]. apply fmap_sublist, sublist_filter.
    + intros r [Hr _]%elem_of_where. by apply Hlast.
  - apply elem_of_where. split; [done|]. by rewrite system, andb_false_r.
Qed.

Lemma kept_update roleID name description d :
  kept d →
  kept (set_roles (update_where (λ r, (role_ID r =? roleID) && negb (IsSystem r))
    (λ r, mkRole (role_ID r) name (role_Code r) description (IsSystem r)
            (ParentID r) (role_DomainID r))) d).
Proof.
  intros ([Hnd Hlast] & Hin & Hrp & Hur). split_and!; simpl; try done.
  - split; simpl.
    + replace (role_ID <$> _) with (role_ID <$> rows (roles d)); [done|].
      rewrite <- list_fmap_compose. apply list_fmap_ext. intros _ r _. simpl.
      by destruct (_ && _).
    + intros r (r' & -> & Hr')%list_elem_of_fmap. apply Hlast in Hr'. by destruct (_ && _).
  - apply list_elem_of_fmap. exists r0. split; [|done]. by rewrite system, andb_false_r.
Qed.

Lemma kept_insert_perms roleID permIDs d t :
  roleID ≠ role_ID r0 → kept d →
  insert_role_permissions roleID permIDs (role_permissions d) = Some t →
  kept (set_role_permissions (λ _, t) d).
Proof.
  intros Hne (Hids & Hin & Hrp & Hur) Ht. split_and!; try done. simpl. rewrite <- Hrp. clear Hrp.
  revert Ht. generalize (role_permissions d). induction permIDs as [|permID rest IH]; simpl; intros t0 Ht.
  - by simplify_eq.
  - destruct (existsb _ _); [done|]. rewrite (IH _ Ht). simpl. unfold where_.
    rewrite filter_app, filter_cons. simpl. rewrite decide_False, filter_nil, app_nil_r; [done|].
    rewrite Z.eqb_eq. congruence.
Qed.

Lemma kept_create name code description parentID domainID d :
  kept d →
  kept (set_roles (insert_row (λ id, mkRole id name code description false parentID domainID)) d).
Proof.
  intros ([Hnd Hlast] & Hin & Hrp & Hur). split_and!; simpl; try done.
  - split; simpl.
    + rewrite fmap_app. apply NoDup_app. split_and!; [done| |apply NoDup_singleton].
      intros id (r & -> & Hr)%list_elem_of_fmap Heq%list_elem_of_singleton.
      apply Hlast in Hr. simpl in Heq. lia.
    + intros r [Hr|Hr]%elem_of_app; [apply Hlast in Hr; lia|].
      apply list_elem_of_singleton in Hr as ->. simpl. lia.
  - apply elem_of_app. by left.
Qed.

(** [if IsSystem role { return ErrSystemRole... }] and the rest. *)
Lemma kept_guarded {A} roleID (k : Role → M db (result error A)) (e : error) rnone :
  (∀ r, roleID ≠ role_ID r0 →
        triple (λ d, kept d ∧ roleID ≠ role_ID r0) (k r) (λ _ d, kept d ∧ roleID ≠ role_ID r0)) →
  triple kept
    (bind_ok (GetRoleByID roleID) (λ role,
       match role with
       | None => mret rnone
       | Some role => if IsSystem role then mret (Err e) else k role
       end)) (λ _ d, kept d).
Proof.
  intros Hk. unfold bind_ok. eapply triple_bind; [apply GetRoleByID_kept|].
  intros [[r|]|x]; simpl; [|by apply triple_ret; intros d [? _]..].
  destruct (IsSystem r) eqn:E; [by apply triple_ret; intros d [? _]|].
  intros d fs [Hd Hne]. specialize (Hne r eq_refl E).
  by destruct (Hk r Hne d fs (conj Hd Hne)).
Qed.

Lemma kept_query {A} (P : Prop) (f : db → A) :
  triple (λ d, kept d ∧ P) (select f) (λ _ d, kept d ∧ P).
Proof.
  intros d fs Hd. unfold select. destruct (answers_query ErrDB f d fs) as (fs' & [->|[-> _]] & _);
    done.
Qed.

Lemma admin_run_kept op : triple kept (admin_run op) (λ _ d, kept d).
Proof.
  assert (∀ A (P : Prop) (m : M db A), P →
    triple (λ d, kept d ∧ P) m (λ _ d, kept d ∧ P) → triple kept m (λ _ d, kept d)) as Hw.
  { intros A P m HP Hm. eapply triple_weaken; [exact Hm|by intros s Hs|by intros ?? [? _]]. }
  destruct op as [n c ds p dom|id n ds|id|id ps]; simpl;
    (apply triple_bind with (λ _ d, kept d); [|intros ?; by apply triple_ret]).
  - apply (Hw _ True); [done|]. unfold CreateRole. apply kept_bind; [|intros; apply kept_query].
    apply kept_exec_checked. intros d a d' _ Hk. destruct (existsb _ _); [done|].
    intros [= _ <-]. by apply kept_create.
  - apply kept_guarded. intros r Hne. apply kept_bind; [|intros; apply kept_query].
    apply kept_exec. intros d _. apply kept_update.
  - apply kept_guarded. intros r Hne. apply kept_bind; [apply kept_query|].
    intros children. destruct (0 <? children); [by apply triple_ret|].
    apply kept_bind; [apply kept_exec; intros d _; by apply kept_delete_perms|]. intros _.
    apply kept_bind; [apply kept_exec; intros d _; by apply kept_delete_users|]. intros _.
    apply kept_exec. intros d _. apply kept_delete_role.
  - apply kept_guarded. intros r Hne. unfold AssignPermissionsToRole.
    apply kept_bind; [apply kept_exec; intros d _; by apply kept_delete_perms|]. intros _.
    destruct ps as [|p ps]; [by apply triple_ret|]. apply kept_exec_checked.
    intros d a d' _ Hk. destruct (insert_role_permissions _ _ _) as [t|] eqn:E; [|done].
    intros [= <- <-]. by eapply kept_insert_perms.
Qed.

Lemma admin_runs_kept ops d : kept d → kept (admin_runs ops d).
Proof.
  revert d. induction ops as [|[op fs] ops IH]; intros d Hk; simpl; [done|].
  apply IH. unfold run. pose proof (admin_run_kept op d fs Hk) as Hr.
  by destruct (admin_run op d fs) as [[] [d' fs']].
Qed.
End administration.

(** No sequence of requests to create, update, delete or re-assign roles,
    with whatever failures of the database, changes a system role: its row
    stays, and so do the permissions and the users it is assigned. *)
Theorem system_roles_immutable (d : db) (ops : list (admin_op * list fate)) (r : Role) :
  ids_ok (roles d) → r ∈ rows (roles d) → IsSystem r = true →
  let d' := admin_runs ops d in
  r ∈ rows (roles d') ∧
  where_ (λ rp, rp_role rp =? role_ID r) (rows (role_permissions d')) =
    where_ (λ rp, rp_role rp =? role_ID r) (rows (role_permissions d)) ∧
  where_ (λ ur, ur_role ur =? role_ID r) (rows (user_roles d')) =
    where_ (λ ur, ur_role ur =? role_ID r) (rows (user_roles d)).
Proof.
  intros Hids Hr Hsys. by apply (admin_runs_kept r _ _ Hsys ops d).
Qed.

(** ** Witnesses: an operator whose role inherits from a viewer role *)

Definition viewer : Role := mkRole 1 "Viewer" "viewer" "" true None None.
Definition operator : Role := mkRole 2 "Operator" "operator" "" false (Some 1) None.
Definition read_log : Permission := mkPermission 1 "log" "read" "".
Definition office : db :=
  mkDb (mkTable [viewer; operator] 2) (mkTable [read_log] 1)
    (mkTable [mkUserRole 7 2 (Some 5)] 1) (mkTable [mkRolePermission 1 1] 1)
    (mkTable [mkDomain 5 "ops" ""] 5) (mkTable [mkUserDomain 7 5 true] 1).

Lemma office_member :
  ∃ ud, ud ∈ rows (user_domains office) ∧ ud_user ud = 7 ∧ ud_domain ud = 5.
Proof. exists (mkUserDomain 7 5 true). split; [by left|done]. Qed.

Lemma office_parent : rtc (parent office) 2 1.
Proof.
  eapply rtc_l; [|apply rtc_refl]. split; [done|]. exists operator.
  split; [|done]. by apply (bool_decide_unpack _).
Qed.

Example SwitchDomain_inherits_witness :
  ∃ ps, SwitchDomain 7 5 office [] = (Ok ps, (office, [])) ∧ NoDup (codes ps) ∧
    ∀ c, c ∈ codes ps ↔
      ∃ r0 r p, carries office 7 5 r0 ∧ rtc (parent office) r0 r ∧ role_has office r p ∧ c = GetCode p.
Proof. exact (SwitchDomain_inherits office 7 5 office_member). Defined.

Example inherited_permission_denied_witness :
  (∃ ps, SwitchDomain 7 5 office [] = (Ok ps, (office, [])) ∧ GetCode read_log ∈ codes ps) ∧
  HasPermission 7 "log" "read" 5 office [] = (Ok false, (office, [])).
Proof.
  apply (inherited_permission_denied office 7 5 2 1 read_log).
  - exact office_member.
  - rewrite <- admin_count_pos. discriminate.
  - apply elem_of_collected. by left.
  - exact office_parent.
  - apply elem_of_perms_of_role. by left.
  - intros roleID q Hc%elem_of_collected Hq _. vm_compute in Hc.
    apply list_elem_of_singleton in Hc as ->.
    apply elem_of_perms_of_role in Hq. vm_compute in Hq. by apply not_elem_of_nil in Hq.
Defined.

Example system_roles_immutable_witness :
  let d' := admin_runs [(OpDelete 2, [Fine; Fine; Ghost]); (OpDelete 1, []); (OpAssign 1 [], [])] office in
  viewer ∈ rows (roles d') ∧
  where_ (λ rp, rp_role rp =? 1) (rows (role_permissions d')) = [mkRolePermission 1 1] ∧
  where_ (λ ur, ur_role ur =? 1) (rows (user_roles d')) = [].
Proof.
  apply (system_roles_immutable office _ viewer).
  - split; [by apply (bool_decide_unpack _)|].
    intros r Hr. apply list_elem_of_In in Hr. by destruct Hr as [<-|[<-|[]]].
  - by left.
  - reflexivity.
Defined.
