(* ===== verification/World.v ===== *)
(** * The scheduler's world

    What the handlers of [src/scheduler/internal/service] share: the rows of
    the rqlite tables (types of [src/scheduler/internal/model/models.go]),
    the Redis state, the clock, the leadership flag, and the effects a
    handler leaves behind: goroutines it started, tasks handed to the
    dispatcher, webhook deliveries, cancel signals and calls to the cron
    scheduler.

    Times are nanoseconds since the Unix epoch; a handler reads one clock
    value.  The database stores them formatted; the model compares and
    subtracts them as numbers. *)
From S2P Require Import Prelude Redis Sql.
From S2P Require Permission.

(** ** Rows *)

Record Task : Type := mkTask {
  t_ID : Z; t_Name : string; t_Type : string; t_Config : string;
  CronExpression : string;
  TimeoutSeconds : Z; RetryCount : Z; RetryInterval : Z;
  t_IsEnabled : bool; t_Status : string; t_DomainID : Z;
  WebhookID : option Z;
  WebhookEvents : list string;   (** the decoded JSON array of the column *)
  AssignedExecutorID : Z; CreatedBy : Z;
  t_CreatedAt : Z; t_UpdatedAt : Z;
}.

(** [start_time], [end_time]: [None] is NULL or the empty string. *)
Record TaskExecution : Type := mkExecution {
  x_ID : Z; x_TaskID : Z; ExecutionID : string;
  ExecutorID : Z;                (** 0 is NULL *)
  x_Status : string;
  StartTime : option Z; EndTime : option Z;
  Output : string; Error : string; RetryTimes : Z; x_CreatedAt : Z;
  Progress : Z; ProgressMsg : string; x_UpdatedAt : Z;
}.

Record Executor : Type := mkExecutor {
  e_ID : Z; e_Name : string; Address : string; e_Status : string;
  LastHeartbeat : option Z; Capacity : Z; CurrentLoad : Z; IsGlobal : bool;
  e_CreatedAt : Z; e_UpdatedAt : Z;
}.

Record DomainExecutor : Type := mkDomainExecutor { de_domain : Z; de_executor : Z }.

Record TaskLog : Type := mkTaskLog {
  l_ID : Z; l_ExecutionID : string; l_TaskID : Z; l_ExecutorID : Z;
  NodeID : string; LogLevel : string; Message : string; LogTime : Z;
}.

Record Webhook : Type := mkWebhook {
  w_ID : Z; w_Name : string; w_URL : string; w_Method : string; w_Headers : string; w_Secret : string;
  w_DomainID : Z; w_IsEnabled : bool; w_Description : string; w_CreatedBy : option Z;
  w_CreatedAt : Z; w_UpdatedAt : Z;
}.

(** ** Effects *)

(** The task sent to an executor, [pb.Task]. *)
Record pb_Task : Type := mkPbTask {
  pb_TaskId : Z; pb_ExecutionId : string; pb_Type : string; pb_Config : string;
  pb_TimeoutSeconds : Z; pb_RetryCount : Z; pb_RetryInterval : Z;
}.

(** A goroutine that has been started and has not run yet. *)
Inductive job : Type :=
| RetryJob (taskID : Z) (failedExecutionID output : string) (retryTimes durationMs due : Z)
| FailureJob (taskID : Z) (executionID reason : string)
| ReportJob (taskID : Z) (executionID output errorMsg : string) (durationMs : Z)
| ReloadJob.

Inductive cron_call : Type := RegisterTask (taskID : Z) (cronExpr : string) | UnregisterTask (taskID : Z).

(** A webhook delivery: event, task, execution, output and error text. *)
Record delivery : Type := mkDelivery {
  d_URL : string; d_event : string; d_task : Z; d_execution : string;
  d_output : string; d_error : string; d_duration_ms : Z;
}.

#[export] Instance Task_eq_dec : EqDecision Task. Proof. solve_decision. Defined.
#[export] Instance TaskExecution_eq_dec : EqDecision TaskExecution. Proof. solve_decision. Defined.
#[export] Instance Executor_eq_dec : EqDecision Executor. Proof. solve_decision. Defined.
#[export] Instance Webhook_eq_dec : EqDecision Webhook. Proof. solve_decision. Defined.
#[export] Instance TaskLog_eq_dec : EqDecision TaskLog. Proof. solve_decision. Defined.
#[export] Instance pb_Task_eq_dec : EqDecision pb_Task. Proof. solve_decision. Defined.
#[export] Instance job_eq_dec : EqDecision job. Proof. solve_decision. Defined.
#[export] Instance cron_call_eq_dec : EqDecision cron_call. Proof. solve_decision. Defined.
#[export] Instance delivery_eq_dec : EqDecision delivery. Proof. solve_decision. Defined.

(** The tables. *)
Record tables : Type := mkTables {
  tasks : table Task;
  executions : table TaskExecution;
  executors : table Executor;
  domain_executors : table DomainExecutor;
  task_logs : table TaskLog;
  webhooks : table Webhook;
  domains : table Permission.Domain;
}.

(** What the handlers leave behind. *)
Record effects : Type := mkEffects {
  spawned : list job;
  dispatched : list (string * pb_Task);
  deliveries : list delivery;
  cancels : list (string * string);
  cron_calls : list cron_call;
}.

Record world (R : Type) : Type := mkWorld {
  tabs : tables;
  redis : R;
  clock : Z;
  leader : bool;
  fx : effects;
}.
Arguments mkWorld {R} _ _ _ _ _.
Arguments tabs {R} _.
Arguments redis {R} _.
Arguments clock {R} _.
Arguments leader {R} _.
Arguments fx {R} _.

Definition set_tasks (f : table Task → table Task) (t : tables) : tables :=
  mkTables (f (tasks t)) (executions t) (executors t) (domain_executors t) (task_logs t) (webhooks t)
    (domains t).
Definition set_executions (f : table TaskExecution → table TaskExecution) (t : tables) : tables :=
  mkTables (tasks t) (f (executions t)) (executors t) (domain_executors t) (task_logs t) (webhooks t)
    (domains t).
Definition set_executors (f : table Executor → table Executor) (t : tables) : tables :=
  mkTables (tasks t) (executions t) (f (executors t)) (domain_executors t) (task_logs t) (webhooks t)
    (domains t).
Definition set_domain_executors (f : table DomainExecutor → table DomainExecutor) (t : tables) : tables :=
  mkTables (tasks t) (executions t) (executors t) (f (domain_executors t)) (task_logs t) (webhooks t)
    (domains t).
Definition set_task_logs (f : table TaskLog → table TaskLog) (t : tables) : tables :=
  mkTables (tasks t) (executions t) (executors t) (domain_executors t) (f (task_logs t)) (webhooks t)
    (domains t).
Definition set_webhooks (f : table Webhook → table Webhook) (t : tables) : tables :=
  mkTables (tasks t) (executions t) (executors t) (domain_executors t) (task_logs t) (f (webhooks t))
    (domains t).

Definition spawn (j : job) (e : effects) : effects :=
  mkEffects (spawned e ++ [j]) (dispatched e) (deliveries e) (cancels e) (cron_calls e).
Definition dispatch (name : string) (p : pb_Task) (e : effects) : effects :=
  mkEffects (spawned e) (dispatched e ++ [(name, p)]) (deliveries e) (cancels e) (cron_calls e).
Definition deliver (d : delivery) (e : effects) : effects :=
  mkEffects (spawned e) (dispatched e) (deliveries e ++ [d]) (cancels e) (cron_calls e).
Definition signal_cancel (name id : string) (e : effects) : effects :=
  mkEffects (spawned e) (dispatched e) (deliveries e) (cancels e ++ [(name, id)]) (cron_calls e).
Definition call_cron (c : cron_call) (e : effects) : effects :=
  mkEffects (spawned e) (dispatched e) (deliveries e) (cancels e) (cron_calls e ++ [c]).

(** ** The surroundings a deployment configures

    The dispatcher (in the deployed program the gRPC server's stream table)
    answers whether an executor took a task; the connectivity checks answer
    whether an executor can be reached; [next_time] is the cron library's
    [schedule.Next]; [rand] is SQLite's [RANDOM()]; [db_error] and
    [redis_error] are the texts of the errors of the two services. *)
Record env : Type := mkEnv {
  dispatcher : option (string → pb_Task → option string);
  has_cron : bool;
  has_webhooks : bool;
  has_cancel_notifier : bool;
  is_connected : string → bool;
  dial : string → bool;
  next_time : string → string;
  rand : nat;
  db_error : string;
  redis_error : string;
}.

(** ** Errors of the service *)
Inductive error : Type :=
| ErrDB
| ErrRedis
| ErrTaskNotFound
| ErrExecutorNotFound
| ErrExecutionNotFound
| ErrExecutionMissing (executionID : string)
| ErrExecutionDenied
| ErrNotLeader
| ErrLockConflict (taskID : Z)
| ErrAlreadyRunning (taskID : Z) (executionID : string)
| ErrExecutorNotOnline (id : Z)
| ErrExecutorNoCapacity (id : Z)
| ErrNoAvailableExecutor
| ErrDispatcherNotConfigured
| ErrDispatch (text : string)
| ErrNotCancellable (status : string)
| ErrExecutorDuplicate (name address : string)
| ErrCapacityNotPositive
| ErrWebhookNotFound
| ErrWrap (prefix : string) (e : error).   (** [fmt.Errorf(prefix + "%w", e)] *)

#[export] Instance service_error_eq_dec : EqDecision error.
Proof. solve_decision. Defined.

(** [err.Error()] *)
Fixpoint error_text (cfg : env) (e : error) : string :=
  match e with
  | ErrDB => db_error cfg
  | ErrRedis => redis_error cfg
  | ErrTaskNotFound => "task not found"
  | ErrExecutorNotFound => "executor not found"
  | ErrExecutionNotFound => "execution not found"
  | ErrExecutionMissing executionID => "execution " +:+ executionID +:+ " not found"
  | ErrExecutionDenied => "execution not found or permission denied"
  | ErrNotLeader => "this node is not the leader, cannot trigger task"
  | ErrLockConflict taskID =>
      "task " +:+ fmt_d taskID +:+ " is already being executed (lock conflict)"
  | ErrAlreadyRunning taskID executionID =>
      "task " +:+ fmt_d taskID +:+ " is already running (execution_id: " +:+ executionID +:+ "), skipped"
  | ErrExecutorNotOnline id => "specified executor " +:+ fmt_d id +:+ " is not online"
  | ErrExecutorNoCapacity id => "specified executor " +:+ fmt_d id +:+ " has no capacity"
  | ErrNoAvailableExecutor => "no available executor"
  | ErrDispatcherNotConfigured => "dispatcher not configured"
  | ErrDispatch text => text
  | ErrNotCancellable status =>
      "execution is not running or pending (current status: " +:+ status +:+ ")"
  | ErrExecutorDuplicate name address =>
      "executor duplicate registration rejected: executor " +:+ name +:+
      " is already online at " +:+ address +:+ ", duplicate registration rejected"
  | ErrCapacityNotPositive => "capacity must be positive"
  | ErrWebhookNotFound => "webhook not found"
  | ErrWrap prefix e => prefix +:+ error_text cfg e
  end.

(** ** Calls *)

Section calls.
Context {R : Type}.

Abbreviation W := (world R).

Definition set_tabs (f : tables → tables) (w : W) : W :=
  mkWorld (f (tabs w)) (redis w) (clock w) (leader w) (fx w).
Definition set_redis (f : R → R) (w : W) : W :=
  mkWorld (tabs w) (f (redis w)) (clock w) (leader w) (fx w).
Definition set_fx (f : effects → effects) (w : W) : W :=
  mkWorld (tabs w) (redis w) (clock w) (leader w) (f (fx w)).

(** A [SELECT]; an error of the call is [ErrDB]. *)
Definition select {A} (f : tables → A) : M W (result error A) :=
  or_err ErrDB (query (λ w, f (tabs w))).
(** The same where the code ignores an error. *)
Definition select_opt {A} (f : tables → A) : M W (option A) := query (λ w, f (tabs w)).
Definition write (f : tables → tables) : M W (result error unit) :=
  or_err ErrDB (exec (set_tabs f)).
Definition write_checked {A} (f : tables → option (A * tables)) : M W (result error A) :=
  or_err ErrDB (exec_checked (λ w, '(a, t) ← f (tabs w); Some (a, set_tabs (λ _, t) w))).

(** A Redis command. *)
Definition redis_call {A} (op : R → A * R) : M W (option A) :=
  call (λ w, let '(a, r) := op (redis w) in (a, set_redis (λ _, r) w)).

Definition effect (f : effects → effects) : M W unit := modify (set_fx f).

Context `{Redis R}.

(** [s.redis.Del(ctx, keys...)], [Set] and [Get], results ignored or not. *)
Definition DELS (ks : list string) (r : R) : R := foldl (λ r k, DEL k r) r ks.
Definition redis_del (ks : list string) : M W (option unit) := redis_call (λ r, (tt, DELS ks r)).
Definition redis_set (now : Z) (k : string) (v : rval) (ttl : Z) : M W (option unit) :=
  redis_call (λ r, (tt, SET now k v ttl r)).
Definition redis_get (now : Z) (k : string) : M W get_reply :=
  o ← redis_call (λ r, (get_value (GET now k r), r)); mret (default GetErr o).
(** [exists, _ := s.redis.Exists(...)]: an error counts as absent. *)
Definition redis_exists (now : Z) (k : string) : M W (option bool) :=
  redis_call (λ r, (EXISTS now k r, r)).
End calls.

(** ** Keys *)
Definition lockKey (executionID : string) : string := "task:lock:" +:+ executionID.
Definition renewKey (executionID : string) : string := "task:renew:" +:+ executionID.
Definition failCountKey (executionID : string) : string := "task:renew:fail:count:" +:+ executionID.
Definition retryLockKey (taskID : Z) : string := "task:retry:lock:" +:+ fmt_d taskID.

(** [time.Now().Unix()] *)
Definition unix (now : Z) : Z := now / Second.

(** ** Runs of the calls

    Without faults a call returns what it computes; with faults it leaves the
    world as it was or as the operation makes it. *)
Section runs.
Context {R : Type}.
Implicit Types w : world R.

Lemma run_bind_ok {S E A B} (m : M S (result E A)) (k : A → M S (result E B)) s fs :
  bind_ok m k s fs = let '(r, (s', fs')) := m s fs in
    match r with Ok a => k a s' fs' | Err e => (Err e, (s', fs')) end.
Proof. unfold bind_ok. rewrite run_bind. destruct (m s fs) as [[] [??]]; done. Qed.

Lemma run_ret {S A} (a : A) s fs : (mret a : M S A) s fs = (a, (s, fs)).
Proof. done. Qed.
Lemma run_gets {S A} (f : S → A) s fs : gets f s fs = (f s, (s, fs)).
Proof. done. Qed.
Lemma run_select {A} (f : tables → A) w : select f w [] = (Ok (f (tabs w)), (w, [])).
Proof. done. Qed.
Lemma run_select_opt {A} (f : tables → A) w : select_opt f w [] = (Some (f (tabs w)), (w, [])).
Proof. done. Qed.
Lemma run_write f w : write f w [] = (Ok tt, (set_tabs f w, [])).
Proof. done. Qed.
Lemma run_write_checked {A} (f : tables → option (A * tables)) w :
  write_checked f w [] = match f (tabs w) with
                         | Some (a, t) => (Ok a, (set_tabs (λ _, t) w, []))
                         | None => (Err ErrDB, (w, []))
                         end.
Proof.
  unfold write_checked, or_err, exec_checked. rewrite !run_bind. simpl.
  destruct (f (tabs w)) as [[a t]|]; done.
Qed.
Lemma run_redis_call {A} (op : R → A * R) w :
  redis_call op w [] = (Some (op (redis w)).1, (set_redis (λ _, (op (redis w)).2) w, [])).
Proof. unfold redis_call, call. by destruct (op (redis w)). Qed.
Lemma run_effect f w fs : effect f w fs = (tt, (set_fx f w, fs)).
Proof. done. Qed.

Lemma preserves_redis_call (P : world R → Prop) {A} (op : R → A * R) :
  (∀ f w, P w → P (set_redis f w)) → preserves P (redis_call op).
Proof.
  intros HP. apply preserves_call. intros w Hw. destruct (op (redis w)). by apply HP.
Qed.
Lemma preserves_read_bind (P : world R → Prop) {A B} (f : R → A) (k : option A → M (world R) B) :
  (∀ o, (∀ a, o = Some a → ∃ r, a = f r) → preserves P (k o)) →
  preserves P (redis_call (λ r, (f r, r)) ≫= k).
Proof.
  intros Hk w fs HP. unfold redis_call. rewrite run_bind. unfold call.
  destruct fs as [|[] fs]; simpl; apply Hk; try (by destruct w); try done;
    intros a [= <-]; eauto.
Qed.
Lemma preserves_select P {A} (f : tables → A) : preserves P (select f : M (world R) _).
Proof.
  apply preserves_bind; [by apply preserves_call|intros; apply preserves_ret].
Qed.
Lemma preserves_select_opt P {A} (f : tables → A) : preserves P (select_opt f : M (world R) _).
Proof. by apply preserves_call. Qed.
Lemma preserves_write (P : world R → Prop) f :
  (∀ w, P w → P (set_tabs f w)) → preserves P (write f).
Proof.
  intros HP. apply preserves_bind; [|intros; apply preserves_ret]. by apply preserves_call.
Qed.
Lemma preserves_write_checked (P : world R → Prop) {A} (f : tables → option (A * tables)) :
  (∀ w a t, f (tabs w) = Some (a, t) → P w → P (set_tabs (λ _, t) w)) →
  preserves P (write_checked f).
Proof.
  intros HP. apply preserves_bind; [|intros; apply preserves_ret].
  apply preserves_bind; [|intros; apply preserves_ret]. apply preserves_call.
  intros w Hw. simpl. destruct (f (tabs w)) as [[a t]|] eqn:E; simpl; eauto.
Qed.
Lemma preserves_effect (P : world R → Prop) f :
  (∀ w, P w → P (set_fx f w)) → preserves P (effect f).
Proof. apply preserves_modify. Qed.
Lemma preserves_bind_ok {S} (P : S → Prop) {E A B} (m : M S (result E A)) (k : A → M S (result E B)) :
  preserves P m → (∀ a, preserves P (k a)) → preserves P (bind_ok m k).
Proof.
  intros Hm Hk. apply preserves_bind; [done|]. intros []; [apply Hk|apply preserves_ret].
Qed.

(** A handler that changes nothing. *)
Definition reads {A} (m : M (world R) A) : Prop := ∀ P, preserves P m.

Lemma triple_select {A} (f : tables → A) w :
  triple (eq w) (select f) (λ r w', w' = w ∧ ∀ a, r = Ok a → a = f (tabs w)).
Proof.
  unfold select, or_err. eapply (triple_bind _ _ (λ o w', w' = w ∧ ∀ a, o = Some a → a = f (tabs w))).
  - apply triple_call. intros w1 <-. split; [by split; [|intros l [= <-]]|]. done.
  - intros [l|]; apply triple_ret; intros w1 [-> Hl]; (split; [done|]); [|done].
    intros l' [= <-]. by apply Hl.
Qed.

(** A triple of a handler that only reads. *)
Lemma triple_reads {A} (m : M (world R) A) (P : world R → Prop) (Q : A → world R → Prop) :
  reads m → (∀ a w, P w → Q a w) → triple P m Q.
Proof.
  intros Hm HQ w fs HP. apply HQ. exact (Hm P w fs HP).
Qed.

Lemma triple_preserves {A} (m : M (world R) A) (P : world R → Prop) :
  preserves P m → triple P m (λ _, P).
Proof. intros Hm w fs. apply Hm. Qed.
End runs.

Create HintDb ff.
#[export] Hint Rewrite @run_bind @run_bind_ok @run_ret @run_gets @run_select @run_select_opt @run_write
  @run_redis_call @run_effect : ff.

#[export] Hint Resolve preserves_select preserves_select_opt : handler.

(** One step of a fault-free run. *)
Ltac ff := repeat (progress (autorewrite with ff; cbv beta iota)).

Ltac handler_step :=
  first
  [ preserves_step
  | match goal with
    | |- preserves _ (bind_ok _ _) => apply preserves_bind_ok; [|intros ?]
    | |- preserves _ (select _) => apply preserves_select
    | |- preserves _ (select_opt _) => apply preserves_select_opt
    | |- preserves _ (let '(_, _) := ?x in _) => destruct x eqn:?
    end ].

(** ** Fault-free runs *)
Section clean_calls.
Context {R : Type}.
Implicit Types w : world R.

Lemma clean_select {A} (f : tables → A) : clean (select f : M (world R) _).
Proof. done. Qed.
Lemma clean_select_opt {A} (f : tables → A) : clean (select_opt f : M (world R) _).
Proof. done. Qed.
Lemma clean_write f : clean (write f : M (world R) _).
Proof. done. Qed.
Lemma clean_write_checked {A} (f : tables → option (A * tables)) : clean (write_checked f : M (world R) _).
Proof. intros w. rewrite run_write_checked. by destruct (f (tabs w)) as [[??]|]. Qed.
Lemma clean_redis_call {A} (op : R → A * R) : clean (redis_call op).
Proof. intros w. by rewrite run_redis_call. Qed.
Lemma clean_effect f : clean (effect f : M (world R) _).
Proof. done. Qed.

(** The calls in [run] form. *)
Lemma run1_select {A} (f : tables → A) w : run (select f) w [] = (Ok (f (tabs w)), w).
Proof. done. Qed.
Lemma run1_select_opt {A} (f : tables → A) w : run (select_opt f) w [] = (Some (f (tabs w)), w).
Proof. done. Qed.
Lemma run1_write f w : run (write f) w [] = (Ok tt, set_tabs f w).
Proof. done. Qed.
Lemma run1_write_checked {A} (f : tables → option (A * tables)) w :
  run (write_checked f) w [] = match f (tabs w) with
                               | Some (a, t) => (Ok a, set_tabs (λ _, t) w)
                               | None => (Err ErrDB, w)
                               end.
Proof. unfold run. rewrite run_write_checked. by destruct (f (tabs w)) as [[??]|]. Qed.
Lemma run1_redis_call {A} (op : R → A * R) w :
  run (redis_call op) w [] = (Some (op (redis w)).1, set_redis (λ _, (op (redis w)).2) w).
Proof. unfold run. by rewrite run_redis_call. Qed.
Lemma run1_effect f w : run (effect f) w [] = (tt, set_fx f w).
Proof. done. Qed.
Lemma run1_gets {S A} (f : S → A) s : run (gets f) s [] = (f s, s).
Proof. done. Qed.
Lemma run1_ret {S A} (a : A) (s : S) : run (mret a) s [] = (a, s).
Proof. done. Qed.
End clean_calls.

#[export] Hint Resolve clean_select clean_select_opt clean_write clean_write_checked clean_redis_call clean_effect : clean.
#[export] Hint Rewrite @run1_select @run1_select_opt @run1_write @run1_redis_call @run1_effect
  @run1_gets @run1_ret : run1.

#[export] Hint Extern 0 (clean (redis_del _)) => apply clean_redis_call : clean.
#[export] Hint Extern 0 (clean (redis_set _ _ _ _)) => apply clean_redis_call : clean.
#[export] Hint Extern 0 (clean (redis_exists _ _)) => apply clean_redis_call : clean.

(** One step of a sequence whose first handler is clean. *)
Ltac seq :=
  first [ rewrite run_then by solve_clean | rewrite run_then_ok by solve_clean ];
  autorewrite with run1; cbn [fst snd].
