(* ===== verification/Executor.v ===== *)
(** * Executors of the deployment

    [src/scheduler/internal/service/executor_service.go] (registration,
    heartbeats, selection) and [executor_domain.go] (the domains an executor
    serves), over the tables of [World].  [RegisterExecutor] calls
    [cleanupExecutorStaleTasks] of [cleanup_service.go], which is here. *)
From Stdlib Require Import Ascii.
From S2P Require Import Prelude Redis Sql World.
From S2P Require Permission.

(** ** Scanning *)

(** The zero [time.Time], 1 January of year 1. *)
Definition zero_time : Z := -62135596800 * Second.

(** [scanExecutorResult] on the nine-column queries: [is_global] is not
    selected. *)
Definition scan_executor (e : Executor) : Executor :=
  mkExecutor (e_ID e) (e_Name e) (Address e) (e_Status e) (LastHeartbeat e) (Capacity e)
    (CurrentLoad e) false (e_CreatedAt e) (e_UpdatedAt e).

(** [scanExecutorResult] on the ten-column queries, which select [is_global]
    before the two times: the column read as [created_at] is [is_global],
    no time, and the one read as [updated_at] is [created_at]. *)
Definition scan_executor10 (e : Executor) : Executor :=
  mkExecutor (e_ID e) (e_Name e) (Address e) (e_Status e) (LastHeartbeat e) (Capacity e)
    (CurrentLoad e) false zero_time (e_CreatedAt e).

(** [strings.SplitN(address, "#", 2)[0]] *)
Fixpoint host_of (address : string) : string :=
  match address with
  | EmptyString => EmptyString
  | String c s => if bool_decide (c = "#"%char) then EmptyString else String c (host_of s)
  end.

Definition is_online (e : Executor) : bool := bool_decide (e_Status e = "online").

(** [e.last_heartbeat > ?] is false for NULL.  The columns hold texts with
    whole seconds; here the times are compared, which can differ from the texts
    within one second. *)
Definition heartbeat_after (t : Z) (e : Executor) : bool :=
  match LastHeartbeat e with Some h => t <? h | None => false end.
Definition heartbeat_before (t : Z) (e : Executor) : bool :=
  match LastHeartbeat e with Some h => h <? t | None => false end.

(** ** Selection *)

(** Online, with room and a heartbeat in the last 45 seconds; with a domain,
    assigned to it or global.  The [LEFT JOIN] repeats an executor once per
    domain row that satisfies the condition. *)
Definition eligible (now : Z) (e : Executor) : bool :=
  is_online e && (CurrentLoad e <? Capacity e) && heartbeat_after (now - 45 * Second) e.

Definition domain_rows (t : tables) (e : Executor) : list (option DomainExecutor) :=
  match where_ (λ de, de_executor de =? e_ID e) (rows (domain_executors t)) with
  | [] => [None]
  | des => Some <$> des
  end.

Definition serves (domainID : Z) (e : Executor) (de : option DomainExecutor) : bool :=
  match de with Some de => de_domain de =? domainID | None => false end || IsGlobal e.

Definition candidates (now domainID : Z) (t : tables) : list Executor :=
  if 0 <? domainID then
    e ← where_ (eligible now) (rows (executors t));
    (λ _, e) <$> where_ (serves domainID e) (domain_rows t e)
  else where_ (eligible now) (rows (executors t)).

(** [ORDER BY e.current_load ASC, RANDOM() LIMIT 1] *)
Definition min_load (es : list Executor) : option Z :=
  match es with
  | [] => None
  | e :: es => Some (foldl (λ m e, Z.min m (CurrentLoad e)) (CurrentLoad e) es)
  end.
Definition least_loaded (es : list Executor) : list Executor :=
  match min_load es with
  | Some m => where_ (λ e, CurrentLoad e =? m) es
  | None => []
  end.
Definition pick (rand : nat) (es : list Executor) : option Executor :=
  let best := least_loaded es in best !! (rand `mod` length best)%nat.

Section executor_service.
Context `{Redis R}.
Variable cfg : env.

Definition SelectAvailableExecutor (domainID : Z) : M (world R) (result error Executor) :=
  now ← gets clock;
  o ←? select (λ t, scan_executor <$> pick (rand cfg) (candidates now domainID t));
  mret match o with Some e => Ok e | None => Err ErrNoAvailableExecutor end.

Definition GetExecutorByID (id : Z) : M (world R) (result error Executor) :=
  o ←? select (λ t, scan_executor10 <$> head (where_ (λ e, e_ID e =? id) (rows (executors t))));
  mret match o with Some e => Ok e | None => Err ErrExecutorNotFound end.

Definition GetExecutorByName (name : string) : M (world R) (result error Executor) :=
  o ←? select (λ t, scan_executor10 <$>
         head (where_ (λ e, bool_decide (e_Name e = name)) (rows (executors t))));
  mret match o with Some e => Ok e | None => Err ErrExecutorNotFound end.

Definition GetExecutorInfoByID (id : Z) : M (world R) (result error Executor) := GetExecutorByID id.

(** ** Domains of executors *)

Definition GetExecutorDomains (executorID : Z) : M (world R) (result error (list Permission.Domain)) :=
  select (λ t, de ← where_ (λ de, de_executor de =? executorID) (rows (domain_executors t));
               where_ (λ d, de_domain de =? Permission.dom_ID d) (rows (domains t))).

(** [UNIQUE(domain_id, executor_id)] *)
Definition insert_domain_executor (domainID executorID : Z) (t : tables) : option tables :=
  if existsb (λ de, (de_domain de =? domainID) && (de_executor de =? executorID))
       (rows (domain_executors t)) then None
  else Some (set_domain_executors (insert_row (λ _, mkDomainExecutor domainID executorID)) t).

Fixpoint insert_domain_executors (domainIDs : list Z) (executorID : Z) (t : tables) : option tables :=
  match domainIDs with
  | [] => Some t
  | domainID :: rest =>
      t ← insert_domain_executor domainID executorID t; insert_domain_executors rest executorID t
  end.

Definition set_executor_global (b : bool) (e : Executor) : Executor :=
  mkExecutor (e_ID e) (e_Name e) (Address e) (e_Status e) (LastHeartbeat e) (Capacity e)
    (CurrentLoad e) b (e_CreatedAt e) (e_UpdatedAt e).

Definition AssignExecutorToDomains (executorID : Z) (domainIDs : list Z) :
    M (world R) (result error unit) :=
  _ ←? write (set_domain_executors (delete_where (λ de, de_executor de =? executorID)));
  _ ←? match domainIDs with
       | [] => mret (Ok tt)
       | _ => write_checked (λ t, t' ← insert_domain_executors domainIDs executorID t; Some (tt, t'))
       end;
  write (set_executors (update_where (λ e, e_ID e =? executorID)
    (set_executor_global (bool_decide (domainIDs = []))))).

Definition AssignExecutorToDefaultDomain (executorName : string) : M (world R) (result error unit) :=
  e ←? GetExecutorByName executorName;
  write_checked (λ t, t' ← insert_domain_executor 1 (e_ID e) t; Some (tt, t')).

Definition RemoveExecutorFromDomain (executorID domainID : Z) : M (world R) (result error unit) :=
  write (set_domain_executors (delete_where
    (λ de, (de_executor de =? executorID) && (de_domain de =? domainID)))).

Definition IsExecutorInDomain (executorID domainID : Z) : M (world R) (result error bool) :=
  n ←? select (λ t, count (λ de, (de_executor de =? executorID) && (de_domain de =? domainID))
                      (rows (domain_executors t)));
  mret (Ok (0 <? n)).

Definition name_le (e e' : Executor) : bool := String.leb (e_Name e) (e_Name e').

Definition GetDomainExecutors (domainID : Z) : M (world R) (result error (list Executor)) :=
  select (λ t, scan_executor <$> order_by name_le
    (e ← rows (executors t);
     (λ _, e) <$> where_ (λ de, (de_executor de =? e_ID e) && (de_domain de =? domainID))
                    (rows (domain_executors t)))).

Definition GetExecutorDomainCount (executorID : Z) : M (world R) (result error Z) :=
  select (λ t, count (λ de, de_executor de =? executorID) (rows (domain_executors t))).

Definition CanDomainAdminDeleteExecutor (executorID : Z) : M (world R) (result error bool) :=
  n ←? GetExecutorDomainCount executorID; mret (Ok (n <=? 1)).

Definition GetAssignedTasksForExecutor (executorID : Z) : M (world R) (result error Z) :=
  select (λ t, count (λ k, AssignedExecutorID k =? executorID) (rows (tasks t))).

Definition GetAssignedTaskNamesForExecutor (executorID : Z) : M (world R) (result error (list string)) :=
  select (λ t, order_by String.leb
    (t_Name <$> where_ (λ k, AssignedExecutorID k =? executorID) (rows (tasks t)))).

(** [model.ExecutorWithDomains]; a failing query for the domains leaves none. *)
Fixpoint with_domains (es : list Executor) :
    M (world R) (list (Executor * list Permission.Domain)) :=
  match es with
  | [] => mret []
  | e :: es =>
      ds ← GetExecutorDomains (e_ID e);
      rest ← with_domains es;
      mret ((e, match ds with Ok ds => ds | Err _ => [] end) :: rest)
  end.

Definition GetExecutorsWithDomains :
    M (world R) (result error (list (Executor * list Permission.Domain))) :=
  es ←? select (λ t, order_by name_le (rows (executors t)));
  r ← with_domains es; mret (Ok r).

Definition GetExecutorsByUserRole (isAdmin : bool) (userDomainID : Z) :
    M (world R) (result error (list (Executor * list Permission.Domain))) :=
  es ←? select (λ t, order_by name_le
          (if isAdmin then rows (executors t)
           else e ← rows (executors t);
                (λ _, e) <$> where_ (serves userDomainID e) (domain_rows t e)));
  r ← with_domains es; mret (Ok r).

(** ** Registration and heartbeats *)

(** [cleanupExecutorStaleTasks]: the renewals of an executor that restarts. *)
Definition cleanupExecutorStaleTasks (executorID : Z) : M (world R) unit :=
  o ← select (λ t, ExecutionID <$>
        where_ (λ x, bool_decide (x_Status x = "running") && (ExecutorID x =? executorID))
          (rows (executions t)));
  match o with
  | Err _ => mret tt
  | Ok ids =>
      match where_ (λ id, negb (bool_decide (id = ""))) ids with
      | [] => mret tt
      | ids => _ ← redis_del (id ← ids; [renewKey id; failCountKey id]); mret tt
      end
  end.

(** [updateExecutorMetrics] only sets gauges, after one query. *)
Definition updateExecutorMetrics : M (world R) unit := _ ← select_opt (λ _, tt); mret tt.

(** The guard of [RegisterExecutor]: another host took the name and is
    alive. *)
Definition duplicate (now : Z) (e : Executor) (address : string) : bool :=
  is_online e && negb (bool_decide (Address e = address)) &&
  negb (bool_decide (host_of (Address e) = host_of address)) &&
  heartbeat_after (now - 45 * Second) e.

Definition reregister (now capacity : Z) (address : string) (e : Executor) : Executor :=
  mkExecutor (e_ID e) (e_Name e) address "online" (Some now) capacity (CurrentLoad e) (IsGlobal e)
    (e_CreatedAt e) now.

(** [UNIQUE(name)] *)
Definition insert_executor (now capacity : Z) (name address : string) (t : tables) : option (Z * tables) :=
  if existsb (λ e, bool_decide (e_Name e = name)) (rows (executors t)) then None
  else let t' := set_executors (insert_row (λ id,
         mkExecutor id name address "online" (Some now) capacity 0 false now now)) t in
       Some (last_id (executors t'), t').

Definition RegisterExecutor (name address : string) (capacity : Z) : M (world R) (result error string) :=
  now ← gets clock;
  existing ← GetExecutorByName name;
  match existing with
  | Ok e =>
      if duplicate now e address then mret (Err (ErrExecutorDuplicate name (Address e)))
      else
        _ ← (if 0 <? e_ID e then cleanupExecutorStaleTasks (e_ID e) else mret tt);
        _ ←? write (set_executors (update_where (λ e, bool_decide (e_Name e = name))
               (reregister now capacity address)));
        _ ← updateExecutorMetrics;
        mret (Ok name)
  | Err _ =>
      id ←? write_checked (insert_executor now capacity name address);
      _ ← (if 0 <? id then _ ← AssignExecutorToDefaultDomain name; mret tt else mret tt);
      _ ← updateExecutorMetrics;
      mret (Ok name)
  end.

Definition set_executor_status (now : Z) (status : string) (e : Executor) : Executor :=
  mkExecutor (e_ID e) (e_Name e) (Address e) status (LastHeartbeat e) (Capacity e)
    (CurrentLoad e) (IsGlobal e) (e_CreatedAt e) now.
Definition set_executor_capacity (now capacity : Z) (e : Executor) : Executor :=
  mkExecutor (e_ID e) (e_Name e) (Address e) (e_Status e) (LastHeartbeat e) capacity
    (CurrentLoad e) (IsGlobal e) (e_CreatedAt e) now.
Definition beat (now load : Z) (e : Executor) : Executor :=
  mkExecutor (e_ID e) (e_Name e) (Address e) (e_Status e) (Some now) (Capacity e)
    load (IsGlobal e) (e_CreatedAt e) now.

Definition DeleteExecutor (id : Z) : M (world R) (result error unit) :=
  write (set_executors (delete_where (λ e, e_ID e =? id))).
Definition DeleteExecutorByName (name : string) : M (world R) (result error unit) :=
  write (set_executors (delete_where (λ e, bool_decide (e_Name e = name)))).

Definition SetExecutorStatusByName (name status : string) : M (world R) (result error unit) :=
  now ← gets clock;
  _ ←? write (set_executors (update_where (λ e, bool_decide (e_Name e = name))
         (set_executor_status now status)));
  _ ← updateExecutorMetrics; mret (Ok tt).
Definition SetExecutorStatus (id : Z) (status : string) : M (world R) (result error unit) :=
  now ← gets clock;
  write (set_executors (update_where (λ e, e_ID e =? id) (set_executor_status now status))).

Definition capacityKey (suffix : string) : string := "executor:target_capacity:" +:+ suffix.

Definition UpdateExecutorCapacityByName (name : string) (capacity : Z) : M (world R) (result error unit) :=
  if capacity <=? 0 then mret (Err ErrCapacityNotPositive)
  else
    now ← gets clock;
    _ ←? write (set_executors (update_where (λ e, bool_decide (e_Name e = name))
           (set_executor_capacity now capacity)));
    _ ← redis_set now (capacityKey name) (VInt capacity) 0;
    mret (Ok tt).
Definition UpdateExecutorCapacity (id capacity : Z) : M (world R) (result error unit) :=
  if capacity <=? 0 then mret (Err ErrCapacityNotPositive)
  else
    now ← gets clock;
    _ ←? write (set_executors (update_where (λ e, e_ID e =? id) (set_executor_capacity now capacity)));
    _ ← redis_set now (capacityKey (fmt_d id)) (VInt capacity) 0;
    mret (Ok tt).

Definition GetExecutorTargetCapacity (name : string) : M (world R) (result error Z) :=
  now ← gets clock;
  o ← redis_call (λ r, (GET now (capacityKey name) r ≫= λ v, as_int (Some v), r));
  match o ≫= id with
  | Some val => mret (Ok (int32 val))
  | None => e ←? GetExecutorByName name; mret (Ok (int32 (Capacity e)))
  end.

(** ** Lists *)

(** The clamping of the page size. *)
Definition page_size (pageSize : Z) : Z :=
  let n := if pageSize <=? 0 then 20 else pageSize in if 100 <? n then 100 else n.
Definition ListExecutors (page pageSize : Z) : M (world R) (result error (list Executor * Z)) :=
  let pageSize := page_size pageSize in
  let page := if page <=? 0 then 1 else page in
  total ←? select (λ t, Z.of_nat (length (rows (executors t))));
  es ←? select (λ t, scan_executor <$> page_of page pageSize
          (order_by (λ e e', e_CreatedAt e' <=? e_CreatedAt e) (rows (executors t))));
  mret (Ok (es, total)).

Definition ListExecutorsByDomain (domainID : Z) : M (world R) (result error (list Executor)) :=
  select (λ t, scan_executor <$> order_by (λ e e', CurrentLoad e <=? CurrentLoad e')
    (e ← where_ is_online (rows (executors t));
     (λ _, e) <$> where_ (serves domainID e) (domain_rows t e))).
End executor_service.

(** ** Properties *)

(** What a caller of [SelectAvailableExecutor] may rely on. *)
Definition available {R} (w : world R) (domainID : Z) (e : Executor) : Prop :=
  e ∈ rows (executors (tabs w)) ∧ e_Status e = "online" ∧ CurrentLoad e < Capacity e ∧
  (∃ h, LastHeartbeat e = Some h ∧ clock w - h < 45 * Second) ∧
  (domainID ≤ 0 ∨ IsGlobal e = true ∨
   mkDomainExecutor domainID (e_ID e) ∈ rows (domain_executors (tabs w))).

Lemma eligible_iff now e :
  eligible now e = true ↔ e_Status e = "online" ∧ CurrentLoad e < Capacity e ∧
    ∃ h, LastHeartbeat e = Some h ∧ now - h < 45 * Second.
Proof.
  unfold eligible, is_online, heartbeat_after.
  rewrite !andb_true_iff, bool_decide_eq_true, Z.ltb_lt.
  destruct (LastHeartbeat e) as [h|].
  - rewrite Z.ltb_lt. split.
    + intros [[? ?] ?]. repeat split; [done..|]. exists h. split; [done|lia].
    + intros (? & ? & h' & [= ->] & ?). repeat split; [done..|lia].
  - split; [intros [_ [=]]|intros (_ & _ & h & [=] & _)].
Qed.

Lemma serves_iff t domainID e :
  (∃ de, de ∈ domain_rows t e ∧ serves domainID e de = true) ↔
  IsGlobal e = true ∨ mkDomainExecutor domainID (e_ID e) ∈ rows (domain_executors t).
Proof.
  assert (∀ de, de ∈ domain_rows t e ↔
     match de with
     | Some de => de ∈ rows (domain_executors t) ∧ de_executor de = e_ID e
     | None => where_ (λ de, de_executor de =? e_ID e) (rows (domain_executors t)) = []
     end) as Hrows.
  { intros de. unfold domain_rows.
    destruct (where_ _ _) as [|d ds] eqn:E.
    - destruct de as [de|]; [|by rewrite list_elem_of_singleton].
      rewrite list_elem_of_singleton. split; [done|]. intros [Hin Hid].
      assert (de ∈ where_ (λ de, de_executor de =? e_ID e) (rows (domain_executors t))) as Hw
        by (apply elem_of_where; split; [done|lia]).
      rewrite E in Hw. by apply not_elem_of_nil in Hw.
    - rewrite <- E. destruct de as [de|].
      + rewrite list_elem_of_fmap. split.
        * intros (y & [= ->] & [Hy Hid]%elem_of_where). split; [done|lia].
        * intros [Hin Hid]. exists de. split; [done|]. apply elem_of_where. split; [done|lia].
      + rewrite E. split; [|done]. rewrite list_elem_of_fmap. intros (y & [=] & _). }
  split.
  - intros ([de|] & Hin & Hs); apply Hrows in Hin; unfold serves in Hs.
    + apply orb_true_iff in Hs as [Hd|Hg]; [right|by left].
      destruct de as [d i], Hin as [Hin Hi]; simpl in *. apply Z.eqb_eq in Hd. by subst.
    + by left.
  - intros [Hg|Hin].
    + assert (∃ de, de ∈ domain_rows t e) as [de Hde].
      { unfold domain_rows. destruct (where_ _ _) as [|d ds]; [exists None|exists (Some d)]; simpl; by left. }
      exists de. split; [done|]. unfold serves. rewrite Hg. by rewrite orb_true_r.
    + exists (Some (mkDomainExecutor domainID (e_ID e))). split; [by apply Hrows|].
      unfold serves. simpl. by rewrite Z.eqb_refl.
Qed.

Lemma elem_of_candidates {R} (w : world R) domainID e :
  e ∈ candidates (clock w) domainID (tabs w) ↔ available w domainID e.
Proof.
  unfold available, candidates. destruct (Z.ltb_spec 0 domainID) as [Hd|Hd].
  - rewrite list_elem_of_bind. setoid_rewrite list_elem_of_fmap.
    setoid_rewrite elem_of_where. split.
    + intros (e' & (de & -> & Hde) & Hin & Hel).
      apply eligible_iff in Hel as (? & ? & ?). repeat split; [done..|]. right.
      apply serves_iff. eauto.
    + intros (Hin & ? & ? & ? & [?|Hs]); [lia|]. apply serves_iff in Hs as (de & ? & ?).
      exists e. split; [by exists de|]. split; [done|]. by apply eligible_iff.
  - rewrite elem_of_where, eligible_iff. intuition.
Qed.

Lemma min_load_spec es m :
  min_load es = Some m → (∃ e, e ∈ es ∧ CurrentLoad e = m) ∧ ∀ e, e ∈ es → m ≤ CurrentLoad e.
Proof.
  destruct es as [|e es]; [done|]. intros [= <-].
  generalize e. clear e. induction es as [|e1 es IH]; intros e; simpl.
  - split; [exists e; split; [by left|done]|]. intros e1 ->%list_elem_of_singleton. lia.
  - set (e2 := if CurrentLoad e <=? CurrentLoad e1 then e else e1).
    assert (Z.min (CurrentLoad e) (CurrentLoad e1) = CurrentLoad e2) as ->
      by (unfold e2; destruct (Z.leb_spec (CurrentLoad e) (CurrentLoad e1)); lia).
    destruct (IH e2) as [(e3 & Hin & Heq) Hmin]. split.
    + exists e3. split; [|done]. apply elem_of_cons in Hin as [->|Hin]; [|set_solver].
      unfold e2. destruct (_ <=? _); set_solver.
    + intros e4 Hin4. assert (CurrentLoad e2 ≤ CurrentLoad e ∧ CurrentLoad e2 ≤ CurrentLoad e1) as Hle
        by (unfold e2; destruct (Z.leb_spec (CurrentLoad e) (CurrentLoad e1)); lia).
      pose proof (Hmin e2 ltac:(by left)).
      apply elem_of_cons in Hin4 as [->|Hin4]; [lia|].
      apply elem_of_cons in Hin4 as [->|Hin4]; [lia|]. apply Hmin. by right.
Qed.

Lemma pick_spec rand es :
  match pick rand es with
  | Some e => e ∈ es ∧ ∀ e', e' ∈ es → CurrentLoad e ≤ CurrentLoad e'
  | None => es = []
  end.
Proof.
  unfold pick, least_loaded. destruct (min_load es) as [m|] eqn:Em.
  - apply min_load_spec in Em as [(e & Hin & Hm) Hmin].
    assert (e ∈ where_ (λ e, CurrentLoad e =? m) es) as Hw by (apply elem_of_where; split; [done|lia]).
    destruct (where_ _ es !! _) as [e'|] eqn:E.
    + apply list_elem_of_lookup_2, elem_of_where in E as [Hin' Hm']. split; [done|].
      intros e'' Hin''. specialize (Hmin e'' Hin''). lia.
    + exfalso. apply lookup_ge_None_1 in E.
      destruct (where_ _ es) as [|x l]; [by apply not_elem_of_nil in Hw|].
      pose proof (Nat.mod_upper_bound rand (length (x :: l)) ltac:(done)). simpl in *. lia.
  - by destruct es.
Qed.

(** C8: [SelectAvailableExecutor] leaves the world alone and, whatever calls
    fail, an executor it returns is online, below its capacity, alive within
    45 seconds, serves the domain, and carries the least load of all such
    executors; it reports that there is none only when there is none. *)
Theorem SelectAvailableExecutor_least_loaded `{Redis R} cfg domainID (w : world R) fs :
  let '(r, w') := run (SelectAvailableExecutor cfg domainID) w fs in
  w' = w ∧
  match r with
  | Ok e => ∃ e0, e = scan_executor e0 ∧ available w domainID e0 ∧
                  ∀ e1, available w domainID e1 → CurrentLoad e0 ≤ CurrentLoad e1
  | Err ErrNoAvailableExecutor => ∀ e, ¬ available w domainID e
  | Err err => err = ErrDB ∧ fs ≠ []
  end.
Proof.
  pose proof (pick_spec (rand cfg) (candidates (clock w) domainID (tabs w))) as Hp.
  unfold SelectAvailableExecutor, run. rewrite run_bind, run_gets, run_bind_ok.
  unfold select, or_err, query. rewrite run_bind. unfold call.
  destruct fs as [|[] fs]; simpl; (split; [done|]); try (split; [done|done]);
    destruct (pick _ _) as [e|]; simpl.
  1,3: exists e; split; [done|]; split; [by apply elem_of_candidates, Hp|];
       intros e1 He1; apply Hp, elem_of_candidates, He1.
  all: intros e He; apply elem_of_candidates in He; rewrite Hp in He; by apply not_elem_of_nil in He.
Qed.

(** a host cannot take over the name of an executor that is online on
    another host with a heartbeat in the last 45 seconds: whatever calls fail,
    the registration is rejected and nothing changes.  When the look-up fails,
    the uniqueness of names makes the insertion fail. *)
Theorem RegisterExecutor_no_takeover `{Redis R} name address capacity (w : world R) e0 h fs
    (Hrow : head (where_ (λ e, bool_decide (e_Name e = name)) (rows (executors (tabs w)))) = Some e0)
    (Honline : e_Status e0 = "online")
    (Hhost : host_of (Address e0) ≠ host_of address)
    (Hbeat : LastHeartbeat e0 = Some h) (Halive : clock w - h < 45 * Second) :
  let '(r, w') := run (RegisterExecutor name address capacity) w fs in
  w' = w ∧ (fs = [] → r = Err (ErrExecutorDuplicate name (Address e0))) ∧ ∀ name', r ≠ Ok name'.
Proof.
  assert (duplicate (clock w) (scan_executor10 e0) address = true) as Hdup.
  { unfold duplicate, is_online, heartbeat_after. simpl. rewrite Hbeat, Honline.
    rewrite (bool_decide_eq_true_2 ("online" = "online")) by done. rewrite !bool_decide_eq_false_2 by congruence. simpl. apply Z.ltb_lt. lia. }
  assert (insert_executor (clock w) capacity name address (tabs w) = None) as Hins.
  { unfold insert_executor. replace (existsb _ _) with true; [done|]. symmetry.
    apply existsb_elem_of. exists e0.
    assert (e0 ∈ where_ (λ e, bool_decide (e_Name e = name)) (rows (executors (tabs w)))) as Hin
      by (destruct (where_ _ _); [done|]; simplify_eq/=; by left).
    by apply elem_of_where in Hin. }
  unfold RegisterExecutor, GetExecutorByName, run.
  rewrite run_bind, run_gets, run_bind, run_bind_ok.
  unfold select, write_checked, or_err, query, exec_checked. rewrite run_bind. unfold call at 1.
  destruct fs as [|[] fs]; simpl; rewrite ?Hrow; simpl; rewrite ?Hdup.
  1,2: done.
  all: rewrite run_bind_ok, !run_bind; unfold call;
    destruct fs as [|[] fs]; simpl; rewrite ?Hins; done.
Qed.

Lemma insert_domain_executors_present d i ids t :
  mkDomainExecutor d i ∈ rows (domain_executors t) → d ∈ ids → insert_domain_executors ids i t = None.
Proof.
  revert t. induction ids as [|d' ids IH]; intros t Hin Hdup; [by apply not_elem_of_nil in Hdup|].
  simpl. unfold insert_domain_executor. destruct (existsb _ _) eqn:E; [done|]. simpl.
  apply elem_of_cons in Hdup as [<-|Hdup].
  - rewrite existsb_false_iff in E. specialize (E _ Hin). simpl in E. by rewrite !Z.eqb_refl in E.
  - apply IH; [|done]. simpl. apply elem_of_app. by left.
Qed.

Lemma insert_domain_executors_spec ids i t :
  (∀ d, mkDomainExecutor d i ∈ rows (domain_executors t) → d ∉ ids) →
  match insert_domain_executors ids i t with
  | Some t' => NoDup ids ∧ executors t' = executors t ∧
               ∀ de, de ∈ rows (domain_executors t') ↔
                     de ∈ rows (domain_executors t) ∨ (de_executor de = i ∧ de_domain de ∈ ids)
  | None => ¬ NoDup ids
  end.
Proof.
  revert t. induction ids as [|d ids IH]; intros t Hfresh; simpl.
  { split; [apply NoDup_nil_2|]. split; [done|]. intros de. set_solver. }
  unfold insert_domain_executor. destruct (existsb _ _) eqn:E; simpl.
  { apply existsb_elem_of in E as ([d' i'] & Hin & [Hd Hi]%andb_true_iff). simpl in *.
    apply Z.eqb_eq in Hd, Hi. subst. by destruct (Hfresh d Hin ltac:(by left)). }
  set (t1 := set_domain_executors _ t).
  assert (∀ de, de ∈ rows (domain_executors t1) ↔
     de ∈ rows (domain_executors t) ∨ de = mkDomainExecutor d i) as Ht1
    by (intros de; unfold t1; simpl; rewrite elem_of_app, list_elem_of_singleton; done).
  destruct (decide (d ∈ ids)) as [Hdup|Hnew].
  - rewrite (insert_domain_executors_present d i ids t1); [by intros [? _]%NoDup_cons| |done].
    apply Ht1. by right.
  - specialize (IH t1). destruct (insert_domain_executors ids i t1) as [t'|].
    + destruct IH as (Hnd & He & Hin).
      { intros d' [Hd'|[= ->]]%Ht1 Hin'; [|done]. apply (Hfresh d' Hd'). by right. }
      split; [by apply NoDup_cons|]. split; [done|]. intros de. rewrite Hin, Ht1.
      destruct de as [d' i']. simpl. set_solver.
    + intros [_ Hnd]%NoDup_cons. apply IH; [|done].
      intros d' [Hd'|[= ->]]%Ht1 Hin'; [|done]. apply (Hfresh d' Hd'). by right.
Qed.

(** [AssignExecutorToDomains] replaces the domains of one executor and
    leaves those of the others; the executor is global exactly when the list
    is empty.  A repeated domain makes the insertion fail after the old
    domains were deleted: the executor is left without any. *)
Theorem AssignExecutorToDomains_result `{Redis R} i ids (w : world R) :
  let '(r, w') := run (AssignExecutorToDomains i ids) w [] in
  (∀ de, de_executor de ≠ i →
     de ∈ rows (domain_executors (tabs w')) ↔ de ∈ rows (domain_executors (tabs w))) ∧
  (NoDup ids → r = Ok tt ∧
     (∀ d, mkDomainExecutor d i ∈ rows (domain_executors (tabs w')) ↔ d ∈ ids) ∧
     ∀ e, e ∈ rows (executors (tabs w')) → e_ID e = i → IsGlobal e = bool_decide (ids = [])) ∧
  (¬ NoDup ids → r = Err ErrDB ∧
     (∀ d, mkDomainExecutor d i ∉ rows (domain_executors (tabs w'))) ∧
     executors (tabs w') = executors (tabs w)).
Proof.
  set (t0 := set_domain_executors (delete_where (λ de, de_executor de =? i)) (tabs w)).
  assert (∀ de, de ∈ rows (domain_executors t0) ↔
      de ∈ rows (domain_executors (tabs w)) ∧ de_executor de ≠ i) as Ht0.
  { intros de. unfold t0. simpl. rewrite elem_of_where, negb_true_iff, Z.eqb_neq. done. }
  assert (∀ b t e, e ∈ rows (executors (set_executors (update_where (λ e, e_ID e =? i)
      (set_executor_global b)) t)) → e_ID e = i → IsGlobal e = b) as Hglobal.
  { intros b t e. simpl. rewrite list_elem_of_fmap. intros (e1 & -> & _).
    destruct (Z.eqb_spec (e_ID e1) i); [done|]. intros ?. contradiction. }
  pose proof (insert_domain_executors_spec ids i t0) as Hspec.
  unfold AssignExecutorToDomains, run. rewrite run_bind_ok, run_write, run_bind_ok.
  destruct ids as [|d ids].
  - clear Hspec. simpl in *. split; [intros de Hne; rewrite Ht0; tauto|]. split; [|intros Hn; destruct Hn; apply NoDup_nil_2].
    intros _. split; [done|]. split; [|intros e; apply Hglobal].
    intros d. split; [|by intros ?%not_elem_of_nil]. by intros [_ []]%Ht0.
  - rewrite run_write_checked. simpl tabs. fold t0.
    destruct (insert_domain_executors (d :: ids) i t0) as [t'|]; simpl.
    + destruct Hspec as (Hnd & He & Hin); [by intros d' [_ []]%Ht0|].
      split; [intros de Hne; rewrite Hin, Ht0; tauto|]. split; [|done].
      intros _. split; [done|]. split; [|intros e; apply Hglobal].
      intros d'. rewrite Hin, Ht0. simpl. tauto.
    + assert (¬ NoDup (d :: ids)) as Hnd by (apply Hspec; by intros d' [_ []]%Ht0).
      clear Hspec. simpl in Ht0.
      split; [intros de Hne; rewrite Ht0; tauto|]. split; [done|].
      intros _. split; [done|]. split; [|done]. by intros d' [_ []]%Ht0.
Qed.

Definition alive_executor : Executor :=
  mkExecutor 1 "exec-a" "10.0.0.1:50051#7" "online" (Some 0) 4 0 false 0 0.
Definition demo_world : world gmap_store :=
  mkWorld (mkTables (mkTable [] 0) (mkTable [] 0) (mkTable [alive_executor] 1) (mkTable [] 0)
    (mkTable [] 0) (mkTable [] 0) (mkTable [] 0)) ∅ Second true (mkEffects [] [] [] [] []).

Example RegisterExecutor_no_takeover_witness :
  let '(r, w') := run (RegisterExecutor "exec-a" "10.0.0.2:50051#9" 8) demo_world [Lost] in
  w' = demo_world ∧
  ([Lost] = [] → r = Err (ErrExecutorDuplicate "exec-a" "10.0.0.1:50051#7")) ∧ ∀ name', r ≠ Ok name'.
Proof.
  exact (RegisterExecutor_no_takeover "exec-a" "10.0.0.2:50051#9" 8 demo_world alive_executor 0 [Lost]
           eq_refl eq_refl ltac:(vm_compute; discriminate) eq_refl ltac:(vm_compute; reflexivity)).
Defined.
