(* ===== verification/Execution.v ===== *)
(** * Tasks and their executions

    [src/scheduler/internal/service/task_service.go],
    [execution_service.go] and the webhook part of [scheduler_core.go]:
    dispatching a task to an executor under its Redis lock, triggering,
    retrying after a failure, recording results and logs, cancelling and
    deleting executions.

    A handler runs on the [world]; a goroutine it starts is appended to
    [spawned] and is run later by [run_job], as a step of its own. *)
From Stdlib Require Import Ascii.
From S2P Require Import Prelude Redis Sql World Executor.
From S2P Require Permission.

(** ** Reading *)

(** [scanTaskResult]: the three numbers are cut to 32 bits. *)
Definition scan_task (t : Task) : Task :=
  mkTask (t_ID t) (t_Name t) (t_Type t) (t_Config t) (CronExpression t)
    (int32 (TimeoutSeconds t)) (int32 (RetryCount t)) (int32 (RetryInterval t))
    (t_IsEnabled t) (t_Status t) (t_DomainID t) (WebhookID t) (WebhookEvents t)
    (AssignedExecutorID t) (CreatedBy t) (t_CreatedAt t) (t_UpdatedAt t).

(** [scanExecutionResult] on the fourteen-column queries, and the eleven
    columns [GetAllExecutions] reads. *)
Definition scan_execution (x : TaskExecution) : TaskExecution :=
  mkExecution (x_ID x) (x_TaskID x) (ExecutionID x) (ExecutorID x) (x_Status x) (StartTime x) (EndTime x)
    (Output x) (Error x) (int32 (RetryTimes x)) (x_CreatedAt x) (int32 (Progress x)) (ProgressMsg x)
    (x_UpdatedAt x).
Definition scan_execution11 (x : TaskExecution) : TaskExecution :=
  mkExecution (x_ID x) (x_TaskID x) (ExecutionID x) (ExecutorID x) (x_Status x) (StartTime x) (EndTime x)
    (Output x) (Error x) (int32 (RetryTimes x)) (x_CreatedAt x) 0 "" zero_time.

(** A task with the two computed fields of [model.Task]; the creator's name
    is not modelled. *)
Record TaskInfo : Type := mkTaskInfo {
  info : Task; NextExecutionTime : string; LastExecutionStatus : string;
}.

Definition newest_first (x y : TaskExecution) : bool := x_CreatedAt y <=? x_CreatedAt x.

(** [SELECT ... WHERE status = 'running' ...] *)
Definition is_running (x : TaskExecution) : bool := bool_decide (x_Status x = "running").

(** The prefix of a decimal number, as [fmt.Sscanf(s, "%d", &n)] reads it; 0
    when there is none. *)
Fixpoint digits (s : string) (n : Z) : Z :=
  match s with
  | String c s' =>
      let d := Z.of_N (Ascii.N_of_ascii c) - 48 in
      if (0 <=? d) && (d <=? 9) then digits s' (n * 10 + d) else n
  | EmptyString => n
  end.
Definition sscanf_d (s : string) : Z :=
  match s with
  | String "-"%char s' => - digits s' 0
  | String "+"%char s' => digits s' 0
  | _ => digits s 0
  end.

(** A stored renewal time: the scheduler writes a number. *)
Definition renew_of (v : rval) : option Z :=
  match v with
  | VInt n => Some n
  | VStr "" => None
  | VStr s => Some (sscanf_d s)
  | VHash _ => None
  end.

Section execution_service.
Context `{Redis R}.
Variable cfg : env.

Definition CalculateNextExecutionTime (cronExpr : string) (isEnabled : bool) : string :=
  if bool_decide (cronExpr = "") || negb isEnabled then "" else next_time cfg cronExpr.

Definition getLastExecutionStatus (taskID : Z) : M (world R) string :=
  o ← select_opt (λ t, x_Status <$>
        head (order_by newest_first (where_ (λ x, x_TaskID x =? taskID) (rows (executions t)))));
  mret (default "" (o ≫= id)).

Definition with_status (t : Task) : M (world R) TaskInfo :=
  status ← getLastExecutionStatus (t_ID t);
  mret (mkTaskInfo t (CalculateNextExecutionTime (CronExpression t) (t_IsEnabled t)) status).

Definition GetTaskByID (id : Z) : M (world R) (result error TaskInfo) :=
  o ←? select (λ t, scan_task <$> head (where_ (λ k, t_ID k =? id) (rows (tasks t))));
  match o with
  | None => mret (Err ErrTaskNotFound)
  | Some t => i ← with_status t; mret (Ok i)
  end.

Definition GetTaskInfoByID (id : Z) : M (world R) (result error TaskInfo) := GetTaskByID id.

(** [lastRenewStr, err := s.redis.Get(ctx, renewKey).Result()], [None] when
    there is an error or nothing stored. *)
Definition get_renewal (now : Z) (executionID : string) : M (world R) (option Z) :=
  o ← redis_call (λ r, (GET now (renewKey executionID) r ≫= renew_of, r));
  mret (o ≫= id).

(** ** Webhooks *)

(** [end_time - start_time] in milliseconds, 0 when one is missing. *)
Definition getExecutionDurationFromDB (executionID : string) : M (world R) Z :=
  o ← select_opt (λ t, head (where_ (λ x, bool_decide (ExecutionID x = executionID)) (rows (executions t))));
  mret match o ≫= id with
       | Some x =>
           match StartTime x, EndTime x with
           | Some s, Some e => if e - s <? 0 then 0 else (e - s) / 1000000
           | _, _ => 0
           end
       | None => 0
       end.

Definition event_of (status : string) : string :=
  if bool_decide (status = "failed") then "failed"
  else if bool_decide (status = "skipped") then "skipped"
  else "success".

Definition event_matches (event : string) (events : list string) : bool :=
  match events with
  | [] => true
  | _ => existsb (λ e, bool_decide (e = event) || bool_decide (e = "*")) events
  end.

Definition SendWebhookNotification (taskID : Z) (executionID status output errorMsg : string)
    (durationMs : Z) : M (world R) unit :=
  if has_webhooks cfg then
    durationMs ← (if durationMs <=? 0 then getExecutionDurationFromDB executionID else mret durationMs);
    t ← GetTaskByID taskID;
    match t with
    | Ok i =>
        match WebhookID (info i) with
        | None => mret tt
        | Some whID =>
            wh ← select_opt (λ t, head (where_ (λ w, w_ID w =? whID) (rows (webhooks t))));
            match wh ≫= id with
            | Some wh =>
                if w_IsEnabled wh && event_matches (event_of status) (WebhookEvents (info i)) then
                  effect (deliver (mkDelivery (w_URL wh) (event_of status) taskID executionID
                                     output errorMsg durationMs))
                else mret tt
            | None => mret tt
            end
        end
    | Err _ => mret tt
    end
  else mret tt.

(** ** Results and logs *)

Definition terminal (status : string) : bool := in_list status ["success"; "failed"; "timeout"].

Definition set_result (status output errorMsg : string) (startTime endTime : Z) (x : TaskExecution) :
    TaskExecution :=
  mkExecution (x_ID x) (x_TaskID x) (ExecutionID x) (ExecutorID x) status
    (match StartTime x with None => Some startTime | Some s => Some s end)
    (if terminal status then Some endTime else EndTime x)
    output errorMsg (RetryTimes x) (x_CreatedAt x) (Progress x) (ProgressMsg x) (x_UpdatedAt x).

(** [timeRange] in Unix seconds, as an executor reports it. *)
Definition UpdateExecutionResult (executionID status output errorMsg : string)
    (timeRange : option (Z * Z)) : M (world R) (result error unit) :=
  now ← gets clock;
  let '(startTime, endTime) :=
    match timeRange with
    | Some (s, e) => if (0 <? s) && (0 <? e) && (s <=? e) then (s * Second, e * Second) else (now, now)
    | None => (now, now)
    end in
  _ ←? write (set_executions (update_where (λ x, bool_decide (ExecutionID x = executionID))
         (set_result status output errorMsg startTime endTime)));
  _ ← redis_del [lockKey executionID; renewKey executionID; failCountKey executionID];
  mret (Ok tt).

Definition set_progress (now progress : Z) (msg : string) (x : TaskExecution) : TaskExecution :=
  mkExecution (x_ID x) (x_TaskID x) (ExecutionID x) (ExecutorID x) (x_Status x) (StartTime x) (EndTime x)
    (Output x) (Error x) (RetryTimes x) (x_CreatedAt x) progress msg now.

Definition UpdateTaskProgress (executionID : string) (progress : Z) (progressMsg : string) :
    M (world R) (result error unit) :=
  now ← gets clock;
  write (set_executions (update_where (λ x, bool_decide (ExecutionID x = executionID))
    (set_progress now progress progressMsg))).

(** [fmt.Sprintf("%x", []byte(s))] *)
Definition hex_digit (n : N) : ascii := Ascii.ascii_of_N (if (n <? 10)%N then 48 + n else 87 + n)%N.
Fixpoint hex (s : string) : string :=
  match s with
  | EmptyString => EmptyString
  | String c s =>
      let n := Ascii.N_of_ascii c in String (hex_digit (n / 16)) (String (hex_digit (n mod 16)) (hex s))
  end.

Definition dedupKey (executionID nodeID logLevel message : string) : string :=
  "task:log:dedup:" +:+ hex (executionID +:+ "-" +:+ nodeID +:+ "-" +:+ logLevel +:+ "-" +:+ message).

Definition insert_log (executionID : string) (taskID executorID : Z) (nodeID logLevel message : string)
    (now : Z) : tables → tables :=
  set_task_logs (insert_row (λ id, mkTaskLog id executionID taskID executorID nodeID logLevel message now)).

Definition append_output (logLevel message : string) (x : TaskExecution) : TaskExecution :=
  mkExecution (x_ID x) (x_TaskID x) (ExecutionID x) (ExecutorID x) (x_Status x) (StartTime x) (EndTime x)
    (if bool_decide (logLevel = "stdout") then Output x +:+ message else Output x)
    (if bool_decide (logLevel = "stdout") then Error x else Error x +:+ message)
    (RetryTimes x) (x_CreatedAt x) (Progress x) (ProgressMsg x) (x_UpdatedAt x).

Definition AddTaskLog (executionID : string) (taskID : Z) (nodeID logLevel message : string) :
    M (world R) (result error unit) :=
  now ← gets clock;
  o ← select_opt (λ t, ExecutorID <$>
        head (where_ (λ x, bool_decide (ExecutionID x = executionID)) (rows (executions t))));
  let executorID := match o ≫= id with Some n => if 0 <? n then n else 0 | None => 0 end in
  let key := dedupKey executionID nodeID logLevel message in
  exists_ ← redis_exists now key;
  if default false exists_ then mret (Ok tt)
  else
    _ ← redis_set now key (VStr "1") (30 * Second);
    first ← write (insert_log executionID taskID executorID nodeID logLevel message now);
    _ ←? match first with
         | Ok _ => mret (Ok tt)
         | Err _ => write (insert_log executionID taskID 0 nodeID logLevel message now)
         end;
    _ ← (if in_list logLevel ["stdout"; "stderr"]
         then write (set_executions (update_where (λ x, bool_decide (ExecutionID x = executionID))
                (append_output logLevel message)))
         else mret (Ok tt));
    mret (Ok tt).

Definition addRecoveryLogSafe (executionID : string) (taskID : Z) (logLevel message : string) :
    M (world R) (result error unit) :=
  now ← gets clock;
  let key := "task:log:dedup:" +:+ executionID +:+ ":recovery:" +:+ fmt_d (unix now / 300) in
  exists_ ← redis_exists now key;
  if default false exists_ then mret (Ok tt)
  else
    _ ← redis_set now key (VStr "1") (10 * Minute);
    AddTaskLog executionID taskID "" logLevel message.

Definition touch_task (now : Z) (t : Task) : Task :=
  mkTask (t_ID t) (t_Name t) (t_Type t) (t_Config t) (CronExpression t) (TimeoutSeconds t) (RetryCount t)
    (RetryInterval t) (t_IsEnabled t) (t_Status t) (t_DomainID t) (WebhookID t) (WebhookEvents t)
    (AssignedExecutorID t) (CreatedBy t) (t_CreatedAt t) now.
Definition set_task_status (now : Z) (status : string) (t : Task) : Task :=
  mkTask (t_ID t) (t_Name t) (t_Type t) (t_Config t) (CronExpression t) (TimeoutSeconds t) (RetryCount t)
    (RetryInterval t) (t_IsEnabled t) status (t_DomainID t) (WebhookID t) (WebhookEvents t)
    (AssignedExecutorID t) (CreatedBy t) (t_CreatedAt t) now.

(** The status of a cron task is left alone. *)
Definition UpdateTaskStatusByID (taskID : Z) (status : string) : M (world R) (result error unit) :=
  now ← gets clock;
  t ← GetTaskByID taskID;
  let is_cron := match t with Ok i => negb (bool_decide (CronExpression (info i) = "")) | Err _ => false end in
  write (set_tasks (update_where (λ k, t_ID k =? taskID)
    (if is_cron then touch_task now else set_task_status now status))).

(** ** Retries *)

Definition getRetryTimesForExecution (executionID : string) : M (world R) (result error Z) :=
  o ←? select (λ t, RetryTimes <$>
         head (where_ (λ x, bool_decide (ExecutionID x = executionID)) (rows (executions t))));
  mret match o with Some n => Ok n | None => Err (ErrExecutionMissing executionID) end.

(** Marking the task failed and telling its webhook. *)
Definition mark_failed (taskID : Z) (executionID output errorMsg : string) (durationMs : Z) :
    M (world R) unit :=
  _ ← UpdateTaskStatusByID taskID "failed";
  SendWebhookNotification taskID executionID "failed" output errorMsg durationMs.

Definition HandleTaskFailure (taskID : Z) (failedExecutionID output errorMsg : string) (durationMs : Z) :
    M (world R) (result error unit) :=
  let execDurationMs := if 0 <? durationMs then durationMs else 0 in
  let fail := mark_failed taskID failedExecutionID output errorMsg execDurationMs in
  now ← gets clock;
  t ← GetTaskByID taskID;
  match t with
  | Err e => _ ← fail; mret (Err e)
  | Ok i =>
      let maxRetries := RetryCount (info i) in
      if maxRetries <=? 0 then _ ← fail; mret (Ok tt)
      else
        set ← redis_call (SETNX now (retryLockKey taskID) (VStr "locked") (30 * Minute));
        if negb (default true set) then mret (Ok tt)
        else
          n ← getRetryTimesForExecution failedExecutionID;
          match n with
          | Err e => _ ← redis_del [retryLockKey taskID]; _ ← fail; mret (Err e)
          | Ok currentRetryTimes =>
              if currentRetryTimes <? maxRetries then
                _ ← effect (spawn (RetryJob taskID failedExecutionID output (currentRetryTimes + 1)
                                     execDurationMs (now + RetryInterval (info i) * Second)));
                mret (Ok tt)
              else _ ← redis_del [retryLockKey taskID]; _ ← fail; mret (Ok tt)
          end
  end.

(** ** Dispatch *)

(** The time a task lock lives: twice the timeout, within one minute and two
    hours; one hour without timeout. *)
Definition dispatch_lockTTL (timeoutSeconds : Z) : Z :=
  let ttl := int64 (int64 (timeoutSeconds * 2) * Second) in
  let ttl := if ttl <? 60 * Second then 60 * Second else ttl in
  let ttl := if 7200 * Second <? ttl then 7200 * Second else ttl in
  if timeoutSeconds =? 0 then 3600 * Second else ttl.

(** [time.Duration(lockTTL) * time.Second], with [lockTTL] a duration. *)
Definition renew_ttl (lockTTL : Z) : Z := int64 (lockTTL * Second).

Definition insert_execution (taskID : Z) (executionID status error : string) (retryTimes now : Z)
    (t : tables) : option (unit * tables) :=
  if existsb (λ x, bool_decide (ExecutionID x = executionID)) (rows (executions t)) then None
  else Some (tt, set_executions (insert_row (λ id,
         mkExecution id taskID executionID 0 status (Some now) None "" error retryTimes now 0 "" now)) t).

Definition set_executor (executorID : Z) (x : TaskExecution) : TaskExecution :=
  mkExecution (x_ID x) (x_TaskID x) (ExecutionID x) executorID (x_Status x) (StartTime x) (EndTime x)
    (Output x) (Error x) (RetryTimes x) (x_CreatedAt x) (Progress x) (ProgressMsg x) (x_UpdatedAt x).

(** The block every failure of [dispatchTaskExecution] runs. *)
Definition fail_dispatch (taskID : Z) (executionID errMsg : string) : M (world R) unit :=
  _ ← UpdateExecutionResult executionID "failed" "" errMsg None;
  _ ← UpdateTaskStatusByID taskID "failed";
  _ ← AddTaskLog executionID taskID "" "error" errMsg;
  _ ← SendWebhookNotification taskID executionID "failed" "" errMsg 0;
  _ ← redis_del [lockKey executionID];
  mret tt.

(** The executor of a task: the assigned one if it can take it, or the least
    loaded one of the domain.  An error carries the text for the record. *)
Definition choose_executor (task : Task) : M (world R) (result (string * error) Executor) :=
  if 0 <? AssignedExecutorID task then
    let id := AssignedExecutorID task in
    e ← GetExecutorByID id;
    match e with
    | Err err =>
        let prefix := "specified executor " +:+ fmt_d id +:+ " not found: " in
        mret (Err (prefix +:+ error_text cfg err, ErrWrap prefix err))
    | Ok e =>
        if negb (is_online e) then
          mret (Err ("specified executor " +:+ fmt_d id +:+ " is not online (status: " +:+ e_Status e +:+ ")",
                     ErrExecutorNotOnline id))
        else if Capacity e <=? CurrentLoad e then
          mret (Err ("specified executor " +:+ fmt_d id +:+ " has no capacity (load: " +:+
                     fmt_d (CurrentLoad e) +:+ "/" +:+ fmt_d (Capacity e) +:+ ")",
                     ErrExecutorNoCapacity id))
        else mret (Ok e)
    end
  else
    e ← SelectAvailableExecutor cfg (t_DomainID task);
    mret match e with
         | Ok e => Ok e
         | Err err => Err ("no available executor: " +:+ error_text cfg err,
                           ErrWrap "no available executor: " err)
         end.

Definition grpc_task (task : Task) (executionID : string) : pb_Task :=
  mkPbTask (t_ID task) executionID (t_Type task) (t_Config task) (TimeoutSeconds task)
    (RetryCount task) (RetryInterval task).

(** The second half: hand the task over and keep its renewal. *)
Definition send_task (task : Task) (executionID : string) (e : Executor) :
    M (world R) (string * option error) :=
  now ← gets clock;
  match dispatcher cfg with
  | None =>
      _ ← fail_dispatch (t_ID task) executionID "dispatcher not configured";
      mret (executionID, Some ErrDispatcherNotConfigured)
  | Some send =>
      _ ← write (set_executions (update_where (λ x, bool_decide (ExecutionID x = executionID))
            (set_executor (e_ID e))));
      match send (e_Name e) (grpc_task task executionID) with
      | Some text =>
          _ ← fail_dispatch (t_ID task) executionID ("dispatch failed: " +:+ text);
          mret (executionID, Some (ErrWrap "dispatch failed: " (ErrDispatch text)))
      | None =>
          _ ← effect (dispatch (e_Name e) (grpc_task task executionID));
          _ ← AddTaskLog executionID (t_ID task) "" "info" ("Task dispatched to executor: " +:+ e_Name e);
          _ ← redis_set now (renewKey executionID) (VInt (unix now))
                (renew_ttl (dispatch_lockTTL (TimeoutSeconds task)));
          mret (executionID, None)
      end
  end.

Definition dispatchTaskExecution (task : Task) (executionID : string) (retryTimes : Z) :
    M (world R) (string * option error) :=
  now ← gets clock;
  lockSet ← redis_call (SETNX now (lockKey executionID) (VStr (fmt_d now))
                          (dispatch_lockTTL (TimeoutSeconds task)));
  if bool_decide (lockSet = Some false) then mret ("", Some (ErrLockConflict (t_ID task)))
  else
    ins ← write_checked (insert_execution (t_ID task) executionID "running" "" retryTimes now);
    match ins with
    | Err err =>
        _ ← (if default false lockSet then _ ← redis_del [lockKey executionID]; mret tt else mret tt);
        mret ("", Some (ErrWrap "create execution record failed: " err))
    | Ok _ =>
        e ← choose_executor task;
        match e with
        | Err (errMsg, err) =>
            _ ← fail_dispatch (t_ID task) executionID errMsg;
            mret (executionID, Some err)
        | Ok e => send_task task executionID e
        end
    end.

Definition RetryTask (taskID retryTimes : Z) : M (world R) (string * option error) :=
  now ← gets clock;
  t ← GetTaskByID taskID;
  match t with
  | Err e => mret ("", Some (ErrWrap "get task failed: " e))
  | Ok i =>
      dispatchTaskExecution (info i)
        ("exec-" +:+ fmt_d taskID +:+ "-" +:+ fmt_d now +:+ "-retry-" +:+ fmt_d retryTimes) retryTimes
  end.

(** ** Trigger *)

(** What [TriggerTask] does to an execution it finds stale. *)
Definition clean_stale (taskID : Z) (executionID : string) : M (world R) unit :=
  let reason := "stale execution cleaned up on new trigger" in
  _ ← UpdateExecutionResult executionID "failed" "" reason None;
  _ ← AddTaskLog executionID taskID "" "error" reason;
  _ ← HandleTaskFailure taskID executionID "" reason 0;
  _ ← redis_del [lockKey executionID; renewKey executionID; failCountKey executionID];
  mret tt.

(** The timeout [TriggerTask] measures a renewal against, [None] for a task
    without timeout; 300 seconds when the task cannot be read. *)
Definition stale_after (t : result error TaskInfo) : option Z :=
  match t with
  | Ok i => if 0 <? TimeoutSeconds (info i) then Some (TimeoutSeconds (info i)) else None
  | Err _ => Some 300
  end.

Definition renewal_expired (now lastRenew : Z) (limit : option Z) : bool :=
  match limit with Some timeout => timeout <? unix now - lastRenew | None => false end.

Definition record_skipped (taskID : Z) (runningExecID : string) : M (world R) unit :=
  now ← gets clock;
  let skippedExecutionID := "exec-" +:+ fmt_d taskID +:+ "-" +:+ fmt_d now in
  let skippedReason := "skipped: previous execution (id: " +:+ runningExecID +:+ ") is still running" in
  ins ← write_checked (insert_execution taskID skippedExecutionID "skipped" skippedReason 0 now);
  match ins with
  | Err _ => mret tt
  | Ok _ =>
      _ ← AddTaskLog skippedExecutionID taskID "" "warn" skippedReason;
      SendWebhookNotification taskID skippedExecutionID "skipped" "" skippedReason 0
  end.

Definition trigger_new (taskID : Z) : M (world R) (string * option error) :=
  now ← gets clock;
  t ← GetTaskByID taskID;
  match t with
  | Err e => mret ("", Some (ErrWrap "get task failed: " e))
  | Ok i => dispatchTaskExecution (info i) ("exec-" +:+ fmt_d taskID +:+ "-" +:+ fmt_d now) 0
  end.

Definition TriggerTask (taskID : Z) : M (world R) (string * option error) :=
  isLeader ← gets leader;
  if negb isLeader then mret ("", Some ErrNotLeader)
  else
    now ← gets clock;
    running ← select_opt (λ t, ExecutionID <$>
      head (order_by newest_first
        (where_ (λ x, (x_TaskID x =? taskID) && is_running x) (rows (executions t)))));
    match running ≫= id with
    | None => trigger_new taskID
    | Some runningExecID =>
        renewal ← get_renewal now runningExecID;
        match renewal with
        | None => _ ← clean_stale taskID runningExecID; trigger_new taskID
        | Some lastRenew =>
            t ← GetTaskByID taskID;
            if renewal_expired now lastRenew (stale_after t)
            then _ ← clean_stale taskID runningExecID; trigger_new taskID
            else
              _ ← record_skipped taskID runningExecID;
              mret ("", Some (ErrAlreadyRunning taskID runningExecID))
        end
    end.

(** ** Goroutines *)

(** The body of the retry goroutine after its sleep, and the other
    goroutines of the service; [reload] is [LoadAndRegisterTasks] of the cron
    scheduler. *)
Definition run_job (reload : M (world R) unit) (j : job) : M (world R) unit :=
  match j with
  | RetryJob taskID failedExecutionID output retryTimes durationMs _ =>
      isLeader ← gets leader;
      _ ← (if negb isLeader then
             mark_failed taskID failedExecutionID output
               ("retry " +:+ fmt_d retryTimes +:+ " aborted: lost leadership") durationMs
           else
             r ← RetryTask taskID retryTimes;
             match r.2 with
             | Some err =>
                 mark_failed taskID failedExecutionID output
                   ("retry " +:+ fmt_d retryTimes +:+ " failed: " +:+ error_text cfg err) durationMs
             | None => mret tt
             end);
      _ ← redis_del [retryLockKey taskID];
      mret tt
  | FailureJob taskID executionID reason =>
      _ ← HandleTaskFailure taskID executionID "" reason 0; mret tt
  | ReportJob taskID executionID output errorMsg durationMs =>
      _ ← HandleTaskFailure taskID executionID output errorMsg durationMs; mret tt
  | ReloadJob => reload
  end.

(** ** Tasks *)

(** The flag a follower leaves for the leader's cron scheduler, and the
    registration the leader does itself. *)
Definition notify_cron (c : option cron_call) : M (world R) unit :=
  isLeader ← gets leader;
  now ← gets clock;
  if negb (has_cron cfg) then mret tt
  else if (isLeader : bool) then match c with Some c => effect (call_cron c) | None => mret tt end
  else _ ← redis_set now "cron:needs_reload" (VInt (unix now)) (5 * Minute); mret tt.

(** The [INSERT] is built by the caller. *)
Definition CreateTask (row : Z → Task) : M (world R) (result error TaskInfo) :=
  id ←? write_checked (λ t, let t' := set_tasks (insert_row row) t in Some (last_id (tasks t'), t'));
  i ←? GetTaskByID id;
  _ ← notify_cron (if t_IsEnabled (info i) && negb (bool_decide (CronExpression (info i) = ""))
                   then Some (RegisterTask (t_ID (info i)) (CronExpression (info i))) else None);
  mret (Ok i).

Definition update_task (now : Z) (task t : Task) : Task :=
  mkTask (t_ID t) (t_Name task) (t_Type task) (t_Config task) (CronExpression task)
    (TimeoutSeconds task) (RetryCount task) (RetryInterval task) (t_IsEnabled task) (t_Status t)
    (t_DomainID t) (WebhookID task) (WebhookEvents task)
    (if 0 <? AssignedExecutorID task then AssignedExecutorID task else 0) (CreatedBy t) (t_CreatedAt t) now.

Definition UpdateTask (id : Z) (task : Task) : M (world R) (result error unit) :=
  now ← gets clock;
  _ ←? write (set_tasks (update_where (λ t, t_ID t =? id) (update_task now task)));
  i ←? GetTaskByID id;
  _ ← notify_cron (Some (if t_IsEnabled (info i) && negb (bool_decide (CronExpression (info i) = ""))
                         then RegisterTask id (CronExpression (info i)) else UnregisterTask id));
  mret (Ok tt).

Definition DeleteTask (id : Z) : M (world R) (result error unit) :=
  _ ←? write (set_tasks (delete_where (λ t, t_ID t =? id)));
  _ ← notify_cron (Some (UnregisterTask id));
  mret (Ok tt).

Definition ScanPendingTasks : M (world R) (result error (list Task)) :=
  select (λ t, scan_task <$> where_ (λ k, t_IsEnabled k && negb (bool_decide (CronExpression k = "")))
                              (rows (tasks t))).

(** [model.TaskListFilter] *)
Record TaskListFilter : Type := mkTaskListFilter {
  f_DomainID : Z; f_Role : string; f_Page : Z; f_PageSize : Z; f_CreatedBy : Z;
  f_Name : string; f_Type : string; f_IsEnabled : option bool;
}.

Definition is_system_admin (role : string) : bool := in_list role ["system_admin"; "admin"].

Definition task_matches (f : TaskListFilter) (t : Task) : bool :=
  (is_system_admin (f_Role f) || (t_DomainID t =? f_DomainID f)) &&
  ((f_CreatedBy f <=? 0) || (CreatedBy t =? f_CreatedBy f)) &&
  (bool_decide (f_Name f = "") || like ("%" +:+ f_Name f +:+ "%") (t_Name t)) &&
  (bool_decide (f_Type f = "") || bool_decide (t_Type t = f_Type f)) &&
  match f_IsEnabled f with Some b => Bool.eqb (t_IsEnabled t) b | None => true end.

Fixpoint with_statuses (ts : list Task) : M (world R) (list TaskInfo) :=
  match ts with
  | [] => mret []
  | t :: ts => i ← with_status t; rest ← with_statuses ts; mret (i :: rest)
  end.

Definition ListTasksWithFilter (f : TaskListFilter) : M (world R) (result error (list TaskInfo * Z)) :=
  let pageSize := page_size (f_PageSize f) in
  let page := if f_Page f <=? 0 then 1 else f_Page f in
  total ←? select (λ t, count (task_matches f) (rows (tasks t)));
  ts ←? select (λ t, scan_task <$> page_of page pageSize
          (order_by (λ a b, t_CreatedAt b <=? t_CreatedAt a)
             (where_ (task_matches f) (rows (tasks t)))));
  infos ← with_statuses ts;
  mret (Ok (infos, total)).

Definition ListTasks (domainID : Z) (role : string) (page pageSize : Z) (createdBy : list Z) :
    M (world R) (result error (list TaskInfo * Z)) :=
  ListTasksWithFilter (mkTaskListFilter domainID role page pageSize
    (match createdBy with c :: _ => if 0 <? c then c else 0 | [] => 0 end) "" "" None).

(** ** Executions *)

Definition GetTaskExecutions (taskID : Z) : M (world R) (result error (list TaskExecution)) :=
  select (λ t, scan_execution <$> take 100 (order_by newest_first
    (where_ (λ x, x_TaskID x =? taskID) (rows (executions t))))).

Definition GetExecutionByExecutionID (executionID : string) :
    M (world R) (result error (option TaskExecution)) :=
  o ← select (λ t, scan_execution <$>
        head (where_ (λ x, bool_decide (ExecutionID x = executionID)) (rows (executions t))));
  mret match o with
       | Ok x => Ok x
       | Err e => Err (ErrWrap "failed to query execution by execution_id: " e)
       end.

Definition GetTaskLogs (executionID : string) : M (world R) (result error (list TaskLog)) :=
  select (λ t, order_by (λ a b, LogTime a <=? LogTime b)
    (where_ (λ l, bool_decide (l_ExecutionID l = executionID)) (rows (task_logs t)))).
Definition GetTaskLogsByExecutionID (executionID : string) : M (world R) (result error (list TaskLog)) :=
  GetTaskLogs executionID.

Definition task_of (t : tables) (x : TaskExecution) : option Task :=
  head (where_ (λ k, x_TaskID x =? t_ID k) (rows (tasks t))).
Definition executor_of (t : tables) (x : TaskExecution) : option Executor :=
  head (where_ (λ e, ExecutorID x =? e_ID e) (rows (executors t))).

Definition in_domain (t : tables) (domainID : Z) (x : TaskExecution) : bool :=
  match task_of t x with Some k => t_DomainID k =? domainID | None => false end.

(** The filter map of the two queries, its numbers and times parsed; a value
    that does not parse is ignored. *)
Record ExecutionFilter : Type := mkExecutionFilter {
  q_id : option Z; q_execution_id : string; q_executor_name : string; q_task_name : string;
  q_status : string; q_start_from : option Z; q_start_to : option Z;
  q_end_from : option Z; q_end_to : option Z;
  q_has_duration : bool; q_duration_min : option Z; q_duration_max : option Z;
}.

(** A comparison with NULL does not hold. *)
Definition compares (cmp : Z → Z → bool) (v bound : option Z) : bool :=
  match bound with
  | None => true
  | Some b => match v with Some v => cmp v b | None => false end
  end.

Definition matches_name (pattern : string) (name : option string) : bool :=
  bool_decide (pattern = "") ||
  match name with Some n => like ("%" +:+ pattern +:+ "%") n | None => false end.

(** [STRFTIME('%s', end_time) - STRFTIME('%s', start_time)] *)
Definition duration_secs (x : TaskExecution) : option Z :=
  match StartTime x, EndTime x with Some s, Some e => Some (unix e - unix s) | _, _ => None end.

Definition execution_matches (t : tables) (domainID : Z) (role : string) (f : ExecutionFilter)
    (x : TaskExecution) : bool :=
  (is_system_admin role || in_domain t domainID x) &&
  compares Z.eqb (Some (x_ID x)) (q_id f) &&
  matches_name (q_execution_id f) (Some (ExecutionID x)) &&
  matches_name (q_executor_name f) (e_Name <$> executor_of t x) &&
  matches_name (q_task_name f) (t_Name <$> task_of t x) &&
  (bool_decide (q_status f = "") || bool_decide (x_Status x = q_status f)) &&
  compares Z.geb (StartTime x) (q_start_from f) && compares Z.leb (StartTime x) (q_start_to f) &&
  compares Z.geb (EndTime x) (q_end_from f) && compares Z.leb (EndTime x) (q_end_to f) &&
  (negb (q_has_duration f) || bool_decide (EndTime x ≠ None)) &&
  compares Z.geb (duration_secs x) (q_duration_min f) && compares Z.leb (duration_secs x) (q_duration_max f).

Record TaskExecutionWithNames : Type := mkWithNames {
  n_execution : TaskExecution; TaskName : string; TaskType : string; ExecutorName : string;
}.
Definition with_names (t : tables) (x : TaskExecution) : TaskExecutionWithNames :=
  mkWithNames (scan_execution11 x) (default "" (t_Name <$> task_of t x)) (default "" (t_Type <$> task_of t x))
    (default "" (e_Name <$> executor_of t x)).

Definition GetAllExecutions (domainID : Z) (role : string) (f : ExecutionFilter) (page pageSize : Z) :
    M (world R) (result error (list TaskExecutionWithNames * Z)) :=
  total ←? select (λ t, count (execution_matches t domainID role f) (rows (executions t)));
  xs ←? select (λ t, with_names t <$> page_of page pageSize (order_by newest_first
          (where_ (execution_matches t domainID role f) (rows (executions t)))));
  mret (Ok (xs, total)).

(** [GROUP BY te.status] *)
Definition GetExecutionStats (domainID : Z) (role : string) (f : ExecutionFilter) :
    M (world R) (result error (gmap string Z)) :=
  select (λ t, let xs := where_ (execution_matches t domainID role f) (rows (executions t)) in
    list_to_map ((λ st, (st, count (λ x, bool_decide (x_Status x = st)) xs))
                   <$> remove_dups (x_Status <$> xs))).

Definition delete_logs (ids : list string) : M (world R) (result error unit) :=
  write (set_task_logs (delete_where (λ l, in_list (l_ExecutionID l) ids))).

Definition DeleteExecution (id : Z) : M (world R) (result error unit) :=
  o ←? select (λ t, ExecutionID <$> head (where_ (λ x, x_ID x =? id) (rows (executions t))));
  match o with
  | None => mret (Err ErrExecutionNotFound)
  | Some executionID =>
      _ ← delete_logs [executionID];
      write (set_executions (delete_where (λ x, x_ID x =? id)))
  end.

Definition BatchDeleteExecutions (ids : list Z) : M (world R) (result error unit) :=
  match ids with
  | [] => mret (Ok tt)
  | _ =>
      executionIDs ←? select (λ t, ExecutionID <$> where_ (λ x, in_list (x_ID x) ids) (rows (executions t)));
      _ ← (match executionIDs with [] => mret (Ok tt) | _ => delete_logs executionIDs end);
      write (set_executions (delete_where (λ x, in_list (x_ID x) ids)))
  end.

Definition DeleteExecutionWithDomainCheck (id domainID : Z) (role : string) :
    M (world R) (result error unit) :=
  o ←? select (λ t, ExecutionID <$> head (where_ (λ x, (x_ID x =? id) &&
         (is_system_admin role || in_domain t domainID x)) (rows (executions t))));
  match o with
  | None => mret (Err ErrExecutionDenied)
  | Some executionID =>
      _ ← (if bool_decide (executionID = "") then mret (Ok tt) else delete_logs [executionID]);
      write (set_executions (delete_where (λ x, x_ID x =? id)))
  end.

Definition BatchDeleteExecutionsWithDomainCheck (ids : list Z) (domainID : Z) (role : string) :
    M (world R) (result error unit) :=
  match ids with
  | [] => mret (Ok tt)
  | _ =>
      executionIDs ←? select (λ t, ExecutionID <$> where_ (λ x, in_list (x_ID x) ids &&
        (is_system_admin role || in_domain t domainID x)) (rows (executions t)));
      _ ← (match executionIDs with [] => mret (Ok tt) | _ => delete_logs executionIDs end);
      write (λ t, set_executions (delete_where (λ x, in_list (x_ID x) ids &&
        (is_system_admin role ||
         in_list (x_TaskID x) (t_ID <$> where_ (λ k, t_DomainID k =? domainID) (rows (tasks t)))))) t)
  end.

Definition CancelExecution (executionID cancelledBy : string) : M (world R) (result error unit) :=
  o ← select (λ t, head (where_ (λ x, bool_decide (ExecutionID x = executionID)) (rows (executions t))));
  match o with
  | Err e => mret (Err (ErrWrap "failed to query execution: " e))
  | Ok None => mret (Err ErrExecutionNotFound)
  | Ok (Some x) =>
      if negb (in_list (x_Status x) ["running"; "pending"]) then mret (Err (ErrNotCancellable (x_Status x)))
      else
        _ ← (if (0 <? ExecutorID x) && has_cancel_notifier cfg then
               e ← GetExecutorByID (ExecutorID x);
               match e with
               | Ok e => effect (signal_cancel (e_Name e) executionID)
               | Err _ => mret tt
               end
             else mret tt);
        u ← UpdateExecutionResult executionID "failed" "" "task cancelled by user" None;
        match u with
        | Err e => mret (Err (ErrWrap "failed to update execution: " e))
        | Ok _ =>
            _ ← AddTaskLog executionID (x_TaskID x) "" "info" ("Task cancelled by user: " +:+ cancelledBy);
            mret (Ok tt)
        end
  end.

(** The placeholder reads, in the repository's language, "domain N". *)
Definition GetDomainName (unnamed : Z → string) (domainID : Z) : M (world R) string :=
  o ← select_opt (λ t, Permission.dom_Name <$>
        head (where_ (λ d, Permission.dom_ID d =? domainID) (rows (domains t))));
  mret match o ≫= id with
       | Some name => if bool_decide (name = "") then unnamed domainID else name
       | None => unnamed domainID
       end.
End execution_service.

(** ** Facts the properties share *)

Section facts.
Context `{RedisLaws R}.
Variable cfg : env.
Implicit Types w : world R.

Lemma clean_redis_get now k : clean (redis_get now k : M (world R) _).
Proof. unfold redis_get. solve_clean. Qed.
Lemma clean_getLastExecutionStatus id : clean (getLastExecutionStatus id : M (world R) _).
Proof. unfold getLastExecutionStatus. solve_clean. Qed.
Lemma clean_GetTaskByID id : clean (GetTaskByID cfg id : M (world R) _).
Proof.
  pose proof clean_getLastExecutionStatus. unfold GetTaskByID, with_status. solve_clean.
Qed.
Lemma clean_GetExecutorByID id : clean (GetExecutorByID id : M (world R) _).
Proof. unfold GetExecutorByID. solve_clean. Qed.
Lemma clean_SelectAvailableExecutor id : clean (SelectAvailableExecutor cfg id : M (world R) _).
Proof. unfold SelectAvailableExecutor. solve_clean. Qed.
Lemma clean_UpdateExecutionResult i s o e r : clean (UpdateExecutionResult i s o e r : M (world R) _).
Proof. unfold UpdateExecutionResult. solve_clean. Qed.
Lemma clean_AddTaskLog i t n l m : clean (AddTaskLog i t n l m : M (world R) _).
Proof. unfold AddTaskLog. solve_clean. Qed.
Lemma clean_get_renewal now i : clean (get_renewal now i : M (world R) _).
Proof. unfold get_renewal. solve_clean. Qed.

#[local] Hint Resolve clean_redis_get clean_GetTaskByID clean_GetExecutorByID
  clean_SelectAvailableExecutor clean_UpdateExecutionResult clean_AddTaskLog clean_get_renewal : clean.

Lemma clean_SendWebhookNotification t i s o e d :
  clean (SendWebhookNotification cfg t i s o e d : M (world R) _).
Proof. unfold SendWebhookNotification, getExecutionDurationFromDB. solve_clean. Qed.
Lemma clean_UpdateTaskStatusByID t s : clean (UpdateTaskStatusByID cfg t s : M (world R) _).
Proof. unfold UpdateTaskStatusByID. solve_clean. Qed.
#[local] Hint Resolve clean_SendWebhookNotification clean_UpdateTaskStatusByID : clean.
Lemma clean_mark_failed t i o e d : clean (mark_failed cfg t i o e d : M (world R) _).
Proof. unfold mark_failed. solve_clean. Qed.
#[local] Hint Resolve clean_mark_failed : clean.
Lemma clean_HandleTaskFailure t i o e d : clean (HandleTaskFailure cfg t i o e d : M (world R) _).
Proof. unfold HandleTaskFailure, getRetryTimesForExecution. solve_clean. Qed.
Lemma clean_fail_dispatch t i m : clean (fail_dispatch cfg t i m : M (world R) _).
Proof. unfold fail_dispatch. solve_clean. Qed.
Lemma clean_choose_executor t : clean (choose_executor cfg t : M (world R) _).
Proof. unfold choose_executor. solve_clean. Qed.
End facts.

#[export] Hint Resolve clean_redis_get clean_GetTaskByID clean_GetExecutorByID
  clean_SelectAvailableExecutor clean_UpdateExecutionResult clean_AddTaskLog clean_get_renewal
  clean_SendWebhookNotification clean_UpdateTaskStatusByID clean_mark_failed
  clean_HandleTaskFailure clean_fail_dispatch clean_choose_executor : clean.

(** ** Bookkeeping

    What logs, task statuses and webhooks may change: the status of tasks, the
    log, the deliveries and the deduplication keys. *)
Definition dedup_key (k : string) : bool := String.prefix "task:log:dedup:" k.

Lemma dedup_key_dedup i n level m : dedup_key (dedupKey i n level m) = true.
Proof. apply prefix_app. Qed.
Lemma dedup_key_lock i : dedup_key (lockKey i) = false.
Proof. reflexivity. Qed.
Lemma dedup_key_renew i : dedup_key (renewKey i) = false.
Proof. reflexivity. Qed.
Lemma dedup_key_failCount i : dedup_key (failCountKey i) = false.
Proof. reflexivity. Qed.
Lemma dedup_key_retryLock i : dedup_key (retryLockKey i) = false.
Proof. reflexivity. Qed.

Section quiet.
Context `{RedisLaws R}.
Variable cfg : env.

Record quiet (w w' : world R) : Prop := {
  quiet_executions : executions (tabs w') = executions (tabs w);
  quiet_executors : executors (tabs w') = executors (tabs w);
  quiet_domains : domain_executors (tabs w') = domain_executors (tabs w);
  quiet_spawned : spawned (fx w') = spawned (fx w);
  quiet_dispatched : dispatched (fx w') = dispatched (fx w);
  quiet_cancels : cancels (fx w') = cancels (fx w);
  quiet_clock : clock w' = clock w;
  quiet_leader : leader w' = leader w;
  quiet_redis : ∀ k, dedup_key k = false → entry (redis w') k = entry (redis w) k;
}.

#[export] Instance quiet_preorder : PreOrder quiet.
Proof.
  split.
  - intros w. by split.
  - intros w1 w2 w3 H1 H2. split; try (destruct H1, H2; congruence).
    intros k Hk. by rewrite (quiet_redis _ _ H2 k Hk), (quiet_redis _ _ H1 k Hk).
Qed.

Lemma quiet_live w w' now k : quiet w w' → dedup_key k = false → live now k (redis w') = live now k (redis w).
Proof. intros [] Hk. apply live_entry. auto. Qed.

Lemma reads_redis_get_like {A} (f : R → A) w0 :
  preserves (quiet w0) (redis_call (λ r, (f r, r))).
Proof. apply preserves_call. by intros [] ?. Qed.

Lemma quiet_set_dedup w0 now k v ttl :
  dedup_key k = true → preserves (quiet w0) (redis_set now k v ttl).
Proof.
  intros Hk. apply preserves_call. intros w []. simpl. split; try done. simpl.
  intros k' Hk'. rewrite SET_spec. rewrite decide_False by congruence. auto.
Qed.

Lemma quiet_tasks w0 f : preserves (quiet w0) (write (set_tasks f)).
Proof. apply preserves_write. by intros w []. Qed.
Lemma quiet_logs w0 f : preserves (quiet w0) (write (set_task_logs f)).
Proof. apply preserves_write. by intros w []. Qed.
Lemma quiet_deliver w0 d : preserves (quiet w0) (effect (deliver d)).
Proof. apply preserves_effect. by intros w []. Qed.
End quiet.

#[export] Hint Resolve reads_redis_get_like quiet_tasks quiet_logs quiet_deliver : handler.

Ltac solve_preserves := repeat first [ solve [eauto with handler nocore] | handler_step ].

Section quiet_handlers.
Context `{RedisLaws R}.
Variable cfg : env.

Lemma reads_GetTaskByID id : reads (GetTaskByID cfg id : M (world R) _).
Proof.
  intros P. unfold GetTaskByID, with_status, getLastExecutionStatus. solve_preserves.
Qed.
Lemma reads_GetExecutorByID id : reads (GetExecutorByID id : M (world R) _).
Proof. intros P. unfold GetExecutorByID. solve_preserves. Qed.
Lemma reads_SelectAvailableExecutor id : reads (SelectAvailableExecutor cfg id : M (world R) _).
Proof. intros P. unfold SelectAvailableExecutor. solve_preserves. Qed.
Lemma preserves_reads {A} (P : world R → Prop) (m : M (world R) A) : reads m → preserves P m.
Proof. auto. Qed.
Lemma reads_choose_executor t : reads (choose_executor cfg t : M (world R) _).
Proof.
  pose proof reads_GetExecutorByID. pose proof reads_SelectAvailableExecutor.
  intros P. unfold choose_executor. pose proof (λ i, preserves_reads P _ (reads_GetExecutorByID i)).
  pose proof (λ i, preserves_reads P _ (reads_SelectAvailableExecutor i)). solve_preserves.
Qed.

Lemma quiet_AddTaskLog w0 i t n level m :
  in_list level ["stdout"; "stderr"] = false → preserves (quiet w0) (AddTaskLog i t n level m).
Proof.
  intros Hl. pose proof (λ now v ttl, quiet_set_dedup w0 now (dedupKey i n level m) v ttl (dedup_key_dedup _ _ _ _)).
  unfold AddTaskLog, redis_exists, insert_log. rewrite Hl. solve_preserves.
Qed.
Lemma quiet_UpdateTaskStatusByID w0 t s : preserves (quiet w0) (UpdateTaskStatusByID cfg t s).
Proof.
  pose proof (λ i, preserves_reads (quiet w0) _ (reads_GetTaskByID i)).
  unfold UpdateTaskStatusByID. solve_preserves.
Qed.
Lemma quiet_SendWebhookNotification w0 t i s o e d :
  preserves (quiet w0) (SendWebhookNotification cfg t i s o e d).
Proof.
  pose proof (λ i, preserves_reads (quiet w0) _ (reads_GetTaskByID i)).
  unfold SendWebhookNotification, getExecutionDurationFromDB. solve_preserves.
Qed.
End quiet_handlers.

(** ** Properties of results *)

Section results.
Context `{RedisLaws R}.
Variable cfg : env.
Implicit Types w : world R.

Lemma live_DELS t k ks (r : R) : k ∈ ks → live t k (DELS ks r) = None.
Proof.
  unfold DELS. revert r. induction ks as [|k' ks IH]; intros r Hin; [by apply not_elem_of_nil in Hin|].
  simpl. destruct (decide (k ∈ ks)) as [?|Hn]; [by apply IH|].
  apply elem_of_cons in Hin as [<-|?]; [|done]. clear IH.
  assert (∀ r : R, live t k r = None → live t k (foldl (λ r k, DEL k r) r ks) = None) as Hkeep.
  { induction ks as [|k1 ks IH]; intros r1 Hr1; [done|]. simpl. apply IH; [set_solver|].
    rewrite live_DEL_ne; [done|set_solver]. }
  apply Hkeep, live_DEL_eq.
Qed.
Lemma entry_DELS_ne k ks (r : R) : k ∉ ks → entry (DELS ks r) k = entry r k.
Proof.
  unfold DELS. revert r. induction ks as [|k' ks IH]; intros r Hin; [done|].
  simpl. rewrite IH by set_solver. rewrite DEL_spec, decide_False by set_solver. done.
Qed.

(** The world after a result was recorded. *)
Definition reported (executionID status output errorMsg : string) (range : Z * Z) (w : world R) : world R :=
  set_redis (DELS [lockKey executionID; renewKey executionID; failCountKey executionID])
    (set_tabs (set_executions (update_where (λ x, bool_decide (ExecutionID x = executionID))
       (set_result status output errorMsg range.1 range.2))) w).

Lemma run_UpdateExecutionResult i s o e range w :
  ∃ rg, run (UpdateExecutionResult i s o e range) w [] = (Ok tt, reported i s o e rg w) ∧
        (range = None → rg = (clock w, clock w)).
Proof.
  unfold UpdateExecutionResult. seq.
  set (rg := match range with Some _ => _ | None => _ end). exists rg. split.
  - destruct rg as [st en] eqn:E. seq. unfold redis_del. seq. done.
  - unfold rg. by intros ->.
Qed.

Lemma reported_row i s o e rg w x :
  x ∈ rows (executions (tabs (reported i s o e rg w))) → ExecutionID x = i →
  x_Status x = s ∧ Output x = o ∧ Error x = e ∧ (terminal s = true → EndTime x = Some rg.2).
Proof.
  simpl. rewrite list_elem_of_fmap. intros (y & -> & _) Hi.
  case_bool_decide; [|congruence]. simpl. by destruct (terminal s).
Qed.
Lemma reported_lock i s o e rg w t : live t (lockKey i) (redis (reported i s o e rg w)) = None.
Proof. apply live_DELS. by left. Qed.

(** cancelling a running or pending execution succeeds, signals its
    executor when it has one, records the failure and frees the lock; but a
    result that arrives later is recorded all the same, whatever it says: the
    cancelled execution takes the reported status. *)
Theorem CancelExecution_then_report executionID cancelledBy w x e0 status output errorMsg range
    (Hx : head (where_ (λ x, bool_decide (ExecutionID x = executionID)) (rows (executions (tabs w)))) = Some x)
    (Hactive : x_Status x = "running" ∨ x_Status x = "pending")
    (He0 : head (where_ (λ e, e_ID e =? ExecutorID x) (rows (executors (tabs w)))) = Some e0)
    (Hid : 0 < ExecutorID x) :
  let '(r, w1) := run (CancelExecution cfg executionID cancelledBy) w [] in
  let w2 := (run (UpdateExecutionResult executionID status output errorMsg range) w1 []).2 in
  r = Ok tt ∧
  cancels (fx w1) = cancels (fx w) ++ (if has_cancel_notifier cfg then [(e_Name e0, executionID)] else []) ∧
  (∀ t, live t (lockKey executionID) (redis w1) = None) ∧
  (∀ y, y ∈ rows (executions (tabs w1)) → ExecutionID y = executionID →
     x_Status y = "failed" ∧ Error y = "task cancelled by user" ∧ EndTime y = Some (clock w)) ∧
  (∀ y, y ∈ rows (executions (tabs w2)) → ExecutionID y = executionID → x_Status y = status).
Proof.
  assert (in_list (x_Status x) ["running"; "pending"] = true) as Hin
    by (apply in_list_true; destruct Hactive as [-> | ->]; set_solver).
  unfold CancelExecution. seq. rewrite Hx, Hin. simpl negb. cbv iota.
  set (sent := if has_cancel_notifier cfg then set_fx (signal_cancel (e_Name e0) executionID) w else w).
  seq.
  assert (run (if (0 <? ExecutorID x) && has_cancel_notifier cfg
               then e ← GetExecutorByID (ExecutorID x);
                    match e with
                    | Ok e => effect (signal_cancel (e_Name e) executionID)
                    | Err _ => mret tt
                    end
               else mret tt) w [] = (tt, sent)) as ->.
  { unfold sent. apply Z.ltb_lt in Hid. rewrite Hid. simpl.
    destruct (has_cancel_notifier cfg); [|done].
    unfold GetExecutorByID. seq. unfold run. rewrite run_bind_ok, run_select, He0. done. }
  simpl snd. seq.
  destruct (run_UpdateExecutionResult executionID "failed" "" "task cancelled by user" None sent)
    as ([st en] & -> & Hrg). injection (Hrg eq_refl) as -> ->. simpl fst. simpl snd. cbv iota.
  set (wr := reported executionID "failed" "" "task cancelled by user" (clock sent, clock sent) sent).
  seq. pose proof (run_preserves (quiet wr)
    (AddTaskLog executionID (x_TaskID x) "" "info" ("Task cancelled by user: " +:+ cancelledBy)) wr []
    ltac:(by apply quiet_AddTaskLog) ltac:(reflexivity)) as Hq.
  set (w1 := (run _ wr []).2) in *.
  assert (clock sent = clock w) as Hclock by (unfold sent; by destruct (has_cancel_notifier cfg)).
  split; [done|]. split; [|split; [|split]].
  - rewrite (quiet_cancels _ _ Hq). unfold wr, sent. simpl.
    destruct (has_cancel_notifier cfg); simpl; [done|]. by rewrite app_nil_r.
  - intros t. rewrite (quiet_live _ _ _ _ Hq) by done. apply reported_lock.
  - intros y. rewrite (quiet_executions _ _ Hq). intros Hy Hyi.
    destruct (reported_row _ _ _ _ _ _ _ Hy Hyi) as (? & _ & ? & Hend).
    split; [done|]. split; [done|]. rewrite Hend by done. simpl. by rewrite Hclock.
  - destruct (run_UpdateExecutionResult executionID status output errorMsg range w1) as (rg & -> & _).
    intros y Hy Hyi. by apply (reported_row _ _ _ _ _ _ _ Hy Hyi).
Qed.
End results.

(** ** Properties of retries *)

Definition set_clock {R} (t : Z) (w : world R) : world R :=
  mkWorld (tabs w) (redis w) t (leader w) (fx w).

Section retries.
Context `{RedisLaws R}.
Variable cfg : env.
Implicit Types w : world R.

(** What [GetTaskByID] answers without faults. *)
Definition find_task (id : Z) (t : tables) : option Task := head (where_ (λ k, t_ID k =? id) (rows (tasks t))).

Lemma run_GetTaskByID id w :
  ∃ r, run (GetTaskByID cfg id) w [] = (r, w) ∧
       match find_task id (tabs w) with
       | Some k => ∃ i, r = Ok i ∧ info i = scan_task k
       | None => r = Err ErrTaskNotFound
       end.
Proof.
  unfold GetTaskByID. seq. fold (find_task id (tabs w)).
  destruct (find_task id (tabs w)) as [k|]; simpl; [|eauto].
  unfold with_status, getLastExecutionStatus. eexists. split; [done|]. by eexists.
Qed.

(** The retry lock as [HandleTaskFailure] sees it. *)
Definition retry_locked (taskID : Z) (w : world R) : bool :=
  match live (clock w) (retryLockKey taskID) (redis w) with Some _ => true | None => false end.

Definition retry_row (executionID : string) (t : tables) : option Z :=
  RetryTimes <$> head (where_ (λ x, bool_decide (ExecutionID x = executionID)) (rows (executions t))).

(** The three ways a failure is handled without starting the task again, and
    the one way it is. *)
Lemma run_HandleTaskFailure_locked taskID e output msg d w k :
  find_task taskID (tabs w) = Some k → 0 < int32 (RetryCount k) → retry_locked taskID w = true →
  run (HandleTaskFailure cfg taskID e output msg d) w [] = (Ok tt, w).
Proof.
  intros Hk Hmax Hlock. unfold HandleTaskFailure. seq. seq.
  destruct (run_GetTaskByID taskID w) as (r & -> & Hr). rewrite Hk in Hr.
  destruct Hr as (i & -> & Hi). simpl fst. simpl snd. cbv iota beta zeta.
  rewrite Hi. simpl RetryCount. rewrite (proj2 (Z.leb_gt _ _) Hmax). seq.
  unfold retry_locked in Hlock. rewrite SETNX_spec.
  destruct (live (clock w) (retryLockKey taskID) (redis w)); [|done]. simpl. by destruct w.
Qed.

Lemma run_HandleTaskFailure_retry taskID e output msg d w k n :
  find_task taskID (tabs w) = Some k → n < int32 (RetryCount k) → 0 ≤ n →
  retry_locked taskID w = false → retry_row e (tabs w) = Some n →
  run (HandleTaskFailure cfg taskID e output msg d) w [] =
    (Ok tt, set_fx (spawn (RetryJob taskID e output (n + 1) (if 0 <? d then d else 0)
                             (clock w + int32 (RetryInterval k) * Second)))
              (set_redis (SET (clock w) (retryLockKey taskID) (VStr "locked") (30 * Minute)) w)).
Proof.
  intros Hk Hmax Hn Hlock Hrow. unfold HandleTaskFailure. seq. seq.
  destruct (run_GetTaskByID taskID w) as (r & -> & Hr). rewrite Hk in Hr.
  destruct Hr as (i & -> & Hi). simpl fst. simpl snd. cbv iota beta zeta.
  rewrite Hi. simpl RetryCount. rewrite (proj2 (Z.leb_gt _ _)) by lia. seq.
  unfold retry_locked in Hlock. rewrite SETNX_spec.
  destruct (live (clock w) (retryLockKey taskID) (redis w)); [done|]. simpl.
  unfold getRetryTimesForExecution, run. rewrite run_bind, run_bind_ok, run_select.
  unfold retry_row in Hrow. cbv iota beta. simpl tabs. rewrite Hrow. simpl.
  rewrite (proj2 (Z.ltb_lt _ _) Hmax). done.
Qed.

(** a failed execution with retries left starts exactly one retry, with
    the next number, due after the task's interval, and takes the retry lock
    of the task: every other failure report of that task in the next 30
    minutes changes nothing. *)
Theorem HandleTaskFailure_retries_once taskID e output msg d w k n
    (Htask : find_task taskID (tabs w) = Some k)
    (Hrow : retry_row e (tabs w) = Some n) (Hleft : 0 ≤ n < int32 (RetryCount k))
    (Hfree : retry_locked taskID w = false) :
  let '(r, w1) := run (HandleTaskFailure cfg taskID e output msg d) w [] in
  r = Ok tt ∧ tabs w1 = tabs w ∧
  spawned (fx w1) = spawned (fx w) ++ [RetryJob taskID e output (n + 1) (if 0 <? d then d else 0)
                                         (clock w + int32 (RetryInterval k) * Second)] ∧
  ∀ t e' output' msg' d', clock w ≤ t < clock w + 30 * Minute →
    run (HandleTaskFailure cfg taskID e' output' msg' d') (set_clock t w1) [] = (Ok tt, set_clock t w1).
Proof.
  rewrite (run_HandleTaskFailure_retry taskID e output msg d w k n) by (done || lia).
  split; [done|]. split; [done|]. split; [done|]. intros t e' output' msg' d' Ht.
  apply (run_HandleTaskFailure_locked taskID e' output' msg' d' _ k); [done|lia|].
  unfold retry_locked. simpl. rewrite live_SET_eq. unfold deadline. simpl.
  rewrite (proj2 (Z.leb_gt _ _)); [done|]. unfold Minute in *. lia.
Qed.
End retries.

(** ** Properties of dispatching *)

Lemma run_reads {R A} (m : M (world R) A) w fs : reads m → (run m w fs).2 = w.
Proof. intros Hm. symmetry. apply (run_preserves (eq w)); [apply Hm|done]. Qed.

Lemma update_where_fresh {A} (p : A → bool) f (l : list A) :
  existsb p l = false → map (λ x, if p x then f x else x) l = l.
Proof.
  rewrite existsb_false_iff. induction l as [|x l IH]; intros Hf; [done|]. simpl.
  rewrite Hf by (by left). f_equal. apply IH. intros y Hy. apply Hf. by right.
Qed.

Section dispatching.
Context `{RedisLaws R}.
Variable cfg : env.
Implicit Types w : world R.

Lemma live_SET_now now k v ttl (r : R) : is_Some (live now k (SET now k v ttl r)).
Proof.
  rewrite live_SET_eq. unfold expired, deadline. destruct (Z.ltb_spec 0 ttl); [|done].
  rewrite (proj2 (Z.leb_gt _ _)) by lia. done.
Qed.

(** An executor that may take a task. *)
Definition fit (e : Executor) : Prop := e_Status e = "online" ∧ CurrentLoad e < Capacity e.

Lemma run_GetExecutorByID id w :
  run (GetExecutorByID id) w [] =
    (match head (where_ (λ e, e_ID e =? id) (rows (executors (tabs w)))) with
     | Some e => Ok (scan_executor10 e)
     | None => Err ErrExecutorNotFound
     end, w).
Proof.
  unfold GetExecutorByID, run. rewrite run_bind_ok, run_select. simpl. by destruct (head _).
Qed.

Lemma choose_executor_fit task w e :
  (run (choose_executor cfg task) w []).1 = Ok e → fit e.
Proof.
  unfold choose_executor. destruct (0 <? AssignedExecutorID task).
  - seq. rewrite run_GetExecutorByID. destruct (head _) as [e1|]; simpl; [|done].
    unfold is_online. simpl. case_bool_decide as Hon; simpl; [|done].
    destruct (Z.leb_spec (Capacity e1) (CurrentLoad e1)); [done|]. by intros [= <-].
  - seq. unfold SelectAvailableExecutor. seq. unfold run. rewrite run_bind_ok, run_select. simpl.
    pose proof (pick_spec (rand cfg) (candidates (clock w) (t_DomainID task) (tabs w))) as Hp.
    destruct (pick _ _) as [e1|]; simpl; [|done]. intros [= <-].
    destruct Hp as [(_ & ? & ? & _)%elem_of_candidates _]. done.
Qed.

(** After a failed dispatch. *)
Lemma run_fail_dispatch taskID i msg w :
  let w' := (run (fail_dispatch cfg taskID i msg) w []).2 in
  executions (tabs w') = executions (tabs (reported i "failed" "" msg (clock w, clock w) w)) ∧
  dispatched (fx w') = dispatched (fx w) ∧ spawned (fx w') = spawned (fx w) ∧
  ∀ t, live t (lockKey i) (redis w') = None.
Proof.
  unfold fail_dispatch. seq.
  destruct (run_UpdateExecutionResult i "failed" "" msg None w) as ([st en] & -> & Hrg).
  injection (Hrg eq_refl) as -> ->. simpl fst. simpl snd.
  set (w1 := reported i "failed" "" msg (clock w, clock w) w). seq.
  pose proof (run_preserves (quiet w1) (UpdateTaskStatusByID cfg taskID "failed") w1 []
    ltac:(apply quiet_UpdateTaskStatusByID) ltac:(reflexivity)) as H2.
  set (w2 := (run _ w1 []).2) in *. seq.
  pose proof (run_preserves (quiet w1) (AddTaskLog i taskID "" "error" msg) w2 []
    ltac:(by apply quiet_AddTaskLog) H2) as H3.
  set (w3 := (run _ w2 []).2) in *. seq.
  pose proof (run_preserves (quiet w1) (SendWebhookNotification cfg taskID i "failed" "" msg 0) w3 []
    ltac:(apply quiet_SendWebhookNotification) H3) as H4.
  set (w4 := (run _ w3 []).2) in *. unfold redis_del. seq. destruct H4. simpl.
  split; [done|]. split; [done|]. split; [done|]. intros t. apply live_DEL_eq.
Qed.

(** The row a dispatch starts with. *)
Definition new_row (task : Task) (i : string) (n : Z) (w : world R) : TaskExecution :=
  mkExecution (last_id (executions (tabs w)) + 1) (t_ID task) i 0 "running" (Some (clock w)) None "" "" n
    (clock w) 0 "" (clock w).

Definition known (i : string) (w : world R) : bool :=
  existsb (λ x, bool_decide (ExecutionID x = i)) (rows (executions (tabs w))).
Definition locked (i : string) (w : world R) : bool :=
  match live (clock w) (lockKey i) (redis w) with Some _ => true | None => false end.

(** The world in which the executor is chosen. *)
Definition started (task : Task) (i : string) (n : Z) (w : world R) : world R :=
  set_tabs (set_executions (insert_row (λ id,
      mkExecution id (t_ID task) i 0 "running" (Some (clock w)) None "" "" n (clock w) 0 "" (clock w))))
    (set_redis (SET (clock w) (lockKey i) (VStr (fmt_d (clock w))) (dispatch_lockTTL (TimeoutSeconds task))) w).

(** How a dispatch ends. *)
Definition settled (task : Task) (i : string) (n : Z) (w : world R) (out : string * option error)
    (w' : world R) : Prop :=
  out.1 = i ∧
  match out.2 with
  | None =>
      ∃ e send, fit e ∧ dispatcher cfg = Some send ∧ send (e_Name e) (grpc_task task i) = None ∧
        dispatched (fx w') = dispatched (fx w) ++ [(e_Name e, grpc_task task i)] ∧
        rows (executions (tabs w')) = rows (executions (tabs w)) ++ [set_executor (e_ID e) (new_row task i n w)] ∧
        locked i w' = true ∧ is_Some (live (clock w) (renewKey i) (redis w'))
  | Some _ =>
      dispatched (fx w') = dispatched (fx w) ∧
      (∃ x, rows (executions (tabs w')) = rows (executions (tabs w)) ++ [x] ∧
            ExecutionID x = i ∧ x_Status x = "failed" ∧ EndTime x = Some (clock w)) ∧
      locked i w' = false
  end.

Lemma settled_failed task i n w w1 msg err :
  known i w = false → clock w1 = clock w → dispatched (fx w1) = dispatched (fx w) →
  (∃ ex, rows (executions (tabs w1)) = rows (executions (tabs w)) ++ [set_executor ex (new_row task i n w)]) →
  settled task i n w (i, Some err) (run (fail_dispatch cfg (t_ID task) i msg) w1 []).2.
Proof.
  intros Hk Hc Hd (ex & Hrows).
  destruct (run_fail_dispatch (t_ID task) i msg w1) as (He & Hd' & _ & Hlock).
  split; [done|]. simpl. split; [congruence|]. split.
  - eexists. split; [|split; [|split]].
    + rewrite He. simpl. rewrite Hrows, map_app, update_where_fresh by done. simpl.
      rewrite bool_decide_eq_true_2 by done. done.
    + done.
    + done.
    + simpl. by rewrite Hc.
  - unfold locked. by rewrite Hlock.
Qed.

Lemma dispatch_keys i : lockKey i ≠ renewKey i.
Proof. unfold lockKey, renewKey. intros Heq. cbn in Heq. discriminate Heq. Qed.

Lemma run_send_task task i n w w1 e :
  known i w = false → fit e → clock w1 = clock w → dispatched (fx w1) = dispatched (fx w) →
  rows (executions (tabs w1)) = rows (executions (tabs w)) ++ [new_row task i n w] →
  locked i w1 = true →
  let '(out, w') := run (send_task cfg task i e) w1 [] in settled task i n w out w'.
Proof.
  intros Hk Hfit Hc Hd Hrows Hlock. unfold send_task. seq.
  destruct (dispatcher cfg) as [send|] eqn:Esend.
  - seq.
    set (w2 := set_tabs _ w1).
    assert (rows (executions (tabs w2)) =
            rows (executions (tabs w)) ++ [set_executor (e_ID e) (new_row task i n w)]) as Hrows2.
    { simpl. rewrite Hrows, map_app, update_where_fresh by done. simpl.
      by rewrite bool_decide_eq_true_2 by done. }
    destruct (send (e_Name e) (grpc_task task i)) as [text|] eqn:Etext.
    + seq. apply settled_failed; [done..|]. by exists (e_ID e).
    + seq. set (w3 := set_fx _ w2).
      pose proof (run_preserves (quiet w3) (AddTaskLog i (t_ID task) "" "info"
        ("Task dispatched to executor: " +:+ e_Name e)) w3 []
        ltac:(by apply quiet_AddTaskLog) ltac:(reflexivity)) as Hq.
      seq. set (w4 := (run _ w3 []).2) in *. unfold redis_set. seq.
      split; [done|]. exists e, send. simpl. rewrite (quiet_dispatched _ _ Hq).
      rewrite (quiet_executions _ _ Hq). simpl. rewrite Hd.
      split; [done|]. split; [done|]. split; [done|]. split; [done|]. split; [done|]. split.
      * unfold locked in *. simpl. rewrite (quiet_clock _ _ Hq). simpl.
        rewrite live_SET_ne by (apply not_eq_sym, dispatch_keys). by rewrite (quiet_live _ _ _ _ Hq).
      * rewrite Hc. apply live_SET_now.
  - seq. apply settled_failed; [done..|]. exists 0. rewrite Hrows. done.
Qed.

(** C2: how a dispatch ends when no call fails.  With the lock of the
    execution held, nothing changes; when the execution is already recorded,
    only the lock it took is given back.  Otherwise exactly one row is
    added, and either the task went to one online executor with room, the row
    names that executor, and lock and renewal are held, or nothing was sent,
    the row says failed with its end time, and the lock is free. *)
Theorem dispatchTaskExecution_settles task i n w :
  let '(out, w') := run (dispatchTaskExecution cfg task i n) w [] in
  if locked i w then out = ("", Some (ErrLockConflict (t_ID task))) ∧ w' = w
  else if known i w then
    (∃ err, out = ("", Some err)) ∧ tabs w' = tabs w ∧ fx w' = fx w ∧ locked i w' = false
  else settled task i n w out w'.
Proof.
  unfold dispatchTaskExecution. seq. seq. rewrite SETNX_spec. unfold locked.
  pose proof (live_SET_now (clock w) (lockKey i) (VStr (fmt_d (clock w)))
    (dispatch_lockTTL (TimeoutSeconds task)) (redis w)) as Hset.
  destruct (live (clock w) (lockKey i) (redis w)) as [l|] eqn:El; [by destruct w|].
  cbn [fst snd]. rewrite bool_decide_eq_false_2 by done.
  set (w1 := set_redis _ w).
  seq. rewrite run1_write_checked. unfold insert_execution at 1 2. simpl tabs.
  destruct (known i w) eqn:Hk; unfold known in Hk; rewrite Hk.
  { cbn [fst snd]. unfold redis_del. simpl (if default false (Some true) then _ else _). seq. seq. split; [by eexists|]. split; [done|]. split; [done|].
    simpl. by rewrite live_DEL_eq. }
  cbn [fst snd]. seq. set (w2 := set_tabs _ w1).
  pose proof (choose_executor_fit task w2) as Hfit.
  pose proof (run_reads (choose_executor cfg task) w2 [] (reads_choose_executor cfg task)) as Hread.
  destruct (run (choose_executor cfg task) w2 []) as [[e|[msg err]] w3]; cbn [fst snd] in *; subst w3.
  - apply (run_send_task task i n w w2 e); try done; [by apply Hfit|].
    unfold locked. simpl. by destruct Hset as [? ->].
  - seq. apply settled_failed; [done..|]. exists 0. done.
Qed.
End dispatching.

(** ** Properties of triggering *)

Section triggering.
Context `{RedisLaws R}.
Variable cfg : env.
Implicit Types w : world R.

(** The newest running execution of a task. *)
Definition running_execution (taskID : Z) (t : tables) : option string :=
  ExecutionID <$> head (order_by newest_first
    (where_ (λ x, (x_TaskID x =? taskID) && is_running x) (rows (executions t)))).

Definition skipped_id (taskID now : Z) : string := "exec-" +:+ fmt_d taskID +:+ "-" +:+ fmt_d now.

Lemma run_get_renewal now i w : 
  run (get_renewal now i) w [] = (GET now (renewKey i) (redis w) ≫= renew_of, w).
Proof. unfold get_renewal. seq. simpl. by destruct w. Qed.

Lemma insert_execution_fresh taskID i status msg n now w :
  known i w = false →
  insert_execution taskID i status msg n now (tabs w) =
    Some (tt, set_executions (insert_row (λ id,
      mkExecution id taskID i 0 status (Some now) None "" msg n now 0 "" now)) (tabs w)).
Proof. intros Hk. unfold insert_execution. unfold known in Hk. by rewrite Hk. Qed.

Lemma run_record_skipped taskID rid w :
  known (skipped_id taskID (clock w)) w = false →
  let w' := (run (record_skipped cfg taskID rid) w []).2 in
  rows (executions (tabs w')) = rows (executions (tabs w)) ++
    [mkExecution (last_id (executions (tabs w)) + 1) taskID (skipped_id taskID (clock w)) 0 "skipped"
       (Some (clock w)) None ""
       ("skipped: previous execution (id: " +:+ rid +:+ ") is still running") 0 (clock w) 0 "" (clock w)] ∧
  dispatched (fx w') = dispatched (fx w) ∧ spawned (fx w') = spawned (fx w) ∧
  ∀ k, dedup_key k = false → entry (redis w') k = entry (redis w) k.
Proof.
  intros Hk. unfold record_skipped. seq. seq. rewrite run1_write_checked.
  rewrite insert_execution_fresh by done. cbn [fst snd].
  set (w1 := set_tabs _ w). seq.
  pose proof (run_preserves (quiet w1) (AddTaskLog (skipped_id taskID (clock w)) taskID "" "warn"
    ("skipped: previous execution (id: " +:+ rid +:+ ") is still running")) w1 []
    ltac:(by apply quiet_AddTaskLog) ltac:(reflexivity)) as H2.
  unfold skipped_id in H2. set (w2 := (run _ w1 []).2) in *.
  pose proof (run_preserves (quiet w1) (SendWebhookNotification cfg taskID (skipped_id taskID (clock w))
    "skipped" "" ("skipped: previous execution (id: " +:+ rid +:+ ") is still running") 0) w2 []
    ltac:(apply quiet_SendWebhookNotification) H2) as H3.
  unfold skipped_id in *. destruct H3 as [He _ _ Hs Hd _ _ _ Hr].
  split; [by rewrite He|]. split; [exact Hd|]. split; [exact Hs|exact Hr].
Qed.

(** triggering a task whose newest running execution was renewed within
    the task's timeout (or whose task has no timeout) starts nothing: the
    answer says it is already running, a skipped execution is recorded, and
    every other row, the goroutines and the locks are as before. *)
Theorem TriggerTask_skips_running taskID w rid v lastRenew k
    (Hleader : leader w = true)
    (Hrunning : running_execution taskID (tabs w) = Some rid)
    (Hrenewal : GET (clock w) (renewKey rid) (redis w) = Some v) (Hv : renew_of v = Some lastRenew)
    (Htask : find_task taskID (tabs w) = Some k)
    (Hfresh : int32 (TimeoutSeconds k) ≤ 0 ∨ unix (clock w) - lastRenew ≤ int32 (TimeoutSeconds k))
    (Hid : known (skipped_id taskID (clock w)) w = false) :
  let '(out, w') := run (TriggerTask cfg taskID) w [] in
  out = ("", Some (ErrAlreadyRunning taskID rid)) ∧
  (∃ x, rows (executions (tabs w')) = rows (executions (tabs w)) ++ [x] ∧
        x_Status x = "skipped" ∧ x_TaskID x = taskID) ∧
  dispatched (fx w') = dispatched (fx w) ∧ spawned (fx w') = spawned (fx w) ∧
  ∀ k, dedup_key k = false → entry (redis w') k = entry (redis w) k.
Proof.
  unfold TriggerTask. seq. rewrite Hleader. simpl negb. cbv iota. seq. seq.
  fold (running_execution taskID (tabs w)). rewrite Hrunning. simpl mbind. cbv iota. seq.
  rewrite run_get_renewal, Hrenewal. simpl mbind. rewrite Hv. cbn [fst snd]. seq.
  destruct (run_GetTaskByID cfg taskID w) as (r & -> & Hr). rewrite Htask in Hr.
  destruct Hr as (i & -> & Hi). cbn [fst snd].
  assert (renewal_expired (clock w) lastRenew (stale_after (Ok i)) = false) as ->.
  { simpl. rewrite Hi. simpl TimeoutSeconds. destruct (Z.ltb_spec 0 (int32 (TimeoutSeconds k))); [|done].
    simpl. apply Z.ltb_ge. lia. }
  pose proof (run_record_skipped taskID rid w Hid) as Hs.
  rewrite run_then by (unfold record_skipped; solve_clean). rewrite run1_ret. cbn [fst snd].
  destruct Hs as (Hrows & ? & ? & ?). split; [done|]. split; [|done]. rewrite Hrows. by eexists.
Qed.
End triggering.

(** The lifetime of a renewal record is meant to be that of the lock. *)
Lemma renew_ttl_seconds :
  forallb (λ k, let ttl := k * Second in (renew_ttl ttl <=? 0) || (ttl <? renew_ttl ttl))
    (seqZ 60 7141) = true.
Proof. vm_compute. reflexivity. Qed.

Lemma dispatch_lockTTL_range t :
  - 2 ^ 31 ≤ t < 2 ^ 31 → ∃ k, dispatch_lockTTL t = k * Second ∧ 60 ≤ k ≤ 7200.
Proof.
  intros Ht. unfold dispatch_lockTTL, Second.
  rewrite (int64_small (t * 2)) by lia. rewrite int64_small by lia.
  destruct (Z.eqb_spec t 0); [exists 3600; lia|].
  repeat match goal with |- context [?a <? ?b] => destruct (Z.ltb_spec a b) end;
    first [exists 7200; lia | exists 60; lia | exists (t * 2); lia].
Qed.

(** for every 32-bit timeout a task lock lives between one minute and two
    hours, but the renewal record written with it is stored with
    [time.Duration(lockTTL) * time.Second] of a value that is a duration
    already: the product overflows and the record never has the lifetime of
    the lock; it has none at all or outlives it. *)
Theorem renewal_outlives_lock t (Ht : - 2 ^ 31 ≤ t < 2 ^ 31) :
  let ttl := dispatch_lockTTL t in
  60 * Second ≤ ttl ≤ 7200 * Second ∧
  (deadline 0 (renew_ttl ttl) = None ∨ ttl < renew_ttl ttl).
Proof.
  destruct (dispatch_lockTTL_range t Ht) as (k & -> & Hk). simpl. split; [unfold Second; lia|].
  pose proof renew_ttl_seconds as Hall. rewrite forallb_forall in Hall.
  specialize (Hall k).
  apply orb_true_iff in Hall as [Hn|Hl].
  - left. unfold deadline. apply Z.leb_le in Hn. by rewrite (proj2 (Z.ltb_ge _ _)).
  - right. by apply Z.ltb_lt.
  - apply list_elem_of_In, elem_of_seqZ. lia.
Qed.

(** ** Tenant isolation *)

Section isolation.
Context `{Redis R}.
Variable cfg : env.
Implicit Types w : world R.

(** The execution belongs to a task of the domain. *)
Definition of_domain (t : tables) (domainID : Z) (x : TaskExecution) : Prop :=
  ∃ k, k ∈ rows (tasks t) ∧ t_ID k = x_TaskID x ∧ t_DomainID k = domainID.

Lemma in_domain_of t domainID x : in_domain t domainID x = true → of_domain t domainID x.
Proof.
  unfold in_domain, task_of. destruct (where_ _ _) as [|k ks] eqn:E; simpl; [done|].
  intros Hd. exists k. assert (k ∈ where_ (λ k, x_TaskID x =? t_ID k) (rows (tasks t))) as Hk
    by (rewrite E; by left).
  apply elem_of_where in Hk as [Hk Hid]. split; [done|]. lia.
Qed.

Lemma subselect_of_domain (t : tables) domainID x :
  in_list (x_TaskID x) (t_ID <$> where_ (λ k, t_DomainID k =? domainID) (rows (tasks t))) = true →
  of_domain t domainID x.
Proof.
  rewrite in_list_true, list_elem_of_fmap. intros (k & Hid & [Hk Hd]%elem_of_where).
  exists k. split; [done|]. lia.
Qed.

(** Nothing outside the domain has been removed. *)
Record domain_only (domainID : Z) (w0 w : world R) : Prop := {
  do_tasks : tasks (tabs w) = tasks (tabs w0);
  do_executions : ∀ x, x ∈ rows (executions (tabs w0)) → ¬ of_domain (tabs w0) domainID x →
    x ∈ rows (executions (tabs w));
  do_logs : ∀ l, l ∈ rows (task_logs (tabs w0)) →
    (∀ x, x ∈ rows (executions (tabs w0)) → ExecutionID x = l_ExecutionID l → ¬ of_domain (tabs w0) domainID x) →
    l ∈ rows (task_logs (tabs w));
}.

Lemma domain_only_logs domainID w0 (ids : list string) :
  (∀ i, i ∈ ids → ∃ x, x ∈ rows (executions (tabs w0)) ∧ ExecutionID x = i ∧ of_domain (tabs w0) domainID x) →
  preserves (domain_only domainID w0) (delete_logs ids).
Proof.
  intros Hids. apply preserves_write. intros w [Ht He Hl]. split; [done|done|].
  intros l Hin Hfor. simpl. apply elem_of_where. split; [by apply Hl|].
  apply negb_true_iff. destruct (in_list (l_ExecutionID l) ids) eqn:E; [|done].
  apply in_list_true in E. destruct (Hids _ E) as (x & Hx & Hid & Hd). by destruct (Hfor x Hx Hid).
Qed.

Lemma domain_only_delete domainID w0 w p :
  domain_only domainID w0 w →
  (∀ x, x ∈ rows (executions (tabs w0)) → p x = true → of_domain (tabs w0) domainID x) →
  domain_only domainID w0 (set_tabs (set_executions (delete_where p)) w).
Proof.
  intros [Ht He Hl] Hp. split; [done| |done]. intros x Hx Hn. simpl. apply elem_of_where.
  split; [by apply He|]. apply negb_true_iff. destruct (p x) eqn:E; [|done]. by destruct Hn; apply Hp.
Qed.

Lemma domain_only_run {A} domainID w0 (m : M (world R) A) fs :
  preserves (domain_only domainID w0) m → domain_only domainID w0 (m w0 fs).2.1.
Proof. intros Hm. apply Hm. by split. Qed.

Lemma domain_only_batch domainID role ids w fs :
  is_system_admin role = false →
  domain_only domainID w (run (BatchDeleteExecutionsWithDomainCheck ids domainID role) w fs).2.
Proof.
  intros Hrole. unfold BatchDeleteExecutionsWithDomainCheck. destruct ids as [|j ids]; [by split|].
  refine (run_triple (eq w) _ (λ _, domain_only domainID w) w fs _ eq_refl).
  eapply triple_bind; [apply triple_select|].
  intros [l|e]; [|apply triple_ret; by intros w1 [-> _]].
  intros w1 fs1 [-> Hl]. specialize (Hl l eq_refl). apply domain_only_run, preserves_bind.
  - destruct l as [|i0 l0]; [apply preserves_ret|]. apply domain_only_logs.
    intros i1. rewrite Hl, list_elem_of_fmap. intros (x & -> & [Hx Hc]%elem_of_where).
    exists x. split; [done|]. split; [done|]. rewrite Hrole in Hc. simpl in Hc.
    apply andb_true_iff in Hc as [_ Hc]. by apply in_domain_of.
  - intros _. apply preserves_write. intros w2 Hd.
    apply domain_only_delete; [done|]. intros x _. rewrite Hrole. simpl.
    rewrite andb_true_iff. intros [_ Hs]. rewrite (do_tasks _ _ _ Hd) in Hs.
    by apply subselect_of_domain.
Qed.

Lemma execution_key_inj w x y :
  NoDup (x_ID <$> rows (executions (tabs w))) →
  x ∈ rows (executions (tabs w)) → y ∈ rows (executions (tabs w)) → x_ID x = x_ID y → x = y.
Proof.
  intros Hkey [n Hn]%list_elem_of_lookup [m Hm]%list_elem_of_lookup Heq.
  assert (n = m) as ->; [|congruence].
  eapply (NoDup_lookup _ _ _ (x_ID x) Hkey); rewrite list_lookup_fmap; [by rewrite Hn|].
  rewrite Hm. simpl. congruence.
Qed.

Lemma domain_only_single domainID role i w fs :
  is_system_admin role = false → NoDup (x_ID <$> rows (executions (tabs w))) →
  domain_only domainID w (run (DeleteExecutionWithDomainCheck i domainID role) w fs).2.
Proof.
  intros Hrole Hkey. unfold DeleteExecutionWithDomainCheck.
  refine (run_triple (eq w) _ (λ _, domain_only domainID w) w fs _ eq_refl).
  eapply triple_bind; [apply triple_select|].
  intros [[executionID|]|e]; [|apply triple_ret; by intros w1 [-> _]..].
  intros w1 fs1 [-> Hl]. specialize (Hl _ eq_refl). rewrite Hrole in Hl. simpl in Hl.
  destruct (where_ _ _) as [|x xs] eqn:E; [done|]. injection Hl as ->.
  assert (x ∈ where_ (λ x, (x_ID x =? i) && in_domain (tabs w) domainID x) (rows (executions (tabs w))))
    as [Hx [Hi%Z.eqb_eq Hd%in_domain_of]%andb_true_iff]%elem_of_where by (rewrite E; by left).
  apply domain_only_run, preserves_bind.
  - case_bool_decide; [apply preserves_ret|]. apply domain_only_logs.
    intros i1 ->%list_elem_of_singleton. by exists x.
  - intros _. apply preserves_write. intros w2 Hd2. apply domain_only_delete; [done|].
    intros y Hy Hyi%Z.eqb_eq. replace y with x; [done|].
    apply (execution_key_inj w); [done..|congruence].
Qed.

(** deleting executions, one or many, for a caller who is not a system
    administrator removes no execution and no log of another domain, whatever
    calls fail and whatever identifiers are asked for. *)
Theorem domain_check_protects_others domainID role ids i w fs
    (Hrole : is_system_admin role = false)
    (Hkey : NoDup (x_ID <$> rows (executions (tabs w)))) :
  domain_only domainID w (run (BatchDeleteExecutionsWithDomainCheck ids domainID role) w fs).2 ∧
  domain_only domainID w (run (DeleteExecutionWithDomainCheck i domainID role) w fs).2.
Proof. split; [by apply domain_only_batch|by apply domain_only_single]. Qed.

(** The rows a page may show. *)
Definition own_task (f : TaskListFilter) w (i : TaskInfo) : Prop :=
  t_DomainID (info i) = f_DomainID f ∧ ∃ k, k ∈ rows (tasks (tabs w)) ∧ info i = scan_task k.

Definition own_execution domainID w (x : TaskExecutionWithNames) : Prop :=
  ∃ y, y ∈ rows (executions (tabs w)) ∧ of_domain (tabs w) domainID y ∧ n_execution x = scan_execution11 y.

Lemma page_size_range n : 1 ≤ page_size n ≤ 100.
Proof.
  unfold page_size. destruct (Z.leb_spec n 0); simpl; [lia|].
  destruct (Z.ltb_spec 100 n); lia.
Qed.

Lemma reads_with_statuses ts : reads (with_statuses cfg ts : M (world R) _).
Proof.
  intros P. induction ts as [|t ts IH]; simpl; [apply preserves_ret|].
  unfold with_status, getLastExecutionStatus. solve_preserves.
Qed.
Lemma with_statuses_info ts w fs : info <$> (run (with_statuses cfg ts) w fs).1 = ts.
Proof.
  revert w fs. induction ts as [|t ts IH]; intros w fs; [done|]. simpl.
  unfold run in *. rewrite run_bind. unfold with_status at 1. rewrite run_bind.
  destruct (getLastExecutionStatus (t_ID t) w fs) as [st [w1 fs1]]. rewrite run_ret. rewrite run_bind.
  specialize (IH w1 fs1). destruct (with_statuses cfg ts w1 fs1) as [l [w2 fs2]]. simpl in *. by f_equal.
Qed.

Lemma execution_matches_domain t domainID role ef x :
  is_system_admin role = false → execution_matches t domainID role ef x = true → of_domain t domainID x.
Proof.
  intros Hr. unfold execution_matches. rewrite Hr, !andb_true_iff. simpl.
  intros Hm. apply in_domain_of. tauto.
Qed.

Lemma ListTasksWithFilter_own f w fs infos total :
  is_system_admin (f_Role f) = false →
  (run (ListTasksWithFilter cfg f) w fs).1 = Ok (infos, total) →
  Forall (own_task f w) infos ∧ Z.of_nat (length infos) ≤ page_size (f_PageSize f).
Proof.
  intros Hrole. pose proof (page_size_range (f_PageSize f)) as Hps.
  refine (run_triple (eq w) _ (λ r _, r = Ok (infos, total) → _) w fs _ eq_refl).
  unfold ListTasksWithFilter. eapply triple_bind; [apply triple_select|].
  intros [n|e]; [|by apply triple_ret].
  eapply (triple_bind _ _ (λ r w', w' = w ∧ ∀ ts, r = Ok ts → ts = _)).
  { eapply triple_weaken; [apply (triple_select _ w)| |intros r w' Hr; exact Hr]. by intros w' [-> _]. }
  intros [ts|e]; [|by apply triple_ret].
  intros w1 fs1 [-> Hts] Heq. specialize (Hts ts eq_refl). rewrite run_bind in Heq.
  pose proof (with_statuses_info ts w fs1) as Hinfo. unfold run in Hinfo.
  destruct (with_statuses cfg ts w fs1) as [l [w2 fs2]]. injection Heq as <- <-. simpl in Hinfo.
  rewrite <- Hinfo in Hts. split.
  - apply Forall_forall. intros i Hi. assert (info i ∈ info <$> l) as Hi' by (by apply list_elem_of_fmap; exists i).
    rewrite Hts in Hi'. apply list_elem_of_fmap in Hi' as (k & Hk & Hin).
    apply elem_of_page, elem_of_order_by, elem_of_where in Hin as [Hin Hm].
    unfold task_matches in Hm. rewrite Hrole, !andb_true_iff in Hm. simpl in Hm.
    split; [rewrite Hk; simpl; lia|by exists k].
  - rewrite <- (length_fmap info l), Hts, length_fmap. apply page_length. lia.
Qed.

Lemma GetAllExecutions_own domainID role ef page pageSize w fs xs total :
  is_system_admin role = false →
  (run (GetAllExecutions domainID role ef page pageSize) w fs).1 = Ok (xs, total) →
  Forall (own_execution domainID w) xs ∧
  (0 ≤ pageSize → Z.of_nat (length xs) ≤ pageSize).
Proof.
  intros Hrole. refine (run_triple (eq w) _ (λ r _, r = Ok (xs, total) → _) w fs _ eq_refl).
  unfold GetAllExecutions. eapply triple_bind; [apply triple_select|].
  intros [n|e]; [|by apply triple_ret].
  eapply (triple_bind _ _ (λ r w', w' = w ∧ ∀ ts, r = Ok ts → ts = _)).
  { eapply triple_weaken; [apply (triple_select _ w)| |intros r w' Hr; exact Hr]. by intros w' [-> _]. }
  intros [l|e]; apply triple_ret; [|done]. intros w1 [-> Hl] [= <- <-]. rewrite (Hl l eq_refl). split.
  - apply Forall_forall. intros x (y & -> & Hy)%list_elem_of_fmap. simpl.
    apply elem_of_page, elem_of_order_by, elem_of_where in Hy as [Hy Hm].
    exists y. split; [done|]. split; [by apply execution_matches_domain in Hm|done].
  - intros Hn. rewrite length_fmap. by apply page_length.
Qed.

(** the two lists a user pages through show only rows of the user's
    domain, unless the role is a system administrator's, and never more than
    a page; a page of tasks has at most 100 rows.  This holds whatever calls
    fail and whatever the other filters are. *)
Theorem lists_stay_in_domain f domainID role ef page pageSize w fs
    (Hrole : is_system_admin (f_Role f) = false) (Hrole' : is_system_admin role = false)
    (Hsize : 0 ≤ pageSize) :
  (∀ infos total, (run (ListTasksWithFilter cfg f) w fs).1 = Ok (infos, total) →
     Forall (own_task f w) infos ∧ Z.of_nat (length infos) ≤ page_size (f_PageSize f) ≤ 100) ∧
  (∀ xs total, (run (GetAllExecutions domainID role ef page pageSize) w fs).1 = Ok (xs, total) →
     Forall (own_execution domainID w) xs ∧ Z.of_nat (length xs) ≤ pageSize).
Proof.
  split.
  - intros infos total [? ?]%ListTasksWithFilter_own; [|done].
    pose proof (page_size_range (f_PageSize f)). split; [done|lia].
  - intros xs total [? ?]%GetAllExecutions_own; [|done]. auto.
Qed.
End isolation.

(** ** A concrete deployment *)

Definition demo_env : env :=
  mkEnv (Some (λ _ _, None)) true true true (λ _, true) (λ _, true) (λ _, "soon") 0 "db error" "redis error".

Definition demo_task : Task :=
  mkTask 7 "report" "shell" "{}" "" 60 2 5 true "pending" 1 None [] 0 1 0 0.
Definition demo_execution : TaskExecution :=
  mkExecution 1 7 "exec-7-1" 1 "running" (Some 0) None "" "" 0 0 0 "" 0.
Definition demo_tables : tables :=
  mkTables (mkTable [demo_task] 7) (mkTable [demo_execution] 1) (mkTable [alive_executor] 1)
    (mkTable [mkDomainExecutor 1 1] 1)
    (mkTable [] 0) (mkTable [] 0) (mkTable [] 0).
(** The running execution was renewed at second 10; it is second 20. *)
Definition demo_redis : gmap_store :=
  SET 0 (renewKey "exec-7-1") (VInt 10) (120 * Second)
    (SET 0 (lockKey "exec-7-1") (VStr "0") (120 * Second) ∅).
Definition running_world : world gmap_store :=
  mkWorld demo_tables demo_redis (20 * Second) true (mkEffects [] [] [] [] []).

Example CancelExecution_then_report_witness :
  let '(r, w1) := run (CancelExecution demo_env "exec-7-1" "admin") running_world [] in
  let w2 := (run (UpdateExecutionResult "exec-7-1" "success" "done" "" None) w1 []).2 in
  r = Ok tt ∧
  cancels (fx w1) = [] ++ [("exec-a", "exec-7-1")] ∧
  (∀ t, live t (lockKey "exec-7-1") (redis w1) = None) ∧
  (∀ y, y ∈ rows (executions (tabs w1)) → ExecutionID y = "exec-7-1" →
     x_Status y = "failed" ∧ Error y = "task cancelled by user" ∧ EndTime y = Some (20 * Second)) ∧
  (∀ y, y ∈ rows (executions (tabs w2)) → ExecutionID y = "exec-7-1" → x_Status y = "success").
Proof.
  exact (CancelExecution_then_report demo_env "exec-7-1" "admin" running_world demo_execution alive_executor
           "success" "done" "" None eq_refl (or_introl eq_refl) eq_refl eq_refl).
Defined.

Example HandleTaskFailure_retries_once_witness :
  let '(r, w1) := run (HandleTaskFailure demo_env 7 "exec-7-1" "" "boom" 100) running_world [] in
  r = Ok tt ∧ tabs w1 = demo_tables ∧
  spawned (fx w1) = [] ++ [RetryJob 7 "exec-7-1" "" 1 100 (25 * Second)] ∧
  ∀ t e' output' msg' d', 20 * Second ≤ t < 20 * Second + 30 * Minute →
    run (HandleTaskFailure demo_env 7 e' output' msg' d') (set_clock t w1) [] = (Ok tt, set_clock t w1).
Proof.
  apply (HandleTaskFailure_retries_once demo_env 7 "exec-7-1" "" "boom" 100 running_world demo_task 0);
    [reflexivity..| |reflexivity]. split; vm_compute; congruence.
Defined.

Example TriggerTask_skips_running_witness :
  let '(out, w') := run (TriggerTask demo_env 7) running_world [] in
  out = ("", Some (ErrAlreadyRunning 7 "exec-7-1")) ∧
  (∃ x, rows (executions (tabs w')) = [demo_execution] ++ [x] ∧ x_Status x = "skipped" ∧ x_TaskID x = 7) ∧
  dispatched (fx w') = [] ∧ spawned (fx w') = [] ∧
  ∀ k, dedup_key k = false → entry (redis w') k = entry demo_redis k.
Proof.
  apply (TriggerTask_skips_running demo_env 7 running_world "exec-7-1" (VInt 10) 10 demo_task);
    [vm_compute; reflexivity..| |vm_compute; reflexivity].
  right. vm_compute. congruence.
Defined.

Example renewal_outlives_lock_witness :
  60 * Second ≤ dispatch_lockTTL 60 ≤ 7200 * Second ∧
  (deadline 0 (renew_ttl (dispatch_lockTTL 60)) = None ∨ dispatch_lockTTL 60 < renew_ttl (dispatch_lockTTL 60)).
Proof. apply (renewal_outlives_lock 60). split; vm_compute; congruence. Defined.

Example domain_check_protects_others_witness :
  domain_only 2 running_world
    (run (BatchDeleteExecutionsWithDomainCheck [1; 9] 2 "domain_admin") running_world [Fine; Ghost]).2 ∧
  domain_only 2 running_world
    (run (DeleteExecutionWithDomainCheck 1 2 "domain_admin") running_world [Fine; Ghost]).2.
Proof.
  apply (domain_check_protects_others 2 "domain_admin" [1; 9] 1 running_world [Fine; Ghost] eq_refl).
  vm_compute. apply NoDup_singleton.
Defined.

Example lists_stay_in_domain_witness :
  (∀ infos total, (run (ListTasksWithFilter demo_env (mkTaskListFilter 1 "user" 1 10 0 "" "" None))
       running_world []).1 = Ok (infos, total) →
     Forall (own_task (mkTaskListFilter 1 "user" 1 10 0 "" "" None) running_world) infos ∧
     Z.of_nat (length infos) ≤ page_size 10 ≤ 100) ∧
  (∀ xs total, (run (GetAllExecutions 1 "user"
       (mkExecutionFilter None "" "" "" "" None None None None false None None) 1 10) running_world []).1 =
       Ok (xs, total) →
     Forall (own_execution 1 running_world) xs ∧ Z.of_nat (length xs) ≤ 10).
Proof.
  apply (lists_stay_in_domain demo_env (mkTaskListFilter 1 "user" 1 10 0 "" "" None) 1 "user"
    (mkExecutionFilter None "" "" "" "" None None None None false None None) 1 10 running_world []
    eq_refl eq_refl). vm_compute. congruence.
Defined.

(** A retry of the task, sent to its executor. *)
Example dispatchTaskExecution_settles_witness :
  let '(out, w') := run (dispatchTaskExecution demo_env demo_task "exec-7-2" 1) running_world [] in
  out = ("exec-7-2", None) ∧ settled demo_env demo_task "exec-7-2" 1 running_world out w'.
Proof.
  pose proof (dispatchTaskExecution_settles demo_env demo_task "exec-7-2" 1 running_world) as Hs.
  assert (locked "exec-7-2" running_world = false) as Hl by (vm_compute; reflexivity).
  assert (known "exec-7-2" running_world = false) as Hk by (vm_compute; reflexivity).
  rewrite Hl, Hk in Hs.
  assert ((run (dispatchTaskExecution demo_env demo_task "exec-7-2" 1) running_world []).1 = ("exec-7-2", None))
    as Ho by (vm_compute; reflexivity).
  destruct (run (dispatchTaskExecution demo_env demo_task "exec-7-2" 1) running_world []) as [out w'].
  split; [exact Ho|exact Hs].
Defined.
