(* ===== verification/Cleanup.v ===== *)
(** * Cleanup, heartbeats and failover

    [src/scheduler/internal/service/cleanup_service.go], the heartbeat part of
    [executor_service.go] and [RecoverRunningTasksOnBecomeLeader] of
    [execution_service.go]: who decides that a running execution is lost, and
    who keeps its Redis lock and renewal alive.

    A pipeline is one call; [SCAN] is answered by the parameter [scan], one
    page of keys and the next cursor at a time. *)
From Stdlib Require Import Ascii.
From S2P Require Import Prelude Redis Sql World Executor Execution.

Fixpoint contains_char (c : ascii) (s : string) : bool :=
  match s with
  | EmptyString => false
  | String d s => bool_decide (c = d) || contains_char c s
  end.

(** [strings.SplitN(s, ":", 3)[2]], or [""] when there are fewer parts. *)
Fixpoint after_colon (s : string) : option string :=
  match s with
  | EmptyString => None
  | String c s => if bool_decide (c = ":"%char) then Some s else after_colon s
  end.
Definition third_part (s : string) : string := default "" (after_colon s ≫= after_colon).

Section cleanup_service.
Context `{Redis R}.
Variable cfg : env.

Definition pingExecutor (e : Executor) : bool :=
  is_connected cfg (e_Name e) ||
  negb (bool_decide (Address e = "")) &&
  dial cfg (if contains_char ":" (Address e) then Address e else Address e +:+ ":50051").

(** The three keys of an execution. *)
Definition execution_keys (executionID : string) : list string :=
  [lockKey executionID; renewKey executionID; failCountKey executionID].

(** [task.TimeoutSeconds] limits the lock between one minute and two hours;
    one hour without timeout, five minutes for an unknown task. *)
Definition clamp_ttl (ttl : Z) : Z :=
  let ttl := if ttl <? 60 then 60 else ttl in if 7200 <? ttl then 7200 else ttl.

Definition calculateLockTTL (task : result error TaskInfo) : Z :=
  clamp_ttl match task with
            | Ok i => if 0 <? TimeoutSeconds (info i) then TimeoutSeconds (info i) * 2 else 3600
            | Err _ => 300
            end.

(** ** Heartbeats *)

Definition task_timeout (executionID : string) (t : tables) : option Z :=
  TimeoutSeconds <$> head (
    x ← where_ (λ x, bool_decide (ExecutionID x = executionID)) (rows (executions t));
    where_ (λ k, x_TaskID x =? t_ID k) (rows (tasks t))).

Definition renewTaskLock (executionID : string) : M (world R) (result error unit) :=
  now ← gets clock;
  exists_ ← redis_exists now (lockKey executionID);
  match exists_ with
  | None => mret (Err ErrRedis)
  | Some present =>
      timeout ← select_opt (task_timeout executionID);
      let lockTTL := clamp_ttl match timeout ≫= id with
                               | Some n => if 0 <? n then int64 (n * 2) else 3600
                               | None => 300
                               end in
      set ← (if (present : bool)
             then redis_call (λ r, (tt, EXPIRE now (lockKey executionID) (lockTTL * Second) r))
             else redis_set now (lockKey executionID) (VStr "recovered_by_executor") (lockTTL * Second));
      match set with
      | None => mret (Err ErrRedis)
      | Some _ =>
          _ ← redis_set now (renewKey executionID) (VInt (unix now)) (lockTTL * Second);
          _ ← redis_del [failCountKey executionID];
          mret (Ok tt)
      end
  end.

Definition UpdateExecutorHeartbeatWithRunningTasks (name : string) (currentLoad : Z)
    (runningExecutionIds : list string) : M (world R) (result error unit) :=
  now ← gets clock;
  _ ←? write (set_executors (update_where (λ e, bool_decide (e_Name e = name) && is_online e)
         (beat now currentLoad)));
  _ ← for_each runningExecutionIds (λ execID, _ ← renewTaskLock execID; mret tt);
  mret (Ok tt).

Definition UpdateExecutorHeartbeat (name : string) (currentLoad : Z) : M (world R) (result error unit) :=
  UpdateExecutorHeartbeatWithRunningTasks name currentLoad [].

(** ** Stuck executions *)

Record stuckExec : Type := mkStuck {
  s_TaskID : Z; s_ExecutionID : string; s_StartTime : Z; s_TimeoutSeconds : Z;
  s_ExecutorID : Z; NoTimeout : bool; ExecutorStatus : string;
}.

Definition stuck_rows (now : Z) (t : tables) : list stuckExec :=
  x ← where_ (λ x, is_running x && bool_decide (StartTime x ≠ None) && (x_CreatedAt x <? now - 5 * Minute))
        (rows (executions t));
  (λ k, mkStuck (x_TaskID x) (ExecutionID x) (default 0 (StartTime x))
          (if TimeoutSeconds k <=? 0 then 300 else TimeoutSeconds k) (ExecutorID x)
          (TimeoutSeconds k <=? 0) (default "" (e_Status <$> executor_of t x)))
    <$> where_ (λ k, x_TaskID x =? t_ID k) (rows (tasks t)).

(** The replies of a pipeline of [GET]s, none when it fails. *)
Definition get_renewals (now : Z) (ids : list string) : M (world R) (list (option Z)) :=
  o ← redis_call (λ r, ((λ id, GET now (renewKey id) r ≫= renew_of) <$> ids, r));
  mret (default (replicate (length ids) None) o).

(** Why an execution is given up, [None] when it is left alone. *)
Definition stuck_reason (now : Z) (executorOnline executorReachable : bool) (renewal : option Z)
    (s : stuckExec) : option string :=
  let lastRenewSecondsAgo := match renewal with Some r => unix now - r | None => 9999 end in
  let renewalExpired := negb (NoTimeout s) && (s_TimeoutSeconds s <? lastRenewSecondsAgo) in
  let taskTimeout := negb (NoTimeout s) && (int64 (s_TimeoutSeconds s * Second) <? now - s_StartTime s) in
  if negb executorOnline then Some "executor is offline"
  else if negb executorReachable then Some "executor is unreachable (ping failed)"
  else if bool_decide (renewal = None) then Some "no renewal record found"
  else if renewalExpired then
    Some ("renewal expired (" +:+ fmt_d lastRenewSecondsAgo +:+ " seconds ago, timeout " +:+
          fmt_d (s_TimeoutSeconds s) +:+ ")")
  else if taskTimeout then Some "task execution timeout"
  else None.

Definition cleanup_stuck (onlineExecutorIDs : list Z) (c : stuckExec * option Z) : M (world R) unit :=
  let '(s, renewal) := c in
  now ← gets clock;
  let executorOnline := (s_ExecutorID s <=? 0) || in_list (s_ExecutorID s) onlineExecutorIDs ||
                        bool_decide (ExecutorStatus s = "online") in
  executorReachable ←
    (if executorOnline && (0 <? s_ExecutorID s) then
       e ← GetExecutorByID (s_ExecutorID s);
       mret match e with Ok e => pingExecutor e | Err _ => false end
     else mret true);
  _ ← redis_exists now (lockKey (s_ExecutionID s));
  match stuck_reason now executorOnline executorReachable renewal s with
  | Some reason =>
      _ ← UpdateExecutionResult (s_ExecutionID s) "failed" "" ("task stuck: " +:+ reason) None;
      _ ← redis_del (execution_keys (s_ExecutionID s));
      effect (spawn (FailureJob (s_TaskID s) (s_ExecutionID s) ("task stuck: " +:+ reason)))
  | None => mret tt
  end.

Definition cleanupDeadTasks : M (world R) unit :=
  now ← gets clock;
  o ← select (stuck_rows now);
  match o with
  | Err _ | Ok [] => mret tt
  | Ok stuckExecutions =>
      renewals ← get_renewals now (s_ExecutionID <$> stuckExecutions);
      let executorIDs := s_ExecutorID <$> where_ (λ s, (0 <? s_ExecutorID s) &&
                           negb (bool_decide (ExecutorStatus s = "online"))) stuckExecutions in
      online ← (match executorIDs with
                | [] => mret (Some [])
                | _ => select_opt (λ t, e_ID <$> where_ (λ e, in_list (e_ID e) executorIDs && is_online e)
                                                  (rows (executors t)))
                end);
      for_each (combine stuckExecutions renewals) (cleanup_stuck (default [] online))
  end.

(** ** Offline executors *)

(** Running, on an executor that is offline or silent for 45 seconds, or on
    none. *)
Definition orphaned (now : Z) (t : tables) (x : TaskExecution) : bool :=
  is_running x &&
  (match executor_of t x with
   | Some e => bool_decide (e_Status e = "offline") || heartbeat_before (now - 45 * Second) e
   | None => false
   end || (ExecutorID x =? 0)).

Definition fail_orphan (x : TaskExecution) : M (world R) unit :=
  let reason := "executor went offline during task execution" in
  _ ← UpdateExecutionResult (ExecutionID x) "failed" "" reason None;
  _ ← redis_del (execution_keys (ExecutionID x));
  effect (spawn (FailureJob (x_TaskID x) (ExecutionID x) reason)).

Definition cleanupTasksFromOfflineExecutors : M (world R) unit :=
  now ← gets clock;
  o ← select (λ t, where_ (orphaned now t) (rows (executions t)));
  match o with
  | Err _ => mret tt
  | Ok xs => for_each xs fail_orphan
  end.

Definition cleanupOfflineExecutors : M (world R) unit :=
  now ← gets clock;
  r ← write (set_executors (update_where (λ e, is_online e && heartbeat_before (now - 45 * Second) e)
        (set_executor_status now "offline")));
  match r with
  | Err _ => mret tt
  | Ok _ => cleanupTasksFromOfflineExecutors
  end.

(** ** Stale locks *)

Definition running_timeouts (t : tables) : list (string * Z) :=
  x ← where_ is_running (rows (executions t));
  (λ k, (ExecutionID x, TimeoutSeconds k)) <$> where_ (λ k, x_TaskID x =? t_ID k) (rows (tasks t)).

(** [failStr is not empty], an error reading as the empty string. *)
Definition has_text (v : option rval) : bool :=
  match v with
  | Some (VInt _) => true
  | Some (VStr s) => negb (bool_decide (s = ""))
  | _ => false
  end.

(** The failure counters to reset: the execution has no renewal, or a fresh
    one. *)
Definition counters_to_reset (now : Z) (r : R) (running : list (string * Z)) : list string :=
  '(executionID, timeout) ← running;
  match GET now (renewKey executionID) r with
  | None | Some (VHash _) => [failCountKey executionID]
  | Some v =>
      let lastRenew := default 0 (renew_of v) in
      if ((timeout <=? 0) || (unix now - lastRenew <=? timeout)) &&
         has_text (GET now (failCountKey executionID) r)
      then [failCountKey executionID] else []
  end.

Definition remove_stale_lock (running : list string) (key : string) : M (world R) unit :=
  let executionID := third_part key in
  if in_list executionID running then mret tt
  else
    _ ← redis_del [key];
    _ ← redis_del [renewKey executionID; failCountKey executionID];
    mret tt.

(** One page per unit of fuel; the loop ends at an error or cursor 0. *)
Fixpoint scan_locks (scan : Z → R → list string * Z) (fuel : nat) (running : list string)
    (cursor : Z) : M (world R) unit :=
  match fuel with
  | O => mret tt
  | S fuel =>
      page ← redis_call (λ r, (scan cursor r, r));
      match page with
      | None => mret tt
      | Some (keys, cursor') =>
          _ ← for_each keys (remove_stale_lock running);
          if cursor' =? 0 then mret tt else scan_locks scan fuel running cursor'
      end
  end.

Definition cleanupStaleTaskLocks (scan : Z → R → list string * Z) (fuel : nat) : M (world R) unit :=
  now ← gets clock;
  o ← select running_timeouts;
  match o with
  | Err _ => mret tt
  | Ok running =>
      _ ← (match running with
           | [] => mret tt
           | _ =>
               ks ← redis_call (λ r, (counters_to_reset now r running, r));
               match default (failCountKey ∘ fst <$> running) ks with
               | [] => mret tt
               | delKeys => _ ← redis_del delKeys; mret tt
               end
           end);
      scan_locks scan fuel (fst <$> running) 0
  end.

(** ** Failover *)

Definition forceFailTask (executionID : string) (taskID : Z) (reason executorName : string) :
    M (world R) unit :=
  _ ← UpdateExecutionResult executionID "failed" "" reason None;
  _ ← AddTaskLog executionID taskID "" "error"
        ("Task force failed on executor: " +:+ executorName +:+ ", reason: " +:+ reason);
  _ ← redis_del (execution_keys executionID);
  effect (spawn (FailureJob taskID executionID reason)).

(** [timeoutSeconds], and whether the task has none. *)
Definition recovery_timeout (task : result error TaskInfo) : Z * bool :=
  match task with
  | Ok i => if 0 <? TimeoutSeconds (info i) then (TimeoutSeconds (info i), false) else (300, true)
  | Err _ => (300, false)
  end.

Definition recently_active (now : Z) (e : Executor) : bool :=
  match LastHeartbeat e with Some h => now - h <? 90 * Second | None => false end.

Definition failover_reason (now : Z) (task : result error TaskInfo) (executor : result error Executor)
    (renewal : option Z) (x : TaskExecution) : option string :=
  let '(timeoutSeconds, noTimeout) := recovery_timeout task in
  let taskTimeout := negb noTimeout && match StartTime x with
                                       | Some st => int64 (timeoutSeconds * Second) <? now - st
                                       | None => false
                                       end in
  let holds (p : Executor → bool) := match executor with Ok e => p e | Err _ => false end in
  let lastRenewSecondsAgo := match renewal with Some r => unix now - r | None => 9999 end in
  let renewalExpired := negb noTimeout && (timeoutSeconds <? lastRenewSecondsAgo) in
  if negb (holds is_online) then Some "scheduler failover: executor is offline"
  else if negb (holds (recently_active now)) then Some "scheduler failover: executor heartbeat expired"
  else if negb (holds pingExecutor) then
    Some "scheduler failover: executor is unreachable (ping failed)"
  else if bool_decide (renewal = None) then Some "scheduler failover: no renewal record found"
  else if renewalExpired then
    Some ("scheduler failover: renewal expired (" +:+ fmt_d lastRenewSecondsAgo +:+
          " seconds ago, timeout " +:+ fmt_d timeoutSeconds +:+ ")")
  else if taskTimeout then Some "scheduler failover: task execution timeout"
  else None.

Definition recover_execution (x : TaskExecution) : M (world R) unit :=
  now ← gets clock;
  let executionID := ExecutionID x in
  task ← GetTaskByID cfg (x_TaskID x);
  executor ← GetExecutorByID (ExecutorID x);
  renewal ← get_renewal now executionID;
  _ ← redis_exists now (lockKey executionID);
  let executorName := match executor with Ok e => e_Name e | Err _ => "" end in
  match failover_reason now task executor renewal x with
  | Some reason => forceFailTask executionID (x_TaskID x) reason executorName
  | None =>
      let lockTTL := calculateLockTTL task * Second in
      _ ← redis_set now (lockKey executionID) (VStr "leader_recovered") lockTTL;
      _ ← redis_set now (renewKey executionID) (VInt (unix now)) lockTTL;
      _ ← redis_del [failCountKey executionID];
      _ ← addRecoveryLogSafe executionID (x_TaskID x) "info"
            ("Task recovered by new leader on executor: " +:+ executorName +:+ ", progress: " +:+
             fmt_d (int32 (Progress x)) +:+ "%, message: " +:+ ProgressMsg x);
      mret tt
  end.

Definition RecoverRunningTasksOnBecomeLeader : M (world R) (result error unit) :=
  now ← gets clock;
  xs ←? select (λ t, where_ (λ x, is_running x && (now - 24 * 60 * Minute <? x_CreatedAt x))
                       (rows (executions t)));
  _ ← for_each xs recover_execution;
  mret (Ok tt).

(** ** The routine *)

(** [redis.Get(...).Int64()]; an error or 0 is no request. *)
Definition checkCronReload : M (world R) unit :=
  now ← gets clock;
  o ← redis_call (λ r, (GET now "cron:needs_reload" r ≫= λ v, as_int (Some v), r));
  match o ≫= id with
  | None => mret tt
  | Some val =>
      if val =? 0 then mret tt
      else
        _ ← redis_del ["cron:needs_reload"];
        if has_cron cfg then effect (spawn ReloadJob) else mret tt
  end.

(** One tick of [cleanupStuckTasks]. *)
Definition cleanup_tick (scan : Z → R → list string * Z) (fuel : nat) : M (world R) unit :=
  isLeader ← gets leader;
  if negb isLeader then mret tt
  else
    _ ← checkCronReload;
    _ ← cleanupDeadTasks;
    _ ← cleanupOfflineExecutors;
    cleanupStaleTaskLocks scan fuel.
End cleanup_service.

(** ** Keys *)

(** Identifiers the scheduler gives out start with [exec-]. *)
Definition exec_id (i : string) : Prop := String.prefix "exec-" i = true.

Lemma lockKey_inj i j : lockKey i = lockKey j → i = j.
Proof. by intros ?%(inj (String.append _)). Qed.
Lemma renewKey_inj i j : renewKey i = renewKey j → i = j.
Proof. by intros ?%(inj (String.append _)). Qed.
Lemma lock_renew i j : lockKey i ≠ renewKey j.
Proof. unfold lockKey, renewKey. intros Heq. cbn in Heq. discriminate Heq. Qed.
Lemma lock_failCount i j : lockKey i ≠ failCountKey j.
Proof. unfold lockKey, failCountKey. intros Heq. cbn in Heq. discriminate Heq. Qed.
Lemma renew_failCount i j : exec_id i → renewKey i ≠ failCountKey j.
Proof.
  intros (t & ->)%prefix_exists. unfold renewKey, failCountKey. intros Heq. cbn in Heq. discriminate Heq.
Qed.
Lemma third_part_lock i : third_part (lockKey i) = i.
Proof. reflexivity. Qed.

Section sweeping_locks.
Context `{RedisLaws R}.
Variable cfg : env.
Implicit Types w : world R.

(** The lock and the renewal of an execution are as in [w0]. *)
Definition lock_kept (w0 : world R) (i : string) (w : world R) : Prop :=
  entry (redis w) (lockKey i) = entry (redis w0) (lockKey i) ∧
  entry (redis w) (renewKey i) = entry (redis w0) (renewKey i).

Lemma lock_kept_del w0 i ks :
  lockKey i ∉ ks → renewKey i ∉ ks → preserves (lock_kept w0 i) (redis_del ks).
Proof.
  intros Hl Hr. apply preserves_call. intros w [? ?]. unfold lock_kept. simpl.
  by rewrite !entry_DELS_ne.
Qed.
Lemma lock_kept_read {A} w0 i (f : R → A) : preserves (lock_kept w0 i) (redis_call (λ r, (f r, r))).
Proof. apply preserves_call. by intros w ?. Qed.
#[local] Hint Resolve lock_kept_read : handler.

Lemma lock_kept_counters w0 i (ks : list string) :
  exec_id i → (∀ k, k ∈ ks → ∃ j, k = failCountKey j) → preserves (lock_kept w0 i) (redis_del ks).
Proof.
  intros Hi Hks. apply lock_kept_del; intros (j & Hj)%Hks.
  - by apply lock_failCount in Hj.
  - by apply renew_failCount in Hj.
Qed.

Lemma lock_kept_stale w0 i running k :
  exec_id i → i ∈ running → (∃ j, k = lockKey j) → preserves (lock_kept w0 i) (remove_stale_lock running k).
Proof.
  intros Hi Hrun [j ->]. unfold remove_stale_lock. rewrite third_part_lock.
  destruct (in_list j running) eqn:E; [apply preserves_ret|].
  assert (i ≠ j) as Hne by (intros ->; apply not_true_iff_false in E; by rewrite in_list_true in E).
  apply preserves_bind; [|intros _; apply preserves_bind; [|intros _; apply preserves_ret]];
    apply lock_kept_del; rewrite ?not_elem_of_cons.
  - split; [by intros ?%lockKey_inj|apply not_elem_of_nil].
  - split; [intros Hx; by eapply lock_renew|apply not_elem_of_nil].
  - split; [apply lock_renew|]. split; [apply lock_failCount|apply not_elem_of_nil].
  - split; [by intros ?%renewKey_inj|]. split; [by apply renew_failCount|apply not_elem_of_nil].
Qed.

(** [SCAN] with the pattern [task:lock:*] answers keys of that form. *)
Definition scans_locks (scan : Z → R → list string * Z) : Prop :=
  ∀ c r k, k ∈ (scan c r).1 → String.prefix "task:lock:" k = true.

Lemma lock_kept_scan w0 i running scan fuel c :
  exec_id i → i ∈ running → scans_locks scan → preserves (lock_kept w0 i) (scan_locks scan fuel running c).
Proof.
  intros Hi Hrun Hscan. revert c. induction fuel as [|fuel IH]; intros c; simpl; [apply preserves_ret|].
  apply preserves_read_bind. intros [[keys c']|] Ho; [|apply preserves_ret].
  destruct (Ho _ eq_refl) as [r Hr].
  assert (∀ k, k ∈ keys → ∃ j, k = lockKey j) as Hkeys.
  { intros k Hin. apply prefix_exists, (Hscan c r). by rewrite <- Hr. }
  apply preserves_bind; [|intros _; destruct (c' =? 0); [apply preserves_ret|apply IH]].
  clear Ho Hr. induction keys as [|k keys IHk]; simpl; [apply preserves_ret|].
  apply preserves_bind; [apply lock_kept_stale; [done..|apply Hkeys; by left]|].
  intros _. apply IHk. intros k' Hk'. apply Hkeys. by right.
Qed.

Lemma counters_are_counters now (r : R) running k :
  k ∈ counters_to_reset now r running → ∃ j, k = failCountKey j.
Proof.
  unfold counters_to_reset. rewrite list_elem_of_bind. intros ([j timeout] & Hk & _).
  exists j. repeat case_match; set_solver.
Qed.

(** the sweep for stale locks never removes the lock or the renewal of an
    execution that is running, whatever [SCAN] answers (keys of the pattern
    it was asked for) and whatever calls fail. *)
Theorem cleanupStaleTaskLocks_keeps_running scan fuel w fs i
    (Hscan : scans_locks scan) (Hid : exec_id i) (Hrun : i ∈ fst <$> running_timeouts (tabs w)) :
  lock_kept w i (run (cleanupStaleTaskLocks scan fuel) w fs).2.
Proof.
  refine (run_triple (eq w) _ (λ _, lock_kept w i) w fs _ eq_refl).
  unfold cleanupStaleTaskLocks. eapply triple_bind; [by apply (triple_gets _ _ (λ _ w', w' = w))|].
  intros now. cbv beta.
  eapply (triple_bind _ _ (λ r w', w' = w ∧ ∀ a, r = Ok a → a = running_timeouts (tabs w))).
  { eapply triple_weaken; [apply (triple_select _ w)|done|done]. }
  intros [running|e]; [|apply triple_ret; by intros w1 [-> _]].
  intros w1 fs1 [-> Hl]. specialize (Hl _ eq_refl). subst running.
  set (running := running_timeouts (tabs w)) in *.
  assert (∀ m : M (world R) unit, preserves (lock_kept w i) m → lock_kept w i (m w fs1).2.1) as Hstart
    by (intros m Hm; apply Hm; by split).
  apply Hstart, preserves_bind; [|intros _; by apply lock_kept_scan].
  destruct running as [|p ps]; [apply preserves_ret|].
  apply preserves_read_bind. intros o Ho. set (ks := default _ o).
  assert (∀ k, k ∈ ks → ∃ j, k = failCountKey j) as Hks.
  { unfold ks. destruct o as [ks0|]; cbn [default from_option id].
    - destruct (Ho _ eq_refl) as [r ->]. apply counters_are_counters.
    - intros k (q & -> & _)%list_elem_of_fmap. by eexists. }
  clearbody ks. destruct ks as [|k ks]; [apply preserves_ret|].
  apply preserves_bind; [by apply lock_kept_counters|intros _; apply preserves_ret].
Qed.
End sweeping_locks.

(** ** The sweep of offline executors *)

Section orphans.
Context `{RedisLaws R}.
Variable cfg : env.
Implicit Types w : world R.

Definition orphan_reason : string := "executor went offline during task execution".

Definition failed_orphan w (x : TaskExecution) : world R :=
  set_fx (spawn (FailureJob (x_TaskID x) (ExecutionID x) orphan_reason))
    (set_redis (DELS (execution_keys (ExecutionID x)))
       (reported (ExecutionID x) "failed" "" orphan_reason (clock w, clock w) w)).

Lemma run_fail_orphan x w : run (fail_orphan x) w [] = (tt, failed_orphan w x).
Proof.
  unfold fail_orphan. seq.
  destruct (run_UpdateExecutionResult (ExecutionID x) "failed" "" orphan_reason None w) as ([st en] & Hr & Hrg).
  injection (Hrg eq_refl) as -> ->. unfold orphan_reason in Hr. rewrite Hr. cbn [fst snd].
  unfold redis_del. seq. done.
Qed.

Lemma run_for_each {A} (body : A → M (world R) unit) g xs w :
  (∀ x w, run (body x) w [] = (tt, g w x)) → (∀ x, clean (body x)) →
  run (for_each xs body) w [] = (tt, foldl g w xs).
Proof.
  intros Hrun Hc. revert w. induction xs as [|x xs IH]; intros w; simpl; [done|].
  rewrite run_then by done. rewrite Hrun. apply IH.
Qed.

(** What became of a row. *)
Definition swept (c : Z) (ids : list string) (y z : TaskExecution) : Prop :=
  ExecutionID z = ExecutionID y ∧
  (ExecutionID y ∈ ids → x_Status z = "failed" ∧ Error z = orphan_reason ∧ EndTime z = Some c) ∧
  (ExecutionID y ∉ ids → z = y).

Lemma swept_one c i (l : list TaskExecution) :
  Forall2 (swept c [i]) l (map (λ x, if bool_decide (ExecutionID x = i)
    then set_result "failed" "" orphan_reason c c x else x) l).
Proof.
  induction l as [|y l IH]; simpl; constructor; [|done]. unfold swept.
  rewrite list_elem_of_singleton. case_bool_decide; simpl; [tauto|]. done.
Qed.

Lemma swept_trans c ids i l1 l2 l3 :
  Forall2 (swept c ids) l1 l2 → Forall2 (swept c [i]) l2 l3 → Forall2 (swept c (ids ++ [i])) l1 l3.
Proof.
  intros H12. revert l3. induction H12 as [|y z l1 l2 Hyz _ IH]; intros l3 H23; inversion H23 as [|? u ? ? Hzu]; subst;
    constructor; [|by apply IH].
  destruct Hyz as (He & Hf & Hn), Hzu as (He' & Hf' & Hn'). unfold swept. rewrite elem_of_app.
  rewrite He in *. rewrite list_elem_of_singleton in *. split; [congruence|].
  destruct (decide (ExecutionID y = i)) as [Hi|Hi]; [tauto|].
  rewrite (Hn' Hi). split; [|tauto]. intros [?|?]; [by apply Hf|done].
Qed.

Lemma redis_failed_orphan w x :
  redis (failed_orphan w x) =
    DELS (execution_keys (ExecutionID x)) (DELS (execution_keys (ExecutionID x)) (redis w)).
Proof. reflexivity. Qed.

Lemma foldl_failed_orphan xs w :
  let w' := foldl failed_orphan w xs in
  clock w' = clock w ∧ dispatched (fx w') = dispatched (fx w) ∧
  spawned (fx w') = spawned (fx w) ++ ((λ x, FailureJob (x_TaskID x) (ExecutionID x) orphan_reason) <$> xs) ∧
  Forall2 (swept (clock w) (ExecutionID <$> xs)) (rows (executions (tabs w))) (rows (executions (tabs w'))) ∧
  ∀ x t, x ∈ xs → live t (lockKey (ExecutionID x)) (redis w') = None.
Proof.
  induction xs as [|x xs IH] using rev_ind; simpl.
  { rewrite app_nil_r. repeat split; try done; [|by intros ? ? ?%not_elem_of_nil].
    induction (rows (executions (tabs w))); constructor; [|done]. split; [done|]. split; [|done].
    by intros ?%not_elem_of_nil. }
  rewrite foldl_snoc. destruct IH as (Hc & Hd & Hs & Hrows & Hlock). set (w1 := foldl failed_orphan w xs) in *.
  split; [done|]. split; [done|]. split; [|split].
  - simpl. rewrite Hs, fmap_app, (assoc app). done.
  - rewrite fmap_app. eapply swept_trans; [done|]. rewrite <- Hc. apply swept_one.
  - intros y t Hy. rewrite redis_failed_orphan. apply elem_of_app in Hy as [Hy|Hy].
    + destruct (decide (ExecutionID y = ExecutionID x)) as [->|Hne]; [apply live_DELS; by left|].
      assert (∀ j, j ≠ ExecutionID x → lockKey j ∉ execution_keys (ExecutionID x)) as Hkeys.
      { intros j Hj. unfold execution_keys. rewrite !not_elem_of_cons.
        split; [by intros ?%lockKey_inj|]. split; [apply lock_renew|]. split; [apply lock_failCount|].
        apply not_elem_of_nil. }
      rewrite <- (Hlock y t Hy). apply live_entry. rewrite !entry_DELS_ne; [done|by apply Hkeys..].
    + apply list_elem_of_singleton in Hy as ->. apply live_DELS. by left.
Qed.

Lemma run_cleanupTasksFromOfflineExecutors w :
  run cleanupTasksFromOfflineExecutors w [] =
    (tt, foldl failed_orphan w (where_ (orphaned (clock w) (tabs w)) (rows (executions (tabs w))))).
Proof.
  unfold cleanupTasksFromOfflineExecutors. seq. seq. apply run_for_each; [apply run_fail_orphan|].
  intros x. unfold fail_orphan. solve_clean.
Qed.

(** What makes a running execution an orphan. *)
Definition without_executor (now : Z) (t : tables) (x : TaskExecution) : Prop :=
  ExecutorID x = 0 ∨
  match executor_of t x with
  | Some e => e_Status e = "offline" ∨
      match LastHeartbeat e with Some h => h < now - 45 * Second | None => False end
  | None => False
  end.

#[local] Instance without_executor_dec now t x : Decision (without_executor now t x).
Proof.
  unfold without_executor. destruct (executor_of t x) as [e|]; [destruct (LastHeartbeat e)|]; apply _.
Defined.

Lemma orphaned_iff now t x :
  orphaned now t x = true ↔ x_Status x = "running" ∧ without_executor now t x.
Proof.
  unfold orphaned, is_running, without_executor.
  rewrite andb_true_iff, orb_true_iff, bool_decide_eq_true, Z.eqb_eq.
  destruct (executor_of t x) as [e|]; [|intuition congruence].
  rewrite orb_true_iff, bool_decide_eq_true. unfold heartbeat_before.
  destruct (LastHeartbeat e) as [h|]; [rewrite Z.ltb_lt|]; intuition congruence.
Qed.

(** the sweep fails exactly the running executions whose executor is
    offline, silent for 45 seconds, or not recorded: each of them ends failed
    now, with its lock free and one failure goroutine started for it; every
    other execution is left as it was and nothing is dispatched. *)
Theorem cleanupTasksFromOfflineExecutors_result w :
  let orphans := filter (λ x, x_Status x = "running" ∧ without_executor (clock w) (tabs w) x)
                        (rows (executions (tabs w))) in
  let w' := (run cleanupTasksFromOfflineExecutors w []).2 in
  Forall2 (swept (clock w) (ExecutionID <$> orphans)) (rows (executions (tabs w))) (rows (executions (tabs w'))) ∧
  spawned (fx w') = spawned (fx w) ++
    ((λ x, FailureJob (x_TaskID x) (ExecutionID x) orphan_reason) <$> orphans) ∧
  dispatched (fx w') = dispatched (fx w) ∧
  ∀ x t, x ∈ orphans → live t (lockKey (ExecutionID x)) (redis w') = None.
Proof.
  rewrite run_cleanupTasksFromOfflineExecutors.
  rewrite <- (list_filter_iff _ _ _ (orphaned_iff (clock w) (tabs w))). fold (where_ (orphaned (clock w) (tabs w))).
  destruct (foldl_failed_orphan (where_ (orphaned (clock w) (tabs w)) (rows (executions (tabs w)))) w)
    as (_ & ? & ? & ? & ?). done.
Qed.

Lemma run_send_task_accepted task i e w send :
  dispatcher cfg = Some send → send (e_Name e) (grpc_task task i) = None →
  dispatched (fx (run (send_task cfg task i e) w []).2) = dispatched (fx w) ++ [(e_Name e, grpc_task task i)].
Proof.
  intros Hs Ha. unfold send_task. seq. rewrite Hs. seq. rewrite Ha. seq.
  set (w1 := set_fx _ _).
  pose proof (run_preserves (quiet w1) (AddTaskLog i (t_ID task) "" "info"
    ("Task dispatched to executor: " +:+ e_Name e)) w1 []
    ltac:(by apply quiet_AddTaskLog) ltac:(reflexivity)) as Hq.
  seq. unfold redis_set. seq. simpl. by rewrite (quiet_dispatched _ _ Hq).
Qed.

(** a dispatch inserts its row before it records the executor.  A sweep
    that runs in between takes the row for an orphan: the execution is
    recorded as failed, its lock is freed and its failure handled, and the
    dispatch then sends the task all the same. *)
Theorem sweep_fails_execution_being_dispatched task i n w e send
    (Hnew : known i w = false)
    (Hdisp : dispatcher cfg = Some send) (Haccept : send (e_Name e) (grpc_task task i) = None) :
  let w1 := started task i n w in
  let w2 := (run cleanupTasksFromOfflineExecutors w1 []).2 in
  let w3 := (run (send_task cfg task i e) w2 []).2 in
  (∀ y, y ∈ rows (executions (tabs w2)) → ExecutionID y = i → x_Status y = "failed") ∧
  locked i w2 = false ∧ FailureJob (t_ID task) i orphan_reason ∈ spawned (fx w2) ∧
  dispatched (fx w3) = dispatched (fx w) ++ [(e_Name e, grpc_task task i)].
Proof.
  intros w1 w2 w3. unfold w3. rewrite (run_send_task_accepted task i e w2 send) by done. unfold w2.
  rewrite run_cleanupTasksFromOfflineExecutors. set (orphans := where_ _ _).
  assert (new_row task i n w ∈ orphans) as Hin.
  { apply elem_of_where. split; [apply elem_of_app; right; by left|].
    unfold orphaned. simpl. by rewrite orb_true_r. }
  destruct (foldl_failed_orphan orphans w1) as (Hc & Hd & Hs & Hrows & Hlock).
  simpl snd in *. set (w2' := foldl failed_orphan w1 orphans) in *. split; [|split; [|split]].
  - intros z Hz Hi. apply list_elem_of_lookup in Hz as [k Hz].
    destruct (Forall2_lookup_r _ _ _ _ _ Hrows Hz) as (y & _ & He & Hf & _).
    apply Hf. rewrite <- He, Hi. apply list_elem_of_fmap. by exists (new_row task i n w).
  - unfold locked. by rewrite (Hlock _ _ Hin).
  - rewrite Hs. apply elem_of_app. right. apply list_elem_of_fmap. by exists (new_row task i n w).
  - by rewrite Hd.
Qed.
End orphans.

(** ** Heartbeats and failover *)

Section renewing.
Context `{RedisLaws R}.
Variable cfg : env.
Implicit Types w : world R.

Lemma clamp_ttl_range n : 60 ≤ clamp_ttl n ≤ 7200.
Proof.
  unfold clamp_ttl. destruct (Z.ltb_spec n 60).
  - simpl. lia.
  - destruct (Z.ltb_spec 7200 n); lia.
Qed.

(** The execution is protected: its lock lives another minute and its
    renewal says [c]. *)
Definition protected (c : Z) (i : string) w : Prop :=
  ∀ t, c ≤ t < c + 60 * Second →
    is_Some (live t (lockKey i) (redis w)) ∧ GET t (renewKey i) (redis w) = Some (VInt (unix c)).

Lemma live_SET_within c t k v ttl (r : R) :
  60 ≤ ttl → t < c + 60 * Second → live t k (SET c k v (ttl * Second) r) = Some (v, Some (c + ttl * Second)).
Proof.
  intros Hl Ht. rewrite live_SET_eq. unfold deadline, Second in *.
  rewrite (proj2 (Z.ltb_lt _ _)) by lia. simpl. by rewrite (proj2 (Z.leb_gt _ _)) by lia.
Qed.

Lemma live_EXPIRE_within c t k ttl (r : R) :
  60 ≤ ttl → t < c + 60 * Second → is_Some (live c k r) → is_Some (live t k (EXPIRE c k (ttl * Second) r)).
Proof.
  intros Hl Ht [[v d] Hv]. unfold live. rewrite EXPIRE_spec by (unfold Second; lia).
  rewrite decide_True by done. rewrite Hv. simpl. unfold Second in *.
  rewrite (proj2 (Z.leb_gt _ _)) by lia. by eexists.
Qed.

(** A heartbeat touches only the keys of the executions it names. *)
Definition same_but (ks : list string) w w' : Prop :=
  tabs w' = tabs w ∧ fx w' = fx w ∧ clock w' = clock w ∧ leader w' = leader w ∧
  ∀ k, k ∉ ks → entry (redis w') k = entry (redis w) k.

Lemma run_renewTaskLock i w :
  exec_id i →
  ∃ w', run (renewTaskLock i) w [] = (Ok tt, w') ∧ same_but (execution_keys i) w w' ∧ protected (clock w) i w'.
Proof.
  intros Hi. unfold renewTaskLock. seq. unfold redis_exists. seq. seq.
  set (ttl := clamp_ttl _). pose proof (clamp_ttl_range
    match Some (task_timeout i (tabs (set_redis (λ _, redis w) w))) ≫= id with
    | Some n => if 0 <? n then int64 (n * 2) else 3600
    | None => 300
    end) as Httl. fold ttl in Httl. clearbody ttl.
  assert (∀ w1, same_but [lockKey i] w w1 →
     (∀ t, t < clock w + 60 * Second → is_Some (live t (lockKey i) (redis w1))) →
     ∃ w', run (_ ← redis_set (clock w) (renewKey i) (VInt (unix (clock w))) (ttl * Second);
                _ ← redis_del [failCountKey i]; mret (Ok tt)) w1 [] = ((Ok tt : result error unit), w') ∧
           same_but (execution_keys i) w w' ∧ protected (clock w) i w') as Hrest.
  { intros w1 (Ht & Hf & Hc & Hl & Hr) Hlock. unfold redis_set. seq. unfold redis_del. seq.
    eexists. split; [done|]. split.
    - repeat (split; [done|]). intros k. unfold execution_keys. rewrite !not_elem_of_cons.
      intros (? & ? & ? & _). simpl. rewrite DEL_spec, decide_False by done.
      rewrite SET_spec, decide_False by done. apply Hr. set_solver.
    - intros t Hrange. simpl. rewrite GET_spec. rewrite !live_DEL_ne by
        (apply not_eq_sym; first [apply lock_failCount | by apply renew_failCount]).
      rewrite live_SET_ne by (apply not_eq_sym, lock_renew).
      rewrite live_SET_within by lia. split; [apply Hlock; lia|done]. }
  rewrite EXISTS_spec. case_bool_decide as Hex.
  - seq. apply Hrest; [|intros t Ht; by apply live_EXPIRE_within; [lia|..]].
    repeat (split; [done|]). intros k Hk. simpl. rewrite EXPIRE_spec by (unfold Second; lia).
    rewrite decide_False by set_solver. done.
  - unfold redis_set at 1. seq. apply Hrest.
    + repeat (split; [done|]). intros k Hk. simpl. rewrite SET_spec, decide_False by set_solver. done.
    + intros t Ht. simpl. by rewrite live_SET_within by lia.
Qed.

Lemma same_but_trans ks w1 w2 w3 : same_but ks w1 w2 → same_but ks w2 w3 → same_but ks w1 w3.
Proof.
  intros (?&?&?&?&Hr) (?&?&?&?&Hr'). repeat (split; [congruence|]). intros k Hk. rewrite Hr' by done. by apply Hr.
Qed.

Lemma protected_other i j c w w' :
  exec_id i → i ≠ j → same_but (execution_keys j) w w' → protected c i w → protected c i w'.
Proof.
  intros Hi Hne (_ & _ & _ & _ & Hr) Hp t Ht. specialize (Hp t Ht).
  rewrite GET_spec in *.
  rewrite (live_entry t (lockKey i) (redis w') (redis w)).
  2: { apply Hr. unfold execution_keys. rewrite !not_elem_of_cons.
       split; [by intros ?%lockKey_inj|]. split; [apply lock_renew|]. split; [apply lock_failCount|].
       apply not_elem_of_nil. }
  rewrite (live_entry t (renewKey i) (redis w') (redis w)); [done|].
  apply Hr. unfold execution_keys. rewrite !not_elem_of_cons.
  split; [intros Hx; by eapply lock_renew|]. split; [by intros ?%renewKey_inj|].
  split; [by apply renew_failCount|]. apply not_elem_of_nil.
Qed.

Lemma run_renew_all ids w :
  Forall exec_id ids →
  ∃ w', run (for_each ids (λ i, _ ← renewTaskLock i; mret tt)) w [] = (tt, w') ∧
        tabs w' = tabs w ∧ fx w' = fx w ∧ clock w' = clock w ∧
        (∀ i, exec_id i → protected (clock w) i w → protected (clock w) i w') ∧
        ∀ i, i ∈ ids → protected (clock w) i w'.
Proof.
  intros Hids. revert w. induction Hids as [|i ids Hi _ IH]; intros w; simpl.
  { exists w. repeat (split; [done|]). by intros i ?%not_elem_of_nil. }
  destruct (run_renewTaskLock i w Hi) as (w1 & Hrun & Hsame & Hprot).
  destruct (IH w1) as (w2 & Hrun2 & Ht & Hf & Hc & Hkeep & Hnew). clear IH.
  assert (clock w1 = clock w) as Hc1 by apply Hsame.
  rewrite Hc1 in Hkeep, Hnew. exists w2. split.
  - rewrite run_then by (apply clean_bind; [unfold renewTaskLock, redis_exists; solve_clean|done]).
    rewrite run_then by (unfold renewTaskLock, redis_exists; solve_clean). rewrite Hrun. exact Hrun2.
  - destruct Hsame as (Ht1 & Hf1 & Hs). split; [congruence|]. split; [congruence|]. split; [congruence|].
    split.
    + intros j Hj Hpj. apply Hkeep; [done|]. destruct (decide (j = i)) as [->|Hne]; [done|].
      apply (protected_other j i _ w); [done|done|by split|done].
    + intros j Hj. apply elem_of_cons in Hj as [->|Hj]; [by apply Hkeep|by apply Hnew].
Qed.

(** the heartbeat of an executor that names the executions it runs keeps
    every one of them protected for at least a minute: their locks live (made
    anew when they had expired), their renewals say now; and an online row
    takes the load and the time. *)
Theorem heartbeat_protects_running name load ids w (Hids : Forall exec_id ids) :
  let '(r, w') := run (UpdateExecutorHeartbeatWithRunningTasks name load ids) w [] in
  r = Ok tt ∧ (∀ i, i ∈ ids → protected (clock w) i w') ∧
  executions (tabs w') = executions (tabs w) ∧
  ∀ e, e ∈ rows (executors (tabs w')) → e_Name e = name → e_Status e = "online" →
    LastHeartbeat e = Some (clock w) ∧ CurrentLoad e = load.
Proof.
  unfold UpdateExecutorHeartbeatWithRunningTasks. seq. seq. set (w1 := set_tabs _ w).
  destruct (run_renew_all ids w1 Hids) as (w2 & Hrun & Ht & _ & _ & _ & Hprot).
  rewrite run_then; [|apply clean_for_each; intros i; unfold renewTaskLock, redis_exists; solve_clean].
  rewrite Hrun. cbn [fst snd]. autorewrite with run1.
  split; [done|]. split; [done|]. split; [by rewrite Ht|].
  rewrite Ht. simpl. intros e (e0 & -> & _)%list_elem_of_fmap Hn Hs. unfold is_online in *.
  destruct (bool_decide (e_Name e0 = name) && bool_decide (e_Status e0 = "online")) eqn:E; [done|].
  exfalso. simpl in *. rewrite !bool_decide_eq_true_2 in E by done. done.
Qed.

(** What a new leader asks of an execution before it adopts it. *)
Definition adoptable (now : Z) (task : result error TaskInfo) (executor : result error Executor)
    (renewal : option Z) (x : TaskExecution) : Prop :=
  ∃ e lastRenew h, executor = Ok e ∧ e_Status e = "online" ∧
    LastHeartbeat e = Some h ∧ now - h < 90 * Second ∧ pingExecutor cfg e = true ∧
    renewal = Some lastRenew ∧
    ∀ limit, recovery_timeout task = (limit, false) →
      unix now - lastRenew ≤ limit ∧ ∀ st, StartTime x = Some st → now - st ≤ int64 (limit * Second).

Lemma adoptable_iff now task executor renewal x :
  failover_reason cfg now task executor renewal x = None ↔ adoptable now task executor renewal x.
Proof.
  unfold failover_reason, adoptable, recently_active, is_online.
  destruct (recovery_timeout task) as [limit none].
  destruct executor as [e|err]; simpl; [|split; [done|by intros (? & ? & ? & [=] & _)]].
  case_bool_decide as Hon; simpl; [|split; [done|]; intros (? & ? & ? & [= <-] & ? & _); done].
  destruct (LastHeartbeat e) as [h|] eqn:Eh; simpl;
    [|split; [done|]; intros (? & ? & ? & [= <-] & _ & ? & _); congruence].
  destruct (Z.ltb_spec (now - h) (90 * Second)); simpl;
    [|split; [done|]; intros (? & ? & h' & [= <-] & _ & ? & ? & _); simplify_eq; lia].
  destruct (pingExecutor cfg e) eqn:Ep; simpl;
    [|split; [done|]; intros (? & ? & ? & [= <-] & _ & _ & _ & ? & _); congruence].
  destruct renewal as [lr|]; simpl; [|split; [done|by intros (? & ? & ? & _ & _ & _ & _ & _ & [=] & _)]].
  split.
  - intros Hnone. exists e, lr, h. repeat (split; [done|]). intros l [= -> ->]. simpl in Hnone.
    destruct (Z.ltb_spec l (unix now - lr)); [done|]. split; [lia|]. intros st Hst. rewrite Hst in Hnone.
    destruct (Z.ltb_spec (int64 (l * Second)) (now - st)); [done|lia].
  - intros (? & lr' & ? & [= <-] & _ & _ & _ & _ & [= <-] & Hlim). destruct none; simpl; [done|].
    destruct (Hlim limit eq_refl) as [Hr Hst]. rewrite (proj2 (Z.ltb_ge _ _)) by lia.
    destruct (StartTime x) as [st|]; [|done]. by rewrite (proj2 (Z.ltb_ge _ _)) by (by apply Hst).
Qed.

Lemma clean_forceFailTask i t r n : clean (forceFailTask i t r n : M (world R) _).
Proof. unfold forceFailTask. solve_clean. Qed.
Lemma clean_addRecoveryLogSafe i t l m : clean (addRecoveryLogSafe i t l m : M (world R) _).
Proof. unfold addRecoveryLogSafe. solve_clean. Qed.
#[local] Hint Resolve clean_forceFailTask clean_addRecoveryLogSafe : clean.

Lemma quiet_addRecoveryLogSafe w0 i t l m :
  in_list l ["stdout"; "stderr"] = false → preserves (quiet w0) (addRecoveryLogSafe i t l m).
Proof.
  intros Hl. pose proof (quiet_AddTaskLog w0 i t "" l m Hl).
  unfold addRecoveryLogSafe, redis_exists. apply preserves_bind; [apply preserves_gets|]. intros now.
  apply preserves_bind; [apply reads_redis_get_like|]. intros o. destruct (default false o); [apply preserves_ret|].
  apply preserves_bind; [|done]. apply quiet_set_dedup, prefix_app.
Qed.

Lemma run_forceFailTask i t reason name w :
  let w' := (run (forceFailTask i t reason name) w []).2 in
  (∀ y, y ∈ rows (executions (tabs w')) → ExecutionID y = i → x_Status y = "failed" ∧ Error y = reason) ∧
  spawned (fx w') = spawned (fx w) ++ [FailureJob t i reason] ∧
  dispatched (fx w') = dispatched (fx w) ∧ ∀ u, live u (lockKey i) (redis w') = None.
Proof.
  unfold forceFailTask. seq.
  destruct (run_UpdateExecutionResult i "failed" "" reason None w) as (rg & -> & _). cbn [fst snd].
  set (w1 := reported _ _ _ _ _ w). seq.
  pose proof (run_preserves (quiet w1) (AddTaskLog i t "" "error"
    ("Task force failed on executor: " +:+ name +:+ ", reason: " +:+ reason)) w1 []
    ltac:(by apply quiet_AddTaskLog) ltac:(reflexivity)) as Hq.
  set (w2 := (run _ w1 []).2) in *. unfold redis_del. seq. simpl.
  rewrite (quiet_executions _ _ Hq), (quiet_spawned _ _ Hq), (quiet_dispatched _ _ Hq).
  split; [|split; [done|split; [done|]]].
  - intros y Hy Hyi. by destruct (reported_row _ _ _ _ _ _ _ Hy Hyi) as (? & _ & ? & _).
  - intros u. apply (live_DELS u (lockKey i) (execution_keys i)). by left.
Qed.

(** what a new leader does with an execution it finds running.  It adopts
    it exactly when its executor is online, was heard of in the last 90
    seconds and answers, the execution has a renewal no older than the
    task's timeout, and it has not run longer than that; then the row is
    untouched, lock and renewal are set anew.  Otherwise the execution is
    failed, its lock freed and its failure handled.  Nothing is dispatched. *)
Theorem recover_execution_result x w :
  let task := (run (GetTaskByID cfg (x_TaskID x)) w []).1 in
  let executor := (run (GetExecutorByID (ExecutorID x)) w []).1 in
  let renewal := GET (clock w) (renewKey (ExecutionID x)) (redis w) ≫= renew_of in
  let w' := (run (recover_execution cfg x) w []).2 in
  dispatched (fx w') = dispatched (fx w) ∧
  (adoptable (clock w) task executor renewal x →
     executions (tabs w') = executions (tabs w) ∧ spawned (fx w') = spawned (fx w) ∧
     locked (ExecutionID x) w' = true) ∧
  (¬ adoptable (clock w) task executor renewal x →
     (∀ y, y ∈ rows (executions (tabs w')) → ExecutionID y = ExecutionID x → x_Status y = "failed") ∧
     (∃ reason, spawned (fx w') = spawned (fx w) ++ [FailureJob (x_TaskID x) (ExecutionID x) reason]) ∧
     locked (ExecutionID x) w' = false).
Proof.
  intros task executor renewal. unfold recover_execution. seq. seq.
  pose proof (run_reads _ w [] (reads_GetTaskByID cfg (x_TaskID x))) as Ht.
  fold task. rewrite Ht. seq. rewrite (run_reads _ w [] (reads_GetExecutorByID (ExecutorID x))). fold executor.
  seq. rewrite run_get_renewal. cbn [fst snd]. fold renewal. unfold redis_exists. seq.
  replace (set_redis (λ _, redis w) w) with w by (by destruct w).
  pose proof (adoptable_iff (clock w) task executor renewal x) as Hiff.
  destruct (failover_reason cfg (clock w) task executor renewal x) as [reason|].
  - destruct (run_forceFailTask (ExecutionID x) (x_TaskID x) reason
      (match executor with Ok e => e_Name e | Err _ => "" end) w) as (Hrows & Hs & Hd & Hlock).
    split; [done|]. split; [intros Ha; by apply Hiff in Ha|]. intros _. split; [|split].
    + intros y Hy Hyi. by apply Hrows.
    + eauto.
    + unfold locked. by rewrite Hlock.
  - set (ttl := calculateLockTTL task). set (name := match executor with Ok e => e_Name e | Err _ => "" end).
    assert (60 ≤ ttl) as Httl by apply clamp_ttl_range. clearbody ttl.
    unfold redis_set. seq. seq. unfold redis_del. seq.
    set (w1 := set_redis _ (set_redis _ _)).
    pose proof (run_preserves (quiet w1) (addRecoveryLogSafe (ExecutionID x) (x_TaskID x) "info"
      ("Task recovered by new leader on executor: " +:+ name +:+ ", progress: " +:+
       fmt_d (int32 (Progress x)) +:+ "%, message: " +:+ ProgressMsg x)) w1 []
      ltac:(by apply quiet_addRecoveryLogSafe) ltac:(reflexivity)) as Hq.
    seq. set (w2 := (run _ w1 []).2) in *.
    rewrite (quiet_dispatched _ _ Hq), (quiet_executions _ _ Hq), (quiet_spawned _ _ Hq).
    split; [done|]. split; [|intros Hn; by destruct Hn; apply Hiff].
    intros _. split; [done|]. split; [done|]. unfold locked.
    rewrite (quiet_clock _ _ Hq), (quiet_live _ _ _ _ Hq) by done. unfold w1. simpl.
    rewrite live_DEL_ne by (apply not_eq_sym, lock_failCount).
    rewrite live_SET_ne by (apply not_eq_sym, lock_renew).
    rewrite live_SET_within; [done|done|]. unfold Second. lia.
Qed.
End renewing.

(** ** A concrete run *)

Definition demo_scan (c : Z) (r : gmap_store) : list string * Z :=
  ([lockKey "exec-7-1"; lockKey "exec-6-9"], 0).

Example cleanupStaleTaskLocks_keeps_running_witness :
  lock_kept running_world "exec-7-1"
    (run (cleanupStaleTaskLocks demo_scan 1) running_world [Fine; Fine; Ghost]).2.
Proof.
  apply (cleanupStaleTaskLocks_keeps_running demo_scan 1 running_world [Fine; Fine; Ghost] "exec-7-1").
  - intros c r k Hk. unfold demo_scan in Hk. simpl in Hk.
    apply elem_of_cons in Hk as [->|Hk]; [reflexivity|].
    apply list_elem_of_singleton in Hk as ->. reflexivity.
  - reflexivity.
  - vm_compute. left.
Defined.

Example sweep_fails_execution_being_dispatched_witness :
  let w1 := started demo_task "exec-7-2" 0 running_world in
  let w2 := (run cleanupTasksFromOfflineExecutors w1 []).2 in
  let w3 := (run (send_task demo_env demo_task "exec-7-2" alive_executor) w2 []).2 in
  (∀ y, y ∈ rows (executions (tabs w2)) → ExecutionID y = "exec-7-2" → x_Status y = "failed") ∧
  locked "exec-7-2" w2 = false ∧ FailureJob 7 "exec-7-2" orphan_reason ∈ spawned (fx w2) ∧
  dispatched (fx w3) = [] ++ [("exec-a", grpc_task demo_task "exec-7-2")].
Proof.
  exact (sweep_fails_execution_being_dispatched demo_env demo_task "exec-7-2" 0 running_world alive_executor
           (λ _ _, None) eq_refl eq_refl eq_refl).
Defined.

Example heartbeat_protects_running_witness :
  let '(r, w') := run (UpdateExecutorHeartbeatWithRunningTasks "exec-a" 1 ["exec-7-1"]) running_world [] in
  r = Ok tt ∧ (∀ i, i ∈ ["exec-7-1"] → protected (20 * Second) i w') ∧
  executions (tabs w') = executions (tabs running_world) ∧
  ∀ e, e ∈ rows (executors (tabs w')) → e_Name e = "exec-a" → e_Status e = "online" →
    LastHeartbeat e = Some (20 * Second) ∧ CurrentLoad e = 1.
Proof.
  apply (heartbeat_protects_running "exec-a" 1 ["exec-7-1"] running_world).
  apply Forall_singleton. reflexivity.
Defined.

(** The executor of the running execution is alive, so nothing is an orphan;
    a minute later it is. *)
Example cleanupTasksFromOfflineExecutors_result_witness :
  let w := set_clock (60 * Second) running_world in
  let w' := (run cleanupTasksFromOfflineExecutors w []).2 in
  Forall2 (swept (60 * Second) ["exec-7-1"]) [demo_execution] (rows (executions (tabs w'))) ∧
  spawned (fx w') = [FailureJob 7 "exec-7-1" orphan_reason] ∧ dispatched (fx w') = [].
Proof.
  destruct (cleanupTasksFromOfflineExecutors_result (set_clock (60 * Second) running_world)) as (Hr & Hs & Hd & _).
  split; [exact Hr|]. split; [exact Hs|exact Hd].
Defined.

Example recover_execution_result_witness :
  let w' := (run (recover_execution demo_env demo_execution) running_world []).2 in
  executions (tabs w') = executions demo_tables ∧ spawned (fx w') = [] ∧ locked "exec-7-1" w' = true.
Proof.
  destruct (recover_execution_result demo_env demo_execution running_world) as (_ & Ha & _).
  apply Ha. apply adoptable_iff. vm_compute. reflexivity.
Defined.
