(* ===== verification/Cron.v ===== *)
(** * The cron scheduler

    [src/scheduler/internal/cron/cron_scheduler.go]: the registration table of
    the leader, the pause flag shared through Redis, and the per-task lock a
    firing takes before it triggers the task.  The scheduler has a Redis client,
    as [cmd/app.go] builds it; without one the code takes every lock.

    The cron library is not part of the repository; [CronLib] is what the code
    relies on: an entry runs one task, [AddFunc] gives out an id that is not
    in use or rejects the expression, [Remove] removes.  [list_cron] is a
    concrete library for the witnesses. *)
From S2P Require Import Prelude Redis Sql World Executor Execution Cleanup.

(** ** The library *)

Class CronLib (C : Type) := {
  (** The scheduled entries: id and task. *)
  scheduled : C → gmap Z Z;
  AddFunc : string → Z → C → option (Z * C);
  Remove : Z → C → C;
  (** [cron.ParseStandard] accepts the expression. *)
  ParseStandard : string → bool;
}.

Class CronLibLaws (C : Type) `{CronLib C} : Prop := {
  AddFunc_spec expr task c id c' :
    AddFunc expr task c = Some (id, c') →
    scheduled c !! id = None ∧ scheduled c' = <[id := task]> (scheduled c);
  Remove_spec id c : scheduled (Remove id c) = delete id (scheduled c);
}.

(** ** The scheduler *)

Record CronScheduler (C : Type) : Type := mkCron {
  cron : C;
  taskEntries : gmap Z Z;
  paused : bool;
  isLeader : bool;
  started : bool;
  lastRedisSync : Z;
}.
Arguments mkCron {C} _ _ _ _ _ _.
Arguments cron {C} _.
Arguments taskEntries {C} _.
Arguments paused {C} _.
Arguments isLeader {C} _.
Arguments started {C} _.
Arguments lastRedisSync {C} _.

(** [redisSyncInterval] *)
Definition redisSyncInterval : Z := 5 * Second.

(** The goroutines [OnBecomeLeader] starts. *)
Inductive leader_job : Type := LoadTasks | RecoverTasks.

Section registrations.
Context `{CronLib C}.
Implicit Types cs : CronScheduler C.

Definition set_entries (c : C) (entries : gmap Z Z) cs : CronScheduler C :=
  mkCron c entries (paused cs) (isLeader cs) (started cs) (lastRedisSync cs).
Definition set_paused (b : bool) (sync : Z) cs : CronScheduler C :=
  mkCron (cron cs) (taskEntries cs) b (isLeader cs) (started cs) sync.

Definition NewCronScheduler (c : C) : CronScheduler C := mkCron c ∅ false false false 0.

Definition OnBecomeLeader cs : list leader_job * CronScheduler C :=
  if isLeader cs then ([], cs)
  else ([LoadTasks; RecoverTasks],
        mkCron (cron cs) (taskEntries cs) (paused cs) true true (lastRedisSync cs)).

Definition OnLoseLeader cs : CronScheduler C :=
  if isLeader cs
  then mkCron (foldr (λ '(_, id) c, Remove id c) (cron cs) (map_to_list (taskEntries cs))) ∅
         (paused cs) false (started cs) (lastRedisSync cs)
  else cs.

Definition UnregisterTask (taskID : Z) cs : CronScheduler C :=
  match taskEntries cs !! taskID with
  | Some id => set_entries (Remove id (cron cs)) (delete taskID (taskEntries cs)) cs
  | None => cs
  end.

(** Six fields as they are, five with a leading ["0 "]. *)
Definition add_expression (cronExpr : string) (taskID : Z) (c : C) : option (Z * C) :=
  match AddFunc cronExpr taskID c with
  | Some r => Some r
  | None => if ParseStandard cronExpr then AddFunc ("0 " +:+ cronExpr) taskID c else None
  end.

Definition RegisterTask (taskID : Z) (cronExpr : string) cs : CronScheduler C :=
  let cs := UnregisterTask taskID cs in
  match add_expression cronExpr taskID (cron cs) with
  | Some (id, c) => set_entries c (<[taskID := id]> (taskEntries cs)) cs
  | None => cs
  end.
End registrations.

(** ** The lock of a task *)

Definition cron_lock (taskID : Z) : string := "cron:lock:task:" +:+ fmt_d taskID.

Section lock_scripts.
Context `{Redis R}.

Definition owns (nodeID : string) (now taskID : Z) (r : R) : bool :=
  bool_decide (HGET now (cron_lock taskID) "owner" r = Some nodeID).

Definition acquire_script (nodeID expire : string) (now taskID : Z) (r : R) : bool * R :=
  if negb (EXISTS now (cron_lock taskID) r)
  then (true, HSET now (cron_lock taskID) [("owner", nodeID); ("expire", expire)] r)
  else if owns nodeID now taskID r then (true, HSET now (cron_lock taskID) [("expire", expire)] r)
  else (false, r).

Definition release_script (nodeID : string) (now taskID : Z) (r : R) : bool * R :=
  if owns nodeID now taskID r then (true, DEL (cron_lock taskID) r) else (false, r).

Definition renew_script (nodeID expire : string) (now taskID : Z) (r : R) : bool * R :=
  if owns nodeID now taskID r then (true, HSET now (cron_lock taskID) [("expire", expire)] r)
  else (false, r).

(** [lockTTL] of [executeTask], in nanoseconds as the code computes it. *)
Definition lockTTL (timeoutSeconds : Z) : Z :=
  let ttl := int64 (timeoutSeconds * 2) in
  let ttl := if ttl <? 60 * Second then 60 * Second else ttl in
  let ttl := if 7200 * Second <? ttl then 7200 * Second else ttl in
  if timeoutSeconds =? 0 then 600 * Second else ttl.

Definition expire_text (now ttl : Z) : string := fmt_d (unix (now + ttl)).

Definition acquireTaskLock (nodeID : string) (taskID ttl : Z) : M (world R) (option bool) :=
  now ← gets clock; redis_call (acquire_script nodeID (expire_text now ttl) now taskID).
Definition releaseTaskLock (nodeID : string) (taskID : Z) : M (world R) unit :=
  now ← gets clock; _ ← redis_call (release_script nodeID now taskID); mret tt.
Definition renewTaskLock (nodeID : string) (taskID ttl : Z) : M (world R) bool :=
  now ← gets clock;
  o ← redis_call (renew_script nodeID (expire_text now ttl) now taskID);
  mret (default false o).
End lock_scripts.

(** ** Running *)

Section running.
Context `{Redis R} `{CronLib C}.
Variable cfg : env.
Variable nodeID : string.

(** The scheduler and the world its service works on. *)
Abbreviation S := (CronScheduler C * world R)%type.

Definition svc {A} (m : M (world R) A) : M S A := zoom snd (λ w s, (s.1, w)) m.
Definition local (f : CronScheduler C → CronScheduler C) : M S unit := modify (λ s, (f s.1, s.2)).
Definition time_now : M S Z := gets (λ s, clock s.2).

(** [redis.Get(...).Bool()]: "1" and "t" spell true, "0" and "f" false. *)
Definition as_bool (v : rval) : option bool :=
  match v with
  | VStr s => if in_list s ["1"; "t"; "T"; "true"; "TRUE"; "True"] then Some true
              else if in_list s ["0"; "f"; "F"; "false"; "FALSE"; "False"] then Some false
              else None
  | VInt n => if n =? 1 then Some true else if n =? 0 then Some false else None
  | VHash _ => None
  end.
Definition get_paused (now : Z) : M S (option bool) :=
  o ← svc (redis_call (λ r, (GET now "scheduler:paused" r ≫= as_bool, r))); mret (o ≫= id).

Definition Start : M S unit :=
  now ← time_now;
  p ← get_paused now;
  match p with
  | Some true => local (λ cs, set_paused true (lastRedisSync cs) cs)
  | _ => mret tt
  end.

Definition Pause : M S unit :=
  now ← time_now;
  _ ← local (set_paused true now);
  _ ← svc (redis_set now "scheduler:paused" (VStr "1") 0); mret tt.
Definition Resume : M S unit :=
  now ← time_now;
  _ ← local (set_paused false now);
  _ ← svc (redis_set now "scheduler:paused" (VStr "0") 0); mret tt.

Definition syncPausedFromRedis : M S unit :=
  now ← time_now;
  p ← get_paused now;
  match p with Some b => local (set_paused b now) | None => mret tt end.

Definition IsPaused : M S bool :=
  now ← time_now;
  lastSync ← gets (λ s, lastRedisSync s.1);
  _ ← (if redisSyncInterval <? now - lastSync then syncPausedFromRedis else mret tt);
  gets (λ s, paused s.1).

(** [loadAndRegisterTasks]; leadership is read again before every task. *)
Fixpoint register_all (ts : list Task) : M S unit :=
  match ts with
  | [] => mret tt
  | t :: ts =>
      lead ← gets (λ s, leader s.2);
      if negb lead then mret tt
      else
        _ ← (if negb (bool_decide (CronExpression t = "")) && t_IsEnabled t
             then local (RegisterTask (t_ID t) (CronExpression t)) else mret tt);
        register_all ts
  end.

Definition loadAndRegisterTasks : M S unit :=
  lead ← gets (λ s, leader s.2);
  if negb lead then mret tt
  else
    ts ← svc ScanPendingTasks;
    match ts with Ok ts => register_all ts | Err _ => mret tt end.

Definition recoverRunningTasks : M S unit :=
  lead ← gets (λ s, leader s.2);
  if negb lead then mret tt
  else _ ← svc (RecoverRunningTasksOnBecomeLeader cfg); mret tt.

Definition run_leader_job (j : leader_job) : M S unit :=
  match j with LoadTasks => loadAndRegisterTasks | RecoverTasks => recoverRunningTasks end.

(** What a firing ended in. *)
Inductive firing : Type :=
| NotLeader | Paused | NoTask | Removed | Locked | Triggered (executionID : string) (e : option error).

Definition trigger_locked (taskID ttl : Z) : M S firing :=
  acquired ← svc (acquireTaskLock nodeID taskID ttl);
  if negb (default false acquired) then mret Locked
  else
    r ← svc (TriggerTask cfg taskID);
    _ ← svc (releaseTaskLock nodeID taskID);
    mret (Triggered r.1 r.2).

Definition executeTask (taskID : Z) : M S firing :=
  lead ← gets (λ s, isLeader s.1);
  if negb lead then mret NotLeader
  else
    _ ← syncPausedFromRedis;
    p ← IsPaused;
    if (p : bool) then mret Paused
    else
      t ← svc (GetTaskByID cfg taskID);
      match t with
      | Err _ => mret NoTask
      | Ok i =>
          if negb (t_IsEnabled (info i)) || bool_decide (CronExpression (info i) = "") then
            _ ← local (UnregisterTask taskID); mret Removed
          else trigger_locked taskID (lockTTL (TimeoutSeconds (info i)))
      end.
End running.

(** ** Registrations *)

Section registration_facts.
Context `{CronLibLaws C}.
Implicit Types cs : CronScheduler C.

(** Every scheduled entry belongs to the task it is filed under, and no other
    entry does. *)
Definition filed cs : Prop :=
  ∀ id task, scheduled (cron cs) !! id = Some task ↔ taskEntries cs !! task = Some id.

Lemma scheduled_remove_all (l : list (Z * Z)) c id :
  scheduled (foldr (λ '(_, i) c, Remove i c) c l) !! id =
    if decide (id ∈ snd <$> l) then None else scheduled c !! id.
Proof.
  induction l as [|[t i] l IH]; simpl; [done|].
  rewrite Remove_spec. destruct (decide (i = id)) as [->|Hne].
  - rewrite lookup_delete_eq. by rewrite decide_True by (by left).
  - rewrite lookup_delete_ne by done. rewrite IH.
    destruct (decide (id ∈ snd <$> l)); [by rewrite decide_True by (by right)|].
    rewrite decide_False; [done|]. by intros [?|?]%elem_of_cons.
Qed.

Lemma lose_schedules_nothing cs :
  filed cs → isLeader cs = true → scheduled (cron (OnLoseLeader cs)) = ∅.
Proof.
  intros Hf Hl. unfold OnLoseLeader. rewrite Hl. simpl. apply map_eq. intros id.
  rewrite lookup_empty, scheduled_remove_all. case_decide as Hin; [done|].
  destruct (scheduled (cron cs) !! id) as [task|] eqn:E; [|done]. destruct Hin.
  apply Hf in E. apply list_elem_of_fmap. exists (task, id). split; [done|]. by apply elem_of_map_to_list.
Qed.

Lemma filed_Unregister taskID cs : filed cs → filed (UnregisterTask taskID cs).
Proof.
  intros Hf. unfold UnregisterTask. destruct (taskEntries cs !! taskID) as [i|] eqn:E; [|done].
  intros id task. simpl. rewrite Remove_spec, !lookup_delete_Some. rewrite (Hf id task).
  split; intros [Hne Ht]; (split; [|done]).
  - intros ->. congruence.
  - intros ->. apply Hf in E, Ht. congruence.
Qed.

Lemma Unregister_entries taskID cs : taskEntries (UnregisterTask taskID cs) = delete taskID (taskEntries cs).
Proof.
  unfold UnregisterTask. destruct (taskEntries cs !! taskID) eqn:E; [done|]. by rewrite delete_id.
Qed.

Lemma add_expression_spec expr task c id c' :
  add_expression expr task c = Some (id, c') →
  scheduled c !! id = None ∧ scheduled c' = <[id := task]> (scheduled c).
Proof.
  unfold add_expression. destruct (AddFunc expr task c) as [[i c1]|] eqn:E.
  - intros [= <- <-]. by apply AddFunc_spec in E.
  - destruct (ParseStandard expr); [|done]. intros E'. by apply AddFunc_spec in E'.
Qed.

Lemma filed_Register taskID expr cs : filed cs → filed (RegisterTask taskID expr cs).
Proof.
  intros Hf. apply (filed_Unregister taskID) in Hf. unfold RegisterTask.
  pose proof (Unregister_entries taskID cs) as He. set (cs1 := UnregisterTask taskID cs) in *.
  destruct (add_expression _ _ _) as [[i c]|] eqn:E; [|done].
  apply add_expression_spec in E as [Hfree Hsched]. intros id task. simpl. rewrite Hsched.
  rewrite !lookup_insert_Some. rewrite (Hf id task). split.
  - intros [[-> ->]|[Hne Ht]]; [by left|]. right. split; [|done]. intros ->.
    rewrite He, lookup_delete_eq in Ht. done.
  - intros [[-> ->]|[Hne Ht]]; [by left|]. right. split; [|done]. intros ->.
    apply Hf in Ht. congruence.
Qed.

Inductive cron_step : CronScheduler C → CronScheduler C → Prop :=
| step_register taskID expr cs : cron_step cs (RegisterTask taskID expr cs)
| step_unregister taskID cs : cron_step cs (UnregisterTask taskID cs)
| step_become cs : cron_step cs (OnBecomeLeader cs).2
| step_lose cs : cron_step cs (OnLoseLeader cs)
| step_pause b sync cs : cron_step cs (set_paused b sync cs).

Definition cron_start cs : Prop := ∃ c, scheduled c = ∅ ∧ cs = NewCronScheduler c.

Lemma filed_reachable cs : reachable cron_step cron_start cs → filed cs.
Proof.
  revert cs. apply reachable_invariant.
  - intros _ (c & Hc & ->) id task. simpl. by rewrite Hc, !lookup_empty.
  - intros cs cs' Hf Hs; destruct Hs as [| |cs|cs|]; [by apply filed_Register|by apply filed_Unregister| | |done].
    + unfold OnBecomeLeader. by destruct (isLeader cs).
    + destruct (isLeader cs) eqn:E; [|by unfold OnLoseLeader; rewrite E].
      intros id task. rewrite lose_schedules_nothing by done. unfold OnLoseLeader. rewrite E. simpl.
      by rewrite !lookup_empty.
Qed.

(** whatever registrations, removals, pauses and changes of leadership
    have happened, the library runs exactly the filed tasks, each through one
    entry; registering a task replaces its entry (or, when the expression is
    rejected, leaves it without one) and touches no other; a leader that
    steps down leaves nothing scheduled. *)
Theorem registrations_exact cs (Hcs : reachable cron_step cron_start cs) :
  (∀ id task, scheduled (cron cs) !! id = Some task ↔ taskEntries cs !! task = Some id) ∧
  (∀ taskID expr, let cs' := RegisterTask taskID expr cs in
     (∀ task, task ≠ taskID → taskEntries cs' !! task = taskEntries cs !! task) ∧
     (is_Some (taskEntries cs' !! taskID) ↔
        is_Some (add_expression expr taskID (cron (UnregisterTask taskID cs))))) ∧
  (isLeader cs = true → scheduled (cron (OnLoseLeader cs)) = ∅ ∧ taskEntries (OnLoseLeader cs) = ∅).
Proof.
  pose proof (filed_reachable cs Hcs) as Hf. split; [done|]. split.
  - intros taskID expr. unfold RegisterTask. pose proof (Unregister_entries taskID cs) as He.
    destruct (add_expression _ _ _) as [[i c]|]; simpl; rewrite ?He; split.
    + intros task Hne. by rewrite lookup_insert_ne, lookup_delete_ne by done.
    + rewrite lookup_insert_eq. split; by eexists.
    + intros task Hne. by rewrite lookup_delete_ne.
    + rewrite lookup_delete_eq. split; by intros [? [=]].
  - intros Hl. split; [by apply lose_schedules_nothing|]. unfold OnLoseLeader. by rewrite Hl.
Qed.
End registration_facts.

(** ** The lock across nodes *)

Section lock_facts.
Context `{RedisLaws R}.
Variable taskID : Z.

(** Redis, its clock, and the nodes that have a firing of the task between
    [acquireTaskLock] and [releaseTaskLock]. *)
Record lock_sys : Type := mkSys { store : R; time : Z; holders : list string }.

(** What one Redis call does under a fate: its answer, if any, and the store. *)
Definition under {A} (f : fate) (op : R → A * R) (r : R) : option A * R :=
  match f with
  | Fine => (Some (op r).1, (op r).2)
  | Lost => (None, r)
  | Ghost => (None, (op r).2)
  end.

(** A node acquires when it has no firing of this task in progress. *)
Inductive lock_step : lock_sys → lock_sys → Prop :=
| lock_acquire n expire f b r s :
    n ∉ holders s → under f (acquire_script n expire (time s) taskID) (store s) = (b, r) →
    lock_step s (mkSys r (time s) (if default false b then n :: holders s else holders s))
| lock_release n f b r s :
    n ∈ holders s → under f (release_script n (time s) taskID) (store s) = (b, r) →
    lock_step s (mkSys r (time s) (filter (λ m, m ≠ n) (holders s)))
| lock_renew n expire f b r s :
    under f (renew_script n expire (time s) taskID) (store s) = (b, r) →
    lock_step s (mkSys r (time s) (holders s))
| lock_tick t s : time s ≤ t → lock_step s (mkSys (store s) t (holders s)).

Definition lock_start (s : lock_sys) : Prop :=
  entry (store s) (cron_lock taskID) = None ∧ holders s = [].

(** The lock is free or a hash without a deadline. *)
Definition lock_shape (r : R) (o : option (gmap string string)) : Prop :=
  entry r (cron_lock taskID) = (λ h, (VHash h, None)) <$> o.

Lemma live_shape now r o : lock_shape r o → live now (cron_lock taskID) r = (λ h, (VHash h, None)) <$> o.
Proof. unfold lock_shape, live. intros ->. by destruct o. Qed.

Lemma owns_shape n now r o :
  lock_shape r o → owns n now taskID r = bool_decide (o ≫= (.!! "owner") = Some n).
Proof.
  intros Hs. unfold owns. rewrite HGET_spec, (live_shape now r o Hs). by destruct o; simpl; rewrite ?lookup_empty.
Qed.

Lemma HSET_shape now fs r o :
  lock_shape r o → lock_shape (HSET now (cron_lock taskID) fs r) (Some (hash_set (default ∅ o) fs)).
Proof.
  intros Hs. unfold lock_shape. rewrite (HSET_spec _ _ _ _ (default ∅ o)).
  - rewrite decide_True by done. rewrite (live_shape now r o Hs). by destruct o.
  - rewrite (live_shape now r o Hs). by destruct o.
Qed.

(** The three scripts on a lock of this shape. *)
Lemma acquire_shape n expire now r o :
  lock_shape r o →
  let '(b, r') := acquire_script n expire now taskID r in
  (b = true ∧ (o = None ∨ o ≫= (.!! "owner") = Some n) ∧
     ∃ h, lock_shape r' (Some h) ∧ h !! "owner" = Some n) ∨
  (b = false ∧ r' = r ∧ is_Some o ∧ o ≫= (.!! "owner") ≠ Some n).
Proof.
  intros Hs. unfold acquire_script. rewrite EXISTS_spec, (live_shape now r o Hs), (owns_shape n now r o Hs).
  destruct o as [h|]; simpl.
  - case_bool_decide as Hown; [|right; eauto]. left. split; [done|]. split; [by right|].
    eexists. split; [by eapply (HSET_shape now _ r (Some h))|]. by apply lookup_insert_Some; right.
  - left. split; [done|]. split; [by left|]. eexists. split; [by apply (HSET_shape now _ r None)|].
    simpl. apply lookup_insert_Some. right. split; [done|]. apply lookup_insert_eq.
Qed.

Lemma release_shape n now r o :
  lock_shape r o →
  let '(b, r') := release_script n now taskID r in
  (b = true ∧ o ≫= (.!! "owner") = Some n ∧ lock_shape r' None) ∨ (b = false ∧ r' = r).
Proof.
  intros Hs. unfold release_script. rewrite (owns_shape n now r o Hs). case_bool_decide; [|by right].
  left. split; [done|]. split; [done|]. unfold lock_shape. by rewrite DEL_spec, decide_True.
Qed.

Lemma renew_shape n expire now r o :
  lock_shape r o →
  let '(b, r') := renew_script n expire now taskID r in
  (∃ h, lock_shape r' (Some h) ∧ h !! "owner" = o ≫= (.!! "owner")) ∨ r' = r.
Proof.
  intros Hs. unfold renew_script. rewrite (owns_shape n now r o Hs). case_bool_decide as Ho; [|by right].
  left. eexists. split; [by apply (HSET_shape now _ r o)|]. simpl. rewrite lookup_insert_ne by done.
  destruct o; [done|discriminate Ho].
Qed.

(** All holders own the lock. *)
Definition lock_inv (s : lock_sys) : Prop :=
  NoDup (holders s) ∧
  ∃ o, lock_shape (store s) o ∧ ∀ n, n ∈ holders s → o ≫= (.!! "owner") = Some n.

Lemma lock_inv_step s s' : lock_inv s → lock_step s s' → lock_inv s'.
Proof.
  intros (Hnd & o & Hs & Hown) Hstep. 
  destruct Hstep as [n e f o1 r1 s Hn Hu|n f o1 r1 s Hn Hu|n e f o1 r1 s Hu|t s Ht];
    try unfold under in Hu.
  - pose proof (acquire_shape n e (time s) (store s) o Hs) as Ha.
    destruct (acquire_script n e (time s) taskID (store s)) as [b r]. simpl in Hu.
    assert (∀ hs, (∀ m, m ∈ hs → m ∈ holders s ∨ (b = true ∧ m = n)) → NoDup hs →
      lock_inv (mkSys r (time s) hs)) as Hnew.
    { intros hs Hhs Hnd'. split; [done|].
      destruct Ha as [(-> & Ho & h & Hs' & Hh)|(-> & -> & _)].
      - exists (Some h). split; [done|]. simpl. intros m [Hm|[_ ->]]%Hhs; [|done].
        destruct Ho as [-> | Ho]; [by apply Hown in Hm|]. apply Hown in Hm. congruence.
      - exists o. split; [done|]. intros m [Hm|[[=] _]]%Hhs. by apply Hown. }
    destruct f; injection Hu as <- <-; simpl; [|by split; eauto|by apply Hnew; auto].
    destruct b; apply Hnew; auto; [|by apply NoDup_cons]. intros m [->|?]%elem_of_cons; auto.
  - pose proof (release_shape n (time s) (store s) o Hs) as Hr.
    destruct (release_script n (time s) taskID (store s)) as [b r]. simpl in Hu.
    assert (∀ m, m ∈ filter (λ m, m ≠ n) (holders s) → m ∈ holders s ∧ m ≠ n) as Hsub
      by (intros m [? ?]%list_elem_of_filter; done).
    assert (lock_inv (mkSys (store s) (time s) (filter (λ m, m ≠ n) (holders s)))) as Hold.
    { split; [by apply NoDup_filter|]. exists o. split; [done|]. intros m [Hm _]%Hsub. by apply Hown. }
    assert (lock_inv (mkSys r (time s) (filter (λ m, m ≠ n) (holders s)))) as Hgone.
    { destruct Hr as [(-> & Ho & Hs')|(-> & ->)]; [|done].
      split; [by apply NoDup_filter|]. exists None. split; [done|]. intros m [Hm Hne]%Hsub.
      apply Hown in Hm. congruence. }
    by destruct f; injection Hu as <- <-.
  - pose proof (renew_shape n e (time s) (store s) o Hs) as Hr.
    destruct (renew_script n e (time s) taskID (store s)) as [b r]. simpl in Hu.
    assert (lock_inv (mkSys r (time s) (holders s))) as Hr'.
    { split; [done|]. destruct Hr as [(h & Hs' & Hh)| ->]; [|by exists o].
      exists (Some h). split; [done|]. intros m Hm. simpl. rewrite Hh. by apply Hown. }
    destruct f; injection Hu as <- <-; [done| |done]. split; eauto.
  - split; [done|]. by exists o.
Qed.

(** C3: across all nodes at most one firing of a task is between acquiring
    and releasing the lock, whatever replies are lost, provided no node fires
    the task again while its own firing is in progress. *)
Theorem cron_lock_exclusive s (Hs : reachable lock_step lock_start s) : (length (holders s) ≤ 1)%nat.
Proof.
  assert (lock_inv s) as (Hnd & o & _ & Hown).
  { revert s Hs. apply reachable_invariant; [|intros s s'; apply lock_inv_step].
    intros s [He Hh]. split; [rewrite Hh; apply NoDup_nil_2|]. exists None. split; [done|].
    rewrite Hh. by intros n ?%not_elem_of_nil. }
  destruct (holders s) as [|n [|m l]]; simpl; [lia|lia|]. exfalso.
  assert (Some n = Some m) as [= ->].
  { rewrite <- (Hown n) by (by left). rewrite <- (Hown m); [done|]. right. by left. }
  apply NoDup_cons in Hnd as [Hnd _]. apply Hnd. by left.
Qed.

(** the lock has no deadline, and the [expire] field it carries is never
    read: once a node has taken a free lock and died, no other node acquires
    it at any later time, with any lifetime; for 32-bit timeouts the lifetime
    the code computes is ten minutes without timeout and one minute
    otherwise. *)
Theorem dead_owner_blocks_task n expire now (r : R)
    (Hfree : live now (cron_lock taskID) r = None) :
  let '(b, r') := acquire_script n expire now taskID r in
  b = true ∧
  (∀ n' expire' t, n' ≠ n → acquire_script n' expire' t taskID r' = (false, r')) ∧
  ∀ timeout, - 2 ^ 31 ≤ timeout < 2 ^ 31 →
    lockTTL timeout = if timeout =? 0 then 600 * Second else 60 * Second.
Proof.
  unfold acquire_script at 1. rewrite EXISTS_spec, Hfree. simpl. split; [done|]. split.
  - intros n' e' t Hne. set (r' := HSET _ _ _ r).
    assert (lock_shape r' (Some (hash_set ∅ [("owner", n); ("expire", expire)]))) as Hs.
    { unfold lock_shape, r'. rewrite (HSET_spec _ _ _ _ ∅); [|by rewrite Hfree].
      by rewrite decide_True, Hfree. }
    pose proof (acquire_shape n' e' t r' _ Hs) as Ha.
    destruct (acquire_script n' e' t taskID r') as [b r2].
    destruct Ha as [(_ & [[=]|Ho] & _)|(-> & -> & _)]; [|done].
    exfalso. revert Ho. simpl. rewrite lookup_insert_ne, lookup_insert_eq by done. congruence.
  - intros timeout Ht. unfold lockTTL. destruct (timeout =? 0); [done|].
    rewrite int64_small by lia. unfold Second.
    by rewrite (proj2 (Z.ltb_lt (timeout * 2) _)) by lia.
Qed.

(** The owner may acquire again; the first of its two firings to end frees
    the lock under the other, and another node gets in. *)
Theorem reentrant_firing_frees_lock n n' e1 e2 e3 now (r : R) :
  live now (cron_lock taskID) r = None →
  let '(b1, r1) := acquire_script n e1 now taskID r in
  let '(b2, r2) := acquire_script n e2 now taskID r1 in
  let '(b3, r3) := release_script n now taskID r2 in
  b1 = true ∧ b2 = true ∧ b3 = true ∧ (acquire_script n' e3 now taskID r3).1 = true.
Proof.
  intros Hfree. unfold acquire_script at 1. rewrite EXISTS_spec, Hfree. simpl.
  set (r1 := HSET _ _ _ r).
  assert (lock_shape r1 (Some (hash_set ∅ [("owner", n); ("expire", e1)]))) as Hs1.
  { unfold lock_shape, r1. rewrite (HSET_spec _ _ _ _ ∅); [|by rewrite Hfree].
    by rewrite decide_True, Hfree. }
  assert (Some (hash_set ∅ [("owner", n); ("expire", e1)]) ≫= (.!! "owner") = Some n) as Ho1
    by (simpl; by rewrite lookup_insert_ne, lookup_insert_eq).
  pose proof (acquire_shape n e2 now r1 _ Hs1) as Ha.
  destruct (acquire_script n e2 now taskID r1) as [b2 r2].
  destruct Ha as [(-> & _ & h & Hs2 & Hh)|(_ & _ & _ & Hn)]; [|by rewrite Ho1 in Hn].
  pose proof (release_shape n now r2 _ Hs2) as Hr. unfold release_script in *.
  rewrite (owns_shape n now r2 _ Hs2) in *. simpl in *. rewrite Hh in *.
  rewrite bool_decide_eq_true_2 in * by done.
  destruct Hr as [(_ & _ & Hs3)|[[=] _]]. repeat (split; [done|]).
  unfold acquire_script. by rewrite EXISTS_spec, (live_shape now _ _ Hs3).
Qed.
End lock_facts.

(** ** A firing *)

Section firing_facts.
Context `{RedisLaws R} `{CronLib C}.
Variable cfg : env.
Variable nodeID : string.

(** The tables and what was sent are as in [s0]. *)
Definition untouched (s0 s : CronScheduler C * world R) : Prop :=
  tabs s.2 = tabs s0.2 ∧ fx s.2 = fx s0.2.

Lemma clean_svc {A} (m : M (world R) A) : clean m → clean (svc m : M (CronScheduler C * world R) A).
Proof.
  intros Hm s. unfold svc, zoom. specialize (Hm s.2). by destruct (m s.2 []) as [a [w fs]].
Qed.

Lemma untouched_svc {A} s0 (m : M (world R) A) :
  (∀ w0 : world R, preserves (λ w, tabs w = tabs w0 ∧ fx w = fx w0) m) → preserves (untouched s0) (svc m).
Proof.
  intros Hm s fs Hs. unfold svc, zoom. specialize (Hm s0.2 s.2 fs Hs).
  by destruct (m s.2 fs) as [a [w fs']].
Qed.
Lemma untouched_redis {A} s0 (op : R → A * R) : preserves (untouched s0) (svc (redis_call op)).
Proof. apply untouched_svc. intros w0. apply preserves_redis_call. by intros f w. Qed.
Lemma untouched_local s0 f : preserves (untouched s0) (local f : M (CronScheduler C * world R) unit).
Proof. apply preserves_modify. by intros s. Qed.
#[local] Hint Resolve untouched_redis untouched_local : handler.

Lemma untouched_sync s0 : preserves (untouched s0) (syncPausedFromRedis : M (CronScheduler C * world R) unit).
Proof. unfold syncPausedFromRedis, get_paused, time_now. solve_preserves. Qed.
#[local] Hint Resolve untouched_sync : handler.
Lemma untouched_IsPaused s0 : preserves (untouched s0) (IsPaused : M (CronScheduler C * world R) bool).
Proof. unfold IsPaused, time_now. solve_preserves. Qed.
Lemma untouched_GetTaskByID s0 id : preserves (untouched s0) (svc (GetTaskByID cfg id) : M (CronScheduler C * world R) _).
Proof. apply untouched_svc. intros w0. apply reads_GetTaskByID. Qed.
Lemma untouched_acquire s0 t ttl : preserves (untouched s0) (svc (acquireTaskLock nodeID t ttl) : M (CronScheduler C * world R) _).
Proof.
  apply untouched_svc. intros w0. unfold acquireTaskLock. apply preserves_bind; [apply preserves_gets|].
  intros now. apply preserves_redis_call. by intros f w.
Qed.

(** Nothing is touched unless the firing says it triggered. *)
Definition guarded s0 (f : firing) (s : CronScheduler C * world R) : Prop :=
  match f with Triggered _ _ => True | _ => untouched s0 s end.

Lemma guarded_trigger_locked s0 taskID ttl :
  triple (untouched s0) (trigger_locked cfg nodeID taskID ttl) (guarded s0).
Proof.
  unfold trigger_locked. eapply (triple_bind _ _ (λ _, untouched s0)); [intros s fs; apply untouched_acquire|].
  intros acquired. cbv beta. destruct (negb (default false acquired)); [by apply triple_ret|].
  eapply (triple_bind _ _ (λ _ _, True)); [done|]. intros r.
  eapply (triple_bind _ _ (λ _ _, True)); [done|]. intros u. by apply triple_ret.
Qed.

(** whatever calls fail, a firing touches no table and starts, sends and
    delivers nothing unless its node leads, the scheduler is not paused, the
    task is still enabled with a cron expression, and the lock was acquired;
    a follower's firing does nothing at all; and while Redis holds the pause
    flag and answers, every firing of a leader ends paused. *)
Theorem executeTask_guarded taskID (s : CronScheduler C * world R) fs :
  guarded s (run (executeTask cfg nodeID taskID) s fs).1 (run (executeTask cfg nodeID taskID) s fs).2 ∧
  (isLeader s.1 = false → run (executeTask cfg nodeID taskID) s fs = (NotLeader, s)) ∧
  (isLeader s.1 = true → (GET (clock s.2) "scheduler:paused" (redis s.2) ≫= as_bool) = Some true →
     (run (executeTask cfg nodeID taskID) s []).1 = Paused ∧
     (run (executeTask cfg nodeID taskID) s []).2.2 = s.2).
Proof.
  split; [|split].
  - refine (run_triple (untouched s) _ (guarded s) s fs _ _); [|by split].
    unfold executeTask.
    eapply (triple_bind _ _ (λ _, untouched s)); [by apply triple_gets|]. intros lead. cbv beta.
    destruct (negb lead); [by apply triple_ret|].
    eapply (triple_bind _ _ (λ _, untouched s)); [intros s1 fs1; apply untouched_sync|]. intros _. cbv beta.
    eapply (triple_bind _ _ (λ _, untouched s)); [intros s1 fs1; apply untouched_IsPaused|]. intros p. cbv beta.
    destruct p; [by apply triple_ret|].
    eapply (triple_bind _ _ (λ _, untouched s)); [intros s1 fs1; apply untouched_GetTaskByID|].
    intros [i|e]; cbv beta; [|by apply triple_ret].
    destruct (_ || _); [|apply guarded_trigger_locked].
    eapply (triple_bind _ _ (λ _, untouched s)); [intros s1 fs1; apply untouched_local|].
    intros u. by apply triple_ret.
  - intros Hl. unfold executeTask, run. rewrite run_bind, run_gets, Hl. done.
  - intros Hl Hp. destruct s as [cs w]. simpl in *.
    assert (run (syncPausedFromRedis : M (CronScheduler C * world R) unit) (cs, w) [] =
            (tt, (set_paused true (clock w) cs, w))) as Hsync.
    { unfold syncPausedFromRedis, get_paused, time_now, run. rewrite !run_bind, run_gets, !run_bind.
      unfold svc, zoom. rewrite run_redis_call. cbv iota beta. simpl snd. simpl fst. rewrite Hp.
      simpl. by destruct w. }
    assert (clean (syncPausedFromRedis : M (CronScheduler C * world R) unit)) as Hc.
    { pose proof (λ A op, clean_svc _ (clean_redis_call (A := A) op)).
      unfold syncPausedFromRedis, get_paused, time_now, local. solve_clean. }
    assert (run (executeTask cfg nodeID taskID) (cs, w) [] = (Paused, (set_paused true (clock w) cs, w))) as ->;
      [|done].
    unfold executeTask. rewrite run_then by solve_clean. autorewrite with run1. cbn [fst snd]. rewrite Hl.
    simpl negb. cbv iota. rewrite run_then by done. rewrite Hsync. cbn [fst snd].
    unfold IsPaused, time_now, run. rewrite !run_bind, run_gets, !run_bind, run_gets. simpl.
    unfold redisSyncInterval, Second. rewrite Z.sub_diag. simpl. done.
Qed.
End firing_facts.

(** ** A concrete library *)

(** Entries by id; an expression is accepted with six fields. *)
Definition list_cron : Type := gmap Z Z.
Fixpoint spaces (s : string) : nat :=
  match s with
  | EmptyString => 0
  | String c s => (if bool_decide (c = Ascii.ascii_of_nat 32) then 1 else 0) + spaces s
  end.
#[export] Instance list_cron_lib : CronLib list_cron := {
  scheduled c := c;
  AddFunc expr task c :=
    if (spaces expr =? 5)%nat then let id := fresh (dom c) in Some (id, <[id := task]> c) else None;
  Remove id c := delete id c;
  ParseStandard expr := (spaces expr =? 4)%nat;
}.
#[export] Instance list_cron_laws : CronLibLaws list_cron.
Proof.
  split; [|done]. intros expr task c id c'. simpl. case_match; [|done]. intros [= <- <-].
  split; [|done]. apply not_elem_of_dom, is_fresh.
Qed.

Definition demo_cron : CronScheduler list_cron :=
  RegisterTask 7 "0 30 2 * * *" (OnBecomeLeader (NewCronScheduler (∅ : list_cron))).2.

Example registrations_exact_witness :
  (∀ id task, scheduled (cron demo_cron) !! id = Some task ↔ taskEntries demo_cron !! task = Some id) ∧
  (∀ taskID expr, let cs' := RegisterTask taskID expr demo_cron in
     (∀ task, task ≠ taskID → taskEntries cs' !! task = taskEntries demo_cron !! task) ∧
     (is_Some (taskEntries cs' !! taskID) ↔
        is_Some (add_expression expr taskID (cron (UnregisterTask taskID demo_cron))))) ∧
  (isLeader demo_cron = true →
     scheduled (cron (OnLoseLeader demo_cron)) = ∅ ∧ taskEntries (OnLoseLeader demo_cron) = ∅).
Proof.
  apply (registrations_exact demo_cron). exists (NewCronScheduler (∅ : list_cron)). split.
  - by exists ∅.
  - eapply rtc_l; [apply step_become|]. eapply rtc_l; [apply step_register|]. apply rtc_refl.
Defined.

Definition demo_lock : lock_sys (R := gmap_store) :=
  mkSys (acquire_script "node-a" "60" 0 7 ∅).2 0 ["node-a"].

Example cron_lock_exclusive_witness : (length (holders demo_lock) ≤ 1)%nat.
Proof.
  apply (cron_lock_exclusive 7 demo_lock). exists (mkSys ∅ 0 []). split; [by split|].
  apply rtc_once.
  exact (lock_acquire 7 "node-a" "60" Fine (Some true) _ (mkSys ∅ 0 []) (not_elem_of_nil _) eq_refl).
Defined.

Example dead_owner_blocks_task_witness :
  let '(b, r') := acquire_script "node-a" "60" 0 7 (∅ : gmap_store) in
  b = true ∧
  (∀ n' expire' t, n' ≠ "node-a" → acquire_script n' expire' t 7 r' = (false, r')) ∧
  ∀ timeout, - 2 ^ 31 ≤ timeout < 2 ^ 31 →
    lockTTL timeout = if timeout =? 0 then 600 * Second else 60 * Second.
Proof. exact (dead_owner_blocks_task 7 "node-a" "60" 0 ∅ eq_refl). Defined.

(** Redis holds the pause flag; the leader's firing ends paused. *)
Definition paused_world : world gmap_store :=
  set_redis (SET 0 "scheduler:paused" (VStr "1") 0) running_world.
Example executeTask_guarded_witness :
  (run (executeTask demo_env "node-a" 7) (demo_cron, paused_world) []).1 = Paused ∧
  (run (executeTask demo_env "node-a" 7) (demo_cron, paused_world) []).2.2 = paused_world.
Proof.
  destruct (executeTask_guarded demo_env "node-a" 7 (demo_cron, paused_world) []) as (_ & _ & Hp).
  apply Hp; vm_compute; reflexivity.
Defined.
