(* ===== verification/System.v ===== *)
(** * The scheduler service as a whole

    The handlers of [Execution], [Cleanup] and [Executor] as the steps of one
    system: the API, the gRPC reports, the goroutines and the cleanup routine
    run them in any order, under any faults, while the clock and the
    leadership change.  [Frame] is the interface between an invariant and the
    handlers: a property of the world that is closed under the elementary
    changes it lists is kept by every handler but a dispatch.

    Deleting executions is not a step here: the properties are about
    executions that are kept. *)
From S2P Require Import Prelude Redis Sql World Executor Execution Cleanup.

(** ** Frames *)

Section frames.
Context `{Redis R}.
Variable cfg : env.
(** The largest number of retries any task asks for. *)
Variable B : Z.
Implicit Types w : world R.

Definition bounded (ts : table Task) : Prop := ∀ k, k ∈ rows ts → 0 ≤ RetryCount k ≤ B.

Definition job_ok (j : job) : Prop :=
  match j with RetryJob _ _ _ retryTimes _ _ => retryTimes ≤ B | _ => True end.

(** Execution identifiers and retry numbers stay. *)
Definition same_identity (f : TaskExecution → TaskExecution) : Prop :=
  ∀ x, ExecutionID (f x) = ExecutionID x ∧ RetryTimes (f x) = RetryTimes x.

Definition dispatches_nothing (f : effects → effects) : Prop :=
  ∀ e, dispatched (f e) = dispatched e ∧ cancels e `prefix_of` cancels (f e) ∧
       ∀ j, j ∈ spawned (f e) → j ∈ spawned e ∨ job_ok j.

Record Frame (I : world R → Prop) : Prop := {
  f_redis : ∀ f w, I w → I (set_redis f w);
  f_executions : ∀ p f w, same_identity f → I w → I (set_tabs (set_executions (update_where p f)) w);
  f_insert : ∀ taskID i status msg n now w t, n ≤ B →
    insert_execution taskID i status msg n now (tabs w) = Some (tt, t) → I w → I (set_tabs (λ _, t) w);
  f_logs : ∀ f w, I w → I (set_tabs (set_task_logs f) w);
  f_tasks : ∀ f w, (∀ ts, bounded ts → bounded (f ts)) → I w → I (set_tabs (set_tasks f) w);
  f_executors : ∀ f w, I w → I (set_tabs (set_executors f) w);
  f_domains : ∀ f w, I w → I (set_tabs (set_domain_executors f) w);
  f_fx : ∀ f w, dispatches_nothing f → I w → I (set_fx f w);
  f_bound : ∀ w, I w → bounded (tasks (tabs w));
  f_jobs : ∀ w, I w → ∀ j, j ∈ spawned (fx w) → job_ok j;
  f_nonneg : ∀ w, I w → 0 ≤ B;
}.

Context (I : world R → Prop) (HI : Frame I).

Lemma frame_redis {A} (op : R → A * R) : preserves I (redis_call op).
Proof. apply preserves_redis_call, HI. Qed.
Lemma frame_executions p f : same_identity f → preserves I (write (set_executions (update_where p f))).
Proof. intros Hf. apply preserves_write. intros w. by apply HI. Qed.
Lemma frame_logs f : preserves I (write (set_task_logs f)).
Proof. apply preserves_write, HI. Qed.
Lemma frame_tasks f : (∀ ts, bounded ts → bounded (f ts)) → preserves I (write (set_tasks f)).
Proof. intros Hf. apply preserves_write. intros w. by apply HI. Qed.
Lemma frame_executors f : preserves I (write (set_executors f)).
Proof. apply preserves_write, HI. Qed.
Lemma frame_domains f : preserves I (write (set_domain_executors f)).
Proof. apply preserves_write, HI. Qed.
Lemma frame_effect f : dispatches_nothing f → preserves I (effect f).
Proof. intros Hf. apply preserves_effect. intros w. by apply HI. Qed.
Lemma frame_insert taskID i status msg n now :
  n ≤ B → preserves I (write_checked (insert_execution taskID i status msg n now)).
Proof. intros Hn. apply preserves_write_checked. intros w [] t. by apply HI. Qed.

Lemma nothing_deliver d : dispatches_nothing (deliver d).
Proof. intros e. split; [done|]. split; [done|by left]. Qed.
Lemma nothing_cancel n i : dispatches_nothing (signal_cancel n i).
Proof. intros e. split; [done|]. split; [by apply prefix_app_r|by left]. Qed.
Lemma nothing_cron c : dispatches_nothing (call_cron c).
Proof. intros e. split; [done|]. split; [done|by left]. Qed.
Lemma nothing_spawn j : job_ok j → dispatches_nothing (spawn j).
Proof.
  intros Hj e. split; [done|]. split; [done|]. intros j' [?|Hj']%elem_of_app; [by left|].
  apply list_elem_of_singleton in Hj' as ->. by right.
Qed.

Lemma bounded_update p f :
  (∀ k, RetryCount (f k) = RetryCount k) → ∀ ts, bounded ts → bounded (update_where p f ts).
Proof.
  intros Hf ts Hts k. simpl. rewrite list_elem_of_fmap. intros (k0 & -> & Hk).
  case_match; rewrite ?Hf; by apply Hts.
Qed.

Create HintDb frame.
#[local] Hint Resolve frame_redis frame_logs frame_executors frame_domains frame_executions frame_tasks
  frame_effect nothing_deliver nothing_cancel nothing_cron nothing_spawn
  preserves_ret preserves_gets preserves_select preserves_select_opt : frame.
#[local] Hint Extern 1 (preserves _ (redis_del _)) => apply frame_redis : frame.
#[local] Hint Extern 1 (preserves _ (redis_set _ _ _ _)) => apply frame_redis : frame.
#[local] Hint Extern 1 (preserves _ (redis_exists _ _)) => apply frame_redis : frame.
#[local] Hint Extern 1 (same_identity _) => (intros ?; split; reflexivity) : frame.
#[local] Hint Extern 1 (job_ok _) => exact Logic.I : frame.
#[local] Hint Extern 1 (∀ ts, bounded ts → bounded (update_where _ _ ts)) =>
  (apply bounded_update; intros ?; reflexivity) : frame.

Ltac frame := repeat first [ solve [eauto 4 with frame nocore] | handler_step ].

Lemma frame_GetTaskByID id : preserves I (GetTaskByID cfg id).
Proof. apply reads_GetTaskByID. Qed.
Lemma frame_GetExecutorByID id : preserves I (GetExecutorByID id).
Proof. apply reads_GetExecutorByID. Qed.
Lemma frame_choose_executor t : preserves I (choose_executor cfg t).
Proof. apply reads_choose_executor. Qed.
#[local] Hint Resolve frame_GetTaskByID frame_GetExecutorByID frame_choose_executor : frame.

(** A task that was read asks for no more than [B] retries. *)
Lemma frame_read_task {A} id (k : result error TaskInfo → M (world R) A) :
  (∀ r, (∀ i, r = Ok i → RetryCount (info i) ≤ B) → preserves I (k r)) →
  preserves I (GetTaskByID cfg id ≫= k).
Proof.
  intros Hk w fs Hw. revert fs.
  assert (triple (eq w) (GetTaskByID cfg id)
    (λ r w', w' = w ∧ ∀ i, r = Ok i → RetryCount (info i) ≤ B)) as Ht.
  { unfold GetTaskByID. eapply triple_bind; [apply triple_select|].
    intros [[t|]|e]; [|by apply triple_ret; intros w' [-> _]..].
    unfold with_status. intros w' fs [-> Hr]. specialize (Hr _ eq_refl). rewrite run_bind, run_bind.
    assert (preserves (eq w) (getLastExecutionStatus (t_ID t) : M (world R) _)) as Hp
      by (unfold getLastExecutionStatus; frame).
    specialize (Hp w fs eq_refl). destruct (getLastExecutionStatus (t_ID t) w fs) as [s [w1 fs1]].
    simpl in Hp. subst w1. rewrite !run_ret. simpl. split; [done|]. intros i [= <-]. simpl.
    destruct (where_ _ _) as [|k0 ks] eqn:E; [done|]. injection Hr as ->. simpl.
    assert (k0 ∈ where_ (λ k, t_ID k =? id) (rows (tasks (tabs w)))) as [Hin _]%elem_of_where
      by (rewrite E; by left).
    pose proof (f_bound I HI w Hw k0 Hin) as [? ?]. destruct (decide (RetryCount k0 < 2 ^ 31)).
    - rewrite int32_small by lia. done.
    - pose proof (wrap_range 32 (RetryCount k0) ltac:(lia)). unfold int32. lia. }
  intros fs. refine (triple_bind (eq w) _ _ k (λ _, I) Ht _ w fs eq_refl).
  intros r w1 fs1 [-> Hr]. by apply Hk.
Qed.

(** *** The handlers *)

Lemma frame_UpdateExecutionResult i s o e r : preserves I (UpdateExecutionResult i s o e r).
Proof. unfold UpdateExecutionResult. frame. Qed.
Lemma frame_UpdateTaskProgress i p m : preserves I (UpdateTaskProgress i p m).
Proof. unfold UpdateTaskProgress. frame. Qed.
Lemma frame_AddTaskLog i t n l m : preserves I (AddTaskLog i t n l m).
Proof. unfold AddTaskLog, insert_log. frame. Qed.
#[local] Hint Resolve frame_UpdateExecutionResult frame_UpdateTaskProgress frame_AddTaskLog : frame.
Lemma frame_addRecoveryLogSafe i t l m : preserves I (addRecoveryLogSafe i t l m).
Proof. unfold addRecoveryLogSafe. frame. Qed.
Lemma frame_UpdateTaskStatusByID t s : preserves I (UpdateTaskStatusByID cfg t s).
Proof.
  unfold UpdateTaskStatusByID. apply preserves_bind; [frame|]. intros now.
  apply preserves_bind; [frame|]. intros r. apply frame_tasks, bounded_update.
  intros k. by repeat case_match.
Qed.
Lemma frame_SendWebhookNotification t i s o e d : preserves I (SendWebhookNotification cfg t i s o e d).
Proof. unfold SendWebhookNotification, getExecutionDurationFromDB. frame. Qed.
#[local] Hint Resolve frame_addRecoveryLogSafe frame_UpdateTaskStatusByID frame_SendWebhookNotification : frame.
Lemma frame_mark_failed t i o e d : preserves I (mark_failed cfg t i o e d).
Proof. unfold mark_failed. frame. Qed.
#[local] Hint Resolve frame_mark_failed : frame.

Lemma frame_HandleTaskFailure t i o e d : preserves I (HandleTaskFailure cfg t i o e d).
Proof.
  unfold HandleTaskFailure. apply preserves_bind; [frame|]. intros now.
  apply frame_read_task. intros [ti|err] Hb; [|frame]. specialize (Hb ti eq_refl).
  destruct (_ <=? 0); [frame|]. apply preserves_bind; [frame|]. intros set.
  destruct (negb (default true set)); [frame|].
  apply preserves_bind; [unfold getRetryTimesForExecution; frame|]. intros [n|err]; [|frame].
  destruct (Z.ltb_spec n (RetryCount (info ti))); [|frame].
  apply preserves_bind; [|frame]. apply frame_effect, nothing_spawn. simpl. lia.
Qed.
Lemma frame_fail_dispatch t i m : preserves I (fail_dispatch cfg t i m).
Proof. unfold fail_dispatch. frame. Qed.
#[local] Hint Resolve frame_HandleTaskFailure frame_fail_dispatch : frame.
Lemma frame_clean_stale t i : preserves I (clean_stale cfg t i).
Proof. unfold clean_stale. frame. Qed.
Lemma frame_record_skipped t i : preserves I (record_skipped cfg t i).
Proof.
  unfold record_skipped. apply preserves_bind; [frame|]. intros now.
  apply preserves_bind; [|intros r; frame].
  intros w fs Hw. apply (frame_insert _ _ _ _ 0); [by apply (f_nonneg I HI w)|done].
Qed.
Lemma frame_CancelExecution i by_ : preserves I (CancelExecution cfg i by_).
Proof. unfold CancelExecution. frame. Qed.
#[local] Hint Resolve frame_clean_stale frame_record_skipped frame_CancelExecution : frame.

Lemma frame_renewTaskLock i : preserves I (renewTaskLock i).
Proof. unfold renewTaskLock. frame. Qed.
#[local] Hint Resolve frame_renewTaskLock : frame.
Lemma frame_heartbeat n l ids : preserves I (UpdateExecutorHeartbeatWithRunningTasks n l ids).
Proof. unfold UpdateExecutorHeartbeatWithRunningTasks. frame. Qed.
Lemma frame_cleanup_stuck ids c : preserves I (cleanup_stuck cfg ids c).
Proof. unfold cleanup_stuck. frame. Qed.
#[local] Hint Resolve frame_cleanup_stuck : frame.
Lemma frame_cleanupDeadTasks : preserves I (cleanupDeadTasks cfg).
Proof. unfold cleanupDeadTasks, get_renewals. frame. Qed.
Lemma frame_fail_orphan x : preserves I (fail_orphan x).
Proof. unfold fail_orphan. frame. Qed.
#[local] Hint Resolve frame_fail_orphan : frame.
Lemma frame_cleanupOfflineExecutors : preserves I cleanupOfflineExecutors.
Proof. unfold cleanupOfflineExecutors, cleanupTasksFromOfflineExecutors. frame. Qed.
Lemma frame_scan_locks scan fuel ids c : preserves I (scan_locks scan fuel ids c).
Proof.
  revert c. induction fuel as [|fuel IH]; intros c; simpl; [frame|].
  unfold remove_stale_lock. frame.
Qed.
#[local] Hint Resolve frame_cleanupDeadTasks frame_cleanupOfflineExecutors frame_scan_locks : frame.
Lemma frame_cleanup_tick scan fuel : preserves I (cleanup_tick cfg scan fuel).
Proof. unfold cleanup_tick, checkCronReload, cleanupStaleTaskLocks. frame. Qed.
Lemma frame_recover_execution x : preserves I (recover_execution cfg x).
Proof. unfold recover_execution, forceFailTask, get_renewal. frame. Qed.
#[local] Hint Resolve frame_recover_execution : frame.
Lemma frame_RecoverRunningTasks : preserves I (RecoverRunningTasksOnBecomeLeader cfg).
Proof. unfold RecoverRunningTasksOnBecomeLeader. frame. Qed.

Lemma frame_AssignExecutorToDefaultDomain n : preserves I (AssignExecutorToDefaultDomain n).
Proof.
  unfold AssignExecutorToDefaultDomain, GetExecutorByName. repeat handler_step; [frame..|].
  apply preserves_write_checked. intros w [] t. unfold insert_domain_executor.
  destruct (existsb _ _); [done|]. intros [= <-] Hw. by apply (f_domains I HI).
Qed.
#[local] Hint Resolve frame_AssignExecutorToDefaultDomain : frame.
Lemma frame_insert_executor now c n a : preserves I (write_checked (insert_executor now c n a)).
Proof.
  apply preserves_write_checked. intros w x t. unfold insert_executor.
  destruct (existsb _ _); [done|]. intros [= <- <-] Hw. by apply (f_executors I HI).
Qed.
#[local] Hint Resolve frame_insert_executor : frame.
Lemma frame_RegisterExecutor n a c : preserves I (RegisterExecutor n a c).
Proof.
  unfold RegisterExecutor, GetExecutorByName, cleanupExecutorStaleTasks, updateExecutorMetrics. frame.
Qed.

Lemma frame_GetExecutorTargetCapacity n : preserves I (GetExecutorTargetCapacity n).
Proof. unfold GetExecutorTargetCapacity, GetExecutorByName. frame. Qed.

Lemma frame_notify_cron c : preserves I (notify_cron cfg c).
Proof. unfold notify_cron. frame. Qed.
#[local] Hint Resolve frame_notify_cron : frame.
Lemma frame_CreateTask row : (∀ id, 0 ≤ RetryCount (row id) ≤ B) → preserves I (CreateTask cfg row).
Proof.
  intros Hrow. unfold CreateTask. apply preserves_bind_ok; [|intros id; frame].
  apply preserves_write_checked. intros w x t [= <- <-] Hw. apply (f_tasks I HI (insert_row row)); [|done].
  intros ts Hts k. simpl. intros [Hk|Hk]%elem_of_app; [by apply Hts|].
  apply list_elem_of_singleton in Hk as ->. apply Hrow.
Qed.
Lemma frame_UpdateTask id t : 0 ≤ RetryCount t ≤ B → preserves I (UpdateTask cfg id t).
Proof.
  intros Ht. unfold UpdateTask. apply preserves_bind; [frame|]. intros now.
  apply preserves_bind_ok; [|intros u; frame]. apply frame_tasks. intros ts Hts k. simpl.
  rewrite list_elem_of_fmap. intros (k0 & -> & Hk). case_match; [done|by apply Hts].
Qed.
Lemma frame_DeleteTask id : preserves I (DeleteTask cfg id).
Proof.
  unfold DeleteTask. apply preserves_bind_ok; [|intros u; frame]. apply frame_tasks. intros ts Hts k. simpl.
  intros [Hk _]%elem_of_where. by apply Hts.
Qed.
End frames.

(** ** The system *)

Section system.
Context `{Redis R}.
Variable cfg : env.
Variable B : Z.
Implicit Types w : world R.

(** The events that reach a scheduler node. *)
Inductive op : Type :=
| OpTrigger (taskID : Z)
| OpGoroutine (n : nat)
| OpResult (executionID status output errorMsg : string) (timeRange : option (Z * Z))
| OpFailure (taskID : Z) (executionID output errorMsg : string) (durationMs : Z)
| OpProgress (executionID : string) (progress : Z) (progressMsg : string)
| OpLog (executionID : string) (taskID : Z) (nodeID logLevel message : string)
| OpCancel (executionID cancelledBy : string)
| OpRegister (name address : string) (capacity : Z)
| OpHeartbeat (name : string) (currentLoad : Z) (runningExecutionIds : list string)
| OpCapacity (name : string)
| OpTaskStatus (taskID : Z) (status : string)
| OpNotify (taskID : Z) (executionID status output errorMsg : string) (durationMs : Z)
| OpReport (taskID : Z) (executionID output errorMsg : string) (durationMs : Z)
| OpCreateTask (row : Z → Task)
| OpUpdateTask (id : Z) (task : Task)
| OpDeleteTask (id : Z)
| OpCleanup (scan : Z → R → list string * Z) (fuel : nat)
| OpRecover.

(** Tasks ask for at most [B] retries. *)
Definition op_ok (o : op) : Prop :=
  match o with
  | OpCreateTask row => ∀ id, 0 ≤ RetryCount (row id) ≤ B
  | OpUpdateTask _ t => 0 ≤ RetryCount t ≤ B
  | _ => True
  end.

Definition finish (n : nat) (e : effects) : effects :=
  mkEffects (delete n (spawned e)) (dispatched e) (deliveries e) (cancels e) (cron_calls e).

(** A goroutine runs once. *)
Definition run_goroutine (n : nat) : M (world R) unit :=
  j ← gets (λ w, spawned (fx w) !! n);
  match j with
  | None => mret tt
  | Some j => _ ← effect (finish n); run_job cfg (_ ← ScanPendingTasks; mret tt) j
  end.

Definition handle (o : op) : M (world R) unit :=
  match o with
  | OpTrigger taskID => _ ← TriggerTask cfg taskID; mret tt
  | OpGoroutine n => run_goroutine n
  | OpResult i s o e r => _ ← UpdateExecutionResult i s o e r; mret tt
  | OpFailure t i o e d => _ ← HandleTaskFailure cfg t i o e d; mret tt
  | OpProgress i p m => _ ← UpdateTaskProgress i p m; mret tt
  | OpLog i t n l m => _ ← AddTaskLog i t n l m; mret tt
  | OpCancel i c => _ ← CancelExecution cfg i c; mret tt
  | OpRegister n a c => _ ← RegisterExecutor n a c; mret tt
  | OpHeartbeat n l ids => _ ← UpdateExecutorHeartbeatWithRunningTasks n l ids; mret tt
  | OpCapacity n => _ ← GetExecutorTargetCapacity n; mret tt
  | OpTaskStatus t s => _ ← UpdateTaskStatusByID cfg t s; mret tt
  | OpNotify t i s o e d => _ ← SendWebhookNotification cfg t i s o e d; mret tt
  | OpReport t i o e d => effect (spawn (ReportJob t i o e d))
  | OpCreateTask row => _ ← CreateTask cfg row; mret tt
  | OpUpdateTask id t => _ ← UpdateTask cfg id t; mret tt
  | OpDeleteTask id => _ ← DeleteTask cfg id; mret tt
  | OpCleanup scan fuel => cleanup_tick cfg scan fuel
  | OpRecover => _ ← RecoverRunningTasksOnBecomeLeader cfg; mret tt
  end.

(** A frame that triggering and running goroutines keep is kept by every
    event. *)
Lemma frame_handle I o :
  Frame B I → (∀ t, preserves I (TriggerTask cfg t)) → (∀ n, preserves I (run_goroutine n)) →
  op_ok o → preserves I (handle o).
Proof.
  intros HF Ht Hg Ho.
  destruct o; simpl; try (apply preserves_bind; [|intros u; apply preserves_ret]).
  - apply Ht.
  - apply Hg.
  - by eapply frame_UpdateExecutionResult.
  - by eapply frame_HandleTaskFailure.
  - by eapply frame_UpdateTaskProgress.
  - by eapply frame_AddTaskLog.
  - by eapply frame_CancelExecution.
  - by eapply frame_RegisterExecutor.
  - by eapply frame_heartbeat.
  - by eapply frame_GetExecutorTargetCapacity.
  - by eapply frame_UpdateTaskStatusByID.
  - by eapply frame_SendWebhookNotification.
  - by apply (frame_effect B I HF), nothing_spawn.
  - by eapply frame_CreateTask.
  - by eapply frame_UpdateTask.
  - by eapply frame_DeleteTask.
  - by eapply frame_cleanup_tick.
  - by eapply frame_RecoverRunningTasks.
Qed.

Definition set_leader (b : bool) w : world R := mkWorld (tabs w) (redis w) (clock w) b (fx w).

Definition sent (w : world R) : list string := (λ d, pb_ExecutionId d.2) <$> dispatched (fx w).
Definition recorded (w : world R) : list string := ExecutionID <$> rows (executions (tabs w)).

(** The invariant. *)
Record Inv w : Prop := {
  inv_nonneg : 0 ≤ B;
  inv_tasks : bounded B (tasks (tabs w));
  inv_rows : ∀ x, x ∈ rows (executions (tabs w)) → RetryTimes x ≤ B;
  inv_jobs : ∀ j, j ∈ spawned (fx w) → job_ok B j;
  inv_unique : NoDup (recorded w);
  inv_sent : NoDup (sent w);
  inv_known : ∀ i, i ∈ sent w → i ∈ recorded w;
}.

(** Nothing has been dispatched yet. *)
Definition system_start w : Prop :=
  0 ≤ B ∧ bounded B (tasks (tabs w)) ∧ (∀ x, x ∈ rows (executions (tabs w)) → RetryTimes x ≤ B) ∧
  NoDup (recorded w) ∧ spawned (fx w) = [] ∧ dispatched (fx w) = [].

Lemma insert_execution_spec taskID i status msg n now w t :
  insert_execution taskID i status msg n now (tabs w) = Some (tt, t) →
  i ∉ recorded w ∧ (ExecutionID <$> rows (executions t)) = recorded w ++ [i] ∧ tasks t = tasks (tabs w) ∧
  ∀ x, x ∈ rows (executions t) → x ∈ rows (executions (tabs w)) ∨ RetryTimes x = n.
Proof.
  unfold insert_execution. destruct (existsb _ _) eqn:E; [done|]. intros [= <-].
  rewrite existsb_false_iff in E. split; [|split; [|split]].
  - intros (x & -> & Hx)%list_elem_of_fmap. specialize (E x Hx). by rewrite bool_decide_eq_true_2 in E.
  - simpl. by rewrite fmap_app.
  - done.
  - simpl. intros x [Hx|Hx]%elem_of_app; [by left|]. apply list_elem_of_singleton in Hx as ->. by right.
Qed.

Lemma recorded_update p f w :
  same_identity f → recorded (set_tabs (set_executions (update_where p f)) w) = recorded w.
Proof.
  intros Hf. unfold recorded. simpl. induction (rows (executions (tabs w))) as [|x l IH]; simpl; [done|].
  f_equal; [|done]. case_match; [apply Hf|done].
Qed.

(** The invariant, and what is known between inserting the row of [i] and
    sending its task. *)
Definition Pending (i : string) w : Prop := Inv w ∧ i ∈ recorded w ∧ i ∉ sent w.

Lemma frame_Inv : Frame B Inv.
Proof.
  split.
  - by intros f w [].
  - intros p f w Hf []. pose proof (recorded_update p f w Hf) as Hr.
    split; rewrite ?Hr; try done. simpl. intros x (y & -> & Hy)%list_elem_of_fmap.
    case_match; [rewrite (proj2 (Hf y))|]; auto.
  - intros taskID i status msg n now w t Hn (Hi & Hr & Ht & Hrows)%insert_execution_spec [].
    assert (recorded (set_tabs (λ _, t) w) = recorded w ++ [i]) as Hr' by exact Hr.
    split; simpl; try done.
    + by rewrite Ht.
    + intros x [Hx| ->]%Hrows; [auto|done].
    + rewrite Hr'. apply NoDup_app. split; [done|]. split; [|apply NoDup_singleton].
      intros j Hj ->%list_elem_of_singleton. done.
    + intros j Hj. rewrite Hr'. apply elem_of_app. left. auto.
  - by intros f w [].
  - intros f w Hf []. split; try done. simpl. auto.
  - by intros f w [].
  - by intros f w [].
  - intros f w Hf []. destruct (Hf (fx w)) as (Hd & _ & Hs). unfold sent in *.
    split; simpl; unfold sent; simpl; rewrite ?Hd; try done.
    intros j [Hj|Hj]%Hs; auto.
  - by intros w [].
  - by intros w [].
  - by intros w [].
Qed.

Lemma frame_Pending i : Frame B (Pending i).
Proof.
  pose proof frame_Inv as HF. unfold Pending. split.
  - intros f w (Hw & ? & ?). split; [by apply HF|done].
  - intros p f w Hf (Hw & Hi & Hs). split; [by apply HF|]. by rewrite recorded_update.
  - intros taskID j status msg n now w t Hn Hins (Hw & Hi & Hs). split; [by eapply (f_insert _ _ HF)|].
    apply insert_execution_spec in Hins as (_ & Hr & _). split; [|done].
    unfold recorded at 1. simpl. rewrite Hr. apply elem_of_app. by left.
  - intros f w (Hw & ? & ?). split; [by apply HF|done].
  - intros f w Hf (Hw & ? & ?). split; [by apply HF|done].
  - intros f w (Hw & ? & ?). split; [by apply HF|done].
  - intros f w (Hw & ? & ?). split; [by apply HF|done].
  - intros f w Hf (Hw & ? & Hs). split; [by apply HF|]. split; [done|].
    unfold sent. simpl. by rewrite (proj1 (Hf _)).
  - intros w (Hw & _). by apply HF.
  - intros w (Hw & _). by apply HF.
  - intros w (Hw & _). apply Hw.
Qed.

(** *** Dispatching *)

(** Recording the identifier of a fresh execution. *)
Lemma triple_insert taskID i status msg n now :
  n ≤ B →
  triple Inv (write_checked (insert_execution taskID i status msg n now))
    (λ r w, match r with Ok _ => Pending i w | Err _ => Inv w end).
Proof.
  intros Hn. unfold write_checked, or_err, exec_checked.
  assert (∀ w t, Inv w → insert_execution taskID i status msg n now (tabs w) = Some (tt, t) →
    Pending i (set_tabs (λ _, t) w)) as Hins.
  { intros w t Hw Ht. split; [by eapply (f_insert _ _ frame_Inv)|].
    apply insert_execution_spec in Ht as (Hnew & Hr & _). split.
    - unfold recorded. simpl. rewrite Hr. apply elem_of_app. right. by left.
    - intros Hs. by apply Hnew, (inv_known _ Hw). }
  eapply (triple_bind _ _ (λ o w, match o with Some _ => Pending i w | None => Inv w end)).
  - eapply (triple_bind _ _ (λ o w, match o with Some (Some _) => Pending i w | _ => Inv w end)).
    + apply triple_call. intros w Hw. simpl.
      destruct (insert_execution taskID i status msg n now (tabs w)) as [[[] t]|] eqn:E; simpl; [|done].
      pose proof (Hins w t Hw E) as Hp. split; [done|]. split; [done|apply Hp].
    + intros [[a|]|]; apply triple_ret; auto.
  - intros [a|]; apply triple_ret; auto.
Qed.

Lemma Inv_dispatch e p i : 
  pb_ExecutionId p = i → triple (Pending i) (effect (dispatch e p)) (λ _, Inv).
Proof.
  intros Hp. apply triple_modify. intros w ([] & Hi & Hs). unfold sent in *.
  split; try done; unfold sent; simpl; rewrite fmap_app; simpl; rewrite Hp.
  - apply NoDup_app. split; [done|]. split; [|apply NoDup_singleton].
    intros j Hj ->%list_elem_of_singleton. done.
  - intros j [Hj|Hj]%elem_of_app; [auto|]. by apply list_elem_of_singleton in Hj as ->.
Qed.

Lemma Pending_Inv i {A} (m : M (world R) A) : preserves (Pending i) m → triple (Pending i) m (λ _, Inv).
Proof. intros Hm w fs Hw. by apply (Hm w fs Hw). Qed.

Lemma triple_send_task task i e : triple (Pending i) (send_task cfg task i e) (λ _, Inv).
Proof.
  pose proof (frame_Pending i) as HP. unfold send_task.
  eapply triple_bind; [by apply (triple_gets _ _ (λ _, Pending i))|]. intros now. cbv beta.
  destruct (dispatcher cfg) as [send|].
  - eapply triple_bind; [apply triple_preserves, frame_executions with (B := B); [done|by split]|].
    intros u. cbv beta. destruct (send _ _).
    + apply Pending_Inv, preserves_bind; [by eapply frame_fail_dispatch|intros v; apply preserves_ret].
    + eapply triple_bind; [by apply Inv_dispatch|]. intros v. cbv beta.
      apply triple_preserves, preserves_bind; [eapply frame_AddTaskLog, frame_Inv|]. intros l.
      apply preserves_bind; [eapply frame_redis, frame_Inv|intros o; apply preserves_ret].
  - apply Pending_Inv, preserves_bind; [by eapply frame_fail_dispatch|intros v; apply preserves_ret].
Qed.

Lemma Inv_dispatchTaskExecution task i n : n ≤ B → preserves Inv (dispatchTaskExecution cfg task i n).
Proof.
  intros Hn. unfold dispatchTaskExecution. apply preserves_bind; [apply preserves_gets|]. intros now.
  apply preserves_bind; [eapply frame_redis, frame_Inv|]. intros lockSet.
  case_bool_decide; [apply preserves_ret|].
  match goal with |- preserves Inv ?m => change (triple Inv m (λ _, Inv)) end.
  eapply triple_bind; [by apply triple_insert|]. intros [u|err].
  - eapply triple_bind; [apply triple_preserves, reads_choose_executor|]. intros [e|[msg err]]; cbv beta.
    + apply triple_send_task.
    + apply Pending_Inv, preserves_bind; [eapply frame_fail_dispatch, frame_Pending|].
      intros v. apply preserves_ret.
  - apply triple_preserves, preserves_bind; [|intros v; apply preserves_ret].
    destruct (default false lockSet); [|apply preserves_ret].
    apply preserves_bind; [eapply frame_redis, frame_Inv|intros v; apply preserves_ret].
Qed.

Lemma finish_nothing n : dispatches_nothing B (finish n).
Proof.
  intros e. split; [done|]. split; [done|]. intros j Hj. left. simpl in Hj. apply list_elem_of_lookup in Hj as [k Hk].
  rewrite list_lookup_delete in Hk. by eapply list_elem_of_lookup_2.
Qed.

(** *** Frames that dispatches keep

    What remains to be shown for an invariant that survives a dispatch. *)
Section dispatching.
Context (I : world R → Prop) (HF : Frame B I).
Hypothesis Hdispatch : ∀ task i n, n ≤ B → preserves I (dispatchTaskExecution cfg task i n).

Lemma dispatching_read_task {A} id (k : result error TaskInfo → M (world R) A) :
  (∀ r, preserves I (k r)) → preserves I (GetTaskByID cfg id ≫= k).
Proof. intros Hk. apply preserves_bind; [apply reads_GetTaskByID|done]. Qed.

Lemma dispatching_TriggerTask taskID : preserves I (TriggerTask cfg taskID).
Proof.
  assert (preserves I (trigger_new cfg taskID)) as Hnew.
  { unfold trigger_new. apply preserves_bind; [apply preserves_gets|]. intros now w fs Hw.
    pose proof (f_nonneg B I HF w Hw) as HB. revert w fs Hw. apply dispatching_read_task.
    intros [i|e]; [by apply Hdispatch|apply preserves_ret]. }
  pose proof (frame_clean_stale cfg B I HF). pose proof (frame_record_skipped cfg B I HF).
  pose proof (λ (A : Type) op, @frame_redis _ B I HF A op).
  pose proof (λ id, preserves_reads I _ (reads_GetTaskByID cfg id)).
  unfold TriggerTask, get_renewal. repeat first [solve [eauto with handler nocore] | handler_step].
Qed.

Lemma dispatching_run_job j : job_ok B j → preserves I (run_job cfg (_ ← ScanPendingTasks; mret tt) j).
Proof.
  intros Hj. destruct j as [t i out n d due|t i reason|t i out msg d|]; simpl.
  - assert (preserves I (RetryTask cfg t n)) as Hr.
    { unfold RetryTask. apply preserves_bind; [apply preserves_gets|]. intros now.
      apply dispatching_read_task. intros [ti|e]; [by apply Hdispatch|apply preserves_ret]. }
    pose proof (frame_mark_failed cfg B I HF). pose proof (λ (A : Type) op, @frame_redis _ B I HF A op).
    unfold redis_del. repeat first [solve [eauto with handler nocore] | handler_step].
  - apply preserves_bind; [by eapply frame_HandleTaskFailure|intros v; apply preserves_ret].
  - apply preserves_bind; [by eapply frame_HandleTaskFailure|intros v; apply preserves_ret].
  - unfold ScanPendingTasks. apply preserves_bind; [apply preserves_select|intros v; apply preserves_ret].
Qed.

Lemma dispatching_run_goroutine n : preserves I (run_goroutine n).
Proof.
  unfold run_goroutine. intros w fs Hw. rewrite run_bind, run_gets.
  destruct (spawned (fx w) !! n) as [j|] eqn:E; [|done].
  assert (job_ok B j) as Hj by (apply (f_jobs B I HF w Hw); by eapply list_elem_of_lookup_2).
  revert w fs Hw E. intros w fs Hw _. revert w fs Hw. apply preserves_bind.
  - apply (frame_effect B I HF), finish_nothing.
  - intros u. by apply dispatching_run_job.
Qed.

Lemma dispatching_handle o : op_ok o → preserves I (handle o).
Proof. apply frame_handle; [done|apply dispatching_TriggerTask|apply dispatching_run_goroutine]. Qed.
End dispatching.

Lemma Inv_handle o : op_ok o → preserves Inv (handle o).
Proof. apply dispatching_handle; [apply frame_Inv|apply Inv_dispatchTaskExecution]. Qed.

(** *** Cancel signals are only added *)

Definition Signalled (c : list (string * string)) w : Prop := Inv w ∧ c `prefix_of` cancels (fx w).

Lemma frame_Signalled c : Frame B (Signalled c).
Proof.
  pose proof frame_Inv as HF. unfold Signalled. split.
  - intros f w (Hw & ?). split; [by apply HF|done].
  - intros p f w Hf (Hw & ?). split; [by apply HF|done].
  - intros taskID j status msg n now w t Hn Hins (Hw & ?). split; [by eapply (f_insert _ _ HF)|done].
  - intros f w (Hw & ?). split; [by apply HF|done].
  - intros f w Hf (Hw & ?). split; [by apply HF|done].
  - intros f w (Hw & ?). split; [by apply HF|done].
  - intros f w (Hw & ?). split; [by apply HF|done].
  - intros f w Hf (Hw & Hc). split; [by apply HF|]. etrans; [exact Hc|apply Hf].
  - intros w (Hw & _). by apply HF.
  - intros w (Hw & _). by apply HF.
  - intros w (Hw & _). apply Hw.
Qed.

(** What a dispatch does to the signals. *)
Definition signals_kept (c : list (string * string)) w : Prop := c `prefix_of` cancels (fx w).

Lemma signals_dispatchTaskExecution c task i n :
  preserves (signals_kept c) (dispatchTaskExecution cfg task i n).
Proof.
  assert (∀ (f : tables → tables), preserves (signals_kept c) (write f)) as Hwrite
    by (intros f; by apply preserves_write).
  assert (∀ (A : Type) (op : R → A * R), preserves (signals_kept c) (redis_call op)) as Hredis
    by (intros A op; by apply preserves_redis_call).
  assert (∀ f : effects → effects, (∀ e, cancels (f e) = cancels e) →
    preserves (signals_kept c) (effect f)) as Hfx.
  { intros f Hf. apply preserves_effect. intros w Hw. unfold signals_kept. simpl. by rewrite Hf. }
  assert (∀ (A : Type) (f : tables → option (A * tables)),
    preserves (signals_kept c) (write_checked f)) as Hchecked
    by (intros A f; by apply preserves_write_checked).
  pose proof (λ t, preserves_reads (signals_kept c) _ (reads_choose_executor cfg t)).
  pose proof (λ t, preserves_reads (signals_kept c) _ (reads_GetTaskByID cfg t)).
  unfold dispatchTaskExecution, send_task, fail_dispatch, mark_failed, AddTaskLog, insert_log,
    UpdateExecutionResult, UpdateTaskStatusByID, SendWebhookNotification, getExecutionDurationFromDB,
    redis_del, redis_set, redis_exists.
  repeat first [solve [eauto with handler nocore] | handler_step].
Qed.

Lemma Signalled_handle c o : op_ok o → preserves (Signalled c) (handle o).
Proof.
  apply dispatching_handle; [apply frame_Signalled|]. intros task i n Hn w fs [Hw Hc].
  split; [by apply Inv_dispatchTaskExecution|by apply signals_dispatchTaskExecution].
Qed.

(** A follower that has dispatched [d] so far. *)
Definition Follower (d : list (string * pb_Task)) w : Prop :=
  Inv w ∧ leader w = false ∧ dispatched (fx w) = d.

Lemma frame_Follower d : Frame B (Follower d).
Proof.
  pose proof frame_Inv as HF. unfold Follower. split.
  - intros f w (Hw & ? & ?). split; [by apply HF|done].
  - intros p f w Hf (Hw & ? & ?). split; [by apply HF|done].
  - intros taskID j status msg n now w t Hn Hins (Hw & ? & ?). split; [by eapply (f_insert _ _ HF)|done].
  - intros f w (Hw & ? & ?). split; [by apply HF|done].
  - intros f w Hf (Hw & ? & ?). split; [by apply HF|done].
  - intros f w (Hw & ? & ?). split; [by apply HF|done].
  - intros f w (Hw & ? & ?). split; [by apply HF|done].
  - intros f w Hf (Hw & ? & Hd). split; [by apply HF|]. split; [done|]. simpl. by rewrite (proj1 (Hf _)).
  - intros w (Hw & _). by apply HF.
  - intros w (Hw & _). by apply HF.
  - intros w (Hw & _). apply Hw.
Qed.

Lemma Follower_run_goroutine d n : preserves (Follower d) (run_goroutine n).
Proof.
  pose proof (frame_Follower d) as HF. unfold run_goroutine. apply preserves_bind; [apply preserves_gets|].
  intros [j|]; [|apply preserves_ret].
  apply preserves_bind; [eapply frame_effect, finish_nothing; exact HF|]. intros _.
  destruct j as [t i out k dur due|t i reason|t i out msg dur|]; simpl.
  - intros w fs Hw. rewrite run_bind, run_gets. destruct Hw as (Hi & Hl & Hd). rewrite Hl. simpl negb.
    cbv iota. match goal with |- Follower d (?m w fs).2.1 => assert (preserves (Follower d) m) as Hm end;
      [|by apply Hm].
    apply preserves_bind; [by eapply frame_mark_failed|]. intros u.
    apply preserves_bind; [by eapply frame_redis|intros v; apply preserves_ret].
  - apply preserves_bind; [by eapply frame_HandleTaskFailure|intros v; apply preserves_ret].
  - apply preserves_bind; [by eapply frame_HandleTaskFailure|intros v; apply preserves_ret].
  - unfold ScanPendingTasks. apply preserves_bind; [apply preserves_select|intros v; apply preserves_ret].
Qed.

Lemma Follower_TriggerTask d t : preserves (Follower d) (TriggerTask cfg t).
Proof.
  unfold TriggerTask. intros w fs (Hw & Hl & Hd). rewrite run_bind, run_gets, Hl. by split.
Qed.

Lemma Follower_handle d o : op_ok o → preserves (Follower d) (handle o).
Proof. apply frame_handle; [apply frame_Follower|apply Follower_TriggerTask|apply Follower_run_goroutine]. Qed.
End system.

(** ** Steps

    The surroundings (the streams of the dispatcher, the reachable executors)
    may differ from one event to the next. *)

Section steps.
Context `{Redis R}.
Variable B : Z.
Implicit Types w : world R.

Inductive system_step : world R → world R → Prop :=
| step_op cfg o fs w : op_ok B o → system_step w (run (handle cfg o) w fs).2
| step_clock t w : system_step w (set_clock t w)
| step_leader b w : system_step w (set_leader b w).

Lemma Inv_reachable w : reachable system_step (system_start B) w → Inv B w.
Proof.
  revert w. apply reachable_invariant.
  - intros w (HB & Ht & Hx & Hn & Hs & Hd). split; unfold sent; rewrite ?Hs, ?Hd; try done.
    + by intros j ?%not_elem_of_nil.
    + apply NoDup_nil_2.
    + by intros i ?%not_elem_of_nil.
  - intros w w' Hw Hstep. destruct Hstep as [cfg o fs w Ho|t w|b w].
    + by apply run_preserves; [apply Inv_handle|].
    + by destruct Hw.
    + by destruct Hw.
Qed.

(** C1: no execution is ever sent to an executor twice, and none is sent that
    is not recorded, whatever events reach the node, in whatever order, with
    whatever faults of Redis and of the database. *)
Theorem each_execution_sent_once w (Hw : reachable system_step (system_start B) w) :
  NoDup (sent w) ∧ (∀ i, i ∈ sent w → i ∈ recorded w) ∧ NoDup (recorded w).
Proof. by destruct (Inv_reachable w Hw). Qed.

(** C6: as long as tasks ask for at most [B] retries, no execution is recorded
    as, and no pending goroutine is about to start, a retry with a number
    greater than [B]; duplicated failure reports, failed calls and changes of
    leadership do not extend the chain. *)
Theorem retries_bounded w (Hw : reachable system_step (system_start B) w) :
  (∀ x, x ∈ rows (executions (tabs w)) → RetryTimes x ≤ B) ∧
  ∀ t i out n d due, RetryJob t i out n d due ∈ spawned (fx w) → n ≤ B.
Proof.
  destruct (Inv_reachable w Hw). split; [done|].
  intros t i out n d due Hj. exact (inv_jobs0 _ Hj).
Qed.

(** C5: a node that is not the leader sends nothing to any executor, whatever
    event it handles: triggers are refused, pending retries are given up. *)
Theorem follower_dispatches_nothing cfg o fs w
    (Hw : reachable system_step (system_start B) w) (Ho : op_ok B o) (Hl : leader w = false) :
  let w' := (run (handle cfg o) w fs).2 in
  dispatched (fx w') = dispatched (fx w) ∧ leader w' = false.
Proof.
  set (d := dispatched (fx w)).
  destruct (run_preserves (Follower B d) (handle cfg o) w fs (Follower_handle cfg B d o Ho)) as (_ & ? & ?); [|done].
  split; [by apply Inv_reachable|done].
Qed.
End steps.

(** ** A concrete run *)

Definition idle_world : world gmap_store :=
  mkWorld (mkTables (mkTable [demo_task] 7) (mkTable [] 0) (mkTable [alive_executor] 1)
    (mkTable [mkDomainExecutor 1 1] 1)
    (mkTable [] 0) (mkTable [] 0) (mkTable [] 0)) ∅ Second true (mkEffects [] [] [] [] []).

Lemma idle_start : system_start 2 idle_world.
Proof.
  split; [lia|]. split; [|split; [|split; [|split; [done|done]]]].
  - intros k ->%list_elem_of_singleton. simpl. lia.
  - by intros x ?%not_elem_of_nil.
  - apply NoDup_nil_2.
Qed.

(** A task is triggered, and reported failed. *)
Definition busy_world : world gmap_store :=
  (run (handle demo_env (OpFailure 7 "exec-7-1000000000" "" "boom" 0))
     (run (handle demo_env (OpTrigger 7)) idle_world []).2 []).2.

Lemma busy_reachable : reachable (system_step 2) (system_start 2) busy_world.
Proof.
  exists idle_world. split; [apply idle_start|].
  eapply rtc_l; [by apply (step_op 2 demo_env (OpTrigger 7) [])|].
  eapply rtc_l; [by apply (step_op 2 demo_env (OpFailure 7 "exec-7-1000000000" "" "boom" 0) [])|].
  apply rtc_refl.
Qed.

Example each_execution_sent_once_witness :
  NoDup (sent busy_world) ∧ (∀ i, i ∈ sent busy_world → i ∈ recorded busy_world) ∧ NoDup (recorded busy_world).
Proof. exact (each_execution_sent_once 2 busy_world busy_reachable). Defined.

Example retries_bounded_witness :
  (∀ x, x ∈ rows (executions (tabs busy_world)) → RetryTimes x ≤ 2) ∧
  ∀ t i out n d due, RetryJob t i out n d due ∈ spawned (fx busy_world) → n ≤ 2.
Proof. exact (retries_bounded 2 busy_world busy_reachable). Defined.

Example follower_dispatches_nothing_witness :
  let w' := (run (handle demo_env (OpGoroutine 0)) (set_leader false busy_world) []).2 in
  dispatched (fx w') = dispatched (fx (set_leader false busy_world)) ∧ leader w' = false.
Proof.
  refine (follower_dispatches_nothing 2 demo_env (OpGoroutine 0) [] (set_leader false busy_world) _ Logic.I eq_refl).
  destruct busy_reachable as (w0 & H0 & Hrtc). exists w0. split; [done|].
  eapply rtc_r; [exact Hrtc|]. apply step_leader.
Defined.
