(* ===== verification/GrpcServer.v ===== *)
(** * The gRPC server of the scheduler

    [src/scheduler/internal/grpcserver/server.go]: the table of task streams,
    which is the dispatcher of the service; the cancellations waiting for an
    executor's next heartbeat; registrations, heartbeats and reports.

    A [node] is the server with the world of the service behind it.  A request
    is one handler; [SubscribeTask] blocks until its stream ends and is
    therefore two steps, and the goroutine of [MarkAsNewLeader] is a step
    [reset_timer].  The service runs with the dispatcher and the connectivity
    check of the server, and the cancel signals it sends reach
    [AddCancelExecutionId], as [src/scheduler/cmd/app.go] wires them. *)
From stdpp Require Import gmap.
From S2P Require Import Prelude Redis Sql World Executor Execution Cleanup System.

(** ** Messages

    [src/proto/task.proto]; the responses without content are [bool]s. *)

Record RegisterRequest : Type := mkRegister { rq_Name : string; rq_Address : string; rq_Capacity : Z }.
Record RegisterResponse : Type := mkRegistered {
  rs_Success : bool; rs_Message : string; rs_ExecutorName : string; Duplicate : bool;
}.

Record RunningTaskState : Type := mkRunningTask {
  rt_ExecutionId : string; rt_TaskId : Z; rt_Progress : Z; ProgressMessage : string;
}.
Record HeartbeatRequest : Type := mkHeartbeat {
  ExecutorName : string; hb_CurrentLoad : Z; RunningExecutionIds : list string;
  RunningTasks : list RunningTaskState; IsReconnect : bool;
}.
Record HeartbeatResponse : Type := mkBeat {
  TargetCapacity : Z; NeedFullSync : bool; SchedulerNodeId : string;
  IsNewLeader : bool; IsLeader : bool; CancelExecutionIds : list string;
}.

Record ReportTaskResultRequest : Type := mkResult {
  rr_ExecutionId : string; rr_TaskId : Z; rr_Status : string; rr_Output : string; rr_Error : string;
  rr_StartTime : Z; rr_EndTime : Z;
}.
Record ReportTaskLogRequest : Type := mkLog {
  rl_ExecutionId : string; rl_TaskId : Z; rl_LogLevel : string; LogContent : string;
}.
Record ReportTaskProgressRequest : Type := mkProgress {
  rp_ExecutionId : string; rp_Progress : Z; rp_Message : string;
}.

(** ** State *)

(** A stream is named by a number; [executors] holds the stream of the last
    subscription of a name. *)
Record Server : Type := mkServer {
  executors : gmap string Z;
  nodeId : string;
  isNewLeader : bool;
  isLeader : bool;
  needExecSync : gset string;
  cancelExecIds : gmap string (list string);
}.

Definition NewServer : Server := mkServer ∅ "" false false ∅ ∅.

Definition pending_cancels (name : string) (s : Server) : list string := default [] (cancelExecIds s !! name).

Definition AddCancelExecutionId (executorName executionId : string) (s : Server) : Server :=
  mkServer (executors s) (nodeId s) (isNewLeader s) (isLeader s) (needExecSync s)
    (<[executorName := pending_cancels executorName s ++ [executionId]]> (cancelExecIds s)).
Definition SetNodeId (id : string) (s : Server) : Server :=
  mkServer (executors s) id (isNewLeader s) (isLeader s) (needExecSync s) (cancelExecIds s).
Definition SetLeader (b : bool) (s : Server) : Server :=
  mkServer (executors s) (nodeId s) (isNewLeader s) b (needExecSync s) (cancelExecIds s).
(** The goroutine it starts is [reset_timer]. *)
Definition MarkAsNewLeader (s : Server) : Server :=
  mkServer (executors s) (nodeId s) true true (needExecSync s ∪ dom (executors s)) (cancelExecIds s).
Definition reset_timer (s : Server) : Server :=
  mkServer (executors s) (nodeId s) false (isLeader s) (needExecSync s) (cancelExecIds s).
Definition SyncRunningTasks (name : string) (s : Server) : Server :=
  mkServer (executors s) (nodeId s) (isNewLeader s) (isLeader s) ({[name]} ∪ needExecSync s) (cancelExecIds s).
Definition set_stream (name : string) (stream : Z) (s : Server) : Server :=
  mkServer (<[name := stream]> (executors s)) (nodeId s) (isNewLeader s) (isLeader s) (needExecSync s)
    (cancelExecIds s).
Definition delete_stream (name : string) (s : Server) : Server :=
  mkServer (delete name (executors s)) (nodeId s) (isNewLeader s) (isLeader s) (needExecSync s)
    (cancelExecIds s).
(** The end of [Heartbeat]: what was answered is forgotten. *)
Definition forget_answered (name : string) (s : Server) : Server :=
  mkServer (executors s) (nodeId s) (isNewLeader s) (isLeader s) (needExecSync s ∖ {[name]})
    (match pending_cancels name s with [] => cancelExecIds s | _ => delete name (cancelExecIds s) end).

Definition IsExecutorConnected (name : string) (s : Server) : bool := bool_decide (is_Some (executors s !! name)).
Definition GetConnectedExecutorNames (s : Server) : list string := (map_to_list (executors s)).*1.

(** [stream.Send]: the text of its error, if any. *)
Definition dispatchTask (send : Z → pb_Task → option string) (s : Server) (executorName : string)
    (task : pb_Task) : option string :=
  match executors s !! executorName with
  | None => Some ("executor " +:+ executorName +:+ " not connected")
  | Some stream => send stream task
  end.

(** ** The node *)

(** [subscribers] are the [SubscribeTask] calls that wait for the end of
    their stream, [timers] the goroutines of [MarkAsNewLeader] that sleep, and
    [answers] the cancellations heartbeats have answered, in order. *)
Record node (R : Type) : Type := mkNode {
  server : Server;
  subscribers : list (string * Z);
  timers : nat;
  answers : list (string * list string);
  back : world R;
}.
Arguments mkNode {R} _ _ _ _ _.
Arguments server {R} _.
Arguments subscribers {R} _.
Arguments timers {R} _.
Arguments answers {R} _.
Arguments back {R} _.

Section server.
Context `{Redis R}.
(** The surroundings of the service, its streams and the largest number of
    retries a task asks for. *)
Variable base : env.
Variable send : Z → pb_Task → option string.
Abbreviation N := (node R).

Definition surroundings (s : Server) : env :=
  mkEnv (Some (dispatchTask send s)) (has_cron base) (has_webhooks base) true
    (λ name, IsExecutorConnected name s) (dial base) (next_time base) (rand base) (db_error base)
    (redis_error base).

Definition local (f : Server → Server) : M N unit :=
  modify (λ n, mkNode (f (server n)) (subscribers n) (timers n) (answers n) (back n)).

(** The new signals of [w'] reach the server. *)
Definition take_signals (w w' : world R) (s : Server) : Server :=
  foldl (λ s c, AddCancelExecutionId c.1 c.2 s) s (drop (length (cancels (fx w))) (cancels (fx w'))).

(** A call of the service. *)
Definition svc {A} (m : env → M (world R) A) : M N A := λ n fs,
  let '(a, (w', fs')) := m (surroundings (server n)) (back n) fs in
  (a, (mkNode (take_signals (back n) w' (server n)) (subscribers n) (timers n) (answers n) w', fs')).

Definition time_now : M N Z := gets (λ n, clock (back n)).

Definition Register (req : RegisterRequest) : M N RegisterResponse :=
  r ← svc (λ cfg, RegisterExecutor (rq_Name req) (rq_Address req) (rq_Capacity req));
  mret match r with
       | Ok name => mkRegistered true "registered" name false
       | Err e => mkRegistered false (error_text base e) ""
                    (match e with ErrExecutorDuplicate _ _ => true | _ => false end)
       end.

(** The answer to a heartbeat that names an executor. *)
Definition beat_answer (req : HeartbeatRequest) (targetCapacity : Z) : M N HeartbeatResponse := λ n fs,
  let s := server n in
  let name := ExecutorName req in
  let cancelIds := pending_cancels name s in
  (mkBeat targetCapacity (bool_decide (name ∈ needExecSync s) || (IsReconnect req && isNewLeader s))
     (nodeId s) (isNewLeader s) (isLeader s) cancelIds,
   (mkNode (forget_answered name s) (subscribers n) (timers n) (answers n ++ [(name, cancelIds)]) (back n), fs)).

Definition Heartbeat (req : HeartbeatRequest) : M N HeartbeatResponse :=
  if bool_decide (ExecutorName req = "") then
    s ← gets server; mret (mkBeat 0 false (nodeId s) false (isLeader s) [])
  else
    _ ← match RunningTasks req with
        | [] => _ ← svc (λ _, UpdateExecutorHeartbeatWithRunningTasks (ExecutorName req) (hb_CurrentLoad req)
                                 (RunningExecutionIds req)); mret tt
        | tasks =>
            _ ← for_each tasks (λ t,
                  _ ← svc (λ _, UpdateTaskProgress (rt_ExecutionId t) (rt_Progress t) (ProgressMessage t));
                  mret tt);
            _ ← svc (λ _, UpdateExecutorHeartbeatWithRunningTasks (ExecutorName req) (hb_CurrentLoad req)
                            (rt_ExecutionId <$> tasks)); mret tt
        end;
    cap ← svc (λ _, GetExecutorTargetCapacity (ExecutorName req));
    beat_answer req (match cap with Ok n => n | Err _ => 0 end).

(** [SubscribeTask] up to its wait, and its end. *)
Definition SubscribeTask (name : string) (stream : Z) : M N unit :=
  modify (λ n, mkNode (set_stream name stream (server n)) (subscribers n ++ [(name, stream)]) (timers n)
                 (answers n) (back n)).
Definition stream_ended (k : nat) : M N unit :=
  modify (λ n, match subscribers n !! k with
               | Some (name, _) => mkNode (delete_stream name (server n)) (delete k (subscribers n)) (timers n)
                                     (answers n) (back n)
               | None => n
               end).

(** [t.Sub(u)] stops at the ends of the 64-bit range. *)
Definition duration (d : Z) : Z := Z.max (- 2 ^ 63) (Z.min (2 ^ 63 - 1) d).

(** [durationMs]; the warning for a negative duration is a log line. *)
Definition reported_ms (now startTime endTime : Z) : Z :=
  if (0 <? startTime) && (0 <? endTime) then
    let d := duration ((endTime - startTime) * Second) in
    if d <? 0 then 0 else d `quot` 1000000
  else if 0 <? startTime then duration (now - startTime * Second) `quot` 1000000
  else 0.

Definition ReportTaskResult (req : ReportTaskResultRequest) : M N bool :=
  _ ← svc (λ _, UpdateExecutionResult (rr_ExecutionId req) (rr_Status req) (rr_Output req) (rr_Error req)
                  (Some (rr_StartTime req, rr_EndTime req)));
  now ← time_now;
  let durationMs := reported_ms now (rr_StartTime req) (rr_EndTime req) in
  _ ← (if bool_decide (rr_Status req = "failed") then
         svc (λ _, effect (spawn (ReportJob (rr_TaskId req) (rr_ExecutionId req) (rr_Output req)
                                    (rr_Error req) durationMs)))
       else
         _ ← svc (λ cfg, UpdateTaskStatusByID cfg (rr_TaskId req) "success");
         svc (λ cfg, SendWebhookNotification cfg (rr_TaskId req) (rr_ExecutionId req) "success"
                       (rr_Output req) (rr_Error req) durationMs));
  mret true.

Definition ReportTaskLog (req : ReportTaskLogRequest) : M N bool :=
  _ ← svc (λ _, AddTaskLog (rl_ExecutionId req) (rl_TaskId req) "" (rl_LogLevel req) (LogContent req));
  mret true.

Definition ReportTaskProgress (req : ReportTaskProgressRequest) : M N bool :=
  _ ← svc (λ _, UpdateTaskProgress (rp_ExecutionId req) (rp_Progress req) (rp_Message req));
  mret true.

(** What the callbacks of the election do to the server and the service
    ([app.go]). *)
Definition set_service_leader (b : bool) : M N unit :=
  modify (λ n, mkNode (server n) (subscribers n) (timers n) (answers n) (System.set_leader b (back n))).
Definition start_timer : M N unit :=
  modify (λ n, mkNode (server n) (subscribers n) (S (timers n)) (answers n) (back n)).
Definition OnAcquire : M N unit :=
  _ ← local MarkAsNewLeader; _ ← start_timer; _ ← local (SetLeader true); set_service_leader true.
Definition OnRelease : M N unit :=
  _ ← local (SetLeader false); set_service_leader false.
Definition timer_fires : M N unit :=
  modify (λ n, match timers n with
               | S k => mkNode (reset_timer (server n)) (subscribers n) k (answers n) (back n)
               | O => n
               end).

(** ** Events *)

Inductive request : Type :=
| ReqRegister (req : RegisterRequest)
| ReqHeartbeat (req : HeartbeatRequest)
| ReqSync (name : string)
| ReqSubscribe (name : string) (stream : Z)
| ReqStreamEnded (k : nat)
| ReqResult (req : ReportTaskResultRequest)
| ReqLog (req : ReportTaskLogRequest)
| ReqProgress (req : ReportTaskProgressRequest)
| ReqService (o : System.op (R := R))   (** the API, the goroutines, the cleanup routine *)
| ReqNodeId (id : string)
| ReqAcquire
| ReqRelease
| ReqTimer.

Definition serve (q : request) : M N unit :=
  match q with
  | ReqRegister req => _ ← Register req; mret tt
  | ReqHeartbeat req => _ ← Heartbeat req; mret tt
  | ReqSync name => local (SyncRunningTasks name)
  | ReqSubscribe name stream => SubscribeTask name stream
  | ReqStreamEnded k => stream_ended k
  | ReqResult req => _ ← ReportTaskResult req; mret tt
  | ReqLog req => _ ← ReportTaskLog req; mret tt
  | ReqProgress req => _ ← ReportTaskProgress req; mret tt
  | ReqService o => svc (λ cfg, handle cfg o)
  | ReqNodeId id => local (SetNodeId id)
  | ReqAcquire => OnAcquire
  | ReqRelease => OnRelease
  | ReqTimer => timer_fires
  end.
End server.

(** ** The node refines the system

    Whatever a request does to the service is a sequence of events of
    [System]. *)

Section refinement.
Context `{Redis R}.
Variable base : env.
Variable send : Z → pb_Task → option string.
Variable B : Z.
Abbreviation N := (node R).
Implicit Types n : N.

(** Tasks that are created ask for at most [B] retries. *)
Definition request_ok (q : request (R := R)) : Prop :=
  match q with ReqService o => op_ok B o | _ => True end.

Inductive node_step : N → N → Prop :=
| node_serves q fs n : request_ok q → node_step n (run (serve base send q) n fs).2
| node_clock t n :
    node_step n (mkNode (server n) (subscribers n) (timers n) (answers n) (set_clock t (back n))).

Definition node_start n : Prop :=
  System.system_start B (back n) ∧ cancels (fx (back n)) = [] ∧ server n = NewServer ∧
  subscribers n = [] ∧ timers n = O ∧ answers n = [].

(** An event of the system, as a call of the service. *)
Definition is_event {A} (m : env → M (world R) A) : Prop :=
  ∀ cfg w fs, ∃ o, op_ok B o ∧ (m cfg w fs).2.1 = (run (handle cfg o) w fs).2.

Lemma event_of_op {A} (m : env → M (world R) A) o :
  op_ok B o → (∀ cfg w fs, (m cfg w fs).2.1 = (run (handle cfg o) w fs).2) → is_event m.
Proof. intros Ho Hm cfg w fs. by exists o. Qed.

Lemma run_ignored {S A} (m : M S A) s fs : (m s fs).2.1 = (run (_ ← m; mret tt) s fs).2.
Proof. unfold run. rewrite run_bind. by destruct (m s fs) as [a [s' fs']]. Qed.

Lemma run_rpc_state {S A} (m : M S A) s fs : (m s fs).2.1 = (run m s fs).2.
Proof. unfold run. by destruct (m s fs) as [a [s' fs']]. Qed.

(** The calls the handlers make. *)
Lemma event_UpdateExecutionResult i s o e r : is_event (λ _, UpdateExecutionResult i s o e r).
Proof. apply (event_of_op _ (OpResult i s o e r)); [done|]. intros. apply run_ignored. Qed.
Lemma event_UpdateTaskProgress i p m : is_event (λ _, UpdateTaskProgress i p m).
Proof. apply (event_of_op _ (OpProgress i p m)); [done|]. intros. apply run_ignored. Qed.
Lemma event_AddTaskLog i t nd l m : is_event (λ _, AddTaskLog i t nd l m).
Proof. apply (event_of_op _ (OpLog i t nd l m)); [done|]. intros. apply run_ignored. Qed.
Lemma event_RegisterExecutor nm a c : is_event (λ _, RegisterExecutor nm a c).
Proof. apply (event_of_op _ (OpRegister nm a c)); [done|]. intros. apply run_ignored. Qed.
Lemma event_heartbeat nm l ids : is_event (λ _, UpdateExecutorHeartbeatWithRunningTasks nm l ids).
Proof. apply (event_of_op _ (OpHeartbeat nm l ids)); [done|]. intros. apply run_ignored. Qed.
Lemma event_capacity nm : is_event (λ _, GetExecutorTargetCapacity nm).
Proof. apply (event_of_op _ (OpCapacity nm)); [done|]. intros. apply run_ignored. Qed.
Lemma event_UpdateTaskStatusByID t s : is_event (λ cfg, UpdateTaskStatusByID cfg t s).
Proof. apply (event_of_op _ (OpTaskStatus t s)); [done|]. intros. apply run_ignored. Qed.
Lemma event_SendWebhookNotification t i s o e d : is_event (λ cfg, SendWebhookNotification cfg t i s o e d).
Proof. apply (event_of_op _ (OpNotify t i s o e d)); [done|]. intros. apply run_ignored. Qed.
Lemma event_report t i o e d : is_event (λ _, effect (spawn (ReportJob t i o e d))).
Proof. by apply (event_of_op _ (OpReport t i o e d)). Qed.
Lemma event_handle o : op_ok B o → is_event (λ cfg, handle cfg o).
Proof. intros Ho. apply (event_of_op _ o); [done|]. intros. apply run_rpc_state. Qed.

Hint Resolve event_UpdateExecutionResult event_UpdateTaskProgress event_AddTaskLog event_RegisterExecutor
  event_heartbeat event_capacity event_UpdateTaskStatusByID event_SendWebhookNotification event_report
  event_handle : event.

(** An invariant of the node that calls of the service and the elementary
    changes of the server keep is kept by every request. *)
Record node_frame (P : N → Prop) : Prop := {
  nf_svc : ∀ (A : Type) (m : env → M (world R) A), is_event m → preserves P (svc base send m);
  nf_plain : ∀ f, (∀ s, executors (f s) = executors s ∧ cancelExecIds (f s) = cancelExecIds s) →
    preserves P (local f);
  nf_answer : ∀ req c, preserves P (beat_answer req c);
  nf_subscribe : ∀ name stream, preserves P (SubscribeTask name stream);
  nf_ended : ∀ k, preserves P (stream_ended k);
  nf_timer : preserves P timer_fires;
  nf_start : preserves P start_timer;
  nf_leader : ∀ b, preserves P (set_service_leader b);
}.

Lemma frame_serve P q : node_frame P → request_ok q → preserves P (serve base send q).
Proof.
  intros HF Hq. pose proof (nf_svc P HF) as Hsvc. pose proof (nf_plain P HF) as Hplain.
  assert (∀ (A : Type) (m : env → M (world R) A) (k : A → M N unit),
    is_event m → (∀ a, preserves P (k a)) → preserves P (svc base send m ≫= k)) as Hcall.
  { intros A m k Hm Hk. apply preserves_bind; [by apply Hsvc|done]. }
  destruct q as [req|req|name|name st|k|req|req|req|o|id| | |]; simpl.
  - unfold Register. repeat handler_step. apply Hsvc, event_RegisterExecutor.
  - apply preserves_bind; [|intros; apply preserves_ret]. unfold Heartbeat.
    case_bool_decide; [repeat handler_step|].
    apply preserves_bind; [|intros u; apply preserves_bind; [apply Hsvc, event_capacity|intros c; apply HF]].
    destruct (RunningTasks req) as [|t ts]; [apply Hcall; [apply event_heartbeat|intros; apply preserves_ret]|].
    apply preserves_bind; [apply preserves_for_each; intros x|intros v];
      (apply Hcall; [auto with event|intros; apply preserves_ret]).
  - apply Hplain. by intros s.
  - apply HF.
  - apply HF.
  - apply preserves_bind; [|intros; apply preserves_ret]. unfold ReportTaskResult.
    apply preserves_bind; [apply Hsvc, event_UpdateExecutionResult|]. intros u.
    apply preserves_bind; [apply preserves_gets|]. intros now.
    apply preserves_bind; [|intros; apply preserves_ret].
    case_bool_decide; [apply Hsvc, event_report|].
    apply preserves_bind; [apply Hsvc, event_UpdateTaskStatusByID|intros v]. apply Hsvc, event_SendWebhookNotification.
  - unfold ReportTaskLog. repeat handler_step. apply Hsvc, event_AddTaskLog.
  - unfold ReportTaskProgress. repeat handler_step. apply Hsvc, event_UpdateTaskProgress.
  - apply Hsvc. by apply event_handle.
  - apply Hplain. by intros s.
  - unfold OnAcquire. repeat (apply preserves_bind; [|intros ?]); try (apply Hplain; by intros s); apply HF.
  - unfold OnRelease. apply preserves_bind; [apply Hplain; by intros s|intros u; apply HF].
  - apply HF.
Qed.

(** What [svc] does to the node. *)
Lemma svc_state {A} (m : env → M (world R) A) n fs :
  (svc base send m n fs).2.1 =
    mkNode (take_signals (back n) (m (surroundings base send (server n)) (back n) fs).2.1 (server n))
      (subscribers n) (timers n) (answers n) (m (surroundings base send (server n)) (back n) fs).2.1.
Proof. unfold svc. by destruct (m _ (back n) fs) as [a [w' fs']]. Qed.

Definition follows (w0 : world R) n : Prop := rtc (System.system_step B) w0 (back n).

Lemma frame_follows w0 : node_frame (follows w0).
Proof.
  unfold follows. split; try (by intros; apply preserves_modify).
  - intros A m Hm n fs Hn. rewrite svc_state. simpl. eapply rtc_r; [exact Hn|].
    destruct (Hm (surroundings base send (server n)) (back n) fs) as (o & Ho & ->). by constructor.
  - intros k. apply preserves_modify. intros n Hn. by destruct (subscribers n !! k) as [[]|].
  - apply preserves_modify. intros n Hn. by destruct (timers n).
  - intros b. apply preserves_modify. intros n Hn. eapply rtc_r; [exact Hn|]. apply System.step_leader.
Qed.

Lemma node_step_follows n n' : node_step n n' → rtc (System.system_step B) (back n) (back n').
Proof.
  intros [q fs n0 Hq|t n0].
  - apply (run_preserves (follows (back n0))); [by apply frame_serve; [apply frame_follows|]|apply rtc_refl].
  - apply rtc_once, System.step_clock.
Qed.

Lemma node_reaches n : reachable node_step node_start n →
  reachable (System.system_step B) (System.system_start B) (back n).
Proof.
  revert n. apply reachable_invariant.
  - intros n (Hs & _). by exists (back n).
  - intros n n' (w0 & H0 & Hw) Hstep. exists w0. split; [done|]. etrans; [exact Hw|by apply node_step_follows].
Qed.

(** the gRPC server refines the system of [System]: whatever requests,
    streams, changes of leadership and faults a node sees, its service is in a
    state the system reaches with its own events.  So what is proved of the
    system holds behind the server: in particular no execution is sent to a
    stream twice. *)
Theorem requests_refine_system n (Hn : reachable node_step node_start n) :
  reachable (System.system_step B) (System.system_start B) (back n) ∧
  NoDup (sent (back n)) ∧ (∀ i, i ∈ sent (back n) → i ∈ recorded (back n)).
Proof.
  apply node_reaches in Hn. split; [done|]. by destruct (Inv_reachable B _ Hn).
Qed.

(** ** Cancellations *)

(** The executions of an executor the service has signalled, and those the
    answers to its heartbeats have named. *)
Definition signalled (name : string) (w : world R) : list string :=
  (filter (λ c, c.1 = name) (cancels (fx w))).*2.
Definition answered (name : string) n : list string :=
  concat (filter (λ a, a.1 = name) (answers n)).*2.

Lemma pending_foldl name l s :
  pending_cancels name (foldl (λ s c, AddCancelExecutionId c.1 c.2 s) s l) =
    pending_cancels name s ++ (filter (λ c, c.1 = name) l).*2.
Proof.
  revert s. induction l as [|[nm i] l IH]; intros s; simpl; [by rewrite app_nil_r|].
  rewrite IH, filter_cons. simpl. unfold AddCancelExecutionId, pending_cancels at 1. simpl.
  destruct (decide (nm = name)) as [->|Hne].
  - rewrite lookup_insert, decide_True by done. simpl. by rewrite <- (assoc app).
  - by rewrite lookup_insert_ne.
Qed.

Lemma take_signals_executors (w w' : world R) s : executors (take_signals w w' s) = executors s.
Proof. unfold take_signals. generalize (drop (length (cancels (fx w))) (cancels (fx w'))).
  intros l. revert s. induction l as [|c l IH]; intros s; simpl; [done|]. by rewrite IH.
Qed.

Lemma pending_forget nm name s :
  pending_cancels nm (forget_answered name s) = if decide (nm = name) then [] else pending_cancels nm s.
Proof.
  unfold pending_cancels at 1, forget_answered. simpl.
  destruct (pending_cancels name s) as [|i l] eqn:E.
  - case_decide as Hc; [|done]. subst. exact E.
  - case_decide as Hc; [subst; by rewrite lookup_delete, decide_True by done|].
    by rewrite lookup_delete_ne.
Qed.

Record cancels_inv n : Prop := {
  ci_system : Inv B (back n);
  ci_queue : ∀ name, signalled name (back n) = answered name n ++ pending_cancels name (server n);
}.

Lemma frame_cancels : node_frame cancels_inv.
Proof.
  assert (∀ f : N → N, (∀ n, answers (f n) = answers n) → (∀ n, back (f n) = back n) →
    (∀ n, cancelExecIds (server (f n)) = cancelExecIds (server n)) →
    preserves cancels_inv (modify f)) as Hmod.
  { intros f Ha Hb Hc. apply preserves_modify. intros n [Hi Hq]. split; [by rewrite Hb|].
    intros name. unfold answered, pending_cancels. rewrite Ha, Hb, Hc. apply Hq. }
  split.
  - intros A m Hm n fs [Hi Hq]. rewrite svc_state. set (cfg := surroundings base send (server n)).
    destruct (Hm cfg (back n) fs) as (o & Ho & ->).
    pose proof (run_preserves (Signalled B (cancels (fx (back n)))) (handle cfg o) (back n) fs
      (Signalled_handle cfg B _ o Ho) (conj Hi (reflexivity _))) as [Hi' [l Hl]].
    set (w' := (run (handle cfg o) (back n) fs).2) in *. split; simpl; [done|]. intros name.
    unfold signalled. rewrite Hl, filter_app, fmap_app. fold (signalled name (back n)). rewrite Hq.
    unfold take_signals. rewrite pending_foldl, Hl, drop_app_length. by rewrite <- (assoc app).
  - intros f Hf. apply Hmod; [done|done|]. intros n. simpl. apply Hf.
  - intros req c n fs [Hi Hq]. unfold beat_answer. simpl. split; simpl; [done|]. intros name.
    unfold answered. simpl. rewrite filter_app, fmap_app, concat_app. fold (answered name n).
    rewrite pending_forget, Hq, <- (assoc app). f_equal. rewrite filter_cons, filter_nil. simpl.
    destruct (decide (name = ExecutorName req)) as [->|Hne].
    + rewrite decide_True by done. simpl. by rewrite !app_nil_r.
    + by rewrite decide_False by done.
  - intros name st. by apply Hmod.
  - intros k. apply Hmod; intros n; by destruct (subscribers n !! k) as [[]|].
  - apply Hmod; intros n; by destruct (timers n).
  - by apply Hmod.
  - intros b. apply preserves_modify. intros n [[] Hq]. by split; [split|].
Qed.

Lemma cancels_reachable n : reachable node_step node_start n → cancels_inv n.
Proof.
  revert n. apply reachable_invariant.
  - intros n (Hs & Hc & Hsrv & _ & _ & Ha). split.
    + apply Inv_reachable. by exists (back n).
    + intros name. unfold signalled, answered, pending_cancels. by rewrite Hc, Ha, Hsrv.
  - intros n n' Hn Hstep. destruct Hstep as [q fs n Hq|t n].
    + apply (run_preserves cancels_inv); [by apply frame_serve; [apply frame_cancels|]|done].
    + destruct Hn as [[] Hq]. by split; [split|].
Qed.

Lemma answers_kept_svc {A} (m : env → M (world R) A) a0 : preserves (λ n, answers n = a0) (svc base send m).
Proof. intros n fs Hn. by rewrite svc_state. Qed.

(** A named heartbeat ends with its answer. *)
Lemma Heartbeat_answers req n fs :
  ExecutorName req ≠ "" →
  let '(resp, n') := run (Heartbeat base send req) n fs in
  answers n' = answers n ++ [(ExecutorName req, CancelExecutionIds resp)] ∧
  pending_cancels (ExecutorName req) (server n') = [].
Proof.
  intros Hne. unfold Heartbeat. rewrite bool_decide_false by done.
  set (m1 := match RunningTasks req with [] => _ | _ => _ end).
  assert (preserves (λ n', answers n' = answers n) m1) as H1.
  { unfold m1. destruct (RunningTasks req); repeat handler_step; apply answers_kept_svc. }
  unfold run. rewrite run_bind. specialize (H1 n fs eq_refl). destruct (m1 n fs) as [u [n1 fs1]].
  rewrite run_bind. pose proof (answers_kept_svc (λ _, GetExecutorTargetCapacity (ExecutorName req)) (answers n) n1 fs1 H1) as H2.
  destruct (svc base send _ n1 fs1) as [c [n2 fs2]]. unfold beat_answer. cbn -[forget_answered].
  split; [by simpl in H2; rewrite H2|]. rewrite pending_forget. by rewrite decide_True.
Qed.

(** A call that sends no cancel signal leaves the server alone. *)
Lemma server_kept_svc {A} (m : env → M (world R) A) s :
  (∀ cfg C, preserves (λ w : world R, cancels (fx w) = C) (m cfg)) →
  preserves (λ n, server n = s) (svc base send m).
Proof.
  intros Hm n fs Hn. unfold svc. specialize (Hm (surroundings base send (server n)) _ (back n) fs eq_refl).
  destruct (m _ (back n) fs) as [a [w' fs']]. simpl in *. unfold take_signals. by rewrite Hm, drop_all.
Qed.

Section unsignalled.
Variable C : list (string * string).
Abbreviation I := (λ w : world R, cancels (fx w) = C).

Lemma unsignalled_redis {A} (op : R → A * R) : preserves I (redis_call op).
Proof. by apply preserves_redis_call. Qed.
Lemma unsignalled_write f : preserves I (write f).
Proof. by apply preserves_write. Qed.
#[local] Hint Resolve unsignalled_redis unsignalled_write : handler.
Ltac unsignalled := repeat first [solve [eauto with handler nocore] | handler_step].

Lemma unsignalled_UpdateTaskProgress i p m : preserves I (UpdateTaskProgress i p m).
Proof. unfold UpdateTaskProgress. unsignalled. Qed.
Lemma unsignalled_renewTaskLock i : preserves I (renewTaskLock i).
Proof. unfold renewTaskLock, redis_set, redis_exists, redis_del. unsignalled. Qed.
#[local] Hint Resolve unsignalled_renewTaskLock : handler.
Lemma unsignalled_heartbeat nm l ids : preserves I (UpdateExecutorHeartbeatWithRunningTasks nm l ids).
Proof. unfold UpdateExecutorHeartbeatWithRunningTasks. unsignalled. Qed.
Lemma unsignalled_capacity nm : preserves I (GetExecutorTargetCapacity nm).
Proof. unfold GetExecutorTargetCapacity, GetExecutorByName. unsignalled. Qed.
End unsignalled.

(** What a named heartbeat answers, and what it changes of the server. *)
Lemma Heartbeat_exact req n fs :
  ExecutorName req ≠ "" →
  let '(resp, n') := run (Heartbeat base send req) n fs in
  SchedulerNodeId resp = nodeId (server n) ∧
  CancelExecutionIds resp = pending_cancels (ExecutorName req) (server n) ∧
  server n' = forget_answered (ExecutorName req) (server n).
Proof.
  intros Hne. unfold Heartbeat. rewrite bool_decide_false by done.
  set (m1 := match RunningTasks req with [] => _ | _ => _ end).
  assert (preserves (λ n', server n' = server n) m1) as H1.
  { unfold m1. destruct (RunningTasks req); repeat handler_step; apply server_kept_svc; intros;
      auto using unsignalled_UpdateTaskProgress, unsignalled_heartbeat. }
  unfold run. rewrite run_bind. specialize (H1 n fs eq_refl). destruct (m1 n fs) as [u [n1 fs1]].
  rewrite run_bind.
  pose proof (server_kept_svc (λ _, GetExecutorTargetCapacity (ExecutorName req)) (server n)
    (λ _ C, unsignalled_capacity C _) n1 fs1 H1) as H2.
  destruct (svc base send _ n1 fs1) as [c [n2 fs2]]. unfold beat_answer. cbn -[forget_answered].
  simpl in H2. by rewrite H2.
Qed.

(** cancellations are neither lost nor repeated by the server: for every
    executor, the executions the service has signalled are, in order, those
    its heartbeats have been told followed by those still waiting; a heartbeat
    is told all that wait, under every fault of the calls it makes. *)
Theorem cancellations_answered_once n req fs
    (Hn : reachable node_step node_start n) (Hreq : ExecutorName req ≠ "") :
  (∀ name, signalled name (back n) = answered name n ++ pending_cancels name (server n)) ∧
  let '(resp, n') := run (Heartbeat base send req) n fs in
  signalled (ExecutorName req) (back n') = answered (ExecutorName req) n ++ CancelExecutionIds resp ∧
  pending_cancels (ExecutorName req) (server n') = [].
Proof.
  split; [apply (cancels_reachable n Hn)|].
  assert (cancels_inv (run (serve base send (ReqHeartbeat req)) n fs).2) as [_ Hq].
  { apply (run_preserves cancels_inv); [by apply frame_serve; [apply frame_cancels|]|by apply cancels_reachable]. }
  simpl in Hq. rewrite <- run_ignored, run_rpc_state in Hq.
  pose proof (Heartbeat_answers req n fs Hreq) as Ha.
  destruct (run (Heartbeat base send req) n fs) as [resp n']. destruct Ha as [Ha Hp]. split; [|done].
  simpl in Hq. rewrite Hq, Hp, app_nil_r. unfold answered. rewrite Ha, filter_app, fmap_app, concat_app.
  rewrite filter_cons, filter_nil, decide_True by done. simpl. by rewrite app_nil_r.
Qed.
End refinement.

(** ** Streams *)

Section streams.
Context `{Redis R}.
Variable base : env.
Variable send : Z → pb_Task → option string.
Variable B : Z.
Abbreviation N := (node R).
Implicit Types n : N.

(** Every registered stream has a [SubscribeTask] call that waits on it. *)
Definition streams_open n : Prop :=
  ∀ name st, executors (server n) !! name = Some st → (name, st) ∈ subscribers n.

Lemma frame_streams : node_frame base send B streams_open.
Proof.
  assert (∀ f : N → N, (∀ n, executors (server (f n)) = executors (server n)) →
    (∀ n, subscribers (f n) = subscribers n) → preserves streams_open (modify f)) as Hmod.
  { intros f He Hs. apply preserves_modify. intros n Hn name st. rewrite He, Hs. apply Hn. }
  split.
  - intros A m _ n fs Hn. rewrite svc_state. intros name st. simpl. rewrite take_signals_executors. apply Hn.
  - intros f Hf. apply Hmod; [intros n; apply Hf|done].
  - intros req c n fs Hn. exact Hn.
  - intros nm stream. apply preserves_modify. intros n Hn name st. simpl. rewrite elem_of_app, list_elem_of_singleton.
    rewrite lookup_insert_Some. intros [[<- <-]|[_ Hl]]; [by right|left; by apply Hn].
  - intros k. apply preserves_modify. intros n Hn.
    destruct (subscribers n !! k) as [[nm stream]|] eqn:E; [|done]. intros name st. simpl.
    rewrite lookup_delete_Some. intros [Hne Hl]. apply Hn, list_elem_of_lookup in Hl as [j Hj].
    assert (j ≠ k) as Hjk by (intros ->; simplify_eq). apply list_elem_of_lookup.
    destruct (decide (j < k)%nat) as [Hlt|Hge].
    + exists j. by rewrite list_lookup_delete_lt.
    + exists (Nat.pred j). rewrite list_lookup_delete_ge by lia. by replace (S (Nat.pred j)) with j by lia.
  - apply Hmod; intros n; by destruct (timers n).
  - by apply Hmod.
  - intros b. by apply Hmod.
Qed.

Lemma streams_reachable n : reachable (node_step base send B) (node_start B) n → streams_open n.
Proof.
  revert n. apply reachable_invariant.
  - intros n (_ & _ & Hsrv & _) name st. by rewrite Hsrv.
  - intros n n' Hn Hstep. destruct Hstep as [q fs n Hq|t n]; [|exact Hn].
    apply (run_preserves streams_open); [by apply frame_serve with (B := B); [apply frame_streams|]|done].
Qed.

(** a task is handed over only to a stream of the executor that is still
    open; without one the dispatch fails and says so. *)
Theorem dispatch_needs_open_stream n name task
    (Hn : reachable (node_step base send B) (node_start B) n) :
  (dispatchTask send (server n) name task = None →
   ∃ st, (name, st) ∈ subscribers n ∧ send st task = None) ∧
  ((∀ st, (name, st) ∉ subscribers n) →
   dispatchTask send (server n) name task = Some ("executor " +:+ name +:+ " not connected")).
Proof.
  pose proof (streams_reachable n Hn) as Hopen. unfold dispatchTask.
  destruct (executors (server n) !! name) as [st|] eqn:E; split; try done.
  - intros Hsend. exists st. split; [by apply Hopen|done].
  - intros Hno. by destruct (Hno st (Hopen _ _ E)).
Qed.

(** An executor that subscribes again before its old stream has ended is
    forgotten when the old stream ends: it waits on an open stream and gets
    no task. *)
Theorem reconnect_loses_stream n name st st' task :
  subscribers n = [(name, st)] →
  let n' := (run (_ ← SubscribeTask name st'; stream_ended 0) n []).2 in
  subscribers n' = [(name, st')] ∧ IsExecutorConnected name (server n') = false ∧
  dispatchTask send (server n') name task = Some ("executor " +:+ name +:+ " not connected").
Proof.
  intros Hs. unfold run. rewrite run_bind. simpl. rewrite Hs. simpl. split; [done|].
  unfold IsExecutorConnected, dispatchTask. simpl. rewrite lookup_delete_eq. split; [|done].
  apply bool_decide_eq_false_2. by intros [].
Qed.
End streams.

(** ** Reports *)

Section reports.
Context `{RedisLaws R}.
Variable base : env.
Variable send : Z → pb_Task → option string.
Abbreviation N := (node R).
Implicit Types n : N.

Lemma clean_rpc_svc {A} (m : env → M (world R) A) : (∀ cfg, clean (m cfg)) → clean (svc base send m).
Proof.
  intros Hm n. unfold svc. specialize (Hm (surroundings base send (server n)) (back n)).
  destruct (m _ (back n) []) as [a [w' fs']]. exact Hm.
Qed.

Lemma run_svc {A} (m : env → M (world R) A) n :
  run (svc base send m) n [] =
    let '(a, w') := run (m (surroundings base send (server n))) (back n) [] in
    (a, mkNode (take_signals (back n) w' (server n)) (subscribers n) (timers n) (answers n) w').
Proof. unfold run, svc. by destruct (m _ (back n) []) as [a [w' fs']]. Qed.

Lemma take_signals_none (w w' : world R) s : cancels (fx w') = cancels (fx w) → take_signals w w' s = s.
Proof. intros Hc. unfold take_signals. by rewrite Hc, drop_all. Qed.

Lemma tasks_SendWebhookNotification cfg T t i s o e d :
  preserves (λ w : world R, tasks (tabs w) = T) (SendWebhookNotification cfg t i s o e d).
Proof.
  pose proof (λ id, preserves_reads (λ w : world R, tasks (tabs w) = T) _ (reads_GetTaskByID cfg id)).
  assert (∀ f, preserves (λ w : world R, tasks (tabs w) = T) (effect f)) by (intros f; by apply preserves_effect).
  unfold SendWebhookNotification, getExecutionDurationFromDB.
  repeat first [solve [eauto with handler nocore] | handler_step].
Qed.

Lemma run_task_success cfg t (w : world R) k0 :
  find_task t (tabs w) = Some k0 → CronExpression k0 = "" →
  ∀ k, k ∈ rows (tasks (tabs (run (UpdateTaskStatusByID cfg t "success") w []).2)) → t_ID k = t →
  t_Status k = "success".
Proof.
  intros Hk0 Hcron k. unfold UpdateTaskStatusByID. seq. seq.
  destruct (run_GetTaskByID cfg t w) as (r & -> & Hr). rewrite Hk0 in Hr. destruct Hr as (i & -> & Hi).
  simpl. rewrite Hi. simpl. rewrite Hcron, bool_decide_true by done. simpl. rewrite list_elem_of_fmap.
  intros (k1 & -> & _). case_match eqn:E; [done|]. intros Ht. apply Z.eqb_neq in E. congruence.
Qed.

(** Marking a task successful and telling its webhook. *)
Lemma run_reported_success t i o e d n :
  let n' := (run (_ ← svc base send (λ cfg, UpdateTaskStatusByID cfg t "success");
                  svc base send (λ cfg, SendWebhookNotification cfg t i "success" o e d)) n []).2 in
  server n' = server n ∧ quiet (back n) (back n') ∧
  ∀ k0, find_task t (tabs (back n)) = Some k0 → CronExpression k0 = "" →
    ∀ k, k ∈ rows (tasks (tabs (back n'))) → t_ID k = t → t_Status k = "success".
Proof.
  rewrite run_then by (apply clean_rpc_svc; eauto with clean).
  rewrite (run_svc (λ cfg, UpdateTaskStatusByID cfg t "success") n).
  set (cfg := surroundings base send (server n)).
  pose proof (run_preserves (quiet (back n)) (UpdateTaskStatusByID cfg t "success") (back n) []
    ltac:(apply quiet_UpdateTaskStatusByID) ltac:(reflexivity)) as H1.
  pose proof (λ k0, run_task_success cfg t (back n) k0) as Hok.
  destruct (run (UpdateTaskStatusByID cfg t "success") (back n) []) as [u w1]. cbn [fst snd] in *.
  rewrite take_signals_none by apply (quiet_cancels _ _ H1). rewrite run_svc. cbn [server back]. fold cfg.
  pose proof (run_preserves (quiet w1) (SendWebhookNotification cfg t i "success" o e d) w1 []
    ltac:(apply quiet_SendWebhookNotification) ltac:(reflexivity)) as H2.
  pose proof (run_preserves _ _ w1 [] (tasks_SendWebhookNotification cfg (tasks (tabs w1)) t i "success" o e d)
    eq_refl) as H3.
  destruct (run (SendWebhookNotification cfg t i "success" o e d) w1 []) as [v w2]. cbn [fst snd server back] in *.
  rewrite take_signals_none by apply (quiet_cancels _ _ H2).
  split; [done|]. split; [by etrans|]. rewrite H3. done.
Qed.

(** a reported failure is recorded with its times, frees the keys of the
    execution and starts one goroutine, which decides on a retry with the
    measured duration; it notifies nobody yet.  Any other status counts as a
    success of the task: its status becomes [success], nothing is retried. *)
Theorem ReportTaskResult_result req n :
  let '(ok, n') := run (ReportTaskResult base send req) n [] in
  let w := back n in let w' := back n' in
  ok = true ∧ server n' = server n ∧
  (∀ x, x ∈ rows (executions (tabs w')) → ExecutionID x = rr_ExecutionId req →
     x_Status x = rr_Status req ∧ Output x = rr_Output req ∧ Error x = rr_Error req) ∧
  (∀ t, live t (lockKey (rr_ExecutionId req)) (redis w') = None) ∧
  dispatched (fx w') = dispatched (fx w) ∧
  spawned (fx w') = spawned (fx w) ++
    (if bool_decide (rr_Status req = "failed")
     then [ReportJob (rr_TaskId req) (rr_ExecutionId req) (rr_Output req) (rr_Error req)
             (reported_ms (clock w) (rr_StartTime req) (rr_EndTime req))]
     else []) ∧
  (if bool_decide (rr_Status req = "failed")
   then deliveries (fx w') = deliveries (fx w) ∧ tasks (tabs w') = tasks (tabs w)
   else ∀ k0, find_task (rr_TaskId req) (tabs w) = Some k0 → CronExpression k0 = "" →
        ∀ k, k ∈ rows (tasks (tabs w')) → t_ID k = rr_TaskId req → t_Status k = "success").
Proof.
  unfold ReportTaskResult. rewrite run_then by (apply clean_rpc_svc; intros; unfold UpdateExecutionResult; solve_clean).
  rewrite run_svc.
  destruct (run_UpdateExecutionResult (rr_ExecutionId req) (rr_Status req) (rr_Output req) (rr_Error req)
    (Some (rr_StartTime req, rr_EndTime req)) (back n)) as (rg & Hr & _). rewrite Hr. cbn [fst snd].
  set (w1 := reported _ _ _ _ rg (back n)). rewrite take_signals_none by done.
  set (n1 := mkNode (server n) (subscribers n) (timers n) (answers n) w1).
  assert (∀ x, x ∈ rows (executions (tabs w1)) → ExecutionID x = rr_ExecutionId req →
     x_Status x = rr_Status req ∧ Output x = rr_Output req ∧ Error x = rr_Error req) as Hrow.
  { intros x Hx Hi. by destruct (reported_row _ _ _ _ _ _ x Hx Hi) as (? & ? & ? & _). }
  assert (∀ t, live t (lockKey (rr_ExecutionId req)) (redis w1) = None) as Hlock
    by (intros t; apply reported_lock).
  rewrite run_then by done. cbn [fst snd]. change (run (time_now (R := R)) n1 []) with (clock (back n), n1).
  cbn [fst snd]. set (ms := reported_ms _ _ _).
  case_bool_decide as Hst.
  - unfold run. rewrite run_bind. simpl. rewrite take_signals_none by done. by split_and!.
  - rewrite run_then by (apply clean_bind; [|intros ?]; apply clean_rpc_svc; eauto with clean).
    pose proof (run_reported_success (rr_TaskId req) (rr_ExecutionId req) (rr_Output req) (rr_Error req) ms n1)
      as (Hs & Hq & Htask).
    set (n' := (run _ n1 []).2) in *. simpl. rewrite app_nil_r. split_and!; try done.
    + intros x. rewrite (quiet_executions _ _ Hq). apply Hrow.
    + intros t. rewrite (quiet_live _ _ _ _ Hq) by done. apply Hlock.
    + by rewrite (quiet_dispatched _ _ Hq).
    + by rewrite (quiet_spawned _ _ Hq).
Qed.
End reports.

(** ** A concrete node *)

Definition demo_send (stream : Z) (task : pb_Task) : option string :=
  if stream =? 0 then Some "stream closed" else None.

Definition fresh_node : node gmap_store := mkNode NewServer [] O [] idle_world.

(** Runs of requests without faults. *)
Definition serves (qs : list (request (R := gmap_store))) (n : node gmap_store) : node gmap_store :=
  foldl (λ n q, (run (serve demo_env demo_send q) n []).2) n qs.

Lemma serves_reachable qs :
  Forall (request_ok 2) qs →
  reachable (node_step demo_env demo_send 2) (node_start 2) (serves qs fresh_node).
Proof.
  intros Hqs. exists fresh_node. split; [by split; [apply idle_start|]|].
  unfold serves. induction qs as [|q qs IH] using rev_ind; [apply rtc_refl|].
  rewrite foldl_snoc. apply Forall_app in Hqs as [Hqs [Hq _]%Forall_cons].
  eapply rtc_r; [by apply IH|]. exact (node_serves demo_env demo_send 2 q [] _ Hq).
Qed.

(** An executor subscribes, a task is triggered and sent to its stream, and
    cancelled. *)
Definition cancelled_run : list (request (R := gmap_store)) :=
  [ReqSubscribe "exec-a" 1; ReqService (OpTrigger 7); ReqService (OpCancel "exec-7-1000000000" "bob")].
Definition cancelled_node : node gmap_store := serves cancelled_run fresh_node.

Lemma cancelled_reachable : reachable (node_step demo_env demo_send 2) (node_start 2) cancelled_node.
Proof. apply serves_reachable. by repeat constructor. Qed.

Example requests_refine_system_witness :
  sent (back cancelled_node) = ["exec-7-1000000000"] ∧
  (reachable (System.system_step 2) (System.system_start 2) (back cancelled_node) ∧
   NoDup (sent (back cancelled_node)) ∧
   (∀ i, i ∈ sent (back cancelled_node) → i ∈ recorded (back cancelled_node))).
Proof.
  split; [vm_compute; reflexivity|].
  exact (requests_refine_system demo_env demo_send 2 cancelled_node cancelled_reachable).
Defined.

Definition plain_beat : HeartbeatRequest := mkHeartbeat "exec-a" 0 [] [] false.

Example cancellations_answered_once_witness :
  signalled "exec-a" (back cancelled_node) = ["exec-7-1000000000"] ∧
  let '(resp, n') := run (Heartbeat demo_env demo_send plain_beat) cancelled_node [Lost; Ghost] in
  CancelExecutionIds resp = ["exec-7-1000000000"] ∧ pending_cancels "exec-a" (server n') = [].
Proof.
  split; [vm_compute; reflexivity|].
  pose proof (cancellations_answered_once demo_env demo_send 2 cancelled_node plain_beat [Lost; Ghost]
    cancelled_reachable ltac:(discriminate)) as [_ Hc].
  destruct (run _ cancelled_node [Lost; Ghost]) as [resp n'] eqn:E. split; [|exact (proj2 Hc)].
  apply (f_equal (λ p, CancelExecutionIds p.1)) in E. vm_compute in E. by symmetry.
Defined.

Example dispatch_needs_open_stream_witness :
  dispatchTask demo_send (server cancelled_node) "exec-a" (grpc_task demo_task "e") = None ∧
  ∃ st, ("exec-a", st) ∈ subscribers cancelled_node ∧ demo_send st (grpc_task demo_task "e") = None.
Proof.
  split; [vm_compute; reflexivity|].
  apply (proj1 (dispatch_needs_open_stream demo_env demo_send 2 cancelled_node "exec-a" (grpc_task demo_task "e")
    cancelled_reachable)). vm_compute. reflexivity.
Defined.

Example ReportTaskResult_result_witness :
  let req := mkResult "exec-7-1000000000" 7 "timeout" "" "" 5 6 in
  let w' := back (run (ReportTaskResult demo_env demo_send req) cancelled_node []).2 in
  spawned (fx w') = [] ∧
  ∀ k, k ∈ rows (tasks (tabs w')) → t_ID k = 7 → t_Status k = "success".
Proof.
  intros req w'. pose proof (ReportTaskResult_result demo_env demo_send req cancelled_node) as Hr.
  change (snd (run (ReportTaskResult demo_env demo_send req) cancelled_node [])) with
    ((run (ReportTaskResult demo_env demo_send req) cancelled_node []).2) in w'.
  unfold w'. destruct (run _ cancelled_node []) as [ok n'].
  destruct Hr as (_ & _ & _ & _ & _ & Hs & Ht). split; [exact Hs|].
  exact (Ht demo_task eq_refl eq_refl).
Defined.

(** A cancelled execution is retried: the executor stops it and reports a
    failure, as it does for every error, and the server treats the report as
    any other.  Without the cancellation the same report is what it should
    be. *)
Example cancelled_execution_is_retried :
  let stopped := mkResult "exec-7-1000000000" 7 "failed" "" "signal: killed" 1 2 in
  let n' := serves (cancelled_run ++ [ReqHeartbeat plain_beat; ReqResult stopped; ReqService (OpGoroutine 0)])
              fresh_node in
  answered "exec-a" n' = ["exec-7-1000000000"] ∧
  spawned (fx (back n')) = [RetryJob 7 "exec-7-1000000000" "" 1 1000 (6 * Second)].
Proof. split; vm_compute; reflexivity. Qed.
