(* ===== verification/TaskExecutor.v ===== *)
(** * The task executor of an executor process

    [src/executor/internal/executor/task_executor.go]: the goroutines that run
    tasks, the table of running tasks a heartbeat reports, cancellation and
    shutdown.  A call of [Execute] is a process; every access it makes to what
    the processes share (the wait group, the table, the counter of the pool,
    its context) is a step of its own, and the steps of all processes,
    cancellations and the shutdown interleave.  Nothing keeps two calls from
    having the same execution id.  The executor has a worker pool, as
    [cmd/main.go] builds it.  Running the script or the request is the
    operating system's and the network's part and decides only the error
    [finish_task] is given; the logs sent on the way and [sanitizeUTF8], which
    drops invalid bytes from the reported text, are left out.

    A context is a number; [cancelled] holds the contexts whose cancel
    function has been called. *)
From stdpp Require Import gmap.
From S2P Require Import Prelude World.

Record RunningTaskInfo : Type := mkInfo {
  ri_task : pb_Task; ri_startTime : Z; currentProgress : Z; progressMsg : string; ri_cancel : Z;
}.

(** How far a call of [Execute] has come.  [Reporting] keeps the status and
    the error text of the task; the phases after it are the deferred calls. *)
Inductive phase : Type :=
| Admitted_
| Added_
| Running_
| Reporting (status errorMsg : string)
| Released_
| Removed_
| Cancelled_
| Done_.

Record proc : Type := mkProc { p_task : pb_Task; p_ctx : Z; p_phase : phase }.

(** [running] is the counter of the worker pool. *)
Record TaskExecutor : Type := mkTaskExecutor {
  runningTasks : gmap string RunningTaskInfo;
  cancelled : gset Z;
  taskWg : Z;
  shuttingDown : bool;
  running : Z;
  procs : list proc;
}.

Definition NewTaskExecutor : TaskExecutor := mkTaskExecutor ∅ ∅ 0 false 0 [].

Implicit Types e : TaskExecutor.

Definition set_proc (k : nat) (p : proc) e : TaskExecutor :=
  mkTaskExecutor (runningTasks e) (cancelled e) (taskWg e) (shuttingDown e) (running e) (<[k := p]> (procs e)).

(** ** The table of running tasks *)

Definition addRunningTask (now : Z) (executionId : string) (task : pb_Task) (cancel : Z) e : TaskExecutor :=
  mkTaskExecutor (<[executionId := mkInfo task now 0 "Task started" cancel]> (runningTasks e)) (cancelled e)
    (taskWg e) (shuttingDown e) (running e) (procs e).
Definition removeRunningTask (executionId : string) e : TaskExecutor :=
  mkTaskExecutor (delete executionId (runningTasks e)) (cancelled e) (taskWg e) (shuttingDown e) (running e)
    (procs e).
Definition updateTaskProgress (executionId : string) (progress : Z) (msg : string) e : TaskExecutor :=
  match runningTasks e !! executionId with
  | Some i => mkTaskExecutor
      (<[executionId := mkInfo (ri_task i) (ri_startTime i) progress msg (ri_cancel i)]> (runningTasks e))
      (cancelled e) (taskWg e) (shuttingDown e) (running e) (procs e)
  | None => e
  end.
Definition GetRunningExecutionIds e : list string := (map_to_list (runningTasks e)).*1.
Definition GetRunningTasks e : Z := running e.
Definition getRunningCount e : Z := Z.of_nat (size (runningTasks e)).

(** [cancel()] *)
Definition cancel_ctx (c : Z) e : TaskExecutor :=
  mkTaskExecutor (runningTasks e) ({[c]} ∪ cancelled e) (taskWg e) (shuttingDown e) (running e) (procs e).

Definition CancelTask (executionId : string) e : bool * TaskExecutor :=
  match runningTasks e !! executionId with
  | Some i => (true, cancel_ctx (ri_cancel i) e)
  | None => (false, e)
  end.

(** ** [Execute]

    The context of a process is its position in [procs], so each call has its
    own. *)
Definition Execute (task : pb_Task) e : TaskExecutor :=
  if shuttingDown e then e
  else mkTaskExecutor (runningTasks e) (cancelled e) (taskWg e + 1) (shuttingDown e) (running e)
         (procs e ++ [mkProc task (Z.of_nat (length (procs e))) Admitted_]).

Definition to (ph : phase) (p : proc) : proc := mkProc (p_task p) (p_ctx p) ph.

(** [addRunningTask] *)
Definition register (now : Z) (k : nat) (p : proc) e : TaskExecutor :=
  set_proc k (to Added_ p) (addRunningTask now (pb_ExecutionId (p_task p)) (p_task p) (p_ctx p) e).

(** [taskPool.IncRunning()] *)
Definition occupy (k : nat) (p : proc) e : TaskExecutor :=
  set_proc k (to Running_ p)
    (mkTaskExecutor (runningTasks e) (cancelled e) (taskWg e) (shuttingDown e) (running e + 1) (procs e)).

(** The return of [executeTask]: the status that will be reported. *)
Definition finish_task (err : option string) (k : nat) (p : proc) e : TaskExecutor :=
  set_proc k (to (match err with None => Reporting "success" "" | Some msg => Reporting "failed" msg end) p) e.

(** The deferred calls, in the order they run: [DecRunning],
    [removeRunningTask], [cancel] and [taskWg.Done]. *)
Definition release (k : nat) (p : proc) e : TaskExecutor :=
  set_proc k (to Released_ p)
    (mkTaskExecutor (runningTasks e) (cancelled e) (taskWg e) (shuttingDown e) (running e - 1) (procs e)).
Definition unregister (k : nat) (p : proc) e : TaskExecutor :=
  set_proc k (to Removed_ p) (removeRunningTask (pb_ExecutionId (p_task p)) e).
Definition drop_context (k : nat) (p : proc) e : TaskExecutor :=
  set_proc k (to Cancelled_ p) (cancel_ctx (p_ctx p) e).
Definition leave (k : nat) (p : proc) e : TaskExecutor :=
  set_proc k (to Done_ p)
    (mkTaskExecutor (runningTasks e) (cancelled e) (taskWg e - 1) (shuttingDown e) (running e) (procs e)).

(** The part of [Shutdown] before it waits, the flag and then the calls of
    [cancel]; it returns when [taskWg] is 0 or the timeout has passed. *)
Definition begin_shutdown e : TaskExecutor :=
  mkTaskExecutor (runningTasks e) (cancelled e) (taskWg e) true (running e) (procs e).
Definition cancel_all e : TaskExecutor :=
  mkTaskExecutor (runningTasks e)
    (list_to_set ((λ i, ri_cancel i.2) <$> map_to_list (runningTasks e)) ∪ cancelled e)
    (taskWg e) (shuttingDown e) (running e) (procs e).
Definition Shutdown e : TaskExecutor :=
  if shuttingDown e then e else cancel_all (begin_shutdown e).

(** ** The process as a transition system *)

Inductive exec_step : TaskExecutor → TaskExecutor → Prop :=
| st_execute task e : exec_step e (Execute task e)
| st_register now k p e :
    procs e !! k = Some p → p_phase p = Admitted_ → exec_step e (register now k p e)
| st_occupy k p e :
    procs e !! k = Some p → p_phase p = Added_ → exec_step e (occupy k p e)
| st_finish err k p e :
    procs e !! k = Some p → p_phase p = Running_ → exec_step e (finish_task err k p e)
| st_release k p e s m :
    procs e !! k = Some p → p_phase p = Reporting s m → exec_step e (release k p e)
| st_unregister k p e :
    procs e !! k = Some p → p_phase p = Released_ → exec_step e (unregister k p e)
| st_drop k p e :
    procs e !! k = Some p → p_phase p = Removed_ → exec_step e (drop_context k p e)
| st_leave k p e :
    procs e !! k = Some p → p_phase p = Cancelled_ → exec_step e (leave k p e)
| st_progress i n msg e : exec_step e (updateTaskProgress i n msg e)
| st_cancel i e : exec_step e (CancelTask i e).2
| st_shutdown e : shuttingDown e = false → exec_step e (begin_shutdown e)
| st_cancel_all e : shuttingDown e = true → exec_step e (cancel_all e).

Definition exec_start e : Prop := e = NewTaskExecutor.

(** ** What the counters count *)

Definition alive (p : proc) : bool := match p_phase p with Done_ => false | _ => true end.

(** Between [IncRunning] and [DecRunning]. *)
Definition busy (p : proc) : bool :=
  match p_phase p with Running_ | Reporting _ _ => true | _ => false end.

(** Between [addRunningTask] and [removeRunningTask]. *)
Definition registered (p : proc) : bool :=
  match p_phase p with Added_ | Running_ | Reporting _ _ | Released_ => true | _ => false end.

Definition ids e : list string := (λ p, pb_ExecutionId (p_task p)) <$> procs e.
Definition counted (f : proc → bool) (ps : list proc) : Z :=
  Z.of_nat (sum_list_with (λ p, if f p then 1%nat else 0%nat) ps).

Lemma counted_app f ps qs : counted f (ps ++ qs) = counted f ps + counted f qs.
Proof. unfold counted. rewrite sum_list_with_app. lia. Qed.

Lemma counted_insert f ps k p q :
  ps !! k = Some p →
  counted f (<[k := q]> ps) = counted f ps - (if f p then 1 else 0) + (if f q then 1 else 0).
Proof.
  intros Hk. pose proof (sum_list_with_insert (λ p, if f p then 1%nat else 0%nat) ps k p q Hk) as Hs.
  unfold counted. simpl in Hs. destruct (f p), (f q); lia.
Qed.

(** A process is the one an entry of the table stands for. *)
Definition stands_for (i : string) (c : Z) (p : proc) : Prop :=
  registered p = true ∧ pb_ExecutionId (p_task p) = i ∧ p_ctx p = c.
Definition entry (i : string) (c : Z) e : Prop :=
  ∃ info, runningTasks e !! i = Some info ∧ ri_cancel info = c.

(** Every entry of the table stands for a registered process; when no two
    calls have the same id, every registered process has its entry. *)
Record exec_inv e : Prop := {
  ei_wg : taskWg e = counted alive (procs e);
  ei_running : running e = counted busy (procs e);
  ei_ctx : ∀ k p, procs e !! k = Some p → p_ctx p = Z.of_nat k;
  ei_sound : ∀ i c, entry i c e → ∃ p, p ∈ procs e ∧ stands_for i c p;
  ei_complete : NoDup (ids e) → ∀ i c p, p ∈ procs e → stands_for i c p → entry i c e;
}.

Lemma ids_set_proc k p ph e : procs e !! k = Some p → ids (set_proc k (to ph p) e) = ids e.
Proof.
  intros Hk. unfold ids. simpl. rewrite list_fmap_insert. apply list_insert_id.
  by rewrite list_lookup_fmap, Hk.
Qed.

Lemma same_id_same_process e j k p q :
  NoDup (ids e) → procs e !! j = Some p → procs e !! k = Some q →
  pb_ExecutionId (p_task p) = pb_ExecutionId (p_task q) → j = k.
Proof.
  intros Hn Hj Hk Hpq. eapply (NoDup_lookup _ j k (pb_ExecutionId (p_task p)) Hn); unfold ids.
  - by rewrite list_lookup_fmap, Hj.
  - by rewrite list_lookup_fmap, Hk, Hpq.
Qed.

Lemma in_set_proc k p ph e q :
  procs e !! k = Some p → q ∈ <[k := to ph p]> (procs e) →
  q = to ph p ∨ ∃ j, j ≠ k ∧ procs e !! j = Some q.
Proof.
  intros Hk [j Hj]%list_elem_of_lookup. apply list_lookup_insert_Some in Hj.
  destruct Hj as [(_ & -> & _)|[Hne Hj]]; [by left|right; eauto].
Qed.

Lemma set_proc_in k p ph e j q :
  procs e !! k = Some p → (j = k ∧ q = to ph p) ∨ (j ≠ k ∧ procs e !! j = Some q) →
  q ∈ <[k := to ph p]> (procs e).
Proof.
  intros Hk [[-> ->]|[Hne Hj]]; apply list_elem_of_lookup.
  - exists k. apply list_lookup_insert_eq. by eapply lookup_lt_Some.
  - exists j. by rewrite list_lookup_insert_ne.
Qed.

(** Process [k] moves to phase [ph] while the counters change by what the
    phases differ in and the table by what [ph] says of its id. *)
Lemma inv_move e e' k p ph :
  exec_inv e → procs e !! k = Some p → procs e' = <[k := to ph p]> (procs e) →
  taskWg e' = taskWg e - (if alive p then 1 else 0) + (if alive (to ph p) then 1 else 0) →
  running e' = running e - (if busy p then 1 else 0) + (if busy (to ph p) then 1 else 0) →
  (registered (to ph p) = registered p ∧ (∀ i c, entry i c e' ↔ entry i c e) ∨
   registered (to ph p) = true ∧
   (∀ i c, entry i c e' ↔ if decide (i = pb_ExecutionId (p_task p)) then c = p_ctx p else entry i c e) ∨
   registered (to ph p) = false ∧
   (∀ i c, entry i c e' ↔ i ≠ pb_ExecutionId (p_task p) ∧ entry i c e)) →
  exec_inv e'.
Proof.
  intros [Hwg Hrun Hctx Hsound Hcomp] Hk Hps Hwg' Hrun' Htab.
  assert (ids e' = ids e) as Hids by (unfold ids; rewrite Hps; apply (ids_set_proc k p ph e Hk)).
  constructor; rewrite ?Hps, ?Hids.
  - rewrite (counted_insert _ _ _ p) by done. lia.
  - rewrite (counted_insert _ _ _ p) by done. lia.
  - intros j q [(<- & <- & _)|[_ Hj]]%list_lookup_insert_Some; [|by apply Hctx]. by apply (Hctx k p).
  - intros i c He.
    assert ((∃ q, q ∈ procs e ∧ stands_for i c q ∧
               (q = p → registered (to ph p) = true ∨ i ≠ pb_ExecutionId (p_task p))) ∨
            stands_for i c (to ph p)) as [(q & Hq & Hst & Hqp)|Hst].
    { destruct Htab as [[Hr Ht]|[[Hr Ht]|[Hr Ht]]]; apply Ht in He.
      - destruct (Hsound i c He) as (q & Hq & Hst). left. exists q. split; [done|]. split; [done|].
        intros ->. left. rewrite Hr. apply Hst.
      - case_decide as Hi; [right; by repeat split|].
        destruct (Hsound i c He) as (q & Hq & Hst). left. exists q. by split_and!; [..|left].
      - destruct He as [Hi He]. destruct (Hsound i c He) as (q & Hq & Hst). left. exists q.
        by split_and!; [..|right]. }
    + apply list_elem_of_lookup in Hq as [j Hj]. destruct (decide (j = k)) as [->|Hne].
      * simplify_eq. destruct Hst as (Hreg & Hi & Hc).
        exists (to ph p). split; [by apply (set_proc_in k p ph e k); [|left]|].
        destruct (Hqp eq_refl) as [Hr|Hr]; [by repeat split|done].
      * exists q. split; [by apply (set_proc_in k p ph e j); [|right]|done].
    + exists (to ph p). split; [by apply (set_proc_in k p ph e k); [|left]|done].
  - intros Hnd i c q Hq Hst. apply (in_set_proc k p ph e) in Hq; [|done].
    destruct Hq as [->|(j & Hne & Hj)].
    + destruct Hst as (Hreg & Hi & Hc). simpl in *.
      destruct Htab as [[Hr Ht]|[[Hr Ht]|[Hr Ht]]]; [|apply Ht; by rewrite decide_True|congruence].
      apply Ht, (Hcomp Hnd i c p); [by eapply list_elem_of_lookup_2|]. split; [by rewrite <- Hr|done].
    + assert (entry i c e) as He.
      { apply (Hcomp Hnd i c q); [by eapply list_elem_of_lookup_2|done]. }
      assert (i ≠ pb_ExecutionId (p_task p)) as Hi.
      { destruct Hst as (_ & <- & _). intros Heq. apply Hne. by eapply same_id_same_process. }
      destruct Htab as [[Hr Ht]|[[Hr Ht]|[Hr Ht]]]; apply Ht; [done| |done]. by rewrite decide_False.
Qed.

Lemma inv_Execute e task : exec_inv e → exec_inv (Execute task e).
Proof.
  intros [Hwg Hrun Hctx Hsound Hcomp]. unfold Execute. destruct (shuttingDown e); [done|]. split; simpl.
  - rewrite counted_app, Hwg. done.
  - rewrite counted_app, Hrun. unfold counted at 3. simpl. lia.
  - intros j p. rewrite lookup_app_Some. intros [Hj|[Hlen Hj]]; [by apply Hctx|].
    apply list_lookup_singleton_Some in Hj as [Hj <-]. simpl. f_equal. lia.
  - intros i c He. destruct (Hsound i c He) as (p & Hp & Hst). exists p.
    split; [apply elem_of_app; by left|done].
  - unfold ids. simpl. rewrite fmap_app. intros [Hnd _]%NoDup_app i c p Hp Hst.
    apply elem_of_app in Hp as [Hp|Hp]; [by apply (Hcomp Hnd i c p)|].
    apply list_elem_of_singleton in Hp as ->. by destruct Hst.
Qed.

Lemma entry_added i c now j task cancel e :
  entry i c (addRunningTask now j task cancel e) ↔ if decide (i = j) then c = cancel else entry i c e.
Proof.
  unfold entry, addRunningTask. simpl. case_decide as Hi.
  - subst. rewrite lookup_insert_eq. split; [by intros (info & [= <-] & <-)|intros ->]. eauto.
  - by rewrite lookup_insert_ne.
Qed.

Lemma entry_removed i c j e : entry i c (removeRunningTask j e) ↔ i ≠ j ∧ entry i c e.
Proof.
  unfold entry, removeRunningTask. simpl. split.
  - intros (info & [Hne Hi]%lookup_delete_Some & Hc). split; [done|eauto].
  - intros (Hne & info & Hi & Hc). exists info. by rewrite lookup_delete_ne.
Qed.

Lemma entry_progress i c j n msg e : entry i c (updateTaskProgress j n msg e) ↔ entry i c e.
Proof.
  unfold entry, updateTaskProgress. destruct (runningTasks e !! j) as [info|] eqn:Ej; [|done]. simpl.
  destruct (decide (j = i)) as [->|Hne]; [|by rewrite lookup_insert_ne].
  rewrite lookup_insert_eq, Ej. split; intros (x & [= <-] & <-); eauto.
Qed.

Lemma inv_same e e' :
  exec_inv e → procs e' = procs e → taskWg e' = taskWg e → running e' = running e →
  (∀ i c, entry i c e' ↔ entry i c e) → exec_inv e'.
Proof.
  intros [Hwg Hrun Hctx Hsound Hcomp] Hp Hw Hr Ht.
  assert (ids e' = ids e) as Hids by (unfold ids; by rewrite Hp).
  constructor; rewrite ?Hp, ?Hw, ?Hr, ?Hids; try done; [intros i c ?%Ht; by apply Hsound|].
  intros Hnd i c p Hin Hst. apply Ht. by apply (Hcomp Hnd i c p).
Qed.

Lemma exec_inv_step e e' : exec_inv e → exec_step e e' → exec_inv e'.
Proof.
  intros He Hstep.
  destruct Hstep as [task e|now k p e Hk Hp|k p e Hk Hp|err k p e Hk Hp|k p e s m Hk Hp|k p e Hk Hp
                    |k p e Hk Hp|k p e Hk Hp|i n msg e|i e|e|e].
  - by apply inv_Execute.
  - apply (inv_move e _ k p Added_); try done; try (unfold alive, busy; simpl; rewrite Hp; lia).
    right; left. split; [done|]. intros i c. apply (entry_added i c).
  - apply (inv_move e _ k p Running_); try done; try (unfold alive, busy; simpl; rewrite Hp; lia).
    left. unfold registered. by rewrite Hp.
  - eapply (inv_move e _ k p); try done; try (destruct err; unfold alive, busy; simpl; rewrite Hp; lia).
    left. unfold registered. rewrite Hp. by destruct err.
  - apply (inv_move e _ k p Released_); try done; try (unfold alive, busy; simpl; rewrite Hp; lia).
    left. unfold registered. by rewrite Hp.
  - apply (inv_move e _ k p Removed_); try done; try (unfold alive, busy; simpl; rewrite Hp; lia).
    right; right. split; [done|]. intros i c. apply (entry_removed i c).
  - apply (inv_move e _ k p Cancelled_); try done; try (unfold alive, busy; simpl; rewrite Hp; lia).
    left. unfold registered. by rewrite Hp.
  - apply (inv_move e _ k p Done_); try done; try (unfold alive, busy; simpl; rewrite Hp; lia).
    left. unfold registered. by rewrite Hp.
  - apply (inv_same e); try done; try (by unfold updateTaskProgress; destruct (runningTasks e !! i)).
    intros j c. apply entry_progress.
  - unfold CancelTask. destruct (runningTasks e !! i); [|done]. by apply (inv_same e).
  - by apply (inv_same e).
  - by apply (inv_same e).
Qed.

Lemma exec_inv_reachable e : reachable exec_step exec_start e → exec_inv e.
Proof.
  revert e. apply reachable_invariant; [|intros e e' He; by apply exec_inv_step].
  intros e ->. split; simpl; try done.
  - intros i c (info & Hi & _). simpl in Hi. by rewrite lookup_empty in Hi.
  - intros _ i c p ?%not_elem_of_nil. done.
Qed.

Lemma reported_entry i e : i ∈ GetRunningExecutionIds e ↔ ∃ c, entry i c e.
Proof.
  unfold GetRunningExecutionIds, entry. rewrite list_elem_of_fmap. split.
  - intros ([i' info] & -> & Hi%elem_of_map_to_list). eauto.
  - intros (c & info & Hi & _). exists (i, info). split; [done|]. by apply elem_of_map_to_list.
Qed.

(** C12: under every interleaving of the accesses of tasks, cancellations and
    shutdown the bookkeeping is exact: the wait group counts the calls that
    have not returned, the load of the pool those between [IncRunning] and
    [DecRunning], and every identifier a heartbeat reports is that of a call
    between [addRunningTask] and [removeRunningTask].  When no two calls have
    had the same execution id, the identifiers reported are exactly those,
    and cancelling an execution cancels its own context and no other. *)
Theorem inventory_exact e (He : reachable exec_step exec_start e) :
  taskWg e = counted alive (procs e) ∧
  GetRunningTasks e = counted busy (procs e) ∧
  (∀ i, i ∈ GetRunningExecutionIds e →
        ∃ p, p ∈ procs e ∧ registered p = true ∧ pb_ExecutionId (p_task p) = i) ∧
  (NoDup (ids e) →
   (∀ p, p ∈ procs e → registered p = true → pb_ExecutionId (p_task p) ∈ GetRunningExecutionIds e) ∧
   ∀ i, let '(found, e') := CancelTask i e in
        (found = true ↔ i ∈ GetRunningExecutionIds e) ∧
        ∀ k p, procs e !! k = Some p →
          p_ctx p ∈ cancelled e' ↔
          p_ctx p ∈ cancelled e ∨ (registered p = true ∧ pb_ExecutionId (p_task p) = i)).
Proof.
  destruct (exec_inv_reachable e He) as [Hwg Hrun Hctx Hsound Hcomp].
  split; [done|]. split; [done|]. split; [|intros Hnd; split].
  - intros i [c (p & Hp & Hr & Hi & _)%Hsound]%reported_entry. eauto.
  - intros p Hp Hr. apply reported_entry. exists (p_ctx p). by apply (Hcomp Hnd _ _ p).
  - intros i. unfold CancelTask. destruct (runningTasks e !! i) as [info|] eqn:Ei.
    + split; [split; [intros _; apply reported_entry; eexists; by exists info|done]|]. intros k p Hk. simpl.
      destruct (Hsound i (ri_cancel info)) as (q & Hq & Hqr & Hqi & Hqc); [by exists info|].
      apply list_elem_of_lookup in Hq as [j Hj]. rewrite elem_of_union, elem_of_singleton. split.
      * intros [Hc|Hc]; [|by left]. right.
        assert (k = j) as -> by (apply Nat2Z.inj; rewrite <- (Hctx k p Hk), <- (Hctx j q Hj); congruence).
        by simplify_eq.
      * intros [Hc|[Hp Hpi]]; [by right|]. left.
        assert (k = j) as -> by (eapply (same_id_same_process e); [done..|]; congruence). by simplify_eq.
    + split; [split; [done|intros (c & x & Hi & _)%reported_entry; congruence]|]. intros k p Hk.
      split; [by left|]. intros [Hc|[Hp Hpi]]; [done|].
      destruct (Hcomp Hnd i (p_ctx p) p) as (x & Hi & _); [by eapply list_elem_of_lookup_2|done|congruence].
Qed.

Lemma counted_zero f ps : counted f ps = 0 ↔ ∀ p, p ∈ ps → f p = false.
Proof.
  induction ps as [|p ps IH]; [by split; [intros _ q ?%not_elem_of_nil|]|].
  unfold counted in *. simpl. split.
  - intros Hz q Hq. destruct (f p) eqn:E; [lia|]. apply elem_of_cons in Hq as [->|Hq]; [done|].
    by apply IH.
  - intros Hall. rewrite (Hall p) by left. apply IH. intros q Hq. apply Hall. by right.
Qed.

(** What holds from a shutdown on. *)
Record draining (e0 e : TaskExecutor) : Prop := {
  dr_inv : exec_inv e;
  dr_down : shuttingDown e = true;
  dr_length : length (procs e) = length (procs e0);
  dr_wg : taskWg e ≤ taskWg e0;
}.

Lemma draining_step e0 e e' : draining e0 e → exec_step e e' → draining e0 e'.
Proof.
  intros [Hi Hd Hl Hw] Hstep. pose proof (exec_inv_step e e' Hi Hstep) as Hi'.
  destruct Hstep as [task e|now k p e Hk Hp|k p e Hk Hp|err k p e Hk Hp|k p e s m Hk Hp|k p e Hk Hp
                    |k p e Hk Hp|k p e Hk Hp|i n msg e|i e|e Hf|e Ht];
    try (split; simpl; [done..|by rewrite length_insert|done || lia]).
  - unfold Execute in *. by rewrite Hd in *.
  - unfold updateTaskProgress in *. destruct (runningTasks e !! i); by split.
  - unfold CancelTask in *. destruct (runningTasks e !! i); by split.
  - congruence.
  - by split.
Qed.

(** Up to the calls of [cancel]: a shutdown cancels every registered task
    and admits none any more; from then on the wait group only falls, and it
    is zero exactly when every call of [Execute] has returned, which is what
    the shutdown waits for. *)
Theorem shutdown_drains e (He : reachable exec_step exec_start e) (Hup : shuttingDown e = false)
    (Hids : NoDup (ids e)) :
  let e' := Shutdown e in
  (∀ p, p ∈ procs e → registered p = true → p_ctx p ∈ cancelled e') ∧
  ∀ e'', rtc exec_step e' e'' →
    shuttingDown e'' = true ∧ length (procs e'') = length (procs e) ∧ taskWg e'' ≤ taskWg e ∧
    (taskWg e'' = 0 ↔ ∀ p, p ∈ procs e'' → alive p = false).
Proof.
  intros e'. pose proof (exec_inv_reachable e He) as Hinv. split.
  - intros p Hin Hp. destruct Hinv as [_ _ _ _ Hcomp].
    destruct (Hcomp Hids (pb_ExecutionId (p_task p)) (p_ctx p) p) as (info & Hi & Hc); [done..|].
    unfold e', Shutdown. rewrite Hup. simpl. apply elem_of_union. left. apply elem_of_list_to_set, list_elem_of_fmap.
    exists (pb_ExecutionId (p_task p), info). split; [by rewrite <- Hc|]. by apply elem_of_map_to_list.
  - intros e'' Hrtc. assert (draining e e'') as [Hi Hd Hl Hw].
    { assert (draining e e') as Hd.
      { unfold e', Shutdown. rewrite Hup. split; [by apply (inv_same e)|done..]. }
      clearbody e'. induction Hrtc as [|x y z Hxy _ IH]; [done|]. apply IH. by eapply draining_step. }
    split; [done|]. split; [done|]. split; [done|]. rewrite (ei_wg _ Hi). apply counted_zero.
Qed.

(** ** A concrete process *)

Definition demo_pb (i : string) : pb_Task := mkPbTask 7 i "shell" "{}" 60 2 5.

Definition demo_proc (i : string) (c : Z) (ph : phase) : proc := mkProc (demo_pb i) c ph.

(** The run of "e-1" is cancelled while "e-2", added to the table and not yet
    counted by the pool, goes on. *)
Definition two_running : TaskExecutor :=
  let e := Execute (demo_pb "e-2") (Execute (demo_pb "e-1") NewTaskExecutor) in
  let e := register 0 0 (demo_proc "e-1" 0 Admitted_) e in
  let e := occupy 0 (demo_proc "e-1" 0 Added_) e in
  register 0 1 (demo_proc "e-2" 1 Admitted_) e.

Lemma two_running_reachable : reachable exec_step exec_start two_running.
Proof.
  exists NewTaskExecutor. split; [done|].
  eapply rtc_l; [apply (st_execute (demo_pb "e-1"))|].
  eapply rtc_l; [apply (st_execute (demo_pb "e-2"))|].
  eapply rtc_l; [by apply (st_register 0 0 (demo_proc "e-1" 0 Admitted_))|].
  eapply rtc_l; [by apply (st_occupy 0 (demo_proc "e-1" 0 Added_))|].
  eapply rtc_l; [by apply (st_register 0 1 (demo_proc "e-2" 1 Admitted_))|]. apply rtc_refl.
Qed.

Lemma two_running_ids : NoDup (ids two_running).
Proof. by apply (bool_decide_unpack _). Qed.

Example inventory_exact_witness :
  taskWg two_running = 2 ∧ GetRunningTasks two_running = 1 ∧
  let e' := (CancelTask "e-1" two_running).2 in 0 ∈ cancelled e' ∧ 1 ∉ cancelled e'.
Proof.
  destruct (inventory_exact two_running two_running_reachable) as (Hw & Hr & _ & Hc).
  split; [rewrite Hw; reflexivity|]. split; [rewrite Hr; reflexivity|].
  destruct (Hc two_running_ids) as [_ Hcancel]. specialize (Hcancel "e-1").
  destruct (CancelTask "e-1" two_running) as [found e']. destruct Hcancel as [_ Hcancel]. split.
  - apply (Hcancel 0%nat (demo_proc "e-1" 0 Running_) eq_refl). right. split; reflexivity.
  - intros [Hin|[_ Hin]]%(Hcancel 1%nat (demo_proc "e-2" 1 Added_) eq_refl); [|discriminate].
    revert Hin. by apply (bool_decide_unpack _).
Defined.

Example shutdown_drains_witness :
  let e' := Shutdown two_running in 0 ∈ cancelled e' ∧ 1 ∈ cancelled e' ∧ shuttingDown (Execute (demo_pb "e-3") e') = true.
Proof.
  destruct (shutdown_drains two_running two_running_reachable eq_refl two_running_ids) as [Hc Hd].
  split; [|split].
  - apply (Hc (demo_proc "e-1" 0 Running_)); [left|reflexivity].
  - apply (Hc (demo_proc "e-2" 1 Added_)); [right; left|reflexivity].
  - destruct (Hd (Execute (demo_pb "e-3") (Shutdown two_running))) as [Hs _]; [|exact Hs].
    apply rtc_once, st_execute.
Defined.

(** Two calls with one execution id: the table keeps one entry, which the
    first call to end removes, so the second runs on, is not reported by the
    heartbeats and can no longer be cancelled. *)
Definition twice_running : TaskExecutor :=
  let e := Execute (demo_pb "e-1") (Execute (demo_pb "e-1") NewTaskExecutor) in
  let e := occupy 0 (demo_proc "e-1" 0 Added_) (register 0 0 (demo_proc "e-1" 0 Admitted_) e) in
  let e := occupy 1 (demo_proc "e-1" 1 Added_) (register 0 1 (demo_proc "e-1" 1 Admitted_) e) in
  let e := finish_task None 0 (demo_proc "e-1" 0 Running_) e in
  unregister 0 (demo_proc "e-1" 0 Released_) (release 0 (demo_proc "e-1" 0 (Reporting "success" "")) e).

Example duplicate_id_is_lost :
  reachable exec_step exec_start twice_running ∧
  procs twice_running !! 1%nat = Some (demo_proc "e-1" 1 Running_) ∧
  GetRunningTasks twice_running = 1 ∧ GetRunningExecutionIds twice_running = [] ∧
  (CancelTask "e-1" twice_running).1 = false.
Proof.
  split; [|by repeat split]. exists NewTaskExecutor. split; [done|].
  eapply rtc_l; [apply (st_execute (demo_pb "e-1"))|].
  eapply rtc_l; [apply (st_execute (demo_pb "e-1"))|].
  eapply rtc_l; [by apply (st_register 0 0 (demo_proc "e-1" 0 Admitted_))|].
  eapply rtc_l; [by apply (st_occupy 0 (demo_proc "e-1" 0 Added_))|].
  eapply rtc_l; [by apply (st_register 0 1 (demo_proc "e-1" 1 Admitted_))|].
  eapply rtc_l; [by apply (st_occupy 1 (demo_proc "e-1" 1 Added_))|].
  eapply rtc_l; [by apply (st_finish None 0 (demo_proc "e-1" 0 Running_))|].
  eapply rtc_l; [by eapply (st_release 0 (demo_proc "e-1" 0 (Reporting "success" "")))|].
  eapply rtc_l; [by apply (st_unregister 0 (demo_proc "e-1" 0 Released_))|]. apply rtc_refl.
Qed.

(** A task that has been admitted and is not registered yet is missed by the
    shutdown: it starts afterwards with a context nobody cancels. *)
Example shutdown_misses_admitted :
  let e := Shutdown (Execute (demo_pb "e-1") NewTaskExecutor) in
  let e' := register 0 0 (demo_proc "e-1" 0 Admitted_) e in
  procs e' = [demo_proc "e-1" 0 Added_] ∧ 0 ∉ cancelled e'.
Proof. split; [reflexivity|]. by apply (bool_decide_unpack _). Qed.
