(* ===== verification/ExecutorClient.v ===== *)
(** * The executor's connection to the schedulers

    [src/executor/internal/grpcclient/client.go]: finding the leading
    scheduler, reconnecting with back-off, reporting, and what an executor
    does with the answer to a heartbeat.

    The client is written against the interface [Rpc]: the calls it makes of
    a scheduler at an address.  [NodeRpc] implements the interface with a node
    of [GrpcServer], so that the two sides run against each other.  A call
    that fails returns [None] or [false], also when the scheduler has served
    it and only the answer was lost.  Connections are numbered; [opened]
    holds those that have been dialled and not closed, [probes] what the
    search for the leader has met.  The client and the connection it belongs
    to are stored together, as the code always stores them. *)
From stdpp Require Import gmap.
From S2P Require Import Prelude Redis Sql World Executor Execution Cleanup System GrpcServer TaskExecutor.

Class Rpc (X : Type) := {
  dial : string → M X bool;
  rpc_Heartbeat : string → HeartbeatRequest → M X (option HeartbeatResponse);
  rpc_Register : string → RegisterRequest → M X (option RegisterResponse);
  rpc_SubscribeTask : string → string → M X bool;
  rpc_ReportTaskResult : string → ReportTaskResultRequest → M X bool;
  rpc_ReportTaskLog : string → ReportTaskLogRequest → M X bool;
}.

Record connection : Type := mkConn { conn_id : Z; conn_addr : string }.

#[export] Instance connection_eq_dec : EqDecision connection.
Proof. solve_decision. Defined.

Inductive probe_result : Type :=
| Unreachable                 (** the dial failed *)
| Silent                      (** no answer to the heartbeat *)
| Answered (isLeader : bool).

Record MultiClient : Type := mkClient {
  schedulerAddrs : list string;
  currentIndex : Z;
  conn : option connection;
  stream : option connection;
  isConnected : bool;
  executorName : string;
  lastSchedulerId : string;
  needFullSync : bool;
  opened : list connection;
  dialled : Z;
  probes : list (string * probe_result);
}.

Definition NewMultiClient (addrs : list string) : option MultiClient :=
  match addrs with
  | [] => None
  | _ => Some (mkClient addrs 0 None None false "" "" false [] 0 [])
  end.

Implicit Types c : MultiClient.

Definition getCurrentAddr c : string :=
  default "" (schedulerAddrs c !! Z.to_nat (currentIndex c mod Z.of_nat (length (schedulerAddrs c)))).
Definition nextAddr c : MultiClient :=
  mkClient (schedulerAddrs c) (currentIndex c + 1) (conn c) (stream c) (isConnected c) (executorName c)
    (lastSchedulerId c) (needFullSync c) (opened c) (dialled c) (probes c).
Definition set_connected (b : bool) c : MultiClient :=
  mkClient (schedulerAddrs c) (currentIndex c) (conn c) (stream c) b (executorName c)
    (lastSchedulerId c) (needFullSync c) (opened c) (dialled c) (probes c).
Definition use_conn (k : connection) c : MultiClient :=
  mkClient (schedulerAddrs c) (currentIndex c) (Some k) (stream c) true (executorName c)
    (lastSchedulerId c) (needFullSync c) (opened c) (dialled c) (probes c).
Definition open_conn (addr : string) c : MultiClient :=
  mkClient (schedulerAddrs c) (currentIndex c) (conn c) (stream c) (isConnected c) (executorName c)
    (lastSchedulerId c) (needFullSync c) (opened c ++ [mkConn (dialled c) addr]) (dialled c + 1) (probes c).
Definition close_conn (k : connection) c : MultiClient :=
  mkClient (schedulerAddrs c) (currentIndex c) (conn c) (stream c) (isConnected c) (executorName c)
    (lastSchedulerId c) (needFullSync c) (filter (λ k', k' ≠ k) (opened c)) (dialled c) (probes c).
Definition note_probe (addr : string) (r : probe_result) c : MultiClient :=
  mkClient (schedulerAddrs c) (currentIndex c) (conn c) (stream c) (isConnected c) (executorName c)
    (lastSchedulerId c) (needFullSync c) (opened c) (dialled c) (probes c ++ [(addr, r)]).
Definition set_name (name : string) c : MultiClient :=
  mkClient (schedulerAddrs c) (currentIndex c) (conn c) (stream c) (isConnected c) name
    (lastSchedulerId c) (needFullSync c) (opened c) (dialled c) (probes c).
Definition set_subscription (s : option connection) c : MultiClient :=
  mkClient (schedulerAddrs c) (currentIndex c) (conn c) s (isConnected c) (executorName c)
    (lastSchedulerId c) (needFullSync c) (opened c) (dialled c) (probes c).
Definition set_scheduler (id : string) c : MultiClient :=
  mkClient (schedulerAddrs c) (currentIndex c) (conn c) (stream c) (isConnected c) (executorName c)
    id (needFullSync c) (opened c) (dialled c) (probes c).
Definition set_sync (b : bool) c : MultiClient :=
  mkClient (schedulerAddrs c) (currentIndex c) (conn c) (stream c) (isConnected c) (executorName c)
    (lastSchedulerId c) b (opened c) (dialled c) (probes c).

(** Closing the old connection and forgetting it. *)
Definition reconnect c : MultiClient :=
  let c := match conn c with Some k => close_conn k c | None => c end in
  nextAddr (mkClient (schedulerAddrs c) (currentIndex c) None None false (executorName c)
    (lastSchedulerId c) (needFullSync c) (opened c) (dialled c) (probes c)).

(** ** Back-off

    [float64(base) * math.Pow(2, n)] is exact; Go leaves the conversion of a
    number outside the 64-bit range to the machine: [out_of_range]. *)
Definition to_duration (out_of_range x : Z) : Z :=
  if (- 2 ^ 63 <=? x) && (x <? 2 ^ 63) then x else out_of_range.
Definition backoffDelay (out_of_range rand_ retryCount base max jitter : Z) : Z :=
  let delay := to_duration out_of_range (base * 2 ^ retryCount) in
  let delay := if max <? delay then max else delay in
  if 0 <? jitter then int64 (delay + rand_) else delay.

Definition baseDelay : Z := 3 * Second.
Definition maxDelay : Z := 60 * Second.
Definition maxJitter : Z := 500000000.

Section client.
Context `{Rpc X}.

Abbreviation S := (MultiClient * X)%type.

Definition local (f : MultiClient → MultiClient) : M S unit := modify (λ s, (f s.1, s.2)).
Definition rpc {A} (m : M X A) : M S A := zoom snd (λ x s, (s.1, x)) m.
Definition client_of {A} (f : MultiClient → A) : M S A := gets (λ s, f s.1).

Definition empty_beat (name : string) : HeartbeatRequest := mkHeartbeat name 0 [] [] false.

(** [connect] and the heartbeat that asks whether the node leads; a
    connection without answer is closed. *)
Definition probe (addr : string) : M S probe_result :=
  up ← rpc (dial addr);
  r ← (if negb up then mret Unreachable
       else o ← rpc (rpc_Heartbeat addr (empty_beat ""));
            mret match o with None => Silent | Some resp => Answered (IsLeader resp) end);
  _ ← local (note_probe addr r);
  mret r.

Fixpoint connect_loop (n : nat) (fallback : option connection) : M S string :=
  match n with
  | O =>
      match fallback with
      | Some k => _ ← local (use_conn k); mret (conn_addr k)
      | None => _ ← local (set_connected false); mret ""
      end
  | Datatypes.S n =>
      addr ← client_of getCurrentAddr;
      r ← probe addr;
      match r with
      | Unreachable | Silent => _ ← local nextAddr; connect_loop n fallback
      | Answered isLeader =>
          id ← client_of dialled;
          let k := mkConn id addr in
          _ ← local (open_conn addr);
          if (isLeader : bool) then _ ← local (use_conn k); mret addr
          else
            match fallback with
            | None => _ ← local nextAddr; connect_loop n (Some k)
            | Some _ => _ ← local (close_conn k); _ ← local nextAddr; connect_loop n fallback
            end
      end
  end.

(** Its error is always [nil]. *)
Definition connectToScheduler : M S string :=
  n ← client_of (λ c, length (schedulerAddrs c));
  connect_loop n None.

(** Its error is always [nil] too.  The answer to the heartbeat that checks
    the connection is dropped. *)
Definition ensureConnected : M S unit :=
  c ← client_of id;
  ok ← (if isConnected c then
          match conn c with
          | Some k => o ← rpc (rpc_Heartbeat (conn_addr k) (empty_beat (executorName c)));
                      mret (bool_decide (is_Some o))
          | None => mret false
          end
        else mret false);
  if (ok : bool) then mret tt else _ ← connectToScheduler; mret tt.

(** The loop of [ReportResult] and [ReportLog]: at most three attempts;
    [false] is the error after them. *)
Fixpoint report_loop (attempts : nat) (send : string → M X bool) : M S bool :=
  match attempts with
  | O => mret false
  | Datatypes.S attempts =>
      _ ← ensureConnected;
      k ← client_of conn;
      match k with
      | None => report_loop attempts send
      | Some k =>
          ok ← rpc (send (conn_addr k));
          if (ok : bool) then mret true else report_loop attempts send
      end
  end.

Definition maxRetries : nat := 3.
Definition ReportResult (req : ReportTaskResultRequest) : M S bool :=
  report_loop maxRetries (λ addr, rpc_ReportTaskResult addr req).
Definition ReportLog (req : ReportTaskLogRequest) : M S bool :=
  report_loop maxRetries (λ addr, rpc_ReportTaskLog addr req).

(** One round of the loop of [Subscribe], up to the point where the stream is
    open and a heartbeat loop is started, or the executor waits before the
    next round. *)
Inductive round : Type :=
| Subscribed (name : string)
| Rejected (message : string)   (** the name is in use: [Subscribe] returns an error *)
| Retry.

Definition subscribe_round (name address : string) (capacity : Z) : M S round :=
  _ ← ensureConnected;
  k ← client_of conn;
  match k with
  | None => _ ← local reconnect; mret Retry
  | Some k =>
      r ← rpc (rpc_Register (conn_addr k) (mkRegister name address capacity));
      match r with
      | None => _ ← local reconnect; mret Retry
      | Some resp =>
          if negb (rs_Success resp) then
            if Duplicate resp then mret (Rejected (rs_Message resp))
            else _ ← local reconnect; mret Retry
          else
            _ ← local (set_name (rs_ExecutorName resp));
            ok ← rpc (rpc_SubscribeTask (conn_addr k) (rs_ExecutorName resp));
            if (ok : bool) then
              _ ← local (set_subscription (Some k)); mret (Subscribed (rs_ExecutorName resp))
            else _ ← local reconnect; mret Retry
      end
  end.
End client.

(** ** Heartbeats *)

(** The loop's own variables. *)
Record beats : Type := mkBeats { currentCapacity : Z; isReconnect : bool }.

(** The executor process: its client, its tasks, the one place of
    [reconnectCh], the capacities it has set, and the network. *)
Record process (X : Type) : Type := mkProcess {
  cl : MultiClient; runner : TaskExecutor; signal : bool; capacities : list Z; net : X;
}.
Arguments mkProcess {X} _ _ _ _ _.
Arguments cl {X} _.
Arguments runner {X} _.
Arguments signal {X} _.
Arguments capacities {X} _.
Arguments net {X} _.

Definition GetRunningTaskStates (e : TaskExecutor) : list RunningTaskState :=
  (λ i, mkRunningTask i.1 (pb_TaskId (ri_task i.2)) (currentProgress i.2) (progressMsg i.2))
    <$> map_to_list (runningTasks e).

(** [CancelTask] for every identifier. *)
Definition cancel_all (ids : list string) (e : TaskExecutor) : TaskExecutor :=
  foldl (λ e i, (CancelTask i e).2) e ids.

(** What an answer does; [None] ends the loop. *)
Definition handle_answer {X} (resp : HeartbeatResponse) (l : beats) (p : process X) : option beats * process X :=
  let known := bool_decide (SchedulerNodeId resp = "") ||
               bool_decide (lastSchedulerId (cl p) = SchedulerNodeId resp) in
  if negb known then
    (None, mkProcess (set_scheduler (SchedulerNodeId resp) (cl p)) (runner p) true (capacities p) (net p))
  else
    let rec := if bool_decide (SchedulerNodeId resp = "") then isReconnect l else false in
    let resize := (0 <? TargetCapacity resp) && negb (TargetCapacity resp =? currentCapacity l) in
    (Some (mkBeats (if resize then TargetCapacity resp else currentCapacity l) rec),
     mkProcess (set_sync (NeedFullSync resp) (cl p)) (cancel_all (CancelExecutionIds resp) (runner p))
       (signal p) (if resize then capacities p ++ [TargetCapacity resp] else capacities p) (net p)).

Section heartbeat.
Context `{Rpc X}.

Definition beat_request (name : string) (l : beats) (p : process X) : HeartbeatRequest :=
  mkHeartbeat name (GetRunningTasks (runner p)) (GetRunningExecutionIds (runner p))
    (if needFullSync (cl p) || isReconnect l then GetRunningTaskStates (runner p) else []) (isReconnect l).

Definition send_beat (addr : string) (req : HeartbeatRequest) : M (process X) (option HeartbeatResponse) :=
  zoom net (λ x p, mkProcess (cl p) (runner p) (signal p) (capacities p) x) (rpc_Heartbeat addr req).

Definition answer_step (resp : HeartbeatResponse) (l : beats) : M (process X) (option beats) := λ p fs,
  let '(l', p') := handle_answer resp l p in (l', (p', fs)).

(** One tick of [heartbeatLoop]; [None]: the loop ends. *)
Definition heartbeat_tick (name : string) (l : beats) : M (process X) (option beats) :=
  p ← gets id;
  if negb (isConnected (cl p)) then mret None
  else
    match conn (cl p) with
    | None => mret None
    | Some k =>
        o ← send_beat (conn_addr k) (beat_request name l p);
        match o with
        | None => mret None
        | Some resp => answer_step resp l
        end
    end.
End heartbeat.

(** ** The search for the leader *)

Section search.
Context `{Rpc X}.
Abbreviation S := (MultiClient * X)%type.

(** Connections are numbered from below. *)
Definition client_ok c : Prop := ∀ k, k ∈ opened c → conn_id k < dialled c.

Definition no_leader (met : list (string * probe_result)) : Prop := ∀ p, p ∈ met → p.2 ≠ Answered true.

(** The addresses are met in turn from [idx] on. *)
Definition in_turn (addrs : list string) (idx : Z) (met : list (string * probe_result)) : Prop :=
  ∀ i p, met !! i = Some p →
    p.1 = default "" (addrs !! Z.to_nat ((idx + Z.of_nat i) mod Z.of_nat (length addrs))).

Fixpoint first_answer (met : list (string * probe_result)) : option string :=
  match met with
  | [] => None
  | (a, Answered _) :: _ => Some a
  | _ :: met => first_answer met
  end.

Definition connected_to (addr : string) c : Prop :=
  isConnected c = true ∧ ∃ k, conn c = Some k ∧ conn_addr k = addr ∧ k ∈ opened c.

(** What the loop does with [n] rounds left. *)
Definition searched (n : nat) (fallback : option connection) c (addr : string) c' : Prop :=
  client_ok c' ∧ schedulerAddrs c' = schedulerAddrs c ∧
  ∃ met, probes c' = probes c ++ met ∧ in_turn (schedulerAddrs c) (currentIndex c) met ∧
    ((∃ met0, met = met0 ++ [(addr, Answered true)] ∧ no_leader met0 ∧ (length met ≤ n)%nat ∧
              connected_to addr c' ∧ getCurrentAddr c' = addr) ∨
     (length met = n ∧ no_leader met ∧
      match (conn_addr <$> fallback) ∪ first_answer met with
      | Some a => addr = a ∧ connected_to a c'
      | None => addr = "" ∧ isConnected c' = false
      end)).

Lemma probe_spec addr c (x : X) fs :
  ∃ r x' fs', probe addr (c, x) fs = (r, ((note_probe addr r c, x'), fs')).
Proof.
  unfold probe, rpc. rewrite run_bind. unfold zoom at 1. simpl.
  destruct (dial addr x fs) as [up [x1 fs1]]. rewrite run_bind. destruct up; simpl.
  - rewrite run_bind. unfold zoom. simpl.
    destruct (rpc_Heartbeat addr _ x1 fs1) as [o [x2 fs2]]. eauto.
  - eauto.
Qed.

(** One more round before the others. *)
Lemma searched_next n fb fb' c c1 addr c' r :
  currentIndex c1 = currentIndex c + 1 → schedulerAddrs c1 = schedulerAddrs c →
  probes c1 = probes c ++ [(getCurrentAddr c, r)] → r ≠ Answered true →
  (conn_addr <$> fb') = (conn_addr <$> fb) ∪ first_answer [(getCurrentAddr c, r)] →
  searched n fb' c1 addr c' → searched (Datatypes.S n) fb c addr c'.
Proof.
  intros Hi Ha Hp Hr Hfb (Hok & Hsame & met & Hmet & Hturn & Hcase). split; [done|]. split; [congruence|].
  exists ((getCurrentAddr c, r) :: met). split; [rewrite Hmet, Hp, <- (assoc app); done|]. split.
  { intros [|i] p; simpl.
    - intros [= <-]. simpl. unfold getCurrentAddr. do 4 f_equal. lia.
    - intros Hpi. rewrite (Hturn i p Hpi), Ha, Hi. do 4 f_equal. lia. }
  assert (∀ l, no_leader l → no_leader ((getCurrentAddr c, r) :: l)) as Hno
    by (intros l Hl p [->|Hin]%elem_of_cons; [done|by apply Hl]).
  destruct Hcase as [(met0 & -> & Hn0 & Hlen & Hcon)|(Hlen & Hn0 & Hres)].
  - left. exists ((getCurrentAddr c, r) :: met0). split; [done|]. split; [by apply Hno|]. split; [simpl; lia|done].
  - right. split; [simpl; lia|]. split; [by apply Hno|]. rewrite Hfb in Hres.
    destruct fb as [k|]; simpl in *; [destruct (first_answer met); by destruct r as [| |b]|].
    destruct r as [| |b]; simpl in *; idtac; destruct (first_answer met); done.
Qed.

Lemma connect_loop_spec n fb c (x : X) fs :
  client_ok c → (∀ k, fb = Some k → k ∈ opened c) →
  let '(addr, s') := run (connect_loop n fb) (c, x) fs in searched n fb c addr s'.1.
Proof.
  revert fb c x fs. induction n as [|n IH]; intros fb c x fs Hok Hfb; simpl.
  { destruct fb as [k|]; unfold run; rewrite run_bind; simpl; (split; [done|split; [done|]]);
      exists []; rewrite app_nil_r; (split; [done|split; [by intros i p|right]]);
      (split; [done|split; [by intros p ?%not_elem_of_nil|]]); simpl; [|done].
    split; [done|]. split; [done|]. exists k. auto. }
  unfold run. rewrite run_bind. simpl.
  change (client_of getCurrentAddr (c, x) fs) with (getCurrentAddr c, ((c, x), fs)). cbv beta iota.
  rewrite run_bind. destruct (probe_spec (getCurrentAddr c) c x fs) as (r & x1 & fs1 & ->).
  set (c1 := note_probe (getCurrentAddr c) r c).
  assert (∀ fb' c2, client_ok c2 → (∀ k, fb' = Some k → k ∈ opened c2) →
    currentIndex c2 = currentIndex c + 1 → schedulerAddrs c2 = schedulerAddrs c → probes c2 = probes c1 →
    r ≠ Answered true → (conn_addr <$> fb') = (conn_addr <$> fb) ∪ first_answer [(getCurrentAddr c, r)] →
    let '(addr, s') := run (connect_loop n fb') (c2, x1) fs1 in searched (Datatypes.S n) fb c addr s'.1) as Hnext.
  { intros fb' c2 Hok2 Hfb2 Hi Ha Hp Hr Hf. specialize (IH fb' c2 x1 fs1 Hok2 Hfb2).
    destruct (run (connect_loop n fb') (c2, x1) fs1) as [addr s'].
    by apply (searched_next n fb fb' c c2 addr s'.1 r); [..|rewrite Hp| | |]. }
  assert (client_ok c1) as Hok1 by done.
  destruct r as [| |[]].
  - apply (Hnext fb (nextAddr c1)); try done. by destruct fb.
  - apply (Hnext fb (nextAddr c1)); try done. by destruct fb.
  - rewrite !run_bind. simpl. split; [|split; [done|]].
    { intros k. simpl. intros [Hk|Hk%list_elem_of_singleton]%elem_of_app; [specialize (Hok k Hk); lia|subst k; simpl; lia]. }
    exists [(getCurrentAddr c, Answered true)]. split; [done|]. split.
    { intros [|i] p; simpl; [|done]. intros [= <-]. simpl. unfold getCurrentAddr. do 4 f_equal. lia. }
    left. exists []. split; [done|]. split; [by intros p ?%not_elem_of_nil|]. split; [simpl; lia|]. split; [|done].
    split; [done|]. eexists. split; [done|]. split; [done|]. simpl. apply elem_of_app. right. by left.
  - rewrite !run_bind. simpl. destruct fb as [k0|]; rewrite ?run_bind; simpl.
    + apply (Hnext (Some k0) (nextAddr (close_conn (mkConn (dialled c) (getCurrentAddr c)) (open_conn (getCurrentAddr c) c1))));
        try done.
      * intros k. simpl. intros [_ [Hk|Hk%list_elem_of_singleton]%elem_of_app]%list_elem_of_filter; [|subst k; simpl; lia].
        specialize (Hok k Hk). lia.
      * intros k [= <-]. simpl. apply list_elem_of_filter. split; [|apply elem_of_app; left; by apply Hfb].
        intros ->. specialize (Hok _ (Hfb _ eq_refl)). simpl in Hok. lia.
    + apply (Hnext (Some (mkConn (dialled c) (getCurrentAddr c))) (nextAddr (open_conn (getCurrentAddr c) c1))); try done.
      * intros k. simpl. intros [Hk|Hk%list_elem_of_singleton]%elem_of_app; [specialize (Hok k Hk); lia|subst k; simpl; lia].
      * intros k [= <-]. simpl. apply elem_of_app. right. by left.
Qed.

(** the search for a scheduler tries the addresses in turn, each at most
    once, whatever the schedulers and the network answer meanwhile.  It stops
    at the first one that says it leads and stays connected to it; if none
    does it is connected to the first that answered; if none answers it is
    not connected, and reports no error. *)
Theorem connectToScheduler_finds_leader c (x : X) fs (Hok : client_ok c) :
  let '(addr, s') := run connectToScheduler (c, x) fs in
  let c' := s'.1 in
  ∃ met, probes c' = probes c ++ met ∧ in_turn (schedulerAddrs c) (currentIndex c) met ∧
    ((∃ met0, met = met0 ++ [(addr, Answered true)] ∧ no_leader met0 ∧
              (length met ≤ length (schedulerAddrs c))%nat ∧
              connected_to addr c' ∧ getCurrentAddr c' = addr) ∨
     (length met = length (schedulerAddrs c) ∧ no_leader met ∧
      match first_answer met with
      | Some a => addr = a ∧ connected_to a c'
      | None => addr = "" ∧ isConnected c' = false
      end)).
Proof.
  pose proof (connect_loop_spec (length (schedulerAddrs c)) None c x fs Hok ltac:(done)) as Hl.
  unfold connectToScheduler. unfold run in *. rewrite run_bind. simpl.
  change (client_of (λ c, length (schedulerAddrs c)) (c, x) fs) with (length (schedulerAddrs c), ((c, x), fs)).
  cbv beta iota. destruct (connect_loop _ None (c, x) fs) as [addr [s' fs']].
  destruct Hl as (_ & _ & met & Hp & Ht & Hcase). exists met. split; [done|]. split; [done|].
  destruct Hcase as [Hcase|(? & ? & Hcase)]; [by left|]. right. split; [done|]. split; [done|].
  simpl in Hcase. by destruct (first_answer met).
Qed.
End search.

(** ** Back-off *)

(** up to the thirty-second attempt in a row the executor waits
    [min(3s * 2^n, 60s)] and at most half a second more; from the
    thirty-third on the product does not fit in 64 bits and the wait is
    whatever the machine makes of it. *)
Theorem backoffDelay_bounds out rand_ n (Hn : 0 ≤ n) (Hr : 0 ≤ rand_ < maxJitter) :
  let d := backoffDelay out rand_ n baseDelay maxDelay maxJitter in
  (n ≤ 31 → d = Z.min (baseDelay * 2 ^ n) maxDelay + rand_ ∧ baseDelay ≤ d < maxDelay + maxJitter) ∧
  (32 ≤ n → d = int64 (Z.min out maxDelay + rand_)).
Proof.
  intros d. unfold d, backoffDelay, to_duration. rewrite (proj2 (Z.ltb_lt 0 maxJitter)) by done.
  change baseDelay with 3000000000. change maxDelay with 60000000000. change maxJitter with 500000000 in *.
  change (2 ^ 63) with 9223372036854775808. clear d. split; intros Hle.
  - assert (1 ≤ 2 ^ n ≤ 2147483648) as Hp.
    { split; [change 1 with (2 ^ 0)|change 2147483648 with (2 ^ 31)]; apply Z.pow_le_mono_r; lia. }
    generalize dependent (2 ^ n). intros q Hp.
    rewrite (proj2 (Z.leb_le (- (9223372036854775808)) (3000000000 * q))) by lia.
    rewrite (proj2 (Z.ltb_lt (3000000000 * q) 9223372036854775808)) by lia. simpl andb. cbv iota.
    destruct (Z.ltb_spec 60000000000 (3000000000 * q)); rewrite int64_small by lia; lia.
  - assert (4294967296 ≤ 2 ^ n) as Hp by (change 4294967296 with (2 ^ 32); apply Z.pow_le_mono_r; lia).
    rewrite (proj2 (Z.ltb_ge (3000000000 * 2 ^ n) 9223372036854775808)) by lia. rewrite andb_false_r.
    f_equal. destruct (Z.ltb_spec 60000000000 out); lia.
Qed.

(** ** A node as the other end

    A call reaches the node at [addr] and takes one fate of its own, before
    those of the calls the node makes. *)
Section node.
Context `{Redis R}.
Variable base : env.
Variable send : Z → pb_Task → option string.
Variable home : string.

Definition call_node {A} (addr : string) (m : M (node R) A) : M (node R) (option A) := λ n fs,
  if negb (bool_decide (addr = home)) then (None, (n, fs))
  else match fs with
       | [] => let '(a, r) := m n [] in (Some a, r)
       | Fine :: fs => let '(a, r) := m n fs in (Some a, r)
       | Lost :: fs => (None, (n, fs))
       | Ghost :: fs => let '(a, r) := m n fs in (None, r)
       end.

Definition reached {A} (m : M (node R) (option A)) : M (node R) bool :=
  o ← m; mret (bool_decide (is_Some o)).

(** A number no waiting stream has. *)
Definition fresh_stream (n : node R) : Z := 1 + foldr Z.max 0 (subscribers n).*2.

#[export] Instance NodeRpc : Rpc (node R) := {
  dial addr := reached (call_node addr (mret tt));
  rpc_Heartbeat addr req := call_node addr (Heartbeat base send req);
  rpc_Register addr req := call_node addr (Register base send req);
  rpc_SubscribeTask addr name :=
    reached (call_node addr (n ← gets id; SubscribeTask name (fresh_stream n)));
  rpc_ReportTaskResult addr req := reached (call_node addr (ReportTaskResult base send req));
  rpc_ReportTaskLog addr req := reached (call_node addr (ReportTaskLog base send req));
}.

Lemma cancel_all_spec ids e :
  let e' := cancel_all ids e in
  runningTasks e' = runningTasks e ∧
  ∀ x, x ∈ cancelled e' ↔ x ∈ cancelled e ∨
       ∃ i info, i ∈ ids ∧ runningTasks e !! i = Some info ∧ ri_cancel info = x.
Proof.
  revert e. induction ids as [|i ids IH]; intros e; simpl.
  { split; [done|]. intros x. split; [by left|]. by intros [?|(? & ? & ?%not_elem_of_nil & _)]. }
  destruct (IH (CancelTask i e).2) as [Hr Hc]. clear IH. unfold CancelTask in *.
  destruct (runningTasks e !! i) as [info|] eqn:Ei; simpl in *; (split; [done|]); intros x; rewrite Hc.
  - rewrite elem_of_union, elem_of_singleton. split.
    + intros [[->|Hin]|(j & inf & Hj & Hinf & Hic)]; [right|by left|right].
      * exists i, info. by split; [left|].
      * exists j, inf. by split; [right|].
    + intros [Hin|(j & inf & [->|Hj]%elem_of_cons & Hinf & Hic)]; [by left; right| |].
      * left. left. congruence.
      * right. by exists j, inf.
  - split; intros [Hin|(j & inf & Hj & Hinf & Hic)]; [by left| |by left|].
    + right. exists j, inf. by split; [right|].
    + apply elem_of_cons in Hj as [->|Hj]; [congruence|]. right. by exists j, inf.
Qed.

(** a heartbeat delivers the cancellations.  When the executor is
    connected to the node, knows which scheduler it talks to, and the answer
    arrives, exactly the contexts of its running executions whose
    cancellation waits at the node are cancelled, none is left waiting and
    the loop goes on, whatever fails behind the node. *)
Theorem heartbeat_delivers_cancellations name l k (p : process (node R)) fs
    (Hname : name ≠ "") (Hup : isConnected (cl p) = true) (Hk : conn (cl p) = Some k)
    (Haddr : conn_addr k = home)
    (Hknown : nodeId (server (net p)) = "" ∨ lastSchedulerId (cl p) = nodeId (server (net p))) :
  let '(l', p') := run (heartbeat_tick name l) p (Fine :: fs) in
  is_Some l' ∧ pending_cancels name (server (net p')) = [] ∧
  runningTasks (runner p') = runningTasks (runner p) ∧
  ∀ x, x ∈ cancelled (runner p') ↔ x ∈ cancelled (runner p) ∨
       ∃ i info, i ∈ pending_cancels name (server (net p)) ∧
                 runningTasks (runner p) !! i = Some info ∧ ri_cancel info = x.
Proof.
  unfold heartbeat_tick, run. rewrite run_bind. simpl. rewrite Hup, Hk. simpl.
  rewrite run_bind. unfold send_beat, zoom. simpl. unfold call_node. rewrite bool_decide_true by done. simpl.
  pose proof (Heartbeat_exact base send (beat_request name l p) (net p) fs Hname) as He. unfold run in He.
  destruct (Heartbeat base send _ (net p) fs) as [resp [n' fs']]. destruct He as (Hid & Hc & Hs).
  unfold answer_step, handle_answer. simpl in *. rewrite Hid.
  assert (bool_decide (nodeId (server (net p)) = "") ||
          bool_decide (lastSchedulerId (cl p) = nodeId (server (net p))) = true) as ->.
  { destruct Hknown; [rewrite (bool_decide_true (_ = "")) by done; done|].
    rewrite (bool_decide_true (lastSchedulerId _ = _)) by done. apply orb_true_r. }
  simpl. split; [done|]. split; [rewrite Hs, pending_forget; by rewrite decide_True|].
  rewrite Hc. apply cancel_all_spec.
Qed.
End node.

(** ** Concrete runs *)

(** Schedulers that only answer whether they lead. *)
Definition static_rpc (leads : string → option bool) : Rpc unit := {|
  dial _ := mret true;
  rpc_Heartbeat addr _ := mret ((λ b, mkBeat 0 false "" false b []) <$> leads addr);
  rpc_Register _ _ := mret None;
  rpc_SubscribeTask _ _ := mret false;
  rpc_ReportTaskResult _ _ := mret false;
  rpc_ReportTaskLog _ _ := mret false;
|}.

Definition three_schedulers (a : string) : option bool :=
  if bool_decide (a = "s1") then Some false else if bool_decide (a = "s2") then None else Some true.

Definition new_client : MultiClient := default (mkClient [] 0 None None false "" "" false [] 0 [])
  (NewMultiClient ["s1"; "s2"; "s3"]).

Example connectToScheduler_finds_leader_witness :
  client_ok new_client ∧
  let '(addr, s') := run (connectToScheduler (H := static_rpc three_schedulers)) (new_client, tt) [] in
  addr = "s3" ∧ connected_to addr s'.1.
Proof.
  assert (client_ok new_client) as Hok by (intros k Hk; cbv in Hk; by apply elem_of_nil in Hk).
  split; [done|].
  pose proof (connectToScheduler_finds_leader (H := static_rpc three_schedulers) new_client tt [] Hok) as Hf.
  destruct (run (connectToScheduler (H := static_rpc three_schedulers)) (new_client, tt) []) as [addr s'] eqn:E.
  assert (addr = "s3" ∧ probes s'.1 = [("s1", Answered false); ("s2", Silent); ("s3", Answered true)]) as [-> Hp].
  { apply (f_equal (λ r, (r.1, probes r.2.1))) in E. vm_compute in E. by simplify_eq. }
  split; [done|]. destruct Hf as (met & Hm & _ & [(met0 & _ & _ & _ & Hc & _)|(_ & Hno & _)]); [done|].
  exfalso. apply (Hno ("s3", Answered true)); [|done]. rewrite Hp in Hm. simpl in Hm. rewrite <- Hm. right. right. by left.
Defined.

(** The connection kept in case no leader is found is never closed when one
    is. *)
Example fallback_connection_leaks :
  let c' := (run (connectToScheduler (H := static_rpc three_schedulers)) (new_client, tt) []).2.1 in
  conn c' = Some (mkConn 1 "s3") ∧ opened c' = [mkConn 0 "s1"; mkConn 1 "s3"] ∧
  opened (reconnect c') = [mkConn 0 "s1"].
Proof. vm_compute. done. Qed.

Example backoffDelay_bounds_witness :
  0 ≤ 2 ∧ baseDelay ≤ backoffDelay 0 7 2 baseDelay maxDelay maxJitter < maxDelay + maxJitter.
Proof.
  split; [lia|]. pose proof (backoffDelay_bounds 0 7 2 ltac:(lia) ltac:(split; [lia|reflexivity])) as [Hb _].
  apply Hb. lia.
Defined.

(** On x86-64 a conversion out of range gives [-2^63]: the wait is negative,
    so there is none. *)
Example backoffDelay_overflow : backoffDelay (- 2 ^ 63) 0 32 baseDelay maxDelay maxJitter < 0.
Proof. vm_compute. done. Qed.

(** An executor that runs the execution [GrpcServer.cancelled_node] has
    cancelled. *)
Definition running_executor : TaskExecutor :=
  register 0 0 (mkProc (demo_pb "exec-7-1000000000") 0 Admitted_)
    (Execute (demo_pb "exec-7-1000000000") NewTaskExecutor).
Definition connected_client (id : string) : MultiClient :=
  let k := mkConn 0 "s1" in mkClient ["s1"] 0 (Some k) (Some k) true "exec-a" id false [k] 1 [].
Definition demo_process (n : node gmap_store) : process (node gmap_store) :=
  mkProcess (connected_client "") running_executor false [] n.
Definition demo_rpc : Rpc (node gmap_store) := NodeRpc demo_env demo_send "s1".
Definition demo_tick (p : process (node gmap_store)) : option beats * process (node gmap_store) :=
  run (heartbeat_tick (H := demo_rpc) "exec-a" (mkBeats 5 false)) p [].

Example heartbeat_delivers_cancellations_witness :
  0 ∉ cancelled running_executor ∧
  let '(l', p') := run (heartbeat_tick (H := demo_rpc) "exec-a" (mkBeats 5 false)) (demo_process cancelled_node)
                     [Fine; Lost; Ghost] in
  is_Some l' ∧ 0 ∈ cancelled (runner p').
Proof.
  split; [by apply (bool_decide_unpack _)|].
  pose proof (heartbeat_delivers_cancellations demo_env demo_send "s1" "exec-a" (mkBeats 5 false) (mkConn 0 "s1")
    (demo_process cancelled_node) [Lost; Ghost] ltac:(discriminate) eq_refl eq_refl eq_refl
    ltac:(left; vm_compute; reflexivity)) as Hd.
  unfold demo_rpc. destruct (run _ _ _) as [l' p']. destruct Hd as (Hl & _ & _ & Hc). split; [exact Hl|].
  apply Hc. right. exists "exec-7-1000000000", (mkInfo (demo_pb "exec-7-1000000000") 0 0 "Task started" 0).
  split; [vm_compute; left|]. split; vm_compute; reflexivity.
Defined.

(** The heartbeat that checks the connection before a report is answered like
    any other, and its answer is dropped: the cancellation is lost, and the
    executor's load is set to 0. *)
Definition report_log (n : node gmap_store) : node gmap_store :=
  (run (ReportLog (H := demo_rpc) (mkLog "exec-7-1000000000" 7 "info" "line")) (connected_client "", n) []).2.2.
Example report_swallows_cancellation :
  bool_decide (0 ∈ cancelled (runner (demo_tick (demo_process cancelled_node)).2)) = true ∧
  bool_decide (0 ∈ cancelled (runner (demo_tick (demo_process (report_log cancelled_node))).2)) = false ∧
  answered "exec-a" (report_log cancelled_node) = ["exec-7-1000000000"].
Proof. vm_compute. done. Qed.

(** The answer that tells an executor of a new scheduler ends the loop before
    its cancellations are looked at. *)
Example scheduler_change_drops_cancellation :
  let n := (run (serve demo_env demo_send (ReqNodeId "node-2")) cancelled_node []).2 in
  let '(l, p') := demo_tick (demo_process n) in
  l = None ∧ signal p' = true ∧ bool_decide (0 ∈ cancelled (runner p')) = false ∧
  pending_cancels "exec-a" (server (net p')) = [].
Proof. vm_compute. done. Qed.
