(* ===== verification/Crypto.v ===== *)
(** * Encryption of data-source passwords

    [src/scheduler/internal/datasource/crypto.go]: AES-GCM with a current key
    and the keys it has replaced.  Strings are byte strings.  The cipher is Go's
    [crypto/cipher]; the class [Aead] states what its documentation promises of
    it: opening undoes sealing and accepts nothing else.  That a key does not
    open what another has sealed is no property of AES-GCM as such; where it
    matters it is a hypothesis on the one ciphertext ([opens_alone]).
    Base64 is written out.  [nonce] stands for the random bytes a call draws;
    that drawing them can fail is left out. *)
From Stdlib Require Import Ascii.
From S2P Require Import Prelude.

Class Aead : Type := {
  seal : string → string → string → string;
  open : string → string → string → option string;
}.

Definition keySize : nat := 32.
Definition nonceSize : nat := 12.

Class AeadLaws (A : Aead) : Prop := {
  open_seal k n c p : open k n c = Some p ↔ c = seal k n p;
}.

(** ** Base64 *)

Definition alphabet : string := "ABCDEFGHIJKLMNOPQRSTUVWXYZabcdefghijklmnopqrstuvwxyz0123456789+/".
Definition digit (n : N) : ascii := default "A"%char (String.get (N.to_nat n) alphabet).
Definition value (c : ascii) : option N :=
  N.of_nat <$> String.index 0 (String c "") alphabet.

Definition byte (n : N) : ascii := ascii_of_N n.
Definition code (c : ascii) : N := N_of_ascii c.

(** [EncodeToString] *)
Fixpoint encode (s : string) : string :=
  match s with
  | String a (String b (String c s)) =>
      let n := (code a * 65536 + code b * 256 + code c)%N in
      String (digit (n / 262144)) (String (digit (n / 4096 mod 64))
        (String (digit (n / 64 mod 64)) (String (digit (n mod 64)) (encode s))))
  | String a (String b "") =>
      let n := (code a * 1024 + code b * 4)%N in
      String (digit (n / 4096)) (String (digit (n / 64 mod 64)) (String (digit (n mod 64)) "="))
  | String a "" =>
      let n := (code a * 16)%N in String (digit (n / 64)) (String (digit (n mod 64)) "==")
  | "" => ""
  end.

(** [DecodeString]: line breaks are skipped, the rest comes in groups of
    four, the last of which may be padded. *)
Fixpoint strip (s : string) : string :=
  match s with
  | "" => ""
  | String c s => if (code c =? 10)%N || (code c =? 13)%N then strip s else String c (strip s)
  end.

Fixpoint decode_groups (s : string) : option string :=
  match s with
  | "" => Some ""
  | String a (String b (String c (String d s))) =>
      x ← value a; y ← value b;
      if bool_decide (c = "="%char) then
        if bool_decide (d = "="%char ∧ s = "") then Some (String (byte (x * 4 + y / 16)) "") else None
      else
        z ← value c;
        if bool_decide (d = "="%char) then
          if bool_decide (s = "") then
            let n := (x * 4096 + y * 64 + z)%N in
            Some (String (byte (n / 1024)) (String (byte (n / 4 mod 256)) ""))
          else None
        else
          w ← value d;
          let n := (x * 262144 + y * 4096 + z * 64 + w)%N in
          rest ← decode_groups s;
          Some (String (byte (n / 65536)) (String (byte (n / 256 mod 256)) (String (byte (n mod 256)) rest)))
  | _ => None
  end.
Definition decode (s : string) : option string := decode_groups (strip s).

(** ** The keys *)

Record Crypto : Type := mkCrypto { currentKey : string; oldKeys : list string }.

Inductive error : Type :=
| ErrKeyLength (n : Z)
| ErrBase64
| ErrDecrypt.

Definition NewCrypto (key : string) : result error Crypto :=
  if negb (Nat.eqb (String.length key) keySize) then Err (ErrKeyLength (Z.of_nat (String.length key)))
  else Ok (mkCrypto key []).

Definition RotateKey (c : Crypto) (newKey : string) : result error Crypto :=
  if negb (Nat.eqb (String.length newKey) keySize) then Err (ErrKeyLength (Z.of_nat (String.length newKey)))
  else Ok (mkCrypto newKey (currentKey c :: oldKeys c)).

Section aead.
Context `{A : Aead}.

(** [gcm.Seal(nonce, nonce, ...)] puts the nonce first. *)
Definition Encrypt (c : Crypto) (nonce plaintext : string) : string :=
  encode (nonce +:+ seal (currentKey c) nonce plaintext).

Definition decryptWithKey (key data : string) : option string :=
  if Nat.ltb (String.length data) nonceSize then None
  else open key (String.substring 0 nonceSize data)
         (String.substring nonceSize (String.length data - nonceSize) data).

Fixpoint first_key (keys : list string) (data : string) : option string :=
  match keys with
  | [] => None
  | key :: keys => match decryptWithKey key data with Some p => Some p | None => first_key keys data end
  end.

Definition Decrypt (c : Crypto) (ciphertext : string) : result error string :=
  match decode ciphertext with
  | None => Err ErrBase64
  | Some data =>
      match decryptWithKey (currentKey c) data with
      | Some plain => Ok plain
      | None => match first_key (oldKeys c) data with Some plain => Ok plain | None => Err ErrDecrypt end
      end
  end.
End aead.

(** A rotation that is refused leaves the keys. *)
Definition rotate (c : Crypto) (newKey : string) : Crypto :=
  match RotateKey c newKey with Ok c' => c' | Err _ => c end.

Example encode_example : encode "Many hands" = "TWFueSBoYW5kcw==".
Proof. reflexivity. Qed.
Example decode_example : decode "TWFueSBoYW5kcw==" = Some "Many hands".
Proof. reflexivity. Qed.

(** ** Base64 round trip *)

Lemma value_digit n : (n < 64)%N → value (digit n) = Some n.
Proof.
  intros Hn. assert (Forall (λ n, value (digit n) = Some n) (N.of_nat <$> seq 0 64)) as Hall.
  { apply (bool_decide_unpack _). vm_compute. exact I. }
  rewrite Forall_forall in Hall. apply Hall, list_elem_of_fmap. exists (N.to_nat n). split; [lia|].
  apply elem_of_seq. lia.
Qed.

Lemma digit_plain n : (n < 64)%N → digit n ≠ "="%char ∧ (code (digit n) =? 10)%N || (code (digit n) =? 13)%N = false.
Proof.
  intros Hn. assert (Forall (λ n, digit n ≠ "="%char ∧ (code (digit n) =? 10)%N || (code (digit n) =? 13)%N = false)
    (N.of_nat <$> seq 0 64)) as Hall.
  { apply (bool_decide_unpack _). vm_compute. exact I. }
  rewrite Forall_forall in Hall. apply Hall, list_elem_of_fmap. exists (N.to_nat n). split; [lia|].
  apply elem_of_seq. lia.
Qed.

Lemma code_lt c : (code c < 256)%N.
Proof. apply N_ascii_bounded. Qed.
Lemma byte_code c : byte (code c) = c.
Proof. apply ascii_N_embedding. Qed.

Lemma strip_digit n s : (n < 64)%N → strip (String (digit n) s) = String (digit n) (strip s).
Proof. intros Hn. simpl. by rewrite (proj2 (digit_plain n Hn)). Qed.

(** Strings by groups of three. *)
Lemma string_ind3 (P : string → Prop) :
  P "" → (∀ a, P (String a "")) → (∀ a b, P (String a (String b ""))) →
  (∀ a b c s, P s → P (String a (String b (String c s)))) → ∀ s, P s.
Proof.
  intros H0 H1 H2 H3. fix IH 1. intros [|a [|b [|c s]]]; [done..|]. apply H3, IH.
Qed.

Lemma code_byte c n : n = code c → byte n = c.
Proof. intros ->. apply byte_code. Qed.

Ltac sextets :=
  repeat match goal with
  | |- context [value (digit ?n)] =>
      rewrite (value_digit n) by (zify; Z.to_euclidean_division_equations; lia)
  | |- context [strip (String (digit ?n) ?s)] =>
      rewrite (strip_digit n s) by (zify; Z.to_euclidean_division_equations; lia)
  | |- context [bool_decide (digit ?n = "="%char)] =>
      rewrite (bool_decide_false (digit n = "="%char))
        by (apply digit_plain; zify; Z.to_euclidean_division_equations; lia)
  end.

Lemma decode_encode s : decode (encode s) = Some s.
Proof.
  unfold decode. induction s as [|a|a b|a b c s IH] using string_ind3; [done|..].
  - pose proof (code_lt a). cbn [encode]. sextets. cbn [decode_groups strip]. simpl strip. cbn [decode_groups].
    sextets. simpl. f_equal. f_equal. apply code_byte. zify; Z.to_euclidean_division_equations; lia.
  - pose proof (code_lt a). pose proof (code_lt b). cbn [encode]. sextets. simpl strip. cbn [decode_groups].
    sextets. simpl. repeat f_equal; apply code_byte; zify; Z.to_euclidean_division_equations; lia.
  - pose proof (code_lt a). pose proof (code_lt b). pose proof (code_lt c). cbn [encode]. sextets.
    cbn [decode_groups]. sextets. simpl. rewrite IH. simpl.
    repeat f_equal; apply code_byte; zify; Z.to_euclidean_division_equations; lia.
Qed.

(** ** Rotations *)

Section rotations.
Context {A : Aead} {HA : AeadLaws A}.
Implicit Types c : Crypto.

Definition keys c : list string := currentKey c :: oldKeys c.

Lemma rotate_keeps c key k : k ∈ keys c → k ∈ keys (rotate c key).
Proof. unfold rotate, RotateKey. destruct (negb _); [done|]. intros Hk. by right. Qed.

Lemma rotations_keep c ks : currentKey c ∈ keys (foldl rotate c ks).
Proof.
  assert (currentKey c ∈ keys c) as Hk by by left. generalize (currentKey c) Hk. clear Hk.
  revert c. induction ks as [|key ks IH]; intros c k Hk; [done|]. simpl. by apply IH, rotate_keeps.
Qed.

(** Of the keys a sequence of rotations leaves, only the one that sealed this
    text opens it. *)
Definition opens_alone c ks nonce p : Prop :=
  ∀ k, k ∈ keys (foldl rotate c ks) → k ≠ currentKey c → open k nonce (seal (currentKey c) nonce p) = None.

Lemma substring_all t : String.substring 0 (String.length t) t = t.
Proof. induction t as [|b t IH]; [done|]. simpl. by rewrite IH. Qed.

Lemma substring_prefix_app n s t :
  String.length n = s → String.substring 0 s (n +:+ t) = n ∧
  String.substring s (String.length (n +:+ t) - s) (n +:+ t) = t.
Proof.
  intros <-. induction n as [|a n [IH1 IH2]].
  - split; [by destruct t|]. simpl. rewrite Nat.sub_0_r. apply substring_all.
  - simpl. split; [by f_equal|done].
Qed.

Lemma decryptWithKey_sealed k k' nonce p :
  String.length nonce = nonceSize →
  decryptWithKey k' (nonce +:+ seal k nonce p) = open k' nonce (seal k nonce p).
Proof.
  intros Hn. unfold decryptWithKey. destruct (Nat.ltb_spec (String.length (nonce +:+ seal k nonce p)) nonceSize) as [Hlt|_].
  { rewrite string_length_app in Hlt. lia. }
  by destruct (substring_prefix_app nonce nonceSize (seal k nonce p) Hn) as [-> ->].
Qed.

Lemma first_key_sealed ks k nonce p :
  String.length nonce = nonceSize → k ∈ ks →
  (∀ k', k' ∈ ks → k' ≠ k → open k' nonce (seal k nonce p) = None) →
  first_key ks (nonce +:+ seal k nonce p) = Some p.
Proof.
  intros Hn Hk Halone. induction ks as [|k' ks IH]; [by apply not_elem_of_nil in Hk|]. simpl.
  rewrite decryptWithKey_sealed by done. destruct (decide (k' = k)) as [->|Hne].
  - by rewrite (proj2 (open_seal k nonce _ p) eq_refl).
  - rewrite (Halone k') by (done || by left). apply IH.
    + apply elem_of_cons in Hk as [->|?]; done.
    + intros k'' Hk''. apply Halone. by right.
Qed.

Lemma Decrypt_first_key c s :
  Decrypt c s = match decode s with
                | None => Err ErrBase64
                | Some data => match first_key (keys c) data with Some p => Ok p | None => Err ErrDecrypt end
                end.
Proof. unfold Decrypt. destruct (decode s) as [data|]; [|done]. simpl. by destruct (decryptWithKey _ data). Qed.

Lemma string_split m s :
  (m ≤ String.length s)%nat →
  String.length (String.substring 0 m s) = m ∧
  s = String.substring 0 m s +:+ String.substring m (String.length s - m) s.
Proof.
  revert m. induction s as [|a s IH]; intros [|m] Hm; simpl in *; try lia; [done| |].
  - split; [done|]. by rewrite substring_all.
  - destruct (IH m ltac:(lia)) as [Hlen Hs]. split; [by rewrite Hlen|]. exact (f_equal (String a) Hs).
Qed.

Lemma Decrypt_Encrypt c ks nonce p :
  String.length nonce = nonceSize → opens_alone c ks nonce p →
  Decrypt (foldl rotate c ks) (Encrypt c nonce p) = Ok p.
Proof.
  intros Hn Halone. rewrite Decrypt_first_key. unfold Encrypt. rewrite decode_encode.
  rewrite first_key_sealed; [done..|apply rotations_keep|exact Halone].
Qed.

(** C13: what was encrypted is decrypted again, through any number of key
    rotations, refused ones included, provided that none of the other keys
    happens to open that ciphertext; and nothing is decrypted that one of the
    keys has not sealed. *)
Theorem Decrypt_survives_rotations c nonce p ks s (Hn : String.length nonce = nonceSize) :
  (opens_alone c ks nonce p → Decrypt (foldl rotate c ks) (Encrypt c nonce p) = Ok p) ∧
  (∀ q, Decrypt c s = Ok q →
     ∃ k n, k ∈ keys c ∧ String.length n = nonceSize ∧ decode s = Some (n +:+ seal k n q)).
Proof.
  split; [by apply Decrypt_Encrypt|].
  intros q. rewrite Decrypt_first_key. destruct (decode s) as [data|]; [|done].
  induction (keys c) as [|k l IH]; [done|]. simpl. destruct (decryptWithKey k data) as [p'|] eqn:E.
  - intros [= <-]. unfold decryptWithKey in E. destruct (Nat.ltb_spec (String.length data) nonceSize); [done|].
    apply open_seal in E. exists k, (String.substring 0 nonceSize data). split; [by left|].
    rewrite <- E. destruct (string_split nonceSize data) as [Hl Hs]; [done|]. split; [done|]. by f_equal.
  - intros Hq. destruct (IH Hq) as (k' & n & Hk' & Hrest). exists k', n. split; [by right|done].
Qed.
End rotations.

(** ** A cipher with these properties

    It seals nothing, but it satisfies the interface. *)
Fixpoint strip_prefix (k c : string) : option string :=
  match k, c with
  | "", _ => Some c
  | String a k, String b c => if bool_decide (a = b) then strip_prefix k c else None
  | _, _ => None
  end.
#[export] Instance toy_aead : Aead := {| seal k _ p := k +:+ p; open k _ c := strip_prefix k c |}.

Lemma strip_prefix_Some k c p : strip_prefix k c = Some p ↔ c = k +:+ p.
Proof.
  revert c. induction k as [|a k IH]; intros c; simpl; [split; [by intros [= ->]|by intros ->]|].
  destruct c as [|b c]; [done|]. case_bool_decide as E; [subst; rewrite IH; split; [by intros ->|by intros [=]]|].
  split; [done|]. by intros [=].
Qed.

#[export] Instance toy_laws : AeadLaws toy_aead.
Proof. split. intros. apply strip_prefix_Some. Qed.

Definition demo_key (a : string) : string := a +:+ "0123456789012345678901234567890".

Example Decrypt_survives_rotations_witness :
  let c := mkCrypto (demo_key "a") [] in
  Decrypt (foldl rotate c [demo_key "b"; "short"; demo_key "c"]) (Encrypt c "nonce0123456" "secret") = Ok "secret".
Proof.
  intros c.
  apply (proj1 (Decrypt_survives_rotations c "nonce0123456" "secret" [demo_key "b"; "short"; demo_key "c"] "" eq_refl)).
  intros k Hk Hne. apply list_elem_of_In in Hk. destruct Hk as [<-|[<-|[<-|[]]]]; [reflexivity..|by destruct Hne].
Defined.
