(* ===== verification/RsaUtil.v ===== *)
(** * RSA for passwords and tokens

    [src/scheduler/pkg/rsautil/rsautil.go].  The browser encrypts passwords
    with the public key; API tokens are stored under a fresh AES key which is
    itself encrypted with RSA.  [Rsa] stands for [crypto/rsa] and
    [crypto/x509]: keys are their encodings, [seed] the random bytes a call
    draws; its laws say which messages fit and that decryption undoes
    encryption.  Hexadecimal is written out; Base64 and AES-GCM are those of
    [Crypto].  Running out of random bytes is left out. *)
From Stdlib Require Import Ascii.
From S2P Require Import Prelude Crypto.

Class Rsa : Type := {
  EncryptPKCS1v15 : string → string → string → option string;
  DecryptPKCS1v15 : string → string → option string;
  ParsePKIXPublicKey : string → option string;
  ParsePKCS8PrivateKey : string → option string;
  message_size : string → nat;
  key_pair : string → string → Prop;
}.

Class RsaLaws (C : Rsa) : Prop := {
  encrypt_fits pub seed m : (String.length m ≤ message_size pub)%nat → is_Some (EncryptPKCS1v15 pub seed m);
  decrypt_encrypt priv pub seed m c :
    key_pair priv pub → EncryptPKCS1v15 pub seed m = Some c → DecryptPKCS1v15 priv c = Some m;
}.

(** ** [encoding/hex] *)
Definition hex_alphabet : string := "0123456789abcdef".
Definition hex_digit (n : N) : ascii := default "0"%char (String.get (N.to_nat n) hex_alphabet).
Definition hex_value (c : ascii) : option N :=
  let n := code c in
  if (48 <=? n)%N && (n <=? 57)%N then Some (n - 48)%N
  else if (97 <=? n)%N && (n <=? 102)%N then Some (n - 87)%N
  else if (65 <=? n)%N && (n <=? 70)%N then Some (n - 55)%N
  else None.
Fixpoint hex_encode (s : string) : string :=
  match s with
  | "" => ""
  | String c s => String (hex_digit (code c / 16)) (String (hex_digit (code c mod 16)) (hex_encode s))
  end.
Fixpoint hex_decode (s : string) : option string :=
  match s with
  | "" => Some ""
  | String a (String b s) => x ← hex_value a; y ← hex_value b; String (byte (x * 16 + y)) <$> hex_decode s
  | _ => None
  end.

(** [strings.SplitN(s, ".", 2)] with two parts. *)
Fixpoint cut_dot (s : string) : option (string * string) :=
  match s with
  | "" => None
  | String c s => if Ascii.eqb c "." then Some ("", s) else '(a, b) ← cut_dot s; Some (String c a, b)
  end.

Record RSAUtil : Type := mkRsa {
  publicKey : string; privateKey : option string; publicKeyB64 : string; privateKeyB64 : string;
}.

Inductive rsa_error : Type :=
| ErrPublicKeyEmpty | ErrPublicKey | ErrPrivateKey | ErrNoPrivateKey | ErrFormat | ErrHex | ErrRSA
| ErrBase64 | ErrAESKey | ErrShort | ErrGCM.

#[export] Instance rsa_error_eq_dec : EqDecision rsa_error.
Proof. solve_decision. Defined.

(** [return ..., fmt.Errorf(...)] *)
Definition orElse {A E} (e : E) (o : option A) : result E A := match o with Some a => Ok a | None => Err e end.
Definition andThen {A B E} (r : result E A) (f : A → result E B) : result E B :=
  match r with Ok a => f a | Err e => Err e end.
Notation "x '<-?' r ; k" := (andThen r (λ x, k)) (at level 20, r at level 100, k at level 200, right associativity, only parsing).

Section rsa.
Context `{Rsa, Aead}.

Definition parsePublicKey (b64 : string) : option string := raw ← decode b64; ParsePKIXPublicKey raw.
Definition parsePrivateKey (b64 : string) : option string := raw ← decode b64; ParsePKCS8PrivateKey raw.

Definition NewFromConfig (pubB64 privB64 : string) : result rsa_error RSAUtil :=
  if bool_decide (pubB64 = "") then Err ErrPublicKeyEmpty
  else
    pub <-? orElse ErrPublicKey (parsePublicKey pubB64);
    if bool_decide (privB64 = "") then Ok (mkRsa pub None pubB64 "")
    else
      priv <-? orElse ErrPrivateKey (parsePrivateKey privB64);
      Ok (mkRsa pub (Some priv) pubB64 privB64).

Definition HasPrivateKey (u : RSAUtil) : bool := match privateKey u with Some _ => true | None => false end.

Definition Encrypt (u : RSAUtil) (seed plaintext : string) : result rsa_error string :=
  c <-? orElse ErrRSA (EncryptPKCS1v15 (publicKey u) seed plaintext);
  Ok (hex_encode c).

Definition Decrypt (u : RSAUtil) (ciphertextHex : string) : result rsa_error string :=
  priv <-? orElse ErrNoPrivateKey (privateKey u);
  c <-? orElse ErrHex (hex_decode ciphertextHex);
  orElse ErrRSA (DecryptPKCS1v15 priv c).

(** [aes.NewCipher] takes keys of 16, 24 and 32 bytes. *)
Definition aes_key_ok (key : string) : bool := existsb (Nat.eqb (String.length key)) [16; 24; 32]%nat.

Definition EncryptLarge (u : RSAUtil) (aesKey seed nonce plaintext : string) : result rsa_error string :=
  k <-? orElse ErrRSA (EncryptPKCS1v15 (publicKey u) seed aesKey);
  if negb (aes_key_ok aesKey) then Err ErrAESKey
  else Ok (hex_encode k +:+ String "." (encode (nonce +:+ seal aesKey nonce plaintext))).

Definition DecryptLarge (u : RSAUtil) (ciphertext : string) : result rsa_error string :=
  priv <-? orElse ErrNoPrivateKey (privateKey u);
  parts <-? orElse ErrFormat (cut_dot ciphertext);
  encryptedAESKey <-? orElse ErrHex (hex_decode parts.1);
  aesKey <-? orElse ErrRSA (DecryptPKCS1v15 priv encryptedAESKey);
  bytes <-? orElse ErrBase64 (decode parts.2);
  if negb (aes_key_ok aesKey) then Err ErrAESKey
  else if Nat.ltb (String.length bytes) nonceSize then Err ErrShort
  else orElse ErrGCM (open aesKey (String.substring 0 nonceSize bytes)
                        (String.substring nonceSize (String.length bytes - nonceSize) bytes)).

Definition encrypted_mark : string := "RSA_ENCRYPTED:".
Definition DecryptConfigPassword (u : RSAUtil) (password : string) : result rsa_error string :=
  if String.prefix encrypted_mark password
  then Decrypt u (String.substring (String.length encrypted_mark)
                    (String.length password - String.length encrypted_mark) password)
  else Ok password.
End rsa.

(** ** Round trips *)
Lemma hex_value_digit n : (n < 16)%N → hex_value (hex_digit n) = Some n.
Proof.
  intros Hn. assert (Forall (λ n, hex_value (hex_digit n) = Some n) (N.of_nat <$> seq 0 16)) as Hall.
  { apply (bool_decide_unpack _). vm_compute. exact I. }
  rewrite Forall_forall in Hall. apply Hall, list_elem_of_fmap. exists (N.to_nat n). split; [lia|].
  apply elem_of_seq. lia.
Qed.
Lemma hex_digit_no_dot n : (n < 16)%N → Ascii.eqb (hex_digit n) "." = false.
Proof.
  intros Hn. assert (Forall (λ n, Ascii.eqb (hex_digit n) "." = false) (N.of_nat <$> seq 0 16)) as Hall.
  { apply (bool_decide_unpack _). vm_compute. exact I. }
  rewrite Forall_forall in Hall. apply Hall, list_elem_of_fmap. exists (N.to_nat n). split; [lia|].
  apply elem_of_seq. lia.
Qed.

Lemma nibbles c : (code c / 16 < 16)%N ∧ (code c mod 16 < 16)%N ∧ byte (code c / 16 * 16 + code c mod 16) = c.
Proof.
  pose proof (code_lt c). split_and!; [zify; Z.to_euclidean_division_equations; lia..|].
  apply code_byte. zify; Z.to_euclidean_division_equations; lia.
Qed.

Lemma hex_decode_encode s : hex_decode (hex_encode s) = Some s.
Proof.
  induction s as [|c s IH]; [done|]. destruct (nibbles c) as (H1 & H2 & H3). cbn [hex_encode hex_decode].
  rewrite !hex_value_digit by done. simpl. by rewrite H3, IH.
Qed.

Lemma cut_dot_hex s t : cut_dot (hex_encode s +:+ String "." t) = Some (hex_encode s, t).
Proof.
  induction s as [|c s IH]; [done|]. destruct (nibbles c) as (H1 & H2 & _).
  cbn [hex_encode]. rewrite !string_app_cons. cbn [cut_dot]. rewrite !hex_digit_no_dot by done. by rewrite IH.
Qed.

Section round_trips.
Context `{RsaLaws, AeadLaws}.

Definition matching (u : RSAUtil) : Prop := ∃ priv, privateKey u = Some priv ∧ key_pair priv (publicKey u).

Lemma EncryptLarge_DecryptLarge u aesKey seed nonce plaintext :
  matching u → (keySize ≤ message_size (publicKey u))%nat →
  String.length aesKey = keySize → String.length nonce = nonceSize →
  ∃ c, EncryptLarge u aesKey seed nonce plaintext = Ok c ∧ DecryptLarge u c = Ok plaintext.
Proof.
  intros (priv & Hp & Hk) Hsz Ha Hn. unfold EncryptLarge, DecryptLarge. rewrite Hp.
  destruct (encrypt_fits (publicKey u) seed aesKey) as [k Ek]; [by rewrite Ha|]. rewrite Ek. cbn [orElse andThen].
  unfold aes_key_ok. rewrite Ha. cbn [Nat.eqb existsb keySize negb orb]. eexists. split; [done|].
  rewrite cut_dot_hex. cbn [orElse andThen fst snd]. rewrite hex_decode_encode. cbn [orElse andThen].
  rewrite (decrypt_encrypt priv (publicKey u) seed aesKey k Hk Ek). cbn [orElse andThen].
  rewrite decode_encode. cbn [orElse andThen]. rewrite Ha. cbn [Nat.eqb existsb keySize negb orb].
  destruct (Nat.ltb_spec (String.length (nonce +:+ seal aesKey nonce plaintext)) nonceSize) as [Hlt|_].
  { rewrite string_length_app in Hlt. lia. }
  destruct (substring_prefix_app nonce nonceSize (seal aesKey nonce plaintext) Hn) as [-> ->].
  by rewrite (proj2 (open_seal aesKey nonce _ plaintext) eq_refl).
Qed.

Lemma Encrypt_Decrypt u seed plaintext :
  matching u → (String.length plaintext ≤ message_size (publicKey u))%nat →
  ∃ c, Encrypt u seed plaintext = Ok c ∧ Decrypt u c = Ok plaintext.
Proof.
  intros (priv & Hp & Hk) Hsz. unfold Encrypt, Decrypt. rewrite Hp.
  destruct (encrypt_fits (publicKey u) seed plaintext Hsz) as [c Ec]. rewrite Ec. cbn [orElse andThen].
  eexists. split; [done|]. rewrite hex_decode_encode. cbn [orElse andThen].
  by rewrite (decrypt_encrypt priv (publicKey u) seed plaintext c Hk Ec).
Qed.

(** What is encrypted is read back.  A text of any length survives
    [EncryptLarge] and [DecryptLarge], a text that fits the key survives
    [Encrypt] and [Decrypt], and a password of the configuration is read from
    its encrypted form as from its plain one. *)
Theorem rsa_roundtrip u aesKey seed nonce plaintext
    (Hu : matching u) (Hsz : (keySize ≤ message_size (publicKey u))%nat)
    (Ha : String.length aesKey = keySize) (Hn : String.length nonce = nonceSize) :
  (∃ c, EncryptLarge u aesKey seed nonce plaintext = Ok c ∧ DecryptLarge u c = Ok plaintext) ∧
  ((String.length plaintext ≤ message_size (publicKey u))%nat →
   ∃ c, Encrypt u seed plaintext = Ok c ∧ Decrypt u c = Ok plaintext ∧
        DecryptConfigPassword u (encrypted_mark +:+ c) = Ok plaintext) ∧
  (String.prefix encrypted_mark plaintext = false → DecryptConfigPassword u plaintext = Ok plaintext).
Proof.
  split; [by apply EncryptLarge_DecryptLarge|]. split.
  - intros Hlen. destruct (Encrypt_Decrypt u seed plaintext Hu Hlen) as (c & Ec & Dc). exists c. split; [done|].
    split; [done|]. unfold DecryptConfigPassword. rewrite prefix_app.
    by destruct (substring_prefix_app encrypted_mark _ c eq_refl) as [_ ->].
  - unfold DecryptConfigPassword. by intros ->.
Qed.
End round_trips.

(** ** Keys with these properties *)
#[export] Instance toy_rsa : Rsa := {|
  EncryptPKCS1v15 pub _ m := if Nat.leb (String.length m) 245 then Some (pub +:+ m) else None;
  DecryptPKCS1v15 priv c := strip_prefix priv c;
  ParsePKIXPublicKey raw := if bool_decide (raw = "") then None else Some raw;
  ParsePKCS8PrivateKey raw := if bool_decide (raw = "") then None else Some raw;
  message_size _ := 245%nat;
  key_pair priv pub := priv = pub;
|}.

#[export] Instance toy_rsa_laws : RsaLaws toy_rsa.
Proof.
  split.
  - intros pub seed m Hm. simpl in *. rewrite (proj2 (Nat.leb_le _ _)) by done. by eexists.
  - intros priv pub seed m c -> Hc. unfold EncryptPKCS1v15, toy_rsa in Hc. simpl.
    destruct (Nat.leb (String.length m) 245); [|done]. injection Hc as <-. by apply strip_prefix_Some.
Qed.

Definition demo_rsa : RSAUtil := mkRsa "K" (Some "K") "Sw==" "Sw==".

Example new_from_config : NewFromConfig "Sw==" "Sw==" = Ok demo_rsa ∧ NewFromConfig "" "Sw==" = Err ErrPublicKeyEmpty.
Proof. vm_compute. done. Qed.

Lemma rsa_roundtrip_witness :
  ∃ c, EncryptLarge demo_rsa (demo_key "k") "" "nonce0123456" "bdf_0123" = Ok c ∧ DecryptLarge demo_rsa c = Ok "bdf_0123".
Proof.
  refine (proj1 (rsa_roundtrip demo_rsa (demo_key "k") "" "nonce0123456" "bdf_0123" _ _ _ _));
    [by exists "K"|simpl; unfold keySize; lia|done|done].
Defined.
