(* ===== verification/Users.v ===== *)
(** * Users and domains

    [src/scheduler/internal/service/user_admin.go] and [domain_admin.go] with
    their handlers [src/scheduler/internal/handler/user_admin.go] and
    [domain_admin.go]: accounts, passwords, the roles and domains of a user,
    and who may change them.  Passwords arrive encrypted with RSA ([RsaUtil])
    and are stored as bcrypt hashes; [Bcrypt] stands for
    [golang.org/x/crypto/bcrypt].  Executors and tasks of a domain are counted
    only: [exec_domains] and [task_domains] hold their domains. *)
From Stdlib Require Import Ascii.
From S2P Require Import Prelude Sql Permission RsaUtil.

Class Bcrypt : Type := {
  GenerateFromPassword : string → string → option string;
  CompareHashAndPassword : string → string → bool;
}.
(** A hash belongs to the password it was made of, and to no other (the
    scheme's security, taken as a fact); the empty text is no hash. *)
Class BcryptLaws (B : Bcrypt) : Prop := {
  compare_generated salt p h q : GenerateFromPassword salt p = Some h → CompareHashAndPassword h q = bool_decide (q = p);
  compare_empty q : CompareHashAndPassword "" q = false;
  short_generated salt p : (String.length p ≤ 72)%nat → is_Some (GenerateFromPassword salt p);
}.

(** ** Tables *)
Record User : Type := mkUser {
  u_ID : Z; Username : string; Password : string; RealName : string; Phone : string; Email : string; IsActive : bool;
  LastLoginAt : option Z; CreatedBy : option Z; CreatedAt : Z; UpdatedAt : Z;
}.

Record APIToken : Type := mkAPIToken {
  tok_ID : Z; tok_UserID : Z; TokenEncrypted : string; TokenPrefix : string; LastUsedAt : option Z; tok_CreatedAt : Z;
}.

#[export] Instance User_eq_dec : EqDecision User.
Proof. solve_decision. Defined.

Record udb : Type := mkUdb {
  rbac : db; users : table User; api_tokens : table APIToken; exec_domains : list Z; task_domains : list Z;
}.
Implicit Types d : udb.

Inductive error : Type :=
| ErrDB | ErrUnique (column : string) | ErrRsa (e : rsa_error) | ErrBcrypt
| ErrPasswordTooShort | ErrPasswordTooLong | ErrPasswordWeak | ErrInvalidOldPassword | ErrWrongPassword
| ErrUserNotFound | ErrPermissionDenied | ErrDomainNotFound | ErrDomainHasResources
| ErrAPITokenNotFound | ErrAPITokenInvalid | ErrUserInactive.

#[export] Instance error_eq_dec : EqDecision error.
Proof. solve_decision. Defined.

Definition set_rbac (f : db → db) d : udb := mkUdb (f (rbac d)) (users d) (api_tokens d) (exec_domains d) (task_domains d).
Definition set_users (f : table User → table User) d : udb :=
  mkUdb (rbac d) (f (users d)) (api_tokens d) (exec_domains d) (task_domains d).
Definition set_tokens (f : table APIToken → table APIToken) d : udb :=
  mkUdb (rbac d) (users d) (f (api_tokens d)) (exec_domains d) (task_domains d).
Definition set_user_domains (f : table UserDomain → table UserDomain) d : udb :=
  set_rbac (λ r, mkDb (roles r) (permissions r) (user_roles r) (role_permissions r) (domains r) (f (user_domains r))) d.
Definition set_domains (f : table Domain → table Domain) d : udb :=
  set_rbac (λ r, mkDb (roles r) (permissions r) (user_roles r) (role_permissions r) (f (domains r)) (user_domains r)) d.

Definition select {A} (f : udb → A) : M udb (result error A) := or_err ErrDB (query f).
Definition write (f : udb → udb) : M udb (result error unit) := or_err ErrDB (exec f).
(** A statement a constraint may refuse: [f] says which. *)
Definition write_unique {A} (f : udb → result error (A * udb)) : M udb (result error A) :=
  o ← call (λ d, match f d with Ok (a, d') => (Ok a, d') | Err e => (Err e, d) end);
  mret (default (Err ErrDB) o).

(** A call of the permission service. *)
Definition perm {A} (m : M db (result Permission.error A)) : M udb (result error A) :=
  r ← zoom rbac (λ r d, mkUdb r (users d) (api_tokens d) (exec_domains d) (task_domains d)) m;
  mret match r with Ok a => Ok a | Err _ => Err ErrDB end.

(** [err] is not looked at. *)
Definition ignore {A} (m : M udb (result error A)) : M udb unit := _ ← m; mret tt.

(** ** Queries *)

(** What the queries without the password column return. *)
Definition public (u : User) : User :=
  mkUser (u_ID u) (Username u) "" (RealName u) (Phone u) (Email u) (IsActive u) (LastLoginAt u) None (CreatedAt u) (UpdatedAt u).
Definition with_password (u : User) : User :=
  mkUser (u_ID u) (Username u) (Password u) (RealName u) (Phone u) (Email u) (IsActive u) (LastLoginAt u) None (CreatedAt u) (UpdatedAt u).
Definition id_desc (u v : User) : bool := u_ID v <=? u_ID u.
Definition user_row (userID : Z) d : option User := head (where_ (λ u, u_ID u =? userID) (rows (users d))).

Definition ListUsers : M udb (result error (list User)) :=
  select (λ d, public <$> order_by id_desc (rows (users d))).
Definition GetUserByID (userID : Z) : M udb (result error (option User)) := select (λ d, with_password <$> user_row userID d).
Definition GetUserByUsername (username : string) : M udb (result error (option User)) :=
  select (λ d, public <$> head (where_ (λ u, bool_decide (Username u = username)) (rows (users d)))).
Definition GetUsersByDomain (domainID : Z) : M udb (result error (list User)) :=
  select (λ d, public <$> order_by id_desc
    (ud ← where_ (λ ud, ud_domain ud =? domainID) (rows (user_domains (rbac d)));
     where_ (λ u, u_ID u =? ud_user ud) (rows (users d)))).
Definition GetUserRoles (userID : Z) : M udb (result error (list Role)) :=
  select (λ d, (λ '(_, r), scan_role r) <$> where_ (λ '(ur, _), ur_user ur =? userID) (join_roles (rbac d))).

(** ** Passwords *)
Definition passwordMinLength : nat := 6.
Definition passwordMaxLength : nat := 30.

Definition letter (c : ascii) : bool :=
  let n := N_of_ascii c in ((97 <=? n) && (n <=? 122) || (65 <=? n) && (n <=? 90))%N.
Definition digit (c : ascii) : bool := let n := N_of_ascii c in ((48 <=? n) && (n <=? 57))%N.
(** The loop over the runes: those of more than one byte are neither letters
    nor digits, and none of their bytes is. *)
Definition validatePlaintextPassword (password : string) : result error unit :=
  let cs := String.list_ascii_of_string password in
  if Nat.ltb (String.length password) passwordMinLength then Err ErrPasswordTooShort
  else if Nat.ltb passwordMaxLength (String.length password) then Err ErrPasswordTooLong
  else if negb (existsb letter cs) || negb (existsb digit cs) then Err ErrPasswordWeak
  else Ok tt.

(** ** Roles and domains of a user *)

(** [UNIQUE(user_id, role_id, domain_id)]: rows without a domain never
    collide. *)
Definition insert_user_role (userID roleID : Z) (domainID : option Z) d : result error (unit * udb) :=
  if existsb (λ ur, (ur_user ur =? userID) && (ur_role ur =? roleID) &&
                    match domainID with Some i => bool_decide (ur_domain ur = Some i) | None => false end)
       (rows (user_roles (rbac d)))
  then Err (ErrUnique "user_roles")
  else Ok (tt, set_rbac (set_user_roles (insert_row (λ _, mkUserRole userID roleID domainID))) d).
(** [UNIQUE(user_id, domain_id)] *)
Definition insert_user_domain (userID domainID : Z) (isDefault : bool) d : result error (unit * udb) :=
  if existsb (λ ud, (ud_user ud =? userID) && (ud_domain ud =? domainID)) (rows (user_domains (rbac d)))
  then Err (ErrUnique "user_domains")
  else Ok (tt, set_user_domains (insert_row (λ _, mkUserDomain userID domainID isDefault)) d).

(** [for i, domainID := range domainIDs]: the first domain is the default. *)
Definition numbered (domainIDs : list Z) : list (Z * bool) := imap (λ i x, (x, Nat.eqb i 0)) domainIDs.

(** [for _, x := range xs { if err := f(x); err != nil { return err } }] *)
Fixpoint each {A} (f : A → M udb (result error unit)) (xs : list A) : M udb (result error unit) :=
  match xs with
  | [] => mret (Ok tt)
  | x :: xs => _ ←? f x; each f xs
  end.

Definition AssignUserRoles (userID : Z) (roleIDs : list Z) : M udb (result error unit) :=
  _ ←? write (set_rbac (set_user_roles (delete_where (λ ur, ur_user ur =? userID))));
  each (λ roleID, write_unique (insert_user_role userID roleID None)) roleIDs.
Definition AssignUserRolesWithDomain (userID : Z) (roleIDs : list Z) (domainID : option Z) : M udb (result error unit) :=
  _ ←? write (set_rbac (set_user_roles (delete_where (λ ur, ur_user ur =? userID))));
  each (λ roleID, write_unique (insert_user_role userID roleID domainID)) roleIDs.
Definition AssignUserDomains (userID : Z) (domainIDs : list Z) : M udb (result error unit) :=
  _ ←? write (set_user_domains (delete_where (λ ud, ud_user ud =? userID)));
  each (λ '(domainID, isDefault), write_unique (insert_user_domain userID domainID isDefault)) (numbered domainIDs).

Fixpoint AreRolesSystemOnly (roleIDs : list Z) : M udb (result error bool) :=
  match roleIDs with
  | [] => mret (Ok false)
  | roleID :: rest =>
      r ← perm (GetRoleCodeByID roleID);
      match r with
      | Err _ => AreRolesSystemOnly rest
      | Ok roleCode => if bool_decide (roleCode = "system_admin") then mret (Ok true) else AreRolesSystemOnly rest
      end
  end.

Definition AreDomainsAccessibleByUser (userID : Z) (domainIDs : list Z) : M udb (result error bool) :=
  match domainIDs with
  | [] => mret (Ok true)
  | _ => userDomainIDs ←? perm (GetUserDomainIDs userID); mret (Ok (forallb (λ i, in_list i userDomainIDs) domainIDs))
  end.

(** ** Accounts *)
Section service.
Context `{Rsa, Bcrypt} (rsaUtil : RSAUtil).

Definition decryptPassword (encrypted : string) : result error string :=
  match Decrypt rsaUtil encrypted with Ok p => Ok p | Err e => Err (ErrRsa e) end.
(** [decryptPassword], [validatePlaintextPassword], [GenerateFromPassword] *)
Definition hash_new_password (salt encrypted : string) : result error string :=
  p <-? decryptPassword encrypted;
  _ <-? validatePlaintextPassword p;
  orElse ErrBcrypt (GenerateFromPassword salt p).

(** [UNIQUE(username)] *)
Definition insert_user (now : Z) (username realName phone email hash : string) (createdBy : option Z) d : result error (Z * udb) :=
  if existsb (λ u, bool_decide (Username u = username)) (rows (users d)) then Err (ErrUnique "username")
  else
    let t := insert_row (λ id, mkUser id username hash realName phone email true None createdBy now now) (users d) in
    Ok (last_id t, set_users (λ _, t) d).

Definition CreateUser (now : Z) (salt username realName phone email password : string) (roleIDs domainIDs : list Z)
    (createdBy : Z) : M udb (result error (option User)) :=
  match hash_new_password salt password with
  | Err e => mret (Err e)
  | Ok hash =>
      userID ←? write_unique (insert_user now username realName phone email hash (Some createdBy));
      _ ← for_each roleIDs (λ roleID, ignore (write_unique (insert_user_role userID roleID None)));
      _ ← for_each (numbered domainIDs)
            (λ '(domainID, isDefault), ignore (write_unique (insert_user_domain userID domainID isDefault)));
      GetUserByID userID
  end.

Definition update_user (now userID : Z) (username realName phone email : string) (isActive : bool) d : result error (unit * udb) :=
  if existsb (λ u, u_ID u =? userID) (rows (users d)) &&
     existsb (λ u, bool_decide (Username u = username) && negb (u_ID u =? userID)) (rows (users d))
  then Err (ErrUnique "username")
  else Ok (tt, set_users (update_where (λ u, u_ID u =? userID)
         (λ u, mkUser (u_ID u) username (Password u) realName phone email isActive (LastLoginAt u) (CreatedBy u) (CreatedAt u) now)) d).

Definition UpdateUser (now userID : Z) (username realName phone email : string) (isActive : bool) :
    M udb (result error (option User)) :=
  _ ←? write_unique (update_user now userID username realName phone email isActive);
  GetUserByID userID.

Definition UpdateUserWithDomainCheck (now adminID userID : Z) (username realName phone email : string) (isActive : bool) :
    M udb (result error (option User)) :=
  user ←? GetUserByID userID;
  match user with
  | None => mret (Err ErrUserNotFound)
  | Some _ => UpdateUser now userID username realName phone email isActive
  end.

Definition DeleteUser (userID : Z) : M udb (result error unit) :=
  _ ← ignore (write (set_rbac (set_user_roles (delete_where (λ ur, ur_user ur =? userID)))));
  _ ← ignore (write (set_user_domains (delete_where (λ ud, ud_user ud =? userID))));
  write (set_users (delete_where (λ u, u_ID u =? userID))).

Definition touch_login (now : Z) (u : User) : User :=
  mkUser (u_ID u) (Username u) (Password u) (RealName u) (Phone u) (Email u) (IsActive u) (Some now) (CreatedBy u) (CreatedAt u) (UpdatedAt u).
Definition UpdateLastLogin (now userID : Z) : M udb (result error unit) :=
  write (set_users (update_where (λ u, u_ID u =? userID) (touch_login now))).

Definition set_password (now : Z) (hash : string) (u : User) : User :=
  mkUser (u_ID u) (Username u) hash (RealName u) (Phone u) (Email u) (IsActive u) (LastLoginAt u) (CreatedBy u) (CreatedAt u) now.
Definition store_password (now userID : Z) (hash : string) : M udb (result error unit) :=
  write (set_users (update_where (λ u, u_ID u =? userID) (set_password now hash))).

Definition ChangePassword (now userID : Z) (salt oldPassword newPassword : string) : M udb (result error unit) :=
  user ←? GetUserByID userID;
  match user with
  | None => mret (Err ErrUserNotFound)
  | Some user =>
      match decryptPassword oldPassword with
      | Err _ => mret (Err ErrInvalidOldPassword)
      | Ok old =>
          if negb (CompareHashAndPassword (Password user) old) then mret (Err ErrInvalidOldPassword)
          else match hash_new_password salt newPassword with
               | Err e => mret (Err e)
               | Ok hash => store_password now userID hash
               end
      end
  end.

Definition ResetPassword (now userID : Z) (salt newPassword : string) : M udb (result error unit) :=
  match hash_new_password salt newPassword with
  | Err e => mret (Err e)
  | Ok hash => store_password now userID hash
  end.

Definition ResetUserPasswordWithDomainCheck (now adminID userID : Z) (salt newPassword : string) : M udb (result error unit) :=
  user ←? GetUserByID userID;
  match user with
  | None => mret (Err ErrUserNotFound)
  | Some _ => ResetPassword now userID salt newPassword
  end.

Definition UpdateCurrentUser (now userID : Z) (realName phone email : string) : M udb (result error (option User)) :=
  user ←? GetUserByID userID;
  match user with
  | None => mret (Err ErrUserNotFound)
  | Some user => UpdateUser now userID (Username user) realName phone email (IsActive user)
  end.
End service.

(** ** Lists with roles and domains *)

(** [result[k] = append(result[k], v)] over the rows of a query. *)
Definition grouped {A} (l : list (Z * A)) : gmap Z (list A) :=
  foldl (λ m '(k, v), <[k := default [] (m !! k) ++ [v]]> m) ∅ l.
Definition BatchGetUserRoleIDs : M udb (result error (gmap Z (list Z))) :=
  select (λ d, grouped ((λ ur, (ur_user ur, ur_role ur)) <$> rows (user_roles (rbac d)))).
Definition BatchGetUserDomainIDs : M udb (result error (gmap Z (list Z))) :=
  select (λ d, grouped ((λ ud, (ud_user ud, ud_domain ud)) <$> rows (user_domains (rbac d)))).
Definition BatchGetUserRoleCodes : M udb (result error (gmap Z (list string))) :=
  select (λ d, grouped ((λ '(ur, r), (ur_user ur, role_Code r)) <$> join_roles (rbac d))).
Definition getDomainNameMap : M udb (result error (gmap Z string)) :=
  select (λ d, foldl (λ m dom, if (0 <? dom_ID dom) && negb (bool_decide (dom_Name dom = "")) then <[dom_ID dom := dom_Name dom]> m else m)
                 ∅ (rows (domains (rbac d)))).

Record enriched : Type := mkEnriched {
  en_user : User; RoleIDs : list Z; DomainIDs : list Z; DomainNames : list string; RoleCodes : list string;
}.
Definition found {A} (r : result error (gmap Z (list A))) (id : Z) : list A :=
  match r with Ok m => default [] (m !! id) | Err _ => [] end.
Definition EnrichUsersWithRolesAndDomains (us : list User) : M udb (list enriched) :=
  match us with
  | [] => mret []
  | _ =>
      roleIDs ← BatchGetUserRoleIDs;
      domainIDs ← BatchGetUserDomainIDs;
      roleCodes ← BatchGetUserRoleCodes;
      names ← getDomainNameMap;
      mret ((λ u, mkEnriched u (found roleIDs (u_ID u)) (found domainIDs (u_ID u))
               (match names with Ok m => omap (λ i, m !! i) (found domainIDs (u_ID u)) | Err _ => [] end)
               (found roleCodes (u_ID u))) <$> us)
  end.

(** ** Domains: [domain_admin.go] *)
Record DomainWithStats : Type := mkStats { dws_Domain : Domain; UserCount : Z; ExecutorCount : Z; TaskCount : Z }.
Definition with_stats d (dom : Domain) : DomainWithStats :=
  mkStats dom (count (λ ud, ud_domain ud =? dom_ID dom) (rows (user_domains (rbac d))))
    (count (Z.eqb (dom_ID dom)) (exec_domains d)) (count (Z.eqb (dom_ID dom)) (task_domains d)).
Definition id_asc (a b : Domain) : bool := dom_ID a <=? dom_ID b.

Definition ListDomainsByUser (userID : Z) : M udb (result error (list DomainWithStats)) :=
  select (λ d, with_stats d <$> order_by id_asc
    (ud ← where_ (λ ud, ud_user ud =? userID) (rows (user_domains (rbac d)));
     where_ (λ dom, dom_ID dom =? ud_domain ud) (rows (domains (rbac d))))).
Definition ListDomains : M udb (result error (list DomainWithStats)) :=
  select (λ d, with_stats d <$> order_by id_asc (rows (domains (rbac d)))).
Definition domain_row (domainID : Z) d : option Domain := head (where_ (λ dom, dom_ID dom =? domainID) (rows (domains (rbac d)))).
Definition GetDomain (domainID : Z) : M udb (result error (option DomainWithStats)) :=
  select (λ d, with_stats d <$> domain_row domainID d).
Definition GetDomainByID (domainID : Z) : M udb (result error (option Domain)) := select (domain_row domainID).

(** [UNIQUE(name)] *)
Definition insert_domain (name description : string) d : result error (Z * udb) :=
  if existsb (λ dom, bool_decide (dom_Name dom = name)) (rows (domains (rbac d))) then Err (ErrUnique "name")
  else
    let t := insert_row (λ id, mkDomain id name description) (domains (rbac d)) in
    Ok (last_id t, set_domains (λ _, t) d).
Definition CreateDomain (name description : string) : M udb (result error (option Domain)) :=
  domainID ←? write_unique (insert_domain name description);
  GetDomainByID domainID.
Definition update_domain (domainID : Z) (name description : string) d : result error (unit * udb) :=
  if existsb (λ dom, dom_ID dom =? domainID) (rows (domains (rbac d))) &&
     existsb (λ dom, bool_decide (dom_Name dom = name) && negb (dom_ID dom =? domainID)) (rows (domains (rbac d)))
  then Err (ErrUnique "name")
  else Ok (tt, set_domains (update_where (λ dom, dom_ID dom =? domainID) (λ dom, mkDomain (dom_ID dom) name description)) d).
Definition UpdateDomain (domainID : Z) (name description : string) : M udb (result error (option Domain)) :=
  _ ←? write_unique (update_domain domainID name description);
  GetDomainByID domainID.
Definition DeleteDomain (domainID : Z) : M udb (result error unit) :=
  domain ←? GetDomain domainID;
  match domain with
  | None => mret (Err ErrDomainNotFound)
  | Some dom =>
      if (0 <? UserCount dom) || (0 <? ExecutorCount dom) || (0 <? TaskCount dom) then mret (Err ErrDomainHasResources)
      else write (set_domains (delete_where (λ dom, dom_ID dom =? domainID)))
  end.

(** ** The handlers

    [operator] is what the middleware put into the context: the user, its role
    ("" when it could not be read) and its current domain.  Requests are
    decoded and checked by the binding; [None] is one it refuses, and an
    identifier that does not parse is 0. *)
Record operator : Type := mkOperator { op_id : Z; op_role : string; op_domain : Z }.
Definition privileged (op : operator) : bool := bool_decide (op_role op = "system_admin") || bool_decide (op_role op = "admin").

Inductive reply (A : Type) : Type :=
| BadRequest (message : string)
| Unauthorized (message : string)
| Forbidden (message : string)
| NotFound (message : string)
| Fail (code : Z) (message : string)
| FailFromError (e : error)
| Success (a : A).
Arguments BadRequest {A}.
Arguments Unauthorized {A}.
Arguments Forbidden {A}.
Arguments NotFound {A}.
Arguments Fail {A}.
Arguments FailFromError {A}.
Arguments Success {A}.

Definition CodeBadRequest : Z := 400.
Definition CodeInternalError : Z := 500.

Definition getUserFriendlyError {A} (e : error) : reply A :=
  match e with
  | ErrUnique column =>
      Fail CodeBadRequest
        (if bool_decide (column = "username") then "用户名已存在"
         else if bool_decide (column = "email") then "邮箱已被使用" else "数据已存在，请检查后重试")
  | _ => Fail CodeInternalError "操作失败，请稍后重试"
  end.
(** The cases every handler that stores a password shares. *)
Definition password_error {A} (e : error) : reply A :=
  match e with
  | ErrPasswordTooShort => BadRequest "密码长度至少为6位"
  | ErrPasswordTooLong => BadRequest "密码长度不能超过30位"
  | ErrPasswordWeak => BadRequest "密码必须包含字母和数字"
  | _ => getUserFriendlyError e
  end.

Record CreateUserRequest : Type := mkCreateUser {
  cu_Username : string; cu_RealName : string; cu_Phone : string; cu_Email : string; cu_Password : string;
  cu_DomainIDs : list Z; cu_RoleIDs : list Z;
}.
Record UpdateUserRequest : Type := mkUpdateUser {
  uu_Username : string; uu_RealName : string; uu_Phone : string; uu_Email : string; uu_IsActive : bool;
  uu_RoleIDs : list Z; uu_DomainIDs : list Z;
}.

(** The two checks on operators who are no administrators: the refusal, if
    any. *)
Definition check_roles {A} (op : operator) (roleIDs : list Z) : M udb (option (reply A)) :=
  if privileged op then mret None
  else
    r ← AreRolesSystemOnly roleIDs;
    mret match r with
         | Err _ => Some (Fail CodeInternalError "检查角色失败")
         | Ok true => Some (Forbidden "领域管理员不能分配系统管理员角色")
         | Ok false => None
         end.
Definition check_domains {A} (op : operator) (domainIDs : list Z) : M udb (option (reply A)) :=
  if privileged op then mret None
  else
    r ← AreDomainsAccessibleByUser (op_id op) domainIDs;
    mret match r with
         | Err _ => Some (Fail CodeInternalError "检查领域权限失败")
         | Ok false => Some (Forbidden "只能分配自己所属的领域")
         | Ok true => None
         end.
(** [if refused { return }] *)
Definition unless {A} (m : M udb (option (reply A))) (k : M udb (reply A)) : M udb (reply A) :=
  o ← m; match o with Some r => mret r | None => k end.

Definition is_admin_or_false (op : operator) : M udb bool :=
  if 0 <? op_id op then r ← perm (IsSystemAdmin (op_id op)); mret match r with Ok b => b | Err _ => false end
  else mret false.
Definition list_reply (m : M udb (result error (list User))) : M udb (reply (list enriched)) :=
  r ← m;
  match r with
  | Err _ => mret (Fail CodeInternalError "加载用户列表失败，请稍后重试")
  | Ok us => es ← EnrichUsersWithRolesAndDomains us; mret (Success es)
  end.

Definition h_ListUsers (op : operator) : M udb (reply (list enriched)) :=
  isAdmin ← is_admin_or_false op;
  list_reply (if (isAdmin : bool) then ListUsers else if 0 <? op_domain op then GetUsersByDomain (op_domain op) else ListUsers).
(** [domain_id]: [None] when it is missing or not a number. *)
Definition h_ListUsersByDomain (op : operator) (domain_id : option Z) : M udb (reply (list enriched)) :=
  isAdmin ← is_admin_or_false op;
  let queryAll := (isAdmin : bool) && bool_decide (domain_id = Some 0) in
  let domainID := match domain_id with Some i => if 0 <? i then i else op_domain op | None => op_domain op end in
  list_reply (if queryAll then ListUsers else if 0 <? domainID then GetUsersByDomain domainID else ListUsers).

(** [user.Password = ""] *)
Definition blank_password (u : User) : User :=
  mkUser (u_ID u) (Username u) "" (RealName u) (Phone u) (Email u) (IsActive u) (LastLoginAt u) (CreatedBy u) (CreatedAt u) (UpdatedAt u).

Definition h_GetUser (id : Z) : M udb (reply (User * list Role)) :=
  if id <=? 0 then mret (BadRequest "无效的用户ID")
  else
    r ← GetUserByID id;
    match r with
    | Err _ => mret (Fail CodeInternalError "获取用户信息失败，请稍后重试")
    | Ok None => mret (NotFound "用户不存在")
    | Ok (Some u) =>
        rs ← GetUserRoles id;
        mret (Success (blank_password u, match rs with Ok l => l | Err _ => [] end))
    end.
Definition h_GetUserRoles (id : Z) : M udb (reply (list Role)) :=
  if id <=? 0 then mret (BadRequest "无效的用户ID")
  else
    r ← GetUserRoles id;
    mret match r with Ok l => Success l | Err _ => Fail CodeInternalError "获取用户角色失败，请稍后重试" end.

Section handlers.
Context `{Rsa, Bcrypt} (rsaUtil : RSAUtil).

Definition h_CreateUser (now : Z) (salt : string) (op : operator) (req : option CreateUserRequest) : M udb (reply User) :=
  match req with
  | None => mret (BadRequest "")
  | Some req =>
      unless (check_roles op (cu_RoleIDs req))
      (unless (check_domains op (cu_DomainIDs req))
      (r ← CreateUser rsaUtil now salt (cu_Username req) (cu_RealName req) (cu_Phone req) (cu_Email req) (cu_Password req)
             (cu_RoleIDs req) (cu_DomainIDs req) (op_id op);
       mret match r with
            | Err e => password_error e
            | Ok (Some u) => Success (blank_password u)
            | Ok None => Fail CodeInternalError "服务异常，请稍后重试"
            end))
  end.

Definition update_roles (op : operator) (id : Z) (roleIDs : list Z) : M udb (option (reply (option enriched))) :=
  match roleIDs with
  | [] => mret None
  | _ =>
      o ← check_roles op roleIDs;
      match o with
      | Some r => mret (Some r)
      | None =>
          r ← AssignUserRoles id roleIDs;
          mret match r with Err _ => Some (Fail CodeInternalError "更新用户角色失败") | Ok _ => None end
      end
  end.
Definition update_domains (op : operator) (id : Z) (domainIDs : list Z) : M udb (option (reply (option enriched))) :=
  match domainIDs with
  | [] => mret None
  | _ =>
      o ← check_domains op domainIDs;
      match o with
      | Some r => mret (Some r)
      | None =>
          r ← AssignUserDomains id domainIDs;
          mret match r with Err _ => Some (Fail CodeInternalError "更新用户领域失败") | Ok _ => None end
      end
  end.
Definition h_UpdateUser (now : Z) (op : operator) (id : Z) (req : option UpdateUserRequest) : M udb (reply (option enriched)) :=
  if id <=? 0 then mret (BadRequest "无效的用户ID")
  else
    match req with
    | None => mret (BadRequest "")
    | Some req =>
        r ← UpdateUserWithDomainCheck now (op_id op) id (uu_Username req) (uu_RealName req) (uu_Phone req) (uu_Email req)
              (uu_IsActive req);
        match r with
        | Err ErrPermissionDenied => mret (Forbidden "权限不足，无法修改此用户")
        | Err ErrUserNotFound => mret (NotFound "用户不存在")
        | Err e => mret (getUserFriendlyError e)
        | Ok _ =>
            unless (update_roles op id (uu_RoleIDs req))
            (unless (update_domains op id (uu_DomainIDs req))
            (u ← GetUserByID id;
             match u with
             | Ok (Some u) => es ← EnrichUsersWithRolesAndDomains [blank_password u]; mret (Success (head es))
             | _ => mret (Success None)
             end))
        end
    end.

Definition h_DeleteUser (id : Z) : M udb (reply unit) :=
  if id <=? 0 then mret (BadRequest "无效的用户ID")
  else
    _ ← GetUserByID id;
    r ← DeleteUser id;
    mret match r with Ok _ => Success tt | Err e => getUserFriendlyError e end.

Definition h_AssignUserRoles (op : operator) (id : Z) (roleIDs : option (list Z)) : M udb (reply unit) :=
  if id <=? 0 then mret (BadRequest "无效的用户ID")
  else
    match roleIDs with
    | None => mret (BadRequest "")
    | Some roleIDs =>
        unless (check_roles op roleIDs)
        (r ← AssignUserRoles id roleIDs;
         mret match r with Ok _ => Success tt | Err e => getUserFriendlyError e end)
    end.
Definition h_AssignUserDomains (op : operator) (id : Z) (domainIDs : option (list Z)) : M udb (reply unit) :=
  if id <=? 0 then mret (BadRequest "无效的用户ID")
  else
    match domainIDs with
    | None => mret (BadRequest "")
    | Some domainIDs =>
        unless (check_domains op domainIDs)
        (r ← AssignUserDomains id domainIDs;
         mret match r with Ok _ => Success tt | Err e => getUserFriendlyError e end)
    end.

Definition h_GetCurrentUser (op : operator) : M udb (reply User) :=
  r ← GetUserByID (op_id op);
  mret match r with
       | Err _ => Fail CodeInternalError "获取用户信息失败，请稍后重试"
       | Ok None => NotFound "用户不存在"
       | Ok (Some u) => Success (blank_password u)
       end.
Definition h_UpdateCurrentUser (now : Z) (op : operator) (req : option (string * string * string)) : M udb (reply (option User)) :=
  match req with
  | None => mret (BadRequest "")
  | Some (realName, phone, email) =>
      r ← UpdateCurrentUser now (op_id op) realName phone email;
      mret match r with Ok o => Success (blank_password <$> o) | Err e => getUserFriendlyError e end
  end.
Definition h_ChangePassword (now : Z) (salt : string) (op : operator) (req : option (string * string)) : M udb (reply unit) :=
  match req with
  | None => mret (BadRequest "")
  | Some (oldPassword, newPassword) =>
      r ← ChangePassword rsaUtil now (op_id op) salt oldPassword newPassword;
      mret match r with
           | Ok _ => Success tt
           | Err ErrWrongPassword => BadRequest "原密码错误"
           | Err e => password_error e
           end
  end.
Definition h_ResetUserPassword (now : Z) (salt : string) (op : operator) (id : Z) (req : option string) : M udb (reply unit) :=
  if id <=? 0 then mret (BadRequest "无效的用户ID")
  else
    match req with
    | None => mret (BadRequest "")
    | Some newPassword =>
        r ← ResetUserPasswordWithDomainCheck rsaUtil now (op_id op) id salt newPassword;
        mret match r with
             | Ok _ => Success tt
             | Err ErrPermissionDenied => Forbidden "权限不足，只能管理本领域用户"
             | Err ErrUserNotFound => NotFound "目标用户不存在"
             | Err e => password_error e
             end
    end.
End handlers.

(** *** [handler/domain_admin.go] *)
Definition h_ListDomains (op : operator) : M udb (reply (list DomainWithStats)) :=
  isAdmin ← is_admin_or_false op;
  r ← (if (isAdmin : bool) then ListDomains else ListDomainsByUser (op_id op));
  mret match r with Ok l => Success l | Err e => FailFromError e end.
Definition found_or {A} (message : string) (r : result error (option A)) : reply A :=
  match r with Ok (Some a) => Success a | Ok None => NotFound message | Err e => FailFromError e end.
Definition h_GetDomain (id : Z) : M udb (reply DomainWithStats) :=
  if id <=? 0 then mret (BadRequest "id must be positive")
  else r ← GetDomain id; mret (found_or "domain not found" r).
Definition h_CreateDomain (req : option (string * string)) : M udb (reply (option Domain)) :=
  match req with
  | None => mret (BadRequest "")
  | Some (name, description) =>
      r ← CreateDomain name description;
      mret match r with Ok o => Success o | Err e => FailFromError e end
  end.
Definition h_UpdateDomain (id : Z) (req : option (string * string)) : M udb (reply Domain) :=
  if id <=? 0 then mret (BadRequest "id must be positive")
  else
    match req with
    | None => mret (BadRequest "")
    | Some (name, description) => r ← UpdateDomain id name description; mret (found_or "domain not found" r)
    end.
Definition h_DeleteDomain (id : Z) : M udb (reply unit) :=
  if id <=? 0 then mret (BadRequest "id must be positive")
  else
    r ← DeleteDomain id;
    mret match r with
         | Ok _ => Success tt
         | Err ErrDomainHasResources => BadRequest "domain has associated resources"
         | Err ErrDomainNotFound => NotFound "domain not found"
         | Err e => FailFromError e
         end.

(** ** What the handlers keep *)
Lemma preserves_query_udb {A} I (f : udb → A) : preserves I (query f).
Proof. apply preserves_call. by intros. Qed.
Lemma preserves_select_udb {A} I (f : udb → A) : preserves I (select f).
Proof. unfold select, or_err. repeat preserves_step. apply preserves_query_udb. Qed.
Lemma preserves_write_udb I f : (∀ d, I d → I (f d)) → preserves I (write f).
Proof. intros Hf. unfold write, or_err, exec. repeat preserves_step. apply preserves_call. intros d. apply Hf. Qed.
Lemma preserves_write_unique {A} I (f : udb → result error (A * udb)) :
  (∀ d a d', I d → f d = Ok (a, d') → I d') → preserves I (write_unique f).
Proof.
  intros Hf. unfold write_unique. repeat preserves_step. apply preserves_call. intros d Hd.
  destruct (f d) as [[a d']|e] eqn:E; [by eapply Hf|done].
Qed.

(** A query of the permission service. *)
Definition quiet {A} (m : M db A) : Prop := ∀ r fs, (m r fs).2.1 = r.
Lemma answers_quiet {A} e (m : M db (result Permission.error A)) f : answers e m f → quiet m.
Proof. intros Hm r fs. destruct (Hm r fs) as (fs' & [->|[-> _]] & _); done. Qed.
Lemma preserves_perm {A} I (m : M db (result Permission.error A)) : quiet m → preserves I (perm m).
Proof.
  intros Hm. unfold perm. repeat preserves_step. intros d fs Hd. unfold zoom. pose proof (Hm (rbac d) fs) as E.
  destruct (m (rbac d) fs) as [a [r fs']]. simpl in *. subst r. by destruct d.
Qed.

Lemma quiet_select {A} (f : db → A) : quiet (Permission.select f).
Proof. eapply answers_quiet, answers_query. Qed.
Lemma quiet_bind {A B} (m : M db (result Permission.error A)) (k : A → M db (result Permission.error B)) :
  quiet m → (∀ a, quiet (k a)) → quiet (bind_ok m k).
Proof.
  intros Hm Hk r fs. unfold bind_ok. rewrite run_bind. specialize (Hm r fs).
  destruct (m r fs) as [[a|e] [r' fs']]; simpl in *; subst; [apply Hk|done].
Qed.
Lemma quiet_ret {A} (a : A) : quiet (mret a).
Proof. done. Qed.

Lemma quiet_GetRoleCodeByID id : quiet (GetRoleCodeByID id).
Proof. apply quiet_bind; [apply quiet_select|]. intros o. apply quiet_ret. Qed.
Lemma quiet_IsSystemAdmin id : quiet (IsSystemAdmin id).
Proof. apply quiet_bind; [apply quiet_select|]. intros o. apply quiet_ret. Qed.
Lemma quiet_GetUserDomainIDs id : quiet (GetUserDomainIDs id).
Proof. apply quiet_select. Qed.

Create HintDb users.
#[export] Hint Resolve preserves_perm quiet_GetRoleCodeByID quiet_IsSystemAdmin quiet_GetUserDomainIDs : users.

(** [users] also holds what the checks and lists keep: every predicate. *)
Ltac users_step := first
  [ preserves_step
  | match goal with
    | |- preserves _ (bind_ok _ _) => unfold bind_ok
    | |- preserves _ (ignore _) => unfold ignore
    | |- preserves _ (unless _ _) => unfold unless
    | |- preserves _ (select _) => apply preserves_select_udb
    | |- preserves _ (GetUserByID _) => apply preserves_select_udb
    | |- preserves _ _ => solve [auto with users nocore]
    end ].

Lemma preserves_each {A} I (f : A → M udb (result error unit)) xs : (∀ x, preserves I (f x)) → preserves I (each f xs).
Proof. intros Hf. induction xs as [|x xs IH]; simpl; repeat users_step; auto. Qed.

Lemma preserves_AreRolesSystemOnly I roleIDs : preserves I (AreRolesSystemOnly roleIDs).
Proof. induction roleIDs as [|r rs IH]; simpl; repeat users_step; auto. Qed.
Lemma preserves_check_roles {A} I op roleIDs : preserves I (check_roles (A := A) op roleIDs).
Proof. unfold check_roles. repeat users_step. apply preserves_AreRolesSystemOnly. Qed.
Lemma preserves_check_domains {A} I op domainIDs : preserves I (check_domains (A := A) op domainIDs).
Proof. unfold check_domains, AreDomainsAccessibleByUser. repeat users_step. Qed.
Lemma preserves_Enrich I us : preserves I (EnrichUsersWithRolesAndDomains us).
Proof.
  unfold EnrichUsersWithRolesAndDomains, BatchGetUserRoleIDs, BatchGetUserDomainIDs, BatchGetUserRoleCodes, getDomainNameMap.
  repeat users_step.
Qed.
#[export] Hint Resolve preserves_AreRolesSystemOnly preserves_check_roles preserves_check_domains preserves_Enrich : users.

(** [closed I] is the interface between an invariant of the tables and the
    handlers: [I] survives each elementary write.  Every handler then keeps
    it, whatever fails. *)
Section closed.
Context `{Rsa, Bcrypt}.

(** A stored password: a hash of an acceptable one, or none. *)
Definition hashed (h : string) : Prop :=
  h = "" ∨ ∃ salt p, validatePlaintextPassword p = Ok tt ∧ GenerateFromPassword salt p = Some h.

Record closed (I : udb → Prop) : Prop := {
  c_insert_user now username realName phone email hash createdBy d id d' : hashed hash → I d →
    insert_user now username realName phone email hash createdBy d = Ok (id, d') → I d';
  c_update_user now id username realName phone email isActive d u d' : I d →
    update_user now id username realName phone email isActive d = Ok (u, d') → I d';
  c_password now id hash d : hashed hash → I d → I (set_users (update_where (λ u, u_ID u =? id) (set_password now hash)) d);
  c_login now id d : I d → I (set_users (update_where (λ u, u_ID u =? id) (touch_login now)) d);
  c_delete_user id d : I d → I (set_users (delete_where (λ u, u_ID u =? id)) d);
  c_delete_roles id d : I d → I (set_rbac (set_user_roles (delete_where (λ ur, ur_user ur =? id))) d);
  c_insert_role id roleID domainID d u d' : I d → insert_user_role id roleID domainID d = Ok (u, d') → I d';
  c_delete_domains id d : I d → I (set_user_domains (delete_where (λ ud, ud_user ud =? id)) d);
  c_insert_user_domain id domainID b d u d' : I d → insert_user_domain id domainID b d = Ok (u, d') → I d';
  c_insert_domain name description d id d' : I d → insert_domain name description d = Ok (id, d') → I d';
  c_update_domain id name description d u d' : I d → update_domain id name description d = Ok (u, d') → I d';
  c_delete_domain id d : I d → I (set_domains (delete_where (λ dom, dom_ID dom =? id)) d);
}.

Lemma hash_new_password_hashed rsaUtil salt encrypted h : hash_new_password rsaUtil salt encrypted = Ok h → hashed h.
Proof.
  unfold hash_new_password. destruct (decryptPassword rsaUtil encrypted) as [p|]; [|done]. simpl.
  destruct (validatePlaintextPassword p) as [[]|] eqn:Ev; [|done]. simpl.
  destruct (GenerateFromPassword salt p) as [h'|] eqn:Eg; [|done]. intros [= <-]. right. by exists salt, p.
Qed.
End closed.

Section kept.
Context `{Rsa, Bcrypt} (rsaUtil : RSAUtil) (I : udb → Prop) (HI : closed I).

Lemma preserves_CreateUser now salt username realName phone email password roleIDs domainIDs createdBy :
  preserves I (CreateUser rsaUtil now salt username realName phone email password roleIDs domainIDs createdBy).
Proof.
  unfold CreateUser. destruct (hash_new_password rsaUtil salt password) as [hash|e] eqn:Eh; [|apply preserves_ret].
  apply hash_new_password_hashed in Eh. repeat users_step.
  - apply preserves_write_unique. intros d id d'. by apply (c_insert_user I HI).
  - apply preserves_write_unique. intros d id d'. apply (c_insert_role I HI).
  - apply preserves_write_unique. intros d id d'. apply (c_insert_user_domain I HI).
Qed.

Lemma preserves_UpdateUser now id username realName phone email isActive :
  preserves I (UpdateUser now id username realName phone email isActive).
Proof. unfold UpdateUser. repeat users_step. apply preserves_write_unique. intros d u d'. apply (c_update_user I HI). Qed.
Lemma preserves_DeleteUser id : preserves I (DeleteUser id).
Proof.
  unfold DeleteUser. repeat users_step; apply preserves_write_udb; intros d;
    [apply (c_delete_roles I HI)|apply (c_delete_domains I HI)|apply (c_delete_user I HI)].
Qed.
Lemma preserves_store_password now id salt encrypted hash :
  hash_new_password rsaUtil salt encrypted = Ok hash → preserves I (store_password now id hash).
Proof. intros Hh%hash_new_password_hashed. apply preserves_write_udb. intros d. by apply (c_password I HI). Qed.
Lemma preserves_ResetPassword now id salt newPassword : preserves I (ResetPassword rsaUtil now id salt newPassword).
Proof. unfold ResetPassword. repeat users_step. by eapply preserves_store_password. Qed.
Lemma preserves_ChangePassword now id salt oldPassword newPassword :
  preserves I (ChangePassword rsaUtil now id salt oldPassword newPassword).
Proof. unfold ChangePassword. repeat users_step. by eapply preserves_store_password. Qed.
Lemma preserves_UpdateLastLogin now id : preserves I (UpdateLastLogin now id).
Proof. apply preserves_write_udb. intros d. apply (c_login I HI). Qed.

Lemma preserves_AssignUserRoles id roleIDs : preserves I (AssignUserRoles id roleIDs).
Proof.
  unfold AssignUserRoles. repeat users_step; [apply preserves_write_udb; intros d; apply (c_delete_roles I HI)|].
  apply preserves_each. intros r. apply preserves_write_unique. intros d u d'. apply (c_insert_role I HI).
Qed.
Lemma preserves_AssignUserDomains id domainIDs : preserves I (AssignUserDomains id domainIDs).
Proof.
  unfold AssignUserDomains. repeat users_step; [apply preserves_write_udb; intros d; apply (c_delete_domains I HI)|].
  apply preserves_each. intros [i b]. apply preserves_write_unique. intros d u d'. apply (c_insert_user_domain I HI).
Qed.

Lemma preserves_CreateDomain name description : preserves I (CreateDomain name description).
Proof.
  unfold CreateDomain, GetDomainByID. repeat users_step. apply preserves_write_unique. intros d id d'.
  apply (c_insert_domain I HI).
Qed.
Lemma preserves_UpdateDomain id name description : preserves I (UpdateDomain id name description).
Proof.
  unfold UpdateDomain, GetDomainByID. repeat users_step. apply preserves_write_unique. intros d u d'.
  apply (c_update_domain I HI).
Qed.
Lemma preserves_DeleteDomain id : preserves I (DeleteDomain id).
Proof. unfold DeleteDomain, GetDomain. repeat users_step. apply preserves_write_udb. intros ?. apply (c_delete_domain I HI). Qed.
End kept.

#[export] Hint Resolve preserves_CreateUser preserves_UpdateUser preserves_DeleteUser preserves_ResetPassword
  preserves_ChangePassword preserves_UpdateLastLogin preserves_AssignUserRoles preserves_AssignUserDomains
  preserves_CreateDomain preserves_UpdateDomain preserves_DeleteDomain : users.

(** The requests of the two handlers that write. *)
Inductive admin_request : Type :=
| RCreateUser (now : Z) (salt : string) (op : operator) (req : option CreateUserRequest)
| RUpdateUser (now : Z) (op : operator) (id : Z) (req : option UpdateUserRequest)
| RDeleteUser (id : Z)
| RAssignUserRoles (op : operator) (id : Z) (roleIDs : option (list Z))
| RAssignUserDomains (op : operator) (id : Z) (domainIDs : option (list Z))
| RUpdateCurrentUser (now : Z) (op : operator) (req : option (string * string * string))
| RChangePassword (now : Z) (salt : string) (op : operator) (req : option (string * string))
| RResetUserPassword (now : Z) (salt : string) (op : operator) (id : Z) (req : option string)
| RCreateDomain (req : option (string * string))
| RUpdateDomain (id : Z) (req : option (string * string))
| RDeleteDomain (id : Z).

Section requests.
Context `{Rsa, Bcrypt} (rsaUtil : RSAUtil).

Definition done {A} (m : M udb (reply A)) : M udb unit := _ ← m; mret tt.
Definition serve (q : admin_request) : M udb unit :=
  match q with
  | RCreateUser now salt op req => done (h_CreateUser rsaUtil now salt op req)
  | RUpdateUser now op id req => done (h_UpdateUser now op id req)
  | RDeleteUser id => done (h_DeleteUser id)
  | RAssignUserRoles op id roleIDs => done (h_AssignUserRoles op id roleIDs)
  | RAssignUserDomains op id domainIDs => done (h_AssignUserDomains op id domainIDs)
  | RUpdateCurrentUser now op req => done (h_UpdateCurrentUser now op req)
  | RChangePassword now salt op req => done (h_ChangePassword rsaUtil now salt op req)
  | RResetUserPassword now salt op id req => done (h_ResetUserPassword rsaUtil now salt op id req)
  | RCreateDomain req => done (h_CreateDomain req)
  | RUpdateDomain id req => done (h_UpdateDomain id req)
  | RDeleteDomain id => done (h_DeleteDomain id)
  end.

Lemma preserves_serve I q : closed I → preserves I (serve q).
Proof.
  intros HI. destruct q; simpl; unfold done;
    unfold h_CreateUser, h_UpdateUser, h_DeleteUser, h_AssignUserRoles, h_AssignUserDomains, h_UpdateCurrentUser,
      h_ChangePassword, h_ResetUserPassword, h_CreateDomain, h_UpdateDomain, h_DeleteDomain,
      update_roles, update_domains, UpdateUserWithDomainCheck, ResetUserPasswordWithDomainCheck, UpdateCurrentUser;
    repeat first [users_step | solve [eauto with users]].
Qed.
End requests.

(** ** Accounts and domains stay well formed *)
Section invariant.
Context `{Rsa, Bcrypt}.

(** A primary key with [AUTOINCREMENT]. *)
Definition keyed {A} (key : A → Z) (t : table A) : Prop :=
  NoDup (key <$> rows t) ∧ ∀ x, x ∈ rows t → key x ≤ last_id t.

Definition pair_of (ud : UserDomain) : Z * Z := (ud_user ud, ud_domain ud).

Record users_ok (d : udb) : Prop := {
  uo_users : keyed u_ID (users d);
  uo_names : NoDup (Username <$> rows (users d));
  uo_passwords : ∀ u, u ∈ rows (users d) → hashed (Password u);
  uo_domains : keyed dom_ID (domains (rbac d));
  uo_domain_names : NoDup (dom_Name <$> rows (domains (rbac d)));
  uo_pairs : NoDup (pair_of <$> rows (user_domains (rbac d)));
}.

Lemma NoDup_fmap_where {A B} (f : A → B) p (l : list A) : NoDup (f <$> l) → NoDup (f <$> where_ p l).
Proof. intros Hn. eapply sublist_NoDup; [exact Hn|]. apply fmap_sublist, sublist_filter. Qed.
Lemma NoDup_fmap_snoc {A B} (f : A → B) (l : list A) x :
  NoDup (f <$> l) → (∀ y, y ∈ l → f y ≠ f x) → NoDup (f <$> l ++ [x]).
Proof.
  intros Hn Hx. rewrite fmap_app. apply NoDup_app. split; [done|]. split; [|apply NoDup_singleton].
  intros b (y & -> & Hy)%list_elem_of_fmap Hb%list_elem_of_singleton. by apply (Hx y).
Qed.
Lemma fmap_update_where {A B} (f : A → B) (p : A → bool) (g : A → A) (l : list A) :
  (∀ x, x ∈ l → p x = true → f (g x) = f x) → f <$> map (λ x, if p x then g x else x) l = f <$> l.
Proof.
  induction l as [|x l IH]; intros Hf; [done|]. cbn [map fmap list_fmap]. fold (f <$> map (λ x, if p x then g x else x) l). f_equal.
  - destruct (p x) eqn:E; [by apply Hf; [left|]|done].
  - apply IH. intros y Hy. apply Hf. by right.
Qed.
Lemma elem_of_update_where {A} (p : A → bool) (g : A → A) (l : list A) x :
  x ∈ map (λ x, if p x then g x else x) l → (x ∈ l ∧ p x = false) ∨ ∃ y, y ∈ l ∧ p y = true ∧ x = g y.
Proof.
  intros (y & -> & Hy)%list_elem_of_fmap. destruct (p y) eqn:E; [right; by exists y|by left].
Qed.

Lemma keyed_insert {A} (key : A → Z) mk t : (∀ id, key (mk id) = id) → keyed key t → keyed key (insert_row mk t).
Proof.
  intros Hmk [Hn Hl]. split; simpl.
  - apply NoDup_fmap_snoc; [done|]. intros y Hy. rewrite Hmk. specialize (Hl y Hy). lia.
  - intros x [Hx| ->%list_elem_of_singleton]%elem_of_app; [specialize (Hl x Hx); lia|rewrite Hmk; lia].
Qed.
Lemma keyed_delete {A} (key : A → Z) p t : keyed key t → keyed key (delete_where p t).
Proof. intros [Hn Hl]. split; [by apply NoDup_fmap_where|]. intros x [Hx _]%elem_of_where. by apply Hl. Qed.
Lemma keyed_update {A} (key : A → Z) p g t : (∀ x, key (g x) = key x) → keyed key t → keyed key (update_where p g t).
Proof.
  intros Hg [Hn Hl]. split; simpl.
  - by rewrite fmap_update_where.
  - intros x [[Hx _]|(y & Hy & _ & ->)]%elem_of_update_where; [by apply Hl|]. rewrite Hg. by apply Hl.
Qed.

(** A column of unique texts after an [INSERT] and after an [UPDATE] that were
    not refused. *)
Lemma unique_insert {A} (name : A → string) (l : list A) x :
  existsb (λ y, bool_decide (name y = name x)) l = false → NoDup (name <$> l) → NoDup (name <$> l ++ [x]).
Proof.
  intros He Hn. apply NoDup_fmap_snoc; [done|]. intros y Hy Heq. rewrite existsb_false_iff in He.
  specialize (He y Hy). by rewrite bool_decide_true in He.
Qed.
Lemma unique_update {A} (key : A → Z) (name : A → string) (g : A → A) id n (l : list A) :
  (∀ x, name (g x) = n) → NoDup (key <$> l) → NoDup (name <$> l) →
  existsb (λ x, key x =? id) l && existsb (λ x, bool_decide (name x = n) && negb (key x =? id)) l = false →
  NoDup (name <$> map (λ x, if key x =? id then g x else x) l).
Proof.
  intros Hg Hk Hn Hc. destruct (existsb (λ x, key x =? id) l) eqn:Ei; simpl in Hc.
  - clear Ei. revert Hk Hn Hc. induction l as [|x l IH]; intros Hk Hn Hc; [constructor|].
    cbn [map fmap list_fmap] in *. apply NoDup_cons in Hk as [Hxk Hk]. apply NoDup_cons in Hn as [Hxn Hn].
    simpl in Hc. apply orb_false_iff in Hc as [Hx Hc]. apply NoDup_cons. split; [|by apply IH].
    intros (y & Hy & Hin)%list_elem_of_fmap. rewrite existsb_false_iff in Hc.
    apply elem_of_update_where in Hin as [[Hin Hp]|(z & Hz & Hzk & ->)].
    + destruct (Z.eqb_spec (key x) id) as [Ex|Ex].
      * rewrite Hg in Hy. specialize (Hc y Hin). rewrite bool_decide_true, Hp in Hc by done. done.
      * apply Hxn. rewrite Hy. by apply list_elem_of_fmap_2.
    + apply Z.eqb_eq in Hzk. destruct (Z.eqb_spec (key x) id) as [Ex|Ex].
      * apply Hxk. rewrite Ex, <- Hzk. by apply list_elem_of_fmap_2.
      * rewrite Hg in Hy. rewrite bool_decide_true in Hx by done. done.
  - rewrite existsb_false_iff in Ei. erewrite fmap_update_where; [done|]. intros x Hx Hk'. by rewrite Ei in Hk'.
Qed.

Lemma users_ok_closed : closed users_ok.
Proof.
  split.
  - intros now username realName phone email hash createdBy d id d' Hh [Hu Hn Hp Hd Hdn Hpr]. unfold insert_user.
    destruct (existsb _ _) eqn:E; [done|]. intros [= <- <-]. split; simpl; try done.
    + by apply keyed_insert.
    + by apply unique_insert.
    + intros u [Hin| ->%list_elem_of_singleton]%elem_of_app; [by apply Hp|done].
  - intros now id username realName phone email isActive d u d' [Hu Hn Hp Hd Hdn Hpr]. unfold update_user.
    destruct (_ && _) eqn:E; [done|]. intros [= <- <-]. split; simpl; try done.
    + by apply keyed_update.
    + apply (unique_update u_ID Username _ id username); [done|apply Hu|done|done].
    + intros v [[Hv _]|(w & Hw & _ & ->)]%elem_of_update_where; simpl; by apply Hp.
  - intros now id hash d Hh [Hu Hn Hp Hd Hdn Hpr]. split; simpl; try done; [by apply keyed_update|by rewrite fmap_update_where|].
    intros v [[Hv _]|(w & Hw & _ & ->)]%elem_of_update_where; [by apply Hp|done].
  - intros now id d [Hu Hn Hp Hd Hdn Hpr]. split; simpl; try done; [by apply keyed_update|by rewrite fmap_update_where|].
    intros v [[Hv _]|(w & Hw & _ & ->)]%elem_of_update_where; simpl; by apply Hp.
  - intros id d [Hu Hn Hp Hd Hdn Hpr]. split; simpl; try done; [by apply keyed_delete|by apply NoDup_fmap_where|].
    intros v [Hv _]%elem_of_where. by apply Hp.
  - intros id d [Hu Hn Hp Hd Hdn Hpr]. by split.
  - intros id roleID domainID d u d' [Hu Hn Hp Hd Hdn Hpr]. unfold insert_user_role. destruct (existsb _ _); [done|].
    intros [= <- <-]. by split.
  - intros id d [Hu Hn Hp Hd Hdn Hpr]. split; simpl; try done. by apply NoDup_fmap_where.
  - intros id domainID b d u d' [Hu Hn Hp Hd Hdn Hpr]. unfold insert_user_domain. destruct (existsb _ _) eqn:E; [done|].
    intros [= <- <-]. split; simpl; try done. apply NoDup_fmap_snoc; [done|]. intros ud Hud [= H1 H2].
    rewrite existsb_false_iff in E. specialize (E ud Hud). by rewrite H1, H2, !Z.eqb_refl in E.
  - intros name description d id d' [Hu Hn Hp Hd Hdn Hpr]. unfold insert_domain. destruct (existsb _ _) eqn:E; [done|].
    intros [= <- <-]. split; simpl; try done; [by apply keyed_insert|by apply unique_insert].
  - intros id name description d u d' [Hu Hn Hp Hd Hdn Hpr]. unfold update_domain. destruct (_ && _) eqn:E; [done|].
    intros [= <- <-]. split; simpl; try done; [by apply keyed_update|].
    apply (unique_update dom_ID dom_Name _ id name); [done|apply Hd|done|done].
  - intros id d [Hu Hn Hp Hd Hdn Hpr]. split; simpl; try done; [by apply keyed_delete|by apply NoDup_fmap_where].
Qed.
End invariant.
