(* ===== verification/UserGuards.v ===== *)
(** * Who may change accounts

    What the handlers of [Users] allow: an operator who is no administrator
    makes no administrator and hands out only its own domains; a user changes
    its own password with the old one only; a deleted user keeps nothing.
    The last part lists what the checks miss. *)
From S2P Require Import Prelude Sql Permission Crypto RsaUtil Users.

(** ** Runs of the service *)
Section runs.
Context `{Rsa, Bcrypt}.

Lemma clean_select_udb {A} (f : udb → A) : clean (Users.select f).
Proof. done. Qed.
Lemma clean_write_udb f : clean (Users.write f).
Proof. done. Qed.
Lemma run_write_unique {A} (f : udb → result error (A * udb)) d :
  write_unique f d [] = (match f d with Ok (a, _) => Ok a | Err e => Err e end,
                        (match f d with Ok (_, d') => d' | Err _ => d end, [])).
Proof. unfold write_unique. rewrite run_bind. unfold call. by destruct (f d) as [[a d']|e]. Qed.
Lemma clean_write_unique {A} (f : udb → result error (A * udb)) : clean (write_unique f).
Proof. intros d. by rewrite run_write_unique. Qed.
Lemma clean_each {A} (f : A → M udb (result error unit)) xs : (∀ x, clean (f x)) → clean (each f xs).
Proof. intros Hf. induction xs as [|x xs IH]; simpl; [apply clean_ret|]. by apply clean_bind_ok. Qed.

(** A query of the permission service, without faults. *)
Lemma run_perm {A} (m : M db (result Permission.error A)) e f d : answers e m f →
  perm m d [] = (match f (rbac d) with Ok a => Ok a | Err _ => Err ErrDB end, (d, [])).
Proof.
  intros Hm. unfold perm, zoom. rewrite run_bind, (answers_run e m f (rbac d) Hm). by destruct (f (rbac d)), d.
Qed.
(** ... and with them: what it answers, or an error. *)
Lemma perm_sound {A} (m : M db (result Permission.error A)) e f d fs : answers e m f →
  ∃ fs', perm m d fs = (match f (rbac d) with Ok a => Ok a | Err _ => Err ErrDB end, (d, fs')) ∨
         perm m d fs = (Err ErrDB, (d, fs')).
Proof.
  intros Hm. unfold perm, zoom. rewrite run_bind. destruct (Hm (rbac d) fs) as (fs' & [->|[-> _]] & _); exists fs'.
  - left. by destruct (f (rbac d)), d.
  - right. by destruct d.
Qed.

Definition role_code (id : Z) (r : db) : result Permission.error string :=
  match head (where_ (λ r, role_ID r =? id) (rows (roles r))) with
  | Some r => Ok (role_Code r)
  | None => Err ErrRoleCodeNotFound
  end.
Lemma GetRoleCodeByID_answers id : answers Permission.ErrDB (GetRoleCodeByID id) (role_code id).
Proof.
  eapply answers_ext; [apply answers_bind; [apply answers_query|intros o; apply answers_ret]|].
  intros r. simpl. unfold role_code. by destruct (head _).
Qed.
Lemma GetUserDomainIDs_answers id :
  answers Permission.ErrDB (GetUserDomainIDs id) (λ r, Ok (ud_domain <$> where_ (λ ud, ud_user ud =? id) (rows (user_domains r)))).
Proof. apply answers_query. Qed.

Lemma clean_perm {A} (m : M db (result Permission.error A)) e f : answers e m f → clean (perm m).
Proof. intros Hm d. by rewrite (run_perm m e f d Hm). Qed.
End runs.

#[export] Hint Resolve clean_select_udb clean_write_udb clean_write_unique clean_each : clean.

(** ** Administrators *)
Section administrators.
Context `{Rsa, Bcrypt} (rsaUtil : RSAUtil).
Implicit Types (d : udb) (op : operator).

(** The role gives no administration. *)
Definition ordinary d (roleID : Z) : Prop :=
  ∀ r, r ∈ rows (roles (rbac d)) → role_ID r = roleID → role_Code r ≠ "system_admin".
(** Since [d0] the roles are the same and users got ordinary roles only. *)
Definition same_power d0 d : Prop :=
  roles (rbac d) = roles (rbac d0) ∧
  ∀ ur, ur ∈ rows (user_roles (rbac d)) → ur ∈ rows (user_roles (rbac d0)) ∨ ordinary d0 (ur_role ur).

Lemma same_power_admins d0 d u : same_power d0 d → is_admin (rbac d) u → is_admin (rbac d0) u.
Proof.
  intros [Hr Hu] (r & ur & Hin & Hc & Hur & Hid & Hro). rewrite Hr in Hin. exists r, ur. split_and!; try done.
  destruct (Hu ur Hur) as [?|Ho]; [done|]. by destruct (Ho r Hin ltac:(by symmetry)).
Qed.

Lemma same_power_refl d : same_power d d.
Proof. split; [done|]. by left. Qed.

(** Writes that give no role. *)
Lemma same_power_frame d0 d d' :
  roles (rbac d') = roles (rbac d) → (∀ ur, ur ∈ rows (user_roles (rbac d')) → ur ∈ rows (user_roles (rbac d))) →
  same_power d0 d → same_power d0 d'.
Proof. intros Hr Hu [Hr0 Hu0]. split; [by rewrite Hr|]. intros ur Hin. by apply Hu0, Hu. Qed.

Lemma same_power_insert d0 d id roleID o u d' :
  ordinary d0 roleID → same_power d0 d → insert_user_role id roleID o d = Ok (u, d') → same_power d0 d'.
Proof.
  intros Ho [Hr Hu]. unfold insert_user_role. destruct (existsb _ _); [done|]. intros [= <- <-]. split; [done|]. simpl.
  intros ur [Hin| ->%list_elem_of_singleton]%elem_of_app; [by apply Hu|by right].
Qed.

Lemma ordinary_code d roleID :
  NoDup (role_ID <$> rows (roles (rbac d))) → role_code roleID (rbac d) ≠ Ok "system_admin" → ordinary d roleID.
Proof.
  intros Hn Hc r Hin Hid Ha. apply Hc. unfold role_code. by rewrite (head_by_id _ roleID r Hn Hin Hid), Ha.
Qed.

Lemma run_AreRolesSystemOnly roleIDs d :
  ∃ b, AreRolesSystemOnly roleIDs d [] = (Ok b, (d, [])) ∧
       (b = false → ∀ id, id ∈ roleIDs → role_code id (rbac d) ≠ Ok "system_admin").
Proof.
  induction roleIDs as [|id rest (b & IH & Hb)]; [exists false; split; [done|]; by intros _ i ?%elem_of_nil|].
  simpl. rewrite run_bind, (run_perm _ _ _ d (GetRoleCodeByID_answers id)).
  destruct (role_code id (rbac d)) as [c|e] eqn:Ec.
  - case_bool_decide as Hc; [by exists true|]. exists b. split; [done|]. intros Hf i [-> |Hi]%elem_of_cons; [|by apply Hb].
    rewrite Ec. congruence.
  - exists b. split; [done|]. intros Hf i [-> |Hi]%elem_of_cons; [by rewrite Ec|by apply Hb].
Qed.

(** What the check lets through, when nothing fails. *)
Lemma check_roles_run {A} op roleIDs d :
  privileged op = false → NoDup (role_ID <$> rows (roles (rbac d))) →
  ∃ o, check_roles (A := A) op roleIDs d [] = (o, (d, [])) ∧ (o = None → ∀ id, id ∈ roleIDs → ordinary d id).
Proof.
  intros Hp Hn. unfold check_roles. rewrite Hp, run_bind. destruct (run_AreRolesSystemOnly roleIDs d) as (b & -> & Hb).
  destruct b; eexists; (split; [done|]); [done|]. intros _ id Hid. by apply ordinary_code, Hb.
Qed.

Lemma same_power_AssignUserRoles d0 id roleIDs :
  (∀ r, r ∈ roleIDs → ordinary d0 r) → preserves (same_power d0) (AssignUserRoles id roleIDs).
Proof.
  intros Ho. unfold AssignUserRoles. users_step. users_step.
  - apply preserves_write_udb. intros d. apply same_power_frame; [done|]. by intros ur [Hin _]%elem_of_where.
  - destruct a as [[]|e]; [|apply preserves_ret]. induction roleIDs as [|r rs IH]; simpl; [apply preserves_ret|].
    users_step. users_step.
    + apply preserves_write_unique. intros d u d'. apply same_power_insert, Ho. by left.
    + destruct a as [u|e]; [|apply preserves_ret]. apply IH. intros r' Hr'. apply Ho. by right.
Qed.

Lemma same_power_users d0 f : (∀ d, same_power d0 d → same_power d0 (set_users f d)).
Proof. intros d. by apply same_power_frame. Qed.
Lemma same_power_insert_user d0 now username realName phone email hash cb d id d' :
  same_power d0 d → insert_user now username realName phone email hash cb d = Ok (id, d') → same_power d0 d'.
Proof. intros Hd. unfold insert_user. destruct (existsb _ _); [done|]. intros [= <- <-]. by apply same_power_users. Qed.
Lemma same_power_user_domain d0 id domainID b d u d' :
  same_power d0 d → insert_user_domain id domainID b d = Ok (u, d') → same_power d0 d'.
Proof. intros Hd. unfold insert_user_domain. destruct (existsb _ _); [done|]. intros [= <- <-]. by revert Hd; apply same_power_frame. Qed.

Lemma same_power_CreateUser d0 now salt username realName phone email password roleIDs domainIDs createdBy :
  (∀ r, r ∈ roleIDs → ordinary d0 r) →
  preserves (same_power d0) (CreateUser rsaUtil now salt username realName phone email password roleIDs domainIDs createdBy).
Proof.
  intros Ho. unfold CreateUser. destruct (hash_new_password rsaUtil salt password) as [hash|e]; [|apply preserves_ret].
  unfold bind_ok. users_step.
  { apply preserves_write_unique. intros d id d'. apply same_power_insert_user. }
  destruct a as [id|e]; [|apply preserves_ret]. users_step.
  { clear password createdBy. induction roleIDs as [|r rs IH]; simpl; [apply preserves_ret|]. users_step.
    - unfold ignore. users_step; [|apply preserves_ret]. apply preserves_write_unique. intros d u d'. apply same_power_insert, Ho.
      by left.
    - apply IH. intros r' Hr'. apply Ho. by right. }
  repeat users_step. apply preserves_write_unique. intros d u d'. apply same_power_user_domain.
Qed.
Lemma same_power_AssignUserDomains d0 id domainIDs : preserves (same_power d0) (AssignUserDomains id domainIDs).
Proof.
  unfold AssignUserDomains. repeat users_step.
  - apply preserves_write_udb. intros d. by apply same_power_frame.
  - apply preserves_each. intros [i b]. apply preserves_write_unique. intros d u d'. apply same_power_user_domain.
Qed.
Lemma same_power_UpdateUser d0 now id username realName phone email isActive :
  preserves (same_power d0) (UpdateUser now id username realName phone email isActive).
Proof.
  unfold UpdateUser. repeat users_step. apply preserves_write_unique. intros d u d' Hd. unfold update_user.
  destruct (_ && _); [done|]. intros [= <- <-]. by apply same_power_users.
Qed.
End administrators.

(** ** Requests, when nothing fails *)
Section fault_free.
Context `{Rsa, Bcrypt} (rsaUtil : RSAUtil).

(** [I] survives [m] when no call fails, and [m] then leaves no fault
    unread. *)
Definition keeps {A} (I : udb → Prop) (m : M udb A) : Prop := ∀ d, I d → I (m d []).2.1.
Lemma keeps_preserves {A} I (m : M udb A) : preserves I m → keeps I m.
Proof. intros Hm d. apply Hm. Qed.
Lemma keeps_bind {A B} I (m : M udb A) (k : A → M udb B) :
  clean m → keeps I m → (∀ a, keeps I (k a)) → keeps I (mbind k m).
Proof.
  intros Hc Hm Hk d Hd. rewrite run_bind. specialize (Hc d). specialize (Hm d Hd).
  destruct (m d []) as [a [d' fs]]. simpl in *. subst fs. by apply Hk.
Qed.
Lemma keeps_check_roles {A} d0 op roleIDs (k : M udb (reply A)) :
  privileged op = false → NoDup (role_ID <$> rows (roles (rbac d0))) →
  ((∀ r, r ∈ roleIDs → ordinary d0 r) → keeps (same_power d0) k) →
  keeps (same_power d0) (unless (check_roles op roleIDs) k).
Proof.
  intros Hp Hn Hk d Hd. unfold unless. rewrite run_bind.
  destruct (check_roles_run (A := A) op roleIDs d Hp) as (o & -> & Ho); [by rewrite (proj1 Hd)|].
  destruct o as [r|]; [done|]. apply Hk; [|done]. intros r Hr r' Hr' Hid. rewrite <- (proj1 Hd) in Hr'.
  by eapply Ho.
Qed.
End fault_free.

(** ** An operator who is no administrator *)
Definition operator_of (q : admin_request) : option operator :=
  match q with
  | RCreateUser _ _ op _ | RUpdateUser _ op _ _ | RAssignUserRoles op _ _ | RAssignUserDomains op _ _
  | RUpdateCurrentUser _ op _ | RChangePassword _ _ op _ | RResetUserPassword _ _ op _ _ => Some op
  | RDeleteUser _ | RCreateDomain _ | RUpdateDomain _ _ | RDeleteDomain _ => None
  end.
Definition unprivileged (q : admin_request) : Prop := ∀ op, operator_of q = Some op → privileged op = false.

Section no_new_admin.
Context `{Rsa, Bcrypt} (rsaUtil : RSAUtil).

Lemma clean_UpdateUser now id username realName phone email isActive :
  clean (UpdateUser now id username realName phone email isActive).
Proof. unfold UpdateUser. repeat clean_step; eauto with clean. Qed.
Lemma clean_UpdateUserWithDomainCheck now adminID id username realName phone email isActive :
  clean (UpdateUserWithDomainCheck now adminID id username realName phone email isActive).
Proof. unfold UpdateUserWithDomainCheck. repeat clean_step; eauto using clean_UpdateUser with clean. Qed.

Lemma keeps_done {A} I (m : M udb (reply A)) : keeps I m → keeps I (done m).
Proof. intros Hm d Hd. unfold done. rewrite run_bind. specialize (Hm d Hd). by destruct (m d []) as [a [d' fs]]. Qed.

Lemma keeps_update_roles d0 op id roleIDs (k : M udb (reply (option enriched))) :
  privileged op = false → NoDup (role_ID <$> rows (roles (rbac d0))) → preserves (same_power d0) k →
  keeps (same_power d0) (unless (update_roles op id roleIDs) k).
Proof.
  intros Hp Hn Hk d Hd. unfold unless, update_roles. destruct roleIDs as [|r rs]; [by apply Hk|].
  rewrite !run_bind.
  destruct (check_roles_run (A := option enriched) op (r :: rs) d Hp) as (o & -> & Ho); [by rewrite (proj1 Hd)|].
  destruct o as [o|]; [done|]. rewrite run_bind.
  assert (preserves (same_power d0) (AssignUserRoles id (r :: rs))) as Ha.
  { apply same_power_AssignUserRoles. intros r' Hr r'' Hr'' Hid. rewrite <- (proj1 Hd) in Hr''. by eapply Ho. }
  specialize (Ha d [] Hd). destruct (AssignUserRoles id (r :: rs) d []) as [[a|e] [d' fs']]; simpl in *; [by apply Hk|done].
Qed.

(** A write that gives no role. *)
Ltac power_step := first
  [ users_step
  | solve [auto using same_power_UpdateUser, same_power_AssignUserDomains]
  | apply preserves_write_udb; intros ?; apply same_power_frame; [done|]; solve [by intros ? [? _]%elem_of_where | done]
  | apply preserves_write_unique; intros ? ? ? ?; unfold insert_domain, update_domain; case_match; [done|]; intros [= <- <-];
    by eapply same_power_frame; [..|eassumption] ].

Lemma same_power_serve q d0 :
  unprivileged q → NoDup (role_ID <$> rows (roles (rbac d0))) → keeps (same_power d0) (serve rsaUtil q).
Proof.
  intros Hq Hn. destruct q as [now salt op req|now op id req|id|op id roleIDs|op id domainIDs|now op req|now salt op req|now salt op id req|req|id req|id];
    simpl; apply keeps_done.
  - destruct req as [req|]; [|by apply keeps_preserves, preserves_ret]. simpl.
    apply keeps_check_roles; [by apply Hq|done|]. intros Ho. apply keeps_preserves. repeat users_step.
    by apply same_power_CreateUser.
  - unfold h_UpdateUser. destruct (id <=? 0); [by apply keeps_preserves, preserves_ret|].
    destruct req as [req|]; [|by apply keeps_preserves, preserves_ret].
    apply keeps_bind; [apply clean_UpdateUserWithDomainCheck|apply keeps_preserves; unfold UpdateUserWithDomainCheck; repeat power_step|].
    intros [o|e]; [|destruct e; apply keeps_preserves, preserves_ret].
    apply keeps_update_roles; [by apply Hq|done|]. unfold update_domains. repeat power_step.
  - apply keeps_preserves. unfold h_DeleteUser, DeleteUser. repeat power_step.
  - unfold h_AssignUserRoles. destruct (id <=? 0); [by apply keeps_preserves, preserves_ret|].
    destruct roleIDs as [roleIDs|]; [|by apply keeps_preserves, preserves_ret].
    apply keeps_check_roles; [by apply Hq|done|]. intros Ho. apply keeps_preserves. users_step; [|repeat users_step].
    by apply same_power_AssignUserRoles.
  - apply keeps_preserves. unfold h_AssignUserDomains. repeat power_step.
  - apply keeps_preserves. unfold h_UpdateCurrentUser, UpdateCurrentUser. repeat power_step.
  - apply keeps_preserves. unfold h_ChangePassword, ChangePassword, store_password. repeat power_step.
  - apply keeps_preserves. unfold h_ResetUserPassword, ResetUserPasswordWithDomainCheck, ResetPassword, store_password.
    repeat power_step.
  - apply keeps_preserves. unfold h_CreateDomain, CreateDomain, GetDomainByID. repeat power_step.
  - apply keeps_preserves. unfold h_UpdateDomain, UpdateDomain, GetDomainByID. repeat power_step.
  - apply keeps_preserves. unfold h_DeleteDomain, DeleteDomain, GetDomain. repeat power_step.
Qed.

(** C19: when no call fails, a request of an operator who is no administrator
    makes nobody a system administrator who was not one before: not by
    creating or updating a user, not by assigning roles, not with a role under
    another identifier. *)
Theorem domain_admin_makes_no_admin q d u :
  unprivileged q → NoDup (role_ID <$> rows (roles (rbac d))) →
  is_admin (rbac (serve rsaUtil q d []).2.1) u → is_admin (rbac d) u.
Proof. intros Hq Hn. apply same_power_admins. apply same_power_serve; [done..|apply same_power_refl]. Qed.
End no_new_admin.

(** ** Domains handed out *)
Section own_domains.
Context `{Rsa, Bcrypt} (rsaUtil : RSAUtil).
Implicit Types (d : udb) (op : operator).

Definition member d (id domainID : Z) : Prop := ∃ ud, ud ∈ rows (user_domains (rbac d)) ∧ ud_user ud = id ∧ ud_domain ud = domainID.
(** Since [d0] users joined only domains of [who]. *)
Definition joined_own (who : Z) d0 d : Prop :=
  ∀ ud, ud ∈ rows (user_domains (rbac d)) → ud ∈ rows (user_domains (rbac d0)) ∨ member d0 who (ud_domain ud).

Lemma joined_own_frame who d0 d d' :
  (∀ ud, ud ∈ rows (user_domains (rbac d')) → ud ∈ rows (user_domains (rbac d))) → joined_own who d0 d → joined_own who d0 d'.
Proof. intros Hu Hd ud Hin. by apply Hd, Hu. Qed.
Lemma joined_own_insert who d0 d id domainID b u d' :
  member d0 who domainID → joined_own who d0 d → insert_user_domain id domainID b d = Ok (u, d') → joined_own who d0 d'.
Proof.
  intros Hm Hd. unfold insert_user_domain. destruct (existsb _ _); [done|]. intros [= <- <-] ud. simpl.
  intros [Hin| ->%list_elem_of_singleton]%elem_of_app; [by apply Hd|by right].
Qed.
Lemma joined_own_member who d0 d domainID : joined_own who d0 d → member d who domainID → member d0 who domainID.
Proof. intros Hd (ud & Hin & Hu & <-). destruct (Hd ud Hin) as [H1|H1]; [by exists ud|done]. Qed.

Lemma elem_of_numbered domainIDs x b : (x, b) ∈ numbered domainIDs → x ∈ domainIDs.
Proof. intros (i & y & [= -> ->] & Hy)%elem_of_lookup_imap. by eapply list_elem_of_lookup_2. Qed.

(** What the check lets through, whatever fails. *)
Lemma check_domains_passes {A} op domainIDs d fs :
  privileged op = false →
  ∃ o fs', check_domains (A := A) op domainIDs d fs = (o, (d, fs')) ∧
           (o = None → ∀ x, x ∈ domainIDs → member d (op_id op) x).
Proof.
  intros Hp. unfold check_domains. rewrite Hp, run_bind. unfold AreDomainsAccessibleByUser.
  destruct domainIDs as [|x xs]; [by exists None, fs; split; [|intros _ ? ?%elem_of_nil]|].
  unfold bind_ok. rewrite run_bind. destruct (perm_sound _ _ _ d fs (GetUserDomainIDs_answers (op_id op))) as (fs' & [->| ->]);
    [|by eexists _, fs'].
  set (own := ud_domain <$> _). destruct (forallb (λ i, in_list i own) (x :: xs)) eqn:E;
    eexists _, fs'; (split; [done|]); [|done]. intros _ y Hy. rewrite forallb_forall in E.
  specialize (E y ltac:(by apply list_elem_of_In)). apply in_list_true in E. subst own.
  apply list_elem_of_fmap in E as (ud & -> & [Hud Hu%Z.eqb_eq]%elem_of_where). by exists ud.
Qed.

(** A write that puts nobody into a domain. *)
Ltac own_step := first
  [ users_step
  | apply preserves_write_udb; intros ?; apply joined_own_frame; solve [by intros ? [? _]%elem_of_where | done]
  | apply preserves_write_unique; intros ? ? ? ?; unfold insert_user, update_user, insert_user_role, insert_domain, update_domain;
    case_match; [done|]; intros [= <- <-]; by eapply joined_own_frame; [|eassumption] ].

Lemma joined_own_AssignUserDomains who d0 id domainIDs :
  (∀ x, x ∈ domainIDs → member d0 who x) → preserves (joined_own who d0) (AssignUserDomains id domainIDs).
Proof.
  intros Hm. unfold AssignUserDomains, bind_ok. own_step; [own_step|].
  assert (∀ x b, (x, b) ∈ numbered domainIDs → member d0 who x) as Hn by eauto using elem_of_numbered.
  destruct a as [[]|e]; [|apply preserves_ret].
  induction (numbered domainIDs) as [|[x b] l IH]; simpl; [apply preserves_ret|].
  unfold bind_ok. own_step; [|destruct a; [|apply preserves_ret]].
  - apply preserves_write_unique. intros d u d'. apply joined_own_insert. eapply Hn. by left.
  - apply IH. intros y c Hy. eapply Hn. by right.
Qed.
Lemma joined_own_CreateUser who d0 now salt username realName phone email password roleIDs domainIDs createdBy :
  (∀ x, x ∈ domainIDs → member d0 who x) →
  preserves (joined_own who d0) (CreateUser rsaUtil now salt username realName phone email password roleIDs domainIDs createdBy).
Proof.
  intros Hm. assert (∀ x b, (x, b) ∈ numbered domainIDs → member d0 who x) as Hn by eauto using elem_of_numbered.
  unfold CreateUser. destruct (hash_new_password _ _ _) as [hash|e]; [|apply preserves_ret].
  unfold bind_ok. own_step; [own_step|]. destruct a as [id|e]; [|apply preserves_ret]. own_step; [repeat own_step|]. own_step; [|repeat own_step].
  induction (numbered domainIDs) as [|[x b] l IH]; simpl; [apply preserves_ret|]. own_step.
  - unfold ignore. own_step; [|apply preserves_ret]. apply preserves_write_unique. intros d u d'. apply joined_own_insert.
    eapply Hn. by left.
  - apply IH. intros y c Hy. eapply Hn. by right.
Qed.

Lemma joined_own_checked {A B} d0 op domainIDs (k : option (reply A) → M udb B) :
  privileged op = false → (∀ r, preserves (joined_own (op_id op) d0) (k (Some r))) →
  ((∀ x, x ∈ domainIDs → member d0 (op_id op) x) → preserves (joined_own (op_id op) d0) (k None)) →
  preserves (joined_own (op_id op) d0) (mbind k (check_domains op domainIDs)).
Proof.
  intros Hp Hs Hk d fs Hd. rewrite run_bind.
  destruct (check_domains_passes (A := A) op domainIDs d fs Hp) as (o & fs' & -> & Ho). destruct o; [by apply Hs|].
  apply Hk; [|done]. intros x Hx. eapply joined_own_member; [done|]. by apply Ho.
Qed.

Lemma preserves_done {A} I (m : M udb (reply A)) : preserves I m → preserves I (done m).
Proof. intros Hm. unfold done. by repeat preserves_step. Qed.

(** The operator of a request; requests without one put nobody into a
    domain. *)
Definition who (q : admin_request) : Z := match operator_of q with Some op => op_id op | None => 0 end.

Lemma joined_own_serve q d0 : unprivileged q → preserves (joined_own (who q) d0) (serve rsaUtil q).
Proof.
  intros Hq. destruct q as [now salt op req|now op id req|id|op id roleIDs|op id domainIDs|now op req|now salt op req|now salt op id req|req|id req|id];
    simpl; apply preserves_done; unfold who; simpl.
  - destruct req as [req|]; [|apply preserves_ret]. simpl. unfold unless. own_step; [repeat own_step|].
    destruct a; [apply preserves_ret|]. apply joined_own_checked; [by apply Hq|intros ?; apply preserves_ret|]. intros Hm.
    own_step; [by apply joined_own_CreateUser|repeat own_step].
  - unfold h_UpdateUser, UpdateUserWithDomainCheck, UpdateUser. case_match; [apply preserves_ret|].
    destruct req as [req|]; [|apply preserves_ret]. own_step; [repeat own_step|]. destruct a as [o|e]; [|repeat own_step].
    unfold unless. own_step; [unfold update_roles, AssignUserRoles; repeat own_step; apply preserves_each; intros r; own_step|].
    destruct a; [apply preserves_ret|]. own_step; [|repeat own_step].
    unfold update_domains. destruct (uu_DomainIDs req) as [|x xs]; [apply preserves_ret|].
    apply joined_own_checked; [by apply Hq|intros ?; apply preserves_ret|]. intros Hm.
    own_step; [by apply joined_own_AssignUserDomains|repeat own_step].
  - unfold h_DeleteUser, DeleteUser. repeat own_step.
  - unfold h_AssignUserRoles, AssignUserRoles. repeat own_step. apply preserves_each. intros r. own_step.
  - unfold h_AssignUserDomains, unless. case_match; [apply preserves_ret|]. destruct domainIDs as [domainIDs|]; [|apply preserves_ret].
    apply joined_own_checked; [by apply Hq|intros ?; apply preserves_ret|]. intros Hm.
    own_step; [by apply joined_own_AssignUserDomains|repeat own_step].
  - unfold h_UpdateCurrentUser, UpdateCurrentUser, UpdateUser. repeat own_step.
  - unfold h_ChangePassword, ChangePassword, store_password. repeat own_step.
  - unfold h_ResetUserPassword, ResetUserPasswordWithDomainCheck, ResetPassword, store_password. repeat own_step.
  - unfold h_CreateDomain, CreateDomain, GetDomainByID. repeat own_step.
  - unfold h_UpdateDomain, UpdateDomain, GetDomainByID. repeat own_step.
  - unfold h_DeleteDomain, DeleteDomain, GetDomain. repeat own_step.
Qed.

(** whatever fails, a request of an operator who is no administrator puts
    users only into domains the operator belongs to itself. *)
Theorem domain_admin_gives_own_domains q d fs ud :
  unprivileged q → ud ∈ rows (user_domains (rbac (serve rsaUtil q d fs).2.1)) →
  ud ∈ rows (user_domains (rbac d)) ∨ member d (who q) (ud_domain ud).
Proof. intros Hq. apply (joined_own_serve q d Hq d fs). intros x Hx. by left. Qed.
End own_domains.

(** ** Who changes a password *)
Section passwords.
Context `{Rsa, Bcrypt} (rsaUtil : RSAUtil).
Implicit Types (d : udb) (op : operator).

(** Since [d0] only users that [P] allows got another password. *)
Definition kept_passwords (P : Z → Prop) d0 d : Prop :=
  last_id (users d0) ≤ last_id (users d) ∧
  ∀ v, v ∈ rows (users d) → (∃ w, w ∈ rows (users d0) ∧ u_ID w = u_ID v ∧ Password w = Password v) ∨ P (u_ID v).

Lemma kept_passwords_frame P d0 d d' :
  last_id (users d') = last_id (users d) →
  (∀ v, v ∈ rows (users d') → ∃ w, w ∈ rows (users d) ∧ u_ID w = u_ID v ∧ Password w = Password v) →
  kept_passwords P d0 d → kept_passwords P d0 d'.
Proof.
  intros Hl Hf [Hm Hd]. split; [by rewrite Hl|]. intros v (w & Hw & Hid & Hpw)%Hf. destruct (Hd w Hw) as [(x & Hx & ? & ?)|?]; [left; exists x; split_and!; congruence|].
  right. congruence.
Qed.
Lemma kept_passwords_update P d0 d p g :
  (∀ v, u_ID (g v) = u_ID v ∧ Password (g v) = Password v) →
  kept_passwords P d0 d → kept_passwords P d0 (set_users (update_where p g) d).
Proof.
  intros Hg. apply kept_passwords_frame; [done|]. intros v [[Hv _]|(w & Hw & _ & ->)]%elem_of_update_where; [by exists v|].
  exists w. destruct (Hg w) as [-> ->]. done.
Qed.
Lemma kept_passwords_set (P : Z → Prop) d0 d id now hash :
  P id → kept_passwords P d0 d → kept_passwords P d0 (set_users (update_where (λ u, u_ID u =? id) (set_password now hash)) d).
Proof.
  intros HP [Hm Hd]. split; [done|]. intros v [[Hv _]|(w & Hw & Hid%Z.eqb_eq & ->)]%elem_of_update_where; [by apply Hd|]. right. simpl. by subst.
Qed.
Lemma kept_passwords_refl P d : kept_passwords P d d.
Proof. split; [done|]. intros v Hv. left. by exists v. Qed.

(** A write that changes no password. *)
Ltac kept_step := first
  [ users_step
  | apply preserves_write_udb; intros ?; apply kept_passwords_frame; [done|]; solve [by intros v [? _]%elem_of_where; exists v | by intros v ?; exists v]
  | apply preserves_write_unique; intros ? ? ? ?; unfold insert_user_role, insert_user_domain, insert_domain, update_domain;
    case_match; [done|]; intros [= <- <-]; by eapply kept_passwords_frame; [| |eassumption]; [done|]; intros v ?; exists v
  | apply preserves_each; intros ? ].

Lemma kept_passwords_UpdateUser P d0 now id username realName phone email isActive :
  preserves (kept_passwords P d0) (UpdateUser now id username realName phone email isActive).
Proof.
  unfold UpdateUser. repeat kept_step. apply preserves_write_unique. intros d u d' Hd. unfold update_user. case_match; [done|].
  intros [= <- <-]. by apply kept_passwords_update.
Qed.

(** Whose password a request may set: of a new user (its number was never given
    out before), of the user that gives
    the old one, of the user an administrator names. *)
Definition sets_password (q : admin_request) d (id : Z) : Prop :=
  match q with
  | RCreateUser _ _ _ (Some _) => last_id (users d) < id
  | RChangePassword _ _ op (Some (old, _)) =>
      id = op_id op ∧ ∃ u p, user_row id d = Some u ∧ decryptPassword rsaUtil old = Ok p ∧
                             CompareHashAndPassword (Password u) p = true
  | RResetUserPassword _ _ _ id' (Some _) => id = id'
  | _ => False
  end.

Lemma kept_CreateUser d0 now salt username realName phone email password roleIDs domainIDs createdBy :
  preserves (kept_passwords (λ id, last_id (users d0) < id) d0)
    (CreateUser rsaUtil now salt username realName phone email password roleIDs domainIDs createdBy).
Proof.
  unfold CreateUser. destruct (hash_new_password _ _ _) as [hash|e]; [|apply preserves_ret].
  unfold bind_ok. kept_step; [|repeat kept_step].
  apply preserves_write_unique. intros d id d' [Hm Hd]. unfold insert_user. case_match; [done|]. intros [= <- <-].
  split; simpl; [lia|]. intros v [Hv| ->%list_elem_of_singleton]%elem_of_app; [by apply Hd|]. right. simpl. lia.
Qed.
Lemma kept_store (P : Z → Prop) d0 now id hash : P id → preserves (kept_passwords P d0) (store_password now id hash).
Proof. intros HP. apply preserves_write_udb. intros d. by apply kept_passwords_set. Qed.
Lemma kept_ResetPassword (P : Z → Prop) d0 now id salt newPassword :
  P id → preserves (kept_passwords P d0) (ResetPassword rsaUtil now id salt newPassword).
Proof. intros HP. unfold ResetPassword. case_match; [by apply kept_store|apply preserves_ret]. Qed.

Lemma kept_ChangePassword d now salt op old new fs :
  kept_passwords (sets_password (RChangePassword now salt op (Some (old, new))) d) d
    (ChangePassword rsaUtil now (op_id op) salt old new d fs).2.1.
Proof.
  unfold ChangePassword, bind_ok. rewrite run_bind. unfold GetUserByID, Users.select.
  destruct (answers_query ErrDB (λ d, with_password <$> user_row (op_id op) d) d fs) as (fs' & [->|[-> _]] & _);
    [|apply kept_passwords_refl].
  destruct (user_row (op_id op) d) as [u|] eqn:Eu; [|apply kept_passwords_refl]. simpl.
  destruct (decryptPassword rsaUtil old) as [p|] eqn:Ep; [|apply kept_passwords_refl].
  destruct (CompareHashAndPassword (Password u) p) eqn:Ec; simpl; [|apply kept_passwords_refl].
  destruct (hash_new_password rsaUtil salt new); [|apply kept_passwords_refl].
  apply kept_store; [|apply kept_passwords_refl]. split; [done|]. by exists u, p.
Qed.

Ltac from_start :=
  match goal with
  | |- kept_passwords ?P ?d0 (?m ?d ?fs).2.1 =>
      cut (preserves (kept_passwords P d0) m); [intros Hm; apply Hm, kept_passwords_refl|]
  end.

Lemma kept_h_ChangePassword q d now salt op req fs :
  q = RChangePassword now salt op req → kept_passwords (sets_password q d) d (serve rsaUtil q d fs).2.1.
Proof.
  intros ->. cbn [serve]. unfold done, h_ChangePassword. rewrite run_bind. destruct req as [[old new]|]; [|apply kept_passwords_refl].
  rewrite run_bind. pose proof (kept_ChangePassword d now salt op old new fs) as Hk.
  by destruct (ChangePassword _ _ _ _ _ _ d fs) as [[?|[]] [d' fs']].
Qed.

Lemma kept_serve q d fs : kept_passwords (sets_password q d) d (serve rsaUtil q d fs).2.1.
Proof.
  destruct q as [now salt op req|now op id req|id|op id roleIDs|op id domainIDs|now op req|now salt op req|now salt op id req|req|id req|id];
    try by eapply kept_h_ChangePassword.
  all: simpl; from_start; apply preserves_done.
  - unfold h_CreateUser. destruct req as [req|]; [|apply preserves_ret]. repeat kept_step. apply kept_CreateUser.
  - unfold h_UpdateUser, UpdateUserWithDomainCheck, update_roles, update_domains, AssignUserRoles, AssignUserDomains.
    repeat first [apply kept_passwords_UpdateUser | kept_step].
  - unfold h_DeleteUser, DeleteUser. repeat kept_step.
  - unfold h_AssignUserRoles, AssignUserRoles. repeat kept_step.
  - unfold h_AssignUserDomains, AssignUserDomains. repeat kept_step.
  - unfold h_UpdateCurrentUser, UpdateCurrentUser. repeat first [apply kept_passwords_UpdateUser | kept_step].
  - unfold h_ResetUserPassword, ResetUserPasswordWithDomainCheck. destruct (id <=? 0); [apply preserves_ret|].
    destruct req as [newPassword|]; [|apply preserves_ret]. repeat kept_step. by apply kept_ResetPassword.
  - unfold h_CreateDomain, CreateDomain, GetDomainByID. repeat kept_step.
  - unfold h_UpdateDomain, UpdateDomain, GetDomainByID. repeat kept_step.
  - unfold h_DeleteDomain, DeleteDomain, GetDomain. repeat kept_step.
Qed.

(** C20: whatever fails, the password of an account changes only by the request
    of its own user that gives the old one, or by a reset that names the
    account; every other row in the table is of a user just created. *)
Theorem passwords_change_with_the_old_one q d fs v :
  v ∈ rows (users (serve rsaUtil q d fs).2.1) →
  (∃ w, w ∈ rows (users d) ∧ u_ID w = u_ID v ∧ Password w = Password v) ∨ sets_password q d (u_ID v).
Proof. apply (kept_serve q d fs). Qed.
End passwords.

(** ** A small office

    [root] is the system administrator, [anna] administers domain 10, [ben] is
    a user of domain 20. *)
#[export] Instance toy_bcrypt : Bcrypt := {|
  GenerateFromPassword _ p := if Nat.leb (String.length p) 72 then Some ("$2a$" +:+ p) else None;
  CompareHashAndPassword h p := bool_decide (h = "$2a$" +:+ p);
|}.
#[export] Instance toy_bcrypt_laws : BcryptLaws toy_bcrypt.
Proof.
  split.
  - intros salt p h q. simpl. destruct (Nat.leb _ _); [|done]. intros [= <-]. apply bool_decide_ext. split; [|by intros ->].
    intros [= ?]. done.
  - done.
  - intros salt p Hp. simpl. by rewrite (proj2 (Nat.leb_le _ _)).
Qed.

Definition account (id : Z) (name password : string) : User := mkUser id name ("$2a$" +:+ password) "" "" "" true None None 0 0.
Definition office : udb :=
  mkUdb
    (mkDb (mkTable [mkRole 1 "" "system_admin" "" true None None; mkRole 2 "" "domain_admin" "" true None None;
                    mkRole 3 "" "viewer" "" true None None] 3)
       (mkTable [] 0) (mkTable [mkUserRole 1 1 None; mkUserRole 2 2 None; mkUserRole 3 3 None] 3) (mkTable [] 0)
       (mkTable [mkDomain 10 "north" ""; mkDomain 20 "south" ""] 20)
       (mkTable [mkUserDomain 2 10 true; mkUserDomain 3 20 true] 2))
    (mkTable [account 1 "root" "root01"; account 2 "anna" "anna01"; account 3 "ben" "ben001"] 3)
    (mkTable [] 0) [] [].
Definition anna : operator := mkOperator 2 "domain_admin" 10.
Definition encrypted (p : string) : string := match Encrypt demo_rsa "" p with Ok c => c | Err _ => "" end.
Definition admins (d : udb) : list Z := filter (λ i, 0 <? admin_count i (rbac d) = true) [1; 2; 3; 4].

(** A property of all rows of a given table. *)
Ltac each_row := apply Forall_forall; repeat constructor; simpl; try lia.
Ltac distinct := by apply (bool_decide_unpack _).

Lemma office_ok : users_ok office.
Proof.
  split; [split; [distinct|each_row]|distinct| |split; [distinct|each_row]|distinct|distinct].
  intros u Hu. assert (∃ p, validatePlaintextPassword p = Ok tt ∧ Password u = "$2a$" +:+ p) as (p & Hv & Hp).
  { revert u Hu. apply Forall_forall. repeat (apply Forall_cons; split; [refine (ex_intro _ _ (conj _ eq_refl)); by vm_compute|]). done. }
  right. exists "", p. split; [done|]. simpl. rewrite Hp. unfold validatePlaintextPassword in Hv.
  destruct (Nat.leb_spec (String.length p) 72); [done|]. destruct (Nat.ltb_spec (String.length p) passwordMinLength); [done|].
  destruct (Nat.ltb_spec passwordMaxLength (String.length p)); [done|]. unfold passwordMaxLength in *. lia.
Qed.

Lemma anna_unprivileged q : operator_of q = Some anna → unprivileged q.
Proof. intros E op. rewrite E. by intros [= <-]. Qed.

Lemma domain_admin_makes_no_admin_witness :
  admins (serve demo_rsa (RUpdateUser 5 anna 2 (Some (mkUpdateUser "anna" "" "" "" true [3] [10]))) office []).2.1 = [1] ∧
  ¬ is_admin (rbac (serve demo_rsa (RUpdateUser 5 anna 2 (Some (mkUpdateUser "anna" "" "" "" true [3] [10]))) office []).2.1) 2.
Proof.
  split; [by vm_compute|]. intros Ha.
  apply (domain_admin_makes_no_admin demo_rsa _ office 2) in Ha; [|by apply anna_unprivileged|distinct].
  apply admin_count_pos in Ha. by vm_compute in Ha.
Defined.

Lemma domain_admin_gives_own_domains_witness :
  let q := RCreateUser 5 "" anna (Some (mkCreateUser "dora" "" "" "" (encrypted "dora01") [10] [3])) in
  mkUserDomain 4 10 true ∈ rows (user_domains (rbac (serve demo_rsa q office []).2.1)) ∧ member office 2 10.
Proof.
  intros q. assert (mkUserDomain 4 10 true ∈ rows (user_domains (rbac (serve demo_rsa q office []).2.1))) as Hin.
  { vm_compute. set_solver. }
  split; [done|].
  destruct (domain_admin_gives_own_domains demo_rsa q office [] (mkUserDomain 4 10 true)) as [Hold|Hown];
    [by apply anna_unprivileged|done| |done].
  simpl in Hold. set_solver.
Defined.

Lemma passwords_change_with_the_old_one_witness :
  let q := RChangePassword 5 "" anna (Some (encrypted "anna01", encrypted "anna02")) in
  (user_row 2 (serve demo_rsa q office []).2.1) = Some (set_password 5 "$2a$anna02" (account 2 "anna" "anna01")) ∧
  sets_password demo_rsa q office 2.
Proof.
  intros q.
  assert (set_password 5 "$2a$anna02" (account 2 "anna" "anna01") ∈ rows (users (serve demo_rsa q office []).2.1)) as Hin.
  { vm_compute. set_solver. }
  split; [by vm_compute|].
  destruct (passwords_change_with_the_old_one demo_rsa q office [] _ Hin) as [(w & Hw & _ & Hp)|Hs]; [|done].
  exfalso. cbn [rows users office] in Hw. rewrite !elem_of_cons, elem_of_nil in Hw. destruct Hw as [-> |[-> |[-> |[]]]]; by vm_compute in Hp.
Defined.

(** ** What the checks miss *)

(** The check on roles goes on when it cannot read one: with one failed query
    a domain administrator makes itself a system administrator. *)
Lemma failed_query_lets_admin_role_through :
  admins (serve demo_rsa (RAssignUserRoles anna 2 (Some [1])) office []).2.1 = [1] ∧
  admins (serve demo_rsa (RAssignUserRoles anna 2 (Some [1])) office [Lost]).2.1 = [1; 2].
Proof. by vm_compute. Qed.

(** The functions with a domain check in their names make none: a domain
    administrator sets the password of the system administrator, disables its
    account, and deletes it. *)
Lemma domain_admin_rules_root :
  Password <$> user_row 1 (serve demo_rsa (RResetUserPassword 5 "" anna 1 (Some (encrypted "mine01"))) office []).2.1 = Some "$2a$mine01" ∧
  IsActive <$> user_row 1 (serve demo_rsa (RUpdateUser 5 anna 1 (Some (mkUpdateUser "root" "" "" "" false [] []))) office []).2.1 = Some false ∧
  user_row 1 (serve demo_rsa (RDeleteUser 1) office []).2.1 = None.
Proof. by vm_compute. Qed.

(** Roles are given without a domain: an administrator of domain 10
    administers domain 20 as well. *)
Lemma domain_admin_everywhere : (IsDomainAdmin 2 20 (rbac office) []).1 = Ok true ∧ ¬ member office 2 20.
Proof.
  split; [by vm_compute|]. intros (ud & Hin & Hu & Hd). simpl in Hin. rewrite !elem_of_cons, elem_of_nil in Hin.
  destruct Hin as [-> |[-> |[]]]; simpl in *; lia.
Qed.

(** The service reports a wrong old password with another error than the
    handler expects: the user reads of an internal error. *)
Lemma wrong_old_password_reply :
  (h_ChangePassword demo_rsa 5 "" anna (Some (encrypted "nope01", encrypted "anna02")) office []).1 =
    Fail CodeInternalError "操作失败，请稍后重试".
Proof. by vm_compute. Qed.

(** A failed deletion of the roles is not looked at: the user is gone, its
    roles stay, and a token issued before still carries them. *)
Lemma deleted_user_keeps_role :
  let '(r, (d, _)) := h_DeleteUser 1 office [Fine; Lost] in r = Success tt ∧ user_row 1 d = None ∧ admins d = [1].
Proof. by vm_compute. Qed.

(** A role that could not be assigned is not reported: the user is created
    without it. *)
Lemma created_without_role :
  let '(r, (d, _)) := h_CreateUser demo_rsa 5 "" (mkOperator 1 "system_admin" 0)
    (Some (mkCreateUser "dora" "" "" "" (encrypted "dora01") [10] [3])) office [Fine; Lost] in
  (∃ u, r = Success u ∧ u_ID u = 4) ∧ where_ (λ ur, ur_user ur =? 4) (rows (user_roles (rbac d))) = [].
Proof. vm_compute. split; [by eexists|done]. Qed.

(** Without a current domain every user is listed, and the list of a domain is
    given to those outside it. *)
Lemma lists_reach_too_far :
  (∃ es, (h_ListUsers (mkOperator 3 "viewer" 0) office []).1 = Success es ∧ u_ID ∘ en_user <$> es = [3; 2; 1]) ∧
  (∃ es, (h_ListUsersByDomain anna (Some 20) office []).1 = Success es ∧ u_ID ∘ en_user <$> es = [3]).
Proof. vm_compute. by split; eexists. Qed.

(** The guard of the deletion and the deletion are two statements: a user that
    joins the domain in between stays in a domain that is gone. *)
Lemma member_of_deleted_domain :
  let d := set_domains (λ t, mkTable (rows t ++ [mkDomain 30 "west" ""]) 30) office in
  (GetDomain 30 d []).1 = Ok (Some (mkStats (mkDomain 30 "west" "") 0 0 0)) ∧
  let d' := (AssignUserDomains 3 [30] d []).2.1 in
  let d'' := (Users.write (set_domains (delete_where (λ dom, dom_ID dom =? 30))) d' []).2.1 in
  domain_row 30 d'' = None ∧ member d'' 3 30.
Proof. vm_compute. split; [done|]. split; [done|]. eexists. by split; [right; left|]. Qed.
