(* ===== verification/ApiToken.v ===== *)
(** * API tokens

    [src/scheduler/internal/service/api_token.go] and its handlers
    [src/scheduler/internal/handler/api_token.go]: one random token for each
    user, stored encrypted, that stands for a login until it is revoked.  The
    random bytes a request draws are [draws].  Writing [last_used_at] and the
    audit log are goroutines of their own in the code: the first is run at the
    end of the call, the second is left out.  Times are read back as they were
    stored. *)
From S2P Require Import Prelude Sql Permission Crypto RsaUtil Users UserGuards.

Record draws : Type := mkDraws { token_bytes : string; aes_key : string; rsa_seed : string; gcm_nonce : string }.

Section service.
Context `{Rsa, Aead} (rsaUtil : RSAUtil).
Implicit Types d : udb.

Definition token_of (r : draws) : string := "bdf_" +:+ hex_encode (token_bytes r).

(** [UNIQUE(user_id)] *)
Definition insert_token (now userID : Z) (tokenEncrypted tokenPrefix : string) d : result error (Z * udb) :=
  if existsb (λ t, tok_UserID t =? userID) (rows (api_tokens d)) then Err (ErrUnique "user_id")
  else
    let t := insert_row (λ id, mkAPIToken id userID tokenEncrypted tokenPrefix None now) (api_tokens d) in
    Ok (last_id t, set_tokens (λ _, t) d).
Definition delete_tokens (userID : Z) : udb → udb := set_tokens (delete_where (λ t, tok_UserID t =? userID)).

Definition GenerateToken (now : Z) (r : draws) (userID : Z) : M udb (result error (string * APIToken)) :=
  let tokenString := token_of r in
  let tokenPrefix := String.substring 0 8 tokenString in
  match EncryptLarge rsaUtil (aes_key r) (rsa_seed r) (gcm_nonce r) tokenString with
  | Err e => mret (Err (ErrRsa e))
  | Ok tokenEncrypted =>
      _ ←? write (delete_tokens userID);
      id ←? write_unique (insert_token now userID tokenEncrypted tokenPrefix);
      mret (Ok (tokenString, mkAPIToken id userID tokenEncrypted tokenPrefix None now))
  end.

Definition token_row (userID : Z) d : option APIToken := head (where_ (λ t, tok_UserID t =? userID) (rows (api_tokens d))).
Definition GetTokenInfo (userID : Z) : M udb (result error APIToken) :=
  o ←? select (token_row userID);
  mret match o with Some t => Ok t | None => Err ErrAPITokenNotFound end.

Definition RevealToken (userID : Z) : M udb (result error string) :=
  tokenInfo ←? GetTokenInfo userID;
  mret match DecryptLarge rsaUtil (TokenEncrypted tokenInfo) with Ok p => Ok p | Err e => Err (ErrRsa e) end.

Definition RevokeToken (userID : Z) : M udb (result error unit) :=
  _ ←? GetTokenInfo userID;
  write (delete_tokens userID).

(** The loop over the rows skips what does not decrypt. *)
Definition holds (tokenString : string) (t : APIToken) : bool :=
  match DecryptLarge rsaUtil (TokenEncrypted t) with Ok p => bool_decide (p = tokenString) | Err _ => false end.
Definition well_formed (tokenString : string) : bool :=
  negb (Nat.ltb (String.length tokenString) 8) && bool_decide (String.substring 0 4 tokenString = "bdf_").
Definition touch_token (now id : Z) : udb → udb :=
  set_tokens (update_where (λ t, tok_ID t =? id)
    (λ t, mkAPIToken (tok_ID t) (tok_UserID t) (TokenEncrypted t) (TokenPrefix t) (Some now) (tok_CreatedAt t))).

Definition ValidateToken (now : Z) (tokenString : string) : M udb (result error Z) :=
  if negb (well_formed tokenString) then mret (Err ErrAPITokenInvalid)
  else
    ts ←? select (λ d, rows (api_tokens d));
    match head (where_ (holds tokenString) ts) with
    | None => mret (Err ErrAPITokenInvalid)
    | Some t =>
        if tok_UserID t =? 0 then mret (Err ErrAPITokenInvalid)
        else
          user ←? select (user_row (tok_UserID t));
          match user with
          | None => mret (Err ErrAPITokenInvalid)
          | Some u =>
              if negb (IsActive u) then mret (Err ErrUserInactive)
              else _ ← ignore (write (touch_token now (tok_ID t))); mret (Ok (tok_UserID t))
          end
    end.

Definition GetTokenUserInfo (userID : Z) : M udb (result error (string * string * Z)) :=
  user ←? select (user_row userID);
  match user with
  | None => mret (Err ErrUserNotFound)
  | Some u =>
      r ← perm (GetUserDefaultDomain userID);
      let domainID := match r with Ok i => if 0 <? i then i else 0 | Err _ => 0 end in
      mret (Ok (Username u, RealName u, domainID))
  end.

(** ** Handlers: [userID] is what the middleware put into the context. *)
Definition with_user {A} (userID : option Z) (k : Z → M udb (reply A)) : M udb (reply A) :=
  match userID with
  | None => mret (Unauthorized "未授权，请重新登录")
  | Some uid => if uid <=? 0 then mret (BadRequest "无效的用户ID") else k uid
  end.

Definition h_Generate (now : Z) (r : draws) (userID : option Z) : M udb (reply (string * string * Z)) :=
  with_user userID (λ uid,
    o ← GenerateToken now r uid;
    mret match o with
         | Ok (plaintext, t) => Success (plaintext, TokenPrefix t, tok_CreatedAt t)
         | Err _ => Fail CodeInternalError "生成 API Token 失败"
         end).
Definition h_GetInfo (userID : option Z) : M udb (reply (option (string * Z * option Z))) :=
  with_user userID (λ uid,
    o ← GetTokenInfo uid;
    mret match o with
         | Ok t => Success (Some (TokenPrefix t, tok_CreatedAt t, LastUsedAt t))
         | Err ErrAPITokenNotFound => Success None
         | Err _ => Fail CodeInternalError "查询 API Token 信息失败"
         end).
Definition h_Reveal (userID : option Z) : M udb (reply string) :=
  with_user userID (λ uid,
    o ← GetTokenInfo uid;
    match o with
    | Err ErrAPITokenNotFound => mret (NotFound "API Token 不存在")
    | Err _ => mret (Fail CodeInternalError "查看 API Token 失败")
    | Ok _ =>
        p ← RevealToken uid;
        mret match p with Ok plaintext => Success plaintext | Err _ => Fail CodeInternalError "查看 API Token 失败" end
    end).
Definition h_Revoke (userID : option Z) : M udb (reply unit) :=
  with_user userID (λ uid,
    o ← GetTokenInfo uid;
    match o with
    | Err ErrAPITokenNotFound => mret (NotFound "API Token 不存在")
    | Err _ => mret (Fail CodeInternalError "查询 API Token 信息失败")
    | Ok _ =>
        r ← RevokeToken uid;
        mret match r with Ok _ => Success tt | Err _ => Fail CodeInternalError "撤销 API Token 失败" end
    end).
End service.

(** ** A token stands for its user *)
Section facts.
Context `{RsaLaws, AeadLaws} (rsaUtil : RSAUtil).
Implicit Types d : udb.

Record draws_ok (r : draws) : Prop := {
  do_bytes : String.length (token_bytes r) = 32%nat;
  do_key : String.length (aes_key r) = keySize;
  do_nonce : String.length (gcm_nonce r) = nonceSize;
}.

Lemma hex_encode_length s : String.length (hex_encode s) = (2 * String.length s)%nat.
Proof. induction s as [|c s IH]; [done|]. simpl in *. lia. Qed.
Lemma well_formed_token r : draws_ok r → well_formed (token_of r) = true.
Proof.
  intros Hr. unfold well_formed, token_of. rewrite string_length_app, hex_encode_length, (do_bytes r Hr).
  destruct (substring_prefix_app "bdf_" 4 (hex_encode (token_bytes r)) eq_refl) as [-> _]. done.
Qed.

(** The rows after a token was generated, and the row of the user. *)
Definition new_token (now : Z) (r : draws) (uid : Z) (enc : string) d : APIToken :=
  mkAPIToken (last_id (api_tokens d) + 1) uid enc (String.substring 0 8 (token_of r)) None now.
Definition with_token (now : Z) (r : draws) (uid : Z) (enc : string) d : udb :=
  set_tokens (λ t, mkTable (where_ (λ t, negb (tok_UserID t =? uid)) (rows t) ++ [new_token now r uid enc d])
                     (last_id t + 1)) d.

Lemma GenerateToken_run now r uid d :
  matching rsaUtil → (keySize ≤ message_size (publicKey rsaUtil))%nat → draws_ok r →
  ∃ enc, DecryptLarge rsaUtil enc = Ok (token_of r) ∧
         GenerateToken rsaUtil now r uid d [] =
           (Ok (token_of r, new_token now r uid enc d), (with_token now r uid enc d, [])).
Proof.
  intros Hm Hsz Hr. unfold GenerateToken.
  destruct (EncryptLarge_DecryptLarge rsaUtil (aes_key r) (rsa_seed r) (gcm_nonce r) (token_of r) Hm Hsz)
    as (enc & -> & Hdec); [apply Hr..|]. exists enc. split; [done|].
  unfold bind_ok. rewrite run_bind. simpl. rewrite run_bind, run_write_unique. unfold insert_token.
  assert (existsb (λ t, tok_UserID t =? uid) (rows (api_tokens (delete_tokens uid d))) = false) as ->.
  { apply existsb_false_iff. intros t [_ Ht%negb_true_iff]%elem_of_where. done. }
  done.
Qed.

Lemma GetTokenInfo_answers uid :
  answers ErrDB (GetTokenInfo uid) (λ d, match token_row uid d with Some t => Ok t | None => Err ErrAPITokenNotFound end).
Proof.
  eapply answers_ext; [apply answers_bind; [apply answers_query|intros o; apply answers_ret]|]. intros d. reflexivity.
Qed.

(** Without faults a token is accepted exactly for the active user whose row,
    the first that holds it, is stored. *)
Definition validated (tokenString : string) d : result error Z :=
  match head (where_ (holds rsaUtil tokenString) (rows (api_tokens d))) with
  | Some t =>
      if tok_UserID t =? 0 then Err ErrAPITokenInvalid
      else match user_row (tok_UserID t) d with
           | Some u => if IsActive u then Ok (tok_UserID t) else Err ErrUserInactive
           | None => Err ErrAPITokenInvalid
           end
  | None => Err ErrAPITokenInvalid
  end.
Lemma ValidateToken_run now tokenString d :
  (ValidateToken rsaUtil now tokenString d []).1 =
    if well_formed tokenString then validated tokenString d else Err ErrAPITokenInvalid.
Proof.
  unfold ValidateToken, validated. destruct (well_formed tokenString); [|done]. simpl. unfold bind_ok. rewrite run_bind. simpl.
  destruct (head _) as [t|]; [|done]. destruct (tok_UserID t =? 0); [done|]. rewrite run_bind. simpl.
  destruct (user_row (tok_UserID t) d) as [u|]; [|done]. by destruct (IsActive u).
Qed.
(** ... and with them never for anybody else. *)
Lemma ValidateToken_sound now tokenString d fs uid :
  (ValidateToken rsaUtil now tokenString d fs).1 = Ok uid →
  ∃ t u, t ∈ rows (api_tokens d) ∧ tok_UserID t = uid ∧ uid ≠ 0 ∧
         DecryptLarge rsaUtil (TokenEncrypted t) = Ok tokenString ∧ user_row uid d = Some u ∧ IsActive u = true.
Proof.
  unfold ValidateToken. destruct (well_formed tokenString); [|done]. simpl. unfold bind_ok, Users.select. rewrite run_bind.
  destruct (answers_query ErrDB (λ d, rows (api_tokens d)) d fs) as (fs' & [->|[-> _]] & _); [|done].
  destruct (head _) as [t|] eqn:Et; [|done]. destruct (Z.eqb_spec (tok_UserID t) 0); [done|]. rewrite run_bind.
  destruct (answers_query ErrDB (user_row (tok_UserID t)) d fs') as (fs'' & [->|[-> _]] & _); [|done].
  destruct (user_row (tok_UserID t) d) as [u|] eqn:Eu; [|done]. destruct (IsActive u) eqn:Ea; [|done]. simpl.
  rewrite run_bind. destruct (ignore _ _ _) as [[] [d' fs3]]. simpl. intros [= <-].
  assert (t ∈ where_ (holds rsaUtil tokenString) (rows (api_tokens d))) as [Hin Hh]%elem_of_where.
  { destruct (where_ _ _); [done|]. injection Et as ->. by left. }
  exists t, u. split_and!; try done. unfold holds in Hh. destruct (DecryptLarge _ _) as [p|]; [|done].
  by apply bool_decide_eq_true in Hh as ->.
Qed.

(** C21: a generated token stands for its user from then on: it is shown again
    on request, is accepted exactly while the account exists and is active,
    replaces the token the user had, and is refused once it is revoked. *)
Theorem token_roundtrip now now' r uid d :
  matching rsaUtil → (keySize ≤ message_size (publicKey rsaUtil))%nat → draws_ok r → 0 < uid →
  (∀ t, t ∈ rows (api_tokens d) → tok_UserID t ≠ uid → holds rsaUtil (token_of r) t = false) →
  ∃ row d', GenerateToken rsaUtil now r uid d [] = (Ok (token_of r, row), (d', [])) ∧
    (RevealToken rsaUtil uid d' []).1 = Ok (token_of r) ∧
    (ValidateToken rsaUtil now' (token_of r) d' []).1 =
      match user_row uid d with
      | Some u => if IsActive u then Ok uid else Err ErrUserInactive
      | None => Err ErrAPITokenInvalid
      end ∧
    (∀ other fs, (ValidateToken rsaUtil now' other d' fs).1 = Ok uid → other = token_of r) ∧
    let '(revoked, (d'', _)) := RevokeToken uid d' [] in
    revoked = Ok tt ∧ (ValidateToken rsaUtil now' (token_of r) d'' []).1 = Err ErrAPITokenInvalid.
Proof.
  intros Hm Hsz Hr Hu Hfresh. destruct (GenerateToken_run now r uid d Hm Hsz Hr) as (enc & Hdec & ->).
  eexists _, _. split; [done|]. set (row := new_token now r uid enc d).
  set (others := where_ (λ t, negb (tok_UserID t =? uid)) (rows (api_tokens d))).
  assert (∀ t, t ∈ others → tok_UserID t ≠ uid ∧ holds rsaUtil (token_of r) t = false) as Ho.
  { intros t [Ht Hne%negb_true_iff%Z.eqb_neq]%elem_of_where. split; [done|]. by apply Hfresh. }
  assert (rows (api_tokens (with_token now r uid enc d)) = others ++ [row]) as Hrows by done.
  assert (holds rsaUtil (token_of r) row = true) as Hh.
  { unfold holds. simpl. rewrite Hdec. by apply bool_decide_true. }
  assert (∀ p : APIToken → bool, (∀ t, t ∈ others → p t = false) → p row = true →
    head (where_ p (rows (api_tokens (with_token now r uid enc d)))) = Some row) as Hhead.
  { intros p Hp Hrow. rewrite Hrows. unfold where_. rewrite filter_app. fold (where_ p others).
    rewrite (where_none p others) by done. by rewrite filter_cons_True. }
  assert (token_row uid (with_token now r uid enc d) = Some row) as Hrow.
  { apply Hhead; [|apply Z.eqb_refl]. intros t Ht. apply Z.eqb_neq. by apply Ho. }
  split; [|split; [|split]].
  - unfold RevealToken, bind_ok. rewrite run_bind, (answers_run _ _ _ _ (GetTokenInfo_answers uid)), Hrow. simpl.
    by rewrite Hdec.
  - rewrite ValidateToken_run, (well_formed_token r Hr). unfold validated. rewrite (Hhead _); [|by apply Ho|done]. simpl.
    by destruct (Z.eqb_spec uid 0); [lia|].
  - intros other fs (t & u & Hin & Htu & _ & Hd' & _)%ValidateToken_sound. rewrite Hrows in Hin.
    apply elem_of_app in Hin as [Hin%Ho| ->%list_elem_of_singleton]; [by destruct Hin|]. simpl in Hd'. congruence.
  - unfold RevokeToken, bind_ok. rewrite run_bind, (answers_run _ _ _ _ (GetTokenInfo_answers uid)), Hrow. simpl. split; [done|].
    rewrite ValidateToken_run, (well_formed_token r Hr). unfold validated. simpl. fold others. rewrite where_none; [done|].
    intros t [Ht Hne%negb_true_iff%Z.eqb_neq]%elem_of_where.
    apply elem_of_app in Ht as [Ht%Ho| ->%list_elem_of_singleton]; [by destruct Ht|]. by destruct Hne.
Qed.
End facts.

(** ** One token for each user *)
Section one_token.
Context `{Rsa, Aead} (rsaUtil : RSAUtil).
Implicit Types d : udb.

Definition tokens_ok d : Prop := keyed tok_ID (api_tokens d) ∧ NoDup (tok_UserID <$> rows (api_tokens d)).

Lemma tokens_ok_delete uid d : tokens_ok d → tokens_ok (delete_tokens uid d).
Proof. intros [Hk Hn]. split; [by apply keyed_delete|by apply NoDup_fmap_where]. Qed.
Lemma tokens_ok_insert now uid enc prefix d id d' : tokens_ok d → insert_token now uid enc prefix d = Ok (id, d') → tokens_ok d'.
Proof.
  intros [Hk Hn]. unfold insert_token. destruct (existsb _ _) eqn:E; [done|]. intros [= <- <-].
  split; [by apply keyed_insert|]. apply NoDup_fmap_snoc; [done|]. intros t Ht. rewrite existsb_false_iff in E.
  by apply Z.eqb_neq, E.
Qed.
Lemma tokens_ok_touch now id d : tokens_ok d → tokens_ok (touch_token now id d).
Proof. intros [Hk Hn]. split; [by apply keyed_update|]. simpl. by rewrite fmap_update_where. Qed.

Lemma tokens_ok_closed `{Bcrypt} : closed tokens_ok.
Proof.
  split; intros *; unfold insert_user, update_user, insert_user_role, insert_user_domain, insert_domain, update_domain;
    try case_match; intros; simplify_eq/=; done.
Qed.

(** What the token service writes. *)
Record token_closed (I : udb → Prop) : Prop := {
  tc_delete uid d : I d → I (delete_tokens uid d);
  tc_insert now uid enc prefix d id d' : I d → insert_token now uid enc prefix d = Ok (id, d') → I d';
  tc_touch now id d : I d → I (touch_token now id d);
}.
Lemma tokens_ok_token_closed : token_closed tokens_ok.
Proof. split; [apply tokens_ok_delete|intros *; apply tokens_ok_insert|apply tokens_ok_touch]. Qed.

Context (I : udb → Prop) (HI : token_closed I).
Lemma preserves_GenerateToken now r uid : preserves I (GenerateToken rsaUtil now r uid).
Proof.
  unfold GenerateToken. repeat users_step.
  - apply preserves_write_udb. apply (tc_delete I HI).
  - apply preserves_write_unique. intros *. apply (tc_insert I HI).
Qed.
Lemma preserves_RevokeToken uid : preserves I (RevokeToken uid).
Proof. unfold RevokeToken, GetTokenInfo. repeat users_step. apply preserves_write_udb. apply (tc_delete I HI). Qed.
Lemma preserves_ValidateToken now tokenString : preserves I (ValidateToken rsaUtil now tokenString).
Proof. unfold ValidateToken. repeat users_step. apply preserves_write_udb. apply (tc_touch I HI). Qed.
Lemma preserves_GetTokenUserInfo uid : preserves I (GetTokenUserInfo uid).
Proof.
  unfold GetTokenUserInfo. repeat users_step. apply preserves_perm. unfold GetUserDefaultDomain.
  apply quiet_bind; [apply quiet_select|]. intros [i|]; [apply quiet_ret|]. apply quiet_bind; [apply quiet_select|].
  intros o. apply quiet_ret.
Qed.
End one_token.

#[export] Hint Resolve preserves_GenerateToken preserves_RevokeToken preserves_ValidateToken preserves_GetTokenUserInfo : users.

(** ** An example *)
Definition demo_draws : draws := mkDraws "0123456789abcdef0123456789abcdef" (demo_key "k") "" "nonce0123456".

Lemma token_roundtrip_witness :
  ∃ row d', GenerateToken demo_rsa 5 demo_draws 2 office [] = (Ok (token_of demo_draws, row), (d', [])) ∧
            (ValidateToken demo_rsa 6 (token_of demo_draws) d' []).1 = Ok 2.
Proof.
  destruct (token_roundtrip demo_rsa 5 6 demo_draws 2 office) as (row & d' & H1 & _ & H3 & _).
  - by exists "K".
  - simpl. unfold keySize. lia.
  - by split.
  - lia.
  - by intros t ?%elem_of_nil.
  - exists row, d'. split; [exact H1|]. rewrite H3. by vm_compute.
Defined.

(** The deletion and the insertion are two statements: when the second fails
    the user has no token left. *)
Lemma failed_insert_loses_token :
  let d := (GenerateToken demo_rsa 5 demo_draws 2 office []).2.1 in
  is_Some (token_row 2 d) ∧ token_row 2 (GenerateToken demo_rsa 6 demo_draws 2 d [Fine; Lost]).2.1 = None.
Proof. vm_compute. split; [by eexists|done]. Qed.
