(* ===== verification/Auth.v ===== *)
(** * Logging in

    [src/scheduler/internal/middleware/auth.go],
    [src/scheduler/internal/service/auth_service.go] and
    [src/scheduler/internal/handler/auth.go]: the tokens of a session, the
    middleware every protected request passes, and the handlers that issue
    tokens.  [Jwt] stands for [github.com/golang-jwt/jwt] with HS256 keys; its
    laws hold for claims whose texts are valid UTF-8.  Times are nanoseconds.
    The answer of the single sign-on service is an argument; decoding requests,
    metrics and the audit log are left out.  [UpdateLastLogin] is a goroutine
    of its own in the code; nothing later in the handler reads what it
    writes. *)
From Stdlib Require Import Ascii.
From S2P Require Import Prelude Sql Permission Crypto RsaUtil Users UserGuards ApiToken.

Record Claims : Type := mkClaims {
  c_UserID : Z; c_Username : string; c_RealName : string; CurrentDomainID : Z;
  ExpiresAt : Z; IssuedAt : Z; Issuer : string;
}.

(** [same_key] holds of keys HMAC does not tell apart. *)
Class Jwt : Type := {
  SignedString : string → Claims → option string;
  ParseWithClaims : string → Z → string → option Claims;
  same_key : string → string → bool;
}.
Definition second : Z := 1000000000.
Definition hour : Z := 3600 * second.
(** A token is read back with its key, before the second of its expiry, as it
    was signed; the key of refresh tokens is another one. *)
Class JwtLaws (J : Jwt) : Prop := {
  signed k c : is_Some (SignedString k c);
  parse_signed k k' c t now : SignedString k c = Some t →
    ParseWithClaims k' now t = if same_key k' k && (now <? ExpiresAt c * second) then Some c else None;
  same_key_refl k : same_key k k = true;
  refresh_key_differs k : same_key k (k +:+ "_refresh") = false ∧ same_key (k +:+ "_refresh") k = false;
}.

(** ** [middleware/auth.go]: tokens *)
Record JWTConfig : Type := mkJWT { Secret : string; ExpiryHours : Z; RefreshSecret : string; RefreshExpiryHours : Z }.

Definition InitJWT (secret : string) (expiryHours : Z) (refreshExpiryHours : list Z) : JWTConfig :=
  let refreshHours := match refreshExpiryHours with h :: _ => if 0 <? h then h else 168 | [] => 168 end in
  mkJWT secret (if expiryHours <=? 0 then 2 else expiryHours) (secret +:+ "_refresh") refreshHours.
Definition SetRefreshExpiryHours (hours : Z) (cfg : JWTConfig) : JWTConfig :=
  mkJWT (Secret cfg) (ExpiryHours cfg) (RefreshSecret cfg) hours.

(** [jwt.NewNumericDate(time.Now().Add(time.Duration(hours) * time.Hour))] *)
Definition expiry (now hours : Z) : Z := (now + int64 (hours * hour)) / second.

Section tokens.
Context `{Jwt} (cfg : JWTConfig).

Definition GenerateToken (now userID : Z) (username realName : string) (currentDomainID : Z) : option string :=
  SignedString (Secret cfg)
    (mkClaims userID username realName currentDomainID (expiry now (ExpiryHours cfg)) (now / second) "bdopsflow").
Definition GenerateRefreshToken (now userID : Z) (username realName : string) (currentDomainID : Z) : option string :=
  SignedString (RefreshSecret cfg)
    (mkClaims userID username realName currentDomainID (expiry now (RefreshExpiryHours cfg)) (now / second) "bdopsflow-refresh").
Definition ParseToken (now : Z) (tokenString : string) : option Claims := ParseWithClaims (Secret cfg) now tokenString.
Definition ParseRefreshToken (now : Z) (tokenString : string) : option Claims := ParseWithClaims (RefreshSecret cfg) now tokenString.
End tokens.

(** [strings.SplitN(s, sep, 2)] *)
Fixpoint cut_space (s : string) : option (string * string) :=
  match s with
  | "" => None
  | String c s => if Ascii.eqb c " " then Some ("", s) else '(a, b) ← cut_space s; Some (String c a, b)
  end.
Definition bearer (authHeader query : string) : string :=
  let tokenString :=
    match cut_space authHeader with Some (scheme, rest) => if bool_decide (scheme = "Bearer") then rest else "" | None => "" end in
  if bool_decide (tokenString = "") then query else tokenString.

(** What the middleware hands on, or its refusal. *)
Inductive verdict (A : Type) : Type := Next (a : A) | Abort (status : Z) (message : string).
Arguments Next {A}.
Arguments Abort {A}.
Inductive auth_type : Type := ByJwt | ByApiToken.
Record identity : Type := mkIdentity {
  user_id : Z; username : string; real_name : string; current_domain_id : Z; via : auth_type;
}.
Definition of_claims (c : Claims) : identity := mkIdentity (c_UserID c) (c_Username c) (c_RealName c) (CurrentDomainID c) ByJwt.

(** A query of the permission service that keeps its error. *)
Definition perm_err {A} (m : M db (result Permission.error A)) : M udb (result Permission.error A) :=
  zoom rbac (λ r d, mkUdb r (users d) (api_tokens d) (exec_domains d) (task_domains d)) m.

Section middleware.
Context `{Jwt, Rsa, Aead} (cfg : JWTConfig) (rsaUtil : RSAUtil).

Definition JWTAuthMiddleware (now : Z) (authHeader query : string) : verdict identity :=
  let tokenString := bearer authHeader query in
  if bool_decide (tokenString = "") then Abort 401 "Authorization required"
  else match ParseToken cfg now tokenString with
       | Some claims => Next (of_claims claims)
       | None => Abort 401 "Invalid token"
       end.

Definition JWTAuthMiddlewareWithAPIToken (now : Z) (authHeader query : string) : M udb (verdict identity) :=
  let tokenString := bearer authHeader query in
  if bool_decide (tokenString = "") then mret (Abort 401 "Authorization required")
  else
    match ParseToken cfg now tokenString with
    | Some claims => mret (Next (of_claims claims))
    | None =>
        if String.prefix "bdf_" tokenString then
          r ← ValidateToken rsaUtil now tokenString;
          match r with
          | Ok userID =>
              if 0 <? userID then
                info ← GetTokenUserInfo userID;
                mret match info with
                     | Err _ => Abort 401 "Invalid token"
                     | Ok (username, realName, domainID) => Next (mkIdentity userID username realName domainID ByApiToken)
                     end
              else mret (Abort 401 "Invalid token")
          | Err _ => mret (Abort 401 "Invalid token")
          end
        else mret (Abort 401 "Invalid token")
    end.

(** The loop over the codes; "" stands for no role in the context. *)
Fixpoint role_loop (role : string) (roleCodes : list string) : string :=
  match roleCodes with
  | [] => role
  | code :: rest =>
      if bool_decide (code = "system_admin") then "system_admin"
      else if bool_decide (code = "domain_admin") && negb (bool_decide (role = "system_admin")) then role_loop "domain_admin" rest
      else role_loop role rest
  end.
Definition InjectUserRole (id : identity) : M udb (verdict string) :=
  if user_id id <=? 0 then mret (Next "")
  else
    r ← perm (GetUserRoleCodes (user_id id));
    mret match r with
         | Err _ => Next ""
         | Ok [] => Abort 401 "User not found"
         | Ok roleCodes => Next (role_loop "user" roleCodes)
         end.

Definition RequireSystemAdmin (id : identity) : M udb (verdict unit) :=
  r ← perm (IsSystemAdmin (user_id id));
  mret match r with
       | Err _ => Abort 500 "Failed to check permissions"
       | Ok false => Abort 403 "System admin access required"
       | Ok true => Next tt
       end.
Definition RequirePermission (resource action : string) (id : identity) : M udb (verdict unit) :=
  r ← perm (HasPermission (user_id id) resource action (current_domain_id id));
  mret match r with
       | Err _ => Abort 500 "Failed to check permissions"
       | Ok false => Abort 403 "Insufficient permissions"
       | Ok true => Next tt
       end.

(** [if c.IsAborted() { return }] between the handlers of a chain. *)
Definition and_then {A B} (m : M udb (verdict A)) (k : A → M udb (verdict B)) : M udb (verdict B) :=
  v ← m; match v with Next a => k a | Abort s e => mret (Abort s e) end.
(** The chain of the group [protected] in [cmd/routes.go], up to the
    handler. *)
Definition protected (now : Z) (authHeader query : string) : M udb (verdict operator) :=
  and_then (JWTAuthMiddlewareWithAPIToken now authHeader query) (λ id,
  and_then (InjectUserRole id) (λ role,
  mret (Next (mkOperator (user_id id) role (current_domain_id id))))).
End middleware.

(** *** Checks on one resource

    [has] is the permission service, [S] its state. *)
Section instance.
Context {S E : Type} (has : Z → Z → string → M S (result E bool)).

Definition instance_verdict (m : M S (result E bool)) : M S (verdict unit) :=
  r ← m;
  mret match r with
       | Err _ => Abort 500 "Failed to check permissions"
       | Ok false => Abort 403 "Insufficient permissions"
       | Ok true => Next tt
       end.
Definition RequireInstancePermission (userID instanceID : Z) (permissionType : string) : M S (verdict unit) :=
  if instanceID =? 0 then mret (Abort 400 "Invalid resource ID")
  else instance_verdict (has userID instanceID permissionType).

(** [parseInt64]: [fmt.Sscanf(s, "%d", &n)] skips blanks (those of ASCII here)
    and takes the leading digits with an optional sign; a number that does not
    fit leaves [n] at 0. *)
Fixpoint skip_blanks (s : string) : string :=
  match s with
  | String c s' => let n := N_of_ascii c in if (n =? 32)%N || ((9 <=? n) && (n <=? 13) && negb (n =? 10))%N then skip_blanks s' else s
  | "" => ""
  end.
Fixpoint leading (s : string) (acc : option Z) : option Z :=
  match s with
  | "" => acc
  | String c s' => if digit c then leading s' (Some (default 0 acc * 10 + Z.of_N (N_of_ascii c) - 48)) else acc
  end.
Definition parseInt64 (s : string) : Z :=
  let n := match skip_blanks s with
           | String "-" s' => Z.opp <$> leading s' None
           | String "+" s' => leading s' None
           | s' => leading s' None
           end in
  match n with Some n => if (- 2 ^ 63 <=? n) && (n <? 2 ^ 63) then n else 0 | None => 0 end.

(** [body] is the field [datasource_id] of the body, 0 when it is not there or
    not readable. *)
Definition DatasourcePermissionMiddleware (permissionType meth idStr : string) (body userID : Z) : M S (verdict unit) :=
  let datasourceID := if bool_decide (idStr = "") then 0 else parseInt64 idStr in
  let datasourceID := if datasourceID =? 0 then body else datasourceID in
  if datasourceID =? 0 then
    mret (if in_list meth ["POST"; "PUT"; "PATCH"] then Abort 400 "datasource_id is required" else Next tt)
  else instance_verdict (has userID datasourceID permissionType).
End instance.

(** ** [service/auth_service.go] *)
Definition login_row (username : string) d : option User :=
  head (where_ (λ u, bool_decide (Username u = username)) (rows (users d))).
(** The queries return the columns the handlers read, or [None] when there is
    no such row. *)
Definition auth_GetUserByUsername (username : string) : M udb (result error (option User)) := select (login_row username).
Definition GetSSOUserByUsername (username : string) : M udb (result error (option User)) :=
  select (λ d, blank_password <$> login_row username d).
Definition auth_GetUserByID (userID : Z) : M udb (result error (option User)) :=
  select (λ d, blank_password <$> user_row userID d).
Definition GetUserActiveStatus (userID : Z) : M udb (result error (option bool)) :=
  select (λ d, IsActive <$> user_row userID d).
Definition auth_CreateUser (now : Z) (username realName phone hashedPassword email : string) : M udb (result error Z) :=
  write_unique (insert_user now username realName phone email hashedPassword None).
Definition GetRoleIDByCode (code : string) : M udb (result error Z) :=
  select (λ d, default 0 (role_ID <$> head (where_ (λ r, bool_decide (role_Code r = code)) (rows (roles (rbac d)))))).
Definition AssignUserRole (userID roleID : Z) : M udb (result error unit) := write_unique (insert_user_role userID roleID None).

(** ** [handler/auth.go] *)
Record session : Type := mkSession {
  s_token : string; s_refresh_token : string; s_user : User; s_permissions : list Permission;
  s_domains : list UserDomainInfo; s_current_domain_id : Z; s_role_codes : list string;
}.
Definition CodeInvalidCredentials : Z := 11003.
Definition CodeInvalidToken : Z := 11007.

(** What the single sign-on service answers. *)
Record ssoContent : Type := mkContent { LoginName : string; IDCardName : string; MobileNo : string; sso_Email : string }.
Inductive sso_outcome : Type :=
| SsoFailed
| SsoUnreadable
| SsoResponse (Code Message : string) (Content : option ssoContent).

Section handlers.
Context `{Jwt, Rsa, Bcrypt} (cfg : JWTConfig) (rsaUtil : RSAUtil).

Definition or_nil {A} (r : result error (list A)) : list A := match r with Ok l => l | Err _ => [] end.
Definition server_error {A} : reply A := Fail CodeInternalError "服务器错误，请稍后重试".

(** The part [Login] and [SSOLogin] share: the domain the session starts
    in. *)
Definition start_domain (userID : Z) : M udb (Z * list UserDomainInfo) :=
  infos ← perm (GetUserDomainInfos userID);
  default_ ← perm (GetUserDefaultDomain userID);
  let defaultDomainID := match default_ with Ok i => i | Err _ => 0 end in
  let currentDomainID := if 0 <? defaultDomainID then defaultDomainID
                         else match or_nil infos with i :: _ => DomainID i | [] => 0 end in
  mret (currentDomainID, or_nil infos).
Definition permissions_and_codes (userID : Z) : M udb (list Permission * list string) :=
  ps ← perm (GetUserPermissions userID);
  codes ← perm (GetUserRoleCodes userID);
  mret (or_nil ps, or_nil codes).

Definition Login (now : Z) (req : option (string * string)) : M udb (reply session) :=
  match req with
  | None => mret (BadRequest "用户名和密码不能为空")
  | Some (username, password) =>
      if bool_decide (username = "") || bool_decide (password = "") then mret (BadRequest "用户名和密码不能为空")
      else
        r ← auth_GetUserByUsername username;
        match r with
        | Err _ => mret server_error
        | Ok None => mret (Fail CodeInvalidCredentials "用户名或密码错误")
        | Ok (Some u) =>
            match Decrypt rsaUtil password with
            | Err _ => mret (Fail CodeInvalidCredentials "用户名或密码错误")
            | Ok plain =>
                if negb (CompareHashAndPassword (Password u) plain) then mret (Fail CodeInvalidCredentials "用户名或密码错误")
                else if negb (IsActive u) then mret (Fail CodeInvalidCredentials "该账号已被禁用，请联系管理员")
                else
                  '(currentDomainID, domains) ← start_domain (u_ID u);
                  match GenerateToken cfg now (u_ID u) (Username u) (RealName u) currentDomainID,
                        GenerateRefreshToken cfg now (u_ID u) (Username u) (RealName u) currentDomainID with
                  | Some token, Some refreshToken =>
                      _ ← ignore (UpdateLastLogin now (u_ID u));
                      '(permissions, codes) ← permissions_and_codes (u_ID u);
                      mret (Success (mkSession token refreshToken (blank_password u) permissions domains currentDomainID codes))
                  | _, _ => mret server_error
                  end
            end
        end
  end.

Definition RefreshToken (now : Z) (refresh_token : option string) : M udb (reply (string * string)) :=
  match refresh_token with
  | None => mret (BadRequest "refresh_token 不能为空")
  | Some t =>
      match ParseRefreshToken cfg now t with
      | None => mret (Fail CodeInvalidToken "refresh token 无效或已过期")
      | Some claims =>
          if negb (bool_decide (Issuer claims = "bdopsflow-refresh")) then mret (Fail CodeInvalidToken "无效的 refresh token")
          else
            r ← GetUserActiveStatus (c_UserID claims);
            mret match r with
                 | Err _ => server_error
                 | Ok None => Fail CodeInvalidToken "用户不存在"
                 | Ok (Some false) => Fail CodeInvalidToken "该账号已被禁用，请联系管理员"
                 | Ok (Some true) =>
                     match GenerateToken cfg now (c_UserID claims) (c_Username claims) (c_RealName claims) (CurrentDomainID claims),
                           GenerateRefreshToken cfg now (c_UserID claims) (c_Username claims) (c_RealName claims) (CurrentDomainID claims) with
                     | Some newToken, Some newRefreshToken => Success (newToken, newRefreshToken)
                     | _, _ => server_error
                     end
                 end
      end
  end.

(** The default role is given on a best-effort basis. *)
Definition give_default_role (userID : Z) : M udb unit :=
  r ← GetRoleIDByCode "user";
  match r with
  | Ok roleID => if 0 <? roleID then ignore (AssignUserRole userID roleID) else mret tt
  | Err _ => mret tt
  end.

Record RegisterRequest : Type := mkRegister { reg_Username : string; reg_Password : string; reg_Email : string }.
Definition Register (now : Z) (salt : string) (req : option RegisterRequest) : M udb (reply (Z * string * string)) :=
  match req with
  | None => mret (BadRequest "请求参数错误：用户名和密码为必填项，密码至少6位")
  | Some req =>
      if bool_decide (reg_Username req = "") || bool_decide (reg_Password req = "") then mret (BadRequest "用户名和密码不能为空")
      else
        match Decrypt rsaUtil (reg_Password req) with
        | Err _ => mret (BadRequest "密码解密失败")
        | Ok plain =>
            match validatePlaintextPassword plain with
            | Err ErrPasswordTooShort => mret (BadRequest "密码长度至少为6位")
            | Err ErrPasswordTooLong => mret (BadRequest "密码长度不能超过30位")
            | Err _ => mret (BadRequest "密码必须包含字母和数字")
            | Ok _ =>
                match GenerateFromPassword salt plain with
                | None => mret server_error
                | Some hash =>
                    r ← auth_CreateUser now (reg_Username req) "" "" hash (reg_Email req);
                    match r with
                    | Err _ => mret server_error
                    | Ok userID =>
                        _ ← give_default_role userID;
                        mret (Success (userID, reg_Username req, reg_Email req))
                    end
                end
            end
        end
  end.

Definition h_auth_GetCurrentUser (id : identity) :
    M udb (reply (User * list Permission * list UserDomainInfo * Z * list string)) :=
  r ← auth_GetUserByID (user_id id);
  match r with
  | Err _ => mret server_error
  | Ok None => mret (NotFound "用户不存在")
  | Ok (Some u) =>
      if negb (IsActive u) then mret (Unauthorized "该账号已被禁用，请联系管理员")
      else
        ps ← perm (GetUserPermissions (user_id id));
        domains ← perm (GetUserDomainInfos (user_id id));
        codes ← perm (GetUserRoleCodes (user_id id));
        mret (Success (u, or_nil ps, or_nil domains, current_domain_id id, or_nil codes))
  end.

(** [binding:"required"] refuses domain 0. *)
Definition h_SwitchDomain (now : Z) (id : identity) (req : option Z) :
    M udb (reply (string * string * list Permission * Z * list string)) :=
  match req with
  | None => mret (BadRequest "领域ID不能为空")
  | Some domainID =>
      if domainID =? 0 then mret (BadRequest "领域ID不能为空")
      else
        r ← perm_err (SwitchDomain (user_id id) domainID);
        match r with
        | Err ErrDomainAccessDenied => mret (Forbidden "无权访问该领域")
        | Err _ => mret (Fail CodeInternalError "切换领域失败")
        | Ok permissions =>
            match GenerateToken cfg now (user_id id) (username id) (real_name id) domainID,
                  GenerateRefreshToken cfg now (user_id id) (username id) (real_name id) domainID with
            | Some token, Some refreshToken =>
                codes ← perm (GetUserRoleCodes (user_id id));
                mret (Success (token, refreshToken, permissions, domainID, or_nil codes))
            | _, _ => mret (Fail CodeInternalError "生成Token失败")
            end
        end
  end.

Context (ssoEnabled : bool) (sso : string → string → sso_outcome).

(** The account of a user the service knows: its row, or a new one without a
    password. *)
Definition sso_account (now : Z) (req_Username : string) (ssoUser : ssoContent) : M udb (reply User) :=
  let loginName := if bool_decide (LoginName ssoUser = "") then req_Username else LoginName ssoUser in
  r ← GetSSOUserByUsername loginName;
  match r with
  | Err _ => mret server_error
  | Ok (Some u) =>
      if negb (IsActive u) then mret (Fail CodeInvalidCredentials "该账号已被禁用，请联系管理员")
      else _ ← ignore (UpdateLastLogin now (u_ID u)); mret (Success u)
  | Ok None =>
      c ← auth_CreateUser now loginName (IDCardName ssoUser) (MobileNo ssoUser) "" (sso_Email ssoUser);
      match c with
      | Err _ => mret server_error
      | Ok userID =>
          _ ← give_default_role userID;
          mret (Success (mkUser userID loginName "" (IDCardName ssoUser) (MobileNo ssoUser) (sso_Email ssoUser) true None None now now))
      end
  end.

Definition SSOLogin (now : Z) (req : option (string * string)) : M udb (reply session) :=
  if negb ssoEnabled then mret (BadRequest "SSO登录未启用，请使用本地登录")
  else
    match req with
    | None => mret (BadRequest "用户名和密码不能为空")
    | Some (username, password) =>
        match sso username password with
        | SsoFailed => mret (Fail CodeInternalError "SSO登录失败，请稍后再试")
        | SsoUnreadable => mret (Fail CodeInternalError "SSO登录失败，请稍后再试")
        | SsoResponse code message content =>
            match (if bool_decide (code = "3000") then content else None) with
            | None => mret (Fail CodeInvalidCredentials (if bool_decide (message = "") then "SSO登录失败" else message))
            | Some ssoUser =>
                a ← sso_account now username ssoUser;
                match a with
                | Success u =>
                    '(currentDomainID, domains) ← start_domain (u_ID u);
                    match GenerateToken cfg now (u_ID u) (Username u) (RealName u) currentDomainID,
                          GenerateRefreshToken cfg now (u_ID u) (Username u) (RealName u) currentDomainID with
                    | Some token, Some refreshToken =>
                        '(permissions, codes) ← permissions_and_codes (u_ID u);
                        mret (Success (mkSession token refreshToken u permissions domains currentDomainID codes))
                    | _, _ => mret server_error
                    end
                | BadRequest e => mret (BadRequest e)
                | Unauthorized e => mret (Unauthorized e)
                | Forbidden e => mret (Forbidden e)
                | NotFound e => mret (NotFound e)
                | Fail code e => mret (Fail code e)
                | FailFromError e => mret (FailFromError e)
                end
            end
        end
    end.
End handlers.

(** ** Runs of the queries *)
Section runs.
Implicit Types d : udb.

Definition default_domain (userID : Z) (r : db) : Z :=
  match head (where_ (λ ud, (ud_user ud =? userID) && ud_is_default ud) (rows (user_domains r))) with
  | Some ud => ud_domain ud
  | None => default 0 (ud_domain <$> head (where_ (λ ud, ud_user ud =? userID) (rows (user_domains r))))
  end.
Lemma GetUserDefaultDomain_answers userID : answers Permission.ErrDB (GetUserDefaultDomain userID) (λ r, Ok (default_domain userID r)).
Proof.
  eapply answers_ext.
  - apply answers_bind; [apply answers_query|]. intros o. apply (answers_option _ o).
    + apply answers_bind; [apply answers_query|]. intros o'. apply answers_ret.
    + intros i. apply answers_ret.
  - intros r. simpl. unfold default_domain. destruct (head _); reflexivity.
Qed.

Lemma default_domain_member userID d : default_domain userID (rbac d) = 0 ∨ member d userID (default_domain userID (rbac d)).
Proof.
  unfold default_domain. destruct (head _) as [ud|] eqn:E1.
  - right. exists ud. apply head_Some_elem_of, elem_of_where in E1 as [Hin [Hu%Z.eqb_eq _]%andb_true_iff]. done.
  - destruct (head (where_ (λ ud, ud_user ud =? userID) _)) as [ud|] eqn:E2; [|left; reflexivity]. right. exists ud.
    apply head_Some_elem_of, elem_of_where in E2 as [Hin Hu%Z.eqb_eq]. done.
Qed.

Definition domain_infos (userID : Z) (r : db) : list UserDomainInfo :=
  (λ '(ud, dom), mkInfo (ud_domain ud) (dom_Name dom) (ud_is_default ud)) <$> join_domains userID r.
Lemma GetUserDomainInfos_answers userID : answers Permission.ErrDB (GetUserDomainInfos userID) (λ r, Ok (domain_infos userID r)).
Proof. apply answers_query. Qed.
Lemma domain_infos_member userID d i : i ∈ domain_infos userID (rbac d) → member d userID (DomainID i).
Proof.
  intros ([ud dom] & -> & Hin)%list_elem_of_fmap. unfold join_domains in Hin.
  apply list_elem_of_bind in Hin as (ud' & Hin & [Hud Hu%Z.eqb_eq]%elem_of_where).
  apply list_elem_of_bind in Hin as (dom' & [= <- <-]%list_elem_of_singleton & _). by exists ud.
Qed.

(** The domain a session starts in, whatever fails, is one of the user's. *)
Lemma start_domain_sound userID d fs :
  ∃ i infos fs', start_domain userID d fs = ((i, infos), (d, fs')) ∧ (i = 0 ∨ member d userID i).
Proof.
  unfold start_domain. rewrite run_bind.
  destruct (perm_sound _ _ _ d fs (GetUserDomainInfos_answers userID)) as (fs1 & H1).
  assert (∃ infos, perm (GetUserDomainInfos userID) d fs = (infos, (d, fs1)) ∧
                   match or_nil infos with i :: _ => member d userID (DomainID i) | [] => True end) as (infos & -> & Hi).
  { destruct H1 as [->| ->]; eexists; (split; [done|]); [|done]. simpl.
    destruct (domain_infos userID (rbac d)) as [|i l] eqn:E; [done|]. apply domain_infos_member. rewrite E. by left. }
  rewrite run_bind. destruct (perm_sound _ _ _ d fs1 (GetUserDefaultDomain_answers userID)) as (fs2 & H2).
  assert (∃ r, perm (GetUserDefaultDomain userID) d fs1 = (r, (d, fs2)) ∧
               ∀ i, r = Ok i → i = 0 ∨ member d userID i) as (r & -> & Hr).
  { destruct H2 as [->| ->]; eexists; (split; [done|]); [|done]. intros i [= <-]. apply default_domain_member. }
  eexists _, _, _. split; [done|]. destruct r as [i|e]; simpl.
  - destruct (0 <? i); [by apply Hr|]. destruct (or_nil infos); [by left|by right].
  - destruct (or_nil infos); [by left|by right].
Qed.
Lemma start_domain_run userID d :
  start_domain userID d [] =
    ((if 0 <? default_domain userID (rbac d) then default_domain userID (rbac d)
      else match domain_infos userID (rbac d) with i :: _ => DomainID i | [] => 0 end, domain_infos userID (rbac d)), (d, [])).
Proof.
  unfold start_domain. rewrite run_bind, (run_perm _ _ _ d (GetUserDomainInfos_answers userID)), run_bind,
    (run_perm _ _ _ d (GetUserDefaultDomain_answers userID)). done.
Qed.
End runs.

(** ** Tokens *)
Section token_facts.
Context `{JwtLaws}.

Lemma InitJWT_keys secret h rh :
  same_key (Secret (InitJWT secret h rh)) (RefreshSecret (InitJWT secret h rh)) = false ∧
  same_key (RefreshSecret (InitJWT secret h rh)) (Secret (InitJWT secret h rh)) = false.
Proof. apply refresh_key_differs. Qed.

(** a token of a session is read back with the user, names and domain it was made
    for until its second of expiry comes, and never afterwards; a token for
    refreshing is no token for requests and the other way round. *)
Theorem session_tokens_roundtrip secret h rh now later uid uname rname dom :
  let cfg := InitJWT secret h rh in
  ∃ t r, GenerateToken cfg now uid uname rname dom = Some t ∧ GenerateRefreshToken cfg now uid uname rname dom = Some r ∧
    ParseToken cfg later t =
      (if later <? expiry now (ExpiryHours cfg) * second
       then Some (mkClaims uid uname rname dom (expiry now (ExpiryHours cfg)) (now / second) "bdopsflow") else None) ∧
    ParseRefreshToken cfg later r =
      (if later <? expiry now (RefreshExpiryHours cfg) * second
       then Some (mkClaims uid uname rname dom (expiry now (RefreshExpiryHours cfg)) (now / second) "bdopsflow-refresh") else None) ∧
    ParseToken cfg later r = None ∧ ParseRefreshToken cfg later t = None ∧
    0 < ExpiryHours cfg ∧ 0 < RefreshExpiryHours cfg.
Proof.
  intros cfg. destruct (InitJWT_keys secret h rh) as [Hk1 Hk2]. fold cfg in Hk1, Hk2.
  unfold GenerateToken, GenerateRefreshToken, ParseToken, ParseRefreshToken.
  destruct (signed (Secret cfg) (mkClaims uid uname rname dom (expiry now (ExpiryHours cfg)) (now / second) "bdopsflow")) as [t Et].
  destruct (signed (RefreshSecret cfg) (mkClaims uid uname rname dom (expiry now (RefreshExpiryHours cfg)) (now / second) "bdopsflow-refresh"))
    as [r Er].
  exists t, r. rewrite !(parse_signed _ _ _ _ later Et), !(parse_signed _ _ _ _ later Er), !same_key_refl, Hk1, Hk2.
  split_and!; try done; simpl.
  - destruct (Z.leb_spec h 0); lia.
  - destruct rh as [|x l]; [lia|]. destruct (Z.ltb_spec 0 x); lia.
Qed.
End token_facts.

(** ** Who gets a session *)
Section login.
Context `{JwtLaws, Rsa, Bcrypt} (cfg : JWTConfig) (rsaUtil : RSAUtil).
Implicit Types d : udb.

Lemma GenerateToken_total now uid uname rname dom : ∃ t, GenerateToken cfg now uid uname rname dom = Some t.
Proof. unfold GenerateToken. destruct (signed (Secret cfg) (mkClaims uid uname rname dom (expiry now (ExpiryHours cfg)) (now / second) "bdopsflow")) as [t ->]. by exists t. Qed.
Lemma GenerateRefreshToken_total now uid uname rname dom : ∃ t, GenerateRefreshToken cfg now uid uname rname dom = Some t.
Proof. unfold GenerateRefreshToken. destruct (signed (RefreshSecret cfg) (mkClaims uid uname rname dom (expiry now (RefreshExpiryHours cfg)) (now / second) "bdopsflow-refresh")) as [t ->]. by exists t. Qed.

(** The queries of the permission service after the tokens are made change
    nothing, and their failure only shortens the lists. *)
Lemma quiet_walk : ∀ fuel ids acc, quiet (walk fuel ids acc).
Proof.
  assert (∀ id, quiet (getParentRoleIDs id)) as Hp.
  { intros id r fs. unfold getParentRoleIDs, query. rewrite run_bind. unfold call. by destruct fs as [|[] fs]. }
  induction fuel as [|fuel IH].
  - induction ids as [|id ids IHi]; intros acc r fs; [done|]. simpl. destruct (in_list id acc); [apply IHi|].
    rewrite run_bind. specialize (Hp id r fs). destruct (getParentRoleIDs id r fs) as [ps [r' fs']]. simpl in Hp. subst r'.
    rewrite run_bind. destruct ps; simpl; [apply IHi|done].
  - induction ids as [|id ids IHi]; intros acc r fs; [done|].
    change (walk (S fuel) (id :: ids) acc) with
      (if in_list id acc then walk (S fuel) ids acc
       else parentIDs ← getParentRoleIDs id;
            o ← match parentIDs with [] => mret (Some (acc ++ [id])) | _ => walk fuel parentIDs (acc ++ [id]) end;
            match o with Some allRoleIDs => walk (S fuel) ids allRoleIDs | None => mret None end).
    destruct (in_list id acc); [apply IHi|].
    rewrite run_bind. specialize (Hp id r fs). destruct (getParentRoleIDs id r fs) as [ps [r' fs']]. simpl in Hp. subst r'.
    rewrite run_bind. destruct ps as [|p ps]; [apply IHi|].
    specialize (IH (p :: ps) (acc ++ [id]) r fs'). destruct (walk fuel (p :: ps) (acc ++ [id]) r fs') as [[o|] [r' fs'']]; simpl in *; subst;
      [apply IHi|done].
Qed.
Lemma quiet_inherited_permissions ids :
  quiet (allRoleIDs ← expandRoleInheritance ids; getPermissionsByRoleIDs (default [] allRoleIDs)).
Proof.
  intros r fs. rewrite run_bind. unfold expandRoleInheritance. rewrite run_bind.
  unfold gets. simpl. pose proof (quiet_walk (length (rows (roles r))) ids [] r fs) as Hw.
  destruct (walk _ ids [] r fs) as [o [r' fs']]. simpl in Hw. subst r'. unfold getPermissionsByRoleIDs. rewrite run_bind.
  assert (∀ ids acc r fs, (permissions_loop ids acc r fs).2.1 = r) as Hl.
  { clear. induction ids as [|id ids IH]; intros acc r fs; [done|]. simpl. rewrite run_bind.
    pose proof (quiet_select (λ d : db, order_by perm_le (perms_of_role id d)) r fs) as Hs. unfold GetRolePermissions.
    destruct (Permission.select _ r fs) as [ps [r' fs']]. simpl in Hs. subst r'. apply IH. }
  specialize (Hl (default [] o) [] r fs'). by destruct (permissions_loop _ _ r fs') as [ps [r'' fs'']].
Qed.
Lemma quiet_GetUserPermissions uid : quiet (GetUserPermissions uid).
Proof. apply quiet_bind; [apply quiet_select|]. apply quiet_inherited_permissions. Qed.
Lemma quiet_SwitchDomain uid dom : quiet (SwitchDomain uid dom).
Proof.
  apply quiet_bind; [apply quiet_select|]. intros n. apply quiet_bind; [case_match; [apply quiet_IsSystemAdmin|apply quiet_ret]|].
  intros [|]; [|apply quiet_ret]. apply quiet_bind; [eapply answers_quiet, collectRoleIDs_answers|].
  apply quiet_inherited_permissions.
Qed.
Lemma quiet_GetUserRoleCodes uid : quiet (GetUserRoleCodes uid).
Proof. apply quiet_select. Qed.

(** A login that answers a session: what was checked, on which data. *)
Definition credentials_ok (username password : string) (u : User) (d : udb) : Prop :=
  login_row username d = Some u ∧ IsActive u = true ∧
  ∃ plain, Decrypt rsaUtil password = Ok plain ∧ CompareHashAndPassword (Password u) plain = true.

Definition tokens_for (now : Z) (u : User) (dom : Z) (t r : string) : Prop :=
  GenerateToken cfg now (u_ID u) (Username u) (RealName u) dom = Some t ∧
  GenerateRefreshToken cfg now (u_ID u) (Username u) (RealName u) dom = Some r.

Lemma Login_sound now username password d fs s :
  (Login cfg rsaUtil now (Some (username, password)) d fs).1 = Success s →
  ∃ u, credentials_ok username password u d ∧ tokens_for now u (s_current_domain_id s) (s_token s) (s_refresh_token s) ∧
       (s_current_domain_id s = 0 ∨ member d (u_ID u) (s_current_domain_id s)).
Proof.
  unfold Login. destruct (_ || _); [done|]. rewrite run_bind. unfold auth_GetUserByUsername, Users.select.
  destruct (answers_query ErrDB (login_row username) d fs) as (fs1 & [->|[-> _]] & _); [|done].
  destruct (login_row username d) as [u|] eqn:Eu; [|done].
  destruct (Decrypt rsaUtil password) as [plain|] eqn:Ed; [|done].
  destruct (CompareHashAndPassword (Password u) plain) eqn:Ec; [|done]. simpl.
  destruct (IsActive u) eqn:Ea; [|done]. simpl. rewrite run_bind.
  destruct (start_domain_sound (u_ID u) d fs1) as (i & infos & fs2 & -> & Hi).
  destruct (GenerateToken_total now (u_ID u) (Username u) (RealName u) i) as [t Et]. rewrite Et.
  destruct (GenerateRefreshToken_total now (u_ID u) (Username u) (RealName u) i) as [r Er]. rewrite Er.
  rewrite run_bind. destruct (ignore _ _ _) as [[] [d1 fs3]]. rewrite run_bind.
  destruct (permissions_and_codes _ _ _) as [[ps codes] [d2 fs4]]. intros [= <-].
  exists u. split; [split_and!; [done..|by exists plain]|]. by split.
Qed.

(** the answer of a login, case by case.  Without faults: an unknown
    name, a password that does not decrypt or does not match and a disabled
    account are refused, all but the last with the same message; everybody
    else gets a session in the default domain, or the first one, with tokens
    that are read back as these claims, and the login is recorded. *)
Theorem Login_result now username password d :
  username ≠ "" → password ≠ "" →
  let '(r, (d', _)) := Login cfg rsaUtil now (Some (username, password)) d [] in
  match login_row username d with
  | Some u =>
      match Decrypt rsaUtil password with
      | Ok plain =>
          if CompareHashAndPassword (Password u) plain then
            if IsActive u then
              ∃ s, r = Success s ∧ tokens_for now u (s_current_domain_id s) (s_token s) (s_refresh_token s) ∧
                   s_current_domain_id s =
                     (if 0 <? default_domain (u_ID u) (rbac d) then default_domain (u_ID u) (rbac d)
                      else match s_domains s with i :: _ => DomainID i | [] => 0 end) ∧
                   s_domains s = domain_infos (u_ID u) (rbac d) ∧
                   d' = set_users (update_where (λ v, u_ID v =? u_ID u) (touch_login now)) d
            else r = Fail CodeInvalidCredentials "该账号已被禁用，请联系管理员" ∧ d' = d
          else r = Fail CodeInvalidCredentials "用户名或密码错误" ∧ d' = d
      | Err _ => r = Fail CodeInvalidCredentials "用户名或密码错误" ∧ d' = d
      end
  | None => r = Fail CodeInvalidCredentials "用户名或密码错误" ∧ d' = d
  end.
Proof.
  intros Hu Hp. unfold Login. rewrite !bool_decide_false by done. simpl. rewrite run_bind. simpl.
  destruct (login_row username d) as [u|]; [|done]. destruct (Decrypt rsaUtil password) as [plain|]; [|done].
  destruct (CompareHashAndPassword (Password u) plain); [|done]. simpl. destruct (IsActive u); [|done]. simpl.
  rewrite run_bind, start_domain_run. set (i := if 0 <? _ then _ else _).
  destruct (GenerateToken_total now (u_ID u) (Username u) (RealName u) i) as [t Et]. rewrite Et.
  destruct (GenerateRefreshToken_total now (u_ID u) (Username u) (RealName u) i) as [r Er]. rewrite Er.
  rewrite run_bind. simpl. set (d' := set_users _ d). unfold permissions_and_codes. rewrite run_bind, run_bind.
  pose proof (preserves_perm (λ x, x = d') _ (quiet_GetUserPermissions (u_ID u)) d' [] eq_refl) as Hps.
  destruct (perm (GetUserPermissions (u_ID u)) d' []) as [ps [d1 fs1]]. simpl in Hps. subst d1. rewrite run_bind.
  pose proof (preserves_perm (λ x, x = d') _ (quiet_GetUserRoleCodes (u_ID u)) d' fs1 eq_refl) as Hcs.
  destruct (perm (GetUserRoleCodes (u_ID u)) d' fs1) as [codes [d2 fs2]]. simpl in Hcs. subst d2. simpl.
  eexists. split; [done|]. by split_and!.
Qed.
End login.

(** ** What the other handlers answer *)
Definition active_user (d : udb) (id : Z) : Prop := ∃ u, u ∈ rows (users d) ∧ u_ID u = id ∧ IsActive u = true.
(** Who may work in a domain. *)
Definition entitled (d : udb) (id dom : Z) : Prop := member d id dom ∨ is_admin (rbac d) id.

Lemma active_user_row id u (d : udb) : user_row id d = Some u → IsActive u = true → active_user d id.
Proof. intros [Hin Hid%Z.eqb_eq]%head_Some_elem_of%elem_of_where Ha. by exists u. Qed.
Lemma active_login_row name u (d : udb) : login_row name d = Some u → IsActive u = true → active_user d (u_ID u).
Proof. intros [Hin _]%head_Some_elem_of%elem_of_where Ha. by exists u. Qed.

Section sound.
Context `{JwtLaws, Rsa, Aead, Bcrypt} (cfg : JWTConfig) (rsaUtil : RSAUtil).
Implicit Types d : udb.

Lemma RefreshToken_sound now tok d fs t r :
  (RefreshToken cfg now (Some tok) d fs).1 = Success (t, r) →
  ∃ c, ParseRefreshToken cfg now tok = Some c ∧ active_user d (c_UserID c) ∧
       GenerateToken cfg now (c_UserID c) (c_Username c) (c_RealName c) (CurrentDomainID c) = Some t ∧
       GenerateRefreshToken cfg now (c_UserID c) (c_Username c) (c_RealName c) (CurrentDomainID c) = Some r.
Proof.
  unfold RefreshToken. destruct (ParseRefreshToken cfg now tok) as [c|]; [|done]. case_bool_decide; [|done]. simpl.
  rewrite run_bind. unfold GetUserActiveStatus, Users.select.
  destruct (answers_query ErrDB (λ d, IsActive <$> user_row (c_UserID c) d) d fs) as (fs1 & [->|[-> _]] & _); [|done].
  destruct (user_row (c_UserID c) d) as [u|] eqn:Eu; [|done]. simpl. destruct (IsActive u) eqn:Ea; [|done].
  destruct (GenerateToken _ _ _ _ _ _) as [t'|] eqn:Et; [|done]. destruct (GenerateRefreshToken _ _ _ _ _ _) as [r'|] eqn:Er; [|done].
  simpl. intros [= <- <-]. exists c. split_and!; try done. by eapply active_user_row.
Qed.

Lemma SwitchDomain_sound uid dom (r : db) fs ps :
  (SwitchDomain uid dom r fs).1 = Ok ps →
  (∃ ud, ud ∈ rows (user_domains r) ∧ ud_user ud = uid ∧ ud_domain ud = dom) ∨ is_admin r uid.
Proof.
  unfold SwitchDomain, bind_ok. rewrite run_bind. unfold Permission.select.
  destruct (answers_query Permission.ErrDB (λ r : db, count (λ ud, (ud_user ud =? uid) && (ud_domain ud =? dom)) (rows (user_domains r))) r fs)
    as (fs1 & [->|[-> _]] & _); [|done].
  set (n := count _ _). destruct (Z.eqb_spec n 0) as [Hn|Hn].
  - rewrite run_bind. destruct (IsSystemAdmin_answers uid r fs1) as (fs2 & [->|[-> _]] & _); [|done].
    destruct (0 <? admin_count uid r) eqn:Ea; [|done]. intros _. right. by apply admin_count_pos.
  - intros _. left. assert (0 <? n = true) as Hpos by (apply Z.ltb_lt; unfold n, count in *; lia).
    unfold n in Hpos. rewrite count_pos in Hpos. apply existsb_elem_of in Hpos as (ud & Hin & [Hu%Z.eqb_eq Hd%Z.eqb_eq]%andb_true_iff).
    by exists ud.
Qed.
Lemma h_SwitchDomain_sound now id req d fs t r ps dom codes :
  (h_SwitchDomain cfg now id req d fs).1 = Success (t, r, ps, dom, codes) →
  entitled d (user_id id) dom ∧ GenerateToken cfg now (user_id id) (username id) (real_name id) dom = Some t ∧
  GenerateRefreshToken cfg now (user_id id) (username id) (real_name id) dom = Some r.
Proof.
  unfold h_SwitchDomain. destruct req as [dom'|]; [|done]. destruct (dom' =? 0); [done|]. rewrite run_bind.
  unfold perm_err, zoom. pose proof (SwitchDomain_sound (user_id id) dom' (rbac d) fs) as Hs.
  destruct (SwitchDomain _ _ _ _) as [[ps'|e] [rb fs1]]; [|by destruct e]. simpl in Hs.
  destruct (GenerateToken _ _ _ _ _ _) as [t'|] eqn:Et; [|done]. destruct (GenerateRefreshToken _ _ _ _ _ _) as [r'|] eqn:Er; [|done].
  rewrite run_bind. destruct (perm _ _ _) as [codes' [d' fs2]]. simpl. intros [= <- <- <- <- <-]. split; [|done].
  destruct (Hs ps' eq_refl) as [(ud & ?)|Ha]; [left; by exists ud|by right].
Qed.

(** Whom the middleware lets through. *)
Lemma authenticated now authHeader query d fs id :
  (JWTAuthMiddlewareWithAPIToken cfg rsaUtil now authHeader query d fs).1 = Next id →
  (∃ c, ParseToken cfg now (bearer authHeader query) = Some c ∧ id = of_claims c) ∨
  (via id = ByApiToken ∧ active_user d (user_id id) ∧
   (current_domain_id id = 0 ∨ member d (user_id id) (current_domain_id id)) ∧
   ∃ t, t ∈ rows (api_tokens d) ∧ tok_UserID t = user_id id ∧
        DecryptLarge rsaUtil (TokenEncrypted t) = Ok (bearer authHeader query)).
Proof.
  unfold JWTAuthMiddlewareWithAPIToken. case_bool_decide; [done|].
  destruct (ParseToken cfg now (bearer authHeader query)) as [c|]; [intros [= <-]; left; by exists c|].
  destruct (String.prefix _ _); [|done]. rewrite run_bind.
  pose proof (ValidateToken_sound rsaUtil now (bearer authHeader query) d fs) as Hv.
  assert (rbac (ValidateToken rsaUtil now (bearer authHeader query) d fs).2.1 = rbac d) as Hr.
  { refine (preserves_ValidateToken rsaUtil (λ x, rbac x = rbac d) _ now _ d fs eq_refl). split; [done|..|done].
    intros * Hd. unfold insert_token. case_match; [done|]. by intros [= <- <-]. }
  destruct (ValidateToken _ _ _ _ _) as [[uid|e] [d1 fs1]]; [|done]. simpl in Hr, Hv.
  destruct (Hv uid eq_refl) as (t & u & Hin & Htu & Hnz & Hdec & Hu & Ha).
  destruct (0 <? uid); [|done]. rewrite run_bind. unfold GetTokenUserInfo, bind_ok. rewrite run_bind. unfold Users.select.
  destruct (answers_query ErrDB (user_row uid) d1 fs1) as (fs2 & [->|[-> _]] & _); [|done].
  destruct (user_row uid d1) as [u1|]; [|done]. rewrite run_bind.
  destruct (perm_sound _ _ _ d1 fs2 (GetUserDefaultDomain_answers uid)) as (fs3 & [->| ->]); simpl; intros [= <-]; right; simpl.
  - split_and!; [done|by eapply active_user_row| |by exists t]. rewrite Hr.
    destruct (0 <? default_domain uid (rbac d)); [|by left]. apply default_domain_member.
  - split_and!; [done|by eapply active_user_row|by left|by exists t].
Qed.
End sound.
