(* ===== verification/Sessions.v ===== *)
(** * Sessions and protected requests

    The parts of [Auth], [ApiToken] and [Users] put together the way
    [src/scheduler/cmd/routes.go] wires them: every session goes back to an
    account that was active and whose credentials were checked; a request of
    the administration changes something only for a caller with the
    permission; accounts and tokens stay well formed.  Requests are served one
    after another here, each whole; the tables may change in any way between
    them where the theorems say so. *)
From Stdlib Require Import Ascii.
From stdpp Require Import countable.
From S2P Require Import Prelude Sql Permission Crypto RsaUtil Users UserGuards ApiToken Auth.

(** ** Single sign-on *)
Section sso.
Context `{JwtLaws, Rsa, Aead, Bcrypt} (cfg : JWTConfig) (rsaUtil : RSAUtil).
Implicit Types d : udb.

Lemma active_user_step id (f : udb → udb) : (∀ d, active_user d id → active_user (f d) id) → preserves (λ d, active_user d id) (ignore (Users.write f)).
Proof. intros Hf. unfold ignore. users_step; [by apply preserves_write_udb|apply preserves_ret]. Qed.
Lemma active_user_login id now uid d : active_user d id → active_user (set_users (update_where (λ u, u_ID u =? uid) (touch_login now)) d) id.
Proof.
  intros (u & Hin & Hid & Ha). exists (if u_ID u =? uid then touch_login now u else u). split_and!; [|by case_match..].
  apply list_elem_of_fmap. by exists u.
Qed.
Lemma active_user_default_role id uid : preserves (λ d, active_user d id) (give_default_role uid).
Proof.
  unfold give_default_role, GetRoleIDByCode, AssignUserRole. repeat users_step. apply preserves_write_unique.
  intros d u d' Hd. unfold insert_user_role. case_match; [done|]. by intros [= <- <-].
Qed.

(** A write that may be refused and answers has been applied. *)
Lemma write_unique_applied {A} (f : udb → result error (A * udb)) d fs a d' fs' :
  write_unique f d fs = (Ok a, (d', fs')) → f d = Ok (a, d').
Proof.
  unfold write_unique. rewrite run_bind. unfold call.
  destruct fs as [|[] fs]; destruct (f d) as [[b e]|e]; simpl; intros [=]; by subst.
Qed.

Lemma sso_account_sound now name content d fs u d1 fs1 :
  sso_account now name content d fs = (Success u, (d1, fs1)) → active_user d1 (u_ID u).
Proof.
  unfold sso_account. set (loginName := if bool_decide _ then _ else _). rewrite run_bind. unfold GetSSOUserByUsername, Users.select.
  destruct (answers_query ErrDB (λ d, blank_password <$> login_row loginName d) d fs) as (fs2 & [->|[-> _]] & _); [|done].
  destruct (login_row loginName d) as [v|] eqn:Ev; simpl.
  - destruct (IsActive v) eqn:Ea; [|done]. simpl. rewrite run_bind.
    pose proof (active_user_step (u_ID v) _ (active_user_login (u_ID v) now (u_ID v)) d fs2) as Hk.
    unfold UpdateLastLogin. destruct (ignore _ d fs2) as [[] [d2 fs3]]. intros [= <- <- _]. apply Hk. by eapply active_login_row.
  - rewrite run_bind. destruct (auth_CreateUser _ _ _ _ _ _ d fs2) as [[uid|e] [d2 fs3]] eqn:Ec; [|done].
    apply write_unique_applied in Ec. rewrite run_bind.
    pose proof (active_user_default_role uid uid d2 fs3) as Hk. destruct (give_default_role uid d2 fs3) as [[] [d3 fs4]].
    intros [= <- <- _]. apply Hk. simpl. unfold insert_user in Ec. case_match; [done|]. injection Ec as <- <-.
    eexists. split; [by apply elem_of_app; right; left|]. done.
Qed.

Lemma permissions_and_codes_quiet uid d fs : (permissions_and_codes uid d fs).2.1 = d.
Proof.
  refine ((_ : preserves (λ x, x = d) (permissions_and_codes uid)) d fs eq_refl). unfold permissions_and_codes.
  repeat users_step; apply preserves_perm; [apply quiet_GetUserPermissions|apply quiet_GetUserRoleCodes].
Qed.

Lemma SSOLogin_sound enabled sso now req d fs s d' fs' :
  SSOLogin cfg enabled sso now req d fs = (Success s, (d', fs')) →
  active_user d' (u_ID (s_user s)) ∧
  tokens_for cfg now (s_user s) (s_current_domain_id s) (s_token s) (s_refresh_token s) ∧
  (s_current_domain_id s = 0 ∨ member d' (u_ID (s_user s)) (s_current_domain_id s)).
Proof.
  unfold SSOLogin. destruct enabled; [|done]. simpl. destruct req as [[name password]|]; [|done].
  destruct (sso name password) as [| |code message content]; [done..|].
  destruct (if bool_decide (code = "3000") then content else None) as [ssoUser|]; [|done].
  rewrite run_bind. destruct (sso_account now name ssoUser d fs) as [a [d1 fs1]] eqn:Ea.
  destruct a as [| | | | | |u]; try done. apply sso_account_sound in Ea.
  rewrite run_bind. destruct (start_domain_sound (u_ID u) d1 fs1) as (i & infos & fs2 & -> & Hi).
  destruct (GenerateToken cfg now (u_ID u) (Username u) (RealName u) i) as [t|] eqn:Et; [|done].
  destruct (GenerateRefreshToken cfg now (u_ID u) (Username u) (RealName u) i) as [r|] eqn:Er; [|done].
  rewrite run_bind. pose proof (permissions_and_codes_quiet (u_ID u) d1 fs2) as Hq.
  destruct (permissions_and_codes (u_ID u) d1 fs2) as [[ps codes] [d2 fs3]]. simpl in Hq. subst d2.
  intros [= <- <- <-]. simpl. by split_and!.
Qed.
End sso.

(** ** Where sessions come from *)

(** Switching the domain is a protected request. *)
Definition switch_request `{Jwt, Rsa, Aead} (cfg : JWTConfig) (rsaUtil : RSAUtil) (now : Z) (authHeader query : string)
    (req : option Z) : M udb (verdict (reply (string * string * list Permission * Z * list string))) :=
  and_then (JWTAuthMiddlewareWithAPIToken cfg rsaUtil now authHeader query) (λ id,
  and_then (InjectUserRole id) (λ _,
  r ← h_SwitchDomain cfg now id req; mret (Next r))).

(** The tables now, all there were, and the tokens handed out, each with the
    time of the request that was answered with it. *)
Record server : Type := mkServer { cur : udb; past : list udb; issued : list (string * Z) }.
Definition advance (s : server) (now : Z) (d : udb) (ts : list string) : server :=
  mkServer d (d :: past s) (((λ t, (t, now)) <$> ts) ++ issued s).
Definition session_tokens (r : reply session) : list string :=
  match r with Success s => [s_token s; s_refresh_token s] | _ => [] end.
Definition refreshed_tokens (r : reply (string * string)) : list string :=
  match r with Success (t, r) => [t; r] | _ => [] end.
Definition switched_tokens (v : verdict (reply (string * string * list Permission * Z * list string))) : list string :=
  match v with Next (Success (t, r, _, _, _)) => [t; r] | _ => [] end.

Section sessions.
Context `{JwtLaws, Rsa, Aead, Bcrypt} (cfg : JWTConfig) (rsaUtil : RSAUtil).

(** Nobody forges a signature: a text that is read as a token was handed
    out. *)
Definition unforged (s : server) (t : string) : Prop :=
  ∀ now c, ParseToken cfg now t = Some c ∨ ParseRefreshToken cfg now t = Some c → t ∈ (issued s).*1.

Inductive step (s : server) : server → Prop :=
| step_login now req fs r d fs' : Login cfg rsaUtil now req (cur s) fs = (r, (d, fs')) →
    step s (advance s now d (session_tokens r))
| step_sso enabled sso now req fs r d fs' : SSOLogin cfg enabled sso now req (cur s) fs = (r, (d, fs')) →
    step s (advance s now d (session_tokens r))
| step_refresh now t fs r d fs' : unforged s t → RefreshToken cfg now (Some t) (cur s) fs = (r, (d, fs')) →
    step s (advance s now d (refreshed_tokens r))
| step_switch now authHeader query req fs v d fs' : unforged s (bearer authHeader query) →
    switch_request cfg rsaUtil now authHeader query req (cur s) fs = (v, (d, fs')) →
    step s (advance s now d (switched_tokens v))
| step_other now d : step s (advance s now d []).

Inductive reachable : server → Prop :=
| reachable_start d : reachable (mkServer d [d] [])
| reachable_step s s' : reachable s → step s s' → reachable s'.

(** A user and a domain a session may be for: the account was active once, and
    entitled to the domain once. *)
Definition earned (ds : list udb) (id dom : Z) : Prop :=
  (∃ d, d ∈ ds ∧ active_user d id) ∧ (dom = 0 ∨ ∃ d, d ∈ ds ∧ entitled d id dom).
Lemma earned_mono ds ds' id dom : ds ⊆ ds' → earned ds id dom → earned ds' id dom.
Proof. intros Hs [(d & Hd & Ha) He]. split; [by eauto|]. destruct He as [?|(d' & ? & ?)]; [by left|right; eauto]. Qed.
End sessions.

Section kept_by_chain.
Context `{Jwt, Rsa, Aead} (cfg : JWTConfig) (rsaUtil : RSAUtil) (I : udb → Prop).

Lemma preserves_authenticate now authHeader query :
  token_closed I → preserves I (JWTAuthMiddlewareWithAPIToken cfg rsaUtil now authHeader query).
Proof. intros HI. unfold JWTAuthMiddlewareWithAPIToken. repeat users_step. Qed.
Lemma preserves_InjectUserRole id : preserves I (InjectUserRole id).
Proof. unfold InjectUserRole. repeat users_step. apply preserves_perm, quiet_GetUserRoleCodes. Qed.
Lemma preserves_RequirePermission resource action id : preserves I (RequirePermission resource action id).
Proof. unfold RequirePermission. repeat users_step. eapply preserves_perm, answers_quiet, HasPermission_answers. Qed.
Lemma preserves_RequireSystemAdmin id : preserves I (RequireSystemAdmin id).
Proof. unfold RequireSystemAdmin. repeat users_step. Qed.
Lemma preserves_and_then {A B} (m : M udb (verdict A)) (k : A → M udb (verdict B)) :
  preserves I m → (∀ a, preserves I (k a)) → preserves I (and_then m k).
Proof. intros Hm Hk. unfold and_then. by repeat users_step. Qed.

(** Roles, domains and accounts are not what a token check writes. *)
Lemma rbac_token_closed r : token_closed (λ d, rbac d = r).
Proof.
  split; [done| |done]. intros *. unfold insert_token. case_match; [done|]. by intros ? [= <- <-].
Qed.
Lemma users_token_closed us : token_closed (λ d, users d = us).
Proof. split; [done| |done]. intros *. unfold insert_token. case_match; [done|]. by intros ? [= <- <-]. Qed.
End kept_by_chain.
#[export] Hint Resolve preserves_authenticate preserves_InjectUserRole preserves_RequirePermission preserves_RequireSystemAdmin
  rbac_token_closed users_token_closed : users.

Section earned.
Context `{JwtLaws, Rsa, Aead, Bcrypt} (cfg : JWTConfig) (rsaUtil : RSAUtil).

(** A token handed out at a time: signed claims that were earned, which expire
    the configured hours after it. *)
Definition good_token (ds : list udb) (t : string) (at_ : Z) : Prop :=
  ∃ k c, SignedString k c = Some t ∧ earned ds (c_UserID c) (CurrentDomainID c) ∧
    (k = Secret cfg ∧ ExpiresAt c = expiry at_ (ExpiryHours cfg) ∨
     k = RefreshSecret cfg ∧ ExpiresAt c = expiry at_ (RefreshExpiryHours cfg)).
Definition server_ok (s : server) : Prop := cur s ∈ past s ∧ ∀ t at_, (t, at_) ∈ issued s → good_token (past s) t at_.

Lemma good_token_made ds now uid uname rname dom t r :
  earned ds uid dom → GenerateToken cfg now uid uname rname dom = Some t → GenerateRefreshToken cfg now uid uname rname dom = Some r →
  good_token ds t now ∧ good_token ds r now.
Proof. intros He Ht Hr. split; eexists _, _; (split; [done|]); (split; [done|]); [by left|by right]. Qed.

(** What a good token says when it is read. *)
Lemma good_token_parsed ds k now t at_ c : good_token ds t at_ → ParseWithClaims k now t = Some c → earned ds (c_UserID c) (CurrentDomainID c).
Proof. intros (k0 & c0 & Hs & He & _). rewrite (parse_signed _ _ _ _ now Hs). case_match; [|done]. by intros [= <-]. Qed.

Lemma server_ok_advance s now d ts :
  server_ok s → (∀ t, t ∈ ts → good_token (d :: past s) t now) → server_ok (advance s now d ts).
Proof.
  intros [Hc Hi] Ht. split; [by left|]. intros t at_ [Hin|Hin]%elem_of_app.
  - apply list_elem_of_fmap in Hin as (t' & [= -> ->] & Hin). by apply Ht.
  - destruct (Hi t at_ Hin) as (k & c & Hs & He & Hx). exists k, c. split; [done|]. split; [|done].
    eapply earned_mono; [|done]. intros x Hx'. by right.
Qed.
Lemma server_ok_pair s now d t r :
  server_ok s → good_token (d :: past s) t now ∧ good_token (d :: past s) r now → server_ok (advance s now d [t; r]).
Proof. intros Hs [Ht Hr]. apply server_ok_advance; [done|]. by intros x [-> |[-> |[]%elem_of_nil]%elem_of_cons]%elem_of_cons. Qed.

Lemma server_ok_no_tokens s now d : server_ok s → server_ok (advance s now d []).
Proof. intros Hs. apply server_ok_advance; [done|]. by intros t ?%elem_of_nil. Qed.

(** A text that is read as a token is one that was handed out. *)
Lemma unforged_good s now t c :
  server_ok s → unforged cfg s t → ParseToken cfg now t = Some c ∨ ParseRefreshToken cfg now t = Some c →
  ∃ at_, (t, at_) ∈ issued s ∧ good_token (past s) t at_.
Proof.
  intros [_ Hi] Hu Hp. destruct (proj1 (list_elem_of_fmap _ _ _) (Hu now c Hp)) as ([t' at_] & -> & Hin). eauto.
Qed.

(** An identity the middleware lets through was earned. *)
Lemma authenticated_earned s now authHeader query fs id :
  server_ok s → unforged cfg s (bearer authHeader query) →
  (JWTAuthMiddlewareWithAPIToken cfg rsaUtil now authHeader query (cur s) fs).1 = Next id →
  earned (past s) (user_id id) (current_domain_id id).
Proof.
  intros Hok Hu Ha. pose proof Hok as [Hc _]. destruct (authenticated cfg rsaUtil now authHeader query (cur s) fs id Ha) as [(c & Hp & ->)|(_ & Hact & Hd & _)].
  - simpl. destruct (unforged_good s now _ c Hok Hu ltac:(by left)) as (at_ & _ & Hg). by eapply good_token_parsed.
  - split; [by exists (cur s)|]. destruct Hd as [?|Hd]; [by left|]. right. exists (cur s). split; [done|by left].
Qed.

Lemma switch_sound s now authHeader query req fs t r ps dom codes d fs' :
  server_ok s → unforged cfg s (bearer authHeader query) →
  switch_request cfg rsaUtil now authHeader query req (cur s) fs = (Next (Success (t, r, ps, dom, codes)), (d, fs')) →
  good_token (d :: past s) t now ∧ good_token (d :: past s) r now.
Proof.
  intros Hs Hu. unfold switch_request, and_then. rewrite run_bind.
  pose proof (authenticated_earned s now authHeader query fs) as Ha.
  assert (rbac (JWTAuthMiddlewareWithAPIToken cfg rsaUtil now authHeader query (cur s) fs).2.1 = rbac (cur s)) as Hrb.
  { by refine (preserves_authenticate cfg rsaUtil (λ d, rbac d = rbac (cur s)) now authHeader query _ (cur s) fs eq_refl); auto with users. }
  destruct (JWTAuthMiddlewareWithAPIToken cfg rsaUtil now authHeader query (cur s) fs) as [[id|st e] [d1 fs1]]; [|done].
  specialize (Ha id Hs Hu eq_refl) as [Hact _]. simpl in Hrb. rewrite run_bind.
  assert ((InjectUserRole id d1 fs1).2.1 = d1) as Hq.
  { by refine (preserves_InjectUserRole (λ d, d = d1) id d1 fs1 eq_refl). }
  destruct (InjectUserRole id d1 fs1) as [[role|st e] [d2 fs2]]; [|done]. simpl in Hq. subst d2. rewrite run_bind.
  pose proof (h_SwitchDomain_sound cfg now id req d1 fs2) as Hsw.
  destruct (h_SwitchDomain cfg now id req d1 fs2) as [rep [d3 fs3]]. simpl. intros [= -> <- <-].
  destruct (Hsw t r ps dom codes eq_refl) as (He & Ht & Hr). eapply good_token_made; [|done..]. split.
  - destruct Hact as (d0 & Hin & Ha). exists d0. split; [by right|done].
  - right. exists (cur s). split; [right; apply Hs|]. unfold entitled, member in *. by rewrite Hrb in He.
Qed.

Lemma server_ok_step s s' : server_ok s → step cfg rsaUtil s s' → server_ok s'.
Proof.
  intros Hs Hstep. destruct Hstep as [now req fs r d fs' Hl|enabled sso now req fs r d fs' Hl|now t fs r d fs' Hu Hl|now authHeader query req fs v d fs' Hu Hl|now d].
  - destruct r as [| | | | | |se]; try by apply server_ok_no_tokens. apply server_ok_pair; [done|].
    destruct req as [[name password]|]; [|done].
    destruct (Login_sound cfg rsaUtil now name password (cur s) fs se) as (u & (Hlog & Ha & _) & [Ht Hr] & Hd); [by rewrite Hl|].
    eapply good_token_made; [|done..]. split; [exists (cur s); split; [right; apply Hs|by eapply active_login_row]|].
    destruct Hd as [?|Hd]; [by left|]. right. exists (cur s). split; [right; apply Hs|by left].
  - destruct r as [| | | | | |se]; try by apply server_ok_no_tokens. apply server_ok_pair; [done|].
    apply SSOLogin_sound in Hl as (Ha & [Ht Hr] & Hd). eapply good_token_made; [|done..].
    split; [exists d; split; [by left|done]|]. destruct Hd as [?|Hd]; [by left|]. right. exists d. split; [by left|by left].
  - destruct r as [| | | | | |[a r]]; try by apply server_ok_no_tokens. apply server_ok_pair; [done|].
    destruct (RefreshToken_sound cfg now t (cur s) fs a r) as (c & Hp & Ha & Ht & Hr); [by rewrite Hl|].
    destruct (unforged_good s now _ c Hs Hu ltac:(by right)) as (at_ & _ & Hg).
    eapply good_token_made; [|done..]. eapply earned_mono; [|by eapply good_token_parsed]. by right.
  - destruct v as [[| | | | | |[[[[t r] ps] dom] codes]]|]; try by apply server_ok_no_tokens.
    apply server_ok_pair; [done|]. by eapply switch_sound.
  - by apply server_ok_no_tokens.
Qed.
Lemma reachable_ok s : reachable cfg rsaUtil s → server_ok s.
Proof.
  induction 1 as [d|s s' _ IH Hs]; [|by eapply server_ok_step].
  split; [by left|]. by intros t at_ ?%elem_of_nil.
Qed.

(** C22: however requests, failures and changes of the tables follow each
    other, a caller the middleware lets through, by session or by API token,
    has an account that was active at some time, and acts in a domain it was
    entitled to at some time or in none; a session's token was handed out by a
    login, a refresh or a switch of the domain less than the configured hours
    ago, and an API token counts only while its account is active.  Nobody
    forges a signature, and the keys are those [InitJWT] sets. *)
Theorem sessions_are_earned secret hours refresh s now authHeader query fs id :
  cfg = InitJWT secret hours refresh → reachable cfg rsaUtil s → unforged cfg s (bearer authHeader query) →
  (JWTAuthMiddlewareWithAPIToken cfg rsaUtil now authHeader query (cur s) fs).1 = Next id →
  earned (past s) (user_id id) (current_domain_id id) ∧
  match via id with
  | ByJwt => ∃ at_, (bearer authHeader query, at_) ∈ issued s ∧
                    now < at_ + int64 ((if hours <=? 0 then 2 else hours) * hour)
  | ByApiToken => active_user (cur s) (user_id id)
  end.
Proof.
  intros Hcfg Hr%reachable_ok Hu Ha. split; [by eapply authenticated_earned|].
  destruct (authenticated cfg rsaUtil now authHeader query (cur s) fs id Ha) as [(c & Hp & ->)|(-> & Hact & _)]; [|done].
  simpl. destruct (unforged_good s now _ c Hr Hu ltac:(by left)) as (at_ & Hin & k & c0 & Hs & _ & Hk).
  exists at_. split; [done|]. unfold ParseToken in Hp. rewrite (parse_signed _ _ _ _ now Hs) in Hp.
  destruct Hk as [[-> Hx]|[-> _]].
  - rewrite same_key_refl in Hp. simpl in Hp. destruct (Z.ltb_spec now (ExpiresAt c0 * second)) as [Hlt|]; [|done].
    rewrite Hx in Hlt. assert (ExpiryHours cfg = if hours <=? 0 then 2 else hours) as He by by rewrite Hcfg.
    rewrite <- He. unfold expiry in Hlt. pose proof (Z.mul_div_le (at_ + int64 (ExpiryHours cfg * hour)) second ltac:(done)). lia.
  - assert (same_key (Secret cfg) (RefreshSecret cfg) = false) as Hd by (rewrite Hcfg; apply InitJWT_keys).
    by rewrite Hd in Hp.
Qed.
End earned.

(** ** Requests of the administration *)
Definition with_operator (op : operator) (q : admin_request) : admin_request :=
  match q with
  | RCreateUser now salt _ req => RCreateUser now salt op req
  | RUpdateUser now _ id req => RUpdateUser now op id req
  | RAssignUserRoles _ id roleIDs => RAssignUserRoles op id roleIDs
  | RAssignUserDomains _ id domainIDs => RAssignUserDomains op id domainIDs
  | RUpdateCurrentUser now _ req => RUpdateCurrentUser now op req
  | RChangePassword now salt _ req => RChangePassword now salt op req
  | RResetUserPassword now salt _ id req => RResetUserPassword now salt op id req
  | RDeleteUser _ | RCreateDomain _ | RUpdateDomain _ _ | RDeleteDomain _ => q
  end.

(** The middleware of each route. *)
Inductive guard : Type := Nothing | Permits (resource action : string) | SystemAdmin.
Definition guard_of (q : admin_request) : guard :=
  match q with
  | RCreateUser _ _ _ _ | RDeleteUser _ | RAssignUserRoles _ _ _ | RAssignUserDomains _ _ _ => Permits "user" "manage"
  | RUpdateUser _ _ _ _ | RResetUserPassword _ _ _ _ _ => Permits "user" "update"
  | RUpdateCurrentUser _ _ _ | RChangePassword _ _ _ _ => Nothing
  | RUpdateDomain _ _ => Permits "domain" "update"
  | RCreateDomain _ | RDeleteDomain _ => SystemAdmin
  end.
Definition check_guard (g : guard) (id : identity) : M udb (verdict unit) :=
  match g with
  | Nothing => mret (Next tt)
  | Permits resource action => RequirePermission resource action id
  | SystemAdmin => RequireSystemAdmin id
  end.

(** The chain of middleware in front of a protected handler. *)
Definition gate `{Jwt, Rsa, Aead} (cfg : JWTConfig) (rsaUtil : RSAUtil) (now : Z) (authHeader query : string) (g : guard) :
    M udb (verdict (identity * string)) :=
  and_then (JWTAuthMiddlewareWithAPIToken cfg rsaUtil now authHeader query) (λ id,
  and_then (InjectUserRole id) (λ role,
  and_then (check_guard g id) (λ _, mret (Next (id, role))))).
Definition admin_route `{Jwt, Rsa, Aead, Bcrypt} (cfg : JWTConfig) (rsaUtil : RSAUtil) (now : Z) (authHeader query : string)
    (q : admin_request) : M udb (verdict unit) :=
  and_then (gate cfg rsaUtil now authHeader query (guard_of q)) (λ '(id, role),
  _ ← serve rsaUtil (with_operator (mkOperator (user_id id) role (current_domain_id id)) q); mret (Next tt)).

Section guarded.
Context `{Jwt, Rsa, Aead, Bcrypt} (cfg : JWTConfig) (rsaUtil : RSAUtil).
Implicit Types d : udb.

(** The rule of [HasPermission]. *)
Definition may (r : db) (userID domainID : Z) (resource action : string) : Prop :=
  is_admin r userID ∨
  ∃ roleID p, carries r userID domainID roleID ∧ role_has r roleID p ∧ matches p resource action.
Definition guard_holds (r : db) (g : guard) (id : identity) : Prop :=
  match g with
  | Nothing => True
  | Permits resource action => may r (user_id id) (current_domain_id id) resource action
  | SystemAdmin => is_admin r (user_id id)
  end.

Lemma RequirePermission_sound resource action id d fs :
  (RequirePermission resource action id d fs).1 = Next tt → may (rbac d) (user_id id) (current_domain_id id) resource action.
Proof.
  unfold RequirePermission. rewrite run_bind.
  destruct (perm_sound _ _ _ d fs (HasPermission_answers (user_id id) resource action (current_domain_id id))) as (fs' & [->| ->]); [|done].
  simpl. destruct (_ || _) eqn:E; [|done]. intros _. apply orb_true_iff in E as [E|E]; [left; by apply admin_count_pos|].
  right. apply existsb_elem_of in E as (roleID & Hc%elem_of_collected & (p & ?)%allows_true). by exists roleID, p.
Qed.
Lemma check_guard_sound g id d fs : (check_guard g id d fs).1 = Next tt → guard_holds (rbac d) g id.
Proof.
  destruct g as [|resource action|]; [done|apply RequirePermission_sound|]. simpl. unfold RequireSystemAdmin. rewrite run_bind.
  destruct (perm_sound _ _ _ d fs (IsSystemAdmin_answers (user_id id))) as (fs' & [->| ->]); [|done]. simpl.
  destruct (0 <? admin_count (user_id id) (rbac d)) eqn:E; [|done]. intros _. by apply admin_count_pos.
Qed.

(** Accounts, roles and domains are as they were. *)
Definition spared d d' : Prop := rbac d' = rbac d ∧ users d' = users d.

Lemma spared_refl d : spared d d.
Proof. done. Qed.
Lemma gate_spared now authHeader query g d fs : spared d (gate cfg rsaUtil now authHeader query g d fs).2.1.
Proof.
  split; [apply (λ Hp, (Hp : preserves (λ x, rbac x = rbac d) (gate cfg rsaUtil now authHeader query g)) d fs eq_refl)
         |apply (λ Hp, (Hp : preserves (λ x, users x = users d) (gate cfg rsaUtil now authHeader query g)) d fs eq_refl)];
    unfold gate, and_then; repeat users_step; by destruct g; simpl; repeat users_step.
Qed.
Lemma gate_sound now authHeader query g d fs id role :
  (gate cfg rsaUtil now authHeader query g d fs).1 = Next (id, role) →
  (JWTAuthMiddlewareWithAPIToken cfg rsaUtil now authHeader query d fs).1 = Next id ∧ guard_holds (rbac d) g id.
Proof.
  unfold gate, and_then at 1. rewrite run_bind.
  assert (preserves (λ x, rbac x = rbac d) (JWTAuthMiddlewareWithAPIToken cfg rsaUtil now authHeader query)) as Hr
    by apply preserves_authenticate, rbac_token_closed.
  specialize (Hr d fs eq_refl).
  destruct (JWTAuthMiddlewareWithAPIToken cfg rsaUtil now authHeader query d fs) as [[i|st e] [d1 fs1]]; simpl in Hr; [|done].
  unfold and_then at 1. rewrite run_bind. pose proof (preserves_InjectUserRole (λ x, x = d1) i d1 fs1 eq_refl) as Hi.
  destruct (InjectUserRole i d1 fs1) as [[r|st e] [d2 fs2]]; simpl in Hi; subst d2; [|done].
  unfold and_then. rewrite run_bind. pose proof (check_guard_sound g i d1 fs2) as Hg.
  destruct (check_guard g i d1 fs2) as [[[]|st e] [d2 fs3]]; [|done]. intros [= <- _]. split; [done|]. rewrite <- Hr. by apply Hg.
Qed.
(** What is behind the gate runs after it, for a caller the guard holds of. *)
Lemma gated_run {A} now authHeader query g (k : identity * string → M udb (verdict A)) d fs :
  let m := and_then (gate cfg rsaUtil now authHeader query g) k in
  spared d (m d fs).2.1 ∨
  ∃ id role d1 fs1, (JWTAuthMiddlewareWithAPIToken cfg rsaUtil now authHeader query d fs).1 = Next id ∧ guard_holds (rbac d) g id ∧
    spared d d1 ∧ m d fs = k (id, role) d1 fs1.
Proof.
  simpl. unfold and_then. rewrite run_bind. pose proof (gate_spared now authHeader query g d fs) as Hs.
  pose proof (gate_sound now authHeader query g d fs) as Hg.
  destruct (gate cfg rsaUtil now authHeader query g d fs) as [[[id role]|st e] [d1 fs1]]; [|by left]. right.
  destruct (Hg id role eq_refl). by exists id, role, d1, fs1.
Qed.

(** C23: whatever fails, a request of the user and domain administration that
    changes an account, a role, a domain or a membership comes from a caller
    the middleware let through and who is allowed to by the permissions at that
    moment: the rule named by its route holds. *)
Theorem administration_is_guarded now authHeader query q d fs :
  spared d (admin_route cfg rsaUtil now authHeader query q d fs).2.1 ∨
  ∃ id, (JWTAuthMiddlewareWithAPIToken cfg rsaUtil now authHeader query d fs).1 = Next id ∧ guard_holds (rbac d) (guard_of q) id.
Proof.
  destruct (gated_run now authHeader query (guard_of q) (λ '(id, role),
    _ ← serve rsaUtil (with_operator (mkOperator (user_id id) role (current_domain_id id)) q); mret (Next tt)) d fs)
    as [?|(id & role & d1 & fs1 & ? & ? & _)]; [by left|]. right. by exists id.
Qed.
End guarded.

(** ** Every request *)
Inductive request : Type :=
| QLogin (now : Z) (req : option (string * string))
| QSSOLogin (enabled : bool) (sso : string → string → sso_outcome) (now : Z) (req : option (string * string))
| QRegister (now : Z) (salt : string) (req : option RegisterRequest)
| QRefreshToken (now : Z) (t : option string)
| QSwitchDomain (now : Z) (authHeader query : string) (req : option Z)
| QAdmin (now : Z) (authHeader query : string) (q : admin_request)
| QGenerate (now : Z) (authHeader query : string) (r : draws)
| QRevoke (now : Z) (authHeader query : string).

Section always.
Context `{Jwt, Rsa, Aead, Bcrypt} (cfg : JWTConfig) (rsaUtil : RSAUtil).

Definition handle (q : request) : M udb unit :=
  match q with
  | QLogin now req => done (Login cfg rsaUtil now req)
  | QSSOLogin enabled sso now req => done (SSOLogin cfg enabled sso now req)
  | QRegister now salt req => done (Register rsaUtil now salt req)
  | QRefreshToken now t => done (RefreshToken cfg now t)
  | QSwitchDomain now authHeader query req => _ ← switch_request cfg rsaUtil now authHeader query req; mret tt
  | QAdmin now authHeader query q => _ ← admin_route cfg rsaUtil now authHeader query q; mret tt
  | QGenerate now authHeader query r =>
      v ← protected cfg rsaUtil now authHeader query;
      match v with Next op => done (h_Generate rsaUtil now r (Some (op_id op))) | Abort _ _ => mret tt end
  | QRevoke now authHeader query =>
      v ← protected cfg rsaUtil now authHeader query;
      match v with Next op => done (h_Revoke (Some (op_id op))) | Abort _ _ => mret tt end
  end.

Lemma preserves_perm_err {A} I (m : M db (result Permission.error A)) : quiet m → preserves I (perm_err m).
Proof.
  intros Hm d fs Hd. unfold perm_err, zoom. pose proof (Hm (rbac d) fs) as E. destruct (m (rbac d) fs) as [a [r fs']]. simpl in *.
  subst r. by destruct d.
Qed.
Lemma preserves_start_domain I uid : preserves I (start_domain uid).
Proof. intros d fs Hd. by destruct (start_domain_sound uid d fs) as (i & infos & fs' & -> & _). Qed.
Lemma preserves_permissions_and_codes I uid : preserves I (permissions_and_codes uid).
Proof. intros d fs Hd. by rewrite permissions_and_codes_quiet. Qed.
Hint Resolve preserves_start_domain preserves_permissions_and_codes preserves_perm_err quiet_SwitchDomain quiet_GetUserRoleCodes
  preserves_serve : users.

Context (I : udb → Prop) (HI : closed I) (HT : token_closed I).

Lemma preserves_new_user now uname rname phone hash email : hashed hash → preserves I (auth_CreateUser now uname rname phone hash email).
Proof. intros Hh. apply preserves_write_unique. intros *. by apply (c_insert_user I HI). Qed.
Lemma preserves_give_default_role uid : preserves I (give_default_role uid).
Proof.
  unfold give_default_role, GetRoleIDByCode, AssignUserRole. repeat users_step. apply preserves_write_unique. intros *.
  apply (c_insert_role I HI).
Qed.
Lemma preserves_protected now authHeader query : preserves I (protected cfg rsaUtil now authHeader query).
Proof. unfold protected, and_then. repeat users_step. Qed.

Lemma preserves_check_guard g id : preserves I (check_guard g id).
Proof. destruct g; simpl; [apply preserves_ret|apply preserves_RequirePermission|apply preserves_RequireSystemAdmin]. Qed.

Lemma preserves_handle q : preserves I (handle q).
Proof.
  destruct q; simpl; try apply preserves_done;
    unfold Login, SSOLogin, sso_account, Register, RefreshToken, switch_request, h_SwitchDomain, admin_route, gate, and_then, h_Generate,
      h_Revoke, with_user, GetTokenInfo, auth_GetUserByUsername, GetSSOUserByUsername, GetUserActiveStatus;
    repeat first
      [ users_step
      | apply preserves_UpdateLastLogin; done
      | apply preserves_give_default_role
      | apply preserves_check_guard
      | apply preserves_protected
      | apply preserves_done
      | apply preserves_new_user; first [by left | right; repeat match goal with u : unit |- _ => destruct u end; by eexists _, _]
      | by apply preserves_serve ].
Qed.
End always.

Section invariant.
Context `{Jwt, Rsa, Aead, Bcrypt} (cfg : JWTConfig) (rsaUtil : RSAUtil).

Definition accounts_ok (d : udb) : Prop := users_ok d ∧ tokens_ok d.
Definition serve_all (qs : list (request * list fate)) (d : udb) : udb :=
  foldl (λ d '(q, fs), (handle cfg rsaUtil q d fs).2.1) d qs.


Lemma closed_and I J : closed I → closed J → closed (λ d, I d ∧ J d).
Proof.
  intros [] []. split; intros; repeat match goal with K : _ ∧ _ |- _ => destruct K end; split;
    match goal with K : ∀ _, _ |- _ => eapply K; eassumption end.
Qed.
Lemma token_closed_and I J : token_closed I → token_closed J → token_closed (λ d, I d ∧ J d).
Proof.
  intros [] []. split; intros; repeat match goal with K : _ ∧ _ |- _ => destruct K end; split;
    match goal with K : ∀ _, _ |- _ => eapply K; eassumption end.
Qed.
Lemma users_ok_token_closed : token_closed users_ok.
Proof.
  split; [by intros uid d []| |by intros now id d []]. intros * []. unfold insert_token. case_match; [done|]. by intros [= <- <-].
Qed.

(** whatever requests are served, in whatever order and with whatever
    failures, user and domain identifiers stay unique and are not given out
    again, no two accounts share a name and no two domains, every stored
    password is a hash of an acceptable one (or none, for accounts of the single
    sign-on), nobody is in a domain twice, and nobody has two API tokens. *)
Theorem accounts_always_ok qs d : accounts_ok d → accounts_ok (serve_all qs d).
Proof.
  revert d. induction qs as [|[q fs] qs IH]; intros d Hd; [done|]. apply IH. apply preserves_handle; [..|done].
  - apply closed_and; [apply users_ok_closed|apply tokens_ok_closed].
  - apply token_closed_and; [apply users_ok_token_closed|apply tokens_ok_token_closed].
Qed.
End invariant.

(** ** Tokens with these properties

    A toy signature: the key and the claims in the open.  Only the steps of
    [step] may not make one up. *)
#[export] Instance Claims_eq_dec : EqDecision Claims.
Proof. solve_decision. Defined.
#[export] Instance Claims_countable : Countable Claims.
Proof.
  refine (inj_countable' (λ c, (c_UserID c, c_Username c, c_RealName c, CurrentDomainID c, ExpiresAt c, IssuedAt c, Issuer c))
            (λ '(u, n, r, d, e, i, s), mkClaims u n r d e i s) _).
  by intros [].
Defined.

Fixpoint pos_text (p : BinNums.positive) : string :=
  match p with xH => "" | xO p => String "0" (pos_text p) | xI p => String "1" (pos_text p) end.
Fixpoint text_pos (s : string) : option BinNums.positive :=
  match s with
  | "" => Some xH
  | String "0" s => xO <$> text_pos s
  | String "1" s => xI <$> text_pos s
  | _ => None
  end.
Lemma text_pos_text p : text_pos (pos_text p) = Some p.
Proof. induction p as [p IH|p IH|]; simpl; [by rewrite IH..|done]. Qed.

#[export] Instance toy_jwt : Jwt := {|
  SignedString k c := Some (pos_text (countable.encode (k, c)));
  ParseWithClaims k now t :=
    '(k', c) ← (text_pos t ≫= countable.decode : option (string * Claims));
    if bool_decide (k = k') && (now <? ExpiresAt c * second) then Some c else None;
  same_key k k' := bool_decide (k = k');
|}.
#[export] Instance toy_jwt_laws : JwtLaws toy_jwt.
Proof.
  split.
  - intros k c. by eexists.
  - intros k k' c t now [= <-]. unfold ParseWithClaims, toy_jwt. rewrite text_pos_text. simpl. by rewrite countable.decode_encode.
  - intros k. by apply bool_decide_true.
  - intros k. assert (k ≠ k +:+ "_refresh") as Hne.
    { intros E. apply (f_equal String.length) in E. rewrite string_length_app in E. simpl in E. lia. }
    split; apply bool_decide_false; congruence.
Qed.

Definition demo_cfg : JWTConfig := InitJWT "k" 2 [].
Definition demo_login (name password : string) : option (string * string) := Some (name, encrypted password).
Definition anna_session : reply session := (Login demo_cfg demo_rsa 0 (demo_login "anna" "anna01") office []).1.
Definition token_text (r : reply session) : string := match r with Success s => s_token s | _ => "" end.

Lemma Login_result_witness :
  (∃ s, anna_session = Success s ∧ s_current_domain_id s = 10) ∧
  (Login demo_cfg demo_rsa 0 (demo_login "anna" "ben001") office []).1 = Fail CodeInvalidCredentials "用户名或密码错误".
Proof.
  split.
  - assert (login_row "anna" office = Some (account 2 "anna" "anna01")) as E1 by by vm_compute.
    assert (Decrypt demo_rsa (encrypted "anna01") = Ok "anna01") as E2 by by vm_compute.
    assert (CompareHashAndPassword (Password (account 2 "anna" "anna01")) "anna01" = true) as E3 by by vm_compute.
    pose proof (Login_result demo_cfg demo_rsa 0 "anna" (encrypted "anna01") office ltac:(discriminate) ltac:(vm_compute; discriminate)) as Hl.
    unfold anna_session, demo_login. rewrite E1, E2, E3 in Hl. cbn [IsActive account] in Hl.
    destruct (Login _ _ _ _ _ _) as [r [d fs]]. destruct Hl as (s & -> & _ & Hd & Hi & _). exists s. split; [done|].
    rewrite Hd. by vm_compute.
  - by vm_compute.
Defined.

(** The server after anna has logged in. *)
Definition after_login : server :=
  advance (mkServer office [office] []) 0 (Login demo_cfg demo_rsa 0 (demo_login "anna" "anna01") office []).2.1
    (session_tokens anna_session).
Lemma after_login_reachable : reachable demo_cfg demo_rsa after_login.
Proof.
  eapply reachable_step; [apply (reachable_start _ _ office)|]. unfold after_login, anna_session.
  destruct (Login demo_cfg demo_rsa 0 (demo_login "anna" "anna01") office []) as [r [d fs]] eqn:E.
  by eapply step_login.
Qed.

Lemma sessions_are_earned_witness :
  earned (past after_login) 2 10 ∧
  ∃ at_, (token_text anna_session, at_) ∈ issued after_login ∧ 5 < at_ + int64 (2 * hour).
Proof.
  refine (sessions_are_earned demo_cfg demo_rsa "k" 2 [] after_login 5 ("Bearer " +:+ token_text anna_session) "" [] (mkIdentity 2 "anna" "" 10 ByJwt)
            eq_refl after_login_reachable _ _).
  - intros now c _. assert (bearer ("Bearer " +:+ token_text anna_session) "" = token_text anna_session) as -> by by vm_compute.
    vm_compute. by left.
  - by vm_compute.
Defined.

Lemma accounts_always_ok_witness :
  accounts_ok office ∧
  accounts_ok (serve_all demo_cfg demo_rsa
    [(QLogin 0 (demo_login "anna" "anna01"), [Fine; Lost]);
     (QAdmin 5 ("Bearer " +:+ token_text anna_session) "" (RCreateDomain (Some ("north", ""))), [])] office).
Proof.
  assert (accounts_ok office) as Ho. { split; [apply office_ok|]. split; [split; [constructor|by intros t ?%elem_of_nil]|constructor]. }
  split; [done|]. by apply accounts_always_ok.
Defined.

(** ** What lasts too long *)

(** Switching the domain does not look at the account: a user that was
    disabled gets fresh tokens as long as it asks in time. *)
Definition disabled : udb := set_users (update_where (λ u, u_ID u =? 2)
  (λ u, mkUser (u_ID u) (Username u) (Password u) (RealName u) (Phone u) (Email u) false (LastLoginAt u) (CreatedBy u) (CreatedAt u) (UpdatedAt u))) office.
Lemma disabled_user_renews :
  let now := hour in
  let v := (switch_request demo_cfg demo_rsa now ("Bearer " +:+ token_text anna_session) "" (Some 10) disabled []).1 in
  (∃ t r, switched_tokens v = [t; r] ∧ is_Some (ParseToken demo_cfg (2 * hour + 5) t) ∧
          ParseToken demo_cfg (2 * hour + 5) (token_text anna_session) = None) ∧
  (RefreshToken demo_cfg now (match anna_session with Success s => Some (s_refresh_token s) | _ => None end) disabled []).1 =
    Fail CodeInvalidToken "该账号已被禁用，请联系管理员".
Proof. vm_compute. split; [|done]. eexists _, _. split; [done|]. split; [by eexists|done]. Qed.

(** A token of a session is not checked against the account at all: a disabled
    administrator goes on administering until it expires. *)
Lemma disabled_admin_administers :
  let root := token_text (Login demo_cfg demo_rsa 0 (demo_login "root" "root01") office []).1 in
  let off := set_users (delete_where (λ u, u_ID u =? 1)) office in
  user_row 1 off = None ∧
  user_row 3 (admin_route demo_cfg demo_rsa hour ("Bearer " +:+ root) "" (RDeleteUser 3) off []).2.1 = None.
Proof. by vm_compute. Qed.

