(* ===== verification/Access.v ===== *)
(** * Access to data sources and webhooks

    [src/scheduler/internal/datasource/permission.go], the permission part of
    [src/scheduler/internal/datasource/service.go] and
    [src/scheduler/internal/service/instance_permission.go]: permission types
    and what they include, grants to users and roles, and the checks.

    The state adds tables to those of [Permission], whose queries are used
    through [rbac_call].  Go ranges over a map in any order; the permission
    types are listed in one order here, and only ever used as a set ([IN]).
    [bdopsflow_datasource_permissions] and [bdopsflow_webhook_permissions] have
    the same columns.  A [granted_at] is a time in nanoseconds. *)
From S2P Require Import Prelude Sql Permission.

(** ** Tables *)

(** [model.Datasource]; [ds_Password] is stored encrypted. *)
Record Datasource : Type := mkDatasource {
  ds_ID : Z; ds_Name : string; Type_ : string; Host : string; Port : Z; Path : string; Database : string;
  Username : string; ds_Password : string; AuthType : string; ConnectionMode : string; ZkHosts : string;
  ZkPath : string; RqliteHosts : string; Config : string; ds_Description : string; ds_DomainID : Z;
  IsEnabled : bool; AllowWriteSQL : bool; TestStatus : string; LastTestAt : option Z;
  ds_CreatedBy : option Z; ds_UpdatedBy : option Z; ds_CreatedAt : Z; ds_UpdatedAt : Z;
}.

(** The columns of a webhook the checks read. *)
Record owned : Type := mkOwned { o_ID : Z; o_DomainID : Z; o_CreatedBy : option Z }.

Record Grant : Type := mkGrant {
  g_ID : Z; g_instance : Z; g_role : option Z; g_user : option Z; g_type : string;
  g_by : option Z; g_at : Z;
}.

Record idb : Type := mkIdb {
  rbac : db;
  datasources : table Datasource;
  ds_grants : table Grant;
  webhooks : table owned;
  wh_grants : table Grant;
}.

Inductive error : Type :=
| ErrDB
| ErrPermissionServiceError
| ErrInstancePermissionDenied
| ErrGranteeRequired
| ErrInvalidPermissionType
| ErrPermissionNotFound
| ErrDatasourceNotFound
| ErrDatasourceNameExists
| ErrConnect
| ErrSavedSQLNotFound.

#[export] Instance Grant_eq_dec : EqDecision Grant.
Proof. solve_decision. Defined.

Implicit Types d : idb.

Definition set_datasources (f : table Datasource → table Datasource) d : idb :=
  mkIdb (rbac d) (f (datasources d)) (ds_grants d) (webhooks d) (wh_grants d).
Definition set_ds_grants (f : table Grant → table Grant) d : idb :=
  mkIdb (rbac d) (datasources d) (f (ds_grants d)) (webhooks d) (wh_grants d).
Definition set_wh_grants (f : table Grant → table Grant) d : idb :=
  mkIdb (rbac d) (datasources d) (ds_grants d) (webhooks d) (f (wh_grants d)).

Definition select {A} (f : idb → A) : M idb (result error A) := or_err ErrDB (query f).

(** A query of the permission service. *)
Definition rbac_call {A} (m : M db (result Permission.error A)) : M idb (result error A) :=
  r ← zoom rbac (λ r d, mkIdb r (datasources d) (ds_grants d) (webhooks d) (wh_grants d)) m;
  mret match r with Ok a => Ok a | Err _ => Err ErrDB end.

(** ** Permission types *)

Definition permissionIncludes : list (string * list string) :=
  [("read", []); ("query", ["read"]); ("download", ["query"; "read"]);
   ("update", ["download"; "query"; "read"]); ("delete", []);
   ("manage", ["update"; "download"; "query"; "read"; "delete"])].
Definition validPermissionTypes : list string := ["read"; "query"; "download"; "update"; "delete"; "manage"].
Definition webhookPermissionIncludes : list (string * list string) :=
  [("read", []); ("trigger", ["read"]); ("update", ["read"]); ("delete", []);
   ("manage", ["update"; "read"; "delete"; "trigger"])].

Fixpoint assoc {A} (k : string) (l : list (string * A)) : option A :=
  match l with
  | [] => None
  | (k', a) :: l => if bool_decide (k = k') then Some a else assoc k l
  end.

Definition IsValidPermissionType (permType : string) : bool := in_list permType validPermissionTypes.

Definition GetIncludedPermissions (permType : string) : list string :=
  match assoc permType permissionIncludes with None => [] | Some included => permType :: included end.

(** The loop over the map. *)
Definition includers (includes : list (string * list string)) (permType : string) : list string :=
  fst <$> where_ (λ '(pt, incs), bool_decide (pt = permType) || in_list permType incs) includes.

Definition GetEffectivePermissions (permType : string) : list string :=
  if negb (IsValidPermissionType permType) then [permType] else includers permissionIncludes permType.

Definition getWebhookEffectivePermissions (permType : string) : list string :=
  match includers webhookPermissionIncludes permType with [] => [permType] | result => result end.

Definition permissionWeight : list (string * Z) :=
  [("manage", 100); ("update", 50); ("download", 40); ("query", 30); ("read", 20); ("delete", 10)].
Definition highestPermission (a b : string) : string :=
  match assoc a permissionWeight, assoc b permissionWeight with
  | None, _ => b
  | _, None => a
  | Some wa, Some wb => if wb <=? wa then a else b
  end.

(** ** The checks *)

(** [user_id = ? OR role_id IN (SELECT ur.role_id ... WHERE ur.user_id = ?)] *)
Definition granted_to (userID : Z) (r : db) (g : Grant) : bool :=
  bool_decide (g_user g = Some userID) ||
  match g_role g with Some role => in_list role (role_ids_of userID r) | None => false end.

Definition grant_matches (userID instance : Z) (types : list string) (r : db) (g : Grant) : bool :=
  (g_instance g =? instance) && granted_to userID r g && in_list (g_type g) types.

(** What [HasDatasourcePermission] and [HasWebhookPermission] do, each with
    its tables, its types and what a domain administrator may do. *)
Definition has_permission (domain_of : Z → idb → option Z) (created_by : Z → idb → option Z)
    (grants : idb → table Grant) (bypass effective : list string)
    (userID instance : Z) (permissionType : string) : M idb (result error bool) :=
  isAdmin ←? rbac_call (IsSystemAdmin userID);
  if (isAdmin : bool) then mret (Ok true)
  else
    row ←? select (domain_of instance);
    match row with
    | None => mret (Err ErrInstancePermissionDenied)
    | Some domainID =>
        isDomainAdmin ←? rbac_call (IsDomainAdmin userID domainID);
        if (isDomainAdmin : bool) && in_list permissionType bypass then mret (Ok true)
        else
          createdBy ←? select (created_by instance);
          if bool_decide (createdBy = Some userID) then mret (Ok true)
          else
            n ←? select (λ d, count (grant_matches userID instance effective (rbac d)) (rows (grants d)));
            mret (Ok (0 <? n))
    end.

Definition ds_row (id : Z) d : option Datasource := head (where_ (λ r, ds_ID r =? id) (rows (datasources d))).
Definition wh_row (id : Z) d : option owned := head (where_ (λ r, o_ID r =? id) (rows (webhooks d))).

(** A missing creator reads as 0. *)
Definition HasDatasourcePermission (userID datasourceID : Z) (permissionType : string) :
    M idb (result error bool) :=
  has_permission (λ id d, ds_DomainID <$> ds_row id d) (λ id d, (λ r, default 0 (ds_CreatedBy r)) <$> ds_row id d)
    ds_grants ["read"; "query"] (GetEffectivePermissions permissionType) userID datasourceID permissionType.

Definition HasWebhookPermission (userID webhookID : Z) (permissionType : string) :
    M idb (result error bool) :=
  has_permission (λ id d, o_DomainID <$> wh_row id d) (λ id d, (λ r, default 0 (o_CreatedBy r)) <$> wh_row id d)
    wh_grants ["read"] (getWebhookEffectivePermissions permissionType) userID webhookID permissionType.

(** The check of the data-source service: grants only. *)
Definition CheckPermission (userID datasourceID : Z) (permType : string) : M idb (result error bool) :=
  let effectivePerms := GetEffectivePermissions permType in
  let effectivePerms := match effectivePerms with [] => [permType] | _ => effectivePerms end in
  n ←? or_err ErrPermissionServiceError (query (λ d, count (λ g,
         bool_decide (g_user g = Some userID) && (g_instance g =? datasourceID) &&
         in_list (g_type g) effectivePerms) (rows (ds_grants d))));
  if 0 <? n then mret (Ok true)
  else
    n ←? or_err ErrPermissionServiceError (query (λ d, count (λ '(g, ur),
           (ur_user ur =? userID) && (g_instance g =? datasourceID) && in_list (g_type g) effectivePerms)
         (g ← rows (ds_grants d);
          ur ← where_ (λ ur, bool_decide (g_role g = Some (ur_role ur))) (rows (user_roles (rbac d)));
          [(g, ur)])));
    mret (Ok (0 <? n)).

Definition GetUserDatasourceIDs (userID : Z) (permissionType : string) : M idb (result error (list Z)) :=
  ids ←? select (λ d, remove_dups (g_instance <$> where_ (λ g, granted_to userID (rbac d) g &&
           in_list (g_type g) (GetEffectivePermissions permissionType)) (rows (ds_grants d))));
  mret (Ok (where_ (λ id, 0 <? id) ids)).

(** The result is a map from data sources to levels. *)
Definition GetUserDatasourcePermissionLevels (userID : Z) (datasourceIDs : list Z) :
    M idb (result error (gmap Z string)) :=
  match datasourceIDs with
  | [] => mret (Ok ∅)
  | _ =>
      gs ←? select (λ d, where_ (λ g, in_list (g_instance g) datasourceIDs && granted_to userID (rbac d) g)
              (rows (ds_grants d)));
      mret (Ok (foldl (λ (result : gmap Z string) g,
        if (0 <? g_instance g) && negb (bool_decide (g_type g = "")) then
          <[g_instance g := match result !! g_instance g with
                            | Some existing => highestPermission existing (g_type g)
                            | None => g_type g
                            end]> result
        else result) ∅ gs))
  end.

Definition GetDatasourceDomainID (dsID : Z) : M idb (result error Z) :=
  o ← query (λ d, ds_DomainID <$> ds_row dsID d);
  mret match o ≫= id with Some domainID => Ok domainID | None => Err ErrDatasourceNotFound end.

(** ** Grants *)

(** Two rows collide in a [UNIQUE(instance, role, type)] or
    [UNIQUE(instance, user, type)]; NULLs do not. *)
Definition collides (g g' : Grant) : bool :=
  (g_instance g =? g_instance g') && bool_decide (g_type g = g_type g') &&
  (match g_role g, g_role g' with Some r, Some r' => r =? r' | _, _ => false end ||
   match g_user g, g_user g' with Some u, Some u' => u =? u' | _, _ => false end).

(** The [INSERT], its [CHECK]s and its [UNIQUE]s; the id of the new row. *)
Definition insert_grant (types : list string) (instance : Z) (role user : option Z) (permType : string)
    (by_ : option Z) (now : Z) (t : table Grant) : option (Z * table Grant) :=
  let mk id := mkGrant id instance role user permType by_ now in
  if negb (in_list permType types) || (bool_decide (role = None) && bool_decide (user = None)) then None
  else if existsb (collides (mk 0)) (rows t) then None
  else let t := insert_row mk t in Some (last_id t, t).

Definition webhook_types : list string := ["read"; "update"; "delete"; "trigger"; "manage"].

Definition insert_ds_grant instance role user permType by_ now d : option (Z * idb) :=
  '(id, t) ← insert_grant validPermissionTypes instance role user permType by_ now (ds_grants d);
  Some (id, set_ds_grants (λ _, t) d).
Definition insert_wh_grant instance role user permType by_ now d : option (Z * idb) :=
  '(id, t) ← insert_grant webhook_types instance role user permType by_ now (wh_grants d);
  Some (id, set_wh_grants (λ _, t) d).

Definition GrantDatasourcePermission (now datasourceID : Z) (roleID userID : option Z) (permissionType : string)
    (grantedBy : Z) : M idb (result error unit) :=
  _ ←? or_err ErrDB (exec_checked (insert_ds_grant datasourceID roleID userID permissionType (Some grantedBy) now));
  mret (Ok tt).
Definition GrantWebhookPermission (now webhookID : Z) (roleID userID : option Z) (permissionType : string)
    (grantedBy : Z) : M idb (result error unit) :=
  _ ←? or_err ErrDB (exec_checked (insert_wh_grant webhookID roleID userID permissionType (Some grantedBy) now));
  mret (Ok tt).

Definition RevokeDatasourcePermission (permID : Z) : M idb (result error unit) :=
  or_err ErrDB (exec (set_ds_grants (delete_where (λ g, g_ID g =? permID)))).
Definition RevokeWebhookPermission (permID : Z) : M idb (result error unit) :=
  or_err ErrDB (exec (set_wh_grants (delete_where (λ g, g_ID g =? permID)))).

(** Scanned identifiers are set when positive. *)
Definition scan_grant (g : Grant) : Grant :=
  mkGrant (g_ID g) (g_instance g) (positive (g_role g)) (positive (g_user g)) (g_type g) (positive (g_by g)) (g_at g).
Definition GetDatasourcePermissions (datasourceID : Z) : M idb (result error (list Grant)) :=
  select (λ d, scan_grant <$> order_by (λ g g', g_ID g <=? g_ID g')
    (where_ (λ g, g_instance g =? datasourceID) (rows (ds_grants d)))).
Definition GetWebhookPermissions (webhookID : Z) : M idb (result error (list Grant)) :=
  select (λ d, scan_grant <$> order_by (λ g g', g_ID g <=? g_ID g')
    (where_ (λ g, g_instance g =? webhookID) (rows (wh_grants d)))).

(** [DatasourceService.GetPermissions] *)
Definition GetPermissions (datasourceID : Z) : M idb (result error (list Grant)) :=
  select (λ d, where_ (λ g, g_instance g =? datasourceID) (rows (ds_grants d))).

(** The user is looked at first. *)
Definition same_grantee (role user : option Z) (g : Grant) : bool :=
  match user with Some _ => bool_decide (g_user g = user) | None => bool_decide (g_role g = role) end.

(** [DatasourceService.GrantPermission]: lower permissions of the grantee are
    deleted first, and an error of that is only logged. *)
Definition GrantPermission (now instance : Z) (role user : option Z) (permType : string) (by_ : option Z) :
    M idb (result error Z) :=
  if bool_decide (role = None) && bool_decide (user = None) then mret (Err ErrGranteeRequired)
  else if negb (IsValidPermissionType permType) then mret (Err ErrInvalidPermissionType)
  else
    let includedPerms := GetIncludedPermissions permType in
    _ ← (match includedPerms with
         | [] => mret None
         | _ => exec (set_ds_grants (delete_where (λ g,
                  (g_instance g =? instance) && same_grantee role user g && in_list (g_type g) includedPerms)))
         end);
    or_err ErrDB (exec_checked (insert_ds_grant instance role user permType by_ now)).

(** Changing a type can violate a [UNIQUE]. *)
Definition retype (id : Z) (permType : string) (now : Z) d : option (unit * idb) :=
  let f g := if g_ID g =? id
             then mkGrant (g_ID g) (g_instance g) (g_role g) (g_user g) permType (g_by g) now else g in
  let clash := existsb (λ g, (g_ID g =? id) &&
                 existsb (λ g', negb (g_ID g' =? id) && collides (f g) g') (rows (ds_grants d)))
                 (rows (ds_grants d)) in
  if clash then None else Some (tt, set_ds_grants (set_rows (map f)) d).

Definition UpdatePermission (now id : Z) (permType : string) : M idb (result error unit) :=
  if negb (IsValidPermissionType permType) then mret (Err ErrInvalidPermissionType)
  else
    n ←? select (λ d, count (λ g, g_ID g =? id) (rows (ds_grants d)));
    if n =? 0 then mret (Err ErrPermissionNotFound)
    else or_err ErrDB (exec_checked (retype id permType now)).

Definition RevokePermission (id : Z) : M idb (result error unit) :=
  or_err ErrDB (exec (set_ds_grants (delete_where (λ g, g_ID g =? id)))).

(** ** What the types include *)

Definition includes (q p : string) : Prop := p ∈ GetIncludedPermissions q.

Lemma assoc_elem {A} k (l : list (string * A)) a : assoc k l = Some a → (k, a) ∈ l.
Proof.
  induction l as [|[k' a'] l IH]; [done|]. simpl. case_bool_decide as E; [intros [= ->]; subst; by left|].
  intros Ha. right. by apply IH.
Qed.

(** A statement about what a type includes, by evaluation. *)
Lemma includes_cases (P : string → string → bool) :
  forallb (λ ql, forallb (P ql.1) (GetIncludedPermissions ql.1)) permissionIncludes = true →
  ∀ q p, includes q p → P q p = true.
Proof.
  intros HP q p Hp. rewrite forallb_forall in HP. pose proof Hp as Hp'.
  unfold includes, GetIncludedPermissions in Hp. destruct (assoc q permissionIncludes) as [l|] eqn:E;
    [|by apply not_elem_of_nil in Hp].
  specialize (HP (q, l) (proj1 (list_elem_of_In _ _) (assoc_elem _ _ _ E))). rewrite forallb_forall in HP.
  by apply HP, list_elem_of_In.
Qed.

Lemma includes_valid q p : includes q p → IsValidPermissionType q = true ∧ IsValidPermissionType p = true.
Proof.
  intros Hqp. apply andb_true_iff. revert q p Hqp.
  apply (includes_cases (λ q p, IsValidPermissionType q && IsValidPermissionType p)). vm_compute. reflexivity.
Qed.
Lemma includes_refl q : IsValidPermissionType q = true → includes q q.
Proof.
  intros Hq%in_list_true. assert (Forall (λ q, q ∈ GetIncludedPermissions q) validPermissionTypes) as Hall
    by (apply (bool_decide_unpack _); vm_compute; exact I).
  rewrite Forall_forall in Hall. by apply Hall.
Qed.
Lemma includes_trans a b c : includes a b → includes b c → includes a c.
Proof.
  intros Hab Hbc. assert (forallb (λ c, in_list c (GetIncludedPermissions a)) (GetIncludedPermissions b) = true) as Hall.
  { clear Hbc. revert a b Hab. apply (includes_cases (λ a b,
      forallb (λ c, in_list c (GetIncludedPermissions a)) (GetIncludedPermissions b))). vm_compute. reflexivity. }
  rewrite forallb_forall in Hall. apply in_list_true, Hall. by apply list_elem_of_In.
Qed.
Lemma elem_of_effective p q :
  IsValidPermissionType p = true → q ∈ GetEffectivePermissions p ↔ includes q p.
Proof.
  intros Hp. split.
  - apply in_list_true in Hp.
    assert (Forall (λ p, Forall (λ q, p ∈ GetIncludedPermissions q) (GetEffectivePermissions p)) validPermissionTypes)
      as Hall by (apply (bool_decide_unpack _); vm_compute; exact I).
    rewrite Forall_forall in Hall. specialize (Hall p Hp). rewrite Forall_forall in Hall. apply Hall.
  - clear Hp. intros Hqp. apply in_list_true. revert q p Hqp.
    apply (includes_cases (λ q p, in_list q (GetEffectivePermissions p))). vm_compute. reflexivity.
Qed.

(** the two tables of permission types agree: a type is among those that
    are enough for [p] exactly when its holder has [p], and having is an order
    whose greatest element is [manage].  An unknown type is enough for itself
    only, and gives nothing. *)
Theorem permission_types_agree p q :
  (IsValidPermissionType p = true → (q ∈ GetEffectivePermissions p ↔ p ∈ GetIncludedPermissions q)) ∧
  (p ∈ GetIncludedPermissions q → q ∈ GetIncludedPermissions p → p = q) ∧
  (∀ r, p ∈ GetIncludedPermissions q → r ∈ GetIncludedPermissions p → r ∈ GetIncludedPermissions q) ∧
  (p ∈ GetIncludedPermissions "manage" ↔ IsValidPermissionType p = true) ∧
  (IsValidPermissionType p = false → GetEffectivePermissions p = [p] ∧ GetIncludedPermissions p = []).
Proof.
  split; [apply elem_of_effective|]. split.
  { intros Hqp. intros Hpq. assert (negb (in_list q (GetIncludedPermissions p)) || bool_decide (p = q) = true) as Hb.
    { clear Hpq. revert q p Hqp. apply (includes_cases (λ q p, negb (in_list q (GetIncludedPermissions p)) || bool_decide (p = q))).
      vm_compute. reflexivity. }
    apply in_list_true in Hpq. rewrite Hpq in Hb. by apply bool_decide_eq_true in Hb. }
  split; [intros r; apply includes_trans|]. split.
  { split; [intros Hp; by apply (includes_valid "manage")|]. intros Hp%in_list_true.
    assert (Forall (λ p, p ∈ GetIncludedPermissions "manage") validPermissionTypes) as Hall
      by (apply (bool_decide_unpack _); vm_compute; exact I).
    rewrite Forall_forall in Hall. by apply Hall. }
  intros Hp. unfold GetEffectivePermissions. rewrite Hp. split; [done|].
  destruct (GetIncludedPermissions p) as [|r l] eqn:E; [done|]. exfalso.
  destruct (includes_valid p r) as [Hv _]; [unfold includes; rewrite E; by left|congruence].
Qed.

(** ** Who may use an instance *)

Definition is_domain_admin (r : db) (userID domainID : Z) : Prop :=
  ∃ ro ur, ro ∈ rows (roles r) ∧ role_Code ro = "domain_admin" ∧ ur ∈ rows (user_roles r) ∧
           ur_user ur = userID ∧ ur_role ur = role_ID ro ∧ (ur_domain ur = Some domainID ∨ ur_domain ur = None).

(** A grant to the user, or to a role the user has in any domain. *)
Definition held (r : db) (userID : Z) (g : Grant) : Prop :=
  g_user g = Some userID ∨
  ∃ ur, ur ∈ rows (user_roles r) ∧ ur_user ur = userID ∧ g_role g = Some (ur_role ur).

Definition by_grant (r : db) (gs : table Grant) (userID instance : Z) (types : list string) : Prop :=
  ∃ g, g ∈ rows gs ∧ g_instance g = instance ∧ held r userID g ∧ g_type g ∈ types.

Lemma granted_to_true userID r g : granted_to userID r g = true ↔ held r userID g.
Proof.
  unfold granted_to, held. rewrite orb_true_iff, bool_decide_eq_true.
  destruct (g_role g) as [role|].
  - rewrite in_list_true, elem_of_role_ids_of. naive_solver.
  - naive_solver.
Qed.

Lemma count_grants userID instance types r gs :
  0 <? count (grant_matches userID instance types r) (rows gs) = true ↔ by_grant r gs userID instance types.
Proof.
  rewrite count_pos, existsb_elem_of. unfold by_grant, grant_matches.
  setoid_rewrite andb_true_iff. setoid_rewrite andb_true_iff. setoid_rewrite Z.eqb_eq.
  setoid_rewrite granted_to_true. setoid_rewrite in_list_true. naive_solver.
Qed.

Definition domain_admin_count userID domainID (r : db) : Z :=
  count (λ '(ur, ro), (ur_user ur =? userID) && bool_decide (role_Code ro = "domain_admin") &&
    (bool_decide (ur_domain ur = Some domainID) || bool_decide (ur_domain ur = None))) (join_roles r).

Lemma domain_admin_count_pos r userID domainID :
  0 <? domain_admin_count userID domainID r = true ↔ is_domain_admin r userID domainID.
Proof.
  unfold domain_admin_count, is_domain_admin. rewrite count_pos, existsb_elem_of. split.
  - intros ([ur ro] & Hin & Hp). unfold join_roles in Hin.
    apply list_elem_of_bind in Hin as (ur' & Hin & Hur). apply list_elem_of_bind in Hin as (ro' & Hin & Hro).
    apply list_elem_of_singleton in Hin as [= -> ->]. apply elem_of_where in Hro as [Hro Heq%Z.eqb_eq].
    rewrite !andb_true_iff, orb_true_iff, !bool_decide_eq_true, Z.eqb_eq in Hp. naive_solver.
  - intros (ro & ur & Hro & Hc & Hur & Hu & Hr & Hd). exists (ur, ro). split.
    + unfold join_roles. apply list_elem_of_bind. exists ur. split; [|done]. apply list_elem_of_bind. exists ro.
      split; [by left|]. apply elem_of_where. split; [done|]. by apply Z.eqb_eq.
    + rewrite !andb_true_iff, orb_true_iff, !bool_decide_eq_true, Z.eqb_eq. tauto.
Qed.

Lemma IsDomainAdmin_answers userID domainID :
  answers Permission.ErrDB (IsDomainAdmin userID domainID) (λ r, Ok (0 <? domain_admin_count userID domainID r)).
Proof.
  eapply answers_ext; [apply answers_bind; [apply answers_query|intros n; apply answers_ret]|done].
Qed.

Lemma rbac_call_answers {A} (m : M db (result Permission.error A)) f :
  answers Permission.ErrDB m (λ r, Ok (f r)) → answers ErrDB (rbac_call m) (λ d, Ok (f (rbac d))).
Proof.
  intros Hm d fs. unfold rbac_call. rewrite run_bind. unfold zoom.
  destruct (Hm (rbac d) fs) as (fs' & [->|[-> Hne]] & Hnil); exists fs'; (split; [|done]); destruct d; auto.
Qed.

(** What the check answers, with the data a domain and a creator come from. *)
Definition decision (domain_of created_by : Z → idb → option Z) (grants : idb → table Grant)
    (bypass effective : list string) (userID instance : Z) (permissionType : string) d : result error bool :=
  if 0 <? admin_count userID (rbac d) then Ok true
  else match domain_of instance d with
       | None => Err ErrInstancePermissionDenied
       | Some domainID =>
           Ok ((0 <? domain_admin_count userID domainID (rbac d)) && in_list permissionType bypass ||
               bool_decide (created_by instance d = Some userID) ||
               (0 <? count (grant_matches userID instance effective (rbac d)) (rows (grants d))))
       end.

Lemma has_permission_answers domain_of created_by grants bypass effective userID instance permissionType :
  answers ErrDB (has_permission domain_of created_by grants bypass effective userID instance permissionType)
    (decision domain_of created_by grants bypass effective userID instance permissionType).
Proof.
  eapply answers_ext.
  - apply answers_bind; [apply rbac_call_answers, IsSystemAdmin_answers|]. intros b.
    apply answers_if; [apply answers_ret|]. apply answers_bind; [apply answers_query|].
    intros row. apply answers_option; [apply answers_ret|]. intros domainID.
    apply answers_bind; [apply rbac_call_answers, IsDomainAdmin_answers|]. intros b'.
    apply answers_if; [apply answers_ret|]. apply answers_bind; [apply answers_query|]. intros creator.
    apply answers_if; [apply answers_ret|]. apply answers_bind; [apply answers_query|]. intros n. apply answers_ret.
  - intros d. unfold decision. simpl. destruct (0 <? admin_count userID (rbac d)); [done|].
    destruct (domain_of instance d) as [domainID|]; [|done].
    destruct ((0 <? domain_admin_count userID domainID (rbac d)) && in_list permissionType bypass); [done|].
    simpl. by case_bool_decide.
Qed.

Definition may_use_datasource d (userID id : Z) (p : string) : Prop :=
  is_admin (rbac d) userID ∨
  ∃ row, ds_row id d = Some row ∧
    (is_domain_admin (rbac d) userID (ds_DomainID row) ∧ p ∈ ["read"; "query"] ∨
     default 0 (ds_CreatedBy row) = userID ∨
     by_grant (rbac d) (ds_grants d) userID id (GetEffectivePermissions p)).

Definition may_use_webhook d (userID id : Z) (p : string) : Prop :=
  is_admin (rbac d) userID ∨
  ∃ row, wh_row id d = Some row ∧
    (is_domain_admin (rbac d) userID (o_DomainID row) ∧ p = "read" ∨
     default 0 (o_CreatedBy row) = userID ∨
     by_grant (rbac d) (wh_grants d) userID id (getWebhookEffectivePermissions p)).

(** The decision, read as a statement; [row] is what both queries find. *)
Lemma decision_spec {A} (find_row : Z → idb → option A) (dom creator : A → Z) grants bypass effective u id p d b :
  decision (λ id d, dom <$> find_row id d) (λ id d, creator <$> find_row id d) grants bypass effective u id p d = Ok b →
  b = true ↔ is_admin (rbac d) u ∨
    ∃ row, find_row id d = Some row ∧
      (is_domain_admin (rbac d) u (dom row) ∧ p ∈ bypass ∨ creator row = u ∨
       by_grant (rbac d) (grants d) u id effective).
Proof.
  unfold decision. destruct (0 <? admin_count u (rbac d)) eqn:Ea.
  { intros [= <-]. apply admin_count_pos in Ea. tauto. }
  assert (¬ is_admin (rbac d) u) as Hna by (rewrite <- admin_count_pos; congruence).
  destruct (find_row id d) as [row|]; [|done]. simpl. intros [= <-].
  rewrite !orb_true_iff, andb_true_iff, bool_decide_eq_true, domain_admin_count_pos, in_list_true, count_grants.
  split.
  - intros [[?|[= ?]]|?]; right; exists row; auto.
  - intros [?|(row' & [= <-] & [?|[<-|?]])]; [done|tauto|tauto|tauto].
Qed.

Lemma decision_error {A} (find_row : Z → idb → option A) (dom : A → Z) creator grants bypass effective u id p d e :
  decision (λ id d, dom <$> find_row id d) creator grants bypass effective u id p d = Err e ↔
  e = ErrInstancePermissionDenied ∧ ¬ is_admin (rbac d) u ∧ find_row id d = None.
Proof.
  unfold decision. rewrite <- admin_count_pos. destruct (0 <? admin_count u (rbac d)); [naive_solver|].
  destruct (find_row id d); simpl; naive_solver.
Qed.

(** [HasDatasourcePermission] decides who may use a data source.  Whatever
    fails it changes no table, and when it answers, the answer is yes exactly
    for system administrators, the domain's administrators who read or query,
    the creator, and holders of a grant, their own or a role's, that includes
    the permission.  Without faults it answers, unless the data source does
    not exist, which it reports as a denial. *)
Theorem HasDatasourcePermission_decides d fs userID id p :
  let '(r, d') := run (HasDatasourcePermission userID id p) d fs in
  d' = d ∧ (∀ b, r = Ok b → b = true ↔ may_use_datasource d userID id p) ∧
  (∀ e, r = Err e → fs = [] →
     e = ErrInstancePermissionDenied ∧ ¬ is_admin (rbac d) userID ∧ ds_row id d = None).
Proof.
  pose proof (has_permission_answers (λ id d, ds_DomainID <$> ds_row id d)
    (λ id d, (λ r, default 0 (ds_CreatedBy r)) <$> ds_row id d) ds_grants ["read"; "query"]
    (GetEffectivePermissions p) userID id p) as Ha.
  unfold run, HasDatasourcePermission. destruct (Ha d fs) as (fs' & [->|[-> Hne]] & _).
  - split; [done|]. split.
    + intros b Hb. exact (decision_spec ds_row ds_DomainID (λ r, default 0 (ds_CreatedBy r)) _ _ _ _ _ _ _ _ Hb).
    + intros e He _. by apply (decision_error ds_row) in He.
  - split; [done|]. split; [done|]. by intros e [= <-] ->.
Qed.

Lemma HasWebhookPermission_decides d fs userID id p :
  let '(r, d') := run (HasWebhookPermission userID id p) d fs in
  d' = d ∧ (∀ b, r = Ok b → b = true ↔ may_use_webhook d userID id p).
Proof.
  pose proof (has_permission_answers (λ id d, o_DomainID <$> wh_row id d)
    (λ id d, (λ r, default 0 (o_CreatedBy r)) <$> wh_row id d) wh_grants ["read"]
    (getWebhookEffectivePermissions p) userID id p) as Ha.
  unfold run, HasWebhookPermission. destruct (Ha d fs) as (fs' & [->|[-> Hne]] & _); (split; [done|]); [|done].
  intros b Hb. apply (decision_spec wh_row) in Hb. unfold may_use_webhook.
  by setoid_rewrite list_elem_of_singleton in Hb.
Qed.

(** ** The two checks *)

Lemma effective_nonempty p : GetEffectivePermissions p ≠ [].
Proof.
  intros Hn. destruct (IsValidPermissionType p) eqn:E.
  - pose proof (proj2 (elem_of_effective p p E) (includes_refl p E)) as Hp. rewrite Hn in Hp. by apply not_elem_of_nil in Hp.
  - unfold GetEffectivePermissions in Hn. by rewrite E in Hn.
Qed.

Lemma CheckPermission_answers userID id p :
  answers ErrPermissionServiceError (CheckPermission userID id p)
    (λ d, Ok (0 <? count (grant_matches userID id (GetEffectivePermissions p) (rbac d)) (rows (ds_grants d)))).
Proof.
  unfold CheckPermission. pose proof (effective_nonempty p) as Hne.
  destruct (GetEffectivePermissions p) as [|t ts] eqn:E; [done|]. clear Hne E. set (types := t :: ts).
  eapply answers_ext.
  - apply answers_bind; [apply answers_query|]. intros n. apply answers_if; [apply answers_ret|].
    apply answers_bind; [apply answers_query|]. intros n'. apply answers_ret.
  - intros d. simpl. rewrite !count_pos. set (e1 := existsb _ (rows (ds_grants d))). set (e2 := existsb _ (mbind _ _)).
    assert (existsb (grant_matches userID id types (rbac d)) (rows (ds_grants d)) = e1 || e2) as ->; [|by destruct e1].
    apply eq_bool_prop_intro. rewrite !Is_true_true, orb_true_iff. unfold e1, e2. rewrite !existsb_elem_of.
    split.
    + intros (g & Hg & Hm). unfold grant_matches in Hm. rewrite !andb_true_iff, granted_to_true in Hm.
      destruct Hm as [[Hi [Hu|(ur & Hur & Hu & Hr)]] Ht]; [left|right].
      * exists g. split; [done|]. by rewrite Hi, Ht, bool_decide_true.
      * exists (g, ur). split; [|by rewrite Hi, Ht, (proj2 (Z.eqb_eq _ _) Hu)].
        apply list_elem_of_bind. exists g. split; [|done]. apply list_elem_of_bind. exists ur. split; [by left|].
        apply elem_of_where. split; [done|]. by apply bool_decide_eq_true.
    + intros [(g & Hg & Hm)|([g ur] & Hin & Hm)]; rewrite !andb_true_iff in Hm; destruct Hm as [[H1 H2] H3]; exists g.
      * split; [done|]. unfold grant_matches. rewrite H2, H3, !andb_true_r. simpl. apply granted_to_true. left.
        by apply bool_decide_eq_true in H1.
      * apply list_elem_of_bind in Hin as (g' & Hin & Hg). apply list_elem_of_bind in Hin as (ur' & Hin & Hur).
        apply list_elem_of_singleton in Hin as [= <- <-]. apply elem_of_where in Hur as [Hur Hr%bool_decide_eq_true].
        split; [done|]. unfold grant_matches. rewrite H2, H3, andb_true_r. simpl. apply granted_to_true. right.
        exists ur. by apply Z.eqb_eq in H1.
Qed.

(** C14: the check of the data-source service and the one of the instance
    permissions agree on everybody who needs a grant: for a user who is
    neither administrator nor creator, and for a permission a domain
    administrator has no right to, they give the same answer. *)
Theorem CheckPermission_agrees d row userID id p
    (Hrow : ds_row id d = Some row) (Hna : ¬ is_admin (rbac d) userID)
    (Hnd : is_domain_admin (rbac d) userID (ds_DomainID row) → p ∉ ["read"; "query"])
    (Hnc : default 0 (ds_CreatedBy row) ≠ userID) :
  (run (CheckPermission userID id p) d []).1 = (run (HasDatasourcePermission userID id p) d []).1.
Proof.
  unfold run. rewrite (answers_run _ _ _ d (CheckPermission_answers userID id p)).
  unfold HasDatasourcePermission. rewrite (answers_run _ _ _ d (has_permission_answers _ _ _ _ _ _ _ _)).
  simpl. unfold decision. rewrite <- admin_count_pos in Hna. apply not_true_is_false in Hna. rewrite Hna, Hrow. simpl.
  rewrite bool_decide_false by congruence. rewrite orb_false_r.
  assert ((0 <? domain_admin_count userID (ds_DomainID row) (rbac d)) && in_list p ["read"; "query"] = false) as ->; [|done].
  apply not_true_is_false. rewrite andb_true_iff, domain_admin_count_pos, in_list_true. tauto.
Qed.

(** ** Granting *)

(** A row serves a user or a role, not both. *)
Definition one_grantee (role user : option Z) : Prop := role = None ∨ user = None.
Definition one_grantee_each (t : table Grant) : Prop := ∀ g, g ∈ rows t → one_grantee (g_role g) (g_user g).

Definition lower_of (instance : Z) (role user : option Z) (p : string) (g : Grant) : bool :=
  (g_instance g =? instance) && same_grantee role user g && in_list (g_type g) (GetIncludedPermissions p).

(** Whom a grant serves. *)
Definition serves (r : db) (role user : option Z) (userID : Z) : Prop :=
  user = Some userID ∨ ∃ ur, ur ∈ rows (user_roles r) ∧ ur_user ur = userID ∧ role = Some (ur_role ur).

Lemma lower_serves r instance role user p g u :
  one_grantee role user → one_grantee (g_role g) (g_user g) → (role ≠ None ∨ user ≠ None) →
  lower_of instance role user p g = true → held r u g ↔ serves r role user u.
Proof.
  intros Ho Hg Hne. unfold lower_of, same_grantee. rewrite !andb_true_iff. intros [[_ Hs] _].
  unfold held, serves, one_grantee in *. destruct user as [v|]; apply bool_decide_eq_true in Hs; rewrite Hs in *.
  - destruct Ho as [Ho|?]; [|done]. destruct Hg as [Hg|?]; [|done]. by rewrite Ho, Hg.
  - destruct Hne as [Hne|?]; [|done]. destruct Hg as [?|Hg]; [congruence|by rewrite Hg].
Qed.

(** The tables a call can leave behind, whatever fails. *)
Definition before_insert instance role user p d d1 : Prop :=
  rbac d1 = rbac d ∧ datasources d1 = datasources d ∧
  (ds_grants d1 = ds_grants d ∨ ds_grants d1 = delete_where (lower_of instance role user p) (ds_grants d)).
Definition after_grant now instance role user p by_ d d' : Prop :=
  rbac d' = rbac d ∧ datasources d' = datasources d ∧
  ∃ d1, before_insert instance role user p d d1 ∧
    (d' = d1 ∨ ∃ id, insert_ds_grant instance role user p by_ now d1 = Some (id, d')).

Lemma GrantPermission_effects now instance role user p by_ d fs :
  after_grant now instance role user p by_ d (run (GrantPermission now instance role user p by_) d fs).2.
Proof.
  assert (∀ d1, before_insert instance role user p d d1 → after_grant now instance role user p by_ d d1) as Hkeep.
  { intros d1 Hd1. destruct Hd1 as (H1 & H2 & H3). split; [done|]. split; [done|]. exists d1. by split; [|left]. }
  assert (before_insert instance role user p d d) as Hd0 by (split; [done|split; [done|by left]]).
  apply (run_triple (λ d', d' = d) _ (λ _ d', after_grant now instance role user p by_ d d')); [|done].
  unfold GrantPermission. case_match; [apply triple_ret; intros s ->; by apply Hkeep|].
  case_match; [apply triple_ret; intros s ->; by apply Hkeep|].
  eapply (triple_bind _ _ (λ _, before_insert instance role user p d)).
  - destruct (GetIncludedPermissions p) as [|q l] eqn:E; [apply triple_ret; by intros s ->|].
    apply triple_call. intros s ->. split; [|split; [done|]]; (split; [done|]); (split; [done|]); right; simpl;
      unfold lower_of; by rewrite E.
  - intros _. unfold or_err, exec_checked.
    apply (triple_bind _ _ (λ _, after_grant now instance role user p by_ d)); [|intros; by apply triple_ret].
    eapply (triple_bind _ _ (λ _, after_grant now instance role user p by_ d)); [|intros; by apply triple_ret].
    apply triple_call. intros d1 Hd1.
    destruct (insert_ds_grant instance role user p by_ now d1) as [[id d']|] eqn:E; simpl.
    + assert (after_grant now instance role user p by_ d d') as Hd'.
      { destruct Hd1 as (H1 & H2 & H3). unfold insert_ds_grant in E.
        destruct (insert_grant _ _ _ _ _ _ _ _) as [[id' t]|] eqn:Et; [|done]. simpl in E. injection E as <- <-.
        split; [done|]. split; [done|]. exists d1. split; [done|]. right. exists id'. unfold insert_ds_grant. by rewrite Et. }
      split; [done|]. split; [by apply Hkeep|done].
    + pose proof (Hkeep d1 Hd1). done.
Qed.

Lemma insert_grant_rows types instance role user p by_ now t id t' :
  insert_grant types instance role user p by_ now t = Some (id, t') →
  p ∈ types ∧ rows t' = rows t ++ [mkGrant id instance role user p by_ now].
Proof.
  unfold insert_grant. destruct (in_list p types) eqn:Ep; [|done]. simpl.
  destruct (bool_decide (role = None) && bool_decide (user = None)); [done|].
  destruct (existsb _ (rows t)); [done|]. intros [= <- <-]. split; [by apply in_list_true|done].
Qed.

Section granting.
Context (instance : Z) (role user : option Z) (p : string) (d : idb).
Context (Hp : IsValidPermissionType p = true) (Hone : one_grantee role user) (Hsome : role ≠ None ∨ user ≠ None).
Context (Hrows : one_grantee_each (ds_grants d)).

Lemma by_grant_delete r u id types :
  ¬ (id = instance ∧ serves r role user u) →
  by_grant r (delete_where (lower_of instance role user p) (ds_grants d)) u id types ↔
  by_grant r (ds_grants d) u id types.
Proof.
  intros Hn. unfold by_grant. split; intros (g & Hg & Hi & Hh & Ht).
  - apply elem_of_where in Hg as [Hg _]. by exists g.
  - exists g. split; [|done]. apply elem_of_where. split; [done|]. apply negb_true_iff, not_true_is_false. intros Hl.
    apply Hn. rewrite <- (lower_serves r instance role user p g u) by auto. split; [|done].
    unfold lower_of in Hl. rewrite !andb_true_iff, Z.eqb_eq in Hl. destruct Hl as [[Hl _] _]. congruence.
Qed.

Lemma by_grant_insert r t t' g u id types :
  rows t' = rows t ++ [g] → g_instance g = instance → g_role g = role → g_user g = user → g_type g = p →
  by_grant r t' u id types ↔ by_grant r t u id types ∨ id = instance ∧ serves r role user u ∧ p ∈ types.
Proof.
  intros Ht' Hi Hr Hu Hty. unfold by_grant. rewrite Ht'. setoid_rewrite elem_of_app.
  setoid_rewrite list_elem_of_singleton.
  assert (held r u g ↔ serves r role user u) as Hs by (unfold held, serves; by rewrite Hr, Hu).
  split.
  - intros (g' & [Hg'| ->] & H1 & H2 & H3); [left; by exists g'|right].
    split; [congruence|]. split; [by apply Hs|congruence].
  - intros [(g' & H1 & H2)|(-> & H2 & H3)]; [exists g'; auto|]. exists g. split; [by right|]. split; [done|].
    split; [by apply Hs|congruence].
Qed.

(** Nothing is lost by deleting what the new row includes. *)
Lemma by_grant_replaced r t' g u id q :
  rows t' = rows (delete_where (lower_of instance role user p) (ds_grants d)) ++ [g] →
  g_instance g = instance → g_role g = role → g_user g = user → g_type g = p →
  by_grant r t' u id (GetEffectivePermissions q) ↔
  by_grant r (ds_grants d) u id (GetEffectivePermissions q) ∨
  id = instance ∧ serves r role user u ∧ q ∈ GetIncludedPermissions p.
Proof.
  intros Ht' Hi Hr Hu Hty. rewrite (by_grant_insert r _ t' g u id _ Ht' Hi Hr Hu Hty).
  assert (p ∈ GetEffectivePermissions q ↔ q ∈ GetIncludedPermissions p) as Hq.
  { destruct (IsValidPermissionType q) eqn:E; [by apply elem_of_effective|]. unfold GetEffectivePermissions. rewrite E.
    simpl. rewrite list_elem_of_singleton. split; [congruence|]. intros [_ Hv]%includes_valid. congruence. }
  rewrite Hq. split.
  - intros [(g' & Hg' & Hrest)|?]; [left|by right]. apply elem_of_where in Hg' as [Hg' _]. by exists g'.
  - intros [(g' & Hg' & Hgi & Hh & Ht)|?]; [|by right].
    destruct (lower_of instance role user p g') eqn:El.
    + right. pose proof (proj1 (lower_serves r instance role user p g' u Hone (Hrows g' Hg') Hsome El) Hh) as Hs.
      unfold lower_of in El. rewrite !andb_true_iff, Z.eqb_eq, in_list_true in El. destruct El as [[Hl _] Hinc].
      split; [congruence|]. split; [done|]. apply (includes_trans p (g_type g') q Hinc).
      apply elem_of_effective; [|done]. destruct (IsValidPermissionType q) eqn:Ev; [done|]. exfalso.
      unfold GetEffectivePermissions in Ht. rewrite Ev in Ht. apply list_elem_of_singleton in Ht.
      destruct (includes_valid p (g_type g') Hinc) as [_ Hv]. congruence.
    + left. exists g'. split; [|done]. apply elem_of_where. by rewrite El.
Qed.

(** The new row collides with no row that is left. *)
Lemma grant_collides_not now by_ : ∃ id t',
  insert_grant validPermissionTypes instance role user p by_ now
    (delete_where (lower_of instance role user p) (ds_grants d)) = Some (id, t').
Proof.
  unfold insert_grant. unfold IsValidPermissionType in Hp. rewrite Hp. simpl.
  assert (bool_decide (role = None) && bool_decide (user = None) = false) as ->.
  { apply not_true_is_false. rewrite andb_true_iff, !bool_decide_eq_true. tauto. }
  match goal with |- context [existsb ?f ?l] => assert (existsb f l = false) as -> end; [|eauto].
  apply existsb_false_iff. intros g [Hg Hl]%elem_of_where. apply negb_true_iff in Hl. apply not_true_is_false.
  unfold collides. simpl. rewrite !andb_true_iff, Z.eqb_eq, bool_decide_eq_true. intros [[Hi Ht] Hs].
  apply not_true_iff_false in Hl. apply Hl. unfold lower_of, same_grantee. rewrite <- Hi, <- Ht, Z.eqb_refl. simpl.
  rewrite (proj2 (in_list_true _ _) (includes_refl p Hp)), andb_true_r.
  specialize (Hrows g Hg). unfold one_grantee in *.
  destruct role as [r0|], user as [u0|], (g_role g), (g_user g); simpl in *; try tauto;
    rewrite ?orb_false_r in Hs; try done; try (apply Z.eqb_eq in Hs; subst; by apply bool_decide_eq_true);
    destruct Hone, Hrows; congruence.
Qed.
End granting.

(** granting adds exactly what the permission includes.  Whatever fails,
    the grant changes nobody's rights but the grantee's, and a row still
    serves a user or a role, not both.  Without faults it succeeds, and
    replacing lower grants takes nothing away: every right is one that was
    there before, or a permission included in the granted one, for those the
    grant serves. *)
Theorem GrantPermission_adds_exactly now instance role user p by_ d fs
    (Hp : IsValidPermissionType p = true) (Hone : one_grantee role user) (Hsome : role ≠ None ∨ user ≠ None)
    (Hrows : one_grantee_each (ds_grants d)) :
  let right_in (d' : idb) u id q := by_grant (rbac d') (ds_grants d') u id (GetEffectivePermissions q) in
  (let d' := (run (GrantPermission now instance role user p by_) d fs).2 in
   one_grantee_each (ds_grants d') ∧
   ∀ u id q, ¬ (id = instance ∧ serves (rbac d) role user u) → right_in d' u id q ↔ right_in d u id q) ∧
  (let '(r, d') := run (GrantPermission now instance role user p by_) d [] in
   (∃ id, r = Ok id) ∧
   ∀ u id q, right_in d' u id q ↔
     right_in d u id q ∨ id = instance ∧ serves (rbac d) role user u ∧ q ∈ GetIncludedPermissions p).
Proof.
  intros right_in. split.
  - intros d'. destruct (GrantPermission_effects now instance role user p by_ d fs) as (Hr & _ & d1 & Hd1 & Hd').
    fold d' in Hr, Hd'. destruct Hd1 as (Hr1 & _ & Ht).
    assert (one_grantee_each (ds_grants d1)) as H1.
    { destruct Ht as [->| ->]; [done|]. intros g [Hg _]%elem_of_where. by apply Hrows. }
    assert (∀ u id q, ¬ (id = instance ∧ serves (rbac d) role user u) →
      by_grant (rbac d) (ds_grants d1) u id (GetEffectivePermissions q) ↔ right_in d u id q) as H2.
    { intros u id q Hn. destruct Ht as [->| ->]; [done|]. by apply by_grant_delete. }
    destruct Hd' as [->|[id0 Hins]]; [by unfold right_in; rewrite Hr1|].
    unfold insert_ds_grant in Hins. destruct (insert_grant _ _ _ _ _ _ _ _) as [[i t']|] eqn:Et; [|done].
    simpl in Hins. injection Hins as _ Hd'. apply insert_grant_rows in Et as [_ Et].
    assert (ds_grants d' = t') as Hg' by (by rewrite <- Hd').
    split.
    + rewrite Hg'. intros g. rewrite Et, elem_of_app, list_elem_of_singleton. intros [Hg| ->]; [by apply H1|done].
    + intros u id q Hn. unfold right_in. rewrite Hr, Hg'.
      rewrite (by_grant_insert instance role user p (rbac d) _ t' _ u id _ Et eq_refl eq_refl eq_refl eq_refl).
      rewrite (H2 u id q Hn). unfold right_in. tauto.
  - unfold GrantPermission.
    assert (bool_decide (role = None) && bool_decide (user = None) = false) as ->.
    { apply not_true_is_false. rewrite andb_true_iff, !bool_decide_eq_true. tauto. }
    rewrite Hp. simpl. pose proof (includes_refl p Hp) as Hinc. unfold includes in Hinc.
    destruct (grant_collides_not instance role user p d Hp Hone Hsome Hrows now by_) as (i & t' & Et).
    destruct (GetIncludedPermissions p) as [|q0 l] eqn:El; [by apply not_elem_of_nil in Hinc|]. rewrite <- El.
    unfold run. rewrite run_bind. simpl. unfold insert_ds_grant. simpl.
    fold (lower_of instance role user p). unfold or_err. rewrite run_bind. unfold exec_checked. rewrite run_bind.
    change (λ g, (g_instance g =? instance) && same_grantee role user g && in_list (g_type g) (GetIncludedPermissions p))
      with (lower_of instance role user p). simpl. rewrite Et. simpl. split; [eauto|].
    intros u id q. apply insert_grant_rows in Et as [_ Et]. unfold right_in. simpl.
    rewrite (by_grant_replaced instance role user p d Hp Hone Hsome Hrows (rbac d) t' _ u id q Et
      eq_refl eq_refl eq_refl eq_refl). by rewrite El.
Qed.

(** ** A concrete installation

    User 1 created data source 3 of domain 2; user 5 has role 9 and may read
    and download; role 9 may delete. *)
Definition demo_source : Datasource :=
  mkDatasource 3 "warehouse" "mysql" "db" 3306 "" "dw" "etl" "" "simple" "single" "" "" "" "" "" 2 true false
    "untested" None (Some 1) None 0 0.
Definition demo_rbac : db :=
  mkDb (mkTable [mkRole 9 "analyst" "analyst" "" false None None] 9) (mkTable [] 0)
    (mkTable [mkUserRole 5 9 (Some 2)] 1) (mkTable [] 0) (mkTable [] 0) (mkTable [] 0).
Definition demo_idb : idb :=
  mkIdb demo_rbac (mkTable [demo_source] 3)
    (mkTable [mkGrant 1 3 None (Some 5) "read" None 0; mkGrant 2 3 None (Some 5) "download" None 0;
              mkGrant 3 3 (Some 9) None "delete" None 0] 3)
    (mkTable [] 0) (mkTable [] 0).

Definition may (u id : Z) (q : string) (d : idb) : option bool :=
  match (run (HasDatasourcePermission u id q) d []).1 with Ok b => Some b | Err _ => None end.

Example CheckPermission_agrees_witness :
  may 5 3 "query" demo_idb = Some true ∧
  (run (CheckPermission 5 3 "query") demo_idb []).1 = (run (HasDatasourcePermission 5 3 "query") demo_idb []).1.
Proof.
  split; [vm_compute; reflexivity|].
  apply (CheckPermission_agrees demo_idb demo_source 5 3 "query").
  - reflexivity.
  - intros Ha%admin_count_pos. vm_compute in Ha. discriminate.
  - intros Ha%domain_admin_count_pos. vm_compute in Ha. discriminate.
  - discriminate.
Defined.

(** User 5 is given [update], which replaces two rows. *)
Example GrantPermission_adds_exactly_witness :
  let '(r, d') := run (GrantPermission 7 3 None (Some 5) "update" (Some 1)) demo_idb [] in
  length (rows (ds_grants d')) = 2%nat ∧
  by_grant (rbac d') (ds_grants d') 5 3 (GetEffectivePermissions "update").
Proof.
  assert (one_grantee_each (ds_grants demo_idb)) as Hrows.
  { assert (Forall (λ g, g_role g = None ∨ g_user g = None) (rows (ds_grants demo_idb))) as Hall
      by (apply (bool_decide_unpack _); vm_compute; exact I).
    rewrite Forall_forall in Hall. exact Hall. }
  assert (IsValidPermissionType "update" = true) as Hp by (vm_compute; reflexivity).
  assert (one_grantee None (Some 5)) as Hone by by left.
  assert ((None : option Z) ≠ None ∨ Some 5 ≠ None) as Hsome by by right.
  pose proof (GrantPermission_adds_exactly 7 3 None (Some 5) "update" (Some 1) demo_idb [] Hp Hone Hsome Hrows) as Hadd.
  cbv zeta in Hadd. apply proj2 in Hadd. clear Hrows. revert Hadd.
  generalize (eq_refl (run (GrantPermission 7 3 None (Some 5) "update" (Some 1)) demo_idb [])).
  generalize (run (GrantPermission 7 3 None (Some 5) "update" (Some 1)) demo_idb []) at 1 3 4.
  intros [r d1] E [_ Hadd]. split.
  - apply (f_equal (λ x, length (rows (ds_grants x.2)))) in E. vm_compute in E. by symmetry.
  - apply (proj2 (Hadd 5 3 "update")). right. split; [reflexivity|]. split; [by left|].
    apply in_list_true. vm_compute. reflexivity.
Defined.

(** The rows a grant includes are deleted first and an [INSERT] that fails
    does not bring them back: raising a user's permission can take the one
    it had. *)
Example failed_grant_loses_access :
  let '(r, d') := run (GrantPermission 7 3 None (Some 5) "update" (Some 1)) demo_idb [Fine; Lost] in
  r = Err ErrDB ∧ may 5 3 "download" demo_idb = Some true ∧ may 5 3 "download" d' = Some false.
Proof. vm_compute. done. Qed.

(** A grant to a user and a role at once is accepted; a later grant to that
    user deletes the row, and with it the right of the role (user 6 has the
    role and no grant of its own). *)
Example grant_to_user_takes_from_role :
  let d0 := mkIdb (set_user_roles (λ _, mkTable [mkUserRole 6 9 None] 1) demo_rbac) (mkTable [demo_source] 3)
              (mkTable [] 0) (mkTable [] 0) (mkTable [] 0) in
  let d1 := (run (GrantPermission 7 3 (Some 9) (Some 5) "read" None) d0 []).2 in
  let d2 := (run (GrantPermission 7 3 None (Some 5) "query" None) d1 []).2 in
  may 6 3 "read" d1 = Some true ∧ may 6 3 "read" d2 = Some false.
Proof. vm_compute. done. Qed.

(** Of [update] and [delete] only the first is reported as a user's level,
    though it does not include the second. *)
Example level_hides_delete :
  highestPermission "delete" "update" = "update" ∧ bool_decide ("delete" ∈ GetIncludedPermissions "update") = false.
Proof. vm_compute. done. Qed.
