(* ===== verification/DatasourceService.v ===== *)
(** * The data-source service

    [src/scheduler/internal/datasource/service.go] but for its permission part
    ([Access]): data sources with their encrypted passwords, the history of
    queries, and saved queries.

    The nonce of an encryption is an argument.  [text] is
    [Format(time.RFC3339Nano)]: the history compares the texts of times.
    [removed] lists the calls of [Manager.RemoveDatasource], and [test] is
    [Manager.TestConnection].  The names of users a list shows are left out, and
    an execution time, a floating-point number, is only carried along. *)
From Stdlib Require Import Ascii.
From S2P Require Import Prelude Crypto Sql Permission Access.

Record QueryHistory : Type := mkHistory {
  h_ID : Z; QueryID : string; h_DatasourceID : option Z; DatasourceName : string; h_SQLText : string;
  h_Database : string; ExecutionTime : string; RowCount : Z; h_Status : string; ErrorMessage : string;
  ExecutedBy : option Z; h_DomainID : Z; h_CreatedAt : string;
}.

Record SavedSQL : Type := mkSaved {
  s_ID : Z; s_Name : string; s_DatasourceID : Z; s_Database : string; s_SQLText : string; s_Description : string;
  s_CreatedBy : option Z; s_UpdatedBy : option Z; s_DomainID : Z; IsPublic : bool; s_CreatedAt : Z; s_UpdatedAt : Z;
}.

Record ddb : Type := mkDdb {
  acc : idb;
  histories : table QueryHistory;
  saved : table SavedSQL;
  removed : list Z;
}.

Implicit Types d : ddb.

Definition set_acc (f : idb → idb) d : ddb := mkDdb (f (acc d)) (histories d) (saved d) (removed d).
Definition set_histories (f : table QueryHistory → table QueryHistory) d : ddb :=
  mkDdb (acc d) (f (histories d)) (saved d) (removed d).
Definition set_saved (f : table SavedSQL → table SavedSQL) d : ddb :=
  mkDdb (acc d) (histories d) (f (saved d)) (removed d).
Definition RemoveDatasource (id : Z) : M ddb unit :=
  modify (λ d, mkDdb (acc d) (histories d) (saved d) (removed d ++ [id])).

Definition select {A} (f : ddb → A) : M ddb (result error A) := or_err ErrDB (query f).
Definition write (f : ddb → ddb) : M ddb (result error unit) := or_err ErrDB (exec f).
Definition write_checked {A} (f : ddb → option (A * ddb)) : M ddb (result error A) := or_err ErrDB (exec_checked f).

Definition sources d : list Datasource := rows (datasources (acc d)).

Definition scan_datasource (r : Datasource) : Datasource :=
  mkDatasource (ds_ID r) (ds_Name r) (Type_ r) (Host r) (Port r) (Path r) (Database r) (Username r) (ds_Password r)
    (AuthType r) (ConnectionMode r) (ZkHosts r) (ZkPath r) (RqliteHosts r) (Config r) (ds_Description r) (ds_DomainID r)
    (IsEnabled r) (AllowWriteSQL r) (TestStatus r) (LastTestAt r) (positive (ds_CreatedBy r)) (positive (ds_UpdatedBy r))
    (ds_CreatedAt r) (ds_UpdatedAt r).

(** [UNIQUE(name, domain_id)] *)
Definition name_clash (id : Z) (name : string) (domainID : Z) (l : list Datasource) : bool :=
  existsb (λ r, negb (ds_ID r =? id) && bool_decide (ds_Name r = name) && (ds_DomainID r =? domainID)) l.

(** The row an [INSERT] makes of [ds]; identifiers start at 1. *)
Definition new_row (ds : Datasource) (password : string) (now : Z) (id : Z) : Datasource :=
  mkDatasource id (ds_Name ds) (Type_ ds) (Host ds) (Port ds) (Path ds) (Database ds) (Username ds) password
    (AuthType ds) (ConnectionMode ds) (ZkHosts ds) (ZkPath ds) (RqliteHosts ds) (Config ds) (ds_Description ds)
    (ds_DomainID ds) (IsEnabled ds) (AllowWriteSQL ds)
    (if bool_decide (TestStatus ds = "") then "untested" else TestStatus ds) (LastTestAt ds) (ds_CreatedBy ds) None now now.
Definition insert_source (ds : Datasource) (password : string) (now : Z) d : option (Z * ddb) :=
  if name_clash 0 (ds_Name ds) (ds_DomainID ds) (sources d) then None
  else let d := set_acc (set_datasources (insert_row (new_row ds password now))) d in
       Some (last_id (datasources (acc d)), d).

(** The columns an [UPDATE] writes. *)
Definition updated_row (ds : Datasource) (password : string) (now : Z) (r : Datasource) : Datasource :=
  mkDatasource (ds_ID r) (ds_Name ds) (Type_ ds) (Host ds) (Port ds) (Path ds) (Database ds) (Username ds) password
    (AuthType ds) (ConnectionMode ds) (ZkHosts ds) (ZkPath ds) (RqliteHosts ds) (Config ds) (ds_Description ds)
    (ds_DomainID ds) (IsEnabled ds) (AllowWriteSQL ds) (TestStatus r) (LastTestAt r) (ds_CreatedBy r) (ds_UpdatedBy ds)
    (ds_CreatedAt r) now.
Definition update_source (ds : Datasource) (password : string) (now : Z) d : option (unit * ddb) :=
  if existsb (λ r, ds_ID r =? ds_ID ds) (sources d) && name_clash (ds_ID ds) (ds_Name ds) (ds_DomainID ds) (sources d)
  then None
  else Some (tt, set_acc (set_datasources (update_where (λ r, ds_ID r =? ds_ID ds) (updated_row ds password now))) d).

Section service.
Context {A : Aead}.
Variable crypto : option Crypto.
Variable test : Datasource → bool.
Variable text : Z → string.

Definition encrypted (nonce password : string) : string :=
  match crypto with
  | Some c => if bool_decide (password = "") then password else Encrypt c nonce password
  | None => password
  end.

Definition Create (now : Z) (nonce : string) (ds : Datasource) : M ddb (result error Z) :=
  n ←? select (λ d, count (λ r, bool_decide (ds_Name r = ds_Name ds) && (ds_DomainID r =? ds_DomainID ds)) (sources d));
  if 0 <? n then mret (Err ErrDatasourceNameExists)
  else write_checked (insert_source ds (encrypted nonce (ds_Password ds)) now).

Definition GetByID (id : Z) : M ddb (result error Datasource) :=
  o ←? select (λ d, head (where_ (λ r, ds_ID r =? id) (sources d)));
  mret match o with Some r => Ok (scan_datasource r) | None => Err ErrDatasourceNotFound end.

Definition matches_filter (domainID : Z) (dsType search : string) (r : Datasource) : bool :=
  ((domainID <=? 0) || (ds_DomainID r =? domainID)) &&
  (bool_decide (dsType = "") || bool_decide (Type_ r = dsType)) &&
  (bool_decide (search = "") || like ("%" +:+ search +:+ "%") (ds_Name r)).

Definition Get (domainID : Z) (dsType : string) (page pageSize : Z) (search : string) :
    M ddb (result error (list Datasource * Z)) :=
  total ←? select (λ d, count (matches_filter domainID dsType search) (sources d));
  l ←? select (λ d, scan_datasource <$> page_of page pageSize
         (order_by (λ r r', ds_CreatedAt r' <=? ds_CreatedAt r) (where_ (matches_filter domainID dsType search) (sources d))));
  mret (Ok (l, total)).

Definition Update (now : Z) (nonce : string) (ds : Datasource) : M ddb (result error unit) :=
  existing ←? GetByID (ds_ID ds);
  let password := if bool_decide (ds_Password ds = "") then ds_Password existing
                  else encrypted nonce (ds_Password ds) in
  _ ←? write_checked (update_source ds password now);
  _ ← RemoveDatasource (ds_ID ds);
  mret (Ok tt).

Definition Delete (id : Z) : M ddb (result error unit) :=
  _ ← RemoveDatasource id;
  write (set_acc (set_datasources (delete_where (λ r, ds_ID r =? id)))).

Definition tested_row (testStatus : string) (now : Z) (r : Datasource) : Datasource :=
  mkDatasource (ds_ID r) (ds_Name r) (Type_ r) (Host r) (Port r) (Path r) (Database r) (Username r) (ds_Password r)
    (AuthType r) (ConnectionMode r) (ZkHosts r) (ZkPath r) (RqliteHosts r) (Config r) (ds_Description r) (ds_DomainID r)
    (IsEnabled r) (AllowWriteSQL r) testStatus (Some now) (ds_CreatedBy r) (ds_UpdatedBy r) (ds_CreatedAt r) now.

(** An error of the [UPDATE] is only logged. *)
Definition TestDatasource (now id : Z) : M ddb (result error unit) :=
  ds ←? GetByID id;
  let ok := test ds in
  _ ← write (set_acc (set_datasources (update_where (λ r, ds_ID r =? id)
        (tested_row (if ok then "success" else "failed") now))));
  mret (if ok then Ok tt else Err ErrConnect).

Definition GetDatasourceMaskedPassword (id : Z) : M ddb (result error string) :=
  _ ←? GetByID id; mret (Ok "******").

(** ** The history of queries *)

Definition RecordQueryHistory (now : Z) (h : QueryHistory) : M ddb (result error Z) :=
  let mk id := mkHistory id (QueryID h) (h_DatasourceID h) (DatasourceName h) (h_SQLText h) (h_Database h)
    (ExecutionTime h) (RowCount h) (h_Status h) (ErrorMessage h) (ExecutedBy h) (h_DomainID h) (text now) in
  write_checked (λ d, let d := set_histories (insert_row mk) d in Some (last_id (histories d), d)).

Record history_filter : Type := mkFilter {
  f_domainID : Z; f_datasourceID : Z; f_status : string; f_startTime : string; f_endTime : string;
  f_executedBy : Z; f_search : string;
}.

(** The bounds are compared with the text of the time. *)
Definition in_history (f : history_filter) (h : QueryHistory) : bool :=
  ((f_domainID f <=? 0) || (h_DomainID h =? f_domainID f)) &&
  ((f_datasourceID f <=? 0) || bool_decide (h_DatasourceID h = Some (f_datasourceID f))) &&
  (bool_decide (f_status f = "") || bool_decide (h_Status h = f_status f)) &&
  ((f_executedBy f <=? 0) || bool_decide (ExecutedBy h = Some (f_executedBy f))) &&
  (bool_decide (f_startTime f = "") || String.leb (f_startTime f +:+ " 00:00:00") (h_CreatedAt h)) &&
  (bool_decide (f_endTime f = "") || String.leb (h_CreatedAt h) (f_endTime f +:+ " 23:59:59")) &&
  (bool_decide (f_search f = "") ||
   like ("%" +:+ f_search f +:+ "%") (h_SQLText h) || like ("%" +:+ f_search f +:+ "%") (DatasourceName h)).

Definition GetQueryHistory (f : history_filter) (page pageSize : Z) : M ddb (result error (list QueryHistory * Z)) :=
  total ←? select (λ d, count (in_history f) (rows (histories d)));
  l ←? select (λ d, page_of page pageSize
         (order_by (λ h h', String.leb (h_CreatedAt h') (h_CreatedAt h)) (where_ (in_history f) (rows (histories d)))));
  mret (Ok (l, total)).

Definition DeleteQueryHistory (id : Z) : M ddb (result error unit) :=
  write (set_histories (delete_where (λ h, h_ID h =? id))).
Definition BatchDeleteQueryHistory (ids : list Z) : M ddb (result error unit) :=
  match ids with
  | [] => mret (Ok tt)
  | _ => write (set_histories (delete_where (λ h, in_list (h_ID h) ids)))
  end.

(** ** Saved queries *)

Definition CreateSavedSQL (now : Z) (s : SavedSQL) : M ddb (result error Z) :=
  let mk id := mkSaved id (s_Name s) (s_DatasourceID s) (s_Database s) (s_SQLText s) (s_Description s)
    (s_CreatedBy s) (s_UpdatedBy s) (s_DomainID s) (IsPublic s) now now in
  write_checked (λ d, let d := set_saved (insert_row mk) d in Some (last_id (saved d), d)).

Definition sees_saved (domainID userID : Z) (search : string) (s : SavedSQL) : bool :=
  ((domainID <=? 0) || (s_DomainID s =? domainID)) &&
  ((userID <=? 0) || bool_decide (s_CreatedBy s = Some userID) || IsPublic s) &&
  (bool_decide (search = "") ||
   like ("%" +:+ search +:+ "%") (s_Name s) || like ("%" +:+ search +:+ "%") (s_SQLText s)).

Definition GetSavedSQL (domainID userID page pageSize : Z) (search : string) :
    M ddb (result error (list SavedSQL * Z)) :=
  total ←? select (λ d, count (sees_saved domainID userID search) (rows (saved d)));
  l ←? select (λ d, page_of page pageSize
         (order_by (λ s s', s_CreatedAt s' <=? s_CreatedAt s) (where_ (sees_saved domainID userID search) (rows (saved d)))));
  mret (Ok (l, total)).

Definition UpdateSavedSQL (now id : Z) (s : SavedSQL) : M ddb (result error unit) :=
  n ←? write_checked (λ d,
    Some (count (λ r, s_ID r =? id) (rows (saved d)),
          set_saved (update_where (λ r, s_ID r =? id) (λ r, mkSaved (s_ID r) (s_Name s) (s_DatasourceID s) (s_Database s)
            (s_SQLText s) (s_Description s) (s_CreatedBy r) (s_UpdatedBy s) (s_DomainID r) (IsPublic s)
            (s_CreatedAt r) now)) d));
  mret (if n =? 0 then Err ErrSavedSQLNotFound else Ok tt).

Definition DeleteSavedSQL (id : Z) : M ddb (result error unit) :=
  write (set_saved (delete_where (λ s, s_ID s =? id))).
End service.

(** ** The table of data sources *)

Lemma NoDup_where {B C} (f : B → C) p (l : list B) : NoDup (f <$> l) → NoDup (f <$> where_ p l).
Proof.
  induction l as [|x l IH]; [done|]. unfold where_ in *. rewrite filter_cons. simpl.
  intros [Hx Hl]%NoDup_cons. case_decide; [|by apply IH]. simpl. apply NoDup_cons. split; [|by apply IH].
  intros (y & Hy & Hin)%list_elem_of_fmap. apply Hx. apply list_elem_of_fmap. exists y. split; [done|].
  by apply list_elem_of_filter in Hin as [_ Hin].
Qed.

Lemma name_clash_true id name domainID l :
  name_clash id name domainID l = true ↔
  ∃ r, r ∈ l ∧ ds_ID r ≠ id ∧ ds_Name r = name ∧ ds_DomainID r = domainID.
Proof.
  unfold name_clash. rewrite existsb_elem_of. setoid_rewrite andb_true_iff. setoid_rewrite andb_true_iff.
  setoid_rewrite negb_true_iff. setoid_rewrite Z.eqb_neq. setoid_rewrite Z.eqb_eq.
  setoid_rewrite bool_decide_eq_true. naive_solver.
Qed.

Section table.
Context {A : Aead}.
Variable crypto : option Crypto.
Variable test : Datasource → bool.
Variable text : Z → string.

Inductive ds_op : Type :=
| OpCreate (now : Z) (nonce : string) (ds : Datasource)
| OpUpdate (now : Z) (nonce : string) (ds : Datasource)
| OpDelete (id : Z)
| OpTest (now id : Z)
| OpRecord (now : Z) (h : QueryHistory)
| OpForget (ids : list Z)
| OpSave (now : Z) (s : SavedSQL)
| OpUpdateSaved (now id : Z) (s : SavedSQL)
| OpDeleteSaved (id : Z).

Definition ds_handle (o : ds_op) : M ddb unit :=
  match o with
  | OpCreate now nonce ds => _ ← Create crypto now nonce ds; mret tt
  | OpUpdate now nonce ds => _ ← Update crypto now nonce ds; mret tt
  | OpDelete id => _ ← Delete id; mret tt
  | OpTest now id => _ ← TestDatasource test now id; mret tt
  | OpRecord now h => _ ← RecordQueryHistory text now h; mret tt
  | OpForget ids => _ ← BatchDeleteQueryHistory ids; mret tt
  | OpSave now s => _ ← CreateSavedSQL now s; mret tt
  | OpUpdateSaved now id s => _ ← UpdateSavedSQL now id s; mret tt
  | OpDeleteSaved id => _ ← DeleteSavedSQL id; mret tt
  end.

Inductive ds_step : ddb → ddb → Prop :=
| ds_handles o fs d : ds_step d (run (ds_handle o) d fs).2.
Definition ds_start d : Prop := datasources (acc d) = mkTable [] 0.

(** A password is empty or was encrypted. *)
Definition hidden (password : string) : Prop :=
  match crypto with
  | Some c => password = "" ∨ ∃ nonce p, password = Encrypt c nonce p
  | None => True
  end.

(** Identifiers are positive, given out once and below the counter, a name is
    used once in a domain, and no password is stored as it was given. *)
Record sources_ok d : Prop := {
  so_ids : NoDup (ds_ID <$> sources d);
  so_last : ∀ r, r ∈ sources d → 0 < ds_ID r ≤ last_id (datasources (acc d));
  so_counter : 0 ≤ last_id (datasources (acc d));
  so_names : ∀ r r', r ∈ sources d → r' ∈ sources d → ds_Name r = ds_Name r' → ds_DomainID r = ds_DomainID r' →
             ds_ID r = ds_ID r';
  so_hidden : ∀ r, r ∈ sources d → hidden (ds_Password r);
}.

Lemma encrypted_hidden nonce password : hidden (encrypted crypto nonce password).
Proof.
  unfold hidden, encrypted. destruct crypto as [c|]; [|done]. case_bool_decide; [by left|]. right. eauto.
Qed.

Lemma ok_insert ds password now d id d' :
  sources_ok d → hidden password → insert_source ds password now d = Some (id, d') → sources_ok d'.
Proof.
  intros [Hids Hlast Hc Hnames Hh] Hp. unfold insert_source.
  destruct (name_clash _ _ _ _) eqn:Ec; [done|]. intros [= <- <-].
  assert (∀ r, r ∈ sources d → ds_Name r = ds_Name ds → ds_DomainID r = ds_DomainID ds → False) as Hfree.
  { intros r Hr Hn Hd. apply not_true_iff_false in Ec. apply Ec, name_clash_true. exists r. specialize (Hlast r Hr).
    split_and!; [done|lia|done|done]. }
  split; unfold sources in *; simpl.
  - rewrite fmap_app. apply NoDup_app. split; [done|]. split; [|apply NoDup_singleton].
    intros i (r & -> & Hr)%list_elem_of_fmap Hi. apply list_elem_of_singleton in Hi. specialize (Hlast r Hr).
    simpl in Hi. lia.
  - intros r [Hr| ->%list_elem_of_singleton]%elem_of_app; [specialize (Hlast r Hr); lia|simpl; lia].
  - lia.
  - intros r r' [Hr| ->%list_elem_of_singleton]%elem_of_app [Hr'| ->%list_elem_of_singleton]%elem_of_app Hn Hd; simpl in *.
    + by apply Hnames.
    + by destruct (Hfree r Hr).
    + by destruct (Hfree r' Hr').
    + done.
  - intros r [Hr| ->%list_elem_of_singleton]%elem_of_app; [by apply Hh|done].
Qed.

Lemma ok_update_rows (f : Datasource → Datasource) p d :
  sources_ok d → (∀ r, ds_ID (f r) = ds_ID r) →
  (∀ r, r ∈ sources d → p r = true → hidden (ds_Password (f r)) ∧
     ∀ r', r' ∈ sources d → ds_ID r' ≠ ds_ID r → p r' = false →
       ¬ (ds_Name (f r) = ds_Name r' ∧ ds_DomainID (f r) = ds_DomainID r')) →
  (∀ r r', r ∈ sources d → r' ∈ sources d → p r = true → p r' = true → ds_ID r = ds_ID r' ∨
     ¬ (ds_Name (f r) = ds_Name (f r') ∧ ds_DomainID (f r) = ds_DomainID (f r'))) →
  sources_ok (set_acc (set_datasources (update_where p f)) d).
Proof.
  intros [Hids Hlast Hc Hnames Hh] Hid Hf Hff. unfold sources in *.
  assert (∀ l, ds_ID <$> map (λ x, if p x then f x else x) l = ds_ID <$> l) as Hsame.
  { intros l. induction l as [|x l IH]; [done|]. simpl. f_equal; [by destruct (p x); rewrite ?Hid|exact IH]. }
  split; unfold sources in *; simpl.
  - by rewrite Hsame.
  - intros r (x & -> & Hx)%list_elem_of_fmap. specialize (Hlast x Hx). destruct (p x); rewrite ?Hid; lia.
  - done.
  - intros r r' (x & -> & Hx)%list_elem_of_fmap (x' & -> & Hx')%list_elem_of_fmap Hn Hd.
    destruct (decide (ds_ID x = ds_ID x')) as [He|Hne]; [by destruct (p x), (p x'); rewrite ?Hid|].
    destruct (p x) eqn:Ex, (p x') eqn:Ex'.
    + destruct (Hff x x' Hx Hx' Ex Ex') as [?|[]]; done.
    + destruct (Hf x Hx Ex) as [_ Hno]. by destruct (Hno x' Hx' ltac:(congruence) Ex').
    + destruct (Hf x' Hx' Ex') as [_ Hno]. by destruct (Hno x Hx Hne Ex).
    + by apply Hnames.
  - intros r (x & -> & Hx)%list_elem_of_fmap. destruct (p x) eqn:Ex; [by apply Hf|by apply Hh].
Qed.

Lemma ok_update ds password now d u d' :
  sources_ok d → hidden password → update_source ds password now d = Some (u, d') → sources_ok d'.
Proof.
  intros Hok Hp. unfold update_source. destruct (_ && _) eqn:Ec; [done|]. intros [= <- <-].
  apply ok_update_rows; [done|done| |].
  - intros r Hr Hid%Z.eqb_eq. split; [done|]. intros r' Hr' Hne _ [Hn Hd]. simpl in *.
    apply not_true_iff_false in Ec. apply Ec, andb_true_iff. split.
    + apply existsb_elem_of. exists r. split; [done|]. by apply Z.eqb_eq.
    + apply name_clash_true. exists r'. split_and!; [done|congruence|done|done].
  - intros r r' _ _ H1%Z.eqb_eq H2%Z.eqb_eq. left. congruence.
Qed.

Lemma ok_delete id d : sources_ok d → sources_ok (set_acc (set_datasources (delete_where (λ r, ds_ID r =? id))) d).
Proof.
  intros [Hids Hlast Hc Hnames Hh]. unfold sources in *.
  assert (∀ r, r ∈ rows (delete_where (λ r, ds_ID r =? id) (datasources (acc d))) → r ∈ rows (datasources (acc d)))
    as Hsub by (by intros r [Hr _]%elem_of_where).
  split; unfold sources in *; simpl in *; auto.
  by apply NoDup_where.
Qed.

Lemma ok_tested s now id d : sources_ok d →
  sources_ok (set_acc (set_datasources (update_where (λ r, ds_ID r =? id) (tested_row s now))) d).
Proof.
  intros Hok. apply ok_update_rows; [done|done| |].
  - intros r Hr _. split; [exact (so_hidden _ Hok r Hr)|]. intros r' Hr' Hne _ [Hn Hd]. simpl in *.
    apply Hne. symmetry. by apply (so_names _ Hok).
  - intros r r' _ _ H1%Z.eqb_eq H2%Z.eqb_eq. left. congruence.
Qed.

Lemma preserves_write_ds I f : (∀ d, I d → I (f d)) → preserves I (write f).
Proof. intros Hf. unfold write, or_err, exec. repeat preserves_step. apply preserves_call. intros d. apply Hf. Qed.
Lemma preserves_write_checked_ds {B} I (f : ddb → option (B * ddb)) :
  (∀ d b d', I d → f d = Some (b, d') → I d') → preserves I (write_checked f).
Proof.
  intros Hf. unfold write_checked, or_err, exec_checked. repeat preserves_step. apply preserves_call. intros d Hd.
  destruct (f d) as [[b d']|] eqn:E; [by eapply Hf|done].
Qed.
Lemma preserves_select_ds {B} I (f : ddb → B) : preserves I (select f).
Proof. unfold select, or_err, query. repeat preserves_step. by apply preserves_call. Qed.

Ltac kept := repeat first [ preserves_step | match goal with
  | |- preserves _ (bind_ok _ _) => unfold bind_ok
  | |- preserves _ (select _) => apply preserves_select_ds
  end ].

(** What a handler that leaves the table of data sources alone keeps. *)
Lemma ok_frame d d' : datasources (acc d') = datasources (acc d) → sources_ok d → sources_ok d'.
Proof. intros Heq [Hids Hlast Hc Hnames Hh]. split; unfold sources in *; by rewrite Heq. Qed.

Lemma preserves_RemoveDatasource id : preserves sources_ok (RemoveDatasource id).
Proof. apply preserves_modify. intros d. by apply ok_frame. Qed.

Lemma preserves_GetByID {P : ddb → Prop} id : preserves P (GetByID id).
Proof. unfold GetByID. kept. Qed.

(** What [GetByID] finds was stored. *)
Lemma triple_GetByID id :
  triple sources_ok (GetByID id) (λ r d, sources_ok d ∧ match r with Ok ds => hidden (ds_Password ds) | Err _ => True end).
Proof.
  intros d fs Hok. unfold GetByID, bind_ok, select, or_err, query. rewrite !run_bind. unfold call.
  assert (∀ r, head (where_ (λ r, ds_ID r =? id) (sources d)) = Some r → hidden (ds_Password r)) as Hh.
  { intros r Hr. apply (so_hidden _ Hok). assert (r ∈ where_ (λ r, ds_ID r =? id) (sources d)) as Hin.
    { destruct (where_ _ _); [done|]. simplify_eq/=. by left. }
    by apply elem_of_where in Hin as [Hin _]. }
  destruct fs as [|[] fs]; simpl; destruct (head _) as [r|] eqn:E; simpl; auto.
Qed.

Lemma preserves_ds_handle o : preserves sources_ok (ds_handle o).
Proof.
  destruct o as [now nonce ds|now nonce ds|id|now id|now h|ids|now s|now id s|id]; simpl;
    (apply preserves_bind; [|intros ?; apply preserves_ret]).
  - unfold Create. kept. apply preserves_write_checked_ds. intros d i d' Hd. apply ok_insert; [done|].
    apply encrypted_hidden.
  - unfold Update, bind_ok. intros d fs Hok. rewrite run_bind. pose proof (triple_GetByID (ds_ID ds) d fs Hok) as [Hok' Hh].
    destruct (GetByID (ds_ID ds) d fs) as [r [d1 fs1]]. destruct r as [existing|e]; [|done]. simpl in *.
    eapply (preserves_bind sources_ok); [| |exact Hok'].
    + apply preserves_write_checked_ds. intros d2 u d' Hd. apply ok_update; [done|].
      case_bool_decide; [done|apply encrypted_hidden].
    + intros []; [|apply preserves_ret]. kept. apply preserves_RemoveDatasource.
  - unfold Delete. kept; [apply preserves_RemoveDatasource|]. apply preserves_write_ds. intros d. apply ok_delete.
  - unfold TestDatasource. kept; [apply preserves_GetByID|]. apply preserves_write_ds. intros d. apply ok_tested.
  - unfold RecordQueryHistory. apply preserves_write_checked_ds. intros d i d' Hd [= <- <-]. by apply (ok_frame d).
  - unfold BatchDeleteQueryHistory. kept. apply preserves_write_ds. intros d. by apply ok_frame.
  - unfold CreateSavedSQL. apply preserves_write_checked_ds. intros d i d' Hd [= <- <-]. by apply (ok_frame d).
  - unfold UpdateSavedSQL. kept. apply preserves_write_checked_ds. intros d i d' Hd [= <- <-]. by apply (ok_frame d).
  - unfold DeleteSavedSQL. apply preserves_write_ds. intros d. by apply ok_frame.
Qed.

Lemma ok_reachable d : reachable ds_step ds_start d → sources_ok d.
Proof.
  intros Hd. revert d Hd. apply reachable_invariant.
  - intros d Hd. unfold ds_start in Hd. split; unfold sources; rewrite Hd; simpl; try done.
    + apply NoDup_nil_2.
    + by intros r ?%not_elem_of_nil.
    + by intros r r' ?%not_elem_of_nil.
    + by intros r ?%not_elem_of_nil.
  - intros d d' Hok Hstep. destruct Hstep as [o fs d]. by apply (run_preserves sources_ok); [apply preserves_ds_handle|].
Qed.

(** whatever is created, updated, tested and deleted, and whatever fails
    on the way, data sources keep their own identifiers, a name stands once in
    a domain, and every stored password is empty or encrypted, also after an
    update that leaves the password field blank. *)
Theorem sources_always_ok d (Hd : reachable ds_step ds_start d) : sources_ok d.
Proof. by apply ok_reachable. Qed.
End table.

(** ** What the operations answer *)

Section results.
Context {A : Aead} {HA : AeadLaws A}.
Variable crypto : option Crypto.

Lemma run_select_ds {B} (f : ddb → B) d : select f d [] = (Ok (f d), (d, [])).
Proof. done. Qed.
Lemma run_write_checked_ds {B} (f : ddb → option (B * ddb)) d :
  write_checked f d [] = match f d with Some (b, d') => (Ok b, (d', [])) | None => (Err ErrDB, (d, [])) end.
Proof.
  unfold write_checked, or_err, exec_checked. rewrite !run_bind. unfold call.
  by destruct (f d) as [[b d']|].
Qed.

Definition found (id : Z) d : option Datasource := head (where_ (λ r, ds_ID r =? id) (sources d)).

Lemma run_GetByID id d :
  run (GetByID id) d [] =
  (match found id d with Some r => Ok (scan_datasource r) | None => Err ErrDatasourceNotFound end, d).
Proof. unfold run, GetByID, bind_ok. by rewrite run_bind. Qed.

(** A row is found by its identifier. *)
Lemma found_Some d r : sources_ok crypto d → r ∈ sources d → found (ds_ID r) d = Some r.
Proof.
  intros [Hids _ _ _ _] Hr. unfold found. revert Hids Hr. generalize (sources d). intros l.
  induction l as [|x l IH]; [by intros _ ?%not_elem_of_nil|]. unfold where_ in *. rewrite filter_cons. simpl.
  intros [Hx Hl]%NoDup_cons [->|Hr]%elem_of_cons; [by rewrite decide_True by apply Z.eqb_refl|].
  rewrite decide_False; [by apply IH|]. intros Heq%Z.eqb_eq. apply Hx. rewrite Heq.
  apply list_elem_of_fmap. by exists r.
Qed.

Lemma found_None d id : (∀ r, r ∈ sources d → ds_ID r ≠ id) → found id d = None.
Proof.
  intros Hn. unfold found. rewrite where_none; [done|]. intros r Hr. apply Z.eqb_neq. by apply Hn.
Qed.

Lemma found_inv d id r : found id d = Some r → r ∈ sources d ∧ ds_ID r = id.
Proof.
  unfold found. intros Hr. assert (r ∈ where_ (λ r, ds_ID r =? id) (sources d)) as Hin.
  { destruct (where_ _ _); [done|]. simplify_eq/=. by left. }
  by apply elem_of_where in Hin as [Hin Hid%Z.eqb_eq].
Qed.

Definition taken (ds : Datasource) d : bool :=
  existsb (λ r, bool_decide (ds_Name r = ds_Name ds) && (ds_DomainID r =? ds_DomainID ds)) (sources d).

Lemma run_Create now nonce ds d :
  run (Create crypto now nonce ds) d [] =
  if taken ds d then (Err ErrDatasourceNameExists, d)
  else match insert_source ds (encrypted crypto nonce (ds_Password ds)) now d with
       | Some (id, d') => (Ok id, d')
       | None => (Err ErrDB, d)
       end.
Proof.
  unfold Create, run, bind_ok. rewrite run_bind, run_select_ds, count_pos. fold (taken ds d).
  destruct (taken ds d); [done|]. rewrite run_write_checked_ds. by destruct (insert_source _ _ _ _) as [[id d']|].
Qed.

(** a data source that is created is read back as it was given, under a
    new identifier, no other one changes, and its stored password is decrypted
    to the one given, also after keys have been rotated.  It is refused, and
    nothing changes, exactly when its name stands in its domain already. *)
Theorem Create_roundtrip now nonce ds d (Hok : sources_ok crypto d) :
  let '(r, d') := run (Create crypto now nonce ds) d [] in
  match r with
  | Ok id =>
      (∀ r, r ∈ sources d → ds_ID r ≠ id) ∧
      (∃ stored, run (GetByID id) d' [] = (Ok (scan_datasource (new_row ds stored now id)), d') ∧
         ∀ c ks, crypto = Some c → String.length nonce = nonceSize → opens_alone c ks nonce (ds_Password ds) →
           ds_Password ds ≠ "" → Decrypt (foldl rotate c ks) stored = Ok (ds_Password ds)) ∧
      ∀ id', id' ≠ id → (run (GetByID id') d' []).1 = (run (GetByID id') d []).1
  | Err e => e = ErrDatasourceNameExists ∧ d' = d ∧
             ∃ r, r ∈ sources d ∧ ds_Name r = ds_Name ds ∧ ds_DomainID r = ds_DomainID ds
  end.
Proof.
  rewrite run_Create. destruct (taken ds d) eqn:Ee; unfold taken in Ee.
  { apply existsb_elem_of in Ee as (r & Hr & [Hn%bool_decide_eq_true Hd%Z.eqb_eq]%andb_true_iff). simpl.
    split; [done|]. split; [done|]. by exists r. }
  rewrite existsb_false_iff in Ee. unfold insert_source.
  destruct (name_clash 0 _ _ _) eqn:Ec.
  { apply name_clash_true in Ec as (r & Hr & _ & Hn & Hd). specialize (Ee r Hr).
    apply not_true_iff_false in Ee. destruct Ee. by rewrite bool_decide_true, (proj2 (Z.eqb_eq _ _) Hd). }
  cbv beta iota zeta. set (stored := encrypted crypto nonce (ds_Password ds)).
  set (d' := set_acc (set_datasources (insert_row (new_row ds stored now))) d).
  set (id := last_id (datasources (acc d)) + 1).
  change (last_id (datasources (acc d'))) with id.
  assert (∀ r, r ∈ sources d → ds_ID r ≠ id) as Hfresh.
  { intros r Hr. pose proof (so_last _ _ Hok r Hr). unfold id. lia. }
  assert (sources d' = sources d ++ [new_row ds stored now id]) as Hsrc by done.
  split; [done|]. split.
  - exists stored. split.
    + assert (found id d' = Some (new_row ds stored now id)) as Hf; [|by rewrite run_GetByID, Hf].
      unfold found. rewrite Hsrc. unfold where_. rewrite filter_app.
      fold (where_ (λ r, ds_ID r =? id) (sources d)). rewrite where_none by (intros r Hr; by apply Z.eqb_neq, Hfresh).
      rewrite filter_cons, decide_True; [done|]. apply Z.eqb_refl.
    + intros c ks Hc Hn Hk Hp. unfold stored, encrypted. rewrite Hc, bool_decide_false by done.
      by apply Decrypt_Encrypt.
  - intros id' Hne. rewrite !run_GetByID. simpl. assert (found id' d' = found id' d) as ->; [|done].
    unfold found. rewrite Hsrc. unfold where_. rewrite filter_app. f_equal.
    rewrite filter_cons, decide_False; [by rewrite filter_nil, app_nil_r|]. simpl. intros He%Z.eqb_eq. congruence.
Qed.
End results.

(** ** Updates *)

Section updates.
Context {A : Aead} {HA : AeadLaws A}.
Variable crypto : option Crypto.

(** without faults an update changes one data source and makes the
    manager drop its driver; a blank password keeps the stored one.  It is
    refused when there is no such data source or the new name stands in the
    new domain already, and then neither a row nor a driver is touched. *)
Theorem Update_result now nonce ds d (Hok : sources_ok crypto d) :
  let '(r, d') := run (Update crypto now nonce ds) d [] in
  match r with
  | Ok _ =>
      removed d' = removed d ++ [ds_ID ds] ∧
      ∃ old stored, old ∈ sources d ∧ ds_ID old = ds_ID ds ∧
        found (ds_ID ds) d' = Some (updated_row ds stored now old) ∧
        (ds_Password ds = "" → stored = ds_Password old) ∧
        (ds_Password ds ≠ "" → stored = encrypted crypto nonce (ds_Password ds)) ∧
        ∀ id, id ≠ ds_ID ds → found id d' = found id d
  | Err e => d' = d ∧
      (e = ErrDatasourceNotFound ∧ (∀ r, r ∈ sources d → ds_ID r ≠ ds_ID ds) ∨
       e = ErrDB ∧ ∃ r, r ∈ sources d ∧ ds_ID r ≠ ds_ID ds ∧ ds_Name r = ds_Name ds ∧ ds_DomainID r = ds_DomainID ds)
  end.
Proof.
  unfold Update, run, bind_ok. rewrite run_bind.
  assert (GetByID (ds_ID ds) d [] =
    (match found (ds_ID ds) d with Some r => Ok (scan_datasource r) | None => Err ErrDatasourceNotFound end, (d, [])))
    as -> by done.
  destruct (found (ds_ID ds) d) as [old|] eqn:Ef.
  2:{ simpl. split; [done|]. left. split; [done|]. intros r Hr Hid. rewrite <- Hid, (found_Some crypto) in Ef by done. done. }
  destruct (found_inv _ _ _ Ef) as [Hold Hid]. cbv beta iota zeta. simpl (ds_Password (scan_datasource old)).
  set (stored := if bool_decide (ds_Password ds = "") then _ else _).
  rewrite run_bind, run_write_checked_ds. unfold update_source. destruct (_ && name_clash _ _ _ _) eqn:Ec.
  { apply andb_true_iff in Ec as [_ (r & Hr & Hne & Hn & Hd)%name_clash_true]. simpl. split; [done|]. right.
    split; [done|]. by exists r. }
  simpl. split; [done|]. exists old, stored. split; [done|]. split; [done|].
  set (p := λ r, ds_ID r =? ds_ID ds). set (f := updated_row ds stored now).
  assert (∀ id l, where_ (λ r, ds_ID r =? id) (map (λ x, if p x then f x else x) l) =
                  map (λ x, if p x then f x else x) (where_ (λ r, ds_ID r =? id) l)) as Hmap.
  { intros id l. unfold where_. induction l as [|x l IH]; [done|]. cbn [map]. rewrite !filter_cons, IH.
    assert (ds_ID (if p x then f x else x) = ds_ID x) as -> by (by destruct (p x)). by case_decide. }
  assert (∀ id, found id (set_acc (set_datasources (update_where p f)) d) =
                (λ x, if p x then f x else x) <$> found id d) as Hfound.
  { intros id. unfold found, sources. simpl. rewrite Hmap. by destruct (where_ _ _). }
  change (mkDdb _ _ _ (removed d ++ _)) with
    (mkDdb (acc (set_acc (set_datasources (update_where p f)) d)) (histories d) (saved d) (removed d ++ [ds_ID ds])).
  assert (∀ id, found id (mkDdb (acc (set_acc (set_datasources (update_where p f)) d)) (histories d) (saved d)
    (removed d ++ [ds_ID ds])) = found id (set_acc (set_datasources (update_where p f)) d)) as Hsame by done.
  split; [|split; [|split]].
  - rewrite Hsame, Hfound, Ef. simpl. unfold p. by rewrite (proj2 (Z.eqb_eq _ _) Hid).
  - intros Hp. unfold stored. by rewrite bool_decide_true.
  - intros Hp. unfold stored. by rewrite bool_decide_false.
  - intros id Hne. rewrite Hsame, Hfound. destruct (found id d) as [r|] eqn:Er; [|done]. simpl.
    apply found_inv in Er as [_ Er]. unfold p. destruct (Z.eqb_spec (ds_ID r) (ds_ID ds)); [congruence|done].
Qed.
End updates.

(** ** The history *)

Lemma leb_day_T day rest rest' :
  String.leb (day +:+ String "T"%char rest) (day +:+ String " "%char rest') = false.
Proof.
  unfold String.leb. assert (String.compare (day +:+ String "T"%char rest) (day +:+ String " "%char rest') = Gt) as ->; [|done].
  induction day as [|a day IH]; [done|]. simpl. unfold Ascii.compare. by rewrite N.compare_refl.
Qed.

(** The bound of the end day is written with a space where the stored times
    have a [T], which comes after it: the queries of the end day itself are
    never listed. *)
Theorem end_day_not_listed f h rest :
  f_endTime f ≠ "" → h_CreatedAt h = f_endTime f +:+ String "T"%char rest → in_history f h = false.
Proof.
  intros Hne Hat. unfold in_history. rewrite Hat.
  rewrite (bool_decide_false (f_endTime f = "")) by done. rewrite leb_day_T. simpl.
  by rewrite !andb_false_r.
Qed.

(** ** Concrete runs *)

Definition empty_ddb : ddb :=
  mkDdb (mkIdb demo_rbac (mkTable [] 0) (mkTable [] 0) (mkTable [] 0) (mkTable [] 0)) (mkTable [] 0) (mkTable [] 0) [].
Definition demo_crypto : Crypto := mkCrypto (demo_key "a") [].
Definition with_password (name password : string) : Datasource :=
  mkDatasource 1 name "mysql" "db" 3306 "" "dw" "etl" password "simple" "single" "" "" "" "" "" 2 true false
    "" None (Some 1) None 0 0.
Definition one_source : ddb := (run (ds_handle (Some demo_crypto) (λ _, true) (λ _, "")
  (OpCreate 7 "nonce0123456" (with_password "warehouse" "secret"))) empty_ddb [Fine; Fine]).2.

Lemma one_source_reachable :
  reachable (ds_step (Some demo_crypto) (λ _, true) (λ _, "")) ds_start one_source.
Proof. exists empty_ddb. split; [done|]. apply rtc_once. constructor. Qed.

Example sources_always_ok_witness :
  length (sources one_source) = 1%nat ∧ sources_ok (Some demo_crypto) one_source.
Proof. split; [vm_compute; reflexivity|]. exact (sources_always_ok _ _ _ _ one_source_reachable). Defined.

Lemma one_source_ok : sources_ok (Some demo_crypto) one_source.
Proof. exact (ok_reachable _ _ _ _ one_source_reachable). Qed.
Lemma empty_ok : sources_ok (Some demo_crypto) empty_ddb.
Proof. apply (ok_reachable (Some demo_crypto) (λ _, true) (λ _, "")). exists empty_ddb. by split. Qed.

Example Create_roundtrip_witness :
  let '(r, d') := run (Create (Some demo_crypto) 7 "nonce0123456" (with_password "warehouse" "secret")) empty_ddb [] in
  r = Ok 1 ∧ match (run (GetByID 1) d' []).1 with
             | Ok ds => Decrypt (foldl rotate demo_crypto [demo_key "b"]) (ds_Password ds) = Ok "secret"
             | Err _ => False
             end.
Proof.
  pose proof (Create_roundtrip (Some demo_crypto) 7 "nonce0123456" (with_password "warehouse" "secret") empty_ddb empty_ok)
    as Hr.
  assert ((run (Create (Some demo_crypto) 7 "nonce0123456" (with_password "warehouse" "secret")) empty_ddb []).1 = Ok 1)
    as H1 by (vm_compute; reflexivity).
  destruct (run (Create _ _ _ _) empty_ddb []) as [r d']. simpl in H1. subst r. split; [done|].
  destruct Hr as (_ & (stored & Hg & Hd) & _). rewrite Hg. simpl.
  apply (Hd demo_crypto [demo_key "b"]); [reflexivity|reflexivity| |discriminate].
  intros k Hk Hne. apply list_elem_of_In in Hk. destruct Hk as [<-|[<-|[]]]; [reflexivity|by destruct Hne].
Defined.

Example Update_result_witness :
  let '(r, d') := run (Update (Some demo_crypto) 9 "" (with_password "lake" "")) one_source [] in
  r = Ok tt ∧ removed d' = [1].
Proof.
  pose proof (Update_result (Some demo_crypto) 9 "" (with_password "lake" "") one_source one_source_ok) as Hr.
  assert ((run (Update (Some demo_crypto) 9 "" (with_password "lake" "")) one_source []).1 = Ok tt) as H1
    by (vm_compute; reflexivity).
  destruct (run (Update _ _ _ _) one_source []) as [r d']. simpl in H1. subst r. split; [done|].
  destruct Hr as [Hr _]. exact Hr.
Defined.

(** An update whose reply is lost has changed the row, but the manager keeps
    the driver that was connected with the old one. *)
Example update_lost_keeps_driver :
  let '(r, d') := run (Update (Some demo_crypto) 9 "" (with_password "lake" "")) one_source [Fine; Ghost] in
  r = Err ErrDB ∧ ds_Name <$> sources d' = ["lake"] ∧ removed d' = [].
Proof. vm_compute. done. Qed.

Example end_day_is_missed :
  let f := mkFilter 0 0 "" "2024-05-01" "2024-05-01" 0 "" in
  let h := mkHistory 1 "q" None "ds" "select 1" "" "0.1" 1 "success" "" None 2 "2024-05-01T10:00:00.5+08:00" in
  in_history f h = false.
Proof. by apply (end_day_not_listed _ _ "10:00:00.5+08:00"). Qed.

(** A saved query another user keeps private in another domain, which no list
    shows to user 5, is replaced and deleted by its number. *)
Example saved_query_of_others_changed :
  let s := mkSaved 1 "mine" 3 "" "select 1" "" (Some 1) (Some 1) 8 false 0 0 in
  let d := set_saved (λ _, mkTable [s] 1) empty_ddb in
  let d' := (run (UpdateSavedSQL 9 1 (mkSaved 0 "taken" 3 "" "select 2" "" None (Some 5) 0 true 0 0)) d []).2 in
  sees_saved 2 5 "" s = false ∧ s_SQLText <$> rows (saved d') = ["select 2"] ∧
  rows (saved (run (DeleteSavedSQL 1) d []).2) = [].
Proof. vm_compute. done. Qed.
