(* ===== verification/Manager.v ===== *)
(** * The data-source manager

    [src/scheduler/internal/datasource/manager.go]: one driver per data source,
    behind a circuit breaker.  Calls of [GetDriver] overlap; the code takes its
    locks one at a time, so a call is a sequence of the critical sections of
    [advance], between which other calls, removals, health checks, changes of
    the configuration and [Close] may run.  (Looking the circuit breaker up and
    asking it is one section here, and so is the last one of a call.)

    Drivers and circuit breakers are objects: numbers in the lists [drivers]
    and [breakers].  What a driver answers is decided outside: [input] holds the
    answers a section may need.  [ints] is [sysConfig.GetInt], [supported]
    whether a driver is registered for a type. *)
From stdpp Require Import gmap.
From S2P Require Import Prelude CircuitBreaker Crypto Sql Permission Access DatasourceService.

Record PoolConfig : Type := mkPoolConfig { MaxOpen : Z; MinIdle : Z; MaxLifetime : Z; AcquireTimeout : Z }.
Definition DefaultPoolConfig : PoolConfig := mkPoolConfig 5 2 (30 * Minute) (30 * Second).

(** What a driver is connected to ([driver.DatasourceConfig]): the columns of
    the data source, its password in plain text. *)
Record driver : Type := mkDriver {
  v_source : Z; v_config : Datasource; v_open : bool;
  v_checker : bool;      (** implements [UnhealthyChecker] *)
  v_unhealthy : bool; v_pool : PoolConfig;
}.

Record Manager : Type := mkManager {
  drivers : list driver;
  breakers : list CircuitBreaker;
  pools : gmap Z nat;
  circuitBreakers : gmap Z nat;
  lastCheck : gmap Z Z;
  connecting : gset Z;
  closed : bool;
}.

Definition NewManager : Manager := mkManager [] [] ∅ ∅ ∅ ∅ false.

Implicit Types m : Manager.

Definition set_drivers (f : list driver → list driver) m : Manager :=
  mkManager (f (drivers m)) (breakers m) (pools m) (circuitBreakers m) (lastCheck m) (connecting m) (closed m).
Definition set_breakers (f : list CircuitBreaker → list CircuitBreaker) m : Manager :=
  mkManager (drivers m) (f (breakers m)) (pools m) (circuitBreakers m) (lastCheck m) (connecting m) (closed m).
Definition set_pools (f : gmap Z nat → gmap Z nat) m : Manager :=
  mkManager (drivers m) (breakers m) (f (pools m)) (circuitBreakers m) (lastCheck m) (connecting m) (closed m).
Definition set_cbs (f : gmap Z nat → gmap Z nat) m : Manager :=
  mkManager (drivers m) (breakers m) (pools m) (f (circuitBreakers m)) (lastCheck m) (connecting m) (closed m).
Definition set_lastCheck (f : gmap Z Z → gmap Z Z) m : Manager :=
  mkManager (drivers m) (breakers m) (pools m) (circuitBreakers m) (f (lastCheck m)) (connecting m) (closed m).
Definition set_connecting (f : gset Z → gset Z) m : Manager :=
  mkManager (drivers m) (breakers m) (pools m) (circuitBreakers m) (lastCheck m) (f (connecting m)) (closed m).

Definition on_breaker (i : nat) (f : CircuitBreaker → CircuitBreaker) m : Manager :=
  set_breakers (alter f i) m.
Definition close_driver (i : nat) m : Manager :=
  set_drivers (alter (λ v, mkDriver (v_source v) (v_config v) false (v_checker v) (v_unhealthy v) (v_pool v)) i) m.
Definition mark_unhealthy (i : nat) m : Manager :=
  set_drivers (alter (λ v, mkDriver (v_source v) (v_config v) (v_open v) (v_checker v) (v_checker v || v_unhealthy v)
    (v_pool v)) i) m.
Definition is_unhealthy (i : nat) m : bool :=
  match drivers m !! i with Some v => v_checker v && v_unhealthy v | None => false end.

(** The breaker of a data source, made when there is none. *)
Definition getCircuitBreaker (now dsID : Z) m : nat * Manager :=
  match circuitBreakers m !! dsID with
  | Some i => (i, m)
  | None => let i := length (breakers m) in
            (i, set_cbs (insert dsID i) (set_breakers (λ l, l ++ [NewCircuitBreaker now dsID]) m))
  end.
Definition GetCircuitBreakerState (dsID : Z) m : CircuitState * Z :=
  match circuitBreakers m !! dsID ≫= λ i, breakers m !! i with
  | Some cb => (GetState cb, GetFailureCount cb)
  | None => (CircuitStateClosed, 0)
  end.

Inductive error : Type :=
| ErrDatasourceDisabled
| ErrDatasourceCircuitOpen
| ErrConnecting
| ErrDatasourceTypeNotSupport
| ErrDatasourceConnFailed.

Inductive ping : Type := PingOk | PingBusy | PingFailed.

(** What a driver answers: to a ping, to a connect, and whether a driver of
    the type can be marked. *)
Record input : Type := mkInput { in_ping : ping; in_connect : bool; in_checker : bool }.

(** Where a call of [GetDriver] is. *)
Inductive phase : Type :=
| Start
| Reading
| Checking (d : nat)
| Pinging (d : nat)
| Dropping
| Forgetting
| Claiming
| Connecting
| Storing (d : nat)
| Stamping (d : nat)
| Releasing (r : result error nat)
| Returned (r : result error nat).

Record call : Type := mkCall { c_ds : Datasource; c_cb : nat; c_phase : phase }.

Section manager.
Context {A : Aead}.
Variable crypto : option Crypto.
Variable ints : string → Z.
Variable supported : string → bool.

(** A password that cannot be decrypted is used as it is. *)
Definition plain_password (ds : Datasource) : string :=
  match crypto with
  | Some c =>
      if negb (bool_decide (ds_Password ds = "")) && (0 <? ds_ID ds)
      then match Decrypt c (ds_Password ds) with Ok p => p | Err _ => ds_Password ds end
      else ds_Password ds
  | None => ds_Password ds
  end.
Definition driver_config (ds : Datasource) : Datasource :=
  mkDatasource (ds_ID ds) (ds_Name ds) (Type_ ds) (Host ds) (Port ds) (Path ds) (Database ds) (Username ds)
    (plain_password ds) (AuthType ds) (ConnectionMode ds) (ZkHosts ds) (ZkPath ds) (RqliteHosts ds) (Config ds)
    (ds_Description ds) (ds_DomainID ds) (IsEnabled ds) (AllowWriteSQL ds) (TestStatus ds) (LastTestAt ds)
    (ds_CreatedBy ds) (ds_UpdatedBy ds) (ds_CreatedAt ds) (ds_UpdatedAt ds).

Definition getPoolConfigFromSystemSettings : PoolConfig :=
  let pick key dflt := let n := ints key in if 0 <? n then n else dflt in
  let lifetime := ints "datasource.connection_max_lifetime" in
  mkPoolConfig (pick "datasource.connection_max_open" (MaxOpen DefaultPoolConfig))
    (pick "datasource.connection_max_idle" (MinIdle DefaultPoolConfig))
    (if 0 <? lifetime then int64 (lifetime * Second) else MaxLifetime DefaultPoolConfig)
    (AcquireTimeout DefaultPoolConfig).

(** [Connect] of a new driver: it becomes open. *)
Definition connect (inp : input) (ds : Datasource) m : result error nat * Manager :=
  if negb (supported (Type_ ds)) then (Err ErrDatasourceTypeNotSupport, m)
  else if negb (in_connect inp) then (Err ErrDatasourceConnFailed, m)
  else (Ok (length (drivers m)),
        set_drivers (λ l, l ++ [mkDriver (ds_ID ds) (driver_config ds) true (in_checker inp) false
                                  getPoolConfigFromSystemSettings]) m).

Definition checkInterval : Z := 30 * Second.

(** The next critical section of a call. *)
Definition advance (inp : input) (now : Z) (k : call) m : call * Manager :=
  let ds := c_ds k in
  let id := ds_ID ds in
  let goto p m := (mkCall ds (c_cb k) p, m) in
  match c_phase k with
  | Start =>
      if negb (IsEnabled ds) then goto (Returned (Err ErrDatasourceDisabled)) m
      else
        let '(i, m) := getCircuitBreaker now id m in
        match breakers m !! i with
        | None => goto (Returned (Err ErrDatasourceCircuitOpen)) m
        | Some cb =>
            let '(ok, cb) := AllowRequest now cb in
            let m := set_breakers (insert i cb) m in
            (mkCall ds i (if (ok : bool) then Reading else Returned (Err ErrDatasourceCircuitOpen)), m)
        end
  | Reading => match pools m !! id with Some d => goto (Checking d) m | None => goto Claiming m end
  | Checking d =>
      if is_unhealthy d m then goto Dropping (close_driver d m)
      else match lastCheck m !! id with
           | Some last =>
               if now - last <? checkInterval then goto (Returned (Ok d)) (on_breaker (c_cb k) (RecordSuccess now) m)
               else goto (Pinging d) m
           | None => goto (Pinging d) m
           end
  | Pinging d =>
      match in_ping inp with
      | PingOk => goto (Returned (Ok d)) (on_breaker (c_cb k) (RecordSuccess now) (set_lastCheck (insert id now) m))
      | PingBusy => goto (Returned (Ok d)) (set_lastCheck (insert id now) m)
      | PingFailed => goto Dropping (close_driver d m)
      end
  | Dropping => goto Forgetting (set_pools (delete id) m)
  | Forgetting => goto Claiming (set_lastCheck (delete id) m)
  | Claiming =>
      if bool_decide (id ∈ connecting m) then goto (Returned (Err ErrConnecting)) m
      else goto Connecting (set_connecting (union {[id]}) m)
  | Connecting =>
      let '(r, m) := connect inp ds m in
      match r with Ok d => goto (Storing d) m | Err e => goto (Releasing (Err e)) m end
  | Storing d => goto (Stamping d) (set_pools (insert id d) m)
  | Stamping d => goto (Releasing (Ok d)) (set_lastCheck (insert id now) m)
  | Releasing r =>
      goto (Returned r)
        (on_breaker (c_cb k) (match r with Ok _ => RecordSuccess now | Err _ => RecordFailure now end)
           (set_connecting (λ s, s ∖ {[id]}) m))
  | Returned _ => (k, m)
  end.

Definition RemoveDatasource (dsID : Z) m : Manager :=
  let m := match pools m !! dsID with
           | Some d => set_pools (delete dsID) (close_driver d m)
           | None => m
           end in
  set_cbs (delete dsID) m.

(** [Close] closes the drivers of the map, in any order. *)
Definition Close m : Manager :=
  if closed m then m
  else let m := foldl (λ m p, set_pools (delete p.1) (close_driver p.2 m)) m (map_to_list (pools m)) in
       mkManager (drivers m) (breakers m) (pools m) (circuitBreakers m) (lastCheck m) (connecting m) true.

(** One round of the loop of [checkAllConnections]; [full]: the driver's pool
    is used up, so that it is not asked. *)
Definition check_connection (now dsID : Z) (full ok : bool) m : Manager :=
  match pools m !! dsID with
  | None => m
  | Some d =>
      let '(i, m) := getCircuitBreaker now dsID m in
      if full || ok then on_breaker i (RecordSuccess now) m
      else mark_unhealthy d (on_breaker i (RecordFailure now) m)
  end.

Definition updatePoolConfigFromSystemSettings m : Manager :=
  set_drivers (imap (λ i v,
    if bool_decide (i ∈ (map_to_list (pools m)).*2)
    then mkDriver (v_source v) (v_config v) (v_open v) (v_checker v) (v_unhealthy v) getPoolConfigFromSystemSettings
    else v)) m.
Definition OnConfigChanged (key : string) m : Manager :=
  if in_list key ["datasource.connection_max_open"; "datasource.connection_max_idle"; "datasource.connection_max_lifetime"]
  then updatePoolConfigFromSystemSettings m else m.

Definition ActiveConnections m : gmap Z string := (λ _, "active") <$> pools m.

(** A test connects a driver of its own and closes it again. *)
Definition TestConnection (inp : input) (ok : bool) (ds : Datasource) m : result error unit * Manager :=
  let '(r, m) := connect inp ds m in
  match r with
  | Err e => (Err e, m)
  | Ok d => ((if ok then Ok tt else Err ErrDatasourceConnFailed), close_driver d m)
  end.

(** A call that runs alone: eleven sections at most ([GetDriver_alone]). *)
Definition GetDriver (inp : input) (now : Z) (ds : Datasource) m : option (result error nat) * Manager :=
  let '(k, m) := Nat.iter 11 (λ '(k, m), advance inp now k m) (mkCall ds 0 Start, m) in
  (match c_phase k with Returned r => Some r | _ => None end, m).

(** ** The overlapping calls *)

Record system : Type := mkSystem { mgr : Manager; calls : list call }.

Inductive mgr_step : system → system → Prop :=
| ms_call ds s : mgr_step s (mkSystem (mgr s) (calls s ++ [mkCall ds 0 Start]))
| ms_advance inp now j k s :
    calls s !! j = Some k →
    mgr_step s (mkSystem (advance inp now k (mgr s)).2 (<[j := (advance inp now k (mgr s)).1]> (calls s)))
| ms_remove dsID s : mgr_step s (mkSystem (RemoveDatasource dsID (mgr s)) (calls s))
| ms_check now dsID full ok s : mgr_step s (mkSystem (check_connection now dsID full ok (mgr s)) (calls s))
| ms_config key s : mgr_step s (mkSystem (OnConfigChanged key (mgr s)) (calls s))
| ms_test inp ok ds s : mgr_step s (mkSystem (TestConnection inp ok ds (mgr s)).2 (calls s))
| ms_close s : mgr_step s (mkSystem (Close (mgr s)) (calls s)).

Definition mgr_start s : Prop := s = mkSystem NewManager [].
End manager.

(** ** Overlapping calls *)

Section overlap.
Context {A : Aead}.
Variable crypto : option Crypto.
Variable ints : string → Z.
Variable supported : string → bool.
Abbreviation step := (mgr_step crypto ints supported).

Definition source_of (d : nat) m : option Z := v_source <$> drivers m !! d.

(** The driver a call holds. *)
Definition holds (p : phase) : option nat :=
  match p with
  | Checking d | Pinging d | Storing d | Stamping d | Releasing (Ok d) | Returned (Ok d) => Some d
  | _ => None
  end.
(** The phases between claiming and releasing. *)
Definition claims (p : phase) : bool :=
  match p with Connecting | Storing _ | Stamping _ | Releasing _ => true | _ => false end.

Record mgr_inv s : Prop := {
  mi_pools : ∀ id d, pools (mgr s) !! id = Some d → source_of d (mgr s) = Some id;
  mi_holds : ∀ k d, k ∈ calls s → holds (c_phase k) = Some d → source_of d (mgr s) = Some (ds_ID (c_ds k));
  mi_claimed : ∀ k, k ∈ calls s → claims (c_phase k) = true → ds_ID (c_ds k) ∈ connecting (mgr s);
  mi_one : ∀ i j k l, calls s !! i = Some k → calls s !! j = Some l → claims (c_phase k) = true →
             claims (c_phase l) = true → ds_ID (c_ds k) = ds_ID (c_ds l) → i = j;
  mi_owner : ∀ id, id ∈ connecting (mgr s) → ∃ k, k ∈ calls s ∧ claims (c_phase k) = true ∧ ds_ID (c_ds k) = id;
}.

(** Changes of the manager that neither move a driver to another data source
    nor touch the claims. *)
Record benign m m' : Prop := {
  bn_source : ∀ d id, source_of d m = Some id → source_of d m' = Some id;
  bn_pools : ∀ id d, pools m' !! id = Some d → pools m !! id = Some d ∨ source_of d m' = Some id;
  bn_connecting : connecting m' = connecting m;
}.

Lemma benign_refl m : benign m m.
Proof. split; auto. Qed.
Lemma benign_trans m1 m2 m3 : benign m1 m2 → benign m2 m3 → benign m1 m3.
Proof.
  intros [S1 P1 C1] [S2 P2 C2]. split; [auto| |congruence]. intros id d [Hp|?]%P2; [|by right].
  apply P1 in Hp as [?|?]; [by left|right; auto].
Qed.

Lemma source_alter d f i m :
  (∀ v, v_source (f v) = v_source v) → source_of d (set_drivers (alter f i) m) = source_of d m.
Proof.
  intros Hf. unfold source_of. simpl. destruct (decide (i = d)) as [->|Hne].
  - rewrite list_lookup_alter_eq. destruct (drivers m !! d); simpl; [by rewrite Hf|done].
  - by rewrite list_lookup_alter_ne.
Qed.

Lemma benign_close i m : benign m (close_driver i m).
Proof. split; [|by left|done]. intros d id Hs. unfold close_driver. by rewrite source_alter. Qed.
Lemma benign_mark i m : benign m (mark_unhealthy i m).
Proof. split; [|by left|done]. intros d id Hs. unfold mark_unhealthy. by rewrite source_alter. Qed.
Lemma benign_breaker i f m : benign m (on_breaker i f m).
Proof. by split; [|left|]. Qed.
Lemma benign_breakers f m : benign m (set_breakers f m).
Proof. by split; [|left|]. Qed.
Lemma benign_check f m : benign m (set_lastCheck f m).
Proof. by split; [|left|]. Qed.
Lemma benign_get now id m : benign m (getCircuitBreaker now id m).2.
Proof. unfold getCircuitBreaker. destruct (circuitBreakers m !! id); simpl; [apply benign_refl|by split; [|left|]]. Qed.
Lemma benign_delete id m : benign m (set_pools (delete id) m).
Proof. split; [done| |done]. simpl. intros i d [_ Hd]%lookup_delete_Some. by left. Qed.
Lemma benign_insert id d m : source_of d m = Some id → benign m (set_pools (insert id d) m).
Proof.
  intros Hs. split; [done| |done]. simpl. intros i d'. rewrite lookup_insert_Some.
  intros [[<- <-]|[_ Hd]]; [by right|by left].
Qed.
Lemma benign_open v m : benign m (set_drivers (λ l, l ++ [v]) m).
Proof.
  split; [|by left|done]. intros d id. unfold source_of. simpl. intros Hs.
  destruct (drivers m !! d) as [w|] eqn:E; [|done]. by rewrite (lookup_app_l_Some _ _ _ _ E).
Qed.
Lemma benign_connect inp ds m : benign m (connect crypto ints supported inp ds m).2.
Proof.
  unfold connect. destruct (negb (supported _)); [apply benign_refl|]. destruct (negb (in_connect _)); [apply benign_refl|].
  apply benign_open.
Qed.
Lemma connect_source inp ds m d :
  (connect crypto ints supported inp ds m).1 = Ok d →
  source_of d (connect crypto ints supported inp ds m).2 = Some (ds_ID ds).
Proof.
  unfold connect. destruct (negb (supported _)); [done|]. destruct (negb (in_connect _)); [done|].
  intros [= <-]. unfold source_of. simpl. by rewrite lookup_app_r, Nat.sub_diag by done.
Qed.
#[local] Hint Resolve benign_refl benign_close benign_mark benign_breaker benign_breakers benign_check benign_get
  benign_delete benign_open benign_connect : benign.

(** What a section does to the claims. *)
Inductive claim_change (id : Z) (k k' : call) m m' : Prop :=
| cc_same : claims (c_phase k') = claims (c_phase k) → connecting m' = connecting m → claim_change id k k' m m'
| cc_claim : claims (c_phase k) = false → claims (c_phase k') = true → id ∉ connecting m →
    connecting m' = {[id]} ∪ connecting m → claim_change id k k' m m'
| cc_release : claims (c_phase k) = true → claims (c_phase k') = false →
    connecting m' = connecting m ∖ {[id]} → claim_change id k k' m m'.

Definition pools_ok m : Prop := ∀ id d, pools m !! id = Some d → source_of d m = Some id.

Lemma benign_pools_ok m m' : benign m m' → pools_ok m → pools_ok m'.
Proof. intros [Hs Hp _] Hok id d [Hd|Hd]%Hp; [by apply Hs, Hok|done]. Qed.

Record advanced (k k' : call) m m' : Prop := {
  av_ds : c_ds k' = c_ds k;
  av_holds : ∀ d, holds (c_phase k') = Some d → source_of d m' = Some (ds_ID (c_ds k));
  av_source : ∀ d id, source_of d m = Some id → source_of d m' = Some id;
  av_pools : pools_ok m';
  av_claim : claim_change (ds_ID (c_ds k)) k k' m m';
}.

(** A section that only does benign things. *)
Lemma advanced_benign k ph i m m' :
  benign m m' → pools_ok m → claims ph = claims (c_phase k) →
  (∀ d, holds ph = Some d → source_of d m' = Some (ds_ID (c_ds k))) →
  advanced k (mkCall (c_ds k) i ph) m m'.
Proof.
  intros Hb Hok Hc Hh. split; simpl; [done|done|apply Hb|by eapply benign_pools_ok|]. apply cc_same; [done|apply Hb].
Qed.

Lemma advance_spec inp now k m :
  pools_ok m → (∀ d, holds (c_phase k) = Some d → source_of d m = Some (ds_ID (c_ds k))) →
  advanced k (advance crypto ints supported inp now k m).1 m (advance crypto ints supported inp now k m).2.
Proof.
  intros Hok Hh. unfold advance. destruct k as [ds cb ph]. simpl in Hh.
  assert (∀ d m', holds ph = Some d → benign m m' → source_of d m' = Some (ds_ID ds)) as Hkeep
    by (intros d m' Hd Hb; apply Hb; auto).
  simpl. destruct ph as [| |d|d| | | | |d|d|r|r]; simpl in *.
  - destruct (negb (IsEnabled ds)); [by apply advanced_benign; auto with benign|].
    pose proof (benign_get now (ds_ID ds) m) as Hb. destruct (getCircuitBreaker now (ds_ID ds) m) as [i m1]. simpl in Hb.
    destruct (breakers m1 !! i) as [b|]; [|by apply (advanced_benign (mkCall ds cb Start))].
    destruct (AllowRequest now b) as [[] b']; simpl;
      (apply (advanced_benign (mkCall ds cb Start)); [|done|done|done]);
      eapply benign_trans; eauto with benign.
  - destruct (pools m !! ds_ID ds) as [d|] eqn:Ep; simpl;
      (apply (advanced_benign (mkCall ds cb Reading)); [apply benign_refl|done|done|]); [|done].
    intros d' [= <-]. by apply Hok.
  - destruct (is_unhealthy d m); simpl; [by apply (advanced_benign (mkCall ds cb (Checking d))); auto with benign|].
    destruct (lastCheck m !! ds_ID ds) as [last|]; [destruct (now - last <? checkInterval)|]; simpl;
      (apply (advanced_benign (mkCall ds cb (Checking d))); [auto with benign|done|done|]); intros d' [= <-]; by apply Hh.
  - destruct (in_ping inp); simpl; (apply (advanced_benign (mkCall ds cb (Pinging d))); [|done|done|]);
      try (intros d' [= <-]); try done; try (by apply Hh); auto with benign.
    eapply benign_trans; [apply benign_check|apply benign_breaker].
  - apply (advanced_benign (mkCall ds cb Dropping)); auto with benign.
  - apply (advanced_benign (mkCall ds cb Forgetting)); auto with benign.
  - case_bool_decide as Hin; simpl; [by apply (advanced_benign (mkCall ds cb Claiming)); auto with benign|].
    split; simpl; [done|done|done|done|]. by apply cc_claim.
  - pose proof (benign_connect inp ds m) as Hb. pose proof (connect_source inp ds m) as Hs.
    destruct (connect crypto ints supported inp ds m) as [[d|e] m1]; simpl in *;
      (apply (advanced_benign (mkCall ds cb Connecting)); [done|done|done|]); [|done].
    intros d' [= <-]. by apply Hs.
  - pose proof (Hh d eq_refl) as Hd. apply (advanced_benign (mkCall ds cb (Storing d))); [by apply benign_insert|done|done|].
    by intros d' [= <-].
  - apply (advanced_benign (mkCall ds cb (Stamping d))); [auto with benign|done|done|]. intros d' [= <-]. by apply Hh.
  - split; simpl; [done|destruct r; simpl in *; auto; done|done|done|]. by apply cc_release.
  - split; simpl; [done|destruct r; simpl in *; auto; done|done|done|]. by apply cc_same.
Qed.

(** A step that runs no section. *)
Lemma inv_benign m' s : mgr_inv s → benign (mgr s) m' → mgr_inv (mkSystem m' (calls s)).
Proof.
  intros [Hp Hh Hc Ho Hw] Hb. split; simpl; try done.
  - by eapply benign_pools_ok.
  - intros k d Hk Hd. apply Hb. by apply Hh.
  - intros k Hk. rewrite (bn_connecting _ _ Hb). by apply Hc.
  - intros id. rewrite (bn_connecting _ _ Hb). apply Hw.
Qed.

Lemma inv_call ds s : mgr_inv s → mgr_inv (mkSystem (mgr s) (calls s ++ [mkCall ds 0 Start])).
Proof.
  intros [Hp Hh Hc Ho Hw].
  assert (∀ i k, (calls s ++ [mkCall ds 0 Start]) !! i = Some k → claims (c_phase k) = true → calls s !! i = Some k) as Hl.
  { intros i k Hk Hcl. apply lookup_app_Some in Hk as [Hk|[_ Hk]]; [done|]. apply list_lookup_singleton_Some in Hk as [_ <-].
    done. }
  split; simpl; [done| | | |].
  - intros k d [Hk| ->%list_elem_of_singleton]%elem_of_app; [by apply Hh|done].
  - intros k [Hk| ->%list_elem_of_singleton]%elem_of_app; [by apply Hc|done].
  - intros i j k l Hk Hl' H1 H2. apply (Ho i j k l); auto.
  - intros id Hid. destruct (Hw id Hid) as (k & Hk & Hrest). exists k. split; [|done]. apply elem_of_app. by left.
Qed.

Lemma inv_advance inp now j k s :
  mgr_inv s → calls s !! j = Some k →
  mgr_inv (mkSystem (advance crypto ints supported inp now k (mgr s)).2
             (<[j := (advance crypto ints supported inp now k (mgr s)).1]> (calls s))).
Proof.
  intros [Hp Hh Hc Ho Hw] Hj.
  destruct (advance_spec inp now k (mgr s)) as [Hds Hhold Hsrc Hpools Hcl]; [done|intros d; apply Hh; by eapply list_elem_of_lookup_2|].
  destruct (advance crypto ints supported inp now k (mgr s)) as [k' m']. simpl in *.
  assert (∀ i l, <[j := k']> (calls s) !! i = Some l → i = j ∧ l = k' ∨ i ≠ j ∧ calls s !! i = Some l) as Hlook.
  { intros i l. rewrite list_lookup_insert_Some. intros [(<- & <- & _)|[Hne Hl]]; [by left|right; split; [congruence|done]]. }
  assert (<[j := k']> (calls s) !! j = Some k') as Hself by (apply list_lookup_insert_eq; by eapply lookup_lt_Some).
  split; simpl.
  - done.
  - intros l d [i Hi]%list_elem_of_lookup Hd. apply Hlook in Hi as [[-> ->]|[_ Hi]]; [by rewrite Hds; auto|].
    apply Hsrc, Hh; [by eapply list_elem_of_lookup_2|done].
  - intros l [i Hi]%list_elem_of_lookup Hl. destruct Hcl as [Hsame Hcon|Hno Hyes Hnin Hcon|Hyes Hno Hcon]; rewrite Hcon.
    + apply Hlook in Hi as [[-> ->]|[_ Hi]].
      * rewrite Hds. apply Hc; [by eapply list_elem_of_lookup_2|congruence].
      * apply Hc; [by eapply list_elem_of_lookup_2|done].
    + apply elem_of_union. apply Hlook in Hi as [[-> ->]|[_ Hi]].
      * left. rewrite Hds. by apply elem_of_singleton.
      * right. apply Hc; [by eapply list_elem_of_lookup_2|done].
    + apply Hlook in Hi as [[-> ->]|[Hne Hi]]; [congruence|]. apply elem_of_difference. split.
      * apply Hc; [by eapply list_elem_of_lookup_2|done].
      * rewrite elem_of_singleton. intros Heq. apply Hne. by apply (Ho i j l k).
  - intros i1 i2 k1 k2 H1 H2 C1 C2 Hid.
    assert (∀ i l, i ≠ j → calls s !! i = Some l → claims (c_phase l) = true → claims (c_phase k') = true →
      ds_ID (c_ds l) = ds_ID (c_ds k') → False) as Hclash.
    { intros i l Hne Hi Hl Hk' Heq. rewrite Hds in Heq. destruct Hcl as [Hsame _|_ _ Hnin _|_ Hno _].
      - apply Hne. apply (Ho i j l k); [done..|congruence|done].
      - apply Hnin. rewrite <- Heq. apply Hc; [by eapply list_elem_of_lookup_2|done].
      - congruence. }
    apply Hlook in H1 as [[-> ->]|[N1 H1]], H2 as [[-> ->]|[N2 H2]]; [done|..].
    + by destruct (Hclash i2 k2).
    + by destruct (Hclash i1 k1).
    + by apply (Ho i1 i2 k1 k2).
  - intros id Hid.
    assert (∀ l, l ∈ calls s → claims (c_phase l) = true → ds_ID (c_ds l) = id → (l = k → claims (c_phase k') = true) →
      ∃ l', l' ∈ <[j := k']> (calls s) ∧ claims (c_phase l') = true ∧ ds_ID (c_ds l') = id) as Hkeep.
    { intros l [i Hi]%list_elem_of_lookup Hl Hlid Hlk. destruct (decide (i = j)) as [->|Hne].
      - exists k'. simplify_eq. split; [by eapply list_elem_of_lookup_2|]. split; [by apply Hlk|congruence].
      - exists l. split; [|done]. apply (list_elem_of_lookup_2 _ i). by rewrite list_lookup_insert_ne. }
    destruct Hcl as [Hsame Hcon|Hno Hyes Hnin Hcon|Hyes Hno Hcon]; rewrite Hcon in Hid.
    + destruct (Hw id Hid) as (l & Hl & Hcl & Hlid). apply (Hkeep l Hl Hcl Hlid). intros ->. congruence.
    + apply elem_of_union in Hid as [Hid%elem_of_singleton|Hid].
      * exists k'. split; [by eapply list_elem_of_lookup_2|]. split; [done|congruence].
      * destruct (Hw id Hid) as (l & Hl & Hcl & Hlid). apply (Hkeep l Hl Hcl Hlid). intros ->. congruence.
    + apply elem_of_difference in Hid as [Hid Hne]. rewrite elem_of_singleton in Hne.
      destruct (Hw id Hid) as (l & Hl & Hcl & Hlid). apply (Hkeep l Hl Hcl Hlid). intros ->. congruence.
Qed.

Lemma benign_cbs f m : benign m (set_cbs f m).
Proof. by split; [|left|]. Qed.
Lemma benign_remove id m : benign m (RemoveDatasource id m).
Proof.
  unfold RemoveDatasource. destruct (pools m !! id) as [d|].
  - eapply benign_trans; [apply (benign_close d)|]. eapply benign_trans; [apply (benign_delete id)|apply benign_cbs].
  - apply benign_cbs.
Qed.
Lemma benign_Close m : benign m (Close m).
Proof.
  unfold Close. destruct (closed m); [apply benign_refl|]. generalize (map_to_list (pools m)). intros l.
  assert (benign m (foldl (λ m p, set_pools (delete p.1) (close_driver p.2 m)) m l)) as Hb.
  { revert m. induction l as [|p l IH]; intros m; [apply benign_refl|]. simpl. eapply benign_trans; [|apply IH].
    eapply benign_trans; [apply benign_close|apply benign_delete]. }
  destruct Hb as [Hs Hp Hc]. by split.
Qed.
Lemma benign_check_connection now id full ok m : benign m (check_connection now id full ok m).
Proof.
  unfold check_connection. destruct (pools m !! id) as [d|]; [|apply benign_refl].
  pose proof (benign_get now id m) as Hb. destruct (getCircuitBreaker now id m) as [i m1]. simpl in Hb.
  destruct (full || ok); (eapply benign_trans; [exact Hb|]); [apply benign_breaker|].
  eapply benign_trans; [apply benign_breaker|apply benign_mark].
Qed.
Lemma benign_config key m : benign m (OnConfigChanged ints key m).
Proof.
  unfold OnConfigChanged, updatePoolConfigFromSystemSettings. destruct (in_list _ _); [|apply benign_refl].
  split; [|by left|done]. intros d id. unfold source_of. simpl. rewrite list_lookup_imap.
  destruct (drivers m !! d) as [v|]; simpl; [|done]. by case_bool_decide.
Qed.
Lemma benign_test inp ok ds m : benign m (TestConnection crypto ints supported inp ok ds m).2.
Proof.
  unfold TestConnection. pose proof (benign_connect inp ds m) as Hb.
  destruct (connect crypto ints supported inp ds m) as [[d|e] m1]; simpl in *; [|done].
  eapply benign_trans; [exact Hb|apply benign_close].
Qed.

Lemma mgr_inv_reachable s : reachable step mgr_start s → mgr_inv s.
Proof.
  intros Hs. revert s Hs. apply reachable_invariant.
  - intros s ->. split; simpl.
    + intros id d Hd. by rewrite lookup_empty in Hd.
    + by intros k d ?%not_elem_of_nil.
    + by intros k ?%not_elem_of_nil.
    + by intros i j k l ?.
    + by intros id ?%not_elem_of_empty.
  - intros s s' Hi Hstep. destruct Hstep as [ds s|inp now j k s Hk|id s|now id full ok s|key s|inp ok ds s|s].
    + by apply inv_call.
    + by apply inv_advance.
    + apply inv_benign; [done|apply benign_remove].
    + apply inv_benign; [done|apply benign_check_connection].
    + apply inv_benign; [done|apply benign_config].
    + apply inv_benign; [done|apply benign_test].
    + apply inv_benign; [done|apply benign_Close].
Qed.

(** C15: however calls, removals, health checks and the shutdown overlap, a
    call is handed a driver of the data source it asked for, and a data source
    is connected by one call at a time: the marks in [connecting] are exactly
    those of the calls that connect now, one call each. *)
Theorem one_connect_per_source s (Hs : reachable step mgr_start s) :
  (∀ k d, k ∈ calls s → c_phase k = Returned (Ok d) →
     ∃ v, drivers (mgr s) !! d = Some v ∧ v_source v = ds_ID (c_ds k)) ∧
  (∀ id, id ∈ connecting (mgr s) ↔ ∃ k, k ∈ calls s ∧ claims (c_phase k) = true ∧ ds_ID (c_ds k) = id) ∧
  (∀ i j k l, calls s !! i = Some k → calls s !! j = Some l → claims (c_phase k) = true →
     claims (c_phase l) = true → ds_ID (c_ds k) = ds_ID (c_ds l) → i = j).
Proof.
  destruct (mgr_inv_reachable s Hs) as [Hp Hh Hc Ho Hw]. split; [|split; [|done]].
  - intros k d Hk Hph. specialize (Hh k d Hk). rewrite Hph in Hh. specialize (Hh eq_refl). unfold source_of in Hh.
    destruct (drivers (mgr s) !! d) as [v|] eqn:E; [|done]. exists v. simpl in Hh. split; [done|congruence].
  - intros id. split; [apply Hw|]. intros (k & Hk & Hcl & <-). by apply Hc.
Qed.
End overlap.

(** ** Calls that do not overlap *)

Section alone.
Context {A : Aead}.
Variable crypto : option Crypto.
Variable ints : string → Z.
Variable supported : string → bool.

(** The open drivers are those of the map. *)
Record tidy m : Prop := {
  td_pools : pools_ok m;
  td_open : ∀ d v, drivers m !! d = Some v → v_open v = true ↔ ∃ id, pools m !! id = Some d;
  td_cbs : ∀ id i, circuitBreakers m !! id = Some i → is_Some (breakers m !! i);
}.

(** Changes that only touch breakers, times and marks. *)
Lemma tidy_same m m' :
  drivers m' = drivers m → pools m' = pools m →
  (∀ id i, circuitBreakers m' !! id = Some i → is_Some (breakers m' !! i)) → tidy m → tidy m'.
Proof.
  intros Hd Hp Hc [H1 H2 _]. split; [| |done].
  - intros id d. unfold source_of. rewrite Hd, Hp. apply H1.
  - intros d v. rewrite Hd, Hp. apply H2.
Qed.

Lemma tidy_breaker i f m : tidy m → tidy (on_breaker i f m).
Proof.
  intros Ht. apply (tidy_same m); [done..| |done]. intros id j Hj. simpl.
  destruct (td_cbs _ Ht id j Hj) as [cb Hcb]. destruct (decide (i = j)) as [->|Hne].
  - rewrite list_lookup_alter_eq, Hcb. by eexists.
  - rewrite list_lookup_alter_ne by done. by eexists.
Qed.
Lemma tidy_check f m : tidy m → tidy (set_lastCheck f m).
Proof. intros Ht. apply (tidy_same m); [done..|apply Ht|done]. Qed.
Lemma tidy_connecting f m : tidy m → tidy (set_connecting f m).
Proof. intros Ht. apply (tidy_same m); [done..|apply Ht|done]. Qed.

Lemma tidy_get now id m :
  tidy m → let '(i, m') := getCircuitBreaker now id m in
  tidy m' ∧ drivers m' = drivers m ∧ pools m' = pools m ∧ lastCheck m' = lastCheck m ∧ connecting m' = connecting m ∧
  ∃ cb, breakers m' !! i = Some cb ∧
    (circuitBreakers m !! id = Some i ∧ breakers m !! i = Some cb ∨
     circuitBreakers m !! id = None ∧ cb = NewCircuitBreaker now id).
Proof.
  intros Ht. unfold getCircuitBreaker. destruct (circuitBreakers m !! id) as [i|] eqn:E.
  - split_and!; [done..|]. destruct (td_cbs _ Ht id i E) as [cb Hcb]. exists cb. auto.
  - split.
    + apply (tidy_same m); [done..| |done]. intros id' j. simpl. rewrite lookup_insert_Some. intros [[<- <-]|[_ Hj]].
      * rewrite lookup_app_r, Nat.sub_diag by done. by eexists.
      * destruct (td_cbs _ Ht id' j Hj) as [cb Hcb]. rewrite (lookup_app_l_Some _ _ _ _ Hcb). by eexists.
    + split_and!; [done..|]. exists (NewCircuitBreaker now id). split; [|by right]. simpl.
      by rewrite lookup_app_r, Nat.sub_diag by done.
Qed.

Lemma drivers_close d m d' :
  drivers (close_driver d m) !! d' =
  if decide (d = d') then (λ v, mkDriver (v_source v) (v_config v) false (v_checker v) (v_unhealthy v) (v_pool v))
                            <$> drivers m !! d'
  else drivers m !! d'.
Proof.
  unfold close_driver. simpl. case_decide as E; [subst; apply list_lookup_alter_eq|by apply list_lookup_alter_ne].
Qed.

(** Closing a driver and taking it off the map. *)
Lemma tidy_drop id d m : tidy m → pools m !! id = Some d → tidy (set_pools (delete id) (close_driver d m)).
Proof.
  intros [Hp Ho Hc] Hd. split; [| |done].
  - intros id' d'. simpl. rewrite lookup_delete_Some. intros [_ Hd']. apply Hp in Hd'.
    pose proof (bn_source _ _ (benign_close d m) d' id' Hd') as Hs. exact Hs.
  - intros d' v. change (drivers (set_pools (delete id) (close_driver d m))) with (drivers (close_driver d m)).
    rewrite drivers_close. simpl. setoid_rewrite lookup_delete_Some.
    case_decide as Heq.
    + subst d'. destruct (drivers m !! d) as [w|]; [|done]. intros [= <-]. simpl. split; [done|].
      intros (id' & Hne & Hd'). apply Hp in Hd', Hd. congruence.
    + intros Hv. rewrite (Ho d' v Hv). split.
      * intros [id' Hid']. exists id'. split; [congruence|done].
      * intros (id' & _ & Hid'). by exists id'.
Qed.

(** A new driver is put on the map. *)
Lemma tidy_connect inp ds m d m1 :
  tidy m → pools m !! ds_ID ds = None → connect crypto ints supported inp ds m = (Ok d, m1) →
  d = length (drivers m) ∧ tidy (set_pools (insert (ds_ID ds) d) m1) ∧ pools m1 = pools m ∧
  connecting m1 = connecting m ∧
  ∃ v, drivers m1 !! d = Some v ∧ v_config v = driver_config crypto ds ∧ v_unhealthy v = false ∧
    v_open v = true ∧ v_source v = ds_ID ds.
Proof.
  intros [Hp Ho Hc] Hn. unfold connect. destruct (negb (supported _)); [done|]. destruct (negb (in_connect _)); [done|].
  set (v := mkDriver _ _ _ _ _ _). intros [= <- <-]. split; [done|].
  assert (drivers (set_drivers (λ l, l ++ [v]) m) !! length (drivers m) = Some v) as Hv
    by (simpl; by rewrite lookup_app_r, Nat.sub_diag by done).
  assert (∀ id, pools m !! id ≠ Some (length (drivers m))) as Hfresh.
  { intros id Hid. apply Hp in Hid. unfold source_of in Hid. destruct (drivers m !! length (drivers m)) eqn:E; [|done].
    apply lookup_lt_Some in E. lia. }
  split; [|split; [done|split; [done|by exists v]]]. split; [| |done].
  - intros id d. simpl. rewrite lookup_insert_Some. intros [[<- <-]|[_ Hd]].
    + unfold source_of. simpl. rewrite lookup_app_r, Nat.sub_diag by done. done.
    + apply Hp in Hd. by apply (bn_source _ _ (benign_open v m)).
  - intros d w. simpl. setoid_rewrite lookup_insert_Some. intros [Hw|[Hge Hw]]%lookup_app_Some.
    + assert (d ≠ length (drivers m)) by (apply lookup_lt_Some in Hw; lia). rewrite (Ho d w Hw). split.
      * intros [id Hid]. exists id. right. split; [congruence|done].
      * intros [id [[<- <-]|[_ Hid]]]; [done|by exists id].
    + apply list_lookup_singleton_Some in Hw as [Hd <-]. simpl. split; [|done]. intros _. exists (ds_ID ds). left.
      split; [done|]. lia.
Qed.

Section one_call.
Context (inp : input) (now : Z) (ds : Datasource) (m0 : Manager).
Abbreviation id := (ds_ID ds).

(** What a call may return, and how it leaves its data source. *)
Definition outcome (r : result error nat) m : Prop :=
  match r with
  | Ok d =>
      pools m !! id = Some d ∧
      ∃ v, drivers m !! d = Some v ∧ v_open v = true ∧ v_checker v && v_unhealthy v = false ∧
        (pools m0 !! id = Some d ∧ drivers m0 !! d = Some v ∨
         d = length (drivers m0) ∧ v_config v = driver_config crypto ds ∧ v_source v = id)
  | Err ErrDatasourceDisabled => IsEnabled ds = false ∧ m = m0
  | Err ErrDatasourceCircuitOpen =>
      ∃ i cb, circuitBreakers m0 !! id = Some i ∧ breakers m0 !! i = Some cb ∧ (AllowRequest now cb).1 = false
  | Err ErrConnecting => False
  | Err ErrDatasourceTypeNotSupport => supported (Type_ ds) = false ∧ pools m !! id = None
  | Err ErrDatasourceConnFailed => in_connect inp = false ∧ pools m !! id = None
  end.

(** The state at each phase of a call that runs alone. *)
Definition at_phase (p : phase) m : Prop :=
  match p with
  | Start => m = m0 ∧ tidy m
  | Reading => tidy m ∧ pools m = pools m0 ∧ drivers m = drivers m0
  | Checking d => tidy m ∧ pools m !! id = Some d ∧ pools m = pools m0 ∧ drivers m = drivers m0
  | Pinging d => tidy m ∧ pools m !! id = Some d ∧ pools m = pools m0 ∧ drivers m = drivers m0 ∧ is_unhealthy d m = false
  | Dropping => tidy (set_pools (delete id) m) ∧ length (drivers m) = length (drivers m0)
  | Forgetting | Claiming | Connecting => tidy m ∧ pools m !! id = None ∧ length (drivers m) = length (drivers m0)
  | Storing d => tidy (set_pools (insert id d) m) ∧ outcome (Ok d) (set_pools (insert id d) m)
  | Stamping d => tidy m ∧ outcome (Ok d) m
  | Releasing r => tidy m ∧ outcome r m ∧ match r with Err ErrDatasourceDisabled => False | _ => True end
  | Returned r => tidy m ∧ outcome r m
  end.

Record alone (k : call) m : Prop := {
  al_ds : c_ds k = ds;
  al_others : ∀ id', id' ≠ id → pools m !! id' = pools m0 !! id';
  al_claims : connecting m = if claims (c_phase k) then {[id]} else ∅;
  al_phase : at_phase (c_phase k) m;
}.

(** How many sections are left at most. *)
Definition rank (p : phase) : nat :=
  match p with
  | Start => 11 | Reading => 10 | Checking _ => 9 | Pinging _ => 8 | Dropping => 7 | Forgetting => 6
  | Claiming => 5 | Connecting => 4 | Storing _ => 3 | Stamping _ => 2 | Releasing _ => 1 | Returned _ => 0
  end.

Lemma rank_advance k m : (rank (c_phase (advance crypto ints supported inp now k m).1) ≤ pred (rank (c_phase k)))%nat.
Proof.
  unfold advance. destruct (c_phase k) as [| |d|d| | | | |d|d|r|r] eqn:E; simpl; try lia.
  - destruct (negb _); [simpl; lia|]. destruct (getCircuitBreaker now (ds_ID (c_ds k)) m) as [i m1].
    destruct (breakers m1 !! i) as [cb|]; [|simpl; lia]. destruct (AllowRequest now cb) as [[] cb']; simpl; lia.
  - destruct (pools m !! _); simpl; lia.
  - destruct (is_unhealthy d m); [simpl; lia|]. destruct (lastCheck m !! _); [case_match|]; simpl; lia.
  - destruct (in_ping inp); simpl; lia.
  - case_bool_decide; simpl; lia.
  - destruct (connect crypto ints supported inp (c_ds k) m) as [[d|e] m1]; simpl; lia.
  - rewrite E. simpl. lia.
Qed.

Lemma outcome_same r m m' :
  drivers m' = drivers m → pools m' = pools m → r ≠ Err ErrDatasourceDisabled → outcome r m → outcome r m'.
Proof.
  intros Hd Hp Hr. destruct r as [d|[]]; simpl; rewrite ?Hd, ?Hp; tauto.
Qed.

Lemma alone_advance k m :
  alone k m → alone (advance crypto ints supported inp now k m).1 (advance crypto ints supported inp now k m).2.
Proof.
  intros [Hds Hoth Hcl Hph]. destruct k as [ds' cb ph]. simpl in *. subst ds'. unfold advance. simpl.
  destruct ph as [| |d|d| | | | |d|d|r|r]; simpl in *.
  - destruct Hph as [-> Ht]. destruct (IsEnabled ds) eqn:Een; simpl; [|by split].
    pose proof (tidy_get now id m0 Ht) as Hg. destruct (getCircuitBreaker now id m0) as [i m1].
    destruct Hg as (Ht1 & Hd & Hp & Hl & Hc & b & Hb & Hold). rewrite Hb.
    pose proof (λ b', tidy_same m1 (set_breakers (insert i b') m1) eq_refl eq_refl) as Hset.
    assert (∀ b', tidy (set_breakers (insert i b') m1)) as Hins.
    { intros b'. apply Hset; [|done]. intros id' j Hj. simpl. destruct (td_cbs _ Ht1 id' j Hj) as [c Hcj].
      destruct (decide (i = j)) as [->|Hne]; [|rewrite list_lookup_insert_ne by done; by eexists].
      rewrite list_lookup_insert_eq by (by eapply lookup_lt_Some). by eexists. }
    destruct (AllowRequest now b) as [[] b'] eqn:Ea; simpl.
    + split; simpl; [done|by intros; rewrite Hp|by rewrite Hc|]. auto.
    + split; simpl; [done|by intros; rewrite Hp|by rewrite Hc|]. split; [auto|].
      destruct Hold as [[H1 H2]|[_ ->]]; [|done]. exists i, b. by rewrite Ea.
  - destruct Hph as (Ht & Hp & Hd). destruct (pools m !! id) as [d|] eqn:E; simpl; (split; simpl; [done..|]); [auto|].
    split; [done|]. split; [done|]. by rewrite Hd.
  - destruct Hph as (Ht & Hpd & Hp & Hd).
    assert (outcome (Ok d) m ∨ is_unhealthy d m = true) as Hout.
    { destruct (is_unhealthy d m) eqn:Eu; [by right|left]. simpl. split; [done|].
      pose proof (td_pools _ Ht id d Hpd) as Hs. unfold source_of in Hs. destruct (drivers m !! d) as [v|] eqn:Ev; [|done].
      exists v. split; [done|]. split; [apply (td_open _ Ht d v Ev); by exists id|].
      split; [unfold is_unhealthy in Eu; by rewrite Ev in Eu|]. left. by rewrite <- Hp, <- Hd. }
    destruct (is_unhealthy d m) eqn:Eu; simpl.
    + split; simpl; [done|done|done|]. split; [by apply tidy_drop|]. unfold close_driver. simpl.
      by rewrite length_alter, Hd.
    + destruct Hout as [Hout|?]; [|done].
      destruct (lastCheck m !! id) as [last|]; [destruct (now - last <? checkInterval)|]; simpl;
        (split; simpl; [done|done|done|]); [|by auto..].
      split; [by apply tidy_breaker|]. by apply (outcome_same (Ok d) m).
  - destruct Hph as (Ht & Hpd & Hp & Hd & Hu).
    assert (outcome (Ok d) m) as Hout.
    { simpl. split; [done|]. pose proof (td_pools _ Ht id d Hpd) as Hs. unfold source_of in Hs.
      destruct (drivers m !! d) as [v|] eqn:Ev; [|done]. exists v. split; [done|].
      split; [apply (td_open _ Ht d v Ev); by exists id|]. split; [unfold is_unhealthy in Hu; by rewrite Ev in Hu|].
      left. by rewrite <- Hp, <- Hd. }
    destruct (in_ping inp); simpl; (split; simpl; [done|done|done|]).
    + split; [by apply tidy_breaker, tidy_check|]. by apply (outcome_same (Ok d) m).
    + split; [by apply tidy_check|]. by apply (outcome_same (Ok d) m).
    + split; [by apply tidy_drop|]. unfold close_driver. simpl. by rewrite length_alter, Hd.
  - destruct Hph as [Ht Hl]. split; simpl; [done| |done|].
    + intros id' Hne. rewrite lookup_delete_ne by done. by apply Hoth.
    + split; [done|]. split; [apply lookup_delete_eq|done].
  - destruct Hph as (Ht & Hn & Hl). split; simpl; [done..|]. split; [by apply tidy_check|done].
  - destruct Hph as (Ht & Hn & Hl). rewrite bool_decide_false by (rewrite Hcl; set_solver). simpl.
    split; simpl; [done|done|by rewrite Hcl, union_empty_r_L|]. split; [by apply tidy_connecting|done].
  - destruct Hph as (Ht & Hn & Hl). destruct (connect crypto ints supported inp ds m) as [[d|e] m1] eqn:Ec; simpl.
    + destruct (tidy_connect inp ds m d m1 Ht Hn Ec) as (Hd & Ht1 & Hp1 & Hc1 & v & Hv & Hcfg & Hu & Hopen & Hsrc).
      split; simpl; [done|by rewrite Hp1|by rewrite Hc1|]. split; [done|]. split; [apply lookup_insert_eq|].
      exists v. split; [done|]. split; [done|]. split; [by rewrite Hu, andb_false_r|]. right. split; [congruence|done].
    + unfold connect in Ec. destruct (supported (Type_ ds)) eqn:Es; simpl in Ec.
      * destruct (in_connect inp) eqn:Ei; simpl in Ec; [done|]. injection Ec as <- <-. by split.
      * injection Ec as <- <-. by split.
  - destruct Hph as [Ht Hout]. split; simpl; [done| |done|done].
    intros id' Hne. rewrite lookup_insert_ne by done. by apply Hoth.
  - destruct Hph as [Ht Hout]. split; simpl; [done..|]. split; [by apply tidy_check|].
    split; [by apply (outcome_same (Ok d) m)|done].
  - destruct Hph as (Ht & Hout & Hnd). split; simpl; [done|done|rewrite Hcl; set_solver|].
    split; [by apply tidy_breaker, tidy_connecting|]. apply (outcome_same r m); [done..| |done].
    destruct r as [|[]]; done.
  - by split.
Qed.

Lemma GetDriver_run (Ht : tidy m0) (Hc : connecting m0 = ∅) :
  let '(o, m) := GetDriver crypto ints supported inp now ds m0 in
  tidy m ∧ connecting m = ∅ ∧ (∀ id', id' ≠ id → pools m !! id' = pools m0 !! id') ∧
  ∃ r, o = Some r ∧ outcome r m.
Proof.
  assert (∀ n k m, alone k m → (rank (c_phase k) ≤ n)%nat →
    let '(k', m') := Nat.iter n (λ '(k, m), advance crypto ints supported inp now k m) (k, m) in
    alone k' m' ∧ rank (c_phase k') = 0%nat) as Hiter.
  { induction n as [|n IH]; intros k m Ha Hr; [simpl; split; [done|lia]|].
    rewrite Nat.iter_succ_r. pose proof (alone_advance k m Ha) as Ha'. pose proof (rank_advance k m) as Hr'.
    destruct (advance crypto ints supported inp now k m) as [k' m']. apply IH; [done|]. simpl in Hr'. lia. }
  assert (alone (mkCall ds 0 Start) m0) as Ha by (by split).
  specialize (Hiter 11%nat _ _ Ha (le_n _)). unfold GetDriver.
  destruct (Nat.iter 11 _ _) as [k m]. destruct Hiter as [[Hds Hoth Hcl Hph] Hrank].
  destruct (c_phase k) as [| |d|d| | | | |d|d|r|r] eqn:Ek; try done. destruct Hph as [Htm Hout].
  split; [done|]. split; [done|]. split; [done|]. by exists r.
Qed.

(** a call of [GetDriver] that no other call overlaps returns, after at
    most eleven sections.  Open drivers stay those of the map, no mark is left,
    and other data sources are untouched.  It returns the driver on the map,
    open and not marked: the one that was there, or a new one connected with
    the given settings and the decrypted password.  It is refused exactly for
    a disabled data source and by a breaker that does not allow the request;
    a connection that fails leaves the data source without driver. *)
Theorem GetDriver_alone (Ht : tidy m0) (Hc : connecting m0 = ∅) :
  let '(o, m) := GetDriver crypto ints supported inp now ds m0 in
  tidy m ∧ connecting m = ∅ ∧ (∀ id', id' ≠ id → pools m !! id' = pools m0 !! id') ∧
  ∃ r, o = Some r ∧ outcome r m.
Proof. by apply GetDriver_run. Qed.
End one_call.

Inductive alone_step : Manager → Manager → Prop :=
| as_get inp now ds m : alone_step m (GetDriver crypto ints supported inp now ds m).2
| as_remove dsID m : alone_step m (RemoveDatasource dsID m)
| as_check now dsID full ok m : alone_step m (check_connection now dsID full ok m)
| as_config key m : alone_step m (OnConfigChanged ints key m)
| as_test inp ok ds m : alone_step m (TestConnection crypto ints supported inp ok ds m).2
| as_close m : alone_step m (Close m).

Definition quiet m : Prop := tidy m ∧ connecting m = ∅.


Lemma tidy_same_open m m' :
  pools m' = pools m → circuitBreakers m' = circuitBreakers m → breakers m' = breakers m →
  (∀ d v', drivers m' !! d = Some v' → ∃ v, drivers m !! d = Some v ∧ v_source v' = v_source v ∧ v_open v' = v_open v) →
  (∀ d v, drivers m !! d = Some v → is_Some (drivers m' !! d)) → tidy m → tidy m'.
Proof.
  intros Hp Hc Hb Hd Hd' [H1 H2 H3]. split.
  - intros id d. rewrite Hp. intros Hid%H1. unfold source_of in *. destruct (drivers m !! d) as [v|] eqn:E; [|done].
    destruct (Hd' d v E) as [v' Hv']. rewrite Hv'. simpl in *. destruct (Hd d v' Hv') as (w & Hw & Hs & _). congruence.
  - intros d v' Hv'. destruct (Hd d v' Hv') as (v & Hv & _ & Ho). rewrite Ho, Hp. by apply H2.
  - intros id i. rewrite Hc, Hb. apply H3.
Qed.

Lemma tidy_mark d m : tidy m → tidy (mark_unhealthy d m).
Proof.
  apply tidy_same_open; [done..| |]; unfold mark_unhealthy; simpl; intros i v; destruct (decide (d = i)) as [->|Hne];
    rewrite ?list_lookup_alter_eq, ?list_lookup_alter_ne by done.
  - destruct (drivers m !! i) as [w|]; [|done]. intros [= <-]. by exists w.
  - intros Hv. by exists v.
  - intros ->. by eexists.
  - intros ->. by eexists.
Qed.

Lemma tidy_config key m : tidy m → tidy (OnConfigChanged ints key m).
Proof.
  unfold OnConfigChanged, updatePoolConfigFromSystemSettings. destruct (in_list _ _); [|done].
  apply tidy_same_open; [done..| |]; simpl; intros d v; rewrite list_lookup_imap.
  - destruct (drivers m !! d) as [w|]; [|done]. simpl. intros [= <-]. exists w. by case_bool_decide.
  - intros ->. by eexists.
Qed.

Lemma tidy_remove id m : tidy m → tidy (RemoveDatasource id m).
Proof.
  intros Ht. unfold RemoveDatasource.
  assert (∀ m1, tidy m1 → tidy (set_cbs (delete id) m1)) as Hcbs.
  { intros m1 H1. apply (tidy_same m1); [done..| |done]. intros id' i. simpl. rewrite lookup_delete_Some.
    intros [_ Hi]. by apply (td_cbs _ H1 id'). }
  apply Hcbs. destruct (pools m !! id) as [d|] eqn:E; [by apply tidy_drop|done].
Qed.

Lemma tidy_check_connection now id full ok m : tidy m → tidy (check_connection now id full ok m).
Proof.
  intros Ht. unfold check_connection. destruct (pools m !! id) as [d|]; [|done].
  pose proof (tidy_get now id m Ht) as Hg. destruct (getCircuitBreaker now id m) as [i m1]. destruct Hg as [Ht1 _].
  destruct (full || ok); [by apply tidy_breaker|]. by apply tidy_mark, tidy_breaker.
Qed.

(** A driver that is opened for a test only. *)
Lemma tidy_test inp ok ds m : tidy m → tidy (TestConnection crypto ints supported inp ok ds m).2.
Proof.
  intros [Hp Ho Hc]. unfold TestConnection, connect. destruct (negb (supported _)); [done|].
  destruct (negb (in_connect _)); [done|]. simpl. set (v := mkDriver _ _ _ _ _ _).
  set (m1 := set_drivers (λ l, l ++ [v]) m). split.
  - intros id d Hd. apply (bn_source _ _ (benign_close (length (drivers m)) m1)), (bn_source _ _ (benign_open v m)).
    by apply Hp.
  - intros d w. rewrite drivers_close. change (pools (close_driver (length (drivers m)) m1)) with (pools m).
    case_decide as E.
    + subst d. unfold m1. simpl. rewrite lookup_app_r, Nat.sub_diag by done. simpl. intros [= <-]. simpl.
      split; [done|]. intros [id Hid%Hp]. unfold source_of in Hid. destruct (drivers m !! length (drivers m)) eqn:E; [|done].
      apply lookup_lt_Some in E. lia.
    + unfold m1. simpl. intros [Hw|[Hge Hw]]%lookup_app_Some; [by apply Ho|].
      apply list_lookup_singleton_Some in Hw as [Hd _]. lia.
  - done.
Qed.

Lemma tidy_Close m : tidy m → tidy (Close m).
Proof.
  intros Ht. unfold Close. destruct (closed m); [done|].
  assert (∀ l m1, tidy m1 → NoDup l.*1 → (∀ id d, (id, d) ∈ l → pools m1 !! id = Some d) →
    tidy (foldl (λ m p, set_pools (delete p.1) (close_driver p.2 m)) m1 l)) as Hl.
  { induction l as [|[id d] l IH]; intros m1 Ht1 Hnd Hin; [done|]. simpl in *. apply NoDup_cons in Hnd as [Hnin Hnd].
    apply IH; [apply tidy_drop; [done|apply Hin; by left]|done|]. intros id' d' Hd'. simpl.
    rewrite lookup_delete_ne; [apply Hin; by right|]. intros <-. apply Hnin, list_elem_of_fmap. by exists (id, d'). }
  set (m1 := foldl _ _ _). apply (tidy_same m1); [done..| |].
  - apply (td_cbs m1). apply Hl; [done|apply NoDup_fst_map_to_list|]. intros id d. by rewrite elem_of_map_to_list.
  - apply Hl; [done|apply NoDup_fst_map_to_list|]. intros id d. by rewrite elem_of_map_to_list.
Qed.

Lemma connecting_Close m : connecting (Close m) = connecting m.
Proof. apply (bn_connecting _ _ (benign_Close m)). Qed.

Lemma quiet_step m m' : quiet m → alone_step m m' → quiet m'.
Proof.
  intros [Ht Hc] Hstep. destruct Hstep as [inp now ds m|id m|now id full ok m|key m|inp ok ds m|m].
  - pose proof (GetDriver_run inp now ds m Ht Hc) as Hr.
    destruct (GetDriver crypto ints supported inp now ds m) as [o m']. by destruct Hr as (? & ? & _).
  - split; [by apply tidy_remove|]. by rewrite (bn_connecting _ _ (benign_remove id m)).
  - split; [by apply tidy_check_connection|]. by rewrite (bn_connecting _ _ (benign_check_connection now id full ok m)).
  - split; [by apply tidy_config|]. by rewrite (bn_connecting _ _ (benign_config ints key m)).
  - split; [by apply tidy_test|]. by rewrite (bn_connecting _ _ (benign_test crypto ints supported inp ok ds m)).
  - split; [by apply tidy_Close|]. by rewrite connecting_Close.
Qed.

Lemma quiet_reachable m : reachable alone_step (λ m, m = NewManager) m → quiet m.
Proof.
  intros Hm. revert m Hm. apply reachable_invariant; [|apply quiet_step].
  intros m ->. split; [|done]. split; simpl.
  - intros id d Hd. simpl in Hd. by rewrite lookup_empty in Hd.
  - done.
  - intros id i Hi. by rewrite lookup_empty in Hi.
Qed.

(** as long as operations do not overlap no driver leaks: after any
    sequence of calls, removals, tests, health checks and changes of the
    configuration, the open drivers are those of the map, each under its own
    data source; after [Close] none is open. *)
Theorem no_driver_leaks_alone m (Hm : reachable alone_step (λ m, m = NewManager) m) :
  (∀ d v, drivers m !! d = Some v → v_open v = true ↔ pools m !! v_source v = Some d) ∧
  (∀ id d, pools m !! id = Some d → ∃ v, drivers m !! d = Some v ∧ v_source v = id) ∧
  (closed m = false → ∀ d v, drivers (Close m) !! d = Some v → v_open v = false).
Proof.
  destruct (quiet_reachable m Hm) as [Ht _]. split; [|split].
  - intros d v Hv. rewrite (td_open _ Ht d v Hv). split; [|by eexists].
    intros [id Hid]. pose proof (td_pools _ Ht id d Hid) as Hs. unfold source_of in Hs. rewrite Hv in Hs. by injection Hs as ->.
  - intros id d Hd%(td_pools _ Ht). unfold source_of in Hd. destruct (drivers m !! d) as [v|]; [|done]. exists v.
    split; [done|]. by injection Hd.
  - intros Hc d v Hv. pose proof (tidy_Close m Ht) as Ht'. apply not_true_is_false. rewrite (td_open _ Ht' d v Hv).
    intros [id Hid]. revert Hid. unfold Close. rewrite Hc. simpl.
    assert (∀ l m1, (∀ i x, pools m1 !! i = Some x → (i, x) ∈ l) →
      pools (foldl (λ m p, set_pools (delete p.1) (close_driver p.2 m)) m1 l) !! id = None) as Hall.
    { induction l as [|[i x] l IH]; intros m1 Hin; simpl.
      - destruct (pools m1 !! id) as [x|] eqn:E; [|done]. by apply Hin, not_elem_of_nil in E.
      - apply IH. intros j y. simpl. rewrite lookup_delete_Some. intros [Hne Hy].
        apply Hin, elem_of_cons in Hy as [[= -> ->]|Hy]; done. }
    rewrite Hall; [done|]. intros i x Hx. by apply elem_of_map_to_list.
Qed.
End alone.

(** ** Concrete runs *)

Definition fine : input := mkInput PingOk true true.
Definition ping_fails : input := mkInput PingFailed true true.
Definition demo_step (s : system) (e : nat * input * Z) : system :=
  let '(j, inp, now) := e in
  match calls s !! j with
  | Some k => let '(k', m') := advance None (λ _, 0) (λ _, true) inp now k (mgr s) in mkSystem m' (<[j := k']> (calls s))
  | None => s
  end.
Definition two_calls (m : Manager) : system := mkSystem m [mkCall demo_source 0 Start; mkCall demo_source 0 Start].
(** The sections of the two calls, in the order given. *)
Definition trace (js : list nat) (inp : input) (now : Z) (s : system) : system :=
  foldl (λ s j, demo_step s (j, inp, now)) s js.

Definition connected : Manager := (GetDriver None (λ _, 0) (λ _, true) fine 0 demo_source NewManager).2.

Example one_connect_per_source_witness :
  let s := trace [0; 1; 0; 1; 0; 1]%nat fine 0 (two_calls NewManager) in
  c_phase <$> calls s = [Connecting; Returned (Err ErrConnecting)] ∧
  (∀ id, id ∈ connecting (mgr s) ↔ ∃ k, k ∈ calls s ∧ claims (c_phase k) = true ∧ ds_ID (c_ds k) = id).
Proof.
  intros s. split; [vm_compute; reflexivity|].
  assert (∀ js s, reachable (mgr_step None (λ _, 0) (λ _, true)) mgr_start s →
    reachable (mgr_step None (λ _, 0) (λ _, true)) mgr_start (trace js fine 0 s)) as Htrace.
  { induction js as [|j js IH]; intros t Ht; [done|]. simpl. apply IH. destruct Ht as (t0 & Hs & Hr). exists t0.
    split; [done|]. unfold demo_step. destruct (calls t !! j) as [k|] eqn:E; [|done].
    pose proof (ms_advance None (λ _, 0) (λ _, true) fine 0 j k t E) as Hn.
    destruct (advance None _ _ fine 0 k (mgr t)) as [k' m']. by eapply rtc_r. }
  refine (proj1 (proj2 (one_connect_per_source None (λ _, 0) (λ _, true) s (Htrace _ _ _)))).
  exists (mkSystem NewManager []). split; [done|].
  eapply rtc_l; [apply (ms_call None (λ _, 0) (λ _, true) demo_source)|].
  eapply rtc_l; [apply (ms_call None (λ _, 0) (λ _, true) demo_source)|]. apply rtc_refl.
Defined.

Example GetDriver_alone_witness :
  tidy NewManager ∧
  let '(o, m) := GetDriver None (λ _, 0) (λ _, true) fine 0 demo_source NewManager in
  o = Some (Ok 0%nat) ∧ tidy m.
Proof.
  assert (tidy NewManager) as Ht.
  { split; simpl; [|done|].
    - intros id d Hd. simpl in Hd. by rewrite lookup_empty in Hd.
    - intros id i Hi. by rewrite lookup_empty in Hi. }
  split; [done|].
  pose proof (GetDriver_alone None (λ _, 0) (λ _, true) fine 0 demo_source NewManager Ht eq_refl) as Hg.
  assert ((GetDriver None (λ _, 0) (λ _, true) fine 0 demo_source NewManager).1 = Some (Ok 0%nat)) as Ho
    by (vm_compute; reflexivity).
  destruct (GetDriver None _ _ fine 0 demo_source NewManager) as [o m]. split; [exact Ho|apply Hg].
Defined.

Lemma connected_reachable : reachable (alone_step None (λ _, 0) (λ _, true)) (λ m, m = NewManager) connected.
Proof. exists NewManager. split; [done|]. apply rtc_once, as_get. Qed.

Example no_driver_leaks_alone_witness :
  v_open <$> drivers connected = [true] ∧
  ∀ d v, drivers (Close connected) !! d = Some v → v_open v = false.
Proof.
  split; [vm_compute; reflexivity|].
  exact (proj2 (proj2 (no_driver_leaks_alone None (λ _, 0) (λ _, true) connected connected_reachable)) eq_refl).
Defined.

(** Both calls find no driver; the second claims when the first has released,
    connects again and overwrites its driver, which stays open and is no
    longer on the map. *)
Example late_call_leaks_driver :
  let s := trace ([0; 1; 0; 1] ++ replicate 5 0 ++ replicate 5 1)%nat fine 0 (two_calls NewManager) in
  c_phase <$> calls s = [Returned (Ok 0%nat); Returned (Ok 1%nat)] ∧
  v_open <$> drivers (mgr s) = [true; true] ∧ map_to_list (pools (mgr s)) = [(3, 1%nat)] ∧
  v_open <$> drivers (Close (mgr s)) = [true; false].
Proof. vm_compute. done. Qed.

(** Both calls see the old driver fail; the second takes off the map the
    driver the first has just connected. *)
Example late_drop_takes_new_driver :
  let s := trace ([0; 1; 0; 1; 0; 1; 0; 1] ++ replicate 7 0 ++ [1])%nat ping_fails (60 * Second) (two_calls connected) in
  c_phase <$> calls s = [Returned (Ok 1%nat); Forgetting] ∧
  v_open <$> drivers (mgr s) = [false; true] ∧ map_to_list (pools (mgr s)) = [].
Proof. vm_compute. done. Qed.

(** A data source removed while a call connects it comes back on the map, with
    the settings it had before; so does a driver that a call connects while or
    after the manager closes, and nobody closes that one. *)
Example removal_during_connect :
  let s := trace (replicate 4 0)%nat fine 0 (two_calls NewManager) in
  let m := RemoveDatasource 3 (mgr s) in
  let s' := trace (replicate 3 0)%nat fine 0 (mkSystem m (calls s)) in
  c_phase <$> calls s' = [Returned (Ok 0%nat); Start] ∧ map_to_list (pools (mgr s')) = [(3, 0%nat)].
Proof. vm_compute. done. Qed.
Example driver_after_close :
  let m := Close NewManager in
  let '(o, m') := GetDriver None (λ _, 0) (λ _, true) fine 0 demo_source m in
  o = Some (Ok 0%nat) ∧ v_open <$> drivers (Close m') = [true].
Proof. vm_compute. done. Qed.

(** The password a data source was created with is the one its driver gets. *)
Example driver_gets_password :
  ds_Password (driver_config (Some demo_crypto) (hd demo_source (sources one_source))) = "secret".
Proof. vm_compute. reflexivity. Qed.
