(* ===== verification/HivePool.v ===== *)
(** * The pool of Hive connections

    [src/scheduler/internal/datasource/driver/hive_pool.go]: connections kept
    in a channel, two atomic counters, a mutex around closing.  A call is a
    thread whose steps are what other threads can see: a receive or a send, one
    operation on [openCount], taking or leaving [closeMu].  What only its owner
    can see, closing a connection it took or its creation time, is part of the
    step next to it; [inUseCount] decides nothing in this file and is changed
    together with its neighbour.  Connections are numbers; [live] are those
    open at the server, [fresh] is the next one.  Whether [createConn]
    succeeds, a wait ends by timeout, and what a caller does with its
    connection are inputs. *)
From stdpp Require Import gmap sorting.
From S2P Require Import Prelude Manager.

Record hive : Type := mkHive {
  conns : list nat; chan_cap : nat; config : PoolConfig; openCount : Z; inUseCount : Z;
  closed_ : bool; closeMu : bool; stopCleanup : bool; panics : nat; createTime : gmap nat Z; live : list nat; fresh : nat;
}.

Definition normalized (cfg : PoolConfig) : PoolConfig :=
  mkPoolConfig (if MaxOpen cfg <=? 0 then 5 else MaxOpen cfg) (if MinIdle cfg <? 0 then 0 else MinIdle cfg) (MaxLifetime cfg)
    (if AcquireTimeout cfg <=? 0 then 30 * Second else AcquireTimeout cfg).
Definition newHiveConnPool (cfg : PoolConfig) : hive :=
  let cfg := normalized cfg in
  let cfg := mkPoolConfig (MaxOpen cfg) (Z.min (MinIdle cfg) (MaxOpen cfg)) (MaxLifetime cfg) (AcquireTimeout cfg) in
  mkHive [] (Z.to_nat (MaxOpen cfg)) cfg 0 0 false false false 0 ∅ [] 0.

Implicit Types p : hive.
Definition set_conns (l : list nat) p : hive :=
  mkHive l (chan_cap p) (config p) (openCount p) (inUseCount p) (closed_ p) (closeMu p) (stopCleanup p) (panics p) (createTime p) (live p) (fresh p).
Definition add_open (n : Z) p : hive :=
  mkHive (conns p) (chan_cap p) (config p) (openCount p + n) (inUseCount p) (closed_ p) (closeMu p) (stopCleanup p) (panics p) (createTime p) (live p) (fresh p).
Definition add_inUse (n : Z) p : hive :=
  mkHive (conns p) (chan_cap p) (config p) (openCount p) (inUseCount p + n) (closed_ p) (closeMu p) (stopCleanup p) (panics p) (createTime p) (live p) (fresh p).
Definition set_config (cfg : PoolConfig) p : hive :=
  mkHive (conns p) (chan_cap p) cfg (openCount p) (inUseCount p) (closed_ p) (closeMu p) (stopCleanup p) (panics p) (createTime p) (live p) (fresh p).
Definition set_closed p : hive :=
  mkHive (conns p) (chan_cap p) (config p) (openCount p) (inUseCount p) true (closeMu p) (stopCleanup p) (panics p) (createTime p) (live p) (fresh p).
Definition set_mu (b : bool) p : hive :=
  mkHive (conns p) (chan_cap p) (config p) (openCount p) (inUseCount p) (closed_ p) b (stopCleanup p) (panics p) (createTime p) (live p) (fresh p).
(** [close(p.stopCleanup)] panics the second time. *)
Definition close_stop p : hive :=
  mkHive (conns p) (chan_cap p) (config p) (openCount p) (inUseCount p) (closed_ p) (closeMu p) true
    (if stopCleanup p then S (panics p) else panics p) (createTime p) (live p) (fresh p).
(** [conn.Close()]; with [createTime.Delete]; [createConn]; [createTime.Store]. *)
Definition close_only (pc : nat) p : hive :=
  mkHive (conns p) (chan_cap p) (config p) (openCount p) (inUseCount p) (closed_ p) (closeMu p) (stopCleanup p) (panics p)
    (createTime p) (filter (λ x, x ≠ pc) (live p)) (fresh p).
Definition close_conn (pc : nat) p : hive :=
  mkHive (conns p) (chan_cap p) (config p) (openCount p) (inUseCount p) (closed_ p) (closeMu p) (stopCleanup p) (panics p)
    (delete pc (createTime p)) (filter (λ x, x ≠ pc) (live p)) (fresh p).
Definition open_conn p : hive :=
  mkHive (conns p) (chan_cap p) (config p) (openCount p) (inUseCount p) (closed_ p) (closeMu p) (stopCleanup p) (panics p)
    (createTime p) (fresh p :: live p) (S (fresh p)).
Definition store_time (pc : nat) (now : Z) p : hive :=
  mkHive (conns p) (chan_cap p) (config p) (openCount p) (inUseCount p) (closed_ p) (closeMu p) (stopCleanup p) (panics p)
    (<[pc := now]> (createTime p)) (live p) (fresh p).

Definition UpdateConfig (cfg : PoolConfig) p : hive := set_config (normalized cfg) p.
Definition expired (now : Z) (cfg : PoolConfig) (pc : nat) p : bool :=
  (0 <? MaxLifetime cfg) && match createTime p !! pc with Some t => MaxLifetime cfg <? now - t | None => false end.
Definition has_room p : bool := Nat.ltb (length (conns p)) (chan_cap p).
Definition stats p : Z * Z * Z * Z :=
  let oc := openCount p in
  let iu := Z.min (Z.max (inUseCount p) 0) oc in
  (oc, Z.max (oc - iu) 0, iu, MaxOpen (config p)).

(** ** Threads *)
Inductive outcome : Type := Cancelled | Occupied | DialFailed | TimedOut | Gone.

Inductive phase : Type :=
(* acquire and tryAcquire *)
| Entering                 (* the first select *)
| Discarding               (* an expired connection was closed, its counters are not yet *)
| Loading                  (* [openCount.Load] *)
| Swapping (cur : Z)       (* [CompareAndSwap] *)
| Dialing                  (* [createConn] *)
| Undialing                (* after it failed *)
| Waiting                  (* the second select *)
| Holding (pc : nat)
| Dropping (next : phase)  (* a connection was closed, [openCount.Add(-1)] comes *)
(* release, discard and put *)
| Releasing (pc : nat)     (* before [closeMu] *)
| Putting (pc : nat)       (* before [closeMu] *)
| Returning (pc : nat)     (* under [closeMu], before the send *)
| Unlocking                (* at the end of what runs under [closeMu] *)
| Breaking                 (* closed, the counters are not yet *)
(* doCleanup *)
| Starting                 (* before [closeMu] *)
| Sweeping (kept : list nat)
| Requeueing (kept : list nat)
| Measuring
| Comparing (currentIdle : nat)
| Filling (need : nat)
| Filled (need pc : nat)   (* a new connection, not counted *)
| Sending (need pc : nat)
(* close *)
| Closing
| Stopping
| Draining
| Finished (r : outcome).

(** The configuration a call loaded, and whether it waits ([acquire]) or not
    ([tryAcquire]). *)
Record thread : Type := mkThread { th_cfg : PoolConfig; th_wait : bool; th_phase : phase }.
Implicit Types t : thread.
Definition to (ph : phase) t : thread := mkThread (th_cfg t) (th_wait t) ph.

Inductive action : Type := Release | Discard.
Record input : Type := mkInput { i_now : Z; i_dial : bool; i_timeout : bool; i_action : action }.
Implicit Types inp : input.

(** A connection was received: it is kept, or closed when it is too old. *)
Definition received inp (pc : nat) t p : thread * hive :=
  if expired (i_now inp) (th_cfg t) pc p then (to Discarding t, close_conn pc p)
  else (to (Holding pc) t, add_inUse 1 p).

(** [select { case p.conns <- pc: default: close it }], and what follows. *)
Definition send_or_close (pc : nat) (next : phase) t p : thread * hive :=
  if has_room p then (to next t, set_conns (conns p ++ [pc]) p) else (to (Dropping next) t, close_conn pc p).

(** One step of a call; [None] while it is blocked.  [acquire], [tryAcquire] and
    what they share: *)
Definition acquire_step inp p t : option (thread * hive) :=
  match th_phase t with
  | Entering =>
      match conns p with
      | pc :: rest => Some (received inp pc t (set_conns rest p))
      | [] => Some (to Loading t, p)
      end
  | Discarding => Some (to Loading t, add_inUse (-1) (add_open (-1) p))
  | Loading =>
      if openCount p <? MaxOpen (th_cfg t) then Some (to (Swapping (openCount p)) t, p)
      else Some (to (if th_wait t then Waiting else Finished Occupied) t, p)
  | Swapping cur =>
      if openCount p =? cur then Some (to Dialing t, add_open 1 p)
      else Some (to (if th_wait t then Waiting else Finished Occupied) t, p)
  | Dialing =>
      if i_dial inp then Some (to (Holding (fresh p)) t, add_inUse 1 (store_time (fresh p) (i_now inp) (open_conn p)))
      else Some (to Undialing t, p)
  | Undialing => Some (to (Finished DialFailed) t, add_open (-1) p)
  | Waiting =>
      if i_timeout inp then Some (to (Finished TimedOut) t, p)
      else match conns p with
           | pc :: rest => Some (received inp pc t (set_conns rest p))
           | [] => None
           end
  | _ => None
  end.
(** What the caller does with a connection, [release], [discard] and [put]: *)
Definition return_step inp p t : option (thread * hive) :=
  match th_phase t with
  | Holding pc =>
      match i_action inp with
      | Release => Some (to (Releasing pc) t, add_inUse (-1) p)
      | Discard => Some (to Breaking t, close_conn pc p)
      end
  | Releasing pc =>
      if closeMu p then None
      else if closed_ p || expired (i_now inp) (config p) pc p then Some (to (Dropping Unlocking) t, set_mu true (close_conn pc p))
      else Some (to (Returning pc) t, set_mu true p)
  | Breaking => Some (to (Finished Gone) t, add_inUse (-1) (add_open (-1) p))
  | Putting pc =>
      if closeMu p then None
      else if closed_ p then Some (to (Finished Gone) t, close_conn pc p)
      else Some (to (Returning pc) t, set_mu true (add_open 1 (store_time pc (i_now inp) p)))
  | Returning pc => Some (send_or_close pc Unlocking t p)
  | Unlocking => Some (to (Finished Gone) t, set_mu false p)
  | _ => None
  end.
(** [doCleanup]: *)
Definition cleanup_step inp p t : option (thread * hive) :=
  match th_phase t with
  | Starting =>
      if closeMu p then None
      else if closed_ p then Some (to (Finished Gone) t, p)
      else Some (mkThread (config p) (th_wait t) (Sweeping []), p)
  | Sweeping kept =>
      match conns p with
      | pc :: rest =>
          if expired (i_now inp) (th_cfg t) pc p then Some (to (Dropping (Sweeping kept)) t, close_conn pc (set_conns rest p))
          else Some (to (Sweeping (kept ++ [pc])) t, set_conns rest p)
      | [] => Some (to (Requeueing kept) t, p)
      end
  | Requeueing [] => Some (to Measuring t, p)
  | Requeueing (pc :: kept) => Some (send_or_close pc (Requeueing kept) t p)
  | Measuring => Some (to (Comparing (length (conns p))) t, p)
  | Comparing idle =>
      let currentIdle := Z.of_nat idle in
      let need := if (currentIdle <? MinIdle (th_cfg t)) && (openCount p <? MaxOpen (th_cfg t))
                  then Z.min (MinIdle (th_cfg t) - currentIdle) (MaxOpen (th_cfg t) - openCount p) else 0 in
      Some (to (Filling (Z.to_nat need)) t, p)
  | Filling O => Some (to (Finished Gone) t, p)
  | Filling (S need) =>
      if i_dial inp then Some (to (Filled need (fresh p)) t, store_time (fresh p) (i_now inp) (open_conn p))
      else Some (to (Filling need) t, p)
  | Filled need pc => Some (to (Sending need pc) t, add_open 1 p)
  | Sending need pc =>
      if has_room p then Some (to (Filling need) t, set_conns (conns p ++ [pc]) p)
      else Some (to (Dropping (Filling need)) t, close_only pc p)
  | _ => None
  end.
(** [close]: *)
Definition close_step p t : option (thread * hive) :=
  match th_phase t with
  | Closing => if closeMu p then None else Some (to Stopping t, set_closed p)
  | Stopping => Some (to (if stopCleanup p then Finished Gone else Draining) t, close_stop p)
  | Draining =>
      match conns p with
      | pc :: rest => Some (to (Dropping Draining) t, close_conn pc (set_conns rest p))
      | [] => Some (to (Finished Gone) t, p)
      end
  | _ => None
  end.
Definition advance inp p t : option (thread * hive) :=
  match th_phase t with
  | Entering | Discarding | Loading | Swapping _ | Dialing | Undialing | Waiting => acquire_step inp p t
  | Holding _ | Releasing _ | Breaking | Putting _ | Returning _ | Unlocking => return_step inp p t
  | Starting | Sweeping _ | Requeueing _ | Measuring | Comparing _ | Filling _ | Filled _ _ | Sending _ _ => cleanup_step inp p t
  | Closing | Stopping | Draining => close_step p t
  | Dropping next => Some (to next t, add_open (-1) p)
  | Finished _ => None
  end.

(** Calls that begin: a connection for [put] was made by the driver. *)
Inductive begins p : thread → hive → Prop :=
| begin_acquire wait : begins p (mkThread (config p) wait Entering) p
| begin_put : begins p (mkThread (config p) false (Putting (fresh p))) (open_conn p)
| begin_cleanup : begins p (mkThread (config p) false Starting) p
| begin_close : begins p (mkThread (config p) false Closing) p.

Inductive hive_step : hive * list thread → hive * list thread → Prop :=
| step_run p inp l1 t l2 t' p' : advance inp p t = Some (t', p') → hive_step (p, l1 ++ t :: l2) (p', l1 ++ t' :: l2)
| step_begin p l t p' : begins p t p' → hive_step (p, l) (p', t :: l)
| step_config p l cfg : hive_step (p, l) (UpdateConfig cfg p, l).

(** ** Every connection is in one place, and counted *)






Section moves.
Context (rest : list nat).


End moves.





(** The connections that callers work with. *)
Definition held (l : list thread) : list nat := l ≫= λ t, match th_phase t with Holding pc => [pc] | _ => [] end.


(** ** How many connections are opened *)

(** What happens after the driver has connected: calls and one cleanup at a
    time, with one configuration. *)
Fixpoint sweeps (ph : phase) : bool :=
  match ph with
  | Dropping next => sweeps next
  | Starting | Sweeping _ | Requeueing _ | Measuring | Comparing _ | Filling _ | Filled _ _ | Sending _ _ => true
  | _ => false
  end.
Definition puts (ph : phase) : bool := match ph with Putting _ => true | _ => false end.
Definition quiet_step (s s' : hive * list thread) : Prop :=
  hive_step s s' ∧ config s'.1 = config s.1 ∧ (length (filter (λ t, sweeps (th_phase t) = true) s'.2) ≤ 1)%nat ∧
  ∀ t, t ∈ s'.2 → puts (th_phase t) = false.

(** What the cleanup may still add. *)
Fixpoint fills (ph : phase) : Z :=
  match ph with
  | Dropping next => fills next
  | Filling need => Z.of_nat need
  | Filled need _ => Z.of_nat need + 1
  | Sending need _ => Z.of_nat need
  | _ => 0
  end.
(** The counter as it was read, before the swap. *)
Fixpoint swaps (ph : phase) : option Z :=
  match ph with Dropping next => swaps next | Swapping cur => Some cur | _ => None end.

Lemma sweeps_fills ph : sweeps ph = false → fills ph = 0.
Proof. by induction ph. Qed.

Section bound.
Context (M I : Z).

(** A thread with the configuration of the pool; the cleanup may go above the
    maximum by the number it set out to open, at most [I]. *)
Record within (p : hive) (l : list thread) : Prop := {
  wi_max : MaxOpen (config p) = M;
  wi_idle : MinIdle (config p) = I;
  wi_own : ∀ t, t ∈ l → MaxOpen (th_cfg t) = M ∧ MinIdle (th_cfg t) = I;
  wi_cur : ∀ t cur, t ∈ l → swaps (th_phase t) = Some cur → cur < M;
  wi_count : openCount p ≤ M + I;
  wi_fill : ∀ t, t ∈ l → fills (th_phase t) = 0 ∨ fills (th_phase t) ≤ I ∧ openCount p + fills (th_phase t) ≤ M + I;
}.

Lemma advance_within inp p t t' p' :
  0 ≤ I → MaxOpen (config p) = M → MinIdle (config p) = I → MaxOpen (th_cfg t) = M → MinIdle (th_cfg t) = I →
  (∀ cur, swaps (th_phase t) = Some cur → cur < M) → puts (th_phase t) = false → openCount p ≤ M + I →
  (fills (th_phase t) = 0 ∨ fills (th_phase t) ≤ I ∧ openCount p + fills (th_phase t) ≤ M + I) →
  advance inp p t = Some (t', p') →
  (MaxOpen (th_cfg t') = M ∧ MinIdle (th_cfg t') = I) ∧ (∀ cur, swaps (th_phase t') = Some cur → cur < M) ∧
  openCount p' ≤ M + I ∧
  (fills (th_phase t') = 0 ∨ fills (th_phase t') ≤ I ∧ openCount p' + fills (th_phase t') ≤ M + I) ∧
  (openCount p' ≤ openCount p ∨ openCount p' ≤ M ∨ sweeps (th_phase t) = true).
Proof.
  intros HI Hm Hi Htm Hti Hcur Hputs Hc Hf. unfold advance, acquire_step, return_step, cleanup_step, close_step, received, send_or_close, has_room. destruct t as [cfg w ph]. simpl in *.
  destruct ph; simpl in Hputs; try discriminate; repeat case_match; intros; simplify_eq/=;
    split_and!; try (intros ? [= <-]); try done;
    try specialize (Hcur _ eq_refl); repeat match goal with
    | E : (_ <? _) = true |- _ => apply Z.ltb_lt in E
    | E : (_ =? _) = true |- _ => apply Z.eqb_eq in E
    | E : _ && _ = true |- _ => apply andb_true_iff in E as [??]
    end; try lia; auto with lia.
Qed.

Lemma within_step s s' : 0 ≤ I → within s.1 s.2 → (length (filter (λ t, sweeps (th_phase t) = true) s.2) ≤ 1)%nat →
  (∀ t, t ∈ s.2 → puts (th_phase t) = false) → quiet_step s s' → within s'.1 s'.2.
Proof.
  intros HI [Hm Hi Hown Hcur Hc Hf] Hone Hputs (Hs & Hcfg & _ & Hputs').
  destruct Hs as [p inp l1 t l2 t' p' Ha|p l t p' Hb|p l cfg]; simpl in *.
  - assert (t ∈ l1 ++ t :: l2) as Ht by (apply elem_of_app; right; by left).
    assert (∀ x, x ∈ l1 ++ t' :: l2 → x = t' ∨ x ∈ l1 ++ l2) as Hsplit.
    { intros x. rewrite !elem_of_app, elem_of_cons. tauto. }
    assert (∀ x, x ∈ l1 ++ l2 → x ∈ l1 ++ t :: l2) as Hsub.
    { intros x. rewrite !elem_of_app, elem_of_cons. tauto. }
    destruct (Hown t Ht) as [Hom Hoi].
    destruct (advance_within inp p t t' p') as ((Hm' & Hi') & Hcur' & Hc' & Hf' & Hch); try done; [by eauto|by apply Hputs|by apply Hf|].
    split; simpl; [congruence|congruence| | |done|].
    + intros x [->|Hx]%Hsplit; [done|by apply Hown, Hsub].
    + intros x cur [->|Hx]%Hsplit; [apply Hcur'|]. by apply Hcur, Hsub.
    + intros x [->|Hx]%Hsplit; [done|]. destruct (Hf x (Hsub x Hx)) as [H0|[H1 H2]]; [by left|].
      destruct Hch as [Hle|[Hle|Hsw]]; [right; lia|right; lia|].
      left. destruct (sweeps (th_phase x)) eqn:Esx; [|by apply sweeps_fills]. exfalso.
      revert Hone. rewrite filter_app, filter_cons_True, length_app by done. simpl.
      assert (x ∈ filter (λ t, sweeps (th_phase t) = true) (l1 ++ l2)) as Hin by by apply list_elem_of_filter.
      rewrite filter_app in Hin. apply elem_of_app in Hin as [Hin|Hin].
      * destruct (filter _ l1); [by apply elem_of_nil in Hin|simpl; lia].
      * destruct (filter _ l2); [by apply elem_of_nil in Hin|simpl; lia].
  - destruct Hb as [wait| | |]; split; simpl; try done;
      try (intros x [->|Hx]%elem_of_cons; [by auto|by auto]); try (intros x cur [->|Hx]%elem_of_cons; [done|by eauto]).
  - change (normalized cfg = config p) in Hcfg. split; try done;
      [change (MaxOpen (normalized cfg) = M)|change (MinIdle (normalized cfg) = I)]; by rewrite Hcfg.
Qed.
End bound.

(** once a driver has connected, with at most its maximum of connections,
    calls, cleanups and closing keep the number of connections counted as open
    at most the maximum plus the number to keep idle. *)
Theorem open_connections_bounded p s :
  openCount p ≤ MaxOpen (config p) → 0 ≤ MinIdle (config p) → rtc quiet_step (p, []) s →
  openCount s.1 ≤ MaxOpen (config p) + MinIdle (config p).
Proof.
  intros Hc Hi Hr.
  assert (within (MaxOpen (config p)) (MinIdle (config p)) s.1 s.2 ∧ (length (filter (λ t, sweeps (th_phase t) = true) s.2) ≤ 1)%nat ∧
          ∀ t, t ∈ s.2 → puts (th_phase t) = false) as [Hw _]; [|apply Hw].
  refine (rtc_ind_r (λ s, within (MaxOpen (config p)) (MinIdle (config p)) s.1 s.2 ∧ (length (filter (λ t, sweeps (th_phase t) = true) s.2) ≤ 1)%nat ∧
          ∀ t, t ∈ s.2 → puts (th_phase t) = false) _ _ _ s Hr).
  - simpl. split_and!; [|lia|by intros ? ?%elem_of_nil]. split; simpl; try done; try lia.
    all: try (by intros ? ?%elem_of_nil); by intros ? ? ?%elem_of_nil.
  - intros y z _ Hstep (Hw & H1 & H2). split; [by eapply within_step|]. destruct Hstep as (_ & _ & ? & ?). done.
Qed.

(** ** Schedules *)
Inductive event : Type :=
| Begin (t : bool * nat)   (* the kind of call: 0 acquire (or tryAcquire), 1 put, 2 cleanup, 3 close *)
| Run (i : nat) (inp : input)
| Config (cfg : PoolConfig).

Definition begin_thread (wait : bool) (kind : nat) p : thread * hive :=
  match kind with
  | 0%nat => (mkThread (config p) wait Entering, p)
  | 1%nat => (mkThread (config p) false (Putting (fresh p)), open_conn p)
  | 2%nat => (mkThread (config p) false Starting, p)
  | _ => (mkThread (config p) false Closing, p)
  end.
Definition happen (e : event) (s : hive * list thread) : option (hive * list thread) :=
  match e with
  | Begin (wait, kind) => let '(t, p) := begin_thread wait kind s.1 in Some (p, t :: s.2)
  | Run i inp => t ← s.2 !! i; '(t', p') ← advance inp s.1 t; Some (p', <[i := t']> s.2)
  | Config cfg => Some (UpdateConfig cfg s.1, s.2)
  end.
Fixpoint schedule (es : list event) (s : hive * list thread) : option (hive * list thread) :=
  match es with [] => Some s | e :: es => happen e s ≫= schedule es end.


Definition small (max idle lifetime : Z) : PoolConfig := mkPoolConfig max idle lifetime 30.
Definition go (now : Z) : input := mkInput now true false Release.
Definition discards (now : Z) : input := mkInput now true false Discard.
Definition times_out (now : Z) : input := mkInput now true true Release.
(** An acquire that opens a connection, from its begin. *)
Definition dials (i : nat) (now : Z) : list event := [Run i (go now); Run i (go now); Run i (go now); Run i (go now)].

(** A release that puts the connection back. *)
Definition returns (i : nat) (now : Z) : list event := [Run i (go now); Run i (go now); Run i (go now); Run i (go now)].

Definition demo_pool (es : list event) (cfg : PoolConfig) : option (hive * list thread) := schedule es (newHiveConnPool cfg, []).



Lemma one_caller_quiet :
  quiet_step (newHiveConnPool (small 2 1 0), []) (newHiveConnPool (small 2 1 0), [mkThread (config (newHiveConnPool (small 2 1 0))) true Entering]).
Proof.
  split; [apply step_begin, begin_acquire|]. split; [done|]. split; [vm_compute; lia|]. by intros t [->|?%elem_of_nil]%elem_of_cons.
Qed.
Lemma open_connections_bounded_witness :
  openCount (newHiveConnPool (small 2 1 0)) <= 3.
Proof.
  apply (open_connections_bounded (newHiveConnPool (small 2 1 0)) _ ltac:(by vm_compute) ltac:(by vm_compute) (rtc_once _ _ one_caller_quiet)).
Defined.

(** A connection that is too old when it is received counts as one in use less,
    although it was idle: a caller works while the pool counts none in use. *)
Lemma expired_connection_miscounted :
  match demo_pool (Begin (true, 0%nat) :: dials 0 0 ++ returns 0 1 ++
                    Begin (true, 0%nat) :: [Run 0 (go 100); Run 0 (go 100)] ++ tail (dials 0 100)) (small 2 1 10) with
  | Some (p, l) =>
    held l = [1%nat] ∧ inUseCount p = 0 ∧ (stats p).1.2 = 0
  | None => False
  end.
Proof. by vm_compute. Qed.

(** Two calls at once on an empty pool: the one that loses the race on the
    counter is told that the pool is occupied, at one of five connections. *)
Lemma race_reports_occupied :
  match demo_pool [Begin (false, 0%nat); Begin (false, 0%nat); Run 0 (go 0); Run 1 (go 0); Run 0 (go 0); Run 1 (go 0); Run 0 (go 0); Run 1 (go 0)]
           (small 5 1 0) with
  | Some (p, l) =>
    openCount p = 1 ∧ th_phase <$> l = [Dialing; Finished Occupied]
  | None => False
  end.
Proof. by vm_compute. Qed.

(** A waiting call is woken by connections that come back, not by ones that are
    thrown away: the pool is empty, a new connection is allowed, and the call
    is blocked until its time is over. *)
Lemma waiter_not_woken :
  match demo_pool (Begin (true, 0%nat) :: dials 0 0 ++ [Begin (true, 0%nat); Run 0 (go 0); Run 0 (go 0); Run 1 (discards 0); Run 1 (go 0)])
           (small 1 1 0) with
  | Some (p, l) =>
    openCount p = 0 ∧ MaxOpen (config p) = 1 ∧ head (th_phase <$> l) = Some Waiting ∧
    ∀ now, happen (Run 0 (go now)) (p, l) = None
  | None => False
  end.
Proof. by vm_compute. Qed.

(** A cleanup that overlaps [close] puts back what it took: the pool is closed
    and drained, nobody works, and a connection stays open. *)
Lemma cleanup_reopens_closed_pool :
  match demo_pool (Begin (true, 0%nat) :: dials 0 0 ++ returns 0 0 ++
                    [Begin (false, 2%nat); Run 0 (go 0); Run 0 (go 0); Begin (false, 3%nat); Run 0 (go 0); Run 0 (go 0); Run 0 (go 0)] ++
                    repeat (Run 1 (go 0)) 6)
           (small 1 1 0) with
  | Some (p, l) =>
    closed_ p = true ∧ live p = [0%nat] ∧ conns p = [0%nat] ∧
    Forall (λ t, ∃ r, th_phase t = Finished r) l
  | None => False
  end.
Proof.
  vm_compute. split_and!; [done..|]. repeat (apply Forall_cons_2; [by eexists|]). apply Forall_nil_2.
Qed.

(** Closing twice closes the channel [stopCleanup] twice, which panics. *)
Lemma second_close_panics :
  match demo_pool ([Begin (false, 3%nat)] ++ repeat (Run 0 (go 0)) 3 ++ [Begin (false, 3%nat)] ++ repeat (Run 0 (go 0)) 2) (small 1 1 0) with
  | Some (p, l) =>
    panics p = 1%nat
  | None => False
  end.
Proof. by vm_compute. Qed.

(** A larger maximum does not make the channel larger: connections above the
    first maximum are closed when they come back. *)
Lemma larger_pool_keeps_channel :
  match demo_pool (Config (small 2 2 0) :: Begin (true, 0%nat) :: dials 0 0 ++ Begin (true, 0%nat) :: dials 0 0 ++
                    returns 0 1 ++ returns 1 1) (small 1 1 0) with
  | Some (p, l) =>
    MaxOpen (config p) = 2 ∧ MinIdle (config p) = 2 ∧ length (conns p) = 1%nat ∧ openCount p = 1
  | None => False
  end.
Proof. by vm_compute. Qed.
