(* ===== verification/Text.v ===== *)
(** * Go's string functions

    The functions of [strings], [strconv] and [regexp] the query path uses,
    on strings of bytes.  Texts are valid UTF-8 (they come from JSON bodies).
    [ToUpper] and [ToLower] change the ASCII letters and the letters outside
    ASCII whose other case is ASCII; the other letters stay as they are,
    since every pattern the results are compared with is ASCII. *)
From S2P Require Import Prelude.
From Stdlib Require Import Ascii.

(** ** Bytes *)
Definition between (lo hi : N) (c : ascii) : bool := (N.leb lo (N_of_ascii c) && N.leb (N_of_ascii c) hi)%N.
Definition is_digit : ascii → bool := between 48 57.
Definition upper (c : ascii) : ascii := if between 97 122 c then ascii_of_N (N_of_ascii c - 32) else c.
Definition lower (c : ascii) : ascii := if between 65 90 c then ascii_of_N (N_of_ascii c + 32) else c.

(** [\s] of [regexp]: tab, newline, form feed, carriage return, space. *)
Definition re_space (c : ascii) : bool :=
  match c with "009" | "010" | "012" | "013" | " " => true | _ => false end%char.

(** ** [strings] *)
Fixpoint ToUpper (s : string) : string :=
  match s with
  | EmptyString => EmptyString
  | String c s' =>
      match s' with
      | EmptyString => String (upper c) EmptyString
      | String d s'' =>
          if Ascii.eqb c "196" && Ascii.eqb d "177" then String "I" (ToUpper s'')
          else if Ascii.eqb c "197" && Ascii.eqb d "191" then String "S" (ToUpper s'')
          else String (upper c) (ToUpper s')
      end
  end%char.

Fixpoint ToLower (s : string) : string :=
  match s with
  | EmptyString => EmptyString
  | String "196" (String "176" s') => String "i" (ToLower s')
  | String "226" (String "132" (String "170" s')) => String "k" (ToLower s')
  | String c s' => String (lower c) (ToLower s')
  end%char.

Definition HasPrefix (s p : string) : bool := String.prefix p s.

Fixpoint Contains (s sub : string) : bool :=
  String.prefix sub s || match s with EmptyString => false | String _ s' => Contains s' sub end.

(** [strings.Split(s, sep)] for a separator of one byte *)
Fixpoint Split (sep : ascii) (s : string) : list string :=
  match s with
  | EmptyString => [""]
  | String c s' =>
      if Ascii.eqb c sep then "" :: Split sep s'
      else match Split sep s' with
           | w :: ws => String c w :: ws
           | [] => [String c ""]
           end
  end.

(** [unicode.IsSpace], as the UTF-8 encodings of the characters. *)
Definition bytes (l : list N) : string := String.string_of_list_ascii (map ascii_of_N l).
Definition space_runes : list string :=
  map bytes ([[9]; [10]; [11]; [12]; [13]; [32]; [194; 133]; [194; 160]; [225; 154; 128];
    [226; 128; 168]; [226; 128; 169]; [226; 128; 175]; [226; 129; 159]; [227; 128; 128]]
    ++ map (λ n, [226; 128; n]) [128; 129; 130; 131; 132; 133; 134; 135; 136; 137; 138])%N.

Fixpoint drop_string (n : nat) (s : string) : string :=
  match n, s with S n, String _ s => drop_string n s | _, _ => s end.

(** Removes the texts of [cut] from the front, as long as there is one. *)
Fixpoint trim_front (cut : list string) (fuel : nat) (s : string) : string :=
  match fuel with
  | O => s
  | S fuel =>
      match find (λ r, String.prefix r s) cut with
      | Some r => trim_front cut fuel (drop_string (String.length r) s)
      | None => s
      end
  end.

Definition rev_string (s : string) : string := String.string_of_list_ascii (reverse (String.list_ascii_of_string s)).
Definition TrimLeft (s : string) : string := trim_front space_runes (String.length s) s.
Definition TrimRight (s : string) : string :=
  rev_string (trim_front (map rev_string space_runes) (String.length s) (rev_string s)).
Definition TrimSpace (s : string) : string := TrimRight (TrimLeft s).

(** [strings.TrimSuffix(s, c)] for one byte *)
Definition TrimSuffix (c : ascii) (s : string) : string :=
  match rev_string s with
  | String d r => if Ascii.eqb c d then rev_string r else s
  | EmptyString => s
  end.

(** ** [strconv] *)
(** Digits, as [\d+] matches them, and what follows. *)
Fixpoint span_digits (s : string) : string * string :=
  match s with
  | String c s' => if is_digit c then let '(a, b) := span_digits s' in (String c a, b) else ("", s)
  | EmptyString => ("", "")
  end.
Fixpoint decimal (acc : Z) (s : string) : Z :=
  match s with
  | String c s' => decimal (acc * 10 + Z.of_N (N_of_ascii c - 48)) s'
  | EmptyString => acc
  end.
(** [strconv.Atoi] on digits: an error above [int]'s range. *)
Definition Atoi (digits : string) : option Z :=
  let n := decimal 0 digits in if n <? 2 ^ 63 then Some n else None.

(** ** Decimal texts *)
Definition all_digits (s : string) : bool := forallb is_digit (String.list_ascii_of_string s).

(** [strconv.ParseInt(s, 10, 64)] and [strconv.Atoi]: the value and whether
    there is no error; out of range it is the nearest number there is. *)
Definition ParseInt (s : string) : Z * bool :=
  let number (sign : Z) (s : string) :=
    if bool_decide (s = "") || negb (all_digits s) then (0, false)
    else
      let n := sign * decimal 0 s in
      if n <? - 2 ^ 63 then (- 2 ^ 63, false) else if 2 ^ 63 <=? n then (2 ^ 63 - 1, false) else (n, true) in
  match s with
  | String "-" s' => number (-1) s'
  | String "+" s' => number 1 s'
  | _ => number 1 s
  end.

Lemma decimal_app a b acc : decimal acc (a +:+ b) = decimal (decimal acc a) b.
Proof. revert acc. induction a as [|c a IH]; intros acc; [done|]. rewrite string_app_cons. simpl. apply IH. Qed.

Lemma all_digits_app a b : all_digits (a +:+ b) = all_digits a && all_digits b.
Proof.
  unfold all_digits. induction a as [|c a IH]; [done|]. rewrite string_app_cons. simpl. by rewrite IH, andb_assoc.
Qed.

Lemma pretty_char_digit d : (d < 10)%N →
  is_digit (pretty_N_char d) = true ∧ Z.of_N (N_of_ascii (pretty_N_char d) - 48) = Z.of_N d.
Proof.
  intros Hd. assert (Hc : (d = 0 ∨ d = 1 ∨ d = 2 ∨ d = 3 ∨ d = 4 ∨ d = 5 ∨ d = 6 ∨ d = 7 ∨ d = 8 ∨ d = 9)%N) by lia.
  by repeat destruct Hc as [->|Hc]; [..|subst].
Qed.

Lemma pretty_go_digits x s : ∃ ds, pretty_N_go x s = ds +:+ s ∧ all_digits ds = true ∧ ((0 < x)%N → ds ≠ "") ∧
  decimal 0 ds = Z.of_N x.
Proof.
  revert s. induction (N.lt_wf_0 x) as [x _ IH]. intros s. destruct (decide (x = 0)%N) as [->|Hx].
  - exists "". rewrite pretty_N_go_0. done.
  - rewrite pretty_N_go_step by lia.
    destruct (IH (x `div` 10)%N ltac:(apply N.div_lt; lia) (String (pretty_N_char (x `mod` 10)) s)) as (ds & -> & Hd & _ & Hv).
    destruct (pretty_char_digit (x `mod` 10)) as [Hc Hn]; [by apply N.mod_lt|].
    exists (ds +:+ String (pretty_N_char (x `mod` 10)) ""). split; [|split; [|split]].
    + by rewrite <- (assoc_L String.append).
    + rewrite all_digits_app, Hd. unfold all_digits. simpl. by rewrite Hc.
    + intros _. destruct ds; done.
    + rewrite decimal_app, Hv. simpl. rewrite Hn. pose proof (N.div_mod x 10 ltac:(lia)). lia.
Qed.

(** A positive number as [%d] prints it is read back by [Atoi]. *)
Lemma fmt_d_digits n : 0 < n → all_digits (fmt_d n) = true ∧ fmt_d n ≠ "" ∧ decimal 0 (fmt_d n) = n.
Proof.
  intros Hn. destruct n as [|p|p]; [lia| |lia].
  change (fmt_d (Z.pos p)) with (pretty_N_go (N.pos p) "").
  destruct (pretty_go_digits (N.pos p) "") as (ds & -> & Hd & Hne & Hv). rewrite (right_id_L "" String.append).
  split; [done|]. split; [by apply Hne|]. by rewrite Hv.
Qed.

Lemma Atoi_fmt_d n : 0 < n < 2 ^ 63 → Atoi (fmt_d n) = Some n.
Proof.
  intros Hn. unfold Atoi. destruct (fmt_d_digits n) as (_ & _ & ->); [lia|]. by rewrite (proj2 (Z.ltb_lt n (2 ^ 63))) by lia.
Qed.

Lemma span_digits_app ds t : all_digits ds = true → (∀ c t', t = String c t' → is_digit c = false) →
  span_digits (ds +:+ t) = (ds, t).
Proof.
  unfold all_digits. intros Hd Ht. induction ds as [|c ds IH].
  - change ("" +:+ t) with t. destruct t as [|c t]; [done|]. simpl. by rewrite (Ht c t).
  - simpl in Hd. apply andb_prop in Hd as [Hc Hd]. rewrite string_app_cons. simpl. by rewrite Hc, IH.
Qed.

Lemma span_digits_all ds : all_digits ds = true → span_digits ds = (ds, "").
Proof. intros Hd. rewrite <- (right_id_L "" String.append ds) at 1. by apply span_digits_app. Qed.

(** ** Upper case *)
Definition no_lower (s : string) : bool := forallb (λ c, Ascii.eqb (upper c) c) (String.list_ascii_of_string s).

Lemma upper_upper c : upper (upper c) = upper c.
Proof. by destruct c as [[] [] [] [] [] [] [] []]. Qed.

Lemma string_length_ind (P : string → Prop) :
  (∀ s, (∀ s', (String.length s' < String.length s)%nat → P s') → P s) → ∀ s, P s.
Proof. intros Hs s. induction s as [s IH] using (well_founded_induction (Nat.lt_wf_0_projected String.length)). by apply Hs. Qed.

Lemma ToUpper_cons2 c d s :
  ToUpper (String c (String d s)) =
    if Ascii.eqb c "196" && Ascii.eqb d "177" then String "I" (ToUpper s)
    else if Ascii.eqb c "197" && Ascii.eqb d "191" then String "S" (ToUpper s)
    else String (upper c) (ToUpper (String d s)).
Proof. done. Qed.

(** Induction along the cases of [ToUpper]. *)
Lemma ToUpper_elim (P : string → string → Prop) :
  P "" "" →
  (∀ s, P s (ToUpper s) → P (String "196" (String "177" s)) (String "I" (ToUpper s))) →
  (∀ s, P s (ToUpper s) → P (String "197" (String "191" s)) (String "S" (ToUpper s))) →
  (∀ c s, P s (ToUpper s) → P (String c s) (String (upper c) (ToUpper s))) →
  ∀ s, P s (ToUpper s).
Proof.
  intros H0 H1 H2 H3 s. induction s as [s IH] using string_length_ind. destruct s as [|c [|d s]]; [done|by apply (H3 c "")|].
  rewrite ToUpper_cons2. pose proof (IH s ltac:(simpl; lia)) as IH1. pose proof (IH (String d s) ltac:(simpl; lia)) as IH2.
  destruct (Ascii.eqb c "196" && Ascii.eqb d "177") eqn:E1.
  { apply andb_prop in E1 as [->%Ascii.eqb_eq ->%Ascii.eqb_eq]. by apply H1. }
  destruct (Ascii.eqb c "197" && Ascii.eqb d "191") eqn:E2; [|by apply H3].
  apply andb_prop in E2 as [->%Ascii.eqb_eq ->%Ascii.eqb_eq]. by apply H2.
Qed.

Lemma no_lower_ToUpper s : no_lower (ToUpper s) = true.
Proof.
  apply (ToUpper_elim (λ _ u, no_lower u = true)); [done..|]. intros c s' IH. unfold no_lower in *. simpl.
  by rewrite upper_upper, Ascii.eqb_refl.
Qed.

Lemma ToUpper_app_space s t : ToUpper (s +:+ String " " t) = ToUpper s +:+ ToUpper (String " " t).
Proof.
  induction s as [s IH] using string_length_ind. destruct s as [|c [|d s]]; [done| |].
  - change (String c "" +:+ String " " t) with (String c (String " " t)).
    rewrite ToUpper_cons2, !andb_false_r. done.
  - rewrite !string_app_cons, !ToUpper_cons2.
    pose proof (IH s ltac:(simpl; lia)) as IH1. pose proof (IH (String d s) ltac:(simpl; lia)) as IH2.
    rewrite string_app_cons in IH2. rewrite IH1, IH2. by repeat destruct (_ && _).
Qed.

Lemma no_lower_app s t : no_lower (s +:+ t) = no_lower s && no_lower t.
Proof. unfold no_lower. induction s as [|c s IH]; [done|]. rewrite string_app_cons. simpl. by rewrite IH, andb_assoc. Qed.

Lemma is_digit_upper c : is_digit c = true → upper c = c.
Proof. by destruct c as [[] [] [] [] [] [] [] []]. Qed.
Lemma is_digit_space c : is_digit c = true → re_space c = false.
Proof. by destruct c as [[] [] [] [] [] [] [] []]. Qed.

Lemma ToUpper_digits ds : all_digits ds = true → ToUpper ds = ds.
Proof.
  unfold all_digits. induction ds as [|c [|d ds] IH]; intros Hd; [done| |]; simpl in Hd;
    apply andb_prop in Hd as [Hc Hd].
  - simpl. by rewrite is_digit_upper.
  - assert (E : ToUpper (String c (String d ds)) = String (upper c) (ToUpper (String d ds))).
    { simpl. destruct (Ascii.eqb_spec c "196") as [->|]; [done|]. by destruct (Ascii.eqb_spec c "197") as [->|]. }
    rewrite E, IH by done. by rewrite is_digit_upper.
Qed.

(** A character that is not a letter stays where it is. *)
Lemma ToUpper_keeps (p : ascii → bool) s :
  (∀ c, p c = true → upper c = c ∧ between 0 127 c = true) →
  existsb p (String.list_ascii_of_string s) = true → existsb p (String.list_ascii_of_string (ToUpper s)) = true.
Proof.
  intros Hp. assert (Hno : ∀ c, between 0 127 c = false → p c = false).
  { intros c Hc. destruct (p c) eqn:E; [|done]. apply Hp in E as [_ E]. congruence. }
  apply (ToUpper_elim (λ s u, existsb p (String.list_ascii_of_string s) = true → existsb p (String.list_ascii_of_string u) = true));
    [done|..]; simpl.
  - intros t IH. rewrite !Hno by done. intros Ht. by rewrite IH, orb_true_r.
  - intros t IH. rewrite !Hno by done. intros Ht. by rewrite IH, orb_true_r.
  - intros c t IH [Hc|Ht]%orb_prop; [by rewrite (proj1 (Hp c Hc)), Hc|]. by rewrite IH, orb_true_r.
Qed.

(** ** Suffixes *)
Fixpoint HasSuffix (s p : string) : bool :=
  bool_decide (s = p) || match s with EmptyString => false | String _ s' => HasSuffix s' p end.

(** ** Runes

    The conversion of a text to runes, each as its bytes; a byte that begins no
    character is the replacement character. *)
Definition bad_rune : string := bytes [239; 191; 189]%N.
Definition follows : ascii → bool := between 128 191.
Definition rune2 (a b : ascii) : bool := between 194 223 a && follows b.
Definition rune3 (a b c : ascii) : bool :=
  (between 224 224 a && between 160 191 b || between 237 237 a && between 128 159 b ||
   (between 225 236 a || between 238 239 a) && follows b) && follows c.
Definition rune4 (a b c d : ascii) : bool :=
  (between 240 240 a && between 144 191 b || between 244 244 a && between 128 143 b || between 241 243 a && follows b) &&
  follows c && follows d.
Definition text1 (a : ascii) : string := String a EmptyString.
Definition text2 (a b : ascii) : string := String a (text1 b).
Definition text3 (a b c : ascii) : string := String a (text2 b c).
Definition text4 (a b c d : ascii) : string := String a (text3 b c d).
Fixpoint runes (s : string) : list string :=
  match s with
  | EmptyString => []
  | String a s1 =>
      if between 0 127 a then text1 a :: runes s1
      else
        match s1 with
        | EmptyString => [bad_rune]
        | String b s2 =>
            if rune2 a b then text2 a b :: runes s2
            else
              match s2 with
              | EmptyString => bad_rune :: runes s1
              | String c s3 =>
                  if rune3 a b c then text3 a b c :: runes s3
                  else
                    match s3 with
                    | EmptyString => bad_rune :: runes s1
                    | String d s4 => if rune4 a b c d then text4 a b c d :: runes s4 else bad_rune :: runes s1
                    end
              end
        end
  end.
(** [string(r)] *)
Fixpoint concat_runes (l : list string) : string := match l with [] => "" | r :: l => r +:+ concat_runes l end.

Definition is_rune (r : string) : Prop := ∀ t, runes (r +:+ t) = r :: runes t.
Lemma is_rune_bad : is_rune bad_rune.
Proof. intros t. reflexivity. Qed.
Lemma runes_are_runes s : Forall is_rune (runes s).
Proof.
  induction s as [s IH] using string_length_ind. destruct s as [|a s1]; [constructor|]. cbn [runes].
  assert (∀ r s', (String.length s' < String.length (String a s1))%nat → is_rune r → Forall is_rune (r :: runes s')) as Hcons
    by (intros; constructor; auto).
  destruct (between 0 127 a) eqn:E1.
  { apply Hcons; [simpl; lia|]. intros t. unfold text1. rewrite string_app_cons. cbn [runes]. by rewrite E1. }
  destruct s1 as [|b s2]; [by repeat constructor|]. destruct (rune2 a b) eqn:E2.
  { apply Hcons; [simpl; lia|]. intros t. unfold text2, text1. rewrite !string_app_cons. cbn [runes]. by rewrite E1, E2. }
  destruct s2 as [|c s3]; [apply Hcons; [simpl; lia|apply is_rune_bad]|]. destruct (rune3 a b c) eqn:E3.
  { apply Hcons; [simpl; lia|]. intros t. unfold text3, text2, text1. rewrite !string_app_cons. cbn [runes]. by rewrite E1, E2, E3. }
  destruct s3 as [|d s4]; [apply Hcons; [simpl; lia|apply is_rune_bad]|].
  destruct (rune4 a b c d) eqn:E4; [|apply Hcons; [simpl; lia|apply is_rune_bad]].
  apply Hcons; [simpl; lia|]. intros t. unfold text4, text3, text2, text1. rewrite !string_app_cons. cbn [runes]. by rewrite E1, E2, E3, E4.
Qed.
Lemma runes_concat l : Forall is_rune l → runes (concat_runes l) = l.
Proof. induction 1 as [|r l Hr _ IH]; [done|]. cbn [concat_runes]. by rewrite Hr, IH. Qed.

(** ** Texts with numbers in them

    A text without digits is found in [a ++ ds ++ b], where [ds] are digits,
    when it is in [a] or in [b]. *)
Definition digit_free (s : string) : bool := forallb (λ c, negb (is_digit c)) (String.list_ascii_of_string s).
Lemma prefix_before_digits p a ds b : digit_free p = true → all_digits ds = true → ds ≠ "" →
  String.prefix p (a +:+ ds +:+ b) = String.prefix p a.
Proof.
  unfold digit_free, all_digits. intros Hp Hd Hne. revert a Hp. induction p as [|c p IH]; intros a Hp; [by destruct a, ds, b|].
  cbn in Hp. apply andb_prop in Hp as [Hc Hp]. destruct a as [|d a].
  - destruct ds as [|d ds]; [done|]. cbn in Hd. apply andb_prop in Hd as [Hd _]. rewrite !string_app_cons. change ("" +:+ ?x) with x. simpl.
    destruct (Ascii.ascii_dec c d) as [->|]; [|done]. by rewrite Hd in Hc.
  - rewrite !string_app_cons. simpl. destruct (Ascii.ascii_dec c d); [by apply IH|done].
Qed.
Lemma Contains_digits ds b w : digit_free w = true → w ≠ "" → all_digits ds = true → Contains (ds +:+ b) w = Contains b w.
Proof.
  intros Hw Hne Hd. induction ds as [|d ds IH]; [done|]. rewrite string_app_cons. cbn [Contains]. unfold all_digits in Hd. cbn in Hd.
  apply andb_prop in Hd as [Hd Hds]. rewrite IH by done. destruct w as [|c w]; [done|]. simpl.
  destruct (Ascii.ascii_dec c d) as [->|]; [|done]. unfold digit_free in Hw. cbn in Hw. by rewrite Hd in Hw.
Qed.
Lemma Contains_around a ds b w : digit_free w = true → w ≠ "" → all_digits ds = true → ds ≠ "" →
  Contains (a +:+ ds +:+ b) w = Contains a w || Contains b w.
Proof.
  intros Hw Hne Hd Hds. induction a as [|c a IH].
  - change ("" +:+ ?x) with x. rewrite Contains_digits by done. destruct w; done.
  - rewrite string_app_cons. cbn [Contains]. rewrite IH. rewrite <- string_app_cons, prefix_before_digits by done. by rewrite orb_assoc.
Qed.
Lemma digit_free_app a b : digit_free (a +:+ b) = digit_free a && digit_free b.
Proof. unfold digit_free. induction a as [|c a IH]; [done|]. rewrite string_app_cons. simpl. by rewrite IH, andb_assoc. Qed.
Lemma digits_not_free ds : all_digits ds = true → ds ≠ "" → digit_free ds = false.
Proof.
  intros Hd Hne. destruct ds as [|c ds]; [done|]. unfold all_digits, digit_free in *. cbn in *. by apply andb_prop in Hd as [-> _].
Qed.
Lemma not_digit_free a ds b : all_digits ds = true → ds ≠ "" → digit_free (a +:+ ds +:+ b) = false.
Proof. intros Hd Hne. by rewrite !digit_free_app, (digits_not_free ds), andb_false_r. Qed.
Lemma HasSuffix_after_digits a ds b w : digit_free w = true → all_digits ds = true → ds ≠ "" →
  HasSuffix (a +:+ ds +:+ b) w = HasSuffix b w.
Proof.
  intros Hw Hd Hne. assert (∀ x, digit_free (x +:+ b) = false → bool_decide (x +:+ b = w) = false) as Hx.
  { intros x Hx. apply bool_decide_eq_false. congruence. }
  induction a as [|c a IH].
  - change ("" +:+ ?x) with x. clear Hne. induction ds as [|d ds IH]; [done|]. rewrite string_app_cons. cbn [HasSuffix].
    rewrite <- string_app_cons, Hx by by rewrite digit_free_app, digits_not_free. unfold all_digits in *. cbn in Hd. apply andb_prop in Hd as [_ Hd]. by apply IH.
  - rewrite string_app_cons. cbn [HasSuffix]. rewrite <- string_app_cons, (assoc_L String.append), Hx.
    + exact IH.
    + rewrite <- (assoc_L String.append). by apply not_digit_free.
Qed.
