(* ===== verification/GoTime.v ===== *)
(** * Times as texts

    Go's [time] as the services use it: [Format] and [Parse] with the layouts
    [RFC3339Nano], [RFC3339] and the legacy one of [service/helpers.go], and
    [AddDate] of days.  A time is in nanoseconds since the epoch; a location is
    its offset from UTC in seconds, so that the local zone has one offset (no
    summer time).  Texts compare byte by byte, as SQLite compares them. *)
From Stdlib Require Import Ascii.
From S2P Require Import Prelude Text.

(** ** The calendar

    The Gregorian calendar, by eras of 400 years that start in March. *)
Definition era_days : Z := 146097.
Definition year_start (yoe : Z) : Z := 365 * yoe + yoe / 4 - yoe / 100.
Definition year_of_era (doe : Z) : Z := (doe - doe / 1460 + doe / 36524 - doe / 146096) / 365.
Definition month_start (mp : Z) : Z := (153 * mp + 2) / 5.
Definition date : Type := Z * Z * Z.
Definition civil (days : Z) : date :=
  let z := days + 719468 in
  let doe := z mod era_days in
  let yoe := year_of_era doe in
  let doy := doe - year_start yoe in
  let mp := (5 * doy + 2) / 153 in
  (yoe + z / era_days * 400 + (if mp <? 10 then 0 else 1), if mp <? 10 then mp + 3 else mp - 9, doy - month_start mp + 1).
Definition days_of (year month day : Z) : Z :=
  let y := if month <=? 2 then year - 1 else year in
  let mp := if month <=? 2 then month + 9 else month - 3 in
  y / 400 * era_days + year_start (y mod 400) + month_start mp + day - 1 - 719468.
Definition isLeap (year : Z) : bool := (year mod 4 =? 0) && (negb (year mod 100 =? 0) || (year mod 400 =? 0)).
Definition daysIn (month year : Z) : Z :=
  if month =? 2 then if isLeap year then 29 else 28
  else if (month =? 4) || (month =? 6) || (month =? 9) || (month =? 11) then 30 else 31.

(** ** Writing *)
Definition Day : Z := 86400.
Definition digit (n : Z) : ascii := ascii_of_N (48 + Z.to_N n).
Fixpoint digits (w : nat) (n : Z) : string :=
  match w with O => "" | S w => digits w (n / 10) +:+ String (digit (n mod 10)) "" end.
(** [n] as a fraction of [w] digits without the zeros at its end *)
Fixpoint fraction (w : nat) (n : Z) : string :=
  match w with O => "" | S w' => if n mod 10 =? 0 then fraction w' (n / 10) else digits w n end.

Definition year_text (y : Z) : string :=
  let four (y : Z) := if y <=? 9999 then digits 4 y else fmt_d y in
  if y <? 0 then "-" +:+ four (- y) else four y.
Definition zone_text (offset : Z) : string :=
  if offset =? 0 then "Z"
  else
    let zone := Z.quot offset 60 in
    (if zone <? 0 then "-" else "+") +:+ digits 2 (Z.abs zone / 60) +:+ ":" +:+ digits 2 (Z.abs zone mod 60).
Definition nano_text (ns : Z) : string := if ns =? 0 then "" else "." +:+ fraction 9 ns.
(** The seconds since the epoch on the clock of a zone *)
Definition clock_of (offset t : Z) : Z := t / Second + offset.
Definition date_text (d : date) : string :=
  let '(year, month, day) := d in year_text year +:+ "-" +:+ digits 2 month +:+ "-" +:+ digits 2 day.
Definition time_text (sod : Z) : string :=
  digits 2 (sod / 3600) +:+ ":" +:+ digits 2 (sod / 60 mod 60) +:+ ":" +:+ digits 2 (sod mod 60).
(** [t.Format(time.RFC3339Nano)] *)
Definition Format (offset t : Z) : string :=
  let c := clock_of offset t in
  date_text (civil (c / Day)) +:+ "T" +:+ time_text (c mod Day) +:+ nano_text (t mod Second) +:+ zone_text offset.

(** [t.AddDate(0, 0, n)]: the seconds wrap around. *)
Definition AddDays (n t : Z) : Z := int64 (t / Second + n * Day) * Second + t mod Second.

(** ** Reading

    What is left of the text goes from one part to the next; [None] is an
    error. *)
Definition take_digits (w : nat) (s : string) : option (Z * string) :=
  let ds := String.substring 0 w s in
  if all_digits ds && (String.length ds =? w)%nat then Some (decimal 0 ds, drop_string w s) else None.
(** [getnum(value, false)]: one digit will do. *)
Definition one_or_two (s : string) : option (Z * string) :=
  match take_digits 2 s with Some r => Some r | None => take_digits 1 s end.
Definition literal (c : ascii) (s : string) : option string :=
  match s with String d s => if Ascii.eqb c d then Some s else None | "" => None end.
Definition within (lo hi : Z) (r : option (Z * string)) : option (Z * string) :=
  '(n, s) ← r; if (lo <=? n) && (n <=? hi) then Some (n, s) else None.
(** A fraction of a second, cut to nine digits; it may be missing. *)
Definition take_nano (s : string) : Z * string :=
  match s with
  | String c s' =>
      if Ascii.eqb c "." || Ascii.eqb c "," then
        let '(ds, rest) := span_digits s' in
        if bool_decide (ds = "") then (0, s)
        else
          let ds := String.substring 0 9 ds in
          (decimal 0 ds * 10 ^ (9 - Z.of_nat (String.length ds)), rest)
      else (0, s)
  | "" => (0, s)
  end.
Definition take_zone (s : string) : option (Z * string) :=
  match s with
  | String "Z" s => Some (0, s)
  | String c s =>
      '(hr, s) ← within 0 24 (take_digits 2 s);
      s ← literal ":" s;
      '(mm, s) ← within 0 60 (take_digits 2 s);
      if Ascii.eqb c "+" then Some ((hr * 60 + mm) * 60, s)
      else if Ascii.eqb c "-" then Some (- ((hr * 60 + mm) * 60), s) else None
  | "" => None
  end.
Inductive layout : Type := RFC3339Nano | RFC3339 | LegacyDateTimeFormat.
(** [time.Parse]: the time and the offset of its location.  Seconds may have a
    fraction in every layout. *)
Definition Parse (l : layout) (s : string) : option (Z * Z) :=
  '(year, s) ← take_digits 4 s; s ← literal "-" s;
  '(month, s) ← within 1 12 (take_digits 2 s); s ← literal "-" s;
  '(day, s) ← take_digits 2 s;
  s ← literal (match l with LegacyDateTimeFormat => " " | _ => "T" end) s;
  '(hour, s) ← within 0 23 (one_or_two s); s ← literal ":" s;
  '(minute, s) ← within 0 59 (take_digits 2 s); s ← literal ":" s;
  '(second, s) ← within 0 59 (take_digits 2 s);
  let '(ns, s) := take_nano s in
  '(offset, s) ← match l with LegacyDateTimeFormat => Some (0, s) | _ => take_zone s end;
  if negb (bool_decide (s = "")) then None
  else if (day <? 1) || (daysIn month year <? day) then None
  else Some ((days_of year month day * Day + hour * 3600 + minute * 60 + second - offset) * Second + ns, offset).

(** [parseTimeInLocalTimezone] and, on texts, [parseDateTime]; the zero time is
    [zero]. *)
Definition parseTimeInLocalTimezone (s : string) : option (Z * Z) :=
  match Parse RFC3339Nano s with
  | Some r => Some r
  | None => match Parse RFC3339 s with Some r => Some r | None => Parse LegacyDateTimeFormat s end
  end.
Definition zero : Z := -62135596800 * Second.
Definition parseDateTime (s : string) : Z :=
  if bool_decide (s = "") then zero else match parseTimeInLocalTimezone s with Some (t, _) => t | None => zero end.

Example Format_utc : Format 0 1704067200123000000 = "2024-01-01T00:00:00.123Z".
Proof. vm_compute. reflexivity. Qed.
Example Format_beijing : Format 28800 1704067200000000000 = "2024-01-01T08:00:00+08:00".
Proof. vm_compute. reflexivity. Qed.
Example Parse_lenient : Parse RFC3339 "2024-02-29T8:05:09,5-03:30" = Some (1709206509500000000 + 3600 * 0 * Second, -12600).
Proof. vm_compute. reflexivity. Qed.
Example Parse_no_such_day : Parse LegacyDateTimeFormat "2023-02-29 08:05:09" = None.
Proof. vm_compute. reflexivity. Qed.

#[local] Ltac Zify.zify_post_hook ::= Z.to_euclidean_division_equations.
(** ** The calendar is one *)
Lemma year_of_era_spec doe : 0 ≤ doe < era_days →
  0 ≤ year_of_era doe < 400 ∧ year_start (year_of_era doe) ≤ doe ≤ year_start (year_of_era doe) + 365.
Proof. unfold year_of_era, year_start, era_days. intros H. lia. Qed.
Lemma leap_day doe : 0 ≤ doe < era_days → doe = year_start (year_of_era doe) + 365 →
  let y := year_of_era doe + 1 in y mod 4 = 0 ∧ (y mod 100 ≠ 0 ∨ y = 400).
Proof. unfold year_of_era, year_start, era_days. intros H E. lia. Qed.

Lemma days_civil z : let '(y, m, d) := civil z in days_of y m d = z.
Proof.
  unfold civil, days_of. set (x := z + 719468). assert (0 ≤ x mod era_days < era_days) as Hd by (unfold era_days; lia).
  pose proof (year_of_era_spec _ Hd) as [Hy Hs]. set (yoe := year_of_era _) in *. set (doy := x mod era_days - _).
  assert (0 ≤ doy ≤ 365) as Hdoy by lia. set (mp := (5 * doy + 2) / 153). assert (0 ≤ mp ≤ 11) as Hmp by lia.
  assert (x = x / era_days * era_days + x mod era_days) as Hx by (unfold era_days; lia).
  assert (∀ k, (yoe + k * 400) / 400 = k ∧ (yoe + k * 400) mod 400 = yoe) as Hk by lia.
  destruct (Z.ltb_spec mp 10).
  - replace (mp + 3 <=? 2) with false by lia. rewrite Z.add_0_r. destruct (Hk (x / era_days)) as [-> ->].
    replace (mp + 3 - 3) with mp by lia. lia.
  - replace (mp - 9 <=? 2) with true by lia. replace (yoe + x / era_days * 400 + 1 - 1) with (yoe + x / era_days * 400) by lia.
    destruct (Hk (x / era_days)) as [-> ->]. replace (mp - 9 + 9) with mp by lia. lia.
Qed.

Lemma civil_range z : let '(y, m, d) := civil z in 1 ≤ m ≤ 12 ∧ 1 ≤ d ≤ daysIn m y.
Proof.
  unfold civil. set (x := z + 719468). assert (0 ≤ x mod era_days < era_days) as Hd by (unfold era_days; lia).
  pose proof (year_of_era_spec _ Hd) as [Hy Hs]. pose proof (leap_day _ Hd) as Hl. set (yoe := year_of_era _) in *.
  set (doy := x mod era_days - _). assert (0 ≤ doy ≤ 365) as Hdoy by lia. set (mp := (5 * doy + 2) / 153).
  assert (0 ≤ mp ≤ 11) as Hmp by lia. unfold daysIn, month_start.
  destruct (Z.ltb_spec mp 10).
  - split; [lia|]. split; [lia|]. replace (mp + 3 =? 2) with false by lia. 
    assert (mp = 0 ∨ mp = 1 ∨ mp = 2 ∨ mp = 3 ∨ mp = 4 ∨ mp = 5 ∨ mp = 6 ∨ mp = 7 ∨ mp = 8 ∨ mp = 9) as Hc by lia.
    assert (mp = (5 * doy + 2) / 153) as Emp by done. clearbody mp doy. clear -Emp Hdoy Hc. repeat destruct Hc as [->|Hc]; [..|subst mp]; simpl; lia.
  - split; [lia|]. split; [lia|]. 
    assert (mp = 10 ∨ mp = 11) as [E|E] by lia; rewrite E; simpl; [lia|].
    destruct (decide (doy = 365)) as [E'|E']; [|case_match; lia].
    specialize (Hl ltac:(lia)). simpl in Hl. replace (isLeap _) with true; [lia|]. unfold isLeap.
    lia.
Qed.
(** Later days are later dates. *)
Definition date_before (a b : date) : Prop :=
  let '(y, m, d) := a in let '(y', m', d') := b in y < y' ∨ y = y' ∧ (m < m' ∨ m = m' ∧ d < d').
Lemma civil_mono z z' : z < z' → date_before (civil z) (civil z').
Proof.
  intros Hz. unfold civil, date_before. set (x := z + 719468). set (x' := z' + 719468). assert (x < x') as Hx by lia.
  assert (0 ≤ x mod era_days < era_days) as Hd by (unfold era_days; lia).
  assert (0 ≤ x' mod era_days < era_days) as Hd' by (unfold era_days; lia).
  pose proof (year_of_era_spec _ Hd) as [Hy Hs]. pose proof (year_of_era_spec _ Hd') as [Hy' Hs'].
  assert (x / era_days < x' / era_days ∨ x / era_days = x' / era_days ∧ x mod era_days < x' mod era_days) as Hc
   by (unfold era_days; lia).
  assert (x mod era_days ≤ x' mod era_days → year_of_era (x mod era_days) ≤ year_of_era (x' mod era_days)) as Hm
   by (unfold year_of_era; clear; lia).
  set (yoe := year_of_era _) in *. set (yoe' := year_of_era (x' mod _)) in *.
  set (doy := x mod era_days - _) in *. set (doy' := x' mod era_days - _) in *.
  assert (yoe = yoe' → x / era_days = x' / era_days → doy < doy') as Hdoy by (intros E1 E2; subst doy doy'; rewrite E1; lia).
  assert (doy ≤ doy' → (5 * doy + 2) / 153 ≤ (5 * doy' + 2) / 153) as Hmp' by lia.
  set (mp := (5 * doy + 2) / 153) in *. set (mp' := (5 * doy' + 2) / 153) in *.
  assert (0 ≤ doy ≤ 365 ∧ 0 ≤ doy' ≤ 365) as [Hr Hr'] by lia. assert (0 ≤ mp ≤ 11 ∧ 0 ≤ mp' ≤ 11) as [] by lia.
  assert (yoe + x / era_days * 400 < yoe' + x' / era_days * 400 ∨ yoe + x / era_days * 400 = yoe' + x' / era_days * 400 ∧ doy < doy') as Ho by lia.
  clearbody doy doy' mp mp' yoe yoe'. 
  destruct (decide (mp = mp')) as [<-|]; destruct (Z.ltb_spec mp 10); try destruct (Z.ltb_spec mp' 10); lia.
Qed.

(** ** Digits *)
Lemma digit_spec n : 0 ≤ n < 10 → is_digit (digit n) = true ∧ Z.of_N (N_of_ascii (digit n) - 48) = n ∧ (Z.of_N (N_of_ascii (digit n)) = 48 + n).
Proof.
  intros Hn. assert (n = 0 ∨ n = 1 ∨ n = 2 ∨ n = 3 ∨ n = 4 ∨ n = 5 ∨ n = 6 ∨ n = 7 ∨ n = 8 ∨ n = 9) as Hc by lia.
  repeat destruct Hc as [->|Hc]; [..|subst]; vm_compute; done.
Qed.
Lemma digits_shape w n : String.length (digits w n) = w ∧ all_digits (digits w n) = true.
Proof.
  revert n. induction w as [|w IH]; intros n; simpl; [done|]. destruct (IH (n / 10)) as [Hl Ha].
  rewrite string_length_app, all_digits_app, Hl, Ha. unfold all_digits. cbn. destruct (digit_spec (n mod 10)) as [-> _]; [lia|]. split; [lia|done].
Qed.
Lemma decimal_digits w n : 0 ≤ n < 10 ^ Z.of_nat w → decimal 0 (digits w n) = n.
Proof.
  revert n. induction w as [|w IH]; intros n Hn; [simpl in *; lia|]. cbn [digits]. rewrite decimal_app.
  rewrite Nat2Z.inj_succ, Z.pow_succ_r in Hn by lia. rewrite IH by lia. cbn [decimal].
  destruct (digit_spec (n mod 10)) as (_ & -> & _); lia.
Qed.
Lemma substring_app (a s : string) : String.substring 0 (String.length a) (a +:+ s) = a.
Proof. induction a as [|c a IH]; [by destruct s|]. rewrite string_app_cons. simpl. by rewrite IH. Qed.
Lemma drop_app (a s : string) : drop_string (String.length a) (a +:+ s) = s.
Proof. induction a as [|c a IH]; [by destruct s|]. rewrite string_app_cons. simpl. done. Qed.
Lemma take_digits_of ds w s : String.length ds = w → all_digits ds = true → take_digits w (ds +:+ s) = Some (decimal 0 ds, s).
Proof. intros <- Ha. unfold take_digits. by rewrite substring_app, drop_app, Ha, Nat.eqb_refl. Qed.
Lemma take_digits_app w n s : 0 ≤ n < 10 ^ Z.of_nat w → take_digits w (digits w n +:+ s) = Some (n, s).
Proof. intros Hn. destruct (digits_shape w n). by rewrite take_digits_of, decimal_digits. Qed.
Lemma fraction_spec w n : 0 ≤ n < 10 ^ Z.of_nat w →
  all_digits (fraction w n) = true ∧ (String.length (fraction w n) ≤ w)%nat ∧ (n ≠ 0 → fraction w n ≠ "") ∧
  decimal 0 (fraction w n) * 10 ^ (Z.of_nat w - Z.of_nat (String.length (fraction w n))) = n.
Proof.
  revert n. induction w as [|w IH]; intros n Hn; [simpl in *; split_and!; try done; try lia|]. cbn [fraction].
  destruct (Z.eqb_spec (n mod 10) 0) as [E|E].
  - rewrite Nat2Z.inj_succ, Z.pow_succ_r in Hn by lia. destruct (IH (n / 10)) as (Ha & Hl & Hne & Hv); [lia|]. split_and!; [done|lia| |].
    + intros Hn0. apply Hne. lia.
    + rewrite Nat2Z.inj_succ, Z.sub_succ_l, Z.pow_succ_r by lia. lia.
  - destruct (digits_shape (S w) n) as [Hl Ha]. split_and!; [done|lia| |].
    + intros _ E'. by rewrite E' in Hl.
    + rewrite decimal_digits, Hl, Z.sub_diag by done. lia.
Qed.

(** ** What is written is read back *)
Lemma substring_short s n : (String.length s ≤ n)%nat → String.substring 0 n s = s.
Proof. revert n. induction s as [|c s IH]; intros [|n] Hn; simpl in *; try done; [lia|]. by rewrite IH by lia. Qed.
Lemma zone_start o : ∃ c s, zone_text o = String c s ∧ is_digit c = false ∧ c ≠ "."%char ∧ c ≠ ","%char.
Proof. unfold zone_text. destruct (o =? 0); [by eexists _, _|]. by destruct (Z.quot o 60 <? 0); eexists _, _. Qed.
Lemma take_nano_text ns o : 0 ≤ ns < Second → take_nano (nano_text ns +:+ zone_text o) = (ns, zone_text o).
Proof.
  intros Hns. destruct (zone_start o) as (c & s & Hz & Hc & H1 & H2). unfold nano_text. destruct (Z.eqb_spec ns 0) as [->|Hne].
  - change ("" +:+ zone_text o) with (zone_text o). rewrite Hz. unfold take_nano.
    rewrite (proj2 (Ascii.eqb_neq c ".") H1), (proj2 (Ascii.eqb_neq c ",") H2). done.
  - destruct (fraction_spec 9 ns Hns) as (Ha & Hl & Hn & Hv). rewrite <- (assoc_L String.append), string_app_cons.
    cbn [take_nano]. change ("" +:+ ?x) with x. cbn -[span_digits fraction Z.pow]. rewrite span_digits_app; [|done|rewrite Hz; intros ? ? [= -> _]; done].
    rewrite bool_decide_false by auto. rewrite substring_short by done. change 9 with (Z.of_nat 9). by rewrite Hv.
Qed.
Lemma take_within w lo hi n s : 0 ≤ n < 10 ^ Z.of_nat w → lo ≤ n ≤ hi → within lo hi (take_digits w (digits w n +:+ s)) = Some (n, s).
Proof. intros Hn Hr. rewrite take_digits_app by done. unfold within. simpl. by rewrite (proj2 (Z.leb_le lo n)), (proj2 (Z.leb_le n hi)) by lia. Qed.
Lemma literal_app c s : literal c (String c "" +:+ s) = Some s.
Proof. unfold literal. rewrite string_app_cons. by rewrite Ascii.eqb_refl. Qed.
Lemma hour_within lo hi n s : 0 ≤ n < 100 → lo ≤ n ≤ hi → within lo hi (one_or_two (digits 2 n +:+ s)) = Some (n, s).
Proof.
  intros Hn Hr. unfold one_or_two. rewrite take_digits_app by done. unfold within. simpl.
  by rewrite (proj2 (Z.leb_le lo n)), (proj2 (Z.leb_le n hi)) by lia.
Qed.
#[local] Ltac read_step :=
  first [rewrite literal_app | rewrite hour_within by lia | rewrite take_within by (simpl; lia) | rewrite take_digits_app by (simpl; lia)]; cbn [mbind option_bind].
Definition whole_minutes (o : Z) : Prop := o mod 60 = 0 ∧ -Day < o < Day.
Lemma take_zone_text o : whole_minutes o → take_zone (zone_text o) = Some (o, "").
Proof.
  intros [Hm Hr]. unfold zone_text. destruct (Z.eqb_spec o 0) as [->|Hne]; [done|]. unfold Day in Hr.
  assert (Z.quot o 60 = o / 60 ∧ o = o / 60 * 60) as [-> Ho] by lia. set (z := o / 60) in *. clearbody z.
  assert (0 ≤ Z.abs z / 60 ≤ 23 ∧ 0 ≤ Z.abs z mod 60 ≤ 59) as [] by lia.
  rewrite <- (right_id_L "" String.append (digits 2 (Z.abs z mod 60))).
  destruct (Z.ltb_spec z 0); rewrite string_app_cons; cbn -[take_digits digits within literal]; (change ("" +:+ ?x) with x);
    repeat read_step; simpl; do 2 f_equal; lia.
Qed.
(** The years that have four digits *)
Definition four_digit_year (offset t : Z) : Prop := 0 ≤ (civil (clock_of offset t / Day)).1.1 ≤ 9999.
Lemma Parse_Format offset t : whole_minutes offset → four_digit_year offset t → Parse RFC3339Nano (Format offset t) = Some (t, offset).
Proof.
  intros Ho Hy. unfold Format, four_digit_year in *. set (c := clock_of offset t) in *. pose proof (civil_range (c / Day)) as Hr.
  pose proof (days_civil (c / Day)) as Hd. destruct (civil (c / Day)) as [[y m] d]. cbn [fst] in Hy. destruct Hr as [Hm Hdd].
  assert (d ≤ 31) as Hd31. { unfold daysIn in Hdd. repeat case_match; lia. }
  assert (year_text y = digits 4 y) as Hyt. { unfold year_text. rewrite (proj2 (Z.ltb_ge y 0)), (proj2 (Z.leb_le y 9999)) by lia. done. }
  unfold date_text, time_text. rewrite Hyt, <- !(assoc_L String.append).
  set (sod := c mod Day). assert (0 ≤ sod < 86400) as Hsod by (unfold sod, Day; lia).
  unfold Parse. repeat read_step.
  assert (0 ≤ t mod Second < Second) as Hns by (unfold Second; lia).
  rewrite take_nano_text by done. rewrite take_zone_text by done. cbn [mbind option_bind].
  rewrite bool_decide_true by done. cbn [negb]. replace (_ || _) with false by lia. rewrite Hd. do 3 f_equal.
  assert (t = t / Second * Second + t mod Second ∧ c = t / Second + offset) as [Ht Hc] by (unfold Second, c, clock_of; split; [lia|done]).
  unfold Day in *. assert (c = c / 86400 * 86400 + sod) as Hs by (unfold sod; lia). clearbody sod c. unfold Second in *. lia.
Qed.

(** ** Texts of one zone are in the order of their seconds *)
Definition text_lt (s t : string) : Prop := String.compare s t = Lt.
Lemma text_lt_asym s t : text_lt s t → ¬ text_lt t s.
Proof. unfold text_lt. rewrite String.compare_antisym. by destruct (String.compare t s). Qed.
Lemma text_lt_app a s t : text_lt s t → text_lt (a +:+ s) (a +:+ t).
Proof.
  unfold text_lt. intros Hs. induction a as [|c a IH]; [done|]. rewrite !string_app_cons. simpl. unfold Ascii.compare.
  by rewrite N.compare_refl.
Qed.
Lemma text_lt_prefix a b s t : String.length a = String.length b → text_lt a b → text_lt (a +:+ s) (b +:+ t).
Proof.
  unfold text_lt. revert b. induction a as [|c a IH]; intros [|d b] Hl; try done. rewrite !string_app_cons. simpl in *.
  destruct (Ascii.compare c d); [|done..]. intros Hab. apply IH; [lia|done].
Qed.
Lemma digits_lt w n m : 0 ≤ n < m → m < 10 ^ Z.of_nat w → text_lt (digits w n) (digits w m).
Proof.
  revert n m. induction w as [|w IH]; intros n m Hn Hm; [simpl in *; lia|]. rewrite Nat2Z.inj_succ, Z.pow_succ_r in Hm by lia.
  cbn [digits]. destruct (decide (n / 10 = m / 10)) as [E|E].
  - rewrite E. apply text_lt_app. unfold text_lt. simpl. unfold Ascii.compare.
    destruct (digit_spec (n mod 10)) as (_ & _ & Hc); [lia|]. destruct (digit_spec (m mod 10)) as (_ & _ & Hc'); [lia|].
    rewrite (proj2 (N.compare_lt_iff _ _)); [done|]. lia.
  - apply text_lt_prefix; [by rewrite !(proj1 (digits_shape _ _))|]. apply IH; lia.
Qed.
Lemma text_lt_digits w n m s t : 0 ≤ n → m < 10 ^ Z.of_nat w → n < m ∨ n = m ∧ text_lt s t →
  text_lt (digits w n +:+ s) (digits w m +:+ t).
Proof.
  intros Hn Hm [Hlt|[-> Hs]]; [|by apply text_lt_app].
  apply text_lt_prefix; [by rewrite !(proj1 (digits_shape _ _))|by apply digits_lt].
Qed.
Lemma clock_order a b : 0 ≤ a < b → a / 3600 < b / 3600 ∨
  a / 3600 = b / 3600 ∧ (a / 60 mod 60 < b / 60 mod 60 ∨ a / 60 mod 60 = b / 60 mod 60 ∧ a mod 60 < b mod 60).
Proof.
  intros Hab. change 3600 with (60 * 60). rewrite <- !Z.div_div by done.
  assert (a / 60 < b / 60 ∨ a / 60 = b / 60 ∧ a mod 60 < b mod 60) as [H|[-> H]] by lia; [|tauto].
  revert H. generalize (a / 60) (b / 60). clear. intros q q' Hq. lia.
Qed.
Lemma day_order c c' : c < c' → (c / Day < c' / Day ∨ c / Day = c' / Day ∧ c mod Day < c' mod Day) ∧
  0 ≤ c mod Day < 86400 ∧ 0 ≤ c' mod Day < 86400.
Proof. unfold Day. lia. Qed.
Lemma Format_lt offset t u : four_digit_year offset t → four_digit_year offset u → t / Second < u / Second →
  text_lt (Format offset t) (Format offset u).
Proof.
  intros Ht Hu Hlt. unfold Format, four_digit_year in *. assert (clock_of offset t < clock_of offset u) as Hc by (unfold clock_of; lia).
  set (c := clock_of offset t) in *. set (c' := clock_of offset u) in *.
  pose proof (civil_mono (c / Day) (c' / Day)) as Hmono. pose proof (civil_range (c / Day)) as Hr. pose proof (civil_range (c' / Day)) as Hr'.
  destruct (day_order c c' Hc) as (Hcase & Hs & Hs'). clearbody c c'. clear Hlt Hc.
  set (sod := c mod Day) in *. set (sod' := c' mod Day) in *.
  destruct Hcase as [Hday|[Hday Hsod]].
  - specialize (Hmono Hday). destruct (civil (c / Day)) as [[y m] d], (civil (c' / Day)) as [[y' m'] d']. cbn [fst] in *.
    assert (d ≤ 31 ∧ d' ≤ 31) as []. { unfold daysIn in *. repeat case_match; lia. }
    unfold date_text, year_text. rewrite (proj2 (Z.ltb_ge y 0)), (proj2 (Z.ltb_ge y' 0)), (proj2 (Z.leb_le y 9999)), (proj2 (Z.leb_le y' 9999)) by lia.
    rewrite <- !(assoc_L String.append). unfold date_before in Hmono.
    apply text_lt_digits; [lia|simpl; lia|]. destruct Hmono as [?|[-> Hmono]]; [by left|right]. split; [done|]. apply text_lt_app.
    apply text_lt_digits; [lia|simpl; lia|]. destruct Hmono as [?|[-> Hmono]]; [by left|right]. split; [done|]. apply text_lt_app.
    apply text_lt_digits; [lia|simpl; lia|]. by left.
  - rewrite Hday. apply text_lt_app, text_lt_app. unfold time_text. rewrite <- !(assoc_L String.append). clear Hmono. clearbody sod sod'.
    pose proof (clock_order sod sod' ltac:(lia)) as Ho.
    apply text_lt_digits; [lia|simpl; lia|]. destruct Ho as [?|[E Ho]]; [by left|right]. split; [done|]. apply text_lt_app.
    apply text_lt_digits; [lia|simpl; lia|]. destruct Ho as [?|[E' Ho]]; [by left|right]. split; [done|]. apply text_lt_app.
    apply text_lt_digits; [lia|simpl; lia|]. by left.
Qed.

Lemma four_digit_year_between offset t u v : four_digit_year offset t → four_digit_year offset v → t ≤ u ≤ v → four_digit_year offset u.
Proof.
  unfold four_digit_year. intros Ht Hv Hu.
  assert (∀ a b, a ≤ b → (civil (clock_of offset a / Day)).1.1 ≤ (civil (clock_of offset b / Day)).1.1) as Hmono.
  { intros a b Hab. assert (clock_of offset a / Day ≤ clock_of offset b / Day) as Hd by (unfold clock_of, Day, Second; lia).
    apply Z.le_lteq in Hd as [Hd| -> ]; [|done]. pose proof (civil_mono _ _ Hd) as Hm. unfold date_before in Hm.
    destruct (civil (clock_of offset a / Day)) as [[y m] d], (civil (clock_of offset b / Day)) as [[y' m'] d']. simpl. lia. }
  pose proof (Hmono t u). pose proof (Hmono u v). lia.
Qed.

(** The times of the clock, and some before the epoch, have such years. *)
Lemma four_digit_year_now offset t : whole_minutes offset → - 2 ^ 62 ≤ t < 2 ^ 63 → four_digit_year offset t.
Proof.
  intros [_ Ho] Ht. unfold four_digit_year. set (d := clock_of offset t / Day).
  assert (-60000 < d < 110000) as Hd. { unfold d, clock_of, Day, Second in *. lia. }
  pose proof (civil_mono (-60000) d ltac:(lia)) as H1. pose proof (civil_mono d 110000 ltac:(lia)) as H2.
  destruct (civil d) as [[y m] dd]. cbn [fst]. vm_compute (civil (-60000)) in H1. vm_compute (civil 110000) in H2. simpl in H1, H2. lia.
Qed.

(** What the order of the texts says of the times, to the second. *)
Lemma text_before offset t u : whole_minutes offset → - 2 ^ 62 ≤ t < 2 ^ 63 → - 2 ^ 62 ≤ u < 2 ^ 63 →
  if String.ltb (Format offset t) (Format offset u) then t < u + Second else u - Second < t.
Proof.
  intros Ho Ht Hu. pose proof (four_digit_year_now offset t Ho Ht) as Hyt. pose proof (four_digit_year_now offset u Ho Hu) as Hyu.
  unfold String.ltb. destruct (String.compare (Format offset t) (Format offset u)) eqn:E.
  - destruct (Z.le_gt_cases (u / Second) (t / Second)) as [Hle|Hlt]; [unfold Second in *; lia|].
    pose proof (Format_lt _ _ _ Hyt Hyu Hlt) as Hl. unfold text_lt in Hl. congruence.
  - destruct (Z.le_gt_cases (t / Second) (u / Second)) as [Hle|Hlt]; [unfold Second in *; lia|].
    by destruct (text_lt_asym _ _ E (Format_lt _ _ _ Hyu Hyt ltac:(lia))).
  - destruct (Z.le_gt_cases (u / Second) (t / Second)) as [Hle|Hlt]; [unfold Second in *; lia|].
    pose proof (Format_lt _ _ _ Hyt Hyu Hlt) as Hl. unfold text_lt in Hl. congruence.
Qed.
Lemma AddDays_small n t : - 2 ^ 62 ≤ t < 2 ^ 63 → - 2 ^ 40 < n < 2 ^ 40 → AddDays n t = t + n * Day * Second.
Proof. intros Ht Hn. unfold AddDays. rewrite int64_small; unfold Day, Second in *; lia. Qed.

(** C31: a time written in any zone of whole minutes, in a year of four digits,
    is read back exactly, with the zone, by every reader of the services; two
    times written in one zone are in the order of their texts when they are
    in different seconds. *)
Theorem written_times_are_read offset t : whole_minutes offset → four_digit_year offset t →
  parseDateTime (Format offset t) = t ∧ parseTimeInLocalTimezone (Format offset t) = Some (t, offset) ∧
  ∀ u, four_digit_year offset u → t / Second < u / Second →
    String.ltb (Format offset t) (Format offset u) = true ∧ String.leb (Format offset u) (Format offset t) = false.
Proof.
  intros Ho Ht. assert (parseTimeInLocalTimezone (Format offset t) = Some (t, offset)) as Hp.
  { unfold parseTimeInLocalTimezone. by rewrite Parse_Format. }
  split_and!; [|done|].
  - unfold parseDateTime. rewrite Hp. case_bool_decide as E; [|done]. by rewrite E in Hp.
  - intros u Hu Hlt. pose proof (Format_lt offset t u Ht Hu Hlt) as Hl. pose proof (text_lt_asym _ _ Hl) as Ha.
    unfold String.ltb, String.leb, text_lt in *. rewrite Hl. split; [done|]. rewrite String.compare_antisym, Hl. done.
Qed.
Lemma written_times_are_read_witness :
  parseDateTime (Format 28800 1704067200123000000) = 1704067200123000000 ∧
  String.ltb (Format 28800 1704067200123000000) (Format 28800 1704067201000000000) = true.
Proof.
  assert (four_digit_year 28800 1704067200123000000) as H1 by (by vm_compute).
  assert (four_digit_year 28800 1704067201000000000) as H2 by (by vm_compute).
  assert (1704067200123000000 / Second < 1704067201000000000 / Second) as H3 by (by vm_compute).
  assert (whole_minutes 28800) as H4 by (by vm_compute).
  pose proof (written_times_are_read 28800 1704067200123000000 H4 H1) as (H & _ & Ho).
  pose proof (Ho 1704067201000000000 H2 H3) as [Hl _].
  split; [exact H|]. 
  exact Hl.
Defined.

(** Within a second the texts of UTC are in another order than the times: the
    zeros at the end of a fraction are left out, and "Z" comes after digits. *)
Lemma order_within_a_second : String.ltb (Format 0 1704067200500000000) (Format 0 1704067200000000000) = true.
Proof. vm_compute. reflexivity. Qed.
(** A text without a zone is taken as UTC, whatever the local zone is. *)
Lemma legacy_text_is_utc : parseTimeInLocalTimezone "2024-01-01 08:00:00" = Some (1704096000000000000, 0).
Proof. vm_compute. reflexivity. Qed.
(** Taking very many days away comes out after today: the seconds wrap around. *)
Lemma many_days_ago_is_tomorrow : AddDays (- (2 ^ 63 - 1)) 1704067200000000000 = 1704067200000000000 + Day * Second.
Proof. vm_compute. reflexivity. Qed.
