(* ===== verification/SystemConfig.v ===== *)
(** * System configuration

    [src/scheduler/internal/system_config/service.go] and its handlers
    [src/scheduler/internal/handler/system_config.go]: named settings in a
    table, a copy of them in each node, and observers that are told of changes.
    In Go a map is shared, not copied: [cache] says whether the node's map is
    one of its own or the package's map of defaults itself.  The queue of
    changes and the goroutines that tell the observers are part of the state
    and run as steps; the two statements of [Set] are sent as one call.  Labels
    and units are left out of the metadata. *)
From Stdlib Require Import Ascii.
From S2P Require Import Prelude Sql Text.

Inductive config_type : Type := CBoolean | CNumber | CText.
Record ConfigMeta : Type := mkMeta {
  m_Key : string; Type_ : config_type; DefaultValue : string; MinValue : option Z; MaxValue : option Z;
}.
#[export] Instance config_type_eq_dec : EqDecision config_type.
Proof. solve_decision. Defined.
#[export] Instance ConfigMeta_eq_dec : EqDecision ConfigMeta.
Proof. solve_decision. Defined.
Definition builtin_values : list (string * string) :=
  [("datasource.default_limit", "1000");
   ("datasource.max_export_rows", "1000");
   ("datasource.cache_ttl", "300");
   ("datasource.cache_max_size", "100");
   ("datasource.query_timeout", "60");
   ("datasource.max_concurrent_per_user", "5");
   ("datasource.max_concurrent_global", "50");
   ("datasource.max_concurrent_per_datasource", "10");
   ("datasource.allow_write_sql", "false");
   ("datasource.history_retention_days", "30");
   ("datasource.connection_max_idle", "2");
   ("datasource.connection_max_open", "5");
   ("datasource.connection_max_lifetime", "1800");
   ("datasource.max_sql_length", "65536");
   ("datasource.max_cell_size", "65536");
   ("datasource.health_check_interval", "300");
   ("datasource.test_timeout", "10");
   ("datasource.metadata_timeout", "60");
   ("web.enabled", "false");
   ("api_test.allow_private_network", "false");
   ("audit_log.retention_days", "90");
   ("wecom.robot_url", "https://qyapi.weixin.qq.com/cgi-bin/webhook/send");
   ("wecom.app_msg_url", "https://qyapi.weixin.qq.com/cgi-bin/app/send");
   ("wecom.ewechat_url", "https://qyapi.weixin.qq.com/cgi-bin/app/send")].
Definition configMetaList : list ConfigMeta :=
  [mkMeta "web.enabled" CBoolean "false" None None;
   mkMeta "api_test.allow_private_network" CBoolean "false" None None;
   mkMeta "audit_log.retention_days" CNumber "90" (Some 1) (Some 3650);
   mkMeta "wecom.robot_url" CText "https://qyapi.weixin.qq.com/cgi-bin/webhook/send" None None;
   mkMeta "wecom.app_msg_url" CText "https://qyapi.weixin.qq.com/cgi-bin/app/send" None None;
   mkMeta "wecom.ewechat_url" CText "https://qyapi.weixin.qq.com/cgi-bin/app/send" None None;
   mkMeta "datasource.default_limit" CNumber "1000" (Some 1) (Some 100000);
   mkMeta "datasource.max_export_rows" CNumber "1000" (Some 1) (Some 1000000);
   mkMeta "datasource.query_timeout" CNumber "60" (Some 1) (Some 3600);
   mkMeta "datasource.max_sql_length" CNumber "65536" (Some 1024) (Some 1048576);
   mkMeta "datasource.max_cell_size" CNumber "65536" (Some 1024) (Some 10485760);
   mkMeta "datasource.max_concurrent_per_user" CNumber "5" (Some 1) (Some 50);
   mkMeta "datasource.max_concurrent_global" CNumber "50" (Some 1) (Some 500);
   mkMeta "datasource.max_concurrent_per_datasource" CNumber "10" (Some 1) (Some 100);
   mkMeta "datasource.allow_write_sql" CBoolean "false" None None;
   mkMeta "datasource.cache_ttl" CNumber "300" (Some 0) (Some 86400);
   mkMeta "datasource.cache_max_size" CNumber "100" (Some 1) (Some 10000);
   mkMeta "datasource.connection_max_idle" CNumber "2" (Some 1) (Some 100);
   mkMeta "datasource.connection_max_open" CNumber "5" (Some 1) (Some 200);
   mkMeta "datasource.connection_max_lifetime" CNumber "1800" (Some 60) (Some 86400);
   mkMeta "datasource.health_check_interval" CNumber "300" (Some 30) (Some 3600);
   mkMeta "datasource.test_timeout" CNumber "10" (Some 1) (Some 120);
   mkMeta "datasource.metadata_timeout" CNumber "60" (Some 5) (Some 300);
   mkMeta "datasource.history_retention_days" CNumber "30" (Some 1) (Some 365)].

Record ConfigHistory : Type := mkConfigHistory { ch_key : string; ch_old : string; ch_new : string; ch_by : Z }.

(** The rows of [bdopsflow_system_config] by their key; the node's maps, the
    queue [changeCh], the goroutines telling an observer ([telling]) and what
    the observers were told, latest first. *)
Record conf : Type := mkConf {
  config_rows : gmap string string; config_history : list ConfigHistory;
  defaultConfigValues : gmap string string; cache : option (gmap string string);
  observers : list Z; changeCh : list (string * string); closed : bool;
  telling : list (Z * string * string); told : list (Z * string * string);
}.
Definition map_of (c : conf) : gmap string string := default (defaultConfigValues c) (cache c).

Definition set_table (rows : gmap string string) (h : list ConfigHistory) (c : conf) : conf :=
  mkConf rows h (defaultConfigValues c) (cache c) (observers c) (changeCh c) (closed c) (telling c) (told c).
Definition set_cache (m : option (gmap string string)) (c : conf) : conf :=
  mkConf (config_rows c) (config_history c) (defaultConfigValues c) m (observers c) (changeCh c) (closed c) (telling c) (told c).
Definition set_defaults (m : gmap string string) (c : conf) : conf :=
  mkConf (config_rows c) (config_history c) m (cache c) (observers c) (changeCh c) (closed c) (telling c) (told c).
Definition set_observers (l : list Z) (c : conf) : conf :=
  mkConf (config_rows c) (config_history c) (defaultConfigValues c) (cache c) l (changeCh c) (closed c) (telling c) (told c).
Definition set_queue (q : list (string * string)) (c : conf) : conf :=
  mkConf (config_rows c) (config_history c) (defaultConfigValues c) (cache c) (observers c) q (closed c) (telling c) (told c).
Definition set_closed (c : conf) : conf :=
  mkConf (config_rows c) (config_history c) (defaultConfigValues c) (cache c) (observers c) (changeCh c) true (telling c) (told c).
Definition set_telling (l t : list (Z * string * string)) (c : conf) : conf :=
  mkConf (config_rows c) (config_history c) (defaultConfigValues c) (cache c) (observers c) (changeCh c) (closed c) l t.

Inductive config_error : Type :=
| InvalidConfigValue (key : string) (why : string)
| ErrQuery
| ErrUpsert.
#[export] Instance config_error_eq_dec : EqDecision config_error.
Proof. solve_decision. Defined.

(** ** Reading *)

(** [strconv.Atoi]; [None] is an error. *)
Definition signed_Atoi (s : string) : option Z := let '(n, ok) := ParseInt s in if (ok : bool) then Some n else None.

Definition lookup_setting (c : conf) (key : string) : string :=
  match map_of c !! key with
  | Some v => v
  | None => match defaultConfigValues c !! key with Some v => v | None => "" end
  end.
Definition Get (key : string) : M conf string := gets (λ c, lookup_setting c key).
Definition GetInt (key : string) : M conf Z := v ← Get key; mret (default 0 (signed_Atoi v)).
Definition GetBool (key : string) : M conf bool := v ← Get key; mret (bool_decide (v = "true") || bool_decide (v = "1")).
Definition GetAll : M conf (gmap string string) := gets map_of.
Definition GetAllWithMeta : M conf (list (ConfigMeta * string)) :=
  gets (λ c, (λ m, (m, default (DefaultValue m) (map_of c !! m_Key m))) <$> configMetaList).

(** ** Writing *)
Definition meta_of (key : string) : option ConfigMeta := head (where_ (λ m, bool_decide (m_Key m = key)) configMetaList).
Definition validateConfigValue (key value : string) : result config_error unit :=
  match meta_of key with
  | None => Err (InvalidConfigValue key "unknown config key")
  | Some meta =>
      match Type_ meta with
      | CBoolean => if negb (bool_decide (value = "true")) && negb (bool_decide (value = "false"))
                    then Err (InvalidConfigValue key "must be true or false") else Ok tt
      | CNumber =>
          match signed_Atoi value with
          | None => Err (InvalidConfigValue key "must be integer")
          | Some n =>
              if match MinValue meta with Some lo => n <? lo | None => false end
              then Err (InvalidConfigValue key ("must be >= " +:+ fmt_d (default 0 (MinValue meta))))
              else if match MaxValue meta with Some hi => hi <? n | None => false end
              then Err (InvalidConfigValue key ("must be <= " +:+ fmt_d (default 0 (MaxValue meta))))
              else Ok tt
          end
      | CText => if bool_decide (value = "") then Err (InvalidConfigValue key "must not be empty") else Ok tt
      end
  end.

Definition capacity : nat := 100.
(** The [select] that ends [Set]: a full queue is given up after two seconds; after
    [Close] either branch may be taken, which [stopped] says. *)
Definition enqueue (stopped : bool) (key value : string) (c : conf) : conf :=
  if negb (Nat.ltb (length (changeCh c)) capacity) || closed c && stopped then c
  else set_queue (changeCh c ++ [(key, value)]) c.
(** [s.cache[key] = value] writes the map of defaults when that is the map. *)
Definition store_setting (key value : string) (c : conf) : conf :=
  match cache c with
  | Some m => set_cache (Some (<[key := value]> m)) c
  | None => set_defaults (<[key := value]> (defaultConfigValues c)) c
  end.
Definition upsert (key oldValue value : string) (changedBy : Z) (c : conf) : conf :=
  set_table (<[key := value]> (config_rows c)) (mkConfigHistory key oldValue value changedBy :: config_history c) c.

Definition Set_ (key value : string) (changedBy : Z) (stopped : bool) : M conf (result config_error unit) :=
  match validateConfigValue key value with
  | Err e => mret (Err e)
  | Ok _ =>
      oldValue ← Get key;
      r ← exec (upsert key oldValue value changedBy);
      match r with
      | None => mret (Err ErrUpsert)
      | Some _ => _ ← modify (store_setting key value); _ ← modify (enqueue stopped key value); mret (Ok tt)
      end
  end.

(** [Reload]: the query, and the swap of the map. *)
Definition reload_query : M conf (option (gmap string string)) := query config_rows.
Definition reload_install (rows : gmap string string) (c : conf) : conf := set_cache (Some (rows ∪ defaultConfigValues c)) c.
Definition Reload : M conf (result config_error unit) :=
  r ← reload_query;
  match r with
  | None => mret (Err ErrQuery)
  | Some rows => _ ← modify (reload_install rows); mret (Ok tt)
  end.

(** [NewService] on the tables of [c]. *)
Definition NewService : M conf unit :=
  _ ← modify (set_cache (Some ∅));
  r ← Reload;
  match r with Ok _ => mret tt | Err _ => modify (set_cache None) end.

(** ** Observers *)
Definition RegisterObserver (o : Z) (c : conf) : conf := if in_list o (observers c) then c else set_observers (observers c ++ [o]) c.
Definition UnregisterObserver (o : Z) (c : conf) : conf := set_observers (where_ (λ x, negb (x =? o)) (observers c)) c.
(** [notifyObservers] starts a goroutine for each observer; [processChanges]
    takes the next change. *)
Definition notifyObservers (key value : string) (c : conf) : conf :=
  set_telling (telling c ++ ((λ o, (o, key, value)) <$> observers c)) (told c) c.
Definition processChanges (c : conf) : conf :=
  match changeCh c with
  | [] => c
  | (key, value) :: rest => notifyObservers key value (set_queue rest c)
  end.
(** The goroutines run in any order. *)
Definition tell (i : nat) (c : conf) : conf :=
  match telling c !! i with
  | Some t => set_telling (take i (telling c) ++ drop (S i) (telling c)) (t :: told c) c
  | None => c
  end.
Definition Close (c : conf) : conf := set_closed c.

(** ** Handlers *)
Inductive config_reply (A : Type) : Type :=
| ConfigBadRequest (message : string) | ConfigServerError (message : string) | ConfigSuccess (a : A).
Arguments ConfigBadRequest {A}.
Arguments ConfigServerError {A}.
Arguments ConfigSuccess {A}.
Definition error_text (e : config_error) : string :=
  match e with
  | InvalidConfigValue key why => "invalid value for " +:+ key +:+ ": " +:+ why
  | ErrQuery => "failed to query config"
  | ErrUpsert => "failed to upsert config"
  end.
Definition h_List : M conf (config_reply (list (ConfigMeta * string))) := l ← GetAllWithMeta; mret (ConfigSuccess l).
(** [value]: [None] when the body is not readable; an empty one is refused by
    the binding. *)
Definition h_Update (key : string) (value : option string) (userID : Z) (stopped : bool) : M conf (config_reply unit) :=
  if bool_decide (key = "") then mret (ConfigBadRequest "config key is required")
  else
    match value with
    | None | Some "" => mret (ConfigBadRequest "")
    | Some value =>
        r ← Set_ key value userID stopped;
        mret match r with
             | Ok _ => ConfigSuccess tt
             | Err (InvalidConfigValue _ _ as e) => ConfigBadRequest (error_text e)
             | Err e => ConfigServerError ("更新配置失败: " +:+ error_text e)
             end
    end.
Definition h_Reload : M conf (config_reply unit) :=
  r ← Reload;
  mret match r with Ok _ => ConfigSuccess tt | Err e => ConfigServerError ("配置重载失败: " +:+ error_text e) end.

(** ** Settings stay in range *)
Definition valid (key value : string) : Prop := validateConfigValue key value = Ok tt.
Definition valid_map (m : gmap string string) : Prop := map_Forall valid m.
Definition builtin_map : gmap string string := list_to_map builtin_values.

(** What a valid text is, by the type of its setting. *)
Lemma valid_number m value : meta_of (m_Key m) = Some m → Type_ m = CNumber → valid (m_Key m) value →
  ∃ n, signed_Atoi value = Some n ∧ (∀ lo, MinValue m = Some lo → lo ≤ n) ∧ (∀ hi, MaxValue m = Some hi → n ≤ hi).
Proof.
  intros Hm Ht. unfold valid, validateConfigValue. rewrite Hm, Ht. destruct (signed_Atoi value) as [n|]; [|done].
  intros Hv. exists n. split; [done|]. split.
  - intros lo Hlo. rewrite Hlo in Hv. destruct (Z.ltb_spec n lo); [done|lia].
  - intros hi Hhi. rewrite Hhi in Hv. destruct (match MinValue m with Some lo => n <? lo | None => false end); [done|].
    destruct (Z.ltb_spec hi n); [done|lia].
Qed.
Lemma valid_boolean m value : meta_of (m_Key m) = Some m → Type_ m = CBoolean → valid (m_Key m) value → value = "true" ∨ value = "false".
Proof.
  intros Hm Ht. unfold valid, validateConfigValue. rewrite Hm, Ht. do 2 case_bool_decide; by auto.
Qed.

(** The two tables of the source say the same: every setting has a built-in
    value, which is the one of its metadata and is accepted. *)
Definition tables_agree : bool :=
  bool_decide (NoDup (m_Key <$> configMetaList)) && bool_decide (NoDup builtin_values.*1) &&
  forallb (λ m, bool_decide (builtin_map !! m_Key m = Some (DefaultValue m))) configMetaList &&
  forallb (λ '(k, v), bool_decide (validateConfigValue k v = Ok tt)) builtin_values.
Lemma tables_agree_true : tables_agree = true.
Proof. vm_compute. reflexivity. Qed.

Lemma tables_facts :
  NoDup (m_Key <$> configMetaList) ∧ valid_map builtin_map ∧
  (∀ m, m ∈ configMetaList → builtin_map !! m_Key m = Some (DefaultValue m)).
Proof.
  pose proof tables_agree_true as Ht. unfold tables_agree in Ht.
  apply andb_true_iff in Ht as [Ht H4]. apply andb_true_iff in Ht as [Ht H3]. apply andb_true_iff in Ht as [H1 H2].
  apply bool_decide_eq_true in H1, H2. rewrite forallb_forall in H3, H4. split_and!; [done| |].
  - intros k v Hkv. apply elem_of_list_to_map_2 in Hkv. specialize (H4 (k, v) ltac:(by apply list_elem_of_In)).
    by apply bool_decide_eq_true in H4.
  - intros m Hm. specialize (H3 m ltac:(by apply list_elem_of_In)). by apply bool_decide_eq_true in H3.
Qed.
Lemma meta_of_own m : m ∈ configMetaList → meta_of (m_Key m) = Some m.
Proof.
  destruct tables_facts as (Hn & _ & _). unfold meta_of. revert Hn. generalize configMetaList as l.
  induction l as [|x l IH]; intros Hn Hm; [by apply elem_of_nil in Hm|]. cbn [fmap list_fmap] in Hn. apply NoDup_cons in Hn as [Hx Hn].
  unfold where_. destruct (decide (m_Key x = m_Key m)) as [E|E].
  - rewrite filter_cons_True by by apply bool_decide_true. apply elem_of_cons in Hm as [->|Hm]; [done|].
    exfalso. apply Hx. rewrite E. by apply list_elem_of_fmap_2.
  - rewrite filter_cons_False by by rewrite bool_decide_false. apply elem_of_cons in Hm as [->|Hm]; [done|by apply IH].
Qed.

(** The steps of a node: its own operations, and what other nodes write to the
    table, which they do with [Set_] and maps of their own.  A reload may
    overlap other operations: [reads] are the tables that queries of reloads
    have returned so far, and [conf_swap] installs one of them, however old. *)
Inductive conf_step : conf * list (gmap string string) → conf * list (gmap string string) → Prop :=
| conf_set c reads key value by_ stopped fs : conf_step (c, reads) ((Set_ key value by_ stopped c fs).2.1, reads)
| conf_reload c reads fs : conf_step (c, reads) ((Reload c fs).2.1, reads)
| conf_read c reads rows fs :
    (reload_query c fs).1 = Some rows → conf_step (c, reads) ((reload_query c fs).2.1, rows :: reads)
| conf_swap c reads rows : rows ∈ reads → conf_step (c, reads) (reload_install rows c, reads)
| conf_other c reads other key value by_ stopped fs :
    config_rows other = config_rows c → config_history other = config_history c →
    let other' := (Set_ key value by_ stopped other fs).2.1 in
    conf_step (c, reads) (set_table (config_rows other') (config_history other') c, reads)
| conf_register c reads o : conf_step (c, reads) (RegisterObserver o c, reads)
| conf_unregister c reads o : conf_step (c, reads) (UnregisterObserver o c, reads)
| conf_process c reads : conf_step (c, reads) (processChanges c, reads)
| conf_tell c reads i : conf_step (c, reads) (tell i c, reads)
| conf_close c reads : conf_step (c, reads) (Close c, reads).
Definition empty_conf (rows : gmap string string) : conf := mkConf rows [] builtin_map None [] [] false [] [].

(** The table a node starts on holds values the service accepts, as the one
    [src/deploy/schema.sql] creates does. *)
Inductive conf_run : conf * list (gmap string string) → Prop :=
| conf_start rows fs : valid_map rows → conf_run ((NewService (empty_conf rows) fs).2.1, [])
| conf_next s s' : conf_run s → conf_step s s' → conf_run s'.
Definition conf_reachable (c : conf) : Prop := ∃ reads, conf_run (c, reads).

Record conf_ok (c : conf) : Prop := {
  co_rows : valid_map (config_rows c);
  co_defaults : valid_map (defaultConfigValues c);
  co_present : ∀ m, m ∈ configMetaList → is_Some (defaultConfigValues c !! m_Key m);
  co_cache : ∀ m, cache c = Some m → valid_map m;
  co_queue : Forall (λ '(k, v), valid k v) (changeCh c);
  co_telling : Forall (λ '(_, k, v), valid k v) (telling c);
  co_told : Forall (λ '(_, k, v), valid k v) (told c);
}.

Lemma conf_ok_store key value c : valid key value → conf_ok c → conf_ok (store_setting key value c).
Proof.
  intros Hv [Hr Hd Hp Hc Hq Ht Hs]. unfold store_setting. destruct (cache c) as [m|] eqn:E.
  - split; try done. intros m' [= <-]. apply map_Forall_insert_2; [done|by apply Hc].
  - split; simpl; try done; [by apply map_Forall_insert_2| |by rewrite E].
    intros m Hm. destruct (decide (key = m_Key m)) as [->|Hne]; [by rewrite lookup_insert_eq|]. rewrite lookup_insert_ne by done. by apply Hp.
Qed.
Lemma conf_ok_enqueue stopped key value c : valid key value → conf_ok c → conf_ok (enqueue stopped key value c).
Proof.
  intros Hv [Hr Hd Hp Hc Hq Ht Hs]. unfold enqueue. case_match; [by split|]. split; try done. simpl.
  apply Forall_app. split; [done|]. by constructor.
Qed.
Lemma conf_ok_install rows c : valid_map rows → conf_ok c → conf_ok (reload_install rows c).
Proof.
  intros Hv [Hr Hd Hp Hc Hq Ht Hs]. split; try done. intros m [= <-]. by apply map_Forall_union_2.
Qed.
Lemma conf_ok_upsert key old value by_ c : valid key value → conf_ok c → conf_ok (upsert key old value by_ c).
Proof. intros Hv [Hr Hd Hp Hc Hq Ht Hs]. split; try done. by apply map_Forall_insert_2. Qed.

Lemma conf_ok_Set key value by_ stopped : preserves conf_ok (Set_ key value by_ stopped).
Proof.
  unfold Set_. destruct (validateConfigValue key value) as [[]|e] eqn:Ev; [|apply preserves_ret]. unfold Get, exec.
  repeat first [preserves_step | apply preserves_gets].
  - apply preserves_call. intros c. by apply conf_ok_upsert.
  - apply preserves_modify. intros c. by apply conf_ok_store.
  - apply preserves_modify. intros c. by apply conf_ok_enqueue.
Qed.
Lemma conf_ok_Reload : preserves conf_ok Reload.
Proof.
  intros c fs Hc. unfold Reload, reload_query, query. rewrite run_bind. unfold call.
  destruct fs as [|[] fs]; try done; by apply conf_ok_install; [apply Hc|].
Qed.

(** What [Set_] makes of the table. *)
Lemma Set_rows key value by_ stopped c fs :
  valid_map (config_rows c) → valid_map (config_rows (Set_ key value by_ stopped c fs).2.1).
Proof.
  assert (preserves (λ c, valid_map (config_rows c)) (Set_ key value by_ stopped)) as Hp; [|apply Hp].
  unfold Set_. destruct (validateConfigValue key value) as [[]|e] eqn:Ev; [|apply preserves_ret]. unfold Get, exec.
  repeat first [preserves_step | apply preserves_gets].
  - apply preserves_call. intros d Hd. by apply map_Forall_insert_2.
  - apply preserves_modify. intros d Hd. unfold store_setting. by destruct (cache d).
  - apply preserves_modify. intros d Hd. unfold enqueue. by case_match.
Qed.

Lemma conf_ok_read c rows fs :
  conf_ok c → (reload_query c fs).1 = Some rows → conf_ok (reload_query c fs).2.1 ∧ valid_map rows.
Proof.
  intros Hc. unfold reload_query, query, call.
  destruct fs as [|[] fs]; simpl; try done; intros [= <-]; (split; [done|apply Hc]).
Qed.

Definition run_ok (s : conf * list (gmap string string)) : Prop := conf_ok s.1 ∧ Forall valid_map s.2.

Lemma conf_ok_step s s' : run_ok s → conf_step s s' → run_ok s'.
Proof.
  intros [Hc Hl] Hs. unfold run_ok.
  destruct Hs as [c l key value by_ stopped fs|c l fs|c l rows fs Hq|c l rows Hin|c l other key value by_ stopped fs Ho _
                 |c l o|c l o|c l|c l i|c l]; simpl in *.
  - split; [by apply conf_ok_Set|done].
  - split; [by apply conf_ok_Reload|done].
  - destruct (conf_ok_read c rows fs Hc Hq). split; [done|by constructor].
  - split; [|done]. apply conf_ok_install; [|done]. by apply (proj1 (Forall_forall _ _) Hl).
  - split; [|done]. pose proof (Set_rows key value by_ stopped other fs) as Hv. rewrite Ho in Hv.
    destruct Hc. by split; [apply Hv|..].
  - split; [|done]. unfold RegisterObserver. case_match; [done|]. destruct Hc. by split.
  - split; [|done]. destruct Hc. by split.
  - split; [|done]. unfold processChanges. destruct (changeCh c) as [|[k v] rest] eqn:E; [done|]. destruct Hc as [Hr Hd Hp Hcc Hq Ht Hs].
    rewrite E in Hq. apply Forall_cons in Hq as [Hkv Hq]. split; try done. simpl. apply Forall_app. split; [done|].
    apply Forall_fmap, Forall_forall. intros o _. done.
  - split; [|done]. unfold tell. destruct (telling c !! i) as [[[o k] v]|] eqn:E; [|done]. destruct Hc as [Hr Hd Hp Hcc Hq Ht Hs].
    split; try done; simpl.
    + apply Forall_app. split; [by apply Forall_take|by apply Forall_drop].
    + constructor; [|done]. by eapply Forall_lookup_1 in E; [|exact Ht].
  - split; [|done]. destruct Hc. by split.
Qed.

Lemma conf_ok_start rows fs : valid_map rows → conf_ok (NewService (empty_conf rows) fs).2.1.
Proof.
  intros Hv. destruct tables_facts as (_ & Hb & Hp).
  assert (conf_ok (set_cache (Some ∅) (empty_conf rows))) as Hc.
  { split; simpl; try done; [intros m Hm; rewrite Hp by done; by eexists|intros m [= <-]; apply map_Forall_empty]. }
  unfold NewService. rewrite run_bind. simpl. rewrite run_bind. pose proof (conf_ok_Reload _ fs Hc) as Hr.
  destruct (Reload _ fs) as [[u|e] [c' fs']]; simpl in *; [done|]. destruct Hr. by split.
Qed.

Lemma conf_reachable_ok c : conf_reachable c → conf_ok c.
Proof.
  intros [reads Hrun]. assert (∀ s, conf_run s → run_ok s) as Hok; [|exact (proj1 (Hok _ Hrun))].
  clear. induction 1 as [rows fs Hv|s s' _ IH Hs]; [|by eapply conf_ok_step].
  split; [by apply conf_ok_start|by constructor].
Qed.

Lemma lookup_setting_valid c m : conf_ok c → m ∈ configMetaList → valid (m_Key m) (lookup_setting c (m_Key m)).
Proof.
  intros [Hr Hd Hp Hc Hq Ht Hs] Hm. unfold lookup_setting, map_of. destruct (Hp m Hm) as [d Hdv].
  destruct (cache c) as [x|]; simpl.
  - destruct (x !! m_Key m) as [v|] eqn:E; [by eapply (Hc x eq_refl) in E|]. rewrite Hdv. by eapply Hd in Hdv.
  - rewrite Hdv. by eapply Hd in Hdv.
Qed.

(** C24: in every reachable state of a node, whatever is set here or by other
    nodes, whatever is reloaded and however late, and whatever fails, every
    setting that has metadata has a value its type allows: a number [GetInt]
    returns is within its bounds, a switch is "true" or "false", and observers
    were only told such values.  The table the node starts on holds accepted
    values and is written through the service only; a node starts with such
    values even without a database. *)
Theorem settings_in_range c m fs :
  conf_reachable c → m ∈ configMetaList →
  valid (m_Key m) (Get (m_Key m) c fs).1 ∧
  (Type_ m = CNumber → ∀ lo hi, MinValue m = Some lo → MaxValue m = Some hi → lo ≤ (GetInt (m_Key m) c fs).1 ≤ hi) ∧
  (Type_ m = CBoolean → (Get (m_Key m) c fs).1 = "true" ∨ (Get (m_Key m) c fs).1 = "false") ∧
  ∀ o k v, (o, k, v) ∈ told c → valid k v.
Proof.
  intros Hc%conf_reachable_ok Hm. pose proof (lookup_setting_valid c m Hc Hm) as Hv. split_and!; [done|..].
  - intros Ht lo hi Hlo Hhi. destruct (valid_number m _ (meta_of_own m Hm) Ht Hv) as (n & Hn & H1 & H2).
    unfold GetInt. rewrite run_bind. simpl. rewrite Hn. simpl. split; [by apply H1|by apply H2].
  - intros Ht. by apply (valid_boolean m _ (meta_of_own m Hm) Ht).
  - intros o k v Hin. pose proof (co_told c Hc) as Ht. rewrite Forall_forall in Ht. by apply (Ht (o, k, v)).
Qed.

(** ** Setting and reading back *)
Lemma lookup_store key value c k :
  lookup_setting (store_setting key value c) k = if bool_decide (k = key) then value else lookup_setting c k.
Proof.
  unfold store_setting, lookup_setting, map_of. destruct (cache c) as [m|] eqn:E; simpl; rewrite ?E; simpl; case_bool_decide; subst;
    rewrite ?lookup_insert_eq, ?lookup_insert_ne by done; done.
Qed.
Lemma lookup_enqueue stopped key value c k : lookup_setting (enqueue stopped key value c) k = lookup_setting c k.
Proof. unfold enqueue. by case_match. Qed.

(** setting a value either is refused with the reason and changes nothing,
    or answers with success: the value is in the table, with a history entry of the old one,
    every later read on this node sees it and other settings are as they were,
    and while the queue has room observers will be told; or the call failed,
    and then this node reads and tells nothing new, whatever happened to the
    table. *)
Theorem Set_result key value by_ stopped c fs :
  let '(r, (c', _)) := Set_ key value by_ stopped c fs in
  match validateConfigValue key value with
  | Err e => r = Err e ∧ c' = c
  | Ok _ =>
      (r = Ok tt ∧ config_rows c' !! key = Some value ∧
       head (config_history c') = Some (mkConfigHistory key (lookup_setting c key) value by_) ∧
       (∀ k fs', (Get k c' fs').1 = if bool_decide (k = key) then value else (Get k c fs').1) ∧
       ((length (changeCh c) < capacity)%nat → closed c = false → changeCh c' = changeCh c ++ [(key, value)])) ∨
      (r = Err ErrUpsert ∧ fs ≠ [] ∧ (∀ k fs', (Get k c' fs').1 = (Get k c fs').1) ∧ changeCh c' = changeCh c)
  end.
Proof.
  unfold Set_. destruct (validateConfigValue key value) as [u|e]; [|done]. rewrite run_bind. simpl. rewrite run_bind.
  unfold exec, call. set (c1 := upsert _ _ _ _ c).
  assert (let c2 := enqueue stopped key value (store_setting key value c1) in
    config_rows c2 !! key = Some value ∧ head (config_history c2) = Some (mkConfigHistory key (lookup_setting c key) value by_) ∧
    (∀ k fs', (Get k c2 fs').1 = if bool_decide (k = key) then value else (Get k c fs').1) ∧
    ((length (changeCh c) < capacity)%nat → closed c = false → changeCh c2 = changeCh c ++ [(key, value)])) as Hok.
  { intros c2. split_and!.
    - subst c2. unfold enqueue. case_match; unfold store_setting; case_match; simpl; by rewrite lookup_insert_eq.
    - subst c2. unfold enqueue. case_match; unfold store_setting; by case_match.
    - intros k fs'. simpl. subst c2. by rewrite lookup_enqueue, lookup_store.
    - intros Hl Hcl. subst c2. unfold enqueue.
      assert (changeCh (store_setting key value c1) = changeCh c ∧ closed (store_setting key value c1) = closed c) as [-> ->]
        by (unfold store_setting; by case_match).
      rewrite Hcl, (proj2 (Nat.ltb_lt _ _)) by done. done. }
  destruct fs as [|[] fs]; simpl; [by left|by left|right|right]; (split_and!; [done|done|by intros|done]).
Qed.

(** ** Every node sees a setting after its next reload *)
Lemma Reload_agrees c :
  let '(r, (c', _)) := Reload c [] in
  r = Ok tt ∧ config_rows c' = config_rows c ∧
  ∀ key, lookup_setting c' key = default (default "" (defaultConfigValues c !! key)) (config_rows c !! key).
Proof.
  simpl. split_and!; [done..|]. intros key. unfold lookup_setting, map_of, reload_install. simpl. rewrite lookup_union.
  destruct (config_rows c !! key) as [v|], (defaultConfigValues c !! key); done.
Qed.

(** ** Examples *)
Definition node : conf := (NewService (empty_conf ∅) []).2.1.
Lemma new_node_reachable : conf_reachable node.
Proof. exists []. apply (conf_start ∅ []). apply map_Forall_empty. Qed.
(** The table [src/deploy/schema.sql] creates. *)
Lemma seeded_reachable : conf_reachable (NewService (empty_conf builtin_map) []).2.1.
Proof. exists []. apply conf_start. apply tables_facts. Qed.
Lemma settings_in_range_witness :
  valid "datasource.cache_ttl" (Get "datasource.cache_ttl" ((Set_ "datasource.cache_ttl" "0" 1 false node []).2.1) []).1 ∧
  0 ≤ (GetInt "datasource.cache_ttl" ((Set_ "datasource.cache_ttl" "0" 1 false node []).2.1) []).1 ≤ 86400.
Proof.
  assert (mkMeta "datasource.cache_ttl" CNumber "300" (Some 0) (Some 86400) ∈ configMetaList) as Hm.
  { apply (bool_decide_unpack _). vm_compute. exact I. }
  assert (conf_reachable ((Set_ "datasource.cache_ttl" "0" 1 false node []).2.1)) as Hr.
  { destruct new_node_reachable as [reads Hn]. exists reads. eapply conf_next; [exact Hn|apply conf_set]. }
  destruct (settings_in_range _ _ [] Hr Hm) as (Hv & Hn & _). split; [exact Hv|]. by apply Hn.
Defined.

(** A node that could not read the table uses the map of defaults itself, not a
    copy: setting a value then changes the defaults of the process. *)
Lemma set_changes_defaults :
  let c := (NewService (empty_conf ∅) [Lost]).2.1 in
  cache c = None ∧
  defaultConfigValues (Set_ "web.enabled" "true" 1 false c []).2.1 !! "web.enabled" = Some "true" ∧
  defaultConfigValues (Set_ "web.enabled" "true" 1 false node []).2.1 !! "web.enabled" = Some "false".
Proof. vm_compute. done. Qed.

(** A node that reloads what another node has set tells no observer. *)
Lemma reload_tells_nobody :
  let c := set_table {["datasource.cache_ttl" := "10"]} [] (RegisterObserver 7 node) in
  let c' := (Reload c []).2.1 in
  lookup_setting c "datasource.cache_ttl" = "300" ∧ lookup_setting c' "datasource.cache_ttl" = "10" ∧
  changeCh c' = [] ∧ telling c' = [] ∧ told c' = [].
Proof. vm_compute. done. Qed.

(** Each change is told in a goroutine of its own: two changes may arrive in
    the other order, and the observer keeps the first value. *)
Lemma told_out_of_order :
  let c := RegisterObserver 7 node in
  let c := (Set_ "datasource.cache_ttl" "20" 1 false (Set_ "datasource.cache_ttl" "10" 1 false c []).2.1 []).2.1 in
  let c := tell 0 (tell 1 (processChanges (processChanges c))) in
  lookup_setting c "datasource.cache_ttl" = "20" ∧ head (told c) = Some (7, "datasource.cache_ttl", "10").
Proof. vm_compute. done. Qed.

(** A reload that read the table before a change and installs it afterwards
    takes the change back on this node, until the next reload. *)
Lemma reload_takes_change_back :
  let rows := config_rows node in
  let c := reload_install rows (Set_ "web.enabled" "true" 1 false node []).2.1 in
  lookup_setting c "web.enabled" = "false" ∧ config_rows c !! "web.enabled" = Some "true".
Proof. vm_compute. done. Qed.

(** A write whose reply is lost is reported as failed and not cached, but is in
    the table: other nodes and the next reload use it. *)
Lemma failed_set_takes_effect :
  let '(r, (c, _)) := Set_ "web.enabled" "true" 1 false node [Ghost] in
  r = Err ErrUpsert ∧ lookup_setting c "web.enabled" = "false" ∧ lookup_setting (Reload c []).2.1 "web.enabled" = "true".
Proof. vm_compute. done. Qed.
