(* ===== verification/AuditLog.v ===== *)
(** * The audit log

    [src/scheduler/internal/middleware/audit.go], [service/audit_log.go] and
    [handler/audit_log.go]: what requests are recorded, the goroutines that
    write the entries, the list, the removal of old entries and the setting
    that says how long they are kept.  An entry in memory has a time, a row of
    the table the text of one ([GoTime]); the local zone is [zone].  The
    database picks the rows of [SELECT ... LIMIT 1000] ([pick], laws in
    [pick_ok]), and the driver turns the column into a time ([toTime]).  The
    deadline of a context is a test before each batch ([cancelled]). *)
From Stdlib Require Import Ascii.
From S2P Require Import Prelude Sql Text GoTime SystemConfig.

(** ** Entries *)
Record AuditLog (T : Type) : Type := mkAuditLog {
  al_ID : Z; al_UserID : option Z; al_Username : string; al_RealName : string; al_Role : string; al_DomainID : option Z;
  al_Action : string; al_Resource : string; al_ResourceID : string; al_ResourceName : string; al_Status : string;
  al_ResponseCode : Z; al_IPAddress : string; al_UserAgent : string; al_RequestMethod : string; al_RequestPath : string;
  al_Detail : string; al_CreatedAt : T;
}.
Arguments mkAuditLog {T}.
Arguments al_ID {T}.
Arguments al_UserID {T}.
Arguments al_Username {T}.
Arguments al_RealName {T}.
Arguments al_Role {T}.
Arguments al_DomainID {T}.
Arguments al_Action {T}.
Arguments al_Resource {T}.
Arguments al_ResourceID {T}.
Arguments al_ResourceName {T}.
Arguments al_Status {T}.
Arguments al_ResponseCode {T}.
Arguments al_IPAddress {T}.
Arguments al_UserAgent {T}.
Arguments al_RequestMethod {T}.
Arguments al_RequestPath {T}.
Arguments al_Detail {T}.
Arguments al_CreatedAt {T}.
(** The same entry under another id and with another time. *)
Definition with_id_time {T U} (id : Z) (t : U) (e : AuditLog T) : AuditLog U :=
  mkAuditLog id (al_UserID e) (al_Username e) (al_RealName e) (al_Role e) (al_DomainID e) (al_Action e) (al_Resource e)
    (al_ResourceID e) (al_ResourceName e) (al_Status e) (al_ResponseCode e) (al_IPAddress e) (al_UserAgent e)
    (al_RequestMethod e) (al_RequestPath e) (al_Detail e) t.

(** The table, the goroutines with an entry to write, the settings. *)
Record audit : Type := mkAudit { audit_logs : table (AuditLog string); writing : list (AuditLog Z); settings : conf }.
Definition put_logs (t : table (AuditLog string)) (s : audit) : audit := mkAudit t (writing s) (settings s).
Definition put_writing (l : list (AuditLog Z)) (s : audit) : audit := mkAudit (audit_logs s) l (settings s).
Definition put_settings (c : conf) (s : audit) : audit := mkAudit (audit_logs s) (writing s) c.
Definition on_logs {A} : M (table (AuditLog string)) A → M audit A := zoom audit_logs put_logs.
Definition on_settings {A} : M conf A → M audit A := zoom settings put_settings.

(** ** What a request is recorded as *)
Definition writeMethodActions : list (string * string) := [("POST", "create"); ("PUT", "update"); ("DELETE", "delete")].
Definition routeAuditRules : list (string * (string * string)) :=
  [("/api/auth/login", ("auth", "login"));
   ("/api/auth/register", ("auth", "register"));
   ("/api/auth/change-password", ("auth", "change_password"));
   ("/api/auth/profile", ("auth", "update_profile"));
   ("/api/admin/users", ("user", "create"));
   ("/api/admin/roles", ("role", "create"));
   ("/api/admin/domains", ("domain", "create"));
   ("/api/admin/system-config", ("config", "config_change"));
   ("/api/datasources", ("datasource", "create"));
   ("/api/datasources/test", ("datasource", "test_connection"));
   ("/api/tasks", ("task", "create"));
   ("/api/query/execute", ("query", "execute"));
   ("/api/query/export", ("query", "export"));
   ("/api/query/saved-sql", ("saved_sql", "create"));
   ("/api/interfaces", ("api_test", "create"));
   ("/api/interfaces/execute", ("api_test", "execute"));
   ("/api/certificates", ("certificate", "create"));
   ("/api/proto-files", ("proto_file", "create"));
   ("/api/proto-files/parse", ("proto_file", "parse"));
   ("/api/proto-files/reflect", ("proto_file", "reflect"));
   ("/api/proto-files/template", ("proto_file", "generate_template"));
   ("/api/proto-files/fields", ("proto_file", "generate_fields"));
   ("/api/auth/api-token", ("api_token", "generate"));
   ("/api/auth/api-token/reveal", ("api_token", "reveal"));
   ("/api/admin/grafana-dashboards", ("grafana_dashboard", "manage"));
   ("/api/admin/grafana-dashboards/reorder", ("grafana_dashboard", "reorder"))].
Definition routePrefixRules : list (string * string) :=
  [("/api/admin/users/", "user");
   ("/api/admin/roles/", "role");
   ("/api/admin/domains/", "domain");
   ("/api/admin/system-config/", "config");
   ("/api/datasources/", "datasource");
   ("/api/tasks/", "task");
   ("/api/executors/", "executor");
   ("/api/query/saved-sql/", "saved_sql");
   ("/api/query/history/", "query_history");
   ("/api/query/clear-cache/", "datasource");
   ("/api/query/cancel/", "query");
   ("/api/logs/", "log");
   ("/api/interfaces/", "api_test");
   ("/api/certificates/", "certificate");
   ("/api/proto-files/", "proto_file");
   ("/api/auth/api-token/", "api_token");
   ("/api/admin/grafana-dashboards/", "grafana_dashboard")].

(** A Go map as the list of its entries. *)
Definition lookup_key {B} (key : string) (l : list (string * B)) : option B :=
  snd <$> List.find (λ '(k, _), String.eqb key k) l.

(** The action a path that no rule lists in full stands for.  [has] and [ends]
    are the tests on the path. *)
Definition path_action (has ends : string → bool) (method : string) : string :=
  if has "/trigger" then "trigger"
  else if (ends "/test" || has "/test") && negb (has "/executors/") then "test_connection"
  else if has "/permissions" && String.eqb method "POST" then "assign"
  else if has "/permissions" && String.eqb method "DELETE" then "revoke"
  else if has "/roles" && String.eqb method "POST" then "assign"
  else if has "/domains" && String.eqb method "POST" then "assign"
  else if has "/reset-password" then "reset_password"
  else if ends "/online" then "online"
  else if ends "/offline" then "offline"
  else if has "/capacity" then "update"
  else if has "/batch-delete" then "delete"
  else if has "/clean" then "clean"
  else if has "/clear-cache" then "clear_cache"
  else if has "/cancel" then "cancel"
  else if has "/pause" then "pause"
  else if has "/resume" then "resume"
  else if has "/system-config" then "config_change"
  else if has "/interfaces/" && has "/execute" then "execute"
  else if has "/generate-curl" then "generate_curl"
  else if has "/interfaces/" && has "/results" && String.eqb method "DELETE" then "delete_result"
  else if has "/api-token" && String.eqb method "DELETE" then "revoke"
  else default "" (lookup_key method writeMethodActions).
Definition path_resource (starts : string → bool) : string :=
  match List.find (λ '(p, _), starts p) routePrefixRules with Some (_, resource) => resource | None => "" end.
Definition resolveAuditInfo (method path : string) : string * string :=
  match lookup_key path routeAuditRules with
  | Some rule => rule
  | None => (path_resource (HasPrefix path), path_action (Contains path) (HasSuffix path) method)
  end.

(** ** The middleware *)
Record http_request : Type := mkHttp { Method : string; Path : string; ClientIP : string; UserAgent : string }.
(** What handlers put into the context of a request; [VOther] is a value that
    is neither text nor [int64], as [%v] prints it. *)
Inductive value : Type := VString (s : string) | VInt64 (n : Z) | VOther (text : string).
Definition context : Type := gmap string value.
Inductive outcome : Type := Panicked | Answered (status : Z) (ctx : context).

Definition toString (v : option value) : string :=
  match v with None => "" | Some (VString s) => s | Some (VInt64 n) => fmt_d n | Some (VOther text) => text end.
Definition truncateString (s : string) (maxRunes : nat) : string :=
  let r := runes s in if (length r <=? maxRunes)%nat then s else concat_runes (take maxRunes r).
Definition override (v : option value) (s : string) : string :=
  match v with Some (VString a) => if bool_decide (a = "") then s else a | _ => s end.
Definition positive_id (v : option value) : option Z :=
  match v with Some (VInt64 id) => if 0 <? id then Some id else None | _ => None end.
Definition audited_method (method : string) : bool := in_list method ["POST"; "PUT"; "DELETE"].

(** The entry of a request, made when its handler has returned. *)
Definition audit_entry (q : http_request) (status : Z) (ctx : context) (now : Z) : option (AuditLog Z) :=
  let '(resource, action) := resolveAuditInfo (Method q) (Path q) in
  let action := override (ctx !! "audit_action") action in
  let resource := override (ctx !! "audit_resource") resource in
  if bool_decide (resource = "") || bool_decide (action = "") then None
  else
    Some (mkAuditLog 0 (positive_id (ctx !! "user_id")) (toString (ctx !! "username")) (toString (ctx !! "real_name"))
      (toString (ctx !! "role")) (positive_id (ctx !! "current_domain_id")) action resource
      (toString (ctx !! "audit_resource_id")) (toString (ctx !! "audit_resource_name"))
      (if 400 <=? status then "failure" else "success") status (ClientIP q) (truncateString (UserAgent q) 500) (Method q) (Path q)
      (truncateString (toString (ctx !! "audit_detail")) 2000) now).
(** [AuditMiddleware]: a panic is recovered and answered, and what follows
    [c.Next()] does not run. *)
Definition captured (q : http_request) (o : outcome) (now : Z) : option (AuditLog Z) :=
  if negb (audited_method (Method q)) then None
  else match o with Panicked => None | Answered status ctx => audit_entry q status ctx now end.
Definition AuditMiddleware (q : http_request) (o : outcome) (now : Z) (s : audit) : audit :=
  match captured q o now with Some e => put_writing (writing s ++ [e]) s | None => s end.

(** ** The routes that change something

    A route of [cmd/routes.go] as the text before its parameters and the texts
    after each of them, with the resource and the action it is recorded as. *)
Record write_route : Type := mkRoute { wr_method : string; wr_start : string; wr_rest : list string; wr_recorded : string * string }.
Fixpoint fill (rest ids : list string) : string :=
  match rest, ids with b :: rest, id :: ids => id +:+ b +:+ fill rest ids | _, _ => "" end.
Definition route_path (r : write_route) (ids : list string) : string := wr_start r +:+ fill (wr_rest r) ids.
Definition write_routes : list write_route :=
  [mkRoute "POST" "/api/auth/login" [] ("auth", "login");
   mkRoute "POST" "/api/auth/sso-login" [] ("", "create");
   mkRoute "POST" "/api/auth/register" [] ("auth", "register");
   mkRoute "PUT" "/api/auth/profile" [] ("auth", "update_profile");
   mkRoute "POST" "/api/auth/change-password" [] ("auth", "change_password");
   mkRoute "POST" "/api/auth/switch-domain" [] ("", "create");
   mkRoute "POST" "/api/auth/api-token" [] ("api_token", "generate");
   mkRoute "DELETE" "/api/auth/api-token" [] ("api_token", "generate");
   mkRoute "POST" "/api/tasks" [] ("task", "create");
   mkRoute "PUT" "/api/tasks/" [""] ("task", "update");
   mkRoute "DELETE" "/api/tasks/" [""] ("task", "delete");
   mkRoute "POST" "/api/tasks/" ["/trigger"] ("task", "trigger");
   mkRoute "POST" "/api/tasks/executions/" ["/cancel"] ("task", "cancel");
   mkRoute "POST" "/api/executors/" ["/domains"] ("executor", "assign");
   mkRoute "DELETE" "/api/executors/" ["/domains/"; ""] ("executor", "delete");
   mkRoute "POST" "/api/executors/" ["/online"] ("executor", "online");
   mkRoute "POST" "/api/executors/" ["/offline"] ("executor", "offline");
   mkRoute "PUT" "/api/executors/" ["/capacity"] ("executor", "update");
   mkRoute "DELETE" "/api/executors/" [""] ("executor", "delete");
   mkRoute "DELETE" "/api/logs/" [""] ("log", "delete");
   mkRoute "POST" "/api/logs/batch-delete" [] ("log", "delete");
   mkRoute "POST" "/api/dashboard/scheduler/pause" [] ("", "pause");
   mkRoute "POST" "/api/dashboard/scheduler/resume" [] ("", "resume");
   mkRoute "POST" "/api/admin/users" [] ("user", "create");
   mkRoute "PUT" "/api/admin/users/" [""] ("user", "update");
   mkRoute "DELETE" "/api/admin/users/" [""] ("user", "delete");
   mkRoute "POST" "/api/admin/users/" ["/roles"] ("user", "assign");
   mkRoute "POST" "/api/admin/users/" ["/domains"] ("user", "assign");
   mkRoute "POST" "/api/admin/users/" ["/reset-password"] ("user", "reset_password");
   mkRoute "POST" "/api/admin/roles" [] ("role", "create");
   mkRoute "PUT" "/api/admin/roles/" [""] ("role", "update");
   mkRoute "DELETE" "/api/admin/roles/" [""] ("role", "delete");
   mkRoute "POST" "/api/admin/roles/" ["/permissions"] ("role", "assign");
   mkRoute "POST" "/api/admin/domains" [] ("domain", "create");
   mkRoute "PUT" "/api/admin/domains/" [""] ("domain", "update");
   mkRoute "DELETE" "/api/admin/domains/" [""] ("domain", "delete");
   mkRoute "PUT" "/api/admin/system-config/" [""] ("config", "config_change");
   mkRoute "POST" "/api/admin/system-config/reload" [] ("config", "config_change");
   mkRoute "POST" "/api/admin/audit-logs/clean" [] ("", "clean");
   mkRoute "PUT" "/api/admin/audit-logs/retention" [] ("", "update");
   mkRoute "POST" "/api/webhooks" [] ("", "create");
   mkRoute "PUT" "/api/webhooks/" [""] ("", "update");
   mkRoute "DELETE" "/api/webhooks/" [""] ("", "delete");
   mkRoute "POST" "/api/webhooks/" ["/test"] ("", "test_connection");
   mkRoute "POST" "/api/admin/grafana-dashboards" [] ("grafana_dashboard", "manage");
   mkRoute "PUT" "/api/admin/grafana-dashboards/reorder" [] ("grafana_dashboard", "reorder");
   mkRoute "PUT" "/api/admin/grafana-dashboards/" [""] ("grafana_dashboard", "update");
   mkRoute "DELETE" "/api/admin/grafana-dashboards/" [""] ("grafana_dashboard", "delete");
   mkRoute "POST" "/api/datasources/test" [] ("datasource", "test_connection");
   mkRoute "POST" "/api/datasources" [] ("datasource", "create");
   mkRoute "PUT" "/api/datasources/" [""] ("datasource", "update");
   mkRoute "DELETE" "/api/datasources/" [""] ("datasource", "delete");
   mkRoute "POST" "/api/datasources/" ["/test"] ("datasource", "test_connection");
   mkRoute "POST" "/api/datasources/" ["/permissions"] ("datasource", "assign");
   mkRoute "PUT" "/api/datasources/" ["/permissions/"; ""] ("datasource", "update");
   mkRoute "DELETE" "/api/datasources/" ["/permissions/"; ""] ("datasource", "revoke");
   mkRoute "POST" "/api/query/clear-cache/" [""] ("datasource", "clear_cache");
   mkRoute "POST" "/api/query/execute" [] ("query", "execute");
   mkRoute "POST" "/api/query/cancel/" [""] ("query", "cancel");
   mkRoute "POST" "/api/query/export" [] ("query", "export");
   mkRoute "DELETE" "/api/query/history/" [""] ("query_history", "delete");
   mkRoute "POST" "/api/query/history/batch-delete" [] ("query_history", "delete");
   mkRoute "POST" "/api/query/saved-sql" [] ("saved_sql", "create");
   mkRoute "PUT" "/api/query/saved-sql/" [""] ("saved_sql", "update");
   mkRoute "DELETE" "/api/query/saved-sql/" [""] ("saved_sql", "delete");
   mkRoute "POST" "/api/interfaces" [] ("api_test", "create");
   mkRoute "DELETE" "/api/interfaces/results/" [""] ("api_test", "delete_result");
   mkRoute "POST" "/api/interfaces/execute" [] ("api_test", "execute");
   mkRoute "POST" "/api/interfaces/generate-curl" [] ("api_test", "generate_curl");
   mkRoute "PUT" "/api/interfaces/" [""] ("api_test", "update");
   mkRoute "DELETE" "/api/interfaces/" [""] ("api_test", "delete");
   mkRoute "POST" "/api/interfaces/" ["/execute"] ("api_test", "execute");
   mkRoute "POST" "/api/proto-files" [] ("proto_file", "create");
   mkRoute "PUT" "/api/proto-files/" [""] ("proto_file", "update");
   mkRoute "DELETE" "/api/proto-files/" [""] ("proto_file", "delete");
   mkRoute "POST" "/api/proto-files/parse" [] ("proto_file", "parse");
   mkRoute "POST" "/api/proto-files/reflect" [] ("proto_file", "reflect");
   mkRoute "POST" "/api/proto-files/template" [] ("proto_file", "generate_template");
   mkRoute "POST" "/api/proto-files/fields" [] ("proto_file", "generate_fields");
   mkRoute "POST" "/api/certificates" [] ("certificate", "create");
   mkRoute "PUT" "/api/certificates/" [""] ("certificate", "update");
   mkRoute "DELETE" "/api/certificates/" [""] ("certificate", "delete")].

Definition has_parts (a : string) (rest : list string) (w : string) : bool := Contains a w || existsb (λ b, Contains b w) rest.
Fixpoint last_part (a : string) (rest : list string) : string := match rest with [] => a | b :: rest => last_part b rest end.
Definition numeric (id : string) : Prop := all_digits id = true ∧ id ≠ "".

Lemma Contains_fill a rest ids w : digit_free w = true → w ≠ "" → length ids = length rest → Forall numeric ids →
  Contains (a +:+ fill rest ids) w = has_parts a rest w.
Proof.
  intros Hw Hne. revert a ids. induction rest as [|b rest IH]; intros a [|id ids] Hl Hids; try done.
  - cbn [fill]. rewrite (right_id_L "" String.append). unfold has_parts. by rewrite orb_false_r.
  - apply Forall_cons in Hids as [[Hd Hn] Hids]. cbn [fill]. rewrite Contains_around by done. rewrite IH; [|simpl in Hl; lia|done].
    unfold has_parts. cbn [existsb]. done.
Qed.
Lemma HasSuffix_fill a rest ids w : digit_free w = true → length ids = length rest → Forall numeric ids →
  HasSuffix (a +:+ fill rest ids) w = HasSuffix (last_part a rest) w.
Proof.
  intros Hw. revert a ids. induction rest as [|b rest IH]; intros a [|id ids] Hl Hids; try done.
  - cbn [fill]. by rewrite (right_id_L "" String.append).
  - apply Forall_cons in Hids as [[Hd Hn] Hids]. cbn [fill]. rewrite HasSuffix_after_digits by done. rewrite IH; [done|simpl in Hl; lia|done].
Qed.
Lemma prefix_fill a rest ids p : digit_free p = true → Forall numeric ids →
  HasPrefix (a +:+ fill rest ids) p = HasPrefix a p.
Proof.
  intros Hp Hids. unfold HasPrefix. destruct rest as [|b rest], ids as [|id ids]; cbn [fill]; rewrite ?(right_id_L "" String.append); try done.
  apply Forall_cons in Hids as [[Hd Hn] _]. by apply prefix_before_digits.
Qed.

(** What a path stands for is read off the texts around its numbers. *)
Definition resolve_route (r : write_route) : string * string :=
  match wr_rest r with
  | [] => resolveAuditInfo (wr_method r) (wr_start r)
  | rest => (path_resource (HasPrefix (wr_start r)),
             path_action (has_parts (wr_start r) rest) (HasSuffix (last_part (wr_start r) rest)) (wr_method r))
  end.
Lemma path_action_ext (has has' ends ends' : string → bool) method :
  (∀ w, digit_free w = true → w ≠ "" → has w = has' w) → (∀ w, digit_free w = true → w ≠ "" → ends w = ends' w) →
  path_action has ends method = path_action has' ends' method.
Proof. intros Hh He. unfold path_action. by rewrite !Hh, !He. Qed.
Lemma find_ext {B} (f g : B → bool) l : (∀ x, x ∈ l → f x = g x) → List.find f l = List.find g l.
Proof.
  intros Hfg. induction l as [|x l IH]; [done|]. simpl. rewrite Hfg by by left. rewrite IH; [done|]. intros y Hy. apply Hfg. by right.
Qed.
Lemma rules_digit_free : forallb (λ '(p, _), digit_free p) routePrefixRules && forallb (λ '(p, _), digit_free p) routeAuditRules = true.
Proof. vm_compute. reflexivity. Qed.
Lemma resolve_path r ids : length ids = length (wr_rest r) → Forall numeric ids →
  resolveAuditInfo (wr_method r) (route_path r ids) = resolve_route r.
Proof.
  intros Hl Hids. unfold resolve_route, route_path. destruct (wr_rest r) as [|b rest] eqn:E.
  { destruct ids; [|done]. cbn [fill]. by rewrite (right_id_L "" String.append). }
  pose proof rules_digit_free as [Hp Hr]%andb_prop. rewrite forallb_forall in Hp, Hr.
  set (path := wr_start r +:+ fill (b :: rest) ids). assert (lookup_key path routeAuditRules = None) as Hnone.
  { unfold lookup_key. destruct (List.find _ _) as [[k rule]|] eqn:Ef; [|done]. apply find_some in Ef as [Hin Hk].
    apply String.eqb_eq in Hk. specialize (Hr _ Hin). simpl in Hr. rewrite <- Hk in Hr. destruct ids as [|id ids]; [done|].
    apply Forall_cons in Hids as [[Hd Hn] _]. subst path. cbn [fill] in Hr. by rewrite not_digit_free in Hr. }
  unfold resolveAuditInfo. rewrite Hnone. f_equal.
  - unfold path_resource. rewrite (find_ext _ (λ '(p, _), HasPrefix (wr_start r) p)); [done|]. intros [p res] Hin.
    apply prefix_fill; [|done]. apply list_elem_of_In in Hin. by specialize (Hp _ Hin).
  - apply path_action_ext; intros w Hw Hne; [by apply Contains_fill|by apply HasSuffix_fill].
Qed.
Lemma routes_resolved : forallb (λ r, bool_decide (resolve_route r = wr_recorded r)) write_routes = true.
Proof. vm_compute. reflexivity. Qed.

(** *** Texts are cut to a number of characters *)
Lemma truncated_length s n : (length (runes (truncateString s n)) ≤ n)%nat.
Proof.
  unfold truncateString. destruct (Nat.leb_spec (length (runes s)) n) as [Hl|Hl]; [done|].
  rewrite runes_concat by (apply Forall_take, runes_are_runes). rewrite length_take. lia.
Qed.

(** a request on any route that changes something, whatever the numbers in
    its path, and that is answered without its handler naming another resource
    or action, is recorded exactly when the route has a resource in the table of routes, under
    that resource and action, by the user in its context, as a failure exactly
    when the status is 400 or more; the texts the client chooses are at most
    500 and 2000 characters long.  A request whose handler panics, or of another method, is not recorded. *)
Theorem routes_are_recorded r ids ip agent status ctx now :
  r ∈ write_routes → length ids = length (wr_rest r) → Forall numeric ids →
  let q := mkHttp (wr_method r) (route_path r ids) ip agent in
  captured q Panicked now = None ∧
  (ctx !! "audit_action" = None → ctx !! "audit_resource" = None →
   (captured q (Answered status ctx) now = None ↔ (wr_recorded r).1 = "") ∧
   ∀ e, captured q (Answered status ctx) now = Some e →
     (al_Resource e, al_Action e) = wr_recorded r ∧ al_UserID e = positive_id (ctx !! "user_id") ∧
     (al_Status e = "failure" ↔ 400 ≤ status) ∧ al_CreatedAt e = now ∧
     (length (runes (al_UserAgent e)) ≤ 500)%nat ∧ (length (runes (al_Detail e)) ≤ 2000)%nat).
Proof.
  intros Hr Hl Hids q. pose proof routes_resolved as Ht. rewrite forallb_forall in Ht.
  specialize (Ht r ltac:(by apply list_elem_of_In)). apply bool_decide_eq_true in Ht.
  assert (resolveAuditInfo (Method q) (Path q) = wr_recorded r) as Hq by (rewrite <- Ht; by apply resolve_path).
  assert (audited_method (Method q) = true ∧ (wr_recorded r).2 ≠ "") as [Hm Ha].
  { assert (forallb (λ r, audited_method (wr_method r) && negb (bool_decide ((wr_recorded r).2 = ""))) write_routes = true) as Hc
      by (vm_compute; reflexivity).
    rewrite forallb_forall in Hc. specialize (Hc r ltac:(by apply list_elem_of_In)). apply andb_prop in Hc as [Hm Hc].
    split; [done|]. by case_bool_decide. }
  unfold captured. rewrite Hm. cbn [negb]. split; [done|]. intros H1 H2. unfold audit_entry. rewrite Hq, H1, H2.
  destruct (wr_recorded r) as [resource action]. simpl in *. rewrite (bool_decide_false (action = "")), orb_false_r by done.
  case_bool_decide as Hb; split; [done|done| |].
  - split; [done|congruence].
  - intros e [= <-]. cbn [al_Resource al_Action al_UserID al_Status al_CreatedAt al_UserAgent al_Detail]. split_and!; try done;
      [|apply truncated_length..]. destruct (Z.leb_spec 400 status); split; (done || lia).
Qed.

(** ** The service *)
Inductive audit_error : Type := ErrAudit | ErrCancelled.
Record AuditLogFilter : Type := mkAuditFilter {
  af_Username : string; af_Action : string; af_Resource : string; af_Status : string; af_DomainID : Z;
  af_StartTime : string; af_EndTime : string; af_Page : Z; af_PageSize : Z;
}.
Definition with_page (page size : Z) (f : AuditLogFilter) : AuditLogFilter :=
  mkAuditFilter (af_Username f) (af_Action f) (af_Resource f) (af_Status f) (af_DomainID f) (af_StartTime f) (af_EndTime f) page size.
Definition batchSize : Z := 1000.

Section service.
(** The local zone. *)
Context (zone : Z).
(** Which of the matching rows [LIMIT 1000] takes. *)
Context (pick : list (AuditLog string) → list (AuditLog string)).
(** The driver reads a column of type [DATETIME]; [None] is an error. *)
Context (toTime : string → option Z).

Definition stored (id : Z) (e : AuditLog Z) : AuditLog string := with_id_time id (Format zone (al_CreatedAt e)) e.
Definition Create (e : AuditLog Z) : M (table (AuditLog string)) (result audit_error unit) :=
  or_err ErrAudit (exec (insert_row (λ id, stored id e))).
(** The goroutine with the [i]-th entry; errors are only logged. *)
Definition write_entry (i : nat) : M audit unit :=
  o ← gets (λ s, writing s !! i);
  match o with
  | None => mret tt
  | Some e =>
      _ ← modify (λ s, put_writing (take i (writing s) ++ drop (S i) (writing s)) s);
      _ ← on_logs (Create e); mret tt
  end.

(** *** Reading *)
Definition time_bound (s : string) : option string :=
  if bool_decide (s = "") then None else (λ '(t, offset), Format offset t) <$> parseTimeInLocalTimezone s.
Definition matches (f : AuditLogFilter) (r : AuditLog string) : bool :=
  (bool_decide (af_Username f = "") || like ("%" +:+ af_Username f +:+ "%") (al_Username r)) &&
  (bool_decide (af_Action f = "") || bool_decide (al_Action r = af_Action f)) &&
  (bool_decide (af_Resource f = "") || bool_decide (al_Resource r = af_Resource f)) &&
  (bool_decide (af_Status f = "") || bool_decide (al_Status r = af_Status f)) &&
  ((af_DomainID f <=? 0) || bool_decide (al_DomainID r = Some (af_DomainID f))) &&
  match time_bound (af_StartTime f) with None => true | Some t => String.leb t (al_CreatedAt r) end &&
  match time_bound (af_EndTime f) with None => true | Some t => String.leb (al_CreatedAt r) t end.
Definition page_or_default (f : AuditLogFilter) : AuditLogFilter :=
  let page := if af_Page f <=? 0 then 1 else af_Page f in
  let size := if af_PageSize f <=? 0 then 20 else af_PageSize f in
  with_page page (if 100 <? size then 100 else size) f.
(** A row the driver cannot read is left out. *)
Definition scan_row (r : AuditLog string) : option (AuditLog Z) := (λ t, with_id_time (al_ID r) t r) <$> toTime (al_CreatedAt r).
Definition List_ (f : AuditLogFilter) : M (table (AuditLog string)) (result audit_error (list (AuditLog Z) * Z)) :=
  let f := page_or_default f in
  total ←? or_err ErrAudit (query (λ t, count (matches f) (rows t)));
  found ←? or_err ErrAudit (query (λ t, page_of (af_Page f) (af_PageSize f)
    (order_by (λ r r', String.leb (al_CreatedAt r') (al_CreatedAt r)) (where_ (matches f) (rows t)))));
  mret (Ok (omap scan_row found, total)).
Definition Count : M (table (AuditLog string)) (result audit_error Z) :=
  or_err ErrAudit (query (λ t, Z.of_nat (length (rows t)))).

(** *** Removing *)
Definition expired (cutoff : string) (r : AuditLog string) : bool := String.ltb (al_CreatedAt r) cutoff.
Definition victims (cutoff : string) (l : list (AuditLog string)) : list (AuditLog string) := pick (where_ (expired cutoff) l).
(** One [DELETE]: how many rows it removed. *)
Definition delete_batch (cutoff : string) (t : table (AuditLog string)) : Z * table (AuditLog string) :=
  let ids := al_ID <$> victims cutoff (rows t) in
  (count (λ r, in_list (al_ID r) ids) (rows t), delete_where (λ r, in_list (al_ID r) ids) t).
Inductive clean_end : Type := Cleaned | CleanFailed (e : audit_error) | OutOfFuel.
(** The loop; [i] counts the rounds. *)
Fixpoint clean_loop (cancelled : nat → bool) (cutoff : string) (fuel i : nat) (totalDeleted : Z) :
    M (table (AuditLog string)) (Z * clean_end) :=
  match fuel with
  | O => mret (totalDeleted, OutOfFuel)
  | S fuel =>
      if cancelled i then mret (totalDeleted, CleanFailed ErrCancelled)
      else
        r ← call (delete_batch cutoff);
        match r with
        | None => mret (totalDeleted, CleanFailed ErrAudit)
        | Some deleted =>
            if (deleted =? 0) || (deleted <? batchSize) then mret (totalDeleted + deleted, Cleaned)
            else clean_loop cancelled cutoff fuel (S i) (totalDeleted + deleted)
        end
  end.
Definition cutoffTime (retentionDays now : Z) : string := Format zone (AddDays (- retentionDays) now).
Definition CleanExpired (cancelled : nat → bool) (now retentionDays : Z) (fuel : nat) : M (table (AuditLog string)) (Z * clean_end) :=
  let retentionDays := if retentionDays <=? 0 then 90 else retentionDays in
  clean_loop cancelled (cutoffTime retentionDays now) fuel 0 0.

(** [configured]: whether the service has a settings service. *)
Definition GetRetentionDays (configured : bool) : M conf Z :=
  if configured then days ← GetInt "audit_log.retention_days"; mret (if 0 <? days then days else 90) else mret 90.
(** The goroutine of [cmd/app.go], once a day. *)
Definition runAuditCleanup (cancelled : nat → bool) (now : Z) (fuel : nat) : M audit unit :=
  days ← on_settings (GetRetentionDays true);
  _ ← on_logs (CleanExpired cancelled now days fuel); mret tt.

(** ** The handlers

    [None] is a request the binding refuses. *)
Definition h_List (f : option AuditLogFilter) : M audit (config_reply (list (AuditLog Z) * Z * Z * Z)) :=
  match f with
  | None => mret (ConfigBadRequest "")
  | Some f =>
      r ← on_logs (List_ f);
      mret match r with
           | Ok (logs, total) => ConfigSuccess (logs, total, af_Page f, af_PageSize f)
           | Err _ => ConfigServerError "查询审计日志失败"
           end
  end.
Definition h_CleanExpired (cancelled : nat → bool) (now : Z) (fuel : nat) (retentionDays : option Z) : M audit (config_reply (Z * Z)) :=
  days ← (if default 0 retentionDays <=? 0 then on_settings (GetRetentionDays true) else mret (default 0 retentionDays));
  r ← on_logs (CleanExpired cancelled now days fuel);
  mret match r with
       | (deleted, Cleaned) => ConfigSuccess (deleted, days)
       | _ => ConfigServerError "清理审计日志失败"
       end.
Definition h_GetRetentionDays : M audit (config_reply Z) := days ← on_settings (GetRetentionDays true); mret (ConfigSuccess days).
Definition h_UpdateRetentionDays (retentionDays : option Z) (userID : Z) (stopped : bool) : M audit (config_reply Z) :=
  match retentionDays with
  | None => mret (ConfigBadRequest "")
  | Some days =>
      if (days <? 1) || (3650 <? days) then mret (ConfigBadRequest "")
      else
        r ← on_settings (Set_ "audit_log.retention_days" (fmt_d days) userID stopped);
        mret match r with
             | Ok _ => ConfigSuccess days
             | Err e => ConfigServerError ("更新审计日志保留天数失败: " +:+ error_text e)
             end
  end.
Definition h_GetStats : M audit (config_reply Z) :=
  r ← on_logs Count;
  mret match r with Ok total => ConfigSuccess total | Err _ => ConfigServerError "查询审计日志统计失败" end.

(** ** What a cleaning removes *)
Definition pick_ok : Prop := ∀ l, ∃ rest, l ≡ₚ pick l ++ rest ∧ Z.of_nat (length (pick l)) = Z.min batchSize (Z.of_nat (length l)).
Definition unique_ids (l : list (AuditLog string)) : Prop := NoDup (al_ID <$> l).

Section cleaning.
Context (Hpick : pick_ok) (cutoff : string).

Lemma where_split {A} (p : A → bool) l : l ≡ₚ where_ p l ++ where_ (λ x, negb (p x)) l.
Proof.
  unfold where_. induction l as [|x l IH]; [done|]. destruct (p x) eqn:E.
  - rewrite filter_cons_True, (filter_cons_False (λ x, negb (p x) = true)) by (by rewrite ?E). simpl. by constructor.
  - rewrite filter_cons_False, (filter_cons_True (λ x, negb (p x) = true)) by (by rewrite ?E). rewrite <- Permutation_middle. by constructor.
Qed.
Lemma unique_in l v r : unique_ids l → v ⊆ l → r ∈ l → in_list (al_ID r) (al_ID <$> v) = true → r ∈ v.
Proof.
  intros Hu Hv Hr Hin. apply in_list_true in Hin as (r' & Hid & Hr')%list_elem_of_fmap. apply Hv in Hr' as Hl'.
  assert (r = r') as ->; [|done]. revert Hu Hr Hl' Hid. clear. unfold unique_ids. induction l as [|x l IH]; [by intros _ ?%elem_of_nil|].
  rewrite fmap_cons. intros [Hx Hn]%NoDup_cons. rewrite !elem_of_cons. intros [->|Hr] [->|Hr'] Hid; [done|..|by apply IH].
  - destruct Hx. rewrite Hid. by apply list_elem_of_fmap_2.
  - destruct Hx. rewrite <- Hid. by apply list_elem_of_fmap_2.
Qed.

(** A batch takes some of the expired rows, all of them when fewer than a
    thousand are left. *)
Lemma delete_batch_spec t : unique_ids (rows t) → ∃ removed,
  let '(n, t') := delete_batch cutoff t in
  rows t ≡ₚ removed ++ rows t' ∧ Forall (λ r, expired cutoff r = true) removed ∧ n = Z.of_nat (length removed) ∧
  (n < batchSize → Forall (λ r, expired cutoff r = false) (rows t')).
Proof.
  intros Hu. set (v := victims cutoff (rows t)). destruct (Hpick (where_ (expired cutoff) (rows t))) as (rest & Hperm & Hlen).
  change (pick _) with v in Hperm, Hlen. assert (v ⊆ rows t) as Hsub.
  { intros r Hr. assert (r ∈ where_ (expired cutoff) (rows t)) as Hw by (rewrite Hperm; apply elem_of_app; by left). by apply elem_of_where in Hw as [? _]. }
  set (p := λ r : AuditLog string, in_list (al_ID r) (al_ID <$> v)). assert (where_ p (rows t) ≡ₚ v) as Hv.
  { apply NoDup_Permutation.
    - apply NoDup_filter. by apply NoDup_fmap_1 in Hu.
    - apply NoDup_fmap_1 in Hu. apply (NoDup_filter (λ x, expired cutoff x = true)) in Hu. fold (where_ (expired cutoff) (rows t)) in Hu.
      rewrite Hperm in Hu. by apply NoDup_app in Hu as [? _].
    - intros r. rewrite elem_of_where. split; [intros [Hr Hp]; by apply (unique_in (rows t))|].
      intros Hr. split; [by apply Hsub|]. apply in_list_true. by apply list_elem_of_fmap_2. }
  exists v. unfold delete_batch. fold v. fold p. cbn [delete_where set_rows rows]. split_and!.
  - rewrite <- Hv. apply where_split.
  - apply Forall_forall. intros r Hr. assert (r ∈ where_ (expired cutoff) (rows t)) as Hw by (rewrite Hperm; apply elem_of_app; by left).
    by apply elem_of_where in Hw as [_ ?].
  - unfold count. by rewrite Hv.
  - unfold count. rewrite Hv. intros Hn. assert (rest = []) as ->.
    { pose proof (Permutation_length Hperm) as Hl. rewrite length_app in Hl. destruct rest; [done|]. simpl in Hl. lia. }
    rewrite app_nil_r in Hperm. apply Forall_forall. intros r [Hr Hp]%elem_of_where. destruct (expired cutoff r) eqn:E; [|done].
    assert (r ∈ v) as Hin by (rewrite <- Hperm; by apply elem_of_where). assert (p r = true) as Ht; [|by rewrite Ht in Hp].
    apply in_list_true. by apply list_elem_of_fmap_2.
Qed.

Definition cleaned (cancelled : nat → bool) (fuel : nat) (total : Z) (t : table (AuditLog string)) (fs : list fate)
    (n : Z) (e : clean_end) (t' : table (AuditLog string)) : Prop :=
  ∃ removed, rows t ≡ₚ removed ++ rows t' ∧ Forall (λ r, expired cutoff r = true) removed ∧
    n ≤ total + Z.of_nat (length removed) ∧
    (e = Cleaned → n = total + Z.of_nat (length removed) ∧ Forall (λ r, expired cutoff r = false) (rows t')) ∧
    (e = OutOfFuel → Z.of_nat fuel * batchSize ≤ Z.of_nat (length removed)) ∧
    (∀ why, e = CleanFailed why → fs ≠ [] ∨ ∃ i, cancelled i = true).
Lemma clean_loop_spec cancelled fuel i total t fs : unique_ids (rows t) →
  let '((n, e), (t', _)) := clean_loop cancelled cutoff fuel i total t fs in cleaned cancelled fuel total t fs n e t'.
Proof.
  revert i total t fs. induction fuel as [|fuel IH]; intros i total t fs Hu; cbn [clean_loop].
  { exists []. split_and!; simpl; try done; lia. }
  assert (∀ e, (∀ why, e = CleanFailed why → fs ≠ [] ∨ ∃ i, cancelled i = true) → e ≠ Cleaned → e ≠ OutOfFuel →
    cleaned cancelled (S fuel) total t fs total e t) as Hstop.
  { intros e He H1 H2. exists []. split_and!; simpl; try done; lia. }
  destruct (cancelled i) eqn:Ec; [by apply Hstop; eauto|].
  destruct (delete_batch_spec t Hu) as (removed & Hb). destruct (delete_batch cutoff t) as [d t'] eqn:Ed.
  destruct Hb as (Hperm & Hexp & Hd & Hall).
  assert (∀ fs', (fs = [] → fs' = []) →
    let '((n, e), (t'', _)) := (if (d =? 0) || (d <? batchSize) then mret (total + d, Cleaned)
      else clean_loop cancelled cutoff fuel (S i) (total + d)) t' fs' in cleaned cancelled (S fuel) total t fs n e t'') as Hgo.
  { intros fs' Hfs. destruct ((d =? 0) || (d <? batchSize)) eqn:Ez.
    - exists removed. split_and!; try done; [lia|]. intros _. split; [lia|]. apply Hall. unfold batchSize in *. lia.
    - assert (unique_ids (rows t')) as Hu'.
      { unfold unique_ids in *. rewrite Hperm, fmap_app in Hu. by apply NoDup_app in Hu as (_ & _ & ?). }
      specialize (IH (S i) (total + d) t' fs' Hu'). destruct (clean_loop cancelled cutoff fuel (S i) (total + d) t' fs') as [[n e] [t'' fs'']].
      destruct IH as (removed' & Hperm' & Hexp' & Hn & Hc & Hf & Hw). exists (removed ++ removed'). rewrite length_app. split_and!.
      + by rewrite <- (assoc_L app), <- Hperm'.
      + by apply Forall_app.
      + lia.
      + intros He. destruct (Hc He). split; [lia|done].
      + intros He. specialize (Hf He). unfold batchSize in *. lia.
      + intros why He. destruct (Hw why He) as [Hne|?]; [left|by right]. intros ->. by destruct Hne, Hfs. }
  rewrite run_bind. unfold call. destruct fs as [|[] fs]; rewrite ?Ed; try (by apply Hgo); cbn [mret M_ret].
  - apply Hstop; [by left|done..].
  - exists removed. split_and!; try done; lia || (by left).
Qed.
End cleaning.

(** The time [days] days before [now], and when a row was made. *)
Definition days_before (days now : Z) : Z := now - days * Day * Second.
Definition made_at (r : AuditLog string) (u : Z) : Prop := al_CreatedAt r = Format zone u ∧ - 2 ^ 62 ≤ u < 2 ^ 63.
Lemma expired_time days now r u : whole_minutes zone → 0 ≤ now < 2 ^ 63 → 0 < days ≤ 3650 → made_at r u →
  if expired (cutoffTime days now) r then u < days_before days now + Second else days_before days now - Second < u.
Proof.
  intros Hz Hn Hd [Hr Hu]. unfold expired, cutoffTime. rewrite AddDays_small, Hr by lia.
  replace (now + - days * Day * Second) with (days_before days now) by (unfold days_before; lia).
  apply text_before; [done|done|]. unfold days_before, Day, Second. lia.
Qed.

(** with retention of at most ten years, whichever rows the database takes
    for a batch and whatever fails or is cancelled, the removal of expired
    entries ends after a number of batches known beforehand, and removes only
    entries made before the cutoff (to the second); it reports no more than it
    removed.  When it reports success it has removed exactly as many as it
    says, and every entry left was made after the cutoff; without failures it
    succeeds. *)
Theorem CleanExpired_keeps_recent cancelled now days fuel t fs :
  pick_ok → unique_ids (rows t) → whole_minutes zone → 0 ≤ now < 2 ^ 63 → 0 < days ≤ 3650 →
  Z.of_nat (length (rows t)) < Z.of_nat fuel * batchSize →
  let '((n, e), (t', _)) := CleanExpired cancelled now days fuel t fs in
  e ≠ OutOfFuel ∧ (fs = [] → (∀ i, cancelled i = false) → e = Cleaned) ∧
  ∃ removed, rows t ≡ₚ removed ++ rows t' ∧ n ≤ Z.of_nat (length removed) ∧
    (∀ r u, r ∈ removed → made_at r u → u < days_before days now + Second) ∧
    (e = Cleaned → n = Z.of_nat (length removed) ∧
     ∀ r u, r ∈ rows t' → made_at r u → days_before days now - Second < u).
Proof.
  intros Hp Hu Hz Hn Hd Hf. unfold CleanExpired. replace (days <=? 0) with false by lia.
  pose proof (clean_loop_spec Hp (cutoffTime days now) cancelled fuel 0 0 t fs Hu) as Hs.
  destruct (clean_loop _ _ fuel 0 0 t fs) as [[n e] [t' fs']]. destruct Hs as (removed & Hperm & Hexp & Hle & Hc & Ho & Hw).
  assert (e ≠ OutOfFuel) as He.
  { intros He. specialize (Ho He). pose proof (Permutation_length Hperm) as Hl. rewrite length_app in Hl. lia. }
  split; [done|]. split.
  { intros -> Hno. destruct e as [|why|]; [done| |done]. destruct (Hw why eq_refl) as [?|[i Hi]]; [done|]. by rewrite Hno in Hi. }
  exists removed. split_and!; [done|lia| |].
  - intros r u Hr Hm. rewrite Forall_forall in Hexp. pose proof (expired_time days now r u Hz Hn Hd Hm) as Ht. by rewrite Hexp in Ht.
  - intros Hc'. destruct (Hc Hc') as [-> Hleft]. split; [lia|]. intros r u Hr Hm. rewrite Forall_forall in Hleft.
    pose proof (expired_time days now r u Hz Hn Hd Hm) as Ht. by rewrite Hleft in Ht.
Qed.

(** ** Every request is accounted for

    The goroutines that write entries and the batches of several cleanings
    interleave.  [history] is what an observer sees: the entries made
    ([made]), those whose write failed before it reached the database
    ([lost]), the rows removed, the cutoffs of the cleanings, and how many calls
    failed. *)
Record history : Type := mkHistory {
  made : list (AuditLog Z); lost : list (AuditLog Z); removed_rows : list (AuditLog string); cutoffs : list string; failures : nat;
}.
Definition system : Type := audit * history.
Definition nothing_seen : history := mkHistory [] [] [] [] 0.
Definition entry_of (q : http_request) (o : outcome) (now : Z) : list (AuditLog Z) := match captured q o now with Some e => [e] | None => [] end.
Definition taken_out (i : nat) {A} (l : list A) : list A := take i l ++ drop (S i) l.

Inductive audit_step : system → system → Prop :=
| s_request q o now s h :
    audit_step (s, h) (AuditMiddleware q o now s, mkHistory (made h ++ entry_of q o now) (lost h) (removed_rows h) (cutoffs h) (failures h))
| s_write i e f s h : writing s !! i = Some e →
    audit_step (s, h) ((write_entry i s [f]).2.1,
      mkHistory (made h) (if decide (f = Lost) then e :: lost h else lost h) (removed_rows h) (cutoffs h)
        (if decide (f = Fine) then failures h else S (failures h)))
| s_clean_starts days now s h :
    audit_step (s, h) (s, mkHistory (made h) (lost h) (removed_rows h) (cutoffTime days now :: cutoffs h) (failures h))
| s_batch cutoff f s h : cutoff ∈ cutoffs h →
    audit_step (s, h) ((on_logs (call (delete_batch cutoff)) s [f]).2.1,
      mkHistory (made h) (lost h) (if decide (f = Lost) then removed_rows h
        else where_ (λ r, in_list (al_ID r) (al_ID <$> victims cutoff (rows (audit_logs s)))) (rows (audit_logs s)) ++ removed_rows h)
        (cutoffs h) (if decide (f = Fine) then failures h else S (failures h)))
| s_settings c s h : audit_step (s, h) (put_settings c s, h).

Definition row_of (e : AuditLog Z) : AuditLog string := stored 0 e.
Definition without_id (r : AuditLog string) : AuditLog string := with_id_time 0 (al_CreatedAt r) r.
Record audit_ok (x : system) : Prop := {
  ao_ids : unique_ids (rows (audit_logs x.1));
  ao_last : Forall (λ r, al_ID r ≤ last_id (audit_logs x.1)) (rows (audit_logs x.1));
  ao_all : row_of <$> made x.2 ≡ₚ (row_of <$> writing x.1) ++ (row_of <$> lost x.2) ++
    (without_id <$> rows (audit_logs x.1)) ++ (without_id <$> removed_rows x.2);
  ao_removed : Forall (λ r, ∃ cutoff, cutoff ∈ cutoffs x.2 ∧ expired cutoff r = true) (removed_rows x.2);
  ao_lost : (length (lost x.2) ≤ failures x.2)%nat;
}.

Lemma taken_out_perm {A} i (l : list A) x : l !! i = Some x → l ≡ₚ x :: taken_out i l.
Proof.
  intros Hx. unfold taken_out. rewrite <- (take_drop_middle l i x Hx) at 1. by rewrite <- Permutation_middle.
Qed.
Lemma audit_ok_request q o now s h : audit_ok (s, h) →
  audit_ok (AuditMiddleware q o now s, mkHistory (made h ++ entry_of q o now) (lost h) (removed_rows h) (cutoffs h) (failures h)).
Proof.
  intros [Hi Hl Ha Hr Hf]. unfold AuditMiddleware, entry_of. destruct (captured q o now) as [e|]; split; simpl in *; try done.
  - rewrite !fmap_app, Ha, (Permutation_app_comm _ (row_of <$> [e])), (Permutation_app_comm (row_of <$> writing s) (row_of <$> [e])).
    by rewrite <- (assoc_L app).
  - by rewrite app_nil_r.
Qed.

Lemma write_entry_run i e f s : writing s !! i = Some e →
  (write_entry i s [f]).2.1 =
    put_logs (if decide (f = Lost) then audit_logs s else insert_row (λ id, stored id e) (audit_logs s))
      (put_writing (taken_out i (writing s)) s).
Proof. intros He. unfold write_entry. rewrite run_bind. simpl. rewrite He. by destruct f, s. Qed.
Lemma audit_ok_write i e f s h : writing s !! i = Some e → audit_ok (s, h) →
  audit_ok ((write_entry i s [f]).2.1, mkHistory (made h) (if decide (f = Lost) then e :: lost h else lost h) (removed_rows h)
    (cutoffs h) (if decide (f = Fine) then failures h else S (failures h))).
Proof.
  intros He [Hi Hl Ha Hr Hf]. rewrite (write_entry_run i e f s He). cbn [fst snd] in *.
  rewrite (taken_out_perm i _ e He), fmap_cons in Ha. assert (length (lost h) ≤ if decide (f = Fine) then failures h else S (failures h))%nat
    as Hf' by (case_decide; simpl in *; lia).
  destruct (decide (f = Lost)) as [Ef|Ef]; split; cbn [fst snd audit_logs put_logs put_writing writing made lost removed_rows cutoffs failures insert_row rows last_id]; try done.
  - rewrite Ha, fmap_cons. simpl. by rewrite Permutation_middle.
  - rewrite decide_False by (by rewrite Ef). simpl. lia.
  - unfold unique_ids. rewrite fmap_app. apply NoDup_app. split_and!; [done| |by apply NoDup_singleton].
    intros id (r & -> & Hin)%list_elem_of_fmap. simpl. intros Heq%list_elem_of_singleton. rewrite Forall_forall in Hl. specialize (Hl r Hin). simpl in *. lia.
  - apply Forall_app. split; [|by repeat constructor; simpl; lia]. eapply Forall_impl; [exact Hl|]. simpl. lia.
  - rewrite Ha, fmap_app, (Permutation_app_comm _ (without_id <$> [stored _ e])). change (without_id <$> [stored _ e]) with [row_of e]. simpl.
    by rewrite <- !Permutation_middle.
Qed.
Lemma audit_ok_batch cutoff f s h : pick_ok → cutoff ∈ cutoffs h → audit_ok (s, h) →
  audit_ok ((on_logs (call (delete_batch cutoff)) s [f]).2.1,
      mkHistory (made h) (lost h) (if decide (f = Lost) then removed_rows h
        else where_ (λ r, in_list (al_ID r) (al_ID <$> victims cutoff (rows (audit_logs s)))) (rows (audit_logs s)) ++ removed_rows h)
        (cutoffs h) (if decide (f = Fine) then failures h else S (failures h))).
Proof.
  intros Hp Hc [Hi Hl Ha Hr Hf]. cbn [fst snd] in *.
  assert (length (lost h) ≤ if decide (f = Fine) then failures h else S (failures h))%nat as Hf' by (case_decide; simpl in *; lia).
  destruct (decide (f = Lost)) as [->|Ef]; [by split|].
  assert ((on_logs (call (delete_batch cutoff)) s [f]).2.1 = put_logs (delete_batch cutoff (audit_logs s)).2 s) as -> by (by destruct f, s).
  set (p := λ r : AuditLog string, in_list (al_ID r) (al_ID <$> victims cutoff (rows (audit_logs s)))).
  assert (rows (audit_logs s) ≡ₚ where_ p (rows (audit_logs s)) ++ where_ (λ r, negb (p r)) (rows (audit_logs s))) as Hperm by apply where_split.
  split; cbn [fst snd audit_logs put_logs writing made lost removed_rows cutoffs failures delete_batch delete_where set_rows rows last_id]; try done; fold p.
  - unfold unique_ids in *. rewrite Hperm, fmap_app in Hi. by apply NoDup_app in Hi as (_ & _ & ?).
  - rewrite Hperm in Hl. by apply Forall_app in Hl as [_ ?].
  - rewrite Ha. rewrite Hperm at 1. rewrite !fmap_app, (Permutation_app_comm (without_id <$> where_ p _)), <- (assoc_L app). done.
  - apply Forall_app. split; [|done]. apply Forall_forall. intros r [Hin Hpr]%elem_of_where. exists cutoff. split; [done|].
    destruct (Hp (where_ (expired cutoff) (rows (audit_logs s)))) as (rest & Hpick & _).
    assert (victims cutoff (rows (audit_logs s)) ⊆ where_ (expired cutoff) (rows (audit_logs s))) as Hsub.
    { intros x Hx. rewrite Hpick. apply elem_of_app. by left. }
    assert (r ∈ victims cutoff (rows (audit_logs s))) as Hv.
    { apply (unique_in _ _ r Hi); [|done|done]. intros x Hx%Hsub. by apply elem_of_where in Hx as [? _]. }
    apply Hsub in Hv. by apply elem_of_where in Hv as [_ ?].
Qed.

(** C30: however requests, the goroutines that write entries, and any number of
    cleanings interleave, and whatever fails, every entry the middleware has
    made is in exactly one place: waiting for its goroutine, lost by a failed
    write (at most as many as calls failed), in the table, or removed; rows have
    different ids, and a row is only removed when it is before the cutoff of a
    cleaning. *)
Theorem entries_are_accounted_for s h :
  pick_ok → rtc audit_step (mkAudit (mkTable [] 0) [] (empty_conf ∅), nothing_seen) (s, h) →
  row_of <$> made h ≡ₚ (row_of <$> writing s) ++ (row_of <$> lost h) ++
    (without_id <$> rows (audit_logs s)) ++ (without_id <$> removed_rows h) ∧
  (length (lost h) ≤ failures h)%nat ∧ unique_ids (rows (audit_logs s)) ∧
  ∀ r, r ∈ removed_rows h → ∃ cutoff, cutoff ∈ cutoffs h ∧ expired cutoff r = true.
Proof.
  intros Hp Hs. assert (audit_ok (s, h)) as [Hi Hl Ha Hr Hf].
  { remember (s, h) as x eqn:Ex. clear Ex s h. revert Hs. apply (rtc_ind_r audit_ok).
    - by repeat constructor.
    - intros x1 x2 _ Hstep Hx. destruct Hstep.
      + by apply audit_ok_request.
      + by apply audit_ok_write.
      + destruct Hx as [Hi Hl Ha Hr Hf]. split; try done. eapply Forall_impl; [exact Hr|]. intros r (c & Hc & He). exists c.
        split; [by right|done].
      + by apply audit_ok_batch.
      + by destruct Hx. }
  split_and!; [done..|]. by rewrite Forall_forall in Hr.
Qed.

(** ** The retention setting *)
Lemma signed_Atoi_fmt_d n : 0 < n < 2 ^ 63 → signed_Atoi (fmt_d n) = Some n.
Proof.
  intros Hn. destruct (fmt_d_digits n ltac:(lia)) as (Ha & Hne & Hv). unfold signed_Atoi, ParseInt.
  assert (∀ s, s = fmt_d n → (if bool_decide (s = "") || negb (all_digits s) then (0, false)
    else let m := 1 * decimal 0 s in if m <? - 2 ^ 63 then (- 2 ^ 63, false) else if 2 ^ 63 <=? m then (2 ^ 63 - 1, false) else (m, true)) = (n, true)) as Hs.
  { intros s ->. rewrite bool_decide_false, Ha by done. cbn [orb negb]. rewrite Hv, Z.mul_1_l.
    replace (n <? - 2 ^ 63) with false by lia. by replace (2 ^ 63 <=? n) with false by lia. }
  destruct (fmt_d n) as [|c s]; [done|]. unfold all_digits in Ha. cbn in Ha. apply andb_prop in Ha as [Hc _].
  assert (c ≠ "-"%char ∧ c ≠ "+"%char) as [H1 H2] by (split; intros ->; done). specialize (Hs _ eq_refl).
  destruct c as [[] [] [] [] [] [] [] []]; try done; cbn [orb negb] in *; by rewrite Hs.
Qed.

Lemma GetRetentionDays_reads c fs : (GetRetentionDays true c fs).1 =
  let d := default 0 (signed_Atoi (lookup_setting c "audit_log.retention_days")) in if 0 <? d then d else 90.
Proof. reflexivity. Qed.
Lemma retention_range c fs : conf_reachable c → 1 ≤ (GetRetentionDays true c fs).1 ≤ 3650.
Proof.
  intros Hc%conf_reachable_ok. rewrite GetRetentionDays_reads. set (m := mkMeta "audit_log.retention_days" CNumber "90" (Some 1) (Some 3650)).
  assert (m ∈ configMetaList) as Hm by (apply (bool_decide_unpack _); vm_compute; exact I).
  destruct (valid_number m _ (meta_of_own m Hm) eq_refl (lookup_setting_valid c m Hc Hm)) as (n & Hn & Hlo & Hhi).
  change (m_Key m) with "audit_log.retention_days" in Hn. rewrite Hn. simpl. specialize (Hlo 1 eq_refl). specialize (Hhi 3650 eq_refl).
  case_match; lia.
Qed.

(** the retention is between one day and ten years in every reachable
    state of the settings.  Setting it answers with success only for a number in
    that range, and it is then what every cleaning that names no number uses;
    another number is refused and nothing changes; and when the call fails this
    node uses the number it used before.  The log itself is not touched. *)
Theorem retention_is_set days by_ stopped s fs fs' :
  conf_reachable (settings s) →
  let '(r, (s', _)) := h_UpdateRetentionDays (Some days) by_ stopped s fs in
  1 ≤ (GetRetentionDays true (settings s) fs').1 ≤ 3650 ∧ audit_logs s' = audit_logs s ∧ writing s' = writing s ∧
  match r with
  | ConfigSuccess d => d = days ∧ 1 ≤ days ≤ 3650 ∧ (GetRetentionDays true (settings s') fs').1 = days
  | ConfigBadRequest _ => ¬ (1 ≤ days ≤ 3650) ∧ s' = s
  | ConfigServerError _ => fs ≠ [] ∧ (GetRetentionDays true (settings s') fs').1 = (GetRetentionDays true (settings s) fs').1
  end.
Proof.
  intros Hc. pose proof (retention_range (settings s) fs' Hc) as Hr. unfold h_UpdateRetentionDays.
  destruct ((days <? 1) || (3650 <? days)) eqn:E; [split_and!; try done; lia|]. assert (1 ≤ days ≤ 3650) as Hd by lia.
  rewrite run_bind. unfold on_settings, zoom, Set_. assert (signed_Atoi (fmt_d days) = Some days) as Ha by (apply signed_Atoi_fmt_d; lia).
  assert (validateConfigValue "audit_log.retention_days" (fmt_d days) = Ok tt) as ->.
  { unfold validateConfigValue. change (meta_of _) with (Some (mkMeta "audit_log.retention_days" CNumber "90" (Some 1) (Some 3650))).
    cbn [Type_]. rewrite Ha. cbn [MinValue MaxValue]. replace (days <? 1) with false by lia. by replace (3650 <? days) with false by lia. }
  rewrite run_bind. simpl. rewrite run_bind. unfold exec, call. set (c1 := upsert _ _ _ _ _).
  assert (∀ c, lookup_setting c "audit_log.retention_days" = fmt_d days → (GetRetentionDays true c fs').1 = days) as Hget.
  { intros c Hl. rewrite GetRetentionDays_reads, Hl, Ha. change (default 0 (Some days)) with days. cbv zeta. by replace (0 <? days) with true by lia. }
  assert (lookup_setting (enqueue stopped "audit_log.retention_days" (fmt_d days) (store_setting "audit_log.retention_days" (fmt_d days) c1))
    "audit_log.retention_days" = fmt_d days) as Hl by (rewrite lookup_enqueue, lookup_store; by rewrite bool_decide_true).
  destruct fs as [|[] fs]; (split; [exact Hr|]); (split; [done|]); (split; [done|]); simpl; split_and!; try done; try lia; by apply Hget.
Qed.
End service.

(** ** Examples *)
Definition take_first (l : list (AuditLog string)) : list (AuditLog string) := take (Z.to_nat batchSize) l.
Lemma take_first_ok : pick_ok take_first.
Proof.
  intros l. exists (drop (Z.to_nat batchSize) l). unfold take_first. split; [by rewrite take_drop|]. rewrite length_take. unfold batchSize. lia.
Qed.
Definition example_request : http_request := mkHttp "DELETE" "/api/tasks/7" "10.0.0.1" "curl".
Definition example_context : context := {["user_id" := VInt64 3; "username" := VString "ann"]}.
Definition new_year : Z := 1704067200000000000.

Lemma routes_are_recorded_witness :
  captured example_request Panicked new_year = None ∧
  ∃ e, captured example_request (Answered 403 example_context) new_year = Some e ∧ (al_Resource e, al_Action e) = ("task", "delete") ∧
    al_Status e = "failure".
Proof.
  assert (mkRoute "DELETE" "/api/tasks/" [""] ("task", "delete") ∈ write_routes) as Hr by (by apply (list_elem_of_lookup_2 _ 10%nat)).
  pose proof (routes_are_recorded _ ["7"] "10.0.0.1" "curl" 403 example_context new_year Hr eq_refl) as Hw.
  destruct Hw as [H1 H2]; [by repeat constructor|]. split; [exact H1|]. destruct (H2 eq_refl eq_refl) as [_ Hs].
  eexists. split; [reflexivity|]. destruct (Hs _ eq_refl) as (Ha & _ & Hf & _). split; [exact Ha|]. by apply Hf.
Defined.

Definition example_entry : AuditLog Z :=
  mkAuditLog 0 (Some 3) "ann" "" "" None "delete" "task" "" "" "success" 200 "10.0.0.1" "curl" "DELETE" "/api/tasks/7" "" (new_year - 100 * Day * Second).
Definition example_table : table (AuditLog string) := mkTable [stored 28800 1 example_entry; stored 28800 2 (with_id_time 0 new_year example_entry)] 2.
Lemma CleanExpired_keeps_recent_witness :
  let '((n, e), (t', _)) := CleanExpired 28800 take_first (λ _, false) new_year 90 1 example_table [] in e = Cleaned ∧ n = 1 ∧ al_ID <$> rows t' = [2].
Proof.
  pose proof (CleanExpired_keeps_recent 28800 take_first (λ _, false) new_year 90 1 example_table [] take_first_ok) as Hc.
  destruct (CleanExpired 28800 take_first (λ _, false) new_year 90 1 example_table []) as [[n e] [t' fs]] eqn:E.
  destruct Hc as (_ & Hok & _); [..|split; [by apply Hok|]].
  - unfold unique_ids. apply (bool_decide_unpack _). vm_compute. exact I.
  - split; [reflexivity|unfold Day; lia].
  - unfold new_year. lia.
  - lia.
  - reflexivity.
  - assert (n = (CleanExpired 28800 take_first (λ _, false) new_year 90 1 example_table []).1.1) as -> by by rewrite E.
    assert (t' = (CleanExpired 28800 take_first (λ _, false) new_year 90 1 example_table []).2.1) as -> by by rewrite E.
    split; vm_compute; reflexivity.
Defined.

Lemma entries_are_accounted_for_witness :
  let s := (write_entry 28800 0 (AuditMiddleware example_request (Answered 200 example_context) new_year (mkAudit (mkTable [] 0) [] (empty_conf ∅))) [Ghost]).2.1 in
  length (rows (audit_logs s)) = 1%nat ∧ unique_ids (rows (audit_logs s)).
Proof.
  split; [by vm_compute|]. set (o := Answered 200 example_context).
  edestruct (entries_are_accounted_for 28800 take_first) as (_ & _ & Hu & _); [exact take_first_ok| |exact Hu].
  eapply rtc_l; [apply (s_request 28800 take_first example_request o new_year)|]. eapply rtc_l; [|apply rtc_refl].
  apply (s_write _ _ 0%nat (default example_entry (captured example_request o new_year)) Ghost). vm_compute. reflexivity.
Defined.

Lemma retention_is_set_witness :
  let s := mkAudit (mkTable [] 0) [] node in
  (GetRetentionDays true (settings (h_UpdateRetentionDays (Some 30) 1 false s []).2.1) []).1 = 30 ∧
  (h_UpdateRetentionDays (Some 30) 1 false s []).1 = ConfigSuccess 30.
Proof.
  pose proof new_node_reachable as Hn.
  pose proof (retention_is_set 30 1 false (mkAudit (mkTable [] 0) [] node) [] [] Hn) as Hr.
  destruct (h_UpdateRetentionDays (Some 30) 1 false (mkAudit (mkTable [] 0) [] node) []) as [r [s' fs]] eqn:E.
  assert (r = (h_UpdateRetentionDays (Some 30) 1 false (mkAudit (mkTable [] 0) [] node) []).1) as Er by by rewrite E.
  vm_compute in Er. subst r. destruct Hr as (_ & _ & _ & _ & _ & Hg). cbv zeta. rewrite E. split; [exact Hg|reflexivity].
Defined.

(** *** What the log does not say *)

(** These routes change something and are never recorded. *)
Lemma never_recorded : (λ r, (wr_method r, wr_start r, wr_rest r)) <$> where_ (λ r, bool_decide ((wr_recorded r).1 = "")) write_routes =
  [("POST", "/api/auth/sso-login", []); ("POST", "/api/auth/switch-domain", []);
   ("POST", "/api/dashboard/scheduler/pause", []); ("POST", "/api/dashboard/scheduler/resume", []);
   ("POST", "/api/admin/audit-logs/clean", []); ("PUT", "/api/admin/audit-logs/retention", []);
   ("POST", "/api/webhooks", []); ("PUT", "/api/webhooks/", [""]); ("DELETE", "/api/webhooks/", [""]); ("POST", "/api/webhooks/", ["/test"])].
Proof. vm_compute. reflexivity. Qed.
(** Taking a token away is recorded like making one, taking an executor out of a
    domain like deleting the executor. *)
Lemma recorded_as_something_else :
  resolveAuditInfo "DELETE" "/api/auth/api-token" = resolveAuditInfo "POST" "/api/auth/api-token" ∧
  resolveAuditInfo "DELETE" "/api/executors/node-7/domains/2" = resolveAuditInfo "DELETE" "/api/executors/node-7".
Proof. vm_compute. done. Qed.
(** The name of an executor takes part in the choice of the action. *)
Lemma name_decides_action : resolveAuditInfo "DELETE" "/api/executors/pause-1" = ("executor", "pause").
Proof. vm_compute. reflexivity. Qed.
(** Handlers answer most errors with status 200, which is recorded as a success. *)
Lemma failed_login_is_success :
  al_Status <$> captured (mkHttp "POST" "/api/auth/login" "10.0.0.1" "curl") (Answered 200 ∅) new_year = Some "success".
Proof. vm_compute. reflexivity. Qed.
(** With a huge retention the cutoff is tomorrow: the entry made now is removed. *)
Lemma huge_retention_removes_all :
  rows (CleanExpired 28800 take_first (λ _, false) new_year (2 ^ 63 - 1) 1 example_table []).2.1 = [].
Proof. vm_compute. reflexivity. Qed.
(** The bounds of the list are compared as texts: an entry made at eight in
    Beijing is not found by its own time in UTC. *)
Lemma bound_in_other_zone :
  let r := stored 28800 1 (with_id_time 0 new_year example_entry) in
  time_bound "2024-01-01T00:00:00Z" = Some (Format 0 new_year) ∧
  matches (mkAuditFilter "" "" "" "" 0 "" "2024-01-01T00:00:01Z" 1 20) r = false.
Proof. vm_compute. done. Qed.
(** A reply that is lost makes a cleaning report fewer rows than it removed. *)
Lemma lost_reply_not_counted :
  let '((n, e), (t', _)) := CleanExpired 28800 take_first (λ _, false) new_year 90 1 example_table [Ghost] in
  n = 0 ∧ length (rows t') = 1%nat.
Proof. vm_compute. done. Qed.
