(* ===== verification/TaskHandler.v ===== *)
(** * The handlers of tasks and of their logs

    [src/scheduler/internal/handler/task.go] and [log.go] over the services of
    [Execution].  A request is decoded: [None] is a body the binding refuses,
    path and query parameters are texts.  Answers are what [response.go] makes
    of them.  An event stream is a state of its own that each tick of its timer
    moves on; times are written by the parameter [format_time]. *)
From Stdlib Require Import Ascii Sorted.
From stdpp Require Import sorting.
From S2P Require Import Prelude Redis Sql World Executor Execution Cleanup System Text.
From S2P Require Permission.

(** ** Answers *)
Inductive response (A : Type) : Type :=
| Success (a : A)
| Fail (code : Z) (message : string)
| Data (statusCode : Z) (body : string).   (** the answer of the leader, passed on *)
Arguments Success {A}.
Arguments Fail {A}.
Arguments Data {A}.

Definition CodeBadRequest : Z := 400.
Definition CodeForbidden : Z := 403.
Definition CodeNotFound : Z := 404.
Definition CodeInternalError : Z := 500.
Definition CodeServiceUnavailable : Z := 503.
Definition CodeTaskRunning : Z := 10001.
Definition CodeExecutorOffline : Z := 10005.
Definition CodeExecutorNoCapacity : Z := 10006.
Definition CodeNoAvailableExecutor : Z := 10007.
Definition CodeDispatchFailed : Z := 10008.
Definition BadRequest {A} (message : string) : response A := Fail CodeBadRequest message.
Definition Forbidden {A} (message : string) : response A := Fail CodeForbidden message.
Definition NotFound {A} (message : string) : response A := Fail CodeNotFound message.
Definition InternalServerError {A} (message : string) : response A := Fail CodeInternalError message.
Definition ServiceUnavailable {A} (message : string) : response A := Fail CodeServiceUnavailable message.

(** [errorCodeMap] is keyed by the error values of [service/errors.go]; the
    services of tasks and executors make their errors where they occur, and the
    one they take from there they wrap, so that none is a key. *)
Definition GetErrorCode (e : error) : Z := 500.
Definition FailFromError {A} (cfg : env) (e : error) : response A := Fail (GetErrorCode e) (error_text cfg e).

(** ** Helpers *)
Definition safeString (s : string) : string := if bool_decide (s = "") then "" else TrimSpace s.
Definition safeTimePtr (format_time : Z → string) (t : Z) : option string := if t =? zero_time then None else Some (format_time t).

(** [strings.ReplaceAll(s, c, by)] for one byte. *)
Fixpoint ReplaceAll (c : ascii) (by_ s : string) : string :=
  match s with
  | EmptyString => EmptyString
  | String d s => (if Ascii.eqb d c then by_ else String d EmptyString) +:+ ReplaceAll c by_ s
  end.
Definition quotation : ascii := "034".
Definition backslash : ascii := "\".
Definition newline : ascii := "010".
Definition escaped (c : ascii) : string := String backslash (String c EmptyString).
Definition escapeJSON (s : string) : string :=
  let s := ReplaceAll backslash (escaped backslash) s in
  let s := ReplaceAll quotation (escaped quotation) s in
  let s := ReplaceAll newline (escaped "n") s in
  let s := ReplaceAll "013" (escaped "r") s in
  ReplaceAll "009" (escaped "t") s.

Fixpoint fnv (h : Z) (s : string) : Z :=
  match s with
  | EmptyString => h
  | String c s => fnv (Z.lxor h (Z.of_N (N_of_ascii c)) * 1099511628211 mod 2 ^ 64) s
  end.
Definition fnvHash (s : string) : Z := fnv 14695981039346656037 s.

(** What the middleware put into the context of a request. *)
Record caller : Type := mkCaller { c_user_id : option Z; c_role : string; c_domain : Z; c_username : string }.

Definition parse_id (s : string) : string + Z :=
  let '(id, ok) := ParseInt s in
  if negb ok then inl "invalid id" else if id <=? 0 then inl "id must be positive" else inr id.
Definition with_id {S A} (s : string) (k : Z → M S (response A)) : M S (response A) :=
  match parse_id s with inl message => mret (BadRequest message) | inr id => k id end.
(** [page, _ := strconv.Atoi(...)] and its bounds *)
Definition page_number (s : string) : Z := let page := (ParseInt s).1 in if page <? 1 then 1 else page.
Definition page_limit (s : string) : Z :=
  let pageSize := (ParseInt s).1 in if (pageSize <? 1) || (100 <? pageSize) then 20 else pageSize.

(** ** Requests *)
Record CreateRequest : Type := mkCreateRequest {
  cr_Name : string; cr_Type : string;
  cr_Config : option string;     (** the text, or the JSON of a value that is none *)
  cr_CronExpression : string; cr_TimeoutSeconds : Z; cr_RetryMax : Z; cr_RetryDelaySeconds : Z;
  cr_RetryCount : Z; cr_RetryInterval : Z; cr_IsEnabled : bool; cr_DomainID : Z;
  cr_WebhookID : option Z; cr_WebhookEvents : list string; cr_AssignedExecutorID : Z;
}.
(** [None] in the last three fields: the body does not mention them. *)
Record UpdateRequest : Type := mkUpdateRequest {
  ur_Name : string; ur_Type : string; ur_Config : option string; ur_CronExpression : string;
  ur_TimeoutSeconds : Z; ur_RetryMax : Z; ur_RetryDelaySeconds : Z; ur_RetryCount : Z; ur_RetryInterval : Z;
  ur_IsEnabled : option bool; ur_DomainID : Z;
  ur_WebhookID : option (option Z); ur_WebhookEvents : option (list string); ur_AssignedExecutorID : option Z;
}.

Definition validTypes : list string := ["http"; "shell"].
Definition invalid_type : string := "无效的任务类型，支持的类型：http、shell".
Definition at_most (n x : Z) : Z := if n <? x then n else x.

Definition create_retries (req : CreateRequest) : Z :=
  let n := if cr_RetryCount req <? 0 then cr_RetryMax req else cr_RetryCount req in
  at_most 10 (if n <? 0 then 0 else n).
Definition create_interval (req : CreateRequest) : Z :=
  let n := if cr_RetryInterval req <? 0 then cr_RetryDelaySeconds req else cr_RetryInterval req in
  at_most 3600 (if (n <=? 0) && (0 <? create_retries req) then 5 else n).
Definition create_timeout (req : CreateRequest) : Z :=
  at_most 86400 (if cr_TimeoutSeconds req <? 0 then 0 else cr_TimeoutSeconds req).
Definition create_domain (who : caller) (req : CreateRequest) : Z :=
  let domainID := if (cr_DomainID req <=? 0) && (0 <? c_domain who) then c_domain who else cr_DomainID req in
  if domainID <=? 0 then 1 else domainID.
Definition new_task (now : Z) (who : caller) (req : CreateRequest) (isEnabled : bool) (id : Z) : Task :=
  mkTask id (safeString (cr_Name req)) (safeString (cr_Type req)) (safeString (default "" (cr_Config req)))
    (safeString (cr_CronExpression req)) (create_timeout req) (create_retries req) (create_interval req) isEnabled "pending"
    (create_domain who req) (cr_WebhookID req) (cr_WebhookEvents req)
    (if 0 <? cr_AssignedExecutorID req then cr_AssignedExecutorID req else 0) (default 1 (c_user_id who)) now now.

(** The fields of the current task that [Update] overwrites before it looks at
    [is_enabled]. *)
Definition updated_retries (req : UpdateRequest) (old : Z) : Z :=
  if 0 <=? ur_RetryCount req then at_most 10 (ur_RetryCount req)
  else if 0 <=? ur_RetryMax req then at_most 10 (ur_RetryMax req) else old.
Definition updated_interval (req : UpdateRequest) (count old : Z) : Z :=
  let n := if 0 <=? ur_RetryInterval req then at_most 3600 (ur_RetryInterval req)
           else if 0 <=? ur_RetryDelaySeconds req then at_most 3600 (ur_RetryDelaySeconds req) else old in
  if (0 <? count) && (n <=? 0) then 5 else n.
Definition apply_update (req : UpdateRequest) (t : Task) : Task :=
  let count := updated_retries req (RetryCount t) in
  mkTask (t_ID t) (if bool_decide (ur_Name req = "") then t_Name t else ur_Name req)
    (if bool_decide (ur_Type req = "") then t_Type t else ur_Type req)
    (default (t_Config t) (ur_Config req))
    (if bool_decide (ur_CronExpression req = "") && bool_decide (ur_Config req = None) then CronExpression t else ur_CronExpression req)
    (if 0 <=? ur_TimeoutSeconds req then at_most 86400 (ur_TimeoutSeconds req) else TimeoutSeconds t)
    count (updated_interval req count (RetryInterval t)) (t_IsEnabled t) (t_Status t) (t_DomainID t) (WebhookID t) (WebhookEvents t)
    (AssignedExecutorID t) (CreatedBy t) (t_CreatedAt t) (t_UpdatedAt t).
(** The rest of the fields. *)
Definition apply_rest (req : UpdateRequest) (isEnabled : bool) (t : Task) : Task :=
  mkTask (t_ID t) (t_Name t) (t_Type t) (t_Config t) (CronExpression t) (TimeoutSeconds t) (RetryCount t) (RetryInterval t)
    isEnabled (t_Status t) (if 0 <? ur_DomainID req then ur_DomainID req else t_DomainID t)
    (default (WebhookID t) (ur_WebhookID req)) (default (WebhookEvents t) (ur_WebhookEvents req))
    (default (AssignedExecutorID t) (ur_AssignedExecutorID req)) (CreatedBy t) (t_CreatedAt t) (t_UpdatedAt t).

(** ** The handlers of tasks *)
Section handlers.
Context `{Redis R}.
Variable cfg : env.

(** [ConvertToLocalTime] reads the clock face of a heartbeat in the zone of
    this node: it moves it by what the zone it was written in is ahead of this
    one. *)
Variable zone_gap : Z.
Definition isExecutorOnline (now : Z) (e : Executor) : bool :=
  is_online e && match LastHeartbeat e with None => false | Some t => now - (t + zone_gap) <=? 30 * Second end.
Definition has_available_executors (domainID : Z) : M (world R) bool :=
  now ← gets clock;
  executors ← ListExecutorsByDomain domainID;
  mret match executors with
       | Err _ => false
       | Ok es => existsb (λ e, isExecutorOnline now e && (CurrentLoad e <? Capacity e)) es
       end.

Definition task_filter (who : caller) (page pageSize search type created_by is_enabled : string) : TaskListFilter :=
  mkTaskListFilter (c_domain who) (c_role who) (page_number page) (page_limit pageSize)
    (let '(n, ok) := ParseInt created_by in if ok then n else 0) (safeString search) (safeString type)
    (if bool_decide (is_enabled = "true") then Some true else if bool_decide (is_enabled = "false") then Some false else None).
Definition h_List (who : caller) (page pageSize search type created_by is_enabled : string) :
    M (world R) (response (list TaskInfo * Z)) :=
  r ← ListTasksWithFilter cfg (task_filter who page pageSize search type created_by is_enabled);
  mret match r with Ok x => Success x | Err e => FailFromError cfg e end.

Definition h_Get (id : string) : M (world R) (response TaskInfo) :=
  with_id id (λ id, r ← GetTaskByID cfg id; mret match r with Ok i => Success i | Err _ => NotFound "task not found" end).

(** The task, and whether an executor is there for it. *)
Definition h_Create (who : caller) (req : option CreateRequest) : M (world R) (response (TaskInfo * bool)) :=
  match req with
  | None => mret (BadRequest "")
  | Some req =>
      if bool_decide (safeString (cr_Name req) = "") then mret (BadRequest "name is required")
      else if bool_decide (safeString (cr_Type req) = "") then mret (BadRequest "type is required")
      else if negb (in_list (cr_Type req) validTypes) then mret (BadRequest invalid_type)
      else
        available ← has_available_executors (create_domain who req);
        now ← gets clock;
        r ← CreateTask cfg (new_task now who req (cr_IsEnabled req && available));
        mret match r with Ok i => Success (i, available) | Err e => FailFromError cfg e end
  end.

(** The new [is_enabled], and [has_available_executors] of the answer. *)
Definition update_enabled (req : UpdateRequest) (t : Task) : M (world R) (bool * bool) :=
  match ur_IsEnabled req with
  | Some true =>
      available ← has_available_executors (if 0 <? ur_DomainID req then ur_DomainID req else t_DomainID t);
      mret (available, available)
  | Some false => mret (false, true)
  | None => mret (t_IsEnabled t, true)
  end.
Definition h_Update (id : string) (req : option UpdateRequest) : M (world R) (response (TaskInfo * bool)) :=
  with_id id (λ id,
    current ← GetTaskByID cfg id;
    match current, req with
    | Err _, _ => mret (NotFound "task not found")
    | Ok _, None => mret (BadRequest "")
    | Ok i, Some req =>
        if negb (bool_decide (ur_Type req = "")) && negb (in_list (ur_Type req) validTypes) then mret (BadRequest invalid_type)
        else
          let t := apply_update req (info i) in
          '(isEnabled, available) ← update_enabled req t;
          let t := apply_rest req isEnabled t in
          r ← UpdateTask cfg id t;
          match r with
          | Err e => mret (FailFromError cfg e)
          | Ok _ =>
              again ← GetTaskByID cfg id;
              mret (Success (match again with
                             | Ok i => i
                             | Err _ => mkTaskInfo t (NextExecutionTime i) (LastExecutionStatus i)
                             end, available))
          end
    end).

Definition h_Delete (id : string) : M (world R) (response unit) :=
  with_id id (λ id, r ← DeleteTask cfg id; mret match r with Ok _ => Success tt | Err e => FailFromError cfg e end).

(** [ForwardToLeader] of [scheduler_core.go]: the resolver of the leader's
    address if there is one, and the answer to a request. *)
Variable resolver : option (result string string).
Variable request : string → result string (Z * string).
Definition ForwardToLeader (path : string) : result string (Z * string) :=
  match resolver with
  | None => Err "leader address resolver not configured"
  | Some (Err e) => Err ("failed to resolve leader address: " +:+ e)
  | Some (Ok leaderAddr) =>
      if bool_decide (leaderAddr = "") then Err "leader address is empty"
      else match request ("http://" +:+ leaderAddr +:+ path) with
           | Err e => Err ("failed to forward request to leader: " +:+ e)
           | Ok answer => Ok answer
           end
  end.
Definition forwardToLeader {A} (path : string) : response A :=
  match ForwardToLeader path with
  | Err e => ServiceUnavailable ("当前节点非主节点，转发请求到主节点失败: " +:+ e)
  | Ok (statusCode, body) => Data statusCode body
  end.

Variable unnamed : Z → string.
(** The answer to a trigger that failed. *)
Definition trigger_failure (errMsg domainName : string) : response string :=
  if Contains errMsg "no available executor" then
    Fail CodeNoAvailableExecutor (domainName +:+ " 没有可用的执行器，请联系管理员为 " +:+ domainName +:+ " 分配执行器")
  else if Contains errMsg "not online" then Fail CodeExecutorOffline "执行器不在线，请检查执行器状态"
  else if Contains errMsg "no capacity" then Fail CodeExecutorNoCapacity "执行器容量已满，请稍后重试或联系管理员扩容"
  else if Contains errMsg "dispatch failed" then Fail CodeDispatchFailed "任务分发失败，请检查执行器连接状态"
  else Fail CodeInternalError errMsg.
Definition h_Trigger (who : caller) (forwardedBy path id : string) : M (world R) (response string) :=
  with_id id (λ id,
    isLeader ← gets leader;
    if negb isLeader then
      mret (if bool_decide (forwardedBy = "") then forwardToLeader path
            else ServiceUnavailable "检测到请求转发循环，请检查集群节点配置")
    else
      task ← GetTaskByID cfg id;
      match task with
      | Err _ => mret (BadRequest "task not found")
      | Ok task =>
          if negb (is_system_admin (c_role who)) && negb (t_DomainID (info task) =? c_domain who) then mret (Forbidden "permission denied")
          else
            '(executionID, err) ← TriggerTask cfg id;
            match err with
            | None => mret (Success executionID)
            | Some err =>
                let errMsg := error_text cfg err in
                if Contains errMsg "already running" || Contains errMsg "already being executed"
                then mret (Fail CodeTaskRunning "任务正在运行中，请等待当前执行完成")
                else
                  domainName ← GetDomainName unnamed (t_DomainID (info task));
                  mret (trigger_failure errMsg domainName)
            end
      end).

(** ** Executions *)
Variable format_time : Z → string.
Record TaskExecutionResponse : Type := mkExecutionResponse {
  xr_ID : Z; xr_TaskID : Z; xr_ExecutionID : string; xr_ExecutorID : Z; xr_Status : string;
  xr_StartTime : option string; xr_EndTime : option string; xr_Output : string; xr_Error : string; xr_RetryTimes : Z;
  xr_CreatedAt : string; xr_names : option string * option string * option string;
}.
Definition toTaskExecutionResponse (x : TaskExecution) : TaskExecutionResponse :=
  mkExecutionResponse (x_ID x) (x_TaskID x) (ExecutionID x) (ExecutorID x) (x_Status x)
    (StartTime x ≫= safeTimePtr format_time) (EndTime x ≫= safeTimePtr format_time) (Output x) (Error x) (RetryTimes x)
    (format_time (x_CreatedAt x)) (None, None, None).
Record TaskLogResponse : Type := mkLogResponse {
  lr_ID : Z; lr_ExecutionID : string; lr_TaskID : Z; lr_ExecutorID : Z; lr_NodeID : string; lr_LogLevel : string;
  lr_Message : string; lr_LogTime : string;
}.
Definition toTaskLogResponse (l : TaskLog) : TaskLogResponse :=
  mkLogResponse (l_ID l) (l_ExecutionID l) (l_TaskID l) (l_ExecutorID l) (NodeID l) (LogLevel l) (Message l) (format_time (LogTime l)).

Definition h_Executions (id : string) : M (world R) (response (list TaskExecutionResponse)) :=
  with_id id (λ id,
    r ← GetTaskExecutions id;
    mret match r with Ok xs => Success (toTaskExecutionResponse <$> xs) | Err e => FailFromError cfg e end).
Definition h_ExecutionLogs (executionID : string) : M (world R) (response (list TaskLogResponse)) :=
  if bool_decide (safeString executionID = "") then mret (BadRequest "executionId required")
  else
    r ← GetTaskLogs executionID;
    mret match r with Ok ls => Success (toTaskLogResponse <$> ls) | Err e => FailFromError cfg e end.
Definition h_CancelExecution (who : caller) (executionID : string) : M (world R) (response string) :=
  if bool_decide (safeString executionID = "") then mret (BadRequest "execution_id required")
  else
    r ← CancelExecution cfg executionID (if bool_decide (c_username who = "") then "unknown" else c_username who);
    mret match r with
         | Ok _ => Success executionID
         | Err e =>
             if Contains (error_text cfg e) "not found" then NotFound "execution not found"
             else if Contains (error_text cfg e) "not running" then BadRequest (error_text cfg e)
             else FailFromError cfg e
         end.

(** ** [log.go] *)
Definition log_page (s : string) : Z := match ParseInt s with (p, true) => if 0 <? p then p else 1 | _ => 1 end.
Definition log_page_size (s : string) : Z := match ParseInt s with (n, true) => if 0 <? n then at_most 100 n else 20 | _ => 20 end.
Definition named (s : string) : option string := if bool_decide (s = "") then None else Some s.
Definition with_names_response (x : TaskExecutionWithNames) : TaskExecutionResponse :=
  let r := toTaskExecutionResponse (n_execution x) in
  mkExecutionResponse (xr_ID r) (xr_TaskID r) (xr_ExecutionID r) (xr_ExecutorID r) (xr_Status r) (xr_StartTime r) (xr_EndTime r)
    (xr_Output r) (xr_Error r) (xr_RetryTimes r) (xr_CreatedAt r) (named (TaskName x), named (TaskType x), named (ExecutorName x)).
Definition log_List (who : caller) (f : ExecutionFilter) (page pageSize : string) :
    M (world R) (response (list TaskExecutionResponse * Z * Z * Z)) :=
  r ← GetAllExecutions (c_domain who) (c_role who) f (log_page page) (log_page_size pageSize);
  mret match r with
       | Ok (xs, total) => Success (with_names_response <$> xs, total, log_page page, log_page_size pageSize)
       | Err e => InternalServerError (error_text cfg e)
       end.
Definition log_Delete (who : caller) (id : string) : M (world R) (response unit) :=
  with_id id (λ id,
    r ← DeleteExecutionWithDomainCheck id (c_domain who) (c_role who);
    mret match r with Ok _ => Success tt | Err e => InternalServerError (error_text cfg e) end).
Definition log_BatchDelete (who : caller) (ids : option (list Z)) : M (world R) (response unit) :=
  match ids with
  | None => mret (BadRequest "")
  | Some [] => mret (BadRequest "no ids provided")
  | Some ids =>
      r ← BatchDeleteExecutionsWithDomainCheck ids (c_domain who) (c_role who);
      mret match r with Ok _ => Success tt | Err e => InternalServerError (error_text cfg e) end
  end.
Definition log_GetStats (who : caller) (f : ExecutionFilter) : M (world R) (response (gmap string Z)) :=
  r ← GetExecutionStats (c_domain who) (c_role who) f;
  mret match r with Ok s => Success s | Err e => InternalServerError (error_text cfg e) end.

(** ** [StreamLogs] *)
Record stream : Type := mkStream { lastLogID : Z; lastOutputHash : Z; lastErrorHash : Z }.
Definition fresh_stream : stream := mkStream 0 0 0.
(** What is written to the client: a log line as its text, an update, the end. *)
Inductive sse : Type :=
| LogLine (l : TaskLog) (data : string)
| Update (status output error : string) (start_time end_time : option string)
| Done (status : string)
| Heartbeat.

Definition field (name value : string) : string := String quotation name +:+ String quotation (":" +:+ value).
Definition quoted (s : string) : string := String quotation s +:+ String quotation EmptyString.
Definition log_data (l : TaskLog) : string :=
  "{" +:+ field "id" (fmt_d (l_ID l)) +:+ "," +:+ field "execution_id" (quoted (l_ExecutionID l)) +:+ "," +:+
  field "task_id" (fmt_d (l_TaskID l)) +:+ "," +:+ field "node_id" (quoted (NodeID l)) +:+ "," +:+
  field "log_level" (quoted (LogLevel l)) +:+ "," +:+ field "message" (quoted (escapeJSON (Message l))) +:+ "," +:+
  field "log_time" (quoted (format_time (LogTime l))) +:+ "}".

(** [for _, log := range logs] *)
Fixpoint new_lines (last : Z) (logs : list TaskLog) : Z * list sse :=
  match logs with
  | [] => (last, [])
  | l :: logs =>
      if last <? l_ID l then let '(last, out) := new_lines (l_ID l) logs in (last, LogLine l (log_data l) :: out)
      else new_lines last logs
  end.
Definition send_lines (logs : list TaskLog) (s : stream) : stream * list sse :=
  let '(last, out) := new_lines (lastLogID s) logs in (mkStream last (lastOutputHash s) (lastErrorHash s), out).
Definition send_update (x : TaskExecution) (s : stream) : stream * list sse :=
  let outputHash := fnvHash (Output x) in
  let errorHash := fnvHash (Error x) in
  if (outputHash =? lastOutputHash s) && (errorHash =? lastErrorHash s) then (s, [])
  else (mkStream (lastLogID s) outputHash errorHash,
        [Update (x_Status x) (safeString (Output x)) (safeString (Error x))
           (safeTimePtr format_time (default zero_time (StartTime x))) (safeTimePtr format_time (default zero_time (EndTime x)))]).
Definition finished (status : string) : bool := in_list status ["success"; "failed"].

(** A tick: the new state, what is written, and whether the stream ends. *)
Definition tick (executionID : string) (s : stream) : M (world R) (stream * list sse * bool) :=
  logs ← GetTaskLogs executionID;
  let '(s, out) := match logs with Ok ls => send_lines ls s | Err _ => (s, []) end in
  exec ← GetExecutionByExecutionID executionID;
  mret match exec with
       | Ok (Some x) =>
           let '(s, upd) := send_update x s in
           if finished (x_Status x) then (s, out ++ upd ++ [Done (x_Status x)], true)
           else (s, out ++ upd ++ [Heartbeat], false)
       | _ => (s, out ++ [Heartbeat], false)
       end.
End handlers.

(** ** Requests as events of the system *)

(** What the routes of tasks and executions take; deleting executions is left
    out, as in [System]. *)
Inductive task_request : Type :=
| QList (who : caller) (page pageSize search type created_by is_enabled : string)
| QGet (id : string)
| QCreate (who : caller) (req : option CreateRequest)
| QUpdate (id : string) (req : option UpdateRequest)
| QDelete (id : string)
| QTrigger (who : caller) (forwardedBy path id : string)
| QExecutions (id : string)
| QExecutionLogs (executionID : string)
| QCancelExecution (who : caller) (executionID : string)
| QTick (executionID : string) (s : stream)
| QLogs (who : caller) (f : ExecutionFilter) (page pageSize : string)
| QStats (who : caller) (f : ExecutionFilter).

(** What the handlers take from their surroundings. *)
Record setting : Type := mkSetting {
  s_env : env; s_gap : Z; s_resolver : option (result string string); s_request : string → result string (Z * string);
  s_unnamed : Z → string; s_time : Z → string;
}.
Definition serve `{Redis R} (g : setting) (q : task_request) : M (world R) unit :=
  let cfg := s_env g in
  match q with
  | QList who page pageSize search type created_by is_enabled =>
      _ ← h_List cfg who page pageSize search type created_by is_enabled; mret tt
  | QGet id => _ ← h_Get cfg id; mret tt
  | QCreate who req => _ ← h_Create cfg (s_gap g) who req; mret tt
  | QUpdate id req => _ ← h_Update cfg (s_gap g) id req; mret tt
  | QDelete id => _ ← h_Delete cfg id; mret tt
  | QTrigger who forwardedBy path id =>
      _ ← h_Trigger cfg (s_resolver g) (s_request g) (s_unnamed g) who forwardedBy path id; mret tt
  | QExecutions id => _ ← h_Executions cfg (s_time g) id; mret tt
  | QExecutionLogs executionID => _ ← h_ExecutionLogs cfg (s_time g) executionID; mret tt
  | QCancelExecution who executionID => _ ← h_CancelExecution cfg who executionID; mret tt
  | QTick executionID s => _ ← tick (s_time g) executionID s; mret tt
  | QLogs who f page pageSize => _ ← log_List cfg (s_time g) who f page pageSize; mret tt
  | QStats who f => _ ← log_GetStats cfg who f; mret tt
  end.

(** The event of [System] a request can stand for: its own operation, on the
    task or execution it names. *)
Definition request_op {R} (q : task_request) (o : op (R := R)) : Prop :=
  match q, o with
  | QCreate who (Some req), OpCreateTask row => ∃ now isEnabled, row = new_task now who req isEnabled
  | QUpdate id _, OpUpdateTask i _ => parse_id id = inr i
  | QDelete id, OpDeleteTask i => parse_id id = inr i
  | QTrigger _ _ _ id, OpTrigger i => parse_id id = inr i
  | QCancelExecution who executionID, OpCancel i by_ =>
      i = executionID ∧ by_ = (if bool_decide (c_username who = "") then "unknown" else c_username who)
  | _, _ => False
  end.

Section events.
Context `{RedisLaws R}.
Variable cfg : env.
Implicit Types w : world R.
Implicit Types K : op (R := R) → Prop.

(** From [w], [m] leaves the world as it is or as one event of the system
    would, one of [K]. *)
Definition one_event {A} K w (m : M (world R) A) : Prop :=
  ∀ fs, (m w fs).2.1 = w ∨ ∃ o fs', K o ∧ op_ok 10 o ∧ (m w fs).2.1 = (run (handle cfg o) w fs').2.

Lemma event_reads {A} K w (m : M (world R) A) : reads m → one_event K w m.
Proof. intros Hm fs. left. by apply (Hm (λ w', w' = w)). Qed.
Lemma event_ret {A} K w (a : A) : one_event K w (mret a).
Proof. by left. Qed.
Lemma event_after {A B} K w (m : M (world R) A) (k : A → M (world R) B) (Q : A → Prop) :
  triple (eq w) m (λ a w', w' = w ∧ Q a) → (∀ a, Q a → one_event K w (k a)) → one_event K w (m ≫= k).
Proof.
  intros Hm Hk fs. rewrite run_bind. destruct (Hm w fs eq_refl) as [Hw Ha]. destruct (m w fs) as [a [w' fs']]. simpl in *. subst w'.
  by apply Hk.
Qed.
Lemma event_read {A B} K w (m : M (world R) A) (k : A → M (world R) B) :
  reads m → (∀ a, one_event K w (k a)) → one_event K w (m ≫= k).
Proof.
  intros Hm Hk. apply (event_after K w m k (λ _, True)); [|by auto]. intros w1 fs <-. split; [|done]. by apply (Hm (λ w', w' = w)).
Qed.
(** The event itself, and reads after it. *)
Lemma event_op {A B} K w (o : op) (m : M (world R) A) (k : A → M (world R) B) :
  (∀ fs, (m w fs).2.1 = (run (handle cfg o) w fs).2) → K o → op_ok 10 o → (∀ a, reads (k a)) → one_event K w (m ≫= k).
Proof.
  intros Hm HK Ho Hk fs. right. exists o, fs. split; [done|]. split; [done|]. rewrite <- Hm, run_bind. destruct (m w fs) as [a [w' fs']]. simpl.
  by apply (Hk a (λ w1, w1 = w')).
Qed.
Lemma event_id {A} K w s (k : Z → M (world R) (response A)) : (∀ id, parse_id s = inr id → one_event K w (k id)) → one_event K w (with_id s k).
Proof. intros Hk. unfold with_id. destruct (parse_id s) as [e|i]; [apply event_ret|by apply Hk]. Qed.

Lemma reads_ret {A} (a : A) : reads (mret a : M (world R) A).
Proof. intros P. apply preserves_ret. Qed.
Lemma reads_bind {A B} (m : M (world R) A) (k : A → M (world R) B) : reads m → (∀ a, reads (k a)) → reads (m ≫= k).
Proof. intros Hm Hk P. apply preserves_bind; [apply Hm|intros a; apply Hk]. Qed.
Lemma reads_gets {A} (f : world R → A) : reads (gets f : M (world R) A).
Proof. intros P. apply preserves_gets. Qed.
Lemma reads_select {A} (f : tables → A) : reads (select f : M (world R) _).
Proof. intros P. apply preserves_select. Qed.
Lemma reads_id {A} s (k : Z → M (world R) (response A)) : (∀ id, reads (k id)) → reads (with_id s k).
Proof. intros Hk. unfold with_id. destruct (parse_id s); [apply reads_ret|apply Hk]. Qed.
Lemma reads_available gap domainID : reads (has_available_executors gap domainID : M (world R) _).
Proof.
  apply reads_bind; [apply reads_gets|intros now]. apply reads_bind; [apply reads_select|intros r]. apply reads_ret.
Qed.
Lemma reads_GetDomainName unnamed d : reads (GetDomainName unnamed d : M (world R) _).
Proof. intros P. unfold GetDomainName. solve_preserves. Qed.
Lemma reads_ListTasksWithFilter f : reads (ListTasksWithFilter cfg f : M (world R) _).
Proof.
  intros P. pose proof (λ ts, preserves_reads P _ (reads_with_statuses cfg ts)). unfold ListTasksWithFilter. solve_preserves.
Qed.

(** A task that was read is the row of the table, its numbers cut to 32 bits. *)
Lemma GetTaskByID_row id w :
  triple (eq w) (GetTaskByID cfg id)
    (λ r w', w' = w ∧ ∀ i, r = Ok i → ∃ t, find_task id (tabs w) = Some t ∧ info i = scan_task t).
Proof.
  unfold GetTaskByID. eapply triple_bind; [apply triple_select|].
  intros [[t|]|e]; [|by apply triple_ret; intros w' [-> _]..].
  unfold with_status. intros w' fs [-> Hr]. specialize (Hr _ eq_refl). rewrite run_bind, run_bind.
  assert (preserves (eq w) (getLastExecutionStatus (t_ID t) : M (world R) _)) as Hp by (unfold getLastExecutionStatus; solve_preserves).
  specialize (Hp w fs eq_refl). destruct (getLastExecutionStatus (t_ID t) w fs) as [s [w1 fs1]]. simpl in Hp. subst w1. simpl.
  split; [done|]. intros i [= <-]. unfold find_task. destruct (head _) as [k|]; [|done]. injection Hr as ->. by exists k.
Qed.
Lemma find_task_in id t k : find_task id t = Some k → k ∈ rows (tasks t) ∧ t_ID k = id.
Proof.
  unfold find_task. intros Hk. destruct (where_ _ _) as [|x l] eqn:E; [done|]. injection Hk as ->.
  assert (k ∈ where_ (λ k, t_ID k =? id) (rows (tasks t))) as [? ?%Z.eqb_eq]%elem_of_where by (rewrite E; by left). done.
Qed.

Lemma create_retries_range req : 0 ≤ create_retries req ≤ 10.
Proof. unfold create_retries, at_most. repeat case_match; lia. Qed.
Lemma updated_retries_range req old : 0 ≤ old ≤ 10 → 0 ≤ updated_retries req old ≤ 10.
Proof. unfold updated_retries, at_most. repeat case_match; lia. Qed.

Lemma event_Create gap w who req : one_event (request_op (QCreate who req)) w (h_Create cfg gap who req).
Proof.
  destruct req as [req|]; [|apply event_ret]. unfold h_Create. do 3 (case_match; [apply event_ret|]).
  apply event_read; [apply reads_available|intros available]. apply event_read; [apply reads_gets|intros now].
  apply (event_op _ w (OpCreateTask (new_task now who req (cr_IsEnabled req && available)))).
  - intros fs. simpl. unfold run. rewrite run_bind. by destruct (CreateTask _ _ w fs) as [? [??]].
  - simpl. by eexists _, _.
  - intros id. apply create_retries_range.
  - intros r. apply reads_ret.
Qed.

Lemma event_Update gap w id req :
  bounded 10 (tasks (tabs w)) → one_event (request_op (QUpdate id req)) w (h_Update cfg gap id req).
Proof.
  intros HB. apply event_id. intros i Hid. eapply event_after; [apply GetTaskByID_row|]. cbv beta.
  intros [task|e] Hrow; [|apply event_ret]. destruct (Hrow task eq_refl) as (t & [Hin _]%find_task_in & Ht).
  destruct req as [req|]; [|apply event_ret]. case_match; [apply event_ret|]. cbv zeta. apply event_read.
  { unfold update_enabled. case_match; [|apply reads_ret]. case_match; [|apply reads_ret].
    apply reads_bind; [apply reads_available|intros a; apply reads_ret]. }
  intros [isEnabled available]. set (t1 := apply_rest req isEnabled (apply_update req (info task))).
  apply (event_op _ w (OpUpdateTask i t1)).
  - intros fs. simpl. unfold run. rewrite run_bind. by destruct (UpdateTask _ _ _ w fs) as [? [??]].
  - done.
  - simpl. rewrite Ht. simpl. apply updated_retries_range. specialize (HB t Hin). rewrite int32_small by lia. done.
  - intros [u|e]; [|apply reads_ret]. apply reads_bind; [apply reads_GetTaskByID|intros a; apply reads_ret].
Qed.

Lemma event_Trigger w resolver request unnamed who forwardedBy path id :
  one_event (request_op (QTrigger who forwardedBy path id)) w (h_Trigger cfg resolver request unnamed who forwardedBy path id).
Proof.
  apply event_id. intros i Hid. apply event_read; [apply reads_gets|intros b]. case_match; [apply event_ret|].
  apply event_read; [apply reads_GetTaskByID|intros [task|e]]; [|apply event_ret]. case_match; [apply event_ret|].
  apply (event_op _ w (OpTrigger i)).
  - intros fs. simpl. unfold run. rewrite run_bind. by destruct (TriggerTask _ _ w fs) as [? [??]].
  - done.
  - done.
  - intros [x [err|]]; [|apply reads_ret]. cbv zeta. case_match; [apply reads_ret|].
    apply reads_bind; [apply reads_GetDomainName|intros n; apply reads_ret].
Qed.

Lemma event_Delete w id : one_event (request_op (QDelete id)) w (h_Delete cfg id).
Proof.
  apply event_id. intros i Hid. apply (event_op _ w (OpDeleteTask i)); [|done|done|intros r; apply reads_ret].
  intros fs. simpl. unfold run. rewrite run_bind. by destruct (DeleteTask _ _ w fs) as [? [??]].
Qed.
Lemma event_Cancel w who i : one_event (request_op (QCancelExecution who i)) w (h_CancelExecution cfg who i).
Proof.
  unfold h_CancelExecution. case_match; [apply event_ret|].
  apply (event_op _ w (OpCancel i (if bool_decide (c_username who = "") then "unknown" else c_username who)));
    [|by split|done|intros r; apply reads_ret].
  intros fs. simpl. unfold run. rewrite run_bind. by destruct (CancelExecution _ _ _ w fs) as [? [??]].
Qed.
Lemma reads_tick format_time executionID s : reads (tick format_time executionID s : M (world R) _).
Proof.
  apply reads_bind; [apply reads_select|intros logs]. destruct (match logs with Ok ls => _ | Err _ => _ end) as [s' out].
  apply reads_bind; [|intros x; apply reads_ret]. apply reads_bind; [apply reads_select|intros x; apply reads_ret].
Qed.

Lemma event_then {A} K w (m : M (world R) A) : one_event K w m → one_event K w (_ ← m; mret tt).
Proof. intros Hm fs. specialize (Hm fs). rewrite run_bind. by destruct (m w fs) as [a [w' fs']]. Qed.
Lemma reads_ok {A B} (m : M (world R) (result error A)) (k : A → M (world R) (result error B)) :
  reads m → (∀ a, reads (k a)) → reads (bind_ok m k).
Proof. intros Hm Hk. apply reads_bind; [done|]. intros [a|e]; [apply Hk|apply reads_ret]. Qed.
End events.

Lemma event_serve `{RedisLaws R} (g : setting) (q : task_request) (w : world R) :
  bounded 10 (tasks (tabs w)) → one_event (s_env g) (request_op q) w (serve g q).
Proof.
  intros HB. destruct q; apply event_then.
  - apply event_reads, reads_bind; [apply reads_ListTasksWithFilter|intros r; apply reads_ret].
  - apply event_reads, reads_id. intros i. apply reads_bind; [apply reads_GetTaskByID|intros r; apply reads_ret].
  - apply event_Create.
  - by apply event_Update.
  - apply event_Delete.
  - apply event_Trigger.
  - apply event_reads, reads_id. intros i. apply reads_bind; [apply reads_select|intros r; apply reads_ret].
  - apply event_reads. unfold h_ExecutionLogs. case_match; [apply reads_ret|]. apply reads_bind; [apply reads_select|intros r; apply reads_ret].
  - apply event_Cancel.
  - apply event_reads, reads_tick.
  - apply event_reads, reads_bind; [|intros r; apply reads_ret]. do 2 (apply reads_ok; [apply reads_select|intros ?]). apply reads_ret.
  - apply event_reads, reads_bind; [apply reads_select|intros r; apply reads_ret].
Qed.

Section node.
Context `{RedisLaws R}.
Implicit Types w : world R.

(** A node that serves requests while the events of [System] reach it. *)
Inductive node_step : world R → world R → Prop :=
| node_event w w' : system_step 10 w w' → node_step w w'
| node_request g q fs w : node_step w (serve g q w fs).2.1.

Lemma node_reachable w : reachable node_step (system_start 10) w → reachable (system_step 10) (system_start 10) w.
Proof.
  revert w. apply reachable_invariant.
  - intros w Hw. exists w. by split; [|apply rtc_refl].
  - intros w w' Hw Hs. destruct Hs as [w w' Hs|g q fs w].
    + destruct Hw as (w0 & Hst & Hr). exists w0. split; [done|]. by eapply rtc_r.
    + destruct (event_serve g q w) with (fs := fs) as [->|(o & fs' & _ & Ho & ->)]; [by apply (inv_tasks 10 w), Inv_reachable|done|].
      destruct Hw as (w0 & Hst & Hr). exists w0. split; [done|]. eapply rtc_r; [done|]. by apply step_op.
Qed.

(** C26: the handlers of tasks refine the system: in every state a node can
    reach, every request, whatever it asks for and whatever fails, leaves the
    node as it was or exactly as one event of [System] would, the operation
    the request stands for on the task or execution it names, with at most ten
    retries.  Reading requests change nothing.  Deleting executions is not
    among the requests. *)
Theorem task_requests_refine_system w g q fs (Hw : reachable node_step (system_start 10) w) :
  let w' := (serve g q w fs).2.1 in
  w' = w ∨
  ∃ o fs', request_op q o ∧ op_ok 10 o ∧ w' = (run (handle (s_env g) o) w fs').2 ∧
           system_step 10 w w'.
Proof.
  intros w'. apply node_reachable in Hw. destruct (event_serve g q w) with (fs := fs) as [Hs|(o & fs' & Hq & Ho & Hs)].
  - by apply (inv_tasks 10 w), Inv_reachable.
  - by left.
  - right. exists o, fs'. split; [done|]. split; [done|]. split; [done|]. unfold w'. rewrite Hs. by apply step_op.
Qed.
End node.

(** ** What the handlers store *)
Record task_ok (t : Task) : Prop := {
  ok_type : t_Type t ∈ validTypes;
  ok_name : t_Name t ≠ "";
  ok_timeout : 0 ≤ TimeoutSeconds t ≤ 86400;
  ok_retries : 0 ≤ RetryCount t ≤ 10;
  ok_interval : - 2 ^ 31 ≤ RetryInterval t ≤ 3600;
  ok_waits : 0 < RetryCount t → 0 < RetryInterval t;
  ok_domain : 0 < t_DomainID t;
  ok_executor : 0 ≤ AssignedExecutorID t;
}.
(** The numbers of a request fit in 32 bits. *)
Definition create_fits (req : CreateRequest) : Prop := - 2 ^ 31 ≤ cr_RetryInterval req ∧ - 2 ^ 31 ≤ cr_RetryDelaySeconds req.

Lemma scan_task_ok t : task_ok t → scan_task t = t.
Proof.
  intros [_ _ Ht Hr Hi _ _ _]. unfold scan_task. rewrite !int32_small by lia. by destruct t.
Qed.
Lemma validTypes_trimmed s : in_list s validTypes = true → safeString s = s.
Proof.
  unfold in_list. rewrite bool_decide_eq_true. intros [->|[->|[]%elem_of_nil]%elem_of_cons]%elem_of_cons; by vm_compute.
Qed.
Lemma new_task_ok now who req isEnabled id :
  create_fits req → safeString (cr_Name req) ≠ "" → in_list (cr_Type req) validTypes = true →
  task_ok (new_task now who req isEnabled id).
Proof.
  intros [Hf1 Hf2] Hn Ht. split; simpl.
  - rewrite validTypes_trimmed by done. by apply bool_decide_eq_true in Ht.
  - done.
  - unfold create_timeout, at_most. repeat case_match; lia.
  - apply create_retries_range.
  - unfold create_interval, at_most. repeat case_match; lia.
  - unfold create_interval, at_most. intros Hr. apply Z.ltb_lt in Hr. rewrite Hr.
    destruct (Z.leb_spec (if cr_RetryInterval req <? 0 then cr_RetryDelaySeconds req else cr_RetryInterval req) 0); simpl; [lia|].
    repeat case_match; lia.
  - unfold create_domain. destruct (Z.leb_spec (if (cr_DomainID req <=? 0) && (0 <? c_domain who) then c_domain who else cr_DomainID req) 0); lia.
  - case_match; lia.
Qed.
Lemma updated_ok req isEnabled now t k : task_ok t → task_ok k → (ur_Type req = "" ∨ in_list (ur_Type req) validTypes = true) →
  task_ok (update_task now (apply_rest req isEnabled (apply_update req t)) k).
Proof.
  intros [Ht Hn Hto Hr Hi Hw Hd He] [_ _ _ _ _ _ Hdk _] Htype. pose proof (updated_retries_range req (RetryCount t) Hr) as Hr'.
  split; simpl.
  - case_bool_decide; [done|]. destruct Htype as [?|Htype]; [done|]. by apply bool_decide_eq_true in Htype.
  - by case_bool_decide.
  - unfold at_most. repeat case_match; lia.
  - done.
  - unfold updated_interval, at_most. repeat case_match; lia.
  - unfold updated_interval. intros Hc. apply Z.ltb_lt in Hc. rewrite Hc. simpl. case_match; [lia|].
    by match goal with E : (?x <=? 0) = false |- _ => apply Z.leb_gt in E end.
  - done.
  - case_match; lia.
Qed.

Section stored.
Context `{RedisLaws R}.
Variable cfg : env.
Implicit Types w : world R.
Definition tasks_ok (ts : table Task) : Prop := ∀ k, k ∈ rows ts → task_ok k.
Definition stores_ok w : Prop := tasks_ok (tasks (tabs w)).

Lemma stores_ok_notify c : preserves stores_ok (notify_cron cfg c : M (world R) _).
Proof.
  unfold notify_cron. repeat preserves_step; try (by apply preserves_effect); try (by apply preserves_redis_call).
Qed.
Lemma stores_ok_Create gap who req : (∀ r, req = Some r → create_fits r) → preserves stores_ok (h_Create cfg gap who req : M (world R) _).
Proof.
  intros Hf. destruct req as [req|]; [|apply preserves_ret]. specialize (Hf req eq_refl). unfold h_Create.
  case_bool_decide as Hn; [apply preserves_ret|]. case_bool_decide; [apply preserves_ret|].
  destruct (in_list (cr_Type req) validTypes) eqn:Ht; [|apply preserves_ret]. cbv [negb].
  apply preserves_bind; [apply reads_available|intros available]. apply preserves_bind; [apply preserves_gets|intros now].
  apply preserves_bind; [|intros r; apply preserves_ret]. unfold CreateTask. apply preserves_bind_ok.
  - apply preserves_write_checked. intros w id t [= <- <-] Hw k Hk. simpl in Hk.
    apply elem_of_app in Hk as [Hk|Hk%list_elem_of_singleton]; [by apply Hw|]. subst k. by apply new_task_ok.
  - intros id. apply preserves_bind_ok; [apply reads_GetTaskByID|intros i].
    apply preserves_bind; [apply stores_ok_notify|intros u; apply preserves_ret].
Qed.
Lemma reads_update_enabled gap req t : reads (update_enabled gap req t : M (world R) _).
Proof.
  unfold update_enabled. case_match; [|apply reads_ret]. case_match; [|apply reads_ret].
  apply reads_bind; [apply reads_available|intros a; apply reads_ret].
Qed.
Lemma stores_ok_UpdateTask id t : (∀ now k, task_ok k → task_ok (update_task now t k)) →
  preserves stores_ok (UpdateTask cfg id t : M (world R) _).
Proof.
  intros Ht. unfold UpdateTask. apply preserves_bind; [apply preserves_gets|intros now]. apply preserves_bind_ok.
  - apply preserves_write. intros w Hw k. simpl. intros (k0 & -> & Hk)%list_elem_of_fmap. case_match; [apply Ht|]; by apply Hw.
  - intros u. apply preserves_bind_ok; [apply reads_GetTaskByID|intros i].
    apply preserves_bind; [apply stores_ok_notify|intros v; apply preserves_ret].
Qed.
Lemma stores_ok_Update gap id req : preserves stores_ok (h_Update cfg gap id req : M (world R) _).
Proof.
  unfold h_Update, with_id. destruct (parse_id id) as [|i]; [apply preserves_ret|]. intros w fs Hw.
  pose proof (GetTaskByID_row cfg i w w fs eq_refl) as Hrow. rewrite run_bind.
  destruct (GetTaskByID cfg i w fs) as [current [w1 fs1]]. simpl in Hrow. destruct Hrow as [-> Hrow].
  destruct current as [task|e]; [|done]. destruct req as [req|]; [|done].
  destruct (Hrow task eq_refl) as (t & [Hin _]%find_task_in & Ht). pose proof (Hw t Hin) as Hok. rewrite (scan_task_ok t Hok) in Ht.
  destruct (negb _ && negb _) eqn:Etype; [done|]. cbv zeta.
  match goal with |- stores_ok (?m w fs1).2.1 => assert (preserves stores_ok m) as Hm; [|by apply Hm] end.
  apply preserves_bind; [apply reads_update_enabled|]. intros [isEnabled available]. apply preserves_bind.
  - apply stores_ok_UpdateTask. intros now k Hk. rewrite Ht. apply updated_ok; [done|done|].
    apply andb_false_iff in Etype as [E|E]; apply negb_false_iff in E; [left; by apply bool_decide_eq_true in E|by right].
  - intros [u|e]; [|apply preserves_ret]. apply preserves_bind; [apply reads_GetTaskByID|intros a; apply preserves_ret].
Qed.
Lemma stores_ok_Delete id : preserves stores_ok (h_Delete cfg id : M (world R) _).
Proof.
  unfold h_Delete, with_id. destruct (parse_id id) as [|i]; [apply preserves_ret|].
  apply preserves_bind; [|intros r; apply preserves_ret]. unfold DeleteTask. apply preserves_bind_ok.
  - apply preserves_write. intros w Hw k. simpl. intros [Hk _]%elem_of_where. by apply Hw.
  - intros u. apply preserves_bind; [apply stores_ok_notify|intros v; apply preserves_ret].
Qed.

(** C27: whatever the requests that create, change and delete tasks ask for,
    and whatever fails, a stored task is of a known type and has a name, its
    time limit is at most a day, it is retried at most ten times, with at
    least a second and at most an hour in between, and belongs to a domain. *)
Theorem stored_tasks_well_formed gap who create id update :
  (∀ r, create = Some r → create_fits r) →
  preserves stores_ok (h_Create cfg gap who create : M (world R) _) ∧
  preserves stores_ok (h_Update cfg gap id update : M (world R) _) ∧
  preserves stores_ok (h_Delete cfg id : M (world R) _).
Proof. intros Hf. split_and!; [by apply stores_ok_Create|apply stores_ok_Update|apply stores_ok_Delete]. Qed.

(** ** Who may trigger *)

(** whatever fails, a request to trigger a task changes something, or is
    answered with an execution, only on the leader, for a task that is there,
    and only for a caller who is an administrator or whose current domain is
    the one of the task. *)
Theorem h_Trigger_guarded resolver request unnamed who forwardedBy path id w fs :
  let '(r, (w', _)) := h_Trigger cfg resolver request unnamed who forwardedBy path id w fs in
  (w' = w ∧ ∀ x, r ≠ Success x) ∨
  leader w = true ∧ ∃ i t, parse_id id = inr i ∧ find_task i (tabs w) = Some t ∧
    (is_system_admin (c_role who) = true ∨ t_DomainID t = c_domain who).
Proof.
  unfold h_Trigger, with_id. destruct (parse_id id) as [m|i] eqn:Ei; [by left|]. rewrite run_bind. simpl.
  destruct (leader w) eqn:El; simpl.
  - rewrite run_bind. pose proof (GetTaskByID_row cfg i w w fs eq_refl) as Hrow.
    destruct (GetTaskByID cfg i w fs) as [task [w1 fs1]]. simpl in Hrow. destruct Hrow as [-> Hrow].
    destruct task as [task|e]; [|by left]. destruct (Hrow task eq_refl) as (t & Ht & Hs). rewrite Hs. simpl.
    destruct (negb (is_system_admin (c_role who)) && negb (t_DomainID t =? c_domain who)) eqn:Eg; [by left|].
    match goal with |- let '(_, _) := ?x in _ => destruct x as [r [w' fs']] end. right. split; [done|]. exists i, t. split_and!; [done|done|].
    apply andb_false_iff in Eg as [E|E]; apply negb_false_iff in E; [by left|right; by apply Z.eqb_eq].
  - left. split; [done|]. intros x. case_bool_decide; [|done]. unfold forwardToLeader. destruct (ForwardToLeader _ _ _) as [[c b]|e]; done.
Qed.
End stored.

(** ** What a client reads *)

Lemma ReplaceAll_app c by_ a b : ReplaceAll c by_ (a +:+ b) = ReplaceAll c by_ a +:+ ReplaceAll c by_ b.
Proof.
  induction a as [|d a IH]; [done|]. rewrite string_app_cons. simpl. by rewrite IH, (assoc_L String.append).
Qed.
Definition escape_char (c : ascii) : string :=
  if Ascii.eqb c backslash then escaped backslash else if Ascii.eqb c quotation then escaped quotation
  else if Ascii.eqb c newline then escaped "n" else if Ascii.eqb c "013" then escaped "r"
  else if Ascii.eqb c "009" then escaped "t" else String c EmptyString.
Lemma escapeJSON_cons c s : escapeJSON (String c s) = escape_char c +:+ escapeJSON s.
Proof.
  change (String c s) with (String c EmptyString +:+ s). unfold escapeJSON. rewrite !ReplaceAll_app. f_equal.
  by destruct c as [[] [] [] [] [] [] [] []].
Qed.

(** A JSON reader inside a string, after its quotation mark: the text and what
    follows.  Bytes below 32 are not allowed in it. *)
Definition unescape (c : ascii) : option ascii :=
  if Ascii.eqb c backslash then Some backslash else if Ascii.eqb c quotation then Some quotation
  else if Ascii.eqb c "n" then Some newline else if Ascii.eqb c "r" then Some "013"%char
  else if Ascii.eqb c "t" then Some "009"%char else None.
Definition control (c : ascii) : bool := (N_of_ascii c <? 32)%N.
Fixpoint read_string (s : string) : option (string * string) :=
  match s with
  | EmptyString => None
  | String c s' =>
      if Ascii.eqb c quotation then Some ("", s')
      else if Ascii.eqb c backslash then
        match s' with
        | String d s'' => x ← unescape d; '(m, rest) ← read_string s''; Some (String x m, rest)
        | EmptyString => None
        end
      else if control c then None
      else '(m, rest) ← read_string s'; Some (String c m, rest)
  end.
(** The only control characters are line ends and tabs. *)
Definition writable (s : string) : Prop :=
  Forall (λ c, control c = false ∨ c ∈ ["009"%char; "010"%char; "013"%char]) (String.list_ascii_of_string s).

Lemma read_escaped c s : control c = false ∨ c ∈ ["009"%char; "010"%char; "013"%char] →
  read_string (escape_char c +:+ s) = '(m, rest) ← read_string s; Some (String c m, rest).
Proof.
  intros Hc. unfold escape_char.
  destruct (Ascii.eqb_spec c backslash) as [->|H1]; [done|]. destruct (Ascii.eqb_spec c quotation) as [->|H2]; [done|].
  destruct (Ascii.eqb_spec c newline) as [->|H3]; [done|]. destruct (Ascii.eqb_spec c "013") as [->|H4]; [done|].
  destruct (Ascii.eqb_spec c "009") as [->|H5]; [done|]. rewrite string_app_cons. simpl.
  destruct (Ascii.eqb_spec c quotation); [done|]. destruct (Ascii.eqb_spec c backslash); [done|].
  assert (control c = false) as ->; [|done]. destruct Hc as [Hc|Hc]; [done|]. exfalso.
  apply elem_of_cons in Hc as [->|[->|[->|[]%elem_of_nil]%elem_of_cons]%elem_of_cons]; done.
Qed.
Lemma message_reads_back s rest : writable s → read_string (escapeJSON s +:+ String quotation rest) = Some (s, rest).
Proof.
  induction s as [|c s IH]; intros Hw; [done|]. apply Forall_cons in Hw as [Hc Hw].
  rewrite escapeJSON_cons, <- (assoc_L String.append), read_escaped, IH by done. done.
Qed.

Section streams.
Context `{RedisLaws R}.
Variable format_time : Z → string.
Implicit Types w : world R.

(** What a poll reads, and the lines that were sent. *)
Definition logs_of (executionID : string) w : list TaskLog :=
  order_by (λ a b, LogTime a <=? LogTime b) (where_ (λ l, bool_decide (l_ExecutionID l = executionID)) (rows (task_logs (tabs w)))).
Definition lines (out : list sse) : list TaskLog := omap (λ e, match e with LogLine l _ => Some l | _ => None end) out.

(** The loop of a stream over the ticks to come, each in the world of its
    moment: what is sent, and the ticks that are left when the stream ends. *)
Fixpoint watch (executionID : string) (s : stream) (ticks : list (world R * list fate)) :
    list sse * list (world R * list fate) :=
  match ticks with
  | [] => ([], [])
  | (w, fs) :: ticks =>
      let '(s1, out, ends) := (tick format_time executionID s w fs).1 in
      if (ends : bool) then (out, ticks)
      else let '(more, left_) := watch executionID s1 ticks in (out ++ more, left_)
  end.

(** Logs are only added, at the end, with identifiers in the order of time. *)
Definition in_order (l : list TaskLog) : Prop := StronglySorted (λ a b, l_ID a < l_ID b) l ∧ Forall (λ a, 0 < l_ID a) l.
Fixpoint logs_grow (executionID : string) (before : list TaskLog) (ws : list (world R)) : Prop :=
  match ws with
  | [] => True
  | w :: ws => before `prefix_of` logs_of executionID w ∧ in_order (logs_of executionID w) ∧ logs_grow executionID (logs_of executionID w) ws
  end.

(** The stream has sent exactly these lines. *)
Definition has_sent (s : stream) (l : list TaskLog) : Prop := lastLogID s = match last l with Some x => l_ID x | None => 0 end.

Lemma last_largest l x y : StronglySorted (λ a b, l_ID a < l_ID b) l → last l = Some y → x ∈ l → l_ID x ≤ l_ID y.
Proof.
  intros Hs Hy Hx. apply last_Some in Hy as [l' ->]. apply elem_of_app in Hx as [Hx|Hx%list_elem_of_singleton]; [|subst; lia].
  apply StronglySorted_app in Hs as (Hall & _ & _). specialize (Hall x y Hx (list_elem_of_here _ _)). lia.
Qed.
Lemma new_lines_old last l new : (∀ x, x ∈ l → l_ID x ≤ last) → new_lines format_time last (l ++ new) = new_lines format_time last new.
Proof.
  intros Hl. induction l as [|x l IH]; [done|]. simpl. destruct (Z.ltb_spec last (l_ID x)) as [Hlt|_].
  - specialize (Hl x ltac:(by left)). lia.
  - apply IH. intros y Hy. apply Hl. by right.
Qed.
Lemma new_lines_new n new : StronglySorted (λ a b, l_ID a < l_ID b) new → (∀ x, x ∈ new → n < l_ID x) →
  new_lines format_time n new = (match last new with Some x => l_ID x | None => n end, (λ l, LogLine l (log_data format_time l)) <$> new).
Proof.
  revert n. induction new as [|x new IH]; intros n Hs Hn; [done|]. simpl.
  rewrite (proj2 (Z.ltb_lt n (l_ID x))) by (apply Hn; by left). apply StronglySorted_inv in Hs as [Hs Hx].
  rewrite IH; [|done|by rewrite Forall_forall in Hx]. destruct new as [|y new]; [done|].
  change (last (x :: y :: new)) with (last (y :: new)). destruct (last (y :: new)) eqn:E; [done|by apply last_None in E].
Qed.
Lemma lines_app a b : lines (a ++ b) = lines a ++ lines b.
Proof. apply omap_app. Qed.
Lemma lines_lines l : lines ((λ x, LogLine x (log_data format_time x)) <$> l) = l.
Proof. unfold lines. induction l as [|x l IH]; simpl; [done|]. by f_equal. Qed.

Lemma send_lines_all s l logs : has_sent s l → l `prefix_of` logs → in_order logs →
  has_sent (send_lines format_time logs s).1 logs ∧ l ++ lines (send_lines format_time logs s).2 = logs.
Proof.
  intros Hs [new ->] [Hsorted Hpos]. unfold send_lines. apply StronglySorted_app in Hsorted as (Hlt & Hl & Hnew).
  rewrite new_lines_old.
  2:{ intros x Hx. rewrite Hs. destruct (last l) as [y|] eqn:El; [by apply (last_largest l)|]. apply last_None in El. rewrite El in Hx. by apply elem_of_nil in Hx. }
  rewrite new_lines_new; [|done|].
  - simpl. rewrite lines_lines. split; [|done]. unfold has_sent in *. simpl. rewrite last_app. by destruct (last new).
  - intros x Hx. rewrite Hs. destruct (last l) as [y|] eqn:El.
    + apply Hlt; [|done]. apply last_Some in El as [l' ->]. apply elem_of_app. right. by left.
    + apply Forall_app in Hpos as [_ Hpos]. rewrite Forall_forall in Hpos. by apply Hpos.
Qed.

Lemma send_update_lines x s : lastLogID (send_update format_time x s).1 = lastLogID s ∧ lines (send_update format_time x s).2 = [].
Proof. unfold send_update. by case_match. Qed.

Lemma tick_lines executionID s l w fs : has_sent s l → l `prefix_of` logs_of executionID w → in_order (logs_of executionID w) →
  let '(s', out, _) := (tick format_time executionID s w fs).1 in
  ∃ l', has_sent s' l' ∧ l' `prefix_of` logs_of executionID w ∧ l ++ lines out = l' ∧ (fs = [] → l' = logs_of executionID w).
Proof.
  intros Hs Hp Ho. unfold tick. rewrite run_bind.
  destruct (GetTaskLogs executionID w fs) as [r [w1 fs1]] eqn:Er.
  assert (r = Ok (logs_of executionID w) ∨ (∃ e, r = Err e) ∧ fs ≠ []) as Hr.
  { unfold GetTaskLogs, select, or_err, query in Er. rewrite run_bind in Er. unfold call in Er.
    destruct fs as [|[] fs]; injection Er as <- <- <-; [by left|by left|right; split; [by eexists|done]..]. }
  set (s1 := match r with Ok ls => send_lines format_time ls s | Err _ => (s, []) end).
  assert (∃ l', has_sent s1.1 l' ∧ l' `prefix_of` logs_of executionID w ∧ l ++ lines s1.2 = l' ∧ (fs = [] → l' = logs_of executionID w)) as Hs1.
  { destruct Hr as [->|[[e ->] Hfs]]; simpl in s1.
    - exists (logs_of executionID w). destruct (send_lines_all s l _ Hs Hp Ho) as [H1 H2]. done.
    - exists l. subst s1. simpl. by rewrite app_nil_r. }
  clearbody s1. destruct s1 as [s1 out]. simpl in Hs1. rewrite run_bind.
  destruct (GetExecutionByExecutionID executionID w1 fs1) as [x [w2 fs2]]. destruct Hs1 as (l' & H1 & H2 & H3 & H4).
  assert (∀ tl, lines tl = [] → l ++ lines (out ++ tl) = l') as Htl by (intros tl Htl; by rewrite lines_app, Htl, app_nil_r).
  destruct x as [[x|]|e]; [|change (∃ l'', has_sent s1 l'' ∧ l'' `prefix_of` logs_of executionID w ∧ l ++ lines (out ++ [Heartbeat]) = l'' ∧
    (fs = [] → l'' = logs_of executionID w)); exists l'; by rewrite Htl..].
  pose proof (send_update_lines x s1) as [Hu1 Hu2]. simpl. destruct (send_update format_time x s1) as [s2 upd]. simpl in Hu1, Hu2.
  destruct (finished (x_Status x)); simpl; exists l'; rewrite Htl by (by rewrite lines_app, Hu2); unfold has_sent in *; by rewrite Hu1.
Qed.

Lemma prefix_grow executionID l (ticks : list (world R * list fate)) w fs : logs_grow executionID l ticks.*1 → last ticks = Some (w, fs) → l `prefix_of` logs_of executionID w.
Proof.
  revert l. induction ticks as [|[w1 fs1] ticks IH]; intros l Hg Hl; [done|]. destruct Hg as (Hp & _ & Hg).
  destruct ticks as [|t2 ticks]; [by injection Hl as -> ->|]. etrans; [exact Hp|]. by apply IH.
Qed.

Lemma watch_lines executionID s l ticks w fs : has_sent s l → logs_grow executionID l ticks.*1 → last ticks = Some (w, fs) →
  let '(out, left_) := watch executionID s ticks in
  (l ++ lines out) `prefix_of` logs_of executionID w ∧
  (left_ = [] → fs = [] → l ++ lines out = logs_of executionID w).
Proof.
  revert s l. induction ticks as [|[w1 fs1] ticks IH]; intros s l Hs Hg Hl; [done|]. destruct Hg as (Hp & Ho & Hg). simpl.
  pose proof (tick_lines executionID s l w1 fs1 Hs Hp Ho) as Ht.
  destruct (tick format_time executionID s w1 fs1).1 as [[s1 out] b]. destruct Ht as (l' & Hs1 & Hp1 & Hout & Hall).
  destruct ticks as [|t2 ticks].
  - injection Hl as -> ->. destruct b; simpl; by rewrite ?app_nil_r, Hout.
  - destruct b; [split; [|done]; rewrite Hout; etrans; [exact Hp1|by eapply prefix_grow]|].
    assert (logs_grow executionID l' (t2 :: ticks).*1) as Hg'.
    { destruct t2 as [w2 fs2]. destruct Hg as (Hp2 & Ho2 & Hg). split; [|done]. by etrans. }
    specialize (IH s1 l' Hs1 Hg' Hl). destruct (watch executionID s1 (t2 :: ticks)) as [more left_].
    by rewrite lines_app, (assoc_L app), Hout.
Qed.

(** C28: a client that follows an execution gets its log lines once each and
    in order: as long as lines are added in the order of time, at every moment
    of the stream it has exactly a first part of them, whatever polls failed,
    and after a poll that did not fail it has all of them.  The stream ends
    with the poll that finds the execution finished.  And the client reads each
    message as it was written, if it has no control characters but line ends
    and tabs. *)
Theorem stream_sends_each_line_once executionID ticks w fs :
  logs_grow executionID [] ticks.*1 → last ticks = Some (w, fs) →
  let '(out, left_) := watch executionID fresh_stream ticks in
  lines out `prefix_of` logs_of executionID w ∧
  (left_ = [] → fs = [] → lines out = logs_of executionID w) ∧
  ∀ l rest, l ∈ lines out → writable (Message l) → read_string (escapeJSON (Message l) +:+ String quotation rest) = Some (Message l, rest).
Proof.
  intros Hg Hl. pose proof (watch_lines executionID fresh_stream [] ticks w fs eq_refl Hg Hl) as Hw.
  destruct (watch executionID fresh_stream ticks) as [out left_]. destruct Hw as [H1 H2].
  split_and!; [done|done|]. intros l rest _. apply message_reads_back.
Qed.
End streams.

(** ** Examples *)
Definition root_caller : caller := mkCaller (Some 1) "admin" 1 "root".
Definition member_caller : caller := mkCaller (Some 5) "member" 2 "eve".
Definition demo_setting : setting := mkSetting demo_env 0 None (λ _, Err "refused") (λ _, "domain") fmt_d.
(** A body with nothing but [is_enabled]. *)
Definition only_enabled (b : bool) : UpdateRequest := mkUpdateRequest "" "" None "" 0 0 0 0 0 (Some b) 0 None None None.
Definition new_request (name : string) (max delay count interval domain : Z) : CreateRequest :=
  mkCreateRequest name "shell" None "" 60 max delay count interval true domain None [] 0.

Lemma idle_start10 : system_start 10 idle_world.
Proof.
  split; [lia|]. split; [|split; [|split; [|split; [done|done]]]].
  - intros k ->%list_elem_of_singleton. simpl. lia.
  - by intros x ?%not_elem_of_nil.
  - apply NoDup_nil_2.
Qed.
(** A task is triggered by a request. *)
Definition triggered : world gmap_store := (serve demo_setting (QTrigger root_caller "" "/api/tasks/7/trigger" "7") idle_world []).2.1.
Lemma task_requests_refine_system_witness :
  sent triggered = ["exec-7-1000000000"] ∧
  (triggered = idle_world ∨
   ∃ o fs', request_op (QTrigger root_caller "" "/api/tasks/7/trigger" "7") o ∧ op_ok 10 o ∧
            triggered = (run (handle demo_env o) idle_world fs').2 ∧ system_step 10 idle_world triggered).
Proof.
  split; [by vm_compute|].
  apply (task_requests_refine_system idle_world demo_setting (QTrigger root_caller "" "/api/tasks/7/trigger" "7") []).
  exists idle_world. split; [apply idle_start10|apply rtc_refl].
Defined.

Lemma stored_tasks_well_formed_witness :
  stores_ok (h_Create demo_env 0 root_caller (Some (new_request "backup" 0 0 3 0 0)) idle_world []).2.1 ∧
  t_Name <$> rows (tasks (tabs (h_Create demo_env 0 root_caller (Some (new_request "backup" 0 0 3 0 0)) idle_world []).2.1)) =
    ["report"; "backup"].
Proof.
  split; [|by vm_compute].
  destruct (stored_tasks_well_formed (R := gmap_store) demo_env 0 root_caller (Some (new_request "backup" 0 0 3 0 0)) "7" None) as (Hc & _ & _).
  - intros r [= <-]. split; vm_compute; discriminate.
  - apply Hc. intros k ->%list_elem_of_singleton. split; [right; by left|by vm_compute|..]; simpl; lia.
Defined.

Definition log_line (id time : Z) (message : string) : TaskLog := mkTaskLog id "exec-7-1" 7 1 "node-1" "info" message time.
Definition logging (ls : list TaskLog) : world gmap_store := set_tabs (set_task_logs (λ _, mkTable ls 9)) running_world.
Definition polls : list (world gmap_store * list fate) :=
  [(logging [log_line 1 5 "one"], []); (logging [log_line 1 5 "one"], [Lost]); (logging [log_line 1 5 "one"; log_line 2 6 "two"], [])].
Lemma stream_sends_each_line_once_witness :
  lines (watch (R := gmap_store) fmt_d "exec-7-1" fresh_stream polls).1 = [log_line 1 5 "one"; log_line 2 6 "two"].
Proof.
  pose proof (stream_sends_each_line_once (R := gmap_store) fmt_d "exec-7-1" polls
    (logging [log_line 1 5 "one"; log_line 2 6 "two"]) []) as Hw.
  destruct (watch _ _ _ polls) as [out left_] eqn:E. destruct Hw as (_ & Hall & _); [|reflexivity|].
  - assert (in_order [log_line 1 5 "one"] ∧ in_order [log_line 1 5 "one"; log_line 2 6 "two"]) as [H1 H2].
    { split; split; repeat constructor. }
    split; [apply prefix_nil|]. split; [exact H1|]. split; [reflexivity|]. split; [exact H1|].
    split; [by exists [log_line 2 6 "two"]|]. split; [exact H2|done].
  - apply Hall; [|done]. apply (f_equal snd) in E. vm_compute in E. by symmetry.
Defined.

(** Enabling or disabling a task with a body that says nothing else sets its
    time limit and its retries to zero: an absent number reads as 0. *)
Lemma enabling_resets_limits :
  let w := (h_Update demo_env 0 "7" (Some (only_enabled false)) idle_world []).2.1 in
  (λ t, (TimeoutSeconds t, RetryCount t, RetryInterval t)) <$> rows (tasks (tabs idle_world)) = [(60, 2, 5)] ∧
  (λ t, (TimeoutSeconds t, RetryCount t, RetryInterval t)) <$> rows (tasks (tabs w)) = [(0, 0, 0)].
Proof. by vm_compute. Qed.

(** The former names of the fields are read only when the new ones are
    negative: a request that has just them makes a task without retries. *)
Lemma former_names_ignored : create_retries (new_request "backup" 3 30 0 0 1) = 0 ∧ create_retries (new_request "backup" 3 30 (-1) 0 1) = 3.
Proof. by vm_compute. Qed.

(** The new domain is answered to be taken, and not stored. *)
Lemma domain_change_lost :
  let req := mkUpdateRequest "" "" None "" 60 0 0 2 5 None 2 None None None in
  let '(r, (w, _)) := h_Update demo_env 0 "7" (Some req) idle_world [] in
  (∃ i, r = Success i) ∧ t_DomainID <$> rows (tasks (tabs w)) = [1] ∧ t_DomainID (apply_rest req true demo_task) = 2.
Proof. vm_compute. split_and!; [by eexists|done|done]. Qed.

(** Only triggering looks at the domain: a member of domain 2 may not trigger
    the task of domain 1, and cancels its execution; reading, changing and
    deleting do not even look at who asks. *)
Lemma other_domains_are_open :
  (h_Trigger demo_env None (λ _, Err "") (λ _, "") member_caller "" "" "7" idle_world []).1 = Forbidden "permission denied" ∧
  (h_CancelExecution demo_env member_caller "exec-7-1" running_world []).1 = Success "exec-7-1" ∧
  t_DomainID <$> rows (tasks (tabs running_world)) = [1].
Proof. by vm_compute. Qed.
Lemma created_in_other_domain :
  let w := (h_Create demo_env 0 member_caller (Some (new_request "backup" 0 0 0 0 1)) idle_world []).2.1 in
  c_domain member_caller = 2 ∧ (λ t, (t_Name t, t_DomainID t)) <$> rows (tasks (tabs w)) = [("report", 1); ("backup", 1)].
Proof. by vm_compute. Qed.

(** A heartbeat written eight hours further east counts as fresh for eight
    hours, one written further west never does. *)
Lemma zones_decide_who_is_online :
  let now := 3600 * Second in
  isExecutorOnline 0 now alive_executor = false ∧ isExecutorOnline (28800 * Second) now alive_executor = true ∧
  isExecutorOnline (- 28800 * Second) 0 alive_executor = false.
Proof. by vm_compute. Qed.

(** Without faults a stream ends exactly when the row says success or failed. *)
Lemma tick_stops {R} `{Redis R} format_time executionID s (w : world R) :
  (tick format_time executionID s w []).1.2 =
  match head (where_ (λ x, bool_decide (ExecutionID x = executionID)) (rows (executions (tabs w)))) with
  | Some x => finished (x_Status x)
  | None => false
  end.
Proof.
  unfold tick. rewrite run_bind. simpl. destruct (send_lines _ _ _) as [s1 out]. rewrite run_bind. simpl.
  destruct (head _) as [x|]; simpl; [|done]. destruct (send_update _ _ s1) as [s2 upd]. by destruct (finished (x_Status x)).
Qed.
(** An execution that timed out or was skipped is over, and its stream goes on
    for ever. *)
Lemma stream_of_timeout_goes_on s :
  let w := set_tabs (set_executions (update_where (λ _, true) (set_result "timeout" "" "" 0 1))) running_world in
  terminal "timeout" = true ∧ (tick fmt_d "exec-7-1" s w []).1.2 = false.
Proof. intros w. split; [done|]. rewrite tick_stops. by vm_compute. Qed.

(** A line whose time is before that of a line added earlier is skipped. *)
Lemma late_line_is_lost :
  lines (watch (R := gmap_store) fmt_d "exec-7-1" fresh_stream [(logging [log_line 1 6 "one"; log_line 2 5 "two"], [])]).1 = [log_line 2 5 "two"].
Proof. by vm_compute. Qed.

(** Other control characters, like the escape that colours the output of a
    program, are sent as they are: the client cannot parse the line. *)
Lemma coloured_line_unreadable :
  read_string (escapeJSON (String "027" "[31m") +:+ String quotation "}") = None.
Proof. by vm_compute. Qed.

(** A negative interval is stored for a task without retries, and a name of
    blanks when a task is changed. *)
Lemma negative_interval_stored : create_interval (new_request "backup" 0 (-1) 0 (-1) 1) = -1.
Proof. by vm_compute. Qed.
Lemma blank_name_stored :
  t_Name <$> rows (tasks (tabs (h_Update demo_env 0 "7" (Some (mkUpdateRequest " " "" None "" 60 0 0 2 5 None 0 None None None)) idle_world []).2.1)) = [" "] ∧
  safeString " " = "".
Proof. by vm_compute. Qed.
