(* ===== verification/ExecutorHandler.v ===== *)
(** * The handlers of executors

    [src/scheduler/internal/handler/executor.go] and [executor_domain.go] over
    [Executor] and the permission service.  The user of a request is what the
    middleware left in the context: nothing, something that is no number, or an
    id.  Heartbeats are shown in the local zone ([GoTime]); other times are
    written by the parameter [format_time]. *)
From Stdlib Require Import Ascii.
From S2P Require Import Prelude Redis Sql World Executor Text TaskHandler.
From S2P Require Permission GoTime Auth Execution.

Record site (R : Type) : Type := mkSite { node : world R; perms : Permission.db }.
Arguments mkSite {R}.
Arguments node {R}.
Arguments perms {R}.
Definition put_node {R} (w : world R) (s : site R) : site R := mkSite w (perms s).
Definition put_perms {R} (d : Permission.db) (s : site R) : site R := mkSite (node s) d.

Inductive context_user : Type := NoUser | InvalidUser | User (id : Z).
Definition CodeUnauthorized : Z := 401.
Definition Unauthorized {A} (message : string) : response A := Fail CodeUnauthorized message.

Definition parseName (nameStr : string) : option string := if bool_decide (nameStr = "") then None else Some nameStr.
(** [parseParam], [parseInt64Param] *)
Definition parseInt64Param (s : string) : option Z :=
  if bool_decide (s = "") then None
  else match ParseInt s with (v, true) => if v <=? 0 then None else Some v | (_, false) => None end.

(** ** What is shown of an executor *)
Record ExecutorDTO : Type := mkExecutorDTO {
  dto_ID : Z; dto_Name : string; dto_Address : string; dto_Status : string; dto_LastHeartbeat : string;
  dto_Capacity : Z; dto_CurrentLoad : Z; dto_IsGlobal : bool; dto_CreatedAt : string; dto_UpdatedAt : string;
}.
Definition heartbeatTimeout : Z := 30.

Section handlers.
Context `{Redis R}.
Variable cfg : env.
(** As in [TaskHandler.isExecutorOnline]. *)
Variable zone_gap : Z.
Variable zone : Z.
Variable format_time : Z → string.

Definition on_node {A} : M (world R) A → M (site R) A := zoom node put_node.
Definition on_perms {A} : M Permission.db A → M (site R) A := zoom perms put_perms.

(** An executor that says it is online is shown offline when its last
    heartbeat is too old; [zero_too] is the test for the zero time that only
    one of the two functions makes. *)
Definition actualStatus (zero_too : bool) (now : Z) (e : Executor) : string :=
  if is_online e then
    match LastHeartbeat e with
    | None => "offline"
    | Some t =>
        if zero_too && (t =? zero_time) then "offline"
        else if heartbeatTimeout * Second <? now - (t + zone_gap) then "offline" else e_Status e
    end
  else e_Status e.
Definition shown_time (t : Z) : string := if t =? zero_time then "" else format_time t.
Definition executor_dto (zero_too : bool) (now : Z) (e : Executor) : ExecutorDTO :=
  mkExecutorDTO (e_ID e) (e_Name e) (Address e) (actualStatus zero_too now e)
    (match LastHeartbeat e with Some t => GoTime.Format zone t | None => "" end)
    (Capacity e) (CurrentLoad e) (IsGlobal e) (shown_time (e_CreatedAt e)) (shown_time (e_UpdatedAt e)).
Definition executorToDTO : Z → Executor → ExecutorDTO := executor_dto true.
Definition executorWithDomainsToDTO (now : Z) (x : Executor * list Permission.Domain) : ExecutorDTO * list Permission.Domain :=
  (executor_dto false now x.1, x.2).

(** ** [executor.go] *)
Definition h_ListExecutors (page pageSize : string) : M (world R) (response (list ExecutorDTO * Z)) :=
  r ← ListExecutors (page_number page) (page_limit pageSize);
  now ← gets clock;
  mret match r with Ok (es, total) => Success (executorToDTO now <$> es, total) | Err e => FailFromError cfg e end.
Definition named_request {A} (name : string) (k : string → M (world R) (response A)) : M (world R) (response A) :=
  match parseName name with None => mret (BadRequest "invalid name") | Some name => k name end.
Definition h_GetExecutor (name : string) : M (world R) (response unit) := named_request name (λ _, mret (Success tt)).
Definition answer {A} (r : result error A) : response A := match r with Ok a => Success a | Err e => FailFromError cfg e end.
Definition h_DeleteExecutor (name : string) : M (world R) (response unit) :=
  named_request name (λ name, r ← DeleteExecutorByName name; mret (answer r)).
Definition h_Online (name : string) : M (world R) (response unit) :=
  named_request name (λ name, r ← SetExecutorStatusByName name "online"; mret (answer r)).
Definition h_Offline (name : string) : M (world R) (response unit) :=
  named_request name (λ name, r ← SetExecutorStatusByName name "offline"; mret (answer r)).
(** [None]: a body the binding refuses. *)
Definition h_UpdateCapacity (name : string) (capacity : option Z) : M (world R) (response Z) :=
  named_request name (λ name,
    match capacity with
    | None => mret (BadRequest "invalid request: capacity must be a positive integer")
    | Some n =>
        if n <? 1 then mret (BadRequest "invalid request: capacity must be a positive integer")
        else r ← UpdateExecutorCapacityByName name n; mret (match r with Ok _ => Success n | Err e => FailFromError cfg e end)
    end).

(** ** [executor_domain.go] *)
Definition of_executor {A} (name : string) (k : Executor → M (world R) (response A)) : M (world R) (response A) :=
  r ← GetExecutorByName name; match r with Err _ => mret (NotFound "executor not found") | Ok e => k e end.
Definition with_name {A} (name : string) (k : M (world R) (response A)) : M (world R) (response A) :=
  if bool_decide (name = "") then mret (BadRequest "executor name is required") else k.
Definition or_internal {A} (r : result error A) : response A :=
  match r with Ok a => Success a | Err e => InternalServerError (error_text cfg e) end.

Definition h_GetExecutorDomains (name : string) : M (world R) (response (list Permission.Domain)) :=
  with_name name (of_executor name (λ e, r ← GetExecutorDomains (e_ID e); mret (or_internal r))).
Definition h_AssignDomains (user : context_user) (name : string) (domainIDs : option (list Z)) : M (world R) (response unit) :=
  with_name name
    match domainIDs with
    | None | Some [] => mret (BadRequest "domain_ids为必填项，且至少需要选择一个领域")
    | Some ids =>
        if existsb (λ d, d <=? 0) ids then mret (BadRequest "domain_id必须为正整数")
        else
          match user with
          | NoUser => mret (Unauthorized "unauthorized")
          | InvalidUser => mret (Unauthorized "invalid user")
          | User _ => of_executor name (λ e, r ← AssignExecutorToDomains (e_ID e) ids; mret (or_internal r))
          end
    end.
Definition h_RemoveDomain (name domain_id : string) : M (world R) (response unit) :=
  with_name name
    match parseInt64Param domain_id with
    | None => mret (BadRequest "invalid domain id")
    | Some domainID => of_executor name (λ e, r ← RemoveExecutorFromDomain (e_ID e) domainID; mret (or_internal r))
    end.
Definition h_GetAssignedTasks (name : string) : M (world R) (response (Z * list string)) :=
  with_name name (of_executor name (λ e,
    n ← GetAssignedTasksForExecutor (e_ID e);
    match n with
    | Err err => mret (InternalServerError (error_text cfg err))
    | Ok n =>
        names ← GetAssignedTaskNamesForExecutor (e_ID e);
        mret match names with Ok names => Success (n, names) | Err err => InternalServerError (error_text cfg err) end
    end)).

Definition with_user {A} (user : context_user) (k : Z → M (site R) (response A)) : M (site R) (response A) :=
  match user with
  | NoUser => mret (Unauthorized "unauthorized")
  | InvalidUser => mret (Unauthorized "invalid user")
  | User uid => k uid
  end.
(** The caller's role and domain; errors are ignored. *)
Definition caller_scope (uid : Z) : M (site R) (bool * Z) :=
  isAdmin ← on_perms (Permission.IsSystemAdmin uid);
  defaultDomainID ← on_perms (Permission.GetUserDefaultDomain uid);
  mret (match isAdmin with Ok b => b | Err _ => false end, match defaultDomainID with Ok d => d | Err _ => 0 end).
Definition h_GetExecutorsWithDomains (user : context_user) : M (site R) (response (list (ExecutorDTO * list Permission.Domain))) :=
  with_user user (λ uid,
    '(isAdmin, domainID) ← caller_scope uid;
    r ← on_node (GetExecutorsByUserRole isAdmin domainID);
    now ← gets (λ s, clock (node s));
    mret match r with Ok es => Success (executorWithDomainsToDTO now <$> es) | Err e => InternalServerError (error_text cfg e) end).
Record deletable : Type := mkDeletable { can_delete : bool; reason : string; has_tasks : bool; task_count : Z }.
Definition may_delete (isAdmin : bool) (e : Executor) (taskCount : Z) : M (world R) (response deletable) :=
  r ← (if isAdmin then mret (Ok true) else CanDomainAdminDeleteExecutor (e_ID e));
  mret match r with
       | Err err => InternalServerError (error_text cfg err)
       | Ok b =>
           Success (mkDeletable b (if b then "" else "executor is assigned to multiple domains, only system admin can delete")
             (0 <? taskCount) taskCount)
       end.
Definition h_CanDeleteExecutor (user : context_user) (name : string) : M (site R) (response deletable) :=
  if bool_decide (name = "") then mret (BadRequest "executor name is required")
  else
    with_user user (λ uid,
      '(isAdmin, _) ← caller_scope uid;
      on_node (of_executor name (λ e,
        n ← GetAssignedTasksForExecutor (e_ID e);
        match n with Err err => mret (InternalServerError (error_text cfg err)) | Ok n => may_delete isAdmin e n end))).
End handlers.

(** ** A request changes the executor it names

    [apart n w0 w]: of [w0], [w] may differ in the executors called [n], in
    what domains they serve, and in the capacity published for [n]. *)
Record apart {R} `{Redis R} (n : string) (w0 w : world R) : Prop := {
  ap_others : ∀ e, e_Name e ≠ n → e ∈ rows (executors (tabs w)) ↔ e ∈ rows (executors (tabs w0));
  ap_named : ∀ e, e ∈ rows (executors (tabs w)) → e_Name e = n →
    ∃ e0, e0 ∈ rows (executors (tabs w0)) ∧ e_Name e0 = n ∧ e_ID e0 = e_ID e;
  ap_domains : ∀ de, (∀ e, e ∈ rows (executors (tabs w0)) → e_Name e = n → de_executor de ≠ e_ID e) →
    de ∈ rows (domain_executors (tabs w)) ↔ de ∈ rows (domain_executors (tabs w0));
  ap_tables : tasks (tabs w) = tasks (tabs w0) ∧ executions (tabs w) = executions (tabs w0) ∧
    task_logs (tabs w) = task_logs (tabs w0) ∧ webhooks (tabs w) = webhooks (tabs w0) ∧ domains (tabs w) = domains (tabs w0);
  ap_redis : ∀ k, k ≠ capacityKey n → entry (redis w) k = entry (redis w0) k;
  ap_rest : fx w = fx w0 ∧ leader w = leader w0;
}.
Definition unique_executors {R} (w : world R) : Prop := NoDup (e_ID <$> rows (executors (tabs w))).

Section apart.
Context `{RedisLaws R} (n : string) (w0 : world R).
Implicit Types w : world R.

Lemma apart_refl : apart n w0 w0.
Proof. split; try done. intros e He Hn. by exists e. Qed.

(** What the statements do to the tables. *)
Lemma apart_update (f : Executor → Executor) w (p : Executor → bool) :
  (∀ e, e_Name (f e) = e_Name e ∧ e_ID (f e) = e_ID e) → (∀ e, e ∈ rows (executors (tabs w)) → p e = true → e_Name e = n) →
  apart n w0 w → apart n w0 (set_tabs (set_executors (update_where p f)) w).
Proof.
  intros Hf Hp [Ho Hn Hd Ht Hr Hx]. split; try done; cbn [set_tabs tabs set_executors executors update_where set_rows rows].
  - intros e He. rewrite <- Ho by done. split.
    + intros (e1 & -> & Hin)%list_elem_of_fmap. destruct (p e1) eqn:E; [|done]. destruct He. rewrite (proj1 (Hf e1)). by apply Hp.
    + intros Hin. apply list_elem_of_fmap. exists e. split; [|done]. destruct (p e) eqn:E; [|done]. by destruct He; apply Hp.
  - intros e (e1 & -> & Hin)%list_elem_of_fmap Hname. destruct (p e1); [|by apply Hn].
    destruct (Hf e1) as [E1 E2]. rewrite E1 in Hname. rewrite E2. by apply Hn.
Qed.
Lemma apart_delete w : apart n w0 w →
  apart n w0 (set_tabs (set_executors (delete_where (λ e, bool_decide (e_Name e = n)))) w).
Proof.
  intros [Ho Hn Hd Ht Hr Hx]. split; try done; cbn [set_tabs tabs set_executors executors delete_where set_rows rows].
  - intros e He. rewrite <- Ho by done. rewrite elem_of_where, bool_decide_false by done. tauto.
  - intros e [Hin Hp]%elem_of_where Hname. by rewrite bool_decide_true in Hp.
Qed.
Lemma apart_domains f w : (∀ de, (∀ e, e ∈ rows (executors (tabs w0)) → e_Name e = n → de_executor de ≠ e_ID e) →
    de ∈ rows (f (domain_executors (tabs w))) ↔ de ∈ rows (domain_executors (tabs w))) →
  apart n w0 w → apart n w0 (set_tabs (set_domain_executors f) w).
Proof. intros Hf [Ho Hn Hd Ht Hr Hx]. split; try done. intros de Hde. simpl. rewrite Hf by done. by apply Hd. Qed.
Lemma apart_published now v w : apart n w0 w → apart n w0 (set_redis (SET now (capacityKey n) v 0) w).
Proof.
  intros [Ho Hn Hd Ht Hr Hx]. split; try done. intros k Hk. simpl. rewrite SET_spec, decide_False by done. by apply Hr.
Qed.
Lemma set_redis_same w : set_redis (λ _, redis w) w = w.
Proof. by destruct w. Qed.

Lemma apart_metrics : preserves (apart n w0) (updateExecutorMetrics : M (world R) _).
Proof. apply preserves_bind; [apply preserves_select_opt|intros; apply preserves_ret]. Qed.
Lemma apart_SetStatus status : preserves (apart n w0) (SetExecutorStatusByName n status : M (world R) _).
Proof.
  apply preserves_bind; [apply preserves_gets|intros now]. apply preserves_bind_ok.
  - apply preserves_write. intros w. apply apart_update; [done|]. intros e _ Hp. by apply bool_decide_eq_true in Hp.
  - intros u. apply preserves_bind; [apply apart_metrics|intros; apply preserves_ret].
Qed.
Lemma apart_Capacity c : preserves (apart n w0) (UpdateExecutorCapacityByName n c : M (world R) _).
Proof.
  unfold UpdateExecutorCapacityByName. case_match; [apply preserves_ret|].
  apply preserves_bind; [apply preserves_gets|intros now]. apply preserves_bind_ok.
  - apply preserves_write. intros w. apply apart_update; [done|]. intros e _ Hp. by apply bool_decide_eq_true in Hp.
  - intros u. apply preserves_bind; [|intros; apply preserves_ret]. apply preserves_call. intros w Hw. by apply apart_published.
Qed.
(** The executor that is found by the name. *)
Definition is_named (id : Z) : Prop := ∃ e0, e0 ∈ rows (executors (tabs w0)) ∧ e_Name e0 = n ∧ e_ID e0 = id.
Lemma preserves_of_executor {A} (k : Executor → M (world R) (response A)) :
  (∀ e, is_named (e_ID e) → preserves (apart n w0) (k e)) → preserves (apart n w0) (of_executor n k).
Proof.
  intros Hk w fs Hw. unfold of_executor. rewrite run_bind.
  assert (∃ r fs', GetExecutorByName n w fs = (r, (w, fs')) ∧ ∀ e, r = Ok e → is_named (e_ID e)) as (r & fs' & -> & Hr).
  { unfold GetExecutorByName, bind_ok, select, or_err, query. rewrite !run_bind. unfold call.
    assert (∀ e, scan_executor10 <$> head (where_ (λ e, bool_decide (e_Name e = n)) (rows (executors (tabs w)))) = Some e → is_named (e_ID e)) as Hn.
    { intros e. destruct (head _) as [e1|] eqn:E; [|done]. intros [= <-].
      apply head_Some_elem_of, elem_of_where in E as [Hin Hname%bool_decide_eq_true]. by apply (ap_named _ _ _ Hw e1). }
    destruct (scan_executor10 <$> head _) as [e|] eqn:Eo; destruct fs as [|[] fs]; simpl; eexists _, _; (split; [reflexivity|]); try done;
      intros ? [= <-]; by apply Hn. }
  destruct r as [e|err]; [|done]. apply Hk; [by apply Hr|done].
Qed.
End apart.

Section requests.
Context `{RedisLaws R}.
Variable cfg : env.
Implicit Types w : world R.

Lemma insert_domain_apart n w0 id w d t t' : is_named n w0 id → insert_domain_executor d id t = Some t' →
  apart n w0 (set_tabs (λ _, t) w) → apart n w0 (set_tabs (λ _, t') w).
Proof.
  intros (e0 & Hin & Hname & Hid). unfold insert_domain_executor. case_match; [done|]. intros [= <-] Ha.
  apply (apart_domains n w0 (insert_row (λ _, mkDomainExecutor d id)) _) in Ha; [by destruct w|].
  intros de Hde. simpl. rewrite elem_of_app, list_elem_of_singleton. split; [|by left]. intros [?| -> ]; [done|].
  by destruct (Hde e0 Hin Hname).
Qed.
Lemma insert_domains_apart n w0 id w ds t t' : is_named n w0 id → insert_domain_executors ds id t = Some t' →
  apart n w0 (set_tabs (λ _, t) w) → apart n w0 (set_tabs (λ _, t') w).
Proof.
  intros Hid. revert t. induction ds as [|d ds IH]; intros t; simpl; [by intros [= <-]|].
  destruct (insert_domain_executor d id t) as [t1|] eqn:E; [|done]. simpl. intros Ht Ha. apply (IH t1 Ht). by apply (insert_domain_apart n w0 id w d t).
Qed.
(** With unique ids only the executor of that name has its id. *)
Lemma named_by_id n w0 id w e : unique_executors w0 → is_named n w0 id → apart n w0 w →
  e ∈ rows (executors (tabs w)) → e_ID e = id → e_Name e = n.
Proof.
  intros Hu (e0 & Hin0 & Hn0 & Hid0) Ha Hin Hid. destruct (decide (e_Name e = n)) as [|Hne]; [done|].
  apply (ap_others _ _ _ Ha e Hne) in Hin. destruct Hne. rewrite <- Hn0. f_equal.
  revert Hu Hin Hin0. unfold unique_executors. rewrite <- Hid in Hid0. revert Hid0. clear. induction (rows (executors (tabs w0))) as [|x l IH]; intros E.
  - by intros _ ?%elem_of_nil.
  - rewrite fmap_cons. intros [Hx Hn]%NoDup_cons. rewrite !elem_of_cons. intros [-> |H1] [-> |H2]; [done|..|by apply IH].
    + destruct Hx. rewrite <- E. by apply list_elem_of_fmap_2.
    + destruct Hx. rewrite E. by apply list_elem_of_fmap_2.
Qed.
Lemma apart_Assign n w0 id ds : unique_executors w0 → is_named n w0 id →
  preserves (apart n w0) (AssignExecutorToDomains id ds : M (world R) _).
Proof.
  intros Hu Hid. unfold AssignExecutorToDomains. apply preserves_bind_ok.
  - apply preserves_write. intros w. apply apart_domains. intros de Hde. simpl. rewrite elem_of_where.
    destruct Hid as (e0 & Hin & Hname & <-). specialize (Hde e0 Hin Hname). rewrite (proj2 (Z.eqb_neq _ _) Hde). tauto.
  - intros u. apply preserves_bind_ok.
    + destruct ds as [|d ds]; [apply preserves_ret|]. apply preserves_write_checked. intros w a t Ht Hw.
      destruct (insert_domain_executors (d :: ds) id (tabs w)) as [t'|] eqn:E; [|done]. injection Ht as <- <-.
      apply (insert_domains_apart n w0 id w (d :: ds) (tabs w)); [done|done|]. by destruct w.
    + intros v. apply preserves_write. intros w Hw. apply apart_update; [done| |done].
      intros e Hin Hp%Z.eqb_eq. by apply (named_by_id n w0 id w).
Qed.
Lemma apart_Remove n w0 id d : is_named n w0 id → preserves (apart n w0) (RemoveExecutorFromDomain id d : M (world R) _).
Proof.
  intros (e0 & Hin & Hname & <-). apply preserves_write. intros w. apply apart_domains. intros de Hde. simpl. rewrite elem_of_where.
  rewrite (proj2 (Z.eqb_neq _ _) (Hde e0 Hin Hname)). tauto.
Qed.

(** The requests that change something, on the executor called [name]. *)
Inductive executor_request : Type :=
| EDelete | EOnline | EOffline | ECapacity (capacity : option Z)
| EAssign (user : context_user) (domainIDs : option (list Z)) | ERemove (domain_id : string).
Definition serve_executor (name : string) (q : executor_request) : M (world R) unit :=
  match q with
  | EDelete => _ ← h_DeleteExecutor cfg name; mret tt
  | EOnline => _ ← h_Online cfg name; mret tt
  | EOffline => _ ← h_Offline cfg name; mret tt
  | ECapacity c => _ ← h_UpdateCapacity cfg name c; mret tt
  | EAssign user ids => _ ← h_AssignDomains cfg user name ids; mret tt
  | ERemove d => _ ← h_RemoveDomain cfg name d; mret tt
  end.

Lemma apart_named_request {A} n w0 (k : string → M (world R) (response A)) :
  preserves (apart n w0) (k n) → preserves (apart n w0) (named_request n k).
Proof. intros Hk. unfold named_request, parseName. case_bool_decide; [apply preserves_ret|done]. Qed.
Lemma apart_answered {A B} n w0 (m : M (world R) A) (f : A → B) : preserves (apart n w0) m → preserves (apart n w0) (r ← m; mret (f r)).
Proof. intros Hm. apply preserves_bind; [done|]. intros r. apply preserves_ret. Qed.

Lemma apart_serve name q w0 : unique_executors w0 → preserves (apart name w0) (serve_executor name q).
Proof.
  intros Hu. destruct q as [| | |c|user ids|d]; apply apart_answered.
  - apply apart_named_request, apart_answered, preserves_write. intros w. apply apart_delete.
  - apply apart_named_request, apart_answered, apart_SetStatus.
  - apply apart_named_request, apart_answered, apart_SetStatus.
  - apply apart_named_request. destruct c as [c|]; [|apply preserves_ret]. case_match; [apply preserves_ret|]. apply apart_answered, apart_Capacity.
  - unfold h_AssignDomains, with_name. case_bool_decide; [apply preserves_ret|]. destruct ids as [[|d ds]|]; try apply preserves_ret.
    case_match; [apply preserves_ret|]. destruct user; try apply preserves_ret. apply preserves_of_executor. intros e He.
    apply apart_answered. by apply apart_Assign.
  - unfold h_RemoveDomain, with_name. case_bool_decide; [apply preserves_ret|]. destruct (parseInt64Param d); [|apply preserves_ret].
    apply preserves_of_executor. intros e He. apply apart_answered. by apply apart_Remove.
Qed.

(** whatever a request asks for and whatever fails, it changes only the
    executor it names: every other executor, what domains the others serve, the
    capacities published for them, tasks, executions, logs, webhooks and
    domains stay as they are, and nothing is started or sent. *)
Theorem requests_touch_named_executor name q w fs : unique_executors w →
  let w' := (serve_executor name q w fs).2.1 in
  (∀ e, e_Name e ≠ name → e ∈ rows (executors (tabs w')) ↔ e ∈ rows (executors (tabs w))) ∧
  (∀ de, (∀ e, e ∈ rows (executors (tabs w)) → e_Name e = name → de_executor de ≠ e_ID e) →
     de ∈ rows (domain_executors (tabs w')) ↔ de ∈ rows (domain_executors (tabs w))) ∧
  tasks (tabs w') = tasks (tabs w) ∧ executions (tabs w') = executions (tabs w) ∧ domains (tabs w') = domains (tabs w) ∧
  (∀ k, k ≠ capacityKey name → entry (redis w') k = entry (redis w) k) ∧ fx w' = fx w.
Proof. intros Hu w'. destruct (apart_serve name q w Hu w fs (apart_refl name w)) as [Ho _ Hd (Ht & Hx & _ & _ & Hdom) Hr [Hfx _]]. done. Qed.
End requests.

(** ** What the list shows *)
Section shown.
Context `{Redis R}.
Variable cfg : env.
Variables (zone_gap zone : Z).
Variable format_time : Z → string.
Implicit Types s : site R.

Lemma yields_select {A} (f : tables → A) (w : world R) : yields w (select f) (λ r, ∀ a, r = Ok a → a = f (tabs w)).
Proof. intros fs. destruct (triple_select f w w fs eq_refl) as [-> Ha]. done. Qed.
Definition domain_shown (w : world R) (e : Executor) (x : Permission.Domain) : Prop :=
  x ∈ rows (domains (tabs w)) ∧ mkDomainExecutor (Permission.dom_ID x) (e_ID e) ∈ rows (domain_executors (tabs w)).
Lemma yields_with_domains (w : world R) es :
  yields w (with_domains es) (λ r, ∀ e ds, (e, ds) ∈ r → e ∈ es ∧ ∀ x, x ∈ ds → domain_shown w e x).
Proof.
  induction es as [|e es IH]; simpl; [apply yields_ret; by intros e ds ?%elem_of_nil|].
  eapply yields_bind; [apply yields_select|]. intros r Hr. eapply yields_bind; [apply IH|]. intros rest Hrest. apply yields_ret.
  intros e1 ds1 [[= -> -> ]|Hin]%elem_of_cons; [|destruct (Hrest _ _ Hin); split; [by right|done]].
  split; [by left|]. intros x Hx. destruct r as [ds|]; [|by apply elem_of_nil in Hx]. rewrite (Hr ds eq_refl) in Hx.
  apply list_elem_of_bind in Hx as (de & [Hx Heq%Z.eqb_eq]%elem_of_where & [Hde Hid%Z.eqb_eq]%elem_of_where).
  split; [done|]. rewrite <- Heq, <- Hid. by destruct de.
Qed.
Definition visible (w : world R) (isAdmin : bool) (domainID : Z) (e : Executor) : Prop :=
  e ∈ rows (executors (tabs w)) ∧
  (isAdmin = true ∨ IsGlobal e = true ∨ mkDomainExecutor domainID (e_ID e) ∈ rows (domain_executors (tabs w))).
Lemma yields_by_role (w : world R) isAdmin domainID :
  yields w (GetExecutorsByUserRole isAdmin domainID) (λ r, ∀ es, r = Ok es →
    ∀ e ds, (e, ds) ∈ es → visible w isAdmin domainID e ∧ ∀ x, x ∈ ds → domain_shown w e x).
Proof.
  unfold GetExecutorsByUserRole. eapply yields_bind; [apply yields_select|]. intros [es|e] Hes; [|by apply yields_ret].
  eapply yields_bind; [apply yields_with_domains|]. intros r Hr. apply yields_ret. intros ? [= <-] e ds Hin.
  destruct (Hr e ds Hin) as [He Hds]. split; [|done]. rewrite (Hes es eq_refl), elem_of_order_by in He. destruct isAdmin; [by split; [|left]|].
  apply list_elem_of_bind in He as (e1 & He & Hin1). apply list_elem_of_fmap in He as (de & -> & [Hde Hs]%elem_of_where).
  split; [done|]. right. unfold serves in Hs. apply orb_true_iff in Hs as [Hs|Hs]; [right|by left].
  destruct de as [de|]; [|done]. apply Z.eqb_eq in Hs. unfold domain_rows in Hde.
  destruct (where_ (λ de, de_executor de =? e_ID e1) (rows (domain_executors (tabs w)))) as [|d0 des] eqn:E.
  { by apply list_elem_of_singleton in Hde. }
  apply list_elem_of_fmap in Hde as (de' & [= <-] & Hde). rewrite <- E in Hde. apply elem_of_where in Hde as [Hde Hid%Z.eqb_eq].
  rewrite <- Hs, <- Hid. by destruct de.
Qed.

Definition is_admin (uid : Z) (d : Permission.db) : Prop := 0 < Permission.admin_count uid d.
Definition belongs (uid dom : Z) (d : Permission.db) : Prop :=
  ∃ ud, ud ∈ rows (Permission.user_domains d) ∧ Permission.ud_user ud = uid ∧ Permission.ud_domain ud = dom.
Lemma default_domain_belongs uid d : Auth.default_domain uid d = 0 ∨ belongs uid (Auth.default_domain uid d) d.
Proof.
  unfold Auth.default_domain. destruct (head (where_ _ (rows (Permission.user_domains d)))) as [ud|] eqn:E1.
  - right. exists ud. apply head_Some_elem_of, elem_of_where in E1 as [Hin [Hu%Z.eqb_eq _]%andb_true_iff]. done.
  - destruct (head (where_ (λ ud, Permission.ud_user ud =? uid) _)) as [ud|] eqn:E2; [|left; reflexivity]. right. exists ud.
    apply head_Some_elem_of, elem_of_where in E2 as [Hin Hu%Z.eqb_eq]. done.
Qed.
Lemma yields_on_perms {A} s (m : M Permission.db A) R' : yields (perms s) m R' → yields s (on_perms m) R'.
Proof. apply yields_zoom. by destruct s. Qed.
Lemma yields_on_node {A} s (m : M (world R) A) R' : yields (node s) m R' → yields s (on_node m) R'.
Proof. apply yields_zoom. by destruct s. Qed.
Lemma yields_scope s uid : yields s (caller_scope uid)
  (λ r, (r.1 = true → is_admin uid (perms s)) ∧ (r.2 = 0 ∨ belongs uid r.2 (perms s))).
Proof.
  unfold caller_scope. eapply yields_bind; [eapply yields_on_perms, yields_answers, Permission.IsSystemAdmin_answers|]. intros a Ha.
  eapply yields_bind; [eapply yields_on_perms, yields_answers, Auth.GetUserDefaultDomain_answers|]. intros b Hb.
  apply yields_ret. cbn [fst snd]. split.
  - destruct a as [b'|]; [|done]. intros ->. specialize (Ha true eq_refl). injection Ha as Ha. by apply Z.ltb_lt.
  - destruct b as [d|]; [|by left]. specialize (Hb d eq_refl). injection Hb as <-. apply default_domain_belongs.
Qed.

(** whatever fails, the list of executors changes nothing and shows a
    caller who is no system administrator only stored executors that are global or
    serve its domain (or no domain, 0); it shows as online only executors with a
    recent heartbeat, and of their domains only those they serve. *)
Theorem list_shows_own_executors user s fs items :
  let '(r, (s', _)) := h_GetExecutorsWithDomains cfg zone_gap zone format_time user s fs in
  s' = s ∧ (r = Success items → ∃ uid, user = User uid ∧ ∀ d ds, (d, ds) ∈ items → ∃ e,
    e ∈ rows (executors (tabs (node s))) ∧ d = executor_dto zone_gap zone format_time false (clock (node s)) e ∧
    (is_admin uid (perms s) ∨ IsGlobal e = true ∨ ∃ dom, (dom = 0 ∨ belongs uid dom (perms s)) ∧
       mkDomainExecutor dom (e_ID e) ∈ rows (domain_executors (tabs (node s)))) ∧
    (dto_Status d = "online" → ∃ t, LastHeartbeat e = Some t ∧ clock (node s) - (t + zone_gap) ≤ 30 * Second) ∧
    ∀ x, x ∈ ds → domain_shown (node s) e x).
Proof.
  set (Q := λ r : response (list (ExecutorDTO * list Permission.Domain)), r = Success items → ∃ uid, user = User uid ∧ ∀ d ds, (d, ds) ∈ items →
    ∃ isAdmin dom e, (isAdmin = true → is_admin uid (perms s)) ∧ (dom = 0 ∨ belongs uid dom (perms s)) ∧
      visible (node s) isAdmin dom e ∧ d = executor_dto zone_gap zone format_time false (clock (node s)) e ∧ ∀ x, x ∈ ds → domain_shown (node s) e x).
  assert (yields s (h_GetExecutorsWithDomains cfg zone_gap zone format_time user) Q) as Hy.
  { destruct user as [| |uid]; [by apply yields_ret..|]. eapply yields_bind; [apply yields_scope|]. intros [isAdmin dom] [H1 H2]. simpl in H1, H2.
    eapply yields_bind; [apply yields_on_node, yields_by_role|]. intros r Hr. eapply (yields_bind _ _ _ (λ now, now = clock (node s))); [by intros fs'|].
    intros now ->. apply yields_ret. destruct r as [es|e]; [|done]. intros [= <-]. exists uid. split; [done|]. intros d ds Hin.
    apply list_elem_of_fmap in Hin as ([e ds'] & [= -> ->] & Hin). destruct (Hr es eq_refl e ds' Hin) as [Hv Hs]. by exists isAdmin, dom, e. }
  specialize (Hy fs). destruct (h_GetExecutorsWithDomains cfg zone_gap zone format_time user s fs) as [r [s' fs']]. simpl in Hy.
  destruct Hy as [-> HQ]. split; [done|]. intros Hr. destruct (HQ Hr) as (uid & Hu & Hitems). exists uid. split; [done|]. intros d ds Hin.
  destruct (Hitems d ds Hin) as (isAdmin & dom & e & H1 & H2 & [He Hv] & -> & Hds). exists e. split_and!; try done.
  - destruct Hv as [Hv|[Hv|Hv]]; [left; by apply H1|right; by left|]. right. right. by exists dom.
  - simpl. unfold actualStatus. destruct (is_online e) eqn:Eo; [|intros Hs; unfold is_online in Eo; by rewrite bool_decide_true in Eo].
    destruct (LastHeartbeat e) as [t|]; [|done]. simpl. destruct (Z.ltb_spec (heartbeatTimeout * Second) (clock (node s) - (t + zone_gap))); [done|].
    intros _. exists t. split; [done|]. unfold heartbeatTimeout in *. lia.
Qed.
End shown.

(** ** Examples *)
Definition demo_executor (id : Z) (name : string) (global : bool) : Executor :=
  mkExecutor id name "10.0.0.1:9000#host" "online" (Some (90 * Second)) 4 0 global 0 0.
Definition demo_task (id executor : Z) : Task :=
  mkTask id "nightly" "shell" "" "" 0 0 0 true "pending" 2 None [] executor 1 0 0.
Definition demo_tables : tables :=
  mkTables (mkTable [demo_task 1 1] 1) (mkTable [] 0)
    (mkTable [demo_executor 1 "node-1" false; demo_executor 2 "node-2" true] 2)
    (mkTable [mkDomainExecutor 2 1; mkDomainExecutor 2 2; mkDomainExecutor 3 2] 3) (mkTable [] 0) (mkTable [] 0) (mkTable [] 0).
Definition demo_node : world gmap_store := mkWorld demo_tables ∅ (100 * Second) true (mkEffects [] [] [] [] []).
(** User 5 belongs to domain 2, user 6 to domain 3; nobody is administrator. *)
Definition demo_perms : Permission.db :=
  Permission.mkDb (mkTable [] 0) (mkTable [] 0) (mkTable [] 0) (mkTable [] 0) (mkTable [] 0)
    (mkTable [Permission.mkUserDomain 5 2 true; Permission.mkUserDomain 6 3 true] 2).
Definition demo_site : site gmap_store := mkSite demo_node demo_perms.
Definition shown (user : Z) : response (list string) :=
  match run (h_GetExecutorsWithDomains Execution.demo_env 0 28800 fmt_d (User user)) demo_site [] with
  | (Success items, _) => Success ((λ x, dto_Name x.1) <$> items)
  | (Fail c m, _) => Fail c m
  | (Data c b, _) => Data c b
  end.

Lemma requests_touch_named_executor_witness :
  let w' := (serve_executor Execution.demo_env "node-1" (EAssign (User 1) (Some [3])) demo_node []).2.1 in
  demo_executor 2 "node-2" true ∈ rows (executors (tabs w')) ∧ mkDomainExecutor 3 1 ∈ rows (domain_executors (tabs w')).
Proof.
  split.
  - destruct (requests_touch_named_executor Execution.demo_env "node-1" (EAssign (User 1) (Some [3])) demo_node []) as [Ho _].
    + apply (bool_decide_unpack _). vm_compute. exact I.
    + apply Ho; [done|]. apply (bool_decide_unpack _). vm_compute. exact I.
  - apply (list_elem_of_lookup_2 _ 2). vm_compute. reflexivity.
Defined.

Lemma list_shows_own_executors_witness :
  shown 6 = Success ["node-2"; "node-2"] ∧
  ∀ items, (h_GetExecutorsWithDomains Execution.demo_env 0 28800 fmt_d (User 6) demo_site []).1 = Success items →
    ∀ d ds, (d, ds) ∈ items → ∃ e, e ∈ rows (executors demo_tables) ∧ dto_Name d = e_Name e.
Proof.
  split; [vm_compute; reflexivity|]. intros items Hi d ds Hin.
  pose proof (list_shows_own_executors Execution.demo_env 0 28800 fmt_d (User 6) demo_site [] items) as Hl.
  destruct (h_GetExecutorsWithDomains Execution.demo_env 0 28800 fmt_d (User 6) demo_site []) as [r [s' fs']]. destruct Hl as [_ Hl].
  destruct (Hl Hi) as (uid & _ & Hall). destruct (Hall d ds Hin) as (e & He & -> & _). by exists e.
Defined.

(** *** What the handlers let happen *)

(** A global executor is listed once for each domain it serves. *)
Lemma global_executor_repeated : shown 5 = Success ["node-1"; "node-2"; "node-2"].
Proof. vm_compute. reflexivity. Qed.
(** Whether a caller may delete an executor does not depend on its domain: user 6
    has nothing to do with domain 2, the only one node-1 serves. *)
Lemma can_delete_of_other_domain :
  run (h_CanDeleteExecutor Execution.demo_env (User 6) "node-1") demo_site [] = (Success (mkDeletable true "" true 1), demo_site).
Proof. vm_compute. reflexivity. Qed.
(** Deleting does not ask whether the executor may be deleted: it serves two
    domains; and it leaves its domains and the tasks assigned to it. *)
Lemma delete_leaves_references :
  run (h_CanDeleteExecutor Execution.demo_env (User 5) "node-2") demo_site [] =
    (Success (mkDeletable false "executor is assigned to multiple domains, only system admin can delete" false 0), demo_site) ∧
  (run (h_DeleteExecutor Execution.demo_env "node-2") demo_node []).1 = Success tt ∧
  rows (domain_executors (tabs (run (h_DeleteExecutor Execution.demo_env "node-2") demo_node []).2)) = rows (domain_executors demo_tables) ∧
  AssignedExecutorID <$> rows (tasks (tabs (run (h_DeleteExecutor Execution.demo_env "node-1") demo_node []).2)) = [1].
Proof. vm_compute. done. Qed.
(** An executor that does not exist is put online, given a capacity and deleted
    with success. *)
Lemma unknown_executor_online :
  (run (h_Online Execution.demo_env "node-9") demo_node []).1 = Success tt ∧
  (run (h_UpdateCapacity Execution.demo_env "node-9" (Some 7)) demo_node []).1 = Success 7 ∧
  (run (h_DeleteExecutor Execution.demo_env "node-9") demo_node []).1 = Success tt.
Proof. vm_compute. done. Qed.
