(* ===== verification/Roles.v ===== *)
(** * The handlers of roles and permissions

    [src/scheduler/internal/handler/role_admin.go] and [permission_handler.go]
    over the service of [Permission], the requests of [model/role.go] with the
    checks of their binding, the groups of [model/permission.go] and the routes
    of [cmd/routes.go] that lead there.  A body is [None] when it is no JSON of
    the request's type; [db_text] is the text of an error of the database. *)
From Stdlib Require Import Ascii.
From S2P Require Import Prelude Sql Crypto RsaUtil Users UserGuards ApiToken Auth Sessions Text TaskHandler Permission.

(** ** Requests *)
Record RoleRequest : Type := mkRoleRequest {
  rr_Name : string; rr_Code : string; rr_Description : string; rr_ParentID : option Z; rr_DomainID : option Z;
}.
(** [min] and [max] count characters; [required] is part of a positive [min]. *)
Definition sized (lo hi : nat) (s : string) : bool := (lo <=? length (runes s))%nat && (length (runes s) <=? hi)%nat.
Definition code_char (c : ascii) : bool := between 97 122 c || between 48 57 c || Ascii.eqb c "_".
(** [^[a-z0-9_]+$], of a text that is not empty *)
Fixpoint code_text (s : string) : bool := match s with EmptyString => true | String c s => code_char c && code_text s end.
Definition bind_role (req : option RoleRequest) : option RoleRequest :=
  q ← req;
  if sized 2 100 (rr_Name q) && sized 2 50 (rr_Code q) && code_text (rr_Code q) && sized 0 500 (rr_Description q) then Some q else None.
(** Name and description. *)
Definition bind_update (req : option (string * string)) : option (string * string) :=
  q ← req; if sized 2 100 q.1 && sized 0 500 q.2 then Some q else None.
Definition bind_assign (req : option (list Z)) : option (list Z) :=
  q ← req; match q with [] => None | _ => Some q end.

(** ** Groups of permissions *)
Record PermissionGroup : Type := mkGroup { g_Resource : string; g_ResourceName : string; g_Permissions : list Permission }.
Definition resourceNameMap : list (string * string) :=
  [("dashboard", "仪表盘"); ("user", "用户管理"); ("role", "角色管理"); ("permission", "权限管理"); ("domain", "领域管理");
   ("executor", "执行器管理"); ("task", "任务管理"); ("log", "日志管理"); ("datasource", "数据源管理"); ("webhook", "Webhook管理");
   ("audit_log", "审计日志"); ("config", "系统配置")].
Definition resourceOrder : list string :=
  ["dashboard"; "user"; "role"; "permission"; "domain"; "executor"; "task"; "log"; "datasource"; "webhook"; "audit_log"; "config"].
Definition resource_name (resource : string) : string :=
  match find (λ kv, bool_decide (kv.1 = resource)) resourceNameMap with Some kv => kv.2 | None => resource end.
(** [groupMap[resource]] *)
Definition of_resource (ps : list Permission) (resource : string) : list Permission :=
  where_ (λ p, bool_decide (Resource p = resource)) ps.
Definition group_of (ps : list Permission) (resource : string) : list PermissionGroup :=
  match of_resource ps resource with [] => [] | l => [mkGroup resource (resource_name resource) l] end.
(** [keys]: the order in which the map of the groups is gone through. *)
Definition BuildPermissionGroups (keys : list string) (ps : list Permission) : list PermissionGroup :=
  (resourceOrder ≫= group_of ps) ++ (where_ (λ r, negb (in_list r resourceOrder)) keys ≫= group_of ps).

(** ** Answers *)
Definition role_error_code (e : error) : Z :=
  match e with
  | ErrDB | ErrRoleCodeNotFound => 500
  | ErrDomainAccessDenied => 13003
  | ErrRoleNotFound => 12001
  | ErrSystemRoleCannotModify | ErrSystemRoleCannotDelete => 12003
  | ErrCannotDeleteRoleWithChildren => 12004
  end.

Section handlers.
Variable db_text : string.

Definition role_error_text (e : error) : string :=
  match e with
  | ErrDB => db_text
  | ErrRoleCodeNotFound => "role not found"
  | ErrDomainAccessDenied => "access to domain denied"
  | ErrRoleNotFound => "role not found"
  | ErrSystemRoleCannotModify => "system role cannot be modified"
  | ErrSystemRoleCannotDelete => "system role cannot be deleted"
  | ErrCannotDeleteRoleWithChildren => "cannot delete role with child roles"
  end.
Definition role_failed {A} (e : error) : response A := Fail (role_error_code e) (role_error_text e).
Definition role_answer {A} (r : result error A) : response A := match r with Ok a => Success a | Err e => role_failed e end.
Definition with_role_id {A} (id : string) (k : Z → M db (response A)) : M db (response A) :=
  match ParseInt id with
  | (_, false) => mret (BadRequest "invalid id")
  | (n, true) => if n <=? 0 then mret (BadRequest "id must be positive") else k n
  end.

(** ** [handler/role_admin.go] *)
Definition h_ListRoles (uid dID : Z) : M db (response (list Role)) :=
  isAdmin ← (if 0 <? uid then r ← IsSystemAdmin uid; mret match r with Ok b => b | Err _ => false end else mret false);
  r ← ListRoles dID isAdmin; mret (role_answer r).
(** An error of reading the permissions is not reported. *)
Definition h_GetRole (id : string) : M db (response (Role * list Permission)) :=
  with_role_id id (λ id,
    r ← GetRole id;
    match r with
    | Err e => mret (role_failed e)
    | Ok None => mret (NotFound "role not found")
    | Ok (Some role) =>
        ps ← GetRolePermissions id;
        mret (Success (role, match ps with Ok ps => ps | Err _ => [] end))
    end).
(** [None]: the role that was made is gone when it is read, and [role.ID]
    panics. *)
Definition h_CreateRole (req : option RoleRequest) : M db (option (response Role)) :=
  match bind_role req with
  | None => mret (Some (BadRequest ""))
  | Some q =>
      r ← CreateRole (rr_Name q) (rr_Code q) (rr_Description q) (positive (rr_ParentID q)) (positive (rr_DomainID q));
      mret match r with
           | Err e => Some (role_failed e)
           | Ok (Some role) => Some (Success role)
           | Ok None => None
           end
  end.
Definition h_UpdateRole (id : string) (req : option (string * string)) : M db (response Role) :=
  with_role_id id (λ id,
    match bind_update req with
    | None => mret (BadRequest "")
    | Some (name, description) =>
        r ← UpdateRole id name description;
        mret match r with
             | Err ErrSystemRoleCannotModify => BadRequest (role_error_text ErrSystemRoleCannotModify)
             | Err e => role_failed e
             | Ok None => NotFound "role not found"
             | Ok (Some role) => Success role
             end
    end).
(** The role is read first for the audit log. *)
Definition h_DeleteRole (id : string) : M db (response unit) :=
  with_role_id id (λ id,
    _ ← GetRole id;
    r ← DeleteRole id;
    mret match r with
         | Err ErrSystemRoleCannotDelete => BadRequest (role_error_text ErrSystemRoleCannotDelete)
         | Err ErrRoleNotFound => NotFound (role_error_text ErrRoleNotFound)
         | Err e => role_failed e
         | Ok _ => Success tt
         end).
Definition h_GetRolePermissions (id : string) : M db (response (list Permission)) :=
  with_role_id id (λ id, r ← GetRolePermissions id; mret (role_answer r)).
Definition h_AssignPermissions (id : string) (req : option (list Z)) : M db (response unit) :=
  with_role_id id (λ id,
    match bind_assign req with
    | None => mret (BadRequest "")
    | Some ids =>
        r ← admin_AssignPermissionsToRole id ids;
        mret match r with
             | Err ErrSystemRoleCannotModify => BadRequest (role_error_text ErrSystemRoleCannotModify)
             | Err ErrRoleNotFound => NotFound (role_error_text ErrRoleNotFound)
             | Err e => role_failed e
             | Ok _ => Success tt
             end
    end).
Definition h_GetAllPermissions (keys : list string) : M db (response (list Permission * list PermissionGroup)) :=
  r ← GetAllPermissions;
  mret match r with Err e => role_failed e | Ok ps => Success (ps, BuildPermissionGroups keys ps) end.

(** ** Routes *)
Inductive role_request : Type :=
| RoleList | RoleGet (id : string) | RoleCreate (req : option RoleRequest) | RoleUpdate (id : string) (req : option (string * string))
| RoleDelete (id : string) | RolePermissions (id : string) | RoleAssign (id : string) (req : option (list Z))
| AllPermissions (keys : list string).
Definition role_guard (q : role_request) : guard :=
  match q with
  | RoleList | RoleGet _ | RolePermissions _ => Permits "role" "read"
  | RoleCreate _ | RoleUpdate _ _ | RoleDelete _ | RoleAssign _ _ => Permits "role" "manage"
  | AllPermissions _ => Permits "permission" "read"
  end.
Definition serve_role (id : identity) (q : role_request) : M db unit :=
  match q with
  | RoleList => _ ← h_ListRoles (user_id id) (current_domain_id id); mret tt
  | RoleGet i => _ ← h_GetRole i; mret tt
  | RoleCreate req => _ ← h_CreateRole req; mret tt
  | RoleUpdate i req => _ ← h_UpdateRole i req; mret tt
  | RoleDelete i => _ ← h_DeleteRole i; mret tt
  | RolePermissions i => _ ← h_GetRolePermissions i; mret tt
  | RoleAssign i req => _ ← h_AssignPermissions i req; mret tt
  | AllPermissions keys => _ ← h_GetAllPermissions keys; mret tt
  end.
Definition put_rbac (r : db) (d : udb) : udb := mkUdb r (users d) (api_tokens d) (exec_domains d) (task_domains d).
Definition role_route `{Jwt, Rsa, Aead} (cfg : JWTConfig) (rsaUtil : RSAUtil) (now : Z) (authHeader query : string)
    (q : role_request) : M udb (verdict unit) :=
  and_then (gate cfg rsaUtil now authHeader query (role_guard q)) (λ '(id, _),
  _ ← zoom rbac put_rbac (serve_role id q); mret (Next tt)).
End handlers.

(** ** What a request changes *)
Lemma preserves_after {S A} (m : M S A) (I : S → Prop) : triple I (_ ← m; mret tt) (λ _ s, I s) ↔ preserves I m.
Proof. unfold triple, preserves. split; intros Hm s fs Hs; specialize (Hm s fs Hs); rewrite run_bind in *; by destruct (m s fs) as [a [s' fs']]. Qed.
Lemma preserves_role_reads {A} (I : db → Prop) (m : M db (result error A)) f : answers ErrDB m f → preserves I m.
Proof. intros Hm d fs Hd. by destruct (Hm d fs) as (fs' & [->|[-> _]] & _). Qed.
Lemma reads_roles {A} (I : db → Prop) (f : db → A) : preserves I (select f).
Proof. apply (preserves_role_reads _ _ (λ d, Ok (f d))), answers_query. Qed.
Lemma preserves_exec (I : db → Prop) f : (∀ d, I d → I (f d)) → preserves I (or_err ErrDB (exec f)).
Proof. intros Hf. unfold or_err, exec. preserves_step; [by apply preserves_call|preserves_step]. Qed.
Lemma preserves_exec_checked {A} (I : db → Prop) (f : db → option (A * db)) :
  (∀ d a d', I d → f d = Some (a, d') → I d') → preserves I (or_err ErrDB (exec_checked f)).
Proof.
  intros Hf. unfold or_err, exec_checked. preserves_step; [preserves_step|preserves_step]; [|preserves_step].
  apply preserves_call. intros d Hd. destruct (f d) as [[a d']|] eqn:E; [by eapply Hf|done].
Qed.
Ltac role_step := first
  [ preserves_step
  | match goal with
    | |- preserves _ (bind_ok _ _) => unfold bind_ok
    | |- preserves _ (select _) => apply reads_roles
    | |- preserves _ (or_err ErrDB (exec _)) => apply preserves_exec; intros
    | |- preserves _ (or_err ErrDB (exec_checked _)) => apply preserves_exec_checked; intros
    | |- preserves _ (match ?x with _ => _ end) => destruct x
    end ].

Section changed.
Context `{Jwt, Rsa, Aead} (cfg : JWTConfig) (rsaUtil : RSAUtil) (db_text : string).

Definition reads_only (q : role_request) : bool :=
  match q with RoleCreate _ | RoleUpdate _ _ | RoleDelete _ | RoleAssign _ _ => false | _ => true end.
Lemma preserves_reading (I : db → Prop) id q : reads_only q = true → preserves I (serve_role db_text id q).
Proof.
  destruct q; try done; intros _; simpl; preserves_step; try preserves_step.
  - unfold h_ListRoles, IsSystemAdmin, ListRoles, GetAllRoles, GetRolesByDomain. repeat role_step.
  - unfold h_GetRole, with_role_id, GetRole, GetRoleByID, GetRolePermissions. repeat role_step.
  - unfold h_GetRolePermissions, with_role_id, GetRolePermissions. repeat role_step.
  - unfold h_GetAllPermissions, GetAllPermissions. repeat role_step.
Qed.

(** Permissions and domains are never written here. *)
Definition same_rest (d0 d : db) : Prop :=
  permissions d = permissions d0 ∧ domains d = domains d0 ∧ user_domains d = user_domains d0.
Lemma serve_same_rest id q d0 : preserves (same_rest d0) (serve_role db_text id q).
Proof.
  destruct (reads_only q) eqn:E; [by apply preserves_reading|]. destruct q as [|i|req|i req|i|i|i req|keys]; try done; simpl; preserves_step; try preserves_step.
  - unfold h_CreateRole, CreateRole, GetRoleByID. repeat role_step. case_match; [done|]. by simplify_eq.
  - unfold h_UpdateRole, with_role_id, UpdateRole, GetRoleByID. repeat role_step. done.
  - unfold h_DeleteRole, with_role_id, DeleteRole, GetRole, GetRoleByID. repeat role_step; done.
  - unfold h_AssignPermissions, with_role_id, admin_AssignPermissionsToRole, AssignPermissionsToRole, GetRoleByID. repeat role_step; try done.
    destruct (insert_role_permissions _ _ _); [|done]. simpl in *. by simplify_eq.
Qed.
End changed.

Section guarded.
Context `{Jwt, Rsa, Aead} (cfg : JWTConfig) (rsaUtil : RSAUtil) (db_text : string).

(** The system role [r] with its permissions and its users. *)
Definition untouched (d0 : db) (r : Role) (d : db) : Prop :=
  r ∈ rows (roles d) ∧
  where_ (λ rp, rp_role rp =? role_ID r) (rows (role_permissions d)) = where_ (λ rp, rp_role rp =? role_ID r) (rows (role_permissions d0)) ∧
  where_ (λ ur, ur_role ur =? role_ID r) (rows (user_roles d)) = where_ (λ ur, ur_role ur =? role_ID r) (rows (user_roles d0)).
Lemma kept_op r rps urs op : IsSystem r = true → preserves (kept r rps urs) (admin_run op).
Proof. intros Hs. apply admin_run_kept, Hs. Qed.
Lemma kept_serve_role r rps urs id q : IsSystem r = true → preserves (kept r rps urs) (serve_role db_text id q).
Proof.
  intros Hs. destruct (reads_only q) eqn:E; [by apply preserves_reading|].
  destruct q as [|i|req|i req|i|i|i req|keys]; try done; simpl; preserves_step; try preserves_step.
  - unfold h_CreateRole. destruct (bind_role req); preserves_step; [|preserves_step].
    by apply preserves_after, (kept_op r rps urs (OpCreate _ _ _ _ _)).
  - unfold h_UpdateRole, with_role_id. destruct (ParseInt i) as [n []]; [|preserves_step]. case_match; [preserves_step|].
    case_match; [|preserves_step]. case_match. preserves_step; [|preserves_step]. by apply preserves_after, (kept_op r rps urs (OpUpdate _ _ _)).
  - unfold h_DeleteRole, with_role_id. destruct (ParseInt i) as [n []]; [|preserves_step]. case_match; [preserves_step|].
    preserves_step; [apply reads_roles|]. preserves_step; [|preserves_step]. by apply preserves_after, (kept_op r rps urs (OpDelete _)).
  - unfold h_AssignPermissions, with_role_id. destruct (ParseInt i) as [n []]; [|preserves_step]. case_match; [preserves_step|].
    case_match; [|preserves_step]. preserves_step; [|preserves_step]. by apply preserves_after, (kept_op r rps urs (OpAssign _ _)).
Qed.

Lemma zoom_rbac_run (m : M db unit) d fs :
  zoom rbac put_rbac m d fs = (tt, (put_rbac (m (rbac d) fs).2.1 d, (m (rbac d) fs).2.2)).
Proof. unfold zoom. by destruct (m (rbac d) fs) as [[] [r' fs']]. Qed.

(** C36: whatever fails, a request to the handlers of roles that changes a
    role or what belongs to one comes from a caller the middleware let through
    and who may manage roles by the permissions at that moment; accounts,
    permissions and domains stay as they are, and every system role keeps its
    row, its permissions and its users. *)
Theorem role_routes_are_guarded now authHeader query q d fs : ids_ok (roles (rbac d)) →
  let d' := (role_route db_text cfg rsaUtil now authHeader query q d fs).2.1 in
  users d' = users d ∧ same_rest (rbac d) (rbac d') ∧
  (∀ r, r ∈ rows (roles (rbac d)) → IsSystem r = true → untouched (rbac d) r (rbac d')) ∧
  (rbac d' = rbac d ∨
   ∃ id, (JWTAuthMiddlewareWithAPIToken cfg rsaUtil now authHeader query d fs).1 = Next id ∧
         may (rbac d) (user_id id) (current_domain_id id) "role" "manage").
Proof.
  intros Hids. simpl. unfold role_route.
  destruct (gated_run cfg rsaUtil now authHeader query (role_guard q) (λ '(id, _),
    _ ← zoom rbac put_rbac (serve_role db_text id q); mret (Next tt)) d fs)
    as [[Hr Hu]|(id & role & d1 & fs1 & Hid & Hg & [Hr Hu] & ->)].
  - rewrite Hr. by split_and!; [| |intros r ? _|left].
  - rewrite run_bind, zoom_rbac_run. simpl. rewrite Hr. split_and!; [done|by apply serve_same_rest| |].
    + intros r Hin Hs. by destruct (kept_serve_role r _ _ id q Hs (rbac d) fs1 (conj Hids (conj Hin (conj eq_refl eq_refl)))) as (_ & Hk).
    + destruct (reads_only q) eqn:E; [left; by apply (preserves_reading db_text (λ x, x = rbac d))|right].
      exists id. split; [done|]. by destruct q.
Qed.
End guarded.

(** ** What assigning leaves *)
Definition perms_of (roleID : Z) (d : db) : list Z := rp_permission <$> where_ (λ rp, rp_role rp =? roleID) (rows (role_permissions d)).
Lemma insert_all roleID ids t : NoDup ids → (∀ i, i ∈ ids → i ∉ rp_permission <$> where_ (λ rp, rp_role rp =? roleID) (rows t)) →
  ∃ n, insert_role_permissions roleID ids t = Some (mkTable (rows t ++ (mkRolePermission roleID <$> ids)) n).
Proof.
  revert t. induction ids as [|i ids IH]; intros t Hnd Hfree; [exists (last_id t); simpl; by rewrite app_nil_r; destruct t|].
  apply NoDup_cons in Hnd as [Hi Hnd]. simpl. destruct (existsb _ _) eqn:E.
  - exfalso. apply existsb_elem_of in E as (rp & Hrp & [Hr%Z.eqb_eq Hp%Z.eqb_eq]%andb_true_iff). apply (Hfree i); [by left|].
    apply list_elem_of_fmap. exists rp. split; [done|]. apply elem_of_where. by rewrite Hr, Z.eqb_refl.
  - destruct (IH (insert_row (λ _, mkRolePermission roleID i) t) Hnd) as [n Hn].
    + intros j Hj. simpl. unfold where_. rewrite filter_app, fmap_app, not_elem_of_app. split; [apply Hfree; by right|].
      rewrite filter_cons, decide_True by (simpl; apply Z.eqb_refl). rewrite filter_nil. intros [= ->]%list_elem_of_singleton. by apply Hi.
    + exists n. rewrite Hn. simpl. by rewrite <- app_assoc.
Qed.
Lemma insert_refused roleID ids t : ¬ NoDup ids → insert_role_permissions roleID ids t = None.
Proof.
  intros Hd. assert (∀ ids (seen : list Z) t, (∀ i, i ∈ seen → existsb (λ rp, (rp_role rp =? roleID) && (rp_permission rp =? i)) (rows t) = true) →
    ¬ (NoDup ids ∧ ∀ i, i ∈ ids → i ∉ seen) → insert_role_permissions roleID ids t = None) as Hgen.
  { clear. induction ids as [|i ids IH]; intros seen t Hs Hn; [destruct Hn; split; [constructor|by intros i ?%elem_of_nil]|].
    simpl. destruct (existsb _ _) eqn:E; [done|]. apply (IH (i :: seen)).
    - intros j [-> |Hj]%elem_of_cons; simpl; rewrite existsb_app; [simpl; by rewrite !Z.eqb_refl, orb_true_r|by rewrite Hs].
    - intros [Hnd Hf]. apply Hn. split; [constructor; [|done]|].
      + intros Hi. apply (Hf i Hi). by left.
      + intros j [-> |Hj]%elem_of_cons Hseen; [by rewrite Hs in E|]. apply (Hf j Hj). by right. }
  apply (Hgen ids []); [by intros i ?%elem_of_nil|]. by intros [? _].
Qed.

Lemma select_run {A} (f : db → A) d : select f d [] = (Ok (f d), (d, [])).
Proof. done. Qed.
Lemma exec_run f d : (or_err ErrDB (exec f) : M db (result error unit)) d [] = (Ok tt, (f d, [])).
Proof. done. Qed.
Lemma exec_checked_run {A} (f : db → option (A * db)) d :
  (or_err ErrDB (exec_checked f) : M db (result error A)) d [] = match f d with Some (a, d') => (Ok a, (d', [])) | None => (Err ErrDB, (d, [])) end.
Proof. unfold or_err, exec_checked. rewrite !run_bind. unfold call. by destruct (f d) as [[a d']|]. Qed.
Lemma perms_of_cleared roleID d : perms_of roleID (set_role_permissions (delete_where (λ rp, rp_role rp =? roleID)) d) = [].
Proof. unfold perms_of. simpl. rewrite where_none; [done|]. by intros rp [_ ?%negb_true_iff]%elem_of_where. Qed.
Lemma perms_of_inserted roleID ids l n d : rp_permission <$> where_ (λ rp, rp_role rp =? roleID) l = [] →
  perms_of roleID (set_role_permissions (λ _, mkTable (l ++ (mkRolePermission roleID <$> ids)) n) d) = ids.
Proof.
  unfold perms_of, where_. simpl. rewrite filter_app, fmap_app. intros ->. simpl. induction ids as [|j ids IH]; [done|].
  rewrite fmap_cons, filter_cons, decide_True by (simpl; apply Z.eqb_refl). by rewrite fmap_cons, IH.
Qed.
Lemma Assign_run roleID ids d : ids ≠ [] →
  let '(r, (d', fs)) := AssignPermissionsToRole roleID ids d [] in
  if decide (NoDup ids) then r = Ok tt ∧ perms_of roleID d' = ids else r = Err ErrDB ∧ perms_of roleID d' = [].
Proof.
  intros Hne. unfold AssignPermissionsToRole, bind_ok. rewrite run_bind, exec_run. cbv iota beta. destruct ids as [|i ids]; [done|].
  pose proof (perms_of_cleared roleID d) as Hclear. set (d1 := set_role_permissions _ d) in *. rewrite exec_checked_run. case_decide as Hnd.
  - destruct (insert_all roleID (i :: ids) (role_permissions d1) Hnd) as [n Hn].
    { intros j _. unfold perms_of in Hclear. rewrite Hclear. apply not_elem_of_nil. }
    rewrite Hn. simpl. split; [done|]. by apply (perms_of_inserted roleID (i :: ids)).
  - by rewrite insert_refused.
Qed.

(** C37: when no call fails, assigning leaves a role exactly the permissions asked
    for; a request that names one of them twice is refused and leaves it
    none. *)
Theorem AssignPermissions_result db_text id roleID ids role d :
  ParseInt id = (roleID, true) → 0 < roleID → ids ≠ [] →
  head (where_ (λ r, role_ID r =? roleID) (rows (roles d))) = Some role → IsSystem role = false →
  let out := h_AssignPermissions db_text id (Some ids) d [] in
  if decide (NoDup ids) then out.1 = Success tt ∧ perms_of roleID out.2.1 = ids
  else out.1 = Fail 500 db_text ∧ perms_of roleID out.2.1 = [].
Proof.
  intros Hp Hpos Hne Hrole Hsys. simpl. unfold h_AssignPermissions, with_role_id. rewrite Hp.
  destruct (Z.leb_spec roleID 0); [lia|]. replace (bind_assign (Some ids)) with (Some ids) by by destruct ids.
  rewrite run_bind. unfold admin_AssignPermissionsToRole, GetRoleByID, bind_ok. rewrite run_bind, select_run. rewrite Hrole. cbn -[AssignPermissionsToRole perms_of].
  rewrite Hsys. pose proof (Assign_run roleID ids d Hne) as Ha. destruct (AssignPermissionsToRole roleID ids d []) as [r [d' fs]].
  case_decide; destruct Ha as [-> Ha]; done.
Qed.

(** ** The groups *)
Lemma split_where {A} (p : A → bool) l : where_ p l ++ where_ (λ x, negb (p x)) l ≡ₚ l.
Proof.
  unfold where_. induction l as [|x l IH]; [done|]. rewrite !filter_cons. destruct (p x); simpl.
  - by f_equiv.
  - rewrite <- Permutation_middle. by f_equiv.
Qed.
Lemma group_of_resource ps r : g_Resource <$> group_of ps r = match of_resource ps r with [] => [] | _ => [r] end.
Proof. unfold group_of. by destruct (of_resource ps r). Qed.
Lemma group_of_permissions ps r : mjoin (g_Permissions <$> group_of ps r) = of_resource ps r.
Proof. unfold group_of. destruct (of_resource ps r); [done|]. simpl. by rewrite app_nil_r. Qed.
Lemma of_resource_others ps r r' : r' ≠ r → of_resource (where_ (λ p, negb (bool_decide (Resource p = r))) ps) r' = of_resource ps r'.
Proof. intros Hne. unfold of_resource. apply where_where. intros p Hp%bool_decide_eq_true. apply negb_true_iff, bool_decide_eq_false. congruence. Qed.
Lemma groups_of_all rs ps : NoDup rs → (∀ p, p ∈ ps → Resource p ∈ rs) → mjoin (g_Permissions <$> (rs ≫= group_of ps)) ≡ₚ ps.
Proof.
  revert ps. induction rs as [|r rs IH]; intros ps Hnd Hin.
  - destruct ps as [|p ps]; [done|]. exfalso. apply (not_elem_of_nil (Resource p)), Hin. by left.
  - apply NoDup_cons in Hnd as [Hr Hnd]. rewrite bind_cons, fmap_app, join_app, group_of_permissions.
    transitivity (of_resource ps r ++ where_ (λ p, negb (bool_decide (Resource p = r))) ps); [|apply split_where]. f_equiv.
    replace (rs ≫= group_of ps) with (rs ≫= group_of (where_ (λ p, negb (bool_decide (Resource p = r))) ps)).
    + apply IH; [done|]. intros p [Hp Hne%negb_true_iff%bool_decide_eq_false]%elem_of_where.
      by apply Hin, elem_of_cons in Hp as [?|?].
    + clear -Hr. induction rs as [|r' rs IH]; [done|]. apply not_elem_of_cons in Hr as [Hne Hr]. rewrite !bind_cons, IH by done.
      f_equal. unfold group_of. by rewrite of_resource_others.
Qed.
Lemma group_resources rs ps : g_Resource <$> (rs ≫= group_of ps) `sublist_of` rs.
Proof.
  induction rs as [|r rs IH]; [done|]. rewrite bind_cons, fmap_app, group_of_resource. destruct (of_resource ps r); [by apply sublist_cons|].
  by apply sublist_skip.
Qed.

(** Whatever the order in which Go goes through its map, the groups of
    permissions shown to an administrator hold every permission exactly once,
    one group for each resource, and none is empty. *)
Theorem permission_groups_partition keys ps : keys ≡ₚ remove_dups (Resource <$> ps) →
  let gs := BuildPermissionGroups keys ps in
  mjoin (g_Permissions <$> gs) ≡ₚ ps ∧ NoDup (g_Resource <$> gs) ∧
  ∀ g, g ∈ gs → g_Permissions g ≠ [] ∧ g_Permissions g = where_ (λ p, bool_decide (Resource p = g_Resource g)) ps.
Proof.
  intros Hk. simpl. unfold BuildPermissionGroups. rewrite <- bind_app. set (rs := resourceOrder ++ _).
  assert (NoDup rs) as Hnd.
  { apply NoDup_app. split_and!; [by apply (bool_decide_unpack _)| |].
    - intros r Hr [_ Hn%negb_true_iff]%elem_of_where. apply in_list_true in Hr. congruence.
    - apply NoDup_filter. rewrite Hk. apply NoDup_remove_dups. }
  split_and!.
  - apply groups_of_all; [done|]. intros p Hp. unfold rs. apply elem_of_app. destruct (in_list (Resource p) resourceOrder) eqn:E.
    + left. by apply in_list_true.
    + right. apply elem_of_where. split; [|by rewrite E]. rewrite Hk, elem_of_remove_dups. by apply list_elem_of_fmap_2.
  - eapply sublist_NoDup; [exact Hnd|apply group_resources].
  - intros g (r & Hg & _)%list_elem_of_bind. unfold group_of in Hg. destruct (of_resource ps r) as [|p l] eqn:E; [by apply not_elem_of_nil in Hg|].
    apply list_elem_of_singleton in Hg as ->. simpl. split; [done|]. unfold of_resource in E. by rewrite E.
Qed.

(** ** Witnesses and findings

    Anna administers the domain 10; her role may manage roles. *)
Definition role_house : udb :=
  mkUdb
    (mkDb (mkTable [mkRole 1 "" "system_admin" "" true None None; mkRole 2 "" "domain_admin" "" true None None;
                    mkRole 3 "" "viewer" "" true None None; mkRole 4 "ops" "ops" "" false None (Some 10); mkRole 5 "far" "far" "" false None (Some 20)] 5)
       (mkTable [mkPermission 1 "role" "manage" ""; mkPermission 2 "datasource" "delete" ""; mkPermission 3 "lineage" "read" ""] 3)
       (mkTable [mkUserRole 1 1 None; mkUserRole 2 2 None; mkUserRole 2 4 (Some 10); mkUserRole 3 3 None] 4)
       (mkTable [mkRolePermission 2 1; mkRolePermission 5 3] 2)
       (mkTable [mkDomain 10 "north" ""; mkDomain 20 "south" ""] 20)
       (mkTable [mkUserDomain 2 10 true; mkUserDomain 3 20 true] 2))
    (users UserGuards.office) (mkTable [] 0) [] [].
Definition anna_asks (q : role_request) : udb :=
  (role_route "" demo_cfg demo_rsa hour ("Bearer " +:+ token_text anna_session) "" q role_house []).2.1.

Lemma role_house_ids : ids_ok (roles (rbac role_house)).
Proof. split; [by apply (bool_decide_unpack _)|each_row]. Qed.
Example role_routes_are_guarded_witness :
  untouched (rbac role_house) (mkRole 2 "" "domain_admin" "" true None None) (rbac (anna_asks (RoleDelete "2"))).
Proof.
  destruct (role_routes_are_guarded demo_cfg demo_rsa "" hour ("Bearer " +:+ token_text anna_session) "" (RoleDelete "2") role_house [] role_house_ids)
    as (_ & _ & Hs & _). apply Hs; [by right; left|reflexivity].
Defined.
Example permission_groups_partition_witness :
  let gs := BuildPermissionGroups ["lineage"; "role"; "datasource"] (rows (permissions (rbac role_house))) in
  g_Resource <$> gs = ["role"; "datasource"; "lineage"] ∧ NoDup (g_Resource <$> gs).
Proof.
  destruct (permission_groups_partition ["lineage"; "role"; "datasource"] (rows (permissions (rbac role_house)))) as (_ & Hn & _).
  - by apply (bool_decide_unpack _).
  - split; [reflexivity|exact Hn].
Defined.
Example AssignPermissions_result_witness :
  (h_AssignPermissions "" "4" (Some [2; 3]) (rbac role_house) []).1 = Success tt.
Proof. apply (AssignPermissions_result "" "4" 4 [2; 3] (mkRole 4 "ops" "ops" "" false None (Some 10)) (rbac role_house)); by vm_compute. Defined.

(** Whoever may manage roles may raise a role it has itself. *)
Example manager_raises_itself :
  (HasPermission 2 "datasource" "delete" 10 (rbac role_house) []).1 = Ok false ∧
  (HasPermission 2 "datasource" "delete" 10 (rbac (anna_asks (RoleAssign "4" (Some [2])))) []).1 = Ok true.
Proof. split; by vm_compute. Qed.
(** The domain of a role is not looked at. *)
Example role_of_other_domain_deleted :
  existsb (λ r, role_ID r =? 5) (rows (roles (rbac (anna_asks (RoleDelete "5"))))) = false.
Proof. by vm_compute. Qed.
(** A permission named twice: the role has lost all it had. *)
Example repeated_permission_empties_role :
  perms_of 5 (rbac role_house) = [3] ∧ perms_of 5 (rbac (anna_asks (RoleAssign "5" (Some [3; 3])))) = [].
Proof. split; by vm_compute. Qed.
(** A failure of reading its permissions shows a role without any. *)
Example unread_permissions_shown_as_none :
  (h_GetRole "" "5" (rbac role_house) [Fine; Ghost]).1 = Success (mkRole 5 "far" "far" "" false None (Some 20), []).
Proof. by vm_compute. Qed.
