(* ===== verification/Charts.v ===== *)
(** * Grafana charts

    [src/scheduler/internal/service/grafana_dashboard.go],
    [src/scheduler/internal/handler/grafana_dashboard.go] and their routes of
    [cmd/routes.go].  Of [net/url] the scheme is modelled; whether the rest of
    an address parses is the parameter [rest_ok].  Numbers of a request fit
    Go's [int]. *)
From Stdlib Require Import Ascii Sorted.
From stdpp Require Import sorting.
From S2P Require Import Prelude Sql Permission Crypto RsaUtil Users UserGuards ApiToken Auth Sessions Text TaskHandler.

Record GrafanaDashboard : Type := mkChart {
  g_ID : Z; g_Name : string; g_Description : string; EmbedURL : string; Width : string; HeightPx : Z; SortOrder : Z; Enabled : Z;
  g_CreatedAt : Z; g_UpdatedAt : Z;
}.
#[export] Instance GrafanaDashboard_eq_dec : EqDecision GrafanaDashboard.
Proof. solve_decision. Defined.

Inductive chart_error : Type :=
| ChartDB | ChartNoName | ChartLongName | ErrGrafanaInvalidURL | ChartLongURL | ErrGrafanaInvalidWidth | ErrGrafanaInvalidHeight
| ErrGrafanaInvalidSortOrder | ErrGrafanaDashboardNotFound | ChartInvalidID.

(** Charts, accounts and the clock. *)
Record board : Type := mkBoard { charts : table GrafanaDashboard; accounts : udb; board_now : Z }.
Definition set_charts (f : table GrafanaDashboard → table GrafanaDashboard) (b : board) : board :=
  mkBoard (f (charts b)) (accounts b) (board_now b).
Definition put_accounts (d : udb) (b : board) : board := mkBoard (charts b) d (board_now b).

(** ** Addresses *)
Definition is_letter (c : ascii) : bool := between 97 122 c || between 65 90 c.
Definition scheme_char (c : ascii) : bool :=
  is_digit c || Ascii.eqb c "+" || Ascii.eqb c "-" || Ascii.eqb c ".".
(** [getScheme] of [net/url]: [None] is its error, [Some ""] no scheme; [seen]
    is what precedes. *)
Fixpoint get_scheme (seen s : string) : option string :=
  match s with
  | EmptyString => Some ""
  | String c s =>
      let seen' := seen +:+ String c EmptyString in
      if is_letter c then get_scheme seen' s
      else if scheme_char c then if bool_decide (seen = "") then Some "" else get_scheme seen' s
      else if Ascii.eqb c ":" then if bool_decide (seen = "") then None else Some seen
      else Some ""
  end.

Section charts.
Variable rest_ok : string → bool.

(** [url.Parse(s).Scheme] *)
Definition url_scheme (s : string) : option string := if rest_ok s then ToLower <$> get_scheme "" s else None.
Definition is_web (s : string) : bool := match url_scheme s with Some t => in_list t ["http"; "https"] | None => false end.

(** ** [service/grafana_dashboard.go] *)
Definition validate (d : GrafanaDashboard) : option chart_error :=
  if bool_decide (TrimSpace (g_Name d) = "") then Some ChartNoName
  else if (100 <? String.length (g_Name d))%nat then Some ChartLongName
  else if bool_decide (EmbedURL d = "") then Some ErrGrafanaInvalidURL
  else if negb (is_web (EmbedURL d)) then Some ErrGrafanaInvalidURL
  else if (2048 <? String.length (EmbedURL d))%nat then Some ChartLongURL
  else if negb (in_list (Width d) ["third"; "half"; "full"]) then Some ErrGrafanaInvalidWidth
  else if (HeightPx d <? 120) || (1200 <? HeightPx d) then Some ErrGrafanaInvalidHeight
  else if SortOrder d <? 0 then Some ErrGrafanaInvalidSortOrder
  else None.

Definition of_chart (id : Z) (x : GrafanaDashboard) : bool := g_ID x =? id.
Definition stored_chart (id now : Z) (d : GrafanaDashboard) : GrafanaDashboard :=
  mkChart id (g_Name d) (g_Description d) (EmbedURL d) (Width d) (HeightPx d) (SortOrder d) (Enabled d) now now.
Definition overwrite_chart (now : Z) (d x : GrafanaDashboard) : GrafanaDashboard :=
  mkChart (g_ID x) (g_Name d) (g_Description d) (EmbedURL d) (Width d) (HeightPx d) (SortOrder d) (Enabled d) (g_CreatedAt x) now.
Definition move_chart (now order : Z) (x : GrafanaDashboard) : GrafanaDashboard :=
  mkChart (g_ID x) (g_Name x) (g_Description x) (EmbedURL x) (Width x) (HeightPx x) order (Enabled x) (g_CreatedAt x) now.

Definition read_charts {A} (f : table GrafanaDashboard → A) : M board (result chart_error A) := or_err ChartDB (query (λ b, f (charts b))).
(** A write and how many rows it met. *)
Definition change_charts {A} (f : table GrafanaDashboard → A * table GrafanaDashboard) : M board (result chart_error A) :=
  or_err ChartDB (call (λ b, let '(a, t) := f (charts b) in (a, set_charts (λ _, t) b))).
Definition met_chart (n : Z) : M board (result chart_error unit) := mret (if n =? 0 then Err ErrGrafanaDashboardNotFound else Ok tt).

Definition Create (d : GrafanaDashboard) : M board (result chart_error GrafanaDashboard) :=
  match validate d with
  | Some e => mret (Err e)
  | None =>
      now ← gets board_now;
      id ←? change_charts (λ t, (last_id t + 1, insert_row (λ id, stored_chart id now d) t));
      mret (Ok (stored_chart id now d))
  end.
Definition Update (id : Z) (d : GrafanaDashboard) : M board (result chart_error unit) :=
  match validate d with
  | Some e => mret (Err e)
  | None =>
      now ← gets board_now;
      n ←? change_charts (λ t, (count (of_chart id) (rows t), update_where (of_chart id) (overwrite_chart now d) t));
      met_chart n
  end.
Definition Delete (id : Z) : M board (result chart_error unit) :=
  n ←? change_charts (λ t, (count (of_chart id) (rows t), delete_where (of_chart id) t));
  met_chart n.
(** [ORDER BY sort_order ASC, id ASC] *)
Definition chart_le (x y : GrafanaDashboard) : bool :=
  (SortOrder x <? SortOrder y) || ((SortOrder x =? SortOrder y) && (g_ID x <=? g_ID y)).
Definition list_ (onlyEnabled : bool) : M board (result chart_error (list GrafanaDashboard)) :=
  read_charts (λ t, order_by chart_le (where_ (λ x, negb onlyEnabled || (Enabled x =? 1)) (rows t))).
Definition ListEnabled : M board (result chart_error (list GrafanaDashboard)) := list_ true.
Definition ListAll : M board (result chart_error (list GrafanaDashboard)) := list_ false.
Definition GetByID (id : Z) : M board (result chart_error GrafanaDashboard) :=
  o ←? read_charts (λ t, head (where_ (of_chart id) (rows t)));
  mret match o with Some x => Ok x | None => Err ErrGrafanaDashboardNotFound end.
(** The checks of the items, in their order. *)
Fixpoint check_items (items : list (Z * Z)) : option chart_error :=
  match items with
  | [] => None
  | (id, order) :: items =>
      if id <=? 0 then Some ChartInvalidID else if order <? 0 then Some ErrGrafanaInvalidSortOrder else check_items items
  end.
(** One transaction. *)
Definition apply_items (now : Z) (items : list (Z * Z)) (t : table GrafanaDashboard) : table GrafanaDashboard :=
  foldl (λ t item, update_where (of_chart item.1) (move_chart now item.2) t) t items.
Definition Reorder (items : list (Z * Z)) : M board (result chart_error unit) :=
  match items with
  | [] => mret (Ok tt)
  | _ =>
      match check_items items with
      | Some e => mret (Err e)
      | None => now ← gets board_now; change_charts (λ t, (tt, apply_items now items t))
      end
  end.

(** ** [handler/grafana_dashboard.go] *)
Variable db_text : string.
Definition chart_error_code (e : chart_error) : Z :=
  match e with
  | ErrGrafanaDashboardNotFound => 19001 | ErrGrafanaInvalidURL => 19002 | ErrGrafanaInvalidWidth => 19003
  | ErrGrafanaInvalidHeight => 19004 | ErrGrafanaInvalidSortOrder => 19005
  | ChartDB | ChartNoName | ChartLongName | ChartLongURL | ChartInvalidID => 500
  end.
Definition chart_error_text (e : chart_error) : string :=
  match e with
  | ChartDB => db_text
  | ChartNoName => "name cannot be empty"
  | ChartLongName => "name must be at most 100 characters"
  | ChartLongURL => "embed_url must be at most 2048 characters"
  | ChartInvalidID => "invalid id in reorder items"
  | ErrGrafanaDashboardNotFound => "grafana dashboard not found"
  | ErrGrafanaInvalidURL => "grafana embed url must start with http:// or https://"
  | ErrGrafanaInvalidWidth => "grafana width must be one of: third, half, full"
  | ErrGrafanaInvalidHeight => "grafana height_px must be between 120 and 1200"
  | ErrGrafanaInvalidSortOrder => "grafana sort_order must be >= 0"
  end.
Definition chart_failed {A} (e : chart_error) : response A := Fail (chart_error_code e) (chart_error_text e).
Definition chart_answer {A} (r : result chart_error A) : response A := match r with Ok a => Success a | Err e => chart_failed e end.
Definition chart_answer_id {A} (r : result chart_error A) : response A :=
  match r with Ok a => Success a | Err ErrGrafanaDashboardNotFound => NotFound "图表不存在" | Err e => chart_failed e end.
Definition with_chart_id {A} (id : string) (k : Z → M board (response A)) : M board (response A) :=
  match ParseInt id with (n, true) => k n | (_, false) => mret (BadRequest "无效的图表 ID") end.
(** A decoded body; what it leaves out is "" or 0. *)
Record ChartRequest : Type := mkChartRequest {
  gq_Name : string; gq_Description : string; gq_EmbedURL : string; gq_Width : string; gq_HeightPx : Z; gq_SortOrder : Z;
  gq_Enabled : option Z;
}.
Definition chart_of (q : ChartRequest) : GrafanaDashboard :=
  mkChart 0 (gq_Name q) (gq_Description q) (gq_EmbedURL q) (gq_Width q) (gq_HeightPx q) (gq_SortOrder q) (default 1 (gq_Enabled q)) 0 0.
Definition chart_defaults (q : ChartRequest) : ChartRequest :=
  mkChartRequest (gq_Name q) (gq_Description q) (gq_EmbedURL q) (if bool_decide (gq_Width q = "") then "full" else gq_Width q)
    (if gq_HeightPx q =? 0 then 300 else gq_HeightPx q) (gq_SortOrder q) (gq_Enabled q).
Definition bind_create (req : option ChartRequest) : option ChartRequest :=
  q ← req; if bool_decide (gq_Name q = "") || bool_decide (gq_EmbedURL q = "") then None else Some q.
Definition bind_update (req : option ChartRequest) : option ChartRequest :=
  q ← bind_create req; if bool_decide (gq_Width q = "") || (gq_HeightPx q =? 0) then None else Some q.
Definition h_ListEnabled : M board (response (list GrafanaDashboard)) := r ← ListEnabled; mret (chart_answer r).
Definition h_ListAll : M board (response (list GrafanaDashboard)) := r ← ListAll; mret (chart_answer r).
Definition h_GetByID (id : string) : M board (response GrafanaDashboard) :=
  with_chart_id id (λ id, r ← GetByID id; mret (chart_answer_id r)).
Definition h_Create (req : option ChartRequest) : M board (response GrafanaDashboard) :=
  match bind_create req with
  | None => mret (BadRequest "名称和嵌入URL为必填项")
  | Some q => r ← Create (chart_of (chart_defaults q)); mret (chart_answer r)
  end.
Definition h_Update (id : string) (req : option ChartRequest) : M board (response unit) :=
  with_chart_id id (λ id,
    match bind_update req with
    | None => mret (BadRequest "名称、嵌入URL、宽度、高度为必填项")
    | Some q => r ← Update id (chart_of q); mret (chart_answer_id r)
    end).
Definition h_Delete (id : string) : M board (response unit) :=
  with_chart_id id (λ id, r ← Delete id; mret (chart_answer_id r)).
Definition h_Reorder (req : option (list (Z * Z))) : M board (response unit) :=
  match req with
  | None => mret (BadRequest "items 为必填项")
  | Some items => r ← Reorder items; mret (chart_answer r)
  end.

(** ** Routes *)
Inductive chart_request : Type :=
| ChartsEnabled | ChartsAll | ChartGet (id : string) | ChartCreate (req : option ChartRequest)
| ChartUpdate (id : string) (req : option ChartRequest) | ChartDelete (id : string) | ChartReorder (req : option (list (Z * Z))).
Definition chart_guard (q : chart_request) : guard := match q with ChartsEnabled => Nothing | _ => SystemAdmin end.
Definition serve_chart (q : chart_request) : M board unit :=
  match q with
  | ChartsEnabled => _ ← h_ListEnabled; mret tt
  | ChartsAll => _ ← h_ListAll; mret tt
  | ChartGet id => _ ← h_GetByID id; mret tt
  | ChartCreate req => _ ← h_Create req; mret tt
  | ChartUpdate id req => _ ← h_Update id req; mret tt
  | ChartDelete id => _ ← h_Delete id; mret tt
  | ChartReorder req => _ ← h_Reorder req; mret tt
  end.
Definition chart_route `{Jwt, Rsa, Aead} (cfg : JWTConfig) (rsaUtil : RSAUtil) (now : Z) (authHeader query : string)
    (q : chart_request) : M board unit :=
  v ← zoom accounts put_accounts (gate cfg rsaUtil now authHeader query (chart_guard q));
  match v with Next _ => serve_chart q | Abort _ _ => mret tt end.
End charts.

(** ** Stored charts *)
Section stored.
Variable rest_ok : string → bool.
Variable db_text : string.
Notation valid x := (validate rest_ok x = None).

(** Ids are given once and every chart passes the checks. *)
Record charts_ok (t : table GrafanaDashboard) : Prop := {
  co_keyed : keyed g_ID t;
  co_valid : ∀ x, x ∈ rows t → valid x;
}.
Lemma validate_fields d x : g_Name x = g_Name d → EmbedURL x = EmbedURL d → Width x = Width d → HeightPx x = HeightPx d →
  SortOrder x = SortOrder d → validate rest_ok x = validate rest_ok d.
Proof. unfold validate. intros -> -> -> -> ->. done. Qed.
Lemma validate_moved now order x : 0 ≤ order → valid x → valid (move_chart now order x).
Proof.
  intros Ho. unfold validate. simpl. repeat (case_match; [done|]). intros _. repeat case_match; try done. destruct (Z.ltb_spec order 0); [lia|done].
Qed.
Lemma charts_ok_insert now d t : valid d → charts_ok t → charts_ok (insert_row (λ id, stored_chart id now d) t).
Proof.
  intros Hd [Hk Hv]. split; [by apply keyed_insert|]. simpl. intros x [Hx| ->%list_elem_of_singleton]%elem_of_app; [by apply Hv|].
  by rewrite <- Hd.
Qed.
Lemma charts_ok_update p g t : (∀ x, g_ID (g x) = g_ID x) → (∀ x, valid x → valid (g x)) → charts_ok t → charts_ok (update_where p g t).
Proof.
  intros Hi Hg [Hk Hv]. split; [by apply keyed_update|]. simpl. intros x [[Hx _]|(y & Hy & _ & ->)]%elem_of_update_where; auto.
Qed.
Lemma charts_ok_delete p t : charts_ok t → charts_ok (delete_where p t).
Proof. intros [Hk Hv]. split; [by apply keyed_delete|]. simpl. intros x [Hx _]%elem_of_where. by apply Hv. Qed.
Lemma charts_ok_items now items t : check_items items = None → charts_ok t → charts_ok (apply_items now items t).
Proof.
  unfold apply_items. revert t. induction items as [|[id order] items IH]; intros t; simpl; [done|].
  destruct (id <=? 0); [done|]. destruct (Z.ltb_spec order 0); [done|]. intros Hc Ht. apply IH; [done|].
  apply charts_ok_update; [done| |done]. intros x. by apply validate_moved.
Qed.

Lemma preserves_read_charts {A} (I : board → Prop) (f : table GrafanaDashboard → A) : preserves I (read_charts f).
Proof.
  unfold read_charts, or_err, query. preserves_step; [by apply preserves_call|preserves_step].
Qed.
Lemma preserves_change_charts {A} (I : board → Prop) (f : table GrafanaDashboard → A * table GrafanaDashboard) :
  (∀ b, I b → I (set_charts (λ _, (f (charts b)).2) b)) → preserves I (change_charts f).
Proof.
  intros Hf. unfold change_charts, or_err. preserves_step; [|preserves_step]. apply preserves_call. intros b Hb. specialize (Hf b Hb).
  by destruct (f (charts b)).
Qed.
Definition stored_ok (b : board) : Prop := charts_ok (charts b).
Ltac chart_step := first
  [ preserves_step
  | match goal with
    | |- preserves _ (bind_ok _ _) => unfold bind_ok
    | |- preserves _ (met_chart _) => unfold met_chart
    | |- preserves _ (read_charts _) => apply preserves_read_charts
    | |- preserves _ (with_chart_id _ _) => unfold with_chart_id; destruct (ParseInt _) as [? []]
    | |- preserves _ (match ?x with _ => _ end) => destruct x eqn:?
    end ].
Lemma preserves_serve_chart q : preserves stored_ok (serve_chart rest_ok db_text q).
Proof.
  destruct q as [| |i|req|i req|i|req]; simpl; preserves_step; try preserves_step.
  - unfold h_ListEnabled, ListEnabled, list_. repeat chart_step.
  - unfold h_ListAll, ListAll, list_. repeat chart_step.
  - unfold h_GetByID, GetByID. repeat chart_step.
  - unfold h_Create, Create. repeat chart_step. apply preserves_change_charts. intros b Hb. by apply charts_ok_insert.
  - unfold h_Update, Update. repeat chart_step. apply preserves_change_charts. intros b Hb. apply charts_ok_update; [done| |done].
    intros x _. by rewrite <- Heqo0.
  - unfold h_Delete, Delete. repeat chart_step. apply preserves_change_charts. intros b Hb. by apply charts_ok_delete.
  - unfold h_Reorder, Reorder. repeat chart_step. apply preserves_change_charts. intros b Hb. by apply charts_ok_items.
Qed.
Definition writes_chart (q : chart_request) : bool := match q with ChartsEnabled | ChartsAll | ChartGet _ => false | _ => true end.
Lemma preserves_reading_chart (I : board → Prop) q : writes_chart q = false → preserves I (serve_chart rest_ok db_text q).
Proof.
  destruct q; try done; intros _; simpl; preserves_step; try preserves_step.
  - unfold h_ListEnabled, ListEnabled, list_. repeat chart_step.
  - unfold h_ListAll, ListAll, list_. repeat chart_step.
  - unfold h_GetByID, GetByID. repeat chart_step.
Qed.

(** Whatever fails, every stored chart keeps an id of its own and passes
    the checks of the service (a name, an address of the web, a known width,
    a height in range, an order that is not negative), and a request that
    changes the charts comes from a caller the middleware let through who is
    a system administrator at that moment. *)
Theorem charts_stay_valid `{Jwt, Rsa, Aead} cfg rsaUtil now authHeader query q b fs : charts_ok (charts b) →
  let b' := (chart_route rest_ok db_text cfg rsaUtil now authHeader query q b fs).2.1 in
  charts_ok (charts b') ∧
  (charts b' = charts b ∨
   ∃ id, (JWTAuthMiddlewareWithAPIToken cfg rsaUtil now authHeader query (accounts b) fs).1 = Next id ∧ is_admin (rbac (accounts b)) (user_id id)).
Proof.
  intros Hb. simpl. unfold chart_route. rewrite run_bind. unfold zoom.
  pose proof (gate_sound cfg rsaUtil now authHeader query (chart_guard q) (accounts b) fs) as Hg.
  destruct (gate cfg rsaUtil now authHeader query (chart_guard q) (accounts b) fs) as [[[id role]|st e] [d1 fs1]]; [|by split; [|left]].
  destruct (Hg id role eq_refl) as [Hid Hh]. split; [by apply preserves_serve_chart|].
  destruct (writes_chart q) eqn:E; [right; exists id; split; [done|]; by destruct q|left].
  by apply (preserves_reading_chart (λ x, charts x = charts b)).
Qed.
End stored.

(** ** Ordering charts *)
Section ordered.
Lemma list_filter_all {A} (p : A → bool) (l : list A) : (∀ x, p x = true) → filter (λ x, p x = true) l = l.
Proof. intros Hp. induction l as [|x l IH]; [done|]. rewrite filter_cons, decide_True by apply Hp. by rewrite IH. Qed.
Lemma ids_apply now items t : g_ID <$> rows (apply_items now items t) = g_ID <$> rows t.
Proof.
  unfold apply_items. revert t. induction items as [|[id o] items IH]; intros t; [done|]. simpl. rewrite IH. simpl.
  rewrite <- list_fmap_compose. apply list_fmap_ext. intros _ x _. simpl. by destruct (of_chart id x).
Qed.
Lemma apply_others now items t x : x ∈ rows (apply_items now items t) → g_ID x ∉ items.*1 → x ∈ rows t.
Proof.
  unfold apply_items. revert t. induction items as [|[id o] items IH]; intros t; [done|]. simpl. intros Hx [Hne Hr]%not_elem_of_cons.
  apply IH in Hx; [|done]. simpl in Hx. apply elem_of_update_where in Hx as [[Hx _]|(y & _ & Hy%Z.eqb_eq & ->)]; [done|]. simpl in Hne. congruence.
Qed.
Lemma apply_order now items t id o x : NoDup items.*1 → (id, o) ∈ items → x ∈ rows (apply_items now items t) → g_ID x = id → SortOrder x = o.
Proof.
  unfold apply_items. revert t. induction items as [|[i p] items IH]; intros t; [by intros _ ?%elem_of_nil|].
  cbn [fmap list_fmap fst]. intros [Hi Hnd]%NoDup_cons [[= -> ->]|Hin]%elem_of_cons Hx Hid; [|by eapply IH].
  apply (apply_others now items) in Hx; [|by rewrite Hid]. simpl in Hx.
  apply elem_of_update_where in Hx as [[_ Hf]|(y & _ & _ & ->)]; [|done]. unfold of_chart in Hf. rewrite Hid, Z.eqb_refl in Hf. done.
Qed.
Lemma check_items_ok items : Forall (λ p, 0 < p.1 ∧ 0 ≤ p.2) items → check_items items = None.
Proof.
  induction 1 as [|[id o] items [Hid Ho] _ IH]; [done|]. simpl in *. destruct (Z.leb_spec id 0); [lia|]. by destruct (Z.ltb_spec o 0); [lia|].
Qed.
#[local] Instance chart_le_dec x y : Decision (chart_le x y = true) := decide _.
#[local] Instance chart_le_total : Total (λ x y, chart_le x y = true).
Proof. intros x y. unfold chart_le. rewrite !orb_true_iff, !andb_true_iff, !Z.ltb_lt, !Z.eqb_eq, !Z.leb_le. lia. Qed.
#[local] Instance chart_le_trans : Transitive (λ x y, chart_le x y = true).
Proof.
  intros x y z. unfold chart_le. rewrite !orb_true_iff, !andb_true_iff, !Z.ltb_lt, !Z.eqb_eq, !Z.leb_le. lia.
Qed.
Definition place (x : GrafanaDashboard) : Z * Z := (g_ID x, SortOrder x).
Lemma listed_sorted l : StronglySorted (λ p q : Z * Z, p.2 ≤ q.2) (place <$> order_by chart_le l).
Proof.
  assert (StronglySorted (λ x y, chart_le x y = true) (order_by chart_le l)) as Hs.
  { unfold order_by. eapply StronglySorted_merge_sort; apply _. }
  induction Hs as [|x l' Hs IH Hx]; [constructor|]. cbn [fmap list_fmap]. constructor; [done|]. apply Forall_fmap.
  eapply Forall_impl; [exact Hx|]. intros y. unfold chart_le. simpl. rewrite orb_true_iff, andb_true_iff, Z.ltb_lt, Z.eqb_eq. lia.
Qed.
Lemma strict_orders (items : list (Z * Z)) p q : StronglySorted Z.lt items.*2 → p ∈ items → q ∈ items → p.2 = q.2 → p = q.
Proof.
  induction items as [|r items IH]; intros Hs; [by intros ?%elem_of_nil|]. cbn in Hs. apply StronglySorted_inv in Hs as [Hs Hr].
  rewrite Forall_fmap, Forall_forall in Hr. intros [-> |Hp]%elem_of_cons [-> |Hq]%elem_of_cons E; [done| | |by apply IH].
  - specialize (Hr q Hq). simpl in Hr. lia.
  - specialize (Hr p Hp). simpl in Hr. lia.
Qed.
Lemma placed now items t : NoDup items.*1 → items.*1 ≡ₚ g_ID <$> rows t → place <$> rows (apply_items now items t) ≡ₚ items.
Proof.
  intros Hnd Hids. assert (g_ID <$> rows (apply_items now items t) ≡ₚ items.*1) as Hi by by rewrite ids_apply.
  apply NoDup_Permutation.
  - apply (NoDup_fmap_1 fst). rewrite <- list_fmap_compose. rewrite <- Hi in Hnd. exact Hnd.
  - by apply (NoDup_fmap_1 fst).
  - intros [id o]. rewrite list_elem_of_fmap. split.
    + intros (x & [= -> ->] & Hx). assert (g_ID x ∈ items.*1) as ([i p] & Hg & Hp)%list_elem_of_fmap by (rewrite <- Hi; by apply list_elem_of_fmap_2).
      simpl in Hg. subst i. by rewrite (apply_order now items t (g_ID x) p x).
    + intros Hin. assert (id ∈ g_ID <$> rows (apply_items now items t)) as (x & -> & Hx)%list_elem_of_fmap
        by (rewrite Hi; apply list_elem_of_fmap; by exists (id, o)).
      exists x. split; [|done]. unfold place. by rewrite (apply_order now items t (g_ID x) o x).
Qed.

(** C38: when no call fails, giving all charts increasing positions makes the
    list show them in exactly that order. *)
Theorem reordered_charts_are_listed_so items b : items ≠ [] → NoDup items.*1 → items.*1 ≡ₚ g_ID <$> rows (charts b) →
  Forall (λ p, 0 < p.1 ∧ 0 ≤ p.2) items → StronglySorted Z.lt items.*2 →
  let '(r, (b', _)) := Reorder items b [] in
  r = Ok tt ∧ ∃ l, (ListAll b' []).1 = Ok l ∧ g_ID <$> l = items.*1.
Proof.
  intros Hne Hnd Hids Hpos Hs. unfold Reorder. destruct items as [|i items]; [done|]. rewrite check_items_ok by done.
  split; [done|]. eexists. split; [done|]. simpl. set (l := order_by _ _).
  enough (place <$> l = i :: items) as He.
  { change (g_ID <$> l) with ((λ x, (place x).1) <$> l). rewrite (list_fmap_compose place fst). by rewrite He. }
  assert (place <$> l ≡ₚ i :: items) as Hp.
  { unfold l, order_by. rewrite merge_sort_Permutation. unfold where_. rewrite list_filter_all by done. exact (placed (board_now b) (i :: items) (charts b) Hnd Hids). }
  apply (StronglySorted_unique_strong (λ p q : Z * Z, p.2 ≤ q.2)); [|by apply listed_sorted| |done].
  - intros p q Hpin Hq H1 H2. rewrite Hp in Hpin. apply (strict_orders (i :: items)); [done..|lia].
  - clear -Hs. induction (i :: items) as [|p l IH]; [constructor|]. cbn in Hs. apply StronglySorted_inv in Hs as [Hs Hf].
    constructor; [by apply IH|]. rewrite Forall_fmap in Hf. eapply Forall_impl; [exact Hf|]. simpl. lia.
Qed.
End ordered.

(** ** Witnesses and findings *)
Definition demo_chart (id : Z) (name url : string) (order : Z) : GrafanaDashboard := mkChart id name "" url "full" 300 order 1 0 0.
Definition demo_board (d : udb) : board :=
  mkBoard (mkTable [demo_chart 1 "cpu" "https://grafana/a" 0; demo_chart 2 "disk" "http://grafana/b" 1; demo_chart 3 "net" "http://grafana/c" 1] 3) d 7.
Definition any_rest (s : string) : bool := true.
Definition root_asks (rest : string → bool) (q : chart_request) : board :=
  let root := token_text (Login demo_cfg demo_rsa 0 (demo_login "root" "root01") UserGuards.office []).1 in
  (chart_route rest "" demo_cfg demo_rsa hour ("Bearer " +:+ root) "" q (demo_board UserGuards.office) []).2.1.
Lemma demo_charts_ok : charts_ok any_rest (charts (demo_board UserGuards.office)).
Proof.
  split; [split; [by apply (bool_decide_unpack _)|each_row]|].
  apply Forall_forall. repeat (apply Forall_cons; split; [by vm_compute|]). by apply Forall_nil.
Qed.
Example charts_stay_valid_witness :
  let q := ChartCreate (Some (mkChartRequest "mem" "" "https://grafana/d" "" 0 2 None)) in
  charts_ok any_rest (charts (root_asks any_rest q)) ∧ length (rows (charts (root_asks any_rest q))) = 4%nat.
Proof.
  split; [|by vm_compute].
  exact (proj1 (charts_stay_valid any_rest "" demo_cfg demo_rsa hour
    ("Bearer " +:+ token_text (Login demo_cfg demo_rsa 0 (demo_login "root" "root01") UserGuards.office []).1) ""
    (ChartCreate (Some (mkChartRequest "mem" "" "https://grafana/d" "" 0 2 None))) (demo_board UserGuards.office) [] demo_charts_ok)).
Defined.
Example reordered_charts_are_listed_so_witness :
  let '(r, (b', _)) := Reorder [(3, 0); (1, 4); (2, 9)] (demo_board UserGuards.office) [] in
  r = Ok tt ∧ ∃ l, (ListAll b' []).1 = Ok l ∧ g_ID <$> l = [3; 1; 2].
Proof.
  apply (reordered_charts_are_listed_so [(3, 0); (1, 4); (2, 9)] (demo_board UserGuards.office)).
  - discriminate.
  - by apply (bool_decide_unpack _).
  - by apply (bool_decide_unpack _).
  - by repeat constructor.
  - by repeat constructor.
Defined.

(** An address without [//] passes the check that asks for [http://]. *)
Example address_without_host_passes :
  validate any_rest (demo_chart 0 "x" "http:grafana" 0) = None ∧ validate any_rest (demo_chart 0 "x" "HTTPS:" 0) = None.
Proof. split; by vm_compute. Qed.
(** The limit of a hundred characters counts bytes. *)
Example short_name_refused :
  let name := concat_runes (replicate 34 "图") in
  length (runes name) = 34%nat ∧ validate any_rest (demo_chart 0 name "https://grafana" 0) = Some ChartLongName.
Proof. split; by vm_compute. Qed.
(** Any number is taken for [enabled]; only 1 is shown. *)
Example enabled_of_two_is_hidden :
  let b := root_asks any_rest (ChartUpdate "1" (Some (mkChartRequest "cpu" "" "https://grafana/a" "full" 300 0 (Some 2)))) in
  match (ListEnabled b []).1 with Ok l => g_ID <$> l = [2; 3] | Err _ => False end.
Proof. by vm_compute. Qed.
(** Positions for charts that do not exist are stored without complaint. *)
Example unknown_chart_reordered : (Reorder [(99, 1)] (demo_board UserGuards.office) []).1 = Ok tt.
Proof. by vm_compute. Qed.
(** A chart taken and stored by a request whose reply was lost is stored again
    by the next attempt: names are not unique. *)
Example chart_stored_twice :
  let d := demo_chart 0 "mem" "https://grafana/d" 0 in
  let b := (Create any_rest d (demo_board UserGuards.office) [Ghost]).2.1 in
  g_Name <$> rows (charts (Create any_rest d b []).2.1) = ["cpu"; "disk"; "net"; "mem"; "mem"].
Proof. by vm_compute. Qed.
