(* ===== verification/Dashboard.v ===== *)
(** * The dashboard

    [src/scheduler/internal/service/dashboard_service.go] and
    [src/scheduler/internal/handler/dashboard.go], over the tables of [World]
    and the scheduler of [Cron].  Go's and SQLite's floating point is the
    parameter [floats]; the day of a time, as SQLite's [date] writes it, is the
    parameter [day_of].  [has_cron] says whether a cron scheduler is set. *)
From Stdlib Require Import Ascii.
From stdpp Require Import sorting.
From S2P Require Import Prelude Redis Sql World Cron TaskHandler.
From S2P Require Permission Executor Execution.

Record floats (F : Type) : Type := mkFloats {
  zero : F;
  mean_seconds : list Z → F;    (** [AVG(...) * 86400] of durations, at least one *)
  whole_seconds : Z → Z;        (** [int64(d.Seconds())] *)
  whole_hours : Z → Z;          (** [int(d.Hours())] *)
  whole_minutes : Z → Z;        (** [int(d.Minutes())] *)
  formatLatency : Z → string;
}.
Arguments zero {F}.
Arguments mean_seconds {F}.
Arguments whole_seconds {F}.
Arguments whole_hours {F}.
Arguments whole_minutes {F}.
Arguments formatLatency {F}.

Record DashboardStats (F : Type) : Type := mkStats {
  ta_Total : Z; ta_Enabled : Z; ta_Cron : Z; ta_Running : Z; ta_Success : Z; ta_Failed : Z; AvgDuration : F;
  ex_Total : Z; ex_Active : Z; sc_Paused : bool; Uptime : Z;
}.
Arguments mkStats {F}.
Arguments ta_Total {F}.
Arguments ta_Enabled {F}.
Arguments ta_Cron {F}.
Arguments ta_Running {F}.
Arguments ta_Success {F}.
Arguments ta_Failed {F}.
Arguments AvgDuration {F}.
Arguments ex_Total {F}.
Arguments ex_Active {F}.
Record TrendData : Type := mkTrend { tr_Date : string; tr_Total : Z; tr_Success : Z; tr_Failed : Z }.

(** ** What the queries count *)
Definition sees_all (role : string) : bool := bool_decide (role = "system_admin") || bool_decide (role = "admin").
Definition own_tasks (all : bool) (domainID : Z) (t : tables) : list Task :=
  if all then rows (tasks t) else where_ (λ k, t_DomainID k =? domainID) (rows (tasks t)).
(** [task_executions te JOIN tasks t ON te.task_id = t.id WHERE t.domain_id = ?] *)
Definition own_executions (all : bool) (domainID : Z) (t : tables) : list TaskExecution :=
  if all then rows (executions t)
  else x ← rows (executions t); (λ _, x) <$> where_ (λ k, (x_TaskID x =? t_ID k) && (t_DomainID k =? domainID)) (rows (tasks t)).
(** [executors e JOIN domain_executors de ON e.id = de.executor_id WHERE de.domain_id = ?] *)
Definition own_executors (domainID : Z) (t : tables) : list Executor :=
  e ← rows (executors t);
  (λ _, e) <$> where_ (λ de, (e_ID e =? de_executor de) && (de_domain de =? domainID)) (rows (domain_executors t)).
Definition has_cron_expression (k : Task) : bool := negb (bool_decide (CronExpression k = "")).
Definition with_status (l : list string) (x : TaskExecution) : bool := in_list (x_Status x) l.
Definition failed_statuses : list string := ["failed"; "timeout"].
Definition since (cutoff : Z) (x : TaskExecution) : bool := cutoff <? x_CreatedAt x.
Definition sevenDaysAgo (now : Z) : Z := now - 7 * 24 * 3600 * Second.
Definition duration (x : TaskExecution) : option Z := e ← EndTime x; s ← StartTime x; Some (e - s).
Definition online (e : Executor) : bool := bool_decide (e_Status e = "online").

Section dashboard.
Context {F : Type} (fl : floats F) (day_of : Z → string).
Context `{Redis R} `{CronLib C}.
Variable has_cron : bool.
Variable started_at : Z.

Abbreviation S := (CronScheduler C * world R)%type.

Definition AVG (l : list TaskExecution) : F := match omap duration l with [] => zero fl | ds => mean_seconds fl ds end.
Definition task_counts (all : bool) (domainID : Z) (t : tables) : Z * Z * Z :=
  let l := own_tasks all domainID t in (Z.of_nat (length l), count t_IsEnabled l, count has_cron_expression l).
Definition running_count (all : bool) (domainID : Z) (t : tables) : Z := count (with_status ["running"]) (own_executions all domainID t).
Definition recent_counts (all : bool) (domainID cutoff : Z) (t : tables) : Z * Z * F :=
  let l := where_ (since cutoff) (own_executions all domainID t) in
  (count (with_status ["success"]) l, count (with_status failed_statuses) l, AVG l).
Definition executor_counts (all : bool) (domainID : Z) (t : tables) : Z * Z :=
  if all then (Z.of_nat (length (rows (executors t))), count online (rows (executors t)))
  else let l := own_executors domainID t in (Z.of_nat (length (remove_dups (e_ID <$> l))), count online l).

(** An error of a query but the first leaves zeros. *)
Definition GetDashboardStats (domainID : Z) (role : string) : M S (result error (DashboardStats F)) :=
  let all := sees_all role in
  r ← svc (select (task_counts all domainID));
  match r with
  | Err e => mret (Err e)
  | Ok (total, enabled, crons) =>
      running ← svc (select_opt (running_count all domainID));
      now ← gets (λ s, clock s.2);
      recent ← svc (select_opt (recent_counts all domainID (sevenDaysAgo now)));
      es ← svc (select_opt (executor_counts all domainID));
      let '(success, failed, avg) := default (0, 0, zero fl) recent in
      let '(executors, active) := default (0, 0) es in
      if has_cron then
        p ← IsPaused;
        mret (Ok (mkStats total enabled crons (default 0 running) success failed avg executors active p (whole_seconds fl (now - started_at))))
      else mret (Ok (mkStats total enabled crons (default 0 running) success failed avg executors active false 0))
  end.

(** [GROUP BY date(created_at) ORDER BY exec_date DESC] *)
Definition on_day (d : string) (x : TaskExecution) : bool := bool_decide (day_of (x_CreatedAt x) = d).
Definition trend (l : list TaskExecution) (d : string) : TrendData :=
  let l := where_ (on_day d) l in
  mkTrend d (Z.of_nat (length l)) (count (with_status ["success"]) l) (count (with_status failed_statuses) l).
Definition days (l : list TaskExecution) : list string :=
  order_by (λ a b, String.leb b a) (remove_dups ((λ x, day_of (x_CreatedAt x)) <$> l)).
Definition trend_rows (all : bool) (domainID cutoff : Z) (t : tables) : list TrendData :=
  let l := where_ (since cutoff) (own_executions all domainID t) in trend l <$> days l.
Definition GetTrendData (domainID : Z) (role : string) : M S (result error (list TrendData)) :=
  now ← gets (λ s, clock s.2);
  svc (select (trend_rows (sees_all role) domainID (sevenDaysAgo now))).

Definition PauseScheduler : M S unit := if has_cron then Pause else mret tt.
Definition ResumeScheduler : M S unit := if has_cron then Resume else mret tt.
Definition IsSchedulerPaused : M S bool := if has_cron then IsPaused else mret false.

(** ** Health *)
Record ComponentCheck : Type := mkCheck { ck_Status : string; ck_Message : string; Latency : string }.
(** What the check meets: the answer to [SELECT 1], the names of the tables,
    the answer to [PING] with the time each takes; the resolver of the leader
    with the node's own name, and its answer. *)
Record surroundings : Type := mkSurroundings {
  select_one : result string unit;
  table_names : option (list string);
  table_error : string;
  ping : result string unit;
  select_took : Z; tables_took : Z; ping_took : Z;
  resolver : option (string * result string (string * string));
}.
Definition requiredTables : list string :=
  ["bdopsflow_domains"; "bdopsflow_users"; "bdopsflow_tasks"; "bdopsflow_task_executions"; "bdopsflow_executors"; "bdopsflow_task_logs";
   "bdopsflow_roles"; "bdopsflow_permissions"; "bdopsflow_role_permissions"; "bdopsflow_user_roles"; "bdopsflow_domain_executors"].
Definition healthy (message latency : string) : ComponentCheck := mkCheck "healthy" message latency.
Definition unhealthy (message latency : string) : ComponentCheck := mkCheck "unhealthy" message latency.
(** [fmt.Sprintf("%v", l)] *)
Definition fmt_list (l : list string) : string := "[" +:+ String.concat " " l +:+ "]".
Definition missing_tables (names : list string) : list string := where_ (λ t, negb (in_list t names)) requiredTables.
Definition checkRQLite (o : surroundings) : ComponentCheck :=
  match select_one o with
  | Err e => unhealthy ("连接失败: " +:+ e) (formatLatency fl (select_took o))
  | Ok _ =>
      match table_names o with
      | None => unhealthy ("查询表结构失败: " +:+ table_error o) (formatLatency fl (tables_took o))
      | Some names =>
          match missing_tables names with
          | [] => healthy "连接正常" (formatLatency fl (select_took o))
          | l => unhealthy ("缺少表: " +:+ fmt_list l) (formatLatency fl (tables_took o))
          end
      end
  end.
Definition checkRedis (o : surroundings) : ComponentCheck :=
  match ping o with
  | Err e => unhealthy ("连接失败: " +:+ e) (formatLatency fl (ping_took o))
  | Ok _ => healthy "连接正常" (formatLatency fl (ping_took o))
  end.
Definition formatUptime (d : Z) : string :=
  let days := Z.quot (whole_hours fl d) 24 in
  let hours := Z.rem (whole_hours fl d) 24 in
  let minutes := Z.rem (whole_minutes fl d) 60 in
  if 0 <? days then fmt_d days +:+ "d" +:+ fmt_d hours +:+ "h" +:+ fmt_d minutes +:+ "m"
  else if 0 <? hours then fmt_d hours +:+ "h" +:+ fmt_d minutes +:+ "m"
  else fmt_d minutes +:+ "m".
Definition checkScheduler : M S ComponentCheck :=
  if has_cron then
    p ← IsPaused;
    now ← gets (λ s, clock s.2);
    let up := formatUptime (now - started_at) in
    mret (if p : bool then unhealthy ("已暂停 (运行时长: " +:+ up +:+ ")") "" else healthy ("运行中 (已运行 " +:+ up +:+ ")") "")
  else mret (unhealthy "调度器未初始化" "").
Definition checkLeader (o : surroundings) : ComponentCheck :=
  match resolver o with
  | None => unhealthy "Leader 选举未配置" ""
  | Some (_, Err e) => unhealthy ("获取 Leader 节点失败: " +:+ e) ""
  | Some (me, Ok (leader, addr)) =>
      if bool_decide (leader = "") then unhealthy "当前无 Leader 节点" ""
      else
        healthy ("节点 " +:+ leader +:+ (if bool_decide (addr = "") then "" else " (" +:+ addr +:+ ")") +:+
                 (if bool_decide (me = leader) then " - 当前节点" else "")) ""
  end.
Record HealthCheckResult : Type := mkHealth { hc_Status : string; Timestamp : Z; Components : list (string * ComponentCheck) }.
Definition is_healthy (c : string * ComponentCheck) : bool := bool_decide (ck_Status c.2 = "healthy").
Definition HealthCheck (o : surroundings) : M S HealthCheckResult :=
  now ← gets (λ s, clock s.2);
  scheduler ← checkScheduler;
  let l := [("rqlite", checkRQLite o); ("redis", checkRedis o); ("scheduler", scheduler); ("leader", checkLeader o)] in
  mret (mkHealth (if forallb is_healthy l then "healthy" else "unhealthy") now l).

(** ** [handler/dashboard.go] *)
Variable cfg : env.
Definition h_GetStats (domainID : Z) (role : string) : M S (response (DashboardStats F)) :=
  r ← GetDashboardStats domainID role; mret match r with Ok x => Success x | Err e => InternalServerError (error_text cfg e) end.
Definition h_GetTrends (domainID : Z) (role : string) : M S (response (list TrendData)) :=
  r ← GetTrendData domainID role; mret match r with Ok x => Success x | Err e => InternalServerError (error_text cfg e) end.
Definition h_PauseScheduler : M S (response unit) := _ ← PauseScheduler; mret (Success tt).
Definition h_ResumeScheduler : M S (response unit) := _ ← ResumeScheduler; mret (Success tt).
Definition h_GetSchedulerStatus : M S (response bool) := p ← IsSchedulerPaused; mret (Success p).
Definition h_HealthCheck (o : surroundings) : M S (response HealthCheckResult) := r ← HealthCheck o; mret (Success r).
End dashboard.

(** ** Domains are kept apart

    Two states are [alike] for a domain when the tasks of the domain, the
    executions of these tasks and the executors given to the domain are the
    same, and so are the time and whether the scheduler is paused: the flag of
    the node with the time of its last look at Redis, and the flag in Redis.
    The rest of Redis, of the scheduler (what it has registered) and of the
    tables may differ. *)
Record same_domain (domainID : Z) (t1 t2 : tables) : Prop := {
  sd_tasks : own_tasks false domainID t1 = own_tasks false domainID t2;
  sd_executions :
    where_ (λ x, existsb (λ k, x_TaskID x =? t_ID k) (own_tasks false domainID t1)) (rows (executions t1)) =
    where_ (λ x, existsb (λ k, x_TaskID x =? t_ID k) (own_tasks false domainID t2)) (rows (executions t2));
  sd_given : where_ (λ de, de_domain de =? domainID) (rows (domain_executors t1)) = where_ (λ de, de_domain de =? domainID) (rows (domain_executors t2));
  sd_executors :
    where_ (λ e, existsb (λ de, e_ID e =? de_executor de) (where_ (λ de, de_domain de =? domainID) (rows (domain_executors t1)))) (rows (executors t1)) =
    where_ (λ e, existsb (λ de, e_ID e =? de_executor de) (where_ (λ de, de_domain de =? domainID) (rows (domain_executors t2)))) (rows (executors t2));
}.

Lemma where_and {A} (p q : A → bool) l : where_ (λ x, p x && q x) l = where_ p (where_ q l).
Proof.
  unfold where_. induction l as [|x l IH]; [done|]. rewrite !filter_cons, IH. destruct (p x) eqn:Ep, (q x) eqn:Eq; simpl; try done;
    rewrite filter_cons, Ep; done.
Qed.
(** A join whose second table is restricted first. *)
Lemma join_restrict {A B} (f : A → B → bool) (l : list A) (T : list B) :
  (x ← l; (λ _, x) <$> where_ (f x) T) = (x ← where_ (λ x, existsb (f x) T) l; (λ _, x) <$> where_ (f x) T).
Proof.
  unfold where_. induction l as [|x l IH]; [done|]. rewrite filter_cons, bind_cons, IH. destruct (existsb (f x) T) eqn:E; simpl; [done|].
  fold (where_ (f x) T). rewrite (where_none (f x) T); [done|]. by apply existsb_false_iff.
Qed.
Lemma own_executions_join domainID t :
  own_executions false domainID t = x ← rows (executions t); (λ _, x) <$> where_ (λ k, x_TaskID x =? t_ID k) (own_tasks false domainID t).
Proof. unfold own_executions, own_tasks. induction (rows (executions t)) as [|x l IH]; [done|]. rewrite !bind_cons, IH. by rewrite where_and. Qed.
Lemma own_executors_join domainID t :
  own_executors domainID t = e ← rows (executors t); (λ _, e) <$> where_ (λ de, e_ID e =? de_executor de) (where_ (λ de, de_domain de =? domainID) (rows (domain_executors t))).
Proof. unfold own_executors. induction (rows (executors t)) as [|e l IH]; [done|]. rewrite !bind_cons, IH. by rewrite where_and. Qed.
Lemma own_executions_alike domainID t1 t2 : same_domain domainID t1 t2 → own_executions false domainID t1 = own_executions false domainID t2.
Proof. intros [Ht Hx _ _]. rewrite !own_executions_join, join_restrict, (join_restrict _ (rows (executions t2))), Hx. by rewrite Ht. Qed.
Lemma own_executors_alike domainID t1 t2 : same_domain domainID t1 t2 → own_executors domainID t1 = own_executors domainID t2.
Proof. intros [_ _ Hd He]. rewrite !own_executors_join, join_restrict, (join_restrict _ (rows (executors t2))), He. by rewrite Hd. Qed.

Section apart.
Context {F : Type} (fl : floats F) (day_of : Z → string).
Context `{Redis R} `{CronLib C}.
Variables (has_cron : bool) (started_at domainID : Z).
Abbreviation S := (CronScheduler C * world R)%type.

Definition paused_flag (t : Z) (r : R) : option rval := GET t "scheduler:paused" r.
Record alike (s1 s2 : S) : Prop := {
  al_paused : paused s1.1 = paused s2.1;
  al_sync : lastRedisSync s1.1 = lastRedisSync s2.1;
  al_flag t : paused_flag t (redis s1.2) = paused_flag t (redis s2.2);
  al_clock : clock s1.2 = clock s2.2;
  al_domain : same_domain domainID (tabs s1.2) (tabs s2.2);
}.
(** From states that are alike, with the same failures: the same answer, and
    states that are alike. *)
Definition agree {A} (m : M S A) : Prop := ∀ s1 s2 fs, alike s1 s2 →
  (m s1 fs).1 = (m s2 fs).1 ∧ alike (m s1 fs).2.1 (m s2 fs).2.1 ∧ (m s1 fs).2.2 = (m s2 fs).2.2.

Lemma agree_ret {A} (a : A) : agree (mret a).
Proof. done. Qed.
Lemma agree_bind {A B} (m : M S A) (k : A → M S B) : agree m → (∀ a, agree (k a)) → agree (m ≫= k).
Proof.
  intros Hm Hk s1 s2 fs Hs. rewrite !run_bind. destruct (Hm s1 s2 fs Hs) as (Ha & Hs' & Hf).
  destruct (m s1 fs) as [a1 [s1' fs1]], (m s2 fs) as [a2 [s2' fs2]]. simpl in *. subst a2 fs2. by apply Hk.
Qed.
Lemma agree_gets {A} (f : S → A) : (∀ s1 s2, alike s1 s2 → f s1 = f s2) → agree (gets f).
Proof. intros Hf s1 s2 fs Hs. by split_and!; [apply Hf| |]. Qed.
Lemma agree_set_paused b now : agree (local (set_paused b now)).
Proof. intros s1 s2 fs []. by split_and!; [|constructor|]. Qed.
Lemma agree_read {A} (f : tables → A) : (∀ t1 t2, same_domain domainID t1 t2 → f t1 = f t2) → agree (svc (select_opt f)).
Proof.
  intros Hf s1 s2 fs Hs. pose proof (Hf _ _ (al_domain _ _ Hs)) as Hft. destruct s1 as [c1 w1], s2 as [c2 w2]. simpl in Hft.
  unfold svc, zoom, select_opt, query, call. by destruct fs as [|[] fs]; simpl; rewrite ?Hft.
Qed.
Lemma agree_select {A} (f : tables → A) : (∀ t1 t2, same_domain domainID t1 t2 → f t1 = f t2) → agree (svc (select f)).
Proof.
  intros Hf s1 s2 fs Hs. pose proof (Hf _ _ (al_domain _ _ Hs)) as Hft. destruct s1 as [c1 w1], s2 as [c2 w2]. simpl in Hft.
  unfold svc, zoom, select, or_err, query. rewrite !run_bind. unfold call. by destruct fs as [|[] fs]; simpl; rewrite ?Hft.
Qed.
Lemma agree_get now : agree (get_paused now).
Proof.
  apply agree_bind; [|intros o; apply agree_ret]. intros [c1 w1] [c2 w2] fs [Hp Hl Hf Hk Hd].
  assert (alike (c1, w1) (c2, w2)) as Ha by done. specialize (Hf now). unfold paused_flag in Hf. simpl in Hf.
  unfold svc, zoom, redis_call, call. simpl. rewrite Hf. destruct w1, w2. by destruct fs as [|[] fs]; simpl; split_and!.
Qed.
Lemma agree_now : agree (gets (λ s : S, clock s.2)).
Proof. apply agree_gets. by intros s1 s2 []. Qed.
Lemma agree_IsPaused : agree IsPaused.
Proof.
  unfold IsPaused, time_now. apply agree_bind; [apply agree_now|intros now]. apply agree_bind; [apply agree_gets; by intros s1 s2 []|intros last].
  apply agree_bind; [|intros []; apply agree_gets; by intros s1 s2 []]. case_match; [|apply agree_ret].
  unfold syncPausedFromRedis, time_now. apply agree_bind; [apply agree_now|intros t]. apply agree_bind; [apply agree_get|].
  intros [b|]; [apply agree_set_paused|apply agree_ret].
Qed.
Lemma agree_stats role : sees_all role = false → agree (GetDashboardStats fl has_cron started_at domainID role).
Proof.
  intros Hr. unfold GetDashboardStats. rewrite Hr. apply agree_bind; [apply agree_select; unfold task_counts; by intros t1 t2 [-> _ _ _]|].
  intros [[[total enabled] crons]|e]; [|apply agree_ret].
  apply agree_bind; [apply agree_read; unfold running_count; by intros t1 t2 ->%own_executions_alike|intros running].
  apply agree_bind; [apply agree_now|intros now].
  apply agree_bind; [apply agree_read; unfold recent_counts; by intros t1 t2 ->%own_executions_alike|intros recent].
  apply agree_bind; [apply agree_read; unfold executor_counts; by intros t1 t2 ->%own_executors_alike|intros es].
  destruct (default (0, 0, zero fl) recent) as [[success failed] avg], (default (0, 0) es) as [n active].
  case_match; [|apply agree_ret]. apply agree_bind; [apply agree_IsPaused|intros p; apply agree_ret].
Qed.
Lemma agree_trends role : sees_all role = false → agree (GetTrendData day_of domainID role).
Proof.
  intros Hr. unfold GetTrendData. rewrite Hr. apply agree_bind; [apply agree_now|intros now].
  apply agree_select. unfold trend_rows. by intros t1 t2 ->%own_executions_alike.
Qed.

(** C39: what the dashboard tells a user who is no administrator depends only
    on the tasks of the user's domain, the executions of these tasks, the
    executors given to the domain, the time and whether the scheduler is
    paused: between states that differ in anything else, in the tables, in
    Redis or in what the scheduler has registered, and with the same failures,
    the statistics and the trends are the same. *)
Theorem dashboard_keeps_domains_apart cfg role s1 s2 fs : sees_all role = false → alike s1 s2 →
  (h_GetStats fl has_cron started_at cfg domainID role s1 fs).1 = (h_GetStats fl has_cron started_at cfg domainID role s2 fs).1 ∧
  (h_GetTrends day_of cfg domainID role s1 fs).1 = (h_GetTrends day_of cfg domainID role s2 fs).1.
Proof.
  intros Hr Hs. split.
  - assert (agree (h_GetStats fl has_cron started_at cfg domainID role)) as Ha by (apply agree_bind; [by apply agree_stats|intros r; apply agree_ret]).
    by destruct (Ha s1 s2 fs Hs).
  - assert (agree (h_GetTrends day_of cfg domainID role)) as Ha by (apply agree_bind; [by apply agree_trends|intros r; apply agree_ret]).
    by destruct (Ha s1 s2 fs Hs).
Qed.
End apart.

(** ** Trends add up *)
Section trends.
Context (day_of : Z → string).

Definition sum {A} (f : A → Z) (l : list A) : Z := foldr (λ x n, f x + n) 0 l.

Lemma count_cons {A} (p : A → bool) x l : count p (x :: l) = (if p x then 1 else 0) + count p l.
Proof. unfold count, where_. rewrite filter_cons. destruct (p x); simpl; lia. Qed.
Lemma count_where {A} (p q : A → bool) l : count p (where_ q l) = count (λ x, q x && p x) l.
Proof.
  induction l as [|x l IH]; [done|]. rewrite count_cons, <- IH. unfold where_ at 1. rewrite filter_cons. destruct (q x); simpl; [|done].
  by rewrite count_cons.
Qed.
Lemma count_le {A} (p q : A → bool) l : (∀ x, p x = true → q x = true) → count p l ≤ count q l.
Proof.
  intros Hpq. induction l as [|x l IH]; [done|]. rewrite !count_cons. specialize (Hpq x). destruct (p x), (q x); first [lia|by discriminate Hpq].
Qed.
Lemma count_disjoint {A} (p q : A → bool) l : (∀ x, p x = true → q x = false) → count p l + count q l ≤ Z.of_nat (length l).
Proof.
  intros Hpq. induction l as [|x l IH]; [done|]. rewrite !count_cons. specialize (Hpq x). cbn [length].
  destruct (p x), (q x); first [lia|by discriminate Hpq].
Qed.
Lemma count_all {A} (l : list A) : count (λ _, true) l = Z.of_nat (length l).
Proof. unfold count, where_. induction l as [|x l IH]; [done|]. rewrite filter_cons. simpl. lia. Qed.
(** Each element is of exactly one class. *)
Lemma sum_one (d : string) ds : NoDup ds → d ∈ ds → sum (λ e, if bool_decide (d = e) then 1 else 0) ds = 1.
Proof.
  induction ds as [|e ds IH]; [by intros _ ?%elem_of_nil|]. intros [He Hnd]%NoDup_cons Hin. simpl. case_bool_decide as E.
  - subst e. assert (sum (λ e, if bool_decide (d = e) then 1 else 0) ds = 0) as ->; [|done].
    clear -He. induction ds as [|e ds IH]; [done|]. apply not_elem_of_cons in He as [Hne He]. simpl. rewrite IH by done.
    by rewrite bool_decide_false.
  - rewrite IH; [done..|]. by apply elem_of_cons in Hin as [?|?].
Qed.
Lemma sum_plus {A} (f g : A → Z) ds : sum (λ d, f d + g d) ds = sum f ds + sum g ds.
Proof. induction ds as [|d ds IH]; simpl; lia. Qed.
Lemma sum_ext {A} (f g : A → Z) ds : (∀ d, f d = g d) → sum f ds = sum g ds.
Proof. intros Hfg. induction ds as [|d ds IH]; simpl; [done|]. by rewrite Hfg, IH. Qed.
Lemma sum_days (p : TaskExecution → bool) (l : list TaskExecution) ds : NoDup ds → (∀ x, x ∈ l → day_of (x_CreatedAt x) ∈ ds) →
  sum (λ d, count p (where_ (on_day day_of d) l)) ds = count p l.
Proof.
  intros Hnd. induction l as [|x l IH]; intros Hin.
  - assert (sum (λ d, count p (where_ (on_day day_of d) [])) ds = sum (λ _, 0) ds) as -> by done. by clear; induction ds.
  - rewrite count_cons, <- IH by (intros y Hy; apply Hin; by right).
    rewrite (sum_ext _ (λ d, (if p x then if bool_decide (day_of (x_CreatedAt x) = d) then 1 else 0 else 0) + count p (where_ (on_day day_of d) l))).
    + rewrite sum_plus. f_equal. destruct (p x); [apply sum_one; [done|]; apply Hin; by left|]. by clear; induction ds.
    + intros d. rewrite !count_where, count_cons. unfold on_day at 1. by destruct (bool_decide _), (p x).
Qed.
Lemma days_spec (l : list TaskExecution) : NoDup (days day_of l) ∧ ∀ x, x ∈ l → day_of (x_CreatedAt x) ∈ days day_of l.
Proof.
  unfold days. split.
  - unfold order_by. rewrite merge_sort_Permutation. apply NoDup_remove_dups.
  - intros x Hx. rewrite elem_of_order_by, elem_of_remove_dups. apply list_elem_of_fmap. by exists x.
Qed.
Lemma sum_trends (f : TrendData → Z) (p : TaskExecution → bool) (l : list TaskExecution) :
  (∀ d, f (trend day_of l d) = count p (where_ (on_day day_of d) l)) → sum f (trend day_of l <$> days day_of l) = count p l.
Proof.
  intros Hf. destruct (days_spec l) as [Hnd Hin]. rewrite <- (sum_days p l (days day_of l)) by done.
  induction (days day_of l) as [|d ds IH]; [done|]. simpl. rewrite Hf. f_equal. clear -Hf. induction ds as [|d ds IH]; simpl; [done|]. by rewrite Hf, IH.
Qed.

Context {F : Type} (fl : floats F).
Context `{Redis R} `{CronLib C}.

Lemma svc_select_run {A} (f : tables → A) (s : CronScheduler C * world R) : svc (select f) s [] = (Ok (f (tabs s.2)), (s, [])).
Proof. by destruct s. Qed.
Lemma svc_opt_run {A} (f : tables → A) (s : CronScheduler C * world R) : svc (select_opt f) s [] = (Some (f (tabs s.2)), (s, [])).
Proof. by destruct s. Qed.

(** when no call fails, the trends name each day once and account for
    every execution of the last seven days that the caller may see: their
    totals add up to the number of these executions, their successes and
    failures to what the statistics of the same moment say, and on no day are
    there more successes and failures than executions. *)
Theorem trends_add_up has_cron started_at domainID role (s : CronScheduler C * world R) :
  let l := where_ (since (sevenDaysAgo (clock s.2))) (own_executions (sees_all role) domainID (tabs s.2)) in
  ∃ ts st, (GetTrendData day_of domainID role s []).1 = Ok ts ∧
    (GetDashboardStats fl has_cron started_at domainID role s []).1 = Ok st ∧
    NoDup (tr_Date <$> ts) ∧ sum tr_Total ts = Z.of_nat (length l) ∧ sum tr_Success ts = ta_Success st ∧ sum tr_Failed ts = ta_Failed st ∧
    ∀ t, t ∈ ts → 0 ≤ tr_Success t ∧ 0 ≤ tr_Failed t ∧ tr_Success t + tr_Failed t ≤ tr_Total t.
Proof.
  intros l. exists (trend day_of l <$> days day_of l).
  assert (∃ st, (GetDashboardStats fl has_cron started_at domainID role s []).1 = Ok st ∧
    ta_Success st = count (with_status ["success"]) l ∧ ta_Failed st = count (with_status failed_statuses) l) as (st & Hst & Hs & Hf).
  { unfold GetDashboardStats. rewrite run_bind, svc_select_run. cbv beta iota zeta. unfold task_counts.
    rewrite run_bind, svc_opt_run, run_bind, run_gets, run_bind, svc_opt_run, run_bind, svc_opt_run. unfold recent_counts. fold l. cbv beta iota zeta. simpl default. cbv beta iota.
    destruct (executor_counts (sees_all role) domainID (tabs s.2)) as [n a]. destruct has_cron; [|by eexists].
    cbn [default from_option id]. cbv beta iota. rewrite run_bind. destruct (IsPaused s []) as [p [s' fs']]. by eexists. }
  exists st. split_and!; [done|done| | | | |].
  - replace (tr_Date <$> _) with (days day_of l); [apply days_spec|]. rewrite <- list_fmap_compose. exact (eq_sym (list_fmap_id _)).
  - rewrite <- count_all. apply sum_trends. intros d. simpl. by rewrite count_all.
  - rewrite Hs. by apply sum_trends.
  - rewrite Hf. by apply sum_trends.
  - intros t (d & -> & _)%list_elem_of_fmap. simpl. split_and!; [unfold count; lia..|]. apply count_disjoint. unfold with_status. intros x.
    rewrite in_list_true. intros ->%list_elem_of_singleton. by vm_compute.
Qed.
End trends.

(** ** Health *)
Section health.
Context {F : Type} (fl : floats F).
Context `{Redis R} `{CronLib C}.
(** What has to be so for the node to be called healthy. *)
Record all_well (o : surroundings) : Prop := {
  aw_db : is_Some (match select_one o with Ok _ => Some tt | Err _ => None end);
  aw_tables : ∃ names, table_names o = Some names ∧ requiredTables ⊆ names;
  aw_redis : is_Some (match ping o with Ok _ => Some tt | Err _ => None end);
  aw_leader : ∃ me leader addr, resolver o = Some (me, Ok (leader, addr)) ∧ leader ≠ "";
}.
Lemma healthy_is n m l : is_healthy (n, healthy m l) = true.
Proof. by vm_compute. Qed.
Lemma unhealthy_is n m l : is_healthy (n, unhealthy m l) = false.
Proof. by vm_compute. Qed.
Lemma checkRQLite_healthy o : is_healthy ("rqlite", checkRQLite fl o) = true ↔
  is_Some (match select_one o with Ok _ => Some tt | Err _ => None end) ∧ ∃ names, table_names o = Some names ∧ requiredTables ⊆ names.
Proof.
  unfold checkRQLite. destruct (select_one o) as [u|e]; [|rewrite unhealthy_is; split; [done|by intros [[? ?] _]]].
  destruct (table_names o) as [names|]; [|rewrite unhealthy_is; split; [done|by intros (_ & ? & ? & _)]].
  destruct (missing_tables names) as [|t l] eqn:E; rewrite ?healthy_is, ?unhealthy_is.
  - split; [intros _|done]. split; [by eexists|]. exists names. split; [done|]. intros x Hx.
    destruct (in_list x names) eqn:Ei; [by apply in_list_true|]. exfalso. apply (not_elem_of_nil x). rewrite <- E. apply elem_of_where. by rewrite Ei.
  - split; [done|]. intros (_ & names' & [= <-] & Hs). assert (t ∈ missing_tables names) as [Ht Hn%negb_true_iff]%elem_of_where by (rewrite E; by left).
    apply Hs, in_list_true in Ht. congruence.
Qed.
Lemma checkLeader_healthy o : is_healthy ("leader", checkLeader o) = true ↔ ∃ me leader addr, resolver o = Some (me, Ok (leader, addr)) ∧ leader ≠ "".
Proof.
  unfold checkLeader. destruct (resolver o) as [[me [[leader addr]|e]]|]; [|rewrite unhealthy_is; split; [done|by intros (? & ? & ? & ? & _)]..].
  case_bool_decide as E; rewrite ?healthy_is, ?unhealthy_is; [split; [done|by intros (? & ? & ? & [= _ <- _] & ?)]|].
  split; [intros _; by eexists _, _, _|done].
Qed.
Lemma checkRedis_healthy o : is_healthy ("redis", checkRedis fl o) = true ↔ is_Some (match ping o with Ok _ => Some tt | Err _ => None end).
Proof. unfold checkRedis. destruct (ping o); rewrite ?healthy_is, ?unhealthy_is; [split; [by eexists|done]|split; [done|by intros [? ?]]]. Qed.
(** Whatever fails, the node is called healthy exactly when the database
    answers and has all tables, Redis answers, there is a leader, and the cron
    scheduler is there and not paused. *)
Theorem HealthCheck_decides has_cron started_at o (s : CronScheduler C * world R) fs :
  hc_Status (HealthCheck fl has_cron started_at o s fs).1 = "healthy" ↔
  all_well o ∧ has_cron = true ∧ (IsPaused s fs).1 = false.
Proof.
  unfold HealthCheck. rewrite run_bind, run_gets, run_bind. unfold checkScheduler. cbv beta.
  assert (∀ c, (if forallb is_healthy [("rqlite", checkRQLite fl o); ("redis", checkRedis fl o); ("scheduler", c); ("leader", checkLeader o)]
    then "healthy" else "unhealthy") = "healthy" ↔ all_well o ∧ is_healthy ("scheduler", c) = true) as Hall.
  { intros c. pose proof (checkRQLite_healthy o) as Hd. pose proof (checkLeader_healthy o) as Hl. pose proof (checkRedis_healthy o) as Hr.
    cbn [forallb]. rewrite !andb_true_r.
    destruct (is_healthy ("rqlite", _)), (is_healthy ("redis", _)), (is_healthy ("scheduler", c)), (is_healthy ("leader", _)); cbn [andb];
      (split; [intros Hx; first [done|split; [split; tauto|done]]|intros [[? ? ? ?] ?]; first [done|exfalso; intuition congruence]]). }
  destruct has_cron.
  - rewrite run_bind. destruct (IsPaused s fs) as [p [s' fs']]. cbn [hc_Status fst]. rewrite run_bind, run_gets, !run_ret. cbn [hc_Status fst]. rewrite Hall. destruct p; rewrite ?healthy_is, ?unhealthy_is; naive_solver.
  - rewrite !run_ret. cbn [hc_Status fst]. rewrite Hall, unhealthy_is. naive_solver.
Qed.
End health.

(** ** Witnesses and findings *)
Definition demo_floats : floats Z :=
  mkFloats Z 0 (λ l, foldr Z.add 0 l / Z.of_nat (length l) / Second) (λ d, d / Second) (λ d, d / (3600 * Second)) (λ d, d / (60 * Second)) fmt_d.
Definition demo_day (t : Z) : string := fmt_d (t / (24 * 3600 * Second)).
Definition day (n : Z) : Z := n * 24 * 3600 * Second.
Definition demo_run (id task : Z) (status : string) (at_ : Z) : TaskExecution :=
  mkExecution id task (fmt_d id) 1 status (Some at_) (Some (at_ + 3 * Second)) "" "" 0 at_ 0 "" at_.
Definition task_in (id domainID : Z) : Task := mkTask id "t" "shell" "" "0 0 * * *" 0 0 0 true "pending" domainID None [] 0 1 0 0.
Definition node_of (name : string) (id : Z) (global : bool) : Executor := mkExecutor id name "" "online" None 4 0 global 0 0.
Definition demo_board_tables (far : list TaskExecution) : tables :=
  mkTables (mkTable [task_in 1 2; task_in 2 3] 2)
    (mkTable (demo_run 1 1 "success" (day 19) :: demo_run 2 1 "failed" (day 20) :: demo_run 3 1 "running" (day 20) :: far) 9)
    (mkTable [node_of "near" 1 false; node_of "common" 2 true; node_of "far" 3 false] 3)
    (mkTable [mkDomainExecutor 2 1; mkDomainExecutor 3 3] 2) (mkTable [] 0) (mkTable [] 0) (mkTable [] 0).
Definition demo_state (far : list TaskExecution) : CronScheduler list_cron * world gmap_store :=
  (demo_cron, mkWorld (demo_board_tables far) ∅ (day 21) true (mkEffects [] [] [] [] [])).

Example dashboard_keeps_domains_apart_witness :
  let far := [demo_run 4 2 "failed" (day 20); demo_run 5 2 "running" (day 20)] in
  (h_GetStats demo_floats true 0 Execution.demo_env 2 "user" (demo_state []) []).1 = (h_GetStats demo_floats true 0 Execution.demo_env 2 "user" (demo_state far) []).1.
Proof.
  refine (proj1 (dashboard_keeps_domains_apart demo_floats demo_day true 0 2 Execution.demo_env "user" (demo_state [])
    (demo_state [demo_run 4 2 "failed" (day 20); demo_run 5 2 "running" (day 20)]) [] _ _)).
  - by vm_compute.
  - split; [done..|]. split; by vm_compute.
Defined.
Example trends_of_the_domain :
  (GetTrendData demo_day 2 "user" (demo_state []) []).1 = Ok [mkTrend "20" 2 0 1; mkTrend "19" 1 1 0].
Proof. by vm_compute. Qed.

(** An executor for all domains runs the tasks of a domain and is in its list
    of executors; the statistics count only those given to the domain. *)
Example global_executor_not_counted :
  match (GetDashboardStats demo_floats true 0 2 "user" (demo_state []) []).1 with Ok st => ex_Total st = 1 | Err _ => False end ∧
  match (Executor.GetExecutorsByUserRole false 2 (demo_state []).2 []).1 with Ok l => (λ x, e_Name x.1) <$> l = ["common"; "near"] | Err _ => False end.
Proof. split; by vm_compute. Qed.
(** No executor has ever sent a heartbeat; three are counted as active. *)
Example silent_executors_active :
  match (GetDashboardStats demo_floats true 0 2 "admin" (demo_state []) []).1 with Ok st => ex_Active st = 3 | Err _ => False end.
Proof. by vm_compute. Qed.
(** A query that fails, but the first, is answered with zeros. *)
Example failed_query_shows_zeros :
  match (GetDashboardStats demo_floats true 0 2 "user" (demo_state []) [Fine; Ghost; Ghost; Ghost]).1 with
  | Ok st => ta_Total st = 1 ∧ ta_Running st = 0 ∧ ta_Failed st = 0 ∧ ex_Total st = 0
  | Err _ => False
  end.
Proof. by vm_compute. Qed.
(** A scheduler that was paused on purpose makes every check of its nodes say
    that they are unhealthy. *)
Example paused_is_unhealthy :
  let o := mkSurroundings (Ok tt) (Some requiredTables) "" (Ok tt) 0 0 0 (Some ("a", Ok ("a", ""))) in
  hc_Status (HealthCheck demo_floats true 0 o (demo_state []) []).1 = "healthy" ∧
  hc_Status (HealthCheck demo_floats true 0 o (h_PauseScheduler true (demo_state []) []).2.1 []).1 = "unhealthy".
Proof. split; by vm_compute. Qed.
