(* ===== verification/Config.v ===== *)
(** * Configuration files

    [src/scheduler/pkg/config/config.go], the configurations of both programs
    over it ([src/scheduler/internal/config/config.go] and
    [src/executor/internal/config/config.go]) and the addresses of
    [src/executor/cmd/main.go].  [yaml] is what [gopkg.in/yaml.v3] decodes into
    an [interface{}]: a mapping is the list of its entries in the order in
    which Go goes through them, any order; [YOther] is a value of another type,
    by the text [fmt] writes for it.  Floating-point numbers are the type [F]
    with the conversions the code uses.  The files and the environment are
    arguments. *)
From Stdlib Require Import Ascii.
From S2P Require Import Prelude Sql Text.

Class Floats (F : Type) : Type := {
  FormatFloat : F → string;     (** [strconv.FormatFloat(v, 'f', -1, 64)] *)
  SprintFloat : F → string;     (** [fmt.Sprintf("%v", v)] *)
  float_int : F → Z;            (** [int(v)] *)
  float_int32 : F → Z;          (** [int32(v)] *)
}.

Inductive yaml (F : Type) : Type :=
| YNull | YBool (b : bool) | YInt (n : Z) | YFloat (f : F) | YText (s : string) | YOther (text : string)
| YList (l : list (yaml F)) | YMap (m : list (string * yaml F)).
Arguments YNull {F}.
Arguments YBool {F}.
Arguments YInt {F}.
Arguments YFloat {F}.
Arguments YText {F}.
Arguments YOther {F}.
Arguments YList {F}.
Arguments YMap {F}.

(** ** Names of variables *)
Definition one_byte (p : ascii → bool) (r : string) : bool := match r with String c EmptyString => p c | _ => false end.
Definition dot (r : string) : bool := bool_decide (r = ".").
(** The loop of [splitKey] over the runes that are left, with the part that
    is being read. *)
Fixpoint split_key (current : string) (l : list string) : list string :=
  match l with
  | [] => if bool_decide (current = "") then [] else [current]
  | r :: l =>
      if dot r then if bool_decide (current = "") then split_key "" l else current :: split_key "" l
      else split_key (current +:+ r) l
  end.
Definition splitKey (key : string) : list string := split_key "" (runes key).
Fixpoint snake (first : bool) (l : list string) : string :=
  match l with
  | [] => ""
  | r :: l => (if one_byte (between 65 90) r && negb first then "_" else "") +:+ r +:+ snake false l
  end.
Fixpoint toUpper (s : string) : string := match s with EmptyString => EmptyString | String c s => String (upper c) (toUpper s) end.
Definition toUpperSnakeCase (s : string) : string := toUpper (snake true (runes s)).
Definition toEnvKey (key : string) : string := String.concat "_" (toUpperSnakeCase <$> splitKey key).

(** ** Lists in one text *)
Definition blank (c : ascii) : bool := in_list c [" "; "009"; "010"; "013"]%char.
Fixpoint trim_left (s : string) : string :=
  match s with String c s' => if blank c then trim_left s' else s | EmptyString => EmptyString end.
Definition trimSpace (s : string) : string := rev_string (trim_left (rev_string (trim_left s))).
Definition double_quote : string := String "034" EmptyString.
Definition quoting (r : string) : bool := bool_decide (r = double_quote) || bool_decide (r = "'").
(** What is added when an element ends. *)
Definition element (current : string) : list string :=
  if bool_decide (current = "") then [] else let t := trimSpace current in if bool_decide (t = "") then [] else [t].
(** [quote]: [quoteChar] while [inQuotes]. *)
Fixpoint split_commas (quote : option string) (current : string) (l : list string) : list string :=
  match l with
  | [] => element current
  | r :: l =>
      match quote with
      | None =>
          if quoting r then split_commas (Some r) current l
          else if bool_decide (r = ",") then element current ++ split_commas None "" l
          else split_commas None (current +:+ r) l
      | Some q => if bool_decide (r = q) then split_commas None current l else split_commas quote (current +:+ r) l
      end
  end.
Definition splitCommaSeparated (s : string) : list string := split_commas None "" (runes s).

Section values.
Context {F : Type} `{Floats F}.

(** [fmt.Sprintf("%v", v)] *)
Definition key_le (x y : string * string) : bool := String.leb x.1 y.1.
Definition spaced (l : list string) : string := String.concat " " l.
Fixpoint Sprint (v : yaml F) : string :=
  match v with
  | YNull => "<nil>"
  | YBool b => if b then "true" else "false"
  | YInt n => fmt_d n
  | YFloat f => SprintFloat f
  | YText s | YOther s => s
  | YList l => "[" +:+ spaced ((fix all (l : list (yaml F)) := match l with [] => [] | v :: l => Sprint v :: all l end) l) +:+ "]"
  | YMap m =>
      "map[" +:+ spaced ((λ kv, kv.1 +:+ ":" +:+ kv.2) <$> order_by key_le
        ((fix all (m : list (string * yaml F)) := match m with [] => [] | (k, v) :: m => (k, Sprint v) :: all m end) m)) +:+ "]"
  end.

(** ** The file *)
Definition join_key (prefix k : string) : string := if bool_decide (prefix = "") then k else prefix +:+ "." +:+ k.
(** The loop over a mapping: [f] gives the entries of one value, and a later
    one replaces an earlier. *)
Definition merge_entries (f : string → yaml F → gmap string (yaml F)) : list (string * yaml F) → gmap string (yaml F) → gmap string (yaml F) :=
  fix go m result := match m with [] => result | (k, v) :: m => go m (f k v ∪ result) end.
Fixpoint flatten_value (key : string) (v : yaml F) : gmap string (yaml F) :=
  match v with
  | YMap m => merge_entries (λ k v, flatten_value (join_key key k) v) m ∅
  | _ => {[key := v]}
  end.
Definition flattenMap (prefix : string) (m : list (string * yaml F)) : gmap string (yaml F) := flatten_value prefix (YMap m).

(** [stat]: the file is there; [load]: its mapping, or none when it cannot be
    read or parsed; [beside]: [config.yaml] beside the program, when its place
    is known. *)
Record disk : Type := mkDisk { stat : string → bool; load : string → option (list (string * yaml F)); beside : option string }.
Record file_config : Type := mkFileConfig { configFile : string; values : gmap string (yaml F) }.
Definition possibleFiles : list string := ["config.yaml"; "config.yml"; "./config.yaml"; "./config.yml"; "/etc/bdopsflow/config.yaml"].
Definition findConfigFile (d : disk) : string :=
  match find (stat d) possibleFiles with
  | Some f => f
  | None => match beside d with Some p => if stat d p then p else "" | None => "" end
  end.
(** Without [Defaults], which no caller gives. *)
Definition New (d : disk) (file : string) : option file_config :=
  let f := if bool_decide (file = "") then findConfigFile d else file in
  if bool_decide (f = "") then Some (mkFileConfig "" ∅)
  else m ← load d f; Some (mkFileConfig f (flattenMap "" m)).

(** ** Readers

    [env]: [os.Getenv]. *)
Variable env : string → string.
Definition getValue (c : file_config) (key : string) : yaml F :=
  match values c !! key with
  | Some v => v
  | None => let v := env (toEnvKey key) in if bool_decide (v = "") then YNull else YText v
  end.
Definition GetString (c : file_config) (key defaultVal : string) : string :=
  match getValue c key with
  | YNull => defaultVal
  | YText s => s
  | YInt n => fmt_d n
  | YFloat f => FormatFloat f
  | v => Sprint v
  end.
Definition GetInt (c : file_config) (key : string) (defaultVal : Z) : Z :=
  match getValue c key with
  | YInt n => n
  | YFloat f => float_int f
  | YText s => match ParseInt s with (n, true) => n | (_, false) => defaultVal end
  | _ => defaultVal
  end.
Definition GetInt32 (c : file_config) (key : string) (defaultVal : Z) : Z :=
  match getValue c key with
  | YInt n => int32 n
  | YFloat f => float_int32 f
  | YText s =>
      match ParseInt s with
      | (n, true) => if (- 2 ^ 31 <=? n) && (n <? 2 ^ 31) then n else defaultVal
      | (_, false) => defaultVal
      end
  | _ => defaultVal
  end.
Definition GetBool (c : file_config) (key : string) (defaultVal : bool) : bool :=
  match getValue c key with
  | YBool b => b
  | YText s =>
      if in_list s ["true"; "1"; "yes"] then true else if in_list s ["false"; "0"; "no"] then false else defaultVal
  | _ => defaultVal
  end.
Definition slice_item (v : yaml F) : string :=
  match v with YText s => s | YInt n => fmt_d n | YFloat f => FormatFloat f | v => Sprint v end.
Definition GetStringSlice (c : file_config) (key : string) (defaultVal : list string) : list string :=
  match getValue c key with
  | YList l => slice_item <$> l
  | YText s => if bool_decide (s = "") then defaultVal else splitCommaSeparated s
  | _ => defaultVal
  end.
End values.
Arguments disk F : clear implicits.
Arguments file_config F : clear implicits.

(** ** The scheduler *)
Record DatasourceCryptoConfig : Type := mkCryptoConfig {
  EncryptionKey : string; KeySource : string; KeyEnvVar : string; KeyFile : string; AutoRotateDays : Z;
}.
Record Config : Type := mkConfig {
  HTTPPort : string; GRPCPort : string; AdvertiseAddr : string; NodeID : string;
  RQLiteAddrs : list string; RQLiteUser : string; RQLitePass : string; RQLiteTLS : bool;
  RedisMode : string; RedisAddr : string; RedisPassword : string; RedisDB : Z; RedisMaster : string;
  RedisSentinelAddrs : list string; RedisSentinelPassword : string;
  JWTSecret : string; JWTExpiry : Z; JWTRefreshExpiry : Z; AllowRegister : bool; CORSAllowOrigins : list string;
  LogLevel : string; LogFormat : string; LogPath : string; ConfigFile : string;
  RSAPublicKey : string; RSAPrivateKey : string; SSOEnabled : bool; SSOUrl : string; SSOPublicKey : string; SSOTimeout : Z;
  DatasourceCrypto : DatasourceCryptoConfig;
}.
Definition default_secret : string := "your-secret-key-change-in-production".
Definition default_crypto : DatasourceCryptoConfig := mkCryptoConfig "change-in-prod-32byte-key1-here1" "direct" "BDOPSFLOW_ENCRYPTION_KEY" "" 0.
(** The fields the literal leaves out are "", 0 and false. *)
Definition defaultConfig : Config :=
  mkConfig "8080" "50051" "" "" ["http://localhost:4001"] "" "" false "single" "localhost:6379" "" 0 "mymaster" [] ""
    default_secret 2 168 false [] "info" "json" "" "" "" "" false "" "" 0 default_crypto.

Section scheduler.
Context {F : Type} `{Floats F}.
Variable env : string → string.
Abbreviation str := (GetString env).
Abbreviation int := (GetInt env).
Abbreviation bool_ := (GetBool env).
Abbreviation strs := (GetStringSlice env).

Definition load_config (c : file_config F) : Config :=
  mkConfig (str c "app.http_port" "8080") (str c "app.grpc_port" "50051") (str c "app.advertise_addr" "") (str c "app.node_id" "")
    (strs c "database.rqlite_addrs" ["http://localhost:4001"]) (str c "database.rqlite_user" "") (str c "database.rqlite_password" "")
    (bool_ c "database.rqlite_tls" false)
    (str c "redis.mode" "single") (str c "redis.addr" "localhost:6379") (str c "redis.password" "") (int c "redis.db" 0)
    (str c "redis.master_name" "mymaster") (strs c "redis.sentinel_addrs" []) (str c "redis.sentinel_password" "")
    (str c "jwt.secret" default_secret) (int c "jwt.expiry_hours" 2) (int c "jwt.refresh_expiry_hours" 168)
    (bool_ c "app.allow_register" false) (strs c "app.cors_allow_origins" [])
    (str c "log.level" "info") (str c "log.format" "json") (str c "log.path" "") (configFile c)
    (str c "rsa.public_key" "") (str c "rsa.private_key" "") (bool_ c "sso.enabled" false) (str c "sso.url" "") (str c "sso.public_key" "")
    (int c "sso.timeout" 10)
    (mkCryptoConfig (str c "datasource.encryption_key" "change-in-prod-32byte-key1-here1") (str c "datasource.key_source" "direct")
       (str c "datasource.key_env_var" "BDOPSFLOW_ENCRYPTION_KEY") (str c "datasource.key_file" "") (int c "datasource.auto_rotate_days" 0)).
Definition Load (d : disk F) (file : string) : Config := match New d file with None => defaultConfig | Some c => load_config c end.

Definition reload_config (n : file_config F) (c : Config) : Config :=
  mkConfig (str n "app.http_port" (HTTPPort c)) (str n "app.grpc_port" (GRPCPort c)) (str n "app.advertise_addr" (AdvertiseAddr c)) (NodeID c)
    (RQLiteAddrs c) (RQLiteUser c) (RQLitePass c) (RQLiteTLS c)
    (RedisMode c) (RedisAddr c) (RedisPassword c) (RedisDB c) (RedisMaster c) (RedisSentinelAddrs c) (RedisSentinelPassword c)
    (JWTSecret c) (int n "jwt.expiry_hours" (JWTExpiry c)) (int n "jwt.refresh_expiry_hours" (JWTRefreshExpiry c))
    (bool_ n "app.allow_register" (AllowRegister c)) (strs n "app.cors_allow_origins" (CORSAllowOrigins c))
    (str n "log.level" (LogLevel c)) (str n "log.format" (LogFormat c)) (str n "log.path" (LogPath c)) (ConfigFile c)
    (RSAPublicKey c) (RSAPrivateKey c) (bool_ n "sso.enabled" (SSOEnabled c)) (str n "sso.url" (SSOUrl c)) (str n "sso.public_key" (SSOPublicKey c))
    (int n "sso.timeout" (SSOTimeout c))
    (let k := DatasourceCrypto c in
     mkCryptoConfig (str n "datasource.encryption_key" (EncryptionKey k)) (str n "datasource.key_source" (KeySource k))
       (str n "datasource.key_env_var" (KeyEnvVar k)) (str n "datasource.key_file" (KeyFile k)) (int n "datasource.auto_rotate_days" (AutoRotateDays k))).
(** [None]: the error of reading the file; the configuration stays. *)
Definition Reload (d : disk F) (c : Config) : option Config :=
  if bool_decide (ConfigFile c = "") then Some c
  else n ← New d (ConfigFile c); Some (reload_config n c).
End scheduler.

Definition Validate (c : Config) : option string :=
  if bool_decide (JWTSecret c = "") || bool_decide (JWTSecret c = default_secret)
  then Some "JWTSecret 未配置，请在 config.yaml 中设置安全的 JWT 密钥（至少 32 字符）"
  else if (String.length (JWTSecret c) <? 32)%nat
  then Some ("JWTSecret 长度不足，至少需要 32 字符，当前长度: " +:+ fmt_d (Z.of_nat (String.length (JWTSecret c))))
  else None.

(** ** The executor *)
Module Executor.
Record Config : Type := mkConfig {
  ExecutorName : string; Hostname : string; Capacity : Z; SchedulerAddr : string; SchedulerAddrs : list string; Timeout : Z;
  LogLevel : string; LogFormat : string; ConfigFile : string;
}.
Definition parseSchedulerAddrs (addrsStr : string) : list string :=
  if bool_decide (addrsStr = "") then []
  else where_ (λ a, negb (bool_decide (a = ""))) (TrimSpace <$> Split "," addrsStr).
(** [parseAddrs] of [executor/cmd/main.go] is the same. *)
Definition parseAddrs (addrsStr : string) : list string :=
  if bool_decide (addrsStr = "") then []
  else where_ (λ a, negb (bool_decide (a = ""))) (TrimSpace <$> Split "," addrsStr).
Definition defaultConfig (hostname : string) : Config :=
  mkConfig "" (if bool_decide (hostname = "") then "localhost" else hostname) 10 "" [] 30 "info" "json" "".
(** [os.Hostname] *)
Definition getSystemHostname (hostname : option string) : string := default "localhost" hostname.

Section executor.
Context {F : Type} `{Floats F}.
Variable env : string → string.
Definition Load (d : disk F) (hostname : option string) (file : string) : Config :=
  let defaultHostname := getSystemHostname hostname in
  match New d file with
  | None => defaultConfig defaultHostname
  | Some c =>
      mkConfig (GetString env c "app.executor_name" "") (GetString env c "app.hostname" defaultHostname) (GetInt32 env c "app.capacity" 10)
        (GetString env c "scheduler.addr" "") (parseSchedulerAddrs (GetString env c "scheduler.addrs" "")) (GetInt env c "scheduler.timeout" 30)
        (GetString env c "log.level" "info") (GetString env c "log.format" "json") (configFile c)
  end.
End executor.

(** The command line. *)
Record flags : Type := mkFlags {
  f_name : string; f_capacity : Z; f_addr : string; f_addrs : list string; f_timeout : Z; f_hostname : string; f_level : string; f_format : string;
}.
Definition given (s old : string) : string := if bool_decide (s = "") then old else s.
Definition Merge (a : flags) (c : Config) : Config :=
  mkConfig (given (f_name a) (ExecutorName c)) (given (f_hostname a) (Hostname c)) (if 0 <? f_capacity a then f_capacity a else Capacity c)
    (given (f_addr a) (SchedulerAddr c)) (match f_addrs a with [] => SchedulerAddrs c | l => l end)
    (if 0 <? f_timeout a then f_timeout a else Timeout c) (given (f_level a) (LogLevel c)) (given (f_format a) (LogFormat c)) (ConfigFile c).
Definition GetSchedulerAddresses (c : Config) : list string :=
  match SchedulerAddrs c with [] => if bool_decide (SchedulerAddr c = "") then [] else [SchedulerAddr c] | l => l end.
(** The field that is required. *)
Definition Validate (c : Config) : option string :=
  if bool_decide (ExecutorName c = "") then Some "executor_name"
  else match GetSchedulerAddresses c with [] => Some "scheduler.addr or scheduler.addrs" | _ => None end.
(** [main]: the configuration it runs with, from the file, the environment
    and the command line, whose list of addresses is one text. *)
Definition main_config {F} `{Floats F} (env : string → string) (d : disk F) (hostname : option string) (file addrs : string) (a : flags) : Config :=
  Merge (mkFlags (f_name a) (int32 (f_capacity a)) (f_addr a) (parseAddrs addrs) (f_timeout a) (f_hostname a) (f_level a) (f_format a))
    (Load env d hostname file).
End Executor.

(** ** Reading a file again *)
Section reload.
Context {F : Type} `{Floats F}.
Variable env : string → string.
Implicit Types c : file_config F.
Lemma GetString_twice c key d : GetString env c key (GetString env c key d) = GetString env c key d.
Proof. unfold GetString. by destruct (getValue env c key). Qed.
Lemma GetInt_twice c key d : GetInt env c key (GetInt env c key d) = GetInt env c key d.
Proof. unfold GetInt. destruct (getValue env c key); try done. by destruct (ParseInt s) as [? []]. Qed.
Lemma GetBool_twice c key d : GetBool env c key (GetBool env c key d) = GetBool env c key d.
Proof. unfold GetBool. destruct (getValue env c key); try done. by repeat case_match. Qed.
Lemma GetStringSlice_twice c key d : GetStringSlice env c key (GetStringSlice env c key d) = GetStringSlice env c key d.
Proof. unfold GetStringSlice. destruct (getValue env c key); try done. by case_bool_decide. Qed.
Lemma New_again (d : disk F) file c : New d file = Some c → configFile c ≠ "" → New d (configFile c) = Some c.
Proof.
  unfold New. set (f := if bool_decide (file = "") then _ else _). destruct (bool_decide (f = "")) eqn:E; [by intros [= <-]|].
  destruct (load d f) as [m|] eqn:El; [|done]. intros [= <-]. simpl. intros Hne. rewrite !(bool_decide_false (f = "")) by done. by rewrite El.
Qed.

(** Whatever the file, the environment and the values in them, reading
    the file again that a configuration was loaded from, unchanged, succeeds
    and changes nothing. *)
Theorem Reload_same_file (d : disk F) file : Reload env d (Load env d file) = Some (Load env d file).
Proof.
  unfold Reload, Load. destruct (New d file) as [c|] eqn:E; [|done]. change (ConfigFile (load_config env c)) with (configFile c).
  case_bool_decide as Ef; [done|]. rewrite (New_again d file c E Ef). simpl. f_equal. unfold reload_config, load_config. cbn -[GetString GetInt GetBool GetStringSlice].
  by rewrite !GetString_twice, !GetInt_twice, !GetBool_twice, !GetStringSlice_twice.
Qed.
End reload.

(** ** What a path finds *)
Section paths.
Context {F : Type}.
Notation yaml := (yaml F).

Definition entry (k : string) (m : list (string * yaml)) : option yaml := snd <$> find (λ kv, bool_decide (kv.1 = k)) m.
(** The value at the end of a path of keys, when it is no mapping. *)
Fixpoint lookup_path (v : yaml) (path : list string) : option yaml :=
  match path with
  | [] => match v with YMap _ => None | _ => Some v end
  | k :: path => match v with YMap m => match entry k m with Some v => lookup_path v path | None => None end | _ => None end
  end.
Fixpoint dotless (s : string) : bool := match s with EmptyString => true | String c s => negb (Ascii.eqb c ".") && dotless s end.
Definition plain_key (k : string) : Prop := k ≠ "" ∧ dotless k = true.
(** Mappings name each key once, and no key is empty or holds a dot. *)
Inductive well_keyed : yaml → Prop :=
| wk_leaf v : (∀ m, v ≠ YMap m) → well_keyed v
| wk_map m : NoDup m.*1 → Forall (λ kv, plain_key kv.1 ∧ well_keyed kv.2) m → well_keyed (YMap m).

(** Induction that reaches into mappings. *)
Lemma yaml_map_ind (P : yaml → Prop) : (∀ v, (∀ m, v ≠ YMap m) → P v) → (∀ m, Forall (λ kv, P kv.2) m → P (YMap m)) → ∀ v, P v.
Proof.
  intros Hl Hm. fix IH 1. intros [| | | | | | |m]; try (apply Hl; discriminate). apply Hm.
  induction m as [|[k v] m IHm]; constructor; [apply IH|exact IHm].
Qed.

Fixpoint tail (path : list string) : string := match path with [] => "" | k :: path => "." +:+ k +:+ tail path end.
Definition render (key : string) (path : list string) : string := foldl join_key key path.
Definition before (key : string) : string := if bool_decide (key = "") then "" else key +:+ ".".

Lemma app_inj_l (s a b : string) : s +:+ a = s +:+ b → a = b.
Proof. induction s as [|c s IH]; [done|]. rewrite !string_app_cons. intros [= E]. auto. Qed.
Lemma join_before key k : join_key key k = before key +:+ k.
Proof. unfold join_key, before. case_bool_decide; [done|]. by rewrite <- (assoc_L String.append). Qed.
Lemma app_nonempty (s t : string) : t ≠ "" → s +:+ t ≠ "".
Proof. by destruct s. Qed.
Lemma render_tail key path : key ≠ "" → Forall plain_key path → render key path = key +:+ tail path.
Proof.
  unfold render. intros Hk Hp. revert key Hk. induction Hp as [|k path [Hne _] _ IH]; intros key Hk; simpl; [by rewrite (right_id_L "" String.append)|].
  rewrite IH; rewrite join_before; [|by apply app_nonempty]. unfold before. rewrite bool_decide_false by done. by rewrite <- !(assoc_L String.append).
Qed.
Lemma render_cons key k path : plain_key k → Forall plain_key path → render key (k :: path) = before key +:+ k +:+ tail path.
Proof.
  intros Hk Hp. change (render key (k :: path)) with (render (join_key key k) path). rewrite render_tail; [|rewrite join_before; by apply app_nonempty; destruct Hk|done].
  by rewrite join_before, <- (assoc_L String.append).
Qed.
Lemma dotless_prefix k k' path path' : dotless k = true → dotless k' = true → k +:+ tail path = k' +:+ tail path' → k = k' ∧ tail path = tail path'.
Proof.
  revert k'. induction k as [|c k IH]; intros k' Hk Hk'.
  - destruct k' as [|c' k']; [done|]. destruct path as [|q path]; simpl; [done|]. rewrite !string_app_cons. intros [= <- _]. by destruct (dotless k').
  - simpl in Hk. apply andb_true_iff in Hk as [Hc Hk]. destruct k' as [|c' k'].
    + destruct path' as [|q path']; simpl; [done|]. rewrite !string_app_cons. intros [= -> _]. done.
    + simpl in Hk'. apply andb_true_iff in Hk' as [Hc' Hk']. rewrite !string_app_cons. intros [= -> E]. by destruct (IH k' Hk Hk' E) as [-> ?].
Qed.
Lemma tail_inj path path' : Forall plain_key path → Forall plain_key path' → tail path = tail path' → path = path'.
Proof.
  intros Hp. revert path'. induction Hp as [|k path [_ Hk] _ IH]; intros [|k' path'] Hp' E; try done.
  apply Forall_cons in Hp' as [[_ Hk'] Hp']. simpl in E. rewrite !string_app_cons in E. injection E as E. simpl in E.
  apply dotless_prefix in E as [-> E]; [|done..]. by rewrite (IH path').
Qed.

Lemma merge_sound f (m : list (string * yaml)) r s x : merge_entries f m r !! s = Some x → (∃ k v, (k, v) ∈ m ∧ f k v !! s = Some x) ∨ r !! s = Some x.
Proof.
  revert r. induction m as [|[k v] m IH]; intros r; simpl; [by right|]. intros [(k' & v' & Hin & Hf)|Hr]%IH; [left; exists k', v'; split; [by right|done]|].
  apply lookup_union_Some_raw in Hr as [Hr|[_ Hr]]; [left; exists k, v; split; [by left|done]|by right].
Qed.
Lemma merge_complete f (m : list (string * yaml)) r s x :
  (r !! s = Some x ∨ ∃ k v, (k, v) ∈ m ∧ f k v !! s = Some x) → (∀ k v y, (k, v) ∈ m → f k v !! s = Some y → y = x) → merge_entries f m r !! s = Some x.
Proof.
  revert r. induction m as [|[k v] m IH]; intros r Hr Hall; simpl.
  - destruct Hr as [?|(? & ? & []%elem_of_nil & _)]; done.
  - apply IH; [|intros k' v' y Hin; apply Hall; by right]. destruct (f k v !! s) as [y|] eqn:E.
    + left. rewrite (lookup_union_Some_l _ _ _ y) by done. f_equal. apply (Hall k v y); [by left|done].
    + rewrite lookup_union_r by done. destruct Hr as [?|(k' & v' & [[= -> ->]|Hin]%elem_of_cons & Hf)]; [by left| |right; eauto]. congruence.
Qed.
Lemma entry_in k (m : list (string * yaml)) v : NoDup m.*1 → entry k m = Some v ↔ (k, v) ∈ m.
Proof.
  unfold entry. induction m as [|[k' v'] m IH]; [split; [done|by intros ?%elem_of_nil]|]. intros [Hk Hnd]%NoDup_cons. simpl in *.
  rewrite elem_of_cons. case_bool_decide as E; simpl.
  - subst k'. split; [intros [= ->]; by left|]. intros [[= ->]|Hin]; [done|]. destruct Hk. by apply (list_elem_of_fmap_2 fst) in Hin.
  - rewrite (IH Hnd). split; [by right|]. intros [[= ? _]|?]; [congruence|done].
Qed.

Lemma flatten_leaf key (v : yaml) : (∀ m, v ≠ YMap m) → flatten_value key v = {[key := v]}.
Proof. intros Hv. destruct v; try done. by destruct (Hv m). Qed.
Lemma lookup_leaf (v : yaml) path x : (∀ m, v ≠ YMap m) → lookup_path v path = Some x ↔ path = [] ∧ x = v.
Proof.
  intros Hv. destruct path as [|k path]; simpl.
  - destruct v; try (split; [by intros [= <-]|by intros [_ ->]]). by destruct (Hv m).
  - destruct v; try (split; [done|by intros [? _]]). by destruct (Hv m).
Qed.
Lemma flatten_spec (v : yaml) : well_keyed v → ∀ key s x,
  flatten_value key v !! s = Some x ↔ ∃ path, Forall plain_key path ∧ lookup_path v path = Some x ∧ s = render key path.
Proof.
  induction v as [v Hv|m IH] using yaml_map_ind; intros Hw key s x.
  - rewrite flatten_leaf by done. rewrite lookup_singleton_Some. split.
    + intros [<- <-]. exists []. split_and!; [constructor|by apply lookup_leaf|done].
    + intros (path & _ & [-> ->]%lookup_leaf & ->); done.
  - inversion Hw as [? Hv|? Hnd Hall]; subst; [by destruct (Hv m)|]. rewrite Forall_forall in IH. rewrite Forall_forall in Hall. simpl.
    assert (∀ k v y, (k, v) ∈ m → flatten_value (join_key key k) v !! s = Some y →
      ∃ path, Forall plain_key (k :: path) ∧ lookup_path v path = Some y ∧ s = render key (k :: path)) as Hsound.
    { intros k v y Hin Hf. destruct (Hall _ Hin) as [Hk Hwv]. apply (IH _ Hin) in Hf as (path & Hp & Hl & ->); [|done].
      exists path. split_and!; [by constructor|done|done]. }
    split.
    + intros [(k & v & Hin & Hf)|Hf]%merge_sound; [|done]. destruct (Hsound k v x Hin Hf) as (path & Hp & Hl & Hs).
      exists (k :: path). split_and!; [done| |done]. simpl. by rewrite (proj2 (entry_in k m v Hnd) Hin).
    + intros (path & Hp & Hl & ->). destruct path as [|k path]; [done|]. simpl in Hl. destruct (entry k m) as [v|] eqn:E; [|done].
      apply entry_in in E; [|done]. apply Forall_cons in Hp as [Hk Hp]. destruct (Hall _ E) as [_ Hwv].
      apply merge_complete; [right; exists k, v; split; [done|]; apply (IH _ E); [done|by exists path]|].
      intros k' v' y Hin Hf. destruct (Hsound k' v' y Hin Hf) as (path' & [Hk' Hp']%Forall_cons & Hl' & Hs).
      rewrite !render_cons in Hs by done. apply app_inj_l in Hs. apply dotless_prefix in Hs as [-> Hs]; [|by destruct Hk|by destruct Hk'].
      apply tail_inj in Hs as ->; [|done..]. assert (v' = v) as -> by (apply (entry_in k' m) in E, Hin; [congruence|done..]). congruence.
Qed.
Lemma concat_tail k path : String.concat "." (k :: path) = k +:+ tail path.
Proof.
  revert k. induction path as [|q path IH]; intros k; [simpl; by rewrite (right_id_L "" String.append)|].
  change (String.concat "." (k :: q :: path)) with (k +:+ "." +:+ String.concat "." (q :: path)). by rewrite IH.
Qed.

(** C40: when no mapping of the file has a key that is empty or holds a dot,
    the flat table has at a dotted name exactly the value at the end of that
    path of keys, in whatever order Go goes through the mappings. *)
Theorem flattenMap_finds (m : list (string * yaml)) path : well_keyed (YMap m) → path ≠ [] → Forall plain_key path →
  flattenMap "" m !! String.concat "." path = lookup_path (YMap m) path.
Proof.
  intros Hw Hne Hp. unfold flattenMap. destruct path as [|k path]; [done|]. rewrite concat_tail. apply Forall_cons in Hp as [Hk Hp].
  assert (∀ q p, plain_key q → Forall plain_key p → render "" (q :: p) = q +:+ tail p) as Hr.
  { intros q p Hq Hp'. rewrite render_cons by done. unfold before. by rewrite bool_decide_true. }
  destruct (lookup_path (YMap m) (k :: path)) as [x|] eqn:E.
  - apply flatten_spec; [done|]. exists (k :: path). split_and!; [by constructor|done|by rewrite Hr].
  - destruct (flatten_value "" (YMap m) !! (k +:+ tail path)) as [x|] eqn:Ef; [|done]. exfalso.
    apply (flatten_spec _ Hw) in Ef as ([|k' path'] & Hp' & Hl & Hs); [done|]. apply Forall_cons in Hp' as [Hk' Hp'].
    rewrite Hr in Hs by done. apply dotless_prefix in Hs as [-> Hs]; [|by destruct Hk|by destruct Hk'].
    apply tail_inj in Hs as ->; [|done..]. congruence.
Qed.
End paths.

(** ** Lists in quotation marks are read back *)
Definition in_quotes (item : list string) : string := double_quote +:+ concat_runes item +:+ double_quote.
Lemma runes_app r s : Forall is_rune r → runes (concat_runes r +:+ s) = r ++ runes s.
Proof. induction 1 as [|x r Hx _ IH]; [done|]. simpl. rewrite <- (assoc_L String.append), (Hx (concat_runes r +:+ s)). by rewrite IH. Qed.
Lemma runes_quote s : runes (double_quote +:+ s) = double_quote :: runes s.
Proof. done. Qed.
Lemma split_quoted item current l : Forall is_rune item → double_quote ∉ item →
  split_commas (Some double_quote) current (item ++ double_quote :: l) = split_commas None (current +:+ concat_runes item) l.
Proof.
  intros Hi Hq. revert current Hq. induction Hi as [|r item Hr _ IH]; intros current Hq; simpl.
  - by rewrite (right_id_L "" String.append).
  - apply not_elem_of_cons in Hq as [Hne Hq]. rewrite bool_decide_false by done. rewrite IH by done. by rewrite <- (assoc_L String.append).
Qed.
Lemma element_whole s : trimSpace s = s → s ≠ "" → element s = [s].
Proof. unfold element. intros -> Hne. by rewrite bool_decide_false. Qed.

(** Elements in double quotation marks come back as they were, commas
    included. *)
Theorem quoted_elements_are_read_back (items : list (list string)) :
  Forall (λ item, Forall is_rune item ∧ double_quote ∉ item ∧ trimSpace (concat_runes item) = concat_runes item ∧ concat_runes item ≠ "") items →
  splitCommaSeparated (String.concat "," (in_quotes <$> items)) = concat_runes <$> items.
Proof.
  intros Hall. unfold splitCommaSeparated. induction Hall as [|item items (Hi & Hq & Ht & Hne) Hall IH]; [done|].
  assert (∀ s, split_commas None "" (runes (in_quotes item +:+ s)) = split_commas None (concat_runes item) (runes s)) as Hone.
  { intros s. unfold in_quotes. rewrite <- !(assoc_L String.append), runes_quote. simpl split_commas.
    rewrite runes_app, runes_quote by done. by rewrite split_quoted. }
  destruct items as [|item' items].
  - change (String.concat "," (in_quotes <$> [item])) with (in_quotes item). rewrite <- (right_id_L "" String.append (in_quotes item)), Hone. by apply element_whole.
  - change (String.concat "," (in_quotes <$> item :: item' :: items)) with (in_quotes item +:+ "," +:+ String.concat "," (in_quotes <$> item' :: items)).
    rewrite Hone.
    set (rest := String.concat "," (in_quotes <$> item' :: items)) in *.
    change (split_commas None (concat_runes item) (runes ("," +:+ rest))) with (element (concat_runes item) ++ split_commas None "" (runes rest)).
    by rewrite element_whole, IH.
Qed.

(** ** Addresses of schedulers *)
Lemma parse_nonempty s a : a ∈ Executor.parseSchedulerAddrs s → a ≠ "".
Proof.
  unfold Executor.parseSchedulerAddrs. case_bool_decide; [by intros ?%elem_of_nil|]. by intros [_ Ha%negb_true_iff%bool_decide_eq_false]%elem_of_where.
Qed.
(** An executor that starts has a name and at least one address, and none of
    its addresses is empty. *)
Theorem executor_starts_with_addresses {F} `{Floats F} env (d : disk F) hostname file addrs a :
  let c := Executor.main_config env d hostname file addrs a in
  Executor.Validate c = None →
  Executor.ExecutorName c ≠ "" ∧ Executor.GetSchedulerAddresses c ≠ [] ∧ Forall (λ a, a ≠ "") (Executor.GetSchedulerAddresses c).
Proof.
  intros c. assert (Forall (λ a, a ≠ "") (Executor.SchedulerAddrs c)) as Hs.
  { unfold c, Executor.main_config, Executor.Merge, Executor.Load. simpl. change Executor.parseAddrs with Executor.parseSchedulerAddrs.
    destruct (Executor.parseSchedulerAddrs addrs) as [|x l] eqn:E.
    - destruct (New d file); [|constructor]. simpl. apply Forall_forall. intros x. apply parse_nonempty.
    - apply Forall_forall. rewrite <- E. intros y. apply parse_nonempty. }
  unfold Executor.Validate, Executor.GetSchedulerAddresses. case_bool_decide as En; [done|]. destruct (Executor.SchedulerAddrs c) as [|x l].
  - case_bool_decide as Ea; [done|]. intros _. by split_and!; [| |repeat constructor].
  - intros _. by split_and!.
Qed.

(** ** Witnesses and findings *)
#[export] Instance no_floats : Floats Empty_set := { FormatFloat f := match f with end; SprintFloat f := match f with end; float_int f := match f with end; float_int32 f := match f with end }.
Definition demo_file : list (string * yaml Empty_set) :=
  [("app", YMap [("http_port", YInt 8081); ("capacity", YInt 4294967297); ("allow_register", YText "on")]);
   ("redis", YMap [("addr", YText "redis:6379"); ("sentinel_addrs", YList [YText "a:1"; YInt 2])]);
   ("jwt", YMap [("secret", YText "0123456789012345678901234567890123456789"); ("expiry_hours", YNull)]);
   ("scheduler", YMap [("addr", YText ""); ("addrs", YList [YText "one:50051"; YText "two:50051"])])].
Definition demo_disk (m : option (list (string * yaml Empty_set))) : disk Empty_set :=
  mkDisk (λ f, bool_decide (f = "config.yaml")) (λ f, if bool_decide (f = "config.yaml") then m else None) None.
Definition no_env (s : string) : string := "".
Definition demo_env (s : string) : string :=
  if bool_decide (s = "REDIS_ADDR") then "other:6379" else if bool_decide (s = "JWT_EXPIRY_HOURS") then "8" else "".
Definition no_flags : Executor.flags := Executor.mkFlags "exec" 0 "" [] 0 "" "" "".

Lemma demo_well_keyed : well_keyed (YMap demo_file).
Proof.
  repeat first [ apply wk_map; [by apply (bool_decide_unpack _)|] | apply Forall_cons; split; [split; [by split|]|] | apply Forall_nil; done
               | apply wk_leaf; discriminate ].
Qed.
Example flattenMap_finds_witness : flattenMap "" demo_file !! "redis.addr" = Some (YText "redis:6379").
Proof.
  refine (flattenMap_finds demo_file ["redis"; "addr"] demo_well_keyed _ _); [discriminate|].
  repeat (apply Forall_cons; split; [by split|]). by apply Forall_nil.
Defined.
Example quoted_elements_are_read_back_witness :
  splitCommaSeparated (String.concat "," (in_quotes <$> [["a"; ","; "b"]; ["c"]])) = ["a,b"; "c"].
Proof.
  apply (quoted_elements_are_read_back [["a"; ","; "b"]; ["c"]]).
  repeat (apply Forall_cons; split; [split_and!; [repeat (apply Forall_cons; split; [by intros t|]); by apply Forall_nil|by apply (bool_decide_unpack _)|by vm_compute|done]|]).
  by apply Forall_nil.
Defined.
Example executor_starts_with_addresses_witness :
  let c := Executor.main_config no_env (demo_disk None) None "" " h1:1, ,h2:2" no_flags in
  Executor.GetSchedulerAddresses c = ["h1:1"; "h2:2"] ∧ Executor.ExecutorName c ≠ "".
Proof.
  split; [by vm_compute|].
  exact (proj1 (executor_starts_with_addresses no_env (demo_disk None) None "" " h1:1, ,h2:2" no_flags ltac:(by vm_compute))).
Defined.

(** A value of the file wins over the environment. *)
Example environment_does_not_override :
  toEnvKey "redis.addr" = "REDIS_ADDR" ∧ RedisAddr (Load demo_env (demo_disk (Some demo_file)) "") = "redis:6379" ∧
  RedisAddr (Load demo_env (demo_disk None) "none.yaml") = "localhost:6379".
Proof. split_and!; by vm_compute. Qed.
(** A key without a value hides the variable, too. *)
Example null_hides_variable : JWTExpiry (Load demo_env (demo_disk (Some demo_file)) "") = 2.
Proof. by vm_compute. Qed.
(** A file that cannot be read: the environment is not looked at, and the time
    a single sign-on may take is 0 instead of 10. *)
Example unreadable_file_differs :
  SSOTimeout (Load no_env (demo_disk None) "none.yaml") = 0 ∧ SSOTimeout (Load no_env (demo_disk (Some [])) "") = 10 ∧
  JWTExpiry (Load demo_env (demo_disk None) "none.yaml") = 2 ∧ JWTExpiry (Load demo_env (demo_disk (Some [])) "") = 8.
Proof. split_and!; by vm_compute. Qed.
(** A list of addresses as YAML writes one becomes one address. *)
Example yaml_list_is_one_address :
  Executor.GetSchedulerAddresses (Executor.main_config no_env (demo_disk (Some demo_file)) None "" "" no_flags) = ["[one:50051 two:50051]"].
Proof. by vm_compute. Qed.
(** A single address on the command line gives way to the list of the file. *)
Example command_line_gives_way :
  let file := [("scheduler", YMap [("addrs", YText "file:1")])] in
  Executor.GetSchedulerAddresses (Executor.main_config no_env (demo_disk (Some file)) None "" ""
    (Executor.mkFlags "exec" 0 "flag:1" [] 0 "" "" "")) = ["file:1"].
Proof. by vm_compute. Qed.
(** A capacity of 2^32 + 1 is one of 1. *)
Example capacity_wraps :
  Executor.Capacity (Executor.main_config no_env (demo_disk (Some demo_file)) None "" "" no_flags) = 1.
Proof. by vm_compute. Qed.
(** The key that protects passwords may stay the one that is published. *)
Example published_key_is_accepted :
  let c := Load no_env (demo_disk (Some demo_file)) "" in
  Validate c = None ∧ EncryptionKey (DatasourceCrypto c) = "change-in-prod-32byte-key1-here1".
Proof. split; by vm_compute. Qed.
(** A key that is taken out of the file keeps its last value when the file is
    read again. *)
Example removed_key_stays :
  let c := Load no_env (demo_disk (Some demo_file)) "" in
  HTTPPort <$> Reload no_env (demo_disk (Some [])) c = Some "8081" ∧ HTTPPort (Load no_env (demo_disk (Some [])) "") = "8080".
Proof. split; by vm_compute. Qed.
