(* ===== verification/Webhook.v ===== *)
(** * Webhooks

    [src/scheduler/internal/service/webhook.go] and
    [src/scheduler/internal/handler/webhook.go]: the webhooks a domain stores,
    and the request that is posted to one of them, when a task ends
    ([Execution.SendWebhookNotification] says when and with what) and from the
    button that tests it.

    The header column is JSON; what a text decodes to is the parameter
    [parse_json], and [hmac_sha256], [marshal] and [receiver] stand for the
    libraries of Go and for the server that is posted to.  Go visits a map in any
    order: [iteration]. *)
From Stdlib Require Import Ascii.
From S2P Require Import Prelude Redis Sql World Executor Text TaskHandler.
From S2P Require Execution Users.

(** ** JSON objects of strings *)
Inductive json_value : Type := JString (s : string) | JNull | JOther.
Inductive json_doc : Type := DocInvalid | DocNull | DocObject (o : gmap string json_value) | DocOther.

(** [json.Unmarshal] into a [map[string]string]: a value that is no string is
    an error, and leaves the empty string; [null] leaves it without one. *)
Definition text_of (v : json_value) : string := match v with JString s => s | _ => "" end.
Definition is_other (v : json_value) : bool := match v with JOther => true | _ => false end.
Definition unmarshal_headers (d : json_doc) : gmap string string * bool :=
  match d with
  | DocObject o => (text_of <$> o, negb (existsb (λ kv, is_other kv.2) (map_to_list o)))
  | DocNull => (∅, true)
  | DocInvalid | DocOther => (∅, false)
  end.

(** ** Requests *)

(** [textproto.CanonicalMIMEHeaderKey]: a key with a character that a header
    may not have stays as it is. *)
Definition header_char (c : ascii) : bool :=
  let n := N_of_ascii c in
  ((48 <=? n) && (n <=? 57) || (65 <=? n) && (n <=? 90) || (97 <=? n) && (n <=? 122))%N
  || existsb (Ascii.eqb c) ["!"; "#"; "$"; "%"; "&"; "'"; "*"; "+"; "-"; "."; "^"; "_"; "`"; "|"; "~"]%char.
Fixpoint canonical (first : bool) (s : string) : string :=
  match s with
  | EmptyString => EmptyString
  | String c s' => String (if first then upper c else lower c) (canonical (Ascii.eqb c "-") s')
  end.
Fixpoint all_chars (p : ascii → bool) (s : string) : bool :=
  match s with EmptyString => true | String c s' => p c && all_chars p s' end.
Definition CanonicalMIMEHeaderKey (s : string) : string := if all_chars header_char s then canonical true s else s.
(** [Header.Set] *)
Definition Set_ (key value : string) (h : gmap string string) : gmap string string := <[CanonicalMIMEHeaderKey key := value]> h.

Record request : Type := mkRequest { rq_Method : string; rq_URL : string; rq_Headers : gmap string string; rq_Body : string }.

Record WebhookTestResult : Type := mkTestResult { StatusCode : Z; tr_Error : string }.

(** What is posted. *)
Record Payload : Type := mkPayload {
  p_event : string; p_timestamp : Z; p_delivery_id : string;
  p_task_id : Z; p_task_name : string; p_task_type : string;
  p_execution_id : string; p_status : string; p_output : string; p_error : string; p_duration_ms : Z;
}.
Definition test_payload (now : Z) (uuid : string) : Payload :=
  mkPayload "test" (unix now) uuid 0 "test-task" "test" "test-execution" "test"
    "This is a test webhook notification from BDopsFlow" "" 0.

(** What the middleware decoded of a body. *)
Record WebhookRequest : Type := mkWebhookRequest {
  wr_Name : string; wr_URL : string; wr_Method : string; wr_Headers : string; wr_Secret : string;
  wr_DomainID : Z; wr_IsEnabled : option bool; wr_Description : string;
}.
(** [ShouldBindJSON]; [None] is a body that is no such object. *)
Definition bind (req : option WebhookRequest) : option WebhookRequest :=
  r ← req;
  if bool_decide (wr_Name r = "") || bool_decide (wr_URL r = "") || (wr_DomainID r =? 0) then None else Some r.
Definition or_default (d s : string) : string := if bool_decide (s = "") then d else s.
Definition webhook_of (req : WebhookRequest) (createdBy : option Z) : Webhook :=
  mkWebhook 0 (wr_Name req) (wr_URL req) (or_default "POST" (wr_Method req)) (or_default "{}" (wr_Headers req)) (wr_Secret req)
    (wr_DomainID req) (default true (wr_IsEnabled req)) (wr_Description req) createdBy zero_time zero_time.

(** ** Tables *)
Definition has_id (id : Z) (x : Webhook) : bool := w_ID x =? id.
(** The unique index on the name and the domain. *)
Definition name_taken (x : Webhook) (l : list Webhook) : bool :=
  existsb (λ y, bool_decide (w_Name y = w_Name x) && (w_DomainID y =? w_DomainID x)) l.
Definition stored (id now : Z) (x : Webhook) : Webhook :=
  mkWebhook id (w_Name x) (w_URL x) (w_Method x) (w_Headers x) (w_Secret x) (w_DomainID x) (w_IsEnabled x)
    (w_Description x) (w_CreatedBy x) now now.
Definition overwrite (now : Z) (x y : Webhook) : Webhook :=
  mkWebhook (w_ID y) (w_Name x) (w_URL x) (w_Method x) (w_Headers x) (w_Secret x) (w_DomainID x) (w_IsEnabled x)
    (w_Description x) (w_CreatedBy y) (w_CreatedAt y) now.
Definition insert_webhook (now : Z) (x : Webhook) (t : tables) : option (Z * tables) :=
  let id := last_id (webhooks t) + 1 in
  if name_taken x (rows (webhooks t)) then None
  else Some (id, set_webhooks (insert_row (λ id, stored id now x)) t).
(** The number of rows an [UPDATE] or a [DELETE] has met. *)
Definition update_webhook (now id : Z) (x : Webhook) (t : tables) : option (Z * tables) :=
  let n := count (has_id id) (rows (webhooks t)) in
  if (0 <? n) && name_taken x (where_ (λ y, negb (has_id id y)) (rows (webhooks t))) then None
  else Some (n, set_webhooks (update_where (has_id id) (overwrite now x)) t).
Definition delete_webhook (id : Z) (t : tables) : option (Z * tables) :=
  Some (count (has_id id) (rows (webhooks t)), set_webhooks (delete_where (has_id id)) t).
Definition names_webhook (id : Z) (k : Task) : bool := bool_decide (WebhookID k = Some id).
Definition clear_webhook (k : Task) : Task :=
  mkTask (t_ID k) (t_Name k) (t_Type k) (t_Config k) (CronExpression k) (TimeoutSeconds k) (RetryCount k)
    (RetryInterval k) (t_IsEnabled k) (t_Status k) (t_DomainID k) None (WebhookEvents k) (AssignedExecutorID k)
    (CreatedBy k) (t_CreatedAt k) (t_UpdatedAt k).
Definition clear_tasks (id : Z) : table Task → table Task := update_where (names_webhook id) clear_webhook.

(** A node and what it has posted. *)
Record post (R : Type) : Type := mkPost { here : world R; sent : list request }.
Arguments mkPost {R}.
Arguments here {R}.
Arguments sent {R}.
Definition put_here {R} (w : world R) (s : post R) : post R := mkPost w (sent s).
Definition put_sent {R} (l : list request) (s : post R) : post R := mkPost (here s) l.

(** The libraries and the server that is posted to. *)
Record outside : Type := mkOutside {
  parse_json : string → json_doc;
  marshal_headers : gmap string string → string;
  marshal : Payload → string;
  hmac_sha256 : string → string → string;            (** of a key and a text, in hexadecimal *)
  iteration : gmap string string → list (string * string);
  url_ok : string → bool;                            (** [url.Parse] *)
  request_error : string → string → string;
  receiver : request → result string Z;              (** the error, or the status of the answer *)
  new_uuid : string;
}.
Record outside_ok (o : outside) : Prop := {
  marshalled : ∀ m, parse_json o (marshal_headers o m) = DocObject (JString <$> m);
  marshalled_not_empty : ∀ m, marshal_headers o m ≠ "";
  marshalled_none : ∀ m, marshal_headers o m = "{}" → m = ∅;
  visits_all : ∀ m, iteration o m ≡ₚ map_to_list m;
}.

Section webhook.
Context `{Redis R}.
Variable cfg : env.
Variable out : outside.

Definition at_node {A} : M (world R) A → M (post R) A := zoom here put_here.

(** ** [webhook.go] *)
Definition Create (x : Webhook) : M (world R) (result error Webhook) :=
  now ← gets clock;
  id ←? write_checked (insert_webhook now x);
  mret (Ok (stored id now x)).
Definition Update (id : Z) (x : Webhook) : M (world R) (result error unit) :=
  now ← gets clock;
  n ←? write_checked (update_webhook now id x);
  mret (if n =? 0 then Err ErrWebhookNotFound else Ok tt).
Definition Delete (id : Z) : M (world R) (result error unit) :=
  _ ←? write (set_tasks (clear_tasks id));
  n ←? write_checked (delete_webhook id);
  mret (if n =? 0 then Err ErrWebhookNotFound else Ok tt).
Definition newest (x y : Webhook) : bool := w_CreatedAt y <=? w_CreatedAt x.
Definition List_ (domainID : Z) : M (world R) (result error (list Webhook)) :=
  select (λ t, order_by newest (if 0 <? domainID then where_ (λ x, w_DomainID x =? domainID) (rows (webhooks t)) else rows (webhooks t))).
Definition GetByID (id : Z) : M (world R) (result error Webhook) :=
  o ←? select (λ t, head (where_ (has_id id) (rows (webhooks t))));
  mret match o with Some x => Ok x | None => Err ErrWebhookNotFound end.

Definition ComputeWebhookSignature (secret body : string) : string :=
  if bool_decide (secret = "") then "" else "sha256=" +:+ hmac_sha256 out secret body.

(** [http.NewRequest] *)
Definition new_request (method url body : string) : option request :=
  let method := or_default "GET" method in
  if all_chars header_char method && url_ok out url then Some (mkRequest method url ∅ body) else None.
Definition set_headers (l : list (string * string)) (h : gmap string string) : gmap string string :=
  foldl (λ h kv, Set_ kv.1 kv.2 h) h l.
Definition webhook_headers (headersJSON signature : string) : gmap string string :=
  let h := Set_ "Content-Type" "application/json" ∅ in
  let h := if bool_decide (signature = "") then h else Set_ "X-Webhook-Signature" signature h in
  if bool_decide (headersJSON = "") || bool_decide (headersJSON = "{}") then h
  else
    let '(custom, ok) := unmarshal_headers (parse_json out headersJSON) in
    if ok then set_headers (iteration out custom) h else h.
(** The result, if there is one, and the text of the error, if there is one. *)
Definition sendWebhookRequest (method url headersJSON signature body : string) : M (post R) (option WebhookTestResult * option string) :=
  match new_request method url body with
  | None => mret (None, Some ("failed to create request: " +:+ request_error out method url))
  | Some req =>
      let req := mkRequest (rq_Method req) (rq_URL req) (webhook_headers headersJSON signature) (rq_Body req) in
      _ ← modify (λ s, put_sent (sent s ++ [req]) s);
      mret match receiver out req with
           | Err e => (Some (mkTestResult 0 e), Some ("webhook request failed: " +:+ e))
           | Ok code =>
               if (code <? 200) || (300 <=? code) then
                 let e := "webhook returned non-2xx status: " +:+ fmt_d code in (Some (mkTestResult code e), Some e)
               else (Some (mkTestResult code ""), None)
           end
  end.
Definition Test (id : Z) : M (post R) (option WebhookTestResult * option string) :=
  r ← at_node (GetByID id);
  match r with
  | Err e => mret (None, Some (error_text cfg e))
  | Ok wh =>
      now ← gets (λ s, clock (here s));
      let body := marshal out (test_payload now (new_uuid out)) in
      sendWebhookRequest (w_Method wh) (w_URL wh) (w_Headers wh) (ComputeWebhookSignature (w_Secret wh) body) body
  end.
(** The method, the address and the headers are a [webhook.WebhookConfig]. *)
Definition SendWithSignature (method url : string) (headers : gmap string string) (payload : Payload) (secret : string) :
    M (post R) (option string) :=
  let body := marshal out payload in
  r ← sendWebhookRequest (or_default "POST" method) url (marshal_headers out headers) (ComputeWebhookSignature secret body) body;
  mret r.2.
(** What [SendWebhookNotification] of [scheduler_core.go] does with a webhook it
    has read; errors of decoding are ignored. *)
Definition notify (wh : Webhook) (payload : Payload) : M (post R) (option string) :=
  let headers := if bool_decide (w_Headers wh = "") then ∅ else (unmarshal_headers (parse_json out (w_Headers wh))).1 in
  SendWithSignature (w_Method wh) (w_URL wh) headers payload (w_Secret wh).

(** ** [handler/webhook.go] *)
Definition with_webhook_id {A} (id : string) (k : Z → M (post R) (response A)) : M (post R) (response A) :=
  match ParseInt id with (n, true) => k n | (_, false) => mret (BadRequest "无效的Webhook ID") end.
Definition webhook_failed {A} (e : error) : response A :=
  match e with ErrWebhookNotFound => NotFound "Webhook不存在" | _ => FailFromError cfg e end.
Definition h_Create (user : option Z) (req : option WebhookRequest) : M (post R) (response Webhook) :=
  match bind req with
  | None => mret (BadRequest "名称和URL为必填项")
  | Some req => r ← at_node (Create (webhook_of req user)); mret match r with Ok x => Success x | Err e => FailFromError cfg e end
  end.
Definition h_List (domain_id : string) : M (post R) (response (list Webhook)) :=
  match (if bool_decide (domain_id = "") then (0, true) else ParseInt domain_id) with
  | (_, false) => mret (BadRequest "domain_id格式错误")
  | (n, true) => r ← at_node (List_ n); mret match r with Ok l => Success l | Err e => FailFromError cfg e end
  end.
Definition h_Update (id : string) (req : option WebhookRequest) : M (post R) (response unit) :=
  with_webhook_id id (λ id,
    match bind req with
    | None => mret (BadRequest "名称和URL为必填项")
    | Some req => r ← at_node (Update id (webhook_of req None)); mret match r with Ok _ => Success tt | Err e => webhook_failed e end
    end).
Definition h_Delete (id : string) : M (post R) (response unit) :=
  with_webhook_id id (λ id, r ← at_node (Delete id); mret match r with Ok _ => Success tt | Err e => webhook_failed e end).
(** [Success] with the result; the answer that carries a failed result is never given. *)
Definition h_Test (id : string) : M (post R) (response WebhookTestResult) :=
  with_webhook_id id (λ id,
    '(r, e) ← Test id;
    mret match e, r with
         | Some e, _ =>
             if bool_decide (e = "webhook not found") then NotFound "Webhook不存在" else Fail 500 ("测试Webhook失败: " +:+ e)
         | None, Some r => if bool_decide (tr_Error r = "") then Success r else Fail 500 "Webhook测试失败"
         | None, None => Fail 500 ""
         end).

Inductive webhook_call : Type :=
| WCreate (user : option Z) (req : option WebhookRequest) | WList (domain_id : string)
| WUpdate (id : string) (req : option WebhookRequest) | WDelete (id : string) | WTest (id : string)
| WNotify (wh : Webhook) (payload : Payload).
Definition serve_webhook (q : webhook_call) : M (post R) unit :=
  match q with
  | WCreate user req => _ ← h_Create user req; mret tt
  | WList d => _ ← h_List d; mret tt
  | WUpdate id req => _ ← h_Update id req; mret tt
  | WDelete id => _ ← h_Delete id; mret tt
  | WTest id => _ ← h_Test id; mret tt
  | WNotify wh p => _ ← notify wh p; mret tt
  end.
End webhook.

(** ** What a request changes *)
Section touched.
Context `{RedisLaws R}.
Variable cfg : env.
Variable out : outside.
Implicit Types (w : world R) (s : post R).

Lemma at_node_run {A} (m : M (world R) A) s fs :
  at_node m s fs = let '(a, (w, fs')) := m (here s) fs in (a, (put_here w s, fs')).
Proof. done. Qed.



Lemma keeps_reads {A} w (m : M (world R) A) : (∀ P, preserves P m) → preserves (λ s : post R, here s = w) (at_node m).
Proof.
  intros Hm s fs Hs. rewrite at_node_run. specialize (Hm (λ w', w' = w) (here s) fs Hs). by destruct (m (here s) fs) as [a [w' fs']].
Qed.
Lemma keeps_send w method url h sg body : preserves (λ s : post R, here s = w) (sendWebhookRequest out method url h sg body).
Proof.
  unfold sendWebhookRequest. case_match; [|apply preserves_ret]. apply preserves_bind; [by apply preserves_modify|]. intros u. apply preserves_ret.
Qed.
Lemma reads_GetByID id : ∀ P, preserves P (GetByID id : M (world R) _).
Proof. intros P. apply preserves_bind_ok; [apply preserves_select|intros o; apply preserves_ret]. Qed.
Lemma keeps_Test w id : preserves (λ s : post R, here s = w) (Test cfg out id).
Proof.
  apply preserves_bind; [apply keeps_reads, reads_GetByID|]. intros [x|e]; [|apply preserves_ret].
  apply preserves_bind; [apply preserves_gets|]. intros now. apply keeps_send.
Qed.
Lemma keeps_notify w x p : preserves (λ s : post R, here s = w) (notify out x p).
Proof. apply preserves_bind; [apply keeps_send|intros r; apply preserves_ret]. Qed.

Definition named (q : webhook_call) (w : world R) : Z :=
  match q with
  | WCreate _ _ => last_id (webhooks (tabs w)) + 1
  | WUpdate id _ | WDelete id | WTest id => (ParseInt id).1
  | WList _ | WNotify _ _ => 0
  end.

End touched.

(** ** What is stored *)

Record complete (x : Webhook) : Prop := {
  co_Name : w_Name x ≠ ""; co_URL : w_URL x ≠ ""; co_Method : w_Method x ≠ ""; co_Headers : w_Headers x ≠ ""; co_Domain : w_DomainID x ≠ 0;
}.
(** Ids are given once, a name is used once in a domain, no field that is
    needed to post is empty. *)
Record webhooks_ok (t : table Webhook) : Prop := {
  wo_keyed : Users.keyed w_ID t;
  wo_names : ∀ x y, x ∈ rows t → y ∈ rows t → w_Name x = w_Name y → w_DomainID x = w_DomainID y → w_ID x = w_ID y;
  wo_fields : ∀ x, x ∈ rows t → complete x;
}.

Section stored.
Context `{RedisLaws R}.
Variable cfg : env.
Variable out : outside.
Implicit Types (w : world R) (s : post R).

Lemma name_free x l y : name_taken x l = false → y ∈ l → w_Name y = w_Name x → w_DomainID y = w_DomainID x → False.
Proof.
  unfold name_taken. rewrite existsb_false_iff. intros Hf Hy Hn Hd. specialize (Hf y Hy). by rewrite Hn, Hd, bool_decide_true, Z.eqb_refl in Hf.
Qed.
Lemma webhook_ok_insert now x t n t' : complete x → insert_webhook now x t = Some (n, t') → webhooks_ok (webhooks t) → webhooks_ok (webhooks t').
Proof.
  intros [] . unfold insert_webhook. destruct (name_taken _ _) eqn:E; [done|]. intros [= <- <-] [Hk Hn Hf]. split; simpl.
  - by apply Users.keyed_insert.
  - intros a b [Ha| ->%list_elem_of_singleton]%elem_of_app [Hb| ->%list_elem_of_singleton]%elem_of_app Hnm Hd; try done.
    + by apply Hn.
    + by destruct (name_free _ _ _ E Ha).
    + by destruct (name_free _ _ _ E Hb).
  - intros a [Ha| ->%list_elem_of_singleton]%elem_of_app; [by apply Hf|by split].
Qed.
Lemma webhook_ok_update now id x t n t' : complete x → update_webhook now id x t = Some (n, t') → webhooks_ok (webhooks t) → webhooks_ok (webhooks t').
Proof.
  intros []. unfold update_webhook. rewrite count_pos. destruct (_ && _) eqn:E; [done|]. intros [= <- <-] [Hk Hn Hf].
  assert (∀ y z, y ∈ rows (webhooks t) → has_id id y = false → z ∈ rows (webhooks t) → has_id id z = true →
    w_Name y = w_Name x → w_DomainID y = w_DomainID x → False) as Hfree.
  { intros y z Hy Hyi Hz Hzi. apply andb_false_iff in E as [E|E]; [rewrite existsb_false_iff in E; by rewrite E in Hzi|].
    apply (name_free _ _ _ E). apply elem_of_where. by rewrite Hyi. }
  split; simpl.
  - by apply Users.keyed_update.
  - intros a b [[Ha Ea]|(y & Hy & Ey & ->)]%Users.elem_of_update_where [[Hb Eb]|(z & Hz & Ez & ->)]%Users.elem_of_update_where Hnm Hd.
    + by apply Hn.
    + destruct (Hfree a z); done.
    + destruct (Hfree b y); done.
    + simpl. apply Z.eqb_eq in Ey, Ez. congruence.
  - intros a [[Ha _]|(y & Hy & _ & ->)]%Users.elem_of_update_where; [by apply Hf|by split].
Qed.
Lemma webhook_ok_delete id t n t' : delete_webhook id t = Some (n, t') → webhooks_ok (webhooks t) → webhooks_ok (webhooks t').
Proof.
  intros [= <- <-] [Hk Hn Hf]. split; simpl.
  - by apply Users.keyed_delete.
  - intros a b [Ha _]%elem_of_where [Hb _]%elem_of_where. by apply Hn.
  - intros a [Ha _]%elem_of_where. by apply Hf.
Qed.
Lemma complete_bound req r user : bind req = Some r → complete (webhook_of r user).
Proof.
  unfold bind. destruct req as [q|]; [|done]. simpl. destruct (_ || _) eqn:E; [done|]. intros [= <-].
  apply orb_false_iff in E as [[E1%bool_decide_eq_false E2%bool_decide_eq_false]%orb_false_iff E3%Z.eqb_neq].
  split; simpl; try done; unfold or_default; by case_bool_decide.
Qed.

Definition stored_ok s : Prop := webhooks_ok (webhooks (tabs (here s))).
Lemma stored_at_node {A B} (m : M (world R) A) (f : A → B) :
  preserves (λ w, webhooks_ok (webhooks (tabs w))) m → preserves stored_ok (r ← at_node m; mret (f r)).
Proof.
  intros Hm s fs Hs. rewrite run_bind, at_node_run. specialize (Hm (here s) fs Hs). by destruct (m (here s) fs) as [a [w' fs']].
Qed.
Lemma stored_kept {A} (m : M (post R) A) : (∀ w, preserves (λ s, here s = w) m) → preserves stored_ok m.
Proof. intros Hm s fs Hs. unfold stored_ok in *. by rewrite (Hm (here s) s fs eq_refl). Qed.
Lemma ok_checked {A} (f : tables → option (A * tables)) :
  (∀ t n t', f t = Some (n, t') → webhooks_ok (webhooks t) → webhooks_ok (webhooks t')) →
  preserves (λ w : world R, webhooks_ok (webhooks (tabs w))) (write_checked f).
Proof. intros Hf. apply preserves_write_checked. intros w a t Ht. by apply (Hf _ _ _ Ht). Qed.

(** whatever requests create, change and delete and whatever fails, the ids of
    webhooks are given once, no domain has two of one name, and every stored
    webhook has a name, an address, a method, headers and a domain. *)
Theorem stored_webhooks_ok q s fs : webhooks_ok (webhooks (tabs (here s))) →
  webhooks_ok (webhooks (tabs (here (serve_webhook cfg out q s fs).2.1))).
Proof.
  apply (λ Hp, (Hp : preserves stored_ok (serve_webhook cfg out q)) s fs). destruct q as [user req|d|id req|id|id|x p]; (apply preserves_bind; [|intros u; apply preserves_ret]).
  - unfold h_Create. destruct (bind req) as [r|] eqn:Er; [|apply preserves_ret]. apply stored_at_node.
    apply preserves_bind; [apply preserves_gets|intros now]. apply preserves_bind_ok; [|intros n; apply preserves_ret].
    apply ok_checked. intros t n t'. apply webhook_ok_insert. by apply (complete_bound req).
  - apply stored_kept. intros w. unfold h_List. destruct (if bool_decide (d = "") then _ else _) as [n []]; [|apply preserves_ret].
    apply preserves_bind; [|intros r; apply preserves_ret]. apply keeps_reads. intros P. apply preserves_select.
  - unfold h_Update, with_webhook_id. destruct (ParseInt id) as [n []]; [|apply preserves_ret].
    destruct (bind req) as [r|] eqn:Er; [|apply preserves_ret]. apply stored_at_node.
    apply preserves_bind; [apply preserves_gets|intros now]. apply preserves_bind_ok; [|intros k; apply preserves_ret].
    apply ok_checked. intros t k t'. apply webhook_ok_update. by apply (complete_bound req).
  - unfold h_Delete, with_webhook_id. destruct (ParseInt id) as [n []]; [|apply preserves_ret]. apply stored_at_node.
    apply preserves_bind_ok; [by apply preserves_write|intros u]. apply preserves_bind_ok; [|intros k; apply preserves_ret].
    apply ok_checked. intros t k t'. apply webhook_ok_delete.
  - apply stored_kept. intros w. unfold h_Test, with_webhook_id. destruct (ParseInt id) as [n []]; [|apply preserves_ret].
    apply preserves_bind; [apply keeps_Test|]. intros [r e]. apply preserves_ret.
  - apply stored_kept. intros w. apply keeps_notify.
Qed.
End stored.

(** ** What is posted *)
Definition signature_key : string := "X-Webhook-Signature".
(** The header column sets no signature of its own. *)
Definition no_override (out : outside) (wh : Webhook) : Prop :=
  ∀ k, k ∈ dom (unmarshal_headers (parse_json out (w_Headers wh))).1 → CanonicalMIMEHeaderKey k ≠ signature_key.

Section posted.
Context `{RedisLaws R}.
Variable cfg : env.
Variable out : outside.
Hypothesis out_ok : outside_ok out.
Implicit Types (s : post R).

Lemma set_headers_other l h k : (∀ kv, kv ∈ l → CanonicalMIMEHeaderKey kv.1 ≠ k) → set_headers l h !! k = h !! k.
Proof.
  revert h. induction l as [|[key v] l IH]; intros h Hl; [done|]. simpl. rewrite IH.
  - unfold Set_. apply lookup_insert_ne. apply (Hl (key, v)). by left.
  - intros kv Hkv. apply Hl. by right.
Qed.
Definition expected (signature : string) : option string := if bool_decide (signature = "") then None else Some signature.
Lemma signature_kept text sg :
  (∀ k, k ∈ dom (unmarshal_headers (parse_json out text)).1 → CanonicalMIMEHeaderKey k ≠ signature_key) →
  webhook_headers out text sg !! signature_key = expected sg.
Proof.
  intros Ho. unfold webhook_headers. cbv zeta.
  assert ((if bool_decide (sg = "") then Set_ "Content-Type" "application/json" ∅
           else Set_ "X-Webhook-Signature" sg (Set_ "Content-Type" "application/json" ∅)) !! signature_key = expected sg) as Hh.
  { unfold expected, Set_. change (CanonicalMIMEHeaderKey "X-Webhook-Signature") with signature_key.
    case_bool_decide; [by rewrite lookup_insert_ne|by rewrite lookup_insert_eq]. }
  destruct (bool_decide (text = "") || _); [done|]. destruct (unmarshal_headers (parse_json out text)) as [m []]; [|done]. rewrite <- Hh. apply set_headers_other.
  intros [k v] Hin. rewrite (visits_all _ out_ok) in Hin. apply elem_of_map_to_list in Hin. apply Ho. simpl. by apply elem_of_dom_2 in Hin.
Qed.
(** Decoded, encoded and decoded again. *)
Lemma headers_again m : (unmarshal_headers (parse_json out (marshal_headers out m))).1 = m.
Proof.
  rewrite (marshalled _ out_ok). simpl. rewrite <- map_fmap_compose. rewrite <- (map_fmap_id m) at 2. by apply map_fmap_ext.
Qed.

(** The webhook and the payload a call posts. *)
Definition posts (q : webhook_call) s (wh : Webhook) (p : Payload) : Prop :=
  match q with
  | WTest _ => wh ∈ rows (webhooks (tabs (here s))) ∧ w_ID wh = named q (here s) ∧ p = test_payload (clock (here s)) (new_uuid out)
  | WNotify wh' p' => wh = wh' ∧ p = p'
  | _ => False
  end.
Definition well_posted (wh : Webhook) (p : Payload) (rq : request) : Prop :=
  rq_URL rq = w_URL wh ∧ rq_Body rq = marshal out p ∧
  (no_override out wh → rq_Headers rq !! signature_key = expected (ComputeWebhookSignature out (w_Secret wh) (rq_Body rq))).
Definition posted_ok q s s' : Prop := ∃ new, sent s' = sent s ++ new ∧ (length new ≤ 1)%nat ∧
  ∀ rq, rq ∈ new → ∃ wh p, posts q s wh p ∧ well_posted wh p rq.
Lemma posted_none q s s' : sent s' = sent s → posted_ok q s s'.
Proof. intros E. exists []. rewrite app_nil_r. split_and!; [done|simpl; lia|]. by intros rq ?%elem_of_nil. Qed.

Lemma sends_well q s s1 fs wh p method text : sent s1 = sent s → posts q s wh p →
  (no_override out wh → webhook_headers out text (ComputeWebhookSignature out (w_Secret wh) (marshal out p)) !! signature_key =
     expected (ComputeWebhookSignature out (w_Secret wh) (marshal out p))) →
  posted_ok q s (sendWebhookRequest out method (w_URL wh) text (ComputeWebhookSignature out (w_Secret wh) (marshal out p)) (marshal out p) s1 fs).2.1.
Proof.
  intros Hs Hp Hh. unfold sendWebhookRequest, new_request. destruct (_ && _); [|by apply posted_none]. rewrite run_bind. simpl.
  eexists [_]. simpl. rewrite Hs. split; [done|]. split; [lia|]. intros rq ->%list_elem_of_singleton. exists wh, p. by split_and!.
Qed.
Lemma posted_answered {A} q s (m : M (post R) A) fs : posted_ok q s (m s fs).2.1 → posted_ok q s ((_ ← m; mret tt) s fs).2.1.
Proof. rewrite run_bind. by destruct (m s fs) as [a [s' fs']]. Qed.
Lemma posted_at_node {A B} q s (m : M (world R) A) (f : A → B) fs : posted_ok q s ((r ← at_node m; mret (f r)) s fs).2.1.
Proof. rewrite run_bind, at_node_run. destruct (m (here s) fs) as [a [w' fs']]. by apply posted_none. Qed.
Lemma GetByID_found id (w : world R) fs x : (GetByID id w fs).1 = Ok x → x ∈ rows (webhooks (tabs w)) ∧ w_ID x = id.
Proof.
  unfold GetByID, bind_ok, select, or_err, query. rewrite !run_bind. unfold call.
  assert (∀ o, head (where_ (has_id id) (rows (webhooks (tabs w)))) = Some o → o ∈ rows (webhooks (tabs w)) ∧ w_ID o = id) as Hn.
  { intros o Ho. by apply head_Some_elem_of, elem_of_where in Ho as [Hin ?%Z.eqb_eq]. }
  destruct (head _) as [o|]; destruct fs as [|[] fs]; simpl; try done; intros [= <-]; by apply Hn.
Qed.

(** whatever fails, a request posts at most once, and then to the address of
    the webhook that is tested or told, with the encoded payload as its body
    and, unless the header column sets that header itself, the signature that
    the secret gives for exactly this body, or none when there is no secret. *)
Theorem posted_requests_are_signed q s fs : ∃ new, sent (serve_webhook cfg out q s fs).2.1 = sent s ++ new ∧ (length new ≤ 1)%nat ∧
  ∀ rq, rq ∈ new → ∃ wh p, posts q s wh p ∧ rq_URL rq = w_URL wh ∧ rq_Body rq = marshal out p ∧
    (no_override out wh → rq_Headers rq !! signature_key =
       if bool_decide (w_Secret wh = "") then None else Some ("sha256=" +:+ hmac_sha256 out (w_Secret wh) (rq_Body rq))).
Proof.
  assert (∀ wh body, expected (ComputeWebhookSignature out (w_Secret wh) body) =
    if bool_decide (w_Secret wh = "") then None else Some ("sha256=" +:+ hmac_sha256 out (w_Secret wh) body)) as He.
  { intros wh body. unfold expected, ComputeWebhookSignature. destruct (bool_decide (w_Secret wh = "")); [done|by rewrite bool_decide_false]. }
  enough (posted_ok q s (serve_webhook cfg out q s fs).2.1) as (new & Hn & Hl & Hw).
  { exists new. split_and!; [done|done|]. intros rq Hrq. destruct (Hw rq Hrq) as (wh & p & Hp & Hu & Hb & Ho). exists wh, p.
    rewrite <- He. by split_and!. }
  destruct q as [user req|d|id req|id|id|x p]; apply posted_answered.
  - unfold h_Create. destruct (bind req); [apply posted_at_node|by apply posted_none].
  - unfold h_List. destruct (if bool_decide (d = "") then _ else _) as [n []]; [apply posted_at_node|by apply posted_none].
  - unfold h_Update, with_webhook_id. destruct (ParseInt id) as [n []]; [|by apply posted_none]. destruct (bind req); [apply posted_at_node|by apply posted_none].
  - unfold h_Delete, with_webhook_id. destruct (ParseInt id) as [n []]; [apply posted_at_node|by apply posted_none].
  - unfold h_Test, with_webhook_id. destruct (ParseInt id) as [n []] eqn:Ei; [|by apply posted_none]. rewrite run_bind.
    enough (posted_ok (WTest id) s (Test cfg out n s fs).2.1) as Hp by (by destruct (Test cfg out n s fs) as [[r e] [s' fs']]).
    unfold Test. rewrite run_bind, at_node_run. pose proof (reads_GetByID n (λ w', w' = here s) (here s) fs eq_refl) as Hk.
    pose proof (GetByID_found n (here s) fs) as Hf.
    destruct (GetByID n (here s) fs) as [[x|e] [w' fs']]; simpl in Hk, Hf; subst w'; [|by apply posted_none]. rewrite run_bind, run_gets.
    apply sends_well; [done| |apply signature_kept]. simpl. rewrite Ei. by destruct (Hf x eq_refl).
  - unfold notify, SendWithSignature. rewrite run_bind.
    enough (posted_ok (WNotify x p) s (sendWebhookRequest out (or_default "POST" (w_Method x)) (w_URL x)
      (marshal_headers out (if bool_decide (w_Headers x = "") then ∅ else (unmarshal_headers (parse_json out (w_Headers x))).1))
      (ComputeWebhookSignature out (w_Secret x) (marshal out p)) (marshal out p) s fs).2.1) as Hp
      by (by destruct (sendWebhookRequest _ _ _ _ _ _ s fs) as [r [s' fs']]).
    apply sends_well; [done|done|]. intros Ho. apply signature_kept. rewrite headers_again. case_bool_decide; [|done].
    intros k. by rewrite dom_empty_L, elem_of_empty.
Qed.
End posted.

(** ** Examples *)
Definition demo_webhook (id : Z) (name secret headers : string) : Webhook :=
  mkWebhook id name "https://hook.example/x" "POST" headers secret 2 true "" (Some 5) 0 0.
Definition demo_task (id : Z) (webhook : option Z) : Task :=
  mkTask id "nightly" "shell" "" "" 0 0 0 true "pending" 2 webhook [] 0 1 0 0.
(** One webhook without headers of its own, one that sets the signature itself
    in small letters, one with a header that is a number. *)
Definition own_signature : string := "own signature".
Definition with_number : string := "with number".
Definition demo_webhooks : table Webhook :=
  mkTable [demo_webhook 1 "plain" "secret" "{}"; demo_webhook 2 "own" "secret" own_signature; demo_webhook 3 "number" "" with_number] 3.
Definition demo_post : post gmap_store :=
  mkPost (mkWorld (mkTables (mkTable [demo_task 1 (Some 1); demo_task 2 (Some 2)] 2) (mkTable [] 0) (mkTable [] 0) (mkTable [] 0)
            (mkTable [] 0) demo_webhooks (mkTable [] 0)) ∅ (100 * Second) true (mkEffects [] [] [] [] [])) [].
(** A map is written as the digits of its number. *)
Fixpoint digits_of (p : positive) : string :=
  match p with xH => "H" | xO p => String "O" (digits_of p) | xI p => String "I" (digits_of p) end.
Fixpoint of_digits (s : string) : option positive :=
  match s with
  | "H" => Some xH
  | String "O" s => xO <$> of_digits s
  | String "I" s => xI <$> of_digits s
  | _ => None
  end.
Lemma of_digits_of p : of_digits (digits_of p) = Some p.
Proof. induction p as [p IH|p IH|]; simpl; [by rewrite IH..|done]. Qed.
Definition demo_parse (s : string) : json_doc :=
  if bool_decide (s = own_signature) then DocObject {["x-webhook-signature" := JString "mine"]}
  else if bool_decide (s = with_number) then DocObject (<["X-Retries" := JOther]> {["X-Source" := JString "bdopsflow"]})
  else match of_digits s ≫= decode with Some m => DocObject (JString <$> (m : gmap string string)) | None => DocInvalid end.
Definition demo_outside : outside :=
  mkOutside demo_parse (λ m, digits_of (encode m)) (λ p, p_event p +:+ " of " +:+ p_task_name p) (λ key text, "<" +:+ key +:+ "|" +:+ text +:+ ">")
    map_to_list (λ url, true) (λ _ _, "") (λ rq, Ok 200) "uuid".
Lemma demo_outside_ok : outside_ok demo_outside.
Proof.
  split; cbn [parse_json marshal_headers iteration demo_outside].
  - intros m. unfold demo_parse. rewrite bool_decide_false by by destruct (encode m). rewrite bool_decide_false by by destruct (encode m).
    rewrite of_digits_of. cbn [mbind option_bind]. by rewrite decode_encode.
  - intros m. by destruct (encode m).
  - intros m. by destruct (encode m).
  - done.
Qed.


Lemma stored_webhooks_ok_witness :
  let q := WUpdate "3" (Some (mkWebhookRequest "renamed" "https://hook.example/y" "" "" "" 2 None "")) in
  webhooks_ok demo_webhooks ∧ webhooks_ok (webhooks (tabs (here (serve_webhook Execution.demo_env demo_outside q demo_post []).2.1))).
Proof.
  assert (∀ x, x ∈ rows demo_webhooks → x = demo_webhook 1 "plain" "secret" "{}" ∨ x = demo_webhook 2 "own" "secret" own_signature ∨
    x = demo_webhook 3 "number" "" with_number) as Hr.
  { intros x. simpl. rewrite !elem_of_cons, elem_of_nil. tauto. }
  assert (webhooks_ok demo_webhooks) as Hok.
  { split.
    - split; [apply (bool_decide_unpack _); vm_compute; exact I|]. intros x Hx. by destruct (Hr x Hx) as [-> |[-> | -> ]].
    - intros x y Hx Hy. by destruct (Hr x Hx) as [-> |[-> | -> ]], (Hr y Hy) as [-> |[-> | -> ]].
    - intros x Hx. by destruct (Hr x Hx) as [-> |[-> | -> ]]. }
  split; [exact Hok|]. apply (stored_webhooks_ok Execution.demo_env demo_outside _ demo_post []). exact Hok.
Defined.

Lemma posted_requests_are_signed_witness :
  (rq_Headers <$> sent (serve_webhook Execution.demo_env demo_outside (WTest "1") demo_post []).2.1) =
    [<["X-Webhook-Signature" := "sha256=<secret|test of test-task>"]> {["Content-Type" := "application/json"]}] ∧
  ∃ new, sent (serve_webhook Execution.demo_env demo_outside (WTest "1") demo_post []).2.1 = sent demo_post ++ new ∧ (length new ≤ 1)%nat.
Proof.
  split; [vm_compute; reflexivity|].
  destruct (posted_requests_are_signed Execution.demo_env demo_outside demo_outside_ok (WTest "1") demo_post []) as (new & Hn & Hl & _).
  by exists new.
Defined.

(** *** What the code lets happen *)

(** A header column that sets the signature in other letters replaces it: the
    receiver gets no signature of the body. *)
Lemma signature_replaced :
  (λ rq, rq_Headers rq !! signature_key) <$> sent (serve_webhook Execution.demo_env demo_outside (WTest "2") demo_post []).2.1 = [Some "mine"].
Proof. vm_compute. reflexivity. Qed.
(** With one header that is no string, a test sends none of them and a
    notification sends all, that one empty: the test does not show what is sent. *)
Lemma test_is_not_what_is_sent :
  let wh := demo_webhook 3 "number" "" with_number in
  (rq_Headers <$> sent (serve_webhook Execution.demo_env demo_outside (WTest "3") demo_post []).2.1) = [{["Content-Type" := "application/json"]}] ∧
  (λ rq, rq_Headers rq !! "X-Retries") <$>
    sent (serve_webhook Execution.demo_env demo_outside (WNotify wh (test_payload 0 "")) demo_post []).2.1 = [Some ""].
Proof. vm_compute. done. Qed.
(** A failed test has a result with the status of the answer; the handler only
    shows the text of the error, whatever the receiver says. *)
Lemma failed_result_never_shown {R} `{Redis R} out method url h sg body (s : post R) fs r :
  (sendWebhookRequest out method url h sg body s fs).1 = (Some r, None) → tr_Error r = "".
Proof.
  unfold sendWebhookRequest. destruct (new_request _ _ _ _); [|done]. rewrite run_bind. simpl.
  destruct (receiver _ _); simpl; [|done]. destruct (_ || _); [done|]. by intros [= <-].
Qed.
(** An update that does not mention the secret removes it, and one of a user of
    domain 2 moves the webhook into another domain. *)
Lemma update_drops_secret :
  let w' := here (serve_webhook Execution.demo_env demo_outside
     (WUpdate "1" (Some (mkWebhookRequest "plain" "https://hook.example/x" "" "" "" 9 None ""))) demo_post []).2.1 in
  (λ x, (w_Secret x, w_DomainID x)) <$> where_ (has_id 1) (rows (webhooks (tabs w'))) = [("", 9)].
Proof. vm_compute. reflexivity. Qed.
(** Without a domain in the query the webhooks of every domain are listed, with
    their secrets. *)
Lemma all_secrets_listed :
  match (h_List (R := gmap_store) Execution.demo_env "" demo_post []).1 with Success l => w_Secret <$> l | _ => [] end = [""; "secret"; "secret"].
Proof. vm_compute. reflexivity. Qed.
