(* ===== verification/HttpTest.v ===== *)
(** * HTTP tests of interfaces

    [src/scheduler/internal/service/http_executor.go], the part of
    [grpc_executor.go] that looks at addresses, and the types of
    [model/api_model.go]: whether a request may be made, the request that is
    made, what is asserted of the answer, and the [curl] command that is shown
    for it.

    What the libraries of Go do with URLs, JSON, templates, base64 and numbers
    is the record [lib]; the resolver and the servers (one answer for one
    request) are parameters of [Execute].  The client has no [CheckRedirect],
    so [net/http] follows redirects by itself: [client_Do] is its loop. *)
From Stdlib Require Import Ascii.
From S2P Require Import Prelude Text TaskHandler Webhook.

(** ** Types *)
Record KeyValue : Type := mkKeyValue { kv_Key : string; kv_Value : string }.
Record HTTPBodyConfig : Type := mkHTTPBodyConfig { b_Type : string; b_Content : string }.
Record HTTPAuthConfig : Type := mkHTTPAuthConfig {
  a_Type : string; a_Token : string; a_User : string; a_Pass : string; a_Key : string; a_Value : string; a_In : string;
}.
Record HTTPRequestConfig : Type := mkHTTPRequestConfig {
  c_Method : string; c_URL : string; c_Headers : list KeyValue; c_Params : list KeyValue;
  c_Body : option HTTPBodyConfig; c_Auth : option HTTPAuthConfig; c_PreScript : string; c_PostScript : string; c_Timeout : Z;
}.
Record AssertionConfig : Type := mkAssertionConfig { as_Type : string; as_Target : string; as_Operator : string; as_Expected : string }.
Record AssertionResult : Type := mkAssertionResult { ar_Assertion : AssertionConfig; ar_Passed : bool; ar_Actual : string; ar_Message : string }.
(** The fields an execution sets. *)
Record HttpResult : Type := mkHttpResult { hr_StatusCode : Z; hr_Headers : string; hr_Body : string; hr_Error : string }.

(** ** Addresses *)

(** [net.IP]: four or sixteen bytes. *)
Definition IP := list Z.
Definition To4 (ip : IP) : option IP :=
  if Nat.eqb (length ip) 4 then Some ip
  else if Nat.eqb (length ip) 16 && bool_decide (take 12 ip = [0; 0; 0; 0; 0; 0; 0; 0; 0; 0; 255; 255]) then Some (drop 12 ip)
  else None.
Record IPNet : Type := mkIPNet { net_IP : IP; net_Mask : list Z }.
Fixpoint masked (nn m ip : list Z) : bool :=
  match nn, m, ip with
  | n :: nn, k :: m, b :: ip => (Z.land n k =? Z.land b k) && masked nn m ip
  | _, _, _ => true
  end.
(** [IPNet.Contains] *)
Definition net_Contains (n : IPNet) (ip : IP) : bool :=
  let ip := default ip (To4 ip) in
  Nat.eqb (length ip) (length (net_IP n)) && masked (net_IP n) (net_Mask n) ip.
Definition v6 (l : list Z) : list Z := l ++ replicate (16 - length l) 0.
Definition privateRanges : list IPNet :=
  [mkIPNet [10; 0; 0; 0] [255; 0; 0; 0]; mkIPNet [172; 16; 0; 0] [255; 240; 0; 0]; mkIPNet [192; 168; 0; 0] [255; 255; 0; 0];
   mkIPNet [127; 0; 0; 0] [255; 0; 0; 0]; mkIPNet [169; 254; 0; 0] [255; 255; 0; 0];
   mkIPNet (replicate 15 0 ++ [1]) (replicate 16 255); mkIPNet (v6 [252]) (v6 [254]); mkIPNet (v6 [254; 128]) (v6 [255; 192])].
Definition isPrivateIP (ip : IP) : bool := existsb (λ n, net_Contains n ip) privateRanges.

(** ** The libraries *)
Inductive json : Type :=
| JText (s : string) | JNumber (shown : string) | JBool (b : bool) | JNil | JArray (l : list json) | JObject (l : list (string * json)).

Record lib : Type := mkLib {
  URL : Type;
  Parse : string → option URL;
  Hostname : URL → string;
  Query : URL → gmap string (list string);
  with_query : URL → gmap string (list string) → URL;         (** [u.RawQuery = q.Encode()] *)
  String_ : URL → string;
  method_ok : string → bool;
  run_template : nat → string → option string;                (** the text of a template run for the time of a number *)
  pairs_of : string → option (list KeyValue);                 (** [json.Unmarshal] *)
  encode_form : gmap string (list string) → string;           (** [url.Values.Encode] *)
  multipart : list KeyValue → string * string;                (** body and content type *)
  base64_decode : string → option string;
  base64_encode : string → string;
  parse_value : string → option json;                         (** keys of an object are different *)
  parse_error : string → string;
  quote : string → string;                                    (** [%q] *)
  marshal_value : json → string;
  marshal_response : gmap string (list string) → string;
  less : string → string → option bool;                       (** [None]: one is no number *)
  resolve : URL → string → option URL;                        (** [u.Parse(location)] *)
  forward_headers : list URL → URL → gmap string string → gmap string string;  (** what a redirect keeps of the first request's headers *)
}.

Section http.
Variable L : lib.

(** ** Building a request *)
Definition set_all {A} (one : KeyValue → A → A) (l : list KeyValue) (a : A) : A := foldl (λ a kv, one kv a) a l.
Definition set_value (kv : KeyValue) (q : gmap string (list string)) : gmap string (list string) := <[kv_Key kv := [kv_Value kv]]> q.
Definition set_param (kv : KeyValue) (q : gmap string (list string)) : gmap string (list string) :=
  if bool_decide (kv_Key kv = "") then q else set_value kv q.
Definition buildURL (rawURL : string) (params : list KeyValue) : option string :=
  if bool_decide (rawURL = "") then None
  else
    u ← Parse L rawURL;
    Some (String_ L (match params with [] => u | _ => with_query L u (set_all set_param params (Query L u)) end)).

(** The body, if there is one, and the content type; [None] is an error. *)
Definition buildBody (body : option HTTPBodyConfig) : option (option string * string) :=
  match body with
  | None => Some (None, "")
  | Some b =>
      let content := b_Content b in
      if bool_decide (b_Type b = "none") || bool_decide (b_Type b = "") then Some (None, "")
      else if bool_decide (b_Type b = "json") then Some (Some content, "application/json")
      else if bool_decide (b_Type b = "form-urlencoded") then
        l ← pairs_of L content; Some (Some (encode_form L (set_all set_value l ∅)), "application/x-www-form-urlencoded")
      else if bool_decide (b_Type b = "form-multipart") then
        l ← pairs_of L content; Some (Some (multipart L l).1, (multipart L l).2)
      else if bool_decide (b_Type b = "raw") then Some (Some content, "")
      else if bool_decide (b_Type b = "binary") then d ← base64_decode L content; Some (Some d, "")
      else None
  end.

Record http_request : Type := mkHttpRequest {
  h_Method : string; h_URL : URL L; h_Headers : gmap string string; h_Body : option string; h_Seconds : Z;
}.
Definition put_headers (f : gmap string string → gmap string string) (r : http_request) : http_request :=
  mkHttpRequest (h_Method r) (h_URL r) (f (h_Headers r)) (h_Body r) (h_Seconds r).
Definition put_URL (u : URL L) (r : http_request) : http_request :=
  mkHttpRequest (h_Method r) u (h_Headers r) (h_Body r) (h_Seconds r).
Definition put_seconds (n : Z) (r : http_request) : http_request :=
  mkHttpRequest (h_Method r) (h_URL r) (h_Headers r) (h_Body r) n.
Definition apikey_URL (auth : HTTPAuthConfig) (u : URL L) : URL L := with_query L u (<[a_Key auth := [a_Value auth]]> (Query L u)).
Definition applyAuth (req : http_request) (auth : option HTTPAuthConfig) (reqURL : string) : option http_request :=
  match auth with
  | None => Some req
  | Some a =>
      if bool_decide (a_Type a = "") || bool_decide (a_Type a = "none") then Some req
      else if bool_decide (a_Type a = "bearer") then Some (put_headers (Set_ "Authorization" ("Bearer " +:+ a_Token a)) req)
      else if bool_decide (a_Type a = "basic") then
        Some (put_headers (Set_ "Authorization" ("Basic " +:+ base64_encode L (a_User a +:+ ":" +:+ a_Pass a))) req)
      else if bool_decide (a_Type a = "apikey") then
        if bool_decide (a_In a = "header") || bool_decide (a_In a = "") then Some (put_headers (Set_ (a_Key a) (a_Value a)) req)
        else if bool_decide (a_In a = "query") then u ← Parse L reqURL; Some (put_URL (apikey_URL a u) req)
        else None
      else None
  end.

(** The fields are changed as far as it gets: the URL becomes what the script
    writes. *)
Fixpoint template_headers (n : nat) (l : list KeyValue) : list KeyValue :=
  match l with
  | [] => []
  | h :: l => mkKeyValue (kv_Key h) (if bool_decide (kv_Value h = "") then "" else default (kv_Value h) (run_template L n (kv_Value h))) ::
                template_headers (S n) l
  end.
Definition put_templates (url : string) (c : HTTPRequestConfig) : HTTPRequestConfig :=
  mkHTTPRequestConfig (c_Method c) url (template_headers 1 (c_Headers c)) (c_Params c)
    ((λ b, mkHTTPBodyConfig (b_Type b)
        (if bool_decide (b_Content b = "") then "" else default (b_Content b) (run_template L (S (length (c_Headers c))) (b_Content b)))) <$> c_Body c)
    (c_Auth c) (c_PreScript c) (c_PostScript c) (c_Timeout c).
Definition applyPreScript (script : string) (c : HTTPRequestConfig) : HTTPRequestConfig :=
  if bool_decide (script = "") then c
  else match run_template L 0 script with
       | None => c
       | Some out => put_templates (if bool_decide (c_URL c = "") then "" else out) c
       end.

(** ** Executing *)
Inductive http_error : Type :=
| EInvalidURL | ENoHost | EResolve (host : string) | EPrivate (host : string) (ip : IP)
| EBuildURL | EBuildBody | ECreateRequest | EApplyAuth | ERequest (e : string) | EReadBody (e : string).
Inductive answer : Type :=
| NoAnswer (e : string)
| Answer (status : Z) (headers : gmap string (list string)) (body : result string string).

(** [allow] is the setting [api_test.allow_private_network]. *)
Definition validateURL (allow : bool) (LookupIP : string → option (list IP)) (rawURL : string) : option http_error :=
  if allow then None
  else if bool_decide (rawURL = "") then Some EInvalidURL
  else match Parse L rawURL with
       | None => Some EInvalidURL
       | Some u =>
           let host := Hostname L u in
           if bool_decide (host = "") then Some ENoHost
           else match LookupIP host with
                | None => Some (EResolve host)
                | Some ips => EPrivate host <$> head (filter (λ ip, isPrivateIP ip = true) ips)
                end
       end.

Definition NewRequest (method url : string) (body : option string) : option http_request :=
  if method_ok L method then u ← Parse L url; Some (mkHttpRequest method u ∅ body 0) else None.
Definition set_header (kv : KeyValue) (h : gmap string string) : gmap string string :=
  if bool_decide (kv_Key kv = "") then h else Set_ (kv_Key kv) (kv_Value kv) h.
Definition timeout_of (t : Z) : Z := let t := if t <=? 0 then 30 else t in if 300 <? t then 300 else t.
Definition build_request (c : HTTPRequestConfig) : result http_error http_request :=
  match buildURL (c_URL c) (c_Params c) with
  | None => Err EBuildURL
  | Some reqURL =>
      match buildBody (c_Body c) with
      | None => Err EBuildBody
      | Some (body, contentType) =>
          match NewRequest (or_default "GET" (c_Method c)) reqURL body with
          | None => Err ECreateRequest
          | Some req =>
              let req := put_headers (λ h, set_all set_header (c_Headers c)
                           (if bool_decide (contentType = "") then h else Set_ "Content-Type" contentType h)) req in
              match applyAuth req (c_Auth c) reqURL with
              | None => Err EApplyAuth
              | Some req => Ok (put_seconds (timeout_of (c_Timeout c)) req)
              end
          end
      end
  end.
Definition maxResponseBodySize : Z := 10 * 1024 * 1024.
Definition cut_body (limit : Z) (body : string) : string := String.substring 0 (Z.to_nat limit) body.
Definition result_of (status : Z) (headers : gmap string (list string)) (body : string) : HttpResult :=
  if maxResponseBodySize <? Z.of_nat (String.length body) then
    mkHttpResult status (marshal_response L headers) (cut_body maxResponseBodySize body) "response body truncated at 10MB"
  else mkHttpResult status (marshal_response L headers) body "".
(** [http.Client.Do] with the default policy: which answers are redirects, the
    next request of each, and at most ten requests in a row. *)
Definition redirect_method (method : string) (status : Z) : option (string * bool) :=
  if (status =? 301) || (status =? 302) || (status =? 303) then
    Some (if bool_decide (method = "GET") || bool_decide (method = "HEAD") then method else "GET", false)
  else if (status =? 307) || (status =? 308) then Some (method, true)
  else None.
Definition location (headers : gmap string (list string)) : string :=
  match headers !! "Location" with Some (l :: _) => l | _ => "" end.
Definition redirected (via : list (URL L)) (first : http_request) (u : URL L) (m : string * bool) : http_request :=
  mkHttpRequest m.1 u (forward_headers L via u (h_Headers first)) (if m.2 then h_Body first else None) (h_Seconds first).
Fixpoint follow (more : nat) (RoundTrip : http_request → answer) (via : list (URL L)) (first req : http_request) :
    list http_request * answer :=
  match RoundTrip req with
  | NoAnswer e => ([req], NoAnswer e)
  | Answer status headers body as a =>
      match redirect_method (h_Method req) status with
      | None => ([req], a)
      | Some m =>
          if bool_decide (location headers = "") then ([req], a)
          else match resolve L (h_URL req) (location headers) with
               | None => ([req], NoAnswer "failed to parse Location header")
               | Some u =>
                   match more with
                   | O => ([req], NoAnswer "stopped after 10 redirects")
                   | S more =>
                       let via := via ++ [h_URL req] in
                       let '(sent, a) := follow more RoundTrip via first (redirected via first u m) in (req :: sent, a)
                   end
               end
      end
  end.
Definition client_Do (RoundTrip : http_request → answer) (req : http_request) : list http_request * answer :=
  follow 9 RoundTrip [] req req.

(** What is sent, and the result. *)
Definition Execute (allow : bool) (LookupIP : string → option (list IP)) (RoundTrip : http_request → answer) (c : HTTPRequestConfig) :
    list http_request * result http_error HttpResult :=
  match validateURL allow LookupIP (c_URL c) with
  | Some e => ([], Err e)
  | None =>
      match build_request (applyPreScript (c_PreScript c) c) with
      | Err e => ([], Err e)
      | Ok req =>
          let '(sent, resp) := client_Do RoundTrip req in
          (sent, match resp with
                 | NoAnswer e => Err (ERequest e)
                 | Answer _ _ (Err e) => Err (EReadBody e)
                 | Answer status headers (Ok body) => Ok (result_of status headers body)
                 end)
      end
  end.

(** ** The command *)
Definition shellEscape (s : string) : string := "'" +:+ ReplaceAll "'" "'\''" s +:+ "'".
Definition curl_auth (auth : option HTTPAuthConfig) : list string :=
  match auth with
  | None => []
  | Some a =>
      if bool_decide (a_Type a = "bearer") then ["--header " +:+ shellEscape ("Authorization: Bearer " +:+ a_Token a)]
      else if bool_decide (a_Type a = "basic") then ["--user " +:+ shellEscape (a_User a) +:+ ":" +:+ shellEscape (a_Pass a)]
      else if bool_decide (a_Type a = "apikey") && bool_decide (a_In a = "header") then
        ["--header " +:+ shellEscape (a_Key a +:+ ": " +:+ a_Value a)]
      else []
  end.
Definition curl_header (h : KeyValue) : list string :=
  if bool_decide (kv_Key h = "") then [] else ["-H " +:+ shellEscape (kv_Key h +:+ ": " +:+ kv_Value h)].
Definition curl_body (body : option HTTPBodyConfig) : list string :=
  match body with
  | None => []
  | Some b =>
      if bool_decide (b_Content b = "") then []
      else if bool_decide (b_Type b = "json") || bool_decide (b_Type b = "raw") then ["-d " +:+ shellEscape (b_Content b)]
      else if bool_decide (b_Type b = "form-urlencoded") then
        match pairs_of L (b_Content b) with
        | Some l => ["-d " +:+ shellEscape (encode_form L (set_all set_value l ∅))]
        | None => []
        end
      else if bool_decide (b_Type b = "binary") then ["--data-binary " +:+ shellEscape (b_Content b)]
      else []
  end.
Definition curl_URL (auth : option HTTPAuthConfig) (reqURL : string) : string :=
  match auth with
  | Some a =>
      if bool_decide (a_Type a = "apikey") && bool_decide (a_In a = "query") then
        match Parse L reqURL with Some u => String_ L (apikey_URL a u) | None => reqURL end
      else reqURL
  | None => reqURL
  end.
Definition GenerateCurl (c : HTTPRequestConfig) : option string :=
  reqURL ← buildURL (c_URL c) (c_Params c);
  Some (String.concat " "
    (["curl"; "-X " +:+ or_default "GET" (c_Method c)] ++ curl_auth (c_Auth c) ++ (c_Headers c ≫= curl_header) ++
     curl_body (c_Body c) ++ [shellEscape (curl_URL (c_Auth c) reqURL)])).

(** ** Assertions *)
Fixpoint valueToString (v : json) : string :=
  match v with
  | JText s => s
  | JNumber n => n
  | JBool b => if b then "true" else "false"
  | JNil => "null"
  | JArray _ | JObject _ => marshal_value L v
  end.
Fixpoint field (same : string → bool) (l : list (string * json)) : option json :=
  match l with [] => None | (k, v) :: l => if same k then Some v else field same l end.
Definition equal_to (k k' : string) : bool := bool_decide (k' = k).
Fixpoint walk (path : string) (parts : list string) (v : json) : result string json :=
  match parts with
  | [] => Ok v
  | part :: parts =>
      if bool_decide (part = "") then walk path parts v
      else match v with
           | JObject l =>
               match field (equal_to part) l with
               | Some v => walk path parts v
               | None => Err ("path " +:+ quote L path +:+ " not found: key " +:+ quote L part +:+ " does not exist")
               end
           | _ => Err ("path " +:+ quote L path +:+ " not found: expected object at segment " +:+ quote L part)
           end
  end.
Definition extractJSONPath (body path : string) : result string string :=
  if bool_decide (body = "") then Err "response body is empty"
  else if bool_decide (path = "") then Err "json_path target is empty"
  else match parse_value L body with
       | None => Err ("failed to parse response body as JSON: " +:+ parse_error L body)
       | Some v => match walk path (Split "." path) v with Ok v => Ok (valueToString v) | Err e => Err e end
       end.
(** Of several keys that are the same but for the case of letters, the first;
    Go takes any. *)
Definition extractHeader (headersJSON target : string) : result string string :=
  if bool_decide (headersJSON = "") then Err "headers are empty"
  else match parse_value L headersJSON with
       | Some (JObject l) =>
           match field (equal_to target) l with
           | Some v => Ok (valueToString v)
           | None =>
               match field (λ k, bool_decide (ToLower k = ToLower target)) l with
               | Some v => Ok (valueToString v)
               | None => Err ("header " +:+ quote L target +:+ " not found")
               end
           end
       | Some JNil => Err ("header " +:+ quote L target +:+ " not found")
       | _ => Err ("failed to parse headers: " +:+ parse_error L headersJSON)
       end.
Definition extractActualValue (r : HttpResult) (a : AssertionConfig) : result string string :=
  if bool_decide (as_Type a = "status_code") then Ok (fmt_d (hr_StatusCode r))
  else if bool_decide (as_Type a = "json_path") then extractJSONPath (hr_Body r) (as_Target a)
  else if bool_decide (as_Type a = "header") then extractHeader (hr_Headers r) (as_Target a)
  else Err ("unsupported assertion type: " +:+ as_Type a).
Definition compare_numbers (holds : option bool) (sign not_sign actual expected : string) : bool * string :=
  match holds with
  | None => (false, "cannot compare non-numeric values: actual=" +:+ quote L actual +:+ ", expected=" +:+ quote L expected)
  | Some true => (true, "")
  | Some false => (false, "expected " +:+ actual +:+ sign +:+ expected +:+ ", but " +:+ actual +:+ not_sign +:+ expected)
  end.
Definition compareValues (operator actual expected : string) : bool * string :=
  if bool_decide (operator = "equals") then
    if bool_decide (actual = expected) then (true, "") else (false, "expected " +:+ quote L expected +:+ ", got " +:+ quote L actual)
  else if bool_decide (operator = "not_equals") then
    if bool_decide (actual = expected) then (false, "expected not " +:+ quote L expected +:+ ", but got " +:+ quote L actual) else (true, "")
  else if bool_decide (operator = "contains") then
    if Contains actual expected then (true, "") else (false, "expected " +:+ quote L actual +:+ " to contain " +:+ quote L expected)
  else if bool_decide (operator = "gt") then compare_numbers (less L expected actual) " > " " <= " actual expected
  else if bool_decide (operator = "lt") then compare_numbers (less L actual expected) " < " " >= " actual expected
  else if bool_decide (operator = "exists") then
    if bool_decide (actual = "") then (false, "expected value to exist, but got empty") else (true, "")
  else (false, "unsupported operator: " +:+ operator).
Definition run_assertion (r : HttpResult) (a : AssertionConfig) : AssertionResult :=
  match extractActualValue r a with
  | Err e => mkAssertionResult a false "" e
  | Ok actual => let '(passed, message) := compareValues (as_Operator a) actual (as_Expected a) in mkAssertionResult a passed actual message
  end.
Definition ExecuteAssertions (r : HttpResult) (l : list AssertionConfig) : list AssertionResult := map (run_assertion r) l.
End http.

(** ** Where a request goes *)
Record lib_ok (L : lib) : Prop := {
  same_query : ∀ u q, Hostname L (with_query L u q) = Hostname L u;
  parsed_back : ∀ s u u', Parse L s = Some u → Parse L (String_ L u) = Some u' → Hostname L u' = Hostname L u;
  parsed_query : ∀ s u q u', Parse L s = Some u → Parse L (String_ L (with_query L u q)) = Some u' → Hostname L u' = Hostname L u;
}.

Section sent.
Variable L : lib.
Hypothesis L_ok : lib_ok L.

Lemma buildURL_host rawURL params url u : buildURL L rawURL params = Some url → Parse L url = Some u →
  ∃ u0, Parse L rawURL = Some u0 ∧ Hostname L u = Hostname L u0.
Proof.
  unfold buildURL. case_bool_decide; [done|]. destruct (Parse L rawURL) as [u0|] eqn:E; [|done]. simpl. intros [= <-] Hu. exists u0. split; [done|].
  destruct params; [by apply (parsed_back _ L_ok rawURL)|by eapply (parsed_query _ L_ok rawURL)].
Qed.
Lemma applyAuth_host req auth url req' : applyAuth L req auth url = Some req' →
  h_URL L req' = h_URL L req ∨ ∃ u, Parse L url = Some u ∧ Hostname L (h_URL L req') = Hostname L u.
Proof.
  destruct auth as [a|]; simpl; [|intros [= <-]; by left].
  repeat case_match; intros E; simplify_eq; try (by left).
  destruct (Parse L url) as [u|]; [|done]. simpl in E. injection E as <-. right. exists u. split; [done|]. apply (same_query _ L_ok).
Qed.
Lemma timeout_range t : 1 ≤ timeout_of t ≤ 300.
Proof. unfold timeout_of. destruct (Z.leb_spec t 0), (Z.ltb_spec 300 (if t <=? 0 then 30 else t)); simpl; repeat case_match; lia. Qed.
Lemma build_request_host c req : build_request L c = Ok req →
  (∃ u0, Parse L (c_URL c) = Some u0 ∧ Hostname L (h_URL L req) = Hostname L u0) ∧ 1 ≤ h_Seconds L req ≤ 300.
Proof.
  unfold build_request, NewRequest. destruct (buildURL _ _ _) as [url|] eqn:Eu; [|done]. destruct (buildBody _ _) as [[body ct]|]; [|done].
  destruct (method_ok _ _); [|done]. destruct (Parse L url) as [u|] eqn:Ep; [|done]. cbn [mbind option_bind].
  destruct (applyAuth _ _ _ _) as [req'|] eqn:Ea; [|done]. intros [= <-]. split; [|apply timeout_range].
  destruct (buildURL_host _ _ _ u Eu Ep) as (u0 & H0 & Hh). exists u0. split; [done|]. simpl.
  apply applyAuth_host in Ea as [-> |(u' & Hp & ->)]; [done|]. rewrite Ep in Hp. by injection Hp as <-.
Qed.
Lemma validate_ok lookup url : validateURL L false lookup url = None → url ≠ "" ∧ ∃ u ips, Parse L url = Some u ∧
  lookup (Hostname L u) = Some ips ∧ ∀ ip, ip ∈ ips → isPrivateIP ip = false.
Proof.
  unfold validateURL. case_bool_decide; [done|]. destruct (Parse L url) as [u|]; [|done]. case_bool_decide; [done|].
  destruct (lookup _) as [ips|] eqn:El; [|done]. destruct (filter _ ips) eqn:Ef; [|done]. intros _. split; [done|]. exists u, ips. split_and!; try done.
  intros ip Hip. destruct (isPrivateIP ip) eqn:E; [|done]. exfalso. assert (ip ∈ filter (λ ip, isPrivateIP ip = true) ips) as Hin by by apply list_elem_of_filter.
  rewrite Ef in Hin. by apply elem_of_nil in Hin.
Qed.
Lemma substring_length n s : (String.length (String.substring 0 n s) ≤ n)%nat.
Proof. revert n. induction s as [|c s IH]; intros [|n]; simpl; try lia. specialize (IH n). lia. Qed.
Lemma result_body status hs body : Z.of_nat (String.length (hr_Body (result_of L status hs body))) ≤ maxResponseBodySize.
Proof.
  unfold result_of. destruct (Z.ltb_spec maxResponseBodySize (Z.of_nat (String.length body))); [|done].
  cbn [hr_Body]. unfold cut_body. pose proof (substring_length (Z.to_nat maxResponseBodySize) body).
  assert (0 ≤ maxResponseBodySize) by done. lia.
Qed.

(** One request follows another: the server answered the first with a redirect
    to the second. *)
Definition redirects_to (RoundTrip : http_request L → answer) (req req' : http_request L) : Prop :=
  ∃ status headers body, RoundTrip req = Answer status headers body ∧
    is_Some (redirect_method (h_Method L req) status) ∧ location headers ≠ "" ∧
    resolve L (h_URL L req) (location headers) = Some (h_URL L req').

Lemma follow_spec more RoundTrip via first req :
  let '(sent, _) := follow L more RoundTrip via first req in
  (length sent ≤ S more)%nat ∧ head sent = Some req ∧
  (∀ r, r ∈ sent → r = req ∨ h_Seconds L r = h_Seconds L first) ∧
  ∀ i r r', sent !! i = Some r → sent !! S i = Some r' → redirects_to RoundTrip r r'.
Proof.
  assert (∀ (a : answer) n, let '(sent, _) := ([req], a) in
    (length sent ≤ S n)%nat ∧ head sent = Some req ∧
    (∀ r, r ∈ sent → r = req ∨ h_Seconds L r = h_Seconds L first) ∧
    ∀ i r r', sent !! i = Some r → sent !! S i = Some r' → redirects_to RoundTrip r r') as Hone.
  { intros a n. split_and!; [simpl; lia|done|intros r ->%list_elem_of_singleton; by left|by intros i r r' _ ?]. }
  revert via req Hone. induction more as [|more IH]; intros via req Hone; cbn [follow];
    destruct (RoundTrip req) as [e|status headers body] eqn:Er; try exact (Hone (NoAnswer "") _);
    destruct (redirect_method (h_Method L req) status) as [m|] eqn:Em; try exact (Hone (NoAnswer "") _);
    case_bool_decide as El; try exact (Hone (NoAnswer "") _);
    destruct (resolve L (h_URL L req) (location headers)) as [u|] eqn:Eu; try exact (Hone (NoAnswer "") _).
  set (next := redirected L (via ++ [h_URL L req]) first u m).
  specialize (IH (via ++ [h_URL L req]) next).
  destruct (follow L more RoundTrip (via ++ [h_URL L req]) first next) as [sent a].
  destruct IH as (Hlen & Hhd & Hsec & Hnext).
  { intros a' n. split_and!; [simpl; lia|done|intros r ->%list_elem_of_singleton; by left|by intros i r r' _ ?]. }
  split_and!; [simpl; lia|done| |].
  - intros r [->|Hr]%elem_of_cons; [by left|]. right. by destruct (Hsec r Hr) as [->|?].
  - intros [|i] r r' Hi Hi'; simpl in Hi, Hi'; [|by eapply Hnext].
    injection Hi as <-. destruct sent as [|x sent]; [done|]. simpl in Hi', Hhd. simplify_eq.
    by exists status, headers, body.
Qed.

(** C33: while the setting forbids private addresses, a test without a script
    sends its first request to a host whose addresses the check saw and found
    public.  The check does not cover what follows: each further request, nine
    at most, is where the server of the one before redirects to, and nothing
    is sent after an answer that is no redirect.  Every request has the limit
    of at most five minutes; what is returned has at most ten megabytes. *)
Theorem Execute_contacts_checked_hosts lookup RoundTrip c : c_PreScript c = "" →
  let '(sent, r) := Execute L false lookup RoundTrip c in
  (length sent ≤ 10)%nat ∧
  (∀ req, head sent = Some req →
     ∃ ips, lookup (Hostname L (h_URL L req)) = Some ips ∧ ∀ ip, ip ∈ ips → isPrivateIP ip = false) ∧
  (∀ i req req', sent !! i = Some req → sent !! S i = Some req' → redirects_to RoundTrip req req') ∧
  (∀ req, req ∈ sent → 1 ≤ h_Seconds L req ≤ 300) ∧
  (∀ res, r = Ok res → Z.of_nat (String.length (hr_Body res)) ≤ maxResponseBodySize).
Proof.
  intros Hs. unfold Execute. destruct (validateURL _ _ _ _) eqn:Ev;
    [split_and!; [simpl; lia|done|done|by intros ? ?%elem_of_nil|done]|].
  unfold applyPreScript. rewrite Hs, bool_decide_true by done.
  destruct (build_request L c) as [req|e] eqn:Eb; [|split_and!; [simpl; lia|done|done|by intros ? ?%elem_of_nil|done]].
  apply build_request_host in Eb as [(u0 & Hp & Hh) Ht].
  pose proof (follow_spec 9 RoundTrip [] req req) as Hf. unfold client_Do.
  destruct (follow L 9 RoundTrip [] req req) as [sent a]. destruct Hf as (Hlen & Hhd & Hsec & Hnext).
  split_and!; [done| |done| |].
  - intros r Hr. rewrite Hhd in Hr. injection Hr as <-. rewrite Hh.
    apply validate_ok in Ev as (_ & u & ips & Hu & Hl & Hips). rewrite Hp in Hu. injection Hu as <-. by exists ips.
  - intros r Hr. by destruct (Hsec r Hr) as [->| ->].
  - intros res. destruct a as [e|st hs [body|e]]; [done| |done]. intros [= <-]. apply result_body.
Qed.
End sent.


(** *** Which addresses are private *)
Definition private4 (a b : Z) : bool :=
  (a =? 10) || (a =? 127) || ((a =? 172) && (16 <=? b) && (b <? 32)) || ((a =? 192) && (b =? 168)) || ((a =? 169) && (b =? 254)).
Lemma private4_table : forallb (λ a, forallb (λ b, Bool.eqb (isPrivateIP [a; b; 0; 0]) (private4 a b)) (seqZ 0 256)) (seqZ 0 256) = true.
Proof. vm_compute. reflexivity. Qed.
(** The ranges of the code in numbers, also for an address written in sixteen bytes. *)
Lemma isPrivateIP_v4 a b c d : 0 ≤ a < 256 → 0 ≤ b < 256 →
  isPrivateIP [a; b; c; d] = private4 a b ∧ isPrivateIP (replicate 10 0 ++ [255; 255; a; b; c; d]) = private4 a b.
Proof.
  intros Ha Hb. assert (isPrivateIP [a; b; c; d] = private4 a b) as E; [|by split].
  assert (∀ x, 0 ≤ x < 256 → In x (seqZ 0 256)) as Hin by (intros x Hx; apply list_elem_of_In, elem_of_seqZ; lia).
  pose proof private4_table as Ht. rewrite forallb_forall in Ht. specialize (Ht a (Hin a Ha)). rewrite forallb_forall in Ht.
  rewrite <- (Bool.eqb_prop _ _ (Ht b (Hin b Hb))).
  unfold isPrivateIP, privateRanges, net_Contains, To4. simpl. by rewrite !Z.land_0_r.
Qed.

(** ** The command is read back *)

(** The words of a POSIX shell: blanks separate, single quotes keep everything
    up to the next one, a backslash keeps the next character.  A character that
    means more to the shell ends the reading with [None]. *)
Inductive shell_mode : Type := Plain | Quoted | Escaped.
Definition plain_char (c : ascii) : bool :=
  header_char c && negb (existsb (Ascii.eqb c) ["!"; "#"; "$"; "&"; "'"; "*"; "`"; "|"; "~"]%char) || existsb (Ascii.eqb c) [":"; "/"; ","; "@"; "="]%char.
Definition more (c : ascii) (cur : option string) : option string := Some (default "" cur +:+ String c "").
Fixpoint shell_words (s : string) (mode : shell_mode) (cur : option string) : option (list string) :=
  match s with
  | EmptyString => match mode with Plain => Some (match cur with Some w => [w] | None => [] end) | _ => None end
  | String c s =>
      match mode with
      | Quoted => if Ascii.eqb c "'" then shell_words s Plain cur else shell_words s Quoted (more c cur)
      | Escaped => shell_words s Plain (more c cur)
      | Plain =>
          if Ascii.eqb c "'" then shell_words s Quoted (Some (default "" cur))
          else if Ascii.eqb c "\" then shell_words s Escaped cur
          else if Ascii.eqb c " " then match cur with Some w => cons w <$> shell_words s Plain None | None => shell_words s Plain None end
          else if plain_char c then shell_words s Plain (more c cur)
          else None
      end
  end.
Definition argv (command : string) : option (list string) := shell_words command Plain None.

(** What the options of the command mean. *)
Definition curl_arguments (L : lib) (c : HTTPRequestConfig) (reqURL : string) : list string :=
  ["curl"; "-X"; or_default "GET" (c_Method c)] ++
  match c_Auth c with
  | None => []
  | Some a =>
      if bool_decide (a_Type a = "bearer") then ["--header"; "Authorization: Bearer " +:+ a_Token a]
      else if bool_decide (a_Type a = "basic") then ["--user"; a_User a +:+ ":" +:+ a_Pass a]
      else if bool_decide (a_Type a = "apikey") && bool_decide (a_In a = "header") then ["--header"; a_Key a +:+ ": " +:+ a_Value a]
      else []
  end ++
  (c_Headers c ≫= λ h, if bool_decide (kv_Key h = "") then [] else ["-H"; kv_Key h +:+ ": " +:+ kv_Value h]) ++
  match c_Body c with
  | None => []
  | Some b =>
      if bool_decide (b_Content b = "") then []
      else if bool_decide (b_Type b = "json") || bool_decide (b_Type b = "raw") then ["-d"; b_Content b]
      else if bool_decide (b_Type b = "form-urlencoded") then
        match pairs_of L (b_Content b) with Some l => ["-d"; encode_form L (set_all set_value l ∅)] | None => [] end
      else if bool_decide (b_Type b = "binary") then ["--data-binary"; b_Content b]
      else []
  end ++
  [curl_URL L (c_Auth c) reqURL].

Section words.
Lemma append_assoc' (a b c : string) : (a +:+ b) +:+ c = a +:+ b +:+ c.
Proof. symmetry. apply (assoc_L String.append). Qed.
Lemma append_one (c : ascii) (s t : string) : String c s +:+ t = String c (s +:+ t).
Proof. apply string_app_cons. Qed.

Lemma words_quoted s rest cur : shell_words (ReplaceAll "'" "'\''" s +:+ String "'" rest) Quoted cur =
  shell_words rest Plain (match s with "" => cur | _ => Some (default "" cur +:+ s) end).
Proof.
  revert cur. induction s as [|c s IH]; intros cur; [done|]. cbn [ReplaceAll]. destruct (Ascii.eqb_spec c "'") as [-> |Hc].
  - cbv iota. rewrite !append_assoc', !append_one. cbn. rewrite IH. f_equal. destruct s; simpl; [done|]. by rewrite append_assoc'.
  - cbv iota. rewrite !append_one. cbn [shell_words]. rewrite (proj2 (Ascii.eqb_neq _ _) Hc), IH. f_equal. destruct s; simpl; [done|]. by rewrite append_assoc'.
Qed.
Lemma words_escape s rest cur : shell_words (shellEscape s +:+ rest) Plain cur = shell_words rest Plain (Some (default "" cur +:+ s)).
Proof.
  unfold shellEscape. rewrite !append_assoc', !append_one. change ("" +:+ rest) with rest. change ("" +:+ ?x) with x. cbn [shell_words].
  change (Ascii.eqb "'" "'") with true. cbv iota. rewrite words_quoted. f_equal. destruct s; simpl; [by rewrite append_nil|done].
Qed.
Lemma words_plain s rest cur : all_chars plain_char s = true → s ≠ "" →
  shell_words (s +:+ rest) Plain cur = shell_words rest Plain (Some (default "" cur +:+ s)).
Proof.
  revert cur. induction s as [|c s IH]; intros cur; [done|]. cbn [all_chars]. intros [Hc Hs]%andb_true_iff _. rewrite append_one. cbn [shell_words].
  destruct (Ascii.eqb_spec c "'") as [-> |]; [done|]. destruct (Ascii.eqb_spec c "\") as [-> |]; [done|]. destruct (Ascii.eqb_spec c " ") as [-> |]; [done|].
  rewrite Hc. destruct s as [|c' s]; [done|]. rewrite IH by done. f_equal. simpl. by rewrite append_assoc'.
Qed.

(** [p] is read as the words [ws], before the end or a blank. *)
Definition reads_as (p : string) (ws : list string) : Prop :=
  argv p = Some ws ∧ ∀ rest, argv (p +:+ String " " rest) = app ws <$> argv rest.
Lemma reads_word (p w : string) : (∀ rest cur, shell_words (p +:+ rest) Plain cur = shell_words rest Plain (Some (default "" cur +:+ w))) → reads_as p [w].
Proof. intros Hp. split; [unfold argv; by rewrite <- (append_nil p), Hp|]. intros rest. unfold argv. by rewrite Hp. Qed.
Lemma reads_escape s : reads_as (shellEscape s) [s].
Proof. apply reads_word. intros. apply words_escape. Qed.
Lemma reads_plain s : all_chars plain_char s = true → s ≠ "" → reads_as s [s].
Proof. intros. apply reads_word. intros. by apply words_plain. Qed.
Lemma reads_both p q ws vs : reads_as p ws → reads_as q vs → reads_as (p +:+ String " " q) (ws ++ vs).
Proof.
  intros [_ Hp] [Hq Hq']. split; [by rewrite Hp, Hq|]. intros rest. rewrite append_assoc'. rewrite append_one, Hp, Hq'.
  destruct (argv rest); simpl; [by rewrite app_assoc|done].
Qed.
Lemma reads_option flag s : all_chars plain_char flag = true → flag ≠ "" → reads_as (flag +:+ String " " (shellEscape s)) [flag; s].
Proof. intros Hf Hn. apply (reads_both flag _ [flag] [s]); [by apply reads_plain|apply reads_escape]. Qed.
Lemma reads_joined ps wss : Forall2 reads_as ps wss → ps ≠ [] → reads_as (String.concat " " ps) (concat wss).
Proof.
  induction 1 as [|p ws ps wss Hp Hps IH]; [done|]. intros _. destruct Hps as [|q vs ps wss Hq Hps].
  - simpl. by rewrite app_nil_r.
  - apply (reads_both p); [done|]. by apply IH.
Qed.
End words.

Section curl.
Variable L : lib.

Lemma reads_auth auth : ∃ wss, Forall2 reads_as (curl_auth auth) wss ∧ concat wss =
  match auth with
  | None => []
  | Some a =>
      if bool_decide (a_Type a = "bearer") then ["--header"; "Authorization: Bearer " +:+ a_Token a]
      else if bool_decide (a_Type a = "basic") then ["--user"; a_User a +:+ ":" +:+ a_Pass a]
      else if bool_decide (a_Type a = "apikey") && bool_decide (a_In a = "header") then ["--header"; a_Key a +:+ ": " +:+ a_Value a]
      else []
  end.
Proof.
  destruct auth as [a|]; [|by exists []]. unfold curl_auth. case_match; [|case_match; [|case_match; [|by exists []]]].
  - match goal with |- ∃ _, _ ∧ _ = ?ws => exists [ws] end. split; [by constructor; [by apply (reads_option "--header")|]|done].
  - exists [["--user"; a_User a +:+ ":" +:+ a_Pass a]]. split; [|done]. constructor; [|done].
    apply (reads_both "--user" _ ["--user"] [_]); [by apply reads_plain|]. apply reads_word. intros rest cur.
    rewrite !append_assoc', words_escape. rewrite append_one. change ("" +:+ ?x) with x. cbn [shell_words]. cbn [Ascii.eqb Bool.eqb plain_char].
    change (plain_char ":") with true. cbv iota. rewrite words_escape. f_equal. simpl. by rewrite !append_assoc'.
  - match goal with |- ∃ _, _ ∧ _ = ?ws => exists [ws] end. split; [by constructor; [by apply (reads_option "--header")|]|done].
Qed.
Lemma reads_headers l : ∃ wss, Forall2 reads_as (l ≫= curl_header) wss ∧ concat wss =
  (l ≫= λ h, if bool_decide (kv_Key h = "") then [] else ["-H"; kv_Key h +:+ ": " +:+ kv_Value h]).
Proof.
  induction l as [|h l (wss & Hw & Hc)]; [by exists []|]. cbn [mbind list_bind]. unfold curl_header at 1. case_bool_decide; [by exists wss|].
  eexists (_ :: wss). split; [constructor; [by apply (reads_option "-H")|done]|]. simpl. by rewrite Hc.
Qed.
Lemma reads_body body : ∃ wss, Forall2 reads_as (curl_body L body) wss ∧ concat wss =
  match body with
  | None => []
  | Some b =>
      if bool_decide (b_Content b = "") then []
      else if bool_decide (b_Type b = "json") || bool_decide (b_Type b = "raw") then ["-d"; b_Content b]
      else if bool_decide (b_Type b = "form-urlencoded") then
        match pairs_of L (b_Content b) with Some l => ["-d"; encode_form L (set_all set_value l ∅)] | None => [] end
      else if bool_decide (b_Type b = "binary") then ["--data-binary"; b_Content b]
      else []
  end.
Proof.
  destruct body as [b|]; [|by exists []]. unfold curl_body. repeat case_match; try (by exists []).
  all: match goal with |- ∃ _, _ ∧ _ = ?ws => exists [ws] end; split; [constructor; [|constructor]|done].
  - by apply (reads_option "-d").
  - by apply (reads_option "-d").
  - by apply (reads_option "--data-binary").
Qed.

(** C34: a shell reads the command that is shown as exactly the words its options
    mean, whatever quotes and other characters are in the values, when the
    method has none that means something to a shell. *)
Theorem curl_is_read_back c s : all_chars plain_char (or_default "GET" (c_Method c)) = true → GenerateCurl L c = Some s →
  ∃ url, buildURL L (c_URL c) (c_Params c) = Some url ∧ argv s = Some (curl_arguments L c url).
Proof.
  intros Hm. unfold GenerateCurl. destruct (buildURL _ _ _) as [url|]; [|done]. simpl. intros [= <-]. exists url. split; [done|].
  destruct (reads_auth (c_Auth c)) as (w1 & H1 & E1), (reads_headers (c_Headers c)) as (w2 & H2 & E2), (reads_body (c_Body c)) as (w3 & H3 & E3).
  assert (reads_as ("-X " +:+ or_default "GET" (c_Method c)) ["-X"; or_default "GET" (c_Method c)]) as Hx.
  { apply (reads_both "-X" _ ["-X"] [_]); [by apply reads_plain|]. apply reads_plain; [done|]. unfold or_default. by case_bool_decide. }
  destruct (reads_joined (["curl"; "-X " +:+ or_default "GET" (c_Method c)] ++ curl_auth (c_Auth c) ++ (c_Headers c ≫= curl_header) ++
     curl_body L (c_Body c) ++ [shellEscape (curl_URL L (c_Auth c) url)])
    ([["curl"]; ["-X"; or_default "GET" (c_Method c)]] ++ w1 ++ w2 ++ w3 ++ [[curl_URL L (c_Auth c) url]])) as [Hr _]; [|done|].
  - repeat apply Forall2_app; try done; repeat constructor; try done; try apply reads_escape. all: try (by apply reads_plain); apply Hx.
  - etransitivity; [exact Hr|]. f_equal. unfold curl_arguments. rewrite !concat_app, E1, E2, E3. done.
Qed.
End curl.

(** ** Examples *)

(** URLs are host names here, numbers single digits, and the headers of the one
    answer are written as their name. *)
Definition in_quotes (s : string) : string := String "034" (s +:+ String "034" "").
Definition demo_parse_value (s : string) : option json :=
  if bool_decide (s = "headers") then Some (JObject [("Content-Type", JArray [JText "text/html"])])
  else if bool_decide (s = "body") then Some (JObject [("data", JObject [("id", JNumber "7"); ("next", JNil)])])
  else None.
Definition demo_marshal (v : json) : string := match v with JArray [JText s] => "[" +:+ in_quotes s +:+ "]" | _ => "{}" end.
Definition demo_lib : lib :=
  mkLib string (λ s, if bool_decide (s = "") then None else Some s) (λ u, u) (λ _, ∅) (λ u _, u) (λ u, u) (all_chars header_char) (λ _ s, Some s)
    (λ _, Some [mkKeyValue "k" "v"]) (λ _, "k=v") (λ _, ("parts", "multipart/form-data")) (λ s, Some s) (λ s, s)
    demo_parse_value (λ _, "bad") in_quotes demo_marshal (λ _, "headers") (λ a b, Some (String.ltb a b))
    (λ _ s, Some s) (λ _ _ h, h).
Lemma demo_lib_ok : lib_ok demo_lib.
Proof. split; [done|..]; intros; simpl in *; repeat case_bool_decide; congruence. Qed.
Definition demo_lookup (host : string) : option (list IP) :=
  if existsb (String.eqb host) ["api.example"; "moved.example"; "lure.example"] then Some [[93; 184; 216; 34]]
  else if bool_decide (host = "localhost") then Some [[127; 0; 0; 1]]
  else if bool_decide (host = "zero.example") then Some [[0; 0; 0; 0]; [100; 64; 0; 1]]
  else None.
Definition demo_Do (r : http_request demo_lib) : answer :=
  if bool_decide (h_URL demo_lib r = "moved.example") then Answer 302 {["Location" := ["api.example"]]} (Ok "")
  else if bool_decide (h_URL demo_lib r = "lure.example") then Answer 307 {["Location" := ["localhost"]]} (Ok "")
  else Answer 200 ∅ (Ok "body").
Definition demo_config (url script : string) : HTTPRequestConfig :=
  mkHTTPRequestConfig "GET" url [mkKeyValue "X-Who" "it's me"] [] None None script "" 0.
Definition sent_hosts (url script : string) : list string :=
  h_URL demo_lib <$> (Execute demo_lib false demo_lookup demo_Do (demo_config url script)).1.

Lemma Execute_contacts_checked_hosts_witness :
  sent_hosts "api.example" "" = ["api.example"] ∧ sent_hosts "localhost" "" = [] ∧
  sent_hosts "moved.example" "" = ["moved.example"; "api.example"] ∧
  (length (Execute demo_lib false demo_lookup demo_Do (demo_config "moved.example" "")).1 ≤ 10)%nat.
Proof.
  split; [vm_compute; reflexivity|]. split; [vm_compute; reflexivity|]. split; [vm_compute; reflexivity|].
  pose proof (Execute_contacts_checked_hosts demo_lib demo_lib_ok demo_lookup demo_Do (demo_config "moved.example" "") eq_refl) as H.
  destruct (Execute demo_lib false demo_lookup demo_Do (demo_config "moved.example" "")) as [sent r]. by destruct H as [H _].
Defined.
Lemma curl_is_read_back_witness :
  argv "curl -X GET -H 'X-Who: it'\''s me' 'api.example'" = Some ["curl"; "-X"; "GET"; "-H"; "X-Who: it's me"; "api.example"] ∧
  ∃ url, argv "curl -X GET -H 'X-Who: it'\''s me' 'api.example'" = Some (curl_arguments demo_lib (demo_config "api.example" "") url).
Proof.
  split; [vm_compute; reflexivity|].
  destruct (curl_is_read_back demo_lib (demo_config "api.example" "") "curl -X GET -H 'X-Who: it'\''s me' 'api.example'") as (url & _ & E);
    [vm_compute; reflexivity|vm_compute; reflexivity|]. by exists url.
Defined.

(** *** What the code lets happen *)

(** The check is made on the URL that is given, and the script replaces it: a
    private address is reached. *)
Lemma script_reaches_private_address : sent_hosts "api.example" "localhost" = ["localhost"].
Proof. vm_compute. reflexivity. Qed.
(** The check is made on the first host only, and redirects are followed: a
    server that answers with one makes the scheduler ask a private address,
    and its answer is shown. *)
Lemma redirect_reaches_private_address :
  sent_hosts "lure.example" "" = ["lure.example"; "localhost"] ∧
  (Execute demo_lib false demo_lookup demo_Do (demo_config "lure.example" "")).2 = Ok (mkHttpResult 200 "headers" "body" "").
Proof. vm_compute. done. Qed.
(** A server that redirects to itself is asked ten times. *)
Lemma redirect_loop_ends :
  let Loop (r : http_request demo_lib) := Answer 302 {["Location" := ["api.example"]]} (Ok "") in
  let '(sent, r) := Execute demo_lib false demo_lookup Loop (demo_config "api.example" "") in
  length sent = 10%nat ∧ r = Err (ERequest "stopped after 10 redirects").
Proof. vm_compute. done. Qed.
(** [0.0.0.0], which reaches the machine itself, shared addresses and the
    unspecified address of IPv6 are not private to the check. *)
Lemma unlisted_addresses : sent_hosts "zero.example" "" = ["zero.example"] ∧
  isPrivateIP [0; 0; 0; 0] = false ∧ isPrivateIP [100; 64; 0; 1] = false ∧ isPrivateIP (replicate 16 0) = false.
Proof. vm_compute. done. Qed.
(** The method is the only word that is not quoted. *)
Lemma method_not_quoted :
  GenerateCurl demo_lib (mkHTTPRequestConfig "GET; reboot;" "api.example" [] [] None None "" "" 0) = Some "curl -X GET; reboot; 'api.example'" ∧
  argv "curl -X GET; reboot; 'api.example'" = None.
Proof. vm_compute. done. Qed.
(** A header is a JSON array when it is compared, so that no header equals its
    value; and the value null exists. *)
Lemma header_never_equals_value :
  let r := result_of demo_lib 200 ∅ "body" in
  ar_Passed (run_assertion demo_lib r (mkAssertionConfig "header" "content-type" "equals" "text/html")) = false ∧
  ar_Actual (run_assertion demo_lib r (mkAssertionConfig "header" "content-type" "equals" "text/html")) = "[" +:+ in_quotes "text/html" +:+ "]" ∧
  ar_Passed (run_assertion demo_lib r (mkAssertionConfig "json_path" "data.next" "exists" "")) = true ∧
  ar_Passed (run_assertion demo_lib r (mkAssertionConfig "json_path" "data..id." "equals" "7")) = true.
Proof. vm_compute. done. Qed.
(** An API key without a place is sent as a header, and the command leaves it
    out, like the content type of a JSON body and the parts of a form. *)
Lemma command_is_not_the_request :
  let auth := mkHTTPAuthConfig "apikey" "" "" "" "X-Key" "secret" "" in
  let c body := mkHTTPRequestConfig "POST" "api.example" [] [] (Some body) (Some auth) "" "" 0 in
  (h_Headers demo_lib <$> (Execute demo_lib false demo_lookup demo_Do (c (mkHTTPBodyConfig "json" "[1]"))).1) =
    [<["X-Key" := "secret"]> {["Content-Type" := "application/json"]}] ∧
  GenerateCurl demo_lib (c (mkHTTPBodyConfig "json" "[1]")) = Some "curl -X POST -d '[1]' 'api.example'" ∧
  (h_Body demo_lib <$> (Execute demo_lib false demo_lookup demo_Do (c (mkHTTPBodyConfig "form-multipart" "[]"))).1) = [Some "parts"] ∧
  GenerateCurl demo_lib (c (mkHTTPBodyConfig "form-multipart" "[]")) = Some "curl -X POST 'api.example'".
Proof. vm_compute. done. Qed.

(** *** Assertions *)

(** One result for each assertion, in order, and what it found decides. *)
Lemma ExecuteAssertions_spec L r l i a : l !! i = Some a →
  ∃ x, ExecuteAssertions L r l !! i = Some x ∧ ar_Assertion x = a ∧ length (ExecuteAssertions L r l) = length l ∧
    (ar_Passed x = true ↔ ∃ v, extractActualValue L r a = Ok v ∧ (compareValues L (as_Operator a) v (as_Expected a)).1 = true).
Proof.
  intros Hi. exists (run_assertion L r a). unfold ExecuteAssertions. rewrite list_lookup_fmap, Hi. split_and!; [done| |by rewrite length_map|].
  - unfold run_assertion. destruct (extractActualValue L r a) as [v|e]; [|done]. by destruct (compareValues _ _ _ _).
  - unfold run_assertion. destruct (extractActualValue L r a) as [v|e]; [|split; [done|by intros (v & ? & _)]].
    destruct (compareValues L (as_Operator a) v (as_Expected a)) as [p m] eqn:E. simpl. split.
    + intros ->. exists v. by rewrite E.
    + intros (v' & [= <-] & Hc). by rewrite E in Hc.
Qed.
(** The operators of a pair exclude each other, and are the other's negation
    where a value can be compared. *)
Lemma operators_exclude L actual expected : (∀ x y, less L x y = Some true → less L y x = Some true → False) →
  (compareValues L "equals" actual expected).1 = negb (compareValues L "not_equals" actual expected).1 ∧
  ((compareValues L "gt" actual expected).1 = true → (compareValues L "lt" actual expected).1 = true → False).
Proof.
  intros Hl. split; [unfold compareValues; simpl; by destruct (bool_decide (actual = expected))|]. unfold compareValues. simpl. unfold compare_numbers.
  destruct (less L expected actual) as [[]|] eqn:E1; [|done..]. destruct (less L actual expected) as [[]|] eqn:E2; [|done..].
  intros _ _. by apply (Hl expected actual).
Qed.
