(* ===== verification/Proto.v ===== *)
(** * Reading protocol files

    [ParseProto] and [extractBlock] of
    [src/scheduler/internal/service/proto_service.go]: package, messages and
    services are looked for with regular expressions.  In each of them the classes
    that follow one another have no character in common, so that the leftmost
    match is found by taking the longest run of each class. *)
From Stdlib Require Import Ascii.
From S2P Require Import Prelude Text.

(** ** Regular expressions *)

(** [\w] *)
Definition re_word (c : ascii) : bool := is_digit c || between 65 90 c || between 97 122 c || Ascii.eqb c "_".
(** [[\w.]] *)
Definition re_name (c : ascii) : bool := re_word c || Ascii.eqb c ".".
Fixpoint run_of (p : ascii → bool) (s : string) : string * string :=
  match s with
  | String c s' => if p c then let '(a, b) := run_of p s' in (String c a, b) else ("", s)
  | EmptyString => ("", "")
  end.
Fixpoint literal (l s : string) : option string :=
  match l, s with
  | EmptyString, _ => Some s
  | String c l, String d s => if Ascii.eqb c d then literal l s else None
  | _, EmptyString => None
  end.
Definition spaces0 (s : string) : string := (run_of re_space s).2.
Definition spaces1 (s : string) : option string := match run_of re_space s with ("", _) => None | (_, rest) => Some rest end.
Definition some_of (p : ascii → bool) (s : string) : option (string * string) :=
  match run_of p s with ("", _) => None | r => Some r end.

(** [FindAll]: the matches from left to right, each after the one before. *)
Fixpoint find_all {A} (m : string → option (A * string)) (fuel : nat) (s : string) : list (A * string) :=
  match fuel with
  | O => []
  | S fuel =>
      match m s with
      | Some (a, rest) => (a, rest) :: find_all m fuel rest
      | None => match s with EmptyString => [] | String _ s => find_all m fuel s end
      end
  end.
Definition FindAll {A} (m : string → option (A * string)) (s : string) : list (A * string) := find_all m (S (String.length s)) s.

Definition pkgRe (s : string) : option (string * string) := s ← literal "package" s; s ← spaces1 s; some_of re_name s.
Definition msgRe (s : string) : option (string * string) := s ← literal "message" s; s ← spaces1 s; some_of re_word s.
Definition svcRe (s : string) : option (string * string) :=
  s ← literal "service" s; s ← spaces1 s; '(name, s) ← some_of re_word s; s ← literal "{" (spaces0 s); Some (name, s).
Record ProtoMethod : Type := mkProtoMethod { m_Name : string; InputType : string; OutputType : string }.
Definition in_parentheses (s : string) : option (string * string) :=
  s ← literal "(" s; '(t, s) ← some_of re_name (spaces0 s); s ← literal ")" (spaces0 s); Some (t, s).
Definition methodRe (s : string) : option (ProtoMethod * string) :=
  s ← literal "rpc" s; s ← spaces1 s; '(name, s) ← some_of re_word s; '(input, s) ← in_parentheses (spaces0 s);
  s ← literal "returns" (spaces0 s); '(output, s) ← in_parentheses (spaces0 s); Some (mkProtoMethod name input output, s).

(** ** [ParseProto] *)

(** The text after an opening brace, to the brace after which as many are
    closed as were opened in it. *)
Fixpoint extract_block (depth : Z) (s : string) : string :=
  match s with
  | EmptyString => EmptyString
  | String c s =>
      if Ascii.eqb c "{" then String c (extract_block (depth + 1) s)
      else if Ascii.eqb c "}" then if depth - 1 =? 0 then String c "" else String c (extract_block (depth - 1) s)
      else String c (extract_block depth s)
  end.
Definition extractBlock (content : string) : string := extract_block 0 content.

Record ProtoService : Type := mkProtoService { v_Name : string; v_Methods : list ProtoMethod }.
Record ProtoParseResult : Type := mkProtoParseResult { Package : string; Services : list ProtoService; Messages : list string }.
Definition ParseProto (content : string) : ProtoParseResult :=
  mkProtoParseResult (match FindAll pkgRe content with (p, _) :: _ => p | [] => "" end)
    ((λ m, mkProtoService m.1 (fst <$> FindAll methodRe (extractBlock m.2))) <$> FindAll svcRe content)
    (fst <$> FindAll msgRe content).

(** ** Facts *)

Lemma literal_shorter l s rest : literal l s = Some rest → (String.length rest + String.length l = String.length s)%nat.
Proof.
  revert s. induction l as [|c l IH]; intros s; simpl; [intros [= <-]; lia|]. destruct s as [|d s]; [done|].
  destruct (Ascii.eqb c d); [|done]. intros E%IH. simpl. lia.
Qed.
Lemma run_shorter p s : (String.length (run_of p s).2 ≤ String.length s)%nat.
Proof. induction s as [|c s IH]; simpl; [lia|]. destruct (p c); [|simpl; lia]. destruct (run_of p s). simpl in *. lia. Qed.
Lemma some_shorter p s a rest : some_of p s = Some (a, rest) → (String.length rest ≤ String.length s)%nat.
Proof. unfold some_of. pose proof (run_shorter p s) as Hr. destruct (run_of p s) as [[|c r] b]; [done|]. intros [= <- <-]. done. Qed.
Lemma spaces1_shorter s rest : spaces1 s = Some rest → (String.length rest ≤ String.length s)%nat.
Proof. unfold spaces1. pose proof (run_shorter re_space s) as Hr. destruct (run_of re_space s) as [[|c r] b]; [done|]. by intros [= <-]. Qed.

(** A match that takes a character: the fuel of [FindAll] is enough, more of it
    changes nothing. *)
Definition progresses {A} (m : string → option (A * string)) : Prop :=
  ∀ s a rest, m s = Some (a, rest) → (String.length rest < String.length s)%nat.
Lemma find_all_enough {A} (m : string → option (A * string)) : progresses m → ∀ s n n',
  (String.length s < n)%nat → (String.length s < n')%nat → find_all m n s = find_all m n' s.
Proof.
  intros Hm s n. revert s. induction n as [|n IH]; intros s n' Hn Hn'; [lia|]. destruct n' as [|n']; [lia|]. simpl.
  destruct (m s) as [[a rest]|] eqn:E.
  - apply Hm in E. f_equal. apply IH; lia.
  - destruct s as [|c s]; [done|]. simpl in Hn, Hn'. apply IH; lia.
Qed.
(** Every step of a match only drops characters, and the first word some. *)
Ltac shorter :=
  repeat match goal with
         | H : literal _ _ = Some _ |- _ => apply literal_shorter in H; simpl in H
         | H : spaces1 _ = Some _ |- _ => apply spaces1_shorter in H
         | H : some_of _ _ = Some (_, _) |- _ => apply some_shorter in H
         end; unfold spaces0 in *;
  repeat match goal with
         | H : context [(run_of re_space ?s).2] |- _ =>
             lazymatch goal with
             | _ : (String.length (run_of re_space s).2 ≤ String.length s)%nat |- _ => fail
             | _ => pose proof (run_shorter re_space s)
             end
         end; lia.
Ltac steps := repeat match goal with
  | H : (_ ≫= _) = Some _ |- _ => apply bind_Some in H as (? & ? & H)
  | H : (let '(_, _) := ?x in _) = Some _ |- _ => destruct x
  | H : Some _ = Some _ |- _ => injection H as ? ?; subst
  end.
Lemma in_parentheses_shorter s a rest : in_parentheses s = Some (a, rest) → (String.length rest ≤ String.length s)%nat.
Proof. unfold in_parentheses. intros H. steps. shorter. Qed.
Lemma pkgRe_progresses : progresses pkgRe.
Proof. intros s a rest H. unfold pkgRe in H. steps. shorter. Qed.
Lemma msgRe_progresses : progresses msgRe.
Proof. intros s a rest H. unfold msgRe in H. steps. shorter. Qed.
Lemma svcRe_progresses : progresses svcRe.
Proof. intros s a rest H. unfold svcRe in H. steps. shorter. Qed.
Lemma methodRe_progresses : progresses methodRe.
Proof.
  intros s a rest H. unfold methodRe in H. steps.
  repeat match goal with H : in_parentheses _ = Some _ |- _ => apply in_parentheses_shorter in H end. shorter.
Qed.

(** The block never goes beyond the text, and ends at the first brace that closes
    what was opened in it. *)
Lemma extract_block_prefix depth s : ∃ rest, s = extract_block depth s +:+ rest.
Proof.
  revert depth. induction s as [|c s IH]; intros depth; [by exists ""|]. simpl. repeat case_match.
  - destruct (IH (depth + 1)) as [rest E]. exists rest. rewrite string_app_cons. by rewrite <- E.
  - exists s. by rewrite string_app_cons.
  - destruct (IH (depth - 1)) as [rest E]. exists rest. rewrite string_app_cons. by rewrite <- E.
  - destruct (IH depth) as [rest E]. exists rest. rewrite string_app_cons. by rewrite <- E.
Qed.

(** ** What is found *)
Definition two_services : string :=
  "package demo.v1; service A { rpc Get (GetReq) returns (GetRes); } service B { rpc Put(demo.PutReq) returns (PutRes); } message GetReq {}".
(** Without braces after its calls a service ends nowhere: the calls of the
    services that follow are taken for its own. *)
Lemma calls_of_other_service :
  (λ v, (v_Name v, m_Name <$> v_Methods v)) <$> Services (ParseProto two_services) = [("A", ["Get"; "Put"]); ("B", ["Put"])] ∧
  Package (ParseProto two_services) = "demo.v1" ∧ Messages (ParseProto two_services) = ["GetReq"].
Proof. vm_compute. done. Qed.
(** With braces after them it ends after the first call; a call that streams is
    not found at all, and what a comment says is. *)
Lemma calls_are_lost :
  (λ v, m_Name <$> v_Methods v) <$>
    Services (ParseProto "service A { rpc One (R) returns (R) {} rpc Two (R) returns (R) {} }") = [["One"]] ∧
  (λ v, m_Name <$> v_Methods v) <$> Services (ParseProto "service A { rpc One (stream R) returns (R); }") = [[]] ∧
  Messages (ParseProto "// one message is enough") = ["is"].
Proof. vm_compute. done. Qed.
