(* ===== verification/Lab.v ===== *)
(** * Certificates and protocol files

    What a user keeps for tests of interfaces:
    [src/scheduler/internal/service/certificate_service.go], [proto_service.go],
    [src/scheduler/internal/handler/certificate.go], [proto_file.go] and
    [common.go].  The state [lab] also has the tests and their results, which
    are in [ApiTest].  Names of users are looked up by the parameter
    [real_name]; the reader of protocol files is [Proto]. *)
From Stdlib Require Import Ascii.
From S2P Require Import Prelude Sql Text TaskHandler Webhook Proto.
From S2P Require Permission RsaUtil Crypto Executor.

(** ** Rows *)
Record Certificate : Type := mkCertificate {
  ce_ID : Z; ce_Name : string; CaCert : string; ClientCert : string; ClientKey : string; ce_CreatedBy : Z;
  ce_CreatedAt : Z; ce_UpdatedAt : Z;
}.
Record CertificateSummary : Type := mkCertificateSummary {
  cs_ID : Z; cs_Name : string; HasCACert : bool; HasClientCert : bool; HasClientKey : bool; cs_CreatedBy : Z;
  CreatedByName : string; cs_CreatedAt : Z; cs_UpdatedAt : Z;
}.
Record ProtoFile : Type := mkProtoFile {
  pf_ID : Z; pf_Name : string; pf_Content : string; FileHash : string; ParsedResult : string; Dependencies : string;
  pf_CreatedBy : Z; pf_CreatedAt : Z; pf_UpdatedAt : Z;
}.
Record ApiTest : Type := mkApiTest {
  at_ID : Z; at_Name : string; at_Type : string; at_Config : string; at_CreatedBy : Z; at_CreatedAt : Z; at_UpdatedAt : Z;
}.
Record ApiTestResult : Type := mkApiTestResult {
  re_ID : Z; re_TestID : Z; re_Type : string; re_StatusCode : Z; re_LatencyMs : Z; re_Headers : string; re_Body : string;
  re_Error : string; AssertionsResult : string; ExecutedBy : Z; re_CreatedAt : Z;
}.

Record lab : Type := mkLab {
  certs : table Certificate; protos : table ProtoFile; tests : table ApiTest; results : table ApiTestResult;
  lab_perms : Permission.db; now_ : Z;
}.
Definition set_certs (f : table Certificate → table Certificate) (d : lab) : lab :=
  mkLab (f (certs d)) (protos d) (tests d) (results d) (lab_perms d) (now_ d).
Definition set_protos (f : table ProtoFile → table ProtoFile) (d : lab) : lab :=
  mkLab (certs d) (f (protos d)) (tests d) (results d) (lab_perms d) (now_ d).
Definition set_tests (f : table ApiTest → table ApiTest) (d : lab) : lab :=
  mkLab (certs d) (protos d) (f (tests d)) (results d) (lab_perms d) (now_ d).
Definition set_results (f : table ApiTestResult → table ApiTestResult) (d : lab) : lab :=
  mkLab (certs d) (protos d) (tests d) (f (results d)) (lab_perms d) (now_ d).
Definition put_perms (p : Permission.db) (d : lab) : lab := mkLab (certs d) (protos d) (tests d) (results d) p (now_ d).

Inductive lab_error : Type := LabDB | LabNotFound | LabCrypto.

(** ** Calls *)
Definition read {A} (f : lab → A) : M lab (result lab_error A) := or_err LabDB (query f).
Definition change (f : lab → lab) : M lab (result lab_error unit) := or_err LabDB (exec f).
Definition change_checked {A} (f : lab → option (A * lab)) : M lab (result lab_error A) := or_err LabDB (exec_checked f).
(** A write that has met no row. *)
Definition met (n : Z) : M lab (result lab_error unit) := mret (if n =? 0 then Err LabNotFound else Ok tt).
Definition found {A} (o : option A) : M lab (result lab_error A) := mret match o with Some a => Ok a | None => Err LabNotFound end.

(** ** [common.go] *)

(** [extractUserID]: 0 when there is none. *)
Definition extractUserID (user : option Z) : Z := default 0 user.
Definition CodeForbidden : Z := 403.
Definition CodeQueryError : Z := 17001.
Definition Unauthorized {A} (message : string) : response A := Fail 401 message.
Definition Forbidden {A} (message : string) : response A := Fail CodeForbidden message.
Definition isSystemAdmin (userID : Z) : M lab (result Permission.error bool) := zoom lab_perms put_perms (Permission.IsSystemAdmin userID).
Definition checkOwnership {A} (user : option Z) (createdBy : Z) (k : M lab (response A)) : M lab (response A) :=
  let userID := extractUserID user in
  if userID =? 0 then mret (Unauthorized "用户未登录")
  else if createdBy =? userID then k
  else
    isAdmin ← isSystemAdmin userID;
    match isAdmin with
    | Ok true => k
    | Ok false | Err _ => mret (Forbidden "无权访问该资源")
    end.
(** [strconv.ParseInt(c.Param("id"), 10, 64)] *)
Definition with_row_id {A} (message id : string) (k : Z → M lab (response A)) : M lab (response A) :=
  match ParseInt id with (n, true) => k n | (_, false) => mret (BadRequest message) end.
(** [isAdmin, _ := ...] *)
Definition admin_or_not (userID : Z) : M lab bool :=
  r ← isSystemAdmin userID; mret match r with Ok b => b | Err _ => false end.

(** The bounds of a page that every list of the services puts. *)
Definition page_bounds (page pageSize : Z) : Z * Z :=
  (if page <=? 0 then 1 else page, if pageSize <=? 0 then 20 else if 100 <? pageSize then 100 else pageSize).
Definition own_or_all {A} (creator : A → Z) (userID : Z) (isAdmin : bool) (x : A) : bool := isAdmin || (creator x =? userID).
(** [LIKE '%...%'] when there is something to look for. *)
Definition like_search (search s : string) : bool := bool_decide (search = "") || like ("%" +:+ search +:+ "%") s.
Definition newest_of {A} (at_ : A → Z) (x y : A) : bool := at_ y <=? at_ x.

(** The libraries, the gRPC executor and the names of users. *)
Record lab_lib : Type := mkLabLib {
  real_name : Z → string;
  file_hash : string → string;
  marshal_parsed : ProtoParseResult → string;
  marshal_ids : list Z → string;
  unmarshal_ids : string → option (list Z);
  read_time : string → Z;                 (** [parseDateTime] of a text *)
  write_time : Z → string;                (** the text that is stored for a time *)
  ReflectServices : string → string → option Certificate → result string string;
  GenerateFields : string → gmap string string → result string string;
  GenerateTemplate : string → gmap string string → string → string → result string string;
}.

Section lab.
Context `{RsaUtil.Rsa, Crypto.Aead}.
Variable lib : lab_lib.
Variable rsa : RsaUtil.RSAUtil.
(** The random bytes of an encryption: the AES key, the seed, the nonce. *)
Variable random : string * string * string.

(** ** [certificate_service.go] *)
Definition EncryptLarge (text : string) : result RsaUtil.rsa_error string := RsaUtil.EncryptLarge rsa random.1.1 random.1.2 random.2 text.
Definition same_name (c c' : Certificate) : bool := bool_decide (ce_Name c = ce_Name c') && (ce_CreatedBy c =? ce_CreatedBy c').
Definition insert_cert (c : Certificate) (clientKey : string) (d : lab) : option (Z * lab) :=
  if existsb (same_name c) (rows (certs d)) then None
  else Some (last_id (certs d) + 1,
    set_certs (insert_row (λ id, mkCertificate id (ce_Name c) (CaCert c) (ClientCert c) clientKey (ce_CreatedBy c) (now_ d) (now_ d))) d).
Definition cert_Create (c : Certificate) : M lab (result lab_error Z) :=
  match (if bool_decide (ClientKey c = "") then Ok "" else EncryptLarge (ClientKey c)) with
  | Err _ => mret (Err LabCrypto)
  | Ok clientKey => change_checked (insert_cert c clientKey)
  end.
Definition has_cert (id : Z) (c : Certificate) : bool := ce_ID c =? id.
Definition overwrite_cert (now : Z) (c : Certificate) (clientKey : option string) (x : Certificate) : Certificate :=
  mkCertificate (ce_ID x) (ce_Name c) (CaCert c) (ClientCert c) (default (ClientKey x) clientKey) (ce_CreatedBy x) (ce_CreatedAt x) now.
(** The name of a row must not be another one of the same creator. *)
Definition update_cert (id : Z) (c : Certificate) (clientKey : option string) (d : lab) : option (Z * lab) :=
  let others := where_ (λ x, negb (has_cert id x)) (rows (certs d)) in
  if existsb (λ x, has_cert id x && existsb (same_name (overwrite_cert 0 c None x)) others) (rows (certs d)) then None
  else Some (count (has_cert id) (rows (certs d)), set_certs (update_where (has_cert id) (overwrite_cert (now_ d) c clientKey)) d).
Definition cert_Update (id : Z) (c : Certificate) : M lab (result lab_error unit) :=
  match (if bool_decide (ClientKey c = "") then Ok None else match EncryptLarge (ClientKey c) with Ok k => Ok (Some k) | Err e => Err e end) with
  | Err _ => mret (Err LabCrypto)
  | Ok clientKey => n ←? change_checked (update_cert id c clientKey); met n
  end.
Definition cert_Delete (id : Z) : M lab (result lab_error unit) :=
  n ←? change_checked (λ d, Some (count (has_cert id) (rows (certs d)), set_certs (delete_where (has_cert id)) d)); met n.
Definition with_key (c : Certificate) (key : string) : Certificate :=
  mkCertificate (ce_ID c) (ce_Name c) (CaCert c) (ClientCert c) key (ce_CreatedBy c) (ce_CreatedAt c) (ce_UpdatedAt c).
Definition decrypted (c : Certificate) : result lab_error Certificate :=
  if bool_decide (ClientKey c = "") then Ok c
  else match (if Contains (ClientKey c) "." then RsaUtil.DecryptLarge rsa (ClientKey c) else RsaUtil.Decrypt rsa (ClientKey c)) with
       | Ok key => Ok (with_key c key)
       | Err _ => Err LabCrypto
       end.
Definition cert_GetByID (id : Z) : M lab (result lab_error Certificate) :=
  o ←? read (λ d, head (where_ (has_cert id) (rows (certs d))));
  c ←? found o;
  mret (decrypted c).
Definition nonempty (s : string) : bool := negb (bool_decide (s = "")).
Definition summary (c : Certificate) : CertificateSummary :=
  mkCertificateSummary (ce_ID c) (ce_Name c) (nonempty (CaCert c)) (nonempty (ClientCert c)) (nonempty (ClientKey c)) (ce_CreatedBy c)
    (real_name lib (ce_CreatedBy c)) (ce_CreatedAt c) (ce_UpdatedAt c).
Definition cert_rows (userID : Z) (isAdmin : bool) (search : string) (d : lab) : list Certificate :=
  where_ (λ c, own_or_all ce_CreatedBy userID isAdmin c && like_search search (ce_Name c)) (rows (certs d)).
Definition cert_ListByUser (userID : Z) (isAdmin : bool) (page pageSize : Z) (search : string) :
    M lab (result lab_error (list CertificateSummary * Z)) :=
  let '(page, pageSize) := page_bounds page pageSize in
  total ←? read (λ d, Z.of_nat (length (cert_rows userID isAdmin search d)));
  l ←? read (λ d, page_of page pageSize (order_by (newest_of ce_CreatedAt) (cert_rows userID isAdmin search d)));
  mret (Ok (summary <$> l, total)).

(** ** [handler/certificate.go] *)
Record CertRequest : Type := mkCertRequest { cq_Name : option string; cq_CaCert : option string; cq_ClientCert : option string; cq_ClientKey : option string }.
Definition h_cert_List (user : option Z) (page pageSize search : string) : M lab (response (list CertificateSummary * Z)) :=
  let userID := extractUserID user in
  if userID <=? 0 then mret (Unauthorized "未授权访问")
  else
    isAdmin ← admin_or_not userID;
    r ← cert_ListByUser userID isAdmin (page_number page) (page_limit pageSize) search;
    mret match r with Ok a => Success a | Err _ => Fail CodeQueryError "获取证书列表失败" end.
Definition h_cert_Create (user : option Z) (req : option CertRequest) : M lab (response Z) :=
  match req with
  | Some (mkCertRequest (Some name) ca cert key) =>
      if bool_decide (name = "") then mret (BadRequest "")
      else
        let userID := extractUserID user in
        if userID <=? 0 then mret (Unauthorized "未授权访问")
        else
          r ← cert_Create (mkCertificate 0 name (default "" ca) (default "" cert) (default "" key) userID 0 0);
          mret match r with Ok id => Success id | Err _ => Fail CodeQueryError "创建证书失败" end
  | _ => mret (BadRequest "")
  end.
Definition of_cert {A} (user : option Z) (id : Z) (k : Certificate → M lab (response A)) : M lab (response A) :=
  r ← cert_GetByID id;
  match r with
  | Err _ => mret (NotFound "证书不存在")
  | Ok c => checkOwnership user (ce_CreatedBy c) (k c)
  end.
(** The client key is masked. *)
Definition h_cert_Get (user : option Z) (id : string) : M lab (response Certificate) :=
  with_row_id "无效的证书ID" id (λ id, of_cert user id (λ c, mret (Success (with_key c "******")))).
(** A key that is not mentioned, empty or masked is left as it is. *)
Definition cert_changes (req : CertRequest) (c : Certificate) : Certificate :=
  mkCertificate (ce_ID c) (default (ce_Name c) (cq_Name req)) (default (CaCert c) (cq_CaCert req)) (default (ClientCert c) (cq_ClientCert req))
    (match cq_ClientKey req with Some k => if bool_decide (k = "") || bool_decide (k = "******") then "" else k | None => "" end)
    (ce_CreatedBy c) (ce_CreatedAt c) (ce_UpdatedAt c).
Definition h_cert_Update (user : option Z) (id : string) (req : option CertRequest) : M lab (response unit) :=
  with_row_id "无效的证书ID" id (λ id,
    match req with
    | None => mret (BadRequest "")
    | Some req =>
        of_cert user id (λ c,
          r ← cert_Update id (cert_changes req c);
          mret match r with Ok _ => Success tt | Err _ => Fail CodeQueryError "更新证书失败" end)
    end).
Definition h_cert_Delete (user : option Z) (id : string) : M lab (response unit) :=
  with_row_id "无效的证书ID" id (λ id, of_cert user id (λ c,
    r ← cert_Delete id; mret match r with Ok _ => Success tt | Err _ => Fail CodeQueryError "删除证书失败" end)).

(** ** [proto_service.go] *)
Definition same_file (p p' : ProtoFile) : bool := bool_decide (pf_Name p = pf_Name p') && (pf_CreatedBy p =? pf_CreatedBy p').
Definition insert_proto (p : ProtoFile) (d : lab) : option (Z * lab) :=
  if existsb (same_file p) (rows (protos d)) then None
  else Some (last_id (protos d) + 1,
    set_protos (insert_row (λ id, mkProtoFile id (pf_Name p) (pf_Content p) (file_hash lib (pf_Content p)) (ParsedResult p)
      (if bool_decide (Dependencies p = "") then "[]" else Dependencies p) (pf_CreatedBy p) (now_ d) (now_ d))) d).
Definition proto_Create (p : ProtoFile) : M lab (result lab_error Z) := change_checked (insert_proto p).
Definition has_proto (id : Z) (p : ProtoFile) : bool := pf_ID p =? id.
Definition overwrite_proto (now : Z) (p x : ProtoFile) : ProtoFile :=
  mkProtoFile (pf_ID x) (pf_Name p) (pf_Content p) (file_hash lib (pf_Content p)) (ParsedResult p) (Dependencies p) (pf_CreatedBy x)
    (pf_CreatedAt x) now.
Definition update_proto (id : Z) (p : ProtoFile) (d : lab) : option (Z * lab) :=
  let others := where_ (λ x, negb (has_proto id x)) (rows (protos d)) in
  if existsb (λ x, has_proto id x && existsb (same_file (overwrite_proto 0 p x)) others) (rows (protos d)) then None
  else Some (count (has_proto id) (rows (protos d)), set_protos (update_where (has_proto id) (overwrite_proto (now_ d) p)) d).
Definition proto_Update (id : Z) (p : ProtoFile) : M lab (result lab_error unit) := n ←? change_checked (update_proto id p); met n.
Definition proto_Delete (id : Z) : M lab (result lab_error unit) :=
  n ←? change_checked (λ d, Some (count (has_proto id) (rows (protos d)), set_protos (delete_where (has_proto id)) d)); met n.
Definition proto_GetByID (id : Z) : M lab (result lab_error ProtoFile) := o ←? read (λ d, head (where_ (has_proto id) (rows (protos d)))); found o.
(** [scanProtoFile] takes the columns by place: the list has the name of the
    creator in front of the times, so that each time is read from the column
    before its own, and the creation time is taken for the name. *)
Record ProtoListed : Type := mkProtoListed { pl_file : ProtoFile; pl_CreatedByName : string }.
Definition scan_listed (p : ProtoFile) : ProtoListed :=
  let name := real_name lib (pf_CreatedBy p) in
  mkProtoListed
    (mkProtoFile (pf_ID p) (pf_Name p) (pf_Content p) (FileHash p) (ParsedResult p) (Dependencies p) (pf_CreatedBy p)
      (if bool_decide (name = "") then Executor.zero_time else read_time lib name) (pf_CreatedAt p))
    (write_time lib (pf_CreatedAt p)).
Definition proto_rows (userID : Z) (isAdmin : bool) (search : string) (d : lab) : list ProtoFile :=
  where_ (λ p, own_or_all pf_CreatedBy userID isAdmin p && like_search search (pf_Name p)) (rows (protos d)).
Definition proto_ListByUser (userID : Z) (isAdmin : bool) (page pageSize : Z) (search : string) : M lab (result lab_error (list ProtoListed * Z)) :=
  total ←? read (λ d, Z.of_nat (length (proto_rows userID isAdmin search d)));
  l ←? read (λ d, page_of page pageSize (order_by (newest_of pf_CreatedAt) (proto_rows userID isAdmin search d)));
  mret (Ok (scan_listed <$> l, total)).
Definition save_parsed (now : Z) (text : string) (x : ProtoFile) : ProtoFile :=
  mkProtoFile (pf_ID x) (pf_Name x) (pf_Content x) (FileHash x) text (Dependencies x) (pf_CreatedBy x) (pf_CreatedAt x) now.
Definition ParseAndSave (id : Z) : M lab (result lab_error unit) :=
  p ←? proto_GetByID id;
  change (λ d, set_protos (update_where (has_proto id) (save_parsed (now_ d) (marshal_parsed lib (ParseProto (pf_Content p))))) d).

(** ** [handler/proto_file.go] *)
Definition h_proto_List (user : option Z) (page pageSize search : string) : M lab (response (list ProtoListed * Z)) :=
  let userID := extractUserID user in
  if userID <=? 0 then mret (Unauthorized "未授权访问")
  else
    isAdmin ← admin_or_not userID;
    r ← proto_ListByUser userID isAdmin (page_number page) (page_limit pageSize) search;
    mret match r with Ok a => Success a | Err _ => Fail CodeQueryError "获取Proto文件列表失败" end.
Record ProtoRequest : Type := mkProtoRequest { pq_Name : option string; pq_Content : option string; pq_Dependencies : option (list Z) }.
Definition h_proto_Create (user : option Z) (req : option ProtoRequest) : M lab (response Z) :=
  match req with
  | Some (mkProtoRequest (Some name) (Some content) deps) =>
      if bool_decide (name = "") || bool_decide (content = "") then mret (BadRequest "")
      else
        r ← proto_Create (mkProtoFile 0 name content "" "" (match deps with Some (d :: ds) => marshal_ids lib (d :: ds) | _ => "[]" end)
              (extractUserID user) 0 0);
        match r with
        | Err _ => mret (Fail CodeQueryError "创建Proto文件失败")
        | Ok id => _ ← ParseAndSave id; mret (Success id)
        end
  | _ => mret (BadRequest "")
  end.
Definition of_proto {A} (user : option Z) (id : Z) (k : ProtoFile → M lab (response A)) : M lab (response A) :=
  r ← proto_GetByID id;
  match r with
  | Err _ => mret (NotFound "Proto文件不存在")
  | Ok p => checkOwnership user (pf_CreatedBy p) (k p)
  end.
Definition h_proto_Get (user : option Z) (id : string) : M lab (response ProtoFile) :=
  with_row_id "无效的Proto文件ID" id (λ id, of_proto user id (λ p, mret (Success p))).
Definition proto_changes (req : ProtoRequest) (p : ProtoFile) : ProtoFile :=
  mkProtoFile (pf_ID p) (default (pf_Name p) (pq_Name req)) (default (pf_Content p) (pq_Content req)) (FileHash p) (ParsedResult p)
    (match pq_Dependencies req with Some ds => marshal_ids lib ds | None => Dependencies p end) (pf_CreatedBy p) (pf_CreatedAt p) (pf_UpdatedAt p).
Definition h_proto_Update (user : option Z) (id : string) (req : option ProtoRequest) : M lab (response unit) :=
  with_row_id "无效的Proto文件ID" id (λ id,
    match req with
    | None => mret (BadRequest "")
    | Some req =>
        of_proto user id (λ p,
          r ← proto_Update id (proto_changes req p);
          match r with
          | Err _ => mret (Fail CodeQueryError "更新Proto文件失败")
          | Ok _ =>
              _ ← (if match pq_Content req with Some c => negb (bool_decide (c = pf_Content p)) | None => false end
                   then ParseAndSave id else mret (Ok tt));
              mret (Success tt)
          end)
    end).
Definition h_proto_Delete (user : option Z) (id : string) : M lab (response unit) :=
  with_row_id "无效的Proto文件ID" id (λ id,
    p ← proto_GetByID id;
    let userID := extractUserID user in
    isAdmin ← (if 0 <? userID then admin_or_not userID else mret false);
    let delete := r ← proto_Delete id; mret match r with Ok _ => Success tt | Err _ => Fail CodeQueryError "删除Proto文件失败" end in
    if isAdmin : bool then delete
    else match p with
         | Err _ => mret (NotFound "Proto文件不存在")
         | Ok p => if pf_CreatedBy p =? userID then delete else mret (Forbidden "无权删除该Proto文件")
         end).
Definition h_proto_Parse (content : option string) : M lab (response ProtoParseResult) :=
  mret match content with
       | Some content => if bool_decide (content = "") then BadRequest "" else Success (ParseProto content)
       | None => BadRequest ""
       end.
(** The certificate a request names, whoever's it is. *)
Definition with_cert {A} (certID : option Z) (failed : response A) (k : option Certificate → M lab (response A)) : M lab (response A) :=
  match certID with
  | Some id => if 0 <? id then r ← cert_GetByID id; match r with Ok c => k (Some c) | Err _ => mret failed end else k None
  | None => k None
  end.
Definition h_proto_Reflect (address tlsMode : string) (certID : option Z) : M lab (response string) :=
  if bool_decide (address = "") then mret (BadRequest "")
  else with_cert certID (Fail CodeQueryError "加载证书失败") (λ cert,
    mret match ReflectServices lib address (or_default "insecure" tlsMode) cert with
         | Ok s => Success s
         | Err _ => Fail CodeQueryError "gRPC反射失败"
         end).
(** The files a file depends on; those that cannot be read are left out. *)
Fixpoint load_dependencies (ids : list Z) (contents : gmap string string) : M lab (gmap string string) :=
  match ids with
  | [] => mret contents
  | id :: ids =>
      r ← proto_GetByID id;
      load_dependencies ids (match r with Ok p => <[pf_Name p := pf_Content p]> contents | Err _ => contents end)
  end.
Definition dependencies_of (p : ProtoFile) : M lab (gmap string string) :=
  if bool_decide (Dependencies p = "") then mret ∅
  else match unmarshal_ids lib (Dependencies p) with Some ids => load_dependencies ids ∅ | None => mret ∅ end.
Definition h_proto_Fields (id : Z) : M lab (response string) :=
  if id =? 0 then mret (BadRequest "")
  else
    r ← proto_GetByID id;
    match r with
    | Err _ => mret (Fail CodeQueryError "Proto文件不存在")
    | Ok p =>
        deps ← dependencies_of p;
        mret match GenerateFields lib (pf_Content p) deps with Ok s => Success s | Err _ => Fail CodeQueryError "生成字段定义失败" end
    end.
Definition h_proto_Template (id : Z) (service method : string) : M lab (response string) :=
  if (id =? 0) || bool_decide (service = "") || bool_decide (method = "") then mret (BadRequest "")
  else
    r ← proto_GetByID id;
    match r with
    | Err _ => mret (Fail CodeQueryError "Proto文件不存在")
    | Ok p =>
        deps ← dependencies_of p;
        mret match GenerateTemplate lib (pf_Content p) deps service method with Ok s => Success s | Err _ => Fail CodeQueryError "生成请求模板失败" end
    end.
End lab.
