(* ===== verification/ApiTest.v ===== *)
(** * Tests of interfaces and their results

    [src/scheduler/internal/service/api_test_service.go] and
    [src/scheduler/internal/handler/api_test_handler.go] over [HttpTest],
    [Lab] and the permission service; the gRPC executor is a parameter.  The
    requests of [lab_request] are those on the routes of tests, results,
    certificates and protocol files. *)
From Stdlib Require Import Ascii.
From S2P Require Import Prelude Sql Text TaskHandler Webhook Proto HttpTest Lab.
From S2P Require Permission RsaUtil Crypto Users World.

Record GRPCRequestConfig : Type := mkGRPCRequestConfig {
  g_Address : string; g_Service : string; g_Method : string; g_RequestBody : string; g_Metadata : list KeyValue; g_TLSMode : string;
  CertificateID : option Z; ProtoFileID : option Z; UseReflection : bool; g_Timeout : Z;
}.
(** What decodes the stored texts, and what runs a test. *)
Record runner : Type := mkRunner {
  http_lib : lib;
  allow_private : bool;
  LookupIP : string → option (list IP);
  RoundTrip : http_request http_lib → answer;
  latency : Z;
  parse_http : string → option HTTPRequestConfig;
  parse_grpc : string → option GRPCRequestConfig;
  assertions_of : string → list AssertionConfig;          (** as far as they can be decoded *)
  marshal_assertions : list AssertionResult → string;
  grpc_Execute : GRPCRequestConfig → string → gmap string string → option Certificate → result string ApiTestResult;
  grpc_ConnectTest : GRPCRequestConfig → option Certificate → result string ApiTestResult;
}.
Definition CodeApiTestNotFound : Z := 18001.
Definition CodeApiTestExecuteFailed : Z := 18002.

(** ** [api_test_service.go] *)
Definition same_test (t t' : ApiTest) : bool := bool_decide (at_Name t = at_Name t') && (at_CreatedBy t =? at_CreatedBy t').
Definition insert_test (t : ApiTest) (d : lab) : option (Z * lab) :=
  if existsb (same_test t) (rows (tests d)) then None
  else Some (last_id (tests d) + 1,
    set_tests (insert_row (λ id, mkApiTest id (at_Name t) (at_Type t) (at_Config t) (at_CreatedBy t) (now_ d) (now_ d))) d).
Definition Create (t : ApiTest) : M lab (result lab_error Z) := change_checked (insert_test t).
Definition has_test (id : Z) (t : ApiTest) : bool := at_ID t =? id.
Definition overwrite_test (now : Z) (t x : ApiTest) : ApiTest :=
  mkApiTest (at_ID x) (at_Name t) (at_Type t) (at_Config t) (at_CreatedBy x) (at_CreatedAt x) now.
Definition update_test (id : Z) (t : ApiTest) (d : lab) : option (Z * lab) :=
  let others := where_ (λ x, negb (has_test id x)) (rows (tests d)) in
  if existsb (λ x, has_test id x && existsb (same_test (overwrite_test 0 t x)) others) (rows (tests d)) then None
  else Some (count (has_test id) (rows (tests d)), set_tests (update_where (has_test id) (overwrite_test (now_ d) t)) d).
Definition Update (id : Z) (t : ApiTest) : M lab (result lab_error unit) := n ←? change_checked (update_test id t); met n.
Definition of_test_id (id : Z) (r : ApiTestResult) : bool := re_TestID r =? id.
(** Both statements are one transaction. *)
Definition Delete (id : Z) : M lab (result lab_error unit) :=
  n ←? change_checked (λ d, Some (count (has_test id) (rows (tests d)),
         set_tests (delete_where (has_test id)) (set_results (delete_where (of_test_id id)) d)));
  met n.
Definition GetByID (id : Z) : M lab (result lab_error ApiTest) := o ←? read (λ d, head (where_ (has_test id) (rows (tests d)))); found o.
Definition of_type (wanted type : string) : bool := bool_decide (wanted = "") || bool_decide (type = wanted).
Definition test_rows (userID : Z) (isAdmin : bool) (testType : string) (d : lab) : list ApiTest :=
  where_ (λ t, own_or_all at_CreatedBy userID isAdmin t && of_type testType (at_Type t)) (rows (tests d)).
Definition ListByUser (userID : Z) (isAdmin : bool) (testType : string) (page pageSize : Z) : M lab (result lab_error (list ApiTest * Z)) :=
  let '(page, pageSize) := page_bounds page pageSize in
  total ←? read (λ d, Z.of_nat (length (test_rows userID isAdmin testType d)));
  l ←? read (λ d, page_of page pageSize (order_by (newest_of at_CreatedAt) (test_rows userID isAdmin testType d)));
  mret (Ok (l, total)).
Definition maxStoredBodySize : Z := 100 * 1024.
Definition truncated (r : ApiTestResult) : ApiTestResult :=
  if maxStoredBodySize <? Z.of_nat (String.length (re_Body r)) then
    mkApiTestResult (re_ID r) (re_TestID r) (re_Type r) (re_StatusCode r) (re_LatencyMs r) (re_Headers r)
      (cut_body maxStoredBodySize (re_Body r) +:+ String "010" "... [truncated]") (re_Error r) (AssertionsResult r) (ExecutedBy r) (re_CreatedAt r)
  else r.
Definition saved_as (id now : Z) (r : ApiTestResult) : ApiTestResult :=
  mkApiTestResult id (re_TestID r) (re_Type r) (re_StatusCode r) (re_LatencyMs r) (re_Headers r) (re_Body r) (re_Error r)
    (AssertionsResult r) (ExecutedBy r) now.
Definition SaveResult (r : ApiTestResult) : M lab (result lab_error ApiTestResult) :=
  change_checked (λ d, Some (saved_as (last_id (results d) + 1) (now_ d) (truncated r),
    set_results (insert_row (λ id, saved_as id (now_ d) (truncated r))) d)).
Definition with_type (type : string) (r : ApiTestResult) : ApiTestResult :=
  mkApiTestResult (re_ID r) (re_TestID r) type (re_StatusCode r) (re_LatencyMs r) (re_Headers r) (re_Body r) (re_Error r)
    (AssertionsResult r) (ExecutedBy r) (re_CreatedAt r).
Definition result_rows (testID : Z) (d : lab) : list ApiTestResult := where_ (of_test_id testID) (rows (results d)).
Definition GetResults (testID page pageSize : Z) : M lab (result lab_error (list ApiTestResult * Z)) :=
  let '(page, pageSize) := page_bounds page pageSize in
  total ←? read (λ d, Z.of_nat (length (result_rows testID d)));
  l ←? read (λ d, page_of page pageSize (order_by (newest_of re_CreatedAt) (result_rows testID d)));
  mret (Ok ((λ r, with_type (or_default "http" (re_Type r)) r) <$> l, total)).
(** The test a result belongs to, if it is there. *)
Definition test_of (d : lab) (r : ApiTestResult) : option ApiTest := head (where_ (has_test (re_TestID r)) (rows (tests d))).
Definition has_status (status : string) (r : ApiTestResult) : bool :=
  if bool_decide (status = "success") then bool_decide (re_Error r = "")
  else if bool_decide (status = "error") then negb (bool_decide (re_Error r = ""))
  else true.
Definition user_rows (userID : Z) (isAdmin : bool) (resultType search status : string) (d : lab) : list ApiTestResult :=
  where_ (λ r, own_or_all ExecutedBy userID isAdmin r && of_type resultType (re_Type r) &&
            like_search search (match test_of d r with Some t => at_Name t | None => "" end) && has_status status r) (rows (results d)).
Record ListedResult : Type := mkListedResult { lr_Result : ApiTestResult; TestName : string; ExecutedByName : string }.
Definition listed (names : Z → string) (d : lab) (r : ApiTestResult) : ListedResult :=
  mkListedResult (with_type (or_default (match test_of d r with Some t => at_Type t | None => "" end) (re_Type r)) r)
    (match test_of d r with Some t => at_Name t | None => "" end) (names (ExecutedBy r)).
Definition ListResultsByUser (names : Z → string) (userID : Z) (isAdmin : bool) (resultType : string) (page pageSize : Z) (search status : string) :
    M lab (result lab_error (list ListedResult * Z)) :=
  let '(page, pageSize) := page_bounds page pageSize in
  total ←? read (λ d, Z.of_nat (length (user_rows userID isAdmin resultType search status d)));
  l ←? read (λ d, listed names d <$> page_of page pageSize (order_by (newest_of re_CreatedAt) (user_rows userID isAdmin resultType search status d)));
  mret (Ok (l, total)).
Definition has_result (id : Z) (r : ApiTestResult) : bool := re_ID r =? id.
Definition DeleteResult (id : Z) : M lab (result lab_error unit) :=
  n ←? change_checked (λ d, Some (count (has_result id) (rows (results d)), set_results (delete_where (has_result id)) d)); met n.
Definition GetResultByID (id : Z) : M lab (result lab_error ApiTestResult) :=
  o ←? read (λ d, head (where_ (has_result id) (rows (results d)))); found o.

Section handler.
Context `{RsaUtil.Rsa, Crypto.Aead}.
Variable lib : lab_lib.
Variable rsa : RsaUtil.RSAUtil.
Variable run : runner.

(** ** [api_test_handler.go] *)
Definition h_List (user : option Z) (testType page pageSize : string) : M lab (response (list ApiTest * Z)) :=
  let userID := extractUserID user in
  if userID =? 0 then mret (Unauthorized "用户未登录")
  else
    isAdmin ← admin_or_not userID;
    r ← ListByUser userID isAdmin testType (page_number page) (page_limit pageSize);
    mret match r with Ok a => Success a | Err _ => Fail CodeQueryError "获取接口测试列表失败" end.
Record TestRequest : Type := mkTestRequest { tq_Name : option string; tq_Type : option string; tq_Config : option string }.
Definition is_test_type (type : string) : bool := bool_decide (type = "http") || bool_decide (type = "grpc").
Definition h_Create (user : option Z) (req : option TestRequest) : M lab (response Z) :=
  match req with
  | Some (mkTestRequest (Some name) (Some type) config) =>
      if bool_decide (name = "") || bool_decide (type = "") then mret (BadRequest "")
      else if negb (is_test_type type) then mret (BadRequest "测试类型必须为 http 或 grpc")
      else
        let userID := extractUserID user in
        if userID =? 0 then mret (Unauthorized "用户未登录")
        else
          r ← Create (mkApiTest 0 name type (default "" config) userID 0 0);
          mret match r with Ok id => Success id | Err _ => Fail CodeQueryError "创建接口测试失败" end
  | _ => mret (BadRequest "")
  end.
Definition of_test {A} (message : string) (user : option Z) (id : Z) (k : ApiTest → M lab (response A)) : M lab (response A) :=
  r ← GetByID id;
  match r with
  | Err _ => mret (NotFound message)
  | Ok t => checkOwnership user (at_CreatedBy t) (k t)
  end.
Definition h_Get (user : option Z) (id : string) : M lab (response ApiTest) :=
  with_row_id "无效的测试ID" id (λ id, of_test "接口测试不存在" user id (λ t, mret (Success t))).
Definition h_Update (user : option Z) (id : string) (req : option TestRequest) : M lab (response unit) :=
  with_row_id "无效的测试ID" id (λ id,
    match req with
    | None => mret (BadRequest "")
    | Some req =>
        of_test "接口测试不存在" user id (λ t,
          if match tq_Type req with Some type => negb (is_test_type type) | None => false end then mret (BadRequest "测试类型必须为 http 或 grpc")
          else
            r ← Update id (mkApiTest (at_ID t) (default (at_Name t) (tq_Name req)) (default (at_Type t) (tq_Type req))
                  (default (at_Config t) (tq_Config req)) (at_CreatedBy t) (at_CreatedAt t) (at_UpdatedAt t));
            mret match r with Ok _ => Success tt | Err _ => Fail CodeQueryError "更新接口测试失败" end)
    end).
Definition h_Delete (user : option Z) (id : string) : M lab (response unit) :=
  with_row_id "无效的测试ID" id (λ id, of_test "接口测试不存在" user id (λ _,
    r ← Delete id; mret match r with Ok _ => Success tt | Err _ => Fail CodeQueryError "删除接口测试失败" end)).

Definition loadProtoContent (protoFileID : option Z) : M lab (string * gmap string string) :=
  match protoFileID with
  | None => mret ("", ∅)
  | Some id =>
      if id =? 0 then mret ("", ∅)
      else
        r ← proto_GetByID id;
        match r with
        | Err _ => mret ("", ∅)
        | Ok p => deps ← dependencies_of lib p; mret (pf_Content p, deps)
        end
  end.
Definition no_result (type : string) : ApiTestResult := mkApiTestResult 0 0 type 0 (latency run) "" "" "" "" 0 Executor.zero_time.
(** The requested assertions, or else those of the script. *)
Definition http_test (asked : list AssertionConfig) (c : HTTPRequestConfig) : result http_error ApiTestResult :=
  match (HttpTest.Execute (http_lib run) (allow_private run) (LookupIP run) (RoundTrip run) c).2 with
  | Err e => Err e
  | Ok r =>
      let assertions := match asked with [] => if bool_decide (c_PostScript c = "") then [] else assertions_of run (c_PostScript c) | _ => asked end in
      Ok (mkApiTestResult 0 0 "http" (hr_StatusCode r) (latency run) (hr_Headers r) (hr_Body r) (hr_Error r)
           (match assertions with [] => "" | _ => marshal_assertions run (ExecuteAssertions (http_lib run) r assertions) end) 0 Executor.zero_time)
  end.
(** Running a test: [bad] is the answer to a configuration that is none. *)
Definition run_http {A} (bad : response A) (config : string) (asked : list AssertionConfig) (k : ApiTestResult → M lab (response A)) : M lab (response A) :=
  match parse_http run config with
  | None => mret bad
  | Some c => match http_test asked c with Ok r => k r | Err _ => mret (Fail CodeApiTestExecuteFailed "HTTP请求执行失败") end
  end.
Definition run_grpc {A} (bad : response A) (config : string) (k : ApiTestResult → M lab (response A)) : M lab (response A) :=
  match parse_grpc run config with
  | None => mret bad
  | Some c =>
      with_cert rsa (CertificateID c) (Fail CodeApiTestExecuteFailed "加载证书失败") (λ cert,
        '(content, deps) ← loadProtoContent (ProtoFileID c);
        match grpc_Execute run c content deps cert with
        | Ok r => k (with_type "grpc" r)
        | Err _ => mret (Fail CodeApiTestExecuteFailed "gRPC请求执行失败")
        end)
  end.
Definition run_connect {A} (bad : response A) (config : string) (k : ApiTestResult → M lab (response A)) : M lab (response A) :=
  match parse_grpc run config with
  | None => mret bad
  | Some c =>
      with_cert rsa (CertificateID c) (Fail CodeApiTestExecuteFailed "加载证书失败") (λ cert,
        match grpc_ConnectTest run c cert with Ok r => k r | Err _ => mret (Fail CodeApiTestExecuteFailed "gRPC连接测试失败") end)
  end.
Definition run_by (testID userID : Z) (r : ApiTestResult) : ApiTestResult :=
  mkApiTestResult (re_ID r) testID (re_Type r) (re_StatusCode r) (re_LatencyMs r) (re_Headers r) (re_Body r) (re_Error r)
    (AssertionsResult r) userID (re_CreatedAt r).
(** A result that could not be saved is answered all the same, as it was cut. *)
Definition save_or_not (r : ApiTestResult) : M lab (response ApiTestResult) :=
  s ← SaveResult r; mret (Success match s with Ok s => s | Err _ => truncated r end).
Definition h_Execute (user : option Z) (type config : string) (save : option bool) (asked : list AssertionConfig) : M lab (response ApiTestResult) :=
  let userID := extractUserID user in
  if userID =? 0 then mret (Unauthorized "用户未登录")
  else if bool_decide (type = "") || bool_decide (config = "") then mret (BadRequest "")
  else
    let finish r :=
      match save with
      | Some true => save_or_not (run_by 0 userID r)
      | _ => mret (Success (run_by (re_TestID r) userID r))
      end in
    if bool_decide (type = "http") then run_http (BadRequest "无效的HTTP请求配置") config asked finish
    else if bool_decide (type = "grpc_connect_test") then run_connect (BadRequest "无效的gRPC请求配置") config finish
    else if bool_decide (type = "grpc") then run_grpc (BadRequest "无效的gRPC请求配置") config finish
    else mret (BadRequest "不支持的测试类型，必须为 http 或 grpc").
Definition h_ExecuteSaved (user : option Z) (id : string) (asked : list AssertionConfig) : M lab (response ApiTestResult) :=
  with_row_id "无效的测试ID" id (λ id,
    let userID := extractUserID user in
    if userID =? 0 then mret (Unauthorized "用户未登录")
    else
      of_test "接口测试不存在" user id (λ t,
        let finish r := save_or_not (run_by id userID r) in
        if bool_decide (at_Type t = "http") then run_http (Fail CodeApiTestExecuteFailed "解析HTTP请求配置失败") (at_Config t) asked finish
        else if bool_decide (at_Type t = "grpc") then run_grpc (Fail CodeApiTestExecuteFailed "解析gRPC请求配置失败") (at_Config t) finish
        else mret (BadRequest "不支持的测试类型"))).
Definition h_ListResults (user : option Z) (resultType search status page pageSize : string) : M lab (response (list ListedResult * Z)) :=
  let userID := extractUserID user in
  if userID =? 0 then mret (Unauthorized "用户未登录")
  else
    isAdmin ← admin_or_not userID;
    r ← ListResultsByUser (real_name lib) userID isAdmin resultType (page_number page) (page_limit pageSize) search status;
    mret match r with Ok a => Success a | Err _ => Fail CodeQueryError "获取执行历史失败" end.
Definition h_GetResults (user : option Z) (id page pageSize : string) : M lab (response (list ApiTestResult * Z)) :=
  with_row_id "无效的测试ID" id (λ id, of_test "测试用例不存在" user id (λ _,
    r ← GetResults id (page_number page) (page_limit pageSize);
    mret match r with Ok a => Success a | Err _ => Fail CodeQueryError "获取执行历史失败" end)).
(** A result of a test that cannot be read is deleted without a check. *)
Definition h_DeleteResult (user : option Z) (id : string) : M lab (response unit) :=
  with_row_id "无效的结果ID" id (λ id,
    r ← GetResultByID id;
    match r with
    | Err _ => mret (NotFound "执行结果不存在")
    | Ok r =>
        let delete := s ← DeleteResult id; mret match s with Ok _ => Success tt | Err _ => Fail CodeApiTestNotFound "删除执行结果失败" end in
        if 0 <? re_TestID r then
          t ← GetByID (re_TestID r);
          match t with Err _ => delete | Ok t => checkOwnership user (at_CreatedBy t) delete end
        else
          let userID := extractUserID user in
          isAdmin ← (if 0 <? userID then admin_or_not userID else mret false);
          if negb isAdmin && negb (ExecutedBy r =? userID) then mret (Forbidden "无权删除此执行结果") else delete
    end).
Definition h_GenerateCurl (c : option HTTPRequestConfig) : response string :=
  match c with
  | None => BadRequest ""
  | Some c => match GenerateCurl (http_lib run) c with Some s => Success s | None => Fail CodeApiTestExecuteFailed "生成curl命令失败" end
  end.
End handler.

(** ** Who changes what *)

(** Ids are positive, given once and below the counter. *)
Definition numbered {A} (key : A → Z) (t : table A) : Prop :=
  NoDup (key <$> rows t) ∧ 0 ≤ last_id t ∧ ∀ x, x ∈ rows t → 0 < key x ≤ last_id t.
(** From [t0] to [t] only rows of [u] have changed. *)
Definition kept {A} (key owner : A → Z) (u : Z) (t0 t : table A) : Prop :=
  numbered key t ∧ ∀ x, owner x ≠ u → x ∈ rows t ↔ x ∈ rows t0.

Section tables.
Context {A : Type} (key owner : A → Z) (u : Z).

Lemma numbered_same (t : table A) x y : numbered key t → x ∈ rows t → y ∈ rows t → key x = key y → x = y.
Proof.
  intros (Hn & _) Hx Hy Hk. apply list_elem_of_lookup in Hx as [i Hi]. apply list_elem_of_lookup in Hy as [j Hj].
  assert (i = j) as ->.
  { apply (NoDup_lookup (key <$> rows t) i j (key x) Hn); rewrite list_lookup_fmap; [by rewrite Hi|]. rewrite Hj. simpl. by rewrite Hk. }
  congruence.
Qed.
Lemma numbered_insert mk (t : table A) : (∀ id, key (mk id) = id) → numbered key t → numbered key (insert_row mk t).
Proof.
  intros Hmk (Hn & Hl & Hr). split_and!; simpl; [|lia|].
  - apply Users.NoDup_fmap_snoc; [done|]. intros y Hy. rewrite Hmk. specialize (Hr y Hy). lia.
  - intros x [Hx| ->%list_elem_of_singleton]%elem_of_app; [specialize (Hr x Hx); lia|rewrite Hmk; lia].
Qed.
Lemma numbered_delete p (t : table A) : numbered key t → numbered key (delete_where p t).
Proof. intros (Hn & Hl & Hr). split_and!; [by apply Users.NoDup_fmap_where|done|]. intros x [Hx _]%elem_of_where. by apply Hr. Qed.
Lemma kept_refl t : numbered key t → kept key owner u t t.
Proof. done. Qed.
Lemma rows_kept_insert mk t0 t : (∀ id, key (mk id) = id) → (∀ id, owner (mk id) = u) → kept key owner u t0 t → kept key owner u t0 (insert_row mk t).
Proof.
  intros Hmk Ho [Hn Hk]. split; [by apply numbered_insert|]. intros x Hx. rewrite <- Hk by done. simpl.
  rewrite elem_of_app, list_elem_of_singleton. split; [|by left]. intros [?| -> ]; [done|]. by rewrite Ho in Hx.
Qed.
Lemma rows_kept_delete p t0 t : (∀ x, x ∈ rows t → p x = true → owner x = u) → kept key owner u t0 t → kept key owner u t0 (delete_where p t).
Proof.
  intros Hp [Hn Hk]. split; [by apply numbered_delete|]. intros x Hx. rewrite <- Hk by done. simpl. rewrite elem_of_where.
  split; [by intros []|]. intros Hin. split; [done|]. destruct (p x) eqn:E; [|done]. by destruct Hx; apply Hp.
Qed.
Lemma rows_kept_update p f t0 t : (∀ x, key (f x) = key x ∧ owner (f x) = owner x) → (∀ x, x ∈ rows t → p x = true → owner x = u) →
  kept key owner u t0 t → kept key owner u t0 (update_where p f t).
Proof.
  intros Hf Hp [(Hd & Hl & Hr) Hk]. split.
  - split_and!; simpl; [|done|].
    + rewrite Users.fmap_update_where; [done|]. intros x _ _. apply Hf.
    + intros x [[Hx _]|(y & Hy & _ & ->)]%Users.elem_of_update_where; [by apply Hr|]. rewrite (proj1 (Hf y)). by apply Hr.
  - intros x Hx. rewrite <- Hk by done. simpl. split.
    + intros [[Hin _]|(y & Hy & Hpy & ->)]%Users.elem_of_update_where; [done|]. destruct Hx. rewrite (proj2 (Hf y)). by apply Hp.
    + intros Hin. apply list_elem_of_fmap. exists x. split; [|done]. destruct (p x) eqn:E; [|done]. by destruct Hx; apply Hp.
Qed.
End tables.

Section frames.
Variable u : Z.
(** Whether the tests of results can be relied on to be readable. *)
Variable readable : bool.
Variable d0 : lab.
Hypothesis not_admin : ¬ 0 < Permission.admin_count u (lab_perms d0).

(** A result that [u] may not delete: of a test of somebody else, or of no
    test and run by somebody else. *)
Definition guarded (r : ApiTestResult) : Prop :=
  (re_TestID r ≤ 0 ∧ ExecutedBy r ≠ u) ∨
  (readable = true ∧ ∃ t, t ∈ rows (tests d0) ∧ at_ID t = re_TestID r ∧ at_CreatedBy t ≠ u).
Record frame (d : lab) : Prop := {
  fr_certs : kept ce_ID ce_CreatedBy u (certs d0) (certs d);
  fr_protos : kept pf_ID pf_CreatedBy u (protos d0) (protos d);
  fr_tests : kept at_ID at_CreatedBy u (tests d0) (tests d);
  fr_numbered : numbered re_ID (results d);
  fr_results : ∀ r, r ∈ rows (results d0) → guarded r → r ∈ rows (results d);
  fr_perms : lab_perms d = lab_perms d0;
}.
Definition goes {A} (d : lab) (m : M lab A) : Prop := ∀ fs, frame (m d fs).2.1.

Lemma goes_ret {A} d (a : A) : frame d → goes d (mret a).
Proof. by intros Hd fs. Qed.
Lemma goes_bind {A B} d (m : M lab A) (k : A → M lab B) (Q : A → lab → Prop) :
  (∀ fs, frame (m d fs).2.1 ∧ Q (m d fs).1 (m d fs).2.1) → (∀ a d', frame d' → Q a d' → goes d' (k a)) → goes d (m ≫= k).
Proof. intros Hm Hk fs. rewrite run_bind. destruct (Hm fs) as [H1 H2]. destruct (m d fs) as [a [d' fs']]. by apply Hk. Qed.
Lemma goes_then {A B} d (m : M lab A) (k : A → M lab B) : goes d m → (∀ a d', frame d' → goes d' (k a)) → goes d (m ≫= k).
Proof. intros Hm Hk. apply (goes_bind d m k (λ _ _, True)); [by split; [apply Hm|]|]. intros a d' Hd _. by apply Hk. Qed.
Lemma goes_keeps {A B} d (m : M lab A) (k : A → M lab B) : (∀ P, preserves P m) → (∀ a, goes d (k a)) → goes d (m ≫= k).
Proof.
  intros Hm Hk fs. rewrite run_bind. pose proof (Hm (λ d', d' = d) d fs eq_refl) as Hd. destruct (m d fs) as [a [d' fs']]. simpl in Hd. subst d'. apply Hk.
Qed.
Lemma goes_answers {A B E} (e : E) d (m : M lab (result E A)) spec (k : result E A → M lab B) : answers e m spec →
  (∀ r, r = spec d ∨ r = Err e → goes d (k r)) → goes d (m ≫= k).
Proof. intros Hm Hk fs. rewrite run_bind. destruct (Hm d fs) as (fs' & [->|[-> _]] & _); apply Hk; auto. Qed.
Lemma goes_change {A} d (f : lab → option (A * lab)) : frame d → (∀ a d', f d = Some (a, d') → frame d') → goes d (change_checked f).
Proof.
  intros Hd Hf fs. unfold change_checked, or_err, exec_checked. rewrite !run_bind. unfold call.
  destruct (f d) as [[a d']|] eqn:E; destruct fs as [|[] fs]; simpl; try done; by apply (Hf a).
Qed.

(** [u] is no administrator, and the call that asks changes nothing. *)
Lemma isSystemAdmin_run d fs : frame d → ∃ r fs', isSystemAdmin u d fs = (r, (d, fs')) ∧ r ≠ Ok true ∧ (fs = [] → fs' = []).
Proof.
  intros Hd. unfold isSystemAdmin, zoom. destruct (Permission.IsSystemAdmin_answers u (lab_perms d) fs) as (fs' & Hr & Hnil).
  assert (put_perms (lab_perms d) d = d) as Hput by by destruct d.
  destruct Hr as [->|[-> _]]; eexists _, fs'; rewrite Hput; (split; [done|]); split; try done.
  intros [= E%Z.ltb_lt]. rewrite (fr_perms d Hd) in E. done.
Qed.
Lemma admin_or_not_run d fs : frame d → ∃ fs', admin_or_not u d fs = (false, (d, fs')) ∧ (fs = [] → fs' = []).
Proof.
  intros Hd. unfold admin_or_not. rewrite run_bind. destruct (isSystemAdmin_run d fs Hd) as (r & fs' & -> & Hr & Hnil).
  exists fs'. split; [|done]. by destruct r as [[]|].
Qed.
Lemma keeps_admin P : preserves P (isSystemAdmin u).
Proof.
  intros d fs HP. unfold isSystemAdmin, zoom. destruct (Permission.IsSystemAdmin_answers u (lab_perms d) fs) as (fs' & Hr & _).
  assert (put_perms (lab_perms d) d = d) as Hput by by destruct d. destruct Hr as [->|[-> _]]; simpl; by rewrite Hput.
Qed.
Lemma keeps_admin_or_not P : preserves P (admin_or_not u).
Proof. apply preserves_bind; [apply keeps_admin|intros r; apply preserves_ret]. Qed.
Lemma keeps_read {A} (f : lab → A) P : preserves P (read f).
Proof. apply preserves_bind; [by apply preserves_call|intros o; apply preserves_ret]. Qed.

Lemma goes_owned {A} user createdBy (k : M lab (response A)) d : extractUserID user = u → frame d →
  (createdBy = u → goes d k) → goes d (checkOwnership user createdBy k).
Proof.
  intros Hu Hd Hk. unfold checkOwnership. rewrite Hu. cbv zeta. case_match; [by apply goes_ret|].
  destruct (Z.eqb_spec createdBy u) as [E|E]; [by apply Hk|]. intros fs. rewrite run_bind.
  destruct (isSystemAdmin_run d fs Hd) as (r & fs' & -> & Hr & _). by destruct r as [[]|].
Qed.
Lemma GetByID_answers {A} (l : lab → list A) (p : A → bool) :
  answers LabDB (o ←? read (λ d, head (where_ p (l d))); found o) (λ d, match head (where_ p (l d)) with Some x => Ok x | None => Err LabNotFound end).
Proof. eapply answers_ext; [apply answers_bind; [apply answers_query|intros o; apply answers_ret]|done]. Qed.
Lemma cert_GetByID_answers `{RsaUtil.Rsa, Crypto.Aead} rsa id : answers LabDB (cert_GetByID rsa id)
  (λ d, match head (where_ (has_cert id) (rows (certs d))) with Some x => decrypted rsa x | None => Err LabNotFound end).
Proof.
  eapply answers_ext; [apply answers_bind; [apply answers_query|intros o; apply answers_bind; [apply answers_ret|intros c; apply answers_ret]]|].
  intros d. cbn beta iota. by destruct (head (where_ (has_cert id) (rows (certs d)))).
Qed.

(** The rows an id names belong to [u]. *)
Definition mine {A} (p : A → bool) (owner : A → Z) (t : table A) : Prop := ∀ x, x ∈ rows t → p x = true → owner x = u.
Lemma found_mine {A} (key owner : A → Z) id (t0 t : table A) x : kept key owner u t0 t →
  head (where_ (λ y, key y =? id) (rows t)) = Some x → owner x = u → mine (λ y, key y =? id) owner t.
Proof.
  intros [Hn _] Hx Ho y Hy Hid%Z.eqb_eq. apply head_Some_elem_of, elem_of_where in Hx as [Hx Hxid%Z.eqb_eq].
  by rewrite (numbered_same key t y x Hn Hy Hx) by congruence.
Qed.
End frames.

(** ** Requests *)
Inductive lab_request : Type :=
| LTests (testType page pageSize : string) | LTestCreate (req : option TestRequest) | LTest (id : string)
| LTestUpdate (id : string) (req : option TestRequest) | LTestDelete (id : string)
| LExecute (type config : string) (save : option bool) (asked : list AssertionConfig)
| LExecuteSaved (id : string) (asked : list AssertionConfig)
| LResults (resultType search status page pageSize : string) | LTestResults (id page pageSize : string) | LResultDelete (id : string)
| LCerts (page pageSize search : string) | LCertCreate (req : option CertRequest) | LCert (id : string)
| LCertUpdate (id : string) (req : option CertRequest) | LCertDelete (id : string)
| LProtos (page pageSize search : string) | LProtoCreate (req : option ProtoRequest) | LProto (id : string)
| LProtoUpdate (id : string) (req : option ProtoRequest) | LProtoDelete (id : string)
| LReflect (address tlsMode : string) (certID : option Z) | LFields (id : Z) | LTemplate (id : Z) (service method : string).
Definition serve_lab `{RsaUtil.Rsa, Crypto.Aead} (lib : lab_lib) (rsa : RsaUtil.RSAUtil) (run : runner) (random : string * string * string)
    (user : option Z) (q : lab_request) : M lab unit :=
  match q with
  | LTests type page size => _ ← h_List user type page size; mret tt
  | LTestCreate req => _ ← h_Create user req; mret tt
  | LTest id => _ ← h_Get user id; mret tt
  | LTestUpdate id req => _ ← h_Update user id req; mret tt
  | LTestDelete id => _ ← h_Delete user id; mret tt
  | LExecute type config save asked => _ ← h_Execute lib rsa run user type config save asked; mret tt
  | LExecuteSaved id asked => _ ← h_ExecuteSaved lib rsa run user id asked; mret tt
  | LResults type search status page size => _ ← h_ListResults lib user type search status page size; mret tt
  | LTestResults id page size => _ ← h_GetResults user id page size; mret tt
  | LResultDelete id => _ ← h_DeleteResult user id; mret tt
  | LCerts page size search => _ ← h_cert_List lib user page size search; mret tt
  | LCertCreate req => _ ← h_cert_Create rsa random user req; mret tt
  | LCert id => _ ← h_cert_Get rsa user id; mret tt
  | LCertUpdate id req => _ ← h_cert_Update rsa random user id req; mret tt
  | LCertDelete id => _ ← h_cert_Delete rsa user id; mret tt
  | LProtos page size search => _ ← h_proto_List lib user page size search; mret tt
  | LProtoCreate req => _ ← h_proto_Create lib user req; mret tt
  | LProto id => _ ← h_proto_Get user id; mret tt
  | LProtoUpdate id req => _ ← h_proto_Update lib user id req; mret tt
  | LProtoDelete id => _ ← h_proto_Delete user id; mret tt
  | LReflect address mode certID => _ ← h_proto_Reflect lib rsa address mode certID; mret tt
  | LFields id => _ ← h_proto_Fields lib id; mret tt
  | LTemplate id service method => _ ← h_proto_Template lib id service method; mret tt
  end.

Section requests.
Context `{RsaUtil.Rsa, Crypto.Aead}.
Variable lib : lab_lib.
Variable rsa : RsaUtil.RSAUtil.
Variable run : runner.
Variable random : string * string * string.
Variable user : option Z.
Notation u := (extractUserID user).
Variable readable : bool.
Variable d0 : lab.
Hypothesis not_admin : ¬ 0 < Permission.admin_count u (lab_perms d0).
Notation fr := (frame u readable d0).
Notation goes := (goes u readable d0).

(** *** The tables under their statements *)
Lemma fr_set_certs f d : (kept ce_ID ce_CreatedBy u (certs d0) (certs d) → kept ce_ID ce_CreatedBy u (certs d0) (f (certs d))) → fr d → fr (set_certs f d).
Proof. intros Hf []. split; simpl; auto. Qed.
Lemma fr_set_protos f d : (kept pf_ID pf_CreatedBy u (protos d0) (protos d) → kept pf_ID pf_CreatedBy u (protos d0) (f (protos d))) → fr d → fr (set_protos f d).
Proof. intros Hf []. split; simpl; auto. Qed.
Lemma fr_set_tests f d : (kept at_ID at_CreatedBy u (tests d0) (tests d) → kept at_ID at_CreatedBy u (tests d0) (f (tests d))) → fr d → fr (set_tests f d).
Proof. intros Hf []. split; simpl; auto. Qed.
Lemma fr_insert_result mk d : (∀ id, re_ID (mk id) = id) → fr d → fr (set_results (insert_row mk) d).
Proof.
  intros Hmk []. split; simpl; try done; [by apply numbered_insert|]. intros r Hr Hg. apply elem_of_app. left. auto.
Qed.
Lemma fr_delete_results p d : (∀ r, r ∈ rows (results d) → p r = true → r ∈ rows (results d0) → guarded u readable d0 r → False) → fr d → fr (set_results (delete_where p) d).
Proof.
  intros Hp [H1 H2 H3 H4 H5 H6]. split; simpl; try done; [by apply numbered_delete|]. intros r Hr Hg. apply elem_of_where. specialize (H5 r Hr Hg).
  split; [done|]. destruct (p r) eqn:E; [|done]. by destruct (Hp r H5 E Hr Hg).
Qed.

(** *** A row that is the user's own *)
Definition own_cert (id : Z) (d : lab) : Prop := mine u (has_cert id) ce_CreatedBy (certs d).
Definition own_proto (id : Z) (d : lab) : Prop := mine u (has_proto id) pf_CreatedBy (protos d).
Definition own_test (id : Z) (d : lab) : Prop := mine u (has_test id) at_CreatedBy (tests d) ∧ ∃ t, t ∈ rows (tests d) ∧ at_ID t = id.
Lemma goes_of_cert {A} id (k : Certificate → M lab (response A)) d : fr d → (∀ c, own_cert id d → goes d (k c)) → goes d (of_cert rsa user id k).
Proof.
  intros Hd Hk. eapply goes_answers; [apply cert_GetByID_answers|]. intros r Hr. destruct r as [c|e]; [|by apply goes_ret].
  apply goes_owned; try done. intros Hc. apply Hk. destruct Hr as [Hr|]; [|done].
  destruct (head (where_ (has_cert id) (rows (certs d)))) as [x|] eqn:E; [|done].
  apply (found_mine u ce_ID ce_CreatedBy id (certs d0) (certs d) x); [by apply fr_certs with (readable := readable)|done|].
  rewrite <- Hc. unfold decrypted in Hr. case_bool_decide; [by injection Hr as ->|]. destruct (if Contains _ _ then _ else _); [|done]. by injection Hr as ->.
Qed.
Lemma goes_of_proto {A} id (k : ProtoFile → M lab (response A)) d : fr d → (∀ p, own_proto id d → goes d (k p)) → goes d (of_proto user id k).
Proof.
  intros Hd Hk. eapply goes_answers; [apply GetByID_answers|]. intros r Hr. destruct r as [p|e]; [|by apply goes_ret].
  apply goes_owned; try done. intros Hc. apply Hk. destruct Hr as [Hr|]; [|done].
  destruct (head (where_ (has_proto id) (rows (protos d)))) as [x|] eqn:E; [|done]. injection Hr as ->.
  apply (found_mine u pf_ID pf_CreatedBy id (protos d0) (protos d) x); [by apply fr_protos with (readable := readable)|done|done].
Qed.
Lemma goes_of_test {A} message id (k : ApiTest → M lab (response A)) d : fr d → (∀ t, own_test id d → goes d (k t)) → goes d (of_test message user id k).
Proof.
  intros Hd Hk. eapply goes_answers; [apply GetByID_answers|]. intros r Hr. destruct r as [t|e]; [|by apply goes_ret].
  apply goes_owned; try done. intros Hc. apply Hk. destruct Hr as [Hr|]; [|done].
  destruct (head (where_ (has_test id) (rows (tests d)))) as [x|] eqn:E; [|done]. injection Hr as ->. split.
  - apply (found_mine u at_ID at_CreatedBy id (tests d0) (tests d) x); [by apply fr_tests with (readable := readable)|done|done].
  - exists x. by apply head_Some_elem_of, elem_of_where in E as [Hin ?%Z.eqb_eq].
Qed.
Lemma goes_answered {A B} d (m : M lab A) (f : A → B) : goes d m → goes d (r ← m; mret (f r)).
Proof. intros Hm. apply goes_then; [done|]. intros a d' Hd'. by apply goes_ret. Qed.
Lemma goes_met {A} d (m : M lab (result lab_error A)) (k : A → M lab (result lab_error unit)) :
  goes d m → (∀ a d', fr d' → goes d' (k a)) → goes d (bind_ok m k).
Proof. intros Hm Hk. apply goes_then; [done|]. intros [a|e] d' Hd'; [by apply Hk|by apply goes_ret]. Qed.
Lemma goes_with_id {A} d message id (k : Z → M lab (response A)) : fr d → (∀ n, goes d (k n)) → goes d (with_row_id message id k).
Proof. intros Hd Hk. unfold with_row_id. destruct (ParseInt id) as [n []]; [apply Hk|by apply goes_ret]. Qed.
Lemma goes_reads {A} d (m : M lab A) : fr d → (∀ P, preserves P m) → goes d m.
Proof. intros Hd Hm fs. by apply Hm. Qed.

(** *** Certificates *)
Lemma goes_cert_Create name ca cert key d : fr d → goes d (cert_Create rsa random (mkCertificate 0 name ca cert key u 0 0)).
Proof.
  intros Hd. unfold cert_Create. case_match; [|by apply goes_ret]. apply goes_change; [done|]. intros ? d'. unfold insert_cert.
  destruct (existsb _ _); [done|]. intros [= <- <-]. apply fr_set_certs; [|done]. by apply rows_kept_insert.
Qed.
Lemma goes_cert_Update id c d : own_cert id d → fr d → goes d (cert_Update rsa random id c).
Proof.
  intros Hm Hd. unfold cert_Update. case_match; [|by apply goes_ret]. apply goes_met; [|intros n d' Hd'; by apply goes_ret].
  apply goes_change; [done|]. intros ? d'. unfold update_cert.
  destruct (existsb _ _); [done|]. intros [= <- <-]. apply fr_set_certs; [|done]. by apply rows_kept_update.
Qed.
Lemma goes_cert_Delete id d : own_cert id d → fr d → goes d (cert_Delete id).
Proof.
  intros Hm Hd. apply goes_met; [|intros n d' Hd'; by apply goes_ret]. apply goes_change; [done|]. intros n d' [= <- <-].
  apply fr_set_certs; [|done]. by apply rows_kept_delete.
Qed.
(** *** Protocol files *)
Lemma goes_ParseAndSave id d : own_proto id d → fr d → goes d (ParseAndSave lib id).
Proof.
  intros Hm Hd. unfold ParseAndSave, bind_ok. eapply goes_answers; [apply GetByID_answers|]. intros [p|e] _; [|by apply goes_ret].
  intros fs. unfold change, or_err, exec. rewrite run_bind. unfold call.
  assert (fr (set_protos (update_where (has_proto id) (save_parsed (now_ d) (marshal_parsed lib (ParseProto (pf_Content p))))) d)) as Hf.
  { apply fr_set_protos; [|done]. by apply rows_kept_update. }
  by destruct fs as [|[] fs].
Qed.
Lemma goes_proto_Create name content deps d : fr d →
  goes d (r ← proto_Create lib (mkProtoFile 0 name content "" "" deps u 0 0);
    match r with Err _ => mret (Fail CodeQueryError "创建Proto文件失败") | Ok id => _ ← ParseAndSave lib id; mret (Success id) end).
Proof.
  intros Hd. apply (goes_bind _ _ _ _ _ _ (λ r d', ∀ id, r = Ok id → own_proto id d')).
  - intros fs. unfold proto_Create, change_checked, or_err, exec_checked. rewrite !run_bind. unfold call.
    destruct (insert_proto _ _ d) as [[id d']|] eqn:E; [|destruct fs as [|[] fs]; simpl; split; done].
    unfold insert_proto in E. destruct (existsb _ _); [done|]. injection E as <- <-.
    match goal with |- context [set_protos ?f d] => assert (fr (set_protos f d)) as Hf; [apply fr_set_protos; [by apply rows_kept_insert|done]|] end.
    assert (own_proto (last_id (protos d) + 1) (set_protos (insert_row (λ id, mkProtoFile id name content (file_hash lib content) ""
      (if bool_decide (deps = "") then "[]" else deps) u (now_ d) (now_ d))) d)) as Ho.
    { intros x Hx Hid%Z.eqb_eq. destruct (fr_protos _ _ _ _ Hd) as [(_ & _ & Hr) _]. simpl in Hx.
      apply elem_of_app in Hx as [Hx| ->%list_elem_of_singleton]; [|done]. specialize (Hr x Hx). lia. }
    destruct fs as [|[] fs]; simpl; (split; [done|]); intros i; try done; by intros [= <-].
  - intros [id|e] d' Hd' Hm; [|by apply goes_ret]. apply goes_then; [by apply goes_ParseAndSave; [apply Hm|]|]. intros x d2 Hd2. by apply goes_ret.
Qed.
Lemma goes_proto_Update id p d (b : bool) : own_proto id d → fr d →
  goes d (r ← proto_Update lib id p;
    match r with
    | Err _ => mret (Fail CodeQueryError "更新Proto文件失败")
    | Ok _ => _ ← (if b then ParseAndSave lib id else mret (Ok tt)); mret (Success tt)
    end).
Proof.
  intros Hm Hd. apply (goes_bind _ _ _ _ _ _ (λ _ d', own_proto id d')).
  - intros fs. unfold proto_Update, bind_ok, change_checked, or_err, exec_checked. rewrite !run_bind. unfold call.
    destruct (update_proto _ _ _ d) as [[n d']|] eqn:E; [|destruct fs as [|[] fs]; simpl; split; done].
    unfold update_proto in E. destruct (existsb _ _); [done|]. injection E as <- <-.
    match goal with |- context [set_protos ?f d] => assert (fr (set_protos f d)) as Hf; [apply fr_set_protos; [by apply rows_kept_update|done]|] end.
    match goal with |- context [set_protos ?f d] => assert (own_proto id (set_protos f d)) as Ho end.
    { intros x [[Hx Hp]|(y & Hy & Hp & ->)]%Users.elem_of_update_where Hid; [by rewrite Hp in Hid|]. simpl. by apply Hm. }
    destruct fs as [|[] fs]; simpl; split; done.
  - intros [n|e] d' Hd' Hm'; [|by apply goes_ret]. apply goes_then; [destruct b; [by apply goes_ParseAndSave|by apply goes_ret]|].
    intros x d2 Hd2. by apply goes_ret.
Qed.
Lemma goes_proto_Delete id d : own_proto id d → fr d → goes d (proto_Delete id).
Proof.
  intros Hm Hd. apply goes_met; [|intros n d' Hd'; by apply goes_ret]. apply goes_change; [done|]. intros n d' [= <- <-].
  apply fr_set_protos; [|done]. by apply rows_kept_delete.
Qed.
Lemma goes_h_proto_Delete id d : fr d → goes d (h_proto_Delete user id).
Proof.
  intros Hd. apply goes_with_id; [done|]. intros n. eapply goes_answers; [apply GetByID_answers|]. intros p Hp.
  intros fs. rewrite run_bind.
  assert (∃ fs', (if 0 <? u then admin_or_not u else mret false) d fs = (false, (d, fs'))) as (fs' & ->).
  { destruct (0 <? u); [|by exists fs]. destruct (admin_or_not_run u readable d0 not_admin d fs Hd) as (fs' & E & _). by exists fs'. }
  cbv beta iota zeta. revert fs'. change (goes d match p with Err _ => mret (NotFound "Proto文件不存在") | Ok p0 =>
    if pf_CreatedBy p0 =? u then r ← proto_Delete n; mret match r with Ok _ => Success tt | Err _ => Fail CodeQueryError "删除Proto文件失败" end
    else mret (Forbidden "无权删除该Proto文件") end).
  destruct p as [p|e]; [|by apply goes_ret]. destruct (Z.eqb_spec (pf_CreatedBy p) u) as [E|]; [|by apply goes_ret].
  apply goes_answered, goes_proto_Delete; [|done]. destruct Hp as [Hp|]; [|done]. destruct (head (where_ (has_proto n) (rows (protos d)))) as [x|] eqn:Ex; [|done].
  injection Hp as ->. apply (found_mine u pf_ID pf_CreatedBy n (protos d0) (protos d) x); [by apply fr_protos with (readable := readable)|done|done].
Qed.
(** *** Tests *)
Lemma goes_Create name type config d : fr d → goes d (Create (mkApiTest 0 name type config u 0 0)).
Proof.
  intros Hd. apply goes_change; [done|]. intros ? d'. unfold insert_test.
  destruct (existsb _ _); [done|]. intros [= <- <-]. apply fr_set_tests; [|done]. by apply rows_kept_insert.
Qed.
Lemma goes_Update id t d : own_test id d → fr d → goes d (Update id t).
Proof.
  intros [Hm _] Hd. apply goes_met; [|intros n d' Hd'; by apply goes_ret]. apply goes_change; [done|]. intros ? d'. unfold update_test.
  destruct (existsb _ _); [done|]. intros [= <- <-]. apply fr_set_tests; [|done]. by apply rows_kept_update.
Qed.
Lemma goes_Delete id d : own_test id d → fr d → goes d (Delete id).
Proof.
  intros [Hm (t & Ht & Hid)] Hd. apply goes_met; [|intros n d' Hd'; by apply goes_ret]. apply goes_change; [done|]. intros n d' [= <- <-].
  apply (fr_set_tests (delete_where (has_test id)) (set_results (delete_where (of_test_id id)) d)); [by apply rows_kept_delete|].
  apply fr_delete_results; [|done]. intros r _ Hr%Z.eqb_eq _. destruct (fr_tests _ _ _ _ Hd) as [(_ & _ & Hn) Hk].
  specialize (Hn t Ht). intros [[Hle _]|(_ & t' & Ht' & Hid' & Hc)]; [lia|]. apply Hc, Hm; [by apply Hk|]. apply Z.eqb_eq. congruence.
Qed.
Lemma goes_save r d : fr d → goes d (save_or_not r).
Proof.
  intros Hd. apply goes_answered, goes_change; [done|]. intros a d' [= <- <-]. by apply fr_insert_result.
Qed.

(** *** Running a test *)
Lemma keeps_found {A} (l : lab → list A) (p : A → bool) P : preserves P (o ←? read (λ d, head (where_ p (l d))); found o).
Proof. apply World.preserves_bind_ok; [apply keeps_read|intros o; apply preserves_ret]. Qed.
Lemma keeps_cert id P : preserves P (cert_GetByID rsa id).
Proof. apply World.preserves_bind_ok; [apply keeps_read|intros o]. apply World.preserves_bind_ok; intros; apply preserves_ret. Qed.
Lemma keeps_load ids m P : preserves P (load_dependencies ids m).
Proof.
  revert m. induction ids as [|id ids IH]; intros m; [apply preserves_ret|]. apply preserves_bind; [apply keeps_found|intros r]. apply IH.
Qed.
Lemma keeps_dependencies p P : preserves P (dependencies_of lib p).
Proof.
  unfold dependencies_of. case_bool_decide; [apply preserves_ret|]. destruct (unmarshal_ids _ _); [apply keeps_load|apply preserves_ret].
Qed.
Lemma keeps_proto_content id P : preserves P (loadProtoContent lib id).
Proof.
  unfold loadProtoContent. repeat case_match; try apply preserves_ret. apply preserves_bind; [apply keeps_found|]. intros [p|e]; [|apply preserves_ret].
  apply preserves_bind; [apply keeps_dependencies|intros deps; apply preserves_ret].
Qed.
Lemma goes_with_cert {A} d certID (failed : response A) k : fr d → (∀ c, goes d (k c)) → goes d (with_cert rsa certID failed k).
Proof.
  intros Hd Hk. unfold with_cert. destruct certID as [id|]; [|apply Hk]. case_match; [|apply Hk]. apply goes_keeps; [apply keeps_cert|].
  intros [c|e]; [apply Hk|by apply goes_ret].
Qed.
Lemma goes_run_http {A} d (bad : response A) config asked k : fr d → (∀ r, goes d (k r)) → goes d (run_http run bad config asked k).
Proof. intros Hd Hk. unfold run_http. repeat case_match; first [by apply Hk|by apply goes_ret]. Qed.
Lemma goes_run_grpc {A} d (bad : response A) config k : fr d → (∀ r, goes d (k r)) → goes d (run_grpc lib rsa run bad config k).
Proof.
  intros Hd Hk. unfold run_grpc. case_match; [|by apply goes_ret]. apply goes_with_cert; [done|]. intros cert.
  apply goes_keeps; [apply keeps_proto_content|]. intros [content deps]. case_match; first [by apply Hk|by apply goes_ret].
Qed.
Lemma goes_run_connect {A} d (bad : response A) config k : fr d → (∀ r, goes d (k r)) → goes d (run_connect rsa run bad config k).
Proof.
  intros Hd Hk. unfold run_connect. case_match; [|by apply goes_ret]. apply goes_with_cert; [done|]. intros cert.
  case_match; first [by apply Hk|by apply goes_ret].
Qed.
Lemma goes_Execute d type config save asked : fr d → goes d (h_Execute lib rsa run user type config save asked).
Proof.
  intros Hd. unfold h_Execute. cbv zeta. case_match; [by apply goes_ret|]. case_match; [by apply goes_ret|].
  assert (∀ r, goes d (match save with Some true => save_or_not (run_by 0 u r) | _ => mret (Success (run_by (re_TestID r) u r)) end)) as Hf.
  { intros r. repeat case_match; first [by apply goes_save|by apply goes_ret]. }
  repeat case_match; first [by apply goes_run_http|by apply goes_run_connect|by apply goes_run_grpc|by apply goes_ret].
Qed.
Lemma goes_ExecuteSaved d id asked : fr d → goes d (h_ExecuteSaved lib rsa run user id asked).
Proof.
  intros Hd. apply goes_with_id; [done|]. intros n. cbv zeta. case_match; [by apply goes_ret|]. apply goes_of_test; [done|]. intros t _.
  repeat case_match; first [apply goes_run_http|apply goes_run_grpc|apply goes_ret]; try done; intros r; by apply goes_save.
Qed.

(** *** Deleting a result *)
Lemma goes_DeleteResult id d : fr d → (∀ r, r ∈ rows (results d) → re_ID r = id → r ∈ rows (results d0) → guarded u readable d0 r → False) →
  goes d (DeleteResult id).
Proof.
  intros Hd Hg. apply goes_met; [|intros n d' Hd'; by apply goes_ret]. apply goes_change; [done|]. intros n d' [= <- <-].
  apply fr_delete_results; [|done]. intros r Hr Hid%Z.eqb_eq. by apply Hg.
Qed.
(** The test of a guarded result is somebody else's, and is found when nothing
    fails. *)
Lemma found_foreign d r t : fr d → t ∈ rows (tests d0) → at_ID t = re_TestID r → at_CreatedBy t ≠ u →
  ∃ x, head (where_ (has_test (re_TestID r)) (rows (tests d))) = Some x ∧ at_CreatedBy x ≠ u.
Proof.
  intros Hd Ht Hid Hc. destruct (fr_tests _ _ _ _ Hd) as [Hn Hk]. apply Hk in Ht; [|done].
  destruct (head (where_ (has_test (re_TestID r)) (rows (tests d)))) as [x|] eqn:E.
  - exists x. split; [done|]. apply head_Some_elem_of, elem_of_where in E as [Hx Hxid%Z.eqb_eq].
    by rewrite (numbered_same at_ID (tests d) x t Hn Hx Ht) by congruence.
  - assert (t ∈ where_ (has_test (re_TestID r)) (rows (tests d))) as Hin by (apply elem_of_where; split; [done|by apply Z.eqb_eq]).
    destruct (where_ _ _); [by apply elem_of_nil in Hin|done].
Qed.
Lemma frame_h_DeleteResult id d fs : (readable = true → fs = []) → fr d → fr (h_DeleteResult user id d fs).2.1.
Proof.
  intros Hb Hd. unfold h_DeleteResult, with_row_id. destruct (ParseInt id) as [n []]; [|done]. rewrite run_bind.
  destruct (GetByID_answers (λ d, rows (results d)) (has_result n) d fs) as (fs1 & Hr & Hn1). unfold GetResultByID.
  assert (∀ r, head (where_ (has_result n) (rows (results d))) = Some r → re_ID r = n ∧ ∀ x, x ∈ rows (results d) → re_ID x = n → x = r) as Hone.
  { intros r E. apply head_Some_elem_of, elem_of_where in E as [Hin Hid%Z.eqb_eq]. split; [done|]. intros x Hx Hxid.
    apply (numbered_same re_ID (results d)); [by apply fr_numbered with (u := u) (readable := readable) (d0 := d0)|done|done|congruence]. }
  destruct Hr as [-> |[-> _]]; [|done]. destruct (head (where_ (has_result n) (rows (results d)))) as [r|]; [|done].
  destruct (Hone r eq_refl) as [Hid Hsame]. cbv zeta. destruct (Z.ltb_spec 0 (re_TestID r)) as [Hpos|Hpos].
  - rewrite run_bind. destruct (GetByID_answers (λ d, rows (tests d)) (has_test (re_TestID r)) d fs1) as (fs2 & Ht & Hn2). unfold GetByID.
    assert (∀ fs', (∀ t, readable = true → t ∈ rows (tests d0) → at_ID t = re_TestID r → at_CreatedBy t ≠ u → False) →
      fr ((s ← DeleteResult n; mret match s with Ok _ => Success tt | Err _ => Fail CodeApiTestNotFound "删除执行结果失败" end) d fs').2.1) as Hdel.
    { intros fs' Hno. apply goes_answered. apply goes_DeleteResult; [done|]. intros x Hx Hxid _. rewrite (Hsame x Hx Hxid).
      intros [[? _]|(Hrd & t & Ht' & Htid & Htc)]; [lia|]. by apply (Hno t). }
    destruct Ht as [-> |[-> Hne]].
    + destruct (head (where_ (has_test (re_TestID r)) (rows (tests d)))) as [t|] eqn:E.
      * apply (goes_owned u readable d0 not_admin user (at_CreatedBy t)); [done|done|]. intros Hc fs'. apply Hdel. intros t' _ Ht' Htid Htc.
        destruct (found_foreign d r t' Hd Ht' Htid Htc) as (x & Ex & Hx). rewrite E in Ex. by injection Ex as <-.
      * apply Hdel. intros t _ Ht' Htid Htc. destruct (found_foreign d r t Hd Ht' Htid Htc) as (x & Ex & _). by rewrite E in Ex.
    + apply Hdel. intros t Hrd _ _ _. by rewrite (Hn1 (Hb Hrd)) in Hne.
  - rewrite run_bind. assert (∃ fs', (if 0 <? u then admin_or_not u else mret false) d fs1 = (false, (d, fs'))) as (fs' & ->).
    { destruct (0 <? u); [|by exists fs1]. destruct (admin_or_not_run u readable d0 not_admin d fs1 Hd) as (fs' & E & _). by exists fs'. }
    cbn [negb andb]. destruct (Z.eqb_spec (ExecutedBy r) u) as [E|]; [|done]. cbn [negb]. apply goes_answered. apply goes_DeleteResult; [done|].
    intros x Hx Hxid _. rewrite (Hsame x Hx Hxid). intros [[_ ?]|(_ & t & Ht & Htid & Htc)]; [done|].
    destruct (fr_tests _ _ _ _ Hd) as [(_ & _ & Hn) Hk]. apply Hk in Ht; [|done]. specialize (Hn t Ht). lia.
Qed.

(** *** Every request *)
Lemma keeps_bounds {A} (page size : Z) (k : Z * Z → M lab A) P : (∀ x, preserves P (k x)) → preserves P (let '(p, s) := page_bounds page size in k (p, s)).
Proof. intros Hk. destruct (page_bounds page size). apply Hk. Qed.
Ltac keeps := cbv zeta; repeat first
  [ apply preserves_ret | apply keeps_read | apply keeps_cert | apply keeps_found | apply keeps_dependencies
  | apply World.preserves_bind_ok; [|intros ?] | apply preserves_bind; [|intros ?]
  | match goal with
    | |- preserves _ (isSystemAdmin _) => apply keeps_admin
    | |- preserves _ (match ?x with _ => _ end) => destruct x
    | |- preserves _ (if ?x then _ else _) => destruct x
    end ].
Definition is_result_delete (q : lab_request) : bool := match q with LResultDelete _ => true | _ => false end.
Lemma frame_serve_lab q fs d : (readable = true → is_result_delete q = true → fs = []) → fr d → fr (serve_lab lib rsa run random user q d fs).2.1.
Proof.
  intros Hb Hd. assert (∀ A (m : M lab A), fr (m d fs).2.1 → fr ((_ ← m; mret tt) d fs).2.1) as Hans.
  { intros A m Hm. rewrite run_bind. by destruct (m d fs) as [a [d' fs']]. }
  destruct q; apply Hans.
  - apply goes_reads; [done|]. intros P. unfold h_List, ListByUser. keeps.
  - unfold h_Create. destruct req as [[[name|] [type|] config]|]; try by apply goes_ret. case_match; [by apply goes_ret|].
    case_match; [by apply goes_ret|]. cbv zeta. case_match; [by apply goes_ret|]. by apply goes_answered, goes_Create.
  - apply goes_with_id; [done|]. intros n. apply goes_of_test; [done|]. intros t _. by apply goes_ret.
  - apply goes_with_id; [done|]. intros n. destruct req as [req|]; [|by apply goes_ret]. apply goes_of_test; [done|]. intros t Ht.
    match goal with |- context [if ?b then mret _ else _] => destruct b end; [by apply goes_ret|]. by apply goes_answered, goes_Update.
  - apply goes_with_id; [done|]. intros n. apply goes_of_test; [done|]. intros t Ht. by apply goes_answered, goes_Delete.
  - by apply goes_Execute.
  - by apply goes_ExecuteSaved.
  - apply goes_reads; [done|]. intros P. unfold h_ListResults, ListResultsByUser. keeps.
  - apply goes_with_id; [done|]. intros n. apply goes_of_test; [done|]. intros t Ht. apply goes_reads; [done|]. intros P. unfold GetResults. keeps.
  - apply frame_h_DeleteResult; [|done]. intros Hr. by apply Hb.
  - apply goes_reads; [done|]. intros P. unfold h_cert_List, cert_ListByUser. keeps.
  - unfold h_cert_Create. destruct req as [[[name|] ca cert key]|]; try by apply goes_ret. case_bool_decide; [by apply goes_ret|]. cbv zeta.
    case_match; [by apply goes_ret|]. by apply goes_answered, goes_cert_Create.
  - apply goes_with_id; [done|]. intros n. apply goes_of_cert; [done|]. intros c _. by apply goes_ret.
  - apply goes_with_id; [done|]. intros n. destruct req as [req|]; [|by apply goes_ret]. apply goes_of_cert; [done|]. intros c Hc. by apply goes_answered, goes_cert_Update.
  - apply goes_with_id; [done|]. intros n. apply goes_of_cert; [done|]. intros c Hc. by apply goes_answered, goes_cert_Delete.
  - apply goes_reads; [done|]. intros P. unfold h_proto_List, proto_ListByUser. keeps.
  - unfold h_proto_Create. destruct req as [[[name|] [content|] deps]|]; try by apply goes_ret. case_match; [by apply goes_ret|]. by apply goes_proto_Create.
  - apply goes_with_id; [done|]. intros n. apply goes_of_proto; [done|]. intros p _. by apply goes_ret.
  - apply goes_with_id; [done|]. intros n. destruct req as [req|]; [|by apply goes_ret]. apply goes_of_proto; [done|]. intros p Hp. by apply goes_proto_Update.
  - by apply goes_h_proto_Delete.
  - unfold h_proto_Reflect. case_bool_decide; [by apply goes_ret|]. apply goes_with_cert; [done|]. intros c. by apply goes_ret.
  - apply goes_reads; [done|]. intros P. unfold h_proto_Fields. keeps.
  - apply goes_reads; [done|]. intros P. unfold h_proto_Template. keeps.
Qed.
End requests.

(** Ids of every table are given once. *)
Record lab_ok (d : lab) : Prop := {
  lo_certs : numbered ce_ID (certs d); lo_protos : numbered pf_ID (protos d);
  lo_tests : numbered at_ID (tests d); lo_results : numbered re_ID (results d);
}.

(** C35: whatever somebody who is no administrator asks for and whatever fails, the
    certificates, protocol files and tests of others stay exactly as they are, and
    so do results others have of no test; results of the tests of others stay
    unless their deletion is asked for while a call fails. *)
Theorem lab_rows_are_owned `{RsaUtil.Rsa, Crypto.Aead} lib rsa run random user q d fs :
  let u := extractUserID user in let d' := (serve_lab lib rsa run random user q d fs).2.1 in
  ¬ 0 < Permission.admin_count u (lab_perms d) → lab_ok d →
  lab_ok d' ∧
  (∀ c, ce_CreatedBy c ≠ u → c ∈ rows (certs d') ↔ c ∈ rows (certs d)) ∧
  (∀ p, pf_CreatedBy p ≠ u → p ∈ rows (protos d') ↔ p ∈ rows (protos d)) ∧
  (∀ t, at_CreatedBy t ≠ u → t ∈ rows (tests d') ↔ t ∈ rows (tests d)) ∧
  (∀ r, r ∈ rows (results d) → re_TestID r ≤ 0 → ExecutedBy r ≠ u → r ∈ rows (results d')) ∧
  (is_result_delete q = false ∨ fs = [] → ∀ r t, r ∈ rows (results d) → t ∈ rows (tests d) → at_ID t = re_TestID r →
     at_CreatedBy t ≠ u → r ∈ rows (results d')).
Proof.
  intros u d' Hna Hok. set (b := negb (is_result_delete q) || bool_decide (fs = [])).
  assert (frame u b d d') as [[Hc1 Hc2] [Hp1 Hp2] [Ht1 Ht2] Hr1 Hr2 _].
  { apply (frame_serve_lab lib rsa run random user b d Hna q fs).
    - unfold b. intros [Hq|Hf]%orb_true_iff Hd; [by rewrite Hd in Hq|by apply bool_decide_eq_true in Hf].
    - destruct Hok. by split. }
  split; [by split|]. split_and!; try done.
  - intros r Hr Hle He. apply Hr2; [done|]. by left.
  - intros Hq r t Hr Ht Hid Hc. apply Hr2; [done|]. right. split; [|by exists t]. unfold b. destruct Hq as [-> | -> ]; [done|]. apply orb_true_r.
Qed.

(** ** Examples *)
#[local] Existing Instance RsaUtil.toy_rsa.
#[local] Existing Instance Crypto.toy_aead.
Definition demo_key : string := "-----KEY-----".
Definition demo_lab : lab :=
  mkLab (mkTable [mkCertificate 1 "office" "" "" "" 7 1 1] 1)
    (mkTable [mkProtoFile 1 "a.proto" "secret of 7" "" "" "[]" 7 50 60] 1)
    (mkTable [mkApiTest 1 "ping" "http" "cfg" 7 1 1; mkApiTest 2 "mine" "http" "cfg" 5 1 1] 2)
    (mkTable [mkApiTestResult 1 1 "http" 200 3 "" "ok" "" "" 7 2; mkApiTestResult 2 0 "http" 200 3 "" "ok" "" "" 7 2] 2)
    (Permission.mkDb (mkTable [] 0) (mkTable [] 0) (mkTable [] 0) (mkTable [] 0) (mkTable [] 0) (mkTable [] 0)) 100.
Definition demo_names (id : Z) : string := if id =? 7 then "Li Lei" else "".
Definition demo_lab_lib : lab_lib :=
  mkLabLib demo_names (λ s, s) (λ _, "{}") (λ _, "[]") (λ _, Some []) (λ _, Executor.zero_time) fmt_d
    (λ _ _ c, Ok (match c with Some c => ce_Name c +:+ ": " +:+ ClientKey c | None => "" end)) (λ content _, Ok content) (λ content _ _ _, Ok content).
Definition demo_runner : runner :=
  mkRunner demo_lib false demo_lookup demo_Do 0 (λ _, Some (demo_config "api.example" "")) (λ _, None) (λ _, []) (λ _, "[]")
    (λ _ _ _ _, Err "") (λ _ _, Err "").
Definition demo_random : string * string * string := ("0123456789abcdef0123456789abcdef", "", "nonce0123456").
Definition demo_serve (user : option Z) (q : lab_request) (fs : list fate) : lab :=
  (serve_lab demo_lab_lib RsaUtil.demo_rsa demo_runner demo_random user q demo_lab fs).2.1.
Lemma numbered_two {A} (key : A → Z) x y n : key x = 1 → key y = 2 → 2 ≤ n → numbered key (mkTable [x; y] n).
Proof.
  intros Hx Hy Hn. split_and!; simpl.
  - rewrite Hx, Hy. apply NoDup_cons. split; [by intros ?%list_elem_of_singleton|]. apply NoDup_singleton.
  - lia.
  - intros z. rewrite !elem_of_cons, elem_of_nil. intros [-> |[-> |[]]]; lia.
Qed.
Lemma numbered_one {A} (key : A → Z) x n : key x = 1 → 1 ≤ n → numbered key (mkTable [x] n).
Proof. intros Hx Hn. split_and!; simpl; [apply NoDup_singleton|lia|]. intros z ->%list_elem_of_singleton. lia. Qed.
Lemma demo_lab_ok : lab_ok demo_lab.
Proof. split; [by apply numbered_one|by apply numbered_one|by apply numbered_two|by apply numbered_two]. Qed.

Lemma lab_rows_are_owned_witness :
  at_Name <$> rows (tests (demo_serve (Some 5) (LTestDelete "2") [])) = ["ping"] ∧
  at_Name <$> rows (tests (demo_serve (Some 5) (LTestDelete "1") [])) = ["ping"; "mine"] ∧
  re_ID <$> rows (results (demo_serve (Some 5) (LResultDelete "1") [])) = [1; 2] ∧
  lab_ok (demo_serve (Some 5) (LResultDelete "1") []).
Proof.
  split; [vm_compute; reflexivity|]. split; [vm_compute; reflexivity|]. split; [vm_compute; reflexivity|].
  apply (lab_rows_are_owned demo_lab_lib RsaUtil.demo_rsa demo_runner demo_random (Some 5) (LResultDelete "1") demo_lab []).
  - vm_compute. done.
  - exact demo_lab_ok.
Defined.

(** *** What the code lets happen *)

(** When the test of a result cannot be read, nobody asks whose it is: user 5
    deletes the result of user 7. *)
Lemma result_of_other_deleted : re_ID <$> rows (results (demo_serve (Some 5) (LResultDelete "1") [Fine; Lost])) = [2].
Proof. vm_compute. reflexivity. Qed.
(** Somebody else's certificate and protocol file can be used and read by their
    number, though asking for them is refused. *)
Lemma files_of_others_used :
  (h_cert_Get RsaUtil.demo_rsa (Some 5) "1" demo_lab []).1 = Forbidden "无权访问该资源" ∧
  (h_proto_Reflect demo_lab_lib RsaUtil.demo_rsa "api.example:443" "mtls" (Some 1) demo_lab []).1 = Success "office: " ∧
  (h_proto_Get (Some 5) "1" demo_lab []).1 = Forbidden "无权访问该资源" ∧
  (h_proto_Template demo_lab_lib 1 "A" "Get" demo_lab []).1 = Success "secret of 7".
Proof. vm_compute. done. Qed.
(** The list shows the time a file was made as the name of who made it, and the
    time it was made as the time of its last change. *)
Lemma list_shows_wrong_columns :
  match (h_proto_List demo_lab_lib (Some 7) "1" "20" "" demo_lab []).1 with
  | Success (l, _) => (λ x, (pl_CreatedByName x, pf_CreatedAt (pl_file x) =? 50, pf_UpdatedAt (pl_file x))) <$> l
  | _ => []
  end = [("50", false, 50)].
Proof. vm_compute. reflexivity. Qed.
(** A client key is stored encrypted and comes back for a test. *)
Lemma client_key_stored :
  let d := (h_cert_Create RsaUtil.demo_rsa demo_random (Some 5) (Some (mkCertRequest (Some "new") None None (Some demo_key))) demo_lab []).2.1 in
  bool_decide (demo_key ∈ ClientKey <$> rows (certs d)) = false ∧
  match (cert_GetByID RsaUtil.demo_rsa 2 d []).1 with Ok c => ClientKey c | Err _ => "" end = demo_key.
Proof. vm_compute. done. Qed.
