(* ===== verification/DatasourceHandler.v ===== *)
(** * The handlers of data sources

    [src/scheduler/internal/handler/datasource.go] with its routes, and the part
    of [query.go] about the history of queries and saved queries, over the
    services of [DatasourceService], [Access], [Users] and [Permission].  The
    services share one database: [state] holds its tables once, and a service is
    run on its view of them.  [op] is what the middleware found out about the
    caller; path and query parameters are texts, [None] is a body the binding
    refuses.  [test] stands for [Manager.TestConnection]; [None] as the answer
    of a list is a run-time panic. *)
From Stdlib Require Import Ascii.
From S2P Require Import Prelude Sql Permission Crypto RsaUtil Users UserGuards ApiToken Auth Sessions Access DatasourceService Text.

Record state : Type := mkState {
  st_users : udb; st_sources : table Datasource; st_grants : table Grant; st_webhooks : table owned; st_wh_grants : table Grant;
  st_histories : table QueryHistory; st_saved : table SavedSQL; st_removed : list Z;
}.
Implicit Types s : state.

Definition data s : ddb :=
  mkDdb (mkIdb (Users.rbac (st_users s)) (st_sources s) (st_grants s) (st_webhooks s) (st_wh_grants s)) (st_histories s) (st_saved s) (st_removed s).
Definition put_users (u : udb) s : state :=
  mkState u (st_sources s) (st_grants s) (st_webhooks s) (st_wh_grants s) (st_histories s) (st_saved s) (st_removed s).
Definition put_data (d : ddb) s : state :=
  let u := st_users s in
  mkState (mkUdb (rbac (acc d)) (users u) (api_tokens u) (exec_domains u) (task_domains u))
    (datasources (acc d)) (ds_grants (acc d)) (webhooks (acc d)) (wh_grants (acc d)) (histories d) (saved d) (removed d).
Definition on_users {A} (m : M udb A) : M state A := zoom st_users put_users m.
Definition on_data {A} (m : M ddb A) : M state A := zoom data put_data m.
Definition on_acc {A} (m : M idb A) : M state A := on_data (zoom acc (λ a d, mkDdb a (histories d) (saved d) (removed d)) m).

(** ** Requests and answers *)
Definition CodePermissionDenied : Z := 14001.
Definition CodePermissionExists : Z := 14002.
Definition CodeDatasourceConnectFailed : Z := 16003.
Definition CodeDatasourceNameExists : Z := 16004.
Definition CodeQueryError : Z := 17001.
Definition CodeQueryHistoryNotFound : Z := 17008.
Definition CodeSavedSQLNotFound : Z := 17009.

(** The drivers that register themselves, in no particular order. *)
Definition SupportedTypes : list string :=
  ["mysql"; "sqlite"; "hive"; "kyuubi"; "spark"; "trino"; "starrocks"; "doris"; "rqlite"; "redis"].
Definition IsSupported (dsType : string) : bool := in_list dsType SupportedTypes.

Record CreateRequest : Type := mkCreate {
  cq_Name : string; cq_Type : string; cq_Host : string; cq_Port : Z; cq_Path : string; cq_Database : string; cq_Username : string;
  cq_Password : string; cq_AuthType : string; cq_ConnectionMode : string; cq_ZkHosts : string; cq_ZkPath : string;
  cq_RqliteHosts : string; cq_Config : string; cq_Description : string; cq_DomainID : Z; cq_IsEnabled : option bool;
  cq_AllowWriteSQL : option bool;
}.
Record UpdateRequest : Type := mkUpdate {
  uq_Name : option string; uq_Host : option string; uq_Port : option Z; uq_Path : option string; uq_Database : option string;
  uq_Username : option string; uq_Password : option string; uq_AuthType : option string; uq_ConnectionMode : option string;
  uq_ZkHosts : option string; uq_ZkPath : option string; uq_RqliteHosts : option string; uq_Config : option string;
  uq_Description : option string; uq_IsEnabled : option bool; uq_AllowWriteSQL : option bool;
}.

(** The data source [Create] makes of a request. *)
Definition requested (uid : Z) (q : CreateRequest) (testStatus : string) (lastTestAt : option Z) : Datasource :=
  mkDatasource 0 (cq_Name q) (cq_Type q) (cq_Host q) (cq_Port q) (cq_Path q) (cq_Database q) (cq_Username q) (cq_Password q)
    (if bool_decide (cq_AuthType q = "") then "simple" else cq_AuthType q) (cq_ConnectionMode q) (cq_ZkHosts q) (cq_ZkPath q)
    (cq_RqliteHosts q) (cq_Config q) (cq_Description q) (cq_DomainID q) (default true (cq_IsEnabled q))
    (default false (cq_AllowWriteSQL q)) testStatus lastTestAt (Some uid) (Some uid) 0 0.
(** The one [TestConnectionByParams] tries. *)
Definition probed (q : CreateRequest) : Datasource :=
  mkDatasource 0 "" (cq_Type q) (cq_Host q) (cq_Port q) (cq_Path q) (cq_Database q) (cq_Username q) (cq_Password q)
    (cq_AuthType q) (cq_ConnectionMode q) (cq_ZkHosts q) (cq_ZkPath q) (cq_RqliteHosts q) (cq_Config q) "" 0 true false "" None
    None None 0 0.
(** The fields a request names, in the data source that was read. *)
Definition apply_update (uid : Z) (q : UpdateRequest) (ds : Datasource) : Datasource :=
  mkDatasource (ds_ID ds) (default (ds_Name ds) (uq_Name q)) (Type_ ds) (default (Host ds) (uq_Host q)) (default (Port ds) (uq_Port q))
    (default (Path ds) (uq_Path q)) (default (Database ds) (uq_Database q)) (default (Access.Username ds) (uq_Username q))
    (default (ds_Password ds) (uq_Password q)) (default (AuthType ds) (uq_AuthType q))
    (default (ConnectionMode ds) (uq_ConnectionMode q)) (default (ZkHosts ds) (uq_ZkHosts q)) (default (ZkPath ds) (uq_ZkPath q))
    (default (RqliteHosts ds) (uq_RqliteHosts q)) (default (Config ds) (uq_Config q)) (default (ds_Description ds) (uq_Description q))
    (ds_DomainID ds) (default (IsEnabled ds) (uq_IsEnabled q)) (default (AllowWriteSQL ds) (uq_AllowWriteSQL q)) (TestStatus ds)
    (LastTestAt ds) (ds_CreatedBy ds) (Some uid) (ds_CreatedAt ds) (ds_UpdatedAt ds).
(** What an answer shows of a data source: not its password. *)
Definition masked (password : string) (ds : Datasource) : Datasource :=
  mkDatasource (ds_ID ds) (ds_Name ds) (Type_ ds) (Host ds) (Port ds) (Path ds) (Database ds) (Access.Username ds) password
    (AuthType ds) (ConnectionMode ds) (ZkHosts ds) (ZkPath ds) (RqliteHosts ds) (Config ds) (ds_Description ds) (ds_DomainID ds)
    (IsEnabled ds) (AllowWriteSQL ds) (TestStatus ds) (LastTestAt ds) (ds_CreatedBy ds) (ds_UpdatedBy ds) (ds_CreatedAt ds) (ds_UpdatedAt ds).

(** An entry of the list, and with the names of the users in it. *)
Record item : Type := mkItem { i_ds : Datasource; i_DomainName : string; i_UserPermission : string }.
Record shown : Type := mkShown { sh_item : item; created_by_name : string; updated_by_name : string }.

Definition parsed {A} (id message : string) (k : Z → M state (reply A)) : M state (reply A) :=
  match ParseInt id with (n, true) => k n | _ => mret (BadRequest message) end.
Definition page_number (page : string) : Z := let n := (ParseInt page).1 in if n <? 1 then 1 else n.
Definition page_limit (pageSize : string) : Z := let n := (ParseInt pageSize).1 in if (n <? 1) || (100 <? n) then 20 else n.

(** [l[start:end]]; [None] is a panic: bounds are not checked against 0. *)
Definition slice {A} (l : list A) (first last : Z) : option (list A) :=
  if (first <? 0) || (last <? first) then None else Some (take (Z.to_nat (last - first)) (drop (Z.to_nat first) l)).
Definition page_slice {A} (page pageSize : Z) (l : list A) : option (list A) :=
  let n := Z.of_nat (length l) in
  let start := int64 (int64 (page - 1) * pageSize) in
  let last := int64 (start + pageSize) in
  slice l (if n <? start then n else start) (if n <? last then n else last).

(** *** Permission levels *)
Definition dsPermWeight : list (string * Z) :=
  [("manage", 100); ("update", 50); ("download", 40); ("query", 30); ("read", 20); ("delete", 10)].
Definition pickHigherPermission (a b : string) : string :=
  match assoc a dsPermWeight, assoc b dsPermWeight with
  | None, _ => b
  | Some _, None => a
  | Some wa, Some wb => if wb <=? wa then a else b
  end.
(** The body of the last loop of [fillUserPermissions]. *)
Definition level_of (userID : Z) (levels : gmap Z string) (admins : list Z) (ds : Datasource) : string :=
  let p := default "" (levels !! ds_ID ds) in
  let p := if bool_decide (ds_CreatedBy ds = Some userID) then "manage" else p in
  let p := if in_list (ds_DomainID ds) admins then pickHigherPermission p "query" else p in
  if bool_decide (p = "") then "read" else p.

(** The first of each identifier; [seen] are those before. *)
Fixpoint unseen (seen : list Z) (l : list Datasource) : list Datasource :=
  match l with
  | [] => []
  | ds :: l => if in_list (ds_ID ds) seen then unseen seen l else ds :: unseen (ds_ID ds :: seen) l
  end.
Definition found_by (search : string) (ds : Datasource) : bool :=
  bool_decide (search = "") || negb (bool_decide (ds_Name ds = "")) && Contains (ToLower (ds_Name ds)) (ToLower search).

Section handlers.
Context {A : Aead} (crypto : option Crypto) (test : Datasource → bool).

(** ** The list *)
Definition IsDomainAdmin_of (userID domainID : Z) : M state bool :=
  r ← on_users (perm (IsDomainAdmin userID domainID)); mret match r with Ok b => b | Err _ => false end.
Definition user_domain_ids (userID : Z) : M state (list Z) :=
  r ← on_users (perm (GetUserDomainIDs userID)); mret match r with Ok l => l | Err _ => [] end.

Fixpoint administered (userID : Z) (domainIDs : list Z) : M state (list Z) :=
  match domainIDs with
  | [] => mret []
  | i :: rest => b ← IsDomainAdmin_of userID i; l ← administered userID rest; mret (if (b : bool) then i :: l else l)
  end.
Definition fillUserPermissions (userID : Z) (l : list Datasource) : M state (list item) :=
  match l with
  | [] => mret []
  | _ =>
      r ← on_acc (GetUserDatasourcePermissionLevels userID (ds_ID <$> l));
      domainIDs ← user_domain_ids userID;
      admins ← administered userID domainIDs;
      mret ((λ ds, mkItem ds "" (level_of userID (match r with Ok m => m | Err _ => ∅ end) admins ds)) <$> l)
  end.

Definition domain_map (l : list DomainWithStats) : gmap Z string :=
  foldl (λ m d, <[dom_ID (dws_Domain d) := dom_Name (dws_Domain d)]> m) ∅ l.
Definition fillDomainNames (l : list item) : M state (list item) :=
  if negb (existsb (λ i, 0 <? ds_DomainID (i_ds i)) l) then mret l
  else
    r ← on_users ListDomains;
    mret match r with
         | Err _ => l
         | Ok domains => (λ i, if 0 <? ds_DomainID (i_ds i)
                               then mkItem (i_ds i) (default "" (domain_map domains !! ds_DomainID (i_ds i))) (i_UserPermission i)
                               else i) <$> l
         end.

Definition real_name (o : option Z) : M state string :=
  match o with
  | Some id => if 0 <? id then
                 r ← on_users (GetUserByID id); mret match r with Ok (Some u) => RealName u | _ => "" end
               else mret ""
  | None => mret ""
  end.
Definition datasourceToMap (i : item) : M state shown :=
  creator ← real_name (ds_CreatedBy (i_ds i));
  updater ← real_name (ds_UpdatedBy (i_ds i));
  mret (mkShown (mkItem (masked "" (i_ds i)) (i_DomainName i) (i_UserPermission i)) creator updater).
Fixpoint shown_all (l : list item) : M state (list shown) :=
  match l with [] => mret [] | i :: l => s ← datasourceToMap i; ss ← shown_all l; mret (s :: ss) end.

Fixpoint domain_sources (dsType search : string) (domainIDs : list Z) : M state (list Datasource) :=
  match domainIDs with
  | [] => mret []
  | i :: rest =>
      r ← on_data (DatasourceService.Get i dsType 1 10000 search);
      l ← domain_sources dsType search rest;
      mret (match r with Ok (l', _) => l' ++ l | Err _ => l end)
  end.
Fixpoint granted_sources (search : string) (seen ids : list Z) : M state (list Datasource) :=
  match ids with
  | [] => mret []
  | id :: ids =>
      if in_list id seen then granted_sources search seen ids
      else
        r ← on_data (GetByID id);
        l ← granted_sources search (id :: seen) ids;
        mret (match r with Ok ds => if found_by search ds then ds :: l else l | Err _ => l end)
  end.
Definition visible_sources (userID : Z) (dsType search : string) : M state (list Datasource) :=
  domainIDs ← user_domain_ids userID;
  inDomains ← domain_sources dsType search domainIDs;
  r ← on_acc (GetUserDatasourceIDs userID "read");
  granted ← granted_sources search (ds_ID <$> inDomains) (match r with Ok ids => ids | Err _ => [] end);
  mret (unseen [] inDomains ++ granted).

Definition is_admin_caller (userID : Z) : M state bool :=
  if 0 <? userID then r ← on_users (perm (IsSystemAdmin userID)); mret match r with Ok b => b | Err _ => false end
  else mret false.

Definition List_ (op : operator) (dsType search page page_size domain_id : string) : M state (option (reply (list shown * Z))) :=
  let uID := op_id op in
  isAdmin ← is_admin_caller uID;
  let page := page_number page in
  let pageSize := page_limit page_size in
  if (isAdmin : bool) then
    r ← on_data (DatasourceService.Get (ParseInt domain_id).1 dsType page pageSize search);
    match r with
    | Err _ => mret (Some (Fail CodeQueryError "获取数据源列表失败"))
    | Ok (l, total) =>
        named ← fillDomainNames ((λ ds, mkItem ds "" "manage") <$> l);
        items ← shown_all named;
        mret (Some (Success (items, total)))
    end
  else
    filtered ← visible_sources uID dsType search;
    levels ← fillUserPermissions uID filtered;
    match page_slice page pageSize levels with
    | None => mret None
    | Some paged =>
        named ← fillDomainNames paged;
        items ← shown_all named;
        mret (Some (Success (items, Z.of_nat (length filtered))))
    end.

(** ** One data source *)
Definition Get (id : string) : M state (reply Datasource) :=
  parsed id "无效的数据源ID" (λ id,
    r ← on_data (GetByID id);
    mret match r with Ok ds => Success (masked "******" ds) | Err _ => NotFound "数据源不存在" end).

Definition may_write_sql (op : operator) (allow : bool) : bool :=
  negb allow || bool_decide (op_role op = "system_admin") || bool_decide (op_role op = "admin").

Definition Create (op : operator) (now : Z) (nonce : string) (req : option CreateRequest) : M state (reply Z) :=
  match req with
  | None => mret (BadRequest "")
  | Some q =>
      if bool_decide (cq_Name q = "") || bool_decide (cq_Type q = "") || (cq_DomainID q =? 0) then mret (BadRequest "")
      else if negb (IsSupported (cq_Type q)) then mret (BadRequest "不支持的数据源类型")
      else if negb (may_write_sql op (default false (cq_AllowWriteSQL q)))
      then mret (Fail CodePermissionDenied "仅系统管理员可启用DML语句权限")
      else if negb (test (requested (op_id op) q "" None))
      then mret (Fail CodeDatasourceConnectFailed "连接测试失败，无法创建数据源")
      else
        r ← on_data (DatasourceService.Create crypto now nonce (requested (op_id op) q "success" (Some now)));
        mret match r with
             | Ok id => Success id
             | Err ErrDatasourceNameExists => Fail CodeDatasourceNameExists "该领域下已存在同名数据源"
             | Err _ => Fail CodeQueryError "创建数据源失败"
             end
  end.

(** [Update] from the data source it has read on. *)
Definition store_update (op : operator) (now : Z) (nonce : string) (q : UpdateRequest) (ds : Datasource) : M state (reply unit) :=
  if negb (may_write_sql op (default false (uq_AllowWriteSQL q)))
  then mret (Fail CodePermissionDenied "仅系统管理员可启用DML语句权限")
  else
    r ← on_data (DatasourceService.Update crypto now nonce (apply_update (op_id op) q ds));
    match r with
    | Err _ => mret (Fail CodeQueryError "更新数据源失败")
    | Ok _ => _ ← on_data (RemoveDatasource (ds_ID ds)); mret (Success tt)
    end.
Definition Update (op : operator) (now : Z) (nonce id : string) (req : option UpdateRequest) : M state (reply unit) :=
  parsed id "无效的数据源ID" (λ id,
    match req with
    | None => mret (BadRequest "")
    | Some q =>
        r ← on_data (GetByID id);
        match r with Err _ => mret (NotFound "数据源不存在") | Ok ds => store_update op now nonce q ds end
    end).

Definition Delete (id : string) : M state (reply unit) :=
  parsed id "无效的数据源ID" (λ id,
    _ ← on_data (GetByID id);
    r ← on_data (DatasourceService.Delete id);
    match r with
    | Err _ => mret (Fail CodeQueryError "删除数据源失败")
    | Ok _ => _ ← on_data (RemoveDatasource id); mret (Success tt)
    end).

Definition TestConnection (now : Z) (id : string) : M state (reply unit) :=
  parsed id "无效的数据源ID" (λ id,
    r ← on_data (GetByID id);
    match r with
    | Err _ => mret (NotFound "数据源不存在")
    | Ok _ =>
        r ← on_data (TestDatasource test now id);
        mret match r with Ok _ => Success tt | Err _ => Fail CodeDatasourceConnectFailed "连接测试失败" end
    end).
Definition TestConnectionByParams (req : option CreateRequest) : M state (reply unit) :=
  mret match req with
       | None => BadRequest ""
       | Some q =>
           if bool_decide (cq_Type q = "") then BadRequest ""
           else if negb (IsSupported (cq_Type q)) then BadRequest "不支持的数据源类型"
           else if test (probed q) then Success tt else Fail CodeDatasourceConnectFailed "连接测试失败"
       end.

(** ** Grants *)
Record grant_request : Type := mkGrantRequest { gq_RoleID : option Z; gq_UserID : option Z; gq_PermissionType : string }.
Definition GrantPermission (op : operator) (now : Z) (id : string) (req : option grant_request) : M state (reply unit) :=
  match req with
  | None => mret (BadRequest "")
  | Some q =>
      if bool_decide (gq_PermissionType q = "") then mret (BadRequest "")
      else if bool_decide (gq_RoleID q = None) && bool_decide (gq_UserID q = None) then mret (BadRequest "请选择授权对象（用户或角色）")
      else if negb (IsValidPermissionType (gq_PermissionType q)) then mret (BadRequest "无效的权限类型")
      else
        parsed id "无效的数据源ID" (λ dsID,
          r ← on_acc (Access.GrantPermission now dsID (gq_RoleID q) (gq_UserID q) (gq_PermissionType q) (Some (op_id op)));
          mret match r with
               | Ok _ => Success tt
               | Err ErrInvalidPermissionType => BadRequest "无效的权限类型"
               | Err _ => Fail CodeQueryError "添加权限失败"
               end)
  end.
Definition RevokePermission (perm_id : string) : M state (reply unit) :=
  parsed perm_id "无效的权限ID" (λ permID,
    r ← on_acc (Access.RevokePermission permID);
    mret match r with Ok _ => Success tt | Err _ => Fail CodeQueryError "撤销权限失败" end).
Definition UpdatePermission (now : Z) (perm_id : string) (req : option string) : M state (reply unit) :=
  parsed perm_id "无效的权限ID" (λ permID,
    match req with
    | None => mret (BadRequest "")
    | Some permissionType =>
        if bool_decide (permissionType = "") then mret (BadRequest "")
        else if negb (IsValidPermissionType permissionType) then mret (BadRequest "无效的权限类型")
        else
          r ← on_acc (Access.UpdatePermission now permID permissionType);
          mret match r with
               | Ok _ => Success tt
               | Err ErrPermissionNotFound => NotFound "权限记录不存在"
               | Err _ => Fail CodeQueryError "修改权限失败"
               end
    end).
Definition GetPermissions (id : string) : M state (reply (list Grant)) :=
  parsed id "无效的数据源ID" (λ dsID,
    r ← on_acc (Access.GetPermissions dsID);
    mret match r with Ok l => Success l | Err _ => Fail CodeQueryError "获取权限列表失败" end).

(** ** History and saved queries: [query.go] *)
Definition or_zero (s : string) : Z := match ParseInt s with (n, true) => n | _ => 0 end.
Definition query_domain (op : operator) (domain_id : string) : Z := if privileged op then or_zero domain_id else op_domain op.

Definition GetHistory (op : operator) (domain_id page page_size datasource_id executed_by status start_time end_time search : string) :
    M state (reply (list QueryHistory * Z)) :=
  r ← on_data (GetQueryHistory (mkFilter (query_domain op domain_id) (or_zero datasource_id) status start_time end_time
                                  (or_zero executed_by) search) (page_number page) (page_limit page_size));
  mret match r with Ok x => Success x | Err _ => Fail CodeQueryError "获取查询历史失败" end.
Definition DeleteQueryHistory (id : string) : M state (reply unit) :=
  parsed id "无效的历史记录ID" (λ id,
    r ← on_data (DatasourceService.DeleteQueryHistory id);
    mret match r with Ok _ => Success tt | Err _ => Fail CodeQueryHistoryNotFound "删除查询历史失败" end).
Definition BatchDeleteQueryHistory (req : option (list Z)) : M state (reply unit) :=
  match req with
  | None => mret (BadRequest "")
  | Some [] => mret (BadRequest "请选择要删除的记录")
  | Some ids =>
      r ← on_data (DatasourceService.BatchDeleteQueryHistory ids);
      mret match r with Ok _ => Success tt | Err _ => Fail CodeSavedSQLNotFound "批量删除查询历史失败" end
  end.

Record save_request : Type := mkSave {
  sq_Name : string; sq_DatasourceID : Z; sq_Database : string; sq_SQLText : string; sq_Description : string; sq_IsPublic : option bool;
}.
Definition save_refused (q : save_request) : bool :=
  bool_decide (sq_Name q = "") || (sq_DatasourceID q =? 0) || bool_decide (sq_SQLText q = "").
Definition SaveSQL (op : operator) (now : Z) (req : option save_request) : M state (reply Z) :=
  match req with
  | None => mret (BadRequest "")
  | Some q =>
      if save_refused q then mret (BadRequest "")
      else
        r ← on_data (CreateSavedSQL now (mkSaved 0 (sq_Name q) (sq_DatasourceID q) (sq_Database q) (sq_SQLText q) (sq_Description q)
                       (Some (op_id op)) (Some (op_id op)) (op_domain op) (default false (sq_IsPublic q)) 0 0));
        mret match r with Ok id => Success id | Err _ => Fail CodeQueryError "保存SQL失败" end
  end.
Definition ListSavedSQL (op : operator) (domain_id page page_size search : string) : M state (reply (list SavedSQL * Z)) :=
  r ← on_data (GetSavedSQL (query_domain op domain_id) (op_id op) (page_number page) (page_limit page_size) search);
  mret match r with Ok x => Success x | Err _ => Fail CodeQueryError "获取已保存SQL列表失败" end.
Definition UpdateSavedSQL (op : operator) (now : Z) (id : string) (req : option save_request) : M state (reply unit) :=
  parsed id "无效的SQL记录ID" (λ id,
    match req with
    | None => mret (BadRequest "")
    | Some q =>
        if save_refused q then mret (BadRequest "")
        else
          r ← on_data (DatasourceService.UpdateSavedSQL now id (mkSaved 0 (sq_Name q) (sq_DatasourceID q) (sq_Database q)
                         (sq_SQLText q) (sq_Description q) None (Some (op_id op)) 0 (default false (sq_IsPublic q)) 0 0));
          mret match r with Ok _ => Success tt | Err _ => Fail CodeSavedSQLNotFound "更新SQL记录失败" end
    end).
Definition DeleteSavedSQL (id : string) : M state (reply unit) :=
  parsed id "无效的SQL记录ID" (λ id,
    r ← on_data (DatasourceService.DeleteSavedSQL id);
    mret match r with Ok _ => Success tt | Err _ => Fail CodeQueryError "删除SQL记录失败" end).
End handlers.

(** ** Reading *)
Lemma put_users_id s : put_users (st_users s) s = s.
Proof. by destruct s. Qed.
Lemma put_data_id s : put_data (data s) s = s.
Proof. by destruct s as [[]]. Qed.
Lemma yields_on_users {A} s (m : M udb A) R : yields (st_users s) m R → yields s (on_users m) R.
Proof. apply yields_zoom, put_users_id. Qed.
Lemma yields_on_data {A} s (m : M ddb A) R : yields (data s) m R → yields s (on_data m) R.
Proof. apply yields_zoom, put_data_id. Qed.
Lemma yields_on_acc {A} s (m : M idb A) R : yields (acc (data s)) m R → yields s (on_acc m) R.
Proof. intros Hm. apply yields_on_data. by apply yields_zoom. Qed.
Lemma yields_perm {A} d e (m : M db (result Permission.error A)) f :
  answers e m f → yields d (perm m) (λ r, ∀ a, r = Ok a → f (Users.rbac d) = Ok a).
Proof.
  intros Hm. unfold perm. eapply yields_bind.
  - apply yields_zoom; [by destruct d|]. by apply (yields_answers e m f).
  - intros [a|x] Ha; apply yields_ret; [|done]. intros b [= ->]. by apply Ha.
Qed.

Definition the_rbac s : db := Users.rbac (st_users s).
(** The user belongs to the domain. *)
Definition member s (userID i : Z) : Prop := ∃ ud, ud ∈ rows (user_domains (the_rbac s)) ∧ ud_user ud = userID ∧ ud_domain ud = i.

Lemma yields_is_admin_caller s u : yields s (is_admin_caller u) (λ b, b = true → is_admin (the_rbac s) u).
Proof.
  unfold is_admin_caller. destruct (0 <? u); [|by apply yields_ret]. eapply yields_bind.
  - eapply yields_on_users, yields_perm, IsSystemAdmin_answers.
  - intros [b|x] Hb; apply yields_ret; [|done]. intros ->. specialize (Hb true eq_refl). simpl in Hb.
    injection Hb as Hb. by apply admin_count_pos.
Qed.
Lemma yields_user_domain_ids s u : yields s (user_domain_ids u) (λ l, ∀ i, i ∈ l → member s u i).
Proof.
  unfold user_domain_ids. eapply yields_bind.
  - eapply yields_on_users, yields_perm, GetUserDomainIDs_answers.
  - intros [l|x] Hl; apply yields_ret; [|by intros i ?%not_elem_of_nil]. specialize (Hl l eq_refl). injection Hl as <-.
    intros i (ud & -> & [Hin Hu%Z.eqb_eq]%elem_of_where)%list_elem_of_fmap. by exists ud.
Qed.
Lemma yields_IsDomainAdmin_of s u i : yields s (IsDomainAdmin_of u i) (λ b, b = true → is_domain_admin (the_rbac s) u i).
Proof.
  unfold IsDomainAdmin_of. eapply yields_bind.
  - eapply yields_on_users, yields_perm, IsDomainAdmin_answers.
  - intros [b|x] Hb; apply yields_ret; [|done]. intros ->. specialize (Hb true eq_refl). injection Hb as Hb.
    by apply domain_admin_count_pos.
Qed.
Lemma yields_administered s u l : yields s (administered u l) (λ l', ∀ i, i ∈ l' → is_domain_admin (the_rbac s) u i).
Proof.
  induction l as [|i l IH]; simpl; [apply yields_ret; by intros i ?%not_elem_of_nil|].
  eapply yields_bind; [apply yields_IsDomainAdmin_of|]. intros b Hb. eapply yields_bind; [apply IH|]. intros l' Hl'.
  apply yields_ret. destruct b; [|done]. intros j [-> |Hj]%elem_of_cons; [by apply Hb|by apply Hl'].
Qed.

(** What the queries on data sources find was stored. *)
Definition stored s (ds : Datasource) : Prop := ∃ r, r ∈ rows (st_sources s) ∧ ds = scan_datasource r.
Lemma yields_select_ds {A} d (f : ddb → A) : yields d (DatasourceService.select f) (λ r, ∀ a, r = Ok a → f d = a).
Proof.
  eapply yields_weaken; [eapply yields_answers, answers_query|]. intros r Hr a Ha. specialize (Hr a Ha). by injection Hr.
Qed.
Lemma yields_GetByID s id : yields s (on_data (GetByID id))
  (λ r, ∀ ds, r = Ok ds → ∃ r, found id (data s) = Some r ∧ ds = scan_datasource r).
Proof.
  apply yields_on_data. unfold GetByID, bind_ok. eapply yields_bind; [apply yields_select_ds|].
  intros [o|e] Ho; apply yields_ret; [|done]. specialize (Ho o eq_refl). simpl in Ho. fold (found id (data s)) in Ho.
  destruct o as [r|]; [|done]. intros ds [= <-]. by exists r.
Qed.
Lemma yields_Get s i dsType page n search : yields s (on_data (DatasourceService.Get i dsType page n search))
  (λ r, ∀ l t, r = Ok (l, t) → ∀ ds, ds ∈ l → ∃ r, r ∈ rows (st_sources s) ∧ ds = scan_datasource r ∧ matches_filter i dsType search r = true).
Proof.
  apply yields_on_data. unfold DatasourceService.Get, bind_ok. eapply yields_bind; [apply yields_select_ds|].
  intros [t|e] _; [|by apply yields_ret]. eapply yields_bind; [apply yields_select_ds|].
  intros [l|e] Hl; apply yields_ret; [|done]. specialize (Hl l eq_refl). intros l' t' [= <- _] ds Hds. rewrite <- Hl in Hds.
  apply list_elem_of_fmap in Hds as (r & -> & [Hr Hm]%elem_of_page%elem_of_order_by%elem_of_where). by exists r.
Qed.
Lemma yields_domain_sources s dsType search l : yields s (domain_sources dsType search l)
  (λ l', (∀ i, i ∈ l → 0 < i) → ∀ ds, ds ∈ l' → stored s ds ∧ ds_DomainID ds ∈ l).
Proof.
  induction l as [|i l IH]; simpl; [apply yields_ret; by intros _ i ?%not_elem_of_nil|].
  eapply yields_bind; [apply yields_Get|]. intros r Hr. eapply yields_bind; [apply IH|].
  intros l' Hl'. apply yields_ret. intros Hpos.
  assert (∀ ds, ds ∈ l' → stored s ds ∧ ds_DomainID ds ∈ i :: l) as Hrest.
  { intros ds Hds. destruct (Hl' ltac:(intros j Hj; apply Hpos; by right) ds Hds). split; [done|by right]. }
  destruct r as [[l1 t]|e]; [|done]. intros ds [Hds|Hds]%elem_of_app; [|by apply Hrest].
  destruct (Hr l1 t eq_refl ds Hds) as (r & Hin & -> & Hm). split; [by exists r|]. simpl.
  unfold matches_filter in Hm. rewrite !andb_true_iff, orb_true_iff in Hm. destruct Hm as [[[Hm|Hm%Z.eqb_eq] _] _]; [|rewrite Hm; by left].
  apply Z.leb_le in Hm. specialize (Hpos i ltac:(by left)). lia.
Qed.

Lemma highestPermission_either a b : highestPermission a b = a ∨ highestPermission a b = b.
Proof. unfold highestPermission. repeat case_match; auto. Qed.
Lemma pickHigherPermission_either a b : pickHigherPermission a b = a ∨ pickHigherPermission a b = b.
Proof. unfold pickHigherPermission. repeat case_match; auto. Qed.
Lemma effective_refl p : p ∈ GetEffectivePermissions p.
Proof.
  destruct (IsValidPermissionType p) eqn:E; [by apply elem_of_effective, includes_refl|].
  unfold GetEffectivePermissions. rewrite E. by left.
Qed.

(** A level is the type of a grant. *)
Definition backed s (userID id : Z) (p : string) : Prop :=
  ∃ g, g ∈ rows (st_grants s) ∧ g_instance g = id ∧ held (the_rbac s) userID g ∧ g_type g = p.
Lemma backed_by_grant s u id p types : backed s u id p → p ∈ types → by_grant (the_rbac s) (st_grants s) u id types.
Proof. intros (g & Hg & Hi & Hh & <-) Hp. by exists g. Qed.

Lemma levels_backed s u (gs : list Grant) (m : gmap Z string) :
  (∀ g, g ∈ gs → g ∈ rows (st_grants s) ∧ held (the_rbac s) u g) → (∀ id p, m !! id = Some p → backed s u id p) →
  ∀ id p, foldl (λ (result : gmap Z string) g,
        if (0 <? g_instance g) && negb (bool_decide (g_type g = "")) then
          <[g_instance g := match result !! g_instance g with
                            | Some existing => highestPermission existing (g_type g)
                            | None => g_type g
                            end]> result
        else result) m gs !! id = Some p → backed s u id p.
Proof.
  revert m. induction gs as [|g gs IH]; intros m Hgs Hm; simpl; [done|].
  apply IH; [intros g' Hg'; apply Hgs; by right|].
  destruct (Hgs g ltac:(by left)) as [Hg Hh]. destruct (_ && _); [|done].
  assert (backed s u (g_instance g) (g_type g)) as Hb by by exists g.
  intros id p. destruct (decide (g_instance g = id)) as [<-|Hne]; [|by rewrite lookup_insert_ne by done; apply Hm].
  rewrite lookup_insert_eq. intros [= <-]. destruct (m !! g_instance g) as [q|] eqn:E; [|done].
  destruct (highestPermission_either q (g_type g)) as [->| ->]; [by apply Hm|done].
Qed.
Lemma yields_levels s u ids : yields s (on_acc (GetUserDatasourcePermissionLevels u ids))
  (λ r, ∀ m, r = Ok m → ∀ id p, m !! id = Some p → backed s u id p).
Proof.
  apply yields_on_acc. unfold GetUserDatasourcePermissionLevels. destruct ids as [|i ids].
  { apply yields_ret. intros m [= <-] id p. by rewrite lookup_empty. }
  unfold bind_ok. eapply yields_bind; [eapply yields_answers, answers_query|].
  intros [gs|e] Hgs; apply yields_ret; [|done]. specialize (Hgs gs eq_refl). injection Hgs as Hgs. intros m [= <-].
  apply levels_backed; [|intros id p; by rewrite lookup_empty]. intros g Hg. rewrite <- Hgs in Hg.
  apply elem_of_where in Hg as [Hg [_ Hh]%andb_true_iff]. split; [done|]. by apply granted_to_true.
Qed.

(** The level shown, if it is more than the one shown to everybody, is one the
    user has. *)
Lemma level_sound s u (m : gmap Z string) admins r ds :
  found (ds_ID r) (data s) = Some r → ds = scan_datasource r →
  (∀ id p, m !! id = Some p → backed s u id p) → (∀ i, i ∈ admins → is_domain_admin (the_rbac s) u i) →
  level_of u m admins ds ≠ "read" → may_use_datasource (acc (data s)) u (ds_ID r) (level_of u m admins ds).
Proof.
  intros Hf -> Hm Ha Hne. right. exists r. split; [done|].
  set (p0 := default "" (m !! ds_ID r)). set (p1 := if bool_decide (ds_CreatedBy (scan_datasource r) = Some u) then "manage" else p0).
  set (p2 := if in_list (ds_DomainID r) admins then pickHigherPermission p1 "query" else p1).
  assert (level_of u m admins (scan_datasource r) = if bool_decide (p2 = "") then "read" else p2) as E by done.
  rewrite E in Hne |- *. case_bool_decide as Hp2; [done|].
  assert (p1 ≠ "" → default 0 (ds_CreatedBy r) = u ∨ by_grant (the_rbac s) (st_grants s) u (ds_ID r) (GetEffectivePermissions p1)) as H1.
  { unfold p1. case_bool_decide as Hc.
    - intros _. left. simpl in Hc. unfold positive in Hc. destruct (ds_CreatedBy r) as [c|]; [|done]. destruct (0 <? c); [by injection Hc|done].
    - intros Hp. right. unfold p0 in *. destruct (m !! ds_ID r) as [p|] eqn:Ep; [|done]. simpl.
      apply (backed_by_grant s u (ds_ID r) p); [by apply Hm|apply effective_refl]. }
  assert (p2 = p1 ∨ p2 = "query" ∧ ds_DomainID r ∈ admins) as [->|[-> Hd]].
  { unfold p2. destruct (in_list (ds_DomainID r) admins) eqn:Ei; [|by left]. apply in_list_true in Ei.
    destruct (pickHigherPermission_either p1 "query") as [->| ->]; [by left|by right]. }
  - destruct (H1 Hp2) as [Hc|Hg]; [by right; left|by right; right].
  - left. split; [by apply Ha|]. right. by left.
Qed.

Lemma yields_granted_sources s u search seen ids :
  (∀ id, id ∈ ids → by_grant (the_rbac s) (st_grants s) u id (GetEffectivePermissions "read")) →
  yields s (granted_sources search seen ids)
    (λ l, ∀ ds, ds ∈ l → stored s ds ∧ by_grant (the_rbac s) (st_grants s) u (ds_ID ds) (GetEffectivePermissions "read")).
Proof.
  revert seen. induction ids as [|id ids IH]; intros seen Hids; simpl; [apply yields_ret; by intros i ?%not_elem_of_nil|].
  assert (∀ i, i ∈ ids → by_grant (the_rbac s) (st_grants s) u i (GetEffectivePermissions "read")) as Hids' by (intros i Hi; apply Hids; by right).
  destruct (in_list id seen); [by apply IH|]. eapply yields_bind; [apply yields_GetByID|]. intros r Hr.
  eapply yields_bind; [by apply IH|]. intros l Hl. apply yields_ret. destruct r as [ds|e]; [|done].
  destruct (found_by search ds); [|done]. intros ds' [-> |Hin]%elem_of_cons; [|by apply Hl].
  destruct (Hr ds eq_refl) as (r & [Hr' <-]%found_inv & ->). split; [by exists r|]. simpl. apply Hids. by left.
Qed.

Lemma unseen_sub l seen ds : ds ∈ unseen seen l → ds ∈ l.
Proof.
  revert seen. induction l as [|x l IH]; intros seen; simpl; [done|]. destruct (in_list _ _).
  - intros Hin. right. by eapply IH.
  - intros [-> |Hin]%elem_of_cons; [by left|]. right. by eapply IH.
Qed.

(** Whose data sources the list is made of. *)
Definition visible s (userID : Z) (ds : Datasource) : Prop :=
  member s userID (ds_DomainID ds) ∨ by_grant (the_rbac s) (st_grants s) userID (ds_ID ds) (GetEffectivePermissions "read").
Lemma yields_readable s u : yields s (on_acc (GetUserDatasourceIDs u "read"))
  (λ r, ∀ l, r = Ok l → ∀ id, id ∈ l → by_grant (the_rbac s) (st_grants s) u id (GetEffectivePermissions "read")).
Proof.
  apply yields_on_acc. unfold GetUserDatasourceIDs, bind_ok. eapply yields_bind; [eapply yields_answers, answers_query|].
  intros [l|e] Hr; apply yields_ret; [|done]. specialize (Hr l eq_refl). injection Hr as Hr. intros l' [= <-] id [Hin _]%elem_of_where.
  rewrite <- Hr in Hin. apply elem_of_remove_dups, list_elem_of_fmap in Hin as (g & -> & [Hg Hb]%elem_of_where).
  apply andb_true_iff in Hb as [Hh%granted_to_true Ht%in_list_true]. by exists g.
Qed.
Definition domains_positive s : Prop := ∀ ud, ud ∈ rows (user_domains (the_rbac s)) → 0 < ud_domain ud.
Lemma yields_visible_sources s u dsType search :
  yields s (visible_sources u dsType search) (λ l, domains_positive s → ∀ ds, ds ∈ l → stored s ds ∧ visible s u ds).
Proof.
  unfold visible_sources. eapply yields_bind; [apply yields_user_domain_ids|]. intros ids Hids.
  eapply yields_bind; [apply yields_domain_sources|]. intros l1 Hl1.
  eapply yields_bind; [apply yields_readable|]. intros r Hr. eapply yields_bind.
  { apply (yields_granted_sources s u). destruct r as [l|e]; [by apply Hr|by intros i ?%not_elem_of_nil]. }
  intros l2 Hl2. apply yields_ret. intros Hpos ds [Hin%unseen_sub|Hin]%elem_of_app.
  - destruct (Hl1 ltac:(intros i Hi; destruct (Hids i Hi) as (ud & Hud & _ & <-); by apply Hpos) ds Hin) as [Hs Hd].
    split; [done|]. left. by apply Hids.
  - destruct (Hl2 ds Hin) as [Hs Hd]. split; [done|]. by right.
Qed.

Lemma slice_sub {A} (l : list A) a b l' x : slice l a b = Some l' → x ∈ l' → x ∈ l.
Proof.
  unfold slice. destruct (_ || _); [done|]. intros [= <-] Hx. apply (subseteq_take _ _ _) in Hx.
  rewrite <- (take_drop (Z.to_nat a) l). apply elem_of_app. by right.
Qed.

(** A level shown for a stored data source is one the user has. *)
Definition fair s (u : Z) (i : item) : Prop :=
  ∀ r, found (ds_ID r) (data s) = Some r → i_ds i = scan_datasource r → i_UserPermission i ≠ "read" →
  may_use_datasource (acc (data s)) u (ds_ID r) (i_UserPermission i).

Lemma yields_fillUserPermissions s u l : yields s (fillUserPermissions u l) (λ l', ∀ i, i ∈ l' → i_ds i ∈ l ∧ fair s u i).
Proof.
  destruct l as [|ds0 l0]; [apply yields_ret; by intros i ?%not_elem_of_nil|]. unfold fillUserPermissions.
  set (l := ds0 :: l0). eapply yields_bind; [apply yields_levels|]. intros r Hr.
  eapply yields_bind; [apply yields_user_domain_ids|]. intros ids _. eapply yields_bind; [apply yields_administered|].
  intros admins Ha. apply yields_ret. intros i (ds & -> & Hds)%list_elem_of_fmap. split; [done|].
  intros row Hf Hi Hne. simpl in *. apply level_sound; try done.
  destruct r as [m|e]; [by apply Hr|]. intros id p. by rewrite lookup_empty.
Qed.
(** The items are those of [l] but for the names of domains and users. *)
Lemma yields_fillDomainNames s l : yields s (fillDomainNames l)
  (λ l', ∀ i', i' ∈ l' → ∃ i, i ∈ l ∧ i_ds i' = i_ds i ∧ i_UserPermission i' = i_UserPermission i).
Proof.
  unfold fillDomainNames. destruct (negb _); [apply yields_ret; by eauto|].
  eapply (yields_bind _ _ _ (λ _, True)).
  { apply yields_on_users. eapply yields_weaken; [eapply yields_answers, answers_query|done]. }
  intros [ds|e] _; apply yields_ret; [|by eauto]. intros i' (i & -> & Hi)%list_elem_of_fmap. exists i.
  split; [done|]. by case_match.
Qed.
Lemma yields_real_name s o : yields s (real_name o) (λ _, True).
Proof.
  destruct o as [id|]; simpl; [|by apply yields_ret]. destruct (0 <? id); [|by apply yields_ret].
  eapply (yields_bind _ _ _ (λ _, True)); [|intros; by apply yields_ret].
  apply yields_on_users. eapply yields_weaken; [eapply yields_answers, answers_query|done].
Qed.
Lemma yields_shown_all s l : yields s (shown_all l)
  (λ l', ∀ x, x ∈ l' → ∃ i, i ∈ l ∧ i_ds (sh_item x) = masked "" (i_ds i) ∧ i_UserPermission (sh_item x) = i_UserPermission i).
Proof.
  induction l as [|i l IH]; simpl; [apply yields_ret; by intros x ?%not_elem_of_nil|].
  unfold datasourceToMap. eapply yields_bind.
  { eapply yields_bind; [apply yields_real_name|]. intros c _. eapply yields_bind; [apply yields_real_name|]. intros c' _.
    apply (yields_ret _ _ (λ x, i_ds (sh_item x) = masked "" (i_ds i) ∧ i_UserPermission (sh_item x) = i_UserPermission i)).
    done. }
  intros x Hx. eapply yields_bind; [apply IH|]. intros xs Hxs. apply yields_ret. intros y [-> |Hy]%elem_of_cons.
  - exists i. split; [by left|done].
  - destruct (Hxs y Hy) as (j & Hj & Hy'). exists j. split; [by right|done].
Qed.

(** What an answer shows. *)
Definition shows_only s (op : operator) (x : shown) : Prop :=
  ∃ r, r ∈ rows (st_sources s) ∧ i_ds (sh_item x) = masked "" (scan_datasource r) ∧
    (is_admin (the_rbac s) (op_id op) ∨ visible s (op_id op) (scan_datasource r)) ∧
    (i_UserPermission (sh_item x) ≠ "read" →
     may_use_datasource (acc (data s)) (op_id op) (ds_ID r) (i_UserPermission (sh_item x))).

Section list.
Context {A : Aead} (crypto : option Crypto).

Lemma yields_shown {B} s op l (f : list shown → B) : yields s (named ← fillDomainNames l; items ← shown_all named; mret (f items))
  (λ b, ∃ items, b = f items ∧ ((∀ i, i ∈ l → ∃ r, r ∈ rows (st_sources s) ∧ found (ds_ID r) (data s) = Some r ∧ i_ds i = scan_datasource r ∧
     (is_admin (the_rbac s) (op_id op) ∨ visible s (op_id op) (scan_datasource r)) ∧ fair s (op_id op) i) →
     ∀ x, x ∈ items → shows_only s op x)).
Proof.
  eapply yields_bind; [apply yields_fillDomainNames|]. intros l1 Hl1.
  eapply yields_bind; [apply yields_shown_all|]. intros l2 Hl2. apply yields_ret. exists l2. split; [done|]. intros Hl x Hx.
  destruct (Hl2 x Hx) as (i1 & Hi1 & Hds & Hp). destruct (Hl1 i1 Hi1) as (i & Hi & Hds' & Hp').
  destruct (Hl i Hi) as (r & Hr & Hf & He & Hv & Hfair). exists r. rewrite Hds, Hds', He, Hp, Hp'.
  split_and!; [done|done|done|]. by apply Hfair.
Qed.

Lemma yields_List s op dsType search page page_size domain_id :
  yields s (List_ op dsType search page page_size domain_id)
    (λ o, sources_ok crypto (data s) → domains_positive s → ∀ items total, o = Some (Success (items, total)) → ∀ x, x ∈ items → shows_only s op x).
Proof.
  unfold List_. eapply yields_bind; [apply yields_is_admin_caller|]. intros [|] Hadm.
  - specialize (Hadm eq_refl). eapply yields_bind; [apply yields_Get|]. intros [[l total]|e] Hl; [|by apply yields_ret].
    eapply yields_weaken; [apply (yields_shown s op)|]. intros o (items & -> & Hx) Hok _ items' t [= <- <-]. apply Hx.
    intros i (ds & -> & Hds)%list_elem_of_fmap. destruct (Hl l total eq_refl ds Hds) as (r & Hr & -> & _).
    exists r. split_and!; [done|by apply (found_Some crypto)|done|by left|]. intros r' _ _ _. by left.
  - eapply yields_bind; [apply yields_visible_sources|]. intros l Hl.
    eapply yields_bind; [apply yields_fillUserPermissions|]. intros l1 Hl1.
    destruct (page_slice _ _ l1) as [paged|] eqn:Ep; [|by apply yields_ret].
    eapply yields_weaken; [apply (yields_shown s op)|]. intros o (items & -> & Hx) Hok Hpos items' t [= <- <-]. apply Hx.
    intros i Hi. apply (slice_sub _ _ _ _ _ Ep) in Hi. destruct (Hl1 i Hi) as [Hin Hfair].
    destruct (Hl Hpos _ Hin) as [(r & Hr & He) Hv]. exists r. rewrite <- He.
    split_and!; [done|by apply (found_Some crypto)|done|by right|done].
Qed.

(** whatever fails, the list of data sources changes nothing and shows a
    caller who is no administrator only stored data sources of its domains and
    those it holds a grant to read, without their passwords; and every level
    shown with one, but for the [read] that everybody sees, is a permission the
    check of the routes grants. *)
Theorem List_shows_own_sources s op dsType search page page_size domain_id fs
    (Hok : sources_ok crypto (data s)) (Hpos : domains_positive s) :
  let '(o, s') := run (List_ op dsType search page page_size domain_id) s fs in
  s' = s ∧
  ∀ items total, o = Some (Success (items, total)) → ∀ x, x ∈ items →
  ∃ r, r ∈ rows (st_sources s) ∧ i_ds (sh_item x) = masked "" (scan_datasource r) ∧
    (is_admin (the_rbac s) (op_id op) ∨ member s (op_id op) (ds_DomainID r) ∨
     by_grant (the_rbac s) (st_grants s) (op_id op) (ds_ID r) (GetEffectivePermissions "read")) ∧
    (i_UserPermission (sh_item x) ≠ "read" →
     may_use_datasource (acc (data s)) (op_id op) (ds_ID r) (i_UserPermission (sh_item x))).
Proof.
  destruct (yields_List s op dsType search page page_size domain_id fs) as [Hs Hx]. specialize (Hx Hok Hpos).
  rewrite <- run_state in Hs. rewrite <- run_answer in Hx. by destruct (run _ s fs).
Qed.
End list.
