(* ===== verification/DatasourceRoutes.v ===== *)
(** * The routes of data sources

    What the requests of [DatasourceHandler] may change.  Each leads to a
    sequence of the elementary changes below, of one kind ([target]); with the
    checks of the middleware ([Auth]) it is a [route].  The theorems say who may
    change what, and that statements that write need an administrator. *)
From Stdlib Require Import Ascii.
From S2P Require Import Prelude Sql Permission Crypto RsaUtil Users UserGuards ApiToken Auth Sessions Access DatasourceService Text.
From S2P Require Import DatasourceHandler.
Implicit Types s : state.

(** ** What a request changes

    The elementary changes: to one data source, by a new one, to the grants of
    one data source or to any grant, or to the history and the saved queries. *)
Inductive target : Type := TSource (id : Z) | TNew | TGrantsOf (id : Z) | TGrants | TQueries.

Definition put_acc (a : idb) s : state := put_data (mkDdb a (histories (data s)) (saved (data s)) (removed (data s))) s.

Section changes.
Context {A : Aead} (crypto : option Crypto) (test : Datasource → bool).
Variable op : operator.

Inductive change : target → state → state → Prop :=
| c_insert ds password now id d' s :
    may_write_sql op (AllowWriteSQL ds) = true → hidden crypto password →
    insert_source ds password now (data s) = Some (id, d') → change TNew s (put_data d' s)
| c_update ds row password now u d' s :
    found (ds_ID ds) (data s) = Some row → hidden crypto password →
    (AllowWriteSQL ds = true → may_write_sql op true = true ∨ AllowWriteSQL row = true) →
    update_source ds password now (data s) = Some (u, d') → change (TSource (ds_ID ds)) s (put_data d' s)
| c_delete id s : change (TSource id) s (put_data (set_acc (set_datasources (delete_where (λ r, ds_ID r =? id))) (data s)) s)
| c_tested id status now s :
    change (TSource id) s (put_data (set_acc (set_datasources (update_where (λ r, ds_ID r =? id) (tested_row status now))) (data s)) s)
| c_removed id t s : change t s (put_data (run (RemoveDatasource id) (data s) []).2 s)
| c_grants_of id a s : rbac a = the_rbac s → datasources a = st_sources s →
    (∀ g, g_instance g ≠ id → g ∈ rows (ds_grants a) ↔ g ∈ rows (st_grants s)) → change (TGrantsOf id) s (put_acc a s)
| c_grants a s : rbac a = the_rbac s → datasources a = st_sources s → change TGrants s (put_acc a s)
| c_histories f s : change TQueries s (put_data (set_histories f (data s)) s)
| c_saved f s : change TQueries s (put_data (set_saved f (data s)) s).

Lemma data_put (d : ddb) s : data (put_data d s) = d.
Proof. destruct d as [[? ? ? ? ?] ? ? ?]. reflexivity. Qed.
Lemma put_put (d d' : ddb) s : put_data d (put_data d' s) = put_data d s.
Proof. reflexivity. Qed.

(** *** Requests as sequences of changes *)

(** [leads s m R]: run from [s], whatever fails, [m] ends where [R] holds. *)
Definition leads {S B} (s : S) (m : M S B) (R : B → S → Prop) : Prop := ∀ fs, R (m s fs).1 (m s fs).2.1.

Lemma leads_ret {S B} (s : S) (b : B) (R : B → S → Prop) : R b s → leads s (mret b) R.
Proof. by intros HR fs. Qed.
Lemma leads_after {S B C} (s : S) (m : M S B) (k : B → M S C) (R : B → Prop) Q :
  yields s m R → (∀ b, R b → leads s (k b) Q) → leads s (m ≫= k) Q.
Proof.
  intros Hm Hk fs. rewrite run_bind. destruct (Hm fs) as [Hs HR]. destruct (m s fs) as [b [s' fs']]. simpl in *. subst s'.
  by apply Hk.
Qed.
Lemma leads_then {S B C} (s : S) (m : M S B) (k : B → M S C) (R : B → S → Prop) Q :
  leads s m R → (∀ b (x : S), R b x → leads x (k b) Q) → leads s (m ≫= k) Q.
Proof. intros Hm Hk fs. rewrite run_bind. specialize (Hm fs). destruct (m s fs) as [b [s' fs']]. by apply Hk. Qed.

(** The state is as it was or changed at [t]. *)
Definition to (t : target) s (B : Type) (_ : B) s' : Prop := rtc (change t) s s'.

Lemma leads_write (f : ddb → ddb) t s : change t s (put_data (f (data s)) s) → leads s (on_data (DatasourceService.write f)) (to t s _).
Proof.
  intros Hc fs. unfold on_data, zoom, DatasourceService.write, or_err, exec. rewrite run_bind. unfold call, to.
  destruct fs as [|[] fs]; simpl; try (apply rtc_once; done). rewrite put_data_id. done.
Qed.
Lemma leads_write_checked {B} (f : ddb → option (B * ddb)) t s :
  (∀ b d', f (data s) = Some (b, d') → change t s (put_data d' s)) → leads s (on_data (write_checked f)) (to t s _).
Proof.
  intros Hc fs. unfold on_data, zoom, write_checked, or_err, exec_checked, to. rewrite !run_bind. unfold call.
  destruct fs as [|[] fs]; destruct (f (data s)) as [[b d']|] eqn:E; simpl; rewrite ?put_data_id; try done;
    apply rtc_once; by eapply Hc.
Qed.
Lemma leads_removed id t s : leads s (on_data (RemoveDatasource id)) (to t s _).
Proof. intros fs. apply rtc_once, c_removed. Qed.
Lemma leads_ret_to {B} (b : B) t s0 s : rtc (change t) s0 s → leads s (mret b) (to t s0 B).
Proof. by intros HR fs. Qed.
Lemma leads_extend {B} (m : M state B) t s0 s : rtc (change t) s0 s → leads s m (to t s B) → leads s m (to t s0 B).
Proof. intros H1 H2 fs. unfold to. etrans; [done|]. apply H2. Qed.
Lemma leads_quiet {B} (m : M state B) t s R : yields s m R → leads s m (to t s B).
Proof. intros Hm fs. unfold to. destruct (Hm fs) as [-> _]. apply rtc_refl. Qed.
Lemma leads_map {B C} (m : M state B) (f : B → C) t s : leads s m (to t s B) → leads s (b ← m; mret (f b)) (to t s C).
Proof. intros Hm. eapply leads_then; [done|]. intros b s' Hs. by apply leads_ret. Qed.

(** A service's calls one after the other. *)
Lemma on_data_bind {B C} (m : M ddb B) (k : B → M ddb C) s fs : on_data (m ≫= k) s fs = (b ← on_data m; on_data (k b)) s fs.
Proof.
  unfold on_data, zoom. rewrite !run_bind. destruct (m (data s) fs) as [b [d fs']]. simpl. rewrite data_put.
  destruct (k b d fs') as [c [d' fs'']]. by rewrite put_put.
Qed.
Lemma leads_on_data_bind {B C} (m : M ddb B) (k : B → M ddb C) s Q :
  leads s (b ← on_data m; on_data (k b)) Q → leads s (on_data (m ≫= k)) Q.
Proof. intros Hl fs. rewrite on_data_bind. apply Hl. Qed.
Lemma on_data_ret {B} (b : B) s fs : on_data (mret b) s fs = (b, (s, fs)).
Proof. unfold on_data, zoom. simpl. by rewrite put_data_id. Qed.
Lemma leads_on_data_ret {B} (b : B) s Q : Q b s → leads s (on_data (mret b)) Q.
Proof. intros Hq fs. by rewrite on_data_ret. Qed.
Lemma yields_select_on {B} (f : ddb → B) s : yields s (on_data (DatasourceService.select f)) (λ r, ∀ a, r = Ok a → f (data s) = a).
Proof. apply yields_on_data, yields_select_ds. Qed.
Lemma leads_same {B} (b : B) t s : leads s (mret b) (to t s B).
Proof. intros fs. unfold to. apply rtc_refl. Qed.
Lemma leads_same_data {B} (b : B) t s : leads s (on_data (mret b)) (to t s B).
Proof. apply leads_on_data_ret. unfold to. apply rtc_refl. Qed.

Lemma leads_service_Create now nonce ds s :
  may_write_sql op (AllowWriteSQL ds) = true → leads s (on_data (DatasourceService.Create crypto now nonce ds)) (to TNew s _).
Proof.
  intros Hw. unfold DatasourceService.Create, bind_ok. apply leads_on_data_bind.
  eapply leads_after; [apply yields_select_on|]. intros [n|e] _; [|apply leads_same_data].
  destruct (0 <? n); [apply leads_same_data|]. apply leads_write_checked. intros id d'.
  apply c_insert; [done|]. apply encrypted_hidden.
Qed.
Lemma leads_service_Update now nonce ds s :
  sources_ok crypto (data s) →
  (∀ row, found (ds_ID ds) (data s) = Some row → AllowWriteSQL ds = true → may_write_sql op true = true ∨ AllowWriteSQL row = true) →
  leads s (on_data (DatasourceService.Update crypto now nonce ds)) (to (TSource (ds_ID ds)) s _).
Proof.
  intros Hok Hw. unfold DatasourceService.Update, bind_ok. apply leads_on_data_bind.
  eapply leads_after; [apply yields_GetByID|]. intros [ex|e] Hex; [|apply leads_same_data].
  destruct (Hex ex eq_refl) as (row & Hf & ->). apply leads_on_data_bind. eapply leads_then.
  - apply (leads_write_checked _ (TSource (ds_ID ds))). intros u d'. apply (c_update _ row); [done| |by apply Hw].
    case_bool_decide; [|apply encrypted_hidden]. exact (so_hidden _ _ Hok row (proj1 (found_inv _ _ _ Hf))).
  - intros [u|e] s' Hs'; [|by apply leads_on_data_ret]. apply leads_on_data_bind. eapply leads_then.
    + eapply leads_extend; [exact Hs'|apply leads_removed].
    + intros b s'' Hs''. by apply leads_on_data_ret.
Qed.
Lemma leads_service_Delete id s : leads s (on_data (DatasourceService.Delete id)) (to (TSource id) s _).
Proof.
  unfold DatasourceService.Delete. apply leads_on_data_bind. eapply leads_then; [apply (leads_removed id (TSource id))|].
  intros b s' Hs'. eapply leads_extend; [exact Hs'|]. apply leads_write, c_delete.
Qed.
Lemma leads_service_Test now id s : leads s (on_data (TestDatasource test now id)) (to (TSource id) s _).
Proof.
  unfold TestDatasource, bind_ok. apply leads_on_data_bind. eapply leads_after; [apply yields_GetByID|].
  intros [ds|e] _; [|apply leads_same_data]. apply leads_on_data_bind. eapply leads_then.
  - apply leads_write, c_tested.
  - intros r s' Hs'. by apply leads_on_data_ret.
Qed.

(** *** The handlers *)
Lemma leads_parsed {B} id msg (k : Z → M state (reply B)) s R :
  (∀ n, ParseInt id = (n, true) → leads s (k n) R) → (∀ r, R r s) → leads s (parsed id msg k) R.
Proof. intros Hk Hr. unfold parsed. destruct (ParseInt id) as [n [|]] eqn:E; [by apply Hk|by apply leads_ret]. Qed.

Lemma leads_Create now nonce req s : leads s (Create crypto test op now nonce req) (to TNew s _).
Proof.
  unfold Create. destruct req as [q|]; [|apply leads_same]. destruct (_ || _); [apply leads_same|]. destruct (negb _); [apply leads_same|].
  destruct (may_write_sql op _) eqn:Ew; [|apply leads_same]. simpl. destruct (negb _); [apply leads_same|].
  apply leads_map. by apply leads_service_Create.
Qed.
Lemma leads_store_update now nonce q row s :
  sources_ok crypto (data s) → found (ds_ID row) (data s) = Some row →
  leads s (store_update crypto op now nonce q (scan_datasource row)) (to (TSource (ds_ID row)) s _).
Proof.
  intros Hok Hf. unfold store_update. destruct (may_write_sql op _) eqn:Ew; [|apply leads_same]. simpl. eapply leads_then.
  - apply (leads_service_Update now nonce (apply_update (op_id op) q (scan_datasource row)) s Hok). simpl. intros row' Hf'.
    rewrite Hf in Hf'. injection Hf' as <-. destruct (uq_AllowWriteSQL q) as [b|]; [|by right]. simpl in *. intros ->. by left.
  - intros [u|e] s' Hs'; [|by apply leads_ret]. eapply leads_then.
    + eapply leads_extend; [exact Hs'|apply leads_removed].
    + intros b s'' Hs''. by apply leads_ret.
Qed.
Lemma leads_Update now nonce id req s :
  sources_ok crypto (data s) →
  leads s (Update crypto op now nonce id req) (λ _ s', s' = s ∨ ∃ n, ParseInt id = (n, true) ∧ rtc (change (TSource n)) s s').
Proof.
  intros Hok. unfold Update. apply leads_parsed; [|by left]. intros n Hn. destruct req as [q|]; [|by apply leads_ret; left].
  eapply leads_after; [apply yields_GetByID|]. intros [ds|e] Hds; [|by apply leads_ret; left].
  destruct (Hds ds eq_refl) as (row & Hf & ->). pose proof (found_inv _ _ _ Hf) as [_ Hid]. subst n.
  intros fs. right. exists (ds_ID row). split; [done|]. by apply leads_store_update.
Qed.
Lemma leads_Delete id s :
  leads s (Delete id) (λ _ s', s' = s ∨ ∃ n, ParseInt id = (n, true) ∧ rtc (change (TSource n)) s s').
Proof.
  unfold Delete. apply leads_parsed; [|by left]. intros n Hn. eapply leads_after; [apply yields_GetByID|]. intros _ _.
  eapply leads_then; [apply leads_service_Delete|]. intros [u|e] s' Hs'; [|by apply leads_ret; right; exists n].
  eapply leads_then; [eapply leads_extend; [exact Hs'|apply leads_removed]|]. intros b s'' Hs''.
  apply leads_ret. right. by exists n.
Qed.
Lemma leads_TestConnection now id s :
  leads s (TestConnection test now id) (λ _ s', s' = s ∨ ∃ n, ParseInt id = (n, true) ∧ rtc (change (TSource n)) s s').
Proof.
  unfold TestConnection. apply leads_parsed; [|by left]. intros n Hn. eapply leads_after; [apply yields_GetByID|].
  intros [ds|e] _; [|by apply leads_ret; left]. eapply leads_then; [apply leads_service_Test|]. intros r s' Hs'.
  apply leads_ret. right. by exists n.
Qed.

Lemma leads_on_acc {B} (m : M idb B) s (R : B → idb → Prop) (Q : B → state → Prop) :
  triple (λ a, a = acc (data s)) m R → (∀ b a, R b a → Q b (put_acc a s)) → leads s (on_acc m) Q.
Proof.
  intros Hm HQ fs. unfold on_acc, on_data, zoom. specialize (Hm _ fs eq_refl). destruct (m (acc (data s)) fs) as [b [a fs']].
  by apply HQ.
Qed.
Lemma GrantPermission_of now instance role user p by_ d :
  triple (λ a, a = d) (Access.GrantPermission now instance role user p by_)
    (λ _ a, rbac a = rbac d ∧ datasources a = datasources d ∧
            ∀ g, g_instance g ≠ instance → g ∈ rows (ds_grants a) ↔ g ∈ rows (ds_grants d)).
Proof.
  intros a fs ->. pose proof (GrantPermission_effects now instance role user p by_ d fs) as (Hr & Hs & d1 & (_ & _ & Hg) & Hd).
  rewrite run_state in Hr, Hs, Hd. split; [done|]. split; [done|]. intros g Hne.
  assert (g ∈ rows (ds_grants d1) ↔ g ∈ rows (ds_grants d)) as H1.
  { destruct Hg as [->| ->]; [done|]. split; [by intros [? _]%elem_of_where|]. intros Hin. apply elem_of_where. split; [done|].
    unfold lower_of. by rewrite (proj2 (Z.eqb_neq _ _) Hne). }
  rewrite <- H1. destruct Hd as [->|[id Hi]]; [done|]. unfold insert_ds_grant in Hi.
  destruct (insert_grant _ _ _ _ _ _ _ _) as [[i t]|] eqn:Et; [|done]. simpl in Hi. injection Hi as _ <-.
  apply insert_grant_rows in Et as [_ Et]. simpl. rewrite Et, elem_of_app, list_elem_of_singleton.
  split; [intros [?| ->]; [done|by destruct Hne]|by left].
Qed.
(** Only grants change. *)
Definition grants_only (d a : idb) : Prop := rbac a = rbac d ∧ datasources a = datasources d.
Lemma grants_only_writes {B} d (m : M idb B) : preserves (grants_only d) m → triple (λ a, a = d) m (λ _ a, grants_only d a).
Proof. intros Hm a fs ->. by apply Hm. Qed.

Lemma leads_GrantPermission now id req s :
  leads s (GrantPermission op now id req) (λ _ s', s' = s ∨ ∃ n, ParseInt id = (n, true) ∧ rtc (change (TGrantsOf n)) s s').
Proof.
  unfold GrantPermission. destruct req as [q|]; [|by apply leads_ret; left]. destruct (bool_decide _); [by apply leads_ret; left|].
  destruct (_ && _); [by apply leads_ret; left|]. destruct (negb _); [by apply leads_ret; left|].
  apply leads_parsed; [|by left]. intros n Hn. eapply (leads_then _ _ _ (λ _ s', rtc (change (TGrantsOf n)) s s')).
  - eapply leads_on_acc; [apply GrantPermission_of|]. intros b a (Hr & Hs & Hg). by apply rtc_once, c_grants_of.
  - intros b s' Hs'. apply leads_ret. right. by exists n.
Qed.
Lemma leads_grants {B} (m : M idb B) s : (∀ d, preserves (grants_only d) m) → leads s (on_acc m) (to TGrants s B).
Proof.
  intros Hm. eapply leads_on_acc; [apply grants_only_writes, Hm|]. intros b a [Hr Hs]. by apply rtc_once, c_grants.
Qed.
Lemma leads_RevokePermission perm_id s : leads s (RevokePermission perm_id) (to TGrants s _).
Proof.
  unfold RevokePermission. apply leads_parsed; [|intros r; apply rtc_refl]. intros n _. apply leads_map, leads_grants. intros d.
  unfold Access.RevokePermission, or_err, exec. repeat preserves_step. by apply preserves_call.
Qed.
Lemma leads_UpdatePermission now perm_id req s : leads s (UpdatePermission now perm_id req) (to TGrants s _).
Proof.
  unfold UpdatePermission. apply leads_parsed; [|intros r; apply rtc_refl]. intros n _. destruct req as [p|]; [|apply leads_same].
  destruct (bool_decide _); [apply leads_same|]. destruct (negb _); [apply leads_same|]. apply leads_map, leads_grants. intros d.
  unfold Access.UpdatePermission, bind_ok, Access.select, or_err, query, exec_checked. repeat preserves_step; apply preserves_call; intros d'.
  - done.
  - intros Hd. unfold retype. by destruct (existsb _ _).
Qed.
End changes.

(** *** What the changes leave alone *)
Lemma found_map (f : Datasource → Datasource) (p : Datasource → bool) i l : (∀ x, ds_ID (f x) = ds_ID x) →
  head (where_ (λ r, ds_ID r =? i) (map (λ x, if p x then f x else x) l)) =
  (λ x, if p x then f x else x) <$> head (where_ (λ r, ds_ID r =? i) l).
Proof.
  intros Hf. unfold where_. induction l as [|x l IH]; [done|]. cbn [map]. rewrite !filter_cons.
  assert (ds_ID (if p x then f x else x) = ds_ID x) as -> by (by destruct (p x)). by case_decide.
Qed.
(** An update of the rows with an identifier. *)
Lemma found_updated (f : Datasource → Datasource) id i (l : list Datasource) : (∀ x, ds_ID (f x) = ds_ID x) →
  let l' := map (λ x, if ds_ID x =? id then f x else x) l in
  (i ≠ id → head (where_ (λ r, ds_ID r =? i) l') = head (where_ (λ r, ds_ID r =? i) l)) ∧
  (head (where_ (λ r, ds_ID r =? i) l) = None → head (where_ (λ r, ds_ID r =? i) l') = None).
Proof.
  intros Hf l'. unfold l'. rewrite (found_map f) by done. split; [|by intros ->].
  intros Hne. destruct (head _) as [r|] eqn:E; [|done]. simpl.
  assert (r ∈ where_ (λ r, ds_ID r =? i) l) as [_ Hr%Z.eqb_eq]%elem_of_where by (destruct (where_ _ l); [done|]; simplify_eq/=; by left).
  destruct (Z.eqb_spec (ds_ID r) id); [congruence|done].
Qed.
Lemma found_deleted id i (l : list Datasource) :
  let l' := where_ (λ r, negb (ds_ID r =? id)) l in
  (i ≠ id → head (where_ (λ r, ds_ID r =? i) l') = head (where_ (λ r, ds_ID r =? i) l)) ∧
  (head (where_ (λ r, ds_ID r =? i) l) = None → head (where_ (λ r, ds_ID r =? i) l') = None).
Proof.
  intros l'. unfold l', where_. induction l as [|x l [IH1 IH2]]; [done|]. rewrite !filter_cons.
  destruct (Z.eqb_spec (ds_ID x) id) as [Hid|Hid]; simpl.
  - split; [|by case_decide]. intros Hne. case_decide as Hi; [|by apply IH1]. apply Z.eqb_eq in Hi. congruence.
  - rewrite !filter_cons. split; case_decide; auto.
Qed.

Section effects.
Context {A : Aead} (crypto : option Crypto) (op : operator).

Definition effect (t : target) s s' : Prop :=
  st_users s' = st_users s ∧
  match t with
  | TSource n => st_grants s' = st_grants s ∧ (∀ i, i ≠ n → found i (data s') = found i (data s)) ∧
                 (found n (data s) = None → found n (data s') = None)
  | TNew => st_grants s' = st_grants s ∧ (∀ i, found i (data s) ≠ None → found i (data s') = found i (data s))
  | TGrantsOf n => st_sources s' = st_sources s ∧ (∀ g, g_instance g ≠ n → g ∈ rows (st_grants s') ↔ g ∈ rows (st_grants s))
  | TGrants => st_sources s' = st_sources s
  | TQueries => st_sources s' = st_sources s ∧ st_grants s' = st_grants s
  end.

Lemma effect_refl t s : effect t s s.
Proof. split; [done|]. by destruct t. Qed.
Lemma effect_trans t s s1 s2 : effect t s s1 → effect t s1 s2 → effect t s s2.
Proof.
  intros [Hu1 H1] [Hu2 H2]. split; [congruence|]. destruct t as [n| |n| |].
  - destruct H1 as (Hg1 & Ho1 & Hn1), H2 as (Hg2 & Ho2 & Hn2). split; [congruence|]. split; [|by auto].
    intros i Hi. by rewrite Ho2, Ho1.
  - destruct H1 as (Hg1 & Ho1), H2 as (Hg2 & Ho2). split; [congruence|]. intros i Hi. by rewrite Ho2, Ho1 by (rewrite ?Ho1; done).
  - destruct H1 as (Hs1 & Hg1), H2 as (Hs2 & Hg2). split; [congruence|]. intros g Hg. by rewrite Hg2, Hg1.
  - congruence.
  - destruct H1, H2. split; congruence.
Qed.
Lemma users_kept (d : ddb) s : rbac (acc d) = the_rbac s → st_users (put_data d s) = st_users s.
Proof. intros Hr. simpl. rewrite Hr. unfold the_rbac. by destruct (st_users s). Qed.

Lemma change_effect t s s' : change crypto op t s s' → effect t s s'.
Proof.
  intros Hc. destruct Hc as [ds password now id d' s _ _ Hi|ds row password now u d' s Hf _ _ Hu|id s|id status now s|id t s|
    id a s Hr Hs Hg|a s Hr Hs|f s|f s]; unfold effect.
  - unfold insert_source in Hi. destruct (name_clash _ _ _ _); [done|]. injection Hi as _ <-.
    split; [by apply users_kept|]. split; [done|]. intros i Hi. rewrite data_put. unfold found, sources in *. simpl in *.
    unfold where_ in *. rewrite filter_app. by destruct (filter _ (rows (st_sources s))).
  - unfold update_source in Hu. destruct (_ && _); [done|]. injection Hu as _ <-. split; [by apply users_kept|].
    split; [done|]. rewrite data_put. unfold found, sources. simpl.
    split; [intros i|]; by apply (found_updated (updated_row ds password now) (ds_ID ds)).
  - split; [by apply users_kept|]. split; [done|]. rewrite data_put. unfold found, sources. simpl.
    split; [intros i|]; by apply (found_deleted id).
  - split; [by apply users_kept|]. split; [done|]. rewrite data_put. unfold found, sources. simpl.
    split; [intros i|]; by apply (found_updated (tested_row status now) id).
  - split; [by apply users_kept|]. by destruct t.
  - split; [by apply users_kept|done].
  - split; [by apply users_kept|done].
  - split; [by apply users_kept|done].
  - split; [by apply users_kept|done].
Qed.
Lemma changes_effect t s s' : rtc (change crypto op t) s s' → effect t s s'.
Proof.
  intros Hr. induction Hr as [s|s s1 s2 Hc _ IH]; [apply effect_refl|]. eapply effect_trans; [by apply change_effect|done].
Qed.
End effects.

(** ** The routes *)
Inductive source_request : Type :=
| SGet | SUpdate (nonce : string) (req : option UpdateRequest) | SDelete | STest | SGrant (req : option grant_request)
| SUpdatePermission (perm_id : string) (req : option string) | SRevoke (perm_id : string) | SPermissions.
(** [body] is the [datasource_id] the middleware finds in the body. *)
Inductive request : Type :=
| OnSource (id : string) (body : Z) (q : source_request)
| QList (dsType search page page_size domain_id : string)
| QTest (req : option CreateRequest)
| QCreate (nonce : string) (req : option CreateRequest)
| QHistory (domain_id page page_size datasource_id executed_by status start_time end_time search : string)
| QForget (id : string)
| QForgetAll (req : option (list Z))
| QSave (req : option save_request)
| QListSaved (domain_id page page_size search : string)
| QUpdateSaved (id : string) (req : option save_request)
| QDeleteSaved (id : string).

Definition permission_of (q : source_request) : string :=
  match q with
  | SGet | STest => "read"
  | SUpdate _ _ => "update"
  | SDelete => "delete"
  | SGrant _ | SUpdatePermission _ _ | SRevoke _ | SPermissions => "manage"
  end.
Definition method_of (q : source_request) : string :=
  match q with
  | SGet | SPermissions => "GET"
  | SUpdate _ _ | SUpdatePermission _ _ => "PUT"
  | SDelete | SRevoke _ => "DELETE"
  | STest | SGrant _ => "POST"
  end.

Section routes.
Context {A : Aead} (crypto : option Crypto) (test : Datasource → bool).

Definition through {B} (m : M state (verdict unit)) (h : M state B) : M state (verdict unit) :=
  v ← m; match v with Next _ => _ ← h; mret (Next tt) | Abort status e => mret (Abort status e) end.
Definition ignored {B} (m : M state B) : M state unit := _ ← m; mret tt.
Definition serve_source (op : operator) (now : Z) (id : string) (q : source_request) : M state unit :=
  match q with
  | SGet => ignored (Get id)
  | SUpdate nonce req => ignored (Update crypto op now nonce id req)
  | SDelete => ignored (Delete id)
  | STest => ignored (TestConnection test now id)
  | SGrant req => ignored (GrantPermission op now id req)
  | SUpdatePermission perm_id req => ignored (UpdatePermission now perm_id req)
  | SRevoke perm_id => ignored (RevokePermission perm_id)
  | SPermissions => ignored (GetPermissions id)
  end.
Definition source_check (op : operator) (id : string) (body : Z) (q : source_request) : M state (verdict unit) :=
  DatasourcePermissionMiddleware (λ u i p, on_acc (HasDatasourcePermission u i p)) (permission_of q) (method_of q) id body (op_id op).
Definition datasource_check (op : operator) (action : string) : M state (verdict unit) :=
  on_users (RequirePermission "datasource" action (mkIdentity (op_id op) "" "" (op_domain op) ByJwt)).
Definition serve_other (op : operator) (now : Z) (q : request) : M state unit :=
  match q with
  | OnSource _ _ _ => mret tt
  | QList dsType search page page_size domain_id => ignored (List_ op dsType search page page_size domain_id)
  | QTest req => ignored (TestConnectionByParams test req)
  | QCreate nonce req => ignored (Create crypto test op now nonce req)
  | QHistory domain_id page page_size datasource_id executed_by status start_time end_time search =>
      ignored (GetHistory op domain_id page page_size datasource_id executed_by status start_time end_time search)
  | QForget id => ignored (DeleteQueryHistory id)
  | QForgetAll req => ignored (BatchDeleteQueryHistory req)
  | QSave req => ignored (SaveSQL op now req)
  | QListSaved domain_id page page_size search => ignored (ListSavedSQL op domain_id page page_size search)
  | QUpdateSaved id req => ignored (UpdateSavedSQL op now id req)
  | QDeleteSaved id => ignored (DeleteSavedSQL id)
  end.
(** The history and the saved queries have no check. *)
Definition other_check (op : operator) (q : request) : M state (verdict unit) :=
  match q with
  | QList _ _ _ _ _ => datasource_check op "read"
  | QTest _ | QCreate _ _ => datasource_check op "create"
  | _ => mret (Next tt)
  end.
Definition route (op : operator) (now : Z) (q : request) : M state (verdict unit) :=
  match q with
  | OnSource id body q => through (source_check op id body q) (serve_source op now id q)
  | _ => through (other_check op q) (serve_other op now q)
  end.
End routes.

(** *** The two readers of numbers *)
Lemma digit_all c (t : string) : all_digits (String c t) = true → Users.digit c = true ∧ all_digits t = true.
Proof. intros [Hc Ht]%andb_true_iff. by split. Qed.
Lemma digit_value c : Users.digit c = true → Z.of_N (N_of_ascii c - 48) = Z.of_N (N_of_ascii c) - 48.
Proof. unfold Users.digit. intros [Hl%N.leb_le _]%andb_true_iff. lia. Qed.
Lemma leading_digits (t : string) acc : all_digits t = true → leading t (Some acc) = Some (decimal acc t).
Proof.
  revert acc. induction t as [|c t IH]; intros acc; [done|]. intros [Hc Ht]%digit_all. simpl. rewrite Hc, IH by done.
  simpl. rewrite (digit_value c Hc). do 2 f_equal. lia.
Qed.
Lemma leading_number (t : string) : t ≠ "" → all_digits t = true → leading t None = Some (decimal 0 t).
Proof.
  intros Hne Hd. rewrite <- leading_digits by done. destruct t as [|c t]; [done|]. apply digit_all in Hd as [Hc _].
  simpl. by rewrite Hc.
Qed.
Definition blank (c : ascii) : bool := let n := N_of_ascii c in (n =? 32)%N || ((9 <=? n) && (n <=? 13) && negb (n =? 10))%N.
Lemma skip_nonblank c (t : string) : blank c = false → skip_blanks (String c t) = String c t.
Proof. unfold blank. intros Hb. simpl. by rewrite Hb. Qed.
Lemma digit_not_blank c : Users.digit c = true → blank c = false.
Proof.
  unfold Users.digit, blank. intros [H1%N.leb_le H2%N.leb_le]%andb_true_iff. apply orb_false_iff.
  split; [apply N.eqb_neq; lia|]. apply andb_false_iff. left. apply andb_false_iff. right. apply N.leb_gt. lia.
Qed.
(** A number the handler reads is the one the middleware checked. *)
Lemma parsers_agree id n : ParseInt id = (n, true) → parseInt64 id = n.
Proof.
  assert (∀ sign t, (if bool_decide (t = "") || negb (all_digits t) then (0, false)
    else let n := sign * decimal 0 t in
      if n <? - 2 ^ 63 then (- 2 ^ 63, false) else if 2 ^ 63 <=? n then (2 ^ 63 - 1, false) else (n, true)) = (n, true) →
    t ≠ "" ∧ all_digits t = true ∧ n = sign * decimal 0 t ∧ (- 2 ^ 63 <=? n) && (n <? 2 ^ 63) = true) as Hnum.
  { intros sign t. case_bool_decide; [done|]. simpl. destruct (all_digits t) eqn:Ed; [|done]. cbv zeta. simpl negb. cbv iota.
    destruct (Z.ltb_spec (sign * decimal 0 t) (- 2 ^ 63)); [done|]. destruct (Z.leb_spec (2 ^ 63) (sign * decimal 0 t)); [done|].
    intros [= <-]. split_and!; [done|done|done|]. apply andb_true_iff. split; [by apply Z.leb_le|by apply Z.ltb_lt]. }
  destruct id as [|c t]; [done|]. unfold ParseInt, parseInt64. intros Hp.
  destruct (Ascii.eqb_spec c "-") as [->|Hm].
  { apply (Hnum (-1)) in Hp as (Hne & Hd & -> & Hr). simpl. rewrite leading_number by done. simpl.
    replace (- decimal 0 t) with (-1 * decimal 0 t) by lia. by rewrite Hr. }
  destruct (Ascii.eqb_spec c "+") as [->|Hpl].
  { apply (Hnum 1) in Hp as (Hne & Hd & -> & Hr). simpl. rewrite leading_number by done.
    replace (1 * decimal 0 t) with (decimal 0 t) in * by lia. by rewrite Hr. }
  destruct (Hnum 1 (String c t)) as (_ & Hd & -> & Hr).
  { rewrite <- Hp. by destruct c as [[] [] [] [] [] [] [] []]. }
  rewrite skip_nonblank by (apply digit_not_blank; by apply digit_all in Hd as [Hc _]).
  pose proof (leading_number (String c t) ltac:(done) Hd) as Hl. replace (1 * decimal 0 (String c t)) with (decimal 0 (String c t)) in * by lia.
  assert (∀ {X} (f g h : string → X), match String c t with String "-" u => f u | String "+" u => g u | u => h u end = h (String c t)) as Hsign.
  { intros X f g h. by destruct c as [[] [] [] [] [] [] [] []]. }
  rewrite (Hsign _ (λ u, Z.opp <$> leading u None) (λ u, leading u None) (λ u, leading u None)), Hl. by rewrite Hr.
Qed.

(** *** What the checks establish *)
Section guarded.
Context {A : Aead} (crypto : option Crypto) (test : Datasource → bool).

Lemma yields_source_check s op id body q : yields s (source_check op id body q)
  (λ v, v = Next tt →
    let datasourceID := if parseInt64 id =? 0 then body else parseInt64 id in
    (datasourceID = 0 ∧ in_list (method_of q) ["POST"; "PUT"; "PATCH"] = false) ∨
    (datasourceID ≠ 0 ∧ may_use_datasource (acc (data s)) (op_id op) datasourceID (permission_of q))).
Proof.
  unfold source_check, DatasourcePermissionMiddleware.
  assert ((if bool_decide (id = "") then 0 else parseInt64 id) = parseInt64 id) as ->.
  { case_bool_decide as E; [|done]. by subst id. }
  cbv zeta. set (n := if parseInt64 id =? 0 then body else parseInt64 id).
  destruct (Z.eqb_spec n 0) as [Hz|Hz]; [apply yields_ret; case_match; [done|]; by left|].
  unfold instance_verdict. eapply yields_bind.
  - apply (yields_on_acc _ _ (λ r, r = Ok true → may_use_datasource (acc (data s)) (op_id op) n (permission_of q))).
    intros fs. pose proof (HasDatasourcePermission_decides (acc (data s)) fs (op_id op) n (permission_of q)) as Hd.
    rewrite <- run_state, <- run_answer. destruct (run _ _ fs) as [r d']. destruct Hd as (-> & Hb & _). split; [done|].
    simpl. intros ->. exact (proj1 (Hb true eq_refl) eq_refl).
  - intros [[|]|e] Hr; apply yields_ret; [|done|done]. right. split; [done|]. by apply Hr.
Qed.
Lemma yields_datasource_check s op action : yields s (datasource_check op action)
  (λ v, v = Next tt → Sessions.may (the_rbac s) (op_id op) (op_domain op) "datasource" action).
Proof.
  apply yields_on_users. intros fs. split; [|apply RequirePermission_sound].
  by apply (preserves_RequirePermission (λ d, d = st_users s)).
Qed.

(** A request that is let through, from where it was checked. *)
Lemma through_run {B} s (m : M state (verdict unit)) (h : M state B) (R : verdict unit → Prop) (Q : state → Prop) fs :
  yields s m R → (R (Next tt) → leads s h (λ _ s', Q s')) → Q s → Q (run (through m h) s fs).2.
Proof.
  intros Hm Hh Hs. rewrite run_state. unfold through. rewrite run_bind. destruct (Hm fs) as [Hst HR].
  destruct (m s fs) as [v [s1 fs1]]. simpl in *. subst s1. destruct v as [[]|status e]; [|done].
  rewrite run_bind. specialize (Hh HR fs1). by destruct (h s fs1) as [b [s2 fs2]].
Qed.

Lemma leads_ignored {B} s (m : M state B) (Q : state → Prop) : leads s m (λ _ s', Q s') → leads s (ignored m) (λ _ s', Q s').
Proof. intros Hm. eapply leads_then; [exact Hm|]. intros b s' Hs'. by apply leads_ret. Qed.
Lemma leads_weaken {B} s (m : M state B) (R Q : B → state → Prop) : leads s m R → (∀ b s', R b s' → Q b s') → leads s m Q.
Proof. intros Hm HQ fs. apply HQ, Hm. Qed.
Lemma leads_read {B} s (m : M state B) R (Q : state → Prop) : yields s m R → Q s → leads s m (λ _ s', Q s').
Proof. intros Hm HQ fs. by destruct (Hm fs) as [-> _]. Qed.

(** What a request does: nothing, or changes of one kind. *)
Definition does (op : operator) (s s' : state) (P : target → Prop) : Prop := s' = s ∨ ∃ t, P t ∧ rtc (change crypto op t) s s'.
Lemma does_to op s t B b s' (P : target → Prop) : P t → to crypto op t s B b s' → does op s s' P.
Proof. intros HP Ht. right. by exists t. Qed.

(** What a request on one data source is about. *)
Definition source_target (id : string) (q : source_request) (t : target) : Prop :=
  match q with
  | SGet | SPermissions => False
  | SUpdate _ _ | SDelete | STest => ∃ n, ParseInt id = (n, true) ∧ t = TSource n
  | SGrant _ => ∃ n, ParseInt id = (n, true) ∧ t = TGrantsOf n
  | SUpdatePermission _ _ | SRevoke _ => t = TGrants
  end.
Lemma leads_serve_source s op now id q :
  sources_ok crypto (data s) → leads s (serve_source crypto test op now id q) (λ _ s', does op s s' (source_target id q)).
Proof.
  intros Hok. destruct q as [|nonce req| | |req|perm_id req|perm_id|]; simpl; apply leads_ignored.
  - unfold Get. apply leads_parsed; [|by left]. intros n _. apply (leads_read _ _ (λ _, True)); [|by left].
    eapply yields_bind; [apply yields_GetByID|]. intros r _. by apply yields_ret.
  - eapply leads_weaken; [by apply leads_Update|]. intros _ s' [->|(n & Hn & Hr)]; [by left|]. right. exists (TSource n). split; [by exists n|done].
  - eapply leads_weaken; [apply (leads_Delete crypto op)|]. intros _ s' [->|(n & Hn & Hr)]; [by left|]. right. exists (TSource n). split; [by exists n|done].
  - eapply leads_weaken; [apply (leads_TestConnection crypto test op)|]. intros _ s' [->|(n & Hn & Hr)]; [by left|]. right. exists (TSource n). split; [by exists n|done].
  - eapply leads_weaken; [apply (leads_GrantPermission crypto op)|]. intros _ s' [->|(n & Hn & Hr)]; [by left|]. right. exists (TGrantsOf n). split; [by exists n|done].
  - eapply leads_weaken; [apply (leads_UpdatePermission crypto op)|]. intros b s'. by apply does_to.
  - eapply leads_weaken; [apply (leads_RevokePermission crypto op)|]. intros b s'. by apply does_to.
  - unfold GetPermissions. apply leads_parsed; [|by left]. intros n _. apply (leads_read _ _ (λ _, True)); [|by left].
    eapply (yields_bind _ _ _ (λ _, True)); [|intros; by apply yields_ret].
    apply yields_on_acc. eapply yields_weaken; [eapply yields_answers, answers_query|done].
Qed.

(** The requests that name no data source. *)
Definition other_target (q : request) (t : target) : Prop :=
  match q with
  | OnSource _ _ _ | QList _ _ _ _ _ | QTest _ => False
  | QCreate _ _ => t = TNew
  | _ => t = TQueries
  end.

Lemma yields_any_query {D E B} (e : E) (f : D → B) d : yields d (or_err e (query f)) (λ _, True).
Proof. eapply yields_weaken; [eapply yields_answers, answers_query|done]. Qed.
Lemma yields_two {D E B C} (e : E) (f : D → B) (g : D → C) d :
  yields d (bind_ok (or_err e (query f)) (λ b, bind_ok (or_err e (query g)) (λ c, mret (Ok (c, b))))) (λ _, True).
Proof.
  unfold bind_ok. eapply yields_bind; [apply yields_any_query|]. intros [b|x] _; [|by apply yields_ret].
  eapply yields_bind; [apply yields_any_query|]. intros [c|x] _; by apply yields_ret.
Qed.
Lemma leads_on_write_history op s g : leads s (on_data (DatasourceService.write (set_histories g))) (to crypto op TQueries s _).
Proof. apply leads_write, c_histories. Qed.

Lemma leads_serve_other s op now q :
  leads s (serve_other crypto test op now q) (λ _ s', does op s s' (other_target q)).
Proof.
  destruct q as [id body q|dsType search page page_size dom|req|nonce req|dom page size ds by_ st start stop search|id|req|
    req|dom page size search|id req|id]; simpl; [by apply leads_ret; left|apply leads_ignored..].
  - eapply leads_read; [apply (yields_List crypto)|by left].
  - by apply leads_ret; left.
  - eapply leads_weaken; [apply (leads_Create crypto test op)|]. intros b s'. by apply does_to.
  - unfold GetHistory. apply (leads_read _ _ (λ _, True)); [|by left]. eapply yields_bind; [|intros; by apply yields_ret].
    apply yields_on_data, yields_two.
  - unfold DeleteQueryHistory. apply leads_parsed; [|by left]. intros n _.
    eapply leads_weaken; [apply leads_map, (leads_on_write_history op)|]. intros b s'. by apply does_to.
  - unfold BatchDeleteQueryHistory. destruct req as [[|i ids]|]; [by apply leads_ret; left| |by apply leads_ret; left].
    eapply leads_weaken; [apply leads_map, (leads_on_write_history op)|]. intros b s'. by apply does_to.
  - unfold SaveSQL. destruct req as [r|]; [|by apply leads_ret; left]. destruct (save_refused r); [by apply leads_ret; left|].
    eapply leads_weaken; [apply leads_map, (leads_write_checked crypto op _ TQueries)|intros b s'; by apply does_to].
    intros b d' [= <- <-]. apply c_saved.
  - unfold ListSavedSQL. apply (leads_read _ _ (λ _, True)); [|by left]. eapply yields_bind; [|intros; by apply yields_ret].
    apply yields_on_data, yields_two.
  - unfold UpdateSavedSQL. apply leads_parsed; [|by left]. intros n _. destruct req as [r|]; [|by apply leads_ret; left].
    destruct (save_refused r); [by apply leads_ret; left|].
    eapply leads_weaken; [apply leads_map|intros b s'; by apply (does_to op s TQueries)].
    unfold DatasourceService.UpdateSavedSQL, bind_ok. apply leads_on_data_bind. eapply leads_then.
    + apply (leads_write_checked crypto op _ TQueries). intros b d' [= <- <-]. apply c_saved.
    + intros [k|e] s' Hs'; by apply leads_on_data_ret.
  - unfold DeleteSavedSQL. apply leads_parsed; [|by left]. intros n _.
    eapply leads_weaken; [apply leads_map, (leads_write crypto op), c_saved|]. intros b s'. by apply does_to.
Qed.
End guarded.

Section theorems.
Context {A : Aead} (crypto : option Crypto) (test : Datasource → bool).

(** What a request that is let through may do. *)
Definition allowed s (op : operator) (q : request) (t : target) : Prop :=
  match q with
  | OnSource id body r =>
      source_target id r t ∧
      let datasourceID := if parseInt64 id =? 0 then body else parseInt64 id in
      (datasourceID = 0 ∧ in_list (method_of r) ["POST"; "PUT"; "PATCH"] = false ∨
       datasourceID ≠ 0 ∧ may_use_datasource (acc (data s)) (op_id op) datasourceID (permission_of r))
  | QCreate _ _ => t = TNew ∧ Sessions.may (the_rbac s) (op_id op) (op_domain op) "datasource" "create"
  | _ => other_target q t
  end.
Lemma route_does s op now q fs : sources_ok crypto (data s) →
  does crypto op s (run (route crypto test op now q) s fs).2 (allowed s op q).
Proof.
  intros Hok. set (Q := λ s', does crypto op s s' (allowed s op q)). change (Q (run (route crypto test op now q) s fs).2).
  assert (Q s) as Hs by by left.
  assert (∀ (m : M state (verdict unit)) R, yields s m R →
    (R (Next tt) → leads s (serve_other crypto test op now q) (λ _ s', Q s')) →
    Q (run (through m (serve_other crypto test op now q)) s fs).2) as Hother by (intros m R Hm Hq; by eapply through_run).
  assert (∀ P, (∀ t, other_target q t → P → allowed s op q t) → P →
    leads s (serve_other crypto test op now q) (λ _ s', Q s')) as Hserve.
  { intros P Hall HP. eapply leads_weaken; [apply leads_serve_other|]. intros _ s' [->|(t & Ht & Hr)]; [done|].
    right. exists t. split; [by apply Hall|done]. }
  destruct q as [id body r|dsType search page page_size dom|req|nonce req|dom page size ds by_ st start stop search|id|req|
    req|dom page size search|id req|id]; simpl; try (eapply Hother; [by apply (yields_ret _ _ (λ _, True))|];
      intros _; by apply (Hserve True)).
  - eapply through_run; [apply yields_source_check| |done]. intros Hc. specialize (Hc eq_refl).
    eapply leads_weaken; [by apply leads_serve_source|]. intros _ s' [->|(t & Ht & Hr)]; [done|]. right. exists t. by split.
  - eapply Hother; [apply yields_datasource_check|]. intros Hc. by apply (Hserve True).
  - eapply Hother; [apply yields_datasource_check|]. intros Hc. by apply (Hserve True).
  - eapply Hother; [apply yields_datasource_check|]. intros Hc. apply (Hserve _ (λ t Ht HP, conj Ht HP)), Hc, eq_refl.
Qed.

Lemma found_positive s i r : sources_ok crypto (data s) → found i (data s) = Some r → 0 < i.
Proof. intros Hok [Hr <-]%found_inv. by apply (so_last _ _ Hok). Qed.
(** A checked data source is the one in the path. *)
Lemma allowed_source s op id body r n : ParseInt id = (n, true) → n ≠ 0 →
  (let datasourceID := if parseInt64 id =? 0 then body else parseInt64 id in
   datasourceID = 0 ∧ in_list (method_of r) ["POST"; "PUT"; "PATCH"] = false ∨
   datasourceID ≠ 0 ∧ may_use_datasource (acc (data s)) (op_id op) datasourceID (permission_of r)) →
  may_use_datasource (acc (data s)) (op_id op) n (permission_of r).
Proof.
  intros Hn Hne. rewrite (parsers_agree id n Hn), (proj2 (Z.eqb_neq n 0) Hne). simpl. by intros [[? _]|[_ ?]].
Qed.

(** C29: whatever is asked and whatever fails, a request of the routes of data
    sources changes nothing about users; it changes a data source only if the
    path names it and the caller has the permission of that route for it, makes
    one only for a caller that may create data sources, and changes the grants
    of a data source only for a caller that manages it, but for the two routes
    that name a grant by its number. *)
Theorem source_routes_are_guarded s op now q fs (Hok : sources_ok crypto (data s)) :
  let s' := (run (route crypto test op now q) s fs).2 in
  st_users s' = st_users s ∧
  (∀ i, found i (data s) ≠ None → found i (data s') ≠ found i (data s) →
     ∃ id body r, q = OnSource id body r ∧ ParseInt id = (i, true) ∧
       may_use_datasource (acc (data s)) (op_id op) i (permission_of r)) ∧
  (∀ i, found i (data s) = None → found i (data s') ≠ None →
     Sessions.may (the_rbac s) (op_id op) (op_domain op) "datasource" "create") ∧
  (∀ g, g_instance g ≠ 0 → ¬ (g ∈ rows (st_grants s') ↔ g ∈ rows (st_grants s)) →
     may_use_datasource (acc (data s)) (op_id op) (g_instance g) "manage" ∨
     ∃ id body perm_id req, q = OnSource id body (SRevoke perm_id) ∨ q = OnSource id body (SUpdatePermission perm_id req)).
Proof.
  intros s'. destruct (route_does s op now q fs Hok) as [Hs|(t & Ht & Hr)].
  { fold s' in Hs. rewrite Hs. split_and!; [done|by intros i _ []|by intros i ? []|by intros g _ []]. }
  fold s' in Hr. apply changes_effect in Hr as [Hu He]. split; [done|].
  destruct t as [n| |n| |].
  - destruct He as (Hg & Ho & Hn). rewrite Hg.
    assert (∃ id body r, q = OnSource id body r ∧ ParseInt id = (n, true) ∧
      (n ≠ 0 → may_use_datasource (acc (data s)) (op_id op) n (permission_of r))) as (id & body & r & -> & Hp & Hm).
    { destruct q as [id body r| | | | | | | | | |]; try done; [|by destruct Ht]. destruct Ht as [Ht Hm].
      destruct r; try done; destruct Ht as (m & Hp & [= <-]); (exists id, body; eexists; split; [done|]; split; [done|]);
        intros Hne; by eapply allowed_source. }
    split_and!; [| |by intros g _ []].
    + intros i Hi Hne. destruct (decide (i = n)) as [->|Hin]; [|by destruct Hne; apply Ho].
      exists id, body, r. split; [done|]. split; [done|]. apply Hm. destruct (found n (data s)) as [x|] eqn:E; [|done].
      pose proof (found_positive s n x Hok E). lia.
    + intros i Hi Hne. destruct (decide (i = n)) as [->|Hin]; [by destruct Hne; apply Hn|]. destruct Hne. by rewrite Ho.
  - destruct He as [Hg Ho]. rewrite Hg. split_and!; [| |by intros g _ []].
    + intros i Hi Hne. by destruct Hne; apply Ho.
    + intros i _ _. destruct q as [id body []| | | | | | | | | |]; try done; destruct Ht as [Ht Hm]; try done; by destruct Ht as (?&?&?).
  - destruct He as [Hs Hg]. assert (∀ i, found i (data s') = found i (data s)) as Hf by (intros i; unfold found, sources; simpl; by rewrite Hs).
    split_and!; [intros i _ Hne; by destruct Hne|intros i Hi Hne; by rewrite Hf in Hne|].
    intros g Hne Hch. left. destruct (decide (g_instance g = n)) as [Hgn|Hgn]; [|by destruct Hch; apply Hg].
    destruct q as [id body r| | | | | | | | | |]; try done; [|by destruct Ht]. destruct Ht as [Ht Hm].
    destruct r; try done; destruct Ht as (m & Hp & [= <-]). rewrite Hgn in *. by eapply (allowed_source s op id body (SGrant req)).
  - simpl in He. assert (∀ i, found i (data s') = found i (data s)) as Hf by (intros i; unfold found, sources; simpl; by rewrite He).
    split_and!; [intros i _ Hne; by destruct Hne|intros i Hi Hne; by rewrite Hf in Hne|].
    intros g _ _. right. destruct q as [id body r| | | | | | | | | |]; try done; [|by destruct Ht]. destruct Ht as [Ht _].
    destruct r as [| | | | |perm_id req|perm_id|]; try done; try (by destruct Ht as (?&?&?)).
    + exists id, body, perm_id, req. by right.
    + exists id, body, perm_id, None. by left.
  - destruct He as [Hs Hg]. assert (∀ i, found i (data s') = found i (data s)) as Hf by (intros i; unfold found, sources; simpl; by rewrite Hs).
    rewrite Hg. split_and!; [intros i _ Hne; by destruct Hne|intros i Hi Hne; by rewrite Hf in Hne|by intros g _ []].
Qed.

(** ** Statements that write *)
Definition writers_from (s s' : state) : Prop :=
  ∀ r', r' ∈ rows (st_sources s') → AllowWriteSQL r' = true →
  ∃ r, r ∈ rows (st_sources s) ∧ ds_ID r = ds_ID r' ∧ AllowWriteSQL r = true.
Lemma writers_trans s s1 s2 : writers_from s s1 → writers_from s1 s2 → writers_from s s2.
Proof. intros H1 H2 r Hr Hw. destruct (H2 r Hr Hw) as (r1 & Hr1 & <- & Hw1). by apply H1. Qed.
Lemma writers_same s s' : st_sources s' = st_sources s → writers_from s s'.
Proof. intros Hs r. rewrite Hs. by exists r. Qed.

Lemma change_writers op t s s' : privileged op = false → change crypto op t s s' → writers_from s s'.
Proof.
  intros Hp Hc. assert (may_write_sql op true = false) as Hw by exact Hp.
  destruct Hc as [ds password now id d' s Hds _ Hi|ds row password now u d' s Hf _ Hrow Hu|id s|id status now s|id t s|
    id a s Hr Hs Hg|a s Hr Hs|f s|f s]; try (by apply writers_same).
  - unfold insert_source in Hi. destruct (name_clash _ _ _ _); [done|]. injection Hi as _ <-.
    intros r [Hin| ->%list_elem_of_singleton]%elem_of_app Hr; [by exists r|]. simpl in Hr. rewrite Hr in Hds. congruence.
  - unfold update_source in Hu. destruct (_ && _); [done|]. injection Hu as _ <-.
    intros r (x & -> & Hx)%list_elem_of_fmap Hr. destruct (Z.eqb_spec (ds_ID x) (ds_ID ds)) as [He|]; [|by exists x].
    simpl in Hr. destruct (Hrow Hr) as [?|Hr']; [congruence|]. apply found_inv in Hf as [Hin Hid]. exists row. simpl. by rewrite He.
  - intros r [Hin _]%elem_of_where Hr. by exists r.
  - intros r (x & -> & Hx)%list_elem_of_fmap Hr. exists x. by destruct (ds_ID x =? id).
Qed.
Lemma change_ok op t s s' : change crypto op t s s' → sources_ok crypto (data s) → sources_ok crypto (data s').
Proof.
  intros Hc Hok. destruct Hc as [ds password now id d' s Hds Hh Hi|ds row password now u d' s Hf Hh Hrow Hu|id s|id status now s|id t s|
    id a s Hr Hs Hg|a s Hr Hs|f s|f s]; rewrite ?data_put; unfold put_acc; rewrite ?data_put.
  - by eapply ok_insert.
  - by eapply ok_update.
  - by apply ok_delete.
  - by apply ok_tested.
  - by apply (ok_frame crypto (data s)).
  - by apply (ok_frame crypto (data s)).
  - by apply (ok_frame crypto (data s)).
  - by apply (ok_frame crypto (data s)).
  - by apply (ok_frame crypto (data s)).
Qed.

Fixpoint serve_all (qs : list (operator * Z * request * list fate)) s : state :=
  match qs with
  | [] => s
  | (op, now, q, fs) :: qs => serve_all qs (run (route crypto test op now q) s fs).2
  end.

(** however many requests of whatever kind callers without the role of an
    administrator make, and whatever fails meanwhile, every data source that
    takes statements that write was one before; and data sources stay well
    formed, their passwords encrypted. *)
Theorem writing_needs_an_administrator qs s (Hok : sources_ok crypto (data s))
    (Hq : ∀ op now q fs, (op, now, q, fs) ∈ qs → privileged op = false) :
  sources_ok crypto (data (serve_all qs s)) ∧
  ∀ r', r' ∈ rows (st_sources (serve_all qs s)) → AllowWriteSQL r' = true →
    ∃ r, r ∈ rows (st_sources s) ∧ ds_ID r = ds_ID r' ∧ AllowWriteSQL r = true.
Proof.
  change (sources_ok crypto (data (serve_all qs s)) ∧ writers_from s (serve_all qs s)). revert s Hok.
  induction qs as [|[[[op now] q] fs] qs IH]; intros s Hok; [split; [done|by apply writers_same]|]. simpl.
  assert (sources_ok crypto (data (run (route crypto test op now q) s fs).2) ∧ writers_from s (run (route crypto test op now q) s fs).2) as [H1 H2].
  { assert (privileged op = false) as Hp by (apply (Hq op now q fs); by left).
    destruct (route_does s op now q fs Hok) as [->|(t & _ & Hr)]; [split; [done|by apply writers_same]|].
    clear Hq IH. induction Hr as [s|s s1 s2 Hc _ IHr]; [split; [done|by apply writers_same]|].
    destruct (IHr (change_ok op t s s1 Hc Hok)) as [H1 H2]. split; [done|].
    eapply writers_trans; [by eapply change_writers|done]. }
  destruct (IH ltac:(intros op' now' q' fs' Hin; eapply Hq; by right) _ H1) as [H3 H4]. split; [done|].
  by eapply writers_trans.
Qed.
End theorems.

(** ** A concrete installation

    Users 5 and 6 belong to domain 2.  Role 9 of user 5 may create data sources;
    user 5 has a grant to read data source 3, which user 1 created, and user 7,
    of no domain, one for data source 4. *)
Definition plain_source (id : Z) (name : string) (creator domainID : Z) (allow : bool) : Datasource :=
  mkDatasource id name "mysql" "db" 3306 "" "dw" "etl" "" "simple" "single" "" "" "" "" "" domainID true allow
    "success" None (Some creator) None id id.
Definition house_rbac : db :=
  mkDb (mkTable [mkRole 1 "root" "system_admin" "" true None None; mkRole 9 "analyst" "analyst" "" false None None] 9)
    (mkTable [Permission.mkPermission 1 "datasource" "create" ""] 1)
    (mkTable [mkUserRole 5 9 (Some 2)] 1) (mkTable [mkRolePermission 9 1] 1) (mkTable [mkDomain 2 "east" ""] 2)
    (mkTable [mkUserDomain 5 2 true; mkUserDomain 6 2 true] 2).
Definition house : state :=
  mkState (mkUdb house_rbac (mkTable [] 0) (mkTable [] 0) [] [])
    (mkTable [plain_source 3 "warehouse" 1 2 false; plain_source 4 "lake" 8 7 false] 4)
    (mkTable [mkGrant 1 3 None (Some 5) "read" None 0; mkGrant 2 4 None (Some 7) "download" None 0] 2) (mkTable [] 0) (mkTable [] 0)
    (mkTable [mkHistory 1 "q" (Some 4) "lake" "select secret" "" "0.1" 1 "success" "" (Some 8) 7 ""] 1) (mkTable [] 0) [].
Definition analyst : operator := mkOperator 5 "user" 2.
Definition member6 : operator := mkOperator 6 "user" 2.
Definition listed (o : option (reply (list shown * Z))) : option (list (string * string)) :=
  match o with
  | Some (Success (l, _)) => Some ((λ x, (ds_Name (i_ds (sh_item x)), i_UserPermission (sh_item x))) <$> l)
  | _ => None
  end.
Definition the_list (op : operator) (dsType page : string) : option (reply (list shown * Z)) :=
  (run (List_ op dsType "" page "20" "") house []).1.

Lemma house_ok : sources_ok (Some demo_crypto) (data house).
Proof.
  split.
  - apply (bool_decide_unpack _). vm_compute. exact I.
  - intros r Hr. assert (Forall (λ r, 0 < ds_ID r ≤ 4) (rows (st_sources house))) as Hall by (apply (bool_decide_unpack _); vm_compute; exact I).
    rewrite Forall_forall in Hall. by apply Hall.
  - done.
  - intros r r' Hr Hr' Hn _. simpl in *. set_unfold in Hr. set_unfold in Hr'. naive_solver.
  - intros r Hr. left. simpl in Hr. set_unfold in Hr. naive_solver.
Qed.
Example List_shows_own_sources_witness :
  listed (the_list analyst "" "1") = Some [("warehouse", "read")] ∧
  (run (List_ analyst "" "" "1" "20" "") house []).2 = house.
Proof.
  split; [vm_compute; reflexivity|].
  pose proof (List_shows_own_sources (Some demo_crypto) house analyst "" "" "1" "20" "" [] house_ok) as Hl.
  assert (domains_positive house) as Hpos.
  { intros ud Hud. simpl in Hud. set_unfold in Hud. naive_solver lia. }
  specialize (Hl Hpos). destruct (run _ house []) as [o s']. by destruct Hl.
Defined.
Definition creator : operator := mkOperator 1 "user" 2.
Definition gone : state := (run (route (Some demo_crypto) (λ _, true) creator 7 (OnSource "3" 0 SDelete)) house []).2.
Example source_routes_are_guarded_witness :
  found 3 (data gone) = None ∧ may_use_datasource (acc (data house)) 1 3 "delete".
Proof.
  assert (found 3 (data gone) = None) as Hg by (vm_compute; reflexivity). split; [exact Hg|].
  destruct (source_routes_are_guarded (Some demo_crypto) (λ _, true) house creator 7 (OnSource "3" 0 SDelete) [] house_ok) as (_ & Hd & _).
  fold gone in Hd. destruct (Hd 3) as (id & body & r & Hq & _ & Hm).
  - vm_compute. discriminate.
  - rewrite Hg. vm_compute. discriminate.
  - injection Hq as <- <- <-. exact Hm.
Defined.
Definition rename (name : string) : UpdateRequest :=
  mkUpdate (Some name) None None None None None None None None None None None None None None None.
Definition let_write : UpdateRequest :=
  mkUpdate None None None None None None None None None None None None None None None (Some true).
Example writing_needs_an_administrator_witness :
  let qs := [(mkOperator 1 "user" 2, 7, OnSource "3" 0 (SUpdate "nonce0123456" (Some (rename "dw"))), []);
             (mkOperator 1 "user" 2, 8, OnSource "3" 0 (SUpdate "nonce0123456" (Some let_write)), [Fine; Fine])] in
  ds_Name <$> rows (st_sources (serve_all (Some demo_crypto) (λ _, true) qs house)) = ["dw"; "lake"] ∧
  sources_ok (Some demo_crypto) (data (serve_all (Some demo_crypto) (λ _, true) qs house)).
Proof.
  intros qs. split; [vm_compute; reflexivity|].
  apply (writing_needs_an_administrator (Some demo_crypto) (λ _, true) qs house house_ok).
  intros op now q fs Hin. unfold qs in Hin. set_unfold in Hin. naive_solver.
Defined.

(** A member of the domain is shown [read] for a data source that the check of
    [GET /:id] denies it. *)
Example read_is_shown_not_held :
  listed (the_list member6 "" "1") = Some [("warehouse", "read")] ∧
  match (run (route (Some demo_crypto) (λ _, true) member6 7 (OnSource "3" 0 SGet)) house []).1 with Abort status _ => status = 403 | Next _ => False end.
Proof. vm_compute. done. Qed.
(** The filter on the type is for the data sources of the domains only. *)
Example type_filter_ignored : listed (the_list (mkOperator 7 "user" 0) "redis" "1") = Some [("lake", "download")].
Proof. vm_compute. done. Qed.
(** The offset of a huge page overflows, and the slice panics. *)
Example huge_page_panics : the_list analyst "" "9223372036854775807" = None.
Proof. vm_compute. done. Qed.

(** A data source with a password. *)
Definition guarded_house : state :=
  (run (route (Some demo_crypto) (λ _, true) (mkOperator 5 "user" 2) 7 (QCreate "nonce0123456"
     (Some (mkCreate "secured" "mysql" "db" 3306 "" "" "etl" "hunter2" "" "" "" "" "" "" "" 2 None None)))) house []).2.
Definition opened (s : state) : option string :=
  match found 5 (data s) with
  | Some r => match Crypto.Decrypt demo_crypto (ds_Password r) with Ok p => Some p | Err _ => None end
  | None => None
  end.
(** An update that does not mention the password, as one that only renames,
    encrypts what is stored a second time: what is decrypted for a connection
    is no longer the password. *)
Example rename_loses_password :
  opened guarded_house = Some "hunter2" ∧
  bool_decide (opened (run (Update (Some demo_crypto) (mkOperator 5 "user" 2) 8 "nonce0123456" "5" (Some (rename "other"))) guarded_house []).2 =
               Some "hunter2") = false.
Proof. vm_compute. done. Qed.
(** The creator of data source 3 takes a grant of data source 4 away. *)
Example grant_of_other_source_revoked :
  g_ID <$> rows (st_grants (run (route (Some demo_crypto) (λ _, true) creator 7 (OnSource "3" 0 (SRevoke "2"))) house []).2) = [1].
Proof. vm_compute. done. Qed.
(** A path whose first part is no number passes the check of a [DELETE]: user
    6, who manages nothing, takes any grant away. *)
Example revoked_without_permission :
  (run (route (Some demo_crypto) (λ _, true) member6 7 (OnSource "x" 0 (SRevoke "1"))) house []).1 = Next tt ∧
  g_ID <$> rows (st_grants (run (route (Some demo_crypto) (λ _, true) member6 7 (OnSource "x" 0 (SRevoke "1"))) house []).2) = [2].
Proof. vm_compute. done. Qed.
(** The domain of a new data source is not looked at. *)
Example source_created_in_other_domain :
  ds_DomainID <$> rows (st_sources (run (route (Some demo_crypto) (λ _, true) analyst 7 (QCreate "nonce0123456"
     (Some (mkCreate "x" "mysql" "db" 3306 "" "" "etl" "" "" "" "" "" "" "" "" 7 None None)))) house []).2) = [2; 7; 7].
Proof. vm_compute. done. Qed.
(** A name that is taken is a general error when a data source is renamed. *)
Example taken_name_reply :
  (run (Update (Some demo_crypto) (mkOperator 5 "user" 2) 8 "" "5" (Some (rename "warehouse"))) guarded_house []).1 =
  Fail CodeQueryError "更新数据源失败".
Proof. vm_compute. done. Qed.
(** An administrator forbids statements that write while the creator renames:
    the update writes back every field it has read, and they are allowed
    again. *)
Example stale_update_lets_write :
  let s0 := put_data (set_acc (set_datasources (λ _, mkTable [plain_source 3 "warehouse" 1 2 true] 4)) (data house)) house in
  let forbid := mkUpdate None None None None None None None None None None None None None None None (Some false) in
  match (run (on_data (GetByID 3)) s0 []).1 with
  | Ok ds =>
      let s1 := (run (Update (Some demo_crypto) (mkOperator 9 "system_admin" 2) 7 "nonce0123456" "3" (Some forbid)) s0 []).2 in
      let s2 := (run (store_update (Some demo_crypto) creator 8 "nonce0123456" (rename "dw") ds) s1 []).2 in
      AllowWriteSQL <$> rows (st_sources s1) = [false] ∧ AllowWriteSQL <$> rows (st_sources s2) = [true]
  | Err _ => False
  end.
Proof. vm_compute. done. Qed.
(** Anybody deletes the history of other users, also of other domains. *)
Example history_of_others_deleted :
  rows (st_histories (run (route (Some demo_crypto) (λ _, true) member6 7 (QForgetAll (Some [1]))) house []).2) = [].
Proof. vm_compute. done. Qed.
(** To a user without a current domain the history of all domains is shown. *)
Example no_domain_sees_all_history :
  match (run (GetHistory (mkOperator 7 "user" 0) "" "1" "20" "" "" "" "" "" "") house []).1 with
  | Success (l, _) => h_SQLText <$> l = ["select secret"]
  | _ => False
  end.
Proof. vm_compute. done. Qed.
