(* ===== verification/QueryRegistry.v ===== *)
(** * Registries of running queries

    [src/scheduler/internal/handler/query_registry.go]: the map a node keeps
    of the queries it runs, and [query_registry_distributed.go]: the same map
    with a copy of each query in Redis and messages between nodes, so that
    every node can report and cancel the queries of the others.  The class
    [queryRegistry] is the Go interface of the same name; both registries are
    instances, and [queryRegistryLaws] is what the handlers rely on.

    JSON is not code of the repository: [QueryCodec] are the encodings used,
    with the laws of [encoding/json] ([json_text] is its replacement of
    invalid UTF-8, [via_json] what a cell reads as after an encoding: numbers
    come back as [float64]).  An observer is a number; a notification records
    the query as it is when the goroutine is started.  [ExecutionTime] is kept
    in nanoseconds.  Redis commands can fail, as everywhere; a message can be
    lost, repeated or late. *)
From S2P Require Import Prelude Redis.

(** ** Data *)

(** [type QueryStatus string] *)
Definition QueryStatus := string.
Definition QueryStatusPending : QueryStatus := "pending".
Definition QueryStatusRunning : QueryStatus := "running".
Definition QueryStatusCompleted : QueryStatus := "completed".
Definition QueryStatusFailed : QueryStatus := "failed".
Definition QueryStatusCancelled : QueryStatus := "cancelled".

(** [driver.QueryResult]; the cells are values of the type [V]. *)
Record QueryResult (V : Type) : Type := mkResult {
  Columns : list string; Rows : list (list V); RowCount : Z;
}.
Arguments mkResult {V}.
Arguments Columns {V}.
Arguments Rows {V}.
Arguments RowCount {V}.

(** [StartTime] is [None] for Go's zero time, [CancelFunc] names a context. *)
Record RunningQuery (V : Type) : Type := mkQuery {
  QueryID : string; q_DatasourceID : Z; q_Database : string; SQL : string; q_UserID : Z;
  q_Status : QueryStatus; Result : option (QueryResult V); q_Error : string;
  q_ExecutionTime : Z; StartTime : option Z; FromCache : bool;
  CancelFunc : option nat; q_CreatedAt : Z;
}.
Arguments mkQuery {V}.
Arguments QueryID {V}.
Arguments q_DatasourceID {V}.
Arguments q_Database {V}.
Arguments SQL {V}.
Arguments q_UserID {V}.
Arguments q_Status {V}.
Arguments Result {V}.
Arguments q_Error {V}.
Arguments q_ExecutionTime {V}.
Arguments StartTime {V}.
Arguments FromCache {V}.
Arguments CancelFunc {V}.
Arguments q_CreatedAt {V}.

Definition terminal (s : QueryStatus) : bool :=
  bool_decide (s = QueryStatusCompleted) || bool_decide (s = QueryStatusFailed) || bool_decide (s = QueryStatusCancelled).
Definition active (s : QueryStatus) : bool :=
  bool_decide (s = QueryStatusPending) || bool_decide (s = QueryStatusRunning).

Section fields.
Context {V : Type}.
Implicit Types q : RunningQuery V.

(** The assignments to the fields of a query. *)
Definition created (now : Z) q : RunningQuery V :=
  mkQuery (QueryID q) (q_DatasourceID q) (q_Database q) (SQL q) (q_UserID q) (q_Status q) (Result q) (q_Error q)
    (q_ExecutionTime q) (StartTime q) (FromCache q) (CancelFunc q) now.
Definition with_status (s : QueryStatus) q : RunningQuery V :=
  mkQuery (QueryID q) (q_DatasourceID q) (q_Database q) (SQL q) (q_UserID q) s (Result q) (q_Error q)
    (q_ExecutionTime q) (StartTime q) (FromCache q) (CancelFunc q) (q_CreatedAt q).
Definition with_error (e : string) q : RunningQuery V :=
  mkQuery (QueryID q) (q_DatasourceID q) (q_Database q) (SQL q) (q_UserID q) (q_Status q) (Result q) e
    (q_ExecutionTime q) (StartTime q) (FromCache q) (CancelFunc q) (q_CreatedAt q).
Definition with_time (t : Z) q : RunningQuery V :=
  mkQuery (QueryID q) (q_DatasourceID q) (q_Database q) (SQL q) (q_UserID q) (q_Status q) (Result q) (q_Error q)
    t (StartTime q) (FromCache q) (CancelFunc q) (q_CreatedAt q).
Definition with_result (r : option (QueryResult V)) q : RunningQuery V :=
  mkQuery (QueryID q) (q_DatasourceID q) (q_Database q) (SQL q) (q_UserID q) (q_Status q) r (q_Error q)
    (q_ExecutionTime q) (StartTime q) (FromCache q) (CancelFunc q) (q_CreatedAt q).
Definition with_start (t : Z) q : RunningQuery V :=
  mkQuery (QueryID q) (q_DatasourceID q) (q_Database q) (SQL q) (q_UserID q) (q_Status q) (Result q) (q_Error q)
    (q_ExecutionTime q) (Some t) (FromCache q) (CancelFunc q) (q_CreatedAt q).

Definition completed (r : option (QueryResult V)) (execTime : Z) q : RunningQuery V :=
  with_time execTime (with_result r (with_status QueryStatusCompleted q)).
Definition failed (errMsg : string) (execTime : Z) q : RunningQuery V :=
  with_time execTime (with_error errMsg (with_status QueryStatusFailed q)).
Definition started (now : Z) q : RunningQuery V := with_start now (with_status QueryStatusRunning q).

(** [Cleanup]'s test *)
Definition stale (now maxAge : Z) q : bool := terminal (q_Status q) && (maxAge <? now - q_CreatedAt q).
End fields.

(** ** The interface *)
Class queryRegistry (V S : Type) : Type := {
  Register : Z → RunningQuery V → M S unit;
  Get : Z → string → M S (option (RunningQuery V));
  UpdateResult : Z → string → option (QueryResult V) → Z → M S unit;
  UpdateError : Z → string → string → Z → M S unit;
  Cancel : Z → string → M S bool;
  SetRunning : Z → string → M S unit;
  Cleanup : Z → Z → M S unit;
  RegisterObserver : nat → M S unit;
  UnregisterObserver : nat → M S unit;
}.

(** The queries a node runs itself, and the contexts it cancelled. *)
Class QueryView (V S : Type) : Type := {
  own : S → gmap string (RunningQuery V);
  contexts : S → list nat;
}.

(** What a node promises of its own queries, whatever the services behind it
    do. *)
Class queryRegistryLaws (V S : Type) `{queryRegistry V S} `{QueryView V S} : Prop := {
  Register_own now q s fs :
    own (run (Register now q) s fs).2 = <[QueryID q := created now q]> (own s);
  Get_own now id q s fs :
    own s !! id = Some q → run (Get now id) s fs = (Some q, s);
  UpdateResult_own now id r t s fs :
    own (run (UpdateResult now id r t) s fs).2 = alter (completed r t) id (own s);
  UpdateError_own now id e t s fs :
    own (run (UpdateError now id e t) s fs).2 = alter (failed e t) id (own s);
  SetRunning_own now id s fs :
    own (run (SetRunning now id) s fs).2 = alter (started now) id (own s);
  SetRunning_contexts now id s fs :
    contexts (run (SetRunning now id) s fs).2 = contexts s;
  Cancel_own now id q s fs :
    own s !! id = Some q → active (q_Status q) = true →
    (run (Cancel now id) s fs).1 = true ∧
    own (run (Cancel now id) s fs).2 = <[id := with_status QueryStatusCancelled q]> (own s) ∧
    contexts (run (Cancel now id) s fs).2 = option_list (CancelFunc q) ++ contexts s;
  Cancel_other now id s fs :
    (∀ q, own s !! id = Some q → active (q_Status q) = false) →
    own (run (Cancel now id) s fs).2 = own s ∧
    contexts (run (Cancel now id) s fs).2 = contexts s;
  Cleanup_own now maxAge s fs :
    own (run (Cleanup now maxAge) s fs).2 = filter (λ kq, stale now maxAge kq.2 = false) (own s);
  observers_own o s fs :
    own (run (RegisterObserver o) s fs).2 = own s ∧ own (run (UnregisterObserver o) s fs).2 = own s;
}.

(** ** [QueryRegistry]: the registry of a single node

    [cancelled] are the contexts whose [CancelFunc] was called, [notified]
    the notifications started; the latest are first. *)
Record QueryRegistry (V : Type) : Type := mkRegistry {
  queries : gmap string (RunningQuery V);
  observers : gset nat;
  cancelled : list nat;
  notified : list (nat * RunningQuery V);
}.
Arguments mkRegistry {V}.
Arguments queries {V}.
Arguments observers {V}.
Arguments cancelled {V}.
Arguments notified {V}.

Definition NewQueryRegistry {V} : QueryRegistry V := mkRegistry ∅ ∅ [] [].

Section local.
Context {V : Type}.
Implicit Types (r : QueryRegistry V) (q : RunningQuery V).

Definition put q (id : string) r : QueryRegistry V :=
  mkRegistry (<[id := q]> (queries r)) (observers r) (cancelled r) (notified r).
Definition notifyObservers q r : QueryRegistry V :=
  mkRegistry (queries r) (observers r) (cancelled r) (((λ o, (o, q)) <$> elements (observers r)) ++ notified r).
Definition cancel_context q r : QueryRegistry V :=
  mkRegistry (queries r) (observers r) (option_list (CancelFunc q) ++ cancelled r) (notified r).
Definition set_observers (f : gset nat → gset nat) r : QueryRegistry V :=
  mkRegistry (queries r) (f (observers r)) (cancelled r) (notified r).
Definition keep (p : RunningQuery V → bool) r : QueryRegistry V :=
  mkRegistry (filter (λ kq, p kq.2 = true) (queries r)) (observers r) (cancelled r) (notified r).

(** [if q, ok := r.queries[queryID]; ok { ... }] with the changes [f] to [q] *)
Definition local_update (id : string) (f : RunningQuery V → RunningQuery V) r : QueryRegistry V :=
  match queries r !! id with
  | Some q => notifyObservers (f q) (put (f q) id r)
  | None => r
  end.

Definition local_Register (now : Z) q r : QueryRegistry V := put (created now q) (QueryID q) r.
Definition local_Get (id : string) r : option (RunningQuery V) := queries r !! id.
Definition local_UpdateResult (id : string) (res : option (QueryResult V)) (execTime : Z) r : QueryRegistry V :=
  local_update id (completed res execTime) r.
Definition local_UpdateError (id errMsg : string) (execTime : Z) r : QueryRegistry V :=
  local_update id (failed errMsg execTime) r.
Definition local_SetRunning (now : Z) (id : string) r : QueryRegistry V :=
  local_update id (started now) r.

Definition local_Cancel (id : string) r : bool * QueryRegistry V :=
  match queries r !! id with
  | None => (false, r)
  | Some q =>
      if active (q_Status q)
      then
        let q' := with_status QueryStatusCancelled q in
        (true, notifyObservers q' (cancel_context q' (put q' id r)))
      else (false, r)
  end.

Definition local_Cleanup (now maxAge : Z) r : QueryRegistry V := keep (λ q, negb (stale now maxAge q)) r.
Definition local_RegisterObserver (o : nat) r : QueryRegistry V := set_observers (union {[o]}) r.
Definition local_UnregisterObserver (o : nat) r : QueryRegistry V := set_observers (λ os, os ∖ {[o]}) r.

#[export] Instance local_registry : queryRegistry V (QueryRegistry V) := {
  Register now q := modify (local_Register now q);
  Get _ id := gets (local_Get id);
  UpdateResult _ id res t := modify (local_UpdateResult id res t);
  UpdateError _ id e t := modify (local_UpdateError id e t);
  Cancel _ id := λ r fs, let '(b, r') := local_Cancel id r in (b, (r', fs));
  SetRunning now id := modify (local_SetRunning now id);
  Cleanup now maxAge := modify (local_Cleanup now maxAge);
  RegisterObserver o := modify (local_RegisterObserver o);
  UnregisterObserver o := modify (local_UnregisterObserver o);
}.

Lemma local_update_queries id f r : queries (local_update id f r) = alter f id (queries r).
Proof.
  unfold local_update. destruct (queries r !! id) as [q|] eqn:E; simpl.
  - apply map_eq. intros k. destruct (decide (k = id)) as [->|Hne].
    + by rewrite lookup_insert_eq, lookup_alter_eq, E.
    + by rewrite lookup_insert_ne, lookup_alter_ne.
  - apply map_eq. intros k. destruct (decide (k = id)) as [->|Hne].
    + by rewrite lookup_alter_eq, E.
    + by rewrite lookup_alter_ne.
Qed.

Lemma local_update_cancelled id f r : cancelled (local_update id f r) = cancelled r.
Proof. unfold local_update. by destruct (queries r !! id). Qed.

Lemma local_Cancel_active id q r : queries r !! id = Some q → active (q_Status q) = true →
  local_Cancel id r = (true, let q' := with_status QueryStatusCancelled q in notifyObservers q' (cancel_context q' (put q' id r))).
Proof. intros Hq Ha. unfold local_Cancel. by rewrite Hq, Ha. Qed.

Lemma local_Cancel_inactive id r : (∀ q, queries r !! id = Some q → active (q_Status q) = false) →
  local_Cancel id r = (false, r).
Proof. intros Hq. unfold local_Cancel. destruct (queries r !! id) as [q|]; [|done]. by rewrite (Hq q eq_refl). Qed.

Lemma keep_filter now maxAge (m : gmap string (RunningQuery V)) :
  filter (λ kq, negb (stale now maxAge kq.2) = true) m = filter (λ kq, stale now maxAge kq.2 = false) m.
Proof. apply map_filter_ext. intros k q _. simpl. by rewrite negb_true_iff. Qed.

#[export] Instance local_view : QueryView V (QueryRegistry V) := {| own := queries; contexts := cancelled |}.

#[export] Instance local_registry_laws : queryRegistryLaws V (QueryRegistry V).
Proof.
  constructor; try (intros; exact eq_refl).
  - intros now id q s fs Hq. unfold run. simpl. by rewrite <- Hq.
  - intros now id r t s fs. apply local_update_queries.
  - intros now id e t s fs. apply local_update_queries.
  - intros now id s fs. apply local_update_queries.
  - intros now id s fs. apply local_update_cancelled.
  - intros now id q s fs Hq Ha. unfold run. simpl. by rewrite (local_Cancel_active id q).
  - intros now id s fs Hq. unfold run. simpl. by rewrite local_Cancel_inactive.
  - intros now maxAge s fs. apply keep_filter.
  - intros o s fs. by split.
Qed.
End local.

(** ** [DistributedQueryRegistry] *)
Definition redisKeyPrefix : string := "bdopsflow:query:".
Definition redisResultKeyPrefix : string := "bdopsflow:query:result:".
Definition redisChannel : string := "bdopsflow:query:updates".
Definition redisCancelChannel : string := "bdopsflow:query:cancel".
Definition redisDefaultTTL : Z := 35 * Minute.

(** Times are Unix seconds; a start time of 0 is absent. *)
Record redisQueryState : Type := mkState {
  s_QueryID : string; s_DatasourceID : Z; s_Database : string; s_SQL : string; s_UserID : Z;
  s_Status : QueryStatus; s_Error : string; s_ExecutionTime : Z; s_FromCache : bool;
  s_NodeID : string; s_CreatedAt : Z; s_StartTime : Z;
}.

Record redisCancelCommand : Type := mkCancel { c_QueryID : string; c_FromNode : string }.

Class QueryCodec (V : Type) : Type := {
  json_text : string → string;
  via_json : V → V;
  marshal_state : redisQueryState → string;
  unmarshal_state : string → option redisQueryState;
  marshal_cancel : redisCancelCommand → string;
  unmarshal_cancel : string → option redisCancelCommand;
  marshal_result : QueryResult V → option string;
  unmarshal_result : string → option (QueryResult V);
}.

Definition json_state `{QueryCodec V} (s : redisQueryState) : redisQueryState :=
  mkState (json_text (s_QueryID s)) (s_DatasourceID s) (json_text (s_Database s)) (json_text (s_SQL s)) (s_UserID s)
    (json_text (s_Status s)) (json_text (s_Error s)) (s_ExecutionTime s) (s_FromCache s)
    (json_text (s_NodeID s)) (s_CreatedAt s) (s_StartTime s).
Definition json_result `{QueryCodec V} (r : QueryResult V) : QueryResult V :=
  mkResult (map json_text (Columns r)) (map (map via_json) (Rows r)) (RowCount r).

Class QueryCodecLaws (V : Type) `{QueryCodec V} : Prop := {
  state_roundtrip s : unmarshal_state (marshal_state s) = Some (json_state s);
  cancel_roundtrip c :
    unmarshal_cancel (marshal_cancel c) = Some (mkCancel (json_text (c_QueryID c)) (json_text (c_FromNode c)));
  result_roundtrip r d : marshal_result r = Some d → unmarshal_result d = Some (json_result r);
}.

(** A node, with the Redis and the channels it shares with the others:
    [channel] holds the messages published, as (channel, payload). *)
Record DistributedQueryRegistry (V R : Type) : Type := mkDistributed {
  reg : QueryRegistry V; nodeID : string; subscribed : bool;
  redis : R; channel : list (string * string);
}.
Arguments mkDistributed {V R}.
Arguments reg {V R}.
Arguments nodeID {V R}.
Arguments subscribed {V R}.
Arguments redis {V R}.
Arguments channel {V R}.

Section distributed.
Context {V R : Type} `{Redis R} `{QueryCodec V}.
Notation node := (DistributedQueryRegistry V R).
Implicit Types (d : node) (q : RunningQuery V) (state : redisQueryState).

Definition NewDistributedQueryRegistry (id : string) (r : R) (msgs : list (string * string)) : node :=
  mkDistributed NewQueryRegistry id false r msgs.

Definition set_reg (f : QueryRegistry V → QueryRegistry V) d : node :=
  mkDistributed (f (reg d)) (nodeID d) (subscribed d) (redis d) (channel d).
Definition set_redis (f : R → R) d : node :=
  mkDistributed (reg d) (nodeID d) (subscribed d) (f (redis d)) (channel d).
Definition publish (c payload : string) d : node :=
  mkDistributed (reg d) (nodeID d) (subscribed d) (redis d) ((c, payload) :: channel d).

(** [startSubscriber]: from here on the node receives messages. *)
Definition startSubscriber d : node := mkDistributed (reg d) (nodeID d) true (redis d) (channel d).

(** A command whose error is only logged. *)
Definition send (f : node → node) : M node unit := _ ← call (λ d, (tt, f d)); mret tt.

Definition unix (t : Z) : Z := t / Second.
Definition from_unix (t : Z) : Z := t * Second.

Definition localToRedisState (node_id : string) q : redisQueryState :=
  mkState (QueryID q) (q_DatasourceID q) (q_Database q) (SQL q) (q_UserID q) (q_Status q) (q_Error q)
    (q_ExecutionTime q) (FromCache q) node_id (unix (q_CreatedAt q))
    (match StartTime q with Some t => unix t | None => 0 end).

Definition saveToRedis (now : Z) state : M node unit :=
  send (set_redis (SET now (redisKeyPrefix +:+ s_QueryID state) (VStr (marshal_state state)) redisDefaultTTL)).

Definition read_redis (now : Z) (key : string) : M node get_reply :=
  zoom redis (λ r d, set_redis (λ _, r) d) (get_str now key).

(** [Err] is an error other than [redis.Nil]. *)
Definition getFromRedis (now : Z) (id : string) : M node (result unit (option redisQueryState)) :=
  g ← read_redis now (redisKeyPrefix +:+ id);
  mret match g with
       | GetErr => Err tt
       | GetNil => Ok None
       | GetVal data => match unmarshal_state data with None => Err tt | Some s => Ok (Some s) end
       end.

Definition deleteFromRedis (id : string) : M node unit := send (set_redis (DEL (redisKeyPrefix +:+ id))).
Definition deleteResultFromRedis (id : string) : M node unit := send (set_redis (DEL (redisResultKeyPrefix +:+ id))).

(** The slice [Rows[:10000]] is in range for the results of the drivers,
    whose [RowCount] is the number of rows. *)
Definition maxRowsForRedis : Z := 10000.
Definition truncated (r : QueryResult V) : QueryResult V :=
  if maxRowsForRedis <? RowCount r
  then mkResult (Columns r) (take (Z.to_nat maxRowsForRedis) (Rows r)) (RowCount r) else r.

Definition saveResultToRedis (now : Z) (id : string) (res : option (QueryResult V)) : M node unit :=
  match res with
  | None => mret tt
  | Some r =>
      match marshal_result (truncated r) with
      | None => mret tt
      | Some data => send (set_redis (SET now (redisResultKeyPrefix +:+ id) (VStr data) redisDefaultTTL))
      end
  end.

Definition getResultFromRedis (now : Z) (id : string) : M node (result unit (option (QueryResult V))) :=
  g ← read_redis now (redisResultKeyPrefix +:+ id);
  mret match g with
       | GetErr => Err tt
       | GetNil => Ok None
       | GetVal data => match unmarshal_result data with None => Err tt | Some r => Ok (Some r) end
       end.

Definition publishUpdate state : M node unit := send (publish redisChannel (marshal_state state)).
Definition publishCancelCommand (cmd : redisCancelCommand) : M node unit :=
  send (publish redisCancelChannel (marshal_cancel cmd)).

Definition dist_Register (now : Z) q : M node unit :=
  let q := created now q in
  _ ← modify (set_reg (put q (QueryID q)));
  node_id ← gets nodeID;
  _ ← saveToRedis now (mkState (QueryID q) (q_DatasourceID q) (q_Database q) (SQL q) (q_UserID q) (q_Status q) "" 0 false
                         node_id (unix (q_CreatedAt q)) 0);
  modify startSubscriber.

(** The query another node's state describes. *)
Definition query_of_state state (res : option (QueryResult V)) : RunningQuery V :=
  mkQuery (s_QueryID state) (s_DatasourceID state) (s_Database state) (s_SQL state) (s_UserID state) (s_Status state)
    res (s_Error state) (s_ExecutionTime state)
    (if 0 <? s_StartTime state then Some (from_unix (s_StartTime state)) else None)
    (s_FromCache state) None (from_unix (s_CreatedAt state)).

(** The result is read for completed queries only, an error ignored. *)
Definition result_for (now : Z) state (id : string) : M node (option (QueryResult V)) :=
  if bool_decide (s_Status state = QueryStatusCompleted)
  then r ← getResultFromRedis now id; mret (match r with Ok o => o | Err _ => None end)
  else mret None.

Definition dist_Get (now : Z) (id : string) : M node (option (RunningQuery V)) :=
  o ← gets (λ d, queries (reg d) !! id);
  match o with
  | Some q => mret (Some q)
  | None =>
      s ← getFromRedis now id;
      match s with
      | Ok (Some state) => res ← result_for now state id; mret (Some (query_of_state state res))
      | _ => mret None
      end
  end.

(** What [UpdateResult], [UpdateError], [Cancel], [SetRunning] and
    [handleCancelCommand] do with a query they changed: save it, run
    [save_more], publish it, notify the observers. *)
Definition announce (now : Z) q (save_more : M node unit) : M node unit :=
  node_id ← gets nodeID;
  let state := localToRedisState node_id q in
  _ ← saveToRedis now state;
  _ ← save_more;
  _ ← publishUpdate state;
  modify (set_reg (notifyObservers q)).

Definition dist_update (now : Z) (id : string) (f : RunningQuery V → RunningQuery V) (save_more : M node unit) :
    M node unit :=
  o ← gets (λ d, queries (reg d) !! id);
  match o with
  | None => mret tt
  | Some q => _ ← modify (set_reg (put (f q) id)); announce now (f q) save_more
  end.

Definition dist_UpdateResult (now : Z) (id : string) (res : option (QueryResult V)) (execTime : Z) : M node unit :=
  dist_update now id (completed res execTime) (saveResultToRedis now id res).
Definition dist_UpdateError (now : Z) (id errMsg : string) (execTime : Z) : M node unit :=
  dist_update now id (failed errMsg execTime) (mret tt).
Definition dist_SetRunning (now : Z) (id : string) : M node unit :=
  dist_update now id (started now) (mret tt).

Definition dist_cancel_local (now : Z) (id : string) q : M node unit :=
  _ ← modify (set_reg (λ r, cancel_context q (put q id r)));
  announce now q (mret tt).

(** The part of [Cancel] after the lock is released. *)
Definition cancel_elsewhere (now : Z) (id : string) : M node bool :=
  s ← getFromRedis now id;
  match s with
  | Ok (Some state) =>
      if terminal (s_Status state) then mret false
      else
        node_id ← gets nodeID;
        if negb (bool_decide (s_NodeID state = "")) && negb (bool_decide (s_NodeID state = node_id))
        then _ ← publishCancelCommand (mkCancel id node_id); mret true
        else mret false
  | _ => mret false
  end.

Definition dist_Cancel (now : Z) (id : string) : M node bool :=
  o ← gets (λ d, queries (reg d) !! id);
  match o with
  | Some q =>
      if active (q_Status q)
      then _ ← dist_cancel_local now id (with_status QueryStatusCancelled q); mret true
      else cancel_elsewhere now id
  | None => cancel_elsewhere now id
  end.

Definition dist_Cleanup (now maxAge : Z) : M node unit :=
  qs ← gets (λ d, map_to_list (queries (reg d)));
  for_each qs (λ '(id, q),
    if stale now maxAge q
    then
      _ ← modify (set_reg (λ r, mkRegistry (delete id (queries r)) (observers r) (cancelled r) (notified r)));
      _ ← deleteFromRedis id;
      deleteResultFromRedis id
    else mret tt).

Definition dist_RegisterObserver (o : nat) : M node unit :=
  _ ← modify (set_reg (local_RegisterObserver o)); modify startSubscriber.
Definition dist_UnregisterObserver (o : nat) : M node unit := modify (set_reg (local_UnregisterObserver o)).

(** *** Messages *)
Definition handleCancelCommand (now : Z) (payload : string) : M node unit :=
  match unmarshal_cancel payload with
  | None => mret tt
  | Some cmd =>
      o ← gets (λ d, queries (reg d) !! c_QueryID cmd);
      match o with
      | None => mret tt
      | Some q =>
          if active (q_Status q)
          then dist_cancel_local now (c_QueryID cmd) (with_error "查询已被用户取消" (with_status QueryStatusCancelled q))
          else mret tt
      end
  end.

Definition handleRedisMessage (now : Z) (payload : string) : M node unit :=
  match unmarshal_state payload with
  | None => mret tt
  | Some state =>
      node_id ← gets nodeID;
      if bool_decide (s_NodeID state = node_id) then mret tt
      else
        res ← result_for now state (s_QueryID state);
        modify (set_reg (notifyObservers (query_of_state state res)))
  end.

(** The loop of the subscriber's goroutine, for one message. *)
Definition on_message (now : Z) (msg : string * string) : M node unit :=
  if bool_decide (msg.1 = redisCancelChannel) then handleCancelCommand now msg.2 else handleRedisMessage now msg.2.

#[export] Instance distributed_registry : queryRegistry V node := {
  Register := dist_Register;
  Get := dist_Get;
  UpdateResult := dist_UpdateResult;
  UpdateError := dist_UpdateError;
  Cancel := dist_Cancel;
  SetRunning := dist_SetRunning;
  Cleanup := dist_Cleanup;
  RegisterObserver := dist_RegisterObserver;
  UnregisterObserver := dist_UnregisterObserver;
}.
End distributed.

(** ** A node's own queries do not depend on Redis *)
Section own_queries.
Context {V R : Type} `{Redis R} `{QueryCodec V}.
Notation node := (DistributedQueryRegistry V R).
Implicit Types (d : node) (q : RunningQuery V) (r : QueryRegistry V).

(** The node has the registry [r] and the name [n]. *)
Definition regis r (n : string) d : Prop := reg d = r ∧ nodeID d = n.
(** A step that only talks to Redis. *)
Definition outside {A} (m : M node A) : Prop := ∀ r n, preserves (regis r n) m.

Lemma outside_ret {A} (a : A) : outside (mret a).
Proof. intros r n. apply preserves_ret. Qed.
Lemma outside_bind {A B} (m : M node A) (k : A → M node B) : outside m → (∀ a, outside (k a)) → outside (m ≫= k).
Proof. intros Hm Hk r n. apply preserves_bind; [apply Hm|intros a; apply Hk]. Qed.
Lemma outside_send (f : node → node) : (∀ d, reg (f d) = reg d ∧ nodeID (f d) = nodeID d) → outside (send f).
Proof.
  intros Hf r n. unfold send. apply preserves_bind; [|intros _; apply preserves_ret].
  apply preserves_call. intros d [Hr Hn]. destruct (Hf d) as [E1 E2]. split; simpl; congruence.
Qed.
Lemma outside_read now key : outside (read_redis now key).
Proof.
  intros r n d fs [Hr Hn]. unfold read_redis, zoom. destruct (get_str now key (redis d) fs) as [a [r' fs']].
  by split.
Qed.
Lemma outside_save now state : outside (saveToRedis now state).
Proof. by apply outside_send. Qed.
Lemma outside_getFromRedis now id : outside (getFromRedis now id).
Proof. apply outside_bind; [apply outside_read|intros; apply outside_ret]. Qed.
Lemma outside_saveResult now id res : outside (saveResultToRedis now id res).
Proof.
  unfold saveResultToRedis. destruct res as [x|]; [|apply outside_ret].
  destruct (marshal_result _); [by apply outside_send|apply outside_ret].
Qed.
Lemma outside_result_for now state id : outside (result_for now state id).
Proof.
  unfold result_for. case_bool_decide; [|apply outside_ret].
  apply outside_bind; [|intros; apply outside_ret].
  apply outside_bind; [apply outside_read|intros; apply outside_ret].
Qed.
Lemma outside_elsewhere now id : outside (cancel_elsewhere now id).
Proof.
  apply outside_bind; [apply outside_getFromRedis|]. intros [[s|]|]; try apply outside_ret.
  destruct (terminal _); [apply outside_ret|]. apply outside_bind; [intros r n; apply preserves_gets|].
  intros node_id. destruct (_ && _); [|apply outside_ret].
  apply outside_bind; [by apply outside_send|intros; apply outside_ret].
Qed.

Lemma triple_outside {A} r n (m : M node A) : outside m → triple (regis r n) m (λ _, regis r n).
Proof. intros Hm d fs Hd. by apply Hm. Qed.

Lemma regis_modify f r n : triple (regis r n) (modify (set_reg f)) (λ _, regis (f r) n).
Proof. apply triple_modify. intros d [Hr Hn]. split; simpl; congruence. Qed.

Lemma announce_regis now q save_more r n : outside save_more →
  triple (regis r n) (announce now q save_more) (λ _, regis (notifyObservers q r) n).
Proof.
  intros Hm. unfold announce. eapply triple_bind; [by apply triple_outside; intros ??; apply preserves_gets|].
  intros node_id. eapply triple_bind; [apply triple_outside, outside_save|]. intros ?.
  eapply triple_bind; [by apply triple_outside|]. intros ?.
  eapply triple_bind; [by apply triple_outside, outside_send|]. intros ?. apply regis_modify.
Qed.

Lemma lookup_regis {A} id r n (k : option (RunningQuery V) → M node A) Q :
  triple (regis r n) (k (queries r !! id)) Q →
  triple (regis r n) (gets (λ d, queries (reg d) !! id) ≫= k) Q.
Proof. intros Hk d fs Hd. unfold gets, mbind, M_bind. destruct Hd as [Hr Hn]. rewrite Hr. by apply Hk. Qed.

Lemma dist_update_regis now id f save_more r n : outside save_more →
  triple (regis r n) (dist_update now id f save_more) (λ _, regis (local_update id f r) n).
Proof.
  intros Hm. unfold dist_update, local_update. apply lookup_regis. destruct (queries r !! id) as [q|].
  - eapply triple_bind; [apply regis_modify|]. intros ?. by apply announce_regis.
  - by apply triple_ret.
Qed.

Lemma dist_Register_regis now q r n :
  triple (regis r n) (dist_Register now q) (λ _, regis (local_Register now q r) n).
Proof.
  unfold dist_Register. eapply triple_bind; [apply regis_modify|]. intros ?.
  eapply triple_bind; [by apply triple_outside; intros ??; apply preserves_gets|]. intros node_id.
  eapply triple_bind; [apply triple_outside, outside_save|]. intros ?.
  apply triple_modify. intros d [Hr Hn]. by split.
Qed.

Lemma cancel_local_regis now id q r n :
  triple (regis r n) (dist_cancel_local now id q) (λ _, regis (notifyObservers q (cancel_context q (put q id r))) n).
Proof.
  unfold dist_cancel_local. eapply triple_bind; [apply regis_modify|]. intros ?.
  apply announce_regis, outside_ret.
Qed.

Lemma dist_Cancel_regis now id r n :
  triple (regis r n) (dist_Cancel now id)
    (λ b d, regis (local_Cancel id r).2 n d ∧ ((local_Cancel id r).1 = true → b = true)).
Proof.
  assert (Hel : triple (regis r n) (cancel_elsewhere now id) (λ b d, regis r n d ∧ (false = true → b = true))).
  { eapply triple_weaken; [apply triple_outside, outside_elsewhere|done|]. by intros b d' Hd. }
  unfold dist_Cancel. apply lookup_regis. unfold local_Cancel.
  destruct (queries r !! id) as [q|]; [|exact Hel]. destruct (active (q_Status q)); [|exact Hel].
  eapply triple_bind; [apply cancel_local_regis|]. intros ?. apply triple_ret. by intros s Hs.
Qed.

Definition drop (id : string) r : QueryRegistry V :=
  mkRegistry (delete id (queries r)) (observers r) (cancelled r) (notified r).

Lemma cleanup_loop now maxAge (qs : list (string * RunningQuery V)) r n :
  triple (regis r n)
    (for_each qs (λ '(id, q),
       if stale now maxAge q
       then _ ← modify (set_reg (λ r, mkRegistry (delete id (queries r)) (observers r) (cancelled r) (notified r)));
            _ ← deleteFromRedis id; deleteResultFromRedis id
       else mret tt))
    (λ _, regis (foldl (λ r '(id, q), if stale now maxAge q then drop id r else r) r qs) n).
Proof.
  revert r. induction qs as [|[id q] qs IH]; intros r; simpl; [by apply triple_ret|].
  eapply triple_bind; [|intros ?; apply IH]. destruct (stale now maxAge q); [|by apply triple_ret].
  eapply triple_bind; [apply (regis_modify (drop id))|]. intros ?.
  eapply triple_bind; [by apply triple_outside, outside_send|]. intros ?. by apply triple_outside, outside_send.
Qed.

Lemma fold_drop now maxAge (qs : list (string * RunningQuery V)) r k :
  queries (foldl (λ r '(id, q), if stale now maxAge q then drop id r else r) r qs) !! k =
  if existsb (λ '(id, q), bool_decide (id = k) && stale now maxAge q) qs then None else queries r !! k.
Proof.
  revert r. induction qs as [|[id q] qs IH]; intros r; simpl; [done|]. rewrite IH.
  destruct (existsb _ qs); [by rewrite orb_true_r|]. rewrite orb_false_r.
  destruct (stale now maxAge q); [|by rewrite andb_false_r]. rewrite andb_true_r. simpl.
  case_bool_decide as E; [subst; apply lookup_delete_eq|by apply lookup_delete_ne].
Qed.

Lemma fold_drop_rest now maxAge (qs : list (string * RunningQuery V)) r :
  let r' := foldl (λ r '(id, q), if stale now maxAge q then drop id r else r) r qs in
  observers r' = observers r ∧ cancelled r' = cancelled r ∧ notified r' = notified r.
Proof.
  revert r. induction qs as [|[id q] qs IH]; intros r; simpl; [done|].
  destruct (IH (if stale now maxAge q then drop id r else r)) as (E1 & E2 & E3). cbv zeta.
  rewrite E1, E2, E3. by destruct (stale now maxAge q).
Qed.

Lemma fold_drop_all now maxAge r :
  foldl (λ r '(id, q), if stale now maxAge q then drop id r else r) r (map_to_list (queries r)) =
  local_Cleanup now maxAge r.
Proof.
  destruct (fold_drop_rest now maxAge (map_to_list (queries r)) r) as (E1 & E2 & E3).
  pose proof (fold_drop now maxAge (map_to_list (queries r)) r) as E. cbv zeta in E1, E2, E3.
  revert E E1 E2 E3. generalize (foldl (λ r '(id, q), if stale now maxAge q then drop id r else r) r (map_to_list (queries r))).
  intros r' E E1 E2 E3. destruct r' as [m o c nt]; simpl in *. unfold local_Cleanup, keep. f_equal; try done.
  apply map_eq. intros k. rewrite E. destruct (existsb _ _) eqn:Ex.
  - apply existsb_elem_of in Ex as ([id q] & Hin & Hb). apply andb_prop in Hb as [Hb Hst]. case_bool_decide; [|done]. subst.
    apply elem_of_map_to_list in Hin. symmetry. apply map_lookup_filter_None. right. intros q' Hq'. simplify_eq/=. by rewrite Hst.
  - rewrite existsb_false_iff in Ex. destruct (queries r !! k) as [q|] eqn:Hk.
    + symmetry. apply map_lookup_filter_Some. split; [done|]. simpl. apply elem_of_map_to_list in Hk.
      specialize (Ex _ Hk). simpl in Ex. rewrite bool_decide_true in Ex by done. simpl in Ex. by rewrite Ex.
    + symmetry. apply map_lookup_filter_None. by left.
Qed.

Lemma dist_Cleanup_regis now maxAge r n :
  triple (regis r n) (dist_Cleanup now maxAge) (λ _, regis (local_Cleanup now maxAge r) n).
Proof.
  intros d fs Hd. unfold dist_Cleanup, gets, mbind, M_bind. destruct Hd as [Hr Hn]. rewrite Hr.
  pose proof (cleanup_loop now maxAge (map_to_list (queries r)) r n) as Hl. rewrite fold_drop_all in Hl. by apply Hl.
Qed.

Lemma run_regis {A} (m : M node A) d fs r' :
  triple (regis (reg d) (nodeID d)) m (λ _, regis r' (nodeID d)) → reg (run m d fs).2 = r'.
Proof. intros Ht. exact (proj1 (run_triple _ _ _ d fs Ht (conj eq_refl eq_refl))). Qed.

#[export] Instance distributed_view : QueryView V node := {| own d := queries (reg d); contexts d := cancelled (reg d) |}.

#[export] Instance distributed_registry_laws : queryRegistryLaws V node.
Proof.
  constructor; cbn [own contexts distributed_view].
  - intros now q s fs. erewrite (run_regis _ s fs); [|apply dist_Register_regis]. done.
  - intros now id q s fs Hq. unfold run. simpl. unfold dist_Get, gets, mbind, M_bind. by rewrite Hq.
  - intros now id r t s fs. erewrite (run_regis _ s fs); [|apply dist_update_regis, outside_saveResult]. apply local_update_queries.
  - intros now id e t s fs. erewrite (run_regis _ s fs); [|apply dist_update_regis, outside_ret]. apply local_update_queries.
  - intros now id s fs. erewrite (run_regis _ s fs); [|apply dist_update_regis, outside_ret]. apply local_update_queries.
  - intros now id s fs. erewrite (run_regis _ s fs); [|apply dist_update_regis, outside_ret]. apply local_update_cancelled.
  - intros now id q s fs Hq Ha. cbn [Cancel distributed_registry].
    destruct (run_triple _ _ _ s fs (dist_Cancel_regis now id (reg s) (nodeID s)) (conj eq_refl eq_refl)) as [[Hr _] Hb].
    rewrite (local_Cancel_active id q) in Hr, Hb by done. rewrite Hr. by rewrite Hb.
  - intros now id s fs Hq. cbn [Cancel distributed_registry].
    destruct (run_triple _ _ _ s fs (dist_Cancel_regis now id (reg s) (nodeID s)) (conj eq_refl eq_refl)) as [[Hr _] _].
    rewrite local_Cancel_inactive in Hr by done. by rewrite Hr.
  - intros now maxAge s fs. erewrite (run_regis _ s fs); [|apply dist_Cleanup_regis]. apply keep_filter.
  - intros o s fs. split; done.
Qed.
End own_queries.

(** ** A codec for the witnesses *)

#[export] Instance redisQueryState_eq_dec : EqDecision redisQueryState.
Proof. solve_decision. Defined.
#[export] Instance redisQueryState_countable : Countable redisQueryState.
Proof.
  refine (inj_countable'
    (λ s, (s_QueryID s, s_DatasourceID s, s_Database s, s_SQL s, s_UserID s, s_Status s, s_Error s, s_ExecutionTime s,
           s_FromCache s, s_NodeID s, s_CreatedAt s, s_StartTime s))
    (λ '(a, b, c, d, e, f, g, h, i, j, k, l), mkState a b c d e f g h i j k l) _).
  by intros [].
Defined.

(** Integers for cells, all of them small enough to be exact. *)
#[export] Instance bit_codec : QueryCodec Z := {
  json_text s := s;
  via_json z := z;
  marshal_state s := write_text s;
  unmarshal_state := read_text;
  marshal_cancel c := write_text (c_QueryID c, c_FromNode c);
  unmarshal_cancel s := (λ '(a, b), mkCancel a b) <$> read_text s;
  marshal_result r := Some (write_text (Columns r, Rows r, RowCount r));
  unmarshal_result s := (λ '(a, b, n), mkResult a b n) <$> read_text s;
}.

#[export] Instance bit_codec_laws : QueryCodecLaws Z.
Proof.
  constructor.
  - intros []. apply read_write_text.
  - intros []. cbn [unmarshal_cancel marshal_cancel bit_codec]. by rewrite read_write_text.
  - intros [] d [= <-]. cbn [unmarshal_result bit_codec]. rewrite read_write_text. simpl. unfold json_result. simpl.
    by rewrite map_id, (map_ext _ (λ r, r)), map_id by (intros; apply map_id).
Qed.
