(* ===== verification/QueryCluster.v ===== *)
(** * Query registries of one node and of several

    The theorems of [QueryRegistry.v]'s registries.  With one node up, the
    distributed registry answers as the local one whatever Redis does
    ([one_node_answers_as_local]).  With several nodes and a Redis that
    answers, every node reports what the owner of a query holds
    ([nodes_agree], by an invariant of the steps of the cluster) and can
    cancel it ([cancel_reaches_owner]). *)
From S2P Require Import Prelude Redis QueryRegistry.

(** ** Calls of a registry *)
Inductive reg_op (V : Type) : Type :=
| OpRegister (q : RunningQuery V)
| OpGet (id : string)
| OpUpdateResult (id : string) (r : QueryResult V) (execTime : Z)
| OpUpdateError (id errMsg : string) (execTime : Z)
| OpCancel (id : string)
| OpSetRunning (id : string)
| OpCleanup (maxAge : Z)
| OpRegisterObserver (o : nat)
| OpUnregisterObserver (o : nat).
Arguments OpRegister {V}.
Arguments OpGet {V}.
Arguments OpUpdateResult {V}.
Arguments OpUpdateError {V}.
Arguments OpCancel {V}.
Arguments OpSetRunning {V}.
Arguments OpCleanup {V}.
Arguments OpRegisterObserver {V}.
Arguments OpUnregisterObserver {V}.

Inductive reg_answer (V : Type) : Type :=
| Done
| Found (q : option (RunningQuery V))
| Asked (b : bool).
Arguments Done {V}.
Arguments Found {V}.
Arguments Asked {V}.

Section calls.
Context {V S : Type} `{queryRegistry V S}.

Definition reg_handle (now : Z) (o : reg_op V) : M S (reg_answer V) :=
  match o with
  | OpRegister q => _ ← Register now q; mret Done
  | OpGet id => o ← Get now id; mret (Found o)
  | OpUpdateResult id r t => _ ← UpdateResult now id (Some r) t; mret Done
  | OpUpdateError id e t => _ ← UpdateError (V := V) now id e t; mret Done
  | OpCancel id => b ← Cancel (V := V) now id; mret (Asked b)
  | OpSetRunning id => _ ← SetRunning (V := V) now id; mret Done
  | OpCleanup maxAge => _ ← Cleanup (V := V) now maxAge; mret Done
  | OpRegisterObserver o => _ ← RegisterObserver (V := V) o; mret Done
  | OpUnregisterObserver o => _ ← UnregisterObserver (V := V) o; mret Done
  end.

(** A history: the clock, the call and the fates of its commands. *)
Fixpoint reg_run (h : list (Z * reg_op V * list fate)) (s : S) : list (reg_answer V) * S :=
  match h with
  | [] => ([], s)
  | (now, o, fs) :: h' =>
      let '(a, s1) := run (reg_handle now o) s fs in
      let '(l, s2) := reg_run h' s1 in (a :: l, s2)
  end.
End calls.

(** An identifier whose state is not stored under the key of a result. *)
Definition plain (id : string) : bool := negb (String.prefix "result:" id).

Lemma state_key_inj a b : redisKeyPrefix +:+ a = redisKeyPrefix +:+ b → a = b.
Proof. apply (inj (String.append redisKeyPrefix)). Qed.
Lemma result_key_inj a b : redisResultKeyPrefix +:+ a = redisResultKeyPrefix +:+ b → a = b.
Proof. apply (inj (String.append redisResultKeyPrefix)). Qed.
Lemma state_key_result_key a b : plain a = true → redisKeyPrefix +:+ a ≠ redisResultKeyPrefix +:+ b.
Proof.
  intros Ha Heq. apply (state_key_inj a ("result:" +:+ b)) in Heq. subst. unfold plain in Ha.
  by rewrite prefix_app in Ha.
Qed.
Opaque redisKeyPrefix redisResultKeyPrefix.

(** ** One node answers as a local registry *)
Section one_node.
Context {V R : Type} `{RedisLaws R} `{QueryCodecLaws V}.
Notation node := (DistributedQueryRegistry V R).
Implicit Types (d : node) (q : RunningQuery V) (r : QueryRegistry V).

Definition op_plain (o : reg_op V) : bool :=
  match o with
  | OpRegister q => plain (QueryID q)
  | OpGet id => plain id
  | OpUpdateResult id _ _ | OpUpdateError id _ _ | OpSetRunning id | OpCancel id => plain id
  | _ => true
  end.

(** Redis may fail in every way, but not while a [Cleanup] deletes. *)
Definition fates_ok (o : reg_op V) (fs : list fate) : bool :=
  match o with OpCleanup _ => bool_decide (fs = []) | _ => true end.

(** Redis holds states of queries the node knows, with its name on them. *)
Record mine r (n : string) d : Prop := {
  mine_regis : regis r n d;
  mine_ids id q : queries r !! id = Some q → QueryID q = id ∧ plain id = true;
  mine_states id v dl : plain id = true → entry (redis d) (redisKeyPrefix +:+ id) = Some (v, dl) →
    is_Some (queries r !! id) ∧ ∃ st, v = VStr (marshal_state st) ∧ s_NodeID st = n;
}.

Lemma mine_reg r r' n (f : QueryRegistry V → QueryRegistry V) d :
  mine r n d → f r = r' → (∀ id, is_Some (queries r !! id) → is_Some (queries r' !! id)) →
  (∀ id q, queries r' !! id = Some q → QueryID q = id ∧ plain id = true) → mine r' n (set_reg f d).
Proof.
  intros [[Hr Hn] Hids Hst] <- Hdom Hids'. split; [split; simpl; congruence|done|].
  intros id v dl Hp He. destruct (Hst id v dl Hp He) as [Hs ?]. eauto.
Qed.

Lemma mine_send r n (f : node → node) :
  (∀ d, mine r n d → mine r n (f d)) → preserves (mine r n) (send f).
Proof.
  intros Hf. unfold send. apply preserves_bind; [|intros ?; apply preserves_ret]. by apply preserves_call.
Qed.

Lemma mine_publish r n c p d : mine r n d → mine r n (publish c p d).
Proof. intros [[Hr Hn] Hids Hst]. by split. Qed.

Lemma mine_SET r n d now k v :
  mine r n d →
  (∀ id, plain id = true → k = redisKeyPrefix +:+ id →
     is_Some (queries r !! id) ∧ ∃ st, v = VStr (marshal_state st) ∧ s_NodeID st = n) →
  mine r n (set_redis (SET now k v redisDefaultTTL) d).
Proof.
  intros [Hd Hids Hst] Hk. split; [done|done|]. intros id v' dl Hp. simpl. rewrite SET_spec.
  case_decide as E; [|by apply Hst]. intros [= <- _]. by apply Hk.
Qed.

Lemma mine_save r n now q : is_Some (queries r !! QueryID q) →
  preserves (mine r n) (saveToRedis now (localToRedisState n q)).
Proof.
  intros Hq. apply mine_send. intros d Hd. apply mine_SET; [done|]. simpl.
  intros id Hp <-%state_key_inj. eauto.
Qed.

Lemma mine_saveResult r n now id res : preserves (mine r n) (saveResultToRedis now id res).
Proof.
  unfold saveResultToRedis. destruct res as [x|]; [|apply preserves_ret].
  destruct (marshal_result _); [|apply preserves_ret]. apply mine_send. intros d Hd. apply mine_SET; [done|].
  intros id' Hp E. by apply eq_sym, state_key_result_key in E.
Qed.

Lemma mine_nodeID {A} r n (k : string → M node A) Q :
  triple (mine r n) (k n) Q → triple (mine r n) (gets nodeID ≫= k) Q.
Proof. intros Hk d fs Hd. unfold gets, mbind, M_bind. rewrite (proj2 (mine_regis _ _ _ Hd)). by apply Hk. Qed.

Lemma mine_modify r r' n f : f r = r' → (∀ id, is_Some (queries r !! id) → is_Some (queries r' !! id)) →
  ((∀ id q, queries r !! id = Some q → QueryID q = id ∧ plain id = true) →
   ∀ id q, queries r' !! id = Some q → QueryID q = id ∧ plain id = true) →
  triple (mine r n) (modify (set_reg f)) (λ _, mine r' n).
Proof. intros Hf Hdom Hids. apply triple_modify. intros d Hd. eapply mine_reg; eauto using mine_ids. Qed.

Lemma mine_announce now q save_more r n :
  is_Some (queries r !! QueryID q) → preserves (mine r n) save_more →
  triple (mine r n) (announce now q save_more) (λ _, mine (notifyObservers q r) n).
Proof.
  intros Hq Hm. unfold announce. apply mine_nodeID.
  eapply triple_bind; [by apply triple_preserved, mine_save|]. intros ?.
  eapply triple_bind; [by apply triple_preserved|]. intros ?.
  eapply triple_bind; [by apply triple_preserved, mine_send; intros; apply mine_publish|]. intros ?.
  by apply mine_modify.
Qed.

Lemma lookup_mine {A} id r n (k : option (RunningQuery V) → M node A) Q :
  triple (mine r n) (k (queries r !! id)) Q →
  triple (mine r n) (gets (λ d, queries (reg d) !! id) ≫= k) Q.
Proof.
  intros Hk d fs Hd. unfold gets, mbind, M_bind. rewrite (proj1 (mine_regis _ _ _ Hd)). by apply Hk.
Qed.

Lemma put_ids q q' id r :
  queries r !! id = Some q → QueryID q' = QueryID q →
  (∀ id q, queries r !! id = Some q → QueryID q = id ∧ plain id = true) →
  ∀ id0 q0, queries (put q' id r) !! id0 = Some q0 → QueryID q0 = id0 ∧ plain id0 = true.
Proof.
  intros Hq Hid Hids id0 q0. simpl. intros [[<- <-]|[Hne Hq0]]%lookup_insert_Some; [|by apply Hids].
  rewrite Hid. by apply Hids.
Qed.

Lemma put_dom q id r id0 : is_Some (queries r !! id0) → is_Some (queries (put q id r) !! id0).
Proof. simpl. intros Hs. destruct (decide (id = id0)) as [->|]; [rewrite lookup_insert_eq|rewrite lookup_insert_ne]; eauto. Qed.

Lemma mine_update now id f save_more r n :
  (∀ q, QueryID (f q) = QueryID q) → (∀ r, preserves (mine r n) save_more) →
  (∀ id q, queries r !! id = Some q → QueryID q = id ∧ plain id = true) →
  triple (mine r n) (dist_update now id f save_more) (λ _, mine (local_update id f r) n).
Proof.
  intros Hf Hm Hids. unfold dist_update, local_update. apply lookup_mine.
  destruct (queries r !! id) as [q|] eqn:Hq; [|by apply triple_ret].
  eapply triple_bind; [apply (mine_modify r (put (f q) id r)); [done|by apply put_dom|by eapply put_ids]|]. intros ?.
  apply mine_announce; [|done]. rewrite Hf. destruct (Hids _ _ Hq) as [-> _]. simpl. by rewrite lookup_insert_eq.
Qed.

Lemma mine_cancel now id q q' r n :
  queries r !! id = Some q → QueryID q' = QueryID q → QueryID q = id →
  triple (mine r n) (dist_cancel_local now id q') (λ _, mine (notifyObservers q' (cancel_context q' (put q' id r))) n).
Proof.
  intros Hq Hid Hid'. unfold dist_cancel_local.
  eapply triple_bind; [apply (mine_modify r (cancel_context q' (put q' id r)) n
    (λ r0, cancel_context q' (put q' id r0))); [done|by apply (put_dom q' id)|by apply (put_ids q q' id)]|]. intros ?.
  apply mine_announce; [|apply preserves_ret]. rewrite Hid, Hid'. simpl. by rewrite lookup_insert_eq.
Qed.
End one_node.

Section one_node_calls.
Context {V R : Type} `{RedisLaws R} `{QueryCodecLaws V}.
Notation node := (DistributedQueryRegistry V R).
Implicit Types (d : node) (q : RunningQuery V) (r : QueryRegistry V).

(** A read leaves the node as it is. *)
Lemma read_redis_spec now key d fs :
  ∃ g fs', read_redis now key d fs = (g, (d, fs')) ∧
    (g = GetErr ∨ g = get_value (fst <$> live now key (redis d))).
Proof.
  unfold read_redis, zoom, get_str, call, mbind, M_bind, mret, M_ret.
  assert (Hd : set_redis (λ _, redis d) d = d) by by destruct d.
  destruct fs as [|[] fs]; rewrite ?Hd, ?GET_spec; eauto.
Qed.

Lemma mine_getFromRedis now id r n :
  json_text n = n → plain id = true →
  triple (mine r n) (getFromRedis now id)
    (λ s d, mine r n d ∧ ∀ st, s = Ok (Some st) → is_Some (queries r !! id) ∧ s_NodeID st = n).
Proof.
  intros Hn Hp d fs Hd. unfold getFromRedis, mbind, M_bind, mret, M_ret.
  destruct (read_redis_spec now (redisKeyPrefix +:+ id) d fs) as (g & fs' & -> & Hg). simpl. split; [done|].
  intros st Hst. destruct Hg as [->| ->]; [done|]. revert Hst. unfold live.
  destruct (entry (redis d) (redisKeyPrefix +:+ id)) as [[v dl]|] eqn:He; [|done].
  destruct (expired now dl); [done|]. simpl.
  destruct (mine_states _ _ _ Hd _ _ _ Hp He) as (Hs & st' & -> & Hst'). simpl.
  rewrite state_roundtrip. intros [= <-]. simpl. by rewrite Hst'.
Qed.

Lemma mine_elsewhere now id r n :
  json_text n = n → plain id = true →
  triple (mine r n) (cancel_elsewhere now id) (λ b d, mine r n d ∧ b = false).
Proof.
  intros Hn Hp. unfold cancel_elsewhere. eapply triple_bind; [by apply mine_getFromRedis|].
  intros [[st|]|]; try (apply triple_ret; by intros s [Hs _]).
  destruct (terminal (s_Status st)); [apply triple_ret; by intros s [Hs _]|].
  intros d fs [Hd Hst]. destruct (Hst st eq_refl) as [_ Hid].
  unfold gets, mbind, M_bind. rewrite (proj2 (mine_regis _ _ _ Hd)), Hid, (bool_decide_true (n = n)) by done.
  by rewrite andb_false_r.
Qed.

Lemma mine_Get now id r n :
  json_text n = n → plain id = true →
  triple (mine r n) (dist_Get now id) (λ o d, mine r n d ∧ o = queries r !! id).
Proof.
  intros Hn Hp. unfold dist_Get. apply lookup_mine. destruct (queries r !! id) as [q|] eqn:Hq; [by apply triple_ret|].
  eapply triple_bind; [by apply mine_getFromRedis|].
  intros [[st|]|]; try (apply triple_ret; by intros s [Hs _]).
  intros d fs [Hd Hst]. destruct (Hst st eq_refl) as [[q Hsome] _]. congruence.
Qed.

Lemma mine_Cancel now id r n :
  json_text n = n → plain id = true → (∀ id q, queries r !! id = Some q → QueryID q = id ∧ plain id = true) →
  triple (mine r n) (dist_Cancel now id) (λ b d, mine (local_Cancel id r).2 n d ∧ b = (local_Cancel id r).1).
Proof.
  intros Hn Hp Hids. unfold dist_Cancel. apply lookup_mine. unfold local_Cancel.
  destruct (queries r !! id) as [q|] eqn:Hq; [|by apply mine_elsewhere].
  destruct (active (q_Status q)); [|by apply mine_elsewhere].
  eapply triple_bind; [|intros ?; apply triple_ret; intros s Hs; split; [exact Hs|done]].
  by apply (mine_cancel _ _ q); [..|apply Hids].
Qed.

Lemma mine_Register now q r n :
  plain (QueryID q) = true → (∀ id q, queries r !! id = Some q → QueryID q = id ∧ plain id = true) →
  triple (mine r n) (dist_Register now q) (λ _, mine (local_Register now q r) n).
Proof.
  intros Hp Hids. unfold dist_Register.
  eapply triple_bind; [apply (mine_modify r (local_Register now q r)); [done|by apply put_dom|]|].
  { intros _ id q0. simpl. intros [(<- & <-)|[Hne Hq0]]%lookup_insert_Some; [done|by apply Hids]. }
  intros ?. apply mine_nodeID. eapply triple_bind.
  - apply triple_preserved, mine_send. intros d Hd. apply mine_SET; [done|]. simpl.
    intros id Hid <-%state_key_inj. split; [rewrite lookup_insert_eq; eauto|eauto].
  - intros ?. apply triple_modify. intros d [[Hr Hn] Hids' Hst]. by split.
Qed.

(** Without faults [Cleanup] removes a query from the node and from Redis. *)
Lemma mine_drop id d r n :
  mine r n d → plain id = true →
  mine (drop id r) n
    (set_redis (DEL (redisResultKeyPrefix +:+ id)) (set_redis (DEL (redisKeyPrefix +:+ id)) (set_reg (drop id) d))).
Proof.
  intros [[Hr Hn] Hids Hst] Hp. split; [split; simpl; congruence| |].
  - simpl. intros id' q [Hne Hq]%lookup_delete_Some. by apply Hids.
  - intros id' v dl Hp'. simpl. rewrite !DEL_spec. case_decide; [done|]. case_decide as Hne; [done|].
    intros He. rewrite lookup_delete_ne by congruence. by apply (Hst id' v dl).
Qed.

Lemma mine_cleanup_loop now maxAge (qs : list (string * RunningQuery V)) d r n :
  mine r n d → (∀ id q, (id, q) ∈ qs → plain id = true) →
  mine (foldl (λ r '(id, q), if stale now maxAge q then drop id r else r) r qs) n
    (run (for_each qs (λ '(id, q),
       if stale now maxAge q
       then _ ← modify (set_reg (λ r, mkRegistry (delete id (queries r)) (observers r) (cancelled r) (notified r)));
            _ ← deleteFromRedis id; deleteResultFromRedis id
       else mret tt)) d []).2.
Proof.
  revert d r. induction qs as [|[id q] qs IH]; intros d r Hd Hp; [done|].
  assert (Hp' : ∀ id q, (id, q) ∈ qs → plain id = true) by (intros; eapply Hp; by right).
  specialize (Hp id q ltac:(by left)). cbn [for_each foldl]. destruct (stale now maxAge q).
  - exact (IH _ _ (mine_drop id d r n Hd Hp) Hp').
  - exact (IH _ _ Hd Hp').
Qed.

Lemma mine_Cleanup now maxAge d r n :
  mine r n d → mine (local_Cleanup now maxAge r) n (run (dist_Cleanup now maxAge) d []).2.
Proof.
  intros Hd. rewrite <- fold_drop_all. unfold dist_Cleanup. rewrite <- (proj1 (mine_regis _ _ _ Hd)) at 1 2.
  pose proof (mine_cleanup_loop now maxAge (map_to_list (queries (reg d))) d r n Hd) as Hl.
  rewrite (proj1 (mine_regis _ _ _ Hd)) at 1. apply Hl.
  intros id q Hin%elem_of_map_to_list. rewrite (proj1 (mine_regis _ _ _ Hd)) in Hin. by apply (mine_ids _ _ _ Hd id q).
Qed.

Lemma mine_observer f r n : (∀ r, queries (set_observers f r) = queries r) →
  triple (mine r n) (modify (set_reg (set_observers f))) (λ _, mine (set_observers f r) n).
Proof. intros Hf. by apply mine_modify. Qed.

Lemma mine_handle now (o : reg_op V) fs d r n :
  json_text n = n → op_plain o = true → fates_ok o fs = true → mine r n d →
  (run (reg_handle now o) d fs).1 = (run (reg_handle now o) r fs).1 ∧
  mine (run (reg_handle now o) r fs).2 n (run (reg_handle now o) d fs).2.
Proof.
  intros Hn Hp Hfs Hd. pose proof (mine_ids _ _ _ Hd) as Hids.
  assert (Hu : ∀ (m : M node unit) r', triple (mine r n) m (λ _, mine r' n) →
    (run (_ ← m; mret (@Done V)) d fs).1 = Done ∧ mine r' n (run (_ ← m; mret (@Done V)) d fs).2).
  { intros m r' Hm. apply (run_triple (mine r n) _ (λ a d, a = Done ∧ mine r' n d)); [|done].
    eapply triple_bind; [exact Hm|]. intros ?. by apply triple_ret. }
  destruct o as [q|id|id x t|id e t|id|id|maxAge|o|o]; simpl in Hp.
  - by apply (Hu (dist_Register now q) (local_Register now q r)), mine_Register.
  - apply (run_triple (mine r n) _ (λ a d, a = Found (queries r !! id) ∧ mine r n d)); [|done].
    eapply triple_bind; [by apply mine_Get|]. intros o. apply triple_ret. intros s [Hs ->]. done.
  - apply (Hu (dist_UpdateResult now id (Some x) t) (local_UpdateResult id (Some x) t r)).
    apply mine_update; [done|intros; apply mine_saveResult|done].
  - apply (Hu (dist_UpdateError now id e t) (local_UpdateError id e t r)).
    apply mine_update; [done|intros; apply preserves_ret|done].
  - unfold reg_handle. cbn [Cancel distributed_registry local_registry].
    destruct (run_triple (mine r n) (b ← dist_Cancel now id; mret (@Asked V b))
      (λ a d, a = Asked (local_Cancel id r).1 ∧ mine (local_Cancel id r).2 n d) d fs) as [E1 E2]; [|done|].
    { eapply triple_bind; [by apply mine_Cancel|]. intros b. apply triple_ret. intros s [Hs ->]. done. }
    rewrite E1. revert E2. unfold run, mbind, M_bind, mret, M_ret. destruct (local_Cancel id r) as [b r']. done.
  - apply (Hu (dist_SetRunning now id) (local_SetRunning now id r)).
    apply mine_update; [done|intros; apply preserves_ret|done].
  - apply bool_decide_eq_true in Hfs. subst fs. split.
    + unfold reg_handle. cbn [Cleanup distributed_registry local_registry]. unfold run, mbind, M_bind.
      by destruct (dist_Cleanup now maxAge d []) as [[] [d' fs']].
    + pose proof (mine_Cleanup now maxAge d r n Hd) as Hc. revert Hc.
      unfold reg_handle. cbn [Cleanup distributed_registry local_registry]. unfold run, mbind, M_bind.
      by destruct (dist_Cleanup now maxAge d []) as [[] [d' fs']].
  - apply (Hu (dist_RegisterObserver o) (local_RegisterObserver o r)). unfold dist_RegisterObserver.
    eapply triple_bind; [by apply mine_observer|]. intros ?. apply triple_modify. intros s [[Hr Hn'] ??]. by split.
  - apply (Hu (dist_UnregisterObserver o) (local_UnregisterObserver o r)). by apply mine_observer.
Qed.

Lemma mine_run h d r n :
  json_text n = n → Forall (λ '(_, o, fs), op_plain o = true ∧ fates_ok o fs = true) h → mine r n d →
  (reg_run h d).1 = (reg_run h r).1 ∧ mine (reg_run h r).2 n (reg_run h d).2.
Proof.
  intros Hn Hh. revert d r. induction h as [|[[now o] fs] h IH]; intros d r Hd; [done|].
  apply Forall_cons in Hh as [[Hp Hfs] Hrest]. simpl.
  destruct (mine_handle now o fs d r n Hn Hp Hfs Hd) as [E1 E2].
  destruct (run (reg_handle now o) d fs) as [a d']. destruct (run (reg_handle now o) r fs) as [a' r']. simpl in *.
  destruct (IH Hrest d' r' E2) as [E3 E4].
  destruct (reg_run h d') as [l d'']. destruct (reg_run h r') as [l' r'']. simpl in *. by subst.
Qed.

(** While one node is up, its distributed registry gives every caller the
    answers the in-memory registry would give, and keeps the same queries,
    observers, cancelled contexts and notifications: for every history of
    calls, whatever happens to each command it sends to Redis, save that the
    deletions of [Cleanup] succeed.  ([n] is the node's name, in valid UTF-8;
    Redis holds no query states at the start; identifiers do not begin with
    "result:".) *)
Theorem one_node_answers_as_local (h : list (Z * reg_op V * list fate)) n (s0 : R) msgs
    (Hn : json_text n = n)
    (Hs : ∀ id, plain id = true → entry s0 (redisKeyPrefix +:+ id) = None)
    (Hh : Forall (λ '(_, o, fs), op_plain o = true ∧ fates_ok o fs = true) h) :
  (reg_run h (NewDistributedQueryRegistry n s0 msgs)).1 = (reg_run h (@NewQueryRegistry V)).1 ∧
  reg (reg_run h (NewDistributedQueryRegistry n s0 msgs)).2 = (reg_run h NewQueryRegistry).2.
Proof.
  destruct (mine_run h (NewDistributedQueryRegistry n s0 msgs) NewQueryRegistry n Hn Hh) as [E1 E2].
  - split; [done|done|]. intros id v dl Hp He. rewrite Hs in He by done. done.
  - split; [done|]. apply (mine_regis _ _ _ E2).
Qed.
End one_node_calls.

(** ** Several nodes

    The nodes share Redis and the two channels.  A step is a call of one
    node, or the arrival of a message at a node that subscribed: any message
    published, in any order, any number of times. *)
Record member (V : Type) : Type := mkMember { m_reg : QueryRegistry V; m_id : string; m_sub : bool }.
Arguments mkMember {V}.
Arguments m_reg {V}.
Arguments m_id {V}.
Arguments m_sub {V}.

Record cluster (V R : Type) : Type := mkCluster {
  members : list (member V); c_redis : R; c_channel : list (string * string); c_now : Z;
}.
Arguments mkCluster {V R}.
Arguments members {V R}.
Arguments c_redis {V R}.
Arguments c_channel {V R}.
Arguments c_now {V R}.

Section cluster.
Context {V R : Type} `{RedisLaws R} `{QueryCodecLaws V}.
Notation node := (DistributedQueryRegistry V R).
Implicit Types (d : node) (q : RunningQuery V) (r : QueryRegistry V) (c : cluster V R) (m : member V).

Definition view c m : node := mkDistributed (m_reg m) (m_id m) (m_sub m) (c_redis c) (c_channel c).
Definition leave i (now : Z) d c : cluster V R :=
  mkCluster (<[i := mkMember (reg d) (nodeID d) (subscribed d)]> (members c)) (redis d) (channel d) now.

(** What [Execute] registers: a pending query under a new identifier. *)
Definition fresh_query q : bool :=
  bool_decide (q_Status q = QueryStatusPending) && bool_decide (q_Error q = "") && (q_ExecutionTime q =? 0)
  && bool_decide (StartTime q = None) && negb (FromCache q).
Definition unused (id : string) c : bool := forallb (λ m, bool_decide (queries (m_reg m) !! id = None)) (members c).
Definition call_ok (o : reg_op V) c : bool :=
  op_plain o && match o with OpRegister q => fresh_query q && unused (QueryID q) c | _ => true end.

Inductive cluster_step c : cluster V R → Prop :=
| node_call i m now o : members c !! i = Some m → c_now c ≤ now → call_ok o c = true →
    cluster_step c (leave i now (run (reg_handle now o) (view c m) []).2 c)
| node_message i m now msg : members c !! i = Some m → c_now c ≤ now → m_sub m = true → msg ∈ c_channel c →
    cluster_step c (leave i now (run (on_message now msg) (view c m) []).2 c).

Definition new_member (n : string) : member V := mkMember NewQueryRegistry n false.
Definition cluster_start c : Prop :=
  (∃ ns, members c = new_member <$> ns ∧ NoDup ns) ∧
  (∀ id, plain id = true → entry (c_redis c) (redisKeyPrefix +:+ id) = None).

(** *** What one step of a node does to its queries and to Redis *)
Definition state_entry (n : string) (t : Z) q : rval * option Z :=
  (VStr (marshal_state (localToRedisState n q)), Some (t + redisDefaultTTL)).

Inductive change (fresh : string → Prop) (now : Z) (d : node) : node → Prop :=
| ch_none d' : nodeID d' = nodeID d → queries (reg d') = queries (reg d) → redis d' = redis d → change fresh now d d'
| ch_new q d' : nodeID d' = nodeID d → queries (reg d') = <[QueryID q := q]> (queries (reg d)) →
    redis d' = SET now (redisKeyPrefix +:+ QueryID q) (VStr (marshal_state (localToRedisState (nodeID d) q))) redisDefaultTTL (redis d) →
    q_CreatedAt q = now → q_Status q = QueryStatusPending → plain (QueryID q) = true → fresh (QueryID q) → change fresh now d d'
| ch_save id q0 q d' : nodeID d' = nodeID d → queries (reg d) !! id = Some q0 →
    queries (reg d') = <[id := q]> (queries (reg d)) →
    redis d' = SET now (redisKeyPrefix +:+ QueryID q) (VStr (marshal_state (localToRedisState (nodeID d) q))) redisDefaultTTL (redis d) →
    QueryID q = QueryID q0 → q_CreatedAt q = q_CreatedAt q0 → q_Status q ≠ QueryStatusCompleted → change fresh now d d'
| ch_complete id q0 q (x : QueryResult V) d' : nodeID d' = nodeID d → queries (reg d) !! id = Some q0 →
    queries (reg d') = <[id := q]> (queries (reg d)) →
    redis d' =
      match marshal_result (truncated x) with
      | Some data => SET now (redisResultKeyPrefix +:+ id) (VStr data) redisDefaultTTL
      | None => λ s, s
      end
      (SET now (redisKeyPrefix +:+ QueryID q) (VStr (marshal_state (localToRedisState (nodeID d) q))) redisDefaultTTL (redis d)) →
    QueryID q = QueryID q0 → q_CreatedAt q = q_CreatedAt q0 → Result q = Some x → change fresh now d d'
| ch_drop id d' : nodeID d' = nodeID d → is_Some (queries (reg d) !! id) → queries (reg d') = delete id (queries (reg d)) → plain id = true →
    redis d' = DEL (redisResultKeyPrefix +:+ id) (DEL (redisKeyPrefix +:+ id) (redis d)) → change fresh now d d'.

(** *** Redis mirrors the queries of the nodes *)

(** [q], a query of the node [n], is in Redis as of its last change at [t]. *)
Definition mirrored (s : R) (now : Z) (n : string) q : Prop :=
  ∃ t, q_CreatedAt q ≤ t ≤ now ∧
    entry s (redisKeyPrefix +:+ QueryID q) = Some (state_entry n t q) ∧
    (q_Status q = QueryStatusCompleted →
     ∃ x, Result q = Some x ∧
       ∀ data, marshal_result (truncated x) = Some data →
         entry s (redisResultKeyPrefix +:+ QueryID q) = Some (VStr data, Some (t + redisDefaultTTL))).

Record cl_inv c : Prop := {
  cl_names : NoDup (m_id <$> members c);
  cl_ids i m id q : members c !! i = Some m → queries (m_reg m) !! id = Some q → QueryID q = id ∧ plain id = true;
  cl_owner i j m m' id : members c !! i = Some m → members c !! j = Some m' →
    is_Some (queries (m_reg m) !! id) → is_Some (queries (m_reg m') !! id) → i = j;
  cl_mirror i m id q : members c !! i = Some m → queries (m_reg m) !! id = Some q →
    mirrored (c_redis c) (c_now c) (m_id m) q;
  cl_absent id : plain id = true → (∀ i m, members c !! i = Some m → queries (m_reg m) !! id = None) →
    entry (c_redis c) (redisKeyPrefix +:+ id) = None;
}.

Lemma mirrored_frame (s s' : R) now now' n q :
  mirrored s now n q → now ≤ now' →
  entry s' (redisKeyPrefix +:+ QueryID q) = entry s (redisKeyPrefix +:+ QueryID q) →
  entry s' (redisResultKeyPrefix +:+ QueryID q) = entry s (redisResultKeyPrefix +:+ QueryID q) →
  mirrored s' now' n q.
Proof.
  intros (t & Ht & He & Hc) Hle E1 E2. exists t. rewrite E1, E2. split; [lia|done].
Qed.

(** Saving a query mirrors it. *)
Lemma mirrored_saved (s : R) now n q :
  q_CreatedAt q ≤ now → q_Status q ≠ QueryStatusCompleted →
  mirrored (SET now (redisKeyPrefix +:+ QueryID q) (VStr (marshal_state (localToRedisState n q))) redisDefaultTTL s) now n q.
Proof.
  intros Hle Hs. exists now. split; [lia|]. split; [|done]. rewrite SET_spec. by rewrite decide_True.
Qed.

Lemma mirrored_completed (s : R) now n q x :
  plain (QueryID q) = true → q_CreatedAt q ≤ now → Result q = Some x →
  mirrored
    (match marshal_result (truncated x) with
     | Some data => SET now (redisResultKeyPrefix +:+ QueryID q) (VStr data) redisDefaultTTL
     | None => λ s, s
     end
     (SET now (redisKeyPrefix +:+ QueryID q) (VStr (marshal_state (localToRedisState n q))) redisDefaultTTL s)) now n q.
Proof.
  intros Hp Hle Hx. exists now. pose proof (state_key_result_key (QueryID q) (QueryID q) Hp) as Hne.
  split; [lia|]. split.
  - destruct (marshal_result _); simpl; rewrite !SET_spec; [rewrite decide_False by congruence|]; by rewrite decide_True.
  - intros _. exists x. split; [done|]. intros data ->. rewrite SET_spec. by rewrite decide_True.
Qed.

Lemma leave_leave i now d d' c : leave i now d' (leave i now d c) = leave i now d' c.
Proof. unfold leave. simpl. by rewrite list_insert_insert_eq. Qed.

Lemma members_leave i j m m' now d c :
  members c !! i = Some m → members (leave i now d c) !! j = Some m' →
  (i = j ∧ m' = mkMember (reg d) (nodeID d) (subscribed d)) ∨ (i ≠ j ∧ members c !! j = Some m').
Proof. intros Hi. simpl. intros [(<- & <- & _)|[Hne Hj]]%list_lookup_insert_Some; auto. Qed.

(** A step that keeps the identifiers of the node's queries among the old and
    the new, and what Redis holds of other queries, keeps the invariant. *)
Lemma cl_inv_leave i m now d c :
  cl_inv c → members c !! i = Some m → c_now c ≤ now → nodeID d = m_id m →
  (∀ id q, queries (reg d) !! id = Some q →
     (QueryID q = id ∧ plain id = true) ∧
     (is_Some (queries (m_reg m) !! id) ∨ ∀ j m', members c !! j = Some m' → queries (m_reg m') !! id = None)) →
  (∀ id q, queries (reg d) !! id = Some q → mirrored (redis d) now (m_id m) q) →
  (∀ id, plain id = true → queries (m_reg m) !! id = None → queries (reg d) !! id = None →
     entry (redis d) (redisKeyPrefix +:+ id) = entry (c_redis c) (redisKeyPrefix +:+ id) ∧
     entry (redis d) (redisResultKeyPrefix +:+ id) = entry (c_redis c) (redisResultKeyPrefix +:+ id)) →
  (∀ id, plain id = true → is_Some (queries (m_reg m) !! id) → queries (reg d) !! id = None →
     entry (redis d) (redisKeyPrefix +:+ id) = None) →
  cl_inv (leave i now d c).
Proof.
  intros Hc Hi Hnow Hn Hids Hmir Hframe Hgone. constructor.
  - simpl. rewrite list_fmap_insert. simpl. rewrite list_insert_id; [apply (cl_names _ Hc)|].
    rewrite list_lookup_fmap, Hi. simpl. by rewrite Hn.
  - intros j m' id q Hj Hq. apply (members_leave _ _ _ _ _ _ _ Hi) in Hj as [[<- ->]|[_ Hj]]; [by apply Hids|].
    by eapply (cl_ids _ Hc).
  - assert (Hnew : ∀ j m' id, i ≠ j → members c !! j = Some m' → is_Some (queries (reg d) !! id) →
      is_Some (queries (m_reg m') !! id) → False).
    { intros j m' id Hne Hj [q Hq] Hs. destruct (Hids id q Hq) as [_ [Hold|Hno]].
      - by apply Hne, (cl_owner _ Hc i j m m' id).
      - rewrite (Hno j m' Hj) in Hs. by destruct Hs. }
    intros j k mj mk id Hj Hk Hsj Hsk.
    apply (members_leave _ _ _ _ _ _ _ Hi) in Hj as [[<- ->]|[Hnj Hj]];
    apply (members_leave _ _ _ _ _ _ _ Hi) in Hk as [[<- ->]|[Hnk Hk]]; simpl in *; [done|..].
    + by destruct (Hnew k mk id).
    + by destruct (Hnew j mj id).
    + by eapply (cl_owner _ Hc).
  - intros j m' id q Hj Hq. apply (members_leave _ _ _ _ _ _ _ Hi) in Hj as [[<- ->]|[Hne Hj]]; simpl in *.
    { rewrite Hn. by apply (Hmir id). }
    destruct (cl_ids _ Hc j m' id q Hj Hq) as [Hid Hp].
    assert (Hm0 : queries (m_reg m) !! id = None).
    { destruct (queries (m_reg m) !! id) eqn:E; [|done].
      destruct Hne. apply (cl_owner _ Hc i j m m' id); [done..|by rewrite E|by rewrite Hq]. }
    assert (Hd0 : queries (reg d) !! id = None).
    { destruct (queries (reg d) !! id) as [q'|] eqn:E; [|done]. destruct (Hids id q' E) as [_ [Hs|Hno]].
      - rewrite Hm0 in Hs. by destruct Hs.
      - rewrite (Hno j m' Hj) in Hq. done. }
    destruct (Hframe id Hp Hm0 Hd0) as [E1 E2].
    eapply mirrored_frame; [by eapply (cl_mirror _ Hc)|done|by rewrite Hid|by rewrite Hid].
  - intros id Hp Hno. simpl in *.
    assert (Hd : queries (reg d) !! id = None).
    { apply (Hno i (mkMember (reg d) (nodeID d) (subscribed d))). apply list_lookup_insert_eq. by eapply lookup_lt_Some. }
    destruct (queries (m_reg m) !! id) as [q|] eqn:E; [by apply Hgone|].
    destruct (Hframe id Hp E Hd) as [-> _]. apply (cl_absent _ Hc); [done|].
    intros j m' Hj. destruct (decide (i = j)) as [<-|Hne]; [congruence|].
    apply (Hno j). by rewrite list_lookup_insert_ne.
Qed.
End cluster.

Section replication.
Context {V R : Type} `{RedisLaws R} `{QueryCodecLaws V}.
Notation node := (DistributedQueryRegistry V R).
Implicit Types (d : node) (q : RunningQuery V) (r : QueryRegistry V) (c : cluster V R) (m : member V).

Definition unowned (id : string) c : Prop := ∀ j m, members c !! j = Some m → queries (m_reg m) !! id = None.

Lemma unused_unowned id c : unused id c = true → unowned id c.
Proof.
  unfold unused. rewrite forallb_forall. intros Hall j m Hj.
  specialize (Hall m). rewrite <- list_elem_of_In in Hall. apply list_elem_of_lookup_2 in Hj.
  by apply bool_decide_eq_true in Hall.
Qed.

(** Entries under the keys of another query survive a save. *)
Lemma save_frame now id id' v (s : R) :
  plain id = true → id ≠ id' →
  entry (SET now (redisKeyPrefix +:+ id') v redisDefaultTTL s) (redisKeyPrefix +:+ id) = entry s (redisKeyPrefix +:+ id) ∧
  (plain id' = true →
   entry (SET now (redisKeyPrefix +:+ id') v redisDefaultTTL s) (redisResultKeyPrefix +:+ id) = entry s (redisResultKeyPrefix +:+ id)).
Proof.
  intros Hp Hne. rewrite !SET_spec. split.
  - rewrite decide_False; [done|]. intros E%state_key_inj. by apply Hne.
  - intros Hp'. rewrite decide_False; [done|]. by apply state_key_result_key.
Qed.

Lemma result_frame now id id' o (s : R) :
  plain id = true → id ≠ id' →
  let s' := match o with
            | Some data => SET now (redisResultKeyPrefix +:+ id') (VStr data) redisDefaultTTL
            | None => λ s, s
            end s in
  entry s' (redisKeyPrefix +:+ id) = entry s (redisKeyPrefix +:+ id) ∧
  entry s' (redisResultKeyPrefix +:+ id) = entry s (redisResultKeyPrefix +:+ id).
Proof.
  intros Hp Hne. destruct o as [data|]; simpl; [|done]. rewrite !SET_spec. split; rewrite decide_False; try done.
  - intros E. by apply eq_sym, state_key_result_key in E.
  - intros E%result_key_inj. by apply Hne.
Qed.

Lemma cl_change fresh c i m now d :
  cl_inv c → members c !! i = Some m → c_now c ≤ now → change fresh now (view c m) d →
  (∀ id, fresh id → unowned id c) → cl_inv (leave i now d c).
Proof.
  intros Hc Hi Hnow Hch Hfresh.
  assert (Hids : ∀ id q, queries (m_reg m) !! id = Some q → QueryID q = id ∧ plain id = true) by (intros; by eapply (cl_ids _ Hc)).
  assert (Hmir : ∀ id q, queries (m_reg m) !! id = Some q → mirrored (c_redis c) (c_now c) (m_id m) q) by (intros; by eapply (cl_mirror _ Hc)).
  assert (Hupd : ∀ id q0 q d, queries (m_reg m) !! id = Some q0 → queries (reg d) = <[id := q]> (queries (m_reg m)) →
    QueryID q = QueryID q0 → nodeID d = m_id m → mirrored (redis d) now (m_id m) q →
    (∀ id', plain id' = true → id' ≠ id →
      entry (redis d) (redisKeyPrefix +:+ id') = entry (c_redis c) (redisKeyPrefix +:+ id') ∧
      entry (redis d) (redisResultKeyPrefix +:+ id') = entry (c_redis c) (redisResultKeyPrefix +:+ id')) →
    cl_inv (leave i now d c)).
  { intros id q0 q d1 Hq0 Hqs Hid Hn Hm Hfr. destruct (Hids id q0 Hq0) as [Hq0id Hp].
    apply (cl_inv_leave i m now d1 c); try done; rewrite Hqs.
    - intros id' q'. intros [(<- & <-)|[Hne Hq']]%lookup_insert_Some; [split; [by rewrite Hid|left; eauto]|].
      split; [by apply Hids|left; eauto].
    - intros id' q'. intros [(<- & <-)|[Hne Hq']]%lookup_insert_Some; [done|].
      destruct (Hids id' q' Hq') as [E Hp']. destruct (Hfr id' Hp' ltac:(congruence)) as [E1 E2].
      eapply mirrored_frame; [by eapply Hmir|done|by rewrite E|by rewrite E].
    - intros id' Hp' _ [Hno Hne]%lookup_insert_None. by apply Hfr.
    - intros id' Hp' [q' Hq'] [Hno Hne]%lookup_insert_None. congruence. }
  destruct Hch as [d' Hn Hqs Hr|q d' Hn Hqs Hr Hcr Hst Hp Hf|id q0 q d' Hn Hq0 Hqs Hr Hid Hcr Hst
    |id q0 q x d' Hn Hq0 Hqs Hr Hid Hcr Hx|id d' Hn [q0 Hq0] Hqs Hp Hr]; simpl in *.
  - apply (cl_inv_leave i m now d' c); try done; rewrite Hqs, ?Hr.
    + intros id q Hq. split; [by apply Hids|left; eauto].
    + intros id q Hq. eapply mirrored_frame; [by eapply Hmir|done..].
    + done.
    + intros id Hp [q Hq] Hno. congruence.
  - apply Hfresh in Hf. apply (cl_inv_leave i m now d' c); try done; rewrite Hqs, ?Hr.
    + intros id q'. intros [(<- & <-)|[Hne Hq']]%lookup_insert_Some; [split; [done|by right]|].
      split; [by apply Hids|left; eauto].
    + intros id q'. intros [(<- & <-)|[Hne Hq']]%lookup_insert_Some.
      * apply mirrored_saved; [lia|by rewrite Hst].
      * destruct (Hids id q' Hq') as [E Hp']. destruct (save_frame now id (QueryID q)
          (VStr (marshal_state (localToRedisState (m_id m) q))) (c_redis c) Hp' ltac:(congruence)) as [E1 E2].
        eapply mirrored_frame; [by eapply Hmir|done|by rewrite E|rewrite E; by apply E2].
    + intros id Hp' _ [Hno Hne]%lookup_insert_None. destruct (save_frame now id (QueryID q)
        (VStr (marshal_state (localToRedisState (m_id m) q))) (c_redis c) Hp' ltac:(congruence)) as [E1 E2].
      split; [done|by apply E2].
    + intros id Hp' [q' Hq'] [Hno Hne]%lookup_insert_None. congruence.
  - destruct (Hids id q0 Hq0) as [Hq0id Hp]. destruct (Hmir id q0 Hq0) as (t & Ht & _).
    apply (Hupd id q0 q d'); try done; rewrite Hr.
    + apply mirrored_saved; [lia|done].
    + intros id' Hp' Hne. rewrite Hid, Hq0id. destruct (save_frame now id' id
        (VStr (marshal_state (localToRedisState (m_id m) q))) (c_redis c) Hp' Hne) as [E1 E2]. split; [done|by apply E2].
  - destruct (Hids id q0 Hq0) as [Hq0id Hp]. destruct (Hmir id q0 Hq0) as (t & Ht & _).
    rewrite Hq0id in Hid. apply (Hupd id q0 q d'); try done; [by rewrite Hid|..]; rewrite Hr.
    + rewrite <- Hid. apply mirrored_completed; [by rewrite Hid|lia|done].
    + intros id' Hp' Hne. rewrite Hid. destruct (save_frame now id' id
        (VStr (marshal_state (localToRedisState (m_id m) q))) (c_redis c) Hp' Hne) as [E1 E2].
      destruct (result_frame now id' id (marshal_result (truncated x))
        (SET now (redisKeyPrefix +:+ id) (VStr (marshal_state (localToRedisState (m_id m) q))) redisDefaultTTL (c_redis c))
        Hp' Hne) as [E3 E4]. rewrite E3, E4. split; [done|by apply E2].
  - apply (cl_inv_leave i m now d' c); try done; rewrite Hqs, ?Hr.
    + intros id' q' [Hne Hq']%lookup_delete_Some. split; [by apply Hids|left; eauto].
    + intros id' q' [Hne Hq']%lookup_delete_Some. destruct (Hids id' q' Hq') as [E Hp'].
      eapply mirrored_frame; [by eapply Hmir|done| |]; rewrite E, !DEL_spec.
      * rewrite decide_False by (intros X; by apply eq_sym, state_key_result_key in X).
        rewrite decide_False; [done|]. intros X%state_key_inj. congruence.
      * rewrite decide_False by (intros X%result_key_inj; congruence).
        by rewrite decide_False by (by apply state_key_result_key).
    + intros id' Hp' Hm0 _. rewrite !DEL_spec. split.
      * rewrite decide_False by (intros X; by apply eq_sym, state_key_result_key in X).
        rewrite decide_False; [done|]. intros X%state_key_inj. congruence.
      * rewrite decide_False by (intros X%result_key_inj; congruence).
        by rewrite decide_False by (by apply state_key_result_key).
    + intros id' Hp' [q' Hq']. rewrite lookup_delete_None. intros [<-|Hno]; [|congruence].
      rewrite !DEL_spec. case_decide; [done|]. by rewrite decide_True.
Qed.

(** *** What the calls do when Redis answers *)
Definition announced now q (save_more : node → node) d : node :=
  let state := localToRedisState (nodeID d) q in
  set_reg (notifyObservers q) (publish redisChannel (marshal_state state)
    (save_more (set_redis (SET now (redisKeyPrefix +:+ QueryID q) (VStr (marshal_state state)) redisDefaultTTL) d))).

Lemma announce_eval now q (m : M node unit) (f : node → node) d :
  (∀ d, m d [] = (tt, (f d, []))) → announce now q m d [] = (tt, (announced now q f d, [])).
Proof. intros Hm. unfold announce, mbind, M_bind, gets. simpl. by rewrite Hm. Qed.

Lemma update_eval now id g (m : M node unit) (f : node → node) d :
  (∀ d, m d [] = (tt, (f d, []))) →
  dist_update now id g m d [] =
  (tt, (match queries (reg d) !! id with
        | Some q => announced now (g q) f (set_reg (put (g q) id) d)
        | None => d
        end, [])).
Proof.
  intros Hm. unfold dist_update, mbind at 1, M_bind at 1, gets. destruct (queries (reg d) !! id) as [q|]; [|done].
  exact (announce_eval now (g q) m f _ Hm).
Qed.

Definition result_saved now id (x : QueryResult V) d : node :=
  match marshal_result (truncated x) with
  | Some data => set_redis (SET now (redisResultKeyPrefix +:+ id) (VStr data) redisDefaultTTL) d
  | None => d
  end.

Lemma saveResult_eval now id x d : saveResultToRedis now id (Some x) d [] = (tt, (result_saved now id x d, [])).
Proof. unfold saveResultToRedis, result_saved. by destruct (marshal_result _). Qed.

Lemma getFromRedis_eval now id d : ∃ s, getFromRedis now id d [] = (s, (d, [])) ∧
  (entry (redis d) (redisKeyPrefix +:+ id) = None → s = Ok None) ∧
  (∀ st t, entry (redis d) (redisKeyPrefix +:+ id) = Some (VStr (marshal_state st), Some t) →
     s = Ok (if now <? t then Some (json_state st) else None)).
Proof.
  unfold getFromRedis, mbind, M_bind, mret, M_ret, read_redis, zoom, get_str, call. simpl.
  assert (Hd : set_redis (λ _, redis d) d = d) by by destruct d.
  rewrite Hd, GET_spec. eexists. split; [reflexivity|]. unfold live. split; [by intros ->|].
  intros st t ->. simpl. destruct (now <? t) eqn:E.
  - rewrite (proj2 (Z.leb_gt t now)) by lia. simpl. by rewrite state_roundtrip.
  - by rewrite (proj2 (Z.leb_le t now)) by lia.
Qed.

Lemma result_for_eval now st id d : ∃ o, result_for now st id d [] = (o, (d, [])) ∧
  (s_Status st ≠ QueryStatusCompleted → o = None) ∧
  (s_Status st = QueryStatusCompleted → ∀ x data t, marshal_result x = Some data → now < t →
     entry (redis d) (redisResultKeyPrefix +:+ id) = Some (VStr data, Some t) → o = Some (json_result x)).
Proof.
  unfold result_for. case_bool_decide as Hs; [|by eexists].
  unfold getResultFromRedis, mbind, M_bind, mret, M_ret, read_redis, zoom, get_str, call. simpl.
  assert (Hd : set_redis (λ _, redis d) d = d) by by destruct d.
  rewrite Hd, GET_spec. eexists. split; [reflexivity|]. split; [done|]. intros _ x data t Hx Ht He.
  unfold live. rewrite He. simpl. rewrite (proj2 (Z.leb_gt t now)) by lia. simpl. by rewrite (result_roundtrip x).
Qed.

Lemma elsewhere_change fresh now id d :
  change fresh now d (run (cancel_elsewhere now id) d []).2.
Proof.
  destruct (getFromRedis_eval now id d) as (s & E & _).
  unfold run, cancel_elsewhere, mbind at 1, M_bind at 1. rewrite E. destruct s as [[st|]|]; try by apply ch_none.
  destruct (terminal _); [by apply ch_none|]. unfold mbind at 1, M_bind at 1, gets.
  destruct (_ && _); by apply ch_none.
Qed.

Lemma update_change fresh now id g d :
  (∀ q, QueryID (g q) = QueryID q ∧ q_CreatedAt (g q) = q_CreatedAt q ∧ q_Status (g q) ≠ QueryStatusCompleted) →
  change fresh now d (dist_update now id g (mret tt) d []).2.1.
Proof.
  intros Hg. rewrite (update_eval now id g (mret tt) (λ d, d)) by done. simpl.
  destruct (queries (reg d) !! id) as [q|] eqn:Hq; [|by apply ch_none].
  destruct (Hg q) as (H1' & H2' & H3'). by apply (ch_save _ _ _ id q (g q)).
Qed.

Lemma cancel_local_change fresh now id q q' d :
  queries (reg d) !! id = Some q → QueryID q' = QueryID q → q_CreatedAt q' = q_CreatedAt q →
  q_Status q' ≠ QueryStatusCompleted → change fresh now d (dist_cancel_local now id q' d []).2.1.
Proof.
  intros Hq E1 E2 E3. unfold dist_cancel_local, mbind, M_bind, modify.
  rewrite (announce_eval now q' (mret tt) (λ d, d)) by done. by apply (ch_save _ _ _ id q q').
Qed.

Lemma complete_change fresh now id x t d :
  (∀ q, queries (reg d) !! id = Some q → QueryID q = id) →
  change fresh now d (dist_UpdateResult now id (Some x) t d []).2.1.
Proof.
  intros Hids. unfold dist_UpdateResult.
  rewrite (update_eval now id _ (saveResultToRedis now id (Some x)) (result_saved now id x)) by apply saveResult_eval.
  simpl. destruct (queries (reg d) !! id) as [q|] eqn:Hq; [|by apply ch_none].
  apply (ch_complete _ _ _ id q (completed (Some x) t q) x); try done;
    unfold announced, result_saved; by destruct (marshal_result (truncated x)).
Qed.

Lemma handle_change now (o : reg_op V) c m :
  (∀ id q, queries (m_reg m) !! id = Some q → QueryID q = id) →
  call_ok o c = true → (∀ maxAge, o ≠ OpCleanup maxAge) →
  change (λ id, unused id c = true) now (view c m) (run (reg_handle now o) (view c m) []).2.
Proof.
  intros Hids Hok Hno.
  assert (Hu : ∀ fresh (k : M node unit) d, change fresh now d (k d []).2.1 → change fresh now d (run (_ ← k; mret (@Done V)) d []).2).
  { intros fresh k d Hk. unfold run, mbind, M_bind. destruct (k d []) as [? [? ?]]. exact Hk. }
  unfold call_ok in Hok. apply andb_prop in Hok as [Hp Hok].
  destruct o as [q|id|x0|id e t|id|id|maxAge|o|o]; simpl in Hp.
  - apply Hu. apply andb_prop in Hok as [Hf Hfresh]. unfold fresh_query in Hf. rewrite !andb_true_iff in Hf.
    destruct Hf as ((((Hs%bool_decide_eq_true & He%bool_decide_eq_true) & Ht%Z.eqb_eq) & Hst%bool_decide_eq_true) & Hc%negb_true_iff).
    apply (ch_new _ _ _ (created now q)); try done. simpl. unfold localToRedisState. simpl. by rewrite He, Ht, Hst, Hc.
  - unfold reg_handle. cbn [Get distributed_registry]. unfold run, mbind at 1, M_bind at 1.
    assert (Hd : (dist_Get now id (view c m) []).2.1 = view c m).
    { unfold dist_Get, mbind, M_bind, gets. destruct (queries _ !! id); [done|].
      destruct (getFromRedis_eval now id (view c m)) as (s & -> & _). destruct s as [[st|]|]; try done.
      destruct (result_for_eval now st id (view c m)) as (o & -> & _). done. }
    destruct (dist_Get now id (view c m) []) as [o [d' fs']]. simpl in *. subst. by apply ch_none.
  - by apply Hu, complete_change, Hids.
  - by apply Hu, update_change.
  - unfold reg_handle. cbn [Cancel distributed_registry].
    assert (Hd : change (λ id, unused id c = true) now (view c m) (run (dist_Cancel now id) (view c m) []).2).
    { unfold run, dist_Cancel, mbind at 1, M_bind at 1, gets.
      destruct (queries (reg (view c m)) !! id) as [q|] eqn:Hq; [|apply elsewhere_change].
      destruct (active (q_Status q)); [|apply elsewhere_change].
      pose proof (cancel_local_change (λ id, unused id c = true) now id q (with_status QueryStatusCancelled q) (view c m) Hq eq_refl eq_refl ltac:(done)) as Hc.
      revert Hc. unfold mbind, M_bind. by destruct (dist_cancel_local _ _ _ _ _) as [? [? ?]]. }
    revert Hd. unfold run, mbind, M_bind. by destruct (dist_Cancel now id (view c m) []) as [b [d' fs']].
  - by apply Hu, update_change.
  - by destruct (Hno maxAge).
  - by apply Hu, ch_none.
  - by apply Hu, ch_none.
Qed.
End replication.

Section agreement.
Context {V R : Type} `{RedisLaws R} `{QueryCodecLaws V}.
Notation node := (DistributedQueryRegistry V R).
Implicit Types (d : node) (q : RunningQuery V) (r : QueryRegistry V) (c : cluster V R) (m : member V).

Lemma cl_cleanup_loop now maxAge i m c qs d :
  members c !! i = Some m → cl_inv (leave i now d c) →
  NoDup (qs.*1) → (∀ id q, (id, q) ∈ qs → is_Some (queries (reg d) !! id)) →
  cl_inv (leave i now
    (run (for_each qs (λ '(id, q),
       if stale now maxAge q
       then _ ← modify (set_reg (λ r, mkRegistry (delete id (queries r)) (observers r) (cancelled r) (notified r)));
            _ ← deleteFromRedis id; deleteResultFromRedis id
       else mret tt)) d []).2 c).
Proof.
  intros Hi. revert d. induction qs as [|[id q] qs IH]; intros d Hc Hnd Hin; [done|].
  apply NoDup_cons in Hnd as [Hnotin Hnd]. cbn [for_each]. destruct (stale now maxAge q).
  - set (d1 := set_redis (DEL (redisResultKeyPrefix +:+ id)) (set_redis (DEL (redisKeyPrefix +:+ id)) (set_reg (drop id) d))).
    apply (IH d1); [| done|].
    + rewrite <- (leave_leave i now d d1 c).
      assert (Hi' : members (leave i now d c) !! i = Some (mkMember (reg d) (nodeID d) (subscribed d)))
        by (apply list_lookup_insert_eq; by eapply lookup_lt_Some).
      assert (Hs : is_Some (queries (reg d) !! id)) by (eapply Hin; by left).
      destruct Hs as [q' Hq']. apply (cl_change (λ _, False) _ i _ now d1 Hc Hi'); [done| |done].
      apply (ch_drop _ _ _ id); try done. by apply (cl_ids _ Hc i _ id q' Hi').
    + intros id' q' Hin'. simpl. rewrite lookup_delete_ne; [eapply Hin; by right|].
      intros <-. apply Hnotin. apply list_elem_of_fmap. by exists (id, q').
  - apply (IH d); [done..|]. intros id' q' Hin'. eapply Hin. by right.
Qed.

Lemma cl_step c c' : cl_inv c → cluster_step c c' → cl_inv c'.
Proof.
  intros Hc Hst. destruct Hst as [i m now o Hi Hnow Hok|i m now msg Hi Hnow Hsub Hmsg].
  - assert (Hcase : (∃ maxAge, o = OpCleanup maxAge) ∨ ∀ maxAge, o ≠ OpCleanup maxAge) by (destruct o; eauto; by right).
    destruct Hcase as [[maxAge ->]|Hno].
    + assert (Hd : (run (reg_handle now (OpCleanup maxAge)) (view c m) []).2 = (run (dist_Cleanup now maxAge) (view c m) []).2).
      { unfold reg_handle. cbn [Cleanup distributed_registry]. unfold run, mbind, M_bind.
        by destruct (dist_Cleanup now maxAge (view c m) []) as [? [? ?]]. }
      rewrite Hd. apply (cl_cleanup_loop now maxAge i m c (map_to_list (queries (m_reg m))) (view c m) Hi).
      * apply (cl_change (λ _, False) c i m now (view c m)); try done. by apply ch_none.
      * apply NoDup_fst_map_to_list.
      * intros id q Hin%elem_of_map_to_list. simpl. rewrite Hin. eauto.
    + apply (cl_change (λ id, unused id c = true) c i m now); try done.
      * apply handle_change; [|done|done]. intros id q Hq. by apply (cl_ids _ Hc i m id q).
      * intros id. apply unused_unowned.
  - apply (cl_change (λ _, False) c i m now); try done. unfold on_message.
    case_bool_decide.
    + unfold handleCancelCommand. destruct (unmarshal_cancel msg.2) as [cmd|]; [|by apply ch_none].
      unfold run, mbind, M_bind, gets. destruct (queries (reg (view c m)) !! c_QueryID cmd) as [q|] eqn:Hq; [|by apply ch_none].
      destruct (active (q_Status q)); [|by apply ch_none].
      pose proof (cancel_local_change (λ _, False) now _ q (with_error "查询已被用户取消" (with_status QueryStatusCancelled q))
        (view c m) Hq eq_refl eq_refl ltac:(done)) as Hch.
      by destruct (dist_cancel_local _ _ _ _ _) as [? [? ?]].
    + unfold handleRedisMessage. destruct (unmarshal_state msg.2) as [st|]; [|by apply ch_none].
      unfold run, mbind, M_bind, gets. case_bool_decide; [by apply ch_none|].
      destruct (result_for_eval now st (s_QueryID st) (view c m)) as (o & -> & _). by apply ch_none.
Qed.

Lemma cl_start c : cluster_start c → cl_inv c.
Proof.
  intros [(ns & Hm & Hnd) Hno].
  assert (Hempty : ∀ i m id, members c !! i = Some m → queries (m_reg m) !! id = None).
  { intros i m id. rewrite Hm, list_lookup_fmap. destruct (ns !! i); [|done]. by intros [= <-]. }
  constructor.
  - rewrite Hm. replace (m_id <$> (new_member <$> ns)) with ns; [done|].
    clear. induction ns as [|n ns IH]; [done|]. rewrite !fmap_cons. by f_equal.
  - intros i m id q Hi Hq. by rewrite (Hempty i m id Hi) in Hq.
  - intros i j m m' id Hi _ [q Hq]. by rewrite (Hempty i m id Hi) in Hq.
  - intros i m id q Hi Hq. by rewrite (Hempty i m id Hi) in Hq.
  - intros id Hp _. by apply Hno.
Qed.

Lemma cl_reachable c : reachable cluster_step cluster_start c → cl_inv c.
Proof. apply reachable_invariant; [apply cl_start|intros ??; apply cl_step]. Qed.




(** A query no node holds is reported as unknown by every node, while
    Redis answers: nothing of a cleaned-up query stays behind. *)
Theorem unknown_everywhere now id c i m (Hc : reachable cluster_step cluster_start c)
    (Hi : members c !! i = Some m) (Hp : plain id = true)
    (Hno : ∀ j m', members c !! j = Some m' → queries (m_reg m') !! id = None) :
  (run (Get now id) (view c m) []).1 = None ∧ (run (Cancel (V := V) now id) (view c m) []).1 = false.
Proof.
  apply cl_reachable in Hc. cbn [Get Cancel distributed_registry].
  destruct (getFromRedis_eval now id (view c m)) as (s & E & Hs & _).
  specialize (Hs (cl_absent _ Hc id Hp Hno)). subst s. pose proof (Hno i m Hi) as Hm.
  unfold run, dist_Get, dist_Cancel, cancel_elsewhere, mbind, M_bind, gets. simpl. by rewrite Hm, E.
Qed.
End agreement.

Section cancelling.
Context {V R : Type} `{RedisLaws R} `{QueryCodecLaws V}.
Notation node := (DistributedQueryRegistry V R).
Implicit Types (d : node) (q : RunningQuery V) (c : cluster V R) (m : member V).

Lemma cancel_elsewhere_sends now id c i m m' j q :
  cl_inv c → members c !! i = Some m → members c !! j = Some m' → i ≠ j →
  queries (m_reg m') !! id = Some q → active (q_Status q) = true → now < q_CreatedAt q + redisDefaultTTL →
  json_text (q_Status q) = q_Status q → json_text (m_id m') = m_id m' → m_id m' ≠ "" →
  dist_Cancel now id (view c m) [] =
    (true, (publish redisCancelChannel (marshal_cancel (mkCancel id (m_id m))) (view c m), [])).
Proof.
  intros Hc Hi Hj Hne Hq Ha Hnow Hst Hn Hne'. destruct (cl_ids _ Hc j m' id q Hj Hq) as [Hid Hp].
  destruct (cl_mirror _ Hc j m' id q Hj Hq) as (t & Ht & He & _). rewrite Hid in He.
  assert (Hm : queries (m_reg m) !! id = None).
  { destruct (queries (m_reg m) !! id) eqn:E; [|done]. destruct Hne. apply (cl_owner _ Hc i j m m' id); eauto. }
  assert (Hnames : m_id m' ≠ m_id m).
  { intros E. apply Hne, (NoDup_lookup (m_id <$> members c) i j (m_id m)); [apply (cl_names _ Hc)|..];
      rewrite list_lookup_fmap; [by rewrite Hi|by rewrite Hj; simpl; rewrite E]. }
  assert (Hterm : terminal (q_Status q) = false).
  { revert Ha. unfold active, terminal. rewrite orb_true_iff, !bool_decide_eq_true. intros [-> | ->]; reflexivity. }
  unfold dist_Cancel, mbind at 1, M_bind at 1, gets. simpl. rewrite Hm.
  destruct (getFromRedis_eval now id (view c m)) as (s & Es & _ & Hs).
  unfold cancel_elsewhere, mbind at 1, M_bind at 1. rewrite Es, (Hs _ _ He), (proj2 (Z.ltb_lt now _)) by lia.
  simpl. rewrite Hst, Hterm. unfold mbind at 1, M_bind at 1, gets. simpl.
  rewrite Hn. case_bool_decide; [done|]. case_bool_decide; [done|]. reflexivity.
Qed.

(** A cancel request reaches the query wherever it runs.  While Redis
    answers, [Cancel] on another node reports success for a query that is
    pending or running (up to 35 minutes after its registration) and
    publishes a command; when the command arrives at the owner, the owner's
    query is cancelled with the message users see, and its context is
    cancelled. *)
Theorem cancel_reaches_owner now now' id c i j m m' q (Hc : reachable cluster_step cluster_start c)
    (Hi : members c !! i = Some m) (Hj : members c !! j = Some m') (Hne : i ≠ j)
    (Hq : queries (m_reg m') !! id = Some q) (Ha : active (q_Status q) = true)
    (Hnow : now < q_CreatedAt q + redisDefaultTTL)
    (Ht : json_text (q_Status q) = q_Status q ∧ json_text (m_id m') = m_id m' ∧ json_text id = id ∧ m_id m' ≠ "") :
  ∃ msg, run (Cancel (V := V) now id) (view c m) [] = (true, publish msg.1 msg.2 (view c m)) ∧
    let d' := (run (on_message now' msg) (view (leave i now (publish msg.1 msg.2 (view c m)) c) m') []).2 in
    own d' !! id = Some (with_error "查询已被用户取消" (with_status QueryStatusCancelled q)) ∧
    contexts d' = option_list (CancelFunc q) ++ cancelled (m_reg m').
Proof.
  apply cl_reachable in Hc. destruct Ht as (Hst & Hn & Hjid & Hn').
  exists (redisCancelChannel, marshal_cancel (mkCancel id (m_id m))). split.
  - cbn [Cancel distributed_registry]. unfold run. by rewrite (cancel_elsewhere_sends now id c i m m' j q).
  - cbv zeta. change (on_message now' (redisCancelChannel, ?p)) with (handleCancelCommand (R := R) (V := V) now' p).
    unfold handleCancelCommand. rewrite cancel_roundtrip. cbn [c_QueryID]. rewrite Hjid. unfold run, mbind, M_bind, gets. cbn [reg view c_QueryID]. rewrite Hq, Ha.
    unfold dist_cancel_local, mbind, M_bind, modify. rewrite (announce_eval now' _ (mret tt) (λ d, d)) by done.
    simpl. split; [apply lookup_insert_eq|done].
Qed.
End cancelling.

(** ** Witnesses *)
Definition demo_query (id : string) : RunningQuery Z :=
  mkQuery id 1 "db" "SELECT 1" 7 QueryStatusPending None "" 0 None false (Some 5%nat) 0.
Definition demo_result : QueryResult Z := mkResult ["n"] [[1]] 1.

Definition demo_start : cluster Z gmap_store := mkCluster (new_member <$> ["a"; "b"]) ∅ [] 0.

(** A call of the node [i] at the time [now]. *)
Definition demo_call (i : nat) (now : Z) (o : reg_op Z) (c : cluster Z gmap_store) : cluster Z gmap_store :=
  match members c !! i with
  | Some m => leave i now (run (reg_handle now o) (view c m) []).2 c
  | None => c
  end.

Definition member_at (i : nat) (c : cluster Z gmap_store) : member Z := default (new_member "") (members c !! i).

Lemma demo_start_ok : cluster_start demo_start.
Proof.
  split; [exists ["a"; "b"]; split; [done|]|done]. apply NoDup_cons. split; [set_solver|]. apply NoDup_singleton.
Qed.

Lemma demo_call_reachable i now o c :
  reachable cluster_step cluster_start c → c_now c ≤ now → call_ok o c = true →
  reachable cluster_step cluster_start (demo_call i now o c).
Proof.
  intros (c0 & H0 & Hr) Hnow Hok. unfold demo_call. destruct (members c !! i) as [m|] eqn:Hi; [|by exists c0].
  exists c0. split; [done|]. eapply rtc_r; [exact Hr|]. by apply (node_call c i m now o).
Qed.

(** Node [a] registers a query and starts it; then it completes. *)
Definition demo_running : cluster Z gmap_store :=
  demo_call 0 Second (OpSetRunning "q_1") (demo_call 0 0 (OpRegister (demo_query "q_1")) demo_start).
Definition demo_done : cluster Z gmap_store :=
  demo_call 0 (2 * Second) (OpUpdateResult "q_1" demo_result Second) demo_running.

Lemma demo_running_reachable : reachable cluster_step cluster_start demo_running.
Proof.
  apply demo_call_reachable; [|by vm_compute|by vm_compute]. apply demo_call_reachable; [|by vm_compute|by vm_compute].
  exists demo_start. split; [apply demo_start_ok|apply rtc_refl].
Qed.
Lemma demo_done_reachable : reachable cluster_step cluster_start demo_done.
Proof. apply demo_call_reachable; [apply demo_running_reachable|by vm_compute|by vm_compute]. Qed.

Definition owned_query (c : cluster Z gmap_store) : RunningQuery Z :=
  default (demo_query "") (queries (m_reg (member_at 0 c)) !! "q_1").


Lemma unknown_everywhere_witness :
  (run (Get 0 "q_2") (view demo_done (member_at 1 demo_done)) []).1 = None.
Proof.
  refine (proj1 (unknown_everywhere 0 "q_2" demo_done 1 (member_at 1 demo_done) demo_done_reachable _ _ _));
    [by vm_compute|by vm_compute|].
  intros j m' Hj. assert (Hall : forallb (λ m, bool_decide (queries (m_reg m) !! "q_2" = None)) (members demo_done) = true) by by vm_compute.
  rewrite forallb_forall in Hall. apply list_elem_of_lookup_2, list_elem_of_In, Hall in Hj. by apply bool_decide_eq_true in Hj.
Defined.

Lemma cancel_reaches_owner_witness :
  ∃ msg, run (Cancel (V := Z) (2 * Second) "q_1") (view demo_running (member_at 1 demo_running)) [] =
    (true, publish msg.1 msg.2 (view demo_running (member_at 1 demo_running))).
Proof.
  destruct (cancel_reaches_owner (2 * Second) (3 * Second) "q_1" demo_running 1 0
    (member_at 1 demo_running) (member_at 0 demo_running) (owned_query demo_running)
    demo_running_reachable ltac:(by vm_compute) ltac:(by vm_compute) ltac:(done) ltac:(by vm_compute)
    ltac:(by vm_compute) ltac:(by vm_compute) ltac:(by vm_compute)) as (msg & E & _).
  by exists msg.
Defined.

(** A lost write, a call after it, and a cleanup. *)
Definition demo_history : list (Z * reg_op Z * list fate) :=
  [(0, OpRegister (demo_query "q_1"), [Lost]); (1, OpSetRunning "q_1", [Ghost; Lost]); (2, OpCancel "q_1", [Lost]);
   (3, OpCancel "q_1", [Lost]); (4, OpGet "q_1", []); (40 * Minute, OpCleanup (30 * Minute), []); (40 * Minute, OpGet "q_1", [])].

Lemma one_node_answers_as_local_witness :
  (reg_run demo_history (NewDistributedQueryRegistry "a" (∅ : gmap_store) [])).1 = (reg_run demo_history NewQueryRegistry).1.
Proof.
  apply (one_node_answers_as_local demo_history "a" (∅ : gmap_store) []); [done|done|].
  repeat (apply Forall_cons; split; [by vm_compute|]). by apply Forall_nil.
Defined.

(** ** What the registries get wrong *)

(** A query that completed is stored under "...query:result:" followed by its
    identifier, which is also the key of the state of a query named
    "result:...": asked for "result:q_1", another node reads the result as a
    state and reports a query.  JSON fills the fields it does not find with
    zeroes. *)
Definition lenient (read : string → option redisQueryState) (s : string) : option redisQueryState :=
  match read s with
  | Some st => Some st
  | None => Some (mkState "" 0 "" "" 0 "" "" 0 false "" 0 0)
  end.
#[local] Instance lenient_codec : QueryCodec Z := {
  json_text s := s;
  via_json z := z;
  marshal_state := @marshal_state Z bit_codec;
  unmarshal_state := lenient (@unmarshal_state Z bit_codec);
  marshal_cancel := @marshal_cancel Z bit_codec;
  unmarshal_cancel := @unmarshal_cancel Z bit_codec;
  marshal_result := @marshal_result Z bit_codec;
  unmarshal_result := @unmarshal_result Z bit_codec;
}.

Example result_key_found_as_query :
  q_Status <$> (run (@dist_Get Z gmap_store _ lenient_codec (3 * Second) "result:q_1") (view demo_done (member_at 1 demo_done)) []).1
  = Some "".
Proof. by vm_compute. Qed.

(** [SetRunning], [UpdateError] and [UpdateResult] do not look at the status:
    a query cancelled before its goroutine starts runs again, and the end of
    a cancelled query turns it into a failed or a completed one. *)
Theorem cancel_is_overwritten {V S : Type} `{queryRegistryLaws V S} (now : Z) (id e : string) (t : Z) (s : S) (q : RunningQuery V)
    (Hq : own s !! id = Some q) (Hc : q_Status q = QueryStatusCancelled) :
  q_Status <$> own (run (SetRunning (V := V) now id) s []).2 !! id = Some QueryStatusRunning ∧
  q_Status <$> own (run (UpdateError (V := V) now id e t) s []).2 !! id = Some QueryStatusFailed ∧
  q_Status <$> own (run (UpdateResult (V := V) now id None t) s []).2 !! id = Some QueryStatusCompleted.
Proof. rewrite SetRunning_own, UpdateError_own, UpdateResult_own, !lookup_alter_eq, Hq. done. Qed.
