(* ===== verification/SqlText.v ===== *)
(** * The text of a query

    [src/scheduler/internal/datasource/driver/base.go]: the row limit added to
    a statement; [errors.go]: the classes of errors and the retries; and the
    check of [handler/query.go] that a statement only reads.  A regular
    expression of the source is a function that matches it at the start of a
    text and returns the rest; [find_re] looks for its leftmost match.  Every
    repetition in the expressions is greedy and is followed by something it
    cannot match itself, so the functions do not backtrack. *)
From S2P Require Import Prelude Text.
From Stdlib Require Import Ascii.

(** ** Regular expressions *)
(** [\s*] *)
Fixpoint skip_spaces (s : string) : string :=
  match s with
  | String c s' => if re_space c then skip_spaces s' else s
  | EmptyString => ""
  end.
(** [\s+] *)
Definition re_spaces (s : string) : option string :=
  match s with
  | String c s' => if re_space c then Some (skip_spaces s') else None
  | EmptyString => None
  end.
(** A word, with or without [(?i)]. *)
Fixpoint re_word (ci : bool) (w s : string) : option string :=
  match w, s with
  | EmptyString, _ => Some s
  | String a w, String c s => if Ascii.eqb a (if ci then upper c else c) then re_word ci w s else None
  | String _ _, EmptyString => None
  end.
(** [\d+] *)
Definition re_digits (s : string) : option (string * string) :=
  match span_digits s with ("", _) => None | p => Some p end.

(** [\s+LIMIT\s+] *)
Definition re_limit (ci : bool) (s : string) : option string :=
  s ← re_spaces s; s ← re_word ci "LIMIT" s; re_spaces s.
(** [(?i)\s+LIMIT\s+(\d+)]: the digits *)
Definition re_limit_value (s : string) : option string :=
  fst <$> (re_limit true s ≫= re_digits).
(** [(?i)\s+LIMIT\s+old\s*,?\s*\d*\s*(?:OFFSET\s+\d+)?] *)
Definition re_limit_offset (old s : string) : option string :=
  s ← re_limit true s;
  s ← re_word false old s;
  let s := skip_spaces s in
  let s := match s with String "," s => s | _ => s end in
  let s := skip_spaces (snd (span_digits (skip_spaces s))) in
  let offset := (r ← re_word true "OFFSET" s; r ← re_spaces r; snd <$> re_digits r) in
  Some (default s offset).
(** [(?i)\s+LIMIT\s+old\b] *)
Definition word_char (c : ascii) : bool := is_digit c || between 65 90 c || between 97 122 c || Ascii.eqb c "_".
Definition re_limit_exact (old s : string) : option string :=
  s ← re_limit true s;
  s ← re_word false old s;
  match s with String c _ => if word_char c then None else Some s | EmptyString => Some s end.

(** The first position where [re] matches. *)
Fixpoint find_re {A} (re : string → option A) (s : string) : option A :=
  match re s with
  | Some a => Some a
  | None => match s with String _ s' => find_re re s' | EmptyString => None end
  end.
Definition MatchString {A} (re : string → option A) (s : string) : bool :=
  match find_re re s with Some _ => true | None => false end.

(** [re.ReplaceAllString(s, by)], for an expression with no empty match: each
    match consumes text, so the length of [s] is fuel enough. *)
Fixpoint replace_all (fuel : nat) (re : string → option string) (by_ s : string) : string :=
  match fuel with
  | O => s
  | S fuel =>
      match re s with
      | Some rest => by_ +:+ replace_all fuel re by_ rest
      | None => match s with String c s' => String c (replace_all fuel re by_ s') | EmptyString => "" end
      end
  end.
Definition ReplaceAllString (re : string → option string) (by_ s : string) : string :=
  replace_all (Datatypes.S (String.length s)) re by_ s.

(** ** [base.go] *)
Definition normalizeSQL (sql : string) : string := TrimSpace (TrimSuffix ";" (TrimSpace sql)).

Definition ExtractLastStatement (sql : string) : string :=
  let segments := map TrimSpace (Split ";" sql) in
  default "" (last (filter (λ s, s ≠ "") segments)).

Definition NormalizeSQLForType (sql dsType : string) : string :=
  if bool_decide (dsType ∈ ["hive"; "kyuubi"; "spark"]) then ExtractLastStatement sql else normalizeSQL sql.

(** [^(SELECT|WITH)\s] *)
Definition selectWithPrefixRe (s : string) : bool :=
  match re_word false "SELECT" s, re_word false "WITH" s with
  | Some (String c _), _ | None, Some (String c _) => re_space c
  | _, _ => false
  end.
Definition hasLimitRe : string → bool := MatchString (re_limit false).

Definition extractUserLimit (sql : string) : Z :=
  match find_re re_limit_value sql with
  | Some digits => default 0 (Atoi digits)
  | None => 0
  end.

Definition limit_clause (limit : Z) : string := " LIMIT " +:+ fmt_d limit.

Definition replaceLimitValue (sql : string) (oldLimit newLimit : Z) : string :=
  let old := fmt_d oldLimit in
  if MatchString (re_limit_offset old) sql
  then ReplaceAllString (re_limit_offset old) (limit_clause newLimit) sql
  else ReplaceAllString (re_limit_exact old) (limit_clause newLimit) sql.

Definition ApplyLimitToSQL (sql : string) (limit : Z) (dsType : string) : string :=
  if limit <=? 0 then sql
  else if bool_decide (dsType = "redis") then sql
  else
    let normalized := NormalizeSQLForType sql dsType in
    let upperSQL := ToUpper normalized in
    if negb (selectWithPrefixRe upperSQL) then sql
    else if hasLimitRe upperSQL
    then
      let userLimit := extractUserLimit upperSQL in
      if 0 <? userLimit
      then if limit <? userLimit then replaceLimitValue normalized userLimit limit else sql
      else normalized +:+ limit_clause limit
    else normalized +:+ limit_clause limit.

(** ** [handler/query.go]: statements that read *)
Fixpoint join_from (prevSpace : bool) (s : string) : string :=
  match s with
  | EmptyString => ""
  | String c s' =>
      if existsb (Ascii.eqb c) [" "; "009"; "010"; "013"]%char
      then if prevSpace then join_from true s' else String " " (join_from true s')
      else String c (join_from false s')
  end.
Definition joinSpaces (s : string) : string := join_from false s.

(** [driver.IsRedisReadOnlyCommand], of [driver/redis.go] *)
Definition redisReadOnlyCommands : list string :=
  ["GET"; "MGET"; "STRLEN"; "GETRANGE"; "KEYS"; "SCAN"; "RANDOMKEY"; "TYPE"; "TTL"; "PTTL"; "EXPIRETIME"; "PEXPIRETIME";
   "EXISTS"; "OBJECT"; "MEMORY"; "LRANGE"; "LINDEX"; "LLEN"; "LPOS"; "SMEMBERS"; "SISMEMBER"; "SMISMEMBER"; "SCARD";
   "SRANDMEMBER"; "SSCAN"; "HGET"; "HMGET"; "HGETALL"; "HKEYS"; "HVALS"; "HLEN"; "HEXISTS"; "HSCAN"; "HSTRLEN";
   "ZRANGE"; "ZREVRANGE"; "ZRANGEBYSCORE"; "ZREVRANGEBYSCORE"; "ZRANGEBYLEX"; "ZREVRANGEBYLEX"; "ZSCORE"; "ZMSCORE";
   "ZRANK"; "ZREVRANK"; "ZCARD"; "ZCOUNT"; "ZLEXCOUNT"; "ZSCAN"; "ZRANDMEMBER"; "PFCOUNT"; "BITCOUNT"; "BITPOS"; "GETBIT";
   "GEOHASH"; "GEOPOS"; "GEODIST"; "GEORADIUS"; "GEORADIUSBYMEMBER"; "CLUSTER"; "INFO"; "CONFIG"; "CLIENT"; "TIME";
   "DBSIZE"; "LASTSAVE"; "ROLE"; "COMMAND"; "PING"; "ECHO"; "SELECT"; "QUIT"].
Definition IsRedisReadOnlyCommand (cmdName : string) : bool := existsb (String.eqb cmdName) redisReadOnlyCommands.

(** [strings.IndexAny(s, " \t\n\r")] cuts the text there, when it is not 0. *)
Definition blank (c : ascii) : bool := existsb (Ascii.eqb c) [" "; "009"; "010"; "013"]%char.
Fixpoint first_token (s : string) : string :=
  match s with
  | String c s' => if blank c then "" else String c (first_token s')
  | EmptyString => ""
  end.
Definition isRedisReadOnlyCommand (cmd : string) : bool :=
  let trimmed := TrimSpace cmd in
  if bool_decide (trimmed = "") then false
  else
    let cmdName := match first_token trimmed with "" => trimmed | t => t end in
    IsRedisReadOnlyCommand (ToUpper cmdName).

Definition isSelectOnly (sql : string) (allowWriteSQL : bool) (dsType : string) : bool :=
  if allowWriteSQL then true
  else if bool_decide (dsType = "redis") then isRedisReadOnlyCommand sql
  else
    let trimmed := joinSpaces (ToUpper (TrimSpace sql)) in
    HasPrefix trimmed "SELECT " || HasPrefix trimmed "WITH " || HasPrefix trimmed "EXPLAIN " || HasPrefix trimmed "SHOW "
    || HasPrefix trimmed "DESCRIBE " || HasPrefix trimmed "DESC " || bool_decide (trimmed = "SELECT")
    || bool_decide (trimmed = "DESC") || bool_decide (trimmed = "SHOW") || HasPrefix trimmed "PRAGMA".

(** ** [errors.go] *)
Definition ErrCategoryConnection : string := "connection".
Definition ErrCategoryAuthentication : string := "authentication".
Definition ErrCategoryQuery : string := "query".
Definition ErrCategoryTimeout : string := "timeout".
Definition ErrCategoryPermission : string := "permission".
Definition ErrCategoryResource : string := "resource".

(** [Err] is kept as its text. *)
Record DatasourceError : Type := mkDsError {
  Err_text : string; Category : string; DatasourceType : string; Retryable : bool; RetryAfter : Z;
}.

Definition DatasourceError_Error (e : DatasourceError) : string :=
  if bool_decide (DatasourceType e = "") then Category e +:+ " error: " +:+ Err_text e
  else "[" +:+ DatasourceType e +:+ "] " +:+ Category e +:+ " error: " +:+ Err_text e.

(** An error: what [Error()] returns, and the [DatasourceError] that
    [errors.As] finds in it. *)
Record go_error : Type := mkError { error_text : string; as_datasource : option DatasourceError }.
Definition wrapped (e : DatasourceError) : go_error := mkError (DatasourceError_Error e) (Some e).

(** The cases of the [switch], in its order. *)
Definition error_cases : list (list string * string * bool * Z) :=
  [ (["broken pipe"; "connection reset"; "connection refused"; "network is unreachable"; "no such host"; "dial tcp"; "eof"],
     ErrCategoryConnection, true, 2 * Second);
    (["timeout"; "i/o timeout"; "deadline exceeded"], ErrCategoryTimeout, true, 5 * Second);
    (["authentication"; "access denied"; "unauthorized"; "invalid credentials"; "wrong password"; "wrongpass"; "noauth"],
     ErrCategoryAuthentication, false, 0);
    (["permission denied"; "forbidden"; "not allowed"], ErrCategoryPermission, false, 0);
    (["too many connections"; "connection pool"; "resource temporarily unavailable"], ErrCategoryResource, true, 3 * Second);
    (["ttransport"; "transport error"], ErrCategoryConnection, true, 2 * Second) ].

Definition ClassifyError (e : go_error) (dsType : string) : DatasourceError :=
  let errMsg := ToLower (error_text e) in
  match find (λ '(subs, _, _, _), existsb (Contains errMsg) subs) error_cases with
  | Some (_, category, retryable, after) => mkDsError (error_text e) category dsType retryable after
  | None => mkDsError (error_text e) ErrCategoryQuery dsType false 0
  end.

(** [isConnectionError], of [base.go] *)
Definition isConnectionError (e : go_error) : bool :=
  existsb (Contains (ToLower (error_text e)))
    ["broken pipe"; "connection reset"; "connection refused"; "network is unreachable"; "i/o timeout"; "dial tcp";
     "no such host"; "ttransport"; "transport error"; "eof"].

Definition IsConnectionError (e : go_error) : bool :=
  match as_datasource e with
  | Some d => bool_decide (Category d = ErrCategoryConnection) || bool_decide (Category d = ErrCategoryTimeout)
  | None => isConnectionError e
  end.
Definition IsRetryableError (e : go_error) : bool :=
  match as_datasource e with Some d => Retryable d | None => isConnectionError e end.

(** The multiplier is a whole number, and so are the delays: below 2^53 the
    program's [float64] arithmetic is exact. *)
Record RetryConfig : Type := mkRetry { MaxAttempts : nat; BaseDelay : Z; MaxDelay : Z; Multiplier : Z }.
Definition DefaultRetryConfig : RetryConfig := mkRetry 3 Second (30 * Second) 2.

Definition calculateDelay (attempt : nat) (cfg : RetryConfig) : Z :=
  Z.min (BaseDelay cfg * Multiplier cfg ^ (Z.of_nat attempt - 1)) (MaxDelay cfg).

Definition with_base (d : Z) (cfg : RetryConfig) : RetryConfig :=
  mkRetry (MaxAttempts cfg) d (MaxDelay cfg) (Multiplier cfg).

(** What a run of [WithRetry] did: its answer, the calls of [fn] and the
    delays waited for in full or until the context ended. *)
Record retried (A : Type) : Type := mkRetried { answer : result go_error A; calls : nat; delays : list Z }.
Arguments mkRetried {A}.
Arguments answer {A}.
Arguments calls {A}.
Arguments delays {A}.

Section retry.
Context {A : Type}.
(** The answer of each call of [fn], and the error of the context if it is
    done before the delay that precedes a call is over. *)
Context (fn : nat → result go_error A) (ctx_done : nat → option string) (dsType : string).

(** The loop from [attempt] on, with [n] attempts left.  [%w] prints a nil
    error as "%!w(<nil>)". *)
Fixpoint retry_loop (n attempt : nat) (cfg : RetryConfig) (lastErr : go_error) (waited : list Z) : retried A :=
  match n with
  | O =>
      mkRetried (Err (mkError
        ("query failed after " +:+ fmt_d (Z.of_nat (MaxAttempts cfg)) +:+ " attempts: " +:+ error_text lastErr)
        (as_datasource lastErr))) attempt waited
  | S n =>
      let waited := if (0 <? attempt)%nat then waited ++ [calculateDelay attempt cfg] else waited in
      match (if (0 <? attempt)%nat then ctx_done attempt else None) with
      | Some e => mkRetried (Err (mkError e None)) attempt waited
      | None =>
          match fn attempt with
          | Ok a => mkRetried (Ok a) (S attempt) waited
          | Err e =>
              let dsErr := ClassifyError e dsType in
              if Retryable dsErr
              then retry_loop n (S attempt) (if 0 <? RetryAfter dsErr then with_base (RetryAfter dsErr) cfg else cfg)
                     e waited
              else mkRetried (Err (wrapped dsErr)) (S attempt) waited
          end
      end
  end.

Definition WithRetry (cfg : RetryConfig) : retried A := retry_loop (MaxAttempts cfg) 0 cfg (mkError "%!w(<nil>)" None) [].
End retry.

(** ** Theorems *)

(** *** The row limit *)

(** Matching a word in a text that goes on with a space. *)
Lemma re_word_app w v t :
  forallb (λ c, negb (re_space c)) (String.list_ascii_of_string w) = true →
  re_word false w (v +:+ String " " t) = (λ r, r +:+ String " " t) <$> re_word false w v.
Proof.
  revert v. induction w as [|a w IH]; intros v Hw; [done|]. simpl in Hw. apply andb_prop in Hw as [Ha Hw].
  destruct v as [|c v]; simpl.
  - destruct (Ascii.eqb_spec a " ") as [->|]; [done|done].
  - destruct (Ascii.eqb a c); [by apply IH|done].
Qed.

Lemma re_word_upper w s : no_lower s = true → re_word true w s = re_word false w s.
Proof.
  unfold no_lower. revert s. induction w as [|a w IH]; intros s Hs; [done|]. destruct s as [|c s]; [done|]. simpl in *.
  apply andb_prop in Hs as [Hc Hs]. apply Ascii.eqb_eq in Hc. rewrite Hc. destruct (Ascii.eqb a c); [by apply IH|done].
Qed.

#[local] Arguments re_word : simpl never.

Lemma skip_spaces_upper s : no_lower s = true → no_lower (skip_spaces s) = true.
Proof.
  unfold no_lower. induction s as [|c s IH]; [done|]. simpl. intros Hs. destruct (re_space c); [|done].
  apply andb_prop in Hs as [_ Hs]. by apply IH.
Qed.

Lemma re_limit_upper s : no_lower s = true → re_limit true s = re_limit false s.
Proof.
  intros Hs. unfold re_limit. destruct s as [|c s]; [done|]. simpl. destruct (re_space c); [|done]. simpl.
  rewrite re_word_upper; [done|]. apply skip_spaces_upper. unfold no_lower in Hs. simpl in Hs. by apply andb_prop in Hs as [_ Hs].
Qed.

(** The text of [limit_clause]. *)
Definition clause (ds : string) : string := " LIMIT " +:+ ds.

Lemma re_limit_value_clause ds : all_digits ds = true → ds ≠ "" → re_limit_value (clause ds) = Some ds.
Proof.
  intros Hd Hne. unfold re_limit_value, re_limit, clause. simpl.
  destruct ds as [|c ds]; [done|]. simpl. unfold all_digits in Hd. simpl in Hd. apply andb_prop in Hd as [Hc Hd].
  rewrite is_digit_space by done. unfold re_digits. simpl. by rewrite Hc, (span_digits_all ds).
Qed.

Lemma ToUpper_clause ds : all_digits ds = true → ToUpper (clause ds) = clause ds.
Proof.
  intros Hd. change (clause ds) with (" LIMIT" +:+ String " " ds) at 1. rewrite ToUpper_app_space.
  destruct ds as [|c ds]; [reflexivity|]. rewrite (ToUpper_cons2 " " c ds). change (Ascii.eqb " " "196") with false.
  change (Ascii.eqb " " "197") with false. cbn [andb]. by rewrite (ToUpper_digits (String c ds)).
Qed.

Lemma skip_spaces_app v t : skip_spaces (v +:+ t) = if String.eqb (skip_spaces v) "" then skip_spaces t else skip_spaces v +:+ t.
Proof.
  induction v as [|c v IH]; [done|]. rewrite string_app_cons. simpl. destruct (re_space c); [done|]. by rewrite string_app_cons.
Qed.

Lemma skip_spaces_id s : skip_spaces s ≠ "" → ∃ c s', skip_spaces s = String c s' ∧ re_space c = false.
Proof. induction s as [|c s IH]; simpl; [done|]. destruct (re_space c) eqn:E; [done|]. intros _. by exists c, s. Qed.

(** Where a text without a LIMIT clause is continued with one, a match found
    inside the text can only be that clause. *)
Lemma value_at ds u :
  all_digits ds = true → ds ≠ "" → no_lower (u +:+ clause ds) = true → u ≠ "" → re_limit false u = None →
  re_limit_value (u +:+ clause ds) = None ∨ re_limit_value (u +:+ clause ds) = Some ds.
Proof.
  intros Hd Hne Hup Hu Hno. destruct u as [|c u]; [done|]. rewrite string_app_cons in *.
  unfold re_limit_value. rewrite re_limit_upper by done. unfold re_limit in *. simpl in *.
  destruct (re_space c) eqn:Ec; [|by left]. simpl in *. rewrite skip_spaces_app.
  destruct (String.eqb_spec (skip_spaces u) "") as [E|E].
  - right. exact (re_limit_value_clause ds Hd Hne).
  - unfold clause at 1 2. change (" LIMIT " +:+ ds) with (String " " ("LIMIT " +:+ ds)).
    rewrite re_word_app by done. destruct (re_word false "LIMIT" (skip_spaces u)) as [r|]; [|by left]. simpl in *.
    destruct r as [|d r]; [by left|]. rewrite string_app_cons. simpl in *. destruct (re_space d); [done|by left].
Qed.

Lemma no_lower_suffix c s : no_lower (String c s) = true → no_lower s = true.
Proof. unfold no_lower. simpl. by intros [_ Hs]%andb_prop. Qed.

Lemma find_re_here {A} (re : string → option A) s a : re s = Some a → find_re re s = Some a.
Proof. intros E. destruct s; simpl; by rewrite E. Qed.

Lemma find_value_append ds u :
  all_digits ds = true → ds ≠ "" → no_lower (u +:+ clause ds) = true → find_re (re_limit false) u = None →
  find_re re_limit_value (u +:+ clause ds) = Some ds.
Proof.
  intros Hd Hne. induction u as [|c u IH]; intros Hup Hno.
  - by apply find_re_here, re_limit_value_clause.
  - simpl in Hno. destruct (re_limit false (String c u)) eqn:Hc; [done|].
    assert (IH' : find_re re_limit_value (u +:+ clause ds) = Some ds).
    { apply IH; [|done]. rewrite string_app_cons in Hup. by apply no_lower_suffix in Hup. }
    rewrite string_app_cons in *. cbn [find_re].
    destruct (value_at ds (String c u) Hd Hne Hup ltac:(done) Hc) as [E|E]; rewrite string_app_cons in E; by rewrite E.
Qed.

(** A SELECT or WITH statement without a LIMIT clause is sent with the
    system's limit: [ApplyLimitToSQL] appends it to the normalized statement,
    and the limit its own reader then finds in the statement is exactly the
    system's, whatever the statement contains. *)
Theorem limit_is_appended sql limit dsType
    (Hl : 0 < limit < 2 ^ 63) (Hr : dsType ≠ "redis")
    (Hsel : selectWithPrefixRe (ToUpper (NormalizeSQLForType sql dsType)) = true)
    (Hno : hasLimitRe (ToUpper (NormalizeSQLForType sql dsType)) = false) :
  ApplyLimitToSQL sql limit dsType = NormalizeSQLForType sql dsType +:+ limit_clause limit ∧
  extractUserLimit (ToUpper (ApplyLimitToSQL sql limit dsType)) = limit.
Proof.
  assert (E : ApplyLimitToSQL sql limit dsType = NormalizeSQLForType sql dsType +:+ limit_clause limit).
  { unfold ApplyLimitToSQL. rewrite (proj2 (Z.leb_gt limit 0)), bool_decide_false by (done || lia). by rewrite Hsel, Hno. }
  split; [done|]. rewrite E. set (norm := NormalizeSQLForType sql dsType) in *.
  destruct (fmt_d_digits limit ltac:(lia)) as (Hd & Hne & _).
  assert (Eup : ToUpper (norm +:+ limit_clause limit) = ToUpper norm +:+ clause (fmt_d limit)).
  { unfold limit_clause. change (" LIMIT " +:+ fmt_d limit) with (String " " ("LIMIT " +:+ fmt_d limit)).
    rewrite ToUpper_app_space. f_equal. by apply ToUpper_clause. }
  unfold extractUserLimit. rewrite Eup, find_value_append; [by rewrite Atoi_fmt_d|done|done| |].
  - rewrite <- Eup. apply no_lower_ToUpper.
  - unfold hasLimitRe, MatchString in Hno. by destruct (find_re (re_limit false) (ToUpper norm)).
Qed.

(** *** Retries *)
#[local] Arguments calculateDelay : simpl never.
#[local] Arguments ClassifyError : simpl never.

Section retry_theorems.
Context {A : Type} (fn : nat → result go_error A) (ctx_done : nat → option string) (dsType : string).

Definition retried_error (i : nat) : Prop := ∃ e, fn i = Err e ∧ Retryable (ClassifyError e dsType) = true.

(** Why a run that made [k] calls stopped, with its answer. *)
Definition stopped (max : nat) (r : result go_error A) (k : nat) : Prop :=
  match r with
  | Ok a => ∃ i, k = S i ∧ fn i = Ok a
  | Err _ =>
      (∃ i e, k = S i ∧ fn i = Err e ∧ Retryable (ClassifyError e dsType) = false) ∨
      (k = max ∧ ∀ i, (i < k)%nat → retried_error i) ∨
      ((0 < k)%nat ∧ is_Some (ctx_done k) ∧ ∀ i, (i < k)%nat → retried_error i)
  end.

Lemma retry_loop_spec n attempt cfg lastErr waited :
  (∀ i, (i < attempt)%nat → retried_error i) →
  let r := retry_loop fn ctx_done dsType n attempt cfg lastErr waited in
  (attempt ≤ calls r ≤ attempt + n)%nat ∧ (∀ i, (S i < calls r)%nat → retried_error i) ∧
  stopped (attempt + n) (answer r) (calls r).
Proof.
  revert attempt cfg lastErr waited. induction n as [|n IH]; intros attempt cfg lastErr waited Hbefore; simpl.
  - split; [lia|]. split; [intros; apply Hbefore; lia|]. right. left. split; [lia|done].
  - destruct (if (0 <? attempt)%nat then ctx_done attempt else None) as [e|] eqn:Hctx; simpl.
    { split; [lia|]. split; [intros; apply Hbefore; lia|]. right. right.
      destruct (Nat.ltb_spec 0 attempt); [|done]. split; [done|]. by rewrite Hctx. }
    destruct (fn attempt) as [a|e] eqn:Hfn; simpl.
    { split; [lia|]. split; [intros; apply Hbefore; lia|]. by exists attempt. }
    destruct (Retryable (ClassifyError e dsType)) eqn:Hr; simpl.
    + replace (attempt + S n)%nat with (S attempt + n)%nat by lia.
      destruct (IH (S attempt) (if 0 <? RetryAfter (ClassifyError e dsType) then with_base (RetryAfter (ClassifyError e dsType)) cfg else cfg)
        e (if (0 <? attempt)%nat then waited ++ [calculateDelay attempt cfg] else waited)) as (H1 & H2 & H3).
      { intros i Hi. destruct (decide (i = attempt)) as [->|]; [by exists e|apply Hbefore; lia]. }
      split; [lia|done].
    + split; [lia|]. split; [intros; apply Hbefore; lia|]. left. by exists attempt, e.
Qed.

(** [WithRetry] makes at least one and at most [MaxAttempts] calls, makes
    another only after an error classified as retryable, returns the first
    success, and otherwise stops for one of three reasons: an error that is
    not retryable, the last attempt, or the end of the context. *)
Theorem WithRetry_spec (cfg : RetryConfig) (Hm : (0 < MaxAttempts cfg)%nat) :
  let r := WithRetry fn ctx_done dsType cfg in
  (1 ≤ calls r ≤ MaxAttempts cfg)%nat ∧ (∀ i, (S i < calls r)%nat → retried_error i) ∧
  stopped (MaxAttempts cfg) (answer r) (calls r).
Proof.
  destruct (retry_loop_spec (MaxAttempts cfg) 0 cfg (mkError "%!w(<nil>)" None) [] ltac:(lia)) as (H1 & H2 & H3).
  cbv zeta. unfold WithRetry in *. split; [|done]. split; [|lia]. unfold stopped in H3.
  destruct (answer _); [destruct H3 as (i & -> & _); lia|].
  destruct H3 as [(i & e0 & -> & _)|[[-> _]|[Hk _]]]; lia.
Qed.

Lemma RetryAfter_range e : 0 ≤ RetryAfter (ClassifyError e dsType) ≤ 5 * Second.
Proof.
  unfold ClassifyError. destruct (find _ error_cases) as [[[[subs category] retryable] after]|] eqn:E; [|simpl; unfold Second; lia].
  apply find_some in E as [Hin _]. simpl in *.
  assert (Hall : forallb (λ '(_, _, _, d), (0 <=? d) && (d <=? 5 * Second)) error_cases = true) by done.
  rewrite forallb_forall in Hall. specialize (Hall _ Hin). simpl in Hall. lia.
Qed.

(** The configurations of a run that starts with the default one. *)
Definition base_ok (cfg : RetryConfig) : Prop :=
  0 ≤ BaseDelay cfg ≤ 5 * Second ∧ Multiplier cfg = 2 ∧ MaxDelay cfg = 30 * Second.

Lemma base_ok_after e cfg : base_ok cfg →
  base_ok (if 0 <? RetryAfter (ClassifyError e dsType) then with_base (RetryAfter (ClassifyError e dsType)) cfg else cfg).
Proof. intros Hc. destruct (0 <? _); [|done]. split; [apply RetryAfter_range|apply Hc]. Qed.

Lemma base_ok_delay cfg : base_ok cfg →
  0 ≤ calculateDelay 1 cfg ≤ 5 * Second ∧ 0 ≤ calculateDelay 2 cfg ≤ 10 * Second.
Proof.
  intros (H1 & H2 & H3). unfold calculateDelay. rewrite H2, H3.
  change (2 ^ (Z.of_nat 1 - 1)) with 1. change (2 ^ (Z.of_nat 2 - 1)) with 2. unfold Second in *. lia.
Qed.

(** With the configuration the handlers use, the waits between the
    attempts of one query add up to at most 15 seconds. *)
Theorem default_retry_waits :
  0 ≤ foldr Z.add 0 (delays (WithRetry fn ctx_done dsType DefaultRetryConfig)) ≤ 15 * Second.
Proof.
  assert (H0 : base_ok DefaultRetryConfig) by (unfold base_ok, DefaultRetryConfig, Second; simpl; lia).
  unfold WithRetry. change (MaxAttempts DefaultRetryConfig) with 3%nat. revert H0. generalize DefaultRetryConfig.
  intros cfg H0. simpl. destruct (fn 0) as [a|e0]; [simpl; unfold Second; lia|].
  destruct (Retryable _); [|simpl; unfold Second; lia].
  apply (base_ok_after e0) in H0. revert H0. generalize (if 0 <? RetryAfter (ClassifyError e0 dsType) then
    with_base (RetryAfter (ClassifyError e0 dsType)) cfg else cfg). clear cfg. intros cfg H0.
  pose proof (base_ok_delay cfg H0) as [Hd1 _].
  destruct (ctx_done 1); [simpl; unfold Second in *; lia|].
  destruct (fn 1) as [a|e1]; [simpl; unfold Second in *; lia|].
  destruct (Retryable _); [|simpl; unfold Second in *; lia].
  pose proof (base_ok_delay _ (base_ok_after e1 cfg H0)) as [_ Hd2].
  destruct (ctx_done 2); [simpl; unfold Second in *; lia|].
  destruct (fn 2) as [a|e2]; [simpl; unfold Second in *; lia|].
  destruct (Retryable _); simpl; unfold Second in *; lia.
Qed.
End retry_theorems.

(** ** Witnesses *)
Lemma limit_is_appended_witness :
  ApplyLimitToSQL "select * from t;" 1000 "mysql" = "select * from t LIMIT 1000".
Proof.
  refine (eq_trans (proj1 (limit_is_appended "select * from t;" 1000 "mysql" _ _ _ _)) _); [lia|done|by vm_compute..].
Defined.

Definition flaky (i : nat) : result go_error Z :=
  match i with O => Err (mkError "i/o timeout" None) | _ => Ok 7 end.
Lemma WithRetry_spec_witness :
  stopped flaky (λ _, None) "mysql" 3 (answer (WithRetry flaky (λ _, None) "mysql" DefaultRetryConfig)) 2.
Proof.
  refine (proj2 (proj2 (WithRetry_spec flaky (λ _, None) "mysql" DefaultRetryConfig _))). simpl. lia.
Defined.

(** ** What the limits and the classes miss *)

(** The offset of [LIMIT offset, count] is taken for the count: a small offset
    lets any number of rows through. *)
Example limit_offset_count_passes :
  ApplyLimitToSQL "SELECT * FROM t LIMIT 1,2000000" 1000 "mysql" = "SELECT * FROM t LIMIT 1,2000000".
Proof. by vm_compute. Qed.
(** A LIMIT in a subquery stands for one of the statement. *)
Example limit_subquery_passes :
  let sql := "SELECT * FROM big, (SELECT 1 LIMIT 1) x" in ApplyLimitToSQL sql 1000 "mysql" = sql.
Proof. by vm_compute. Qed.
(** Leading zeroes: the value is read as a number, but looked for as a text. *)
Example limit_leading_zero_passes :
  ApplyLimitToSQL "SELECT * FROM t LIMIT 02000000" 1000 "mysql" = "SELECT * FROM t LIMIT 02000000".
Proof. by vm_compute. Qed.
(** The space after the replaced value is lost, and so is the offset. *)
Example limit_swallows_space :
  ApplyLimitToSQL "SELECT * FROM t LIMIT 2000 FOR UPDATE" 1000 "mysql" = "SELECT * FROM t LIMIT 1000FOR UPDATE" ∧
  ApplyLimitToSQL "SELECT * FROM t LIMIT 2000 OFFSET 9" 1000 "mysql" = "SELECT * FROM t LIMIT 1000".
Proof. by vm_compute. Qed.

(** Statements that write pass for statements that read. *)
Example writes_pass_as_reads :
  Forall (λ '(sql, t), isSelectOnly sql false t = true)
    [("EXPLAIN ANALYZE DELETE FROM t", "mysql"); ("WITH x AS (SELECT 1) DELETE FROM t", "sqlite");
     ("SELECT 1; DROP TABLE t", "hive"); ("PRAGMA writable_schema=1", "sqlite"); ("CONFIG SET dir /tmp", "redis")].
Proof. repeat constructor. Qed.
(** ... and Hive, Kyuubi and Spark then run the last statement only. *)
Example last_statement_is_sent : ApplyLimitToSQL "SELECT 1; DROP TABLE t" 1000 "hive" = "SELECT 1; DROP TABLE t" ∧
  NormalizeSQLForType "SELECT 1; DROP TABLE t" "hive" = "DROP TABLE t".
Proof. by vm_compute. Qed.

(** "eof" is found inside words: the error of a missing table is a broken
    connection, and is retried. *)
Example geofence_is_retried :
  ClassifyError (mkError "Table 'db.geofence' doesn't exist" None) "mysql" =
  mkDsError "Table 'db.geofence' doesn't exist" ErrCategoryConnection "mysql" true (2 * Second).
Proof. by vm_compute. Qed.

(** A statement that timed out is sent again, whatever it does. *)
Example timeouts_send_three_times :
  calls (WithRetry (λ _, @Err go_error Z (mkError "i/o timeout" None)) (λ _, None) "mysql" DefaultRetryConfig) = 3%nat.
Proof. by vm_compute. Qed.
