(* ===== verification/RedisDriver.v ===== *)
(** * The Redis data source

    [src/scheduler/internal/datasource/driver/redis.go]: splitting a command
    into arguments, and laying out a reply as a table.  A reply is what
    go-redis returns from [Do]; [%v] of the values the code does not expect
    and the JSON of an array of texts are parameters.  A [float64] is kept as
    the text [FormatFloat] gives, a Go map as the pairs in the order its
    iteration takes. *)
From S2P Require Import Prelude Text SqlText QueryRegistry.
From Stdlib Require Import Ascii.

(** ** [parseRedisCommand]: the loop, with its variables *)
Definition quote1 : ascii := "'".
Definition quote2 : ascii := "034".
Definition backslash : ascii := "\".

Definition flush (current : string) (args : list string) : list string :=
  if String.eqb current "" then args else args ++ [current].

Fixpoint parse_loop (args : list string) (current : string) (inSingleQuote inDoubleQuote escaped : bool) (cmd : string) :
    option (list string) :=
  match cmd with
  | EmptyString => if inSingleQuote || inDoubleQuote then None else Some (flush current args)
  | String ch cmd =>
      let written := current +:+ String ch "" in
      if escaped then parse_loop args written inSingleQuote inDoubleQuote false cmd
      else if Ascii.eqb ch backslash && (inSingleQuote || inDoubleQuote)
      then parse_loop args current inSingleQuote inDoubleQuote true cmd
      else if Ascii.eqb ch quote1 && negb inDoubleQuote
      then parse_loop args current (negb inSingleQuote) inDoubleQuote false cmd
      else if Ascii.eqb ch quote2 && negb inSingleQuote
      then parse_loop args current inSingleQuote (negb inDoubleQuote) false cmd
      else if blank ch && negb inSingleQuote && negb inDoubleQuote
      then parse_loop (flush current args) "" inSingleQuote inDoubleQuote false cmd
      else parse_loop args written inSingleQuote inDoubleQuote false cmd
  end.

(** [None] is the error of an unterminated quote. *)
Definition parseRedisCommand (cmd : string) : option (list string) := parse_loop [] "" false false false cmd.

(** ** Replies *)
Inductive reply : Type :=
| RNil
| RString (s : string)
| RBytes (s : string)
| RInt (n : Z)
| RFloat (text : string)
| RBool (b : bool)
| RError (text : string)
| RArray (l : list reply)
| RStrings (l : list string)
| RMapSS (m : list (string * string))
| RMapSI (m : list (string * reply))
| RMapII (m : list (reply * reply)).

Definition redisArrayCmd : list string :=
  ["KEYS"; "SCAN"; "LRANGE"; "SMEMBERS"; "SSCAN"; "ZRANGE"; "ZREVRANGE"; "ZRANGEBYSCORE"; "ZREVRANGEBYSCORE";
   "ZRANGEBYLEX"; "ZREVRANGEBYLEX"; "ZSCAN"; "ZRANDMEMBER"; "HKEYS"; "HVALS"; "MGET"; "HMGET"].
Definition redisHashCmd : list string := ["HGETALL"; "HSCAN"].
Definition redisZsetWithScoresCmd : list string :=
  ["ZRANGE"; "ZREVRANGE"; "ZRANGEBYSCORE"; "ZREVRANGEBYSCORE"; "ZRANGEBYLEX"; "ZREVRANGEBYLEX"; "ZSCAN"].
Definition redisRawTextCmd : list string :=
  ["INFO"; "COMMAND"; "TIME"; "CLIENT"; "CONFIG"; "CLUSTER"; "SCRIPT"; "MEMORY"; "OBJECT"; "LASTSAVE"; "ROLE"; "ECHO"; "PING"].

Definition mem (s : string) (l : list string) : bool := existsb (String.eqb s) l.

Definition arrayColName (cmdName : string) : string :=
  if mem cmdName ["KEYS"; "SCAN"] then "key"
  else if mem cmdName ["LRANGE"] then "value"
  else if mem cmdName ["SMEMBERS"; "SSCAN"; "ZRANDMEMBER"] then "member"
  else if mem cmdName redisZsetWithScoresCmd then "member"
  else if mem cmdName ["HKEYS"] then "field"
  else "value".

Section driver.
Context (sprintf_v : reply → string) (json_array : list string → string).

Fixpoint formatRedisResult (r : reply) : string :=
  match r with
  | RNil => "(nil)"
  | RString s | RBytes s => s
  | RInt n => fmt_d n
  | RFloat text => text
  | RBool b => if b then "1" else "0"
  | RError text => "(error) " +:+ text
  | RArray l => json_array (map formatRedisResult l)
  | RStrings _ | RMapSS _ | RMapSI _ | RMapII _ => sprintf_v r
  end.

Definition one_cell (column : string) (r : reply) : QueryResult string := mkResult [column] [[formatRedisResult r]] 1.
Definition table (columns : list string) (rows : list (list string)) : QueryResult string :=
  mkResult columns rows (Z.of_nat (length rows)).

Definition buildArrayResult (cmdName : string) (r : reply) : QueryResult string :=
  let colName := arrayColName cmdName in
  match r with
  | RStrings l => table [colName] (map (λ s, [s]) l)
  | RArray l => table [colName] (map (λ x, [formatRedisResult x]) l)
  | RNil => table [colName] []
  | _ => one_cell colName r
  end.

(** The loop over the pairs [flat[2i], flat[2i+1]]; an odd last element is
    left out. *)
Fixpoint pair_rows (flat : list reply) : list (list string) :=
  match flat with
  | a :: b :: flat => [formatRedisResult a; formatRedisResult b] :: pair_rows flat
  | _ => []
  end.

Definition buildHashResult (r : reply) : QueryResult string :=
  let pairs flat := table ["field"; "value"] (pair_rows flat) in
  match r with
  | RMapSS m => pairs (concat (map (λ '(k, v), [RString k; RString v]) m))
  | RMapSI m => pairs (concat (map (λ '(k, v), [RString k; RString (formatRedisResult v)]) m))
  | RMapII m => pairs (concat (map (λ '(k, v), [RString (formatRedisResult k); RString (formatRedisResult v)]) m))
  | RArray l => pairs l
  | RStrings l => pairs (map RString l)
  | RNil => table ["field"; "value"] []
  | _ => one_cell "result" r
  end.

Definition buildZsetWithScoresResult (r : reply) : QueryResult string :=
  match r with
  | RStrings l => table ["member"; "score"] (pair_rows (map RString l))
  | RArray l => table ["member"; "score"] (pair_rows l)
  | RNil => table ["member"; "score"] []
  | _ => mkResult ["member"; "score"] [[formatRedisResult r; ""]] 1
  end.

(** [strings.EqualFold] with a word of ASCII capitals that has no K: the long
    s is the only other letter that folds to one of its letters. *)
Fixpoint fold_upper (s : string) : string :=
  match s with
  | EmptyString => EmptyString
  | String "197" (String "191" s') => String "S" (fold_upper s')
  | String c s' => String (upper c) (fold_upper s')
  end%char.
Definition EqualFold (a word : string) : bool := String.eqb (fold_upper a) word.

Definition buildRedisQueryResult (cmdArgs : list string) (r : reply) : QueryResult string :=
  match cmdArgs with
  | [] => one_cell "result" r
  | name :: rest =>
      let cmdName := ToUpper name in
      let hasWithScores := existsb (λ a, EqualFold a "WITHSCORES") rest in
      if mem cmdName redisHashCmd then buildHashResult r
      else if mem cmdName redisZsetWithScoresCmd && hasWithScores then buildZsetWithScoresResult r
      else if mem cmdName redisArrayCmd then buildArrayResult cmdName r
      else if mem cmdName redisRawTextCmd then one_cell "result" r
      else one_cell "value" r
  end.

(** ** [Query]: the arguments sent and the reply of the server, by them *)
Definition driver_error (msg category : string) : go_error := wrapped (mkDsError msg category "redis" false 0).

Definition Query (connected : bool) (Do : list string → result go_error reply) (query : string) :
    result go_error (QueryResult string) :=
  if negb connected then Err (driver_error "redis connection not established" ErrCategoryConnection)
  else
    let cmdStr := TrimSpace query in
    if String.eqb cmdStr "" then Err (driver_error "empty redis command" ErrCategoryQuery)
    else
      match parseRedisCommand cmdStr with
      | None => Err (driver_error "failed to parse redis command: unterminated quoted string in command" ErrCategoryQuery)
      | Some [] => Err (driver_error "empty redis command" ErrCategoryQuery)
      | Some cmdArgs =>
          match Do cmdArgs with
          | Err e => Err (wrapped (ClassifyError e "redis"))
          | Ok raw => Ok (buildRedisQueryResult cmdArgs raw)
          end
      end.

(** ** Every table is a table *)
Definition rectangular (r : QueryResult string) : Prop :=
  RowCount r = Z.of_nat (length (Rows r)) ∧ Forall (λ row, length row = length (Columns r)) (Rows r).

Lemma table_rectangular columns rows :
  Forall (λ row, length row = length columns) rows → rectangular (table columns rows).
Proof. by split. Qed.

Lemma pair_rows_two flat : Forall (λ row, length row = 2%nat) (pair_rows flat).
Proof.
  assert (H : ∀ n flat, (length flat ≤ n)%nat → Forall (λ row, length row = 2%nat) (pair_rows flat)).
  { intros n. induction n as [|n IH]; intros [|a [|b l]]; simpl; intros Hl; try constructor; try lia; [done|].
    apply IH. lia. }
  by apply (H (length flat)).
Qed.

Lemma map_rectangular {B} (f : B → string) column (l : list B) :
  rectangular (table [column] (map (λ x, [f x]) l)).
Proof. apply table_rectangular, Forall_fmap, Forall_true. done. Qed.

Lemma one_cell_rectangular column r : rectangular (one_cell column r).
Proof. split; [done|]. by constructor. Qed.

Lemma pairs_rectangular a b flat : rectangular (table [a; b] (pair_rows flat)).
Proof. apply table_rectangular, pair_rows_two. Qed.
Lemma hash_rectangular r : rectangular (buildHashResult r).
Proof. destruct r; first [apply one_cell_rectangular|apply pairs_rectangular|by apply table_rectangular]. Qed.
Lemma zset_rectangular r : rectangular (buildZsetWithScoresResult r).
Proof. destruct r; first [apply pairs_rectangular|by apply table_rectangular|split; [done|by constructor]]. Qed.
Lemma array_rectangular cmdName r : rectangular (buildArrayResult cmdName r).
Proof.
  destruct r; first [apply one_cell_rectangular|by apply table_rectangular|apply map_rectangular|apply (map_rectangular (λ s, s))].
Qed.

(** Whatever the command and the reply, the table built from it has as
    many cells in every row as it has columns, and its row count is the
    number of its rows. *)
Theorem redis_results_are_tables cmdArgs r : rectangular (buildRedisQueryResult cmdArgs r).
Proof.
  destruct cmdArgs as [|name rest]; [apply one_cell_rectangular|]. unfold buildRedisQueryResult.
  destruct (mem _ redisHashCmd); [apply hash_rectangular|].
  destruct (_ && _); [apply zset_rectangular|]. destruct (mem _ redisArrayCmd); [apply array_rectangular|].
  destruct (mem _ redisRawTextCmd); apply one_cell_rectangular.
Qed.
End driver.

(** ** What is checked is what is executed *)

(** The characters of a text. *)
Definition chars (s : string) : list ascii := String.list_ascii_of_string s.
Definition quote (c : ascii) : bool := Ascii.eqb c quote1 || Ascii.eqb c quote2.

Lemma parse_loop_prefix args current sq dq esc cmd out :
  parse_loop args current sq dq esc cmd = Some out → ∃ l, out = args ++ l.
Proof.
  revert args current sq dq esc. induction cmd as [|ch cmd IH]; intros args current sq dq esc; simpl.
  - destruct (sq || dq); [done|]. intros [= <-]. unfold flush. destruct (String.eqb current ""); [exists []|eexists; done].
    by rewrite app_nil_r.
  - destruct esc; [by apply IH|]. destruct (_ && (sq || dq)); [by apply IH|].
    destruct (_ && negb dq); [by apply IH|]. destruct (_ && negb sq); [by apply IH|].
    destruct (_ && negb dq); [|by apply IH]. intros (l & ->)%IH. unfold flush. destruct (String.eqb current ""); [by exists l|]. rewrite <- app_assoc. by eexists.
Qed.

(** A plain token is collected as it stands. *)
Lemma parse_loop_token args current tok rest :
  forallb (λ c, negb (blank c) && negb (quote c)) (chars tok) = true →
  parse_loop args current false false false (tok +:+ rest) = parse_loop args (current +:+ tok) false false false rest.
Proof.
  revert current. induction tok as [|c tok IH]; intros current Hc.
  - by rewrite (right_id_L "" String.append).
  - simpl in Hc. apply andb_prop in Hc as [Hc Htok]. apply andb_prop in Hc as [Hb%negb_true_iff Hq%negb_true_iff].
    unfold quote in Hq. apply orb_false_iff in Hq as [Hq1 Hq2]. rewrite string_app_cons. simpl.
    rewrite andb_false_r, Hq1, Hq2, Hb. simpl. rewrite IH by done. by rewrite <- (assoc_L String.append).
Qed.

Lemma first_token_split s : ∃ rest, s = first_token s +:+ rest ∧
  (rest = "" ∨ ∃ c rest', rest = String c rest' ∧ blank c = true) ∧
  forallb (λ c, negb (blank c)) (chars (first_token s)) = true.
Proof.
  induction s as [|c s IH]; [exists ""; auto|]. simpl. destruct (blank c) eqn:Hc.
  - exists (String c s). split; [done|]. split; [right; eauto|done].
  - destruct IH as (rest & E & Hr & Ht). exists rest. rewrite string_app_cons. split; [by rewrite <- E|].
    split; [done|]. simpl. by rewrite Hc.
Qed.

(** The commands of the list have no quote and no blank, nor has a text
    whose capitals are one of them. *)
Lemma ReadOnly_plain (p : ascii → bool) t :
  (∀ c, p c = true → quote c || blank c = true) →
  IsRedisReadOnlyCommand (ToUpper t) = true → existsb p (chars t) = false.
Proof.
  intros Hp Ht. apply not_true_iff_false. intros Hin.
  assert (Hin' : existsb p (chars (ToUpper t)) = true).
  { apply (ToUpper_keeps p t); [|done]. intros c Hc%Hp. by destruct c as [[] [] [] [] [] [] [] []]. }
  unfold IsRedisReadOnlyCommand in Ht. apply existsb_exists in Ht as (w & Hw & E%String.eqb_eq). rewrite E in Hin'.
  assert (Hall : forallb (λ w, negb (existsb (λ c, quote c || blank c) (chars w))) redisReadOnlyCommands = true) by by vm_compute.
  rewrite forallb_forall in Hall. apply Hall, negb_true_iff in Hw. apply existsb_exists in Hin' as (c & Hc & Hpc).
  apply not_true_iff_false in Hw. apply Hw, existsb_exists. eauto.
Qed.

(** The first argument of a command is the token [isRedisReadOnlyCommand]
    looked at. *)
Lemma parse_first_token cmd args :
  first_token cmd ≠ "" → existsb quote (chars (first_token cmd)) = false →
  parseRedisCommand cmd = Some args → ∃ rest, args = first_token cmd :: rest.
Proof.
  intros Hne Hq. destruct (first_token_split cmd) as (rest & E & Hr & Ht). rewrite E at 1. unfold parseRedisCommand.
  rewrite parse_loop_token.
  - change ("" +:+ first_token cmd) with (first_token cmd). destruct Hr as [->|(c & rest' & -> & Hc)].
    + simpl. unfold flush. destruct (String.eqb_spec (first_token cmd) ""); [done|]. intros [= <-]. by exists [].
    + simpl. rewrite andb_false_r. rewrite Hc.
      destruct (Ascii.eqb c quote1 && true) eqn:E1; [by apply andb_prop in E1 as [->%Ascii.eqb_eq _]|].
      destruct (Ascii.eqb c quote2 && true) eqn:E2; [by apply andb_prop in E2 as [->%Ascii.eqb_eq _]|].
      simpl. intros (l & ->)%parse_loop_prefix. unfold flush. destruct (String.eqb_spec (first_token cmd) ""); [done|]. by exists l.
  - apply forallb_forall. intros c Hc. rewrite forallb_forall in Ht. rewrite (Ht c Hc). apply negb_true_iff.
    destruct (quote c) eqn:Eq; [|done]. rewrite <- Hq. symmetry. apply existsb_exists. eauto.
Qed.

(** A Redis command that passes the read-only check runs as one: when
    [isRedisReadOnlyCommand] accepts a text, the first argument [Query] sends
    to the server for it is, in capitals, one of the commands of the list,
    quotes and escapes notwithstanding. *)
Theorem checked_command_is_sent cmd args
    (Hc : isRedisReadOnlyCommand cmd = true) (Hp : parseRedisCommand (TrimSpace cmd) = Some args) :
  ∃ name rest, args = name :: rest ∧ IsRedisReadOnlyCommand (ToUpper name) = true.
Proof.
  unfold isRedisReadOnlyCommand in Hc. case_bool_decide as Hne; [done|].
  destruct (first_token (TrimSpace cmd)) as [|c t] eqn:Et.
  - apply (ReadOnly_plain blank) in Hc; [|intros c ->; apply orb_true_r].
    destruct (TrimSpace cmd) as [|c s]; [done|]. unfold chars in Hc. simpl in Et, Hc. by destruct (blank c).
  - destruct (parse_first_token (TrimSpace cmd) args) as [rest ->]; rewrite ?Et; [done| |done|by exists (String c t), rest].
    apply (ReadOnly_plain quote); [by intros c' ->|done].
Qed.

(** ** Quoted arguments are read back *)
Fixpoint escape (s : string) : string :=
  match s with
  | EmptyString => ""
  | String c s' =>
      if Ascii.eqb c quote2 || Ascii.eqb c backslash then String backslash (String c (escape s')) else String c (escape s')
  end.
Definition quoted (arg : string) : string := String quote2 (escape arg +:+ String quote2 "").
Fixpoint command_text (args : list string) : string :=
  match args with
  | [] => ""
  | [a] => quoted a
  | a :: args => quoted a +:+ String " " (command_text args)
  end.

Lemma parse_loop_escaped args current a rest :
  parse_loop args current false true false (escape a +:+ String quote2 rest) =
  parse_loop args (current +:+ a) false false false rest.
Proof.
  revert current. induction a as [|c a IH]; intros current.
  - by rewrite (right_id_L "" String.append).
  - assert (E : current +:+ String c a = (current +:+ String c "") +:+ a) by by rewrite <- (assoc_L String.append).
    rewrite E, <- IH. cbn [escape]. destruct (Ascii.eqb c quote2 || Ascii.eqb c backslash) eqn:Ec; rewrite !string_app_cons.
    + done.
    + apply orb_false_iff in Ec as [Eq Eb]. cbn [parse_loop]. rewrite Eq, Eb. cbn [andb orb negb].
      by rewrite !andb_false_r.
Qed.

Lemma parse_loop_quoted args a rest :
  parse_loop args "" false false false (quoted a +:+ rest) = parse_loop args a false false false rest.
Proof.
  unfold quoted. rewrite string_app_cons, <- (assoc_L String.append). change (String quote2 "" +:+ rest) with (String quote2 rest).
  exact (parse_loop_escaped args "" a rest).
Qed.

Lemma parse_command_text args acc :
  parse_loop acc "" false false false (command_text args) = Some (acc ++ filter (λ a, a ≠ "") args).
Proof.
  revert acc. induction args as [|a args IH]; intros acc; [by rewrite app_nil_r|].
  assert (Hflush : ∀ l, flush a acc ++ l = acc ++ (if decide (a ≠ "") then [a] else []) ++ l).
  { intros l. unfold flush. destruct (String.eqb_spec a ""); case_decide; try done. by rewrite <- app_assoc. }
  rewrite filter_cons. destruct args as [|b args].
  - change (command_text [a]) with (quoted a). rewrite <- (right_id_L "" String.append (quoted a)), parse_loop_quoted. simpl.
    rewrite <- (app_nil_r (flush a acc)), Hflush, app_nil_r. by case_decide.
  - change (command_text (a :: b :: args)) with (quoted a +:+ String " " (command_text (b :: args))).
    rewrite parse_loop_quoted. cbn [parse_loop]. change (blank " ") with true. cbn [andb negb orb].
    change (Ascii.eqb " " quote1) with false. change (Ascii.eqb " " quote2) with false. change (Ascii.eqb " " backslash) with false.
    cbn [andb]. rewrite IH, Hflush. by case_decide.
Qed.

(** Arguments written between double quotes, with backslashes before the
    quotes and backslashes in them and spaces between them, are read back by
    [parseRedisCommand] as they were, except that empty arguments are lost. *)
Theorem quoted_arguments_roundtrip args :
  parseRedisCommand (command_text args) = Some (filter (λ a, a ≠ "") args).
Proof. apply (parse_command_text args []). Qed.

(** ** Witnesses and findings *)
Lemma checked_command_is_sent_witness :
  ∃ name rest, ["get"; "a b"] = name :: rest ∧ IsRedisReadOnlyCommand (ToUpper name) = true.
Proof. apply (checked_command_is_sent "get 'a b' "); by vm_compute. Defined.

(** [SET k ''] loses its value, and the server refuses it. *)
Example empty_argument_lost : parseRedisCommand "SET k ''" = Some ["SET"; "k"].
Proof. done. Qed.

(** [Do] answers SCAN with a cursor and the list of keys: the table shows the
    cursor as a key and all keys in one cell, HSCAN the cursor as a field. *)
Definition scan_reply : reply := RArray [RString "0"; RArray [RString "a"; RString "b"]].
Example scan_is_shown_in_two_rows :
  Rows (buildRedisQueryResult (λ _, "") (String.concat ",") ["SCAN"; "0"] scan_reply) = [["0"]; ["a,b"]] ∧
  Rows (buildRedisQueryResult (λ _, "") (String.concat ",") ["HSCAN"; "h"; "0"] scan_reply) = [["0"; "a,b"]].
Proof. done. Qed.
