(* ===== verification/Cache.v ===== *)
(** * The cache of query results

    [src/scheduler/internal/datasource/cache.go].  Results are kept in Redis
    as JSON, under a key of the data source and a hash of the database, the
    statement and the limit; metadata under a key of its own.  The hash is a
    parameter.  [SCAN] with a pattern "prefix*" is a parameter too:
    [ScanLaws] is what the Redis documentation promises of it (a full
    iteration returns every key that is there from its start to its end, and
    ends).  A handler reads the clock once. *)
From S2P Require Import Prelude Redis QueryRegistry Text.
From Stdlib Require Import Ascii.

(** ** [SCAN cursor MATCH prefix* COUNT 100] *)
Class Scan (R : Type) : Type := { SCAN : Z → string → Z → R → list string * Z; max_pages : nat }.

(** A full iteration: the states it saw and the keys it got, from a cursor to
    the cursor 0. *)
Inductive scanned `{Scan R} (now : Z) (prefix : string) : Z → list (R * list string) → Prop :=
| scanned_last c r ks : SCAN now prefix c r = (ks, 0) → scanned now prefix c [(r, ks)]
| scanned_more c r ks c' l : SCAN now prefix c r = (ks, c') → c' ≠ 0 → scanned now prefix c' l →
    scanned now prefix c ((r, ks) :: l).

(** The cursor after [n] calls on the states [f 0], [f 1], ... *)
Fixpoint cursor_at `{Scan R} (now : Z) (prefix : string) (f : nat → R) (n : nat) : Z :=
  match n with
  | O => 0
  | S n => snd (SCAN now prefix (cursor_at now prefix f n) (f n))
  end.

Class ScanLaws (R : Type) `{Redis R, Scan R} : Prop := {
  SCAN_only now prefix c r k : k ∈ (SCAN now prefix c r).1 → String.prefix prefix k = true;
  SCAN_all now prefix l k : scanned now prefix 0 l → String.prefix prefix k = true →
    (∀ r ks, (r, ks) ∈ l → is_Some (live now k r)) → ∃ r ks, (r, ks) ∈ l ∧ k ∈ ks;
  SCAN_ends now prefix f : ∃ n, (n < max_pages)%nat ∧ cursor_at now prefix f (S n) = 0;
}.

(** ** The service *)
Record CacheStats : Type := mkStats { Hits : Z; Misses : Z; Errors : Z; Evictions : Z }.

Record CacheService (R : Type) : Type := mkCache { c_redis : R; runtimeCacheTTL : Z; stats : CacheStats }.
Arguments mkCache {R}.
Arguments c_redis {R}.
Arguments runtimeCacheTTL {R}.
Arguments stats {R}.

Inductive cache_error : Type := ErrCacheGet | ErrCacheUnmarshal | ErrCacheMarshal | ErrCacheSet | ErrCacheScan | ErrCacheDelete.

#[export] Instance cache_error_eq_dec : EqDecision cache_error.
Proof. solve_decision. Defined.

Section cache.
Context {V R : Type} `{Redis R} `{QueryCodec V} `{Scan R}.
Context (md5_hex : string → string).
Notation cache := (CacheService R).

Definition set_stats (f : CacheStats → CacheStats) (s : cache) : cache := mkCache (c_redis s) (runtimeCacheTTL s) (f (stats s)).
Definition on_redis {A} (op : R → A * R) (s : cache) : A * cache :=
  let '(a, r) := op (c_redis s) in (a, mkCache r (runtimeCacheTTL s) (stats s)).

Definition hit (c : CacheStats) : CacheStats := mkStats (Hits c + 1) (Misses c) (Errors c) (Evictions c).
Definition missed (c : CacheStats) : CacheStats := mkStats (Hits c) (Misses c + 1) (Errors c) (Evictions c).
Definition erred (c : CacheStats) : CacheStats := mkStats (Hits c) (Misses c) (Errors c + 1) (Evictions c).
Definition evicted (n : Z) (c : CacheStats) : CacheStats := mkStats (Hits c) (Misses c) (Errors c) (Evictions c + n).

(** [refreshRuntimeConfig], [OnConfigChanged] *)
Definition refreshRuntimeConfig (GetInt : string → Z) (s : cache) : cache :=
  mkCache (c_redis s) (GetInt "datasource.cache_ttl") (stats s).
Definition OnConfigChanged (GetInt : string → Z) (key : string) (s : cache) : cache :=
  if bool_decide (key = "datasource.cache_ttl") || bool_decide (key = "datasource.cache_max_size")
  then refreshRuntimeConfig GetInt s else s.

Definition query_prefix (datasourceID : Z) : string := "datasource:query:cache:" +:+ fmt_d datasourceID +:+ ":".
Definition buildKey (datasourceID : Z) (database sql : string) (limit : Z) : string :=
  query_prefix datasourceID +:+ md5_hex (database +:+ ":" +:+ sql +:+ ":" +:+ fmt_d limit).

Definition read_key (now : Z) (key : string) : M cache get_reply :=
  o ← call (on_redis (λ r, (get_value (GET now key r), r)));
  mret (default GetErr o).

(** The result, with [hit = false] for [None]. *)
Definition Get (now datasourceID : Z) (database sql : string) (limit : Z) :
    M cache (result cache_error (option (QueryResult V))) :=
  ttl ← gets runtimeCacheTTL;
  if ttl <=? 0 then mret (Ok None)
  else
    g ← read_key now (buildKey datasourceID database sql limit);
    match g with
    | GetNil => _ ← modify (set_stats missed); mret (Ok None)
    | GetErr => _ ← modify (set_stats erred); mret (Err ErrCacheGet)
    | GetVal data =>
        match unmarshal_result data with
        | None => _ ← modify (set_stats erred); mret (Err ErrCacheUnmarshal)
        | Some r => _ ← modify (set_stats hit); mret (Ok (Some r))
        end
    end.

Definition store (now : Z) (key data : string) (ttl : Z) : M cache (result cache_error unit) :=
  o ← call (on_redis (λ r, (tt, SET now key (VStr data) (ttl * Second) r)));
  mret (match o with Some _ => Ok tt | None => Err ErrCacheSet end).

Definition Set_ (now datasourceID : Z) (database sql : string) (limit : Z) (r : QueryResult V) :
    M cache (result cache_error unit) :=
  ttl ← gets runtimeCacheTTL;
  if ttl <=? 0 then mret (Ok tt)
  else match marshal_result r with
       | None => mret (Err ErrCacheMarshal)
       | Some data => store now (buildKey datasourceID database sql limit) data ttl
       end.

(** The loop of [Invalidate] and [InvalidateMetadata]: scan a page, delete its
    keys, go on from the next cursor; the number of keys.  [None] is fuel that
    ran out. *)
Definition DEL_all (keys : list string) (r : R) : R := foldl (λ r k, DEL k r) r keys.
Fixpoint invalidate_loop (fuel : nat) (now : Z) (prefix : string) (cursor count : Z) :
    M cache (option (result cache_error Z)) :=
  match fuel with
  | O => mret None
  | S fuel =>
      p ← call (on_redis (λ r, (SCAN now prefix cursor r, r)));
      match p with
      | None => mret (Some (Err ErrCacheScan))
      | Some (keys, nextCursor) =>
          d ← (if bool_decide (keys = []) then mret (Some tt)
               else call (on_redis (λ r, (tt, DEL_all keys r))));
          match d with
          | None => mret (Some (Err ErrCacheDelete))
          | Some _ =>
              let count := count + Z.of_nat (length keys) in
              if nextCursor =? 0 then mret (Some (Ok count))
              else invalidate_loop fuel now prefix nextCursor count
          end
      end
  end.

Definition invalidate_prefix (now : Z) (prefix : string) : M cache (option (result cache_error Z)) :=
  invalidate_loop max_pages now prefix 0 0.

Definition Invalidate (now datasourceID : Z) : M cache (option (result cache_error unit)) :=
  o ← invalidate_prefix now (query_prefix datasourceID);
  match o with
  | None => mret None
  | Some (Err e) => mret (Some (Err e))
  | Some (Ok count) =>
      _ ← (if 0 <? count then modify (set_stats (evicted count)) else mret tt);
      mret (Some (Ok tt))
  end.

(** The database is used for the log only: every key found is a target. *)
Definition InvalidateByDatabase (now datasourceID : Z) (database : string) : M cache (option (result cache_error unit)) :=
  Invalidate now datasourceID.

Definition metadata_prefix (datasourceID : Z) : string := "datasource:metadata:cache:" +:+ fmt_d datasourceID +:+ ":".
Definition metadata_key (datasourceID : Z) (level key : string) : string :=
  metadata_prefix datasourceID +:+ level +:+ ":" +:+ key.

Definition GetMetadata (now datasourceID : Z) (level key : string) : M cache (result cache_error (option string)) :=
  ttl ← gets runtimeCacheTTL;
  if ttl <=? 0 then mret (Ok None)
  else
    g ← read_key now (metadata_key datasourceID level key);
    mret (match g with GetNil => Ok None | GetErr => Err ErrCacheGet | GetVal data => Ok (Some data) end).

Definition SetMetadata (now datasourceID : Z) (level key data : string) : M cache (result cache_error unit) :=
  ttl ← gets runtimeCacheTTL;
  if ttl <=? 0 then mret (Ok tt) else store now (metadata_key datasourceID level key) data ttl.

Definition InvalidateMetadata (now datasourceID : Z) : M cache (option (result cache_error unit)) :=
  o ← invalidate_prefix now (metadata_prefix datasourceID);
  mret (match o with Some (Ok _) => Some (Ok tt) | Some (Err e) => Some (Err e) | None => None end).

Definition GetStats (s : cache) : CacheStats := stats s.
Definition ResetStats (s : cache) : cache := set_stats (λ _, mkStats 0 0 0 0) s.
End cache.

(** ** Keys *)
Lemma all_digits_no (c : ascii) ds : is_digit c = false → all_digits ds = true → existsb (Ascii.eqb c) (String.list_ascii_of_string ds) = false.
Proof.
  unfold all_digits. intros Hc. induction ds as [|d ds IH]; simpl; [done|]. intros [Hd Hds]%andb_prop.
  destruct (Ascii.eqb_spec c d) as [->|]; [congruence|]. by apply IH.
Qed.

(** Two numbers followed by a colon are equal when one text begins the other. *)
Lemma before_colon a b x y :
  existsb (Ascii.eqb ":") (String.list_ascii_of_string a) = false →
  existsb (Ascii.eqb ":") (String.list_ascii_of_string b) = false →
  a +:+ String ":" x = b +:+ String ":" y → a = b.
Proof.
  revert b. induction a as [|c a IH]; intros [|d b] Ha Hb E; cbn [existsb String.list_ascii_of_string] in *; try done.
  - apply (f_equal String.list_ascii_of_string) in E. simpl in E. injection E as <- _. by rewrite Ascii.eqb_refl in Hb.
  - apply (f_equal String.list_ascii_of_string) in E. simpl in E. injection E as -> _. by rewrite Ascii.eqb_refl in Ha.
  - rewrite !string_app_cons in E. injection E as -> E. apply orb_false_iff in Ha as [_ Ha]. apply orb_false_iff in Hb as [_ Hb].
    f_equal. by apply IH.
Qed.

Lemma fmt_d_no_colon n : existsb (Ascii.eqb ":") (String.list_ascii_of_string (fmt_d n)) = false.
Proof.
  destruct (decide (n = 0)) as [->|Hn0]; [done|]. destruct (decide (0 < n)) as [Hn|Hn].
  - apply all_digits_no; [done|]. by apply fmt_d_digits.
  - destruct n as [|p|p]; [done|lia|]. change (fmt_d (Z.neg p)) with (String "-" (fmt_d (Z.pos p))).
    cbn [existsb String.list_ascii_of_string]. apply (all_digits_no ":"); [done|]. by apply fmt_d_digits.
Qed.

Lemma app_prefix_inj (p a b : string) : p +:+ a = p +:+ b → a = b.
Proof. apply (inj (String.append p)). Qed.

(** A key of one data source does not begin with the prefix of another. *)
Lemma query_prefix_inj a b x : String.prefix (query_prefix a) (query_prefix b +:+ x) = true → a = b.
Proof.
  intros (t & E)%prefix_exists. unfold query_prefix in E. rewrite <- !(assoc_L String.append) in E.
  apply app_prefix_inj in E. apply before_colon in E; [|apply fmt_d_no_colon..]. by apply fmt_d_inj.
Qed.

Section theorems.
Context {V R : Type} `{RedisLaws R} `{QueryCodecLaws V} `{!Scan R} `{!ScanLaws R}.
Context (md5_hex : string → string).
Notation cache := (CacheService R).
Implicit Types s : cache.

Definition at_redis (r : R) s : cache := mkCache r (runtimeCacheTTL s) (stats s).

Lemma DEL_all_entry ks r k : entry (DEL_all ks r) k = if decide (k ∈ ks) then None else entry r k.
Proof.
  unfold DEL_all. revert r. induction ks as [|x ks IH]; intros r; [done|]. cbn [foldl]. rewrite IH, DEL_spec.
  repeat case_decide; set_solver.
Qed.

(** One round of the loop, on Redis and the cursor. *)
Definition round (now : Z) (prefix : string) (rc : R * Z) : R * Z :=
  let '(ks, c') := SCAN now prefix rc.2 rc.1 in (DEL_all ks rc.1, c').

Lemma cursor_at_round now prefix r n :
  cursor_at now prefix (λ n, (Nat.iter n (round now prefix) (r, 0)).1) n = (Nat.iter n (round now prefix) (r, 0)).2.
Proof.
  induction n as [|n IH]; [done|]. cbn [cursor_at]. rewrite IH. cbn [Nat.iter nat_rect]. change (nat_rect _ _ _ n) with (Nat.iter n (round now prefix) (r, 0)).
  unfold round at 3. by destruct (SCAN now prefix _ _).
Qed.

(** Only the keys returned disappear. *)
Definition cleared (prefix : string) (now : Z) (l : list (R * list string)) (r' : R) : Prop :=
  ∀ k, is_Some (live now k r') → ∀ r ks, (r, ks) ∈ l → is_Some (live now k r) ∧ k ∉ ks.

Lemma live_DEL_all now ks r k : is_Some (live now k (DEL_all ks r)) → is_Some (live now k r) ∧ k ∉ ks.
Proof. unfold live. rewrite DEL_all_entry. case_decide; [by intros []|done]. Qed.

Lemma invalidate_step now prefix fuel r c count s :
  invalidate_loop (S fuel) now prefix c count (at_redis r s) [] =
  let '(ks, c') := SCAN now prefix c r in
  let count := count + Z.of_nat (length ks) in
  (if c' =? 0 then mret (Some (Ok count)) else invalidate_loop fuel now prefix c' count) (at_redis (DEL_all ks r) s) [].
Proof.
  cbn [invalidate_loop]. unfold mbind, M_bind, call, on_redis, at_redis. simpl.
  destruct (SCAN now prefix c r) as [ks c']. simpl. case_bool_decide; [by subst ks|done].
Qed.

Lemma invalidate_loop_run now prefix fuel r c count s :
  (∃ n, (n < fuel)%nat ∧ (Nat.iter (S n) (round now prefix) (r, c)).2 = 0) →
  ∃ l r' n, invalidate_loop fuel now prefix c count (at_redis r s) [] = (Some (Ok n), (at_redis r' s, [])) ∧
    scanned now prefix c l ∧ cleared prefix now l r' ∧ (∀ k, is_Some (live now k r') → is_Some (live now k r)) ∧
    (∀ k, String.prefix prefix k = false → entry r' k = entry r k).
Proof.
  revert r c count. induction fuel as [|fuel IH]; intros r c count (n & Hn & Hend); [lia|].
  rewrite Nat.iter_succ_r in Hend. rewrite invalidate_step.
  pose proof (SCAN_only now prefix c r) as Honly. destruct (SCAN now prefix c r) as [ks c'] eqn:Es.
  assert (Eround : round now prefix (r, c) = (DEL_all ks r, c')) by (unfold round; simpl; by rewrite Es).
  assert (Hframe : ∀ k, String.prefix prefix k = false → entry (DEL_all ks r) k = entry r k).
  { intros k Hk. rewrite DEL_all_entry. case_decide as Hin; [|done]. apply Honly in Hin. congruence. }
  destruct (Z.eqb_spec c' 0) as [->|Hc'].
  - exists [(r, ks)], (DEL_all ks r), (count + Z.of_nat (length ks)). split; [done|]. split; [by apply scanned_last|].
    split; [|split; [by intros k [Hk _]%live_DEL_all|done]].
    intros k Hk r0 ks0 [= -> ->]%list_elem_of_singleton. by apply live_DEL_all in Hk.
  - destruct (IH (DEL_all ks r) c' (count + Z.of_nat (length ks))) as (l & r' & m & Er & Hs & Hcl & Hlive & Hfr).
    { rewrite Eround in Hend. destruct n as [|n]; [done|]. exists n. split; [lia|done]. }
    exists ((r, ks) :: l), r', m. split; [done|]. split; [by eapply scanned_more|]. split; [|split].
    + intros k Hk r0 ks0 [[= -> ->]|Hin]%elem_of_cons; [by apply live_DEL_all, Hlive|by eapply Hcl].
    + intros k Hk. by apply Hlive, live_DEL_all in Hk as [Hk _].
    + intros k Hk. rewrite Hfr by done. by apply Hframe.
Qed.

Lemma invalidate_prefix_run now prefix s :
  ∃ r' n, invalidate_prefix now prefix s [] = (Some (Ok n), (at_redis r' s, [])) ∧
    (∀ k, String.prefix prefix k = true → live now k r' = None) ∧
    (∀ k, String.prefix prefix k = false → entry r' k = entry (c_redis s) k).
Proof.
  assert (Es : s = at_redis (c_redis s) s) by by destruct s.
  destruct (invalidate_loop_run now prefix max_pages (c_redis s) 0 0 s) as (l & r' & n & Er & Hs & Hcl & _ & Hfr).
  { destruct (SCAN_ends now prefix (λ n, (Nat.iter n (round now prefix) (c_redis s, 0)).1)) as (n & Hn & E).
    exists n. split; [done|]. by rewrite cursor_at_round in E. }
  exists r', n. unfold invalidate_prefix. rewrite Es at 1. split; [done|]. split; [|done].
  intros k Hk. destruct (live now k r') as [e|] eqn:El; [|done]. exfalso.
  assert (Hsome : is_Some (live now k r')) by by rewrite El.
  destruct (SCAN_all now prefix l k Hs Hk) as (r & ks & Hin & Hk'); [|by apply (Hcl k Hsome r ks Hin)].
  intros r ks Hin. by apply (Hcl k Hsome r ks Hin).
Qed.

(** When Redis answers, [Invalidate] ends without error, no query result
    of the data source can be read any more, and nothing else in Redis has
    changed: no result of another data source, no permit, no session. *)
Theorem Invalidate_clears now datasourceID s :
  ∃ s', run (Invalidate now datasourceID) s [] = (Some (Ok tt), s') ∧
    (∀ database sql limit, live now (buildKey md5_hex datasourceID database sql limit) (c_redis s') = None) ∧
    (∀ k, String.prefix (query_prefix datasourceID) k = false → entry (c_redis s') k = entry (c_redis s) k) ∧
    (∀ other database sql limit, other ≠ datasourceID →
       entry (c_redis s') (buildKey md5_hex other database sql limit) = entry (c_redis s) (buildKey md5_hex other database sql limit)).
Proof.
  destruct (invalidate_prefix_run now (query_prefix datasourceID) s) as (r' & n & E & Hgone & Hkept).
  assert (Hr : ∃ s', run (Invalidate now datasourceID) s [] = (Some (Ok tt), s') ∧ c_redis s' = r').
  { unfold run, Invalidate, mbind at 1, M_bind at 1. rewrite E. destruct (0 <? n); by eexists. }
  destruct Hr as (s' & -> & <-). exists s'. split; [done|]. split; [|split; [done|]].
  - intros database sql limit. apply Hgone, prefix_app.
  - intros other database sql limit Hne. apply Hkept. apply not_true_iff_false. intros Hp.
    by apply query_prefix_inj in Hp.
Qed.

(** A result stored with [Set_] is the one [Get] returns for the same
    data source, database, statement and limit until the TTL is over, as
    JSON writes it; the hit is counted. *)
Theorem Set_Get now later datasourceID database sql limit (r : QueryResult V) data s
    (Httl : 0 < runtimeCacheTTL s) (Hr : marshal_result r = Some data)
    (Hlater : now ≤ later < now + runtimeCacheTTL s * Second) :
  let s1 := (run (Set_ md5_hex now datasourceID database sql limit r) s []).2 in
  run (Get md5_hex later datasourceID database sql limit) s1 [] = (Ok (Some (json_result r)), set_stats hit s1).
Proof.
  unfold run, Set_, Get, mbind, M_bind, gets, store, read_key, call, on_redis, modify, mret, M_ret. simpl.
  rewrite (proj2 (Z.leb_gt (runtimeCacheTTL s) 0)), Hr by done. simpl.
  rewrite (proj2 (Z.leb_gt (runtimeCacheTTL s) 0)) by done. simpl.
  rewrite GET_spec, live_SET_eq. unfold deadline. rewrite (proj2 (Z.ltb_lt 0 _)) by (unfold Second in *; lia). simpl.
  rewrite (proj2 (Z.leb_gt (now + runtimeCacheTTL s * Second) later)) by lia. simpl.
  by rewrite (result_roundtrip r data).
Qed.
End theorems.

(** ** Witnesses: a server that answers a scan in one page *)
#[export] Instance gmap_scan : Scan gmap_store := {
  SCAN now prefix _ r := (filter (λ k, String.prefix prefix k = true) (map fst (map_to_list (r : gmap string _))), 0);
  max_pages := 1;
}.

#[export] Instance gmap_scan_laws : ScanLaws gmap_store.
Proof.
  constructor.
  - intros now prefix c r k. simpl. by intros [Hk _]%list_elem_of_filter.
  - intros now prefix l k Hl Hk Hlive. inversion Hl as [c r ks Hs|c r ks c' l' Hs Hc' _]; subst; [|by injection Hs as _ <-].
    exists r, ks. split; [set_solver|]. injection Hs as <-. apply list_elem_of_filter. split; [done|].
    destruct (Hlive r _ ltac:(by left)) as [e He]. unfold live in He. simpl in He.
    destruct ((r : gmap string _) !! k) as [[v d]|] eqn:E; [|done].
    apply list_elem_of_fmap. exists (k, (v, d)). split; [done|]. by apply elem_of_map_to_list.
  - intros now prefix f. exists 0%nat. simpl. split; [lia|done].
Qed.

Definition demo_cache : CacheService gmap_store := mkCache ∅ 60 (mkStats 0 0 0 0).
Definition demo_row : QueryResult Z := mkResult ["n"] [[1]] 1.

Lemma Set_Get_witness :
  let s1 := (run (Set_ (λ s, s) 0 1 "db" "SELECT 1" 1000 demo_row) demo_cache []).2 in
  run (Get (λ s, s) Second 1 "db" "SELECT 1" 1000) s1 [] = (Ok (Some (json_result demo_row)), set_stats hit s1).
Proof.
  eapply (Set_Get (λ s, s) 0 Second 1 "db" "SELECT 1" 1000 demo_row); [simpl; lia|reflexivity|].
  unfold Second. simpl. lia.
Defined.

Definition filled_cache : CacheService gmap_store :=
  (run (Set_ (λ s, s) 0 1 "db" "SELECT 1" 1000 demo_row) demo_cache []).2.

Lemma Invalidate_clears_witness :
  is_Some (live 0 (buildKey (λ s, s) 1 "db" "SELECT 1" 1000) (c_redis filled_cache)) ∧
  ∃ s', run (Invalidate 0 1) filled_cache [] = (Some (Ok tt), s') ∧
    live 0 (buildKey (λ s, s) 1 "db" "SELECT 1" 1000) (c_redis s') = None.
Proof.
  split; [by eexists|]. destruct (Invalidate_clears (V := Z) (λ s, s) 0 1 filled_cache) as (s' & E & Hk & _).
  exists s'. split; [exact E|]. apply Hk.
Defined.

(** ** Two different requests with one key *)

(** The parts of the hashed text are separated by a colon they may contain. *)
Example key_of_two_requests md5_hex :
  buildKey md5_hex 1 "a" "SELECT 1:SELECT 2" 10 = buildKey md5_hex 1 "a:SELECT 1" "SELECT 2" 10.
Proof. done. Qed.

(** [InvalidateByDatabase] removes the results of every database. *)
Example invalidate_by_database_clears_all :
  let s1 := (run (Set_ (λ s, s) 0 1 "db" "SELECT 1" 1000 demo_row) demo_cache []).2 in
  let s2 := (run (InvalidateByDatabase 0 1 "other") s1 []).2 in
  is_Some (live 0 (buildKey (λ s, s) 1 "db" "SELECT 1" 1000) (c_redis s1)) ∧
  live 0 (buildKey (λ s, s) 1 "db" "SELECT 1" 1000) (c_redis s2) = None.
Proof. split; [by eexists|by vm_compute]. Qed.
