(* ===== verification/Query.v ===== *)
(** * The query handlers

    [src/scheduler/internal/handler/query.go]: executing a statement on a
    data source, its result and its cancellation, and the export.  The
    registry is any instance of [queryRegistry]: the theorems use
    [queryRegistryLaws] only.

    A goroutine started by [Execute] is an entry of [spawned]; it runs in two
    steps, [start_query] up to the call of the data source and [finish_query]
    from its return, so that other calls come between them.  [source] stands
    for the data source: whether a call of it panics, whether [GetDriver] finds a driver, what each attempt
    of the statement returns, what becomes of the context while [WithRetry]
    waits and at the end, and how long it took.  A context is a number; it is
    cancelled when the registry called its [CancelFunc].  The identifier of a
    query and the clock are arguments; settings are the function [GetInt]. *)
From S2P Require Import Prelude Redis Sql Permission Access DatasourceService Concurrent SqlText Cache QueryRegistry.

(** ** Requests and answers *)
Record execute_request : Type := mkExecute { r_DatasourceID : Z; r_SQL : string; r_Database : string }.

Definition CodeDatasourceNotFound : Z := 16001.
Definition CodeQueryError : Z := 17001.
Definition CodeConcurrentLimit : Z := 17002.
Definition CodeQueryNoDatasource : Z := 17003.
Definition CodeQueryDisabled : Z := 17004.
Definition CodeQueryConnectFailed : Z := 17005.

Inductive response (V : Type) : Type :=
| BadRequest
| NotFound (message : string)
| Fail (code : Z) (message : string)
| Pending (queryID : string)
| Cached (queryID : string) (r : QueryResult V)
| Status (queryID : string) (status : QueryStatus)
| Result_ (queryID : string) (status : QueryStatus) (r : QueryResult V) (execTime : Z) (fromCache : bool)
| Error_ (queryID : string) (status : QueryStatus) (error : string) (execTime : Z)
| Success
| CSV (records : list (list string)).
Arguments BadRequest {V}.
Arguments NotFound {V}.
Arguments Fail {V}.
Arguments Pending {V}.
Arguments Cached {V}.
Arguments Status {V}.
Arguments Result_ {V}.
Arguments Error_ {V}.
Arguments Success {V}.
Arguments CSV {V}.

(** The arguments of [executeQuerySafe]. *)
Record job : Type := mkJob {
  j_ctx : nat; j_queryID : string; j_ds : Datasource; j_req : execute_request; j_uid : Z; j_domainID : Z; j_limit : Z;
}.

Inductive ctx_end : Type := CtxFine | CtxDeadline.

#[export] Instance ctx_end_eq_dec : EqDecision ctx_end.
Proof. solve_decision. Defined.

Record source (V : Type) : Type := mkSource {
  panics : option string;
  has_driver : bool;
  attempt : nat → string → string → SqlText.go_error + option (QueryResult V);
  waiting : nat → option string;
  at_end : ctx_end;
  took : Z;
}.
Arguments mkSource {V}.
Arguments panics {V}.
Arguments has_driver {V}.
Arguments attempt {V}.
Arguments waiting {V}.
Arguments at_end {V}.
Arguments took {V}.

Record env (S R : Type) : Type := mkEnv {
  e_reg : S; e_cache : CacheService R; e_limits : limits; e_db : ddb; spawned : list job; next_ctx : nat;
}.
Arguments mkEnv {S R}.
Arguments e_reg {S R}.
Arguments e_cache {S R}.
Arguments e_limits {S R}.
Arguments e_db {S R}.
Arguments spawned {S R}.
Arguments next_ctx {S R}.

Section handlers.
Context {V S R : Type} `{HR : queryRegistry V S} `{HV : !QueryView V S} `{Redis R} `{QueryCodec V}.
Context (md5_hex : string → string) (GetInt : string → Z) (text : Z → string) (seconds : Z → string).
Notation env := (env S R).
Implicit Types e : env.

(** ** The parts of the state *)
Definition on_reg {A} (m : M S A) : M env A :=
  zoom e_reg (λ s e, mkEnv s (e_cache e) (e_limits e) (e_db e) (spawned e) (next_ctx e)) m.
Definition on_cache {A} (m : M (CacheService R) A) : M env A :=
  zoom e_cache (λ c e, mkEnv (e_reg e) c (e_limits e) (e_db e) (spawned e) (next_ctx e)) m.
(** The limiter's counters are in the same Redis as the cache. *)
Definition on_limiter {A} (m : limits → M R A) : M env A := λ e fs,
  zoom (λ e, c_redis (e_cache e))
    (λ r e, mkEnv (e_reg e) (mkCache r (runtimeCacheTTL (e_cache e)) (stats (e_cache e))) (e_limits e) (e_db e)
              (spawned e) (next_ctx e))
    (m (e_limits e)) e fs.
Definition on_db {A} (m : M ddb A) : M env A :=
  zoom e_db (λ d e, mkEnv (e_reg e) (e_cache e) (e_limits e) d (spawned e) (next_ctx e)) m.

(** [context.WithTimeout] *)
Definition new_context : M env nat := λ e fs,
  (next_ctx e, (mkEnv (e_reg e) (e_cache e) (e_limits e) (e_db e) (spawned e) (Datatypes.S (next_ctx e)), fs)).
(** The [go] statement *)
Definition go (j : job) : M env unit :=
  modify (λ e, mkEnv (e_reg e) (e_cache e) (e_limits e) (e_db e) (spawned e ++ [j]) (next_ctx e)).

Definition at_least (n default : Z) : Z := if n <=? 0 then default else n.
Definition default_limit : Z := at_least (GetInt "datasource.default_limit") 1000.

Definition limit_message (e : acquire_error) : response V :=
  match e with
  | ErrDatasourceConcurrentLimit => Fail CodeConcurrentLimit "该数据源并发查询数已达上限，请稍后重试"
  | ErrConcurrentLimit => Fail CodeConcurrentLimit "并发查询数量已达上限，请稍后重试"
  | ErrConcurrentCheck => Fail CodeQueryError "并发检查失败，请稍后重试"
  end.

(** [Execute] from the registration on: the permit is released when the
    handler returns. *)
Definition submit (now : Z) (queryID : string) (req : execute_request) (uid domainID : Z) (ds : Datasource)
    (limit : Z) (p : permit) : M env (response V) :=
  ctx ← new_context;
  _ ← on_reg (Register now (mkQuery queryID (r_DatasourceID req) (r_Database req) (r_SQL req) uid QueryStatusPending None ""
                              0 None false (Some ctx) 0));
  _ ← go (mkJob ctx queryID ds req uid domainID limit);
  _ ← on_limiter (λ _, release now p);
  mret (Pending queryID).

Definition Execute (now : Z) (queryID : string) (req : execute_request) (uid domainID : Z) : M env (response V) :=
  if (r_DatasourceID req =? 0) || bool_decide (r_SQL req = "") then mret BadRequest
  else
    let maxSQLLength := GetInt "datasource.max_sql_length" in
    if (0 <? maxSQLLength) && (maxSQLLength <? Z.of_nat (String.length (r_SQL req)))
    then mret (Fail CodeQueryNoDatasource "SQL语句超过最大长度限制")
    else
      d ← on_db (GetByID (r_DatasourceID req));
      match d with
      | Err _ => mret (NotFound "数据源不存在")
      | Ok ds =>
          if negb (IsEnabled ds) then mret (Fail CodeQueryDisabled "数据源已被禁用，无法执行查询")
          else if negb (isSelectOnly (r_SQL req) (AllowWriteSQL ds) (Type_ ds))
          then mret (Fail CodeQueryConnectFailed "仅允许执行SELECT查询，DML/DDL操作需要数据源管理员启用写入权限")
          else
            c ← on_cache (Cache.Get (V := V) md5_hex now (r_DatasourceID req) (r_Database req) (r_SQL req) default_limit);
            match c with
            | Ok (Some r) => mret (Cached queryID r)
            | _ =>
                a ← on_limiter (λ l, AcquireForDatasource l now uid (r_DatasourceID req));
                match a with
                | Err err => mret (limit_message err)
                | Ok p => submit now queryID req uid domainID ds default_limit p
                end
            end
      end.

(** ** [executeQuery] *)
Definition querySQL (j : job) : string := ApplyLimitToSQL (r_SQL (j_req j)) (at_least (j_limit j) 1000) (Type_ (j_ds j)).

Definition start_query (now : Z) (j : job) : M env unit := on_reg (SetRunning (V := V) now (j_queryID j)).

(** [fn] of [WithRetry] *)
Definition attempts (s : source V) (j : job) : nat → result go_error (option (QueryResult V)) := λ n,
  match attempt s n (querySQL j) (r_Database (j_req j)) with inl err => Err err | inr r => Ok r end.
Definition answered (s : source V) (j : job) : result go_error (option (QueryResult V)) :=
  answer (WithRetry (attempts s j) (waiting s) (Type_ (j_ds j)) DefaultRetryConfig).

Definition history (j : job) (execTime : Z) (rows : Z) (status message : string) : QueryHistory :=
  mkHistory 0 (j_queryID j) (Some (ds_ID (j_ds j))) (ds_Name (j_ds j)) (r_SQL (j_req j)) (r_Database (j_req j))
    (seconds execTime) rows status message (Some (j_uid j)) (j_domainID j) "".

(** [ctx.Err() == context.Canceled] *)
Definition ctx_canceled (s : source V) (j : job) (reg : S) : bool :=
  match at_end s with CtxDeadline => false | CtxFine => bool_decide (j_ctx j ∈ contexts reg) end.

Definition record (now : Z) (h : QueryHistory) : M env unit := _ ← on_db (RecordQueryHistory text now h); mret tt.

Definition finish_query (now : Z) (s : source V) (j : job) : M env unit :=
  if negb (has_driver s) then on_reg (UpdateError (V := V) now (j_queryID j) "连接数据源失败，请检查数据源配置" 0)
  else
    let execTime := took s in
    reg ← gets e_reg;
    if ctx_canceled s j reg
    then
      _ ← record now (history j execTime 0 "cancelled" "查询已被用户取消");
      on_reg (UpdateError (V := V) now (j_queryID j) "查询已被用户取消" execTime)
    else
      match answered s j with
      | Err err =>
          _ ← record now (history j execTime 0 "failed" (error_text err));
          on_reg (UpdateError (V := V) now (j_queryID j) (error_text err) execTime)
      | Ok None =>
          _ ← record now (history j execTime 0 "failed" "查询返回空结果");
          on_reg (UpdateError (V := V) now (j_queryID j) "查询返回空结果，请检查SQL语句或数据源连接" execTime)
      | Ok (Some r) =>
          _ ← record now (history j execTime (QueryRegistry.RowCount r) "success" "");
          _ ← on_cache (Set_ md5_hex now (r_DatasourceID (j_req j)) (r_Database (j_req j)) (r_SQL (j_req j))
                          (at_least (j_limit j) 1000) r);
          on_reg (UpdateResult now (j_queryID j) (Some r) execTime)
      end.

(** [executeQuerySafe]: the deferred [recover]. *)
Definition finish_query_safe (now : Z) (s : source V) (j : job) : M env unit :=
  match panics s with
  | Some r => on_reg (UpdateError (V := V) now (j_queryID j) ("查询执行异常: " +:+ r) 0)
  | None => finish_query now s j
  end.

Definition executeQuerySafe (started ended : Z) (s : source V) (j : job) : M env unit :=
  _ ← start_query started j; finish_query_safe ended s j.

(** ** [GetResult] and [Cancel] *)
Definition GetResult (now : Z) (queryID : string) : M env (response V) :=
  if bool_decide (queryID = "") then mret BadRequest
  else
    o ← on_reg (QueryRegistry.Get now queryID);
    mret match o with
         | None => NotFound "查询不存在或已过期"
         | Some q =>
             if bool_decide (q_Status q = QueryStatusCompleted)
             then Result_ (QueryRegistry.QueryID q) (q_Status q) (default (mkResult [] [] 0) (Result q)) (q_ExecutionTime q) (FromCache q)
             else if bool_decide (q_Status q = QueryStatusFailed) || bool_decide (q_Status q = QueryStatusCancelled)
             then Error_ (QueryRegistry.QueryID q) (q_Status q) (q_Error q) (q_ExecutionTime q)
             else Status (QueryRegistry.QueryID q) (q_Status q)
         end.

Definition Cancel (now : Z) (queryID : string) : M env (response V) :=
  if bool_decide (queryID = "") then mret BadRequest
  else
    b ← on_reg (QueryRegistry.Cancel (V := V) now queryID);
    if (b : bool) then mret Success
    else
      o ← on_reg (QueryRegistry.Get (V := V) now queryID);
      mret match o with
           | None => Fail CodeQueryError "查询不存在或已过期"
           | Some q =>
               if bool_decide (q_Status q = QueryStatusCompleted) then Fail CodeQueryError "查询已完成，无法取消"
               else if bool_decide (q_Status q = QueryStatusFailed) then Fail CodeQueryError "查询已失败，无需取消"
               else if bool_decide (q_Status q = QueryStatusCancelled) then Fail CodeQueryError "查询已取消"
               else Fail CodeQueryError "取消查询失败"
           end.

(** ** [ExportCSV]

    [cell] is [%v] of a value, "" for nil; the body is the records written,
    after the byte order mark. *)
Definition export_limit (MaxRows : Z) : Z :=
  let maxExportRows := at_least (GetInt "datasource.max_export_rows") 1000 in
  if (0 <? MaxRows) && (MaxRows <? maxExportRows) then MaxRows else maxExportRows.

Definition ExportCSV (cell : V → string) (req : execute_request) (MaxRows : Z) (s : source V) : M env (response V) :=
  if (r_DatasourceID req =? 0) || bool_decide (r_SQL req = "") then mret BadRequest
  else
    d ← on_db (GetByID (r_DatasourceID req));
    mret match d with
         | Err _ => NotFound "数据源不存在"
         | Ok ds =>
             if negb (isSelectOnly (r_SQL req) (AllowWriteSQL ds) (Type_ ds))
             then Fail CodeQueryConnectFailed "仅允许执行SELECT查询，DML/DDL操作需要数据源管理员启用写入权限"
             else if negb (has_driver s) then Fail CodeDatasourceNotFound "连接数据源失败，请检查数据源配置"
             else
               match attempt s 0 (ApplyLimitToSQL (r_SQL req) (export_limit MaxRows) (Type_ ds)) (r_Database req) with
               | inl err => Fail CodeQueryError ("查询执行失败: " +:+ error_text err)
               | inr None => Fail CodeQueryError "查询返回空结果，请检查SQL语句或数据源连接"
               | inr (Some r) => CSV (Columns r :: map (map cell) (Rows r))
               end
         end.
End handlers.

(** ** Theorems *)
Section parts.
Context {S T : Type} (get : S → T) (put : T → S → S).
Hypothesis get_put : ∀ t s, get (put t s) = t.

(** What a part's handler establishes, seen from the whole. *)
Lemma triple_zoom {A} (m : M T A) (P : T → Prop) (Q : A → T → Prop) (F : S → Prop) :
  triple P m Q → (∀ t s, F s → F (put t s)) →
  triple (λ s, P (get s) ∧ F s) (zoom get put m) (λ a s, Q a (get s) ∧ F s).
Proof.
  intros Hm HF s fs [HP Hs]. unfold zoom. specialize (Hm (get s) fs HP). destruct (m (get s) fs) as [a [t fs']].
  simpl in *. rewrite get_put. auto.
Qed.

(** A part's handler changes nothing the rest depends on. *)
Lemma preserves_zoom {A} (m : M T A) (F : S → Prop) :
  (∀ t s, F s → F (put t s)) → preserves F (zoom get put m).
Proof. intros HF s fs Hs. unfold zoom. destruct (m (get s) fs) as [a [t fs']]. by apply HF. Qed.
End parts.

Section theorems.
Context {V S R : Type} `{HR : queryRegistry V S} `{HV : !QueryView V S} `{HL : !queryRegistryLaws V S} `{Redis R} `{QueryCodec V}.
Context (md5_hex : string → string) (GetInt : string → Z) (text : Z → string) (seconds : Z → string).
Notation env := (env S R).
Implicit Types e : env.

Lemma on_reg_triple {A} (m : M S A) (P : S → Prop) (Q : A → S → Prop) (F : env → Prop) :
  triple P m Q → (∀ s e, F e → F (mkEnv s (e_cache e) (e_limits e) (e_db e) (spawned e) (next_ctx e))) →
  triple (λ e, P (e_reg e) ∧ F e) (on_reg m) (λ a e, Q a (e_reg e) ∧ F e).
Proof. intros Hm HF. unfold on_reg. by apply triple_zoom. Qed.

(** The laws of the registry as triples. *)
Lemma UpdateError_triple now id msg t o :
  triple (λ s, own s = o) (UpdateError (V := V) now id msg t) (λ _ s, own s = alter (failed msg t) id o).
Proof. intros s fs <-. rewrite <- run_state. apply UpdateError_own. Qed.
Lemma UpdateResult_triple now id r t o :
  triple (λ s, own s = o) (UpdateResult now id r t) (λ _ s, own s = alter (completed r t) id o).
Proof. intros s fs <-. rewrite <- run_state. apply UpdateResult_own. Qed.
Lemma SetRunning_triple now id o c :
  triple (λ s, own s = o ∧ contexts s = c) (SetRunning (V := V) now id)
    (λ _ s, own s = alter (started now) id o ∧ contexts s = c).
Proof.
  intros s fs [<- <-]. rewrite <- run_state.
  split; [apply SetRunning_own|apply SetRunning_contexts].
Qed.

Lemma preserves_on_db {A} (m : M ddb A) (F : env → Prop) :
  (∀ d e, F e → F (mkEnv (e_reg e) (e_cache e) (e_limits e) d (spawned e) (next_ctx e))) → preserves F (on_db m).
Proof. apply preserves_zoom. Qed.
Lemma preserves_on_cache {A} (m : M (CacheService R) A) (F : env → Prop) :
  (∀ k e, F e → F (mkEnv (e_reg e) k (e_limits e) (e_db e) (spawned e) (next_ctx e))) → preserves F (on_cache m).
Proof. apply preserves_zoom. Qed.
Lemma preserves_on_limiter {A} (m : limits → M R A) (F : env → Prop) :
  (∀ k e, F e → F (mkEnv (e_reg e) k (e_limits e) (e_db e) (spawned e) (next_ctx e))) → preserves F (on_limiter m).
Proof.
  intros HF e fs He. unfold on_limiter. apply (preserves_zoom (λ e, c_redis (e_cache e)) _ (m (e_limits e)) F); [|done].
  intros r e'. apply HF.
Qed.

(** ** A query that was started ends *)

(** How the execution of a job ends, by what the data source did and whether
    the context was cancelled. *)
Definition verdict (s : source V) (j : job) (canceled : bool) : result (string * Z) (QueryResult V) :=
  match panics s with
  | Some r => Err ("查询执行异常: " +:+ r, 0)
  | None =>
      if negb (has_driver s) then Err ("连接数据源失败，请检查数据源配置", 0)
      else if canceled && bool_decide (at_end s = CtxFine) then Err ("查询已被用户取消", took s)
      else match answered s j with
           | Err err => Err (error_text err, took s)
           | Ok None => Err ("查询返回空结果，请检查SQL语句或数据源连接", took s)
           | Ok (Some r) => Ok r
           end
  end.

Definition ended (s : source V) (v : result (string * Z) (QueryResult V)) (q : RunningQuery V) : RunningQuery V :=
  match v with Ok r => completed (Some r) (took s) q | Err (msg, t) => failed msg t q end.

Lemma reg_only {A} (m : M S A) (P : S → Prop) (Q : A → S → Prop) :
  triple P m Q → triple (λ e, P (e_reg e)) (on_reg m) (λ a e, Q a (e_reg e)).
Proof.
  intros Hm. eapply triple_weaken; [by apply (on_reg_triple m P Q (λ _, True) Hm)|by split|]. by intros a e [HQ _].
Qed.

Lemma record_own now h (P : S → Prop) : triple (λ e, P (e_reg e)) (record text now h) (λ _ e, P (e_reg e)).
Proof.
  unfold record. eapply triple_bind; [by apply triple_preserved, (preserves_on_db _ (λ e, P (e_reg e)))|].
  intros ?. by apply triple_ret.
Qed.

Lemma finish_query_own now s j o c :
  triple (λ e, own (e_reg e) = o ∧ contexts (e_reg e) = c) (finish_query_safe md5_hex text seconds now s j)
    (λ _ e, own (e_reg e) = alter (ended s (verdict s j (bool_decide (j_ctx j ∈ c)))) (j_queryID j) o).
Proof.
  assert (Herr : ∀ msg t, triple (λ e, own (e_reg e) = o) (on_reg (UpdateError (V := V) now (j_queryID j) msg t))
    (λ _ e, own (e_reg e) = alter (failed msg t) (j_queryID j) o)).
  { intros msg t. apply (reg_only _ (λ s, own s = o) (λ _ s, own s = alter (failed msg t) (j_queryID j) o)), UpdateError_triple. }
  assert (Hrec : ∀ h msg t, triple (λ e, own (e_reg e) = o)
    (_ ← record text now h; on_reg (UpdateError (V := V) now (j_queryID j) msg t))
    (λ _ e, own (e_reg e) = alter (failed msg t) (j_queryID j) o)).
  { intros h msg t. eapply triple_bind; [apply (record_own now h (λ s, own s = o))|]. intros ?. apply Herr. }
  unfold finish_query_safe, finish_query, verdict. destruct (panics s) as [r|].
  { eapply triple_weaken; [apply Herr|by intros e [He _]|done]. }
  destruct (has_driver s); simpl; [|eapply triple_weaken; [apply Herr|by intros e [He _]|done]].
  intros e fs [Ho Hc]. unfold mbind, M_bind at 1, gets. unfold ctx_canceled. rewrite Hc.
  replace (match at_end s with CtxFine => bool_decide (j_ctx j ∈ c) | CtxDeadline => false end)
    with (bool_decide (j_ctx j ∈ c) && bool_decide (at_end s = CtxFine)).
  2:{ destruct (at_end s); [by rewrite andb_true_r|by rewrite andb_false_r]. }
  destruct (_ && _); [by apply Hrec|]. destruct (answered s j) as [[r|]|err]; [|by apply Hrec..].
  revert e fs Ho Hc. intros e fs Ho _. revert e fs Ho. change (triple (λ e, own (e_reg e) = o)
    (_ ← record text now (history seconds j (took s) (QueryRegistry.RowCount r) "success" "");
     _ ← on_cache (Set_ md5_hex now (r_DatasourceID (j_req j)) (r_Database (j_req j)) (r_SQL (j_req j)) (at_least (j_limit j) 1000) r);
     on_reg (UpdateResult now (j_queryID j) (Some r) (took s)))
    (λ _ e, own (e_reg e) = alter (completed (Some r) (took s)) (j_queryID j) o)).
  eapply triple_bind; [apply (record_own now _ (λ s, own s = o))|]. intros ?.
  eapply triple_bind; [by apply triple_preserved, (preserves_on_cache _ (λ e, own (e_reg e) = o))|]. intros ?.
  apply (reg_only _ (λ s, own s = o) (λ _ s', own s' = alter (completed (Some r) (took s)) (j_queryID j) o)), UpdateResult_triple.
Qed.

(** C17: A query that was started ends, whatever happens.  For every behaviour
    of the data source (a panic, no driver, any answers to any number of
    attempts, the end of the context) and every failure of Redis and of the
    database, [executeQuerySafe] leaves the node's query completed with the
    result, or failed with the reason, never pending or running. *)
Theorem started_query_ends now now' s j e fs q (Hq : own (e_reg e) !! j_queryID j = Some q) :
  let v := verdict s j (bool_decide (j_ctx j ∈ contexts (e_reg e))) in
  let o' := own (e_reg (run (executeQuerySafe md5_hex text seconds now now' s j) e fs).2) in
  o' !! j_queryID j = Some (ended s v (started now q)) ∧
  terminal (q_Status (ended s v (started now q))) = true ∧
  (∀ id, id ≠ j_queryID j → o' !! id = own (e_reg e) !! id).
Proof.
  cbv zeta. set (v := verdict s j _).
  assert (E : own (e_reg (run (executeQuerySafe md5_hex text seconds now now' s j) e fs).2) =
    alter (ended s v) (j_queryID j) (alter (started now) (j_queryID j) (own (e_reg e)))).
  { apply (run_triple (λ e', own (e_reg e') = own (e_reg e) ∧ contexts (e_reg e') = contexts (e_reg e)) _
      (λ _ e', own (e_reg e') = alter (ended s v) (j_queryID j) (alter (started now) (j_queryID j) (own (e_reg e))))); [|done].
    unfold executeQuerySafe. eapply triple_bind; [|intros ?; apply (finish_query_own now' s j _ (contexts (e_reg e)))].
    apply (reg_only _ (λ s, own s = own (e_reg e) ∧ contexts s = contexts (e_reg e))
      (λ _ s, own s = alter (started now) (j_queryID j) (own (e_reg e)) ∧ contexts s = contexts (e_reg e))), SetRunning_triple. }
  rewrite E, !lookup_alter_eq, Hq. split; [done|]. split; [by destruct v as [r|[msg t]]|].
  intros id Hne. by rewrite !lookup_alter_ne.
Qed.
End theorems.

Section guards.
Context {V S R : Type} `{HR : queryRegistry V S} `{HV : !QueryView V S} `{HL : !queryRegistryLaws V S} `{Redis R} `{QueryCodec V}.
Context (md5_hex : string → string) (GetInt : string → Z).
Notation env := (env S R).
Implicit Types e : env.

(** ** What [Execute] starts *)

(** The row [GetByID] found. *)
Lemma GetByID_row id d fs ds :
  (GetByID id d fs).1 = Ok ds → ∃ row, row ∈ sources d ∧ ds_ID row = id ∧ ds = scan_datasource row.
Proof.
  unfold GetByID, bind_ok, select, or_err, query. rewrite !run_bind. unfold call.
  assert (Hrow : ∀ row, head (where_ (λ r, ds_ID r =? id) (sources d)) = Some row → row ∈ sources d ∧ ds_ID row = id).
  { intros row Hr. assert (Hin : row ∈ where_ (λ r, ds_ID r =? id) (sources d)).
    { destruct (where_ _ _); [done|]. simplify_eq/=. by left. }
    apply elem_of_where in Hin as [Hin E]. split; [done|]. by apply Z.eqb_eq. }
  revert Hrow. generalize (head (where_ (λ r, ds_ID r =? id) (sources d))). intros o Hrow.
  destruct fs as [|[] fs]; simpl; try done; destruct o as [row|]; simpl; try done; intros [= <-];
    exists row; by destruct (Hrow row eq_refl).
Qed.

(** Nothing was started: the same queries and goroutines. *)
Definition idle e e' : Prop := own (e_reg e') = own (e_reg e) ∧ spawned e' = spawned e ∧ next_ctx e' = next_ctx e.

(** A pending query was registered, and its goroutine started. *)
Definition submitted (now : Z) (queryID : string) (req : execute_request) (uid domainID : Z) (ds : Datasource) e e' : Prop :=
  own (e_reg e') =
    <[queryID := mkQuery queryID (r_DatasourceID req) (r_Database req) (r_SQL req) uid QueryStatusPending None "" 0 None false
                   (Some (next_ctx e)) now]> (own (e_reg e)) ∧
  spawned e' = spawned e ++ [mkJob (next_ctx e) queryID ds req uid domainID (default_limit GetInt)].

Definition may_run (req : execute_request) (row : Datasource) : Prop :=
  ds_ID row = r_DatasourceID req ∧ IsEnabled row = true ∧
  isSelectOnly (r_SQL req) (AllowWriteSQL row) (Type_ row) = true ∧
  (0 < GetInt "datasource.max_sql_length" → Z.of_nat (String.length (r_SQL req)) ≤ GetInt "datasource.max_sql_length").

Lemma submit_spec now queryID req uid domainID ds p e fs a e' fs' :
  submit (V := V) now queryID req uid domainID ds (default_limit GetInt) p e fs = (a, (e', fs')) →
  a = Pending queryID ∧ submitted now queryID req uid domainID ds e e'.
Proof.
  unfold submit. rewrite run_bind. cbn [new_context]. rewrite run_bind. unfold on_reg, zoom.
  pose proof (Register_own now (mkQuery queryID (r_DatasourceID req) (r_Database req) (r_SQL req) uid QueryStatusPending None ""
    0 None false (Some (next_ctx e)) 0) (e_reg e) fs) as Hreg. rewrite run_state in Hreg. simpl in Hreg |- *.
  destruct (Register _ _ (e_reg e) fs) as [u [s1 fs1]]. simpl in Hreg |- *. rewrite run_bind. unfold go, modify. simpl.
  rewrite run_bind. set (e1 := mkEnv s1 _ _ _ _ _).
  assert (Hkeep : preserves (submitted now queryID req uid domainID ds e) (on_limiter (λ _, release now p)))
    by by apply preserves_on_limiter.
  specialize (Hkeep e1 fs1). destruct (on_limiter (λ _, release now p) e1 fs1) as [u' [e2 fs2]]. simpl in *.
  intros [= <- <- _]. split; [done|]. by apply Hkeep.
Qed.

Lemma Execute_cases now queryID req uid domainID e fs out e' fs' :
  Execute (V := V) md5_hex GetInt now queryID req uid domainID e fs = (out, (e', fs')) →
  (idle e e' ∧ out ≠ Pending queryID) ∨
  (∃ row, row ∈ sources (e_db e) ∧ may_run req row ∧ out = Pending queryID ∧
     submitted now queryID req uid domainID (scan_datasource row) e e').
Proof.
  unfold Execute. destruct (_ || _); [intros [= <- <- <-]; by left|]. destruct (_ && _) eqn:Hlen; [intros [= <- <- <-]; by left|].
  rewrite run_bind. unfold on_db, zoom.
  pose proof (GetByID_row (r_DatasourceID req) (e_db e) fs) as Hrow.
  pose proof (preserves_GetByID (P := λ d, d = e_db e) (r_DatasourceID req) (e_db e) fs eq_refl) as Hdb.
  destruct (GetByID (r_DatasourceID req) (e_db e) fs) as [[ds|err] [d fs1]]; simpl in Hdb; subst d; [|intros [= <- <- <-]; by left].
  destruct (Hrow ds eq_refl) as (row & Hin & Hid & ->). clear Hrow. simpl.
  destruct (IsEnabled row) eqn:Hen; [|intros [= <- <- <-]; by left]. simpl.
  destruct (isSelectOnly (r_SQL req) (AllowWriteSQL row) (Type_ row)) eqn:Hsel; [|intros [= <- <- <-]; by left]. simpl.
  assert (Hmay : may_run req row).
  { split; [done|]. split; [done|]. split; [done|]. intros Hpos. apply andb_false_iff in Hlen as [Hl|Hl]; lia. }
  rewrite run_bind. set (e0 := mkEnv (e_reg e) (e_cache e) (e_limits e) (e_db e) (spawned e) (next_ctx e)).
  pose proof (preserves_on_cache (Cache.Get (V := V) md5_hex now (r_DatasourceID req) (r_Database req) (r_SQL req)
    (default_limit GetInt)) (idle e) ltac:(done) e0 fs1 ltac:(done)) as Hc.
  destruct (on_cache _ e0 fs1) as [c [e1 fs2]]. simpl in Hc.
  assert (Hrest : (a ← on_limiter (λ l, AcquireForDatasource l now uid (r_DatasourceID req));
      match a with
      | Err err => mret (limit_message err)
      | Ok p => submit now queryID req uid domainID (scan_datasource row) (default_limit GetInt) p
      end) e1 fs2 = (out, (e', fs')) → (idle e e' ∧ out ≠ Pending queryID) ∨
    (∃ row, row ∈ sources (e_db e) ∧ may_run req row ∧ out = Pending queryID ∧
       submitted now queryID req uid domainID (scan_datasource row) e e')).
  { rewrite run_bind.
    pose proof (preserves_on_limiter (λ l, AcquireForDatasource l now uid (r_DatasourceID req)) (idle e) ltac:(done) e1 fs2 Hc) as Hl.
    destruct (on_limiter _ e1 fs2) as [[p|err'] [e2 fs3]]; simpl in Hl.
    - intros [-> [H2 H3]]%submit_spec. right. exists row. destruct Hl as (E1 & E2 & E3).
      split; [done|]. split; [done|]. split; [done|]. unfold submitted. by rewrite H2, H3, E1, E2, E3.
    - intros [= <- <- <-]. left. split; [done|by destruct err']. }
  destruct c as [[r|]|err]; [intros [= <- <- <-]; by left|exact Hrest|exact Hrest].
Qed.

(** C18: [Execute] starts only what may run, and otherwise nothing.  Whatever
    fails in Redis and in the database: either the node's queries and
    goroutines are what they were and no query is announced as pending, or
    the data source exists and is enabled, the statement is within the
    configured length and is one of those that may be executed there, and
    exactly one query was registered as pending and one goroutine started
    for it. *)
Theorem Execute_guarded now queryID req uid domainID e fs :
  let out := run (Execute (V := V) md5_hex GetInt now queryID req uid domainID) e fs in
  (idle e out.2 ∧ out.1 ≠ Pending queryID) ∨
  (∃ row, row ∈ sources (e_db e) ∧ may_run req row ∧ out.1 = Pending queryID ∧
     submitted now queryID req uid domainID (scan_datasource row) e out.2).
Proof.
  cbv zeta. rewrite run_answer, run_state.
  destruct (Execute md5_hex GetInt now queryID req uid domainID e fs) as [out [e' fs']] eqn:E. simpl.
  by apply (Execute_cases now queryID req uid domainID e fs out e' fs').
Qed.
End guards.

Section permits.
Context {V S R : Type} `{HR : queryRegistry V S} `{RedisLaws R} `{QueryCodec V}.
Context (md5_hex : string → string) (GetInt : string → Z).
Notation env := (env S R).
Implicit Types e : env.

Definition redis_of e : R := c_redis (e_cache e).

Lemma Get_redis now id db sql limit (r : R) :
  preserves (λ c, c_redis c = r) (Cache.Get (V := V) md5_hex now id db sql limit).
Proof.
  unfold Cache.Get. apply preserves_bind; [apply preserves_gets|]. intros ttl. destruct (ttl <=? 0); [apply preserves_ret|].
  apply preserves_bind.
  - apply preserves_bind; [|intros ?; apply preserves_ret]. by apply preserves_call.
  - intros [data| |]; [destruct (unmarshal_result data)|..]; (apply preserves_bind; [by apply preserves_modify|intros ?; apply preserves_ret]).
Qed.

(** Acquiring and, if that succeeded, releasing leaves the counters alone. *)
Lemma acquire_release_neutral l now uid id u g d (r : R) :
  counter now (userKey uid) r = Some u → counter now globalKey r = Some g → counter now (dsKey id) r = Some d →
  small u → small g → small d →
  ∃ a r1, AcquireForDatasource l now uid id r [] = (a, (r1, [])) ∧
    match a with
    | Err _ => ∀ k, counter now k r1 = counter now k r
    | Ok p => ∃ p' r2, release now p r1 [] = (p', (r2, [])) ∧ ∀ k, counter now k r2 = counter now k r
    end.
Proof.
  intros Hu Hg Hd Su Sg Sd.
  destruct (acquire_runs l now uid id r (λ k, counter now k r) u g d) as (r1 & Ha & Hr1); try done.
  exists (acquire_outcome l uid id u g d), r1. split; [done|].
  destruct (acquire_outcome l uid id u g d) as [p|err] eqn:Ho; [|done]. unfold acquire_outcome in Ho.
  destruct (Z.ltb_spec (runtimeMaxPerUser l) (u + 1)); [done|].
  destruct (Z.ltb_spec (runtimeMaxGlobal l) (g + 1)); [done|].
  destruct (Z.ltb_spec (runtimeMaxPerDatasource l) (d + 1)); [done|].
  destruct (acquire_release_runs l now uid id u g d r) as (p0 & r0 & p' & r2 & E1 & E2 & _ & E3); try done; try lia.
  rewrite Ha in E1. injection E1 as -> ->. by exists p', r2.
Qed.

Lemma run_zoom {T A} (get : env → T) (put : T → env → env) (m : M T A) e fs :
  zoom get put m e fs = (let '(a, (t, fs')) := m (get e) fs in (a, (put t e, fs'))).
Proof. done. Qed.

(** The registry may use Redis as well: its calls use up fates of their own,
    none when nothing fails. *)
Lemma Register_fates_nil now q (s : S) :
  (∀ s, (Register (V := V) now q s []).2.2 = []) → ∃ u s', Register now q s [] = (u, (s', [])).
Proof. intros Hn. specialize (Hn s). destruct (Register now q s []) as [u [s' fs']]. simpl in Hn. subst. eauto. Qed.

(** A running query holds no permit.  When nothing fails, every counter of
    the limiter is after [Execute] what it was before, whatever the answer:
    also when it has just started a query, since the permit is released as
    the handler returns.  (A registry call that meets no fault leaves none
    over.) *)
Theorem Execute_holds_no_permit now queryID req uid domainID e u g d
    (Hfates : ∀ q s, (Register (V := V) now q s []).2.2 = [])
    (Hu : counter now (userKey uid) (redis_of e) = Some u) (Hg : counter now globalKey (redis_of e) = Some g)
    (Hd : counter now (dsKey (r_DatasourceID req)) (redis_of e) = Some d)
    (Hs : small u ∧ small g ∧ small d) :
  ∀ k, counter now k (redis_of (run (Execute (V := V) md5_hex GetInt now queryID req uid domainID) e []).2) = counter now k (redis_of e).
Proof.
  destruct Hs as (Su & Sg & Sd). intros k. rewrite run_state. unfold Execute.
  destruct (_ || _); [done|]. destruct (_ && _); [done|]. rewrite run_bind. unfold on_db. rewrite run_zoom.
  assert (Hn : ∃ o, GetByID (r_DatasourceID req) (e_db e) [] = (o, (e_db e, []))).
  { unfold GetByID, bind_ok, select, or_err, query. rewrite !run_bind. simpl. by destruct (head _); eexists. }
  destruct Hn as [[ds|err] ->]; [|done]. destruct (negb (IsEnabled ds)); [done|]. destruct (negb (isSelectOnly _ _ _)); [done|].
  rewrite run_bind. unfold on_cache. rewrite run_zoom. cbn [e_cache].
  pose proof (Get_redis now (r_DatasourceID req) (r_Database req) (r_SQL req) (default_limit GetInt) (redis_of e) (e_cache e) [] eq_refl) as Hc.
  assert (Hfs : (Cache.Get (V := V) md5_hex now (r_DatasourceID req) (r_Database req) (r_SQL req) (default_limit GetInt) (e_cache e) []).2.2 = []).
  { unfold Cache.Get, mbind, M_bind, gets. destruct (_ <=? 0); [done|]. simpl. destruct (get_value _); try done. by destruct (unmarshal_result _). }
  destruct (Cache.Get _ _ _ _ _ _ _ _) as [c [k1 fs1]]. simpl in Hc, Hfs. subst fs1.
  destruct (acquire_release_neutral (e_limits e) now uid (r_DatasourceID req) u g d (redis_of e) Hu Hg Hd Su Sg Sd) as (a & r1 & Ha & Hafter).
  destruct c as [[r|]|err]; [by simpl; unfold redis_of; simpl; rewrite Hc| |].
  all: rewrite run_bind; unfold on_limiter at 1; rewrite run_zoom; cbn [e_cache e_limits]; rewrite Hc, Ha.
  all: destruct a as [p|err']; [|exact (Hafter k)].
  all: destruct Hafter as (p' & r2 & Hrel & Hafter); unfold submit; rewrite run_bind; cbn [new_context]; rewrite run_bind;
    unfold on_reg; rewrite run_zoom; cbn [e_reg].
  all: match goal with |- context [Register ?n ?q ?s []] =>
         destruct (Register_fates_nil n q s (Hfates q)) as (u1 & s1 & E1); rewrite E1 end.
  all: rewrite run_bind; unfold go at 1, modify; rewrite run_bind; unfold on_limiter; rewrite run_zoom; cbn [e_cache c_redis];
    rewrite Hrel; exact (Hafter k).
Qed.
End permits.

Section cancelling.
Context {V S R : Type} `{HR : queryRegistry V S} `{HV : !QueryView V S} `{HL : !queryRegistryLaws V S} `{Redis R} `{QueryCodec V}.
Context (md5_hex : string → string) (text : Z → string) (seconds : Z → string).
Notation env := (env S R).
Implicit Types e : env.

(** Cancelling a query that runs.  The handler answers with success, the
    query is cancelled and so is its context; when its goroutine then returns
    from the data source, the query ends as failed, with the message that it
    was cancelled: the status the cancellation set does not last.  This holds
    whatever the data source answered and whatever fails in between. *)
Theorem cancel_ends_failed now now' s j e fs fs' q
    (Hq : own (e_reg e) !! j_queryID j = Some q) (Ha : active (q_Status q) = true) (Hc : CancelFunc q = Some (j_ctx j))
    (Hid : j_queryID j ≠ "") (Hs : panics s = None ∧ has_driver s = true ∧ at_end s = CtxFine) :
  let e1 := (run (Cancel (V := V) now (j_queryID j)) e fs).2 in
  let e2 := (run (finish_query_safe md5_hex text seconds now' s j) e1 fs').2 in
  (run (Cancel (V := V) now (j_queryID j)) e fs).1 = Success ∧
  own (e_reg e1) !! j_queryID j = Some (with_status QueryStatusCancelled q) ∧
  own (e_reg e2) !! j_queryID j = Some (failed "查询已被用户取消" (took s) q).
Proof.
  cbv zeta. destruct (Cancel_own now (j_queryID j) q (e_reg e) fs Hq Ha) as (Hb & Hown & Hctx).
  rewrite run_answer in Hb. rewrite run_state in Hown, Hctx.
  assert (E : ∃ e1 fs1, Cancel (V := V) now (j_queryID j) e fs = (Success, (e1, fs1)) ∧
    own (e_reg e1) = <[j_queryID j := with_status QueryStatusCancelled q]> (own (e_reg e)) ∧
    contexts (e_reg e1) = j_ctx j :: contexts (e_reg e)).
  { unfold Cancel. rewrite bool_decide_false by done. rewrite run_bind. unfold on_reg, zoom. rewrite Hc in Hctx.
    destruct (QueryRegistry.Cancel now (j_queryID j) (e_reg e) fs) as [b [s1 fs1]]. simpl in *. subst b. by eexists _, _. }
  destruct E as (e1 & fs1 & E & Ho & Hx). rewrite run_answer, !run_state, E. simpl. split; [done|].
  split; [by rewrite Ho, lookup_insert_eq|].
  rewrite (finish_query_own md5_hex text seconds now' s j (own (e_reg e1)) (contexts (e_reg e1)) e1 fs' (conj eq_refl eq_refl)).
  rewrite lookup_alter_eq, Ho, lookup_insert_eq, Hx. destruct Hs as (Hp & Hd & He). unfold verdict. rewrite Hp, Hd, He.
  rewrite bool_decide_true by by left. done.
Qed.
End cancelling.

(** ** Witnesses: a node with the local registry *)
Definition demo_ds (enabled write : bool) : Datasource :=
  mkDatasource 1 "ds" "mysql" "h" 3306 "" "" "u" "" "" "" "" "" "" "" "" 1 enabled write "" None None None 0 0.
Definition demo_db (ds : Datasource) : ddb :=
  mkDdb (mkIdb demo_rbac (mkTable [ds] 1) (mkTable [] 0) (mkTable [] 0) (mkTable [] 0)) (mkTable [] 0) (mkTable [] 0) [].
Definition demo_env (ds : Datasource) : env (QueryRegistry Z) gmap_store :=
  mkEnv NewQueryRegistry (mkCache ∅ 60 (mkStats 0 0 0 0)) (mkLimits 1 1 1) (demo_db ds) [] 0.
Definition demo_settings (key : string) : Z := if bool_decide (key = "datasource.max_sql_length") then 10000 else 0.
Definition select_one : execute_request := mkExecute 1 "SELECT 1" "db".

Definition demo_execute (queryID : string) (req : execute_request) (e : env (QueryRegistry Z) gmap_store) :=
  run (Execute (λ s, s) demo_settings 0 queryID req 7 1) e [].
(** The data source answers every statement with one row. *)
Definition one_row : source Z :=
  mkSource None true (λ _ _ _, inr (Some (mkResult ["n"] [[1]] 1))) (λ _, None) CtxFine Second.
Definition demo_job (req : execute_request) : job := mkJob 0 "q_1" (demo_ds true false) req 7 1 1000.
Definition demo_started : env (QueryRegistry Z) gmap_store := (demo_execute "q_1" select_one (demo_env (demo_ds true false))).2.
Definition demo_running : env (QueryRegistry Z) gmap_store := (run (start_query 0 (demo_job select_one)) demo_started []).2.
Definition pending_query : RunningQuery Z :=
  mkQuery "q_1" 1 "db" "SELECT 1" 7 QueryStatusPending None "" 0 None false (Some 0%nat) 0.

Lemma started_query_ends_witness :
  own (V := Z) (e_reg (run (executeQuerySafe (λ s, s) (λ _, "") (λ _, "") 0 Second one_row (demo_job select_one)) demo_started []).2)
    !! j_queryID (demo_job select_one) = Some (completed (Some (mkResult ["n"] [[1]] 1)) Second (started 0 pending_query)).
Proof.
  assert (Hq : own (e_reg demo_started) !! j_queryID (demo_job select_one) = Some pending_query) by (vm_compute; reflexivity).
  rewrite (proj1 (started_query_ends (λ s, s) (λ _, "") (λ _, "") 0 Second one_row (demo_job select_one) demo_started []
                    pending_query Hq)).
  vm_compute. reflexivity.
Defined.

Lemma Execute_guarded_witness :
  (demo_execute "q_1" select_one (demo_env (demo_ds true false))).1 = Pending "q_1" ∧
  ∃ row, row ∈ sources (demo_db (demo_ds true false)) ∧ may_run demo_settings select_one row.
Proof.
  split; [vm_compute; reflexivity|].
  destruct (Execute_guarded (V := Z) (λ s, s) demo_settings 0 "q_1" select_one 7 1 (demo_env (demo_ds true false)) [])
    as [[_ Hp]|(row & Hin & Hr & _)]; [|by exists row].
  exfalso. apply Hp. vm_compute. reflexivity.
Defined.

Lemma Execute_holds_no_permit_witness :
  counter 0 globalKey (redis_of demo_started) = counter 0 globalKey (redis_of (demo_env (demo_ds true false))).
Proof.
  apply (Execute_holds_no_permit (V := Z) (λ s, s) demo_settings 0 "q_1" select_one 7 1 (demo_env (demo_ds true false)) 0 0 0);
    [done|vm_compute; reflexivity|vm_compute; reflexivity|vm_compute; reflexivity|unfold small; lia].
Defined.

Lemma cancel_ends_failed_witness :
  (run (Cancel (V := Z) 1 (j_queryID (demo_job select_one))) demo_running []).1 = Success.
Proof.
  assert (Hq : own (e_reg demo_running) !! j_queryID (demo_job select_one) = Some (started 0 pending_query))
    by (vm_compute; reflexivity).
  exact (proj1 (cancel_ends_failed (λ s, s) (λ _, "") (λ _, "") 1 2 one_row (demo_job select_one) demo_running [] []
    (started 0 pending_query) Hq eq_refl eq_refl ltac:(done) (conj eq_refl (conj eq_refl eq_refl)))).
Defined.

(** ** What the handlers get wrong *)

(** One query at a time for each user, in all and for each data source: three
    run. *)
Example limits_of_one_let_three_run :
  let e1 := (demo_execute "q_1" (mkExecute 1 "SELECT 1" "") (demo_env (demo_ds true false))).2 in
  let e2 := (demo_execute "q_2" (mkExecute 1 "SELECT 2" "") e1).2 in
  let e3 := (demo_execute "q_3" (mkExecute 1 "SELECT 3" "") e2).2 in
  length (spawned e3) = 3%nat ∧ e_limits e3 = mkLimits 1 1 1.
Proof. by vm_compute. Qed.

(** A write is cached like a read: sent again within the TTL it is answered
    from the cache and not executed. *)
Definition insert_req : execute_request := mkExecute 1 "INSERT INTO t VALUES (1)" "".
Example repeated_write_is_not_executed :
  let e1 := (demo_execute "q_1" insert_req (demo_env (demo_ds true true))).2 in
  let e2 := match spawned e1 with
            | j :: _ => (run (executeQuerySafe (λ s, s) (λ _, "") (λ _, "") 0 0 one_row j) e1 []).2
            | [] => e1
            end in
  let out := demo_execute "q_2" insert_req e2 in
  (out.1, length (spawned out.2)) = (Cached "q_2" (mkResult ["n"] [[1]] 1), 1%nat).
Proof. by vm_compute. Qed.

(** The export does not look whether the data source is enabled. *)
Example disabled_source_is_exported :
  (demo_execute "q_1" select_one (demo_env (demo_ds false false))).1 = Fail CodeQueryDisabled "数据源已被禁用，无法执行查询" ∧
  (run (ExportCSV demo_settings (λ z, fmt_d z) select_one 0 one_row) (demo_env (demo_ds false false)) []).1 =
  CSV [["n"]; ["1"]].
Proof. by vm_compute. Qed.

(** [StreamResult] reads the status, then registers its observer: a query that
    completes in between is never reported to it. *)
Example stream_misses_completion :
  let r1 := local_UpdateResult "q_1" None 0 (put (started 0 pending_query) "q_1" NewQueryRegistry) in
  let r2 := local_RegisterObserver 1 r1 in
  (q_Status <$> queries (put (started 0 pending_query) "q_1" (@NewQueryRegistry Z)) !! "q_1") = Some QueryStatusRunning ∧
  (q_Status <$> queries r2 !! "q_1") = Some QueryStatusCompleted ∧ notified r2 = [].
Proof. by vm_compute. Qed.
