(* ===== verification/SqlDrivers.v ===== *)
(** * Data sources that speak SQL

    The interface and the registry of
    [src/scheduler/internal/datasource/driver/base.go] and the drivers over
    [database/sql]: [mysql.go], [doris.go], [starrocks.go], [sqlite.go] and
    [trino.go], with [rqlite_driver.go].  The server is a parameter: [run] is
    what a statement does to the session it is sent on and to the server, and
    what comes back.  A pool of connections is the list of its idle sessions;
    which of them a call gets, or a new one, is decided by [picks]. *)
From stdpp Require Import gmap.
From Stdlib Require Import Ascii.
From S2P Require Import Prelude Sql Text SqlText QueryRegistry Manager.

(** ** Values and errors *)
(** What a column holds: nil, a text, bytes, a number, or a value of another
    type by the text [%v] gives it. *)
Inductive cell : Type := CNil | CText (s : string) | CBytes (s : string) | CInt (n : Z) | COther (text : string).
Fixpoint byte_list (s : string) : list string :=
  match s with EmptyString => [] | String c s => fmt_d (Z.of_N (N_of_ascii c)) :: byte_list s end.
(** [fmt.Sprintf("%v", v)] *)
Definition Sprintf_v (v : cell) : string :=
  match v with
  | CNil => "<nil>" | CText s | COther s => s | CInt n => fmt_d n
  | CBytes s => "[" +:+ String.concat " " (byte_list s) +:+ "]"
  end.
(** [fmt.Errorf("p%w", e)] *)
Definition Errorf (p : string) (e : go_error) : go_error := mkError (p +:+ error_text e) (as_datasource e).
Definition plain_error (s : string) : go_error := mkError s None.
Definition not_established (label : string) : string := label +:+ " connection not established".
Definition classified {A} (e : go_error) (label : string) : result go_error A := Err (wrapped (ClassifyError e label)).
(** The error of a query without a connection. *)
Definition no_connection {A} (text label : string) : result go_error A :=
  Err (wrapped (mkDsError text ErrCategoryConnection label false 0)).

(** ** [base.go] *)
(** A value of the JSON configuration; a number is the fraction it is. *)
Inductive json : Type := JBool (b : bool) | JNum (num : Z) (den : positive) | JText (s : string) | JList (l : list json) | JOther (text : string).
Record DatasourceConfig : Type := mkDsConfig {
  c_Type : string; c_Host : string; c_Port : Z; c_Path : string; c_Database : string; c_Username : string; c_Password : string;
  c_AuthType : string; c_ConnectionMode : string; ZookeeperQuorum : string; ZookeeperNamespace : string; c_RqliteHosts : string;
  c_Config : gmap string json;
}.
Record TableInfo : Type := mkTable { Name : string; Comment : string }.
Record ColumnInfo : Type := mkColumn { col_Name : string; col_Type : string; col_Comment : string; Nullable : bool }.

(** The interface [Driver]; [D] is the driver with all it talks to. *)
Class Driver (D : Type) : Type := {
  Connect : DatasourceConfig → D → option go_error * D;
  TestConnection : D → option go_error * D;
  Ping : D → option go_error * D;
  Close : D → option go_error * D;
  Query : string → list string → D → result go_error (QueryResult cell) * D;
  QueryWithDB : string → string → D → result go_error (QueryResult cell) * D;
  TryQueryWithDB : string → string → D → result go_error (QueryResult cell) * D;
  GetDatabases : D → result go_error (list string) * D;
  GetTables : string → D → result go_error (list TableInfo) * D;
  GetColumns : string → string → D → result go_error (list ColumnInfo) * D;
  SupportsCancel : bool;
  UseDatabase : string → D → option go_error * D;
}.

(** A call and what is made of its answer. *)
Definition andThen {D A B} (r : result go_error A * D) (f : A → B) : result go_error B * D :=
  match r with (Ok a, d) => (Ok (f a), d) | (Err e, d) => (Err e, d) end.
Definition or_default (a b : string) : string := if bool_decide (a = "") then b else a.
(** The rows with at least [n] cells, as what [f] makes of them. *)
Definition from_rows {A} (n : nat) (f : list cell → A) (r : QueryResult cell) : list A :=
  f <$> filter (λ row, (n ≤ length row)%nat) (Rows r).
Definition at_ (i : nat) (row : list cell) : cell := nth i row CNil.
Definition text_at (i : nat) (row : list cell) : string := Sprintf_v (at_ i row).

(** [strings.ReplaceAll(s, c, cc)] *)
Fixpoint double_char (c : ascii) (s : string) : string :=
  match s with EmptyString => EmptyString | String a s => if Ascii.eqb a c then String a (String a (double_char c s)) else String a (double_char c s) end.
Definition backtick : ascii := "`".
Definition dquote : ascii := "034".

(** ** A pool of [database/sql] *)
Section pool.
Context {S W : Type}.
(** [iteration]: what [rows.Err()] returns in the end; no driver asks. *)
Record rows : Type := mkRows { r_columns : result go_error (list string); r_rows : list (result go_error (list cell)); iteration : option go_error }.
Class Server : Type := {
  dial : string → W → result go_error S * W;
  run : string → list string → S → W → result go_error rows * S * W;
  ping : S → W → option go_error * S * W;
}.
Record DB : Type := mkDB { dsn : string; idle : list S; maxOpen : Z; maxIdle : Z; lifetime : Z; isClosed : bool }.
(** The driver with the server and the picks to come. *)
Record drv : Type := mkDrv { config : DatasourceConfig; db : option DB; world : W; picks : list nat }.
Context `{Server}.

Definition set_idle (l : list S) (p : DB) : DB := mkDB (dsn p) l (maxOpen p) (maxIdle p) (lifetime p) (isClosed p).
(** At most [maxIdle] sessions stay. *)
Definition put_back (l : list S) (p : DB) : DB := set_idle (firstn (Z.to_nat (maxIdle p)) l) p.
(** [sql.Open]: no limit, and two idle connections. *)
Definition Open (source : string) : DB := mkDB source [] 0 2 0 false.
(** One call on the pool. *)
Definition on_session {A} (f : S → W → result go_error A * S * W) (p : DB) (w : W) (pick : nat) : result go_error A * DB * W :=
  if isClosed p then (Err (plain_error "sql: database is closed"), p, w)
  else match idle p !! pick with
  | Some s => let '(r, s', w') := f s w in (r, set_idle (<[pick := s']> (idle p)) p, w')
  | None =>
      match dial (dsn p) w with
      | (Err e, w') => (Err e, p, w')
      | (Ok s, w') => let '(r, s', w'') := f s w' in (r, put_back (idle p ++ [s']) p, w'')
      end
  end.
Definition db_ping (s : S) (w : W) : result go_error unit * S * W :=
  let '(r, s', w') := ping s w in (match r with None => Ok tt | Some e => Err e end, s', w').
Definition failure {A} (r : result go_error A) : option go_error := match r with Ok _ => None | Err e => Some e end.
(** The same on the pool [p] of a driver. *)
Definition use {A} (f : S → W → result go_error A * S * W) (p : DB) (d : drv) : result go_error A * drv :=
  let '(r, p', w') := on_session f p (world d) (hd O (picks d)) in (r, mkDrv (config d) (Some p') w' (tl (picks d))).

(** *** What the drivers share *)
(** [opening]: how a failure of [sql.Open], [opened], names the connection. *)
Definition sql_Connect (opening label source : string) (opened : option go_error) (cfg : DatasourceConfig) (d : drv) : option go_error * drv :=
  match opened with
  | Some e => (Some (Errorf ("failed to open " +:+ opening +:+ ": ") e), mkDrv cfg (db d) (world d) (picks d))
  | None =>
      let '(r, p, w) := on_session db_ping (Open source) (world d) (hd O (picks d)) in
      match r with
      | Err e => (Some (Errorf ("failed to ping " +:+ label +:+ ": ") e), mkDrv cfg (db d) w (tl (picks d)))
      | Ok _ => (None, mkDrv cfg (Some p) w (tl (picks d)))
      end
  end.
Definition sql_Ping (label : string) (d : drv) : option go_error * drv :=
  match db d with
  | None => (Some (plain_error (not_established label)), d)
  | Some p => let '(r, d) := use db_ping p d in (failure r, d)
  end.
(** A closed pool stays in its driver and answers no call. *)
Definition sql_Close (d : drv) : option go_error * drv :=
  (None, mkDrv (config d) ((λ p, mkDB (dsn p) [] (maxOpen p) (maxIdle p) (lifetime p) true) <$> db d) (world d) (picks d)).
Fixpoint scan_rows (convert : cell → cell) (n : nat) (l : list (result go_error (list cell))) : result go_error (list (list cell)) :=
  match l with
  | [] => Ok []
  | Err e :: _ => Err e
  | Ok row :: l => match scan_rows convert n l with Ok rs => Ok ((convert <$> resize n CNil row) :: rs) | Err e => Err e end
  end.
Definition table_of (columns : list string) (rs : list (list cell)) : QueryResult cell := mkResult columns rs (Z.of_nat (length rs)).
(** [mend]: the error that is classified. *)
Definition answer_of (label : string) (convert : cell → cell) (mend : go_error → go_error) (r : result go_error rows) : result go_error (QueryResult cell) :=
  match r with
  | Err e => classified (mend e) label
  | Ok rs =>
      match r_columns rs with
      | Err e => classified e label
      | Ok columns =>
          match scan_rows convert (length columns) (r_rows rs) with
          | Err e => classified e label
          | Ok l => Ok (table_of columns l)
          end
      end
  end.
Definition sql_Query (label : string) (convert : cell → cell) (mend : go_error → go_error) (query : string) (args : list string) (d : drv) :
    result go_error (QueryResult cell) * drv :=
  match db d with
  | None => (no_connection (not_established label) label, d)
  | Some p => let '(r, d) := use (run query args) p d in (answer_of label convert mend r, d)
  end.
(** [UpdatePoolConfig]; [SetMaxIdleConns] drops the sessions above the limit,
    no limit of open connections is 0. *)
Definition UpdatePoolConfig (cfg : PoolConfig) (d : drv) : drv :=
  mkDrv (config d)
    ((λ p, mkDB (dsn p) (firstn (Z.to_nat (MaxOpen cfg)) (idle p)) (Z.max 0 (MaxOpen cfg)) (Z.max 0 (MaxOpen cfg))
        (if 0 <? MaxLifetime cfg then MaxLifetime cfg else lifetime p) (isClosed p)) <$> db d) (world d) (picks d).
Definition GetPoolConfig (d : drv) : PoolConfig :=
  match db d with
  | Some p => mkPoolConfig (maxOpen p) (MinIdle DefaultPoolConfig) (MaxLifetime DefaultPoolConfig) (AcquireTimeout DefaultPoolConfig)
  | None => DefaultPoolConfig
  end.
(** Between calls no connection is in use. *)
Definition GetPoolStats (d : drv) : Z * Z * Z * Z :=
  match db d with Some p => (Z.of_nat (length (idle p)), Z.of_nat (length (idle p)), 0, maxOpen p) | None => (0, 0, 0, 0) end.
(** [USE name] *)
Definition use_statement (label name : string) (d : drv) : option go_error * drv :=
  match db d with
  | None => (Some (plain_error (not_established label)), d)
  | Some p => let '(r, d) := use (run ("USE " +:+ name) []) p d in (Errorf (label +:+ " use database error: ") <$> failure r, d)
  end.
(** [QueryWithDB] of MySQL and Trino: switch, query, switch back. *)
Definition query_with_db (use_database : string → drv → option go_error * drv) (query : drv → result go_error (QueryResult cell) * drv)
    (database : string) (d : drv) : result go_error (QueryResult cell) * drv :=
  if bool_decide (database = "") then query d
  else
    match use_database database d with
    | (Some e, d) => (Err e, d)
    | (None, d) =>
        let '(r, d) := query d in
        let home := c_Database (config d) in
        (r, if negb (bool_decide (home = "")) && negb (bool_decide (home = database)) then (use_database home d).2 else d)
    end.
End pool.
Arguments drv S W : clear implicits.
Arguments DB S : clear implicits.
Arguments Server S W : clear implicits.

(** ** MySQL, Doris and StarRocks *)
Definition escapeMySQLIdentifier (name : string) : string := double_char backtick name.
(** [parseInt] decides nothing: both cases give the text. *)
Definition convertMySQLValue (v : cell) : cell := match v with CBytes s => CText s | v => v end.
Definition flag (v : option json) : bool := match v with Some (JBool true) => true | _ => false end.
Definition default_port (dflt port : Z) : Z := if port =? 0 then dflt else port.
Definition buildDSN (dflt : Z) (c : DatasourceConfig) : string :=
  let params := ["charset=utf8mb4"; "parseTime=true"; "loc=Local"] ++ (if flag (c_Config c !! "ssl") then ["tls=true"] else []) in
  c_Username c +:+ ":" +:+ c_Password c +:+ "@tcp(" +:+ c_Host c +:+ ":" +:+ fmt_d (default_port dflt (c_Port c)) +:+ ")/" +:+ c_Database c
    +:+ "?" +:+ String.concat "&" params.
Definition as_text (v : cell) : list string := match v with CText s => [s] | _ => [] end.
Definition table_info (row : list cell) : TableInfo := mkTable (text_at 0 row) (if (2 <=? length row)%nat then text_at 1 row else "").
Definition mysql_column (row : list cell) : ColumnInfo := mkColumn (text_at 0 row) (text_at 1 row) (text_at 2 row) (bool_decide (text_at 3 row = "YES")).

(** The three drivers differ in their name and port. *)
Section mysql.
Context {S W : Type} `{Server S W}.
Variable opens : string → option go_error.
Variables (label : string) (port : Z).
Abbreviation drv := (drv S W).
Definition mysql_Connect (c : DatasourceConfig) (d : drv) : option go_error * drv :=
  sql_Connect (label +:+ " connection") label (buildDSN port c) (opens (buildDSN port c)) c d.
Definition mysql_Query : string → list string → drv → result go_error (QueryResult cell) * drv := sql_Query label convertMySQLValue id.
Definition mysql_GetDatabases (d : drv) : result go_error (list string) * drv :=
  andThen (mysql_Query "SHOW DATABASES" [] d) (λ r, Rows r ≫= λ row, match row with v :: _ => as_text v | [] => [] end).
Definition mysql_GetTables (database : string) (d : drv) : result go_error (list TableInfo) * drv :=
  andThen (mysql_Query "SELECT TABLE_NAME, TABLE_COMMENT FROM information_schema.TABLES WHERE TABLE_SCHEMA = ? ORDER BY TABLE_NAME"
             [or_default database (c_Database (config d))] d) (from_rows 1 table_info).
Definition mysql_GetColumns (database table : string) (d : drv) : result go_error (list ColumnInfo) * drv :=
  andThen (mysql_Query "SELECT COLUMN_NAME, COLUMN_TYPE, COLUMN_COMMENT, IS_NULLABLE FROM information_schema.COLUMNS WHERE TABLE_SCHEMA = ? AND TABLE_NAME = ? ORDER BY ORDINAL_POSITION"
             [or_default database (c_Database (config d)); table] d) (from_rows 4 mysql_column).
Definition mysql_UseDatabase (database : string) (d : drv) : option go_error * drv :=
  if bool_decide (database = "") then (None, d) else use_statement label (escapeMySQLIdentifier database) d.
Definition mysql_QueryWithDB (query database : string) (d : drv) : result go_error (QueryResult cell) * drv :=
  query_with_db mysql_UseDatabase (mysql_Query query []) database d.
Definition mysql_driver : Driver drv := {|
  Connect := mysql_Connect; TestConnection := sql_Ping label; Ping := sql_Ping label; Close := sql_Close; Query := mysql_Query;
  QueryWithDB := mysql_QueryWithDB; TryQueryWithDB := mysql_QueryWithDB; GetDatabases := mysql_GetDatabases; GetTables := mysql_GetTables;
  GetColumns := mysql_GetColumns; SupportsCancel := true; UseDatabase := mysql_UseDatabase |}.
End mysql.
Definition NewMySQLDriver {S W} `{Server S W} (opens : string → option go_error) : Driver (drv S W) := mysql_driver opens "mysql" 3306.
Definition NewDorisDriver {S W} `{Server S W} (opens : string → option go_error) : Driver (drv S W) := mysql_driver opens "doris" 9030.
Definition NewStarRocksDriver {S W} `{Server S W} (opens : string → option go_error) : Driver (drv S W) := mysql_driver opens "starrocks" 9030.

(** ** SQLite *)
Definition escapeSQLiteIdentifier (name : string) : string := double_char dquote name.
(** [PRAGMA table_info] of SQLite and rqlite: at least six cells. *)
Definition pragma_column (row : list cell) : ColumnInfo := mkColumn (text_at 1 row) (text_at 2 row) "" (bool_decide (text_at 3 row = "0")).
Definition sqlite_tables : string := "SELECT name FROM sqlite_master WHERE type='table' AND name NOT LIKE 'sqlite_%' ORDER BY name".
Definition named (row : list cell) : TableInfo := mkTable (text_at 0 row) "".
Section sqlite.
Context {S W : Type} `{Server S W}.
(** [filepath.Abs] and [sql.Open] *)
Variable Abs : string → result go_error string.
Variable opens : string → option go_error.
Abbreviation drv := (drv S W).
Definition sqlite_Connect (c : DatasourceConfig) (d : drv) : option go_error * drv :=
  let kept := mkDrv c (db d) (world d) (picks d) in
  if bool_decide (c_Path c = "") then (Some (plain_error "sqlite path is required"), kept)
  else match Abs (c_Path c) with
       | Err e => (Some (Errorf "failed to resolve sqlite path: " e), kept)
       | Ok absPath => let source := absPath +:+ "?mode=ro" in sql_Connect "sqlite" "sqlite" source (opens source) c d
       end.
Definition sqlite_Query : string → list string → drv → result go_error (QueryResult cell) * drv := sql_Query "sqlite" id id.
Definition sqlite_GetDatabases (d : drv) : result go_error (list string) * drv := (Ok [c_Path (config d)], d).
Definition sqlite_GetTables (database : string) (d : drv) : result go_error (list TableInfo) * drv :=
  andThen (sqlite_Query sqlite_tables [] d) (from_rows 1 named).
Definition sqlite_GetColumns (database table : string) (d : drv) : result go_error (list ColumnInfo) * drv :=
  andThen (sqlite_Query ("PRAGMA table_info(" +:+ escapeSQLiteIdentifier table +:+ ")") [] d) (from_rows 6 pragma_column).
Definition sqlite_UseDatabase (database : string) (d : drv) : option go_error * drv := (None, d).
Definition sqlite_QueryWithDB (query database : string) (d : drv) : result go_error (QueryResult cell) * drv := sqlite_Query query [] d.
Definition sqlite_driver : Driver drv := {|
  Connect := sqlite_Connect; TestConnection := sql_Ping "sqlite"; Ping := sql_Ping "sqlite"; Close := sql_Close; Query := sqlite_Query;
  QueryWithDB := sqlite_QueryWithDB; TryQueryWithDB := sqlite_QueryWithDB; GetDatabases := sqlite_GetDatabases; GetTables := sqlite_GetTables;
  GetColumns := sqlite_GetColumns; SupportsCancel := true; UseDatabase := sqlite_UseDatabase |}.
End sqlite.

(** ** Trino *)
Definition quote_name (s : string) : string := String dquote (s +:+ String dquote "").
Definition escapeTrinoIdentifier (name : string) : string := double_char dquote name.
(** [strings.SplitN(s, ".", 2)], [strings.Index(s, ".")] *)
Fixpoint cut_dot (s : string) : option (string * string) :=
  match s with
  | EmptyString => None
  | String c s => if Ascii.eqb c "." then Some ("", s) else '(a, b) ← cut_dot s; Some (String c a, b)
  end.
Definition buildTrinoQualifiedName (database table : string) : string :=
  let tail := if bool_decide (table = "") then "" else "." +:+ quote_name (escapeTrinoIdentifier table) in
  match cut_dot database with
  | Some (catalog, schema) => quote_name (escapeTrinoIdentifier catalog) +:+ "." +:+ quote_name (escapeTrinoIdentifier schema) +:+ tail
  | None => quote_name (escapeTrinoIdentifier database) +:+ tail
  end.
Fixpoint trino_quotes (inSingleQuote : bool) (s : string) : string :=
  match s with
  | EmptyString => EmptyString
  | String c s =>
      if Ascii.eqb c "'" then String c (trino_quotes (negb inSingleQuote) s)
      else if Ascii.eqb c backtick && negb inSingleQuote then String dquote (trino_quotes inSingleQuote s)
      else String c (trino_quotes inSingleQuote s)
  end.
Definition normalizeTrinoSQL : string → string := trino_quotes false.
Definition convertTrinoValue (v : cell) : cell := match v with CBytes s => CText s | v => v end.
(** The address given to the driver, before [url.URL] writes it; the query
    parameters in the order of their names. *)
Record URL : Type := mkURL { Scheme : string; User : option (string * option string); URL_Host : string; Params : list (string * string) }.
Definition trino_buildDSN (port : Z) (c : DatasourceConfig) : URL :=
  mkURL (match c_Config c !! "ssl" with Some _ => "https" | None => "http" end)
    (if bool_decide (c_Username c = "") then None else Some (c_Username c, if bool_decide (c_Password c = "") then None else Some (c_Password c)))
    (c_Host c +:+ ":" +:+ fmt_d port)
    ((if bool_decide (c_AuthType c = "ldap") then [("SSL", "true")] else []) ++
     (if bool_decide (c_Database c = "") then []
      else match cut_dot (c_Database c) with
           | Some (catalog, schema) => [("catalog", catalog); ("schema", schema)]
           | None => [("catalog", c_Database c)]
           end)).
Definition catalog_of (database : string) : string := match cut_dot database with Some (c, _) => c | None => database end.
Section trino.
Context {S W : Type} `{Server S W}.
(** [URL.String], [sql.Open], and the reason inside an error of the server,
    without its quotation marks. *)
Variables (String_ : URL → string) (opens : string → option go_error) (reason : go_error → option string).
Abbreviation drv := (drv S W).
Definition trino_Connect (c : DatasourceConfig) (d : drv) : option go_error * drv :=
  let source := String_ (trino_buildDSN (default_port 8080 (c_Port c)) c) in
  sql_Connect "trino connection" "trino" source (opens source) c d.
Definition trino_Query (query : string) (args : list string) (d : drv) : result go_error (QueryResult cell) * drv :=
  sql_Query "trino" convertTrinoValue (λ e, match reason e with Some t => plain_error t | None => e end) (normalizeTrinoSQL query) args d.
(** The loop over the catalogs: one whose schemas cannot be listed is skipped. *)
Fixpoint schemas_of (catalogs : list string) (d : drv) : list string * drv :=
  match catalogs with
  | [] => ([], d)
  | catalog :: catalogs =>
      let '(r, d) := trino_Query ("SHOW SCHEMAS FROM " +:+ escapeTrinoIdentifier catalog) [] d in
      let found := match r with
        | Ok r => (λ s, catalog +:+ "." +:+ s) <$> filter (λ s, s ≠ "information_schema") (from_rows 1 (text_at 0) r)
        | Err _ => []
        end in
      let '(l, d) := schemas_of catalogs d in (found ++ l, d)
  end.
Definition trino_GetDatabases (d : drv) : result go_error (list string) * drv :=
  if negb (bool_decide (c_Database (config d) = "")) then let '(l, d) := schemas_of [catalog_of (c_Database (config d))] d in (Ok l, d)
  else match trino_Query "SHOW CATALOGS" [] d with
       | (Err e, d) => (Err e, d)
       | (Ok r, d) => let '(l, d) := schemas_of (from_rows 1 (text_at 0) r) d in (Ok l, d)
       end.
Definition trino_required {A} : result go_error A := Err (plain_error "trino: database (catalog.schema) is required").
Definition trino_GetTables (database : string) (d : drv) : result go_error (list TableInfo) * drv :=
  let database := or_default database (c_Database (config d)) in
  if bool_decide (database = "") then (trino_required, d)
  else andThen (trino_Query ("SHOW TABLES FROM " +:+ buildTrinoQualifiedName database "") [] d) (from_rows 1 named).
Definition trino_GetColumns (database table : string) (d : drv) : result go_error (list ColumnInfo) * drv :=
  let database := or_default database (c_Database (config d)) in
  if bool_decide (database = "") then (trino_required, d)
  else andThen (trino_Query ("SHOW COLUMNS FROM " +:+ buildTrinoQualifiedName database table) [] d)
         (from_rows 2 (λ row, mkColumn (text_at 0 row) (text_at 1 row) "" false)).
Definition trino_UseDatabase (database : string) (d : drv) : option go_error * drv :=
  if bool_decide (database = "") then (None, d)
  else
    use_statement "trino"
      (match cut_dot database with
       | Some (a, b) => escapeTrinoIdentifier a +:+ "." +:+ escapeTrinoIdentifier b
       | None =>
           if bool_decide (c_Database (config d) = "") then escapeTrinoIdentifier database
           else escapeTrinoIdentifier (catalog_of (c_Database (config d))) +:+ "." +:+ escapeTrinoIdentifier database
       end) d.
Definition trino_QueryWithDB (query database : string) (d : drv) : result go_error (QueryResult cell) * drv :=
  query_with_db trino_UseDatabase (trino_Query query []) database d.
Definition trino_driver : Driver drv := {|
  Connect := trino_Connect; TestConnection := sql_Ping "trino"; Ping := sql_Ping "trino"; Close := sql_Close; Query := trino_Query;
  QueryWithDB := trino_QueryWithDB; TryQueryWithDB := trino_QueryWithDB; GetDatabases := trino_GetDatabases; GetTables := trino_GetTables;
  GetColumns := trino_GetColumns; SupportsCancel := true; UseDatabase := trino_UseDatabase |}.
End trino.

(** ** rqlite *)
(** [url.URL] of a node: scheme, user and host. *)
Definition node_url (c : DatasourceConfig) (host : string) : URL :=
  mkURL (if flag (c_Config c !! "ssl") then "https" else "http")
    (if bool_decide (c_Username c = "") || bool_decide (c_Password c = "") then None else Some (c_Username c, Some (c_Password c))) host [].
Definition with_port (host : string) : string := let h := TrimSpace host in if Contains h ":" then h else h +:+ ":4001".
Definition node_urls (c : DatasourceConfig) : list URL := (λ h, node_url c (with_port h)) <$> Split "," (c_RqliteHosts c).
Definition multi (c : DatasourceConfig) : bool := bool_decide (c_ConnectionMode c = "multi") && negb (bool_decide (c_RqliteHosts c = "")).

Section rqlite.
Context {C W : Type}.
(** [rqlite.Open] gives a connection and an error; [ask] is
    [QueryOneParameterized]: its error, or the result, with the error in it. *)
Class Rqlite : Type := {
  open : string → W → option C * option go_error * W;
  ask : C → string → list string → W → result go_error (option go_error * rows) * W;
  close : C → W → W;
}.
Record rqlite : Type := mkRqlite { r_config : DatasourceConfig; conn : option C; r_world : W }.
Context `{Rqlite}.
Variable String_ : URL → string.

Definition answers (c : C) (w : W) : bool * W :=
  let '(r, w) := ask c "SELECT 1" [] w in (match r with Ok (None, _) => true | _ => false end, w).
(** The loop over the nodes; [c] is the variable [conn]. *)
Fixpoint first_node (urls : list string) (c : option C) (w : W) : option C * W :=
  match urls with
  | [] => (c, w)
  | u :: urls =>
      match open u w with
      | (c, Some _, w) => first_node urls c w
      | (Some c, None, w) =>
          let '(good, w) := answers c w in if good then (Some c, w) else first_node urls None (close c w)
      | (None, None, w) => first_node urls None w
      end
  end.
Definition rqlite_Connect (c : DatasourceConfig) (d : rqlite) : option go_error * rqlite :=
  if multi c then
    match first_node (String_ <$> node_urls c) None (r_world d) with
    | (None, w) => (Some (plain_error "failed to connect to any rqlite node"), mkRqlite c (conn d) w)
    | (Some x, w) => (None, mkRqlite c (Some x) w)
    end
  else
    match open (String_ (node_url c (c_Host c +:+ ":" +:+ fmt_d (default_port 4001 (c_Port c))))) (r_world d) with
    | (_, Some e, w) => (Some (Errorf "failed to connect to rqlite: " e), mkRqlite c (conn d) w)
    | (x, None, w) => (None, mkRqlite c x w)
    end.
Definition rqlite_TestConnection (d : rqlite) : option go_error * rqlite :=
  match conn d with
  | None => (Some (plain_error (not_established "rqlite")), d)
  | Some c =>
      let '(r, w) := ask c "SELECT 1" [] (r_world d) in
      (match r with
       | Err e | Ok (Some e, _) => Some (Errorf "rqlite test connection failed: " e)
       | Ok (None, _) => None
       end, mkRqlite (r_config d) (conn d) w)
  end.
Definition rqlite_Ping (d : rqlite) : option go_error * rqlite :=
  (match conn d with None => Some (plain_error (not_established "rqlite")) | Some _ => None end, d).
Definition rqlite_Close (d : rqlite) : option go_error * rqlite :=
  (None, match conn d with Some c => mkRqlite (r_config d) (conn d) (close c (r_world d)) | None => d end).
(** [qr.Slice()] gives a row as it is. *)
Fixpoint slices (l : list (result go_error (list cell))) : result go_error (list (list cell)) :=
  match l with
  | [] => Ok []
  | Err e :: _ => Err e
  | Ok row :: l => match slices l with Ok rs => Ok (row :: rs) | Err e => Err e end
  end.
(** [Columns] gives no error. *)
Definition columns_of (r : rows) : list string := match r_columns r with Ok l => l | Err _ => [] end.
Definition rqlite_Query (query : string) (args : list string) (d : rqlite) : result go_error (QueryResult cell) * rqlite :=
  match conn d with
  | None => (no_connection (not_established "rqlite") "rqlite", d)
  | Some c =>
      let '(r, w) := ask c query args (r_world d) in
      (match r with
       | Err e | Ok (Some e, _) => classified e "rqlite"
       | Ok (None, rs) => match slices (r_rows rs) with Err e => classified e "rqlite" | Ok l => Ok (table_of (columns_of rs) l) end
       end, mkRqlite (r_config d) (conn d) w)
  end.
Definition escapeRqliteIdentifier (name : string) : string := double_char dquote name.
Definition rqlite_GetDatabases (d : rqlite) : result go_error (list string) * rqlite := (Ok ["main"], d).
Definition rqlite_GetTables (database : string) (d : rqlite) : result go_error (list TableInfo) * rqlite :=
  andThen (rqlite_Query sqlite_tables [] d) (from_rows 1 named).
Definition rqlite_GetColumns (database table : string) (d : rqlite) : result go_error (list ColumnInfo) * rqlite :=
  andThen (rqlite_Query ("PRAGMA table_info(" +:+ escapeRqliteIdentifier table +:+ ")") [] d) (from_rows 6 pragma_column).
Definition rqlite_QueryWithDB (query database : string) (d : rqlite) : result go_error (QueryResult cell) * rqlite := rqlite_Query query [] d.
Definition rqlite_UseDatabase (database : string) (d : rqlite) : option go_error * rqlite := (None, d).
Definition rqlite_driver : Driver rqlite := {|
  Connect := rqlite_Connect; TestConnection := rqlite_TestConnection; Ping := rqlite_Ping; Close := rqlite_Close; Query := rqlite_Query;
  QueryWithDB := rqlite_QueryWithDB; TryQueryWithDB := rqlite_QueryWithDB; GetDatabases := rqlite_GetDatabases; GetTables := rqlite_GetTables;
  GetColumns := rqlite_GetColumns; SupportsCancel := false; UseDatabase := rqlite_UseDatabase |}.
End rqlite.
Arguments Rqlite C W : clear implicits.
Arguments rqlite C W : clear implicits.

(** ** What the pools keep *)
Section pools.
Context {S W : Type} `{Server S W}.
Implicit Types (p : DB S) (d : drv S W).

(** No more idle sessions than the limit. *)
Definition within p : Prop := (length (idle p) ≤ Z.to_nat (maxIdle p))%nat.
Definition pool_within d : Prop := ∀ p, db d = Some p → within p.

Lemma on_session_within {A} (f : S → W → result go_error A * S * W) p w k : within p → within (on_session f p w k).1.2.
Proof.
  intros Hp. unfold on_session. destruct (isClosed p); [done|]. destruct (idle p !! k) as [s|].
  - destruct (f s w) as [[r s'] w']. unfold within. simpl. by rewrite length_insert.
  - destruct (dial (dsn p) w) as [[s|e] w1]; [|done]. destruct (f s w1) as [[r s'] w']. unfold within. simpl. rewrite length_firstn. lia.
Qed.
Lemma use_within {A} (f : S → W → result go_error A * S * W) p d : within p → pool_within (use f p d).2.
Proof.
  intros Hp. pose proof (on_session_within f p (world d) (hd O (picks d)) Hp) as Hw. unfold use.
  destruct (on_session _ _ _ _) as [[r p'] w']. by intros q [= <-].
Qed.

(** The calls the drivers over [database/sql] are made of. *)
Inductive sql_call : drv S W → drv S W → Prop :=
| sc_connect opening label source opened cfg d : sql_call d (sql_Connect opening label source opened cfg d).2
| sc_ping label d : sql_call d (sql_Ping label d).2
| sc_query label convert mend query args d : sql_call d (sql_Query label convert mend query args d).2
| sc_use label name d : sql_call d (use_statement label name d).2
| sc_config cfg d : sql_call d (UpdatePoolConfig cfg d)
| sc_close d : sql_call d (sql_Close d).2.

Lemma sql_call_within d d' : sql_call d d' → pool_within d → pool_within d'.
Proof.
  intros Hc Hd. destruct Hc as [opening label source opened cfg d|label d|label convert mend query args d|label name d|cfg d|d].
  - unfold sql_Connect. destruct opened; [done|].
    pose proof (on_session_within db_ping (Open source) (world d) (hd O (picks d)) ltac:(unfold within; simpl; lia)) as Hw.
    destruct (on_session _ _ _ _) as [[r p'] w']. destruct r; [|done]. by intros q [= <-].
  - unfold sql_Ping. destruct (db d) as [p|] eqn:Ep; [|done]. pose proof (use_within db_ping p d (Hd p Ep)) as Hu. by destruct (use _ _ _).
  - unfold sql_Query. destruct (db d) as [p|] eqn:Ep; [|done]. pose proof (use_within (run query args) p d (Hd p Ep)) as Hu. by destruct (use _ _ _).
  - unfold use_statement. destruct (db d) as [p|] eqn:Ep; [|done].
    pose proof (use_within (run ("USE " +:+ name) []) p d (Hd p Ep)) as Hu. by destruct (use _ _ _).
  - intros p. unfold UpdatePoolConfig. simpl. destruct (db d) as [q|]; [|done]. intros [= <-]. unfold within. simpl. rewrite length_firstn. lia.
  - intros p. unfold sql_Close. simpl. destruct (db d) as [q|]; [|done]. intros [= <-]. unfold within. simpl. lia.
Qed.

Definition NewSQLDriver (cfg : DatasourceConfig) (w : W) (choices : list nat) : drv S W := mkDrv cfg None w choices.

(** Whatever is called, and whatever fails at the server, a driver keeps at
    most as many idle sessions as its pool allows. *)
Theorem idle_sessions_bounded cfg w choices d p :
  rtc sql_call (NewSQLDriver cfg w choices) d → db d = Some p → (length (idle p) ≤ Z.to_nat (maxIdle p))%nat.
Proof.
  intros Hr. assert (pool_within d) as Hd; [|by apply Hd].
  assert (pool_within (NewSQLDriver cfg w choices)) as H0 by done. revert H0. induction Hr as [|x y z Hxy _ IH]; [done|].
  intros Hx. by apply IH, (sql_call_within x).
Qed.

(** *** The database of a query *)
(** [inside s b]: the session resolves names in [b]. *)
Variable inside : S → string → Prop.
Hypothesis used : ∀ b s w rs s' w', run ("USE " +:+ escapeMySQLIdentifier b) [] s w = (Ok rs, s', w') → inside s' b.

(** [d] has one session, gives it to the next call, and is not closed. *)
Definition single (p : DB S) (s : S) (rest : list nat) d : Prop :=
  db d = Some p ∧ isClosed p = false ∧ idle p = [s] ∧ picks d = 0%nat :: rest.

Lemma use_single label b p s rest d : single p s rest d → b ≠ "" →
  mysql_UseDatabase label b d =
    let '(r, s', w') := run ("USE " +:+ escapeMySQLIdentifier b) [] s (world d) in
    (Errorf (label +:+ " use database error: ") <$> failure r, mkDrv (config d) (Some (set_idle [s'] p)) w' rest).
Proof.
  intros (Hp & Hc & Hs & Hk) Hb. unfold mysql_UseDatabase, use_statement, use, on_session. rewrite bool_decide_false, Hp, Hc, Hs, Hk by done. simpl.
  by destruct (run _ [] s (world d)) as [[r s'] w'].
Qed.
Lemma query_single label query p s rest d : single p s rest d →
  (mysql_Query label query [] d).1 = answer_of label convertMySQLValue id (run query [] s (world d)).1.1.
Proof.
  intros (Hp & Hc & Hs & Hk). unfold mysql_Query, sql_Query, use, on_session. rewrite Hp, Hc, Hs, Hk. simpl.
  by destruct (run query [] s (world d)) as [[r s'] w'].
Qed.

(** As long as the pool has one session and gives it to both calls,
    [QueryWithDB] of MySQL, Doris and StarRocks runs the statement on a session
    that is in the database asked for, or not at all. *)
Theorem one_session_runs_in_its_database label query b p s rest d : single p s (0%nat :: rest) d → b ≠ "" →
  (∃ e, (mysql_QueryWithDB label query b d).1 = Err (Errorf (label +:+ " use database error: ") e)) ∨
  ∃ s1 w1, inside s1 b ∧ (mysql_QueryWithDB label query b d).1 = answer_of label convertMySQLValue id (run query [] s1 w1).1.1.
Proof.
  intros Hd Hb. unfold mysql_QueryWithDB, query_with_db. rewrite bool_decide_false, (use_single label b p s _ d Hd Hb) by done.
  destruct (run ("USE " +:+ escapeMySQLIdentifier b) [] s (world d)) as [[r s1] w1] eqn:Eu. destruct r as [rs|e]; simpl; [|left; by exists e].
  right. exists s1, w1. split; [by eapply used|].
  pose proof (query_single label query (set_idle [s1] p) s1 rest (mkDrv (config d) (Some (set_idle [s1] p)) w1 (0%nat :: rest))) as Hq.
  destruct (mysql_Query _ _ _ _) as [r d']. apply Hq. by split_and!; [|apply Hd|..].
Qed.
End pools.

(** ** Names *)
(** A reader of quoted names: [q] ends the name unless it is doubled. *)
Definition cons_name (c : ascii) (r : option (string * string)) : option (string * string) := (λ x, (String c x.1, x.2)) <$> r.
Fixpoint read_quoted (q : ascii) (s : string) : option (string * string) :=
  match s with
  | EmptyString => None
  | String c s =>
      if Ascii.eqb c q then
        match s with
        | String c' s' => if Ascii.eqb c' q then cons_name q (read_quoted q s') else Some ("", s)
        | EmptyString => Some ("", "")
        end
      else cons_name c (read_quoted q s)
  end.
Definition starts_with (q : ascii) (s : string) : bool := match s with String c _ => Ascii.eqb c q | EmptyString => false end.

Lemma doubled_reads_back q s rest : starts_with q rest = false → read_quoted q (double_char q s +:+ String q rest) = Some (s, rest).
Proof.
  intros Hr. induction s as [|a s IH]; simpl.
  - rewrite Ascii.eqb_refl. destruct rest as [|c rest]; [done|]. simpl in Hr. by rewrite Hr.
  - destruct (Ascii.eqb_spec a q) as [->|Hne].
    + simpl. rewrite Ascii.eqb_refl. by rewrite IH.
    + simpl. destruct (Ascii.eqb_spec a q); [done|]. by rewrite IH.
Qed.

(** Quoted names with dots between them. *)
Fixpoint read_names (n : nat) (s : string) : option (list string) :=
  match n, s with
  | Datatypes.S n, String c s =>
      if Ascii.eqb c dquote then
        match read_quoted dquote s with
        | Some (name, "") => Some [name]
        | Some (name, String c s) => if Ascii.eqb c "." then cons name <$> read_names n s else None
        | None => None
        end
      else None
  | _, _ => None
  end.
(** [catalog.schema] and the table. *)
Definition name_parts (database table : string) : list string :=
  match cut_dot database with Some (a, b) => [a; b] | None => [database] end ++ (if bool_decide (table = "") then [] else [table]).

Lemma quote_name_app s rest : quote_name s +:+ rest = String dquote (s +:+ String dquote rest).
Proof. unfold quote_name. by rewrite !string_app_cons, <- (assoc_L String.append), string_app_cons. Qed.
Lemma read_dot n s rest : read_names (Datatypes.S n) (quote_name (escapeTrinoIdentifier s) +:+ "." +:+ rest) = cons s <$> read_names n rest.
Proof. rewrite quote_name_app, string_app_cons. simpl. unfold escapeTrinoIdentifier. by rewrite doubled_reads_back. Qed.
Lemma read_last n s : read_names (Datatypes.S n) (quote_name (escapeTrinoIdentifier s)) = Some [s].
Proof.
  rewrite <- (append_nil (quote_name _)), quote_name_app. simpl. unfold escapeTrinoIdentifier. by rewrite doubled_reads_back.
Qed.

(** Whatever characters catalog, schema and table have, the name in a
    statement of Trino reads as exactly these parts. *)
Theorem qualified_name_reads_back database table :
  read_names 3 (buildTrinoQualifiedName database table) = Some (name_parts database table).
Proof.
  unfold buildTrinoQualifiedName, name_parts.
  destruct (cut_dot database) as [[a b]|]; case_bool_decide; by rewrite ?append_nil, ?read_dot, ?read_last.
Qed.

(** [normalizeTrinoSQL] changes backticks outside quotes only, and nothing
    the second time. *)
Lemma trino_quotes_twice b s : trino_quotes b (trino_quotes b s) = trino_quotes b s.
Proof.
  revert b. induction s as [|c s IH]; intros b; [done|]. simpl. destruct (Ascii.eqb_spec c "'") as [->|Hq].
  - simpl. by rewrite IH.
  - destruct (Ascii.eqb_spec c backtick) as [->|Hb]; destruct b; simpl; rewrite ?IH; try done.
    + destruct (Ascii.eqb_spec c "'"); [done|]. by destruct (Ascii.eqb_spec c backtick).
    + destruct (Ascii.eqb_spec c "'"); [done|]. by destruct (Ascii.eqb_spec c backtick).
Qed.
Theorem normalized_once sql : normalizeTrinoSQL (normalizeTrinoSQL sql) = normalizeTrinoSQL sql.
Proof. apply trino_quotes_twice. Qed.

(** ** Examples *)
(** A server that keeps the current database of a session and the statements
    it was sent; every query answers with the current database. *)
Definition after_use (sql : string) : string := String.substring 4 (String.length sql - 4) sql.
#[local] Instance demo_server : Server string (list string) := {
  dial _ w := (Ok "home", w);
  run sql _ s w := (Ok (mkRows (Ok ["database()"]) [Ok [CText s]] None), if HasPrefix sql "USE " then after_use sql else s, w ++ [sql]);
  ping s w := (None, s, w);
}.
Definition demo_config (database : string) : DatasourceConfig := mkDsConfig "mysql" "db" 0 "" database "u" "p" "" "" "" "" "" ∅.
Definition demo_driver (database : string) (sessions : list string) (choices : list nat) : drv string (list string) :=
  mkDrv (demo_config database) (Some (mkDB "dsn" sessions 0 2 0 false)) [] choices.
Definition seen (r : result go_error (QueryResult cell)) : option (list (list cell)) := match r with Ok x => Some (Rows x) | Err _ => None end.
Definition ask_sales := mysql_QueryWithDB (S := string) (W := list string) "mysql" "SELECT database()" "sales".

Lemma connected_and_asked :
  let new := NewSQLDriver (demo_config "") [] [] in
  let d := (sql_Query (S := string) "mysql" id id "SELECT 1" [] (sql_Connect "mysql" "mysql" "dsn" None (demo_config "") new).2).2 in
  rtc sql_call new d ∧ (idle <$> db d) = Some ["home"].
Proof. split; [|reflexivity]. eapply rtc_l; [apply sc_connect|]. eapply rtc_l; [apply sc_query|]. apply rtc_refl. Qed.

(** With one session the query runs where it should; with two, [USE] goes to
    one of them and the query to the other. *)
Lemma query_runs_elsewhere :
  seen (ask_sales (demo_driver "home" ["home"] [0; 0; 0]%nat)).1 = Some [[CText "sales"]] ∧
  seen (ask_sales (demo_driver "home" ["home"; "home"] [0; 1; 1]%nat)).1 = Some [[CText "home"]].
Proof. by vm_compute. Qed.

(** The session that [USE] moved stays there for whoever gets it next: the
    call that should move it back goes to another session, or is not made
    when the data source names no database. *)
Lemma session_stays_in_database :
  (idle <$> db (ask_sales (demo_driver "home" ["home"; "home"] [0; 1; 1]%nat)).2) = Some ["sales"; "home"] ∧
  (idle <$> db (ask_sales (demo_driver "" ["home"] [0; 0]%nat)).2) = Some ["sales"].
Proof. by vm_compute. Qed.

(** A database is named in [USE] without quotes: its name can go on with
    another statement. *)
Lemma name_is_not_quoted :
  world (mysql_UseDatabase (S := string) "mysql" "sales; DROP TABLE orders" (demo_driver "" ["home"] [0%nat])).2 = ["USE sales; DROP TABLE orders"].
Proof. by vm_compute. Qed.

