(* ===== verification/HiveDriver.v ===== *)
(** * Hive, Kyuubi and Spark

    [src/scheduler/internal/datasource/driver/hive.go], [kyuubi.go] and
    [spark.go], with the connections of [hive_pool.go] as their driver sees
    them: a connection, the database it is labelled with, the session it has
    at the server.  Which connection a call gets is decided by the call's
    [turn], as is whether the pool keeps one that comes back ([HivePool] says
    when); the server is a parameter, and so is what [errors.As] finds of a
    [HiveError] in an error. *)
From stdpp Require Import gmap.
From Stdlib Require Import Ascii.
From S2P Require Import Prelude Sql Text SqlText QueryRegistry Manager HivePool SqlDrivers.

(** What the three drivers differ in. *)
Record family : Type := mkFamily { label : string; port_ : Z; set_timeout : string }.
Definition hive_family : family := mkFamily "hive" 10000 "SET hive.execution.engine.query.timeout=".
Definition kyuubi_family : family := mkFamily "kyuubi" 10009 "SET kyuubi.operation.query.timeout=".
Definition spark_family : family := mkFamily "spark" 10016 "SET spark.sql.query.timeout=".

(** [errors.Wrap] *)
Definition Wrap (e : go_error) (msg : string) : go_error := Errorf (msg +:+ ": ") e.
Definition escapeHiveIdentifier (name : string) : string := double_char backtick name.

(** [extractQueryTimeout]; [remaining]: the time left of a deadline. *)
Definition extractQueryTimeout (remaining : option Z) (setPrefix : string) (buffer : Z) : Z * string :=
  match remaining with
  | Some r =>
      if r <=? 0 then (0, "")
      else let timeoutSec := Z.quot (r + buffer) Second in if timeoutSec <=? 0 then (0, "") else (timeoutSec, setPrefix +:+ fmt_d timeoutSec)
  | None => (0, "")
  end.

(** What a cursor gives: the error of [Exec], the description, a map for each
    row, and the error when there are no more rows. *)
Record cursor : Type := mkCursor {
  c_exec : option go_error; c_description : result go_error (list (list string));
  c_fetch : list (result go_error (gmap string cell)); c_finish : option go_error;
}.
(** [gohive.ConnectConfiguration] with the address and the authentication;
    the address is a quorum or a host with its port. *)
Record endpoint : Type := mkEndpoint {
  e_user : string; e_password : string; e_service : string; e_database : string; e_namespace : string; e_auth : string;
  e_address : string + string * Z;
}.

Section hive.
Context {S W : Type}.
Class HiveServer : Type := {
  connect : endpoint → W → result go_error S * W;
  exec : string → S → W → cursor * S * W;
  (** [HiveError]: its message and code *)
  hive_error : go_error → option (string * Z);
}.
Context `{HiveServer}.
Variable fam : family.

Record pooledConn : Type := mkPc { pc_id : nat; pc_database : string; pc_session : S }.
Inductive event : Type := Acquired (id : nat) | Released (id : nat) | Discarded (id : nat).
Record pool : Type := mkPool { free : list pooledConn; next_id : nat; pool_config : PoolConfig }.
(** What is decided outside a call. *)
Inductive taking : Type := TakeFree (k : nat) | TakeNew | Refused (e : go_error).
Record turn : Type := mkTurn {
  t_taking : taking; t_remaining : option Z; t_done : option go_error;   (** the error of the context, when it ends first *)
  t_kept : bool; t_inUse : Z;
}.
Record hdrv : Type := mkHdrv {
  h_config : DatasourceConfig; h_pool : option pool; defaultDB : string; unhealthy : bool; h_world : W; events : list event;
}.
Definition set_pool (p : pool) (d : hdrv) : hdrv := mkHdrv (h_config d) (Some p) (defaultDB d) (unhealthy d) (h_world d) (events d).
Definition set_world (w : W) (d : hdrv) : hdrv := mkHdrv (h_config d) (h_pool d) (defaultDB d) (unhealthy d) w (events d).
Definition emit (e : event) (d : hdrv) : hdrv := mkHdrv (h_config d) (h_pool d) (defaultDB d) (unhealthy d) (h_world d) (events d ++ [e]).
Definition MarkUnhealthy (d : hdrv) : hdrv := mkHdrv (h_config d) (h_pool d) (defaultDB d) true (h_world d) (events d).
Definition IsUnhealthy (d : hdrv) : bool := unhealthy d.

Definition extractGohiveError (e : go_error) (wrapMsg : string) : go_error :=
  match hive_error e with
  | Some (m, code) =>
      let msg := or_default m (error_text e) in
      plain_error (if 0 <? code then wrapMsg +:+ ": " +:+ msg +:+ " (errorCode: " +:+ fmt_d code +:+ ")" else wrapMsg +:+ ": " +:+ msg)
  | None =>
      if Contains (error_text e) "operation in state" && Contains (error_text e) "without task status or error message"
      then plain_error (wrapMsg +:+ ": 查询执行失败，Hive未返回详细错误信息，请检查SQL语法或数据源权限")
      else Wrap e wrapMsg
  end.

(** ** Connections *)
Definition endpoint_of (c : DatasourceConfig) : endpoint :=
  mkEndpoint (c_Username c) (c_Password c) (label fam) (c_Database c) (ZookeeperNamespace c) (if bool_decide (c_AuthType c = "ldap") then "LDAP" else "NONE")
    (if bool_decide (c_ConnectionMode c = "zookeeper") && negb (bool_decide (ZookeeperQuorum c = "")) then inl (ZookeeperQuorum c)
     else inr (c_Host c, default_port (port_ fam) (c_Port c))).
(** [createHiveConnection] and its copies; [gone]: the context ends first. *)
Definition createConnection (gone : option go_error) (d : hdrv) : result go_error S * hdrv :=
  let '(r, w) := connect (endpoint_of (h_config d)) (h_world d) in
  (match gone, r with
   | Some e, _ => Err (Wrap e (label fam +:+ " connect cancelled"))
   | None, Err e => Err (Wrap e ("failed to connect to " +:+ label fam))
   | None, Ok s => Ok s
   end, set_world w d).
Definition add_free (s : S) (database : string) (p : pool) : pool :=
  mkPool (free p ++ [mkPc (next_id p) database s]) (Datatypes.S (next_id p)) (pool_config p).
Definition on_pool (f : pool → pool) (d : hdrv) : hdrv := match h_pool d with Some p => set_pool (f p) d | None => d end.
(** [put], while there is room. *)
Definition put (s : S) (database : string) : hdrv → hdrv :=
  on_pool (λ p, if Z.of_nat (length (free p)) <? MaxOpen (pool_config p) then add_free s database p else p).
Fixpoint prewarm (n : nat) (d : hdrv) : hdrv :=
  match n with
  | O => d
  | Datatypes.S n => match createConnection None d with (Ok s, d) => prewarm n (put s (defaultDB d) d) | (Err _, d) => d end
  end.
Definition number (v : option json) : option (Z * positive) := match v with Some (JNum n d) => Some (n, d) | _ => None end.
(** The sizes of the configuration, as far as they are numbers in range. *)
Definition pool_config_of (c : DatasourceConfig) : PoolConfig :=
  let read key := number (c_Config c !! (label fam +:+ key)) in
  let pick key (ok : Z → bool) dflt f := match read key with Some (n, k) => if ok n then f (Z.quot n (Zpos k)) else dflt | None => dflt end in
  mkPoolConfig (pick "_pool_size" (Z.ltb 0) (MaxOpen DefaultPoolConfig) id) (pick "_pool_min_idle" (Z.leb 0) (MinIdle DefaultPoolConfig) id)
    (pick "_pool_max_lifetime" (Z.ltb 0) (MaxLifetime DefaultPoolConfig) (λ n, int64 (n * Second))) (AcquireTimeout DefaultPoolConfig).
Definition Connect (t : turn) (c : DatasourceConfig) (d : hdrv) : option go_error * hdrv :=
  let cfg := HivePool.config (newHiveConnPool (pool_config_of c)) in
  let d := mkHdrv c (Some (mkPool [] 0 cfg)) (c_Database c) (unhealthy d) (h_world d) (events d) in
  match createConnection (t_done t) d with
  | (Err e, d) => (Some (Wrap e ("failed to connect to " +:+ label fam)), d)
  | (Ok s, d) => (None, prewarm (Z.to_nat (MinIdle cfg - 1)) (put s (defaultDB d) d))
  end.

(** [acquire] and [tryAcquire]: a free connection, a new one, or an error. *)
Definition take_new (t : turn) (p : pool) (d : hdrv) : result go_error pooledConn * hdrv :=
  match createConnection None d with
  | (Err e, d) => (Err e, d)
  | (Ok s, d) => let pc := mkPc (next_id p) "" s in (Ok pc, emit (Acquired (next_id p)) (set_pool (mkPool (free p) (Datatypes.S (next_id p)) (pool_config p)) d))
  end.
Definition acquire (t : turn) (p : pool) (d : hdrv) : result go_error pooledConn * hdrv :=
  match t_taking t with
  | Refused e => (Err e, d)
  | TakeNew => take_new t p d
  | TakeFree k =>
      match free p !! k with
      | Some pc => (Ok pc, emit (Acquired (pc_id pc)) (set_pool (mkPool (delete k (free p)) (next_id p) (pool_config p)) d))
      | None => take_new t p d
      end
  end.
Definition release (t : turn) (pc : pooledConn) (d : hdrv) : hdrv :=
  emit (Released (pc_id pc)) (on_pool (λ p, if t_kept t then mkPool (free p ++ [pc]) (next_id p) (pool_config p) else p) d).
Definition discard (pc : pooledConn) (d : hdrv) : hdrv := emit (Discarded (pc_id pc)) d.
(** A statement on a connection. *)
Definition send (sql : string) (pc : pooledConn) (d : hdrv) : cursor * pooledConn * hdrv :=
  let '(c, s, w) := exec sql (pc_session pc) (h_world d) in (c, mkPc (pc_id pc) (pc_database pc) s, set_world w d).
Definition ensureDatabase (database : string) (pc : pooledConn) (d : hdrv) : option go_error * pooledConn * hdrv :=
  if bool_decide (database = "") || bool_decide (pc_database pc = database) then (None, pc, d)
  else
    let '(c, pc, d) := send ("USE " +:+ escapeHiveIdentifier database) pc d in
    match c_exec c with
    | Some e => (Some (extractGohiveError e "hive switch database error"), pc, d)
    | None => (None, mkPc (pc_id pc) database (pc_session pc), d)
    end.
(** A failure to set the time is only logged. *)
Definition setQueryTimeout (timeoutSQL : string) (pc : pooledConn) (d : hdrv) : pooledConn * hdrv :=
  if bool_decide (timeoutSQL = "") then (pc, d) else let '(_, pc, d) := send timeoutSQL pc d in (pc, d).

(** ** Queries *)
Definition not_initialized : string := label fam +:+ " connection pool not initialized".
Definition first_of (col : list string) : list string := match col with name :: _ => [name] | [] => [] end.
Fixpoint fetch (columns : list string) (l : list (result go_error (gmap string cell))) : result go_error (list (list cell)) :=
  match l with
  | [] => Ok []
  | Err e :: _ => Err (extractGohiveError e (label fam +:+ " fetch error"))
  | Ok row :: l =>
      match fetch columns l with Ok rs => Ok (((λ col, default CNil (row !! col)) <$> columns) :: rs) | Err e => Err e end
  end.
(** The goroutine that reads the cursor. *)
Definition read_cursor (c : cursor) : result go_error (QueryResult cell) :=
  match c_exec c with
  | Some e => Err (extractGohiveError e (label fam +:+ " query error"))
  | None =>
      match c_description c with
      | Err e => Err (extractGohiveError e (label fam +:+ " get description error"))
      | Ok description =>
          match description ≫= first_of with
          | [] => Err (plain_error (label fam +:+ " query returned no columns, the SQL may contain errors or the table does not exist"))
          | columns =>
              match fetch columns (c_fetch c) with
              | Err e => Err e
              | Ok rs =>
                  match c_finish c with
                  | Some e => Err (extractGohiveError e (label fam +:+ " query error"))
                  | None => Ok (table_of columns rs)
                  end
              end
          end
      end
  end.
(** What becomes of the connection and of the answer. *)
Definition conclude (t : turn) (pc : pooledConn) (r : result go_error (QueryResult cell)) (d : hdrv) : result go_error (QueryResult cell) * hdrv :=
  match t_done t with
  | Some e => (Err (Wrap e (label fam +:+ " query cancelled")), discard pc d)
  | None =>
      (r, match r with
          | Err e => if isConnectionError e then MarkUnhealthy (discard pc d) else release t pc d
          | Ok _ => release t pc d
          end)
  end.
(** Up to the statement itself: a connection in the database, with the time
    it may take. *)
Definition prepare (t : turn) (database : string) (d : hdrv) : result go_error pooledConn * hdrv :=
  match h_pool d with
  | None => (no_connection not_initialized (label fam), d)
  | Some p =>
      match acquire t p d with
      | (Err e, d) => (classified (Wrap e (label fam +:+ " acquire connection failed")) (label fam), d)
      | (Ok pc, d) =>
          match ensureDatabase database pc d with
          | (Some e, pc, d) => (classified (Wrap e (label fam +:+ " switch database failed")) (label fam), discard pc d)
          | (None, pc, d) =>
              let '(pc, d) := setQueryTimeout (extractQueryTimeout (t_remaining t) (set_timeout fam) (5 * Second)).2 pc d in (Ok pc, d)
          end
      end
  end.
Definition queryWithDB (t : turn) (query database : string) (d : hdrv) : result go_error (QueryResult cell) * hdrv :=
  match prepare t database d with
  | (Err e, d) => (Err e, d)
  | (Ok pc, d) => let '(c, pc, d) := send (normalizeSQL query) pc d in conclude t pc (read_cursor c) d
  end.
Definition QueryWithDB (t : turn) (query database : string) (d : hdrv) : result go_error (QueryResult cell) * hdrv := queryWithDB t query database d.
Definition TryQueryWithDB (t : turn) (query database : string) (d : hdrv) : result go_error (QueryResult cell) * hdrv := queryWithDB t query database d.
Definition Query (t : turn) (query : string) (d : hdrv) : result go_error (QueryResult cell) * hdrv := QueryWithDB t query (defaultDB d) d.

(** ** The other operations *)
Definition TestConnection (t : turn) (d : hdrv) : option go_error * hdrv :=
  match h_pool d with
  | None => (Some (plain_error not_initialized), d)
  | Some p =>
      match acquire t p d with
      | (Err e, d) => (Some (Wrap e (label fam +:+ " test connection failed")), d)
      | (Ok pc, d) =>
          let '(c, pc, d) := send (normalizeSQL "SELECT 1") pc d in
          ((λ e, extractGohiveError e (label fam +:+ " test connection failed")) <$> c_exec c, release t pc d)
      end
  end.
Definition Ping (t : turn) (d : hdrv) : option go_error * hdrv :=
  (if unhealthy d then Some (plain_error (label fam +:+ " connection marked as unhealthy"))
   else match h_pool d with
        | None => Some (plain_error not_initialized)
        | Some p =>
            if MaxOpen (pool_config p) <=? t_inUse t
            then Some (plain_error (label fam +:+ " connection pool fully occupied, all connections in use")) else None
        end, d).
Definition UpdatePoolConfig (cfg : PoolConfig) (d : hdrv) : hdrv := on_pool (λ p, mkPool (free p) (next_id p) (normalized cfg)) d.
Definition GetPoolConfig (d : hdrv) : PoolConfig := match h_pool d with Some p => pool_config p | None => DefaultPoolConfig end.
(** The free connections are closed; the pool does not refuse later calls. *)
Definition Close (d : hdrv) : option go_error * hdrv := (None, on_pool (λ p, mkPool [] (next_id p) (pool_config p)) d).
Definition GetDatabases (t : turn) (d : hdrv) : result go_error (list string) * hdrv :=
  andThen (TryQueryWithDB t (normalizeSQL "SHOW DATABASES") (defaultDB d) d) (from_rows 1 (text_at 0)).
Definition GetTables (t : turn) (database : string) (d : hdrv) : result go_error (list TableInfo) * hdrv :=
  let database := or_default database (c_Database (h_config d)) in
  andThen (TryQueryWithDB t ("SHOW TABLES IN " +:+ escapeHiveIdentifier database) database d) (from_rows 1 named).
Definition GetColumns (t : turn) (database table : string) (d : hdrv) : result go_error (list ColumnInfo) * hdrv :=
  let database := or_default database (c_Database (h_config d)) in
  andThen (TryQueryWithDB t ("DESCRIBE " +:+ escapeHiveIdentifier database +:+ "." +:+ escapeHiveIdentifier table) database d)
    (from_rows 2 (λ row, mkColumn (text_at 0 row) (text_at 1 row) "" false)).
(** Only the default changes. *)
Definition UseDatabase (database : string) (d : hdrv) : option go_error * hdrv :=
  (None, if bool_decide (database = "") then d else mkHdrv (h_config d) (h_pool d) database (unhealthy d) (h_world d) (events d)).
(** The interface: a call takes the next turn. *)
Definition free_turn : turn := mkTurn TakeNew None None true 0.
Definition in_turn {A} (f : turn → hdrv → A * hdrv) (d : hdrv * list turn) : A * (hdrv * list turn) :=
  let '(r, x) := f (hd free_turn d.2) d.1 in (r, (x, tl d.2)).
Definition family_driver : Driver (hdrv * list turn) := {|
  SqlDrivers.Connect := λ c, in_turn (λ t, Connect t c); SqlDrivers.TestConnection := in_turn TestConnection; SqlDrivers.Ping := in_turn Ping;
  SqlDrivers.Close := in_turn (λ _, Close); SqlDrivers.Query := λ q _, in_turn (λ t, Query t q);
  SqlDrivers.QueryWithDB := λ q b, in_turn (λ t, QueryWithDB t q b); SqlDrivers.TryQueryWithDB := λ q b, in_turn (λ t, TryQueryWithDB t q b);
  SqlDrivers.GetDatabases := in_turn GetDatabases; SqlDrivers.GetTables := λ b, in_turn (λ t, GetTables t b);
  SqlDrivers.GetColumns := λ b x, in_turn (λ t, GetColumns t b x); SupportsCancel := true; SqlDrivers.UseDatabase := λ b, in_turn (λ _, UseDatabase b) |}.
End hive.
Arguments hdrv S W : clear implicits.
Arguments HiveServer S W : clear implicits.
Definition kyuubi_queryWithDB {S W} `{HiveServer S W} := queryWithDB (S := S) (W := W) kyuubi_family.
Definition spark_queryWithDB {S W} `{HiveServer S W} := queryWithDB (S := S) (W := W) spark_family.
Definition NewHiveDriver {S W} `{HiveServer S W} : Driver (hdrv S W * list turn) := family_driver hive_family.
Definition NewKyuubiDriver {S W} `{HiveServer S W} : Driver (hdrv S W * list turn) := family_driver kyuubi_family.
Definition NewSparkDriver {S W} `{HiveServer S W} : Driver (hdrv S W * list turn) := family_driver spark_family.

(** ** What a call does with its connection *)
Section accounts.
Context {S W : Type} `{HiveServer S W}.
Variable fam : family.
Implicit Types d : hdrv S W.

(** The events of a call: none, or one connection that is taken and given
    back or thrown away. *)
Inductive accounted : list event → Prop :=
| acc_none : accounted []
| acc_released id : accounted [Acquired id; Released id]
| acc_discarded id : accounted [Acquired id; Discarded id].
Definition settles {A} (r : A * hdrv S W) d : Prop := ∃ l, events r.2 = events d ++ l ∧ accounted l.

Lemma events_on_pool f d : events (on_pool f d) = events d.
Proof. unfold on_pool. by destruct (h_pool d). Qed.
Lemma events_create gone d : events (createConnection fam gone d).2 = events d.
Proof. unfold createConnection. by destruct (connect _ _) as [r w]. Qed.
Lemma events_send sql (pc : pooledConn) d : events (send sql pc d).2 = events d ∧ pc_id (send sql pc d).1.2 = pc_id pc.
Proof. unfold send. by destruct (exec _ _ _) as [[c s] w]. Qed.
Lemma take_new_events t p d r d' : take_new fam t p d = (r, d') →
  match r with Ok pc => events d' = events d ++ [Acquired (pc_id pc)] | Err _ => events d' = events d end.
Proof. unfold take_new. pose proof (events_create None d) as E. destruct (createConnection fam None d) as [[s|e] x]; intros [= <- <-]; simpl in *; by rewrite E. Qed.
Lemma acquire_events t p d r d' : acquire fam t p d = (r, d') →
  match r with Ok pc => events d' = events d ++ [Acquired (pc_id pc)] | Err _ => events d' = events d end.
Proof.
  unfold acquire. destruct (t_taking t) as [k| |e]; [|apply take_new_events|by intros [= <- <-]].
  destruct (free p !! k); [by intros [= <- <-]|apply take_new_events].
Qed.
Lemma ensure_events database pc d e pc' d' : ensureDatabase database pc d = (e, pc', d') → events d' = events d ∧ pc_id pc' = pc_id pc.
Proof.
  unfold ensureDatabase. destruct (_ || _); [by intros [= _ <- <-]|]. destruct (events_send ("USE " +:+ escapeHiveIdentifier database) pc d) as [E1 E2].
  destruct (send _ _ _) as [[c x] y]. simpl in *. by destruct (c_exec c); intros [= _ <- <-].
Qed.
Lemma timeout_events sql pc d pc' d' : setQueryTimeout sql pc d = (pc', d') → events d' = events d ∧ pc_id pc' = pc_id pc.
Proof.
  unfold setQueryTimeout. case_bool_decide; [by intros [= <- <-]|]. destruct (events_send sql pc d) as [E1 E2]. destruct (send _ _ _) as [[c x] y].
  simpl in *. by intros [= <- <-].
Qed.
Lemma release_events t pc d : events (release t pc d) = events d ++ [Released (pc_id pc)].
Proof. unfold release. simpl. by rewrite events_on_pool. Qed.

Lemma prepare_events t database d r d' : prepare fam t database d = (r, d') →
  match r with Ok pc => events d' = events d ++ [Acquired (pc_id pc)] | Err _ => ∃ l, events d' = events d ++ l ∧ accounted l end.
Proof.
  unfold prepare. destruct (h_pool d) as [p|]; [|intros [= <- <-]; exists []; split; [by rewrite app_nil_r|constructor]].
  destruct (acquire fam t p d) as [[pc|e] d1] eqn:Ea; apply acquire_events in Ea; [|intros [= <- <-]; exists []; split; [by rewrite app_nil_r|constructor]].
  destruct (ensureDatabase database pc d1) as [[[e|] pc2] d2] eqn:Eu; apply ensure_events in Eu as [E2 I2].
  - intros [= <- <-]. exists [Acquired (pc_id pc); Discarded (pc_id pc)]. simpl. rewrite E2, Ea, I2, <- app_assoc. split; [done|constructor].
  - destruct (setQueryTimeout _ pc2 d2) as [pc3 d3] eqn:Et. apply timeout_events in Et as [E3 I3]. intros [= <- <-]. congruence.
Qed.
(** Every call for a query gives the connection it took back exactly once, or
    throws it away, on every path. *)
Theorem query_settles t query database d : settles (QueryWithDB fam t query database d) d.
Proof.
  unfold settles, QueryWithDB, queryWithDB. destruct (prepare fam t database d) as [[pc|e] d1] eqn:Ep; apply prepare_events in Ep; [|done].
  destruct (events_send (normalizeSQL query) pc d1) as [E2 I2]. destruct (send _ _ _) as [[c pc2] d2]. simpl in E2, I2.
  assert (∃ l, events (discard pc2 d2) = events d ++ l ∧ accounted l) as Hd.
  { exists [Acquired (pc_id pc); Discarded (pc_id pc)]. simpl. rewrite E2, Ep, I2, <- app_assoc. split; [done|constructor]. }
  assert (∃ l, events (release t pc2 d2) = events d ++ l ∧ accounted l) as Hr.
  { exists [Acquired (pc_id pc); Released (pc_id pc)]. rewrite release_events, E2, Ep, I2, <- app_assoc. split; [done|constructor]. }
  unfold conclude. destruct (t_done t); [done|]. destruct (read_cursor fam c) as [r|e]; [done|]. simpl. by destruct (isConnectionError e).
Qed.
End accounts.

(** ** The database of a query *)
Section databases.
Context {S W : Type} `{HiveServer S W}.
(** [inside s b]: the session resolves names in the database [b]; [neutral]:
    the statements that leave a session where it is. *)
Class HiveLaws (fam : family) : Type := {
  inside : S → string → Prop;
  neutral : string → Prop;
  connected_to e w s w' : connect e w = (Ok s, w') → e_database e ≠ "" → inside s (e_database e);
  used name s w c s' w' : exec ("USE " +:+ escapeHiveIdentifier name) s w = (c, s', w') → c_exec c = None → inside s' name;
  kept sql s w c s' w' : neutral sql → exec sql s w = (c, s', w') → ∀ b, inside s b → inside s' b;
  test_neutral : neutral "SELECT 1";
  timeout_neutral n : neutral (set_timeout fam +:+ fmt_d n);
}.
Context (fam : family) `{HiveLaws fam}.
Implicit Types d : hdrv S W.

Definition labelled (pc : pooledConn) : Prop := pc_database pc = "" ∨ inside (pc_session pc) (pc_database pc).
Definition well_labelled d : Prop := ∀ p, h_pool d = Some p → Forall labelled (free p).

(** The calls of a driver; a query leaves its session where it is. *)
Inductive hive_call : hdrv S W → hdrv S W → Prop :=
| hc_connect t c d : hive_call d (Connect fam t c d).2
| hc_test t d : hive_call d (TestConnection fam t d).2
| hc_query t query database d : neutral (normalizeSQL query) → hive_call d (QueryWithDB fam t query database d).2
| hc_use database d : hive_call d (UseDatabase database d).2
| hc_config cfg d : hive_call d (UpdatePoolConfig cfg d)
| hc_close d : hive_call d (Close d).2
| hc_mark d : hive_call d (MarkUnhealthy d).
Definition NewDriver (c : DatasourceConfig) (w : W) : hdrv S W := mkHdrv c None "" false w [].

Lemma labelled_same d d' : h_pool d' = h_pool d → well_labelled d → well_labelled d'.
Proof. intros E Hd p Hp. apply Hd. by rewrite <- E. Qed.
Lemma labelled_on_pool f d : (∀ p, Forall labelled (free p) → Forall labelled (free (f p))) → well_labelled d → well_labelled (on_pool f d).
Proof.
  intros Hf Hd p. unfold on_pool. destruct (h_pool d) as [q|] eqn:E; [|by rewrite E]. simpl. intros [= <-]. by apply Hf, Hd.
Qed.
Lemma create_pool gone d r d' : createConnection fam gone d = (r, d') → h_pool d' = h_pool d ∧ h_config d' = h_config d ∧ defaultDB d' = defaultDB d.
Proof. unfold createConnection. destruct (connect _ _) as [x w]. by intros [= _ <-]. Qed.
Lemma create_current gone d s d' : createConnection fam gone d = (Ok s, d') → c_Database (h_config d) ≠ "" → inside s (c_Database (h_config d)).
Proof.
  unfold createConnection. destruct (connect _ _) as [x w] eqn:E. intros Hr Hne. destruct gone; [by destruct x|]. destruct x as [s'|e]; [|done].
  injection Hr as -> _. by apply (connected_to _ _ _ _ E).
Qed.
Lemma put_labelled s database d : (database = "" ∨ inside s database) → well_labelled d → well_labelled (put s database d).
Proof.
  intros Hs. apply labelled_on_pool. intros p Hp. destruct (_ <? _); [|done]. simpl. apply Forall_app. split; [done|]. by apply Forall_singleton.
Qed.
Lemma put_fields s database d : h_config (put s database d) = h_config d ∧ defaultDB (put s database d) = defaultDB d.
Proof. unfold put, on_pool. by destruct (h_pool d). Qed.
(** A new connection is in the database of the configuration. *)
Lemma created_labelled gone d s d' : createConnection fam gone d = (Ok s, d') → defaultDB d = c_Database (h_config d) → defaultDB d = "" ∨ inside s (defaultDB d).
Proof. intros Hc Hd. destruct (decide (defaultDB d = "")) as [|Hne]; [by left|right]. rewrite Hd in *. by apply (create_current gone d s d'). Qed.
Lemma prewarm_labelled n d : defaultDB d = c_Database (h_config d) → well_labelled d → well_labelled (prewarm fam n d).
Proof.
  revert d. induction n as [|n IH]; intros d Hd Hl; [done|]. simpl. destruct (createConnection fam None d) as [[s|e] d1] eqn:E.
  - pose proof (created_labelled _ _ _ _ E Hd) as Hs. apply create_pool in E as (E1 & E2 & E3). destruct (put_fields s (defaultDB d1) d1) as [P1 P2].
    apply IH; [congruence|]. apply put_labelled; [by rewrite E3|]. by apply (labelled_same d).
  - apply create_pool in E as (E1 & _ & _). by apply (labelled_same d).
Qed.
Lemma send_labelled sql pc d c pc' d' : send sql pc d = (c, pc', d') → h_pool d' = h_pool d ∧ (neutral sql → labelled pc → labelled pc' ∧ ∀ b, inside (pc_session pc) b → inside (pc_session pc') b).
Proof.
  unfold send. destruct (exec _ _ _) as [[x s] w] eqn:E. intros [= <- <- <-]. split; [done|]. intros Hn Hl.
  pose proof (kept _ _ _ _ _ _ Hn E) as Hk. split; [|done]. unfold labelled in *. simpl. destruct Hl as [Hl|Hl]; [by left|right; by apply Hk].
Qed.
Lemma take_new_labelled t p d pc d' : h_pool d = Some p → take_new fam t p d = (Ok pc, d') → well_labelled d → well_labelled d' ∧ labelled pc.
Proof.
  intros Hp. unfold take_new. destruct (createConnection fam None d) as [[s|e] d1]; [|done]. intros [= <- <-] Hd. split; [|by left].
  intros q [= <-]. simpl. by apply Hd.
Qed.
Lemma acquire_labelled t p d pc d' : h_pool d = Some p → acquire fam t p d = (Ok pc, d') → well_labelled d → well_labelled d' ∧ labelled pc.
Proof.
  intros Hp. unfold acquire. destruct (t_taking t) as [k| |e]; [|by apply take_new_labelled|done].
  destruct (free p !! k) as [x|] eqn:Ek; [|by apply take_new_labelled]. intros [= <- <-] Hd. pose proof (Hd p Hp) as Hf. split.
  - intros q [= <-]. simpl. by apply Forall_delete.
  - by apply (Forall_lookup_1 _ _ _ _ Hf Ek).
Qed.
Lemma acquire_err_pool t p d e d' : acquire fam t p d = (Err e, d') → h_pool d' = h_pool d.
Proof.
  assert (take_new fam t p d = (Err e, d') → h_pool d' = h_pool d) as Hn.
  { unfold take_new. destruct (createConnection fam None d) as [[s|x] d1] eqn:E; [done|]. intros [= _ <-]. by apply create_pool in E as (? & _). }
  unfold acquire. destruct (t_taking t) as [k| |x]; [|done|by intros [= _ <-]]. by destruct (free p !! k).
Qed.
Lemma release_labelled t pc d : labelled pc → well_labelled d → well_labelled (release t pc d).
Proof.
  intros Hpc Hd. unfold release. apply (labelled_same (on_pool (λ p, if t_kept t then mkPool (free p ++ [pc]) (next_id p) (pool_config p) else p) d)); [done|].
  apply labelled_on_pool; [|done]. intros p Hp. destruct (t_kept t); [|done]. simpl. apply Forall_app. split; [done|]. by apply Forall_singleton.
Qed.
Lemma ensure_labelled database pc d pc' d' : ensureDatabase database pc d = (None, pc', d') → labelled pc →
  h_pool d' = h_pool d ∧ labelled pc' ∧ (database ≠ "" → inside (pc_session pc') database).
Proof.
  unfold ensureDatabase. destruct (bool_decide (database = "")) eqn:E0; simpl.
  - apply bool_decide_eq_true in E0 as ->. intros [= <- <-] Hl. by split_and!.
  - destruct (bool_decide (pc_database pc = database)) eqn:E1; [apply bool_decide_eq_true in E1|]; simpl.
    + intros [= <- <-] Hl. split_and!; [done..|]. intros Hne. subst database. by destruct Hl as [Hl|Hl].
    + unfold send. destruct (exec _ _ _) as [[c s] w] eqn:E. simpl. destruct (c_exec c) eqn:Ec; [done|]. intros [= <- <-] _. simpl.
      pose proof (used _ _ _ _ _ _ E Ec) as Hu. split_and!; [done|by right|done].
Qed.
Lemma timeout_labelled remaining pc d pc' d' :
  setQueryTimeout (extractQueryTimeout remaining (set_timeout fam) (5 * Second)).2 pc d = (pc', d') → labelled pc →
  h_pool d' = h_pool d ∧ labelled pc' ∧ ∀ b, inside (pc_session pc) b → inside (pc_session pc') b.
Proof.
  unfold setQueryTimeout. case_bool_decide as E0; [by intros [= <- <-]|]. destruct (send _ _ _) as [[c x] y] eqn:E. intros [= <- <-] Hl.
  apply send_labelled in E as [Hp Hn]. split; [done|]. apply Hn; [|done]. unfold extractQueryTimeout in *. destruct remaining as [r|]; [|done].
  destruct (r <=? 0); [done|]. destruct (_ <=? 0); [done|]. apply timeout_neutral.
Qed.
Lemma prepare_labelled t database d r d' : prepare fam t database d = (r, d') → well_labelled d →
  well_labelled d' ∧ match r with Ok pc => labelled pc ∧ (database ≠ "" → inside (pc_session pc) database) | Err _ => True end.
Proof.
  unfold prepare. intros E Hd. destruct (h_pool d) as [p|] eqn:Hp; [|by injection E as <- <-].
  destruct (acquire fam t p d) as [[pc|e] d1] eqn:Ea; [|injection E as <- <-; apply acquire_err_pool in Ea; split; [by apply (labelled_same d)|done]].
  destruct (acquire_labelled _ _ _ _ _ Hp Ea Hd) as [Hd1 Hpc]. destruct (ensureDatabase database pc d1) as [[[e|] pc2] d2] eqn:Eu.
  - injection E as <- <-. split; [|done]. apply (labelled_same d1); [|done]. simpl. revert Eu. unfold ensureDatabase. destruct (_ || _); [done|].
    destruct (send _ _ _) as [[c x] y] eqn:Es. apply send_labelled in Es as [Es _]. by destruct (c_exec c); intros [= _ _ <-].
  - destruct (ensure_labelled _ _ _ _ _ Eu Hpc) as (E2 & Hpc2 & Hin). destruct (setQueryTimeout _ pc2 d2) as [pc3 d3] eqn:Et.
    destruct (timeout_labelled _ _ _ _ _ Et Hpc2) as (E3 & Hpc3 & Hkeep). injection E as <- <-. split; [apply (labelled_same d1); [congruence|done]|].
    split; [done|]. intros Hne. by apply Hkeep, Hin.
Qed.
Lemma conclude_labelled t pc r d : labelled pc → well_labelled d → well_labelled (conclude fam t pc r d).2.
Proof.
  intros Hpc Hd. unfold conclude. destruct (t_done t); [by apply (labelled_same d)|]. simpl. destruct r as [x|e]; [by apply release_labelled|].
  destruct (isConnectionError e); [by apply (labelled_same d)|by apply release_labelled].
Qed.
Lemma call_labelled d d' : hive_call d d' → well_labelled d → well_labelled d'.
Proof.
  intros Hc Hd. destruct Hc as [t c d|t d|t query database d Hn|database d|cfg d|d|d].
  - unfold Connect. set (x := mkHdrv _ _ _ _ _ _). assert (well_labelled x) as Hx by (intros p [= <-]; constructor).
    destruct (createConnection fam (t_done t) x) as [[s|e] d1] eqn:E.
    + pose proof (created_labelled _ _ _ _ E eq_refl) as Hs. apply create_pool in E as (E1 & E2 & E3). destruct (put_fields s (defaultDB d1) d1) as [P1 P2].
      simpl. apply prewarm_labelled; [by rewrite P1, P2, E2, E3|]. apply put_labelled; [by rewrite E3|]. by apply (labelled_same x).
    + apply create_pool in E as (E1 & _). by apply (labelled_same x).
  - unfold TestConnection. destruct (h_pool d) as [p|] eqn:Hp; [|done]. destruct (acquire fam t p d) as [[pc|e] d1] eqn:Ea.
    + destruct (acquire_labelled _ _ _ _ _ Hp Ea Hd) as [Hd1 Hpc]. destruct (send _ _ _) as [[c x] y] eqn:Es. apply send_labelled in Es as [Es Hn].
      simpl. apply release_labelled; [by apply Hn; [apply test_neutral|]|by apply (labelled_same d1)].
    + apply acquire_err_pool in Ea. by apply (labelled_same d).
  - unfold QueryWithDB, queryWithDB. destruct (prepare fam t database d) as [[pc|e] d1] eqn:Ep; destruct (prepare_labelled _ _ _ _ _ Ep Hd) as [Hd1 Hr]; [|done].
    destruct (send _ _ _) as [[c x] y] eqn:Es. apply send_labelled in Es as [Es Hk]. apply conclude_labelled; [by apply Hk, Hr|by apply (labelled_same d1)].
  - unfold UseDatabase. simpl. case_bool_decide; [done|by apply (labelled_same d)].
  - by apply labelled_on_pool.
  - apply labelled_on_pool; [constructor|done].
  - by apply (labelled_same d).
Qed.

(** Whatever calls the users of a data source have made, as long as their
    statements leave their sessions in place, a query for a database is sent
    on a session that is in this database, and its answer is what the cursor
    of that statement gives, or the end of its context. *)
Theorem queries_run_in_their_database c w d t query database :
  rtc hive_call (NewDriver c w) d → database ≠ "" →
  match prepare fam t database d with
  | (Err e, d') => QueryWithDB fam t query database d = (Err e, d')
  | (Ok pc, d') =>
      inside (pc_session pc) database ∧
      (QueryWithDB fam t query database d).1 =
        match t_done t with
        | Some e => Err (Wrap e (label fam +:+ " query cancelled"))
        | None => read_cursor fam (exec (normalizeSQL query) (pc_session pc) (h_world d')).1.1
        end
  end.
Proof.
  intros Hr Hne. assert (well_labelled d) as Hd.
  { assert (well_labelled (NewDriver c w)) as H1 by done. revert H1. induction Hr as [|x y z Hxy _ IH]; [done|]. intros Hx. by apply IH, (call_labelled x). }
  unfold QueryWithDB, queryWithDB. destruct (prepare fam t database d) as [[pc|e] d1] eqn:Ep; [|done].
  destruct (prepare_labelled _ _ _ _ _ Ep Hd) as (_ & _ & Hin). split; [by apply Hin|]. unfold send. destruct (exec _ _ _) as [[x s] y]. simpl.
  unfold conclude. by destruct (t_done t).
Qed.
End databases.

(** ** Examples *)
(** A server whose sessions are the text of their last [USE]; the only query
    answers with it, and "boom" breaks the connection. *)
Definition row_of (s : string) : gmap string cell := {["db" := CText s]}.
Definition demo_cursor (sql s : string) : cursor :=
  mkCursor (if bool_decide (sql = "boom") then Some (plain_error "connection reset by peer") else None) (Ok [["db"]]) [Ok (row_of s)] None.
Definition moved (sql s : string) : string := if HasPrefix sql "USE " then after_use sql else s.
#[local] Instance demo_hive : HiveServer string unit := {
  connect e w := (Ok (escapeHiveIdentifier (or_default (e_database e) "default")), w);
  exec sql s w := (demo_cursor sql s, moved sql s, w);
  hive_error _ := None;
}.

Lemma after_use_spec s : after_use ("USE " +:+ s) = s.
Proof. unfold after_use. simpl. rewrite Nat.sub_0_r. induction s as [|c s IH]; [done|]. simpl. by f_equal. Qed.

Lemma use_prefix s : HasPrefix ("USE " +:+ s) "USE " = true.
Proof. apply prefix_app. Qed.

#[local] Instance demo_hive_laws : HiveLaws hive_family.
Proof.
  refine {| inside s b := s = escapeHiveIdentifier b; neutral sql := HasPrefix sql "USE " = false |}.
  - intros e w s w' [= <- <-] Hne. unfold or_default. by rewrite bool_decide_false.
  - intros name s w c s' w' [= <- <- <-] _. unfold moved. rewrite after_use_spec, (use_prefix (escapeHiveIdentifier name)). done.
  - intros sql s w c s' w' Hn [= <- <- <-] b Hs. unfold moved. by rewrite Hn.
  - done.
  - done.
Defined.

Definition hive_config (database : string) : DatasourceConfig := mkDsConfig "hive" "hive" 0 "" database "u" "p" "" "" "" "" "" ∅.
Definition taking_nth (k : nat) : turn := mkTurn (TakeFree k) None None true 0.
Definition on_first : turn := taking_nth 0.
Definition on_second : turn := taking_nth 1.
Definition ready (database : string) : hdrv string unit := (Connect hive_family on_first (hive_config database) (NewDriver (hive_config database) tt)).2.
Definition after_sales (database : string) : hdrv string unit := (QueryWithDB hive_family on_first "SELECT 1" "sales" (ready database)).2.

Lemma queries_run_in_their_database_witness :
  seen (QueryWithDB hive_family on_first "SELECT current_database()" "home" (after_sales "home")).1 = Some [[CText "home"]] ∧
  match prepare hive_family on_first "home" (after_sales "home") with (Ok pc, _) => pc_session pc = "home" | (Err _, _) => False end.
Proof.
  split; [by vm_compute|].
  assert (rtc (hive_call hive_family) (NewDriver (hive_config "home") tt) (after_sales "home")) as Hr.
  { eapply rtc_l; [apply (hc_connect hive_family on_first (hive_config "home"))|].
    eapply rtc_l; [by apply (hc_query hive_family on_first "SELECT 1" "sales" (ready "home"))|]. apply rtc_refl. }
  pose proof (queries_run_in_their_database hive_family (hive_config "home") tt (after_sales "home") on_first "SELECT current_database()" "home" Hr (λ Hne, ltac:(discriminate Hne))) as Hq.
  destruct (prepare hive_family on_first "home" (after_sales "home")) as [[pc|e] d'] eqn:Ep; [exact (proj1 Hq)|].
  apply (f_equal fst) in Ep. vm_compute in Ep. discriminate Ep.
Defined.

(** Without a database, neither in the call nor in the configuration, a query
    runs wherever the connection it gets was used last. *)
Lemma unnamed_database_runs_anywhere :
  seen (Query hive_family on_first "SELECT current_database()" (after_sales "")).1 = Some [[CText "default"]] ∧
  seen (Query hive_family on_second "SELECT current_database()" (after_sales "")).1 = Some [[CText "sales"]].
Proof. by vm_compute. Qed.

(** A statement [USE], which a data source that allows writes lets through,
    moves the connection and not its label: the next query for the database of
    the label runs in the other one. *)
Lemma use_statement_misleads :
  let d := (QueryWithDB hive_family on_second "USE private" "sales" (after_sales "home")).2 in
  seen (QueryWithDB hive_family on_second "SELECT current_database()" "sales" d).1 = Some [[CText "private"]].
Proof. by vm_compute. Qed.

(** A broken connection is thrown away and the driver is marked. *)
Lemma broken_connection_is_discarded :
  let d := (QueryWithDB hive_family on_first "boom" "home" (ready "home")).2 in
  unhealthy d = true ∧ events d = [Acquired 0; Discarded 0] ∧ (free <$> h_pool d) ≠ None.
Proof. by vm_compute. Qed.
